(* ===== verification/_CoqProject ===== *)
-Q . S2P
Prelude.v
CrcTheory.v
Crc32.v
Crc16.v
CString.v
SstMap.v
SstObject.v
SstDevice.v
SecureStorage.v
CircleBuf.v
DbList.v
UiTimer.v
Siit.v
SiitIcmp.v
Siit6.v
SiitSpin.v
SiitXmit.v
RwTask.v
Ion.v
IonRun.v
LinkList.v
Micrond.v
AactdCom.v
Aactd.v
Page.v
Charset.v
Owipcalc.v
OwipcalcRun.v
Block.v
ScanStack.v
Scan.v
ScanList.v
ScanRun.v
Rat.v
RatRun.v
RatPlay.v
Insmod.v
InsmodRun.v
Convert.v
ConvertRun.v
Bitmap.v
Thermal.v
ThermalRun.v
Maccalc.v
Mjson.v
TaskConf.v
TaskConfRun.v
Sched.v
SchedRun.v
SchedThm.v
