(* ===== verification/Prelude.v ===== *)
(** * A verification library for the Tina OpenWrt packages

    The repository is a tree of OpenWrt packages for Allwinner boards.  Most of
    it is build recipes, patches, vendored libraries and programs that drive
    devices; its own logic is in a few C programs and libraries.  This
    development models the ones named below on the kernel's terms, as executable
    functions, and proves what makes them correct.

    ** The parts, their files and the code they model

    - The key box: [allwinner/security/optee-keybox/src/na/libkeybox].  It keeps
      up to 31 named secrets in 4096-byte blocks on NAND or, twice, on an eMMC
      card; block 0 is a map from names to blocks.
      [Crc32]: the checksum ([local_crc32.c]).  [SstMap]: the name map
      ([__probe_name_in_map], [__fill_name_in_map]).  [SstObject]: block checks
      and the object wrapper.  [SstDevice]: block input and output over files
      and ioctls, with both copies ([_sd_*], [sd_read_*], [nv_*], and
      [secure_storage_ioctl.c]).  [SecureStorage]: sessions, objects and the API
      ([sunxi_secure_*], [api.c]).
    - The storage test rwcheck: [allwinner/testtools/testapk/rwcheck/src].
      [Crc16]: file checksums ([crc16.c] and [append_crc] of [fops.c]).  [RwTask]:
      the command line, the sizes and the rounds that create, check and remove
      files ([rwcheck.c], [size_unit.c], [copy_file] of [fops.c]).
    - The middleware of smartva:
      [thirdparty/gui/lvgl-6/smartva/src/common/middle].  [CircleBuf]: the audio
      ring ([circle_buf.c]).  [DbList]: locked lists ([dbList.c]).  [UiTimer]:
      the timers on those lists ([ui_timer.c], [default_timer.c]).  [Page]: the
      page switcher, a task over such lists ([page/page.c]).  [Charset]: UTF-8,
      UTF-16 and the conversion of strings ([va_lvgl/va_font]: [utf8.c],
      [utf16be.c], [charset.c], the functions of [gbk.c]).  The media files
      ([scan_file]): [Block] bytes of a memory block; [ScanStack] the stack of
      directories ([ScanStack.c]); [Scan] the scanner ([scan.c]), [ScanList] its
      chain of lists, [ScanRun] what it finds; [Rat] the open lists and playlists
      ([rat/rat.c], [rat/rat_npl.c]), [RatRun] their invariant call by call,
      [RatPlay] whole sessions.
    - The stateless IP/ICMP translator, a network driver:
      [feeds/net/siit/src/siit.c].  [Siit]: [ip4_ip6] and what it does to TCP and
      UDP.  [SiitIcmp]: ICMP errors with the packet they include.  [Siit6]:
      [ip6_ip4].  [SiitSpin]: which translations end.  [SiitXmit]: [ip4_fragment] and
      [siit_xmit].
    - The address calculator: [feeds/net/owipcalc/src].  [Owipcalc]: the
      operations on the stack of addresses ([owipcalc.c]).  [OwipcalcRun]:
      parsing, printing, the table of commands, [runop] and [main] ([main.c]).
    - The cron daemon: [feeds/utils/micrond/src/micrond.c].  [Micrond]: fields,
      lines and files of a crontab, the check of a job, the loop over the clock.
    - The audio control daemon: [allwinner/audio/aactd-lib/files] and
      [allwinner/audio/aactd/files/daemon].  [AactdCom]: its messages ([common.c],
      [communicate.c]).  [Aactd]: reception, dispatch, the register writes and the
      client threads ([main.c], [local.c], [drc_hw.c], [eq_sw.c]).
    - The lists of tinymp3: [allwinner/audio/tinymp3/src/libplayer/linklist.c].
      [LinkList]: lists that share one memory of nodes.

    - The parallel module loader: [allwinner/common/parallel_insmod/src].
      [Insmod]: its threads, their children and [main] as one step relation
      ([parallel_insmod.c]).  [InsmodRun]: what every interleaving keeps.
    - The allocator of video memory: [allwinner/common/libawion/src/ion_alloc.c].
      [Ion]: the context and its calls on the kernel's devices.  [IonRun]: what
      they hold, map and translate.
    - The frames of the camera program: [allwinner/vision/camerademo/src].
      [Convert]: the conversions between the pixel formats and to RGB
      ([convert.c]) and the table of formats ([camerademo.c]).  [ConvertRun]: the
      formats as places of samples, and what the conversions compute.  [Bitmap]:
      the files a frame is saved to ([convert.c], [common.c]).
    - The fan controller: [allwinner/common/thermal_pwm/src].  [Thermal]: the
      temperature files, the controller with its single-precision numbers, the PWM
      channel and the loop ([utils.c], [platform.c], [pid.c], [main.c]).
      [ThermalRun]: its rounding, and the controller over the integers.
    - The MAC address tool: [feeds/net/maccalc/src/main.c].  [Maccalc].
    - The test framework tinatest: [allwinner/testtools/tinatest/src].  [Mjson]: access
      to the settings document by paths ([library/mjson]).  [TaskConf]: the
      settings, the shared memory and the list of test cases (the first part of
      [core/task.c], [core/shmem.c], the arguments of [core/tinatest.c]);
      [TaskConfRun]: what is listed.  [Sched]: the two threads that run the list,
      the processes they start and their signals, as one step relation (the rest of
      [core/task.c]; the pipe of [library/sync/sync.c]); [SchedRun]: its invariants;
      [SchedThm]: what follows.

    [Prelude] (this file) holds the machine integers, byte sequences, buffers and
    the tactics; [CrcTheory] the linear algebra of CRCs that both checksums and
    the block checks use; [CString] C strings and decimal conversion, used by the
    map, the devices, the lists, the timers and the programs that read text.

    ** How state and operations correspond

    Globals and structures are records ([SstDevice.st], [CircleBuf.cbuf],
    [DbList.db_list], [UiTimer.timers], [Page.st], [SiitXmit.net_device],
    [Owipcalc.calc], [LinkList.mem], [Aactd.st], [Rat.world], [Insmod.state],
    [Thermal.PID], [TaskConf.state], [Sched.world]); packed structures
    that are checksummed or sent are byte lists with the offsets of their fields.
    Each C function is a definition of the same name.  Functions that perform
    input or output or write through a pointer are written in a small monad of
    their component: [SstDevice.M] carries the process state with a schedule of
    the outcomes of the next system calls, [Siit.M] the destination buffer,
    [Owipcalc.C] the stack and the output.
    Errors are the values the code returns; undefined behaviour (an access
    outside a buffer, a misused mutex) is a separate outcome ([None], [Undef],
    [Fault]), as is a thread that waits for ever ([Deadlock], or a wait that is
    [None]).  Integers are [Z] with their wrap-around written out ([u8] to [u64],
    [s32], [s64]).

    Interfaces: the drivers behind the ioctls are a class [SstDevice.Driver]; the
    block stores that the key box library needs are a class [NvStore], whose laws
    the eMMC store with its two copies discharges ([sd_store]); the library's
    theorems are proved against that class.  The checksums of the kernel are a
    class [Siit.SiitEnv], memory allocation and unwritten memory a class
    [SiitXmit.XmitEnv] with laws [XmitLaws].  The IPv6 notation of the C library is
    a class [OwipcalcRun.Inet] with its laws, json-c a class [Mjson.JsonC] with laws
    [JsonLaws], the GBK tables a class
    [Charset.GbkTables], the hooks of the pages and the local time of the clock
    arguments of the definitions.  Concrete instances are given for the examples.

    ** What the theorems show

    - [Crc32], [Crc16]: the table-driven, word-at-a-time or chunked code equals
      the bitwise CRC for every buffer, address and chunking; a sealed file is
      accepted and only a sealed one is; short bursts are always detected.
    - [SstMap], [SstObject]: a stored name is found again and others keep their
      place; unwrapping inverts wrapping; a corrupted object is refused.
    - [SstDevice]: what is read under any failures is a good copy; after any
      failure or a torn write of a block the old or the new block is read, or a torn
      one that passes its CRC.
    - [SecureStorage]: the API refines an ordered finite map of names: what is
      written is read back in a later session, under the first stored name that is a
      prefix of the name written if there is one, and other names are unaffected;
      listing, erasing, and the paths that return success with nothing read or
      leave the mutex locked.
    - [CircleBuf]: a bounded queue; under every interleaving of one reader and one
      writer, with every unlocked load a step, still a queue, and exactly which
      copies leave the ring.  [DbList]: counting, and a queue under every interleaving
      of one producer and one consumer, with the wake-up that can be lost.
      [UiTimer]: the timer task and the message thread as two threads: how often
      a callback runs, with the messages that wait or were not sent; the wake-up
      whose loss stops a timer for ever; registration.
    - [Siit] and its companions: the translated packet byte for byte (headers,
      fragment header, checksums, ICMP tables, the included packet); the round
      trip of TCP and UDP; fragments that cover the payload within 1280 bytes;
      the end of the extension header walk and of the transmission; every buffer freed
      or delivered once.
    - [Page]: requests are handled in order, whatever the hooks do; a switch whose
      animation cannot end blocks all later ones.  [Charset]: UTF-8 is read back,
      only shortest encodings are accepted; the conversion that runs past its
      source.
    - [Owipcalc], [OwipcalcRun]: the operations are those on address blocks (with
      the cases in which they are not), the byte loops are 128-bit arithmetic, the
      program ends on every command line with known codes, printing is undone by
      parsing, and a whole command line answers the question it is asked.
    - [Micrond]: a line of a crontab runs its command exactly at the times its
      fields select, fields fit their members, and no minute of an unmoved clock is
      left out; the number for which the loop of a range overflows.
    - [AactdCom], [Aactd]: messages survive the wire; a connection is the list of
      its messages however it is cut; the two length checks with which a peer
      overruns the buffers, stated exactly; what a client thread is sent, and the
      update it can miss.
    - [LinkList]: the pointer operations are those of sequences, also between lists;
      destruction frees exactly the nodes of the list.
    - [RwTask]: a run leaves the directory as it was, the size it chooses leaves
      the space it promises, and a round reports exactly the files whose checksum
      is wrong.
    - [InsmodRun]: under every interleaving no module of a later group is started
      before the earlier groups have been loaded, no lock is misused, and the loader
      ends with every module loaded once.
    - [Ion], [IonRun]: whatever the kernel replies the lock and the mappings stay
      right; a run without failures holds exactly what its live buffers need;
      addresses are translated to the device and back.
    - [ScanStack], [ScanRun]: the packed stack is a stack of paths; the scan finds
      exactly the wanted files of the tree in a fixed order, and reading them
      through a cursor is the same whether they are scanned at once or, where
      every directory opens, a few at a time.  [RatRun], [RatPlay]: no sequence of
      correct calls makes the lists, the scans
      and the playlists disagree; a path and its index are found from each other;
      the mode that rotates goes round the files.
    - [ConvertRun], [Bitmap]: every conversion stays in its blocks and writes the
      picture its format describes; copies between the YUV formats show the same
      picture; a saved photo decodes to the frame's colours, and the planes of a
      frame are put together again.  [ThermalRun]: the controller is within a
      nanosecond of one over the integers, its duties are safe whatever fails, and it ends up only switching.
      [Maccalc]: addition modulo 2^24 and its inverse, masks, the binary form.
    - [TaskConfRun]: the test cases listed are the enabled commands of the settings
      document, in its order, with their settings; whatever the document says, the
      list can be run.  [SchedThm]: under every interleaving of the threads and of
      the deaths of processes the limit and the test cases that run alone are
      respected, no step is undefined, and the program gets to its end with every
      test case run, unless one of the named mishaps happens; what each of them leads
      to.
    - Several theorems state defects: the reader of a ring that loads a size again
      without the lock and copies past its end, the name that is a prefix of another, the header lengths
      the translator does not check.

    ** Bounds and fuel

    Loops over data recurse on the data.  The others take fuel that the theorems
    prove sufficient: the map scans recurse on the 4096 bytes of the block; the
    chunked file read takes one step per byte left; the translator calls itself
    at depth two because an included ICMP message is dropped; its extension
    header walk takes one step per eight bytes, and a walk that needs more is
    shown to be stuck at an oversized destination header; fragmentation takes one
    step per 1232 bytes.  The loop of [owipcalc] takes one turn per argument and
    one more; a string conversion one per byte of the destination and one more; a
    crontab range one per value and one more, a field one call per comma; reads on
    a connection one per byte and per event, and so does its loop; the walks of a
    linked list one per node, which only a cyclic list exceeds.  The rounds of
    [rwcheck] take one step per byte of free space, the scan of a tree one turn
    per directory, the search for a path one turn per file.  The loops over the
    pixels of a frame take one turn per index, which [for_lt] takes from its limits.
    [TaskConf.task_add] needs the depth of the document, and no fuel is enough for a
    root with a member without a name.  [Sched] is a relation and takes none:
    [SchedRun.measure] bounds the length of its runs.

    ** Assumptions and what is not modelled

    The targets are 32-bit and little endian.  Messages ([SST_DBG], [printk],
    [PDEBUG]) are not modelled.  The constants of the kernel's headers (protocol
    numbers, structure layouts) are written out.  Compiler and hardware
    reordering of the unlocked reads is not considered: the threads interleave
    load by load in the order of the source.  The disk does not change during one scan, and what else [rwcheck] and
    the scanner need of it (regular files, a file system as a function) is said in
    their files; [char] is unsigned as on ARM.  The source and the destination of a
    conversion do not overlap, files are written whole, and single-precision numbers
    stay within their exponents.  Not modelled: command line front ends, device and
    GUI glue, vendored and generated code, the tables of GBK, the start-up of the
    daemons, and of [tinatest] the files of the reboot mode, the reports and the
    collectors; the theorems on its scheduler are for lists without a test case that
    reboots. *)
From Stdlib Require Export ZArith Lia Bool.
From stdpp Require Export base list numbers option.

#[global] Open Scope Z_scope.

(** ** Machine integers

    Unsigned w-bit integers are [Z] in [0, 2^w); arithmetic wraps with
    [u8], [u16], [u32], [u64]; two's complement [int] and [long] values wrap
    with [s32] and [s64]. *)

Definition wrap (w x : Z) : Z := x mod 2 ^ w.
Definition u8 (x : Z) : Z := x mod 2 ^ 8.
Definition u16 (x : Z) : Z := x mod 2 ^ 16.
Definition u32 (x : Z) : Z := x mod 2 ^ 32.
Definition u64 (x : Z) : Z := x mod 2 ^ 64.
Definition swrap (w x : Z) : Z := (x + 2 ^ (w - 1)) mod 2 ^ w - 2 ^ (w - 1).
Definition s32 (x : Z) : Z := swrap 32 x.
Definition s64 (x : Z) : Z := swrap 64 x.

(** A byte is an integer in [0, 256). *)
Definition byte_ok (b : Z) : Prop := 0 <= b < 256.
Abbreviation bytes_ok := (Forall byte_ok).

#[global] Instance byte_ok_dec (b : Z) : Decision (byte_ok b).
Proof. unfold byte_ok. apply _. Defined.

Create HintDb s2l discriminated.
Create Rewrite HintDb s2lr.

(** Case analysis on the boolean comparisons of a goal or a hypothesis. *)
Ltac bool_cases :=
  repeat match goal with
  | |- context [?a <? ?b] => destruct (Z.ltb_spec a b)
  | |- context [?a <=? ?b] => destruct (Z.leb_spec a b)
  | |- context [?a =? ?b] => destruct (Z.eqb_spec a b)
  | H : context [?a <? ?b] |- _ => destruct (Z.ltb_spec a b)
  | H : context [?a <=? ?b] |- _ => destruct (Z.leb_spec a b)
  | H : context [?a =? ?b] |- _ => destruct (Z.eqb_spec a b)
  end.

(** Equality of integers, bit by bit. *)
Ltac bitwise :=
  apply Z.bits_inj'; let n := fresh "n" in let Hn := fresh "Hn" in
  intros n Hn; repeat first
    [ rewrite Z.lxor_spec | rewrite Z.land_spec | rewrite Z.lor_spec
    | rewrite Z.lnot_spec by lia
    | rewrite Z.shiftr_spec by lia | rewrite Z.shiftl_spec by lia
    | rewrite Z.testbit_0_l ].

Lemma u8_range x : 0 <= u8 x < 256.
Proof. unfold u8. apply Z.mod_pos_bound. lia. Qed.
Lemma u16_range x : 0 <= u16 x < 65536.
Proof. unfold u16. apply Z.mod_pos_bound. lia. Qed.
Lemma u32_range x : 0 <= u32 x < 2 ^ 32.
Proof. unfold u32. apply Z.mod_pos_bound. lia. Qed.
Lemma u64_range x : 0 <= u64 x < 2 ^ 64.
Proof. unfold u64. apply Z.mod_pos_bound. lia. Qed.
Lemma u8_id x : 0 <= x < 256 -> u8 x = x.
Proof. intros. unfold u8. apply Z.mod_small. lia. Qed.
Lemma u16_id x : 0 <= x < 65536 -> u16 x = x.
Proof. intros. unfold u16. apply Z.mod_small. lia. Qed.
Lemma u32_id x : 0 <= x < 2 ^ 32 -> u32 x = x.
Proof. intros. unfold u32. apply Z.mod_small. lia. Qed.
Lemma u64_id x : 0 <= x < 2 ^ 64 -> u64 x = x.
Proof. intros. unfold u64. apply Z.mod_small. lia. Qed.

Lemma swrap_id w x : 0 < w -> - 2 ^ (w - 1) <= x < 2 ^ (w - 1) -> swrap w x = x.
Proof.
  intros Hw Hx. unfold swrap.
  assert (2 ^ w = 2 * 2 ^ (w - 1)) as E.
  { rewrite <- Z.pow_succ_r by lia. f_equal. lia. }
  rewrite Z.mod_small by lia. lia.
Qed.
Lemma s32_id x : - 2 ^ 31 <= x < 2 ^ 31 -> s32 x = x.
Proof. intros. apply swrap_id; simpl; lia. Qed.
Lemma s64_id x : - 2 ^ 63 <= x < 2 ^ 63 -> s64 x = x.
Proof. intros. apply swrap_id; simpl; lia. Qed.

#[export] Hint Resolve u8_range u16_range u32_range u64_range : s2l.

(** Closes [bytes_ok] goals on explicit lists. *)
Ltac solve_bytes :=
  repeat first
    [ assumption | apply Forall_nil_2 | apply Forall_cons_2
    | apply Forall_app; split | solve [unfold byte_ok in *; lia] ].

(** Closes decidable goals on closed terms by evaluation. *)
Ltac by_compute := apply (bool_decide_unpack _); vm_compute; exact I.

(** ** Bit-level helper lemmas *)

Lemma land_255 x : Z.land x 255 = x mod 256.
Proof. change 255 with (Z.ones 8). rewrite Z.land_ones; [reflexivity | lia]. Qed.

Lemma land_ffff x : Z.land x 0xffff = u16 x.
Proof. change 0xffff with (Z.ones 16). now rewrite Z.land_ones. Qed.

Lemma lt_pow2_testbit x n :
  0 <= n -> 0 <= x -> (forall m, n <= m -> Z.testbit x m = false) -> x < 2 ^ n.
Proof.
  intros Hn Hx Hb.
  assert (x = x mod 2 ^ n) as E.
  { rewrite <- Z.land_ones by lia. bitwise.
    destruct (Z.lt_ge_cases n0 n).
    - rewrite Z.ones_spec_low by lia. now rewrite andb_true_r.
    - rewrite Hb by lia. reflexivity. }
  rewrite E. apply Z.mod_pos_bound. lia.
Qed.

Lemma testbit_high x n m : 0 <= x < 2 ^ n -> n <= m -> Z.testbit x m = false.
Proof.
  intros [Hx Hlt] Hm. destruct (Z.eq_dec x 0) as [-> | Hnz]; [apply Z.testbit_0_l |].
  apply Z.bits_above_log2; [lia |].
  apply Z.lt_le_trans with n; [| lia]. apply Z.log2_lt_pow2; lia.
Qed.

Lemma lxor_range a b n :
  0 <= n -> 0 <= a < 2 ^ n -> 0 <= b < 2 ^ n -> 0 <= Z.lxor a b < 2 ^ n.
Proof.
  intros Hn Ha Hb. split; [apply Z.lxor_nonneg; lia |].
  apply lt_pow2_testbit; [lia | apply Z.lxor_nonneg; lia |].
  intros m Hm. rewrite Z.lxor_spec.
  rewrite (testbit_high a n), (testbit_high b n) by lia. reflexivity.
Qed.

Lemma shiftr_range a k n : 0 <= k -> 0 <= a < 2 ^ n -> 0 <= Z.shiftr a k < 2 ^ n.
Proof.
  intros Hk Ha. rewrite Z.shiftr_div_pow2 by lia.
  assert (0 < 2 ^ k) by (apply Z.pow_pos_nonneg; lia).
  split; [apply Z.div_pos; lia |]. apply Z.le_lt_trans with a; [| lia].
  apply Z.div_le_upper_bound; nia.
Qed.

Lemma lxor_swap a b c : Z.lxor (Z.lxor a b) c = Z.lxor (Z.lxor a c) b.
Proof. rewrite !Z.lxor_assoc. f_equal. apply Z.lxor_comm. Qed.

Lemma lxor_cancel_r a b c : Z.lxor a c = Z.lxor b c -> a = b.
Proof.
  intros H. rewrite <- (Z.lxor_0_r a), <- (Z.lxor_0_r b), <- (Z.lxor_nilpotent c).
  rewrite <- !Z.lxor_assoc. congruence.
Qed.

(** A word split into its low byte and the rest. *)
Lemma split_low_byte x : Z.lxor (Z.land x 255) (Z.shiftl (Z.shiftr x 8) 8) = x.
Proof.
  bitwise. change 255 with (Z.ones 8). destruct (Z.lt_ge_cases n 8).
  - rewrite Z.ones_spec_low, andb_true_r by lia.
    rewrite (Z.testbit_neg_r _ (n - 8)) by lia. apply xorb_false_r.
  - rewrite Z.ones_spec_high, andb_false_r by lia. rewrite Z.shiftr_spec by lia.
    rewrite xorb_false_l. f_equal. lia.
Qed.

Lemma byte_cons_lxor b y : byte_ok b -> b + 256 * y = Z.lxor b (Z.shiftl y 8).
Proof.
  unfold byte_ok. intros Hb. rewrite Z.shiftl_mul_pow2, (Z.mul_comm y) by lia.
  change (2 ^ 8) with 256. apply Z.add_nocarry_lxor.
  change 256 with (2 ^ 8). rewrite Z.mul_comm, <- Z.shiftl_mul_pow2 by lia.
  bitwise. destruct (Z.lt_ge_cases n 8).
  - rewrite (Z.testbit_neg_r _ (n - 8)) by lia. apply andb_false_r.
  - rewrite (testbit_high b 8) by lia. reflexivity.
Qed.

Lemma byte_shiftr_8 b : byte_ok b -> Z.shiftr b 8 = 0.
Proof. unfold byte_ok. intros. rewrite Z.shiftr_div_pow2 by lia. apply Z.div_small. lia. Qed.

(** Facts about a small range, and about the bytes, by evaluation. *)
Lemma range_forall (P : Z -> bool) lo n x : forallb P (seqZ lo n) = true -> lo <= x < lo + n -> P x = true.
Proof. intros HP Hx. rewrite forallb_forall in HP. apply HP, list_elem_of_In, elem_of_seqZ. lia. Qed.

Lemma byte_forall (P : Z -> bool) b : forallb P (seqZ 0 256) = true -> byte_ok b -> P b = true.
Proof. intros HP Hb. exact (range_forall P 0 256 b HP Hb). Qed.

Lemma byte_forall_eq (f g : Z -> Z) b : forallb (fun x => f x =? g x) (seqZ 0 256) = true -> byte_ok b -> f b = g b.
Proof. intros Hf Hb. apply Z.eqb_eq. exact (byte_forall (fun x => f x =? g x) b Hf Hb). Qed.

Lemma lor_low_bits a b k : 0 <= k -> 0 <= b < 2 ^ k -> Z.lor (a * 2 ^ k) b = a * 2 ^ k + b.
Proof.
  intros Hk Hb. assert (Z.land (a * 2 ^ k) b = 0) as E.
  { rewrite <- Z.shiftl_mul_pow2 by lia. bitwise. destruct (Z.lt_ge_cases n k).
    - rewrite (Z.testbit_neg_r _ (n - k)) by lia. reflexivity.
    - rewrite (testbit_high b k) by lia. apply andb_false_r. }
  rewrite Z.add_nocarry_lxor by exact E. symmetry. now apply Z.lxor_lor.
Qed.

(** ** Little- and big-endian byte sequences *)

Fixpoint le_combine (l : list Z) : Z :=
  match l with
  | [] => 0
  | b :: l' => b + 256 * le_combine l'
  end.

Fixpoint le_split (n : nat) (x : Z) : list Z :=
  match n with
  | O => []
  | S n' => x mod 256 :: le_split n' (x / 256)
  end.

Definition be_combine (l : list Z) : Z := le_combine (rev l).
Definition be_split (n : nat) (x : Z) : list Z := rev (le_split n x).

Lemma length_le_split n x : length (le_split n x) = n.
Proof. revert x. induction n; intros; simpl; auto. Qed.

Lemma le_split_bytes n x : bytes_ok (le_split n x).
Proof.
  revert x. induction n; intros; simpl; constructor; auto.
  apply Z.mod_pos_bound. lia.
Qed.

Lemma le_combine_range l : bytes_ok l -> 0 <= le_combine l < 256 ^ Z.of_nat (length l).
Proof.
  induction 1 as [| b l Hb _ IH]; [simpl; lia |].
  cbn [le_combine length]. rewrite Nat2Z.inj_succ, Z.pow_succ_r by lia.
  unfold byte_ok in Hb. lia.
Qed.

Lemma le_combine_split n x : le_combine (le_split n x) = x mod 256 ^ Z.of_nat n.
Proof.
  revert x. induction n as [| n IH]; intros x.
  - simpl. now rewrite Z.mod_1_r.
  - cbn [le_combine le_split]. rewrite IH, Nat2Z.inj_succ, Z.pow_succ_r by lia.
    rewrite Z.rem_mul_r by (try apply Z.pow_nonzero; lia). lia.
Qed.

Lemma le_split_combine l : bytes_ok l -> le_split (length l) (le_combine l) = l.
Proof.
  induction 1 as [| b l Hb _ IH]; [reflexivity |].
  cbn [le_combine length le_split]. unfold byte_ok in Hb.
  rewrite (Z.mul_comm 256), Z.mod_add, Z.div_add by lia.
  rewrite Z.mod_small, Z.div_small, Z.add_0_l, IH by lia. reflexivity.
Qed.

Lemma length_be_split n x : length (be_split n x) = n.
Proof. unfold be_split. now rewrite length_rev, length_le_split. Qed.

Lemma be_split_bytes n x : bytes_ok (be_split n x).
Proof. unfold be_split. apply Forall_rev, le_split_bytes. Qed.

Lemma be_combine_range l : bytes_ok l -> 0 <= be_combine l < 256 ^ Z.of_nat (length l).
Proof.
  intros H. unfold be_combine. rewrite <- (length_rev l).
  now apply le_combine_range, Forall_rev.
Qed.

Lemma be_combine_split n x : be_combine (be_split n x) = x mod 256 ^ Z.of_nat n.
Proof. unfold be_combine, be_split. rewrite rev_involutive. apply le_combine_split. Qed.

Lemma be_split_combine l : bytes_ok l -> be_split (length l) (be_combine l) = l.
Proof.
  intros H. unfold be_combine, be_split. rewrite <- (length_rev l).
  rewrite le_split_combine; [apply rev_involutive | now apply Forall_rev].
Qed.

#[export] Hint Resolve le_split_bytes be_split_bytes : s2l.
#[export] Hint Rewrite length_le_split length_be_split : s2lr.

(** ** Buffers: byte lists read and written at an offset

    [blit dst off src] is [memcpy(dst + off, src, length src)] when the
    destination has the room; [bytes_at] reads [n] bytes at an offset. *)

Definition bytes_at (l : list Z) (off n : nat) : list Z := take n (drop off l).

Definition blit (dst : list Z) (off : nat) (src : list Z) : list Z :=
  take off dst ++ src ++ drop (off + length src) dst.

Lemma length_bytes_at (l : list Z) off n :
  (off + n <= length l)%nat -> length (bytes_at l off n) = n.
Proof. intros. unfold bytes_at. rewrite length_take, length_drop. lia. Qed.

Lemma length_blit (dst src : list Z) off :
  (off + length src <= length dst)%nat -> length (blit dst off src) = length dst.
Proof.
  intros. unfold blit. rewrite !length_app, length_take, length_drop. lia.
Qed.

Lemma bytes_at_blit_same (dst src : list Z) off n :
  (off <= length dst)%nat -> n = length src -> bytes_at (blit dst off src) off n = src.
Proof.
  intros H ->. unfold bytes_at, blit.
  rewrite drop_app_length' by (rewrite length_take; lia).
  now rewrite take_app_length.
Qed.

Lemma bytes_at_blit_before (dst src : list Z) off off' n :
  (off' + n <= off)%nat -> (off <= length dst)%nat ->
  bytes_at (blit dst off src) off' n = bytes_at dst off' n.
Proof.
  intros H H2. unfold bytes_at, blit.
  rewrite <- (take_drop off dst) at 3.
  rewrite !drop_app_le by (rewrite length_take; lia).
  rewrite !take_app_le by (rewrite length_drop, length_take; lia). reflexivity.
Qed.

Lemma bytes_at_blit_after (dst src : list Z) off off' n :
  (off + length src <= off')%nat -> (off + length src <= length dst)%nat ->
  bytes_at (blit dst off src) off' n = bytes_at dst off' n.
Proof.
  intros H H2. unfold bytes_at, blit. rewrite app_assoc.
  rewrite drop_app_ge by (rewrite length_app, length_take; lia).
  rewrite drop_drop. do 2 f_equal. rewrite length_app, length_take. lia.
Qed.

Lemma bytes_ok_take n (l : list Z) : bytes_ok l -> bytes_ok (take n l).
Proof. apply Forall_take. Qed.
Lemma bytes_ok_drop n (l : list Z) : bytes_ok l -> bytes_ok (drop n l).
Proof. apply Forall_drop. Qed.

Lemma blit_bytes_ok (dst src : list Z) off : bytes_ok dst -> bytes_ok src -> bytes_ok (blit dst off src).
Proof.
  intros. unfold blit. rewrite !Forall_app.
  auto using Forall_take, Forall_drop.
Qed.

Lemma bytes_at_ok (l : list Z) off n : bytes_ok l -> bytes_ok (bytes_at l off n).
Proof. intros. unfold bytes_at. auto using Forall_take, Forall_drop. Qed.

#[export] Hint Resolve blit_bytes_ok bytes_at_ok bytes_ok_take bytes_ok_drop : s2l.
