(* ===== verification/CrcTheory.v ===== *)
(** * Reflected table-driven CRCs

    Shared theory of the two checksums of the repository: crc32 of the key box
    (Crc32.v) and crc16 of rwcheck (Crc16.v).  Both update the register with
    [crc = tab[(crc ^ b) & 255] ^ (crc >> 8)]; the reference shifts the register
    one bit at a time and xors the reflected polynomial whenever a one leaves
    it.  The theory relates the two, shows both linear, and gives the error
    detection facts. *)
From S2P Require Import Prelude.

Section CrcLinear.
(** The reflected polynomial. *)
Variable poly : Z.

Definition crc_bit (c : Z) : Z :=
  if Z.odd c then Z.lxor (Z.shiftr c 1) poly else Z.shiftr c 1.

Fixpoint crc_bits (n : nat) (c : Z) : Z :=
  match n with O => c | S n' => crc_bit (crc_bits n' c) end.

Definition crc_byte (c b : Z) : Z := crc_bits 8 (Z.lxor c b).

Definition crc_bytes (c : Z) (l : list Z) : Z := fold_left crc_byte l c.

(** ** Linearity *)

Lemma crc_bit_lxor x y : crc_bit (Z.lxor x y) = Z.lxor (crc_bit x) (crc_bit y).
Proof.
  unfold crc_bit. rewrite <- !Z.bit0_odd, Z.lxor_spec, Z.shiftr_lxor.
  destruct (Z.testbit x 0), (Z.testbit y 0); simpl;
    bitwise; repeat match goal with |- context [Z.testbit ?a ?b] => destruct (Z.testbit a b) end;
    reflexivity.
Qed.

Lemma crc_bits_lxor n x y : crc_bits n (Z.lxor x y) = Z.lxor (crc_bits n x) (crc_bits n y).
Proof.
  induction n as [| n IH]; [reflexivity |]. cbn [crc_bits]. rewrite IH. apply crc_bit_lxor.
Qed.

Lemma crc_bits_add n m x : crc_bits (n + m) x = crc_bits n (crc_bits m x).
Proof. induction n as [| n IH]; [reflexivity |]. cbn [crc_bits Nat.add]. now rewrite IH. Qed.

(** A register whose low [n] bits are zero only shifts. *)
Lemma crc_bits_shiftl n x : crc_bits n (Z.shiftl x (Z.of_nat n)) = x.
Proof.
  revert x. induction n as [| n IH]; intros x; [apply Z.shiftl_0_r |].
  replace (S n) with (n + 1)%nat by lia. rewrite crc_bits_add.
  replace (crc_bits 1 (Z.shiftl x (Z.of_nat (n + 1)))) with (Z.shiftl x (Z.of_nat n)); [apply IH |].
  cbn. unfold crc_bit. rewrite <- Z.bit0_odd, Z.shiftl_spec_low by lia.
  rewrite Z.shiftr_shiftl_l by lia. f_equal. lia.
Qed.

Lemma crc_bits_split n x :
  crc_bits n x = Z.lxor (crc_bits n (Z.land x (Z.ones (Z.of_nat n)))) (Z.shiftr x (Z.of_nat n)).
Proof.
  rewrite <- (crc_bits_shiftl n (Z.shiftr x (Z.of_nat n))). rewrite <- crc_bits_lxor.
  f_equal. bitwise. destruct (Z.lt_ge_cases n0 (Z.of_nat n)).
  - rewrite Z.ones_spec_low, andb_true_r, (Z.testbit_neg_r _ (n0 - _)) by lia. now rewrite xorb_false_r.
  - rewrite Z.ones_spec_high, andb_false_r, Z.shiftr_spec by lia.
    rewrite xorb_false_l. f_equal. lia.
Qed.

Lemma crc_bytes_app c l1 l2 : crc_bytes c (l1 ++ l2) = crc_bytes (crc_bytes c l1) l2.
Proof. apply fold_left_app. Qed.

(** ** A block of bytes enters the register as one little-endian word *)

Lemma crc_bytes_word l c :
  bytes_ok l -> crc_bytes c l = crc_bits (8 * length l) (Z.lxor c (le_combine l)).
Proof.
  intros Hl. revert c. induction Hl as [| b l Hb Hl IH]; intros c.
  - cbn. now rewrite Z.lxor_0_r.
  - cbn [length le_combine]. change (crc_bytes c (b :: l)) with (crc_bytes (crc_byte c b) l).
    rewrite IH. replace (8 * S (length l))%nat with (8 * length l + 8)%nat by lia.
    rewrite crc_bits_add. f_equal. unfold crc_byte.
    rewrite byte_cons_lxor by assumption.
    rewrite <- Z.lxor_assoc, (crc_bits_lxor 8 (Z.lxor c b)).
    f_equal. exact (eq_sym (crc_bits_shiftl 8 _)).
Qed.

End CrcLinear.

Section CrcReference.
(** Register width and reflected polynomial. *)
Variables (w poly : Z).
Hypothesis w_ge : 8 <= w.
Hypothesis poly_range : 0 <= poly < 2 ^ w.
Hypothesis poly_top : Z.testbit poly (w - 1) = true.

#[local] Abbreviation crc_bit := (crc_bit poly).
#[local] Abbreviation crc_bits := (crc_bits poly).
#[local] Abbreviation crc_byte := (crc_byte poly).
#[local] Abbreviation crc_bytes := (crc_bytes poly).

(** ** Range *)

Lemma crc_bit_range c : 0 <= c < 2 ^ w -> 0 <= crc_bit c < 2 ^ w.
Proof.
  intros Hc. unfold crc_bit. destruct (Z.odd c); [apply lxor_range; [lia | | lia] |];
    now apply shiftr_range.
Qed.

Lemma crc_bits_range n c : 0 <= c < 2 ^ w -> 0 <= crc_bits n c < 2 ^ w.
Proof. intros Hc. induction n; [exact Hc |]. cbn [crc_bits]. now apply crc_bit_range. Qed.

Lemma byte_lt_pow2 b : byte_ok b -> 0 <= b < 2 ^ w.
Proof.
  unfold byte_ok. intros. assert (2 ^ 8 <= 2 ^ w) by (apply Z.pow_le_mono_r; lia). lia.
Qed.

Lemma crc_byte_range c b : 0 <= c < 2 ^ w -> byte_ok b -> 0 <= crc_byte c b < 2 ^ w.
Proof. intros. apply crc_bits_range, lxor_range; [lia | lia | now apply byte_lt_pow2]. Qed.

Lemma crc_bytes_range l c : 0 <= c < 2 ^ w -> bytes_ok l -> 0 <= crc_bytes c l < 2 ^ w.
Proof.
  intros Hc Hl. revert c Hc. induction Hl; intros c Hc; [exact Hc |].
  cbn. apply IHHl. now apply crc_byte_range.
Qed.

(** ** Injectivity: no information leaves the register *)

Lemma crc_bit_inj x y : 0 <= x < 2 ^ w -> 0 <= y < 2 ^ w -> crc_bit x = crc_bit y -> x = y.
Proof.
  intros Hx Hy E.
  assert (crc_bit (Z.lxor x y) = 0) as Z0.
  { rewrite crc_bit_lxor, E. apply Z.lxor_nilpotent. }
  apply Z.lxor_eq. pose proof (lxor_range x y w ltac:(lia) Hx Hy) as Hr.
  set (d := Z.lxor x y) in *. clearbody d. unfold crc_bit in Z0.
  assert (Z.testbit (if Z.odd d then Z.lxor (Z.shiftr d 1) poly else Z.shiftr d 1) (w - 1) = false) as T
    by (rewrite Z0; apply Z.testbit_0_l).
  destruct (Z.odd d) eqn:Od.
  - rewrite Z.lxor_spec, Z.shiftr_spec, poly_top, (testbit_high d w) in T by lia. discriminate.
  - rewrite Z.shiftr_div_pow2 in Z0 by lia. change (2 ^ 1) with 2 in Z0.
    pose proof (Z.div2_odd d) as D. rewrite Od, Z.div2_div in D. simpl Z.b2z in D. lia.
Qed.

Lemma crc_bits_inj n x y :
  0 <= x < 2 ^ w -> 0 <= y < 2 ^ w -> crc_bits n x = crc_bits n y -> x = y.
Proof.
  intros Hx Hy. induction n as [| n IH]; [auto |]. cbn [crc_bits]. intros E.
  apply IH. apply crc_bit_inj; auto using crc_bits_range.
Qed.

Lemma crc_byte_inj c c' b :
  0 <= c < 2 ^ w -> 0 <= c' < 2 ^ w -> byte_ok b -> crc_byte c b = crc_byte c' b -> c = c'.
Proof.
  intros Hc Hc' Hb E. apply crc_bits_inj in E; [| apply lxor_range; auto using byte_lt_pow2; lia ..].
  now apply lxor_cancel_r in E.
Qed.

Lemma crc_bytes_inj l c c' :
  0 <= c < 2 ^ w -> 0 <= c' < 2 ^ w -> bytes_ok l -> crc_bytes c l = crc_bytes c' l -> c = c'.
Proof.
  intros Hc Hc' Hl. revert c c' Hc Hc'. induction Hl as [| b l Hb Hl IH]; intros; [auto |].
  eapply crc_byte_inj; eauto. cbn in *. eapply IH; eauto using crc_byte_range.
Qed.

(** An error burst no longer than the register is detected. *)
Lemma crc_burst c pre m1 m2 post :
  0 <= c < 2 ^ w -> bytes_ok pre -> bytes_ok m1 -> bytes_ok m2 -> bytes_ok post ->
  length m1 = length m2 -> 8 * Z.of_nat (length m1) <= w ->
  crc_bytes c (pre ++ m1 ++ post) = crc_bytes c (pre ++ m2 ++ post) -> m1 = m2.
Proof.
  intros Hc Hpre Hm1 Hm2 Hpost Hlen Hw E. rewrite !crc_bytes_app in E.
  pose proof (crc_bytes_range pre c Hc Hpre) as Hc'.
  apply crc_bytes_inj in E; auto using crc_bytes_range.
  set (r := crc_bytes c pre) in *. clearbody r.
  rewrite !crc_bytes_word, Hlen in E by assumption.
  assert (forall m, bytes_ok m -> length m = length m2 -> 0 <= le_combine m < 2 ^ w) as Hr.
  { intros m Hm El. pose proof (le_combine_range m Hm).
    assert (256 ^ Z.of_nat (length m) <= 2 ^ w).
    { change 256 with (2 ^ 8). rewrite <- Z.pow_mul_r by lia. apply Z.pow_le_mono_r; lia. }
    lia. }
  apply crc_bits_inj in E; [| apply lxor_range; [lia | assumption | apply Hr; auto] ..].
  rewrite !(Z.lxor_comm r) in E. apply lxor_cancel_r in E.
  rewrite <- (le_split_combine m1), <- (le_split_combine m2) by assumption.
  now rewrite Hlen, E.
Qed.
End CrcReference.

(** ** The table-driven step *)
Section CrcTable.
Variables (w poly : Z) (tab : list Z).
(** The table holds the bitwise reference of every index. *)
Hypothesis tab_ok : tab = map (fun i => crc_bits poly 8 (Z.of_nat i)) (seq 0 256).

Definition tab_step (c b : Z) : Z :=
  Z.lxor (nth (Z.to_nat (Z.land (Z.lxor c b) 255)) tab 0) (Z.shiftr c 8).

Lemma tab_step_crc_byte c b : 0 <= c -> byte_ok b -> tab_step c b = crc_byte poly c b.
Proof.
  intros Hc Hb. unfold tab_step, crc_byte. rewrite (crc_bits_split poly 8 (Z.lxor c b)).
  change (Z.ones (Z.of_nat 8)) with 255.
  set (i := Z.land (Z.lxor c b) 255).
  assert (0 <= i < 256) as Hi by (unfold i; rewrite land_255; apply Z.mod_pos_bound; lia).
  f_equal.
  - rewrite tab_ok. erewrite nth_indep by (rewrite length_map, length_seq; lia).
    rewrite (map_nth (fun i => crc_bits poly 8 (Z.of_nat i)) (seq 0 256) 0%nat).
    rewrite seq_nth by lia. f_equal. lia.
  - rewrite Z.shiftr_lxor. change (Z.of_nat 8) with 8. unfold byte_ok in Hb.
    rewrite (Z.shiftr_div_pow2 b) by lia. rewrite (Z.div_small b) by lia. now rewrite Z.lxor_0_r.
Qed.

Lemma tab_step_fold l c :
  8 <= w -> 0 <= poly < 2 ^ w -> 0 <= c < 2 ^ w -> bytes_ok l ->
  fold_left tab_step l c = crc_bytes poly c l.
Proof.
  intros Hw Hp Hc Hl. revert c Hc. induction Hl as [| b l Hb Hl IH]; intros c Hc; [reflexivity |].
  cbn. rewrite tab_step_crc_byte by (auto; lia). apply IH. now apply (crc_byte_range w).
Qed.

(** Absorbing a word with xor and then stepping with zero bytes is the same
    as stepping with the word's bytes. *)
Lemma tab_step_absorb c b y : byte_ok b -> tab_step (Z.lxor c (b + 256 * y)) 0 = Z.lxor (tab_step c b) y.
Proof.
  intros Hb. unfold tab_step. rewrite Z.lxor_0_r, byte_cons_lxor by assumption.
  rewrite <- (Z.lxor_assoc c b), !Z.shiftr_lxor, (byte_shiftr_8 b Hb), Z.lxor_0_r.
  assert (Z.land (Z.lxor (Z.lxor c b) (Z.shiftl y 8)) 255 = Z.land (Z.lxor c b) 255) as ->.
  { bitwise. change 255 with (Z.ones 8). destruct (Z.lt_ge_cases n 8).
    - rewrite (Z.testbit_neg_r y) by lia. now rewrite xorb_false_r.
    - rewrite Z.ones_spec_high by lia. now rewrite !andb_false_r. }
  rewrite Z.shiftr_shiftl_l, Z.shiftl_0_r by lia. now rewrite Z.lxor_assoc.
Qed.

Lemma tab_step_word l c :
  bytes_ok l ->
  fold_left tab_step (map (fun _ => 0) l) (Z.lxor c (le_combine l)) = fold_left tab_step l c.
Proof.
  intros Hl. revert c. induction Hl as [| b l Hb Hl IH]; intros c.
  - cbn. apply Z.lxor_0_r.
  - cbn [map fold_left le_combine]. rewrite tab_step_absorb by assumption. apply IH.
Qed.
End CrcTable.
