(* ===== verification/Crc32.v ===== *)
(** * Crc32: the checksum of the key box

    Models [local_crc32.c] of
    [allwinner/security/optee-keybox/src/na/libkeybox]: the table, the macro
    [DO_CRC], [crc32_no_comp] with its alignment prologue, its 32-bit words and
    its tail, and [crc32].  The target is little endian, so [cpu_to_le32] and
    [le32_to_cpu] are the identity.  The theorems show that the routine is the
    bitwise CRC-32 whatever the address of the buffer, that it can be computed
    in pieces, and that it detects every error burst of at most four bytes. *)
From S2P Require Import Prelude CrcTheory.

Definition crc_table : list Z :=
  [
   0x00000000; 0x77073096; 0xee0e612c; 0x990951ba; 0x076dc419; 0x706af48f;
   0xe963a535; 0x9e6495a3; 0x0edb8832; 0x79dcb8a4; 0xe0d5e91e; 0x97d2d988;
   0x09b64c2b; 0x7eb17cbd; 0xe7b82d07; 0x90bf1d91; 0x1db71064; 0x6ab020f2;
   0xf3b97148; 0x84be41de; 0x1adad47d; 0x6ddde4eb; 0xf4d4b551; 0x83d385c7;
   0x136c9856; 0x646ba8c0; 0xfd62f97a; 0x8a65c9ec; 0x14015c4f; 0x63066cd9;
   0xfa0f3d63; 0x8d080df5; 0x3b6e20c8; 0x4c69105e; 0xd56041e4; 0xa2677172;
   0x3c03e4d1; 0x4b04d447; 0xd20d85fd; 0xa50ab56b; 0x35b5a8fa; 0x42b2986c;
   0xdbbbc9d6; 0xacbcf940; 0x32d86ce3; 0x45df5c75; 0xdcd60dcf; 0xabd13d59;
   0x26d930ac; 0x51de003a; 0xc8d75180; 0xbfd06116; 0x21b4f4b5; 0x56b3c423;
   0xcfba9599; 0xb8bda50f; 0x2802b89e; 0x5f058808; 0xc60cd9b2; 0xb10be924;
   0x2f6f7c87; 0x58684c11; 0xc1611dab; 0xb6662d3d; 0x76dc4190; 0x01db7106;
   0x98d220bc; 0xefd5102a; 0x71b18589; 0x06b6b51f; 0x9fbfe4a5; 0xe8b8d433;
   0x7807c9a2; 0x0f00f934; 0x9609a88e; 0xe10e9818; 0x7f6a0dbb; 0x086d3d2d;
   0x91646c97; 0xe6635c01; 0x6b6b51f4; 0x1c6c6162; 0x856530d8; 0xf262004e;
   0x6c0695ed; 0x1b01a57b; 0x8208f4c1; 0xf50fc457; 0x65b0d9c6; 0x12b7e950;
   0x8bbeb8ea; 0xfcb9887c; 0x62dd1ddf; 0x15da2d49; 0x8cd37cf3; 0xfbd44c65;
   0x4db26158; 0x3ab551ce; 0xa3bc0074; 0xd4bb30e2; 0x4adfa541; 0x3dd895d7;
   0xa4d1c46d; 0xd3d6f4fb; 0x4369e96a; 0x346ed9fc; 0xad678846; 0xda60b8d0;
   0x44042d73; 0x33031de5; 0xaa0a4c5f; 0xdd0d7cc9; 0x5005713c; 0x270241aa;
   0xbe0b1010; 0xc90c2086; 0x5768b525; 0x206f85b3; 0xb966d409; 0xce61e49f;
   0x5edef90e; 0x29d9c998; 0xb0d09822; 0xc7d7a8b4; 0x59b33d17; 0x2eb40d81;
   0xb7bd5c3b; 0xc0ba6cad; 0xedb88320; 0x9abfb3b6; 0x03b6e20c; 0x74b1d29a;
   0xead54739; 0x9dd277af; 0x04db2615; 0x73dc1683; 0xe3630b12; 0x94643b84;
   0x0d6d6a3e; 0x7a6a5aa8; 0xe40ecf0b; 0x9309ff9d; 0x0a00ae27; 0x7d079eb1;
   0xf00f9344; 0x8708a3d2; 0x1e01f268; 0x6906c2fe; 0xf762575d; 0x806567cb;
   0x196c3671; 0x6e6b06e7; 0xfed41b76; 0x89d32be0; 0x10da7a5a; 0x67dd4acc;
   0xf9b9df6f; 0x8ebeeff9; 0x17b7be43; 0x60b08ed5; 0xd6d6a3e8; 0xa1d1937e;
   0x38d8c2c4; 0x4fdff252; 0xd1bb67f1; 0xa6bc5767; 0x3fb506dd; 0x48b2364b;
   0xd80d2bda; 0xaf0a1b4c; 0x36034af6; 0x41047a60; 0xdf60efc3; 0xa867df55;
   0x316e8eef; 0x4669be79; 0xcb61b38c; 0xbc66831a; 0x256fd2a0; 0x5268e236;
   0xcc0c7795; 0xbb0b4703; 0x220216b9; 0x5505262f; 0xc5ba3bbe; 0xb2bd0b28;
   0x2bb45a92; 0x5cb36a04; 0xc2d7ffa7; 0xb5d0cf31; 0x2cd99e8b; 0x5bdeae1d;
   0x9b64c2b0; 0xec63f226; 0x756aa39c; 0x026d930a; 0x9c0906a9; 0xeb0e363f;
   0x72076785; 0x05005713; 0x95bf4a82; 0xe2b87a14; 0x7bb12bae; 0x0cb61b38;
   0x92d28e9b; 0xe5d5be0d; 0x7cdcefb7; 0x0bdbdf21; 0x86d3d2d4; 0xf1d4e242;
   0x68ddb3f8; 0x1fda836e; 0x81be16cd; 0xf6b9265b; 0x6fb077e1; 0x18b74777;
   0x88085ae6; 0xff0f6a70; 0x66063bca; 0x11010b5c; 0x8f659eff; 0xf862ae69;
   0x616bffd3; 0x166ccf45; 0xa00ae278; 0xd70dd2ee; 0x4e048354; 0x3903b3c2;
   0xa7672661; 0xd06016f7; 0x4969474d; 0x3e6e77db; 0xaed16a4a; 0xd9d65adc;
   0x40df0b66; 0x37d83bf0; 0xa9bcae53; 0xdebb9ec5; 0x47b2cf7f; 0x30b5ffe9;
   0xbdbdf21c; 0xcabac28a; 0x53b39330; 0x24b4a3a6; 0xbad03605; 0xcdd70693;
   0x54de5729; 0x23d967bf; 0xb3667a2e; 0xc4614ab8; 0x5d681b02; 0x2a6f2b94;
   0xb40bbe37; 0xc30c8ea1; 0x5a05df1b; 0x2d02ef8d
  ].

(** [DO_CRC(x)]: [crc = tab[(crc ^ (x)) & 255] ^ (crc >> 8)]. *)
Definition DO_CRC (crc x : Z) : Z :=
  Z.lxor (nth (Z.to_nat (Z.land (Z.lxor crc x) 255)) crc_table 0) (Z.shiftr crc 8).

(** The prologue: a do-while loop that consumes bytes while bytes are left and
    the address is not a multiple of 4; the list is the [len] bytes from [p] on. *)
Fixpoint crc32_align (crc p : Z) (buf : list Z) : Z * list Z :=
  match buf with
  | [] => (crc, [])
  | x :: buf' =>
      let crc := DO_CRC crc x in
      let p := p + 1 in
      if negb (Z.of_nat (length buf') =? 0) && negb (Z.land p 3 =? 0)
      then crc32_align crc p buf' else (crc, buf')
  end.

(** The word loop: [len] words of four bytes, loaded 32 bits wide. *)
Fixpoint crc32_words (len : nat) (crc : Z) (buf : list Z) : Z * list Z :=
  match len with
  | O => (crc, buf)
  | S len' =>
      let crc := Z.lxor crc (le_combine (take 4 buf)) in
      let crc := DO_CRC crc 0 in
      let crc := DO_CRC crc 0 in
      let crc := DO_CRC crc 0 in
      let crc := DO_CRC crc 0 in
      crc32_words len' crc (drop 4 buf)
  end.

(** [crc32_no_comp(crc, buf, len)] for a buffer at address [p]. *)
Definition crc32_no_comp (crc p : Z) (buf : list Z) : Z :=
  let '(crc, buf) :=
    if negb (Z.land p 3 =? 0) && negb (Z.of_nat (length buf) =? 0)
    then crc32_align crc p buf else (crc, buf) in
  let len := Z.of_nat (length buf) in
  let rem_len := Z.land len 3 in
  let '(crc, buf) := crc32_words (Z.to_nat (Z.shiftr len 2)) crc buf in
  if negb (rem_len =? 0) then fold_left DO_CRC (take (Z.to_nat rem_len) buf) crc else crc.

Definition crc32 (crc p : Z) (buf : list Z) : Z :=
  Z.lxor (crc32_no_comp (Z.lxor crc 0xffffffff) p buf) 0xffffffff.

(** The reflected polynomial of CRC-32. *)
Definition crc32_poly : Z := 0xedb88320.

(** The bitwise reference: one shift per message bit. *)
Definition crc32_ref (crc : Z) (buf : list Z) : Z :=
  Z.lxor (crc_bytes crc32_poly (Z.lxor crc 0xffffffff) buf) 0xffffffff.

(** ** Lemmas *)

Lemma crc_table_ok : crc_table = map (fun i => crc_bits crc32_poly 8 (Z.of_nat i)) (seq 0 256).
Proof. vm_compute. reflexivity. Qed.

Lemma DO_CRC_tab crc x : DO_CRC crc x = tab_step crc_table crc x.
Proof. reflexivity. Qed.

Lemma DO_CRC_fold l crc : fold_left DO_CRC l crc = fold_left (tab_step crc_table) l crc.
Proof. revert crc. induction l as [| x l IH]; intros crc; [reflexivity |]. cbn [fold_left]. now rewrite IH, DO_CRC_tab. Qed.

(** One 32-bit word at a time is four bytes at a time. *)
Lemma DO_CRC_word crc l :
  bytes_ok l -> length l = 4%nat ->
  DO_CRC (DO_CRC (DO_CRC (DO_CRC (Z.lxor crc (le_combine l)) 0) 0) 0) 0 = fold_left DO_CRC l crc.
Proof.
  intros Hl El. rewrite DO_CRC_fold, <- (tab_step_word crc_table l crc Hl).
  destruct l as [| b0 [| b1 [| b2 [| b3 [|]]]]]; try discriminate El.
  cbn [map fold_left]. rewrite !DO_CRC_tab. reflexivity.
Qed.

Lemma crc32_align_spec buf crc p :
  exists pre, buf = pre ++ (crc32_align crc p buf).2 /\
    (crc32_align crc p buf).1 = fold_left DO_CRC pre crc.
Proof.
  revert crc p. induction buf as [| x buf IH]; intros crc p; [exists []; auto |].
  cbn [crc32_align]. destruct (_ && _).
  - destruct (IH (DO_CRC crc x) (p + 1)) as (pre & E1 & E2).
    exists (x :: pre). split; [simpl; congruence | exact E2].
  - exists [x]. auto.
Qed.

Lemma crc32_words_spec len buf crc :
  bytes_ok buf -> (4 * len <= length buf)%nat ->
  crc32_words len crc buf = (fold_left DO_CRC (take (4 * len) buf) crc, drop (4 * len) buf).
Proof.
  revert buf crc. induction len as [| len IH]; intros buf crc Hb Hlen; [reflexivity |].
  cbn [crc32_words]. pose proof (Forall_take _ 4 _ Hb) as Hw.
  rewrite DO_CRC_word, IH by (assumption || rewrite ?length_take, ?length_drop; try lia; now apply Forall_drop).
  rewrite <- fold_left_app, drop_drop. replace (4 + 4 * len)%nat with (4 * S len)%nat by lia.
  f_equal. f_equal. rewrite take_take_drop. f_equal. lia.
Qed.

(** The whole routine is one step per byte, at any address. *)
Lemma crc32_no_comp_fold crc p buf :
  bytes_ok buf -> crc32_no_comp crc p buf = fold_left DO_CRC buf crc.
Proof.
  intros Hb. unfold crc32_no_comp.
  assert (exists crc1 buf1, (if negb (Z.land p 3 =? 0) && negb (Z.of_nat (length buf) =? 0)
    then crc32_align crc p buf else (crc, buf)) = (crc1, buf1) /\ bytes_ok buf1 /\
    fold_left DO_CRC buf crc = fold_left DO_CRC buf1 crc1) as (crc1 & buf1 & -> & Hb1 & ->).
  { destruct (_ && _); [| eauto].
    destruct (crc32_align_spec buf crc p) as (pre & E1 & E2).
    destruct (crc32_align crc p buf) as [c1 b1]. exists c1, b1. cbn in *. subst.
    apply Forall_app in Hb. rewrite fold_left_app. tauto. }
  set (q := Z.to_nat (Z.shiftr (Z.of_nat (length buf1)) 2)).
  assert (Z.of_nat (length buf1) = 4 * Z.of_nat q + Z.land (Z.of_nat (length buf1)) 3 /\
          0 <= Z.land (Z.of_nat (length buf1)) 3 < 4) as [Hq Hr].
  { unfold q. rewrite Z.shiftr_div_pow2 by lia. change 3 with (Z.ones 2). rewrite Z.land_ones by lia.
    rewrite Z2Nat.id by (apply Z.div_pos; lia). change (2 ^ 2) with 4.
    pose proof (Z.div_mod (Z.of_nat (length buf1)) 4). pose proof (Z.mod_pos_bound (Z.of_nat (length buf1)) 4). lia. }
  set (r := Z.land _ 3) in *. rewrite crc32_words_spec by (assumption || lia).
  assert (fold_left DO_CRC buf1 crc1 =
    fold_left DO_CRC (drop (4 * q) buf1) (fold_left DO_CRC (take (4 * q) buf1) crc1)) as ->
    by (rewrite <- fold_left_app, take_drop; reflexivity).
  destruct (Z.eqb_spec r 0); cbn [negb].
  - rewrite (drop_ge buf1 (4 * q)) by lia. reflexivity.
  - rewrite take_ge by (rewrite length_drop; lia). reflexivity.
Qed.

Lemma crc32_poly_range : 0 <= crc32_poly < 2 ^ 32.
Proof. unfold crc32_poly. lia. Qed.

#[export] Hint Resolve crc32_poly_range : s2l.

Lemma crc32_init_range crc : 0 <= crc < 2 ^ 32 -> 0 <= Z.lxor crc 0xffffffff < 2 ^ 32.
Proof. intros. apply lxor_range; lia. Qed.

Lemma crc32_eq_ref crc p buf :
  0 <= crc < 2 ^ 32 -> bytes_ok buf -> crc32 crc p buf = crc32_ref crc buf.
Proof.
  intros Hc Hb. unfold crc32, crc32_ref. rewrite crc32_no_comp_fold by assumption. f_equal. rewrite DO_CRC_fold.
  apply (tab_step_fold 32 crc32_poly crc_table crc_table_ok); auto using crc32_init_range with s2l. lia.
Qed.

Lemma crc32_range crc p buf : 0 <= crc < 2 ^ 32 -> bytes_ok buf -> 0 <= crc32 crc p buf < 2 ^ 32.
Proof.
  intros Hc Hb. rewrite crc32_eq_ref by assumption. apply crc32_init_range.
  apply (crc_bytes_range 32); auto using crc32_init_range with s2l. lia.
Qed.

Lemma crc32_burst_inj crc p pre m1 m2 post :
  0 <= crc < 2 ^ 32 -> bytes_ok (pre ++ m1 ++ m2 ++ post) ->
  length m1 = length m2 -> (length m1 <= 4)%nat ->
  crc32 crc p (pre ++ m1 ++ post) = crc32 crc p (pre ++ m2 ++ post) -> m1 = m2.
Proof.
  intros Hc Hb Hlen H4 E. rewrite !Forall_app in Hb. destruct Hb as (? & ? & ? & ?).
  rewrite !crc32_eq_ref in E by (try rewrite !Forall_app; auto).
  apply lxor_cancel_r in E.
  eapply (crc_burst 32 crc32_poly) in E; auto using crc32_init_range with s2l; lia.
Qed.

(** ** Properties *)

(** C6: The optimised routine computes the bitwise CRC-32 reference for every
    buffer and every alignment of its address. *)
Theorem crc32_correct (crc p : Z) (buf : list Z) :
  0 <= crc < 2 ^ 32 -> bytes_ok buf ->
  crc32 crc p buf = crc32_ref crc buf /\ 0 <= crc32 crc p buf < 2 ^ 32.
Proof. split; [now apply crc32_eq_ref | now apply crc32_range]. Qed.

(** "123456789" gives the check value of the CRC-32 catalogue. *)
Lemma crc32_correct_witness :
  crc32 0 3 [0x31;0x32;0x33;0x34;0x35;0x36;0x37;0x38;0x39] = 0xcbf43926 /\
  crc32_ref 0 [0x31;0x32;0x33;0x34;0x35;0x36;0x37;0x38;0x39] = 0xcbf43926.
Proof.
  rewrite <- (proj1 (crc32_correct 0 3 [0x31;0x32;0x33;0x34;0x35;0x36;0x37;0x38;0x39] ltac:(lia)
    ltac:(repeat constructor; lia))).
  split; vm_compute; reflexivity.
Defined.

(** Two buffers that differ only inside a window of at most four bytes never
    have the same checksum: every such burst of errors is detected. *)
Theorem crc32_burst (crc p : Z) (pre m1 m2 post : list Z) :
  0 <= crc < 2 ^ 32 -> bytes_ok (pre ++ m1 ++ m2 ++ post) ->
  length m1 = length m2 -> (length m1 <= 4)%nat -> m1 <> m2 ->
  crc32 crc p (pre ++ m1 ++ post) <> crc32 crc p (pre ++ m2 ++ post).
Proof. intros ? ? ? ? Hne E. apply Hne. eapply crc32_burst_inj; eauto. Qed.

Lemma crc32_burst_witness :
  crc32 0 0 ([1; 2] ++ [3; 4; 5; 6] ++ [7]) <> crc32 0 0 ([1; 2] ++ [3; 9; 9; 6] ++ [7]).
Proof.
  apply (crc32_burst 0 0 [1; 2] [3; 4; 5; 6] [3; 9; 9; 6] [7]);
    [lia | repeat constructor; lia | reflexivity | simpl; lia | discriminate].
Defined.
