(* ===== verification/Crc16.v ===== *)
(** * Crc16: the file checksum of rwcheck

    Models [crc16.c] of [allwinner/testtools/testapk/rwcheck/src] and the
    function [append_crc] of [fops.c] that seals a test file with it.  A file is
    the list of its bytes with a position; a bad sector map says at which file
    positions [read] fails.  The theorems show that the table-driven code is the
    bitwise CRC, that the chunked read computes the checksum of the file, that a
    sealed file passes [check_crc16] and that only sealed files pass it. *)
From S2P Require Import Prelude CrcTheory.

Definition CRC_INIT : Z := 0xffff.
Definition GOOD_CRC : Z := 0xf0b8.

Definition crc16_table : list Z :=
  [
   0x0000; 0x1189; 0x2312; 0x329b; 0x4624; 0x57ad; 0x6536; 0x74bf;
   0x8c48; 0x9dc1; 0xaf5a; 0xbed3; 0xca6c; 0xdbe5; 0xe97e; 0xf8f7;
   0x1081; 0x0108; 0x3393; 0x221a; 0x56a5; 0x472c; 0x75b7; 0x643e;
   0x9cc9; 0x8d40; 0xbfdb; 0xae52; 0xdaed; 0xcb64; 0xf9ff; 0xe876;
   0x2102; 0x308b; 0x0210; 0x1399; 0x6726; 0x76af; 0x4434; 0x55bd;
   0xad4a; 0xbcc3; 0x8e58; 0x9fd1; 0xeb6e; 0xfae7; 0xc87c; 0xd9f5;
   0x3183; 0x200a; 0x1291; 0x0318; 0x77a7; 0x662e; 0x54b5; 0x453c;
   0xbdcb; 0xac42; 0x9ed9; 0x8f50; 0xfbef; 0xea66; 0xd8fd; 0xc974;
   0x4204; 0x538d; 0x6116; 0x709f; 0x0420; 0x15a9; 0x2732; 0x36bb;
   0xce4c; 0xdfc5; 0xed5e; 0xfcd7; 0x8868; 0x99e1; 0xab7a; 0xbaf3;
   0x5285; 0x430c; 0x7197; 0x601e; 0x14a1; 0x0528; 0x37b3; 0x263a;
   0xdecd; 0xcf44; 0xfddf; 0xec56; 0x98e9; 0x8960; 0xbbfb; 0xaa72;
   0x6306; 0x728f; 0x4014; 0x519d; 0x2522; 0x34ab; 0x0630; 0x17b9;
   0xef4e; 0xfec7; 0xcc5c; 0xddd5; 0xa96a; 0xb8e3; 0x8a78; 0x9bf1;
   0x7387; 0x620e; 0x5095; 0x411c; 0x35a3; 0x242a; 0x16b1; 0x0738;
   0xffcf; 0xee46; 0xdcdd; 0xcd54; 0xb9eb; 0xa862; 0x9af9; 0x8b70;
   0x8408; 0x9581; 0xa71a; 0xb693; 0xc22c; 0xd3a5; 0xe13e; 0xf0b7;
   0x0840; 0x19c9; 0x2b52; 0x3adb; 0x4e64; 0x5fed; 0x6d76; 0x7cff;
   0x9489; 0x8500; 0xb79b; 0xa612; 0xd2ad; 0xc324; 0xf1bf; 0xe036;
   0x18c1; 0x0948; 0x3bd3; 0x2a5a; 0x5ee5; 0x4f6c; 0x7df7; 0x6c7e;
   0xa50a; 0xb483; 0x8618; 0x9791; 0xe32e; 0xf2a7; 0xc03c; 0xd1b5;
   0x2942; 0x38cb; 0x0a50; 0x1bd9; 0x6f66; 0x7eef; 0x4c74; 0x5dfd;
   0xb58b; 0xa402; 0x9699; 0x8710; 0xf3af; 0xe226; 0xd0bd; 0xc134;
   0x39c3; 0x284a; 0x1ad1; 0x0b58; 0x7fe7; 0x6e6e; 0x5cf5; 0x4d7c;
   0xc60c; 0xd785; 0xe51e; 0xf497; 0x8028; 0x91a1; 0xa33a; 0xb2b3;
   0x4a44; 0x5bcd; 0x6956; 0x78df; 0x0c60; 0x1de9; 0x2f72; 0x3efb;
   0xd68d; 0xc704; 0xf59f; 0xe416; 0x90a9; 0x8120; 0xb3bb; 0xa232;
   0x5ac5; 0x4b4c; 0x79d7; 0x685e; 0x1ce1; 0x0d68; 0x3ff3; 0x2e7a;
   0xe70e; 0xf687; 0xc41c; 0xd595; 0xa12a; 0xb0a3; 0x8238; 0x93b1;
   0x6b46; 0x7acf; 0x4854; 0x59dd; 0x2d62; 0x3ceb; 0x0e70; 0x1ff9;
   0xf78f; 0xe606; 0xd49d; 0xc514; 0xb1ab; 0xa022; 0x92b9; 0x8330;
   0x7bc7; 0x6a4e; 0x58d5; 0x495c; 0x3de3; 0x2c6a; 0x1ef1; 0x0f78
  ].

(** [oldcrc = (oldcrc >> 8) ^ crc16_table[(oldcrc ^ *buf++) & 0xff]]. *)
Definition crc16_step (oldcrc b : Z) : Z :=
  Z.lxor (Z.shiftr oldcrc 8) (nth (Z.to_nat (Z.land (Z.lxor oldcrc b) 0xff)) crc16_table 0).

(** [crc16_common(oldcrc, buf, bytes)] on the [bytes] bytes at [buf]. *)
Definition crc16_common (oldcrc : Z) (buf : list Z) : Z := fold_left crc16_step buf oldcrc.

Definition crc16_start : Z := CRC_INIT.
Definition crc16_continue (oldcrc : Z) (buf : list Z) : Z := crc16_common oldcrc buf.

(** [return ~oldcrc] as an [unsigned short]. *)
Definition crc16_end (oldcrc : Z) : Z := u16 (Z.lnot oldcrc).

(** [(~crc & CRC_INIT) == GOOD_CRC]. *)
Definition check_crc16 (crc : Z) : bool := Z.land (Z.lnot crc) CRC_INIT =? GOOD_CRC.

Definition get_crc16_by_buf (buf : list Z) : Z := u16 (Z.lnot (crc16_common CRC_INIT buf)).

(** ** Files *)

(** An open file: its bytes, the file position, and the positions at which
    the device fails a read. *)
Record fd := Fd { f_data : list Z; f_pos : Z; f_bad : Z -> bool }.

(** [read(fd, buf, n)]: -1, or the bytes read and the advanced file. *)
Definition fd_read (f : fd) (n : Z) : option (list Z * fd) :=
  if f_bad f (f_pos f) then None
  else
    let d := take (Z.to_nat n) (drop (Z.to_nat (f_pos f)) (f_data f)) in
    Some (d, Fd (f_data f) (f_pos f + Z.of_nat (length d)) (f_bad f)).

(** [file_size(fd)]: [st_size], a [long long]; [fstat] of an open file is taken
    to succeed. *)
Definition file_size (f : fd) : Z := Z.of_nat (length (f_data f)).

Definition BUF_SIZE : Z := 4 * 1024.
Definition CRC16_MAX_BYTES : Z := u64 (-1).

(** The loop [while (bytes > 0)]: [None] is [return -1]; every round but the
    last reads [BUF_SIZE] bytes, so [fuel] is enough when it exceeds the number
    of chunks. *)
Fixpoint get_crc16_loop (fuel : nat) (f : fd) (crc bytes : Z) : option (Z * fd) :=
  if bytes =? 0 then Some (crc, f)
  else match fuel with
  | O => None
  | S fuel' =>
      let rlen := Z.min BUF_SIZE bytes in
      match fd_read f rlen with
      | None => None
      | Some (buf, f') =>
          if negb (Z.of_nat (length buf) =? rlen) then None
          else get_crc16_loop fuel' f' (crc16_continue crc buf) (bytes - rlen)
      end
  end.

(** [get_crc16_by_fd(&crc16, fd, bytes)]: [None] is the return value -1, [Some]
    the checksum stored (return value 0).  The size is kept in an [ssize_t],
    which is 32 bits wide on the target. *)
Definition get_crc16_by_fd (f : fd) (bytes : Z) : option (Z * fd) :=
  let crc := crc16_start in
  let loop bytes :=
    match get_crc16_loop (S (Z.to_nat (bytes / BUF_SIZE))) f crc bytes with
    | None => None
    | Some (crc, f') => Some (crc16_end crc, f')
    end in
  if bytes =? CRC16_MAX_BYTES then
    let size := s32 (file_size f) in
    if size <? 0 then None else loop (u64 size)
  else loop bytes.

(** [get_crc16_by_path]: [None] for the path is a failing [open]; the size is
    a [long long] here. *)
Definition get_crc16_by_path (f : option (list Z * (Z -> bool))) (bytes : Z) : option Z :=
  match f with
  | None => None
  | Some (data, bad) =>
      let f := Fd data 0 bad in
      let bytes := if bytes =? CRC16_MAX_BYTES then u64 (file_size f) else bytes in
      fst <$> get_crc16_by_fd f bytes
  end.

(** [append_crc(path)]: the return value and the new contents of the file.
    [wret] is the return value of [write(fd, &crc, 2)], which stores that many
    bytes of the little-endian [crc] two bytes before the end of the file. *)
Definition append_crc (f : option (list Z * (Z -> bool))) (wret : Z) : Z * option (list Z) :=
  match f with
  | None => (-1, None)
  | Some (data, bad) =>
      let fsize := file_size (Fd data 0 bad) in
      match get_crc16_by_fd (Fd data 0 bad) (u64 (fsize - 2)) with
      | None => (-1, Some data)
      | Some (crc, _) =>
          let off := fsize + -2 in
          if off <? 0 then (-1, Some data)
          else
            let data' := blit data (Z.to_nat off) (take (Z.to_nat wret) (le_split 2 crc)) in
            if negb (wret =? 2) then (wret, Some data') else (0, Some data')
      end
  end.

(** ** Lemmas *)

Definition crc16_poly : Z := 0x8408.

Lemma crc16_table_ok : crc16_table = map (fun i => crc_bits crc16_poly 8 (Z.of_nat i)) (seq 0 256).
Proof. vm_compute. reflexivity. Qed.

Lemma crc16_poly_range : 0 <= crc16_poly < 2 ^ 16.
Proof. unfold crc16_poly. lia. Qed.

#[export] Hint Resolve crc16_poly_range : s2l.

Lemma crc16_step_tab c b : crc16_step c b = tab_step crc16_table c b.
Proof. unfold crc16_step, tab_step. apply Z.lxor_comm. Qed.

Lemma crc16_common_ref c buf :
  0 <= c < 2 ^ 16 -> bytes_ok buf -> crc16_common c buf = crc_bytes crc16_poly c buf.
Proof.
  intros Hc Hb. rewrite <- (tab_step_fold 16 crc16_poly crc16_table crc16_table_ok) by (auto with s2l; lia).
  unfold crc16_common. clear Hc Hb. revert c. induction buf as [| b buf IH]; intros c; [reflexivity |].
  cbn [fold_left]. now rewrite IH, crc16_step_tab.
Qed.

Lemma crc16_common_range c buf :
  0 <= c < 2 ^ 16 -> bytes_ok buf -> 0 <= crc16_common c buf < 2 ^ 16.
Proof. intros. rewrite crc16_common_ref by assumption. apply (crc_bytes_range 16); auto with s2l. lia. Qed.

Lemma crc16_common_app c l1 l2 : crc16_common c (l1 ++ l2) = crc16_common (crc16_common c l1) l2.
Proof. apply fold_left_app. Qed.

(** The complement of a 16-bit value. *)
Lemma u16_lnot c : 0 <= c < 2 ^ 16 -> u16 (Z.lnot c) = Z.lxor c 0xffff.
Proof.
  intros Hc. unfold u16. rewrite <- Z.land_ones by lia. change 0xffff with (Z.ones 16).
  bitwise. destruct (Z.lt_ge_cases n 16).
  - rewrite Z.ones_spec_low by lia. now rewrite andb_true_r, xorb_true_r.
  - rewrite Z.ones_spec_high, (testbit_high c 16) by lia. apply andb_false_r.
Qed.

Lemma check_crc16_iff c : 0 <= c < 2 ^ 16 -> check_crc16 (crc16_end c) = true <-> c = GOOD_CRC.
Proof.
  intros Hc. unfold check_crc16, crc16_end, CRC_INIT. rewrite land_ffff, (u16_lnot c) by assumption.
  rewrite u16_lnot by (apply lxor_range; lia).
  rewrite Z.lxor_assoc, Z.lxor_nilpotent, Z.lxor_0_r. apply Z.eqb_eq.
Qed.

(** Two trailing bytes bring the register to the residue exactly when they
    are the complement of the register, low byte first. *)
Lemma crc16_residue c a b :
  0 <= c < 2 ^ 16 -> byte_ok a -> byte_ok b ->
  crc16_common c [a; b] = GOOD_CRC <-> [a; b] = le_split 2 (crc16_end c).
Proof.
  intros Hc Ha Hb. assert (bytes_ok [a; b]) as Hab by solve_bytes.
  rewrite crc16_common_ref, crc_bytes_word by assumption. change (8 * length [a; b])%nat with 16%nat.
  assert (crc_bits crc16_poly 16 0xffff = GOOD_CRC) as G by (vm_compute; reflexivity).
  pose proof (le_combine_range _ Hab) as Hr. cbn [length] in Hr.
  unfold crc16_end. rewrite u16_lnot by assumption. split.
  - intros E. rewrite <- G in E. apply (crc_bits_inj 16) in E; try (auto with s2l; lia).
    + rewrite <- (le_split_combine [a; b]) by assumption. f_equal.
      rewrite <- E, <- Z.lxor_assoc, Z.lxor_nilpotent. reflexivity.
    + apply lxor_range; lia.
  - intros ->. rewrite le_combine_split. rewrite Z.mod_small by (apply (lxor_range _ _ 16); lia).
    now rewrite <- Z.lxor_assoc, Z.lxor_nilpotent, Z.lxor_0_l.
Qed.

(** Reading in chunks of [BUF_SIZE] is reading the whole range. *)
Lemma get_crc16_loop_spec fuel data bad pos crc bytes :
  0 <= pos -> 0 <= bytes <= Z.of_nat fuel * BUF_SIZE ->
  pos + bytes <= Z.of_nat (length data) -> (forall p, bad p = false) ->
  get_crc16_loop fuel (Fd data pos bad) crc bytes =
    Some (crc16_common crc (take (Z.to_nat bytes) (drop (Z.to_nat pos) data)),
          Fd data (pos + bytes) bad).
Proof.
  intros Hpos Hbytes Hlen Hbad. revert pos crc bytes Hpos Hbytes Hlen.
  induction fuel as [| fuel IH]; intros pos crc bytes Hpos Hbytes Hlen;
    cbn [get_crc16_loop]; (destruct (Z.eqb_spec bytes 0) as [-> | Hne];
    [change (take (Z.to_nat 0) _) with (@nil Z); now rewrite Z.add_0_r | try lia]).
  unfold fd_read. cbn [f_bad f_pos f_data]. rewrite Hbad.
  set (rlen := Z.min BUF_SIZE bytes). assert (0 < rlen <= bytes) by (unfold rlen, BUF_SIZE; lia).
  rewrite !length_take, !length_drop.
  replace (Z.of_nat (Z.to_nat rlen `min` (length data - Z.to_nat pos))) with rlen by lia.
  rewrite Z.eqb_refl. cbn [negb]. rewrite IH by (unfold rlen, BUF_SIZE in *; lia).
  unfold crc16_continue. rewrite <- crc16_common_app. do 2 f_equal; [f_equal | f_equal; lia].
  replace (Z.to_nat (pos + rlen)) with (Z.to_nat pos + Z.to_nat rlen)%nat by lia.
  rewrite <- drop_drop, take_take_drop. f_equal. lia.
Qed.

Lemma CRC16_MAX_BYTES_eq : CRC16_MAX_BYTES = 2 ^ 64 - 1.
Proof. reflexivity. Qed.

Lemma get_crc16_by_fd_spec data bad bytes :
  0 <= bytes < CRC16_MAX_BYTES -> bytes <= Z.of_nat (length data) -> (forall p, bad p = false) ->
  get_crc16_by_fd (Fd data 0 bad) bytes =
    Some (crc16_end (crc16_common CRC_INIT (take (Z.to_nat bytes) data)), Fd data bytes bad).
Proof.
  intros Hb Hl Hbad. unfold get_crc16_by_fd. destruct (Z.eqb_spec bytes CRC16_MAX_BYTES); [lia |].
  rewrite get_crc16_loop_spec; [now rewrite Z.add_0_l | lia | | lia | assumption].
  rewrite Nat2Z.inj_succ, Z2Nat.id by (apply Z.div_pos; unfold BUF_SIZE; lia).
  pose proof (Z.div_mod bytes BUF_SIZE ltac:(unfold BUF_SIZE; lia)).
  pose proof (Z.mod_pos_bound bytes BUF_SIZE ltac:(unfold BUF_SIZE; lia)). lia.
Qed.

(** Whole files: the checksum of everything from the start. *)
Lemma get_crc16_by_path_spec data bad :
  Z.of_nat (length data) < CRC16_MAX_BYTES -> (forall p, bad p = false) ->
  get_crc16_by_path (Some (data, bad)) CRC16_MAX_BYTES =
    Some (crc16_end (crc16_common CRC_INIT data)).
Proof.
  intros Hl Hbad. unfold get_crc16_by_path. rewrite Z.eqb_refl.
  unfold file_size. cbn [f_data].
  rewrite CRC16_MAX_BYTES_eq in Hl. rewrite u64_id by lia.
  rewrite get_crc16_by_fd_spec by (rewrite ?CRC16_MAX_BYTES_eq; auto; lia). cbn. now rewrite take_ge by lia.
Qed.

Definition no_bad (_ : Z) : bool := false.

(** A file with at least two bytes ends in two bytes. *)
Lemma split_last_two (data : list Z) :
  (2 <= length data)%nat -> exists body a b, data = body ++ [a; b].
Proof.
  intros H. assert (length (drop (length data - 2) data) = 2%nat) as Hd by (rewrite length_drop; lia).
  destruct (drop (length data - 2) data) as [| a [| b [|]]] eqn:E; try discriminate Hd.
  exists (take (length data - 2) data), a, b. now rewrite <- E, take_drop.
Qed.

Lemma sealed_iff body a b :
  bytes_ok body -> byte_ok a -> byte_ok b ->
  check_crc16 (crc16_end (crc16_common CRC_INIT (body ++ [a; b]))) = true <->
  [a; b] = le_split 2 (get_crc16_by_buf body).
Proof.
  intros Hbody Ha Hb.
  assert (0 <= crc16_common CRC_INIT body < 2 ^ 16) as Hr
    by (apply crc16_common_range; [unfold CRC_INIT; lia | assumption]).
  rewrite check_crc16_iff by (apply crc16_common_range; [unfold CRC_INIT; lia | solve_bytes]).
  rewrite crc16_common_app. now apply crc16_residue.
Qed.

(** ** Properties *)

(** A whole file passes the check exactly when its last two bytes are the
    complement, low byte first, of the checksum register of the bytes before
    them. *)
Theorem check_crc16_characterises (data : list Z) (bad : Z -> bool) :
  bytes_ok data -> (2 <= length data)%nat -> Z.of_nat (length data) < CRC16_MAX_BYTES ->
  (forall p, bad p = false) ->
  (exists crc, get_crc16_by_path (Some (data, bad)) CRC16_MAX_BYTES = Some crc /\
               check_crc16 crc = true) <->
  drop (length data - 2) data = le_split 2 (get_crc16_by_buf (take (length data - 2) data)).
Proof.
  intros Hb Hlen Hmax Hbad. rewrite get_crc16_by_path_spec by assumption.
  destruct (split_last_two data Hlen) as (body & a & b & ->).
  apply Forall_app in Hb as [Hbody Hab]. apply Forall_cons_1 in Hab as [Ha Hb].
  apply Forall_cons_1 in Hb as [Hb _].
  rewrite length_app. replace (length body + length [a; b] - 2)%nat with (length body) by (simpl; lia).
  rewrite drop_app_length, take_app_length, <- sealed_iff by assumption.
  split; [now intros (crc & [= <-] & H) | eauto].
Qed.

Lemma check_crc16_characterises_witness :
  (exists crc, get_crc16_by_path (Some ([65; 66; 67] ++ le_split 2 (get_crc16_by_buf [65; 66; 67]), no_bad))
     CRC16_MAX_BYTES = Some crc /\ check_crc16 crc = true).
Proof.
  apply (check_crc16_characterises
    ([65; 66; 67] ++ le_split 2 (get_crc16_by_buf [65; 66; 67])) no_bad).
  - by_compute.
  - vm_compute. lia.
  - vm_compute. reflexivity.
  - reflexivity.
  - vm_compute. reflexivity.
Defined.

(** Sealing: the last two bytes become the checksum of the others. *)
Lemma append_crc_run body a b bad :
  Z.of_nat (length body + 2) < 2 ^ 64 - 1 -> (forall p, bad p = false) ->
  append_crc (Some (body ++ [a; b], bad)) 2 = (0, Some (body ++ le_split 2 (get_crc16_by_buf body))).
Proof.
  intros Hmax Hbad. unfold append_crc, file_size. cbn [f_data]. rewrite length_app. cbn [length].
  rewrite u64_id by lia. rewrite get_crc16_by_fd_spec;
    [| rewrite CRC16_MAX_BYTES_eq; lia | rewrite length_app; simpl; lia | assumption].
  replace (Z.to_nat (Z.of_nat (length body + 2) - 2)) with (length body) by lia.
  destruct (Z.ltb_spec (Z.of_nat (length body + 2) + -2) 0); [lia |].
  replace (Z.to_nat (Z.of_nat (length body + 2) + -2)) with (length body) by lia.
  rewrite take_app_length. cbn [negb Z.eqb Pos.eqb Z.to_nat]. unfold blit.
  rewrite take_app_length, (drop_ge (body ++ [a; b])), app_nil_r; [reflexivity |].
  rewrite length_app, length_take, length_le_split. simpl. lia.
Qed.

(** Sealing then checking: on a readable file of at least two bytes
    [append_crc] succeeds, changes only the last two bytes, and the sealed file
    passes the check. *)
Theorem append_crc_then_check (data : list Z) (bad : Z -> bool) :
  bytes_ok data -> (2 <= length data)%nat -> Z.of_nat (length data) < CRC16_MAX_BYTES ->
  (forall p, bad p = false) ->
  exists data' crc,
    append_crc (Some (data, bad)) 2 = (0, Some data') /\
    length data' = length data /\
    take (length data - 2) data' = take (length data - 2) data /\
    get_crc16_by_path (Some (data', bad)) CRC16_MAX_BYTES = Some crc /\
    check_crc16 crc = true.
Proof.
  intros Hb Hlen Hmax Hbad. rewrite CRC16_MAX_BYTES_eq in Hmax.
  destruct (split_last_two data Hlen) as (body & a & b & ->).
  apply Forall_app in Hb as [Hbody _]. rewrite length_app in *. cbn [length] in *.
  set (seal := le_split 2 (get_crc16_by_buf body)).
  assert (append_crc (Some (body ++ [a; b], bad)) 2 = (0, Some (body ++ seal))) as -> by (apply append_crc_run; (assumption || lia)).
  destruct (le_split 2 (get_crc16_by_buf body)) as [| a' [| b' [|]]] eqn:E; try discriminate E.
  pose proof (le_split_bytes 2 (get_crc16_by_buf body)) as Hs. rewrite E in Hs.
  apply Forall_cons_1 in Hs as [Ha' Hb']. apply Forall_cons_1 in Hb' as [Hb' _].
  exists (body ++ seal), (crc16_end (crc16_common CRC_INIT (body ++ seal))).
  replace (length body + 2 - 2)%nat with (length body) by lia. unfold seal.
  rewrite length_app, !take_app_length. repeat split.
  - apply get_crc16_by_path_spec; [rewrite length_app, CRC16_MAX_BYTES_eq; simpl; lia | assumption].
  - apply sealed_iff; auto.
Qed.

Lemma append_crc_then_check_witness :
  append_crc (Some ([72; 105; 33; 0; 0], no_bad)) 2 = (0, Some [72; 105; 33; 89; 99]) \/
  exists data' crc,
    append_crc (Some ([72; 105; 33; 0; 0], no_bad)) 2 = (0, Some data') /\
    length data' = 5%nat /\
    take 3 data' = [72; 105; 33] /\
    get_crc16_by_path (Some (data', no_bad)) CRC16_MAX_BYTES = Some crc /\
    check_crc16 crc = true.
Proof.
  right. apply (append_crc_then_check [72; 105; 33; 0; 0] no_bad);
    [solve_bytes | simpl; lia | vm_compute; reflexivity | reflexivity].
Defined.

(** A sealed file that is corrupted inside any window of two bytes, the seal
    included, fails the check. *)
Theorem check_crc16_detects_burst (pre m1 m2 post : list Z) (bad : Z -> bool) :
  bytes_ok (pre ++ m1 ++ m2 ++ post) -> length m1 = length m2 -> (length m1 <= 2)%nat ->
  Z.of_nat (length (pre ++ m1 ++ post)) < CRC16_MAX_BYTES -> (forall p, bad p = false) ->
  (exists crc, get_crc16_by_path (Some (pre ++ m1 ++ post, bad)) CRC16_MAX_BYTES = Some crc /\
     check_crc16 crc = true) ->
  m1 <> m2 ->
  exists crc, get_crc16_by_path (Some (pre ++ m2 ++ post, bad)) CRC16_MAX_BYTES = Some crc /\
    check_crc16 crc = false.
Proof.
  intros Hb Hlen H2 Hmax Hbad (crc & E1 & C1) Hne. rewrite !Forall_app in Hb.
  destruct Hb as (? & ? & ? & ?).
  assert (0 <= CRC_INIT < 2 ^ 16) as Hi by (unfold CRC_INIT; lia).
  rewrite get_crc16_by_path_spec in E1 |- * by (rewrite ?length_app in *; try assumption; lia).
  injection E1 as <-. eexists. split; [reflexivity |]. apply not_true_iff_false. intros C2.
  rewrite check_crc16_iff in C1, C2 by (apply crc16_common_range; [assumption | solve_bytes]).
  rewrite <- C2, !crc16_common_ref in C1 by (try assumption; solve_bytes).
  apply (crc_burst 16 crc16_poly) in C1; auto with s2l; lia.
Qed.

Lemma check_crc16_detects_burst_witness :
  exists crc, get_crc16_by_path (Some ([65] ++ [7; 7] ++ [67] ++ le_split 2 (get_crc16_by_buf [65; 66; 66; 67]), no_bad))
    CRC16_MAX_BYTES = Some crc /\ check_crc16 crc = false.
Proof.
  apply (check_crc16_detects_burst [65] [66; 66] [7; 7] ([67] ++ le_split 2 (get_crc16_by_buf [65; 66; 66; 67])) no_bad).
  - by_compute.
  - reflexivity.
  - simpl; lia.
  - vm_compute. reflexivity.
  - reflexivity.
  - eexists. split; vm_compute; reflexivity.
  - discriminate.
Defined.
