(* ===== verification/CString.v ===== *)
(** * C strings and decimal numbers

    What the components use of the C standard library: NUL-terminated strings
    inside byte buffers ([strlen], [strncpy], [memcmp]), [atol] / [atoi] and the
    "%d" conversion of [sprintf].  A C string is the list of its bytes before the
    terminator.  Reading outside a buffer is [None]. *)
From Stdlib Require String Ascii.
From S2P Require Import Prelude.

(** The bytes of a string literal. *)
Definition lit (s : String.string) : list Z := map (fun a => Z.of_N (Ascii.N_of_ascii a)) (String.list_ascii_of_string s).

(** The bytes of a C string: none of them is NUL. *)
Definition cstr_ok (s : list Z) : Prop := Forall (fun c => 0 < c < 256) s.

#[global] Instance cstr_ok_dec s : Decision (cstr_ok s).
Proof. unfold cstr_ok. apply _. Defined.

(** [strlen(buf + off)]: the number of bytes before the first NUL; [None] when
    the buffer holds no NUL from [off] on. *)
Fixpoint strlen (l : list Z) : option nat :=
  match l with
  | [] => None
  | c :: l' => if c =? 0 then Some O else S <$> strlen l'
  end.

Definition strlen_at (buf : list Z) (off : nat) : option nat := strlen (drop off buf).

(** The C string stored at the start of a buffer. *)
Definition cstring (l : list Z) : option (list Z) :=
  match strlen l with Some n => Some (take n l) | None => None end.

(** [strncpy(dst, s, n)]: exactly [n] bytes, padded with NUL. *)
Definition strncpy (s : list Z) (n : nat) : list Z := take n s ++ replicate (n - length s) 0.

(** [memcmp(a, b, n) == 0]; it stops at the first difference, and is [None]
    when it would read past the end of one of the operands. *)
Fixpoint memeq (a b : list Z) (n : nat) : option bool :=
  match n with
  | O => Some true
  | S n' =>
      match a, b with
      | x :: a', y :: b' => if x =? y then memeq a' b' n' else Some false
      | _, _ => None
      end
  end.

(** [isspace] in the C locale. *)
Definition isspace (c : Z) : bool := (c =? 32) || ((9 <=? c) && (c <=? 13)).
Definition isdigit (c : Z) : bool := (48 <=? c) && (c <=? 57).

Fixpoint skip_space (l : list Z) : list Z :=
  match l with
  | c :: l' => if isspace c then skip_space l' else l
  | [] => []
  end.

Fixpoint read_digits (acc : Z) (l : list Z) : Z :=
  match l with
  | c :: l' => if isdigit c then read_digits (10 * acc + (c - 48)) l' else acc
  | [] => acc
  end.

Definition LONG_MAX : Z := 2 ^ 31 - 1.
Definition LONG_MIN : Z := - 2 ^ 31.

(** [atol(s)]: blanks, a sign, digits; out of range values saturate as
    [strtol] does ([long] has 32 bits). *)
Definition atol (s : list Z) : Z :=
  let clamp x := Z.max LONG_MIN (Z.min LONG_MAX x) in
  match skip_space s with
  | 45 :: l => clamp (- read_digits 0 l)
  | 43 :: l => clamp (read_digits 0 l)
  | l => clamp (read_digits 0 l)
  end.

(** The decimal digits of a natural number, most significant first. *)
Fixpoint digits (fuel : nat) (n : Z) (acc : list Z) : list Z :=
  match fuel with
  | O => acc
  | S fuel' =>
      let acc := (48 + n mod 10) :: acc in
      if n <? 10 then acc else digits fuel' (n / 10) acc
  end.

(** ["%d"] of an [int]. *)
Definition print_d (n : Z) : list Z :=
  if n <? 0 then 45 :: digits 20 (- n) [] else digits 20 n [].

(** ** Lemmas *)

Lemma cstr_ok_app s t : cstr_ok (s ++ t) <-> cstr_ok s /\ cstr_ok t.
Proof. apply Forall_app. Qed.

Lemma cstr_ok_bytes s : cstr_ok s -> bytes_ok s.
Proof. apply Forall_impl. unfold byte_ok. lia. Qed.

Lemma strlen_cstr s l : cstr_ok s -> strlen (s ++ 0 :: l) = Some (length s).
Proof.
  intros Hs. induction Hs as [| c s Hc Hs IH]; [reflexivity |].
  cbn [app strlen length]. destruct (Z.eqb_spec c 0); [lia |]. now rewrite IH.
Qed.

Lemma strlen_bound l n : strlen l = Some n -> (n < length l)%nat.
Proof.
  revert n. induction l as [| c l IH]; intros n; [discriminate |].
  cbn [strlen length]. destruct (c =? 0); [intros [= <-]; lia |].
  destruct (strlen l) as [m |]; [| discriminate]. intros [= <-]. specialize (IH m eq_refl). lia.
Qed.

Lemma cstring_cstr s l : cstr_ok s -> cstring (s ++ 0 :: l) = Some s.
Proof. intros. unfold cstring. rewrite strlen_cstr by assumption. now rewrite take_app_length. Qed.

Lemma length_strncpy s n : length (strncpy s n) = n.
Proof. unfold strncpy. rewrite length_app, length_take, length_replicate. lia. Qed.

Lemma strncpy_bytes s n : bytes_ok s -> bytes_ok (strncpy s n).
Proof.
  intros. unfold strncpy. apply Forall_app. split; [now apply Forall_take |].
  apply Forall_replicate. unfold byte_ok. lia.
Qed.

(** [memcmp] of a C string with a shorter or equal string is the prefix test. *)
Lemma memeq_spec a b rest n :
  cstr_ok (take n a) -> (n <= length a)%nat ->
  memeq a (b ++ 0 :: rest) n = Some (bool_decide (take n a = take n b)).
Proof.
  revert b n. induction a as [| x a IH]; intros b n Ha Hn.
  { destruct n; [reflexivity | simpl in Hn; lia]. }
  destruct n as [| n]; [reflexivity |]. cbn [firstn] in Ha. apply Forall_cons_1 in Ha as [Hx Ha].
  destruct b as [| y b]; cbn [app memeq firstn].
  - destruct (Z.eqb_spec x 0); [lia |]. now rewrite bool_decide_eq_false_2 by discriminate.
  - simpl in Hn. destruct (Z.eqb_spec x y) as [-> | Hne].
    + rewrite IH by (assumption || lia). f_equal. apply bool_decide_ext. split; congruence.
    + rewrite bool_decide_eq_false_2; [reflexivity | congruence].
Qed.

Lemma digits_app fuel n acc : digits fuel n acc = digits fuel n [] ++ acc.
Proof.
  revert n acc. induction fuel as [| fuel IH]; intros n acc; [reflexivity |]. cbn [digits].
  destruct (n <? 10); [reflexivity |]. rewrite IH, (IH _ [_]), <- app_assoc. reflexivity.
Qed.

Lemma digits_isdigit fuel n : 0 <= n -> Forall (fun c => isdigit c = true) (digits fuel n []).
Proof.
  revert n. induction fuel as [| fuel IH]; intros n Hn; [constructor |]. cbn [digits].
  pose proof (Z.mod_pos_bound n 10 ltac:(lia)).
  assert (isdigit (48 + n mod 10) = true) by (unfold isdigit; lia).
  destruct (n <? 10); [now repeat constructor |].
  rewrite digits_app. apply Forall_app. split; [apply IH, Z.div_pos; lia | now repeat constructor].
Qed.

Lemma digits_nonempty fuel n : (0 < fuel)%nat -> digits fuel n [] <> [].
Proof.
  destruct fuel; [lia |]. intros _. cbn [digits]. destruct (n <? 10); [discriminate |].
  rewrite digits_app. intros [_ E]%app_nil. discriminate.
Qed.

Lemma length_digits fuel n : (length (digits fuel n []) <= fuel)%nat.
Proof.
  revert n. induction fuel as [| fuel IH]; intros n; [simpl; lia |]. cbn [digits].
  destruct (n <? 10); [simpl; lia |]. rewrite digits_app, length_app. specialize (IH (n / 10)). simpl. lia.
Qed.

Lemma read_digits_app acc l1 l2 :
  Forall (fun c => isdigit c = true) l1 -> read_digits acc (l1 ++ l2) = read_digits (read_digits acc l1) l2.
Proof.
  intros H. revert acc. induction H as [| c l Hc _ IH]; intros acc; [reflexivity |].
  cbn [app read_digits]. now rewrite Hc.
Qed.

(** The digits read back as the number. *)
Lemma read_digits_digits fuel n :
  0 <= n < 10 ^ Z.of_nat fuel -> read_digits 0 (digits fuel n []) = n.
Proof.
  revert n. induction fuel as [| fuel IH]; intros n Hn; [simpl in *; lia |]. cbn [digits].
  pose proof (Z.mod_pos_bound n 10 ltac:(lia)).
  assert (isdigit (48 + n mod 10) = true) as Hd by (unfold isdigit; lia).
  destruct (Z.ltb_spec n 10).
  - cbn [read_digits]. rewrite Hd, Z.mod_small by lia. lia.
  - rewrite Nat2Z.inj_succ, Z.pow_succ_r in Hn by lia.
    assert (0 <= n / 10 < 10 ^ Z.of_nat fuel) by (split; [apply Z.div_pos; lia | apply Z.div_lt_upper_bound; lia]).
    rewrite digits_app, read_digits_app, IH by (assumption || apply digits_isdigit; lia).
    cbn [read_digits]. rewrite Hd. pose proof (Z.div_mod n 10). lia.
Qed.

Lemma isdigit_range c : isdigit c = true -> 48 <= c <= 57.
Proof. unfold isdigit. lia. Qed.

Lemma print_d_digits n : 0 <= n -> print_d n = digits 20 n [].
Proof. intros. unfold print_d. destruct (Z.ltb_spec n 0); [lia | reflexivity]. Qed.

(** Printing then reading a non-negative [int]. *)
Lemma atol_print_d n : 0 <= n <= LONG_MAX -> atol (print_d n) = n.
Proof.
  intros Hn. unfold LONG_MAX in Hn. rewrite print_d_digits by lia.
  pose proof (digits_isdigit 20 n ltac:(lia)) as Hd. pose proof (digits_nonempty 20 n ltac:(lia)) as Hne.
  pose proof (read_digits_digits 20 n ltac:(simpl; lia)) as Hr.
  destruct (digits 20 n []) as [| c l] eqn:E; [contradiction |].
  apply Forall_cons_1 in Hd as [Hc _]. apply isdigit_range in Hc. unfold atol.
  assert (skip_space (c :: l) = c :: l) as ->
    by (cbn [skip_space]; unfold isspace; bool_cases; try lia; reflexivity).
  assert ((match c :: l with
    | 45 :: l' => Z.max LONG_MIN (Z.min LONG_MAX (- read_digits 0 l'))
    | 43 :: l' => Z.max LONG_MIN (Z.min LONG_MAX (read_digits 0 l'))
    | l' => Z.max LONG_MIN (Z.min LONG_MAX (read_digits 0 l')) end) =
    Z.max LONG_MIN (Z.min LONG_MAX (read_digits 0 (c :: l)))) as ->.
  { assert (c = 48 \/ c = 49 \/ c = 50 \/ c = 51 \/ c = 52 \/ c = 53 \/ c = 54 \/ c = 55 \/ c = 56 \/ c = 57) as Hcs by lia.
    repeat destruct Hcs as [-> | Hcs]; try reflexivity. now subst. }
  rewrite Hr. unfold LONG_MIN, LONG_MAX. lia.
Qed.

Lemma print_d_cstr n : 0 <= n -> cstr_ok (print_d n).
Proof.
  intros. rewrite print_d_digits by assumption.
  eapply Forall_impl; [| apply digits_isdigit; assumption]. intros c Hc%isdigit_range. lia.
Qed.
