(* ===== verification/SstMap.v ===== *)
(** * SstMap: the name map of the key box

    Models [__probe_name_in_map] and [__fill_name_in_map] of
    [optee-keybox/src/na/libkeybox/secure_storage.c].  Block 0 of the secure
    storage ([secure_storage_map], 4096 bytes) lists the stored items as
    "name:length" strings, each ended by NUL; the position of an entry is the
    number of the block that holds the item.

    A pointer into the block is the list of the bytes from it to the end of the
    block, so the pointer difference [p - buffer] is [SEC_BLK_SIZE - length p]
    and the test [(p - buffer) < SEC_BLK_SIZE] is [p <> []].  A read outside the
    block is undefined behaviour and gives [None].

    The reference is a list of entries: [map_of es] is the block that stores
    [es], [find_entry] the lookup and [first_prefix] the first entry whose name
    is a prefix of a given name. *)
From S2P Require Import Prelude CString.

Definition SEC_BLK_SIZE : nat := Z.to_nat 4096.
Definition MAX_SECURE_STORAGE_MAX_ITEM : Z := 32.
Definition MAP_KEY_NAME_SIZE : nat := 64.
Definition MAP_KEY_DATA_SIZE : nat := 32.

(** The inner loops of [__probe_name_in_map]: copy bytes to the array until
    [stop], NUL, the end of the block or the end of the array. *)
Fixpoint scan_field (stop : Z) (max : nat) (p acc : list Z) : option (list Z * list Z) :=
  match p with
  | [] => None
  | c :: p' =>
      if negb (c =? stop) && negb (c =? 0) && (length acc <? max)%nat
      then scan_field stop max p' (acc ++ [c]) else Some (p, acc)
  end.

(** The outer loop, from pointer [p] on; the result is the return value and the
    value stored in [*len], if one is.  Every round moves [p] forward. *)
Fixpoint probe_loop (fuel : nat) (p item_name : list Z) (index : Z) : option (Z * option Z) :=
  match fuel with
  | O => None
  | S fuel' =>
      match p with
      | [] => None
      | c :: _ =>
          if c =? 0 then Some (-1, None) else
          match scan_field 58 MAP_KEY_NAME_SIZE p [] with
          | None => None
          | Some (q, name) =>
              if (MAP_KEY_NAME_SIZE <=? length name)%nat then Some (-1, None) else
              match scan_field 32 MAP_KEY_DATA_SIZE (tail q) [] with
              | None => None
              | Some (q, len) =>
                  if (length q =? 0)%nat || (MAP_KEY_DATA_SIZE <=? length len)%nat then Some (-1, None)
                  else if bool_decide (item_name = name) then Some (index, Some (s32 (atol len)))
                  else match strlen p with
                       | None => None
                       | Some n => probe_loop fuel' (drop (n + 1) p) item_name (index + 1)
                       end
              end
          end
      end
  end.

Definition probe_name_in_map (buffer item_name : list Z) : option (Z * option Z) :=
  probe_loop (S (length buffer)) buffer item_name 1.

(** [name_len] of [__fill_name_in_map]: bytes before [':'], at most 64; the
    pointer reached tells whether the block ended. *)
Fixpoint fill_name_len (p : list Z) (name_len : nat) : option (nat * list Z) :=
  match p with
  | [] => None
  | c :: p' =>
      if negb (c =? 58) && (name_len <? MAP_KEY_NAME_SIZE)%nat
      then fill_name_len p' (S name_len) else Some (name_len, p)
  end.

(** The search loop of [__fill_name_in_map]: [inl index] is the early return,
    [inr (buffer, buf_start, index)] the state in which the loop ends. *)
Fixpoint fill_loop (fuel : nat) (buffer p item_name : list Z) (index : Z)
  : option (Z + (list Z * list Z * Z)) :=
  match fuel with
  | O => None
  | S fuel' =>
      match p with
      | [] => None
      | c :: _ =>
          if c =? 0 then Some (inr (buffer, p, index)) else
          match fill_name_len p 0 with
          | None => None
          | Some (name_len, q) =>
              if (length q =? 0)%nat || (MAP_KEY_NAME_SIZE <=? name_len)%nat then
                let buffer := replicate SEC_BLK_SIZE 0 in Some (inr (buffer, buffer, 1))
              else
                match memeq p (item_name ++ [0]) name_len with
                | None => None
                | Some true => Some (inl index)
                | Some false =>
                    match strlen p with
                    | None => None
                    | Some n => fill_loop fuel' buffer (drop (n + 1) p) item_name (index + 1)
                    end
                end
          end
      end
  end.

(** [__fill_name_in_map(buffer, item_name, length)]: the return value and the
    new block; [sprintf] past the end of the block is [None]. *)
Definition fill_name_in_map (buffer item_name : list Z) (len : Z) : option (Z * list Z) :=
  match fill_loop (S (length buffer)) buffer buffer item_name 1 with
  | None => None
  | Some (inl index) => Some (index, buffer)
  | Some (inr (buffer, p, index)) =>
      if 32 <=? index then Some (-1, buffer)
      else
        let s := item_name ++ 58 :: print_d len ++ [0] in
        if (length s <=? length p)%nat
        then Some (index, blit buffer (SEC_BLK_SIZE - length p) s) else None
  end.

(** ** Reference: a list of entries *)

Record entry := Entry { e_name : list Z; e_len : list Z }.

Definition render_entry (e : entry) : list Z := e_name e ++ 58 :: e_len e ++ [0].
Definition render (es : list entry) : list Z := concat (map render_entry es).

Definition map_of (es : list entry) : list Z :=
  render es ++ replicate (SEC_BLK_SIZE - length (render es)) 0.

(** A name that the map can hold: 1 to 63 bytes, no NUL and no [':']. *)
Definition wf_name (s : list Z) : Prop :=
  cstr_ok s /\ ~ 58 ∈ s /\ (0 < length s < MAP_KEY_NAME_SIZE)%nat.

Definition wf_len (s : list Z) : Prop :=
  cstr_ok s /\ ~ 32 ∈ s /\ (length s < MAP_KEY_DATA_SIZE)%nat.

Definition wf_entry (e : entry) : Prop := wf_name (e_name e) /\ wf_len (e_len e).

Definition wf_map (es : list entry) : Prop := Forall wf_entry es /\ (length es <= 31)%nat.

#[global] Instance wf_name_dec s : Decision (wf_name s).
Proof. unfold wf_name. apply _. Defined.
#[global] Instance wf_len_dec s : Decision (wf_len s).
Proof. unfold wf_len. apply _. Defined.
#[global] Instance wf_entry_dec e : Decision (wf_entry e).
Proof. unfold wf_entry. apply _. Defined.
#[global] Instance wf_map_dec es : Decision (wf_map es).
Proof. unfold wf_map. apply _. Defined.

(** Position (from [index]) and length of the first entry named [s]. *)
Fixpoint find_entry (es : list entry) (s : list Z) (index : Z) : option (Z * Z) :=
  match es with
  | [] => None
  | e :: es' =>
      if bool_decide (s = e_name e) then Some (index, s32 (atol (e_len e)))
      else find_entry es' s (index + 1)
  end.

(** Position of the first entry whose name is a prefix of [s]. *)
Fixpoint first_prefix (es : list entry) (s : list Z) (index : Z) : option Z :=
  match es with
  | [] => None
  | e :: es' =>
      if bool_decide (e_name e = take (length (e_name e)) s) then Some index
      else first_prefix es' s (index + 1)
  end.

(** ** Lemmas *)

Lemma scan_field_spec stop max s c l acc :
  cstr_ok s -> ~ stop ∈ s -> (c = stop \/ c = 0) -> (length acc + length s < max)%nat ->
  scan_field stop max (s ++ c :: l) acc = Some (c :: l, acc ++ s).
Proof.
  intros Hs Hn Hc. revert acc. induction Hs as [| x s Hx Hs IH]; intros acc Hlen; cbn [app scan_field].
  - rewrite app_nil_r. destruct Hc as [-> | ->].
    + now rewrite Z.eqb_refl.
    + rewrite Z.eqb_refl. cbn [negb]. now rewrite andb_false_r.
  - rewrite not_elem_of_cons in Hn. destruct Hn as [Hx' Hn]. simpl in Hlen.
    destruct (Z.eqb_spec x stop); [congruence |]. destruct (Z.eqb_spec x 0); [lia |].
    destruct (Nat.ltb_spec (length acc) max); [| lia]. cbn [negb andb].
    rewrite IH by (try assumption; rewrite length_app; simpl; lia). now rewrite <- app_assoc.
Qed.

Lemma fill_name_len_spec s l n :
  ~ 58 ∈ s -> (n + length s < MAP_KEY_NAME_SIZE)%nat ->
  fill_name_len (s ++ 58 :: l) n = Some ((n + length s)%nat, 58 :: l).
Proof.
  revert n. induction s as [| x s IH]; intros n Hn Hlen; cbn [app fill_name_len].
  - now rewrite Z.eqb_refl, Nat.add_0_r.
  - rewrite not_elem_of_cons in Hn. destruct Hn as [Hx Hn]. simpl in Hlen.
    destruct (Z.eqb_spec x 58); [congruence |]. destruct (Nat.ltb_spec n MAP_KEY_NAME_SIZE); [| lia].
    cbn [negb andb]. rewrite IH by (assumption || lia). simpl. do 2 f_equal. lia.
Qed.

Lemma render_entry_cons e l : render_entry e ++ l = e_name e ++ 58 :: e_len e ++ 0 :: l.
Proof. unfold render_entry. now rewrite <- app_assoc, <- app_comm_cons, <- app_assoc. Qed.

Lemma render_cons e es : render (e :: es) = render_entry e ++ render es.
Proof. reflexivity. Qed.

Lemma render_app es es' : render (es ++ es') = render es ++ render es'.
Proof. unfold render. now rewrite map_app, concat_app. Qed.

Lemma length_render_entry e : wf_entry e -> (length (render_entry e) <= 96)%nat.
Proof.
  intros [(_ & _ & Hn) (_ & _ & Hl)]. unfold render_entry, MAP_KEY_NAME_SIZE, MAP_KEY_DATA_SIZE in *.
  rewrite length_app. cbn [length]. rewrite length_app. simpl. lia.
Qed.

Lemma length_render es : Forall wf_entry es -> (length (render es) <= 96 * length es)%nat.
Proof.
  induction 1 as [| e es He _ IH]; [simpl; lia |].
  rewrite render_cons, length_app. pose proof (length_render_entry e He). cbn [length]. lia.
Qed.

Lemma wf_map_fits es : wf_map es -> (length (render es) <= 2976)%nat.
Proof. intros [H Hl]. pose proof (length_render es H). lia. Qed.

Lemma length_map_of es : wf_map es -> length (map_of es) = SEC_BLK_SIZE.
Proof.
  intros H%wf_map_fits. unfold map_of, SEC_BLK_SIZE. rewrite length_app, length_replicate. lia.
Qed.

(** An entry is a NUL-terminated string. *)
Lemma strlen_render_entry e l :
  wf_entry e -> strlen (render_entry e ++ l) = Some (length (render_entry e) - 1)%nat.
Proof.
  intros [(Hn & _) (Hl & _)]. rewrite render_entry_cons.
  assert (cstr_ok (e_name e ++ 58 :: e_len e)) as Hc
    by (apply cstr_ok_app; split; [assumption | apply Forall_cons_2; [lia | assumption]]).
  change (e_name e ++ 58 :: e_len e ++ 0 :: l) with (e_name e ++ (58 :: e_len e) ++ 0 :: l).
  rewrite app_assoc, strlen_cstr by assumption. f_equal. unfold render_entry.
  rewrite !length_app. cbn [length]. rewrite length_app. simpl. lia.
Qed.

Lemma drop_render_entry e l :
  wf_entry e -> drop (length (render_entry e) - 1 + 1) (render_entry e ++ l) = l.
Proof.
  intros _. assert (0 < length (render_entry e))%nat.
  { unfold render_entry. rewrite length_app. simpl. lia. }
  replace (length (render_entry e) - 1 + 1)%nat with (length (render_entry e)) by lia.
  apply drop_app_length.
Qed.

(** The first byte of an entry is not NUL. *)
Lemma render_entry_head e l :
  wf_entry e -> exists c p, render_entry e ++ l = c :: p /\ c <> 0.
Proof.
  intros [(Hc & _ & Hn) _]. rewrite render_entry_cons.
  destruct (e_name e) as [| c s]; [simpl in Hn; lia |].
  apply Forall_cons_1 in Hc as [Hc _]. exists c. eexists. split; [reflexivity | lia].
Qed.

Lemma probe_loop_spec es z fuel s index :
  Forall wf_entry es -> (length es < fuel)%nat ->
  probe_loop fuel (render es ++ 0 :: z) s index =
    Some (match find_entry es s index with Some (i, n) => (i, Some n) | None => (-1, None) end).
Proof.
  intros He. revert fuel index. induction He as [| e es He Hes IH]; intros [| fuel] index Hf;
    cbn [length] in Hf; try lia; [reflexivity |].
  rewrite render_cons, <- app_assoc. set (rest := render es ++ 0 :: z).
  destruct (render_entry_head e rest He) as (c & p & E & Hc).
  cbn [probe_loop find_entry]. rewrite E. destruct (Z.eqb_spec c 0); [contradiction |]. rewrite <- E.
  pose proof He as [(Hn1 & Hn2 & Hn3) (Hl1 & Hl2 & Hl3)].
  rewrite render_entry_cons, scan_field_spec by (simpl; auto; lia). cbn [tail app].
  destruct (Nat.leb_spec MAP_KEY_NAME_SIZE (length (e_name e))); [lia |].
  rewrite scan_field_spec by (simpl; auto). cbn [app length Nat.eqb orb].
  destruct (Nat.leb_spec MAP_KEY_DATA_SIZE (length (e_len e))); [lia |].
  case_bool_decide; [reflexivity |].
  rewrite <- render_entry_cons, strlen_render_entry, drop_render_entry by assumption.
  apply IH. lia.
Qed.

Lemma fill_loop_spec es z fuel buffer s index :
  Forall wf_entry es -> cstr_ok s -> (length es < fuel)%nat ->
  fill_loop fuel buffer (render es ++ 0 :: z) s index =
    Some (match first_prefix es s index with
          | Some i => inl i
          | None => inr (buffer, 0 :: z, index + Z.of_nat (length es))
          end).
Proof.
  intros He Hs. revert fuel index. induction He as [| e es He Hes IH]; intros [| fuel] index Hf;
    cbn [length] in Hf; try lia; [cbn; now rewrite Z.add_0_r |].
  rewrite render_cons, <- app_assoc. set (rest := render es ++ 0 :: z).
  destruct (render_entry_head e rest He) as (c & p & E & Hc).
  cbn [fill_loop first_prefix]. rewrite E. destruct (Z.eqb_spec c 0); [contradiction |]. rewrite <- E.
  pose proof He as [(Hn1 & Hn2 & Hn3) _].
  rewrite render_entry_cons, fill_name_len_spec by (assumption || lia). cbn [length Nat.eqb orb Nat.add].
  destruct (Nat.leb_spec MAP_KEY_NAME_SIZE (length (e_name e))); [lia |].
  rewrite memeq_spec by (rewrite ?take_app_length, ?length_app; auto; lia).
  rewrite take_app_length. case_bool_decide; [reflexivity |].
  rewrite <- render_entry_cons, strlen_render_entry, drop_render_entry by assumption.
  rewrite IH by lia. cbn [length]. do 2 f_equal. destruct (first_prefix es s (index + 1)); [reflexivity |].
  do 2 f_equal. lia.
Qed.

(** The block of a well-formed map ends in zeros. *)
Lemma map_of_tail es :
  wf_map es -> exists n, map_of es = render es ++ 0 :: replicate n 0 /\
    (length (render es) + S n = SEC_BLK_SIZE)%nat /\ (1119 <= n)%nat.
Proof.
  intros H%wf_map_fits. unfold map_of.
  destruct (SEC_BLK_SIZE - length (render es))%nat as [| n] eqn:En; unfold SEC_BLK_SIZE in *; [lia |].
  exists n. split; [reflexivity | lia].
Qed.

Lemma map_fuel es : wf_map es -> (length es < S (length (map_of es)))%nat.
Proof. intros H. rewrite length_map_of by assumption. destruct H. unfold SEC_BLK_SIZE. lia. Qed.

Lemma probe_name_in_map_ref es s :
  wf_map es ->
  probe_name_in_map (map_of es) s =
    Some (match find_entry es s 1 with Some (i, n) => (i, Some n) | None => (-1, None) end).
Proof.
  intros H. pose proof (map_fuel es H) as Hf. unfold probe_name_in_map.
  destruct (map_of_tail es H) as (n & E & _). rewrite E in *. apply probe_loop_spec; [apply H | assumption].
Qed.

(** Writing one more entry after the last. *)
Lemma blit_map_of es s len n :
  map_of es = render es ++ 0 :: replicate n 0 -> (length (render es) + S n = SEC_BLK_SIZE)%nat ->
  (length (render_entry (Entry s len)) <= S n)%nat ->
  blit (map_of es) (SEC_BLK_SIZE - S n) (s ++ 58 :: len ++ [0]) = map_of (es ++ [Entry s len]).
Proof.
  intros E H Hlen. change (s ++ 58 :: len ++ [0]) with (render_entry (Entry s len)).
  set (r := render_entry (Entry s len)) in *. replace (SEC_BLK_SIZE - S n)%nat with (length (render es)) by lia.
  unfold blit. rewrite E, take_app_length. unfold map_of. rewrite render_app, <- app_assoc.
  change (render [Entry s len]) with (r ++ []). rewrite app_nil_r. f_equal. f_equal.
  rewrite drop_app_ge by lia.
  replace (length (render es) + length r - length (render es))%nat with (length r) by lia.
  change (0 :: replicate n 0) with (replicate (S n) 0). rewrite drop_replicate. f_equal.
  rewrite length_app. lia.
Qed.

Lemma wf_print_d n : 0 <= n -> wf_len (print_d n).
Proof.
  intros Hn. repeat split; [now apply print_d_cstr | |].
  - rewrite print_d_digits by assumption. intros H.
    pose proof (digits_isdigit 20 n Hn) as Hd. rewrite Forall_forall in Hd.
    specialize (Hd 32 ltac:(now apply list_elem_of_In)). discriminate.
  - rewrite print_d_digits by assumption. pose proof (length_digits 20 n). unfold MAP_KEY_DATA_SIZE. lia.
Qed.

(** [__fill_name_in_map] on any C string that fits after the last entry. *)
Lemma fill_name_in_map_gen es s len :
  wf_map es -> cstr_ok s -> (length (render_entry (Entry s (print_d len))) <= 1120)%nat ->
  fill_name_in_map (map_of es) s len =
    Some (match first_prefix es s 1 with
          | Some i => (i, map_of es)
          | None => if (31 <=? length es)%nat then (-1, map_of es)
                    else (Z.of_nat (length es) + 1, map_of (es ++ [Entry s (print_d len)]))
          end).
Proof.
  intros H Hs Hlen. pose proof (map_fuel es H) as Hf. unfold fill_name_in_map.
  destruct (map_of_tail es H) as (n & E & Hn & Hmin).
  pose proof (fill_loop_spec es (replicate n 0) _ (map_of es) s 1 (proj1 H) Hs Hf) as F.
  rewrite <- E in F. rewrite F. destruct (first_prefix es s 1) as [i |]; [reflexivity |].
  destruct (Z.leb_spec 32 (1 + Z.of_nat (length es))), (Nat.leb_spec 31 (length es)); try lia; [reflexivity |].
  change (s ++ 58 :: print_d len ++ [0]) with (render_entry (Entry s (print_d len))).
  cbn [length]. rewrite length_replicate.
  destruct (Nat.leb_spec (length (render_entry (Entry s (print_d len)))) (S n)); [| lia].
  f_equal. f_equal; [lia |]. apply blit_map_of; assumption.
Qed.

Lemma fill_name_in_map_ref es s len :
  wf_map es -> wf_name s -> 0 <= len ->
  fill_name_in_map (map_of es) s len =
    Some (match first_prefix es s 1 with
          | Some i => (i, map_of es)
          | None => if (31 <=? length es)%nat then (-1, map_of es)
                    else (Z.of_nat (length es) + 1, map_of (es ++ [Entry s (print_d len)]))
          end).
Proof.
  intros H Hs Hlen. apply fill_name_in_map_gen; [assumption | apply Hs |].
  pose proof (length_render_entry (Entry s (print_d len)) (conj Hs (wf_print_d len Hlen))). lia.
Qed.

Lemma find_entry_app es e s index :
  find_entry (es ++ [e]) s index =
    match find_entry es s index with
    | Some r => Some r
    | None => if bool_decide (s = e_name e)
              then Some (index + Z.of_nat (length es), s32 (atol (e_len e))) else None
    end.
Proof.
  revert index. induction es as [| e' es IH]; intros index; cbn [app find_entry length].
  - now rewrite Z.add_0_r.
  - destruct (bool_decide (s = e_name e')); [reflexivity |]. rewrite IH.
    destruct (find_entry es s (index + 1)); [reflexivity |].
    destruct (bool_decide (s = e_name e)); [| reflexivity]. do 2 f_equal. lia.
Qed.

(** An entry with the very name is an entry whose name is a prefix. *)
Lemma find_entry_prefix es s index : first_prefix es s index = None -> find_entry es s index = None.
Proof.
  revert index. induction es as [| e es IH]; intros index; [reflexivity |]. cbn [first_prefix find_entry].
  case_bool_decide as H1; [discriminate |]. intros H. case_bool_decide as H2; [| now apply IH].
  subst s. exfalso. apply H1. now rewrite firstn_all.
Qed.

Lemma wf_map_snoc es e : wf_map es -> wf_entry e -> (length es < 31)%nat -> wf_map (es ++ [e]).
Proof.
  intros [H _] He Hl. split; [apply Forall_app; split; [assumption | now apply Forall_cons_2] |].
  rewrite length_app. simpl. lia.
Qed.

Lemma first_prefix_app es e s index :
  first_prefix es s index = None ->
  first_prefix (es ++ [e]) s index =
    if bool_decide (e_name e = take (length (e_name e)) s) then Some (index + Z.of_nat (length es)) else None.
Proof.
  revert index. induction es as [| e' es IH]; intros index; cbn [app first_prefix length].
  - intros _. now rewrite Z.add_0_r.
  - destruct (bool_decide (e_name e' = _)); [discriminate |]. intros H'. rewrite IH by assumption.
    destruct (bool_decide (e_name e = _)); [| reflexivity]. f_equal. lia.
Qed.

(** A name too long for the name array stops the search: the block is wiped. *)
Lemma fill_name_len_long s l n :
  ~ 58 ∈ s -> (n <= MAP_KEY_NAME_SIZE)%nat -> (MAP_KEY_NAME_SIZE <= n + length s)%nat ->
  exists q, fill_name_len (s ++ 58 :: l) n = Some (MAP_KEY_NAME_SIZE, q).
Proof.
  revert n. induction s as [| x s IH]; intros n Hn Hmax Hlen; cbn [app fill_name_len].
  - simpl in Hlen. replace n with MAP_KEY_NAME_SIZE by lia. eauto.
  - rewrite not_elem_of_cons in Hn. destruct Hn as [Hx Hn]. simpl in Hlen.
    destruct (Z.eqb_spec x 58); [congruence |]. cbn [negb andb].
    destruct (Nat.ltb_spec n MAP_KEY_NAME_SIZE); [apply IH; auto; lia |].
    replace n with MAP_KEY_NAME_SIZE by lia. eauto.
Qed.

Lemma fill_loop_long es s' len z fuel buffer s index :
  Forall wf_entry es -> cstr_ok s -> (length es < fuel)%nat -> first_prefix es s index = None ->
  cstr_ok s' -> ~ 58 ∈ s' -> (MAP_KEY_NAME_SIZE <= length s')%nat ->
  fill_loop fuel buffer (render es ++ s' ++ 58 :: len ++ 0 :: z) s index =
    Some (inr (replicate SEC_BLK_SIZE 0, replicate SEC_BLK_SIZE 0, 1)).
Proof.
  intros He Hs. revert fuel index. induction He as [| e es He Hes IH]; intros [| fuel] index Hf Hp Hs1 Hs2 Hs3;
    cbn [length] in Hf; try lia.
  - cbn [render map concat app]. destruct (fill_name_len_long s' (len ++ 0 :: z) 0) as [q Eq];
      [assumption | lia | lia |].
    destruct s' as [| c s']; [unfold MAP_KEY_NAME_SIZE in Hs3; simpl in Hs3; lia |].
    pose proof (Forall_cons_1 _ _ _ Hs1) as [Hc _]. cbn [app] in *. cbn [fill_loop].
    destruct (Z.eqb_spec c 0); [lia |]. rewrite Eq, Nat.leb_refl, orb_true_r. reflexivity.
  - cbn [first_prefix] in Hp. case_bool_decide as Hd; [discriminate |].
    rewrite render_cons, <- app_assoc. set (rest := render es ++ _) in *.
    destruct (render_entry_head e rest He) as (c & p & E & Hc).
    cbn [fill_loop]. rewrite E. destruct (Z.eqb_spec c 0); [contradiction |]. rewrite <- E.
    pose proof He as [(Hn1 & Hn2 & Hn3) _].
    rewrite render_entry_cons, fill_name_len_spec by (assumption || lia). cbn [length Nat.eqb orb Nat.add].
    destruct (Nat.leb_spec MAP_KEY_NAME_SIZE (length (e_name e))); [lia |].
    rewrite memeq_spec by (rewrite ?take_app_length, ?length_app; auto; lia).
    rewrite take_app_length, bool_decide_eq_false_2 by assumption.
    rewrite <- render_entry_cons, strlen_render_entry, drop_render_entry by assumption.
    apply IH; auto. lia.
Qed.

(** ** Properties *)

(** Storing a new name and looking it up: on a well-formed map with room, a
    name that no stored name is a prefix of gets the next block, the new map is
    well formed, the lookup finds the block and the length, and every other
    name is found as before. *)
Theorem fill_then_probe (es : list entry) (s : list Z) (len : Z) :
  wf_map es -> wf_name s -> 0 <= len <= LONG_MAX ->
  first_prefix es s 1 = None -> (length es < 31)%nat ->
  exists buf', fill_name_in_map (map_of es) s len = Some (Z.of_nat (length es) + 1, buf') /\
    buf' = map_of (es ++ [Entry s (print_d len)]) /\ wf_map (es ++ [Entry s (print_d len)]) /\
    probe_name_in_map buf' s = Some (Z.of_nat (length es) + 1, Some len) /\
    forall t, t <> s -> probe_name_in_map buf' t = probe_name_in_map (map_of es) t.
Proof.
  intros H Hs Hlen Hp Hroom. rewrite fill_name_in_map_ref, Hp by (assumption || lia).
  destruct (Nat.leb_spec 31 (length es)); [lia |].
  assert (wf_map (es ++ [Entry s (print_d len)])) as Hwf
    by (apply wf_map_snoc; [assumption | split; [assumption | apply wf_print_d; lia] | assumption]).
  eexists. do 3 (split; [reflexivity || assumption |]). split.
  - rewrite probe_name_in_map_ref, find_entry_app, find_entry_prefix by assumption. cbn [e_name e_len].
    rewrite bool_decide_eq_true_2 by reflexivity. rewrite atol_print_d by assumption.
    unfold LONG_MAX in Hlen. rewrite s32_id by lia. do 2 f_equal. lia.
  - intros t Ht. rewrite !probe_name_in_map_ref, find_entry_app by assumption. cbn [e_name].
    rewrite bool_decide_eq_false_2 by assumption. now destruct (find_entry es t 1).
Qed.

Definition ex_es : list entry := [Entry [114; 111; 116] [51; 49; 55; 54]].

Lemma fill_then_probe_witness :
  exists buf', fill_name_in_map (map_of ex_es) [107; 101; 121] 3176 = Some (2, buf') /\
    probe_name_in_map buf' [107; 101; 121] = Some (2, Some 3176).
Proof.
  destruct (fill_then_probe ex_es [107; 101; 121] 3176) as (b & E & _ & _ & P & _);
    [by_compute | by_compute | unfold LONG_MAX; lia | reflexivity | simpl; lia |].
  exists b. split; assumption.
Defined.

(** A stored name that is a proper prefix of the new name captures it: the
    writer gets the block of the stored item, the map is unchanged, and the new
    name is still not found. *)
Theorem fill_prefix_captures (es : list entry) (s : list Z) (len i : Z) :
  wf_map es -> wf_name s -> 0 <= len ->
  first_prefix es s 1 = Some i -> find_entry es s 1 = None ->
  fill_name_in_map (map_of es) s len = Some (i, map_of es) /\
  probe_name_in_map (map_of es) s = Some (-1, None).
Proof.
  intros H Hs Hlen Hp Hf. rewrite fill_name_in_map_ref, Hp, probe_name_in_map_ref, Hf by assumption. auto.
Qed.

(** "rotpk" is written over "rot". *)
Lemma fill_prefix_captures_witness :
  fill_name_in_map (map_of ex_es) [114; 111; 116; 112; 107] 3176 = Some (1, map_of ex_es) /\
  probe_name_in_map (map_of ex_es) [114; 111; 116; 112; 107] = Some (-1, None).
Proof. apply fill_prefix_captures; [by_compute | by_compute | lia | reflexivity | reflexivity]. Defined.

(** A name of 64 bytes or more is accepted without a check, and the next new
    name wipes the whole map: it becomes the only entry, in block 1. *)
Theorem fill_long_name_wipes (es : list entry) (s t : list Z) (len len' : Z) :
  wf_map es -> cstr_ok s -> ~ 58 ∈ s -> (MAP_KEY_NAME_SIZE <= length s <= 1000)%nat -> 0 <= len ->
  first_prefix es s 1 = None -> (length es < 31)%nat ->
  wf_name t -> first_prefix es t 1 = None -> 0 <= len' ->
  exists buf', fill_name_in_map (map_of es) s len = Some (Z.of_nat (length es) + 1, buf') /\
    fill_name_in_map buf' t len' = Some (1, map_of [Entry t (print_d len')]).
Proof.
  intros H Hs1 Hs2 Hs3 Hlen Hp Hroom Ht Hpt Hlen'.
  pose proof (wf_print_d len Hlen) as (_ & _ & Hd).
  assert (length (render_entry (Entry s (print_d len))) <= 1120)%nat as Hr.
  { unfold render_entry, MAP_KEY_DATA_SIZE in *. cbn [e_name e_len]. rewrite length_app. cbn [length].
    rewrite length_app. simpl. lia. }
  rewrite fill_name_in_map_gen, Hp by assumption. destruct (Nat.leb_spec 31 (length es)); [lia |].
  eexists. split; [reflexivity |]. unfold fill_name_in_map.
  destruct (map_of_tail es H) as (n & _ & Hn & Hmin).
  assert (exists z, map_of (es ++ [Entry s (print_d len)]) = render es ++ s ++ 58 :: print_d len ++ 0 :: z) as [z E].
  { unfold map_of. rewrite render_app, <- app_assoc. eexists. f_equal. unfold render. cbn [map concat].
    rewrite app_nil_r. apply render_entry_cons. }
  rewrite E at 2 3. rewrite fill_loop_long; try assumption; try apply H; try apply Ht; try lia;
    [| rewrite E, !length_app; unfold MAP_KEY_NAME_SIZE in *; lia].
  pose proof (length_render_entry (Entry t (print_d len')) (conj Ht (wf_print_d len' Hlen'))) as Hrt.
  cbn [Z.leb Z.compare Pos.compare Pos.compare_cont].
  change (t ++ 58 :: print_d len' ++ [0]) with (render_entry (Entry t (print_d len'))).
  rewrite length_replicate. destruct (Nat.leb_spec (length (render_entry (Entry t (print_d len')))) SEC_BLK_SIZE);
    [| unfold SEC_BLK_SIZE in *; lia].
  rewrite Nat.sub_diag. unfold blit, map_of, render. cbn [take map concat app].
  rewrite app_nil_r. now rewrite drop_replicate.
Qed.

Lemma fill_long_name_wipes_witness :
  exists buf', fill_name_in_map (map_of ex_es) (replicate 64 97) 3176 = Some (2, buf') /\
    fill_name_in_map buf' [98] 3176 = Some (1, map_of [Entry [98] (print_d 3176)]).
Proof.
  apply (fill_long_name_wipes ex_es (replicate 64 97) [98] 3176 3176);
    by_compute || lia || reflexivity || (split; [vm_compute; lia | rewrite length_replicate; lia]) || idtac.
Defined.
