(* ===== verification/SstObject.v ===== *)
(** * SstObject: the blocks of the key box

    Models the block checks and the object wrapper of
    [optee-keybox/src/na/libkeybox/secure_storage.c]: [check_secure_storage_key],
    [check_secure_storage_map], [wrap_secure_object] and [unwrap_secure_object].
    A packed [store_object_t] (3176 bytes) or [struct map_info] (4096 bytes) is a
    byte buffer; its fields are read and written at their offsets, little
    endian.  A copy outside a buffer is [None]. *)
From S2P Require Import Prelude CString CrcTheory Crc32 SstMap.

Definition MAX_STORE_LEN : Z := 0xc00.
Definition STORE_OBJECT_MAGIC : Z := 0x17253948.
Definition STORE_REENCRYPT_MAGIC : Z := 0x86734716.
Definition STORE_WRITE_PROTECT_MAGIC : Z := 0x8ad3820f.
Definition SUNXI_SECSTORE_VERSION : Z := 1.

(** Offsets of the fields of [store_object_t] and its size. *)
Definition OBJ_magic : nat := 0.
Definition OBJ_id : nat := 4.
Definition OBJ_name : nat := 8.
Definition OBJ_re_encrypt : nat := 72.
Definition OBJ_version : nat := 76.
Definition OBJ_write_protect : nat := 80.
Definition OBJ_reserved : nat := 84.
Definition OBJ_actual_len : nat := 96.
Definition OBJ_data : nat := 100.
Definition OBJ_crc : nat := Z.to_nat 3172.
Definition sizeof_store_object : nat := Z.to_nat 3176.

(** Offsets of the fields of [struct map_info]. *)
Definition MAP_magic : nat := Z.to_nat 4088.
Definition MAP_crc : nat := Z.to_nat 4092.

(** A 32-bit field of a structure. *)
Definition rd32 (buf : list Z) (off : nat) : Z := le_combine (bytes_at buf off 4).
Definition wr32 (buf : list Z) (off : nat) (x : Z) : list Z := blit buf off (le_split 4 x).

(** [crc32(0, buf, n)] of a word-aligned structure. *)
Definition crc_of (buf : list Z) (n : nat) : Z := crc32 0 0 (take n buf).

Definition check_secure_storage_key (buffer : list Z) : Z :=
  if negb (rd32 buffer OBJ_magic =? STORE_OBJECT_MAGIC) then -1
  else if negb (rd32 buffer OBJ_crc =? crc_of buffer (sizeof_store_object - 4)) then -1
  else 0.

Definition check_secure_storage_map (buffer : list Z) : Z :=
  if negb (rd32 buffer MAP_magic =? STORE_OBJECT_MAGIC) then 2
  else if negb (rd32 buffer MAP_crc =? crc_of buffer (SEC_BLK_SIZE - 4)) then -1
  else 0.

(** [unwrap_secure_object(src, len, payload, &retLen)]: the return value, the
    payload buffer and the value stored in [*retLen], if one is. *)
Definition unwrap_secure_object (src : list Z) (len : Z) (payload : list Z)
  : option (Z * list Z * option Z) :=
  if negb (len =? Z.of_nat sizeof_store_object) then Some (-1, payload, None)
  else if negb (rd32 src OBJ_magic =? STORE_OBJECT_MAGIC) then Some (-1, payload, None)
  else if negb (rd32 src OBJ_crc =? crc_of src (sizeof_store_object - 4)) then Some (-1, payload, None)
  else
    let actual_len := rd32 src OBJ_actual_len in
    if (Z.of_nat OBJ_data + actual_len <=? Z.of_nat (length src)) && (actual_len <=? Z.of_nat (length payload))
    then Some (0, blit payload 0 (bytes_at src OBJ_data (Z.to_nat actual_len)), Some (s32 actual_len))
    else None.

(** [wrap_secure_object(src, name, len, tagt, &retLen)]. *)
Definition wrap_secure_object (src name : list Z) (len : Z) (tagt : list Z)
  : option (Z * list Z * option Z) :=
  if MAX_STORE_LEN <? len then Some (-1, tagt, None)
  else if Z.of_nat (length src) <? len then None
  else
    let tagt := wr32 tagt OBJ_magic STORE_OBJECT_MAGIC in
    let tagt := blit tagt OBJ_name (strncpy name 64) in
    let tagt := wr32 tagt OBJ_re_encrypt 0 in
    let tagt := wr32 tagt OBJ_version SUNXI_SECSTORE_VERSION in
    let tagt := wr32 tagt OBJ_id 0 in
    let tagt := wr32 tagt OBJ_write_protect 0 in
    let tagt := blit tagt OBJ_reserved (replicate 4 0) in
    let tagt := wr32 tagt OBJ_actual_len len in
    let tagt := blit tagt OBJ_data (take (Z.to_nat len) src) in
    let tagt := wr32 tagt OBJ_crc (crc_of tagt (sizeof_store_object - 4)) in
    Some (0, tagt, Some (Z.of_nat sizeof_store_object)).

(** The magic and CRC that [sunxi_secure_storage_exit] puts in the map. *)
Definition seal_map (m : list Z) : list Z :=
  let m := wr32 m MAP_magic STORE_OBJECT_MAGIC in
  wr32 m MAP_crc (crc_of m (SEC_BLK_SIZE - 4)).

(** ** Lemmas *)

Lemma length_wr32 buf off x : (off + 4 <= length buf)%nat -> length (wr32 buf off x) = length buf.
Proof. intros. apply length_blit. rewrite length_le_split. lia. Qed.

Lemma wr32_bytes buf off x : bytes_ok buf -> bytes_ok (wr32 buf off x).
Proof. intros. apply blit_bytes_ok; auto with s2l. Qed.

Lemma rd32_wr32 buf off x : (off <= length buf)%nat -> 0 <= x < 2 ^ 32 -> rd32 (wr32 buf off x) off = x.
Proof.
  intros. unfold rd32, wr32. rewrite bytes_at_blit_same by (rewrite ?length_le_split; lia).
  rewrite le_combine_split. apply Z.mod_small. simpl. lia.
Qed.

Lemma rd32_blit buf off src off' :
  (off' + 4 <= off \/ off + length src <= off')%nat -> (off + length src <= length buf)%nat ->
  rd32 (blit buf off src) off' = rd32 buf off'.
Proof.
  intros [H | H] Hl; unfold rd32; f_equal; [apply bytes_at_blit_before; lia | apply bytes_at_blit_after; lia].
Qed.

Lemma rd32_wr32_ne buf off off' x :
  (off' + 4 <= off \/ off + 4 <= off')%nat -> (off + 4 <= length buf)%nat ->
  rd32 (wr32 buf off x) off' = rd32 buf off'.
Proof. intros. apply rd32_blit; rewrite length_le_split; lia. Qed.

Lemma take_blit buf off src n : (n <= off)%nat -> (off <= length buf)%nat -> take n (blit buf off src) = take n buf.
Proof.
  intros H Hl. unfold blit. rewrite take_app_le by (rewrite length_take; lia).
  rewrite take_take. f_equal. lia.
Qed.

Lemma take_wr32 buf off x n : (n <= off)%nat -> (off <= length buf)%nat -> take n (wr32 buf off x) = take n buf.
Proof. apply take_blit. Qed.

Lemma crc_of_range buf n : bytes_ok buf -> 0 <= crc_of buf n < 2 ^ 32.
Proof. intros. apply crc32_range; [lia | now apply Forall_take]. Qed.

(** The offsets of the structures as plain numbers. *)
Ltac obj_offsets :=
  unfold OBJ_magic, OBJ_id, OBJ_name, OBJ_re_encrypt, OBJ_version, OBJ_write_protect, OBJ_reserved,
    OBJ_actual_len, OBJ_data, OBJ_crc, sizeof_store_object, MAP_magic, MAP_crc, SEC_BLK_SIZE in *.

Lemma crc_of_blit buf off src n : (n <= off)%nat -> (off <= length buf)%nat -> crc_of (blit buf off src) n = crc_of buf n.
Proof. intros. unfold crc_of. now rewrite take_blit. Qed.

Lemma crc_of_wr32 buf off x n : (n <= off)%nat -> (off <= length buf)%nat -> crc_of (wr32 buf off x) n = crc_of buf n.
Proof. apply crc_of_blit. Qed.

(** Side conditions of the field lemmas: the block is 4096 bytes long and the
    fields do not overlap. *)
Ltac field_side :=
  repeat first [rewrite length_wr32 | rewrite length_blit]; rewrite ?length_strncpy, ?length_replicate; lia.
Ltac fields :=
  repeat first
    [ rewrite rd32_wr32 by (try field_side; auto with s2l)
    | rewrite rd32_wr32_ne by field_side
    | rewrite rd32_blit by field_side ].

(** What a successful [wrap_secure_object] leaves in the target. *)
Lemma wrap_secure_object_ok src name len tagt :
  bytes_ok src -> bytes_ok name -> bytes_ok tagt -> length tagt = SEC_BLK_SIZE ->
  0 <= len <= MAX_STORE_LEN -> len <= Z.of_nat (length src) ->
  exists obj, wrap_secure_object src name len tagt = Some (0, obj, Some (Z.of_nat sizeof_store_object)) /\
    length obj = SEC_BLK_SIZE /\ bytes_ok obj /\
    rd32 obj OBJ_magic = STORE_OBJECT_MAGIC /\ rd32 obj OBJ_write_protect = 0 /\
    rd32 obj OBJ_actual_len = len /\
    rd32 obj OBJ_crc = crc_of obj (sizeof_store_object - 4) /\
    bytes_at obj OBJ_data (Z.to_nat len) = take (Z.to_nat len) src.
Proof.
  intros Hs Hn Ht Hlt Hlen Hsrc. unfold wrap_secure_object, MAX_STORE_LEN in *. bool_cases; try lia.
  eexists. split; [reflexivity |]. obj_offsets.
  assert (Z.of_nat (Z.to_nat len) <= 3072) by lia.
  assert (length (take (Z.to_nat len) src) = Z.to_nat len) as Hl by (rewrite length_take; lia).
  assert (Forall byte_ok (take (Z.to_nat len) src)) as Hb by auto with s2l.
  remember (take (Z.to_nat len) src) as data eqn:Ed. clear Ed.
  assert (bytes_ok (strncpy name 64)) by now apply strncpy_bytes.
  assert (bytes_ok (replicate 4 0)) by (apply Forall_replicate; unfold byte_ok; lia).
  split; [field_side |]. split.
  { repeat first [assumption | apply wr32_bytes | apply blit_bytes_ok]. }
  unfold STORE_OBJECT_MAGIC.
  split; [| split; [| split; [| split]]].
  - now fields; try lia.
  - now fields; try lia.
  - now fields; try lia.
  - rewrite crc_of_wr32 by field_side. rewrite rd32_wr32; [reflexivity | field_side |].
    apply crc_of_range. repeat first [assumption | apply wr32_bytes | apply blit_bytes_ok].
  - unfold wr32 at 1. rewrite bytes_at_blit_before by field_side.
    rewrite bytes_at_blit_same by field_side. reflexivity.
Qed.

(** [unwrap_secure_object] accepts a good object whose payload fits. *)
Lemma unwrap_secure_object_ok obj payload :
  rd32 obj OBJ_magic = STORE_OBJECT_MAGIC ->
  rd32 obj OBJ_crc = crc_of obj (sizeof_store_object - 4) ->
  Z.of_nat OBJ_data + rd32 obj OBJ_actual_len <= Z.of_nat (length obj) ->
  rd32 obj OBJ_actual_len <= Z.of_nat (length payload) ->
  unwrap_secure_object obj (Z.of_nat sizeof_store_object) payload =
    Some (0, blit payload 0 (bytes_at obj OBJ_data (Z.to_nat (rd32 obj OBJ_actual_len))),
          Some (s32 (rd32 obj OBJ_actual_len))).
Proof.
  intros Hm Hc H1 H2. unfold unwrap_secure_object.
  rewrite Z.eqb_refl, Hm, Z.eqb_refl. simpl negb. cbv iota.
  rewrite Hc, Z.eqb_refl. simpl negb. cbv iota.
  now rewrite (proj2 (Z.leb_le _ _) H1), (proj2 (Z.leb_le _ _) H2).
Qed.

Lemma check_key_ok obj :
  rd32 obj OBJ_magic = STORE_OBJECT_MAGIC ->
  rd32 obj OBJ_crc = crc_of obj (sizeof_store_object - 4) -> check_secure_storage_key obj = 0.
Proof. intros Hm Hc. unfold check_secure_storage_key. now rewrite Hm, Hc, !Z.eqb_refl. Qed.

Lemma check_key_inv obj :
  check_secure_storage_key obj = 0 ->
  rd32 obj OBJ_magic = STORE_OBJECT_MAGIC /\ rd32 obj OBJ_crc = crc_of obj (sizeof_store_object - 4).
Proof. unfold check_secure_storage_key. bool_cases; simpl; auto; lia. Qed.

Lemma seal_map_ok m :
  bytes_ok m -> length m = SEC_BLK_SIZE ->
  check_secure_storage_map (seal_map m) = 0 /\ length (seal_map m) = SEC_BLK_SIZE /\ bytes_ok (seal_map m) /\
  take MAP_magic (seal_map m) = take MAP_magic m.
Proof.
  intros Hb Hl. unfold check_secure_storage_map, seal_map. set (m1 := wr32 m MAP_magic STORE_OBJECT_MAGIC).
  assert (length m1 = SEC_BLK_SIZE) as Hl1 by (unfold m1; obj_offsets; rewrite length_wr32; lia).
  assert (bytes_ok m1) as Hb1 by now apply wr32_bytes.
  assert (rd32 m1 MAP_magic = STORE_OBJECT_MAGIC) as Hm1.
  { unfold m1. obj_offsets. unfold STORE_OBJECT_MAGIC. apply rd32_wr32; lia. }
  assert (take MAP_magic m1 = take MAP_magic m) as Ht by (unfold m1; apply take_wr32; obj_offsets; lia).
  clearbody m1. rewrite rd32_wr32_ne by (obj_offsets; lia). rewrite Hm1, Z.eqb_refl. cbn [negb].
  rewrite crc_of_wr32, rd32_wr32, Z.eqb_refl by (try (now apply crc_of_range); obj_offsets; lia).
  split; [reflexivity |]. split; [rewrite length_wr32; obj_offsets; lia |].
  split; [now apply wr32_bytes |]. rewrite take_wr32 by (obj_offsets; lia). exact Ht.
Qed.

(** ** Properties *)

(** C33: An object that [wrap_secure_object] accepts passes the block check, and
    [unwrap_secure_object] gives back exactly the payload and its length; a
    payload longer than [MAX_STORE_LEN] is refused and the target untouched. *)
Theorem wrap_unwrap (src name tagt payload : list Z) (len : Z) :
  bytes_ok src -> bytes_ok name -> bytes_ok tagt -> length tagt = SEC_BLK_SIZE ->
  0 <= len -> len <= Z.of_nat (length src) -> len <= Z.of_nat (length payload) ->
  if len <=? MAX_STORE_LEN then
    exists obj, wrap_secure_object src name len tagt = Some (0, obj, Some (Z.of_nat sizeof_store_object)) /\
      check_secure_storage_key obj = 0 /\
      unwrap_secure_object obj (Z.of_nat sizeof_store_object) payload =
        Some (0, blit payload 0 (take (Z.to_nat len) src), Some len)
  else wrap_secure_object src name len tagt = Some (-1, tagt, None).
Proof.
  intros Hs Hn Ht Hl H0 H1 H2. destruct (Z.leb_spec len MAX_STORE_LEN) as [H | H].
  - destruct (wrap_secure_object_ok src name len tagt) as (obj & E & Hlo & Hob & Hm & _ & Ha & Hc & Hd); auto.
    exists obj. split; [exact E | split; [now apply check_key_ok |]].
    unfold MAX_STORE_LEN in *. rewrite unwrap_secure_object_ok by (rewrite ?Ha, ?Hlo; obj_offsets; auto; lia).
    rewrite Ha, Hd, s32_id by lia. reflexivity.
  - unfold wrap_secure_object. now rewrite (proj2 (Z.ltb_lt _ _) H).
Qed.

Lemma wrap_unwrap_witness :
  exists obj, wrap_secure_object [7; 8; 9] [107] 2 (replicate SEC_BLK_SIZE 0)
      = Some (0, obj, Some (Z.of_nat sizeof_store_object)) /\
    check_secure_storage_key obj = 0 /\
    unwrap_secure_object obj (Z.of_nat sizeof_store_object) [0; 0; 0; 0] =
      Some (0, [7; 8; 0; 0], Some 2).
Proof.
  refine (wrap_unwrap [7; 8; 9] [107] (replicate SEC_BLK_SIZE 0) [0; 0; 0; 0] 2 _ _ _ _ _ _ _).
  - solve_bytes.
  - solve_bytes.
  - apply Forall_replicate. unfold byte_ok. lia.
  - apply length_replicate.
  - lia.
  - simpl. lia.
  - simpl. lia.
Defined.

(** A good object in which a window of at most four bytes of its first 3172
    bytes (header and payload) is overwritten by anything else is refused by
    the block check and by [unwrap_secure_object]. *)
Theorem corrupt_object_refused (pre m1 m2 post crcb rest payload : list Z) :
  bytes_ok (pre ++ m1 ++ m2 ++ post ++ crcb ++ rest) ->
  length m1 = length m2 -> (length m1 <= 4)%nat -> m1 <> m2 ->
  length (pre ++ m1 ++ post) = (sizeof_store_object - 4)%nat ->
  check_secure_storage_key (pre ++ m1 ++ post ++ crcb ++ rest) = 0 ->
  length crcb = 4%nat ->
  check_secure_storage_key (pre ++ m2 ++ post ++ crcb ++ rest) = -1 /\
  unwrap_secure_object (pre ++ m2 ++ post ++ crcb ++ rest) (Z.of_nat sizeof_store_object) payload
    = Some (-1, payload, None).
Proof.
  intros Hb Hl H4 Hne Hlen Hck Hl4. apply check_key_inv in Hck as [_ Hc].
  assert (length (pre ++ m2 ++ post) = (sizeof_store_object - 4)%nat) as Hlen2
    by (rewrite <- Hlen, !length_app; lia).
  assert (forall m, length (pre ++ m ++ post) = (sizeof_store_object - 4)%nat ->
    rd32 (pre ++ m ++ post ++ crcb ++ rest) OBJ_crc = le_combine crcb /\
    crc_of (pre ++ m ++ post ++ crcb ++ rest) (sizeof_store_object - 4) = crc32 0 0 (pre ++ m ++ post)) as F.
  { intros m Hm. replace (pre ++ m ++ post ++ crcb ++ rest) with ((pre ++ m ++ post) ++ crcb ++ rest)
      by now rewrite <- !app_assoc. unfold crc_of. rewrite <- Hm, take_app_length.
    split; [| reflexivity]. unfold rd32, bytes_at. rewrite drop_app_length' by now rewrite Hm.
    now rewrite <- Hl4, take_app_length. }
  destruct (F m1 Hlen) as [E1 E2], (F m2 Hlen2) as [E3 E4].
  assert (rd32 (pre ++ m2 ++ post ++ crcb ++ rest) OBJ_crc
    <> crc_of (pre ++ m2 ++ post ++ crcb ++ rest) (sizeof_store_object - 4)) as Hbad.
  { rewrite E3, E4, <- E1, Hc, E2. intros E. apply Hne. apply crc32_burst_inj in E; auto; [lia |].
    rewrite !Forall_app in *. tauto. }
  apply Z.eqb_neq in Hbad. unfold check_secure_storage_key, unwrap_secure_object.
  rewrite Hbad, Z.eqb_refl. simpl negb. cbv iota. split; destruct (_ =? STORE_OBJECT_MAGIC); reflexivity.
Qed.

Lemma drop_cut (l : list Z) off n : drop off l = bytes_at l off n ++ drop (off + n) l.
Proof. unfold bytes_at. now rewrite <- drop_drop, take_drop. Qed.

(** A buffer cut at the payload's first byte and at the CRC. *)
Lemma split_at_data obj b :
  bytes_at obj OBJ_data 1 = [b] ->
  obj = take OBJ_data obj ++ [b] ++ bytes_at obj (S OBJ_data) 3071 ++ bytes_at obj OBJ_crc 4 ++ drop sizeof_store_object obj.
Proof.
  intros <-. rewrite <- (take_drop OBJ_data obj) at 1. f_equal.
  rewrite (drop_cut obj OBJ_data 1). f_equal. replace (OBJ_data + 1)%nat with (S OBJ_data) by lia.
  rewrite (drop_cut obj (S OBJ_data) 3071). f_equal. replace (S OBJ_data + 3071)%nat with OBJ_crc by reflexivity.
  rewrite (drop_cut obj OBJ_crc 4). reflexivity.
Qed.

Lemma corrupt_object_refused_witness :
  exists obj obj', check_secure_storage_key obj = 0 /\ length obj' = SEC_BLK_SIZE /\
    check_secure_storage_key obj' = -1 /\
    unwrap_secure_object obj' (Z.of_nat sizeof_store_object) [0] = Some (-1, [0], None).
Proof.
  destruct (wrap_secure_object_ok [7; 8; 9] [107] 1 (replicate SEC_BLK_SIZE 0))
    as (obj & _ & Hlo & Hob & Hm & _ & _ & Hc & Hd).
  { solve_bytes. } { solve_bytes. } { apply Forall_replicate. unfold byte_ok. lia. }
  { apply length_replicate. } { unfold MAX_STORE_LEN. lia. } { simpl. lia. }
  pose proof (check_key_ok obj Hm Hc) as Hck. change (Z.to_nat 1) with 1%nat in Hd. simpl in Hd.
  pose proof (split_at_data obj 7 Hd) as E.
  exists obj, (take OBJ_data obj ++ [8] ++ bytes_at obj (S OBJ_data) 3071 ++ bytes_at obj OBJ_crc 4 ++ drop sizeof_store_object obj).
  split; [exact Hck |]. split.
  { rewrite <- Hlo. apply (f_equal length) in E. rewrite E, !length_app. simpl. lia. }
  apply (corrupt_object_refused (take OBJ_data obj) [7] [8] (bytes_at obj (S OBJ_data) 3071)
    (bytes_at obj OBJ_crc 4) (drop sizeof_store_object obj) [0]).
  - rewrite !Forall_app. repeat split; auto with s2l; solve_bytes.
  - reflexivity.
  - simpl. lia.
  - discriminate.
  - rewrite !length_app, length_bytes_at, length_take by (obj_offsets; lia). obj_offsets. simpl length. lia.
  - now rewrite <- E.
  - apply length_bytes_at. obj_offsets. lia.
Defined.
