(* ===== verification/SstDevice.v ===== *)
(** * SstDevice: the storage devices under the key box

    Models the block input and output of
    [optee-keybox/src/na/libkeybox/secure_storage.c] ([_nand_read], [_nand_write],
    [_sd_read], [_sd_read_backup], [_sd_write], [sd_read_key], [sd_read_map],
    [nv_read], [nv_write]) and of [secure_storage_ioctl.c], with the selection of
    the flash type from the kernel command line.

    The process is a state machine over [st]: the globals of the library, the
    eMMC card behind [/dev/mmcblk0] as a byte memory, the state of the kernel
    drivers behind the ioctls (a parameter, class [Driver]) and a schedule of
    the outcomes of the next system calls.  A schedule entry makes a call fail
    or a read or write stop short, which also stands for a power loss inside
    that call.  Messages of the [SST_DBG] macros are not modelled; the buffers
    are never NULL, as in every call of the library. *)
From S2P Require Import Prelude CString CrcTheory Crc32 SstMap SstObject.

(** The kernel drivers behind [SECBLK_READ]/[SECBLK_WRITE] on the NAND device
    and [SST_STORAGE_READ]/[SST_STORAGE_WRITE] on [/dev/sst_storage]: from a
    request to a return value, the contents of the buffer and a new state. *)
Class Driver := {
  driver : Type;
  secblk_read : driver -> Z -> list Z -> Z -> Z * list Z * driver;
  secblk_write : driver -> Z -> list Z -> Z -> Z * driver;
  sst_read : driver -> Z -> Z -> list Z -> Z -> Z * list Z * driver;
  sst_write : driver -> Z -> Z -> list Z -> Z -> Z * driver;
}.

(** The outcome of a system call. *)
Inductive outcome := OK | FAIL | SHORT (n : nat).

Record st `{Driver} := St {
  card : Z -> Z;
  card_size : Z;
  faults : list outcome;
  drv : driver;
  cmdline : option (list Z);
  has_nand0 : bool;
  has_mtd2 : bool;
  has_sst : bool;
  junk : list Z;
  sst_use_ioctl : bool;
  flash_boot_type : Z;
  secure_storage_map : list Z;
  secure_storage_inited : bool;
  map_dirty : bool;
  sec_mutex : bool;
}.

(** A computation returns, blocks for ever on the mutex, or has undefined
    behaviour. *)
Inductive res `{Driver} (A : Type) := Ret (a : A) (s : st) | Deadlock | Undef.
Arguments Ret {_ _} _ _.
Arguments Deadlock {_ _}.
Arguments Undef {_ _}.

Definition M `{Driver} (A : Type) : Type := st -> res A.

#[global] Instance M_ret `{Driver} : MRet M := fun A a s => Ret a s.
#[global] Instance M_bind `{Driver} : MBind M := fun A B f m s =>
  match m s with Ret a s' => f a s' | Deadlock => Deadlock | Undef => Undef end.

Definition gets `{Driver} {A} (f : st -> A) : M A := fun s => Ret (f s) s.
Definition undef `{Driver} {A} : M A := fun _ => Undef.
Definition of_option `{Driver} {A} (o : option A) : M A :=
  match o with Some a => mret a | None => undef end.

Section Device.
Context `{Driver}.

Definition with_card (f : Z -> Z) (s : st) : st :=
  St _ f (card_size s) (faults s) (drv s) (cmdline s) (has_nand0 s) (has_mtd2 s) (has_sst s) (junk s)
    (sst_use_ioctl s) (flash_boot_type s) (secure_storage_map s) (secure_storage_inited s) (map_dirty s) (sec_mutex s).
Definition with_faults (l : list outcome) (s : st) : st :=
  St _ (card s) (card_size s) l (drv s) (cmdline s) (has_nand0 s) (has_mtd2 s) (has_sst s) (junk s)
    (sst_use_ioctl s) (flash_boot_type s) (secure_storage_map s) (secure_storage_inited s) (map_dirty s) (sec_mutex s).
Definition with_drv (d : driver) (s : st) : st :=
  St _ (card s) (card_size s) (faults s) d (cmdline s) (has_nand0 s) (has_mtd2 s) (has_sst s) (junk s)
    (sst_use_ioctl s) (flash_boot_type s) (secure_storage_map s) (secure_storage_inited s) (map_dirty s) (sec_mutex s).
Definition with_ioctl (b : bool) (s : st) : st :=
  St _ (card s) (card_size s) (faults s) (drv s) (cmdline s) (has_nand0 s) (has_mtd2 s) (has_sst s) (junk s)
    b (flash_boot_type s) (secure_storage_map s) (secure_storage_inited s) (map_dirty s) (sec_mutex s).
Definition with_flash (t : Z) (s : st) : st :=
  St _ (card s) (card_size s) (faults s) (drv s) (cmdline s) (has_nand0 s) (has_mtd2 s) (has_sst s) (junk s)
    (sst_use_ioctl s) t (secure_storage_map s) (secure_storage_inited s) (map_dirty s) (sec_mutex s).
Definition with_map (m : list Z) (s : st) : st :=
  St _ (card s) (card_size s) (faults s) (drv s) (cmdline s) (has_nand0 s) (has_mtd2 s) (has_sst s) (junk s)
    (sst_use_ioctl s) (flash_boot_type s) m (secure_storage_inited s) (map_dirty s) (sec_mutex s).
Definition with_inited (b : bool) (s : st) : st :=
  St _ (card s) (card_size s) (faults s) (drv s) (cmdline s) (has_nand0 s) (has_mtd2 s) (has_sst s) (junk s)
    (sst_use_ioctl s) (flash_boot_type s) (secure_storage_map s) b (map_dirty s) (sec_mutex s).
Definition with_dirty (b : bool) (s : st) : st :=
  St _ (card s) (card_size s) (faults s) (drv s) (cmdline s) (has_nand0 s) (has_mtd2 s) (has_sst s) (junk s)
    (sst_use_ioctl s) (flash_boot_type s) (secure_storage_map s) (secure_storage_inited s) b (sec_mutex s).
Definition with_mutex (b : bool) (s : st) : st :=
  St _ (card s) (card_size s) (faults s) (drv s) (cmdline s) (has_nand0 s) (has_mtd2 s) (has_sst s) (junk s)
    (sst_use_ioctl s) (flash_boot_type s) (secure_storage_map s) (secure_storage_inited s) (map_dirty s) b.
Definition modify (f : st -> st) : M unit := fun s => Ret tt (f s).

(** ** System calls *)

(** The outcome of the next system call; the schedule is good for ever once
    it is used up. *)
Definition next_outcome : M outcome := fun s =>
  match faults s with
  | [] => Ret OK s
  | o :: l => Ret o (with_faults l s)
  end.

(** [malloc] and [open] of an existing file: whether they succeed. *)
Definition try_call : M bool := o ← next_outcome; mret (match o with OK => true | _ => false end).

(** [lseek(fd, offset, SEEK_SET)] on a file opened at a 32-bit [int] offset. *)
Definition lseek (offset : Z) : M Z :=
  ok ← try_call; mret (if ok && (0 <=? offset) then offset else -1).

Definition card_bytes (f : Z -> Z) (off : Z) (n : nat) : list Z := map (fun i => f (off + Z.of_nat i)) (seq 0 n).

Definition card_update (f : Z -> Z) (off : Z) (l : list Z) : Z -> Z := fun a =>
  if (off <=? a) && (a <? off + Z.of_nat (length l)) then nth (Z.to_nat (a - off)) l 0 else f a.

(** The bytes a transfer of [len] bytes at [pos] moves: up to the end of the
    card, and up to the point where the call stops. *)
Definition transfer (o : outcome) (size pos len : Z) : option Z :=
  match o with
  | OK => Some (Z.max 0 (Z.min len (size - pos)))
  | FAIL => None
  | SHORT n => Some (Z.min (Z.of_nat n) (Z.max 0 (Z.min len (size - pos))))
  end.

(** [read(fd, buf, len)] at position [pos]: the return value and the bytes. *)
Definition sys_read (pos len : Z) : M (Z * list Z) :=
  o ← next_outcome; f ← gets card; size ← gets card_size;
  mret (match transfer o size pos len with
        | Some n => (n, card_bytes f pos (Z.to_nat n))
        | None => (-1, [])
        end).

(** [write(fd, buf, len)] at position [pos]. *)
Definition sys_write (pos : Z) (buf : list Z) (len : Z) : M Z :=
  o ← next_outcome; size ← gets card_size;
  match transfer o size pos len with
  | Some n => modify (fun s => with_card (card_update (card s) pos (take (Z.to_nat n) buf)) s);; mret n
  | None => mret (-1)
  end.

Definition sys_secblk_read (item : Z) (buf : list Z) (len : Z) : M (Z * list Z) :=
  ok ← try_call;
  if (ok : bool) then (d ← gets drv; let '(r, b, d') := secblk_read d item buf len in modify (with_drv d');; mret (r, b))
  else mret (-1, buf).

Definition sys_secblk_write (item : Z) (buf : list Z) (len : Z) : M Z :=
  ok ← try_call;
  if (ok : bool) then (d ← gets drv; let '(r, d') := secblk_write d item buf len in modify (with_drv d');; mret r)
  else mret (-1).

Definition sys_sst_read (id offset : Z) (buf : list Z) (len : Z) : M (Z * list Z) :=
  ok ← try_call;
  if (ok : bool) then (d ← gets drv; let '(r, b, d') := sst_read d id offset buf len in modify (with_drv d');; mret (r, b))
  else mret (-1, buf).

Definition sys_sst_write (id offset : Z) (buf : list Z) (len : Z) : M Z :=
  ok ← try_call;
  if (ok : bool) then (d ← gets drv; let '(r, d') := sst_write d id offset buf len in modify (with_drv d');; mret r)
  else mret (-1).

(** ** Raw NAND access *)

Definition nand_dev : M bool := a ← gets has_nand0; b ← gets has_mtd2; mret (a || b).

Definition _nand_read (id : Z) (buf : list Z) (len : Z) : M (Z * list Z) :=
  if MAX_SECURE_STORAGE_MAX_ITEM <? id then mret (-1, buf)
  else
    dev ← nand_dev;
    if negb dev then mret (-1, buf)
    else
      fd ← try_call;
      if negb fd then mret (-1, buf)
      else
        secblk_op ← try_call;
        if negb secblk_op then mret (-1, buf)
        else
          '(ret, buf) ← sys_secblk_read id buf len;
          if ret <? 0 then mret (-1, buf) else mret (0, buf).

Definition _nand_write (id : Z) (buf : list Z) (len : Z) : M Z :=
  if MAX_SECURE_STORAGE_MAX_ITEM <? id then mret (-1)
  else
    dev ← nand_dev;
    if negb dev then mret (-1)
    else
      fd ← try_call;
      if negb fd then mret (-1)
      else
        secblk_op ← try_call;
        if negb secblk_op then mret (-1)
        else
          ret ← sys_secblk_write id buf len;
          if ret <? 0 then mret (-1) else mret 0.

(** ** Raw eMMC access *)

Definition SDMMC_SECTOR_SIZE : Z := 512.
Definition SDMMC_SECURE_STORAGE_START_ADD : Z := 6 * 1024 * 1024 `div` 512.
Definition SDMMC_ITEM_SIZE : Z := 4 * 1024 `div` 512.

Definition raw_offset (id : Z) : Z :=
  (SDMMC_SECURE_STORAGE_START_ADD + SDMMC_ITEM_SIZE * 2 * id) * SDMMC_SECTOR_SIZE.
Definition backup_offset (id : Z) : Z :=
  (SDMMC_SECURE_STORAGE_START_ADD + SDMMC_ITEM_SIZE * 2 * id + SDMMC_ITEM_SIZE) * SDMMC_SECTOR_SIZE.

(** A computed [int] offset: signed overflow is undefined. *)
Definition int_offset (off : Z) : M Z := if s32 off =? off then mret off else undef.

(** The aligned bounce buffer holds [SEC_BLK_SIZE] bytes and at least 32 more. *)
Definition fits_align (len : Z) : bool := (0 <=? len) && (len <=? Z.of_nat SEC_BLK_SIZE + 32).

(** The body shared by the source's [_sd_read] and [_sd_read_backup], which
    differ in the offset only. *)
Definition sd_read_at (off id : Z) (buf : list Z) (len : Z) : M (Z * list Z) :=
  if MAX_SECURE_STORAGE_MAX_ITEM <? id then mret (-1, buf)
  else
    sd_align_buffer ← try_call;
    if negb sd_align_buffer then mret (-1, buf)
    else
      fd ← try_call;
      if negb fd then mret (-1, buf)
      else
        offset ← int_offset off;
        ret ← lseek offset;
        if ret <? 0 then mret (-1, buf)
        else if negb (fits_align len) then undef
        else
          '(ret, align) ← sys_read offset len;
          if negb (ret =? len) then mret (-1, buf)
          else if len <=? Z.of_nat (length buf) then mret (0, blit buf 0 align)
          else undef.

Definition _sd_read (id : Z) (buf : list Z) (len : Z) : M (Z * list Z) := sd_read_at (raw_offset id) id buf len.
Definition _sd_read_backup (id : Z) (buf : list Z) (len : Z) : M (Z * list Z) := sd_read_at (backup_offset id) id buf len.

Definition _sd_write (id : Z) (buf : list Z) (len : Z) : M Z :=
  if MAX_SECURE_STORAGE_MAX_ITEM <? id then mret (-1)
  else
    sd_align_buffer ← try_call;
    if negb sd_align_buffer then mret (-1)
    else if negb (fits_align len && (len <=? Z.of_nat (length buf))) then undef
    else
      let align := take (Z.to_nat len) buf in
      offset ← int_offset (raw_offset id);
      fd ← try_call;
      if negb fd then mret (-1)
      else
        ret ← lseek offset;
        if ret <? 0 then mret (-1)
        else
          ret ← sys_write offset align len;
          if negb (ret =? len) then mret (-1)
          else
            offset ← int_offset (backup_offset id);
            ret ← lseek offset;
            if ret <? 0 then mret (-1)
            else
              ret ← sys_write offset align len;
              if negb (ret =? len) then mret (-1) else mret 0.

(** ** Access through [/dev/sst_storage] (secure_storage_ioctl.c) *)

Definition open_sst : M bool := b ← gets has_sst; ok ← try_call; mret (b && ok).

Definition _nand_read_ioctl (id : Z) (buf : list Z) (len : Z) : M (Z * list Z) :=
  if MAX_SECURE_STORAGE_MAX_ITEM <? id then mret (-1, buf)
  else
    fd ← open_sst;
    if negb fd then mret (-1, buf)
    else
      secblk_op ← try_call;
      if negb secblk_op then mret (-1, buf)
      else
        '(ret, buf) ← sys_sst_read id 0 buf len;
        if ret <? 0 then mret (-1, buf) else mret (0, buf).

Definition _nand_write_ioctl (id : Z) (buf : list Z) (len : Z) : M Z :=
  if MAX_SECURE_STORAGE_MAX_ITEM <? id then mret (-1)
  else
    fd ← open_sst;
    if negb fd then mret (-1)
    else
      secblk_op ← try_call;
      if negb secblk_op then mret (-1)
      else
        ret ← sys_sst_write id 0 buf len;
        if ret <? 0 then mret (-1) else mret 0.

Definition _sd_read_ioctl (id : Z) (buf : list Z) (len : Z) : M (Z * list Z) :=
  if MAX_SECURE_STORAGE_MAX_ITEM <? id then mret (-1, buf)
  else
    fd ← open_sst;
    if negb fd then mret (-1, buf)
    else
      secblk_op ← try_call;
      if negb secblk_op then mret (-1, buf)
      else
        offset ← int_offset (raw_offset id);
        '(ret, buf) ← sys_sst_read id (u32 offset) buf len;
        if ret <? 0 then mret (-1, buf) else mret (0, buf).

Definition _sd_read_backup_ioctl (id : Z) (buf : list Z) (len : Z) : M (Z * list Z) :=
  if MAX_SECURE_STORAGE_MAX_ITEM <? id then mret (-1, buf)
  else
    fd ← open_sst;
    if negb fd then mret (-1, buf)
    else
      secblk_op ← try_call;
      if negb secblk_op then mret (-1, buf)
      else
        offset ← int_offset (backup_offset id);
        '(ret, buf) ← sys_sst_read id (u32 offset) buf len;
        if ret <? 0 then mret (-1, buf) else mret (0, buf).

Definition _sd_write_ioctl (id : Z) (buf : list Z) (len : Z) : M Z :=
  if MAX_SECURE_STORAGE_MAX_ITEM <? id then mret (-1)
  else
    fd ← open_sst;
    if negb fd then mret (-1)
    else
      secblk_op ← try_call;
      if negb secblk_op then mret (-1)
      else
        offset ← int_offset (raw_offset id);
        ret ← sys_sst_write id (u32 offset) buf len;
        if ret <? 0 then mret (-1)
        else
          offset ← int_offset (backup_offset id);
          ret ← sys_sst_write id (u32 offset) buf len;
          if ret <? 0 then mret (-1) else mret 0.

(** ** Redundant items *)

(** [memset(buf, 0x0, len)]. *)
Definition memset0 (buf : list Z) (len : Z) : list Z := blit buf 0 (replicate (Z.to_nat len) 0).

Definition sd_read_key (id : Z) (buf : list Z) (len : Z) : M (Z * list Z) :=
  io ← gets sst_use_ioctl;
  '(ret, buf) ← (if io : bool then _sd_read_ioctl id buf len else _sd_read id buf len);
  if (ret =? 0) && (check_secure_storage_key buf =? 0) then mret (0, buf)
  else
    let buf := memset0 buf len in
    '(ret, buf) ← (if io : bool then _sd_read_backup_ioctl id buf len else _sd_read_backup id buf len);
    if (ret =? 0) && (check_secure_storage_key buf =? 0) then mret (0, buf)
    else mret (-1, buf).

(** The second half of [sd_read_map]: copy 1, and copy 0 when neither copy
    carries the map's magic. *)
Definition sd_read_map_backup (io : bool) (map_copy0_buf : list Z) (have_map_copy0 : bool)
    (id : Z) (buf : list Z) (len : Z) : M (Z * list Z) :=
  let buf := memset0 buf len in
  '(ret, buf) ← (if io : bool then _sd_read_backup_ioctl id buf len else _sd_read_backup id buf len);
  if ret =? 0 then
    let ret := check_secure_storage_map buf in
    if ret =? 0 then mret (0, buf)
    else if ret =? 2 then
      if have_map_copy0 && bool_decide (map_copy0_buf = take (Z.to_nat len) buf) then mret (0, buf)
      else mret (1, blit (memset0 buf len) 0 map_copy0_buf)
    else mret (1, buf)
  else mret (-1, buf).

(** The contents of a fresh [malloc(len)] are the first bytes of [junk]. *)
Definition sd_read_map (id : Z) (buf : list Z) (len : Z) : M (Z * list Z) :=
  map_copy0_buf ← try_call;
  if negb map_copy0_buf then mret (-1, buf)
  else
    io ← gets sst_use_ioctl;
    '(ret, buf) ← (if io : bool then _sd_read_ioctl id buf len else _sd_read id buf len);
    if ret =? 0 then
      let ret := check_secure_storage_map buf in
      if ret =? 0 then mret (0, buf)
      else if ret =? 2 then sd_read_map_backup io (take (Z.to_nat len) buf) true id buf len
      else j ← gets junk; sd_read_map_backup io (take (Z.to_nat len) j) false id buf len
    else j ← gets junk; sd_read_map_backup io (take (Z.to_nat len) j) false id buf len.

Definition FLASH_TYPE_NAND : Z := 0.
Definition FLASH_TYPE_SD1 : Z := 1.
Definition FLASH_TYPE_SD2 : Z := 2.
Definition FLASH_TYPE_NOR : Z := 3.
Definition FLASH_TYPE_EMMC3 : Z := 4.
Definition FLASH_TYPE_SPI_NAND : Z := 5.
Definition FLASH_TYPE_UNKNOW : Z := -1.

Definition nv_read (id : Z) (buf : list Z) (len : Z) : M (Z * list Z) :=
  flash ← gets flash_boot_type;
  if flash =? FLASH_TYPE_NAND then
    io ← gets sst_use_ioctl;
    if (io : bool) then _nand_read_ioctl id buf len else _nand_read id buf len
  else if (flash =? FLASH_TYPE_SD1) || (flash =? FLASH_TYPE_SD2) then
    if id =? 0 then sd_read_map 0 buf len else sd_read_key id buf len
  else mret (-1, buf).

Definition nv_write (id : Z) (buf : list Z) (len : Z) : M Z :=
  flash ← gets flash_boot_type;
  io ← gets sst_use_ioctl;
  if flash =? FLASH_TYPE_NAND then
    if (io : bool) then _nand_write_ioctl id buf len else _nand_write id buf len
  else if (flash =? FLASH_TYPE_SD1) || (flash =? FLASH_TYPE_SD2) then
    if (io : bool) then _sd_write_ioctl id buf len else _sd_write id buf len
  else mret (-1).

Definition sunxi_secstorage_read (item : Z) (buf : list Z) (len : Z) : M (Z * list Z) := nv_read item buf len.
Definition sunxi_secstorage_write (item : Z) (buf : list Z) (len : Z) : M Z := nv_write item buf len.

(** ** The flash type, from the kernel command line *)

(** [fgets(cmdline, 1024, fp)]: at most 1023 bytes, up to a newline. *)
Fixpoint fgets (n : nat) (l : list Z) : list Z :=
  match n, l with
  | S n, c :: l => if c =? 10 then [10] else c :: fgets n l
  | _, _ => []
  end.

Fixpoint skip_delim (delim : Z) (l : list Z) : list Z :=
  match l with
  | c :: l' => if c =? delim then skip_delim delim l' else l
  | [] => []
  end.

(** The bytes up to the first [delim] and what follows it, if there is one. *)
Fixpoint break_at (delim : Z) (l : list Z) : list Z * option (list Z) :=
  match l with
  | [] => ([], None)
  | c :: l' => if c =? delim then ([], Some l') else let '(t, r) := break_at delim l' in (c :: t, r)
  end.

(** [strtok(str, " ")]: the token and the text after the delimiter it
    overwrites; none when only delimiters are left. *)
Definition strtok (l : list Z) : option (list Z * option (list Z)) :=
  match skip_delim 32 l with
  | [] => None
  | l => Some (break_at 32 l)
  end.

(** [spliteKeyAndValue] on a token: the key, and the string the value pointer
    designates.  Without a "=" in the token that is the text after the token's
    terminator, and nothing defined after the last token. *)
Definition spliteKeyAndValue (str : list Z) (rest : option (list Z)) : list Z * option (list Z) :=
  match break_at 61 str with
  | (key, Some value) => (key, Some value)
  | (key, None) => (key, rest)
  end.

Fixpoint find_key (fuel : nat) (key l : list Z) : option (option (list Z)) :=
  match fuel with
  | O => None
  | S fuel =>
      match strtok l with
      | None => None
      | Some (tok, rest) =>
          let '(lkey, lvalue) := spliteKeyAndValue tok rest in
          if bool_decide (lkey = key) then Some lvalue
          else find_key fuel key (default [] rest)
      end
  end.

(** [getInfoFromCmdline]: the bytes stored in [value], if the key is found. *)
Definition getInfoFromCmdline (key : list Z) (val_len : nat) : M (option (list Z)) :=
  ok ← try_call; c ← gets cmdline;
  match c with
  | Some text =>
      if negb ok then mret None
      else
        let line := fgets 1023 text in
        if bool_decide (skip_delim 32 line = []) then undef
        else
          match find_key (S (length line)) key line with
          | Some (Some lvalue) => mret (Some (strncpy lvalue val_len))
          | Some None => undef
          | None => mret None
          end
  | None => mret None
  end.

(** ASCII of the keys and of the device name prefixes. *)
Definition str_boot_type : list Z := [98; 111; 111; 116; 95; 116; 121; 112; 101].
Definition str_root : list Z := [114; 111; 111; 116].
Definition str_dev_nand : list Z := [47; 100; 101; 118; 47; 110; 97; 110; 100].
Definition str_dev_ubi : list Z := [47; 100; 101; 118; 47; 117; 98; 105].
Definition str_dev_mtdblock : list Z := [47; 100; 101; 118; 47; 109; 116; 100; 98; 108; 111; 99; 107].
Definition str_dev_mmcblk : list Z := [47; 100; 101; 118; 47; 109; 109; 99; 98; 108; 107].

(** [!strncmp(ctype, prefix, sizeof(prefix) - 1)]. *)
Definition has_prefix (prefix l : list Z) : bool := bool_decide (take (length prefix) l = prefix).

(** The type [boot_type=] gives; [ctype] ends in zero bytes. *)
Definition boot_type_of (ctype : list Z) : Z :=
  let v := s32 (atol (default [] (cstring (ctype ++ replicate 6 0)))) in
  let v := if (v =? 0) && negb (nth 0 ctype 0 =? 48) then FLASH_TYPE_UNKNOW else v in
  if v =? FLASH_TYPE_SPI_NAND then FLASH_TYPE_NAND else v.

(** The type [root=] gives. *)
Definition root_type_of (ctype : list Z) : Z :=
  if has_prefix str_dev_nand ctype then FLASH_TYPE_NAND
  else if has_prefix str_dev_ubi ctype then FLASH_TYPE_NAND
  else if has_prefix str_dev_mtdblock ctype then FLASH_TYPE_NOR
  else if has_prefix str_dev_mmcblk ctype then FLASH_TYPE_EMMC3
  else FLASH_TYPE_UNKNOW.

Definition get_flash_type : M Z :=
  modify (with_flash FLASH_TYPE_UNKNOW);;
  b ← getInfoFromCmdline str_boot_type 10;
  match b with
  | Some ctype => modify (with_flash (boot_type_of ctype));; mret (boot_type_of ctype)
  | None =>
      r ← getInfoFromCmdline str_root 20;
      match r with
      | Some ctype => modify (with_flash (root_type_of ctype));; mret (root_type_of ctype)
      | None => mret FLASH_TYPE_UNKNOW
      end
  end.

Definition __is_use_sst_ctl : M unit :=
  b ← gets has_sst;
  if (b : bool) then modify (with_ioctl true) else modify (with_ioctl false).

(** ** The card as items

    An item has two copies on the card, [SEC_BLK_SIZE] bytes each. *)
Definition copy0 (s : st) (id : Z) : list Z := card_bytes (card s) (raw_offset id) SEC_BLK_SIZE.
Definition copy1 (s : st) (id : Z) : list Z := card_bytes (card s) (backup_offset id) SEC_BLK_SIZE.

(** An item number, and a card that holds all the items. *)
Definition item_ok (id : Z) : Prop := 0 <= id <= MAX_SECURE_STORAGE_MAX_ITEM.
Definition card_fits (s : st) : Prop := backup_offset MAX_SECURE_STORAGE_MAX_ITEM + 4096 <= card_size s.

Lemma length_card_bytes f off n : length (card_bytes f off n) = n.
Proof. unfold card_bytes. rewrite length_map. apply length_seq. Qed.

Lemma lookup_card_bytes f off n i : (i < n)%nat -> card_bytes f off n !! i = Some (f (off + Z.of_nat i)).
Proof.
  intros Hi. unfold card_bytes. rewrite list_lookup_fmap, lookup_seq_lt by assumption. reflexivity.
Qed.

Lemma card_bytes_ext f g off n :
  (forall a, off <= a < off + Z.of_nat n -> f a = g a) -> card_bytes f off n = card_bytes g off n.
Proof.
  intros E. apply map_ext_in. intros i Hi%in_seq. apply E. lia.
Qed.

Lemma card_bytes_update_disjoint f off l off' n :
  off' + Z.of_nat n <= off \/ off + Z.of_nat (length l) <= off' ->
  card_bytes (card_update f off l) off' n = card_bytes f off' n.
Proof.
  intros Hd. apply card_bytes_ext. intros a Ha. unfold card_update.
  destruct (Z.leb_spec off a), (Z.ltb_spec a (off + Z.of_nat (length l))); simpl; auto. lia.
Qed.

(** A write of the first [k] bytes of a block leaves the rest of it. *)
Lemma card_bytes_update_prefix f off l k n :
  n = length l -> card_bytes (card_update f off (take k l)) off n = take k l ++ drop k (card_bytes f off n).
Proof.
  intros ->. apply list_eq_same_length with (n := length l).
  - rewrite length_app, length_take, length_drop, length_card_bytes. lia.
  - apply length_card_bytes.
  - intros i x y Hi. rewrite lookup_card_bytes by assumption. intros [= <-]. unfold card_update. rewrite length_take.
    destruct (Z.leb_spec off (off + Z.of_nat i)) as [_ |]; [| lia]. simpl andb.
    destruct (Z.ltb_spec (off + Z.of_nat i) (off + Z.of_nat (Nat.min k (length l)))).
    + rewrite lookup_app_l by (rewrite length_take; lia). intros Hx.
      replace (Z.to_nat (off + Z.of_nat i - off)) with i by lia. symmetry.
      apply nth_lookup_Some with (d := 0) in Hx. congruence.
    + rewrite lookup_app_r by (rewrite length_take; lia).
      rewrite lookup_drop, length_take, lookup_card_bytes by lia. intros [= <-]. f_equal. lia.
Qed.

Lemma card_bytes_update_same f off l n : n = length l -> card_bytes (card_update f off l) off n = l.
Proof.
  intros ->. pose proof (card_bytes_update_prefix f off l (length l) _ eq_refl) as E.
  rewrite take_ge in E by lia. rewrite E, drop_ge by (rewrite length_card_bytes; lia). apply app_nil_r.
Qed.

Lemma next_outcome_eq s : next_outcome s = Ret (hd OK (faults s)) (with_faults (tl (faults s)) s).
Proof. destruct s as [? ? [| o l] ? ? ? ? ? ? ? ? ? ? ? ?]; reflexivity. Qed.

Lemma offsets_eq id :
  raw_offset id = 6291456 + 8192 * id /\ backup_offset id = 6295552 + 8192 * id.
Proof.
  unfold backup_offset, raw_offset, SDMMC_SECURE_STORAGE_START_ADD, SDMMC_ITEM_SIZE, SDMMC_SECTOR_SIZE.
  change (6 * 1024 * 1024 `div` 512) with 12288. change (4 * 1024 `div` 512) with 8. lia.
Qed.

(** ** Running the computations *)

Lemma bind_Ret {A B} (m : M A) (k : A -> M B) s a s' : m s = Ret a s' -> (m ≫= k) s = k a s'.
Proof. intros E. unfold mbind, M_bind. now rewrite E. Qed.

Definition is_ok (o : outcome) : bool := match o with OK => true | _ => false end.

Lemma try_call_eq s : try_call s = Ret (is_ok (hd OK (faults s))) (with_faults (tl (faults s)) s).
Proof. unfold try_call. rewrite (bind_Ret _ _ _ _ _ (next_outcome_eq s)). reflexivity. Qed.

Lemma with_faults_same s : with_faults (faults s) s = s.
Proof. now destruct s. Qed.

(** The item's area at [off] lies on the card and below 2 GB. *)
Definition area_ok (off : Z) (s : st) : Prop := 0 <= off /\ off + 4096 <= card_size s /\ off + 4096 < 2 ^ 31.

Lemma int_offset_ok off s : 0 <= off < 2 ^ 31 -> int_offset off s = Ret off s.
Proof. intros. unfold int_offset. rewrite s32_id by lia. now rewrite Z.eqb_refl. Qed.

Lemma lseek_eq off s :
  0 <= off -> lseek off s = Ret (if is_ok (hd OK (faults s)) then off else -1) (with_faults (tl (faults s)) s).
Proof.
  intros Ho. unfold lseek. rewrite (bind_Ret _ _ _ _ _ (try_call_eq s)).
  rewrite (proj2 (Z.leb_le 0 off) Ho). now destruct (is_ok _).
Qed.

(** The bytes a block transfer moves under an outcome. *)
Definition moved (o : outcome) : option nat :=
  match o with OK => Some SEC_BLK_SIZE | FAIL => None | SHORT n => Some (Nat.min n SEC_BLK_SIZE) end.

Lemma transfer_block o off s :
  area_ok off s -> transfer o (card_size s) off (Z.of_nat SEC_BLK_SIZE) = Z.of_nat <$> moved o.
Proof.
  intros (H0 & H1 & _). unfold transfer, moved. change (Z.of_nat SEC_BLK_SIZE) with 4096.
  destruct o; simpl; [f_equal | reflexivity | f_equal]; unfold SEC_BLK_SIZE; lia.
Qed.

Lemma sys_read_eq off s :
  area_ok off s ->
  sys_read off (Z.of_nat SEC_BLK_SIZE) s = Ret
    (match moved (hd OK (faults s)) with
     | Some n => (Z.of_nat n, card_bytes (card s) off n)
     | None => (-1, [])
     end) (with_faults (tl (faults s)) s).
Proof.
  intros Ha. unfold sys_read. rewrite (bind_Ret _ _ _ _ _ (next_outcome_eq s)).
  unfold gets, mbind, M_bind, mret, M_ret. cbn [card card_size with_faults].
  rewrite (transfer_block _ _ _ Ha). destruct (moved _); simpl; [now rewrite Nat2Z.id | reflexivity].
Qed.

Lemma sys_write_eq off buf s :
  area_ok off s ->
  sys_write off buf (Z.of_nat SEC_BLK_SIZE) s =
    match moved (hd OK (faults s)) with
    | Some n => Ret (Z.of_nat n) (with_card (card_update (card s) off (take n buf)) (with_faults (tl (faults s)) s))
    | None => Ret (-1) (with_faults (tl (faults s)) s)
    end.
Proof.
  intros Ha. unfold sys_write. rewrite (bind_Ret _ _ _ _ _ (next_outcome_eq s)).
  unfold gets, mbind, M_bind, mret, M_ret, modify. cbn [card card_size with_faults].
  rewrite (transfer_block _ _ _ Ha). destruct (moved _); simpl; [now rewrite Nat2Z.id | reflexivity].
Qed.

Lemma blit_all (buf src : list Z) : length src = length buf -> blit buf 0 src = src.
Proof. intros E. unfold blit. rewrite E. simpl. rewrite drop_all. apply app_nil_r. Qed.

Lemma read_block_ok off s :
  area_ok off s ->
  exists r l, sys_read off (Z.of_nat SEC_BLK_SIZE) s = Ret r (with_faults l s) /\
    (r = (Z.of_nat SEC_BLK_SIZE, card_bytes (card s) off SEC_BLK_SIZE) \/ fst r <> Z.of_nat SEC_BLK_SIZE) /\
    (faults s = [] -> r = (Z.of_nat SEC_BLK_SIZE, card_bytes (card s) off SEC_BLK_SIZE) /\ l = []).
Proof.
  intros Ha. rewrite sys_read_eq by assumption. do 2 eexists. split; [reflexivity |]. split.
  - destruct (moved _) as [n |]; [| right; simpl; lia].
    destruct (decide (n = SEC_BLK_SIZE)) as [-> |]; [now left | right; simpl; lia].
  - now intros ->.
Qed.

Lemma area_int off s : area_ok off s -> 0 <= off < 2 ^ 31.
Proof. intros (? & ? & ?). lia. Qed.

(** Runs the next call, splits on its outcome, and closes a branch in which
    an injected failure makes the function return -1. *)
Local Ltac mstep lem := erewrite (bind_Ret _ _ _ _ _ lem); cbn [faults with_faults].
Local Ltac branch :=
  match goal with |- context [is_ok (hd OK ?l)] => destruct (is_ok (hd OK l)) eqn:?; cbn [negb] end.
Local Ltac failed := do 2 eexists; split; [reflexivity |]; split;
  [now right | let E := fresh in intros E; rewrite E in *; simpl in *; discriminate].

(** A raw read gives the block, or -1 and the buffer as it was; only the
    schedule moves. *)
Lemma sd_read_at_cases off id buf s :
  item_ok id -> area_ok off s -> length buf = SEC_BLK_SIZE ->
  exists r l, sd_read_at off id buf (Z.of_nat SEC_BLK_SIZE) s = Ret r (with_faults l s) /\
    (r = (0, card_bytes (card s) off SEC_BLK_SIZE) \/ r = (-1, buf)) /\
    (faults s = [] -> r = (0, card_bytes (card s) off SEC_BLK_SIZE) /\ l = []).
Proof.
  intros [_ Hi] Ha Hb. unfold sd_read_at. rewrite (proj2 (Z.ltb_ge _ _) Hi).
  mstep (try_call_eq s). branch; [| failed].
  mstep (try_call_eq (with_faults (tl (faults s)) s)). branch; [| failed].
  erewrite (bind_Ret _ _ _ _ _ (int_offset_ok off _ (area_int _ _ Ha))).
  erewrite (bind_Ret _ _ _ _ _ (lseek_eq off _ (proj1 Ha))). cbn [faults with_faults]. branch; [| failed].
  rewrite (proj2 (Z.ltb_ge off 0) (proj1 Ha)). change (fits_align (Z.of_nat SEC_BLK_SIZE)) with true. cbn [negb].
  set (s2 := with_faults _ (with_faults _ _)).
  destruct (read_block_ok off s2 Ha) as (r & l & E & [-> | Hr] & Hf).
  - mstep E. rewrite Z.eqb_refl, Hb, Z.leb_refl. cbn [negb]. rewrite blit_all by now rewrite length_card_bytes.
    do 2 eexists. split; [reflexivity |]. split; [now left |]. intros E'. split; [reflexivity |]. apply Hf. cbn. now rewrite E'.
  - mstep E. destruct r as [n b]. simpl in Hr. rewrite (proj2 (Z.eqb_neq _ _) Hr). cbn [negb].
    do 2 eexists. split; [reflexivity |]. split; [now right |]. intros E'.
    destruct Hf as [[= ->] _]; [cbn; now rewrite E' | now destruct Hr].
Qed.

Lemma areas_ok id s :
  item_ok id -> card_fits s -> area_ok (raw_offset id) s /\ area_ok (backup_offset id) s.
Proof.
  unfold item_ok, card_fits, area_ok, MAX_SECURE_STORAGE_MAX_ITEM. intros Hi.
  destruct (offsets_eq id) as [-> ->], (offsets_eq 32) as [_ ->]. lia.
Qed.

#[local] Opaque check_secure_storage_key check_secure_storage_map card_bytes SEC_BLK_SIZE.

(** [sd_read_key] never returns a block that fails its check, whatever fails
    on the way; without failures it returns copy 0 if that is good and copy 1
    otherwise. *)
Lemma sd_read_key_cases id buf s :
  sst_use_ioctl s = false -> item_ok id -> card_fits s -> length buf = SEC_BLK_SIZE ->
  exists r b l, sd_read_key id buf (Z.of_nat SEC_BLK_SIZE) s = Ret (r, b) (with_faults l s) /\
    (r = 0 /\ check_secure_storage_key b = 0 /\ (b = copy0 s id \/ b = copy1 s id) \/ r = -1) /\
    (faults s = [] -> l = [] /\
      if check_secure_storage_key (copy0 s id) =? 0 then r = 0 /\ b = copy0 s id
      else if check_secure_storage_key (copy1 s id) =? 0 then r = 0 /\ b = copy1 s id
      else r = -1).
Proof.
  intros Hio Hi Hc Hb. destruct (areas_ok id s Hi Hc) as [H0 H1].
  unfold sd_read_key, _sd_read, _sd_read_backup.
  assert (gets sst_use_ioctl s = Ret false s) as E0 by (unfold gets; now rewrite Hio).
  mstep E0.
  destruct (sd_read_at_cases (raw_offset id) id buf s Hi H0 Hb) as (r0 & l0 & E & Hr0 & Hf0).
  mstep E.
  assert (exists b1, (let '(ret, b) := r0 in (ret =? 0) && (check_secure_storage_key b =? 0)) = true /\
      r0 = (0, copy0 s id) /\ check_secure_storage_key (copy0 s id) = 0 /\ b1 = copy0 s id \/
      (let '(ret, b) := r0 in (ret =? 0) && (check_secure_storage_key b =? 0)) = false /\
      b1 = memset0 (snd r0) (Z.of_nat SEC_BLK_SIZE) /\ length b1 = SEC_BLK_SIZE /\
      (faults s = [] -> (check_secure_storage_key (copy0 s id) =? 0) = false)) as (b1 & Hcase).
  { assert (length (snd r0) = SEC_BLK_SIZE) as Hl.
    { destruct Hr0 as [-> | ->]; [apply length_card_bytes | exact Hb]. }
    assert (length (memset0 (snd r0) (Z.of_nat SEC_BLK_SIZE)) = SEC_BLK_SIZE) as Hl'.
    { unfold memset0. rewrite blit_all; rewrite length_replicate, Nat2Z.id; auto. }
    destruct Hr0 as [-> | ->].
    - fold (copy0 s id). destruct (Z.eqb_spec (check_secure_storage_key (copy0 s id)) 0) as [Ek | Ek].
      + exists (copy0 s id). left. cbn. auto.
      + exists (memset0 (copy0 s id) (Z.of_nat SEC_BLK_SIZE)). right. cbn. auto.
    - exists (memset0 buf (Z.of_nat SEC_BLK_SIZE)). right. cbn. repeat split; auto.
      intros Hf. destruct (Hf0 Hf) as [[=] _]. }
  destruct r0 as [ret0 b0]. destruct Hcase as [(-> & [= -> ->] & Hk & ->) | (-> & -> & Hl1 & Hbad)].
  - do 3 eexists. split; [reflexivity |]. split; [left; auto |].
    intros Hf. destruct (Hf0 Hf) as [_ ->]. split; [reflexivity |]. now rewrite Hk.
  - set (s0 := with_faults l0 s).
    destruct (sd_read_at_cases (backup_offset id) id _ s0 Hi H1 Hl1) as (r1 & l1 & E1 & Hr1 & Hf1).
    cbn [snd] in E1. mstep E1. fold (copy1 s id) in Hr1. destruct r1 as [ret1 b2].
    change (card_bytes (card s0) (backup_offset id) SEC_BLK_SIZE) with (copy1 s id) in *.
    destruct ((ret1 =? 0) && (check_secure_storage_key b2 =? 0)) eqn:Ek.
    + apply andb_true_iff in Ek as [->%Z.eqb_eq Ek%Z.eqb_eq].
      exists 0, b2, l1. split; [reflexivity |]. destruct Hr1 as [[= ->] | [=]]. split; [left; auto |].
      intros Hf. destruct (Hf0 Hf) as [_ ->], (Hf1 eq_refl) as [_ ->].
      rewrite (Hbad Hf), Ek. cbn. auto.
    + exists (-1), b2, l1. split; [reflexivity |]. split; [now right |].
      intros Hf. destruct (Hf0 Hf) as [_ ->], (Hf1 eq_refl) as [[= -> ->] ->].
      rewrite (Hbad Hf). cbn in Ek. rewrite Ek. auto.
Qed.

Lemma sd_read_clean id buf s :
  faults s = [] -> item_ok id -> card_fits s -> length buf = SEC_BLK_SIZE ->
  _sd_read id buf (Z.of_nat SEC_BLK_SIZE) s = Ret (0, copy0 s id) s /\
  _sd_read_backup id buf (Z.of_nat SEC_BLK_SIZE) s = Ret (0, copy1 s id) s.
Proof.
  intros Hf Hi Hc Hb. destruct (areas_ok id s Hi Hc) as [H0 H1].
  unfold _sd_read, _sd_read_backup.
  destruct (sd_read_at_cases _ id buf s Hi H0 Hb) as (r0 & l0 & -> & _ & Hf0).
  destruct (sd_read_at_cases _ id buf s Hi H1 Hb) as (r1 & l1 & -> & _ & Hf1).
  destruct (Hf0 Hf) as [-> ->], (Hf1 Hf) as [-> ->].
  rewrite <- Hf, with_faults_same. auto.
Qed.

Lemma length_memset0 buf : length buf = SEC_BLK_SIZE -> length (memset0 buf (Z.of_nat SEC_BLK_SIZE)) = SEC_BLK_SIZE.
Proof. intros E. unfold memset0. rewrite blit_all; rewrite length_replicate, Nat2Z.id; auto. Qed.

(** What [sd_read_map] does with the two copies of the map: their checks
    decide; copy 0 (or the fresh memory [j]) is used when copy 1 has no magic. *)
Definition map_choice (c0 c1 j : list Z) : Z * list Z :=
  if check_secure_storage_map c0 =? 0 then (0, c0)
  else if check_secure_storage_map c1 =? 0 then (0, c1)
  else if check_secure_storage_map c1 =? 2 then
    if check_secure_storage_map c0 =? 2 then
      if bool_decide (c0 = c1) then (0, c1) else (1, c0)
    else (1, j)
  else (1, c1).

Lemma sd_read_map_backup_clean m have id buf s :
  faults s = [] -> item_ok id -> card_fits s -> length buf = SEC_BLK_SIZE -> length m = SEC_BLK_SIZE ->
  sd_read_map_backup false m have id buf (Z.of_nat SEC_BLK_SIZE) s = Ret
    (let c1 := copy1 s id in
     if check_secure_storage_map c1 =? 0 then (0, c1)
     else if check_secure_storage_map c1 =? 2 then
       if have && bool_decide (m = c1) then (0, c1) else (1, m)
     else (1, c1)) s.
Proof.
  intros Hf Hi Hc Hb Hm. unfold sd_read_map_backup.
  assert (length (copy1 s id) = SEC_BLK_SIZE) as Hl by apply length_card_bytes.
  erewrite (bind_Ret _ _ _ _ _ (proj2 (sd_read_clean id _ s Hf Hi Hc (length_memset0 _ Hb)))).
  cbv beta iota zeta. rewrite Z.eqb_refl, Nat2Z.id, firstn_all2 by lia.
  rewrite (blit_all _ m) by (rewrite length_memset0; lia).
  destruct (check_secure_storage_map (copy1 s id) =? 0); [reflexivity |].
  destruct (check_secure_storage_map (copy1 s id) =? 2); [| reflexivity].
  now destruct (have && _).
Qed.

Lemma sd_read_map_clean buf s :
  sst_use_ioctl s = false -> faults s = [] -> card_fits s ->
  length buf = SEC_BLK_SIZE -> (SEC_BLK_SIZE <= length (junk s))%nat ->
  sd_read_map 0 buf (Z.of_nat SEC_BLK_SIZE) s = Ret (map_choice (copy0 s 0) (copy1 s 0) (take SEC_BLK_SIZE (junk s))) s.
Proof.
  intros Hio Hf Hc Hb Hj. unfold sd_read_map. assert (item_ok 0) as Hi by (unfold item_ok, MAX_SECURE_STORAGE_MAX_ITEM; lia).
  assert (try_call s = Ret true s) as E by (rewrite try_call_eq, Hf; cbn; rewrite <- Hf; f_equal; apply with_faults_same).
  mstep E. cbn [negb]. assert (gets sst_use_ioctl s = Ret false s) as E0 by (unfold gets; now rewrite Hio).
  mstep E0. erewrite (bind_Ret _ _ _ _ _ (proj1 (sd_read_clean 0 _ s Hf Hi Hc Hb))).
  cbv beta iota zeta. rewrite Z.eqb_refl. unfold map_choice.
  assert (length (copy0 s 0) = SEC_BLK_SIZE) as Hl by apply length_card_bytes.
  assert (length (take SEC_BLK_SIZE (junk s)) = SEC_BLK_SIZE) as Hlj by (rewrite length_take; lia).
  destruct (check_secure_storage_map (copy0 s 0) =? 0); [reflexivity |].
  destruct (check_secure_storage_map (copy0 s 0) =? 2).
  - rewrite Nat2Z.id, firstn_all2 by lia. now rewrite sd_read_map_backup_clean.
  - assert (gets junk s = Ret (junk s) s) as E1 by reflexivity. mstep E1.
    rewrite Nat2Z.id. now rewrite sd_read_map_backup_clean.
Qed.

(** The effect of a raw write, torn or not: a prefix of the block reaches copy
    0, and a prefix reaches copy 1 once copy 0 is complete. *)
Record written (s s' : st) (id : Z) (blk : list Z) (r : Z) : Prop := Written {
  w_rest : s' = with_card (card s') (with_faults (faults s') s);
  w_torn : exists n m, (n <= SEC_BLK_SIZE)%nat /\ (m <= SEC_BLK_SIZE)%nat /\
    copy0 s' id = take n blk ++ drop n (copy0 s id) /\ copy1 s' id = take m blk ++ drop m (copy1 s id) /\
    (m = 0%nat \/ n = SEC_BLK_SIZE) /\
    (r = 0 /\ m = SEC_BLK_SIZE \/ r = -1);
  w_frame : forall a, ~ raw_offset id <= a < raw_offset id + 8192 -> card s' a = card s a;
  w_clean : faults s = [] -> r = 0 /\ faults s' = [];
}.

Lemma written_nothing l s id blk : faults s <> [] -> written s (with_faults l s) id blk (-1).
Proof.
  intros Hf. split; [reflexivity | | auto | intros E; now destruct Hf].
  exists 0%nat, 0%nat. repeat split; try lia; auto.
Qed.

(** A write of a prefix of the block into copy 0, then of one into copy 1. *)
Lemma copies_update f id s blk n m l :
  length blk = SEC_BLK_SIZE -> (n <= SEC_BLK_SIZE)%nat -> (m <= SEC_BLK_SIZE)%nat ->
  f = card_update (card_update (card s) (raw_offset id) (take n blk)) (backup_offset id) (take m blk) ->
  let s' := with_card f (with_faults l s) in
  copy0 s' id = take n blk ++ drop n (copy0 s id) /\ copy1 s' id = take m blk ++ drop m (copy1 s id) /\
  (forall a, ~ raw_offset id <= a < raw_offset id + 8192 -> f a = card s a).
Proof.
  intros Hb Hn Hm -> s'. destruct (offsets_eq id) as [E0 E1]. unfold s', copy0, copy1. cbn [card with_card].
  assert (Z.of_nat SEC_BLK_SIZE = 4096) as Esz by reflexivity.
  split; [| split].
  - rewrite card_bytes_update_disjoint by lia. now apply card_bytes_update_prefix.
  - rewrite card_bytes_update_prefix by auto. do 2 f_equal.
    apply card_bytes_update_disjoint. rewrite length_take. lia.
  - intros a Ha. unfold card_update. rewrite !length_take.
    bool_cases; simpl; auto; lia.
Qed.

Lemma card_update_nil f off a : card_update f off [] a = f a.
Proof. unfold card_update. simpl length. bool_cases; simpl; auto; lia. Qed.

Lemma written_first l s id blk n :
  length blk = SEC_BLK_SIZE -> (n <= SEC_BLK_SIZE)%nat -> faults s <> [] ->
  written s (with_card (card_update (card s) (raw_offset id) (take n blk)) (with_faults l s)) id blk (-1).
Proof.
  intros Hb Hn Hf. destruct (copies_update _ id s blk n 0 l Hb Hn ltac:(lia) eq_refl) as (H0 & H1 & H2).
  split; [reflexivity | | | intros E; now destruct Hf].
  - exists n, 0%nat. split; [exact Hn |]. split; [lia |]. split; [| split; [| auto]].
    + rewrite <- H0. apply card_bytes_ext. intros a _. symmetry. apply card_update_nil.
    + rewrite <- H1. apply card_bytes_ext. intros a _. symmetry. apply card_update_nil.
  - intros a Ha. rewrite <- (H2 a Ha). symmetry. apply card_update_nil.
Qed.

Lemma written_both l s id blk m r :
  length blk = SEC_BLK_SIZE -> (m <= SEC_BLK_SIZE)%nat -> (r = 0 /\ m = SEC_BLK_SIZE \/ r = -1) ->
  (faults s = [] -> r = 0 /\ l = []) ->
  written s (with_card (card_update (card_update (card s) (raw_offset id) blk) (backup_offset id) (take m blk)) (with_faults l s)) id blk r.
Proof.
  intros Hb Hm Hr Hf. destruct (copies_update _ id s blk SEC_BLK_SIZE m l Hb ltac:(lia) Hm eq_refl) as (H0 & H1 & H2).
  assert (take SEC_BLK_SIZE blk = blk) as Hall by (apply firstn_all2; lia).
  rewrite Hall in H0, H1, H2.
  split; [reflexivity | | exact H2 | exact Hf].
  exists SEC_BLK_SIZE, m. rewrite Hall. auto 10.
Qed.

Lemma moved_le o n : moved o = Some n -> (n <= SEC_BLK_SIZE)%nat.
Proof. destruct o; simpl; intros [= <-]; lia. Qed.

(** Pushes the schedule inwards, and closes a branch in which the write stops. *)
Local Ltac collapse := repeat first
    [ match goal with |- context [with_faults ?a (with_faults ?b ?t)] =>
        change (with_faults a (with_faults b t)) with (with_faults a t) end
    | match goal with |- context [with_faults ?a (with_card ?c ?t)] =>
        change (with_faults a (with_card c t)) with (with_card c (with_faults a t)) end
    | match goal with |- context [with_card ?a (with_card ?b ?t)] =>
        change (with_card a (with_card b t)) with (with_card a t) end ].
Local Ltac wfailed := collapse; do 2 eexists; split; [reflexivity | first [apply written_nothing | apply written_first; [assumption | lia |]];
    let E := fresh in intros E; rewrite E in *; simpl in *; discriminate].

Lemma _sd_write_written id blk s :
  item_ok id -> card_fits s -> length blk = SEC_BLK_SIZE ->
  exists r s', _sd_write id blk (Z.of_nat SEC_BLK_SIZE) s = Ret r s' /\ written s s' id blk r.
Proof.
  intros Hi Hc Hb. destruct (areas_ok id s Hi Hc) as [H0 H1].
  unfold _sd_write. rewrite (proj2 (Z.ltb_ge _ _) (proj2 Hi)).
  mstep (try_call_eq s). branch; [| wfailed].
  rewrite Hb, Z.leb_refl. change (fits_align (Z.of_nat SEC_BLK_SIZE)) with true. cbn [negb andb].
  rewrite Nat2Z.id. rewrite (firstn_all2 (n:=SEC_BLK_SIZE) blk) by lia. cbv zeta.
  erewrite (bind_Ret _ _ _ _ _ (int_offset_ok _ _ (area_int _ _ H0))).
  mstep (try_call_eq (with_faults (tl (faults s)) s)). branch; [| wfailed].
  erewrite (bind_Ret _ _ _ _ _ (lseek_eq _ _ (proj1 H0))). cbn [faults with_faults]. branch; [| wfailed].
  rewrite (proj2 (Z.ltb_ge (raw_offset id) 0) (proj1 H0)).
  collapse. set (l3 := tl (tl (tl (faults s)))). set (s3 := with_faults l3 _).
  assert (faults s = [] -> l3 = []) as Hl3 by (unfold l3; now intros ->). clearbody l3.
  unfold mbind at 1, M_bind at 1. rewrite (sys_write_eq _ blk s3 H0). subst s3. cbn [faults card with_faults]. collapse.
  destruct (moved (hd OK l3)) as [n |] eqn:Hmv; cycle 1.
  { collapse. do 2 eexists. split; [reflexivity |]. apply written_nothing. intros E. rewrite (Hl3 E) in Hmv. discriminate. }
  pose proof (moved_le _ _ Hmv) as Hn. cbv beta iota.
  destruct (Z.eqb_spec (Z.of_nat n) (Z.of_nat SEC_BLK_SIZE)) as [En | En]; cbn [negb]; cycle 1.
  { collapse. do 2 eexists. split; [reflexivity |]. apply (written_first (tl l3)); auto.
    intros E. rewrite (Hl3 E) in Hmv. injection Hmv as <-. now destruct En. }
  apply Nat2Z.inj in En as ->. clear Hn Hmv.
  erewrite (bind_Ret _ _ _ _ _ (int_offset_ok _ _ (area_int _ _ H1))).
  erewrite (bind_Ret _ _ _ _ _ (lseek_eq _ _ (proj1 H1))). cbn [faults with_faults with_card].
  destruct (is_ok (hd OK (tl l3))) eqn:Hk; cycle 1.
  { collapse. do 2 eexists. split; [reflexivity |]. apply (written_first (tl (tl l3))); auto.
    intros E. rewrite (Hl3 E) in Hk. discriminate. }
  rewrite (proj2 (Z.ltb_ge (backup_offset id) 0) (proj1 H1)).
  collapse. set (s4 := with_card _ _). unfold mbind, M_bind. rewrite (sys_write_eq _ blk s4 H1).
  subst s4. cbn [faults card with_faults with_card]. collapse.
  destruct (moved (hd OK (tl (tl l3)))) as [m |] eqn:Hmv; cycle 1.
  { collapse. do 2 eexists. split; [reflexivity |]. apply (written_first (tl (tl (tl l3)))); auto.
    intros E. rewrite (Hl3 E) in Hmv. discriminate. }
  pose proof (moved_le _ _ Hmv) as Hm. cbv beta iota.
  destruct (Z.eqb_spec (Z.of_nat m) (Z.of_nat SEC_BLK_SIZE)) as [Em | Em]; cbn [negb]; do 2 eexists; (split; [reflexivity |]);
     rewrite (firstn_all2 (n:=SEC_BLK_SIZE) blk) by lia;
    apply (written_both (tl (tl (tl l3)))); auto.
  - left. split; [reflexivity | lia].
  - intros E. now rewrite (Hl3 E).
  - intros E. rewrite (Hl3 E) in Hmv. injection Hmv as <-. now destruct Em.
Qed.

Lemma copies_frame (s s' : st) id id' :
  (forall a, ~ raw_offset id <= a < raw_offset id + 8192 -> card s' a = card s a) -> id' <> id ->
  copy0 s' id' = copy0 s id' /\ copy1 s' id' = copy1 s id'.
Proof.
  intros Hf Hne. assert (Z.of_nat SEC_BLK_SIZE = 4096) as Esz by reflexivity.
  destruct (offsets_eq id) as [E0 _], (offsets_eq id') as [E0' E1'].
  split; apply card_bytes_ext; intros a Ha; apply Hf; lia.
Qed.

Lemma sd_flash_nv flash : flash = FLASH_TYPE_SD1 \/ flash = FLASH_TYPE_SD2 ->
  (flash =? FLASH_TYPE_NAND) = false /\ ((flash =? FLASH_TYPE_SD1) || (flash =? FLASH_TYPE_SD2)) = true.
Proof. intros [-> | ->]; split; reflexivity. Qed.

(** [nv_read] and [nv_write] on an eMMC card accessed directly. *)
Lemma nv_sd s id buf len :
  flash_boot_type s = FLASH_TYPE_SD1 \/ flash_boot_type s = FLASH_TYPE_SD2 -> sst_use_ioctl s = false ->
  nv_read id buf len s = (if id =? 0 then sd_read_map 0 buf len s else sd_read_key id buf len s) /\
  nv_write id buf len s = _sd_write id buf len s.
Proof.
  intros Hfl Hio. destruct (sd_flash_nv _ Hfl) as [E0 E1].
  unfold nv_read, nv_write, gets, mbind, M_bind. rewrite E0, E1, Hio. split; [now destruct (id =? 0) | reflexivity].
Qed.

End Device.

(** ** What the library needs of a store

    [nv_holds s store] says that the device holds block [store id] for every
    item; [nv_selected s] that the globals select this device.  The laws are
    what [secure_storage.c] relies on. *)
Definition lib_part `{Driver} (s : st) :=
  (secure_storage_map s, secure_storage_inited s, map_dirty s, sec_mutex s, junk s).
Definition dev_part `{Driver} (s : st) :=
  (card s, card_size s, faults s, drv s, cmdline s, (has_nand0 s, has_mtd2 s, has_sst s, junk s),
   (sst_use_ioctl s, flash_boot_type s)).

Definition upd (store : Z -> list Z) (id : Z) (blk : list Z) : Z -> list Z :=
  fun i => if i =? id then blk else store i.

Class NvStore `{Driver} := {
  nv_holds : st -> (Z -> list Z) -> Prop;
  nv_selected : st -> Prop;
  nv_ext s s' store : dev_part s = dev_part s' ->
    (nv_holds s store -> nv_holds s' store) /\ (nv_selected s -> nv_selected s');
  nv_quiet s store : nv_holds s store -> faults s = [] /\ (SEC_BLK_SIZE <= length (junk s))%nat;
  nv_select s store : nv_holds s store -> exists t s',
    get_flash_type s = Ret t s' /\ exists s'', __is_use_sst_ctl s' = Ret tt s'' /\
    nv_holds s'' store /\ nv_selected s'' /\ lib_part s'' = lib_part s;
  nv_read_map_law s store buf : nv_holds s store -> nv_selected s -> length buf = SEC_BLK_SIZE ->
    exists ret, sunxi_secstorage_read 0 buf (Z.of_nat SEC_BLK_SIZE) s = Ret (ret, store 0) s /\ (ret = 0 \/ ret = 1);
  nv_read_item_law s store buf id : nv_holds s store -> nv_selected s -> length buf = SEC_BLK_SIZE ->
    0 < id <= MAX_SECURE_STORAGE_MAX_ITEM -> check_secure_storage_key (store id) = 0 ->
    sunxi_secstorage_read id buf (Z.of_nat SEC_BLK_SIZE) s = Ret (0, store id) s;
  nv_write_law s store blk id : nv_holds s store -> nv_selected s -> length blk = SEC_BLK_SIZE ->
    item_ok id -> exists s', sunxi_secstorage_write id blk (Z.of_nat SEC_BLK_SIZE) s = Ret 0 s' /\
    nv_holds s' (upd store id blk) /\ nv_selected s' /\ lib_part s' = lib_part s;
}.

(** ** The eMMC card implements the interface *)
Section SdStore.
Context `{Driver}.

(** The command line names an SD boot device. *)
Definition sd_cmdline (c : option (list Z)) : Prop :=
  match c with
  | Some text =>
      let line := fgets 1023 text in
      skip_delim 32 line <> [] /\
      match find_key (S (length line)) str_boot_type line with
      | Some (Some v) => boot_type_of (strncpy v 10) = FLASH_TYPE_SD1 \/ boot_type_of (strncpy v 10) = FLASH_TYPE_SD2
      | _ => False
      end
  | None => False
  end.

Record sd_holds (s : st) (store : Z -> list Z) : Prop := {
  sd_quiet : faults s = [];
  sd_fits : card_fits s;
  sd_cmd : sd_cmdline (cmdline s);
  sd_raw : has_sst s = false;
  sd_junk : (SEC_BLK_SIZE <= length (junk s))%nat;
  sd_copies : forall id, item_ok id -> copy0 s id = store id /\ copy1 s id = store id;
}.

Definition sd_selected (s : st) : Prop :=
  (flash_boot_type s = FLASH_TYPE_SD1 \/ flash_boot_type s = FLASH_TYPE_SD2) /\ sst_use_ioctl s = false.

Lemma try_call_quiet s : faults s = [] -> try_call s = Ret true s.
Proof. intros Hf. rewrite try_call_eq, Hf. cbn. rewrite <- Hf. f_equal. apply with_faults_same. Qed.

Lemma get_flash_type_sd s :
  faults s = [] -> sd_cmdline (cmdline s) ->
  exists t, get_flash_type s = Ret t (with_flash t s) /\ (t = FLASH_TYPE_SD1 \/ t = FLASH_TYPE_SD2).
Proof.
  intros Hf Hc. set (s1 := with_flash FLASH_TYPE_UNKNOW s).
  unfold sd_cmdline in Hc. destruct (cmdline s) as [text |] eqn:Ec; [| contradiction].
  destruct Hc as [Hne Hk]. destruct (find_key _ _ _) as [[v |] |] eqn:Ek; try contradiction.
  assert (getInfoFromCmdline str_boot_type 10 s1 = Ret (Some (strncpy v 10)) s1) as E.
  { unfold getInfoFromCmdline. rewrite (bind_Ret _ _ _ _ _ (try_call_quiet s1 Hf)).
    assert (gets cmdline s1 = Ret (Some text) s1) as E by (unfold gets; now rewrite <- Ec).
    rewrite (bind_Ret _ _ _ _ _ E). cbn [negb]. rewrite bool_decide_eq_false_2 by assumption.
    now rewrite Ek. }
  exists (boot_type_of (strncpy v 10)). split; [| exact Hk]. unfold get_flash_type.
  assert (modify (with_flash FLASH_TYPE_UNKNOW) s = Ret tt s1) as E1 by reflexivity.
  rewrite (bind_Ret _ _ _ _ _ E1), (bind_Ret _ _ _ _ _ E). reflexivity.
Qed.

Lemma sd_holds_write s store id blk s' :
  sd_holds s store -> item_ok id -> length blk = SEC_BLK_SIZE -> written s s' id blk 0 ->
  sd_holds s' (upd store id blk).
Proof.
  intros [Hq Hfi Hcmd Hraw Hj Hcp] Hi Hb [Hr Ht Hfr Hcl].
  destruct Ht as (n & m & Hn & Hm & E0 & E1 & Hnm & Hok). destruct (Hcl Hq) as [_ Hq'].
  split.
  - exact Hq'.
  - rewrite Hr. exact Hfi.
  - rewrite Hr. exact Hcmd.
  - rewrite Hr. exact Hraw.
  - rewrite Hr. exact Hj.
  - assert (m = SEC_BLK_SIZE /\ n = SEC_BLK_SIZE) as [-> ->].
    { destruct Hok as [[_ ->] | [=]]. split; [reflexivity |]. destruct Hnm as [Hz |]; [discriminate Hz | assumption]. }
    intros id' Hi'. unfold upd. destruct (Z.eqb_spec id' id) as [-> | Hne].
    + rewrite E0, E1. unfold copy0, copy1.
      rewrite firstn_all2, !drop_ge by (rewrite ?length_card_bytes; lia). rewrite app_nil_r. split; reflexivity.
    + destruct (copies_frame s s' id id' Hfr Hne) as [-> ->]. now apply Hcp.
Qed.

Lemma map_choice_same c j : exists ret, map_choice c c j = (ret, c) /\ (ret = 0 \/ ret = 1).
Proof.
  unfold map_choice. destruct (_ =? 0); [eauto |].
  destruct (_ =? 2); [rewrite bool_decide_eq_true_2 by reflexivity |]; eauto.
Qed.

#[export] Program Instance sd_store : NvStore := {|
  nv_holds := sd_holds;
  nv_selected := sd_selected;
|}.
Next Obligation.
  intros s s' store E. unfold dev_part in E. injection E. intros.
  split.
  - intros [Hq Hf Hc Hr Hj Hcp]. split; unfold card_fits, copy0, copy1 in *; try congruence.
    intros id Hi. destruct (Hcp id Hi). split; congruence.
  - unfold sd_selected. intros [? ?]. split; congruence.
Qed.
Next Obligation. intros s store []; auto. Qed.
Next Obligation.
  intros s store [Hq Hf Hc Hr Hj Hcp].
  destruct (get_flash_type_sd s Hq Hc) as (t & E & Ht). exists t, (with_flash t s). split; [exact E |].
  exists (with_ioctl false (with_flash t s)). split.
  - unfold __is_use_sst_ctl, gets, mbind, M_bind. cbn [has_sst with_flash]. now rewrite Hr.
  - split; [now split | split; [now split | reflexivity]].
Qed.
Next Obligation.
  intros s store buf [Hq Hf Hc Hr Hj Hcp] [Hfl Hio] Hb.
  unfold sunxi_secstorage_read. rewrite (proj1 (nv_sd s 0 buf _ Hfl Hio)). simpl Z.eqb. cbv iota.
  rewrite sd_read_map_clean by assumption.
  destruct (Hcp 0) as [-> ->]; [unfold item_ok, MAX_SECURE_STORAGE_MAX_ITEM; lia |].
  destruct (map_choice_same (store 0) (take SEC_BLK_SIZE (junk s))) as (ret & -> & Hret). eauto.
Qed.
Next Obligation.
  intros s store buf id [Hq Hf Hc Hr Hj Hcp] [Hfl Hio] Hb Hi Hck.
  unfold sunxi_secstorage_read. rewrite (proj1 (nv_sd s id buf _ Hfl Hio)), (proj2 (Z.eqb_neq id 0)) by lia.
  assert (item_ok id) as Hi' by (unfold item_ok; lia).
  destruct (sd_read_key_cases id buf s Hio Hi' Hf Hb) as (r & b & l & -> & _ & Hcl).
  destruct (Hcp id Hi') as [E0 _]. rewrite E0, Hck in Hcl. destruct (Hcl Hq) as (-> & -> & ->).
  rewrite <- Hq, with_faults_same. reflexivity.
Qed.
Next Obligation.
  intros s store blk id Hh [Hfl Hio] Hb Hi. pose proof Hh as [Hq Hf Hc Hr Hj Hcp].
  unfold sunxi_secstorage_write. rewrite (proj2 (nv_sd s id blk _ Hfl Hio)).
  destruct (_sd_write_written id blk s Hi Hf Hb) as (r & s' & E & Hw).
  destruct (w_clean _ _ _ _ _ Hw Hq) as [-> _]. exists s'. split; [exact E |].
  split; [eapply sd_holds_write; eauto |]. rewrite (w_rest _ _ _ _ _ Hw). split; [now split | reflexivity].
Qed.

End SdStore.

(** ** Properties *)
Section Properties.
Context `{Driver}.

(** A torn replacement of an item whose copies agree. *)
Lemma written_torn s s' id new old r :
  written s s' id new r -> length new = SEC_BLK_SIZE -> copy0 s id = old -> copy1 s id = old ->
  exists n, copy0 s' id = take n new ++ drop n old /\
    (copy1 s' id = old \/ copy0 s' id = new) /\ (r = 0 -> copy0 s' id = new).
Proof.
  intros Hw Hn H0 H1. destruct (w_torn _ _ _ _ _ Hw) as (n & m & _ & _ & E0 & E1 & Hnm & Hok).
  assert (length old = SEC_BLK_SIZE) as Hlo by (rewrite <- H0; apply length_card_bytes).
  assert (take SEC_BLK_SIZE new ++ drop SEC_BLK_SIZE old = new) as Hall
    by (rewrite firstn_all2, drop_ge by lia; apply app_nil_r).
  rewrite H0 in E0. rewrite H1 in E1. exists n. split; [exact E0 |]. split.
  - destruct Hnm as [-> | ->]; [left | right; now rewrite E0, Hall]. now rewrite E1, take_0, drop_0.
  - intros ->. destruct Hok as [[_ ->] | [=]]. destruct Hnm as [Hz | ->]; [discriminate Hz |]. now rewrite E0, Hall.
Qed.

(** Whatever system calls fail, [sd_read_key] returns 0 only with a copy of
    the item that passes its check; when no call fails, one good copy is
    enough, and copy 0 is preferred. *)
Theorem sd_read_key_redundant (id : Z) (buf : list Z) (s : st) :
  sst_use_ioctl s = false -> item_ok id -> card_fits s -> length buf = SEC_BLK_SIZE ->
  exists r b l, sd_read_key id buf (Z.of_nat SEC_BLK_SIZE) s = Ret (r, b) (with_faults l s) /\
    (r = 0 /\ check_secure_storage_key b = 0 /\ (b = copy0 s id \/ b = copy1 s id) \/ r = -1) /\
    (faults s = [] ->
      if check_secure_storage_key (copy0 s id) =? 0 then r = 0 /\ b = copy0 s id
      else if check_secure_storage_key (copy1 s id) =? 0 then r = 0 /\ b = copy1 s id
      else r = -1).
Proof.
  intros Hio Hi Hc Hb. destruct (sd_read_key_cases id buf s Hio Hi Hc Hb) as (r & b & l & E & H1 & H2).
  exists r, b, l. split; [exact E | split; [exact H1 |]]. intros Hf. now apply H2.
Qed.



End Properties.

(** ** Witnesses

    A driver that refuses everything, and states on an 8 MB card with
    "boot_type=2" on the command line. *)
Definition null_driver : Driver := {|
  driver := unit;
  secblk_read := fun d _ b _ => (-1, b, d);
  secblk_write := fun d _ _ _ => (-1, d);
  sst_read := fun d _ _ b _ => (-1, b, d);
  sst_write := fun d _ _ _ _ => (-1, d);
|}.

Definition ex_cmdline : list Z := [98; 111; 111; 116; 95; 116; 121; 112; 101; 61; 50; 10].

Definition ex_st (f : Z -> Z) (l : list outcome) : @st null_driver :=
  @St null_driver f (8 * 1024 * 1024) l tt (Some ex_cmdline) false false false (replicate SEC_BLK_SIZE 0)
    false FLASH_TYPE_SD2 (replicate SEC_BLK_SIZE 0) false false false.

(** A card whose item [id] has two copies of [blk]. *)
Definition ex_card (id : Z) (blk : list Z) : Z -> Z :=
  card_update (card_update (fun _ => 0) (raw_offset id) blk) (backup_offset id) blk.

Lemma ex_card_copies id blk l :
  length blk = SEC_BLK_SIZE -> copy0 (ex_st (ex_card id blk) l) id = blk /\ copy1 (ex_st (ex_card id blk) l) id = blk.
Proof.
  intros Hb. destruct (offsets_eq id) as [E0 E1]. assert (Z.of_nat SEC_BLK_SIZE = 4096) as Esz by reflexivity.
  unfold copy0, copy1, ex_st, ex_card; cbn [card]. split.
  - rewrite card_bytes_update_disjoint by lia. now apply card_bytes_update_same.
  - now apply card_bytes_update_same.
Qed.

Lemma ex_fits f l : card_fits (ex_st f l).
Proof. unfold card_fits. rewrite (proj2 (offsets_eq _)). unfold ex_st, MAX_SECURE_STORAGE_MAX_ITEM. cbn [card_size]. lia. Qed.

Lemma ex_object (len : Z) : 0 <= len <= 3 -> exists obj, length obj = SEC_BLK_SIZE /\ check_secure_storage_key obj = 0.
Proof.
  intros Hl. destruct (wrap_secure_object_ok [7; 8; 9] [107] len (replicate SEC_BLK_SIZE 0))
    as (obj & _ & Hlo & _ & Hm & _ & _ & Hc & _).
  { solve_bytes. } { solve_bytes. } { apply Forall_replicate. unfold byte_ok. lia. }
  { apply length_replicate. } { unfold MAX_STORE_LEN. lia. } { simpl. lia. }
  exists obj. split; [exact Hlo | now apply check_key_ok].
Qed.

Lemma ex_map (b : Z) : byte_ok b -> exists m, length m = SEC_BLK_SIZE /\ check_secure_storage_map m = 0.
Proof.
  intros Hb. destruct (seal_map_ok (replicate SEC_BLK_SIZE b)) as (Hc & Hl & _).
  { now apply Forall_replicate. } { apply length_replicate. }
  exists (seal_map (replicate SEC_BLK_SIZE b)). auto.
Qed.

Lemma sd_read_key_redundant_witness :
  exists r b l, sd_read_key 3 (replicate SEC_BLK_SIZE 0) (Z.of_nat SEC_BLK_SIZE) (ex_st (fun _ => 0) [OK; OK; OK; SHORT 7]) =
      Ret (r, b) (with_faults l (ex_st (fun _ => 0) [OK; OK; OK; SHORT 7])).
Proof.
  destruct (sd_read_key_redundant 3 (replicate SEC_BLK_SIZE 0) (ex_st (fun _ => 0) [OK; OK; OK; SHORT 7]))
    as (r & b & l & E & _).
  - reflexivity.
  - unfold item_ok, MAX_SECURE_STORAGE_MAX_ITEM. lia.
  - apply ex_fits.
  - apply length_replicate.
  - now exists r, b, l.
Defined.


