(* ===== verification/SecureStorage.v ===== *)
(** * SecureStorage: the key box library and its API

    Models the upper half of [optee-keybox/src/na/libkeybox/secure_storage.c]
    ([sunxi_secure_storage_*], [sunxi_secure_object_*], [secure_storage_support])
    and [api.c], over the block devices of [SstDevice].  The mutex is held from
    [sunxi_secure_storage_init] to [sunxi_secure_storage_exit]; locking it twice
    blocks for ever, unlocking it when it is not held is undefined.  Contents of
    fresh memory (heap and stack) are the first bytes of [junk]. *)
From S2P Require Import Prelude CString CrcTheory Crc32 SstMap SstObject SstDevice.

Section Operations.
Context `{Driver}.

Definition SZ : Z := Z.of_nat SEC_BLK_SIZE.
Definition zero_block : list Z := replicate SEC_BLK_SIZE 0.

Definition fresh_block : M (list Z) := j ← gets junk; mret (take SEC_BLK_SIZE j).

Definition pthread_mutex_lock : M unit := fun s =>
  if sec_mutex s then Deadlock else Ret tt (with_mutex true s).
Definition pthread_mutex_unlock : M unit := fun s =>
  if sec_mutex s then Ret tt (with_mutex false s) else Undef.

Definition set_map_dirty : M unit := modify (with_dirty true).
Definition clear_map_dirty : M unit := modify (with_dirty false).
Definition try_map_dirty : M bool := gets map_dirty.

(** [memcpy(dst, src, n)] with an [int] count. *)
Definition memcpy (dst src : list Z) (n : Z) : M (list Z) :=
  if (0 <=? n) && (n <=? Z.of_nat (length src)) && (n <=? Z.of_nat (length dst))
  then mret (blit dst 0 (take (Z.to_nat n) src)) else undef.

(** [memset(dst, 0, n)] with an [int] count. *)
Definition memset_zero (dst : list Z) (n : Z) : M (list Z) :=
  if (0 <=? n) && (n <=? Z.of_nat (length dst)) then mret (memset0 dst n) else undef.

(** ** Raw items *)

(** [sunxi_secure_storage_read]: the return value, the buffer and the value
    stored in [*data_len]. *)
Definition sunxi_secure_storage_read (item_name buffer : list Z) (buffer_len : Z)
  : M (Z * list Z * option Z) :=
  inited ← gets secure_storage_inited;
  if negb (inited : bool) then mret (-1, buffer, None)
  else
    ok ← try_call;
    if negb ok then mret (-1, buffer, None)
    else
      buffer_to_sec ← fresh_block;
      map ← gets secure_storage_map;
      '(index, len) ← of_option (probe_name_in_map map item_name);
      if index <? 0 then mret (-1, buffer, None)
      else
        buffer ← memset_zero buffer buffer_len;
        '(ret, buffer_to_sec) ← sunxi_secstorage_read index buffer_to_sec SZ;
        if negb (ret =? 0) then mret (-1, buffer, None)
        else
          len_in_store ← of_option len;
          buffer ← memcpy buffer buffer_to_sec (if buffer_len <? len_in_store then buffer_len else len_in_store);
          mret (0, buffer, Some len_in_store).

Definition sunxi_secure_storage_write (item_name buffer : list Z) (length : Z) : M Z :=
  inited ← gets secure_storage_inited;
  if negb (inited : bool) then mret (-1)
  else
    map ← gets secure_storage_map;
    '(index, map) ← of_option (fill_name_in_map map item_name length);
    modify (with_map map);;
    if index <? 0 then mret (-1)
    else
      ret ← sunxi_secstorage_write index buffer SZ;
      if negb (ret =? 0) then mret (-1) else set_map_dirty;; mret 0.

Definition sunxi_secure_storage_probe (item_name : list Z) : M Z :=
  inited ← gets secure_storage_inited;
  if negb (inited : bool) then mret (-1)
  else
    map ← gets secure_storage_map;
    '(ret, _) ← of_option (probe_name_in_map map item_name);
    mret (if ret <? 0 then -1 else 0).

(** ** Sessions *)

Definition sunxi_secure_storage_init : M Z :=
  pthread_mutex_lock;;
  inited ← gets secure_storage_inited;
  if negb (inited : bool) then
    get_flash_type;;
    __is_use_sst_ctl;;
    map ← gets secure_storage_map;
    '(ret, map) ← sunxi_secstorage_read 0 map SZ;
    modify (with_map map);;
    if ret =? -1 then pthread_mutex_unlock;; mret (-1)
    else
      let ret := check_secure_storage_map map in
      (if ret =? -1 then modify (with_map zero_block)
       else if ret =? 2 then
         if (nth 0 map 0 =? 0xff) || (nth 0 map 0 =? 0) then modify (with_map zero_block) else mret tt
       else mret tt);;
      modify (with_inited true);; mret 0
  else modify (with_inited true);; mret 0.

Definition sunxi_secure_storage_exit (mode : Z) : M Z :=
  inited ← gets secure_storage_inited;
  if negb (inited : bool) then mret (-1)
  else
    dirty ← try_map_dirty;
    ret ← (if negb (mode =? 0) || (dirty : bool) then
             modify (fun s => with_map (seal_map (secure_storage_map s)) s);;
             map ← gets secure_storage_map;
             sunxi_secstorage_write 0 map SZ
           else mret 0);
    if ret <? 0 then pthread_mutex_unlock;; mret (-1)
    else
      modify (with_inited false);; clear_map_dirty;; pthread_mutex_unlock;; mret 0.

Definition secure_storage_support : M Z :=
  ret ← sunxi_secure_storage_init;
  if ret <? 0 then mret (-1)
  else sunxi_secure_storage_exit 0;; mret 0.

(** ** Objects *)

Definition sunxi_secure_object_read (item_name buffer : list Z) (buffer_len : Z)
  : M (Z * list Z * option Z) :=
  '(ret, secure_object, retLen) ← sunxi_secure_storage_read item_name zero_block SZ;
  if negb (ret =? 0) then mret (-1, buffer, None)
  else
    retLen ← of_option retLen;
    of_option (unwrap_secure_object secure_object (u32 retLen) buffer).

(** The test that keeps a write-protected item: it looks at the bytes that
    [sunxi_secure_object_read] left on the stack. *)
Definition object_protected (item_name : list Z) : M bool :=
  probed ← sunxi_secure_storage_probe item_name;
  if negb (probed =? 0) then mret false
  else
    secure_object ← fresh_block;
    '(_, secure_object, _) ← sunxi_secure_object_read item_name secure_object SZ;
    mret ((rd32 secure_object OBJ_magic =? STORE_OBJECT_MAGIC) &&
          (rd32 secure_object OBJ_write_protect =? STORE_WRITE_PROTECT_MAGIC)).

Definition sunxi_secure_object_write (item_name buffer : list Z) (length : Z) : M Z :=
  protected ← object_protected item_name;
  if (protected : bool) then mret (-1)
  else
    '(ret, secure_object, retLen) ← of_option (wrap_secure_object buffer item_name (u32 length) zero_block);
    let retLen := default 0 retLen in
    if (ret <? 0) || (SZ <? retLen) then mret (-1)
    else sunxi_secure_storage_write item_name secure_object retLen.

Definition sunxi_secure_object_erase : M Z :=
  ret ← sunxi_secure_storage_init;
  if negb (ret =? 0) then mret (-1)
  else
    modify (with_map zero_block);; set_map_dirty;;
    ret ← sunxi_secure_storage_exit 0;
    if negb (ret =? 0) then mret (-1) else mret 0.

(** One round of [sunxi_secure_object_list] at pointer [p]: the lines printed
    are (index, name, data). *)
Fixpoint object_list_loop (fuel : nat) (p : list Z) (index : Z) (out : list (Z * list Z * list Z))
  : M (option Z * list (Z * list Z * list Z)) :=
  match fuel with
  | O => undef
  | S fuel =>
      c ← of_option (head p);
      if c =? 0 then mret (None, out)
      else
        '(q, name) ← of_option (scan_field 58 MAP_KEY_NAME_SIZE p []);
        if (MAP_KEY_NAME_SIZE <=? length name)%nat then mret (Some (-1), out)
        else
          '(q, len) ← of_option (scan_field 32 MAP_KEY_DATA_SIZE (tail q) []);
          if (MAP_KEY_DATA_SIZE <=? length len)%nat then mret (Some (-1), out)
          else
            '(ret, key_data, _) ← sunxi_secure_object_read name zero_block SZ;
            if ret <? 0 then mret (Some (-1), out)
            else
              n ← of_option (strlen p);
              object_list_loop fuel (drop (n + 1) p) (index + 1) (out ++ [(index, name, key_data)])
  end.

Definition sunxi_secure_object_list : M (Z * list (Z * list Z * list Z)) :=
  ret ← sunxi_secure_storage_init;
  if negb (ret =? 0) then mret (-1, [])
  else
    map ← gets secure_storage_map;
    '(err, out) ← object_list_loop (S (length map)) map 1 [];
    match err with
    | Some e => mret (e, out)
    | None =>
        ret ← sunxi_secure_storage_exit 0;
        if negb (ret =? 0) then mret (-1, out) else mret (0, out)
    end.

(** ** api.c *)

(** [strncpy(dst, src, n)] from a buffer: it stops at a NUL byte, and is
    undefined when it runs over the end of [src]. *)
Definition strncpy_from (src : list Z) (n : Z) : option (list Z) :=
  if n <? 0 then None
  else
    let n := Z.to_nat n in
    match cstring (take n src) with
    | Some str => Some (strncpy str n)
    | None => if (n <=? length src)%nat then Some (take n src) else None
    end.

Definition secure_data_write (item_name buffer : option (list Z)) (length : Z) : M Z :=
  match item_name, buffer with
  | Some item_name, Some buffer =>
      if SZ <? length then mret (-1)
      else
        copy ← of_option (strncpy_from buffer length);
        let buffer_bak := blit zero_block 0 copy in
        ret ← secure_storage_support;
        if ret =? 0 then
          r ← sunxi_secure_storage_init;
          if r <? 0 then mret (-1)
          else
            r ← sunxi_secure_object_write item_name buffer_bak length;
            if r <? 0 then sunxi_secure_storage_exit 0;; mret (-1)
            else
              r ← sunxi_secure_storage_exit 0;
              if r <? 0 then mret (-1) else mret 0
        else mret 0
  | _, _ => mret (-1)
  end.

Definition secure_data_read (item_name buffer : list Z) (buffer_len : Z) : M (Z * list Z * option Z) :=
  ret ← secure_storage_support;
  if ret =? 0 then
    r ← sunxi_secure_storage_init;
    if r <? 0 then mret (ret, buffer, None)
    else
      '(r, buffer, data_len) ← sunxi_secure_object_read item_name buffer buffer_len;
      if r <? 0 then sunxi_secure_storage_exit 0;; mret (ret, buffer, data_len)
      else
        r ← sunxi_secure_storage_exit 0;
        if r <? 0 then mret (ret, buffer, data_len) else mret (0, buffer, data_len)
  else mret (ret, buffer, None).

End Operations.

(** ** Abstract specification: an ordered list of named objects *)

Abbreviation kv := (list (list Z * list Z)).

Fixpoint kv_find (l : kv) (s : list Z) : option (nat * list Z) :=
  match l with
  | [] => None
  | (n, d) :: l => if bool_decide (s = n) then Some (0%nat, d)
                   else match kv_find l s with Some (i, d) => Some (S i, d) | None => None end
  end.

Definition kv_lookup (l : kv) (s : list Z) : option (list Z) := snd <$> kv_find l s.

(** Replace the data of a stored name, or add a new name at the end. *)
Definition kv_insert (l : kv) (s d : list Z) : kv :=
  match kv_find l s with
  | Some (i, _) => <[i := (s, d)]> l
  | None => l ++ [(s, d)]
  end.

(** The name under which the code stores what is written as [s]: the first stored
    name that is a prefix of [s], or [s] itself. *)
Fixpoint owner (l : kv) (s : list Z) : list Z :=
  match l with
  | [] => s
  | (n, _) :: l => if bool_decide (n = take (length n) s) then n else owner l s
  end.

(** It is [s] when no other stored name is a prefix of [s]. *)
Lemma owner_self (l : kv) (s : list Z) : Forall (fun e => e.1 = take (length e.1) s -> e.1 = s) l -> owner l s = s.
Proof.
  induction 1 as [| [n d] l Hn _ IH]; [reflexivity |]. cbn [owner fst] in *. case_bool_decide as E; [now apply Hn | exact IH].
Qed.

(** A name that is not stored owns itself. *)
Lemma owner_stored (l : kv) (s : list Z) : kv_find l (owner l s) = None -> owner l s = s.
Proof.
  induction l as [| [n d] l IH]; [reflexivity |]. cbn [owner]. case_bool_decide as E; cbn [kv_find].
  - now rewrite bool_decide_eq_true_2.
  - case_bool_decide; [discriminate |]. destruct (kv_find l (owner l s)) as [[j d'] |]; [discriminate | auto].
Qed.

(** Every entry of the map records the size of the object structure. *)
Definition entry_of (e : list Z * list Z) : entry := Entry e.1 (print_d (Z.of_nat sizeof_store_object)).

Lemma find_entry_kv l s i :
  find_entry (map entry_of l) s i =
    match kv_find l s with
    | Some (j, _) => Some (i + Z.of_nat j, Z.of_nat sizeof_store_object)
    | None => None
    end.
Proof.
  revert i. induction l as [| [n d] l IH]; intros i; [reflexivity |]. cbn [map find_entry entry_of kv_find e_name e_len fst].
  case_bool_decide.
  - assert (Z.of_nat sizeof_store_object = 3176) as -> by reflexivity.
    rewrite atol_print_d, s32_id by (unfold LONG_MAX; lia). do 2 f_equal. lia.
  - rewrite IH. destruct (kv_find l s) as [[j d'] |]; [| reflexivity]. do 2 f_equal. lia.
Qed.

Lemma owner_prefix l s : owner l s = take (length (owner l s)) s.
Proof.
  induction l as [| [n d] l IH]; cbn [owner]; [now rewrite firstn_all |]. case_bool_decide as E; [exact E | exact IH].
Qed.

Lemma first_prefix_kv l s i :
  first_prefix (map entry_of l) s i = match kv_find l (owner l s) with Some (j, _) => Some (i + Z.of_nat j) | None => None end.
Proof.
  revert i. induction l as [| [n d] l IH]; intros i; [reflexivity |].
  cbn [map first_prefix entry_of kv_find owner e_name fst]. case_bool_decide as E.
  - rewrite bool_decide_eq_true_2 by reflexivity. f_equal. lia.
  - rewrite bool_decide_eq_false_2 by (intros E'; apply E; rewrite <- E'; apply owner_prefix).
    rewrite IH. destruct (kv_find l (owner l s)) as [[j d'] |]; [| reflexivity]. f_equal. lia.
Qed.

Lemma kv_find_Some l s i d : kv_find l s = Some (i, d) -> l !! i = Some (s, d).
Proof.
  revert i. induction l as [| [n d'] l IH]; intros i; [discriminate |]. cbn [kv_find].
  case_bool_decide; [intros [= <- <-]; now subst |].
  destruct (kv_find l s) as [[j dj] |]; [| discriminate]. intros [= <- <-]. now apply IH.
Qed.

Lemma kv_find_insert_same l s d i d' : kv_find l s = Some (i, d') -> kv_find (<[i := (s, d)]> l) s = Some (i, d).
Proof.
  revert i. induction l as [| [n dn] l IH]; intros i; [discriminate |]. cbn [kv_find].
  case_bool_decide as Hn.
  - intros [= <- <-]. cbn. now rewrite bool_decide_eq_true_2.
  - destruct (kv_find l s) as [[j dj] |] eqn:E; [| discriminate]. intros [= <- <-].
    change (<[S j:=(s, d)]> ((n, dn) :: l)) with ((n, dn) :: <[j:=(s, d)]> l). cbn [kv_find].
    rewrite bool_decide_eq_false_2 by assumption. now rewrite (IH j eq_refl).
Qed.

Lemma kv_find_insert_other l s d i d' t :
  kv_find l s = Some (i, d') -> t <> s -> kv_find (<[i := (s, d)]> l) t = kv_find l t.
Proof.
  intros H Ht. revert i H. induction l as [| [n dn] l IH]; intros i; [discriminate |]. cbn [kv_find].
  case_bool_decide as Hn.
  - intros [= <- <-]. subst n. cbn. rewrite bool_decide_eq_false_2 by assumption. reflexivity.
  - destruct (kv_find l s) as [[j dj] |] eqn:E; [| discriminate]. intros [= <- <-].
    change (<[S j:=(s, d)]> ((n, dn) :: l)) with ((n, dn) :: <[j:=(s, d)]> l). cbn [kv_find].
    case_bool_decide; [reflexivity |]. now rewrite (IH j eq_refl).
Qed.

Lemma kv_find_app l s t d :
  kv_find (l ++ [(s, d)]) t =
    match kv_find l t with
    | Some r => Some r
    | None => if bool_decide (t = s) then Some (length l, d) else None
    end.
Proof.
  induction l as [| [n dn] l IH]; cbn; [reflexivity |].
  destruct (bool_decide (t = n)); [reflexivity |]. rewrite IH.
  destruct (kv_find l t) as [[j dj] |]; [reflexivity |]. now destruct (bool_decide (t = s)).
Qed.

(** The specification is a finite map. *)
Lemma kv_lookup_insert l s d t :
  kv_lookup (kv_insert l s d) t = if bool_decide (t = s) then Some d else kv_lookup l t.
Proof.
  unfold kv_lookup, kv_insert. destruct (kv_find l s) as [[i d'] |] eqn:E; case_bool_decide as Ht.
  - subst t. erewrite kv_find_insert_same by exact E. reflexivity.
  - erewrite kv_find_insert_other by eauto. reflexivity.
  - subst t. rewrite kv_find_app, E, bool_decide_eq_true_2 by reflexivity. reflexivity.
  - rewrite kv_find_app, (bool_decide_eq_false_2 (t = s)) by assumption. now destruct (kv_find l t).
Qed.

(** ** The map in memory *)

(** A block whose first 4088 bytes are the map of the entries of [l]. *)
Record is_map (buf : list Z) (l : kv) : Prop := IsMap {
  im_wf : wf_map (map entry_of l);
  im_len : length buf = SEC_BLK_SIZE;
  im_bytes : bytes_ok buf;
  im_data : take MAP_magic buf = take MAP_magic (map_of (map entry_of l));
}.

Lemma take_replicate_le n m (x : Z) : (n <= m)%nat -> take n (replicate m x) = replicate n x.
Proof. intros. rewrite take_replicate. f_equal. lia. Qed.

(** Such a block is the rendered entries, at least 1112 zeros, and 8 bytes. *)
Lemma is_map_split buf l :
  is_map buf l -> exists k z, buf = render (map entry_of l) ++ replicate (S k) 0 ++ z /\
    (length (render (map entry_of l)) + S k = MAP_magic)%nat /\ (1111 <= k)%nat /\ length z = 8%nat.
Proof.
  intros [Hwf Hl _ Hd]. destruct (map_of_tail _ Hwf) as (n & E & Hn & Hmin).
  set (r := render (map entry_of l)) in *. assert (Z.of_nat SEC_BLK_SIZE = 4096 /\ Z.of_nat MAP_magic = 4088) as [Es Em] by now split.
  exists (n - 8)%nat, (drop MAP_magic buf).
  split; [| split; [lia | split; [lia | rewrite length_drop; lia]]].
  rewrite <- (take_drop MAP_magic buf) at 1. rewrite Hd, E, app_assoc. f_equal.
  rewrite take_app_ge by lia. f_equal. change (0 :: replicate n 0) with (replicate (S n) 0).
  rewrite take_replicate_le by lia. f_equal. lia.
Qed.

Lemma is_map_fuel buf l : is_map buf l -> (length (map entry_of l) < S (length buf))%nat.
Proof. intros [[_ H] Hl _ _]. assert (Z.of_nat SEC_BLK_SIZE = 4096) by reflexivity. lia. Qed.

Lemma probe_is_map buf l s :
  is_map buf l -> probe_name_in_map buf s =
    Some (match kv_find l s with
          | Some (j, _) => (1 + Z.of_nat j, Some (Z.of_nat sizeof_store_object))
          | None => (-1, None)
          end).
Proof.
  intros H. pose proof (is_map_fuel _ _ H) as Hf. unfold probe_name_in_map.
  destruct (is_map_split _ _ H) as (k & z & E & _). set (fuel := S (length buf)) in *. clearbody fuel. rewrite E.
  change (replicate (S k) 0 ++ z) with (0 :: replicate k 0 ++ z).
  rewrite probe_loop_spec by (auto; apply H). rewrite find_entry_kv.
  now destruct (kv_find l s) as [[j d] |].
Qed.

Lemma take_blit_inside (buf src : list Z) off n :
  (off + length src <= n)%nat -> (n <= length buf)%nat -> take n (blit buf off src) = blit (take n buf) off src.
Proof.
  intros H1 H2. unfold blit. rewrite take_take, Nat.min_l by lia.
  rewrite take_app_ge by (rewrite length_take; lia). f_equal. rewrite length_take, Nat.min_l by lia.
  rewrite take_app_ge by lia. f_equal. rewrite skipn_firstn_comm. f_equal. lia.
Qed.

Lemma entry_bytes s : wf_name s -> bytes_ok (render_entry (Entry s (print_d (Z.of_nat sizeof_store_object)))).
Proof.
  intros [Hs _]. unfold render_entry. cbn [e_name e_len].
  apply Forall_app; split; [now apply cstr_ok_bytes |]. apply Forall_cons_2; [unfold byte_ok; lia |].
  apply Forall_app; split; [| solve_bytes]. apply cstr_ok_bytes, print_d_cstr. lia.
Qed.

(** Storing a name in the map: the index of its owner if that is there, else the
    next one, with the name appended. *)
Lemma fill_is_map buf l s :
  is_map buf l -> wf_name s ->
  exists buf', fill_name_in_map buf s (Z.of_nat sizeof_store_object) =
    Some (match kv_find l (owner l s) with
          | Some (j, _) => 1 + Z.of_nat j
          | None => if (31 <=? length l)%nat then -1 else 1 + Z.of_nat (length l)
          end, buf') /\
    (kv_find l (owner l s) = None -> (31 <= length l)%nat -> buf' = buf) /\
    forall d, (kv_find l (owner l s) = None -> (length l < 31)%nat) -> is_map buf' (kv_insert l (owner l s) d).
Proof.
  intros H Hs. pose proof (is_map_fuel _ _ H) as Hf. unfold fill_name_in_map, kv_insert.
  destruct (is_map_split _ _ H) as (k & z & E & Hk & Hmin & Hz). set (fuel := S (length buf)) in *. clearbody fuel.
  assert (fill_loop fuel buf buf s 1 = fill_loop fuel buf (render (map entry_of l) ++ 0 :: replicate k 0 ++ z) s 1) as ->
    by (rewrite E at 2; reflexivity).
  rewrite fill_loop_spec by first [exact (proj1 (im_wf _ _ H)) | apply Hs | exact Hf]. rewrite first_prefix_kv.
  destruct (kv_find l (owner l s)) as [[j d0] |] eqn:Ef.
  - exists buf. split; [reflexivity | split; [auto |]]. intros d _. destruct H as [Hwf Hl Hb Hd].
    assert (map entry_of (<[j:=(owner l s, d)]> l) = map entry_of l) as Hm.
    { apply kv_find_Some in Ef. rewrite <- (list_insert_id l j (owner l s, d0) Ef) at 3.
      change (entry_of <$> <[j:=(owner l s, d)]> l = entry_of <$> <[j:=(owner l s, d0)]> l). now rewrite !list_fmap_insert. }
    split; rewrite ?Hm; assumption.
  - rewrite (owner_stored l s Ef). set (len := Z.of_nat sizeof_store_object) in *. rewrite length_map.
    assert (wf_entry (Entry s (print_d len))) as He by (split; [assumption | apply wf_print_d; lia]).
    pose proof (length_render_entry _ He) as Hr.
    destruct (Z.leb_spec 32 (1 + Z.of_nat (length l))), (Nat.leb_spec 31 (length l)); try lia.
    + exists buf. split; [reflexivity | split; [auto |]]. intros d Hroom. specialize (Hroom eq_refl). lia.
    + change (s ++ 58 :: print_d len ++ [0]) with (render_entry (Entry s (print_d len))).
      assert (length (0%Z :: replicate k 0%Z ++ z) = S k + 8)%nat as Hlp
        by (simpl; rewrite length_app, length_replicate; lia).
      rewrite Hlp. rewrite (proj2 (Nat.leb_le _ _)) by lia.
      eexists. split; [reflexivity | split; [lia |]]. intros d _.
      assert (Z.of_nat SEC_BLK_SIZE = 4096 /\ Z.of_nat MAP_magic = 4088) as [Es Em] by now split.
      destruct H as [Hwf Hl Hb Hd]. destruct (map_of_tail _ Hwf) as (n & Eo & Hn & _).
      replace (SEC_BLK_SIZE - (S k + 8))%nat with (length (render (map entry_of l))) by lia.
      assert (map entry_of (l ++ [(s, d)]) = map entry_of l ++ [Entry s (print_d len)]) as Hm by apply map_app.
      split; rewrite ?Hm.
      * apply wf_map_snoc; auto. rewrite length_map. lia.
      * rewrite length_blit; lia.
      * apply blit_bytes_ok; [assumption | now apply entry_bytes].
      * rewrite take_blit_inside, Hd by lia. rewrite <- (blit_map_of _ s (print_d len) n Eo Hn) by lia.
        replace (SEC_BLK_SIZE - S n)%nat with (length (render (map entry_of l))) by lia.
        symmetry. change (s ++ 58 :: print_d len ++ [0]) with (render_entry (Entry s (print_d len))).
        apply take_blit_inside; [lia |]. rewrite length_map_of by assumption. lia.
Qed.

Lemma is_map_nil : is_map zero_block [].
Proof.
  unfold zero_block. split; [split; [constructor | cbn; lia] | apply length_replicate | | reflexivity].
  apply Forall_replicate. unfold byte_ok. lia.
Qed.

Lemma is_map_seal buf l : is_map buf l -> is_map (seal_map buf) l /\ check_secure_storage_map (seal_map buf) = 0.
Proof.
  intros [Hwf Hl Hb Hd]. destruct (seal_map_ok buf Hb Hl) as (Hc & Hl' & Hb' & Ht).
  split; [| exact Hc]. split; [exact Hwf | exact Hl' | exact Hb' | now rewrite Ht].
Qed.

(** ** Representation of the specification in the device *)

(** A block that holds the object with data [d]. *)
Record object_block (blk d : list Z) : Prop := ObjectBlock {
  ob_len : length blk = SEC_BLK_SIZE;
  ob_magic : rd32 blk OBJ_magic = STORE_OBJECT_MAGIC;
  ob_crc : rd32 blk OBJ_crc = crc_of blk (sizeof_store_object - 4);
  ob_actual : rd32 blk OBJ_actual_len = Z.of_nat (length d);
  ob_data : bytes_at blk OBJ_data (length d) = d;
  ob_max : Z.of_nat (length d) <= MAX_STORE_LEN;
}.

(** What [sunxi_secure_storage_init] makes of the block it read. *)
Definition map_loaded (b : list Z) : list Z :=
  let ret := check_secure_storage_map b in
  if ret =? -1 then zero_block
  else if ret =? 2 then
    if (nth 0 b 0 =? 0xff) || (nth 0 b 0 =? 0) then zero_block else b
  else b.

Definition blocks_ok (store : Z -> list Z) (l : kv) : Prop :=
  forall i s d, l !! i = Some (s, d) -> object_block (store (1 + Z.of_nat i)) d.

Section Sessions.
Context `{NvStore}.

(** Between two sessions. *)
Record at_rest (s : st) (store : Z -> list Z) (l : kv) : Prop := AtRest {
  ar_holds : nv_holds s store;
  ar_mutex : sec_mutex s = false;
  ar_inited : secure_storage_inited s = false;
  ar_dirty : map_dirty s = false;
  ar_maplen : length (secure_storage_map s) = SEC_BLK_SIZE;
  ar_map : is_map (map_loaded (store 0)) l;
  ar_blocks : blocks_ok store l;
}.

(** Inside a session. *)
Record in_session (s : st) (store : Z -> list Z) (l : kv) : Prop := InSession {
  is_holds : nv_holds s store;
  is_selected : nv_selected s;
  is_mutex : sec_mutex s = true;
  is_inited : secure_storage_inited s = true;
  is_mem : is_map (secure_storage_map s) l;
  is_blocks : blocks_ok store l;
  is_clean : map_dirty s = false -> is_map (map_loaded (store 0)) l;
}.

Lemma ext_holds s s' store : dev_part s = dev_part s' -> nv_holds s store -> nv_holds s' store.
Proof. intros E. apply (nv_ext s s' store E). Qed.

Lemma ext_selected s s' : dev_part s = dev_part s' -> nv_selected s -> nv_selected s'.
Proof. intros E. apply (nv_ext s s' (fun _ => []) E). Qed.

(** [sunxi_secure_storage_init] on an idle library loads the map. *)
Lemma init_loads s store :
  nv_holds s store -> sec_mutex s = false -> secure_storage_inited s = false ->
  length (secure_storage_map s) = SEC_BLK_SIZE ->
  exists s', sunxi_secure_storage_init s = Ret 0 s' /\ nv_holds s' store /\ nv_selected s' /\
    lib_part s' = (map_loaded (store 0), true, map_dirty s, true, junk s).
Proof.
  intros Hh Hm Hi Hl. unfold sunxi_secure_storage_init.
  set (s1 := with_mutex true s).
  assert (pthread_mutex_lock s = Ret tt s1) as E1 by (unfold pthread_mutex_lock; now rewrite Hm).
  rewrite (bind_Ret _ _ _ _ _ E1).
  assert (gets secure_storage_inited s1 = Ret false s1) as E2 by (unfold gets, s1; cbn; now rewrite Hi).
  rewrite (bind_Ret _ _ _ _ _ E2). cbn [negb].
  assert (nv_holds s1 store) as Hh1 by (apply (ext_holds s); [reflexivity | assumption]).
  destruct (nv_select s1 store Hh1) as (t & s2 & E3 & s3 & E4 & Hh3 & Hs3 & Hlib).
  rewrite (bind_Ret _ _ _ _ _ E3), (bind_Ret _ _ _ _ _ E4).
  unfold lib_part in Hlib. injection Hlib as Lm Li Ld Lx Lj. cbn in Lm, Li, Ld, Lx, Lj.
  destruct (nv_read_map_law s3 store (secure_storage_map s3) Hh3 Hs3) as (ret & E5 & Hret); [congruence |].
  assert (gets secure_storage_map s3 = Ret (secure_storage_map s3) s3) as E6 by reflexivity.
  rewrite (bind_Ret _ _ _ _ _ E6), (bind_Ret _ _ _ _ _ E5).
  set (s4 := with_map (store 0) s3).
  assert (modify (with_map (store 0)) s3 = Ret tt s4) as E7 by reflexivity.
  rewrite (bind_Ret _ _ _ _ _ E7). rewrite (proj2 (Z.eqb_neq ret (-1))) by lia.
  set (s5 := with_map (map_loaded (store 0)) s4).
  match goal with |- context [(?m ;; _) s4] => assert (m s4 = Ret tt s5) as E8 end.
  { unfold s5, map_loaded. cbv zeta. destruct (check_secure_storage_map (store 0) =? -1); [reflexivity |].
    destruct (check_secure_storage_map (store 0) =? 2); [| reflexivity]. destruct (_ || _); reflexivity. }
  rewrite (bind_Ret _ _ _ _ _ E8). eexists. split; [reflexivity |].
  split; [apply (ext_holds s3); [reflexivity | assumption] |].
  split; [apply (ext_selected s3); [reflexivity | assumption] |].
  unfold lib_part. cbn. congruence.
Qed.

Lemma init_ok s store l :
  at_rest s store l -> exists s', sunxi_secure_storage_init s = Ret 0 s' /\ in_session s' store l /\
    map_dirty s' = false /\ junk s' = junk s.
Proof.
  intros [Hh Hm Hi Hd Hl Hmap Hb]. destruct (init_loads s store Hh Hm Hi Hl) as (s' & E & Hh' & Hs' & Hlib).
  unfold lib_part in Hlib. injection Hlib as Lm Li Ld Lx Lj.
  exists s'. split; [exact E |]. split; [| split; congruence]. split; auto. now rewrite Lm.
Qed.

Lemma close_session s :
  sec_mutex s = true ->
  (modify (with_inited false);; clear_map_dirty;; pthread_mutex_unlock;; mret (M := M) 0) s =
    Ret 0 (with_mutex false (with_dirty false (with_inited false s))).
Proof.
  intros Hm. set (s' := with_dirty false (with_inited false s)).
  assert (pthread_mutex_unlock s' = Ret tt (with_mutex false s')) as E
    by (unfold pthread_mutex_unlock; change (sec_mutex s') with (sec_mutex s); now rewrite Hm).
  change ((pthread_mutex_unlock;; mret (M := M) 0) s' = Ret 0 (with_mutex false s')).
  now rewrite (bind_Ret _ _ _ _ _ E).
Qed.

Lemma exit_ok s store l :
  in_session s store l -> exists s' store', sunxi_secure_storage_exit 0 s = Ret 0 s' /\ at_rest s' store' l /\
    junk s' = junk s.
Proof.
  intros [Hh Hs Hm Hi Hmem Hb Hc]. unfold sunxi_secure_storage_exit.
  assert (gets secure_storage_inited s = Ret true s) as E1 by (unfold gets; now rewrite Hi).
  rewrite (bind_Ret _ _ _ _ _ E1). cbn [negb Z.eqb orb].
  assert (try_map_dirty s = Ret (map_dirty s) s) as E2 by reflexivity. rewrite (bind_Ret _ _ _ _ _ E2).
  destruct (map_dirty s) eqn:Hd.
  - set (m := seal_map (secure_storage_map s)). destruct (is_map_seal _ _ Hmem) as [Hm' Hck]. fold m in Hm', Hck.
    set (s1 := with_map m s).
    assert (nv_holds s1 store) as Hh1 by (apply (ext_holds s); [reflexivity | assumption]).
    assert (nv_selected s1) as Hs1 by (apply (ext_selected s); [reflexivity | assumption]).
    destruct (nv_write_law s1 store m 0 Hh1 Hs1 (im_len _ _ Hm')) as (s2 & E3 & Hh2 & Hs2 & Hlib);
      [unfold item_ok, MAX_SECURE_STORAGE_MAX_ITEM; lia |].
    match goal with |- context [(?x ≫= _) s] => assert (x s = Ret 0 s2) as E4 by (rewrite <- E3; reflexivity) end.
    rewrite (bind_Ret _ _ _ _ _ E4). cbn [Z.ltb Z.compare].
    unfold lib_part in Hlib. injection Hlib as Lm Li Ld Lx Lj. cbn in Lm, Li, Ld, Lx, Lj.
    rewrite close_session by congruence.
    eexists _, _. split; [reflexivity |]. split; [| exact Lj].
    split; cbn; auto.
    + apply (ext_holds s2); [reflexivity | exact Hh2].
    + rewrite Lm. apply Hm'.
    + unfold upd. simpl Z.eqb. cbv iota. unfold map_loaded. rewrite Hck. exact Hm'.
    + intros i n d Hl. unfold upd. rewrite (proj2 (Z.eqb_neq (1 + Z.of_nat i) 0)) by lia. eapply Hb; eauto.
  - match goal with |- context [(?x ≫= _) s] => assert (x s = Ret 0 s) as E4 by reflexivity end.
    rewrite (bind_Ret _ _ _ _ _ E4). cbn [Z.ltb Z.compare]. rewrite close_session by assumption.
    eexists _, store. split; [reflexivity |]. split; [| reflexivity].
    split; cbn; auto.
    + apply (ext_holds s); [reflexivity | assumption].
    + apply Hmem.
Qed.

Lemma support_ok s store l :
  at_rest s store l -> exists s' store', secure_storage_support s = Ret 0 s' /\ at_rest s' store' l /\ junk s' = junk s.
Proof.
  intros Hr. destruct (init_ok s store l Hr) as (s1 & E1 & Hs1 & _ & Hj1).
  destruct (exit_ok s1 store l Hs1) as (s2 & store2 & E2 & Hr2 & Hj2).
  exists s2, store2. split; [| split; [exact Hr2 | congruence]].
  unfold secure_storage_support. rewrite (bind_Ret _ _ _ _ _ E1). cbn [Z.ltb Z.compare].
  rewrite (bind_Ret _ _ _ _ _ E2). reflexivity.
Qed.

(** ** Objects in a session *)

Lemma of_option_Some {A} (a : A) s : of_option (Some a) s = Ret a s.
Proof. reflexivity. Qed.

Lemma kv_find_index l n j d buf :
  is_map buf l -> kv_find l n = Some (j, d) -> 0 < 1 + Z.of_nat j <= MAX_SECURE_STORAGE_MAX_ITEM.
Proof.
  intros [[_ H1] _ _ _] Hf%kv_find_Some. apply lookup_lt_Some in Hf. rewrite length_map in H1.
  unfold MAX_SECURE_STORAGE_MAX_ITEM. lia.
Qed.

Lemma session_call s store l : in_session s store l -> try_call s = Ret true s /\ fresh_block s = Ret (take SEC_BLK_SIZE (junk s)) s /\
  length (take SEC_BLK_SIZE (junk s)) = SEC_BLK_SIZE.
Proof.
  intros Hs. destruct (nv_quiet _ _ (is_holds _ _ _ Hs)) as [Hq Hj].
  split; [now apply try_call_quiet | split; [reflexivity |]]. rewrite length_take. lia.
Qed.

Lemma storage_read_ok s store l n :
  in_session s store l ->
  sunxi_secure_storage_read n zero_block SZ s =
    Ret (match kv_find l n with
         | Some (j, _) => (0, blit zero_block 0 (take sizeof_store_object (store (1 + Z.of_nat j))),
                           Some (Z.of_nat sizeof_store_object))
         | None => (-1, zero_block, None)
         end) s.
Proof.
  intros Hs. destruct (session_call s store l Hs) as (Hcall & Hfresh & Hjl).
  unfold sunxi_secure_storage_read.
  assert (gets secure_storage_inited s = Ret true s) as E1 by (unfold gets; now rewrite (is_inited _ _ _ Hs)).
  rewrite (bind_Ret _ _ _ _ _ E1). cbn [negb]. rewrite (bind_Ret _ _ _ _ _ Hcall). cbn [negb].
  rewrite (bind_Ret _ _ _ _ _ Hfresh).
  assert (gets secure_storage_map s = Ret (secure_storage_map s) s) as E2 by reflexivity.
  rewrite (bind_Ret _ _ _ _ _ E2). rewrite (probe_is_map _ l n (is_mem _ _ _ Hs)).
  destruct (kv_find l n) as [[j d] |] eqn:Ef; [| reflexivity].
  destruct (kv_find_index l n j d _ (is_mem _ _ _ Hs) Ef) as [Hj0 Hj1].
  pose proof (kv_find_Some _ _ _ _ Ef) as Hl. destruct (is_blocks _ _ _ Hs j n d Hl) as [Hbl Hbm Hbc _ _ _].
  rewrite (bind_Ret _ _ _ _ _ (of_option_Some _ s)).
  rewrite (proj2 (Z.ltb_ge (1 + Z.of_nat j) 0)) by lia.
  assert (memset_zero zero_block SZ s = Ret zero_block s) as E3.
  { assert (memset0 zero_block SZ = zero_block) as E0
      by (unfold memset0, SZ; rewrite Nat2Z.id; now apply blit_all).
    unfold memset_zero. rewrite E0. unfold SZ, zero_block. rewrite length_replicate, Z.leb_refl.
    now rewrite (proj2 (Z.leb_le 0 _)) by lia. }
  rewrite (bind_Ret _ _ _ _ _ E3).
  assert (check_secure_storage_key (store (1 + Z.of_nat j)) = 0) as Hck by now apply check_key_ok.
  pose proof (nv_read_item_law s store _ _ (is_holds _ _ _ Hs) (is_selected _ _ _ Hs) Hjl (conj Hj0 Hj1) Hck) as E4.
  rewrite (bind_Ret _ _ _ _ _ E4). cbn [Z.eqb negb].
  rewrite (bind_Ret _ _ _ _ _ (of_option_Some _ s)).
  assert (SZ = 4096 /\ Z.of_nat sizeof_store_object = 3176) as [Es Eo] by now split.
  rewrite (proj2 (Z.ltb_ge _ _)) by lia.
  match goal with |- context [memcpy ?a ?b ?c] => assert (memcpy a b c s = Ret (blit a 0 (take sizeof_store_object b)) s) as E5 end.
  { unfold memcpy, zero_block. unfold SZ in Es. rewrite length_replicate, Hbl.
    rewrite !(proj2 (Z.leb_le _ _)) by lia. cbn [andb]. now rewrite Nat2Z.id. }
  rewrite (bind_Ret _ _ _ _ _ E5). reflexivity.
Qed.

(** The prefix that [sunxi_secure_storage_read] copies has the fields of the
    block. *)
Lemma object_prefix blk d :
  object_block blk d -> object_block (blit zero_block 0 (take sizeof_store_object blk)) d.
Proof.
  intros [Hl Hm Hc Ha Hd Hmax].
  set (o := blit zero_block 0 (take sizeof_store_object blk)).
  assert (forall off k, (off + k <= sizeof_store_object)%nat -> bytes_at o off k = bytes_at blk off k) as Hat.
  { intros off k Hk. unfold o, bytes_at, blit. rewrite take_0, app_nil_l.
    assert (length (take sizeof_store_object blk) = sizeof_store_object) as Ht by (rewrite length_take, Hl; obj_offsets; lia).
    rewrite drop_app_le by lia. rewrite take_app_le by (rewrite length_drop; lia).
    rewrite skipn_firstn_comm, take_take. f_equal. lia. }
  assert (length o = SEC_BLK_SIZE) as Hlo.
  { unfold o. rewrite length_blit; unfold zero_block; rewrite length_replicate, ?length_take; [reflexivity | lia]. }
  unfold MAX_STORE_LEN in Hmax. split.
  - exact Hlo.
  - unfold rd32. rewrite Hat by (obj_offsets; lia). exact Hm.
  - unfold rd32, crc_of. rewrite Hat by (obj_offsets; lia).
    change (take (sizeof_store_object - 4) o) with (bytes_at o 0 (sizeof_store_object - 4)).
    rewrite Hat by (obj_offsets; lia). exact Hc.
  - unfold rd32. rewrite Hat by (obj_offsets; lia). exact Ha.
  - rewrite Hat by (obj_offsets; lia). exact Hd.
  - exact Hmax.
Qed.

Lemma object_read_ok s store l n buffer len :
  in_session s store l ->
  (forall d, kv_lookup l n = Some d -> (length d <= length buffer)%nat) ->
  sunxi_secure_object_read n buffer len s =
    Ret (match kv_lookup l n with
         | Some d => (0, blit buffer 0 d, Some (Z.of_nat (length d)))
         | None => (-1, buffer, None)
         end) s.
Proof.
  intros Hs Hfit. unfold sunxi_secure_object_read.
  rewrite (bind_Ret _ _ _ _ _ (storage_read_ok s store l n Hs)). unfold kv_lookup in *.
  destruct (kv_find l n) as [[j d] |] eqn:Ef; [| reflexivity]. cbn [fmap option_fmap option_map snd Z.eqb negb] in *.
  specialize (Hfit d eq_refl).
  pose proof (is_blocks _ _ _ Hs j n d (kv_find_Some _ _ _ _ Ef)) as Hob.
  destruct (object_prefix _ _ Hob) as [Hl Hm Hc Ha Hd Hmax].
  set (o := blit zero_block 0 _) in *. rewrite (bind_Ret _ _ _ _ _ (of_option_Some _ s)).
  assert (u32 (Z.of_nat sizeof_store_object) = Z.of_nat sizeof_store_object) as -> by reflexivity.
  unfold MAX_STORE_LEN in Hmax.
  rewrite unwrap_secure_object_ok; rewrite ?Ha; auto.
  - rewrite Nat2Z.id, Hd, s32_id by lia. reflexivity.
  - rewrite Hl. obj_offsets. lia.
  - lia.
Qed.

(** The bytes that the write-protection test looks at when data [d] is
    stored: [d] over the old contents of the stack. *)
Definition protected_image (s : st) (d : list Z) : bool :=
  let secure_object := blit (take SEC_BLK_SIZE (junk s)) 0 d in
  (rd32 secure_object OBJ_magic =? STORE_OBJECT_MAGIC) &&
  (rd32 secure_object OBJ_write_protect =? STORE_WRITE_PROTECT_MAGIC).

Lemma in_session_max s store l n d : in_session s store l -> kv_lookup l n = Some d -> Z.of_nat (length d) <= MAX_STORE_LEN.
Proof.
  intros Hs. unfold kv_lookup. destruct (kv_find l n) as [[j d'] |] eqn:Ef; [| discriminate]. intros [= ->].
  apply (ob_max _ _ (is_blocks _ _ _ Hs j n d (kv_find_Some _ _ _ _ Ef))).
Qed.

Lemma object_protected_ok s store l n :
  in_session s store l ->
  object_protected n s = Ret (match kv_lookup l n with Some d => protected_image s d | None => false end) s.
Proof.
  intros Hs. destruct (session_call s store l Hs) as (Hcall & Hfresh & Hjl). unfold object_protected.
  assert (sunxi_secure_storage_probe n s = Ret (if kv_lookup l n is Some _ then 0 else -1) s) as E1.
  { unfold sunxi_secure_storage_probe.
    assert (gets secure_storage_inited s = Ret true s) as E1 by (unfold gets; now rewrite (is_inited _ _ _ Hs)).
    rewrite (bind_Ret _ _ _ _ _ E1). cbn [negb].
    assert (gets secure_storage_map s = Ret (secure_storage_map s) s) as E2 by reflexivity.
    rewrite (bind_Ret _ _ _ _ _ E2), (probe_is_map _ l n (is_mem _ _ _ Hs)).
    unfold kv_lookup. destruct (kv_find l n) as [[j d] |]; [| reflexivity].
    rewrite (bind_Ret _ _ _ _ _ (of_option_Some _ s)). now rewrite (proj2 (Z.ltb_ge (1 + Z.of_nat j) 0)) by lia. }
  rewrite (bind_Ret _ _ _ _ _ E1). destruct (kv_lookup l n) as [d |] eqn:El; [| reflexivity].
  cbn [Z.eqb negb]. rewrite (bind_Ret _ _ _ _ _ Hfresh).
  pose proof (in_session_max s store l n d Hs El) as Hmax. unfold MAX_STORE_LEN in Hmax.
  assert (Z.of_nat SEC_BLK_SIZE = 4096) as Es by reflexivity.
  erewrite (bind_Ret _ _ _ _ _ (object_read_ok s store l n _ SZ Hs _)). now rewrite El.
  Unshelve. intros d' [= <-]%(eq_trans (eq_sym El)). lia.
Qed.

Lemma blocks_ok_insert store l n d blk i :
  blocks_ok store l -> object_block blk d ->
  match kv_find l n with Some (j, _) => i = j | None => i = length l end ->
  blocks_ok (upd store (1 + Z.of_nat i) blk) (kv_insert l n d).
Proof.
  intros Hb Hob Hi k s' d' Hk. unfold upd, kv_insert in *.
  destruct (kv_find l n) as [[j d0] |]; subst i.
  - destruct (decide (k = j)) as [-> | Hne].
    + rewrite list_lookup_insert_eq in Hk.
      * injection Hk as <- <-. now rewrite Z.eqb_refl.
      * apply lookup_lt_Some in Hk. now rewrite length_insert in Hk.
    + rewrite list_lookup_insert_ne in Hk by congruence.
      rewrite (proj2 (Z.eqb_neq _ _)) by lia. eapply Hb; eauto.
  - destruct (decide (k = length l)) as [-> | Hne].
    + rewrite lookup_app_r, Nat.sub_diag in Hk by lia. injection Hk as <- <-. now rewrite Z.eqb_refl.
    + rewrite (proj2 (Z.eqb_neq _ _)) by lia. apply lookup_snoc_Some in Hk. destruct Hk as [[_ Hk] | [-> _]]; [| lia].
      eapply Hb; eauto.
Qed.

(** [sunxi_secure_storage_write] of an object block: stored under the owner of its name, or
    refused with nothing changed when 31 names are stored already. *)
Lemma storage_write_ok s store l n d obj :
  in_session s store l -> wf_name n -> object_block obj d ->
  exists s' store', sunxi_secure_storage_write n obj (Z.of_nat sizeof_store_object) s =
      Ret (if bool_decide (kv_find l (owner l n) = None) && (31 <=? length l)%nat then -1 else 0) s' /\
    junk s' = junk s /\
    in_session s' store' (if bool_decide (kv_find l (owner l n) = None) && (31 <=? length l)%nat then l else kv_insert l (owner l n) d).
Proof.
  intros Hs Hn Hob. unfold sunxi_secure_storage_write.
  assert (gets secure_storage_inited s = Ret true s) as E1 by (unfold gets; now rewrite (is_inited _ _ _ Hs)).
  rewrite (bind_Ret _ _ _ _ _ E1). cbn [negb].
  assert (gets secure_storage_map s = Ret (secure_storage_map s) s) as E2 by reflexivity.
  rewrite (bind_Ret _ _ _ _ _ E2).
  destruct (fill_is_map _ l n (is_mem _ _ _ Hs) Hn) as (buf' & -> & Hfull & Hmap).
  rewrite (bind_Ret _ _ _ _ _ (of_option_Some _ s)).
  set (s1 := with_map buf' s). assert (modify (with_map buf') s = Ret tt s1) as E3 by reflexivity.
  rewrite (bind_Ret _ _ _ _ _ E3).
  destruct (bool_decide (kv_find l (owner l n) = None) && (31 <=? length l)%nat) eqn:Ef.
  - apply andb_true_iff in Ef as [Hnone%bool_decide_eq_true Hl%Nat.leb_le]. rewrite Hnone, (proj2 (Nat.leb_le _ _) Hl).
    cbn [Z.ltb Z.compare]. exists s1, store. split; [reflexivity |]. split; [reflexivity |].
    assert (s1 = s) as -> by (unfold s1; rewrite (Hfull Hnone Hl); now destruct s). exact Hs.
  - assert (kv_find l (owner l n) = None -> (length l < 31)%nat) as Hroom.
    { intros Hnone. rewrite Hnone in Ef. rewrite bool_decide_eq_true_2 in Ef by reflexivity. cbn [andb] in Ef. now apply Nat.leb_gt in Ef. }
    specialize (Hmap d Hroom).
    set (i := match kv_find l (owner l n) with Some (j, _) => j | None => length l end).
    assert (match kv_find l (owner l n) with Some (j, _) => 1 + Z.of_nat j
      | None => if (31 <=? length l)%nat then -1 else 1 + Z.of_nat (length l) end = 1 + Z.of_nat i) as ->.
    { unfold i. destruct (kv_find l (owner l n)) as [[j ?] |]; [reflexivity |]. now rewrite (proj2 (Nat.leb_gt _ _) (Hroom eq_refl)). }
    rewrite (proj2 (Z.ltb_ge _ _)) by lia.
    assert (item_ok (1 + Z.of_nat i)) as Hi.
    { unfold item_ok, i, MAX_SECURE_STORAGE_MAX_ITEM. destruct (kv_find l (owner l n)) as [[j ?] |] eqn:Ej; [| specialize (Hroom eq_refl); lia].
      pose proof (kv_find_index l (owner l n) j _ _ (is_mem _ _ _ Hs) Ej) as Hij. unfold MAX_SECURE_STORAGE_MAX_ITEM in Hij. lia. }
    assert (nv_holds s1 store) as Hh1 by (apply (ext_holds s); [reflexivity | apply Hs]).
    assert (nv_selected s1) as Hs1 by (apply (ext_selected s); [reflexivity | apply Hs]).
    destruct (nv_write_law s1 store obj _ Hh1 Hs1 (ob_len _ _ Hob) Hi) as (s2 & E4 & Hh2 & Hs2 & Hlib).
    unfold lib_part in Hlib. injection Hlib as Lm Li Ld Lx Lj. cbn in Lm, Li, Ld, Lx, Lj.
    rewrite (bind_Ret _ _ _ _ _ E4). cbn [Z.eqb negb].
    eexists (with_dirty true s2), _. split; [reflexivity |]. split; [exact Lj |]. split; cbn; try discriminate.
    + apply (ext_holds s2); [reflexivity | exact Hh2].
    + apply (ext_selected s2); [reflexivity | exact Hs2].
    + rewrite Lx. apply Hs.
    + rewrite Li. apply Hs.
    + rewrite Lm. exact Hmap.
    + apply blocks_ok_insert; [apply Hs | exact Hob |]. unfold i. now destruct (kv_find l (owner l n)) as [[j ?] |].
Qed.

(** [sunxi_secure_object_write] in a session. *)
Lemma object_write_ok s store l n buffer len :
  in_session s store l -> wf_name n -> bytes_ok buffer ->
  0 <= len <= MAX_STORE_LEN -> len <= Z.of_nat (length buffer) ->
  (forall d, kv_lookup l n = Some d -> protected_image s d = false) ->
  let full := bool_decide (kv_find l (owner l n) = None) && (31 <=? length l)%nat in
  exists s' store', sunxi_secure_object_write n buffer len s = Ret (if full then -1 else 0) s' /\
    in_session s' store' (if full then l else kv_insert l (owner l n) (take (Z.to_nat len) buffer)) /\ junk s' = junk s.
Proof.
  intros Hs Hn Hb Hlen Hfit Hp full. unfold sunxi_secure_object_write.
  rewrite (bind_Ret _ _ _ _ _ (object_protected_ok s store l n Hs)).
  assert (match kv_lookup l n with Some d => protected_image s d | None => false end = false) as ->
    by (destruct (kv_lookup l n); auto).
  rewrite u32_id by (unfold MAX_STORE_LEN in Hlen; lia).
  destruct (wrap_secure_object_ok buffer n len zero_block) as (obj & -> & Hol & Hob & Hm & _ & Ha & Hc & Hd); auto.
  { apply cstr_ok_bytes, Hn. } { apply is_map_nil. }
  rewrite (bind_Ret _ _ _ _ _ (of_option_Some _ s)).
  assert ((0 <? 0) || (SZ <? default 0 (Some (Z.of_nat sizeof_store_object))) = false) as -> by reflexivity.
  assert (length (take (Z.to_nat len) buffer) = Z.to_nat len) as Hlt by (rewrite length_take; lia).
  destruct (storage_write_ok s store l n (take (Z.to_nat len) buffer) obj Hs Hn) as (s' & store' & E & Hj & Hs').
  - split; auto; rewrite ?Hlt; auto; lia.
  - exists s', store'. auto.
Qed.

(** ** Listing *)

Definition listing (l l' : kv) (i : Z) : list (Z * list Z * list Z) :=
  imap (fun k e => (i + Z.of_nat k, e.1, blit zero_block 0 (default [] (kv_lookup l e.1)))) l'.

Lemma kv_lookup_member (l : kv) e : e ∈ l -> exists d, kv_lookup l e.1 = Some d.
Proof.
  unfold kv_lookup. induction l as [| [n d] l IH]; intros He; [now apply not_elem_of_nil in He |]. cbn [kv_find].
  case_bool_decide as Hn; [eauto |]. apply elem_of_cons in He as [-> | He]; [now destruct Hn |].
  destruct (IH He) as [d' E]. destruct (kv_find l e.1) as [[j dj] |]; [eauto | discriminate].
Qed.

Lemma object_list_loop_ok s store l l' z fuel i out :
  in_session s store l -> (forall e, e ∈ l' -> e ∈ l) -> Forall wf_entry (map entry_of l') -> (length l' < fuel)%nat ->
  object_list_loop fuel (render (map entry_of l') ++ 0 :: z) i out s = Ret (None, out ++ listing l l' i) s.
Proof.
  intros Hs. revert fuel i out. induction l' as [| e l' IH]; intros [| fuel] i out Hin Hwf Hf; cbn [length] in Hf; try lia.
  - unfold listing. cbn. now rewrite app_nil_r.
  - cbn [map] in *. apply Forall_cons_1 in Hwf as [He Hwf]. rewrite render_cons, <- app_assoc.
    set (rest := render (map entry_of l') ++ 0 :: z) in *.
    destruct (render_entry_head (entry_of e) rest He) as (c & p & E & Hc).
    cbn [object_list_loop]. rewrite E. cbn [head]. rewrite (bind_Ret _ _ _ _ _ (of_option_Some _ s)).
    destruct (Z.eqb_spec c 0); [contradiction |]. rewrite <- E.
    pose proof He as [(Hn1 & Hn2 & Hn3) (Hl1 & Hl2 & Hl3)].
    rewrite render_entry_cons, scan_field_spec by (cbn [length Nat.add]; auto; lia). cbn [tail app].
    rewrite (bind_Ret _ _ _ _ _ (of_option_Some _ s)).
    destruct (Nat.leb_spec MAP_KEY_NAME_SIZE (length (e_name (entry_of e)))); [lia |].
    cbn [tail]. rewrite scan_field_spec by (cbn [length Nat.add]; auto). rewrite (bind_Ret _ _ _ _ _ (of_option_Some _ s)). cbn [app].
    destruct (Nat.leb_spec MAP_KEY_DATA_SIZE (length (e_len (entry_of e)))); [lia |].
    destruct (kv_lookup_member l e) as [d Hd]; [apply Hin; now left |].
    assert (sunxi_secure_object_read (e_name (entry_of e)) zero_block SZ s =
      Ret (0, blit zero_block 0 (default [] (kv_lookup l e.1)), Some (Z.of_nat (length d))) s) as Er.
    { change (e_name (entry_of e)) with e.1. rewrite (object_read_ok s store l) by
        (try assumption; intros d' Hd'; pose proof (in_session_max s store l _ _ Hs Hd') as Hmax; unfold MAX_STORE_LEN in Hmax;
         unfold zero_block; rewrite length_replicate; assert (Z.of_nat SEC_BLK_SIZE = 4096) by reflexivity; lia).
      now rewrite Hd. }
    rewrite (bind_Ret _ _ _ _ _ Er). cbn [Z.ltb Z.compare].
    rewrite <- render_entry_cons, strlen_render_entry by assumption. rewrite (bind_Ret _ _ _ _ _ (of_option_Some _ s)).
    rewrite drop_render_entry by assumption. rewrite IH; [| intros e' He'; apply Hin; now right | assumption | lia].
    rewrite <- app_assoc. unfold listing. cbn [imap]. do 3 f_equal. cbn [app].
    change (e_name (entry_of e)) with e.1. rewrite Z.add_0_r. f_equal. apply imap_ext. intros k e' _. cbn. do 2 f_equal. lia.
Qed.

Lemma object_list_ok s store l :
  at_rest s store l -> exists s' store', sunxi_secure_object_list s = Ret (0, listing l l 1) s' /\ at_rest s' store' l.
Proof.
  intros Hr. destruct (init_ok s store l Hr) as (s1 & E1 & Hs1 & _).
  destruct (exit_ok s1 store l Hs1) as (s2 & store2 & E2 & Hr2 & _). exists s2, store2. split; [| exact Hr2].
  unfold sunxi_secure_object_list. rewrite (bind_Ret _ _ _ _ _ E1). cbn [Z.eqb negb].
  assert (gets secure_storage_map s1 = Ret (secure_storage_map s1) s1) as E3 by reflexivity.
  rewrite (bind_Ret _ _ _ _ _ E3). pose proof (is_mem _ _ _ Hs1) as Hmem.
  pose proof (is_map_fuel _ _ Hmem) as Hf. rewrite length_map in Hf.
  set (fuel := S (length (secure_storage_map s1))) in *. clearbody fuel.
  destruct (is_map_split _ _ Hmem) as (k & z & E & _).
  assert (object_list_loop fuel (secure_storage_map s1) 1 [] s1 = Ret (None, listing l l 1) s1) as E4.
  { rewrite E. change (replicate (S k) 0 ++ z) with (0 :: replicate k 0 ++ z).
    now rewrite (object_list_loop_ok s1 store l) by (auto; apply Hmem). }
  rewrite (bind_Ret _ _ _ _ _ E4), (bind_Ret _ _ _ _ _ E2). reflexivity.
Qed.

End Sessions.

Lemma strncpy_from_ok buf n copy :
  strncpy_from buf n = Some copy -> bytes_ok buf -> 0 <= n /\ Z.of_nat (length copy) = n /\ bytes_ok copy.
Proof.
  unfold strncpy_from. destruct (Z.ltb_spec n 0); [discriminate |]. intros H1 Hb.
  destruct (cstring (take (Z.to_nat n) buf)) as [str |] eqn:Ec.
  - injection H1 as <-. rewrite length_strncpy. split; [lia | split; [lia |]]. apply strncpy_bytes.
    unfold cstring in Ec. destruct (strlen _); [| discriminate]. injection Ec as <-. auto with s2l.
  - destruct (Nat.leb_spec (Z.to_nat n) (length buf)); [| discriminate]. injection H1 as <-.
    rewrite length_take. split; [lia | split; [lia |]]. auto with s2l.
Qed.

(** A name as long as the name array fills it. *)
Lemma scan_field_long rest q acc :
  (length acc <= MAP_KEY_NAME_SIZE)%nat -> cstr_ok q -> ~ 58 ∈ q -> (MAP_KEY_NAME_SIZE <= length acc + length q)%nat ->
  exists q' acc', scan_field 58 MAP_KEY_NAME_SIZE (q ++ 58 :: rest) acc = Some (q', acc') /\ length acc' = MAP_KEY_NAME_SIZE.
Proof.
  revert acc. induction q as [| c q IH]; intros acc Ha Hq Hn Hlen; cbn [app scan_field].
  - cbn [length] in Hlen. assert (length acc = MAP_KEY_NAME_SIZE) as E by lia. cbn [Z.eqb Pos.eqb negb andb]. eauto.
  - apply Forall_cons_1 in Hq as [Hc0 Hq]. apply not_elem_of_cons in Hn as [Hn0 Hn].
    destruct (Z.eqb_spec c 58); [congruence |]. destruct (Z.eqb_spec c 0); [lia |]. cbn [negb andb].
    destruct (Nat.ltb_spec (length acc) MAP_KEY_NAME_SIZE).
    + apply IH; auto; rewrite length_app; cbn [length] in *; lia.
    + do 2 eexists. split; [reflexivity | lia].
Qed.

(** ** Properties *)
Section Properties.
Context `{NvStore}.

(** The outcome of storing [d] as [n]: refused when [n] is new and 31 names are
    stored, otherwise the specification's insertion under the owner of [n]. *)
Definition store_result (l : kv) (n d : list Z) : Z * kv :=
  if bool_decide (kv_find l (owner l n) = None) && (31 <=? length l)%nat then (-1, l) else (0, kv_insert l (owner l n) d).

Lemma data_write_ok s store l n buffer len copy :
  at_rest s store l -> wf_name n -> bytes_ok buffer ->
  len <= MAX_STORE_LEN -> strncpy_from buffer len = Some copy ->
  (forall d, kv_lookup l n = Some d -> protected_image s d = false) ->
  exists s' store', secure_data_write (Some n) (Some buffer) len s = Ret (store_result l n copy).1 s' /\
    at_rest s' store' (store_result l n copy).2 /\ junk s' = junk s.
Proof.
  intros Hr Hn Hb Hlen Hcp Hp. unfold secure_data_write, store_result. unfold MAX_STORE_LEN in Hlen.
  destruct (strncpy_from_ok _ _ _ Hcp Hb) as (H0' & Hlc & Hbc).
  assert (SZ = 4096) as Esz by reflexivity. rewrite (proj2 (Z.ltb_ge SZ len)) by lia.
  rewrite Hcp, (bind_Ret _ _ _ _ _ (of_option_Some _ s)).
  destruct (support_ok s store l Hr) as (s1 & store1 & E1 & Hr1 & Hj1). rewrite (bind_Ret _ _ _ _ _ E1). cbn [Z.eqb].
  destruct (init_ok s1 store1 l Hr1) as (s2 & E2 & Hs2 & _ & Hj2). rewrite (bind_Ret _ _ _ _ _ E2). cbn [Z.ltb Z.compare].
  set (bak := blit zero_block 0 copy).
  assert (length bak = SEC_BLK_SIZE) as Hlb.
  { unfold bak. unfold SZ in Esz. rewrite length_blit; unfold zero_block; rewrite length_replicate; lia. }
  assert (bytes_ok bak) as Hbb by (apply blit_bytes_ok; [apply is_map_nil | assumption]).
  assert (take (Z.to_nat len) bak = copy) as Htk.
  { unfold bak, blit. rewrite take_0, app_nil_l. replace (Z.to_nat len) with (length copy) by lia. apply take_app_length. }
  destruct (object_write_ok s2 store1 l n bak len Hs2 Hn Hbb) as (s3 & store3 & E3 & Hs3 & Hj3).
  { unfold MAX_STORE_LEN. lia. } { unfold SZ in Esz. lia. }
  { intros d Hd. unfold protected_image. rewrite Hj2, Hj1. now apply Hp. }
  rewrite (bind_Ret _ _ _ _ _ E3). rewrite Htk in Hs3.
  destruct (exit_ok s3 store3 _ Hs3) as (s4 & store4 & E4 & Hr4 & Hj4). exists s4, store4.
  destruct (bool_decide (kv_find l (owner l n) = None) && (31 <=? length l)%nat); cbn [Z.ltb Z.compare fst snd];
    rewrite (bind_Ret _ _ _ _ _ E4); (split; [reflexivity | split; [exact Hr4 | congruence]]).
Qed.

Lemma data_read_ok s store l n buffer len :
  at_rest s store l -> (forall d, kv_lookup l n = Some d -> (length d <= length buffer)%nat) ->
  exists s' store', secure_data_read n buffer len s =
    Ret (match kv_lookup l n with
         | Some d => (0, blit buffer 0 d, Some (Z.of_nat (length d)))
         | None => (0, buffer, None)
         end) s' /\ at_rest s' store' l /\ junk s' = junk s.
Proof.
  intros Hr Hfit. unfold secure_data_read.
  destruct (support_ok s store l Hr) as (s1 & store1 & E1 & Hr1 & Hj1). rewrite (bind_Ret _ _ _ _ _ E1). cbn [Z.eqb].
  destruct (init_ok s1 store1 l Hr1) as (s2 & E2 & Hs2 & _ & Hj2). rewrite (bind_Ret _ _ _ _ _ E2). cbn [Z.ltb Z.compare].
  rewrite (bind_Ret _ _ _ _ _ (object_read_ok s2 store1 l n buffer len Hs2 Hfit)).
  destruct (exit_ok s2 store1 _ Hs2) as (s4 & store4 & E4 & Hr4 & Hj4). exists s4, store4.
  destruct (kv_lookup l n) as [d |]; cbn [Z.ltb Z.compare]; rewrite (bind_Ret _ _ _ _ _ E4);
    (split; [reflexivity | split; [exact Hr4 | congruence]]).
Qed.

(** C1: [secure_data_write] as [n] and then [secure_data_read] of any name [t],
    through the device and two sessions.  The data is stored under the owner of
    [n]: the first stored name that is a prefix of [n], which is [n] itself unless
    another stored name is a prefix of it.  The owner reads back what [strncpy] copied
    and its length; every other name reads as before (of a new [n] that has another
    owner nothing is found).  The device is at rest and nothing fails; the item
    stored as [n], if there is one, is not a protected image; the length is at most
    [MAX_STORE_LEN]; and fewer than 31 names are stored when [n] is new. *)
Theorem data_write_then_read (s : st) (store : Z -> list Z) (l : kv) (n t buffer out copy : list Z) (len blen : Z) :
  at_rest s store l -> wf_name n -> bytes_ok buffer ->
  len <= MAX_STORE_LEN -> strncpy_from buffer len = Some copy ->
  (forall d, kv_lookup l n = Some d -> protected_image s d = false) ->
  (kv_find l (owner l n) = None -> (length l < 31)%nat) -> Z.of_nat (length out) = MAX_STORE_LEN ->
  exists s1 s2 store2, secure_data_write (Some n) (Some buffer) len s = Ret 0 s1 /\
    secure_data_read t out blen s1 = Ret
      (match (if bool_decide (t = owner l n) then Some copy else kv_lookup l t) with
       | Some d => (0, blit out 0 d, Some (Z.of_nat (length d)))
       | None => (0, out, None)
       end) s2 /\
    at_rest s2 store2 (kv_insert l (owner l n) copy).
Proof.
  intros Hr Hn Hb Hlen Hcp Hp Hroom Hout.
  destruct (data_write_ok s store l n buffer len copy Hr Hn Hb Hlen Hcp Hp) as (s1 & store1 & E1 & Hr1 & _).
  assert (store_result l n copy = (0, kv_insert l (owner l n) copy)) as Hres.
  { unfold store_result. case_bool_decide as Hk; [| reflexivity].
    specialize (Hroom Hk). now rewrite (proj2 (Nat.leb_gt _ _) Hroom). }
  rewrite Hres in E1, Hr1. cbn [fst snd] in E1, Hr1.
  destruct (data_read_ok s1 store1 _ t out blen Hr1) as (s2 & store2 & E2 & Hr2 & _).
  { intros d Hd. destruct (init_ok s1 store1 _ Hr1) as (s3 & _ & Hs3 & _). pose proof (in_session_max _ _ _ _ _ Hs3 Hd). lia. }
  rewrite kv_lookup_insert in E2. exists s1, s2, store2. auto.
Qed.

(** C2: [secure_data_write] refines the insertion into an ordered map: the new
    contents are those of [kv_insert] under the owner of the name (the first
    stored name that is a prefix of it, or the name itself), or the call returns
    -1 and nothing changes when the name is new and 31 names are stored.  The
    device is at rest and nothing fails, the length is at most [MAX_STORE_LEN],
    and an item stored under the very name is not a protected image. *)
Theorem data_write_refines (s : st) (store : Z -> list Z) (l : kv) (n buffer copy : list Z) (len : Z) :
  at_rest s store l -> wf_name n -> bytes_ok buffer ->
  len <= MAX_STORE_LEN -> strncpy_from buffer len = Some copy ->
  (forall d, kv_lookup l n = Some d -> protected_image s d = false) ->
  exists s' store', secure_data_write (Some n) (Some buffer) len s = Ret (store_result l n copy).1 s' /\
    at_rest s' store' (store_result l n copy).2.
Proof.
  intros Hr Hn Hb Hlen Hcp Hp.
  destruct (data_write_ok s store l n buffer len copy Hr Hn Hb Hlen Hcp Hp) as (s1 & store1 & E1 & Hr1 & _). eauto.
Qed.

(** A read of a name that is not stored reports success: [secure_data_read]
    returns 0 with the buffer untouched and [*data_len] not set. *)
Theorem data_read_missing_succeeds (s : st) (store : Z -> list Z) (l : kv) (n buffer : list Z) (len : Z) :
  at_rest s store l -> kv_lookup l n = None ->
  exists s' store', secure_data_read n buffer len s = Ret (0, buffer, None) s' /\ at_rest s' store' l.
Proof.
  intros Hr Hn. destruct (data_read_ok s store l n buffer len Hr) as (s' & store' & E & Hr' & _).
  - intros d. now rewrite Hn.
  - rewrite Hn in E. eauto.
Qed.

(** [sunxi_secure_object_list] lists every stored object, in order, with its
    data, and ends the session. *)
Theorem object_list_lists (s : st) (store : Z -> list Z) (l : kv) :
  at_rest s store l ->
  exists s' store', sunxi_secure_object_list s =
    Ret (0, imap (fun k e => (1 + Z.of_nat k, e.1, blit zero_block 0 (default [] (kv_lookup l e.1)))) l) s' /\
    at_rest s' store' l.
Proof. apply object_list_ok. Qed.

(** [sunxi_secure_object_erase] empties the key box. *)
Theorem object_erase_empties (s : st) (store : Z -> list Z) (l : kv) :
  at_rest s store l ->
  exists s' store', sunxi_secure_object_erase s = Ret 0 s' /\ at_rest s' store' [].
Proof.
  intros Hr. destruct (init_ok s store l Hr) as (s1 & E1 & Hs1 & _).
  set (s2 := with_dirty true (with_map zero_block s1)).
  assert (in_session s2 store []) as Hs2.
  { split; cbn; try discriminate.
    - apply (ext_holds s1); [reflexivity | apply Hs1].
    - apply (ext_selected s1); [reflexivity | apply Hs1].
    - apply Hs1.
    - apply Hs1.
    - apply is_map_nil. }
  destruct (exit_ok s2 store [] Hs2) as (s3 & store3 & E3 & Hr3 & _).
  exists s3, store3. split; [| exact Hr3].
  unfold sunxi_secure_object_erase. rewrite (bind_Ret _ _ _ _ _ E1). cbn [Z.eqb negb].
  change ((ret ← sunxi_secure_storage_exit 0; if negb (ret =? 0) then mret (-1) else mret 0) s2 = Ret 0 s3).
  rewrite (bind_Ret _ _ _ _ _ E3). reflexivity.
Qed.

(** An error of [sunxi_secure_object_list] leaves the mutex locked: with a
    stored name of 64 bytes or more (which [fill_name_in_map] accepts) the list
    returns -1 and the next [sunxi_secure_storage_init] never returns. *)
Theorem list_error_deadlocks (s : st) (store : Z -> list Z) (name rest : list Z) :
  nv_holds s store -> sec_mutex s = false -> secure_storage_inited s = false ->
  length (secure_storage_map s) = SEC_BLK_SIZE ->
  check_secure_storage_map (store 0) = 0 -> store 0 = name ++ 58 :: rest ->
  cstr_ok name -> ~ 58 ∈ name -> (MAP_KEY_NAME_SIZE <= length name)%nat ->
  exists s', sunxi_secure_object_list s = Ret (-1, []) s' /\ sunxi_secure_storage_init s' = Deadlock.
Proof.
  intros Hh Hm Hi Hl Hck Hst Hc H58 Hlong.
  destruct (init_loads s store Hh Hm Hi Hl) as (s1 & E1 & _ & _ & Hlib). unfold lib_part in Hlib. injection Hlib as Lm Li Ld Lx Lj.
  exists s1. split.
  - unfold sunxi_secure_object_list. rewrite (bind_Ret _ _ _ _ _ E1). cbn [Z.eqb negb].
    assert (gets secure_storage_map s1 = Ret (store 0) s1) as E2.
    { unfold gets. rewrite Lm. unfold map_loaded. now rewrite Hck. }
    rewrite (bind_Ret _ _ _ _ _ E2). rewrite Hst.
    destruct (scan_field_long rest name []) as (q' & acc' & Es & Hacc); [cbn; lia | assumption | assumption | exact Hlong |].
    assert (object_list_loop (S (length (name ++ 58 :: rest))) (name ++ 58 :: rest) 1 [] s1 = Ret (Some (-1), []) s1) as E3.
    { cbn [object_list_loop]. rewrite Es. destruct name as [| c name]; [cbn in Hlong; unfold MAP_KEY_NAME_SIZE in Hlong; lia |].
      cbn [app head]. rewrite (bind_Ret _ _ _ _ _ (of_option_Some _ s1)).
      apply Forall_cons_1 in Hc as [Hc0 _]. destruct (Z.eqb_spec c 0); [lia |].
      rewrite (bind_Ret _ _ _ _ _ (of_option_Some _ s1)). now rewrite Hacc, Nat.leb_refl. }
    rewrite (bind_Ret _ _ _ _ _ E3). reflexivity.
  - unfold sunxi_secure_storage_init, mbind, M_bind, pthread_mutex_lock. now rewrite Lx.
Qed.

End Properties.

(** On a device booted from eMMC by "root=/dev/mmcblk..." the flash type is
    one that no access function knows: every [secure_data_write] reports success
    and stores nothing. *)
Theorem emmc_write_lost `{Driver} (s : st) (text v n buffer copy : list Z) (len : Z) :
  faults s = [] -> sec_mutex s = false -> secure_storage_inited s = false -> cmdline s = Some text ->
  skip_delim 32 (fgets 1023 text) <> [] ->
  find_key (S (length (fgets 1023 text))) str_boot_type (fgets 1023 text) = None ->
  find_key (S (length (fgets 1023 text))) str_root (fgets 1023 text) = Some (Some v) ->
  root_type_of (strncpy v 20) = FLASH_TYPE_EMMC3 ->
  len <= SZ -> strncpy_from buffer len = Some copy ->
  exists s', secure_data_write (Some n) (Some buffer) len s = Ret 0 s' /\ card s' = card s /\ drv s' = drv s.
Proof.
  intros Hf Hm Hi Hc Hne Hb Hr Ht Hlen Hcp.
  set (s1 := with_flash FLASH_TYPE_UNKNOW (with_mutex true s)).
  assert (forall key k, find_key (S (length (fgets 1023 text))) key (fgets 1023 text) = k ->
    (forall o, k = Some o -> is_Some o) ->
    getInfoFromCmdline key 20 s1 = Ret ((fun v => strncpy v 20) <$> mjoin k) s1 /\
    (k = None -> getInfoFromCmdline key 10 s1 = Ret None s1)) as Hget.
  { intros key k Hk Hsome. unfold getInfoFromCmdline.
    assert (gets cmdline s1 = Ret (Some text) s1) as E by (unfold gets; now rewrite <- Hc).
    rewrite !(bind_Ret _ _ _ _ _ (try_call_quiet s1 Hf)), !(bind_Ret _ _ _ _ _ E). cbn [negb].
    rewrite bool_decide_eq_false_2 by assumption. rewrite Hk.
    destruct k as [[w |] |]; [split; [reflexivity | discriminate] | destruct (Hsome None eq_refl); discriminate | auto]. }
  set (s2 := with_flash FLASH_TYPE_EMMC3 s1).
  assert (get_flash_type (with_mutex true s) = Ret FLASH_TYPE_EMMC3 s2) as Eft.
  { unfold get_flash_type. assert (modify (with_flash FLASH_TYPE_UNKNOW) (with_mutex true s) = Ret tt s1) as E by reflexivity.
    rewrite (bind_Ret _ _ _ _ _ E).
    destruct (Hget str_boot_type None Hb ltac:(discriminate)) as [_ E2]. rewrite (bind_Ret _ _ _ _ _ (E2 eq_refl)).
    destruct (Hget str_root (Some (Some v)) Hr ltac:(intros o [= <-]; eauto)) as [E3 _].
    rewrite (bind_Ret _ _ _ _ _ E3). cbn [mjoin option_join fmap option_fmap option_map]. now rewrite Ht. }
  assert (exists s', sunxi_secure_storage_init s = Ret (-1) s' /\ card s' = card s /\ drv s' = drv s) as (s' & E1 & E2 & E3).
  { unfold sunxi_secure_storage_init.
    assert (pthread_mutex_lock s = Ret tt (with_mutex true s)) as E by (unfold pthread_mutex_lock; now rewrite Hm).
    rewrite (bind_Ret _ _ _ _ _ E).
    assert (gets secure_storage_inited (with_mutex true s) = Ret false (with_mutex true s)) as E0 by (unfold gets; cbn; now rewrite Hi).
    rewrite (bind_Ret _ _ _ _ _ E0). cbn [negb]. rewrite (bind_Ret _ _ _ _ _ Eft).
    unfold __is_use_sst_ctl, gets, mbind, M_bind.
    destruct (has_sst s2); eexists; (split; [reflexivity | split; reflexivity]). }
  exists s'. split; [| split; assumption]. unfold secure_data_write. rewrite (proj2 (Z.ltb_ge SZ len)) by lia.
  rewrite Hcp. assert (of_option (Some copy) s = Ret copy s) as E by reflexivity. rewrite (bind_Ret _ _ _ _ _ E).
  assert (secure_storage_support s = Ret (-1) s') as Es by (unfold secure_storage_support; now rewrite (bind_Ret _ _ _ _ _ E1)).
  rewrite (bind_Ret _ _ _ _ _ Es). reflexivity.
Qed.

(** ** Witnesses *)

#[export] Existing Instance null_driver.
#[export] Existing Instance sd_store.

Lemma card_bytes_zero off n : card_bytes (fun _ => 0) off n = replicate n 0.
Proof.
  unfold card_bytes. generalize 0%nat. induction n as [| n IH]; intros k; [reflexivity |].
  cbn [seq map replicate]. f_equal. apply IH.
Qed.

(** An erased card is an empty key box. *)
Lemma ex_rest : at_rest (ex_st (fun _ => 0) []) (fun _ => zero_block) [].
Proof.
  split.
  - split.
    + reflexivity.
    + apply ex_fits.
    + split; [discriminate | now right].
    + reflexivity.
    + cbn [junk ex_st]. rewrite length_replicate. lia.
    + intros id _. unfold copy0, copy1. cbn [card ex_st]. rewrite !card_bytes_zero. now split.
  - reflexivity.
  - reflexivity.
  - reflexivity.
  - apply length_replicate.
  - assert (map_loaded zero_block = zero_block) as -> by (vm_compute; reflexivity). apply is_map_nil.
  - intros i n d Hl. now rewrite lookup_nil in Hl.
Qed.

(** A card that holds one good block. *)
Lemma ex_holds id blk :
  item_ok id -> length blk = SEC_BLK_SIZE -> sd_holds (ex_st (ex_card id blk) []) (upd (fun _ => zero_block) id blk).
Proof.
  intros Hi Hl. split.
  - reflexivity.
  - apply ex_fits.
  - split; [discriminate | now right].
  - reflexivity.
  - cbn [junk ex_st]. rewrite length_replicate. lia.
  - intros id' _. unfold upd. destruct (Z.eqb_spec id' id) as [-> | Hne]; [now apply ex_card_copies |].
    destruct (offsets_eq id) as [E0 E1], (offsets_eq id') as [E0' E1'].
    assert (Z.of_nat SEC_BLK_SIZE = 4096) as Es by reflexivity.
    unfold copy0, copy1, ex_card. cbn [card ex_st].
    rewrite !card_bytes_update_disjoint by lia. rewrite !card_bytes_zero. now split.
Qed.

(** What is written as "SN1" goes to "SN" when that is stored. *)
Example serial_captured : owner [([83; 78], [])] [83; 78; 49] = [83; 78].
Proof. reflexivity. Qed.

Lemma data_write_then_read_witness :
  exists s1 s2, secure_data_write (Some [107; 101; 121]) (Some [1; 2; 3]) 3 (ex_st (fun _ => 0) []) = Ret 0 s1 /\
    secure_data_read [107; 101; 121] (replicate (Z.to_nat 3072) 9) 3072 s1 =
      Ret (0, blit (replicate (Z.to_nat 3072) 9) 0 [1; 2; 3], Some 3) s2.
Proof.
  destruct (data_write_then_read (ex_st (fun _ => 0) []) (fun _ => zero_block) [] [107; 101; 121] [107; 101; 121]
    [1; 2; 3] (replicate (Z.to_nat 3072) 9) [1; 2; 3] 3 3072) as (s1 & s2 & store2 & E1 & E2 & _).
  - apply ex_rest.
  - by_compute.
  - by_compute.
  - unfold MAX_STORE_LEN. lia.
  - reflexivity.
  - discriminate.
  - intros _. simpl. lia.
  - rewrite length_replicate. unfold MAX_STORE_LEN. lia.
  - exists s1, s2. split; [exact E1 | exact E2].
Defined.

Lemma data_write_refines_witness :
  exists s' store', secure_data_write (Some [107; 101; 121]) (Some [1; 0; 3]) 3 (ex_st (fun _ => 0) []) = Ret 0 s' /\
    at_rest s' store' [([107; 101; 121], [1; 0; 0])].
Proof.
  apply (data_write_refines (ex_st (fun _ => 0) []) (fun _ => zero_block) [] [107; 101; 121] [1; 0; 3] [1; 0; 0] 3).
  - apply ex_rest.
  - by_compute.
  - by_compute.
  - unfold MAX_STORE_LEN. lia.
  - reflexivity.
  - discriminate.
Defined.

Lemma data_read_missing_succeeds_witness :
  exists s' store', secure_data_read [107] [9; 9] 2 (ex_st (fun _ => 0) []) = Ret (0, [9; 9], None) s' /\
    at_rest s' store' [].
Proof. apply (data_read_missing_succeeds _ (fun _ => zero_block)); [apply ex_rest | reflexivity]. Defined.

Lemma object_list_lists_witness :
  exists s' store', sunxi_secure_object_list (ex_st (fun _ => 0) []) = Ret (0, []) s' /\ at_rest s' store' [].
Proof. apply (object_list_lists (ex_st (fun _ => 0) []) (fun _ => zero_block) []). apply ex_rest. Defined.

Lemma object_erase_empties_witness :
  exists s' store', sunxi_secure_object_erase (ex_st (fun _ => 0) []) = Ret 0 s' /\ at_rest s' store' [].
Proof. apply (object_erase_empties (ex_st (fun _ => 0) []) (fun _ => zero_block) []). apply ex_rest. Defined.

Definition ex_long_map : list Z := seal_map (replicate 64 97 ++ 58 :: replicate (SEC_BLK_SIZE - 65) 0).

Lemma list_error_deadlocks_witness :
  exists s', sunxi_secure_object_list (ex_st (ex_card 0 ex_long_map) []) = Ret (-1, []) s' /\
    sunxi_secure_storage_init s' = Deadlock.
Proof.
  assert (Z.of_nat SEC_BLK_SIZE = 4096 /\ Z.of_nat MAP_magic = 4088) as [Es Em] by now split.
  set (m := replicate 64 97 ++ 58 :: replicate (SEC_BLK_SIZE - 65) 0).
  assert (length m = SEC_BLK_SIZE) as Hl.
  { unfold m. rewrite length_app. cbn [length]. rewrite !length_replicate. lia. }
  assert (bytes_ok m) as Hb.
  { unfold m. apply Forall_app; split; [| apply Forall_cons_2]; try (apply Forall_replicate); unfold byte_ok; lia. }
  destruct (seal_map_ok m Hb Hl) as (Hc & Hl' & _ & Ht).
  apply (list_error_deadlocks _ (upd (fun _ => zero_block) 0 ex_long_map) (replicate 64 97) (drop 65 ex_long_map)).
  - apply ex_holds; [unfold item_ok, MAX_SECURE_STORAGE_MAX_ITEM; lia | exact Hl'].
  - reflexivity.
  - reflexivity.
  - apply length_replicate.
  - exact Hc.
  - unfold upd. cbn [Z.eqb]. rewrite <- (take_drop 65 ex_long_map) at 1.
    assert (take 65 ex_long_map = replicate 64 97 ++ [58]) as ->; [| rewrite <- app_assoc; reflexivity].
    assert (take 65 (take MAP_magic (seal_map m)) = take 65 (take MAP_magic m)) as E by now rewrite Ht.
    rewrite !take_take, Nat.min_l in E by lia. exact E.
  - by_compute.
  - by_compute.
  - rewrite length_replicate. unfold MAP_KEY_NAME_SIZE. lia.
Defined.

(** "root=/dev/mmcblk0p5" *)
Definition ex_root : list Z := [114; 111; 111; 116; 61; 47; 100; 101; 118; 47; 109; 109; 99; 98; 108; 107; 48; 112; 53; 10].

Lemma emmc_write_lost_witness :
  let s := @St null_driver (fun _ => 0) (8 * 1024 * 1024) [] tt (Some ex_root) false false false [] false
    FLASH_TYPE_UNKNOW zero_block false false false in
  exists s', secure_data_write (Some [107]) (Some [1; 2; 3]) 3 s = Ret 0 s' /\ card s' = card s /\ drv s' = drv s.
Proof.
  intros s. apply (emmc_write_lost s ex_root (drop 5 ex_root) [107] [1; 2; 3] [1; 2; 3] 3); try reflexivity; discriminate.
Defined.
