(* ===== verification/CircleBuf.v ===== *)
(** * CircleBuf: the audio ring buffer of smartva

    Models [smartva/src/common/middle/circle_buf/circle_buf.c].  A pointer into
    the buffer is its offset from [pStart]; sizes are [unsigned int].  A copy
    outside a buffer and a misuse of the mutex are [None].  The sequential
    operations implement a bounded byte queue.  A second part splits
    [CircleBufRead] and [CircleBufWrite] at every unlocked load of the size the
    other thread changes: one reader and one writer keep the ring a queue as long
    as no copy leaves the ring, and a copy leaves it exactly when the size that
    was loaded again after the comparison runs past the end of the ring
    ([spsc_fifo], [reader_can_overrun]). *)
From S2P Require Import Prelude.

Inductive mutex := Unlocked | Locked.

(** [__audio_dev_buf_manager_t] with the memory [pStart] points to; [None]
    when [pStart] is NULL. *)
Record cbuf := CBuf {
  pStart : option (list Z);
  uTotalSize : Z;
  uBufSize : Z;
  pRdPtr : Z;
  pWrPtr : Z;
  uDataSize : Z;
  uFreeSize : Z;
}.

Definition cbuf_zero : cbuf := CBuf None 0 0 0 0 0 0.

(** [pthread_mutex_init]: undefined on a locked mutex. *)
Definition mutex_init (m : mutex) : option mutex :=
  match m with Unlocked => Some Unlocked | Locked => None end.

(** [CircleBufCreate]; [mem] is what [malloc(size)] returns. *)
Definition CircleBufCreate (m : mutex) (buf_par : option cbuf) (size : Z) (mem : option (list Z))
  : option (Z * option cbuf * mutex) :=
  match buf_par with
  | None => Some (-1, None, m)
  | Some c =>
      if size =? 0 then Some (-1, Some c, m)
      else
        match mem with
        | None => Some (-1, Some cbuf_zero, m)
        | Some a =>
            match mutex_init m with
            | Some m' => Some (0, Some (CBuf (Some a) size size 0 0 0 size), m')
            | None => None
            end
        end
  end.

Definition CircleBufDestroy (buf_par : option cbuf) : Z * option cbuf :=
  match buf_par with
  | None => (-1, None)
  | Some c => (0, Some cbuf_zero)
  end.

(** The two segments, pointer and size of each, of the [n] bytes from [ptr] on,
    in the branch that the comparison with the end of the ring has chosen. *)
Definition segments_branch (c : cbuf) (wraps : bool) (ptr n : Z) : (Z * Z) * (Z * Z) :=
  if wraps
  then ((ptr, u32 (uBufSize c - ptr)), (0, u32 (n - u32 (uBufSize c - ptr))))
  else ((ptr, n), (ptr + n, 0)).

(** The segments when the comparison and the branch see the same size, as they
    do when no other thread runs. *)
Definition segments (c : cbuf) (ptr n : Z) : (Z * Z) * (Z * Z) :=
  segments_branch c (uBufSize c <? ptr + n) ptr n.

Definition slice (mem : list Z) (p n : Z) : list Z := bytes_at mem (Z.to_nat p) (Z.to_nat n).

(** A slice that lies inside the memory. *)
Definition in_range (mem : list Z) (p n : Z) : bool := (0 <=? p) && (0 <=? n) && (p + n <=? Z.of_nat (length mem)).

(** [memcpy] from the segments into the caller's buffer: the bytes copied. *)
Definition copy_out (mem : list Z) (seg : (Z * Z) * (Z * Z)) (size : Z) : option (list Z) :=
  let '((p0, s0), (p1, s1)) := seg in
  if size <=? u32 (s0 + s1) then
    if size <=? s0 then (if in_range mem p0 size then Some (slice mem p0 size) else None)
    else if in_range mem p0 s0 && in_range mem p1 (size - s0)
         then Some (slice mem p0 s0 ++ slice mem p1 (size - s0)) else None
  else if in_range mem p0 s0 && in_range mem p1 s1
       then Some (slice mem p0 s0 ++ slice mem p1 s1) else None.

(** [memcpy] from the caller's buffer into the segments: the new memory. *)
Definition copy_in (mem : list Z) (seg : (Z * Z) * (Z * Z)) (buf : list Z) (size : Z) : option (list Z) :=
  let '((p0, s0), (p1, s1)) := seg in
  if size <=? u32 (s0 + s1) then
    if size <=? s0 then
      if in_range mem p0 size && in_range buf 0 size then Some (blit mem (Z.to_nat p0) (slice buf 0 size)) else None
    else if in_range mem p0 s0 && in_range mem p1 (size - s0) && in_range buf 0 size
         then Some (blit (blit mem (Z.to_nat p0) (slice buf 0 s0)) (Z.to_nat p1) (slice buf s0 (size - s0))) else None
  else if in_range mem p0 s0 && in_range mem p1 s1 && in_range buf 0 (s0 + s1)
       then Some (blit (blit mem (Z.to_nat p0) (slice buf 0 s0)) (Z.to_nat p1) (slice buf s0 s1)) else None.

(** The bytes the call moves: [result]. *)
Definition moved_size (seg : (Z * Z) * (Z * Z)) (size : Z) : Z :=
  let '((_, s0), (_, s1)) := seg in if size <=? u32 (s0 + s1) then size else u32 (s0 + s1).

Definition wrap_ptr (c : cbuf) (p : Z) : Z := if uBufSize c <=? p then p - uBufSize c else p.

(** The locked updates at the end of a read and of a write. *)
Definition commit_read (c : cbuf) (n : Z) : cbuf :=
  CBuf (pStart c) (uTotalSize c) (uBufSize c) (wrap_ptr c (pRdPtr c + n)) (pWrPtr c)
    (u32 (uDataSize c - n)) (u32 (uFreeSize c + n)).

Definition commit_write (c : cbuf) (n : Z) : cbuf :=
  CBuf (pStart c) (uTotalSize c) (uBufSize c) (pRdPtr c) (wrap_ptr c (pWrPtr c + n))
    (u32 (uDataSize c + n)) (u32 (uFreeSize c - n)).

Definition with_mem (c : cbuf) (mem : list Z) : cbuf :=
  CBuf (Some mem) (uTotalSize c) (uBufSize c) (pRdPtr c) (pWrPtr c) (uDataSize c) (uFreeSize c).

(** [CircleBufRead]: the result, the caller's buffer and the ring. *)
Definition CircleBufRead (buf_par : option cbuf) (buf : option (list Z)) (size : Z)
  : option (Z * option (list Z) * option cbuf) :=
  match buf_par, buf with
  | Some c, Some b =>
      if size =? 0 then Some (0, buf, buf_par)
      else if uDataSize c =? 0 then Some (0, buf, buf_par)
      else
        match pStart c with
        | None => None
        | Some mem =>
            let seg := segments c (pRdPtr c) (uDataSize c) in
            match copy_out mem seg size with
            | None => None
            | Some bytes =>
                if (length bytes <=? length b)%nat
                then Some (moved_size seg size, Some (blit b 0 bytes), Some (commit_read c (moved_size seg size)))
                else None
            end
        end
  | _, _ => Some (0, buf, buf_par)
  end.

(** [CircleBufReadZero]: as [CircleBufRead], and what was copied is cleared. *)
Definition CircleBufReadZero (buf_par : option cbuf) (buf : option (list Z)) (size : Z)
  : option (Z * option (list Z) * option cbuf) :=
  match buf_par, buf with
  | Some c, Some b =>
      if size =? 0 then Some (0, buf, buf_par)
      else if uDataSize c =? 0 then Some (0, buf, buf_par)
      else
        match pStart c with
        | None => None
        | Some mem =>
            let seg := segments c (pRdPtr c) (uDataSize c) in
            match copy_out mem seg size with
            | None => None
            | Some bytes =>
                if (length bytes <=? length b)%nat
                then Some (moved_size seg size, Some (blit b 0 (replicate (length bytes) 0)),
                           Some (commit_read c (moved_size seg size)))
                else None
            end
        end
  | _, _ => Some (0, buf, buf_par)
  end.

Definition CircleBufWrite (buf_par : option cbuf) (buf : option (list Z)) (size : Z) : option (Z * option cbuf) :=
  match buf_par, buf with
  | Some c, Some b =>
      if size =? 0 then Some (0, buf_par)
      else if uFreeSize c =? 0 then Some (0, buf_par)
      else
        match pStart c with
        | None => None
        | Some mem =>
            let seg := segments c (pWrPtr c) (uFreeSize c) in
            match copy_in mem seg b size with
            | None => None
            | Some mem' => Some (moved_size seg size, Some (commit_write (with_mem c mem') (moved_size seg size)))
            end
        end
  | _, _ => Some (0, buf_par)
  end.

Definition CircleBufFlush (buf_par : option cbuf) : Z * option cbuf :=
  match buf_par with
  | None => (-1, None)
  | Some c => (0, Some (CBuf (pStart c) (uTotalSize c) (uBufSize c) (pWrPtr c) (pWrPtr c) 0 (uBufSize c)))
  end.

Definition AUDIO_DEV_QUERY_BUF_SIZE_DATA : Z := 1.
Definition AUDIO_DEV_QUERY_BUF_SIZE_FREE : Z := 2.
Definition AUDIO_DEV_QUERY_BUF_SIZE_TOTAL : Z := 3.

Definition CircleBufQuerySize (buf_par : option cbuf) (type : Z) : Z :=
  match buf_par with
  | None => 0
  | Some c =>
      if type =? AUDIO_DEV_QUERY_BUF_SIZE_DATA then s32 (uDataSize c)
      else if type =? AUDIO_DEV_QUERY_BUF_SIZE_FREE then s32 (uFreeSize c)
      else if type =? AUDIO_DEV_QUERY_BUF_SIZE_TOTAL then s32 (uBufSize c)
      else -1
  end.

(** [CircleBufResize]: the mutex is locked around the destruction and the
    creation of the buffer. *)
Definition CircleBufResize (m : mutex) (buf_par : option cbuf) (size : Z) (mem : option (list Z))
  : option (Z * option cbuf * mutex) :=
  match buf_par with
  | None => Some (-1, None, m)
  | Some c =>
      match m with
      | Locked => None
      | Unlocked =>
          match CircleBufCreate Locked (CircleBufDestroy (Some c)).2 (u32 size) mem with
          | Some (_, p, _) => Some (0, p, Unlocked)
          | None => None
          end
      end
  end.

(** ** The ring as a queue *)

(** The byte [i] places after [p], cyclically. *)
Definition ring_nth (mem : list Z) (p : Z) (i : nat) : Z :=
  nth (Z.to_nat ((p + Z.of_nat i) mod Z.of_nat (length mem))) mem 0.

Definition ring_bytes (mem : list Z) (p : Z) (n : nat) : list Z := ring_nth mem p <$> seq 0 n.

Record ring_ok (c : cbuf) (mem : list Z) : Prop := RingOk {
  ro_mem : pStart c = Some mem;
  ro_len : Z.of_nat (length mem) = uBufSize c;
  ro_size : 0 < uBufSize c < 2 ^ 31;
  ro_rd : 0 <= pRdPtr c < uBufSize c;
  ro_wr : 0 <= pWrPtr c < uBufSize c;
  ro_data : 0 <= uDataSize c;
  ro_free : uDataSize c + uFreeSize c = uBufSize c;
  ro_free0 : 0 <= uFreeSize c;
  ro_ptr : pWrPtr c = (pRdPtr c + uDataSize c) mod uBufSize c;
}.

Definition queue (c : cbuf) (mem : list Z) : list Z := ring_bytes mem (pRdPtr c) (Z.to_nat (uDataSize c)).

Lemma length_ring_bytes mem p n : length (ring_bytes mem p n) = n.
Proof. unfold ring_bytes. rewrite length_fmap. apply length_seq. Qed.

Lemma lookup_ring_bytes mem p n i : (i < n)%nat -> ring_bytes mem p n !! i = Some (ring_nth mem p i).
Proof. intros Hi. unfold ring_bytes. now rewrite list_lookup_fmap, lookup_seq_lt. Qed.

Lemma ring_bytes_ext mem p n (l : list Z) :
  length l = n -> (forall i, (i < n)%nat -> l !! i = Some (ring_nth mem p i)) -> l = ring_bytes mem p n.
Proof.
  intros Hl E. apply list_eq_same_length with (n := n); [apply length_ring_bytes | exact Hl |].
  intros i x y Hi Hx. rewrite lookup_ring_bytes by assumption. rewrite E in Hx by assumption. congruence.
Qed.

Lemma ring_nth_shift mem p q i j :
  (p + Z.of_nat i) mod Z.of_nat (length mem) = (q + Z.of_nat j) mod Z.of_nat (length mem) ->
  ring_nth mem p i = ring_nth mem q j.
Proof. unfold ring_nth. now intros ->. Qed.

Lemma ring_bytes_app mem p n m :
  ring_bytes mem p (n + m) = ring_bytes mem p n ++ ring_bytes mem (p + Z.of_nat n) m.
Proof.
  symmetry. apply ring_bytes_ext; [rewrite length_app, !length_ring_bytes; reflexivity |].
  intros i Hi. destruct (decide (i < n)%nat).
  - rewrite lookup_app_l by (rewrite length_ring_bytes; lia). now apply lookup_ring_bytes.
  - rewrite lookup_app_r, length_ring_bytes by (rewrite length_ring_bytes; lia).
    rewrite lookup_ring_bytes by lia. f_equal. apply ring_nth_shift. f_equal. lia.
Qed.

Lemma ring_bytes_mod mem p n : ring_bytes mem (p mod Z.of_nat (length mem)) n = ring_bytes mem p n.
Proof.
  apply ring_bytes_ext; [apply length_ring_bytes |]. intros i Hi. rewrite lookup_ring_bytes by assumption.
  f_equal. apply ring_nth_shift. apply Zplus_mod_idemp_l.
Qed.

Lemma ring_bytes_slice mem p n :
  0 <= p -> 0 <= n -> p + n <= Z.of_nat (length mem) -> slice mem p n = ring_bytes mem p (Z.to_nat n).
Proof.
  intros Hp Hn Hl. unfold slice. apply ring_bytes_ext; [apply length_bytes_at; lia |].
  intros i Hi. unfold bytes_at, ring_nth. rewrite lookup_take_lt, lookup_drop by lia.
  rewrite Z.mod_small by lia. replace (Z.to_nat (p + Z.of_nat i)) with (Z.to_nat p + i)%nat by lia.
  destruct (mem !! (Z.to_nat p + i)%nat) as [x |] eqn:E.
  - f_equal. symmetry. now apply nth_lookup_Some.
  - apply lookup_ge_None in E. lia.
Qed.

Lemma take_ring_bytes mem p n k : (k <= n)%nat -> take k (ring_bytes mem p n) = ring_bytes mem p k.
Proof.
  intros Hk. replace n with (k + (n - k))%nat by lia. rewrite ring_bytes_app.
  apply take_app_length'. now rewrite length_ring_bytes.
Qed.

Lemma drop_ring_bytes mem p n k : (k <= n)%nat -> drop k (ring_bytes mem p n) = ring_bytes mem (p + Z.of_nat k) (n - k).
Proof.
  intros Hk. replace n with (k + (n - k))%nat at 1 by lia. rewrite ring_bytes_app.
  apply drop_app_length'. now rewrite length_ring_bytes.
Qed.

(** What the segments of [k] bytes from [p] on are, in a ring of [L] bytes. *)
Lemma segments_eq c mem p k :
  ring_ok c mem -> 0 <= p < uBufSize c -> 0 <= k <= uBufSize c ->
  segments c p k = if uBufSize c <? p + k then ((p, uBufSize c - p), (0, k - (uBufSize c - p))) else ((p, k), (p + k, 0)).
Proof.
  intros [] Hp Hk. unfold segments, segments_branch. destruct (Z.ltb_spec (uBufSize c) (p + k)); [| reflexivity].
  rewrite !u32_id by (rewrite ?u32_id by lia; lia). reflexivity.
Qed.

Lemma moved_size_eq c mem p k size :
  ring_ok c mem -> 0 <= p < uBufSize c -> 0 <= k <= uBufSize c -> moved_size (segments c p k) size = Z.min size k.
Proof.
  intros Hc Hp Hk. rewrite (segments_eq c mem) by assumption. destruct Hc. unfold moved_size.
  destruct (Z.ltb_spec (uBufSize c) (p + k)); rewrite u32_id by lia; bool_cases; lia.
Qed.

Lemma in_range_true mem p n : 0 <= p -> 0 <= n -> p + n <= Z.of_nat (length mem) -> in_range mem p n = true.
Proof. intros. unfold in_range. rewrite !andb_true_iff, !Z.leb_le. lia. Qed.

Lemma ring_slices mem p n m :
  0 <= p -> 0 <= n -> p + n = Z.of_nat (length mem) -> 0 <= m <= Z.of_nat (length mem) ->
  slice mem p n ++ slice mem 0 m = ring_bytes mem p (Z.to_nat (n + m)).
Proof.
  intros Hp Hn Hl Hm. rewrite !ring_bytes_slice by lia. rewrite Z2Nat.inj_add, ring_bytes_app by lia. f_equal.
  rewrite Z2Nat.id by lia. rewrite <- (ring_bytes_mod mem (p + n)), Hl, Z_mod_same_full. reflexivity.
Qed.

Lemma copy_out_ring c mem p k size :
  ring_ok c mem -> 0 <= p < uBufSize c -> 0 <= k <= uBufSize c -> 0 <= size ->
  copy_out mem (segments c p k) size = Some (ring_bytes mem p (Z.to_nat (Z.min size k))).
Proof.
  intros Hc Hp Hk Hs. rewrite (segments_eq c mem) by assumption. destruct Hc. unfold copy_out.
  destruct (Z.ltb_spec (uBufSize c) (p + k)); rewrite u32_id by lia.
  - destruct (Z.leb_spec size (uBufSize c - p + (k - (uBufSize c - p)))).
    + destruct (Z.leb_spec size (uBufSize c - p)); rewrite ?in_range_true by lia; cbn [andb]; f_equal.
      * rewrite ring_bytes_slice by lia. do 2 f_equal. lia.
      * rewrite ring_slices by lia. do 2 f_equal. lia.
    + rewrite !in_range_true by lia. cbn [andb]. f_equal. rewrite ring_slices by lia. do 2 f_equal. lia.
  - destruct (Z.leb_spec size (k + 0)).
    + destruct (Z.leb_spec size k); [| lia]. rewrite in_range_true by lia. f_equal.
      rewrite ring_bytes_slice by lia. do 2 f_equal. lia.
    + rewrite !in_range_true by lia. cbn [andb]. f_equal. unfold slice at 2. change (Z.to_nat 0) with 0%nat.
      unfold bytes_at. rewrite take_0, app_nil_r. rewrite ring_bytes_slice by lia. do 2 f_equal. lia.
Qed.

Lemma nth_blit (mem src : list Z) p j :
  (p + length src <= length mem)%nat ->
  nth j (blit mem p src) 0 = if (p <=? j)%nat && (j <? p + length src)%nat then nth (j - p) src 0 else nth j mem 0.
Proof.
  intros Hl. rewrite !nth_lookup. unfold blit.
  assert (length (take p mem) = p) as Ht by (rewrite length_take; lia).
  destruct (Nat.leb_spec p j); cbn [andb].
  - rewrite lookup_app_r by lia. rewrite Ht. destruct (Nat.ltb_spec j (p + length src)).
    + now rewrite lookup_app_l by lia.
    + rewrite lookup_app_r, lookup_drop by lia. do 2 f_equal. lia.
  - rewrite lookup_app_l by lia. now rewrite lookup_take_lt by lia.
Qed.

Lemma nth_slice (l : list Z) p n j :
  0 <= p -> 0 <= n -> p + n <= Z.of_nat (length l) -> Z.of_nat j < n -> nth j (slice l p n) 0 = nth (Z.to_nat p + j) l 0.
Proof.
  intros. unfold slice, bytes_at. rewrite !nth_lookup, lookup_take_lt, lookup_drop by lia. reflexivity.
Qed.

Lemma length_slice (l : list Z) p n : 0 <= p -> 0 <= n -> p + n <= Z.of_nat (length l) -> Z.of_nat (length (slice l p n)) = n.
Proof. intros. unfold slice. rewrite length_bytes_at; lia. Qed.

(** The effect of [copy_in], byte by byte: the ring position [d] places after
    [p] holds byte [d] of the caller's buffer. *)
Definition ring_written (L p n : Z) (mem buf mem' : list Z) : Prop :=
  length mem' = length mem /\
  forall j, 0 <= j < L -> nth (Z.to_nat j) mem' 0 =
    if (j - p) mod L <? n then nth (Z.to_nat ((j - p) mod L)) buf 0 else nth (Z.to_nat j) mem 0.

Lemma ring_dist L p j : 0 <= p < L -> 0 <= j < L -> (j - p) mod L = if p <=? j then j - p else j - p + L.
Proof.
  intros. destruct (Z.leb_spec p j); [apply Z.mod_small; lia |].
  rewrite <- (Z_mod_plus_full (j - p) 1 L), Z.mod_small; lia.
Qed.

Lemma ring_written_one mem buf p n :
  0 <= p -> 0 <= n -> p + n <= Z.of_nat (length mem) -> p < Z.of_nat (length mem) -> n <= Z.of_nat (length buf) ->
  ring_written (Z.of_nat (length mem)) p n mem buf (blit mem (Z.to_nat p) (slice buf 0 n)).
Proof.
  intros Hp Hn Hl Hpl Hb. assert (Z.of_nat (length (slice buf 0 n)) = n) as Hs by (apply length_slice; lia).
  split; [apply length_blit; lia |]. intros j Hj. rewrite nth_blit by lia. rewrite ring_dist by lia.
  destruct (Nat.leb_spec (Z.to_nat p) (Z.to_nat j)), (Nat.ltb_spec (Z.to_nat j) (Z.to_nat p + length (slice buf 0 n)));
    destruct (Z.leb_spec p j); try lia; cbn [andb]; bool_cases; try lia; try reflexivity.
  rewrite nth_slice by lia. f_equal. lia.
Qed.

Lemma ring_written_two mem buf p n m :
  0 <= p -> 0 <= n -> p + n = Z.of_nat (length mem) -> 0 < n -> 0 <= m -> n + m <= Z.of_nat (length mem) ->
  n + m <= Z.of_nat (length buf) ->
  ring_written (Z.of_nat (length mem)) p (n + m) mem buf
    (blit (blit mem (Z.to_nat p) (slice buf 0 n)) (Z.to_nat 0) (slice buf n m)).
Proof.
  intros Hp Hn Hl Hn0 Hm Hnm Hb. assert (Z.of_nat (length (slice buf 0 n)) = n) as Hs by (apply length_slice; lia).
  assert (Z.of_nat (length (slice buf n m)) = m) as Hs2 by (apply length_slice; lia).
  assert (length (blit mem (Z.to_nat p) (slice buf 0 n)) = length mem) as Hl1 by (apply length_blit; lia).
  split; [rewrite length_blit; lia |]. intros j Hj. rewrite nth_blit by lia. rewrite nth_blit by lia. rewrite ring_dist by lia.
  destruct (Nat.leb_spec (Z.to_nat 0) (Z.to_nat j)); [cbn [andb] | lia].
  destruct (Nat.ltb_spec (Z.to_nat j) (Z.to_nat 0 + length (slice buf n m))).
  - destruct (Z.leb_spec p j); [lia |]. bool_cases; [| lia]. rewrite nth_slice by lia. f_equal. lia.
  - destruct (Nat.leb_spec (Z.to_nat p) (Z.to_nat j)), (Nat.ltb_spec (Z.to_nat j) (Z.to_nat p + length (slice buf 0 n)));
      destruct (Z.leb_spec p j); try lia; cbn [andb]; bool_cases; try lia; try reflexivity.
    rewrite nth_slice by lia. f_equal. lia.
Qed.

Lemma copy_in_ring c mem p k size buf :
  ring_ok c mem -> 0 <= p < uBufSize c -> 0 <= k <= uBufSize c -> 0 <= size -> size <= Z.of_nat (length buf) ->
  exists mem', copy_in mem (segments c p k) buf size = Some mem' /\
    ring_written (uBufSize c) p (Z.min size k) mem buf mem'.
Proof.
  intros Hc Hp Hk Hs Hb. rewrite (segments_eq c mem) by assumption. destruct Hc. unfold copy_in. rewrite <- ro_len0 in *.
  destruct (Z.ltb_spec (Z.of_nat (length mem)) (p + k)); rewrite u32_id by lia.
  - destruct (Z.leb_spec size (Z.of_nat (length mem) - p + (k - (Z.of_nat (length mem) - p)))).
    + destruct (Z.leb_spec size (Z.of_nat (length mem) - p)); rewrite ?in_range_true by lia; cbn [andb];
        eexists; (split; [reflexivity |]).
      * replace (Z.min size k) with size by lia. apply ring_written_one; lia.
      * replace (Z.min size k) with (Z.of_nat (length mem) - p + (size - (Z.of_nat (length mem) - p))) by lia.
        apply ring_written_two; lia.
    + rewrite !in_range_true by lia. cbn [andb]. eexists. split; [reflexivity |].
      replace (Z.min size k) with (Z.of_nat (length mem) - p + (k - (Z.of_nat (length mem) - p))) by lia.
      apply ring_written_two; lia.
  - destruct (Z.leb_spec size (k + 0)).
    + destruct (Z.leb_spec size k); [| lia]. rewrite !in_range_true by lia. cbn [andb]. eexists. split; [reflexivity |].
      replace (Z.min size k) with size by lia. apply ring_written_one; lia.
    + rewrite !in_range_true by lia. cbn [andb]. eexists. split; [reflexivity |].
      replace (Z.min size k) with k by lia.
      assert (slice buf k 0 = []) as -> by (unfold slice, bytes_at; change (Z.to_nat 0) with 0%nat; apply take_0).
      set (m1 := blit mem _ _). assert (length m1 = length mem) as Hl1.
      { unfold m1. apply length_blit. pose proof (length_slice buf 0 k). lia. }
      assert (blit m1 (Z.to_nat (p + k)) [] = m1) as -> by (unfold blit; rewrite Nat.add_0_r; apply take_drop).
      apply ring_written_one; lia.
Qed.

(** Bytes of the ring that a write did and did not reach. *)
Lemma ring_written_bytes mem mem' buf p n q d :
  ring_written (Z.of_nat (length mem)) p n mem buf mem' -> 0 <= p < Z.of_nat (length mem) ->
  0 <= d -> 0 <= n -> d + n <= Z.of_nat (length mem) -> n <= Z.of_nat (length buf) ->
  p = (q + d) mod Z.of_nat (length mem) ->
  ring_bytes mem' q (Z.to_nat (d + n)) = ring_bytes mem q (Z.to_nat d) ++ take (Z.to_nat n) buf.
Proof.
  intros [Hl Hw] Hp Hd Hn Hdn Hb Hpq. symmetry. set (L := Z.of_nat (length mem)) in *.
  assert (forall i, (i < Z.to_nat (d + n))%nat -> ring_nth mem' q i =
    if Z.of_nat i <? d then ring_nth mem q i else nth (Z.to_nat (Z.of_nat i - d)) buf 0) as Hnth.
  { intros i Hi. unfold ring_nth. rewrite Hl. fold L.
    pose proof (Z.mod_pos_bound (q + Z.of_nat i) L ltac:(lia)) as Hj.
    rewrite (Hw _ Hj). rewrite Hpq, Zminus_mod_idemp_l, Zminus_mod_idemp_r.
    replace (q + Z.of_nat i - (q + d)) with (Z.of_nat i - d) by lia.
    destruct (Z.ltb_spec (Z.of_nat i) d).
    - rewrite <- (Z_mod_plus_full (Z.of_nat i - d) 1 L), Z.mod_small by lia.
      destruct (Z.ltb_spec (Z.of_nat i - d + 1 * L) n); [lia | reflexivity].
    - rewrite Z.mod_small by lia. destruct (Z.ltb_spec (Z.of_nat i - d) n); [reflexivity | lia]. }
  apply ring_bytes_ext; [rewrite length_app, length_ring_bytes, length_take; lia |].
  intros i Hi. rewrite Hnth by assumption. destruct (Z.ltb_spec (Z.of_nat i) d).
  - rewrite lookup_app_l by (rewrite length_ring_bytes; lia). apply lookup_ring_bytes. lia.
  - rewrite lookup_app_r, length_ring_bytes by (rewrite length_ring_bytes; lia).
    rewrite lookup_take_lt by lia. replace (Z.to_nat (Z.of_nat i - d)) with (i - Z.to_nat d)%nat by lia.
    destruct (buf !! (i - Z.to_nat d)%nat) eqn:E; [f_equal; symmetry; now apply nth_lookup_Some |].
    apply lookup_ge_None in E. lia.
Qed.

Lemma wrap_ptr_mod c p : 0 < uBufSize c -> 0 <= p < 2 * uBufSize c -> wrap_ptr c p = p mod uBufSize c.
Proof.
  intros Hs Hp. unfold wrap_ptr. destruct (Z.leb_spec (uBufSize c) p); [| now rewrite Z.mod_small by lia].
  rewrite <- (Z_mod_plus_full p (-1)), Z.mod_small; lia.
Qed.

Lemma commit_read_ok c mem n :
  ring_ok c mem -> 0 <= n <= uDataSize c ->
  ring_ok (commit_read c n) mem /\ queue (commit_read c n) mem = drop (Z.to_nat n) (queue c mem).
Proof.
  intros Hc Hn. destruct Hc. unfold commit_read, queue. cbn [pStart uBufSize pRdPtr pWrPtr uDataSize uFreeSize].
  rewrite wrap_ptr_mod, !u32_id by lia. pose proof (Z.mod_pos_bound (pRdPtr c + n) (uBufSize c) ltac:(lia)). split.
  - split; cbn [pStart uBufSize pRdPtr pWrPtr uDataSize uFreeSize]; try assumption; try lia.
    rewrite Zplus_mod_idemp_l, ro_ptr0. f_equal. lia.
  - rewrite drop_ring_bytes by lia. rewrite <- ro_len0, ring_bytes_mod, Z2Nat.id by lia. f_equal. lia.
Qed.

Lemma commit_write_ok c mem mem' buf n :
  ring_ok c mem -> 0 <= n <= uFreeSize c -> n <= Z.of_nat (length buf) ->
  ring_written (uBufSize c) (pWrPtr c) n mem buf mem' ->
  ring_ok (commit_write (with_mem c mem') n) mem' /\
  queue (commit_write (with_mem c mem') n) mem' = queue c mem ++ take (Z.to_nat n) buf.
Proof.
  intros Hc Hn Hb Hw. destruct Hc. unfold commit_write, with_mem, queue.
  cbn [pStart uBufSize pRdPtr pWrPtr uDataSize uFreeSize].
  rewrite wrap_ptr_mod, !u32_id by (cbn [uBufSize]; lia). cbn [uBufSize].
  pose proof (Z.mod_pos_bound (pWrPtr c + n) (uBufSize c) ltac:(lia)). destruct Hw as [Hl Hw]. split.
  - split; cbn [pStart uBufSize pRdPtr pWrPtr uDataSize uFreeSize]; try assumption; try lia; try reflexivity.
    rewrite ro_ptr0, Zplus_mod_idemp_l. f_equal. lia.
  - rewrite <- ro_len0 in *. eapply ring_written_bytes with (p := pWrPtr c); try lia. now split.
Qed.

(** ** Sequential specification *)

Lemma read_ring c mem b size :
  ring_ok c mem -> 0 <= size -> Z.min size (uDataSize c) <= Z.of_nat (length b) ->
  let n := Z.min size (uDataSize c) in
  exists c', CircleBufRead (Some c) (Some b) size = Some (n, Some (blit b 0 (take (Z.to_nat n) (queue c mem))), Some c') /\
    CircleBufReadZero (Some c) (Some b) size = Some (n, Some (blit b 0 (replicate (Z.to_nat n) 0)), Some c') /\
    ring_ok c' mem /\ queue c' mem = drop (Z.to_nat n) (queue c mem).
Proof.
  intros Hc Hs Hb n. pose proof Hc as Hc'. destruct Hc'. unfold CircleBufRead, CircleBufReadZero.
  assert (forall l, blit b 0 (take 0 l) = b /\ blit b 0 (replicate 0 0) = b) as Hnil by (intros l; now rewrite take_0).
  destruct (Z.eqb_spec size 0); [| destruct (Z.eqb_spec (uDataSize c) 0)].
  - exists c. replace n with 0 by lia. change (Z.to_nat 0) with 0%nat. destruct (Hnil (queue c mem)) as [-> ->]. now rewrite drop_0.
  - exists c. replace n with 0 by lia. change (Z.to_nat 0) with 0%nat. destruct (Hnil (queue c mem)) as [-> ->]. now rewrite drop_0.
  - rewrite ro_mem0, (copy_out_ring c), (moved_size_eq c mem) by (assumption || lia). fold n.
    rewrite length_ring_bytes. destruct (Nat.leb_spec (Z.to_nat n) (length b)); [| lia].
    destruct (commit_read_ok c mem n Hc ltac:(lia)) as [Hok Hq].
    exists (commit_read c n). unfold queue at 1. rewrite take_ring_bytes by lia. auto.
Qed.

Lemma write_ring c mem b size :
  ring_ok c mem -> 0 <= size -> size <= Z.of_nat (length b) ->
  let n := Z.min size (uFreeSize c) in
  exists c' mem', CircleBufWrite (Some c) (Some b) size = Some (n, Some c') /\
    ring_ok c' mem' /\ queue c' mem' = queue c mem ++ take (Z.to_nat n) b /\ uBufSize c' = uBufSize c.
Proof.
  intros Hc Hs Hb n. pose proof Hc as Hc'. destruct Hc'. unfold CircleBufWrite.
  destruct (Z.eqb_spec size 0); [| destruct (Z.eqb_spec (uFreeSize c) 0)].
  - exists c, mem. replace n with 0 by lia. change (Z.to_nat 0) with 0%nat. rewrite take_0, app_nil_r. auto.
  - exists c, mem. replace n with 0 by lia. change (Z.to_nat 0) with 0%nat. rewrite take_0, app_nil_r. auto.
  - rewrite ro_mem0, (moved_size_eq c mem) by (assumption || lia). fold n.
    destruct (copy_in_ring c mem (pWrPtr c) (uFreeSize c) size b) as (mem' & -> & Hw); auto; try lia.
    destruct (commit_write_ok c mem mem' b n Hc ltac:(lia) ltac:(lia) Hw) as [Hok Hq].
    exists (commit_write (with_mem c mem') n), mem'. auto.
Qed.

Lemma create_ring m c0 size a c m' :
  0 < size < 2 ^ 31 -> Z.of_nat (length a) = size ->
  CircleBufCreate m (Some c0) size (Some a) = Some (0, Some c, m') -> ring_ok c a /\ queue c a = [].
Proof.
  intros Hs Hl. unfold CircleBufCreate. destruct (Z.eqb_spec size 0); [lia |].
  destruct (mutex_init m); [| discriminate]. intros [= <- <-]. split; [| reflexivity].
  split; cbn; try lia; auto.
Qed.

(** ** One reader and one writer

    The steps of [CircleBufRead] and [CircleBufWrite] between which the other
    thread can run.  The size that the other thread changes is loaded without the
    mutex three times: it is tested, it is compared with the end of the ring, and
    the branch that was chosen uses it; then the bytes are copied, and the fields
    are updated under the mutex.  A load sees the whole size before or after an
    update.  A copy that leaves the ring or the caller's buffer has no step.
    [taken] and [given] record the bytes the calls have delivered and accepted. *)
Inductive reader :=
| RIdle
| RTested (size : Z)
| RBranch (wraps : bool) (size : Z)
| RSeg (seg : (Z * Z) * (Z * Z)) (size : Z)
| RCopied (bytes : list Z) (n : Z).

Inductive writer :=
| WIdle
| WTested (b : list Z) (size : Z)
| WBranch (wraps : bool) (b : list Z) (size : Z)
| WSeg (seg : (Z * Z) * (Z * Z)) (b : list Z) (size : Z)
| WCopied (b : list Z) (n : Z).

Record world := World { ring : cbuf; memory : list Z; rd : reader; wr : writer; taken : list Z; given : list Z }.

Inductive step : world -> world -> Prop :=
| R_test c mem w t g size :
    0 < size -> uDataSize c <> 0 ->
    step (World c mem RIdle w t g) (World c mem (RTested size) w t g)
| R_compare c mem w t g size :
    step (World c mem (RTested size) w t g)
      (World c mem (RBranch (uBufSize c <? pRdPtr c + uDataSize c) size) w t g)
| R_segments c mem w t g wraps size :
    step (World c mem (RBranch wraps size) w t g)
      (World c mem (RSeg (segments_branch c wraps (pRdPtr c) (uDataSize c)) size) w t g)
| R_copy c mem w t g seg size bytes :
    copy_out mem seg size = Some bytes ->
    step (World c mem (RSeg seg size) w t g) (World c mem (RCopied bytes (moved_size seg size)) w t g)
| R_commit c mem w t g bytes n :
    step (World c mem (RCopied bytes n) w t g) (World (commit_read c n) mem RIdle w (t ++ bytes) g)
| W_test c mem r t g b size :
    0 < size -> size <= Z.of_nat (length b) -> uFreeSize c <> 0 ->
    step (World c mem r WIdle t g) (World c mem r (WTested b size) t g)
| W_compare c mem r t g b size :
    step (World c mem r (WTested b size) t g)
      (World c mem r (WBranch (uBufSize c <? pWrPtr c + uFreeSize c) b size) t g)
| W_segments c mem r t g wraps b size :
    step (World c mem r (WBranch wraps b size) t g)
      (World c mem r (WSeg (segments_branch c wraps (pWrPtr c) (uFreeSize c)) b size) t g)
| W_copy c mem r t g seg b size mem' :
    copy_in mem seg b size = Some mem' ->
    step (World c mem r (WSeg seg b size) t g) (World (with_mem c mem') mem' r (WCopied b (moved_size seg size)) t g)
| W_commit c mem r t g b n :
    step (World c mem r (WCopied b n) t g) (World (commit_write c n) mem r WIdle t (g ++ take (Z.to_nat n) b)).

(** The first segment, as far as it is copied, runs past the end of the ring. *)
Definition overruns (c : cbuf) (seg : (Z * Z) * (Z * Z)) (size : Z) : bool :=
  let '((p, n), _) := seg in uBufSize c <? p + Z.min size n.

Inductive steps : world -> world -> Prop :=
| steps_refl w : steps w w
| steps_step w1 w2 w3 : steps w1 w2 -> step w2 w3 -> steps w1 w3.

(** What the reader and the writer know while the other one runs: the size that
    each of them loads only grows until its own commit, so the branch that wraps
    stays right and the straight one may not. *)
Definition reader_ok (c : cbuf) (mem : list Z) (r : reader) : Prop :=
  match r with
  | RIdle => True
  | RTested size => 0 <= size
  | RBranch wraps size => 0 <= size /\ (wraps = true -> uBufSize c < pRdPtr c + uDataSize c)
  | RSeg seg size => 0 <= size /\ exists wraps d, 0 <= d <= uDataSize c /\
      (wraps = true -> uBufSize c < pRdPtr c + d) /\ seg = segments_branch c wraps (pRdPtr c) d
  | RCopied bytes n => 0 <= n <= uDataSize c /\ bytes = ring_bytes mem (pRdPtr c) (Z.to_nat n)
  end.

Definition writer_ok (c : cbuf) (mem : list Z) (w : writer) : Prop :=
  match w with
  | WIdle => True
  | WTested b size => 0 <= size <= Z.of_nat (length b)
  | WBranch wraps b size => 0 <= size <= Z.of_nat (length b) /\ (wraps = true -> uBufSize c < pWrPtr c + uFreeSize c)
  | WSeg seg b size => 0 <= size <= Z.of_nat (length b) /\ exists wraps f, 0 <= f <= uFreeSize c /\
      (wraps = true -> uBufSize c < pWrPtr c + f) /\ seg = segments_branch c wraps (pWrPtr c) f
  | WCopied b n => 0 <= n <= uFreeSize c /\ n <= Z.of_nat (length b) /\
      ring_bytes mem (pRdPtr c) (Z.to_nat (uDataSize c + n)) = queue c mem ++ take (Z.to_nat n) b
  end.

Record world_ok (w : world) : Prop := WorldOk {
  wo_ring : ring_ok (ring w) (memory w);
  wo_reader : reader_ok (ring w) (memory w) (rd w);
  wo_writer : writer_ok (ring w) (memory w) (wr w);
  wo_fifo : given w = taken w ++ queue (ring w) (memory w);
}.

(** The segments of a branch are those of the size it loads, unless the straight
    branch was chosen for a size that has grown past the end since. *)
Lemma segments_branch_eq c wraps p d :
  (wraps = true -> uBufSize c < p + d) ->
  segments_branch c wraps p d = segments c p d \/
  uBufSize c < p + d /\ segments_branch c wraps p d = ((p, d), (p + d, 0)).
Proof.
  intros Hw. unfold segments. destruct wraps, (Z.ltb_spec (uBufSize c) (p + d)); auto.
  specialize (Hw eq_refl). lia.
Qed.

Lemma segments_fit c mem p d size :
  ring_ok c mem -> 0 <= p < uBufSize c -> 0 <= d <= uBufSize c -> overruns c (segments c p d) size = false.
Proof.
  intros Hc Hp Hd. rewrite (segments_eq c mem) by assumption.
  destruct (Z.ltb_spec (uBufSize c) (p + d)); cbn [overruns]; apply Z.ltb_ge; lia.
Qed.

Lemma moved_size_branch c mem wraps p d size :
  ring_ok c mem -> 0 <= p < uBufSize c -> 0 <= d <= uBufSize c -> (wraps = true -> uBufSize c < p + d) ->
  moved_size (segments_branch c wraps p d) size = Z.min size d.
Proof.
  intros Hc Hp Hd Hw. destruct (segments_branch_eq c wraps p d Hw) as [-> | [_ ->]]; [now apply moved_size_eq with mem |].
  destruct Hc. cbn [moved_size]. rewrite u32_id by lia. bool_cases; lia.
Qed.

Lemma copy_out_branch c mem wraps p d size :
  ring_ok c mem -> 0 <= p < uBufSize c -> 0 <= d <= uBufSize c -> (wraps = true -> uBufSize c < p + d) -> 0 <= size ->
  copy_out mem (segments_branch c wraps p d) size =
    if overruns c (segments_branch c wraps p d) size then None else Some (ring_bytes mem p (Z.to_nat (Z.min size d))).
Proof.
  intros Hc Hp Hd Hw Hs. destruct (segments_branch_eq c wraps p d Hw) as [-> | [Hover ->]].
  - rewrite (segments_fit c mem) by assumption. now apply copy_out_ring.
  - pose proof Hc as []. cbn [copy_out overruns]. rewrite u32_id, Z.add_0_r by lia. unfold in_range. rewrite ro_len0.
    destruct (Z.leb_spec size d) as [Hle | Hgt].
    + rewrite Z.min_l by lia. destruct (Z.ltb_spec (uBufSize c) (p + size)).
      * rewrite (proj2 (Z.leb_gt (p + size) _)) by lia. now rewrite andb_false_r.
      * rewrite !(proj2 (Z.leb_le _ _)) by lia. cbn [andb]. f_equal. apply ring_bytes_slice; lia.
    + rewrite Z.min_r by lia. rewrite (proj2 (Z.ltb_lt _ _) Hover), (proj2 (Z.leb_gt (p + d) _)) by lia.
      now rewrite andb_false_r.
Qed.

Lemma copy_in_branch c mem wraps p d size b :
  ring_ok c mem -> 0 <= p < uBufSize c -> 0 <= d <= uBufSize c -> (wraps = true -> uBufSize c < p + d) ->
  0 <= size <= Z.of_nat (length b) ->
  if overruns c (segments_branch c wraps p d) size then copy_in mem (segments_branch c wraps p d) b size = None
  else exists mem', copy_in mem (segments_branch c wraps p d) b size = Some mem' /\
    ring_written (uBufSize c) p (Z.min size d) mem b mem'.
Proof.
  intros Hc Hp Hd Hw Hs. destruct (segments_branch_eq c wraps p d Hw) as [-> | [Hover ->]].
  - rewrite (segments_fit c mem) by assumption. apply copy_in_ring; (assumption || lia).
  - pose proof Hc as []. cbn [copy_in overruns]. rewrite u32_id, Z.add_0_r by lia. unfold in_range. rewrite ro_len0.
    destruct (Z.leb_spec size d) as [Hle | Hgt].
    + rewrite Z.min_l by lia. destruct (Z.ltb_spec (uBufSize c) (p + size)).
      * rewrite (proj2 (Z.leb_gt (p + size) _)) by lia. now rewrite andb_false_r.
      * rewrite !(proj2 (Z.leb_le _ _)) by lia. cbn [andb]. eexists. split; [reflexivity |].
        rewrite <- ro_len0. apply ring_written_one; lia.
    + rewrite Z.min_r by lia. rewrite (proj2 (Z.ltb_lt _ _) Hover), (proj2 (Z.leb_gt (p + d) _)) by lia.
      now rewrite andb_false_r.
Qed.

(** What the other thread knows after a commit. *)
Lemma reader_ok_grow c mem n r :
  ring_ok c mem -> 0 <= n <= uFreeSize c -> reader_ok c mem r -> reader_ok (commit_write c n) mem r.
Proof.
  intros [] Hn Hr. unfold commit_write. destruct r as [| size | wraps size | seg size | bytes m];
    cbn [reader_ok uDataSize pRdPtr uBufSize] in *; rewrite ?u32_id by lia; auto.
  - destruct Hr as [Hs Hw]. split; [exact Hs |]. intros E. specialize (Hw E). lia.
  - destruct Hr as (Hs & wraps & d & Hd & Hw & ->). split; [exact Hs |]. exists wraps, d. split; [lia |]. auto.
  - destruct Hr as [Hm ->]. split; [lia | reflexivity].
Qed.

Lemma writer_ok_grow c mem n w :
  ring_ok c mem -> 0 <= n <= uDataSize c -> writer_ok c mem w -> writer_ok (commit_read c n) mem w.
Proof.
  intros Hc Hn Hw. destruct (commit_read_ok c mem n Hc Hn) as [_ Hq]. destruct Hc.
  destruct w as [| b size | wraps b size | seg b size | b m]; cbn [writer_ok] in *; auto.
  - destruct Hw as [Hs Hw]. split; [exact Hs |]. intros E. specialize (Hw E).
    unfold commit_read. cbn [pWrPtr uFreeSize uBufSize]. rewrite u32_id by lia. lia.
  - destruct Hw as (Hs & wraps & f & Hf & Hw & ->). split; [exact Hs |]. exists wraps, f.
    unfold commit_read. cbn [pWrPtr uFreeSize uBufSize]. rewrite u32_id by lia. split; [lia |]. auto.
  - destruct Hw as (Hm & Hb & E). rewrite Hq. unfold commit_read. cbn [pRdPtr uDataSize uFreeSize].
    rewrite wrap_ptr_mod, !u32_id by lia. split; [lia | split; [exact Hb |]].
    rewrite <- ro_len0, ring_bytes_mod.
    apply (f_equal (drop (Z.to_nat n))) in E. rewrite drop_ring_bytes in E by lia.
    rewrite drop_app_le in E by (unfold queue; rewrite length_ring_bytes; lia). rewrite <- E. f_equal; lia.
Qed.

Lemma ring_ok_with_mem c mem mem' : ring_ok c mem -> length mem' = length mem -> ring_ok (with_mem c mem') mem'.
Proof. intros [] Hl. split; cbn; try assumption; try lia; reflexivity. Qed.

(** A copy of the writer changes no byte of the queue. *)
Lemma queue_with_mem c mem mem' b n :
  ring_ok c mem -> 0 <= n <= uFreeSize c -> n <= Z.of_nat (length b) ->
  ring_written (uBufSize c) (pWrPtr c) n mem b mem' ->
  queue (with_mem c mem') mem' = queue c mem /\
  ring_bytes mem' (pRdPtr c) (Z.to_nat (uDataSize c + n)) = queue c mem ++ take (Z.to_nat n) b.
Proof.
  intros Hc Hn Hb Hw. destruct Hc. unfold queue, with_mem. cbn [pRdPtr uDataSize].
  rewrite <- ro_len0 in *.
  pose proof (ring_written_bytes mem mem' b (pWrPtr c) n (pRdPtr c) (uDataSize c) Hw) as E.
  rewrite E by (assumption || lia). split; [| reflexivity].
  apply (f_equal (take (Z.to_nat (uDataSize c)))) in E; try (assumption || lia).
  rewrite take_ring_bytes in E by lia. rewrite E. apply take_app_length'. now rewrite length_ring_bytes.
Qed.

Lemma reader_ok_copy c mem mem' r :
  reader_ok c mem r -> 0 <= uDataSize c -> queue (with_mem c mem') mem' = queue c mem -> reader_ok (with_mem c mem') mem' r.
Proof.
  intros Hr Hd Hq. destruct r as [| size | wraps size | seg size | bytes n]; cbn in *; auto.
  destruct Hr as [Hn ->]. split; [exact Hn |]. unfold queue in Hq. cbn [with_mem pRdPtr uDataSize] in Hq.
  apply (f_equal (take (Z.to_nat n))) in Hq. rewrite !take_ring_bytes in Hq by lia. now symmetry.
Qed.

Lemma reader_copied_ok c mem seg size bytes :
  ring_ok c mem -> reader_ok c mem (RSeg seg size) -> copy_out mem seg size = Some bytes ->
  reader_ok c mem (RCopied bytes (moved_size seg size)).
Proof.
  intros Hring (Hs & wraps & d & Hd & Hw & ->). pose proof Hring as []. rewrite (copy_out_branch c) by (assumption || lia).
  destruct (overruns _ _ _); [discriminate |]. intros [= <-]. cbn [reader_ok].
  rewrite (moved_size_branch c mem) by (assumption || lia). split; [lia | reflexivity].
Qed.

Lemma writer_copied_ok c mem seg b size mem' :
  ring_ok c mem -> writer_ok c mem (WSeg seg b size) -> copy_in mem seg b size = Some mem' ->
  length mem' = length mem /\ queue (with_mem c mem') mem' = queue c mem /\
  writer_ok (with_mem c mem') mem' (WCopied b (moved_size seg size)).
Proof.
  intros Hring (Hs & wraps & f & Hf & Hw & ->) E. pose proof Hring as [].
  pose proof (copy_in_branch c mem wraps (pWrPtr c) f size b) as H.
  rewrite E in H. destruct (overruns _ _ _).
  { discriminate H; (assumption || lia). }
  destruct H as (m2 & [= <-] & Hwr); [assumption || lia .. |]. rewrite (moved_size_branch c mem) by (assumption || lia).
  destruct (queue_with_mem c mem mem' b (Z.min size f) Hring ltac:(lia) ltac:(lia) Hwr) as [Hq Hb].
  split; [apply Hwr | split; [exact Hq |]].
  cbn [writer_ok with_mem uFreeSize pRdPtr uDataSize]. rewrite Hq. split; [lia | split; [lia | exact Hb]].
Qed.

Lemma commit_written_ok c mem b n :
  ring_ok c mem -> writer_ok c mem (WCopied b n) ->
  ring_ok (commit_write c n) mem /\ queue (commit_write c n) mem = queue c mem ++ take (Z.to_nat n) b.
Proof.
  intros [] (Hn & Hb & E). unfold commit_write. rewrite wrap_ptr_mod, !u32_id by lia.
  pose proof (Z.mod_pos_bound (pWrPtr c + n) (uBufSize c) ltac:(lia)). split; [| exact E].
  split; cbn [pStart uBufSize pRdPtr pWrPtr uDataSize uFreeSize]; try assumption; try lia.
  rewrite ro_ptr0, Zplus_mod_idemp_l. f_equal. lia.
Qed.

Lemma step_ok w w' : step w w' -> world_ok w -> world_ok w'.
Proof.
  intros Hst [Hring Hr Hw Hf]. destruct Hst; cbn [ring memory rd wr taken given] in *; pose proof Hring as [];
    split; cbn [ring memory rd wr taken given]; auto; try (cbn [reader_ok writer_ok] in *; lia || exact I).
  - destruct Hr as [Hs Hwr]. split; [exact Hs |]. exists wraps, (uDataSize c). auto with lia.
  - now apply reader_copied_ok.
  - destruct Hr as [Hn ->]. now apply commit_read_ok.
  - destruct Hr as [Hn ->]. now apply writer_ok_grow.
  - destruct Hr as [Hn ->]. destruct (commit_read_ok c mem n Hring Hn) as [_ Hq].
    rewrite Hf, Hq, <- app_assoc. f_equal. unfold queue.
    rewrite <- (take_ring_bytes mem (pRdPtr c) (Z.to_nat (uDataSize c)) (Z.to_nat n)) by lia. symmetry. apply take_drop.
  - destruct Hw as [Hs Hwr]. split; [exact Hs |]. exists wraps, (uFreeSize c). auto with lia.
  - destruct (writer_copied_ok _ _ _ _ _ _ Hring Hw H) as (Hl & _ & _). now apply ring_ok_with_mem with mem.
  - destruct (writer_copied_ok _ _ _ _ _ _ Hring Hw H) as (_ & Hq & _). now apply reader_ok_copy with mem.
  - now destruct (writer_copied_ok _ _ _ _ _ _ Hring Hw H) as (_ & _ & Hc).
  - destruct (writer_copied_ok _ _ _ _ _ _ Hring Hw H) as (_ & Hq & _). now rewrite Hq.
  - now apply commit_written_ok with b.
  - destruct Hw as (Hn & _ & _). now apply reader_ok_grow.
  - destruct (commit_written_ok c mem b n Hring Hw) as [_ Hq]. now rewrite Hq, Hf, app_assoc.
Qed.

Lemma steps_ok w w' : steps w w' -> world_ok w -> world_ok w'.
Proof. induction 1; eauto using step_ok. Qed.

(** When a copy leaves its buffers. *)
Lemma world_copies w :
  world_ok w ->
  (forall seg size, rd w = RSeg seg size ->
    copy_out (memory w) seg size = None <-> overruns (ring w) seg size = true) /\
  (forall seg b size, wr w = WSeg seg b size ->
    copy_in (memory w) seg b size = None <-> overruns (ring w) seg size = true).
Proof.
  intros [Hring Hr Hw _]. pose proof Hring as []. split.
  - intros seg size E. rewrite E in Hr. destruct Hr as (Hs & wraps & d & Hd & Hwr & ->).
    rewrite (copy_out_branch (ring w)) by (assumption || lia). destruct (overruns _ _ _); easy.
  - intros seg b size E. rewrite E in Hw. destruct Hw as (Hs & wraps & f & Hf & Hwr & ->).
    pose proof (copy_in_branch (ring w) (memory w) wraps (pWrPtr (ring w)) f size b Hring ro_wr0 ltac:(lia) Hwr Hs) as H.
    destruct (overruns _ _ _); [now rewrite H |]. now destruct H as (m2 & -> & _).
Qed.

(** ** Properties *)

(** [CircleBufRead] takes the oldest [min(size, data)] bytes of the queue into
    the caller's buffer, and [CircleBufReadZero] takes as many and delivers
    zeros; both keep the ring well formed. *)
Theorem read_takes_oldest (c : cbuf) (mem b : list Z) (size : Z) :
  ring_ok c mem -> 0 <= size -> Z.min size (uDataSize c) <= Z.of_nat (length b) ->
  let n := Z.min size (uDataSize c) in
  exists c', CircleBufRead (Some c) (Some b) size = Some (n, Some (blit b 0 (take (Z.to_nat n) (queue c mem))), Some c') /\
    CircleBufReadZero (Some c) (Some b) size = Some (n, Some (blit b 0 (replicate (Z.to_nat n) 0)), Some c') /\
    ring_ok c' mem /\ queue c' mem = drop (Z.to_nat n) (queue c mem).
Proof. apply read_ring. Qed.

(** A fresh ring is an empty queue, and [CircleBufWrite] appends the first
    [min(size, free)] bytes of the caller's buffer to the queue, across the wrap
    of the ring. *)
Theorem write_appends (c : cbuf) (mem b : list Z) (size : Z) :
  ring_ok c mem -> 0 <= size -> size <= Z.of_nat (length b) ->
  let n := Z.min size (uFreeSize c) in
  exists c' mem', CircleBufWrite (Some c) (Some b) size = Some (n, Some c') /\
    ring_ok c' mem' /\ queue c' mem' = queue c mem ++ take (Z.to_nat n) b /\
    uFreeSize c' = uFreeSize c - n.
Proof.
  intros Hc Hs Hb n. destruct (write_ring c mem b size Hc Hs Hb) as (c' & mem' & E & Hok & Hq & Hsz).
  exists c', mem'. split; [exact E | split; [exact Hok | split; [exact Hq |]]]. fold n in Hq.
  assert (length (queue c' mem') = length (queue c mem ++ take (Z.to_nat n) b)) as Hl by now rewrite Hq.
  unfold queue in Hl. rewrite length_app, !length_ring_bytes, length_take in Hl. destruct Hok, Hc. lia.
Qed.

(** C26: One reader and one writer, with every unlocked load of a size a step of
    its own: however the steps interleave, the fields stay consistent, and the
    bytes accepted from the writer are the bytes delivered to the reader followed
    by the queue, in order.  A copy that is about to start is undefined exactly
    when what it copies of its first segment runs past the end of the ring, which
    takes a size that grew between the comparison and the branch
    ([reader_can_overrun]); such a copy is the end of a run. *)
Theorem spsc_fifo (w0 w : world) :
  ring_ok (ring w0) (memory w0) -> queue (ring w0) (memory w0) = [] ->
  rd w0 = RIdle -> wr w0 = WIdle -> taken w0 = [] -> given w0 = [] -> steps w0 w ->
  given w = taken w ++ queue (ring w) (memory w) /\ ring_ok (ring w) (memory w) /\
  (forall seg size, rd w = RSeg seg size ->
    copy_out (memory w) seg size = None <-> overruns (ring w) seg size = true) /\
  (forall seg b size, wr w = WSeg seg b size ->
    copy_in (memory w) seg b size = None <-> overruns (ring w) seg size = true).
Proof.
  intros Hring Hq Hr Hw Ht Hg Hs.
  assert (world_ok w) as Hok.
  { apply (steps_ok w0 w Hs). split; auto; [now rewrite Hr | now rewrite Hw | now rewrite Ht, Hg, Hq]. }
  destruct (world_copies w Hok). destruct Hok. auto.
Qed.

(** [CircleBufResize] of any buffer to a size that can be allocated initialises
    the mutex while it holds it, which is undefined. *)
Theorem resize_undefined (c : cbuf) (size : Z) (mem : list Z) :
  u32 size <> 0 -> CircleBufResize Unlocked (Some c) size (Some mem) = None.
Proof.
  intros Hs. unfold CircleBufResize, CircleBufDestroy, CircleBufCreate. cbn [snd].
  now rewrite (proj2 (Z.eqb_neq _ _) Hs).
Qed.

(** The segments when [uDataSize] is loaded again after the comparison, as the
    unlocked code reads it: [n1] is what the comparison saw, [n2] what the
    branch uses. *)
Definition segments_reloaded (c : cbuf) (ptr n1 n2 : Z) : (Z * Z) * (Z * Z) :=
  segments_branch c (uBufSize c <? ptr + n1) ptr n2.

(** The unlocked loads of the size must agree: when a writer commits [n]
    bytes across the wrap between the reader's two loads of [uDataSize], the
    reader copies past the end of the ring. *)
Theorem reload_overruns (c : cbuf) (mem mem' : list Z) (n size : Z) :
  ring_ok c mem -> length mem' = length mem -> 0 <= n <= uFreeSize c ->
  pRdPtr c + uDataSize c <= uBufSize c -> uBufSize c < pRdPtr c + (uDataSize c + n) -> uDataSize c + n <= size ->
  copy_out mem' (segments_reloaded c (pRdPtr c) (uDataSize c) (uDataSize (commit_write c n))) size = None.
Proof.
  intros [] Hl Hn H1 H2 H3. unfold segments_reloaded, segments_branch, commit_write. cbn [uDataSize].
  rewrite (proj2 (Z.ltb_ge _ _) H1), u32_id by lia. unfold copy_out.
  assert (in_range mem' (pRdPtr c) (uDataSize c + n) = false) as Hr.
  { unfold in_range. rewrite (proj2 (Z.leb_gt (pRdPtr c + _) _)) by lia. apply andb_false_r. }
  rewrite u32_id, Z.add_0_r by lia. destruct (Z.leb_spec size (uDataSize c + n)).
  - replace size with (uDataSize c + n) by lia. now rewrite Hr.
  - now rewrite Hr.
Qed.

(** ** Witnesses *)

Definition ex_mem : list Z := [1; 2; 3; 4].
Definition ex_ring : cbuf := CBuf (Some ex_mem) 4 4 2 1 3 1.
Definition ex_fresh : cbuf := CBuf (Some ex_mem) 4 4 0 0 0 4.

Lemma ex_ring_ok : ring_ok ex_ring ex_mem.
Proof. split; cbn; try lia; reflexivity. Qed.
Lemma ex_fresh_ok : ring_ok ex_fresh ex_mem.
Proof. split; cbn; try lia; reflexivity. Qed.

Lemma read_takes_oldest_witness :
  exists c', CircleBufRead (Some ex_ring) (Some [9; 9; 9; 9]) 3 = Some (3, Some [3; 4; 1; 9], Some c') /\
    queue c' ex_mem = [].
Proof.
  destruct (read_takes_oldest ex_ring ex_mem [9; 9; 9; 9] 3 ex_ring_ok) as (c' & E & _ & _ & Hq);
    [lia | cbn; lia |].
  exists c'. split; [exact E | exact Hq].
Defined.

Lemma write_appends_witness :
  exists c' mem', CircleBufWrite (Some ex_ring) (Some [7; 8]) 2 = Some (1, Some c') /\ queue c' mem' = [3; 4; 1; 7].
Proof.
  destruct (write_appends ex_ring ex_mem [7; 8] 2 ex_ring_ok) as (c' & mem' & E & _ & Hq & _); [lia | cbn; lia |].
  exists c', mem'. split; [exact E | exact Hq].
Defined.

Lemma steps_trans w1 w2 w3 : steps w1 w2 -> steps w2 w3 -> steps w1 w3.
Proof. intros H1 H2. induction H2; eauto using steps. Qed.

(** Whole calls, run without interruption. *)
Lemma write_steps c mem r t g b size mem' :
  0 < size -> size <= Z.of_nat (length b) -> uFreeSize c <> 0 ->
  copy_in mem (segments c (pWrPtr c) (uFreeSize c)) b size = Some mem' ->
  let n := moved_size (segments c (pWrPtr c) (uFreeSize c)) size in
  steps (World c mem r WIdle t g) (World (commit_write (with_mem c mem') n) mem' r WIdle t (g ++ take (Z.to_nat n) b)).
Proof. intros ? ? ? ? n. eauto 8 using steps, step. Qed.

Lemma read_steps c mem w t g size bytes :
  0 < size -> uDataSize c <> 0 -> copy_out mem (segments c (pRdPtr c) (uDataSize c)) size = Some bytes ->
  let n := moved_size (segments c (pRdPtr c) (uDataSize c)) size in
  steps (World c mem RIdle w t g) (World (commit_read c n) mem RIdle w (t ++ bytes) g).
Proof. intros ? ? ? n. eauto 8 using steps, step. Qed.

(** A write of two bytes and a read of one. *)
Lemma ex_write_read :
  exists w, steps (World ex_fresh ex_mem RIdle WIdle [] []) w /\ given w = [5; 6] /\ taken w = [5].
Proof.
  eexists. split.
  - eapply steps_trans.
    + apply (write_steps ex_fresh ex_mem RIdle [] [] [5; 6] 2); [lia | cbn; lia | discriminate | reflexivity].
    + eapply (read_steps _ _ _ _ _ 1); [lia | vm_compute; discriminate | reflexivity].
  - split; reflexivity.
Qed.

Lemma spsc_fifo_witness :
  exists w, steps (World ex_fresh ex_mem RIdle WIdle [] []) w /\ given w = [5; 6] /\ taken w = [5] /\
    given w = taken w ++ queue (ring w) (memory w).
Proof.
  destruct ex_write_read as (w & Hs & Hg & Ht). exists w. split; [exact Hs |]. split; [exact Hg |]. split; [exact Ht |].
  apply (spsc_fifo (World ex_fresh ex_mem RIdle WIdle [] [])); try reflexivity; [apply ex_fresh_ok | exact Hs].
Defined.

(** The overrun is reached from an empty ring: the reader at offset 2 has compared
    a size of 1 when the writer commits three more bytes, and its branch loads 4. *)
Theorem reader_can_overrun :
  exists w, steps (World ex_fresh ex_mem RIdle WIdle [] []) w /\
    rd w = RSeg ((2, 4), (6, 0)) 4 /\ uBufSize (ring w) = 4 /\ copy_out (memory w) ((2, 4), (6, 0)) 4 = None.
Proof.
  eexists. split.
  - eapply steps_trans.
    { apply (write_steps ex_fresh ex_mem RIdle [] [] [5; 6; 7] 3); [lia | cbn; lia | discriminate | reflexivity]. }
    eapply steps_trans; [eapply (read_steps _ _ _ _ _ 2); [lia | vm_compute; discriminate | reflexivity] |].
    eapply steps_trans.
    { eapply steps_step; [eapply steps_step; [apply steps_refl |] |].
      - apply (R_test _ _ _ _ _ 4); [lia | vm_compute; discriminate].
      - apply R_compare. }
    eapply steps_trans.
    { eapply (write_steps _ _ _ _ _ [8; 9; 10] 3); [lia | cbn; lia | vm_compute; discriminate | reflexivity]. }
    eapply steps_step; [apply steps_refl |]. apply R_segments.
  - split; [reflexivity |]. split; reflexivity.
Qed.

Lemma resize_undefined_witness : CircleBufResize Unlocked (Some ex_ring) 8 (Some [0; 0; 0; 0; 0; 0; 0; 0]) = None.
Proof. apply (resize_undefined ex_ring 8 [0; 0; 0; 0; 0; 0; 0; 0]). discriminate. Defined.

Lemma reload_overruns_witness :
  copy_out ex_mem (segments_reloaded (CBuf (Some ex_mem) 4 4 2 3 1 3) 2 1
    (uDataSize (commit_write (CBuf (Some ex_mem) 4 4 2 3 1 3) 3))) 4 = None.
Proof.
  apply (reload_overruns (CBuf (Some ex_mem) 4 4 2 3 1 3) ex_mem ex_mem 3 4); cbn; try lia; try reflexivity.
  split; cbn; try lia; reflexivity.
Defined.
