(* ===== verification/DbList.v ===== *)
(** * DbList: the locked lists of smartva

    Models [smartva/src/common/middle/dblist/dbList.c].  The members of a list
    are the data pointers, oldest first; the type [A] of the pointers is a
    parameter.  A first part models each function as it runs alone; a second
    part splits [__db_list_put_tail] and [__db_list_pop] at their calls on the
    mutexes and the condition variable. *)
From S2P Require Import Prelude CString.

Section DbList.
Context {A : Type}.

(** [db_list_t]; [members] is the chain behind [head]. *)
Record db_list := DbL { block : bool; member_num : Z; name : list Z; members : list A }.

Definition with_members (l : db_list) (ms : list A) (n : Z) : db_list := DbL (block l) n (name l) ms.

(** [db_list_create]: the arguments after [block] tell whether [malloc], the two
    [pthread_mutex_init] and [pthread_cond_init] succeed.  A NULL name is
    reported and then used. *)
Definition db_list_create (nm : option (list Z)) (blk malloc_ok mutex_ok cond_mutex_ok cond_ok : bool)
  : option (option db_list) :=
  if negb malloc_ok then Some None
  else
    match nm with
    | None => None
    | Some nm =>
        if negb mutex_ok then Some None
        else if blk && negb (cond_mutex_ok && cond_ok) then Some None
        else Some (Some (DbL blk 0 (strncpy nm 32) []))
    end.

Definition is_list_empty (l : option db_list) : Z :=
  match l with
  | None => 0
  | Some l => match members l with [] => 1 | _ => 0 end
  end.

Definition __db_list_clear (l : option db_list) : option db_list :=
  match l with
  | None => None
  | Some d =>
      if is_list_empty l =? 1 then l
      else Some (fold_left (fun d _ => with_members d (tail (members d)) (u32 (member_num d - 1))) (members d) d)
  end.

Definition __db_list_put_tail (l : option db_list) (new_node_data : option A) (malloc_ok : bool) : Z * option db_list :=
  match l, new_node_data with
  | Some d, Some a =>
      if negb malloc_ok then (-1, l)
      else (0, Some (with_members d (members d ++ [a]) (u32 (member_num d + 1))))
  | _, _ => (-1, l)
  end.

(** The locked part of [__db_list_pop]. *)
Definition pop_first (d : db_list) : option A * db_list :=
  match members d with
  | [] => (None, d)
  | a :: ms => (Some a, with_members d ms (u32 (member_num d - 1)))
  end.

(** [__db_list_pop]; [None] when it waits for a member. *)
Definition __db_list_pop (l : option db_list) : option (option A * option db_list) :=
  match l with
  | None => Some (None, None)
  | Some d =>
      if is_list_empty l =? 1 then
        if block d then None else Some (None, l)
      else let '(a, d') := pop_first d in Some (a, Some d')
  end.

(** The search loops: [compare(data, find_data) == 0]. *)
Fixpoint find_node (compare : A -> Z) (ms : list A) : option A :=
  match ms with
  | [] => None
  | a :: ms => if compare a =? 0 then Some a else find_node compare ms
  end.

Fixpoint remove_node (compare : A -> Z) (ms : list A) : list A :=
  match ms with
  | [] => []
  | a :: ms => if compare a =? 0 then ms else a :: remove_node compare ms
  end.

Definition __db_list_search_and_pop (l : option db_list) (find_data : option A) (compare : A -> A -> Z)
  : option A * option db_list :=
  match l, find_data with
  | Some d, Some f =>
      if is_list_empty l =? 1 then (None, l)
      else
        match find_node (fun a => compare a f) (members d) with
        | Some a => (Some a, Some (with_members d (remove_node (fun a => compare a f) (members d)) (u32 (member_num d - 1))))
        | None => (None, l)
        end
  | _, _ => (None, l)
  end.

Definition __db_list_search_node (l : option db_list) (find_data : option A) (compare : A -> A -> Z) : option A :=
  match l, find_data with
  | Some d, Some f =>
      if is_list_empty l =? 1 then None else find_node (fun a => compare a f) (members d)
  | _, _ => None
  end.

Fixpoint node_byindex (ms : list A) (i index : Z) : option A :=
  match ms with
  | [] => None
  | a :: ms => if index =? i then Some a else node_byindex ms (s32 (i + 1)) index
  end.

Definition __db_list_search_node_byindex (l : option db_list) (index : Z) : option A :=
  match l with
  | Some d => if is_list_empty l =? 1 then None else node_byindex (members d) 0 index
  | None => None
  end.

(** The loop of [__db_list_for_each_entry_and_pop]; the callback may change the
    state [S] outside the list. *)
Fixpoint for_each_pop {S : Type} (scan_list : A -> S -> Z * S) (ms : list A) (s : S) : list A * S :=
  match ms with
  | [] => ([], s)
  | a :: ms =>
      let '(r, s) := scan_list a s in
      let '(ms', s) := for_each_pop scan_list ms s in
      (if r =? 1 then ms' else a :: ms', s)
  end.

Definition __db_list_for_each_entry_and_pop {S : Type} (l : option db_list) (scan_list : A -> S -> Z * S) (s : S)
  : option db_list * S :=
  match l with
  | Some d =>
      if is_list_empty l =? 1 then (l, s)
      else let '(ms, s) := for_each_pop scan_list (members d) s in (Some (with_members d ms (member_num d)), s)
  | None => (l, s)
  end.

Definition __db_list_get_num (l : option db_list) : Z :=
  match l with None => 0 | Some d => s32 (member_num d) end.

(** [__db_list_destory]: the data pointers it frees, oldest first. *)
Definition __db_list_destory (l : option db_list) : list A :=
  match l with None => [] | Some d => members d end.

(** ** The count of members *)

Definition counted (d : db_list) : Prop := member_num d = u32 (Z.of_nat (length (members d))).

Lemma u32_pred x : u32 (u32 x - 1) = u32 (x - 1).
Proof. unfold u32. apply Zminus_mod_idemp_l. Qed.

Lemma u32_succ x : u32 (u32 x + 1) = u32 (x + 1).
Proof. unfold u32. apply Zplus_mod_idemp_l. Qed.

Lemma counted_put d a :
  counted d -> counted (with_members d (members d ++ [a]) (u32 (member_num d + 1))).
Proof.
  unfold counted. cbn. intros ->. rewrite u32_succ, length_app. cbn. f_equal. lia.
Qed.

Lemma counted_pop d : counted d -> counted (pop_first d).2.
Proof.
  unfold counted, pop_first. destruct (members d) as [| a ms] eqn:E; cbn.
  - now rewrite E.
  - intros ->. rewrite u32_pred. f_equal. lia.
Qed.

Lemma length_remove_node compare ms a :
  find_node compare ms = Some a -> length ms = S (length (remove_node compare ms)).
Proof.
  induction ms as [| b ms IH]; cbn; [discriminate |]. destruct (compare b =? 0); [reflexivity |].
  intros E. cbn. now rewrite <- IH.
Qed.

Lemma counted_search d f compare l' a :
  counted d -> __db_list_search_and_pop (Some d) f compare = (a, Some l') -> counted l'.
Proof.
  unfold __db_list_search_and_pop, counted. intros Hd. destruct f as [f |]; [| now intros [= <- <-]].
  destruct (_ =? 1); [now intros [= <- <-] |].
  destruct (find_node _ _) as [b |] eqn:E; [| now intros [= <- <-]].
  intros [= <- <-]. cbn. rewrite Hd, u32_pred, (length_remove_node _ _ _ E). f_equal. lia.
Qed.

Lemma clear_members (ms : list A) d :
  members d = ms -> counted d ->
  fold_left (fun d (_ : A) => with_members d (tail (members d)) (u32 (member_num d - 1))) ms d = with_members d [] 0.
Proof.
  revert d. induction ms as [| a ms IH]; intros d Hm Hc; cbn.
  - destruct d as [b n nm l]. cbn in *. subst l. unfold counted in Hc. cbn in Hc. now rewrite Hc.
  - rewrite IH; [reflexivity | cbn; now rewrite Hm |]. unfold counted in *. cbn. rewrite Hm, Hc, Hm, u32_pred. cbn. f_equal. lia.
Qed.

Lemma find_node_first compare ms a :
  find_node compare ms = Some a -> exists l1 l2, ms = l1 ++ a :: l2 /\ compare a = 0 /\
    Forall (fun b => compare b <> 0) l1 /\ remove_node compare ms = l1 ++ l2.
Proof.
  induction ms as [| b ms IH]; cbn; [discriminate |]. destruct (Z.eqb_spec (compare b) 0).
  - intros [= ->]. exists [], ms. auto.
  - intros E. destruct (IH E) as (l1 & l2 & -> & H1 & H2 & H3). exists (b :: l1), l2. rewrite H3. auto.
Qed.

Lemma find_node_none compare ms : find_node compare ms = None -> Forall (fun b => compare b <> 0) ms.
Proof.
  induction ms as [| b ms IH]; cbn; [constructor |]. destruct (Z.eqb_spec (compare b) 0); [discriminate |]. auto.
Qed.

(** ** Producer and consumer on a blocking list

    The steps of [__db_list_put_tail] (add, then signal) and of
    [__db_list_pop] (test, wait, take) between which the other thread can run.
    A signal wakes the consumer if it waits and is lost otherwise.  [put] and
    [got] record the members added and taken. *)
Inductive producer := PIdle | PAdded.
Inductive consumer := CIdle | CEmpty | CWaiting | CTake.

Record shop := Shop { shelf : list A; prod : producer; cons : consumer; put : list A; got : list (option A) }.

Inductive shop_step : shop -> shop -> Prop :=
| P_add q c p g a : shop_step (Shop q PIdle c p g) (Shop (q ++ [a]) PAdded c (p ++ [a]) g)
| P_signal q c p g :
    shop_step (Shop q PAdded c p g) (Shop q PIdle (match c with CWaiting => CTake | _ => c end) p g)
| C_test q pr p g :
    shop_step (Shop q pr CIdle p g) (Shop q pr (match q with [] => CEmpty | _ => CTake end) p g)
| C_wait q pr p g : shop_step (Shop q pr CEmpty p g) (Shop q pr CWaiting p g)
| C_take q pr p g :
    shop_step (Shop q pr CTake p g) (Shop (tail q) pr CIdle p (g ++ [head q])).

Inductive shop_steps : shop -> shop -> Prop :=
| shop_refl s : shop_steps s s
| shop_next s1 s2 s3 : shop_steps s1 s2 -> shop_step s2 s3 -> shop_steps s1 s3.

Lemma shop_steps_trans s1 s2 s3 : shop_steps s1 s2 -> shop_steps s2 s3 -> shop_steps s1 s3.
Proof. intros H1 H2. induction H2; eauto using shop_steps. Qed.

Definition shop_start : shop := Shop [] PIdle CIdle [] [].

Lemma shop_step_fifo s s' : shop_step s s' -> put s = omap id (got s) ++ shelf s -> put s' = omap id (got s') ++ shelf s'.
Proof.
  intros Hs Hf. destruct Hs; cbn in *; try assumption.
  - now rewrite Hf, app_assoc.
  - rewrite omap_app, Hf. destruct q; cbn; now rewrite ?app_nil_r, <- ?app_assoc.
Qed.

Lemma shop_steps_fifo s : shop_steps shop_start s -> put s = omap id (got s) ++ shelf s.
Proof. remember shop_start as s0. induction 1; subst; eauto using shop_step_fifo. Qed.

(** ** Properties *)

(** Every function of the list that adds or removes members keeps
    [member_num] the number of members (modulo 2^32), and the searches work on
    the oldest match: it is what [__db_list_search_node] returns and what
    [__db_list_search_and_pop] removes. *)
Theorem list_operations_counted (d : db_list) (a f : A) (compare : A -> A -> Z) :
  counted d ->
  (exists d', __db_list_put_tail (Some d) (Some a) true = (0, Some d') /\ members d' = members d ++ [a] /\ counted d') /\
  (members d <> [] -> exists d', __db_list_pop (Some d) = Some (head (members d), Some d') /\
    members d' = tail (members d) /\ counted d') /\
  (exists d', __db_list_clear (Some d) = Some d' /\ members d' = [] /\ counted d') /\
  match __db_list_search_and_pop (Some d) (Some f) compare with
  | (Some b, Some d') => exists l1 l2, members d = l1 ++ b :: l2 /\ members d' = l1 ++ l2 /\
      compare b f = 0 /\ Forall (fun c => compare c f <> 0) l1 /\ counted d' /\
      __db_list_search_node (Some d) (Some f) compare = Some b
  | (None, Some d') => d' = d /\ Forall (fun c => compare c f <> 0) (members d) /\
      __db_list_search_node (Some d) (Some f) compare = None
  | _ => False
  end.
Proof.
  intros Hd. split; [| split; [| split]].
  - eexists. split; [reflexivity |]. split; [reflexivity | now apply counted_put].
  - intros Hne. pose proof (counted_pop d Hd) as Hp. unfold __db_list_pop, is_list_empty, pop_first in *.
    destruct (members d) as [| b ms] eqn:E; [contradiction |]. cbn [Z.eqb] in *. eexists. split; [reflexivity |]. auto.
  - unfold __db_list_clear, is_list_empty. destruct (members d) as [| b ms] eqn:E.
    + exists d. auto.
    + exists (with_members d [] 0). split; [| split; reflexivity].
      simpl Z.eqb. cbv iota. f_equal. now apply clear_members.
  - destruct (__db_list_search_and_pop _ _ _) as [b [d' |]] eqn:E.
    + pose proof (counted_search d (Some f) compare d' b Hd E) as Hc.
      unfold __db_list_search_and_pop, __db_list_search_node, is_list_empty in *.
      destruct (members d) as [| x ms] eqn:Em; cbn [Z.eqb Pos.eqb] in *.
      { injection E as <- <-. split; [reflexivity | split; [constructor | reflexivity]]. }
      destruct (find_node _ (x :: ms)) as [y |] eqn:Ef.
      * injection E as <- <-. destruct (find_node_first _ _ _ Ef) as (l1 & l2 & H1 & H2 & H3 & H4).
        exists l1, l2. auto 10.
      * injection E as <- <-. split; [reflexivity | split; [now apply find_node_none | reflexivity]].
    + unfold __db_list_search_and_pop in E. destruct (_ =? 1); [discriminate |]. destruct (find_node _ _); discriminate.
Qed.

(** [__db_list_for_each_entry_and_pop] forgets the count: after a walk whose
    callback removes every member, [__db_list_get_num] still reports them. *)
Theorem for_each_forgets_count {S : Type} (d : db_list) (scan_list : A -> S -> Z * S) (s : S) :
  counted d -> (forall a s, (scan_list a s).1 = 1) -> Z.of_nat (length (members d)) < 2 ^ 31 ->
  let d' := (__db_list_for_each_entry_and_pop (Some d) scan_list s).1 in
  __db_list_get_num d' = Z.of_nat (length (members d)) /\ option_map members d' = Some [].
Proof.
  intros Hc Hall Hlt. cbn zeta. unfold __db_list_for_each_entry_and_pop, is_list_empty.
  destruct (members d) as [| a ms] eqn:E; cbn [Z.eqb Pos.eqb].
  - cbn [fst]. unfold counted in Hc. rewrite E in Hc. cbn [__db_list_get_num option_map]. rewrite Hc, E. split; reflexivity.
  - assert (forall l s0, (for_each_pop scan_list l s0).1 = []) as Hnil.
    { induction l as [| b l IH]; intros s0; [reflexivity |]. cbn [for_each_pop]. pose proof (Hall b s0) as Hb.
      destruct (scan_list b s0) as [r s1]. cbn in Hb. subst r. specialize (IH s1).
      destruct (for_each_pop scan_list l s1). exact IH. }
    specialize (Hnil (a :: ms) s). destruct (for_each_pop scan_list (a :: ms) s) as [ms' s']. cbn in Hnil. subst ms'.
    cbn [fst __db_list_get_num option_map with_members member_num members]. split; [| reflexivity].
    unfold counted in Hc. rewrite E in Hc. rewrite Hc, u32_id, s32_id by lia. reflexivity.
Qed.

(** One producer and one consumer: whatever the interleaving, the members the
    consumer got are, in order, the members put, but for those still on the
    list. *)
Theorem shop_fifo (s : shop) : shop_steps shop_start s -> put s = omap id (got s) ++ shelf s.
Proof. apply shop_steps_fifo. Qed.

(** The wake-up can be lost: the consumer can end up waiting while a member is
    on the list, and then nothing happens until the producer puts another. *)
Theorem shop_lost_wakeup (a : A) :
  exists s, shop_steps shop_start s /\ cons s = CWaiting /\ shelf s = [a] /\
    forall s', shop_step s s' -> exists b, put s' = put s ++ [b] /\ cons s' = CWaiting.
Proof.
  exists (Shop [a] PIdle CWaiting [a] []). split; [| split; [reflexivity | split; [reflexivity |]]].
  - eapply shop_next; [eapply shop_next; [eapply shop_next; [eapply shop_next; [apply shop_refl |] |] |] |].
    + apply C_test.
    + apply P_add.
    + apply P_signal.
    + apply C_wait.
  - intros s' Hs. inversion Hs; subst; cbn. eauto.
Qed.

(** A pop of a blocking list can return NULL: the signal of a member that was
    already taken wakes the consumer on an empty list. *)
Theorem shop_null_pop (a : A) :
  exists s, shop_steps shop_start s /\ put s = [a] /\ got s = [Some a; None].
Proof.
  exists (Shop [] PIdle CIdle [a] [Some a; None]). split; [| split; reflexivity].
  eapply shop_next; [eapply shop_next; [eapply shop_next; [eapply shop_next; [eapply shop_next; [eapply shop_next;
    [eapply shop_next; [apply shop_refl |] |] |] |] |] |] |].
  - apply (P_add [] CIdle [] [] a).
  - apply C_test.
  - apply C_take.
  - apply C_test.
  - apply C_wait.
  - apply P_signal.
  - apply (C_take [] PIdle [a] [Some a]).
Qed.

End DbList.

Arguments db_list : clear implicits.
Arguments shop : clear implicits.

(** ** Witnesses *)

Definition ex_list : db_list Z := DbL true 2 [] [5; 6].

Lemma list_operations_counted_witness :
  exists d', __db_list_put_tail (Some ex_list) (Some 7) true = (0, Some d') /\ members d' = [5; 6; 7] /\ counted d'.
Proof. apply (list_operations_counted ex_list 7 6 (fun a b => a - b)). reflexivity. Defined.

Lemma for_each_forgets_count_witness :
  let d' := (__db_list_for_each_entry_and_pop (Some ex_list) (fun _ (s : Z) => (1, s)) 0).1 in
  __db_list_get_num d' = 2 /\ option_map members d' = Some [].
Proof. apply (for_each_forgets_count ex_list (fun _ s => (1, s)) 0); [reflexivity | reflexivity | cbn; lia]. Defined.

Lemma shop_fifo_witness :
  shop_steps (A := Z) shop_start (Shop [5] PAdded CIdle [5] []) /\ [5] = omap id (got (Shop [5] PAdded CIdle [5] [])) ++ [5].
Proof.
  assert (shop_steps (A := Z) shop_start (Shop [5] PAdded CIdle [5] [])) as H.
  { eapply shop_next; [apply shop_refl |]. apply (P_add [] CIdle [] [] 5). }
  split; [exact H |]. apply (shop_fifo _ H).
Defined.
