(* ===== verification/UiTimer.v ===== *)
(** * UiTimer: the software timers of smartva

    Models [smartva/src/common/middle/ui_timer/ui_timer.c] and
    [default_timer.c] on the lists of [DbList].  A timer is known by the address
    of its [timer_register_info_t]; [infos] is the memory behind the addresses,
    which the two lists share.  A wait for the message thread (the [usleep]
    loops) is [None].  Reading and writing the configuration are parameters.  The
    two threads, the task that counts the ticks and the one that runs the
    callbacks, are a step relation ([timer_step]); [periodic_timer] and
    [one_shot_timer] account for every message under all their interleavings, and
    [timer_sleeps_for_ever] is what a lost wake-up leads to. *)
From stdpp Require Import sets.
From S2P Require Import Prelude CString DbList.

Definition TIMER_PTHREAD_PER_SECONED : Z := 1000 `div` 100.

Inductive timer_loop_type := TIMER_LOOP_ONE_SHOOT | TIMER_LOOP_ALWAYS.

(** [timer_register_info_t]; [has_callback] when [CallBackFunction] is set. *)
Record timer_info := TimerInfo {
  cur_tick : Z;
  time : Z;
  timerid : Z;
  looptype : timer_loop_type;
  time_name : list Z;
  has_callback : bool;
}.

Definition set_tick (i : timer_info) (t : Z) : timer_info :=
  TimerInfo t (time i) (timerid i) (looptype i) (time_name i) (has_callback i).
Definition set_time (i : timer_info) (t : Z) : timer_info :=
  TimerInfo (cur_tick i) t (timerid i) (looptype i) (time_name i) (has_callback i).

(** The memory and the two lists; [alloc] tells whether [malloc] succeeds. *)
Record timers := Timers {
  infos : Z -> timer_info;
  timer_message_list : option (db_list Z);
  timer_manage_list : option (db_list Z);
  alloc : bool;
}.

Definition set_info (f : Z -> timer_info) (p : Z) (i : timer_info) : Z -> timer_info :=
  fun q => if q =? p then i else f q.

Definition with_infos (ts : timers) (f : Z -> timer_info) : timers :=
  Timers f (timer_message_list ts) (timer_manage_list ts) (alloc ts).
Definition with_messages (ts : timers) (l : option (db_list Z)) : timers :=
  Timers (infos ts) l (timer_manage_list ts) (alloc ts).
Definition with_manage (ts : timers) (l : option (db_list Z)) : timers :=
  Timers (infos ts) (timer_message_list ts) l (alloc ts).

Definition timer_compare_register_info (f : Z -> timer_info) (data compare_param : Z) : Z :=
  if bool_decide (time_name (f data) = time_name (f compare_param)) && (timerid (f data) =? timerid (f compare_param))
  then 0 else 1.

Definition timer_message_is_exist (ts : timers) (p : Z) : bool :=
  match __db_list_search_node (timer_message_list ts) (Some p) (timer_compare_register_info (infos ts)) with
  | Some _ => true
  | None => false
  end.

Definition timer_send_message (ts : timers) (p : Z) : timers :=
  if negb (timer_message_is_exist ts p)
  then with_messages ts (__db_list_put_tail (timer_message_list ts) (Some p) (alloc ts)).2
  else ts.

Definition timer_process (p : Z) (ts : timers) : Z * timers :=
  let ts := with_infos ts (set_info (infos ts) p (set_tick (infos ts p) (u32 (cur_tick (infos ts p) + 1)))) in
  if cur_tick (infos ts p) `div` TIMER_PTHREAD_PER_SECONED =? time (infos ts p) then
    let ts := timer_send_message ts p in
    match looptype (infos ts p) with
    | TIMER_LOOP_ALWAYS => (0, with_infos ts (set_info (infos ts) p (set_tick (infos ts p) 0)))
    | TIMER_LOOP_ONE_SHOOT => (1, ts)
    end
  else (0, ts).

Definition timer_process_loop (ts : timers) : timers :=
  let '(l, ts') := __db_list_for_each_entry_and_pop (timer_manage_list ts) timer_process ts in with_manage ts' l.

Definition timer_is_exist (ts : timers) (p : Z) : bool :=
  match __db_list_search_node (timer_manage_list ts) (Some p) (timer_compare_register_info (infos ts)) with
  | Some _ => true
  | None => false
  end.

Definition timer_register (ts : timers) (register_info : option Z) : Z * timers :=
  match register_info with
  | None => (-1, ts)
  | Some p =>
      if negb (has_callback (infos ts p)) then (-1, ts)
      else
        let ts := with_infos ts (set_info (infos ts) p (set_tick (infos ts p) 0)) in
        if negb (timer_is_exist ts p) then
          let '(ret, l) := __db_list_put_tail (timer_manage_list ts) (Some p) (alloc ts) in (ret, with_manage ts l)
        else (-1, ts)
  end.

Definition timer_unregister (ts : timers) (p : Z) : option (Z * timers) :=
  if timer_is_exist ts p then
    if timer_message_is_exist ts p then None
    else Some (0, with_manage ts
      (__db_list_search_and_pop (timer_manage_list ts) (Some p) (timer_compare_register_info (infos ts))).2)
  else Some (0, ts).

Definition timer_modify_time (ts : timers) (p : Z) (timeout : Z) : option (Z * timers) :=
  if timer_message_is_exist ts p then None
  else if timeout <=? 0 then
    if timer_is_exist ts p then
      match timer_unregister ts p with Some (_, ts) => Some (0, ts) | None => None end
    else Some (0, ts)
  else
    let ts := with_infos ts (set_info (infos ts) p (set_tick (set_time (infos ts p) (u32 timeout)) 0)) in
    if negb (timer_is_exist ts p) then Some (0, (timer_register ts (Some p)).2) else Some (0, ts).

(** [timer_init] with the outcomes of its allocations and of [pthread_create]:
    it returns 0 in every case. *)
Definition timer_init (ts : timers) (list1 list2 : option (db_list Z)) (thread_ok : bool) : Z * timers :=
  match list1 with
  | None => (0, with_messages ts None)
  | Some _ =>
      match list2 with
      | None => (0, with_messages (with_manage ts None) None)
      | Some _ =>
          if thread_ok then (0, with_messages (with_manage ts list2) list1)
          else (0, with_messages (with_manage ts None) None)
      end
  end.

(** ** default_timer.c: three timers at the addresses of [default_timer] *)

Definition DEFAULT_TIMER_AUTO_POWEROFF : Z := 0.
Definition DEFAULT_TIMER_AUTO_CLOSE_SCREEN : Z := 1.
Definition DEFAULT_TIMER_AUTO_SLEEP : Z := 2.
Definition DEFAULT_TIMER_NUM : nat := 3.

Section DefaultTimer.

(** The address of [default_timer], and the strings of the configuration. *)
Variable default_timer : Z -> Z.
Variables AUTO_POWEROFF AUTO_CLOSE_SCREEN AUTO_SLEEP : list Z.
(** [read_int_type_param(PUBLIC_SCENE, name, &time)]: the result and [time]. *)
Variable read_int_type_param : list Z -> Z * Z.
Variable sleep_listid_to_time : Z -> Z.

Definition auto_power_off_timer_modify (ts : timers) (timeout : Z) : option (Z * timers) :=
  timer_modify_time ts (default_timer DEFAULT_TIMER_AUTO_POWEROFF) timeout.
Definition auto_close_screen_timer_modify (ts : timers) (timeout : Z) : option (Z * timers) :=
  timer_modify_time ts (default_timer DEFAULT_TIMER_AUTO_CLOSE_SCREEN) timeout.
Definition auto_sleep_timer_modify (ts : timers) (timeout : Z) : option (Z * timers) :=
  timer_modify_time ts (default_timer DEFAULT_TIMER_AUTO_SLEEP) timeout.

Fixpoint reset_loop (ts : timers) (indexes : list Z) : option timers :=
  match indexes with
  | [] => Some ts
  | i :: rest =>
      if timer_is_exist ts (default_timer i) then
        match timer_modify_time ts (default_timer i) (s32 (time (infos ts (default_timer i)))) with
        | Some (_, ts) => reset_loop ts rest
        | None => None
        end
      else reset_loop ts rest
  end.

Definition default_indexes : list Z := Z.of_nat <$> seq 0 DEFAULT_TIMER_NUM.
Definition reset_default_timer (ts : timers) : option timers := reset_loop ts default_indexes.

Definition auto_close_screen_timer_disable (ts : timers) : option (Z * timers) :=
  timer_unregister ts (default_timer DEFAULT_TIMER_AUTO_CLOSE_SCREEN).
Definition auto_close_screen_timer_enable (ts : timers) : option (Z * timers) :=
  timer_modify_time ts (default_timer DEFAULT_TIMER_AUTO_CLOSE_SCREEN)
    (s32 (time (infos ts (default_timer DEFAULT_TIMER_AUTO_CLOSE_SCREEN)))).

Definition default_name (i : Z) : list Z :=
  if i =? DEFAULT_TIMER_AUTO_POWEROFF then AUTO_POWEROFF
  else if i =? DEFAULT_TIMER_AUTO_CLOSE_SCREEN then AUTO_CLOSE_SCREEN else AUTO_SLEEP.

(** The fields [default_timer_settting] sets first. *)
Definition default_fields (ts : timers) (i : Z) : timers :=
  let p := default_timer i in
  with_infos ts (set_info (infos ts) p
    (TimerInfo (cur_tick (infos ts p)) (time (infos ts p)) (0xff00 + i) TIMER_LOOP_ALWAYS (default_name i) true)).

Fixpoint settting_loop (ts : timers) (indexes : list Z) : option timers :=
  match indexes with
  | [] => Some ts
  | i :: rest =>
      let time := sleep_listid_to_time (read_int_type_param (default_name i)).2 in
      let p := default_timer i in
      let ts := with_infos ts (set_info (infos ts) p (set_time (infos ts p) (u32 time))) in
      match timer_modify_time ts p (s32 (u32 time)) with
      | Some (_, ts) => settting_loop ts rest
      | None => None
      end
  end.

Definition default_timer_settting (ts : timers) : option timers :=
  settting_loop (fold_left default_fields default_indexes ts) default_indexes.

End DefaultTimer.

(** ** The keys of the timers *)

Definition key (f : Z -> timer_info) (p : Z) : list Z * Z := (time_name (f p), timerid (f p)).

Lemma compare_key f a b : timer_compare_register_info f a b = 0 <-> key f a = key f b.
Proof.
  unfold timer_compare_register_info, key. case_bool_decide as Hn; destruct (Z.eqb_spec (timerid (f a)) (timerid (f b)));
    cbn [andb]; split; congruence || discriminate.
Qed.

Lemma fmap_keys (f g : Z -> list Z * Z) (l : list Z) : (forall q, f q = g q) -> f <$> l = g <$> l.
Proof. intros H. apply list_fmap_ext. intros i x _. apply H. Qed.

(** A list does not hold a timer with the key of [p]. *)
Lemma not_exist f (l : db_list Z) p :
  match __db_list_search_node (Some l) (Some p) (timer_compare_register_info f) with Some _ => true | None => false end = false <->
  key f p ∉ key f <$> members l.
Proof.
  unfold __db_list_search_node, is_list_empty. destruct (members l) as [| a ms] eqn:E; cbn [Z.eqb Pos.eqb].
  - split; [intros _ H; now apply not_elem_of_nil in H | reflexivity].
  - rewrite <- E. clear E. generalize (members l). clear. intros ms. induction ms as [| b ms IH]; cbn.
    + split; [intros _ H; now apply not_elem_of_nil in H | reflexivity].
    + rewrite not_elem_of_cons, <- IH. destruct (Z.eqb_spec (timer_compare_register_info f b p) 0) as [Hc | Hc].
      * apply compare_key in Hc. split; [discriminate | intros [H _]; congruence].
      * assert (key f p <> key f b) by (intros E; apply Hc; apply compare_key; congruence). tauto.
Qed.

(** ** The two threads

    The timer task goes through the registered timers every 100 ms
    ([timer_process_loop]); it holds the lock of their list, and not that of the
    messages, so the message thread ([timer_message_process_loop]) runs between
    two timers and inside [__db_list_put_tail].  The search of
    [timer_send_message] and the adding of the node are one step: only this task
    adds, so a timer found absent is still absent when it is added, and one found
    on the list is left out whatever happens to it next.  [TWalk todo kept] is
    the walk between two timers; [TSignal] is between the two halves of
    [__db_list_put_tail], the node added and the condition not yet signalled.
    The message thread tests the list, waits for the condition, takes a node and
    calls its callback; a wake-up on an empty list gives NULL, which is
    dereferenced ([MNull], without a step).  A signal wakes the thread only when
    it waits; [spurious] allows a wait to end without one.  A callback returns
    and does not itself use the timers.  [log] and [dropped] record the
    callbacks that ran and the messages not sent because one of the same timer
    was still on the list; [ticks] counts the finished walks. *)
Inductive timer_task := TIdle | TWalk (todo kept : list Z) | TSignal (todo kept : list Z).
Inductive message_thread := MIdle | MEmpty | MWaiting | MTake | MCall (p : Z) | MNull.

Record timer_world := TWorld {
  tw : timers;
  task : timer_task;
  thread : message_thread;
  log : list Z;
  dropped : list Z;
  ticks : Z;
}.

Definition fires (i : timer_info) : bool := u32 (cur_tick i + 1) `div` TIMER_PTHREAD_PER_SECONED =? time i.

(** Whether [timer_process] adds a message, or finds that it must not. *)
Definition posts (ts : timers) (p : Z) : bool := fires (infos ts p) && negb (timer_message_is_exist ts p).
Definition drops (ts : timers) (p : Z) : bool := fires (infos ts p) && timer_message_is_exist ts p.

Definition messages (ts : timers) : list Z := match timer_message_list ts with Some d => members d | None => [] end.
Definition managed (ts : timers) : list Z := match timer_manage_list ts with Some d => members d | None => [] end.

Definition wake (th : message_thread) : message_thread := match th with MWaiting => MTake | _ => th end.

Inductive timer_step (spurious : bool) : timer_world -> timer_world -> Prop :=
| K_start ts th lg dr n :
    timer_step spurious (TWorld ts TIdle th lg dr n) (TWorld ts (TWalk (managed ts) []) th lg dr n)
| K_process ts p todo kept th lg dr n r ts' :
    timer_process p ts = (r, ts') ->
    let kept' := if r =? 1 then kept else kept ++ [p] in
    timer_step spurious (TWorld ts (TWalk (p :: todo) kept) th lg dr n)
      (TWorld ts' (if posts ts p then TSignal todo kept' else TWalk todo kept') th lg
        (dr ++ if drops ts p then [p] else []) n)
| K_signal ts todo kept th lg dr n :
    timer_step spurious (TWorld ts (TSignal todo kept) th lg dr n) (TWorld ts (TWalk todo kept) (wake th) lg dr n)
| K_end ts m kept th lg dr n :
    timer_manage_list ts = Some m ->
    timer_step spurious (TWorld ts (TWalk [] kept) th lg dr n)
      (TWorld (with_manage ts (Some (with_members m kept (member_num m)))) TIdle th lg dr (n + 1))
| M_test ts tk lg dr n :
    timer_step spurious (TWorld ts tk MIdle lg dr n)
      (TWorld ts tk (match messages ts with [] => MEmpty | _ => MTake end) lg dr n)
| M_wait ts tk lg dr n : timer_step spurious (TWorld ts tk MEmpty lg dr n) (TWorld ts tk MWaiting lg dr n)
| M_spurious ts tk lg dr n :
    spurious = true -> timer_step spurious (TWorld ts tk MWaiting lg dr n) (TWorld ts tk MTake lg dr n)
| M_call ts d p d' tk lg dr n :
    timer_message_list ts = Some d -> pop_first d = (Some p, d') ->
    timer_step spurious (TWorld ts tk MTake lg dr n) (TWorld (with_messages ts (Some d')) tk (MCall p) (lg ++ [p]) dr n)
| M_null ts tk lg dr n :
    messages ts = [] -> timer_step spurious (TWorld ts tk MTake lg dr n) (TWorld ts tk MNull lg dr n)
| M_return ts p tk lg dr n : timer_step spurious (TWorld ts tk (MCall p) lg dr n) (TWorld ts tk MIdle lg dr n).

Inductive timer_steps (spurious : bool) : timer_world -> timer_world -> Prop :=
| timer_refl w : timer_steps spurious w w
| timer_next w1 w2 w3 : timer_steps spurious w1 w2 -> timer_step spurious w2 w3 -> timer_steps spurious w1 w3.

Lemma timer_steps_trans b w1 w2 w3 : timer_steps b w1 w2 -> timer_steps b w2 w3 -> timer_steps b w1 w3.
Proof. intros H1 H2. induction H2; eauto using timer_steps. Qed.

(** The timers [ms] are registered, no two with the same key, and no message
    is waiting. *)
Record running (ts : timers) (ms : list Z) : Prop := Running {
  rn_manage : exists m, timer_manage_list ts = Some m /\ members m = ms;
  rn_messages : exists d, timer_message_list ts = Some d /\ members d = [] /\ block d = true;
  rn_alloc : alloc ts = true;
  rn_keys : NoDup (key (infos ts) <$> ms);
}.

Definition timer_start (ts : timers) : timer_world := TWorld ts TIdle MIdle [] [] 0.

(** ** What [timer_process] does to a timer *)

Definition tick_info (i : timer_info) : timer_info :=
  if fires i && (match looptype i with TIMER_LOOP_ALWAYS => true | _ => false end)
  then set_tick i 0 else set_tick i (u32 (cur_tick i + 1)).

Definition expires (i : timer_info) : bool :=
  fires i && match looptype i with TIMER_LOOP_ONE_SHOOT => true | _ => false end.

Lemma key_tick i : time_name (tick_info i) = time_name i /\ timerid (tick_info i) = timerid i.
Proof. unfold tick_info. destruct (_ && _); split; reflexivity. Qed.

Lemma key_ext f g p : (forall q, time_name (g q) = time_name (f q) /\ timerid (g q) = timerid (f q)) -> key g p = key f p.
Proof. intros H. unfold key. now destruct (H p) as [-> ->]. Qed.

Lemma compare_ext f g a b :
  (forall q, time_name (g q) = time_name (f q) /\ timerid (g q) = timerid (f q)) ->
  timer_compare_register_info g a b = timer_compare_register_info f a b.
Proof. intros H. unfold timer_compare_register_info. destruct (H a) as [-> ->], (H b) as [-> ->]. reflexivity. Qed.

Lemma find_node_ext {A} (c1 c2 : A -> Z) ms : (forall a, c1 a = c2 a) -> find_node c1 ms = find_node c2 ms.
Proof. intros H. induction ms as [| a ms IH]; cbn; [reflexivity |]. now rewrite H, IH. Qed.

Lemma timer_process_eq p ts d :
  timer_message_list ts = Some d -> alloc ts = true ->
  exists f', timer_process p ts = (if expires (infos ts p) then 1 else 0,
      Timers f' (Some (if posts ts p then with_members d (members d ++ [p]) (u32 (member_num d + 1)) else d))
        (timer_manage_list ts) true) /\
    (forall q, f' q = if q =? p then tick_info (infos ts p) else infos ts q).
Proof.
  intros Hd Ha. unfold timer_process, expires, posts, tick_info, fires.
  set (t := u32 (cur_tick (infos ts p) + 1)).
  set (f1 := set_info (infos ts) p (set_tick (infos ts p) t)).
  assert (f1 p = set_tick (infos ts p) t) as Hp by (unfold f1, set_info; now rewrite Z.eqb_refl).
  cbn [with_infos infos]. rewrite Hp. cbn [set_tick cur_tick time].
  destruct (t `div` TIMER_PTHREAD_PER_SECONED =? time (infos ts p)); cbn [andb].
  - unfold timer_send_message. assert (timer_message_is_exist (with_infos ts f1) p = timer_message_is_exist ts p) as ->.
    { unfold timer_message_is_exist. cbn [with_infos infos timer_message_list]. rewrite Hd. unfold __db_list_search_node.
      erewrite find_node_ext; [reflexivity |]. intros a. apply compare_ext. intros q. unfold f1, set_info.
      destruct (Z.eqb_spec q p) as [-> |]; split; reflexivity. }
    destruct (timer_message_is_exist ts p); cbn [negb with_messages with_infos infos timer_message_list timer_manage_list alloc];
      rewrite ?Hd, ?Ha; cbn [negb __db_list_put_tail snd]; unfold with_messages, with_infos;
      cbn [infos timer_message_list timer_manage_list alloc]; rewrite Hp, ?Hd, ?Ha; cbn [set_tick looptype];
      destruct (looptype (infos ts p)); eexists; (split; [reflexivity |]); intros q; cbn [infos];
      unfold f1, set_info; destruct (Z.eqb_spec q p) as [-> |]; try reflexivity; now rewrite Z.eqb_refl.
  - unfold with_infos. rewrite Hd, Ha. eexists. split; [reflexivity |]. intros q. reflexivity.
Qed.

(** A walk that the message thread does not interrupt is [timer_process_loop]. *)
Lemma walk_steps b todo : forall kept ts th lg dr n,
  exists th' dr', let '(ms, ts') := for_each_pop timer_process todo ts in
    timer_steps b (TWorld ts (TWalk todo kept) th lg dr n) (TWorld ts' (TWalk [] (kept ++ ms)) th' lg dr' n) /\
    (th <> MWaiting -> th' = th).
Proof.
  induction todo as [| p todo IH]; intros kept ts th lg dr n; cbn [for_each_pop].
  - exists th, dr. rewrite app_nil_r. split; [constructor | auto].
  - destruct (timer_process p ts) as [r ts1] eqn:E.
    set (kept' := if r =? 1 then kept else kept ++ [p]). set (dr1 := dr ++ if drops ts p then [p] else []).
    assert (exists th1, timer_steps b (TWorld ts (TWalk (p :: todo) kept) th lg dr n)
      (TWorld ts1 (TWalk todo kept') th1 lg dr1 n) /\ (th <> MWaiting -> th1 = th)) as (th1 & Hst & Hth).
    { pose proof (K_process b ts p todo kept th lg dr n r ts1 E) as Hk. cbv zeta in Hk. fold kept' dr1 in Hk. destruct (posts ts p).
      - exists (wake th). split; [| destruct th; auto; contradiction].
        eapply timer_next; [eapply timer_next; [apply timer_refl | exact Hk] | apply K_signal].
      - exists th. split; [| auto]. eapply timer_next; [apply timer_refl | exact Hk]. }
    destruct (IH kept' ts1 th1 lg dr1 n) as (th' & dr' & H). destruct (for_each_pop timer_process todo ts1) as [ms ts'].
    destruct H as [H1 H2]. exists th', dr'. split; [| intros Hw; rewrite H2; auto; rewrite Hth; auto].
    eapply timer_steps_trans; [exact Hst |]. unfold kept' in H1 |- *. destruct (r =? 1); [exact H1 |].
    now rewrite <- app_assoc in H1.
Qed.

Lemma process_manage p ts : timer_manage_list (timer_process p ts).2 = timer_manage_list ts.
Proof.
  unfold timer_process, timer_send_message. cbn [with_infos infos]. destruct (_ =? _); [| reflexivity].
  destruct (negb _); destruct (looptype _); reflexivity.
Qed.

Lemma for_each_manage ms : forall ts, timer_manage_list (for_each_pop timer_process ms ts).2 = timer_manage_list ts.
Proof.
  induction ms as [| p ms IH]; intros ts; [reflexivity |]. cbn [for_each_pop].
  pose proof (process_manage p ts) as Hp. destruct (timer_process p ts) as [r ts1]. specialize (IH ts1).
  destruct (for_each_pop timer_process ms ts1). cbn [snd] in *. congruence.
Qed.

Lemma tick_steps b ts m th lg dr n :
  timer_manage_list ts = Some m ->
  exists th' dr', timer_steps b (TWorld ts TIdle th lg dr n) (TWorld (timer_process_loop ts) TIdle th' lg dr' (n + 1)) /\
    (th <> MWaiting -> th' = th).
Proof.
  intros Hm. destruct (walk_steps b (managed ts) [] ts th lg dr n) as (th' & dr' & H).
  unfold timer_process_loop, __db_list_for_each_entry_and_pop. unfold managed in H. rewrite Hm in *.
  pose proof (for_each_manage (members m) ts) as Hmm.
  assert ((if is_list_empty (Some m) =? 1 then (Some m, ts)
      else let '(ms, s) := for_each_pop timer_process (members m) ts in (Some (with_members m ms (member_num m)), s)) =
      let '(ms, s) := for_each_pop timer_process (members m) ts in (Some (with_members m ms (member_num m)), s)) as ->.
  { unfold is_list_empty. destruct m as [bl num nm [| x l]]; reflexivity. }
  destruct (for_each_pop timer_process (members m) ts) as [ms ts']. cbn [snd] in Hmm. destruct H as [H1 H2].
  exists th', dr'. split; [| exact H2]. eapply timer_next; [| apply K_end; congruence].
  eapply timer_steps_trans; [eapply timer_next; [apply timer_refl | apply K_start] |]. unfold managed. now rewrite Hm.
Qed.

(** ** What every interleaving keeps *)

Definition calls (p : Z) (l : list Z) : Z := Z.of_nat (count_occ Z.eq_dec l p).

Lemma calls_app p l1 l2 : calls p (l1 ++ l2) = calls p l1 + calls p l2.
Proof. unfold calls. rewrite count_occ_app. lia. Qed.

Lemma calls_cons p q l : calls p (q :: l) = calls p [q] + calls p l.
Proof. apply (calls_app p [q] l). Qed.

Lemma calls_one p q : calls p [q] = if q =? p then 1 else 0.
Proof. unfold calls. cbn. destruct (Z.eq_dec q p), (Z.eqb_spec q p); lia. Qed.

Lemma calls_nodup p l : NoDup l -> calls p l <= 1.
Proof.
  intros H. unfold calls. apply base.NoDup_ListNoDup, (NoDup_count_occ Z.eq_dec) with (x := p) in H. lia.
Qed.

(** The timers that are registered, in the middle of a walk too. *)
Definition listed (w : timer_world) : list Z :=
  match task w with TIdle => managed (tw w) | TWalk todo kept | TSignal todo kept => kept ++ todo end.

(** The timers the walk has still to visit. *)
Definition unvisited (w : timer_world) : option (list Z) :=
  match task w with TIdle => None | TWalk todo _ | TSignal todo _ => Some todo end.

(** The walks that have visited [p]. *)
Definition visits (w : timer_world) (p : Z) : Z :=
  ticks w + match unvisited w with Some todo => if bool_decide (p ∈ todo) then 0 else 1 | None => 0 end.

Record walk_ok (ms : list Z) (w : timer_world) : Prop := WalkOk {
  wk_manage : is_Some (timer_manage_list (tw w));
  wk_messages : is_Some (timer_message_list (tw w));
  wk_alloc : alloc (tw w) = true;
  wk_keys : NoDup (key (infos (tw w)) <$> ms);
  wk_listed : NoDup (listed w) /\ (forall q, q ∈ listed w -> q ∈ ms);
  wk_sent : NoDup (messages (tw w)) /\ (forall q, q ∈ messages (tw w) -> q ∈ ms);
}.

(** Timers of [ms] with the same key are one timer. *)
Lemma key_inj f (ms : list Z) p q : NoDup (key f <$> ms) -> p ∈ ms -> q ∈ ms -> key f p = key f q -> p = q.
Proof.
  intros Hn Hp Hq E. apply list_elem_of_lookup in Hp as [i Hi]. apply list_elem_of_lookup in Hq as [j Hj].
  assert (i = j) as ->; [| congruence].
  eapply NoDup_lookup; [exact Hn | |]; rewrite list_lookup_fmap; [now rewrite Hi | rewrite Hj; cbn; congruence].
Qed.

Lemma message_exist_in ms w p :
  walk_ok ms w -> p ∈ ms -> timer_message_is_exist (tw w) p = bool_decide (p ∈ messages (tw w)).
Proof.
  intros [_ [d Hd] _ Hk _ [_ Hin]] Hp. unfold timer_message_is_exist, messages in *. rewrite Hd in *.
  pose proof (not_exist (infos (tw w)) d p) as Hx. case_bool_decide as Hm.
  - destruct (match __db_list_search_node _ _ _ with Some _ => true | None => false end); [reflexivity |].
    exfalso. apply (proj1 Hx eq_refl). apply list_elem_of_fmap. eauto.
  - apply Hx. intros Hf. apply list_elem_of_fmap in Hf as (q & E & Hq). apply Hm.
    now rewrite (key_inj _ _ _ _ Hk Hp (Hin q Hq) E).
Qed.

Lemma NoDup_remove {A} (l1 l2 : list A) x : NoDup (l1 ++ x :: l2) -> NoDup (l1 ++ l2) /\ x ∉ l1 ++ l2.
Proof.
  intros H. apply base.NoDup_ListNoDup, List.NoDup_remove in H as [H1 H2].
  split; [now apply base.NoDup_ListNoDup | now rewrite list_elem_of_In].
Qed.

Lemma wake_step ts tk th lg dr n th' ms : walk_ok ms (TWorld ts tk th lg dr n) -> walk_ok ms (TWorld ts tk th' lg dr n).
Proof. intros [H1 H2 H3 H4 H5 H6]. exact (WalkOk ms (TWorld ts tk th' lg dr n) H1 H2 H3 H4 H5 H6). Qed.

(** The state after [timer_process], without the wrappings. *)
Lemma process_ok ms ts p todo kept th lg dr n r ts' :
  timer_process p ts = (r, ts') -> walk_ok ms (TWorld ts (TWalk (p :: todo) kept) th lg dr n) ->
  p ∈ ms /\ r = (if expires (infos ts p) then 1 else 0) /\
  (forall q, infos ts' q = if q =? p then tick_info (infos ts p) else infos ts q) /\
  messages ts' = messages ts ++ (if posts ts p then [p] else []) /\
  timer_manage_list ts' = timer_manage_list ts /\ is_Some (timer_message_list ts') /\ alloc ts' = true /\
  timer_message_is_exist ts p = bool_decide (p ∈ messages ts).
Proof.
  intros E Hok. assert (p ∈ ms) as Hp by (destruct Hok as [_ _ _ _ [_ Hl] _]; apply Hl; cbn; rewrite elem_of_app, elem_of_cons; auto).
  pose proof (message_exist_in ms _ p Hok Hp) as Hex. destruct Hok as [_ [d Hd] Ha _ _ _]. cbn [tw] in *.
  destruct (timer_process_eq p ts d Hd Ha) as (f' & E' & Hf). rewrite E in E'. injection E' as -> ->.
  split; [exact Hp | split; [reflexivity | split; [exact Hf |]]]. unfold messages in Hex |- *. cbn [tw timer_message_list timer_manage_list alloc] in *.
  rewrite Hd in Hex |- *. split; [destruct (posts ts p); [reflexivity | now rewrite app_nil_r] |].
  split; [reflexivity | split; [eapply mk_is_Some; reflexivity | split; [reflexivity | exact Hex]]].
Qed.

Lemma walk_process ms ts p todo kept th lg dr n r ts' tk dr' :
  timer_process p ts = (r, ts') -> walk_ok ms (TWorld ts (TWalk (p :: todo) kept) th lg dr n) ->
  let kept' := if r =? 1 then kept else kept ++ [p] in
  tk = TWalk todo kept' \/ tk = TSignal todo kept' -> walk_ok ms (TWorld ts' tk th lg dr' n).
Proof.
  intros E Hok kept' Htk. destruct (process_ok _ _ _ _ _ _ _ _ _ _ _ E Hok) as (Hp & Hr & Hf & Hm & Hman & Hmsg & Ha & Hex).
  destruct Hok as [Hmn _ _ Hk [Hnd Hl] [Hns Hs]]. unfold listed in *. cbn [tw task] in *.
  assert (NoDup (kept' ++ todo) /\ forall q, q ∈ kept' ++ todo -> q ∈ ms) as [H1 H2].
  { unfold kept'. destruct (r =? 1).
    - apply NoDup_remove in Hnd as [Hnd _]. split; [exact Hnd |].
      intros q Hq. apply Hl. rewrite elem_of_app, elem_of_cons in *. tauto.
    - now rewrite <- app_assoc. }
  split; cbn [tw task]; unfold listed; cbn [tw task]; try assumption.
  - now rewrite Hman.
  - rewrite (fmap_keys (key (infos ts')) (key (infos ts))); [exact Hk |]. intros q. apply key_ext. intros q'. rewrite Hf.
    destruct (Z.eqb_spec q' p) as [-> |]; [apply key_tick | split; reflexivity].
  - now destruct Htk as [-> | ->].
  - rewrite Hm. unfold posts. rewrite Hex. case_bool_decide as Hin; rewrite ?andb_false_r, ?andb_true_r; [rewrite app_nil_r; auto |].
    destruct (fires _); [| rewrite app_nil_r; auto]. split.
    + apply list.NoDup_app. split; [exact Hns |]. split; [| apply NoDup_singleton].
      intros q Hq ->%list_elem_of_singleton. contradiction.
    + intros q. rewrite elem_of_app, list_elem_of_singleton. intros [Hq | ->]; auto.
Qed.

Lemma messages_pop ts d p d' :
  timer_message_list ts = Some d -> pop_first d = (Some p, d') ->
  messages ts = p :: messages (with_messages ts (Some d')).
Proof.
  intros Hd Hp. unfold messages, pop_first in *. cbn [with_messages timer_message_list]. rewrite Hd.
  destruct (members d); [discriminate |]. now injection Hp as -> <-.
Qed.

Lemma walk_step ms b w w' : timer_step b w w' -> walk_ok ms w -> walk_ok ms w'.
Proof.
  intros Hst Hok. destruct Hst.
  - destruct Hok. split; cbn [tw task] in *; auto.
  - eapply walk_process; [eassumption | eassumption |]. destruct (posts ts p); auto.
  - destruct Hok. split; cbn [tw task] in *; auto.
  - destruct Hok as [? ? ? ? Hl ?]. unfold listed in Hl. cbn [tw task] in *. rewrite app_nil_r in Hl.
    split; cbn [tw task]; auto.
  - now apply wake_step with MIdle.
  - now apply wake_step with MEmpty.
  - now apply wake_step with MWaiting.
  - pose proof (messages_pop _ _ _ _ H H0) as E. destruct Hok as [? ? ? ? ? Hs]. cbn [tw] in *. rewrite E in Hs.
    destruct Hs as [Hn Hs]. apply list.NoDup_cons in Hn as [_ Hn].
    split; cbn [tw]; auto. split; [exact Hn |]. intros q Hq. apply Hs. now right.
  - now apply wake_step with MTake.
  - now apply wake_step with (MCall p).
Qed.

(** A timer that has not reached its time. *)
Definition pending (i : timer_info) (t c : Z) : Prop :=
  time i = t /\ 0 < t /\ 10 * t < 2 ^ 32 /\ cur_tick i = c /\ 0 <= c < 10 * t.

Lemma fires_pending i t c : pending i t c -> fires i = (c + 1 =? 10 * t).
Proof.
  intros (Ht & H0 & Hm & Hc & Hr). unfold fires. rewrite Hc, Ht, u32_id by lia.
  change TIMER_PTHREAD_PER_SECONED with 10.
  destruct (Z.eqb_spec (c + 1) (10 * t)) as [E | E].
  - rewrite E, Z.mul_comm, Z.div_mul by lia. apply Z.eqb_refl.
  - apply Z.eqb_neq. pose proof (Z.div_lt_upper_bound (c + 1) 10 t ltac:(lia) ltac:(lia)). lia.
Qed.

Lemma tick_pending i t c :
  pending i t c ->
  ((c + 1 =? 10 * t) = false -> pending (tick_info i) t (c + 1) /\ looptype (tick_info i) = looptype i) /\
  (looptype i = TIMER_LOOP_ALWAYS -> (c + 1 =? 10 * t) = true ->
    pending (tick_info i) t 0 /\ looptype (tick_info i) = TIMER_LOOP_ALWAYS).
Proof.
  intros Hp. pose proof (fires_pending i t c Hp) as Hf. destruct Hp as (Ht & H0 & Hm & Hc & Hr).
  unfold tick_info. rewrite Hf. split.
  - intros E. rewrite E. cbn [andb]. apply Z.eqb_neq in E. rewrite Hc, u32_id by lia. split; [| reflexivity].
    split; [exact Ht | cbn; lia].
  - intros Hl E. rewrite E, Hl. cbn [andb]. split; [| exact Hl]. split; [exact Ht | cbn; lia].
Qed.

(** How often a timer of [t] seconds has fired after [n] visits. *)
Definition due (k : timer_loop_type) (t n : Z) : Z :=
  match k with TIMER_LOOP_ALWAYS => n `div` (10 * t) | TIMER_LOOP_ONE_SHOOT => if 10 * t <=? n then 1 else 0 end.

(** The state of a timer after [n] visits, and whether it is still listed. *)
Definition timer_at (k : timer_loop_type) (i : timer_info) (here : Prop) (t n : Z) : Prop :=
  match k with
  | TIMER_LOOP_ALWAYS => here /\ looptype i = k /\ pending i t (n mod (10 * t))
  | TIMER_LOOP_ONE_SHOOT => here /\ looptype i = k /\ pending i t n \/ ~ here /\ 0 < 10 * t <= n
  end.

Definition accounted (w : timer_world) (p : Z) : Z :=
  calls p (log w) + calls p (messages (tw w)) + calls p (dropped w).

Record timer_ok (p : Z) (k : timer_loop_type) (t : Z) (w : timer_world) : Prop := TimerOk {
  tm_state : timer_at k (infos (tw w) p) (p ∈ listed w) t (visits w p);
  tm_calls : accounted w p = due k t (visits w p);
}.

Lemma timer_ok_same p k t w w' :
  timer_ok p k t w -> infos (tw w') p = infos (tw w) p -> (p ∈ listed w' <-> p ∈ listed w) ->
  visits w' p = visits w p -> accounted w' p = accounted w p -> timer_ok p k t w'.
Proof.
  intros [Hs Hc] Hi Hl Hv Ha. split; [| congruence]. rewrite Hi, Hv. unfold timer_at in *.
  destruct k; tauto.
Qed.

(** One visit of the walk. *)
Lemma timer_at_visit k i t n (here here' : Prop) :
  timer_at k i here t n -> here -> (here' <-> expires i = false) ->
  timer_at k (tick_info i) here' t (n + 1) /\ due k t (n + 1) = due k t n + (if fires i then 1 else 0).
Proof.
  intros Hat Hh Hh'. unfold expires in Hh'. destruct k; cbn [timer_at due] in *.
  - destruct Hat as [(_ & Hl & Hp) | [Hn _]]; [| contradiction].
    rewrite (fires_pending _ _ _ Hp), Hl, andb_true_r in *. destruct (tick_pending _ _ _ Hp) as [Hno _].
    pose proof Hp as (_ & H0 & _ & _ & Hr). destruct (Z.eqb_spec (n + 1) (10 * t)).
    + split; [right; split; [intros Hx; apply Hh' in Hx; discriminate | lia] |].
      rewrite (proj2 (Z.leb_le _ _)), (proj2 (Z.leb_gt (10 * t) n)) by lia. reflexivity.
    + destruct (Hno eq_refl) as [Hp' Hl']. rewrite Hl in Hl'. split; [left; tauto |].
      rewrite !(proj2 (Z.leb_gt (10 * t) _)) by lia. reflexivity.
  - destruct Hat as (_ & Hl & Hp). rewrite (fires_pending _ _ _ Hp), Hl, andb_false_r in *.
    destruct (tick_pending _ _ _ Hp) as [Hno Hyes]. pose proof Hp as (_ & H0 & _ & _ & Hr).
    pose proof (Z.div_mod n (10 * t) ltac:(lia)) as Hd. destruct (Z.eqb_spec (n mod (10 * t) + 1) (10 * t)) as [E | E].
    + assert (n + 1 = 0 + (n `div` (10 * t) + 1) * (10 * t)) as -> by lia. rewrite Z_mod_plus_full, Z.div_add by lia.
      destruct (Hyes Hl eq_refl) as [Hp' Hl']. split; [| reflexivity]. split; [tauto | split; [exact Hl' | exact Hp']].
    + assert (n + 1 = (n mod (10 * t) + 1) + n `div` (10 * t) * (10 * t)) as Hn1 by lia.
      rewrite Hn1, Z_mod_plus_full, Z.div_add, Z.mod_small, Z.div_small by lia.
      destruct (Hno eq_refl) as [Hp' Hl']. rewrite Hl in Hl'. split; [tauto | lia].
Qed.

Lemma walk_process_timer ms ts p0 todo kept th lg dr n r ts' tk p k t :
  timer_process p0 ts = (r, ts') -> walk_ok ms (TWorld ts (TWalk (p0 :: todo) kept) th lg dr n) ->
  let kept' := if r =? 1 then kept else kept ++ [p0] in
  tk = TWalk todo kept' \/ tk = TSignal todo kept' ->
  timer_ok p k t (TWorld ts (TWalk (p0 :: todo) kept) th lg dr n) ->
  timer_ok p k t (TWorld ts' tk th lg (dr ++ if drops ts p0 then [p0] else []) n).
Proof.
  intros E Hok kept' Htk Ht. destruct (process_ok _ _ _ _ _ _ _ _ _ _ _ E Hok) as (_ & Hr & Hf & Hm & _ & _ & _ & _).
  set (w' := TWorld ts' tk _ _ _ _).
  assert (listed w' = kept' ++ todo /\ unvisited w' = Some todo) as [Hl Hu] by (unfold w'; destruct Htk as [-> | ->]; auto).
  assert (accounted w' p = accounted (TWorld ts (TWalk (p0 :: todo) kept) th lg dr n) p +
    (if p0 =? p then (if fires (infos ts p0) then 1 else 0) else 0)) as Ha.
  { unfold w', accounted. cbn [log tw dropped]. rewrite Hm, !calls_app. unfold posts, drops.
    destruct (fires _), (timer_message_is_exist ts p0); cbn [andb negb]; rewrite ?calls_one;
      destruct (p0 =? p); cbn [calls count_occ Z.of_nat]; unfold calls; cbn [count_occ Z.of_nat]; lia. }
  destruct Hok as [_ _ _ _ [Hnd _] _]. unfold listed in Hnd. cbn [task] in Hnd. apply NoDup_remove in Hnd as [_ Hnot].
  rewrite elem_of_app in Hnot.
  destruct (Z.eqb_spec p0 p) as [-> | Hne].
  - destruct Ht as [Hs Hc]. unfold visits, listed, unvisited in Hs, Hc. cbn [task tw ticks] in Hs, Hc.
    rewrite bool_decide_eq_true_2, Z.add_0_r in Hs, Hc by (now left).
    destruct (timer_at_visit k (infos ts p) t n _ (p ∈ listed w') Hs) as [Hs' Hd].
    { apply elem_of_app. right. now left. }
    { rewrite Hl, elem_of_app. unfold kept'. rewrite Hr. destruct (expires _); cbn [Z.eqb Pos.eqb]; [split; [tauto | discriminate] |].
      rewrite elem_of_app, list_elem_of_singleton. tauto. }
    assert (visits w' p = n + 1) as Hv.
    { unfold visits. rewrite Hu, bool_decide_eq_false_2 by tauto. reflexivity. }
    split; rewrite Hv; [| now rewrite Ha, Hc, Hd]. unfold w' at 1. cbn [tw]. now rewrite Hf, Z.eqb_refl.
  - apply (timer_ok_same _ _ _ _ w' Ht).
    + cbn [w' tw]. rewrite Hf. destruct (Z.eqb_spec p p0); [congruence | reflexivity].
    + rewrite Hl. unfold listed. cbn [task]. unfold kept'. rewrite !elem_of_app, elem_of_cons.
      destruct (r =? 1); rewrite ?elem_of_app, ?list_elem_of_singleton; intuition congruence.
    + unfold visits. rewrite Hu. cbn [unvisited task]. f_equal.
      rewrite (bool_decide_ext (p ∈ p0 :: todo) (p ∈ todo)); [reflexivity |]. rewrite elem_of_cons. intuition congruence.
    + lia.
Qed.

Lemma timer_step_ok ms b w w' p k t : timer_step b w w' -> walk_ok ms w -> timer_ok p k t w -> timer_ok p k t w'.
Proof.
  intros Hst Hok Ht. destruct Hst; try (destruct Ht; now split).
  - destruct Ht as [Hs Hc]. unfold visits, listed, unvisited, accounted in Hs, Hc. cbn [task tw log dropped ticks] in Hs, Hc.
    rewrite Z.add_0_r in Hs, Hc. destruct (decide (p ∈ managed ts)) as [Hin | Hout].
    + split; unfold visits, listed, unvisited, accounted; cbn [task tw log dropped ticks app];
        rewrite bool_decide_eq_true_2, Z.add_0_r by assumption; assumption.
    + destruct k; cbn [timer_at] in Hs; [| destruct Hs; contradiction]. destruct Hs as [[Hin _] | [_ Hn]]; [contradiction |].
      split; unfold visits, listed, unvisited, accounted; cbn [task tw log dropped ticks app timer_at due] in *;
        rewrite bool_decide_eq_false_2 by assumption; [right; split; [assumption | lia] |].
      rewrite Hc, (proj2 (Z.leb_le (10 * t) n)), (proj2 (Z.leb_le (10 * t) (n + 1))) by lia. reflexivity.
  - eapply walk_process_timer; [eassumption | eassumption | | exact Ht]. destruct (posts ts p0); auto.
  - destruct Ht as [Hs Hc]. unfold visits, listed, unvisited, accounted in Hs, Hc. cbn [task tw log dropped ticks] in Hs, Hc.
    rewrite bool_decide_eq_false_2 in Hs, Hc by apply not_elem_of_nil. rewrite app_nil_r in Hs.
    split; unfold visits, listed, unvisited, accounted; cbn [task tw log dropped ticks]; rewrite Z.add_0_r; assumption.
  - apply (timer_ok_same _ _ _ _ _ Ht); try reflexivity. unfold accounted. cbn [log tw dropped].
    rewrite (messages_pop _ _ _ _ H H0), calls_app, (calls_cons p p0 (messages _)). lia.
Qed.

Lemma timer_steps_ok ms b w w' p k t :
  timer_steps b w w' -> walk_ok ms w -> timer_ok p k t w -> walk_ok ms w' /\ timer_ok p k t w'.
Proof.
  intros Hst Hok Ht. induction Hst as [| w1 w2 w3 Hst IH Hs]; [auto |]. destruct (IH Hok Ht) as [H1 H2].
  eauto using walk_step, timer_step_ok.
Qed.

Lemma start_ok ts ms p t :
  running ts ms -> p ∈ ms -> time (infos ts p) = t -> 0 < t -> 10 * t < 2 ^ 32 -> cur_tick (infos ts p) = 0 ->
  walk_ok ms (timer_start ts) /\ timer_ok p (looptype (infos ts p)) t (timer_start ts).
Proof.
  intros [(m & Hm & Hms) (d & Hd & Hmd & _) Ha Hk] Hp Ht H0 Hb Hc. assert (managed ts = ms) as Hman by (unfold managed; now rewrite Hm).
  assert (messages ts = []) as Hmsg by (unfold messages; now rewrite Hd).
  split; [split; cbn [timer_start tw]; unfold listed; cbn [timer_start task tw]; rewrite ?Hman, ?Hmsg; auto |].
  - split; [now apply NoDup_fmap_1 in Hk | auto].
  - split; [constructor | intros q Hq; now apply not_elem_of_nil in Hq].
  - split; unfold visits, accounted, listed; cbn [timer_start task tw log dropped ticks unvisited]; rewrite Hman || rewrite Hmsg.
    + unfold timer_at, pending. destruct (looptype (infos ts p)) eqn:E.
      * left. rewrite Hc. repeat split; auto; lia.
      * rewrite Hc. repeat split; auto; rewrite Z.add_0_r, ?Z.mod_small; lia.
    + cbn. destruct (looptype (infos ts p)); cbn [due].
      * now rewrite (proj2 (Z.leb_gt _ _)) by lia.
      * now rewrite Z.div_small by lia.
Qed.

(** ** The thread that sleeps for ever *)

(** The message thread waits, a message of the one timer is on the list, and no
    signal is under way. *)
Definition asleep (p : Z) (w : timer_world) : Prop :=
  thread w = MWaiting /\ is_Some (timer_manage_list (tw w)) /\ alloc (tw w) = true /\
  (exists d, timer_message_list (tw w) = Some d /\ members d = [p]) /\
  (forall q, q ∈ listed w -> q = p) /\ match task w with TSignal _ _ => False | _ => True end.

Lemma message_exist_self ts d p : timer_message_list ts = Some d -> members d = [p] -> timer_message_is_exist ts p = true.
Proof.
  intros Hd Hm. unfold timer_message_is_exist. rewrite Hd. pose proof (not_exist (infos ts) d p) as Hx.
  destruct (match __db_list_search_node _ _ _ with Some _ => true | None => false end); [reflexivity |].
  exfalso. apply (proj1 Hx eq_refl). rewrite Hm. now left.
Qed.

Lemma asleep_step p w w' : timer_step false w w' -> asleep p w -> asleep p w' /\ log w' = log w.
Proof.
  intros Hst (Hth & Hman & Ha & (d & Hd & Hm) & Hl & Htk).
  destruct Hst; cbn [thread task tw log] in *; try discriminate; try contradiction.
  - split; [| reflexivity]. unfold asleep, listed in *. cbn [thread task tw app] in *. eauto 10.
  - assert (p0 = p) as -> by (apply Hl; unfold listed; cbn; rewrite elem_of_app, elem_of_cons; auto).
    destruct (timer_process_eq p ts d Hd Ha) as (f' & E & _). rewrite H in E. injection E as _ ->.
    assert (posts ts p = false) as ->.
    { unfold posts. rewrite (message_exist_self _ _ _ Hd Hm). apply andb_false_r. }
    split; [| reflexivity]. unfold asleep, listed in *. cbn [thread task tw timer_manage_list timer_message_list alloc] in *.
    split; [exact Hth | split; [exact Hman | split; [reflexivity | split; [eauto | split; [| exact I]]]]].
    intros q. unfold kept'. destruct (r =? 1); rewrite ?elem_of_app; intros Hq; apply Hl; rewrite elem_of_app, elem_of_cons;
      rewrite ?list_elem_of_singleton in Hq; tauto.
  - split; [| reflexivity]. unfold asleep, listed in *. cbn [thread task tw] in *. rewrite app_nil_r in Hl.
    cbn. eauto 10.
Qed.

Lemma asleep_steps p w w' : timer_steps false w w' -> asleep p w -> asleep p w' /\ log w' = log w.
Proof.
  intros Hst Hw. induction Hst as [| w1 w2 w3 Hst IH Hs]; [auto |]. destruct (IH Hw) as [H1 H2].
  destruct (asleep_step p w2 w3 Hs H1) as [H3 H4]. split; [exact H3 | congruence].
Qed.

(** ** Properties *)

(** C35: A periodic timer of [t] seconds, registered among others with other
    keys, with memory for the messages, under every interleaving of the timer task
    and the message thread, with or without spurious wake-ups: after [n] walks of the timer task the callback
    has been called [n / (10 t)] times, less the message still on the list (at most one)
    and the messages that were not sent because an earlier one was still there;
    the timer is still registered and counts [n] modulo [10 t]. *)
Theorem periodic_timer (spurious : bool) (ts : timers) (ms : list Z) (p t : Z) (w : timer_world) :
  running ts ms -> p ∈ ms -> looptype (infos ts p) = TIMER_LOOP_ALWAYS ->
  time (infos ts p) = t -> 0 < t -> 10 * t < 2 ^ 32 -> cur_tick (infos ts p) = 0 ->
  timer_steps spurious (timer_start ts) w -> task w = TIdle ->
  calls p (log w) + calls p (messages (tw w)) + calls p (dropped w) = ticks w `div` (10 * t) /\
  calls p (messages (tw w)) <= 1 /\ p ∈ managed (tw w) /\ cur_tick (infos (tw w) p) = ticks w `mod` (10 * t).
Proof.
  intros Hr Hp Hl Ht H0 Hm Hc Hs Hidle. destruct (start_ok ts ms p t) as [Hok Htm]; auto. rewrite Hl in Htm.
  destruct (timer_steps_ok ms spurious _ w p _ t Hs Hok Htm) as [[_ _ _ _ _ [Hn _]] [(Hin & _ & Hpend) Hac]].
  unfold accounted, visits, unvisited, listed in *. rewrite Hidle, Z.add_0_r in *. cbn [due] in Hac.
  split; [exact Hac | split; [now apply calls_nodup |]]. split; [exact Hin | apply Hpend].
Qed.

(** A one-shot timer fires once, at walk [10 t], and leaves the list at that
    moment: the callback has been called, or its message waits or was dropped. *)
Theorem one_shot_timer (spurious : bool) (ts : timers) (ms : list Z) (p t : Z) (w : timer_world) :
  running ts ms -> p ∈ ms -> looptype (infos ts p) = TIMER_LOOP_ONE_SHOOT ->
  time (infos ts p) = t -> 0 < t -> 10 * t < 2 ^ 32 -> cur_tick (infos ts p) = 0 ->
  timer_steps spurious (timer_start ts) w -> task w = TIdle ->
  calls p (log w) + calls p (messages (tw w)) + calls p (dropped w) = (if 10 * t <=? ticks w then 1 else 0) /\
  (p ∈ managed (tw w) <-> ticks w < 10 * t).
Proof.
  intros Hr Hp Hl Ht H0 Hm Hc Hs Hidle. destruct (start_ok ts ms p t) as [Hok Htm]; auto. rewrite Hl in Htm.
  destruct (timer_steps_ok ms spurious _ w p _ t Hs Hok Htm) as [_ [Hst Hac]].
  unfold accounted, visits, unvisited, listed in *. rewrite Hidle, Z.add_0_r in *. cbn [due timer_at] in *.
  split; [exact Hac |]. destruct Hst as [(Hin & _ & _ & _ & _ & _ & Hr') | [Hout Hr']]; [split; [lia | auto] |].
  split; [contradiction | lia].
Qed.

(** A lost wake-up is for ever: with one timer, when the message thread waits
    while the message is on the list, every later message is dropped and the
    callback never runs again, unless a wait ends without a signal. *)
Theorem timer_sleeps_for_ever (p : Z) (w w' : timer_world) :
  asleep p w -> timer_steps false w w' -> log w' = log w /\ messages (tw w') = [p].
Proof.
  intros Hw Hs. destruct (asleep_steps p w w' Hs Hw) as [(_ & _ & _ & (d & Hd & Hm) & _) Hl].
  split; [exact Hl |]. unfold messages. now rewrite Hd.
Qed.

(** Registering a timer with a fresh key adds it and starts it from zero; a
    timer whose key is taken is refused and only its tick is reset. *)
Theorem register_timer (ts : timers) (ms : list Z) (p : Z) :
  running ts ms -> has_callback (infos ts p) = true ->
  exists r ts', timer_register ts (Some p) = (r, ts') /\ cur_tick (infos ts' p) = 0 /\
    if bool_decide (key (infos ts) p ∈ key (infos ts) <$> ms) then r = -1 /\ running ts' ms
    else r = 0 /\ running ts' (ms ++ [p]).
Proof.
  intros [(m & Hm & Hms) (d & Hd & Hmd & Hbd) Ha Hk] Hcb. unfold timer_register. rewrite Hcb. cbn [negb].
  set (f1 := set_info (infos ts) p (set_tick (infos ts p) 0)).
  assert (forall q, key f1 q = key (infos ts) q) as Hk1.
  { intros q. apply key_ext. intros q'. unfold f1, set_info. destruct (Z.eqb_spec q' p) as [-> |]; split; reflexivity. }
  assert (cur_tick (f1 p) = 0) as Hc by (unfold f1, set_info; now rewrite Z.eqb_refl).
  unfold timer_is_exist. cbn [with_infos infos timer_manage_list alloc]. rewrite Hm.
  pose proof (not_exist f1 m p) as Hex. rewrite Hms, Hk1, (fmap_keys _ _ ms Hk1) in Hex.
  case_bool_decide as Hin.
  - destruct (match __db_list_search_node (Some m) (Some p) (timer_compare_register_info f1) with Some _ => true | None => false end) eqn:Es;
      [| now apply Hex in Hin].
    cbn [negb]. eexists _, _. split; [reflexivity |]. cbn [with_infos infos]. split; [exact Hc |]. split; [reflexivity |].
    split; cbn; eauto. now rewrite (fmap_keys _ _ ms Hk1).
  - rewrite (proj2 Hex Hin), Ha. cbn [negb __db_list_put_tail]. eexists _, _. split; [reflexivity |].
    cbn [with_manage with_infos infos]. split; [exact Hc |]. split; [reflexivity |].
    split; cbn; eauto.
    + eexists. split; [reflexivity |]. cbn. now rewrite Hms.
    + rewrite fmap_app. cbn. rewrite Hk1, (fmap_keys _ _ ms Hk1). apply list.NoDup_app. split; [exact Hk |].
      split; [| apply NoDup_singleton]. intros x Hx Hy. apply list_elem_of_singleton in Hy. congruence.
Qed.

(** ** Witnesses *)

Definition ex_infos (q : Z) : timer_info :=
  TimerInfo 0 2 q (if q =? 1 then TIMER_LOOP_ALWAYS else TIMER_LOOP_ONE_SHOOT) [116] true.
Definition ex_timers : timers :=
  Timers ex_infos (Some (DbL true 0 [] [])) (Some (DbL false 2 [] [1; 2])) true.

Lemma ex_running : running ex_timers [1; 2].
Proof. split; cbn; eauto. by_compute. Qed.

(** A run of ten walks in which the message thread handles the message. *)
Definition ex_one : timers :=
  Timers (fun q => TimerInfo 0 1 q TIMER_LOOP_ALWAYS [116] true) (Some (DbL true 0 [] [])) (Some (DbL false 1 [] [1])) true.

Lemma ex_one_running : running ex_one [1].
Proof. split; cbn; eauto. by_compute. Qed.

Fixpoint loops (n : nat) (ts : timers) : timers := match n with O => ts | S n => loops n (timer_process_loop ts) end.

Lemma loops_steps b n : forall ts th lg dr k,
  is_Some (timer_manage_list ts) -> th <> MWaiting ->
  exists dr', timer_steps b (TWorld ts TIdle th lg dr k) (TWorld (loops n ts) TIdle th lg dr' (k + Z.of_nat n)).
Proof.
  induction n as [| n IH]; intros ts th lg dr k [m Hm] Hth.
  - exists dr. cbn [loops]. rewrite Z.add_0_r. constructor.
  - destruct (tick_steps b ts m th lg dr k Hm) as (th' & dr1 & H1 & H2). rewrite (H2 Hth) in H1.
    destruct (IH (timer_process_loop ts) th lg dr1 (k + 1)) as (dr2 & H3).
    { unfold timer_process_loop, __db_list_for_each_entry_and_pop. rewrite Hm.
      destruct (is_list_empty _ =? 1); [eauto |]. destruct (for_each_pop _ _ _). eauto. }
    { exact Hth. }
    exists dr2. eapply timer_steps_trans; [exact H1 |]. cbn [loops].
    replace (k + Z.of_nat (S n)) with (k + 1 + Z.of_nat n) by lia. exact H3.
Qed.

Lemma take_steps b ts tk lg dr n p ms :
  messages ts = p :: ms ->
  exists ts', timer_steps b (TWorld ts tk MIdle lg dr n) (TWorld ts' tk (MCall p) (lg ++ [p]) dr n).
Proof.
  intros Hm. pose proof (M_test b ts tk lg dr n) as Ht. rewrite Hm in Ht. unfold messages in Hm.
  destruct (timer_message_list ts) as [d |] eqn:Hd; [| discriminate].
  exists (with_messages ts (Some (with_members d ms (u32 (member_num d - 1))))).
  eapply timer_next; [eapply timer_next; [apply timer_refl | exact Ht] |]. eapply M_call; [exact Hd |].
  unfold pop_first. now rewrite Hm.
Qed.

Lemma ex_one_message : messages (loops 10 ex_one) = [1].
Proof. vm_compute. reflexivity. Qed.

Lemma ex_one_run :
  exists w, timer_steps false (timer_start ex_one) w /\ task w = TIdle /\ log w = [1] /\ ticks w = 10.
Proof.
  destruct (loops_steps false 10 ex_one MIdle [] [] 0) as (dr & H); [eauto | discriminate |].
  destruct (take_steps false (loops 10 ex_one) TIdle [] dr (0 + Z.of_nat 10) 1 [] ex_one_message) as (ts' & H').
  eexists. split; [eapply timer_steps_trans; [exact H | exact H'] |]. split; [reflexivity | split; reflexivity].
Qed.

Lemma periodic_timer_witness :
  exists w, timer_steps false (timer_start ex_one) w /\ log w = [1] /\
    calls 1 (log w) + calls 1 (messages (tw w)) + calls 1 (dropped w) = 1 /\ ticks w = 10.
Proof.
  destruct ex_one_run as (w & Hs & Hi & Hl & Ht). exists w. split; [exact Hs |]. split; [exact Hl |]. split; [| exact Ht].
  destruct (periodic_timer false ex_one [1] 1 1 w ex_one_running) as [H _]; [left | reflexivity | reflexivity | lia | lia | reflexivity | exact Hs | exact Hi |].
  rewrite H, Ht. reflexivity.
Defined.

Lemma one_shot_timer_witness :
  let w := timer_start ex_timers in
  calls 2 (log w) + calls 2 (messages (tw w)) + calls 2 (dropped w) = 0 /\ (2 ∈ managed (tw w) <-> ticks w < 10 * 2).
Proof.
  apply (one_shot_timer false ex_timers [1; 2] 2 2 (timer_start ex_timers) ex_running); try reflexivity; try lia.
  - right. left.
  - constructor.
Defined.

(** The wake-up is lost when the thread has found the list empty and does not
    yet wait. *)
Lemma ex_one_asleep : exists w, timer_steps false (timer_start ex_one) w /\ asleep 1 w /\ log w = [].
Proof.
  destruct (loops_steps false 10 ex_one MEmpty [] [] 0) as (dr & H); [eauto | discriminate |].
  eexists. split.
  - eapply timer_next; [eapply timer_steps_trans; [| exact H] | apply M_wait].
    eapply timer_next; [apply timer_refl | apply M_test].
  - split; [| reflexivity]. split; [reflexivity |]. split; [eexists; vm_compute; reflexivity |]. split; [reflexivity |].
    split; [eexists; split; [vm_compute; reflexivity | reflexivity] |]. split; [| exact I].
    intros q Hq. apply list_elem_of_singleton. exact Hq.
Qed.

Lemma timer_sleeps_for_ever_witness :
  exists w, timer_steps false (timer_start ex_one) w /\ log w = [] /\ messages (tw w) = [1].
Proof.
  destruct ex_one_asleep as (w & Hs & Ha & Hl). exists w. split; [exact Hs |]. split; [exact Hl |].
  apply (timer_sleeps_for_ever 1 w w Ha). constructor.
Defined.

Lemma register_timer_witness :
  exists r ts', timer_register ex_timers (Some 3) = (r, ts') /\ cur_tick (infos ts' 3) = 0 /\ r = 0 /\ running ts' [1; 2; 3].
Proof. apply (register_timer ex_timers [1; 2] 3 ex_running). reflexivity. Defined.
