(* ===== verification/Siit.v ===== *)
(** * Siit: the stateless IP/ICMP translator, IPv4 to IPv6

    Models [ip4_ip6] of [feeds/net/siit/src/siit.c] on byte buffers.  A source
    pointer is the list of the bytes from it to the end of its buffer; the
    destination buffer is the state of a small error monad and destination
    pointers are offsets in it.  Reading or writing outside a buffer, or a
    [memcpy] whose [int] length is negative, is [Fault]; [return -1] is
    [Dropped]; [Spin] is a computation that did not finish within its fuel.
    The host is little endian, as the targets of the tree are.  The checksum
    routines of the kernel are parameters. *)
From S2P Require Import Prelude.

(** ** The kernel's checksum routines and the module's variable *)

(** A [__sum16] is the 16-bit value whose two bytes, lowest first, are stored
    in the packet. *)
Class SiitEnv := {
  tos_ignore_flag : bool;
  csum_partial : list Z -> Z -> Z;
  csum_ipv6_magic : list Z -> list Z -> Z -> Z -> Z -> Z;
  csum_tcpudp_magic : list Z -> list Z -> Z -> Z -> Z -> Z;
  ip_fast_csum : list Z -> Z;
  ip_compute_csum : list Z -> Z;
}.

(** ** Constants: [siit.h], and the protocol numbers of the kernel's headers *)

Definition FRAG_BUFF_SIZE : Z := 1232.
Definition TRANSLATED_PREFIX : Z := 0xffff.
Definition MAPPED_PREFIX : Z := 0xffff.
Definition IP4_IP6_HDR_DIFF : Z := 20.
Definition IP6_FRAGMENT_SIZE : Z := 8.
Definition IP6F_OFF_MASK : Z := 0xfff8.
Definition IP6F_MORE_FRAG : Z := 1.

Definition IP_DF : Z := 0x4000.
Definition IP_MF : Z := 0x2000.
Definition IP_OFFSET : Z := 0x1fff.
Definition IPPROTO_ICMP : Z := 1.
Definition IPPROTO_TCP : Z := 6.
Definition IPPROTO_UDP : Z := 17.
Definition IPPROTO_ICMPV6 : Z := 58.
Definition NEXTHDR_HOP : Z := 0.
Definition NEXTHDR_TCP : Z := 6.
Definition NEXTHDR_UDP : Z := 17.
Definition NEXTHDR_IPV6 : Z := 41.
Definition NEXTHDR_ROUTING : Z := 43.
Definition NEXTHDR_FRAGMENT : Z := 44.
Definition NEXTHDR_ESP : Z := 50.
Definition NEXTHDR_AUTH : Z := 51.
Definition NEXTHDR_ICMP : Z := 58.
Definition NEXTHDR_NONE : Z := 59.
Definition NEXTHDR_DEST : Z := 60.

Definition ICMP_ECHOREPLY : Z := 0.
Definition ICMP_DEST_UNREACH : Z := 3.
Definition ICMP_ECHO : Z := 8.
Definition ICMP_TIME_EXCEEDED : Z := 11.
Definition ICMP_PARAMETERPROB : Z := 12.
Definition ICMPV6_DEST_UNREACH : Z := 1.
Definition ICMPV6_PKT_TOOBIG : Z := 2.
Definition ICMPV6_TIME_EXCEED : Z := 3.
Definition ICMPV6_PARAMPROB : Z := 4.
Definition ICMPV6_ECHO_REQUEST : Z := 128.
Definition ICMPV6_ECHO_REPLY : Z := 129.

(** ** The monad *)

Inductive out (A : Type) :=
  | Ok (a : A) (dst : list Z)
  | Dropped
  | Fault
  | Spin.
Arguments Ok {A} a dst.
Arguments Dropped {A}.
Arguments Fault {A}.
Arguments Spin {A}.

Definition M (A : Type) : Type := list Z -> out A.
Definition ret {A} (a : A) : M A := fun dst => Ok a dst.
Definition drop_packet {A} : M A := fun _ => Dropped.
Definition fault {A} : M A := fun _ => Fault.
Definition spin {A} : M A := fun _ => Spin.
Definition bind {A B} (m : M A) (k : A -> M B) : M B := fun dst =>
  match m dst with
  | Ok a dst' => k a dst'
  | Dropped => Dropped
  | Fault => Fault
  | Spin => Spin
  end.

Declare Scope siit_scope.
Delimit Scope siit_scope with siit.
Notation "x <- m ; k" := (bind m (fun x => k)) (at level 100, m at next level, right associativity) : siit_scope.
Notation "m ;; k" := (bind m (fun _ => k)) (at level 100, right associativity) : siit_scope.
#[local] Open Scope siit_scope.

(** Loads at an offset of a source pointer, in network order. *)
Definition rd8 (p : list Z) (off : nat) : M Z := fun dst =>
  match p !! off with
  | Some b => Ok b dst
  | None => Fault
  end.
Definition rd16 (p : list Z) (off : nat) : M Z :=
  a <- rd8 p off; b <- rd8 p (S off); ret (256 * a + b).
Definition rd32 (p : list Z) (off : nat) : M Z :=
  a <- rd16 p off; b <- rd16 p (S (S off)); ret (65536 * a + b).
(** [n] bytes from an offset; [n] is the [int] of the call. *)
Definition rd_bytes (p : list Z) (off : nat) (n : Z) : M (list Z) := fun dst =>
  if (0 <=? n) && (off + Z.to_nat n <=? length p)%nat then Ok (bytes_at p off (Z.to_nat n)) dst else Fault.

(** The destination: stores, and the loads the code makes from it. *)
Definition wr (off : nat) (bs : list Z) : M unit := fun dst =>
  if (off + length bs <=? length dst)%nat then Ok tt (blit dst off bs) else Fault.
Definition wr8 (off : nat) (v : Z) : M unit := wr off [u8 v].
Definition wr16 (off : nat) (v : Z) : M unit := wr off (be_split 2 v).
Definition wr32 (off : nat) (v : Z) : M unit := wr off (be_split 4 v).
(** A store of a 16-bit value in host order. *)
Definition wr16_host (off : nat) (v : Z) : M unit := wr off (le_split 2 v).
Definition dst8 (off : nat) : M Z := fun dst => rd8 dst off dst.
Definition dst16 (off : nat) : M Z := fun dst => rd16 dst off dst.
Definition dst_bytes (off : nat) (n : Z) : M (list Z) := fun dst => rd_bytes dst off n dst.
(** The two bit-fields of a byte. *)
Definition wr_high (off : nat) (v : Z) : M unit :=
  b <- dst8 off; wr8 off (Z.lor (Z.shiftl v 4) (Z.land b 15)).
Definition wr_low (off : nat) (v : Z) : M unit :=
  b <- dst8 off; wr8 off (Z.lor (Z.land b 240) v).

(** [memcpy(dst + d, p + off, n)] with an [int] length. *)
Definition memcpy (d : nat) (p : list Z) (off : nat) (n : Z) : M unit :=
  bs <- rd_bytes p off n; wr d bs.

Section Translate4.
Context `{SiitEnv}.

(** ** [ip4_ip6]: fragment header, IPv6 header *)

(** [frag_off & IP_OFFSET], [frag_off & IP_MF]. *)
Definition ip4_offset (frag_off : Z) : Z := Z.land frag_off IP_OFFSET.
Definition ip4_mf (frag_off : Z) : Z := Z.land frag_off IP_MF.

Definition ip4_nexthdr (protocol : Z) : Z := if protocol =? IPPROTO_ICMP then NEXTHDR_ICMP else protocol.

(** [fr_flag], [new_tot_len] and [new_nexthdr]. *)
Definition ip4_ip6_fragment_header (src : list Z) (d : nat) (include_flag : bool) : M (bool * Z * Z) :=
  frag_off <- rd16 src 6;
  tot_len <- rd16 src 2;
  protocol <- rd8 src 9;
  if (frag_off =? IP_DF) || include_flag then ret (false, tot_len, ip4_nexthdr protocol)
  else
    wr8 (d + 40) (ip4_nexthdr protocol);;
    wr16 (d + 42) (Z.shiftl (ip4_offset frag_off) 3);;
    cur <- dst16 (d + 42);
    wr16 (d + 42) (Z.lor cur (Z.shiftr (ip4_mf frag_off) 13));;
    id <- rd16 src 4;
    wr32 (d + 44) id;;
    wr8 (d + 41) 0;;
    ret (true, u16 (tot_len + 8), NEXTHDR_FRAGMENT).

(** An IPv4-mapped or IPv4-translated address at [d]: the words of the prefix,
    and the four bytes of the IPv4 address at [off]. *)
Definition ip4_ip6_address (src : list Z) (off d : nat) (prefix : Z) : M unit :=
  wr32 d 0;; wr32 (d + 4) 0;; wr32 (d + 8) prefix;;
  a <- rd_bytes src off 4; wr (d + 12) a.

(** The IPv6 header; returns [plen]. *)
Definition ip4_ip6_header (src : list Z) (d : nat) (include_flag : bool) (hdr_len new_tot_len new_nexthdr : Z) : M Z :=
  wr_high d 6;;
  (if tos_ignore_flag then wr_low d 0;; wr8 (d + 1) 0
   else
     tos <- rd8 src 1;
     wr_low d (Z.shiftr (Z.land tos 0xf0) 4);;
     wr8 (d + 1) (Z.shiftl (Z.land tos 0x0f) 4));;
  wr8 (d + 2) 0;; wr8 (d + 3) 0;;
  ttl <- rd8 src 8;
  wr8 (d + 7) ttl;;
  (if include_flag then
     ip4_ip6_address src 12 (d + 8) TRANSLATED_PREFIX;; ip4_ip6_address src 16 (d + 24) MAPPED_PREFIX
   else
     ip4_ip6_address src 12 (d + 8) MAPPED_PREFIX;; ip4_ip6_address src 16 (d + 24) TRANSLATED_PREFIX);;
  let plen := new_tot_len - hdr_len in
  wr16 (d + 4) plen;;
  wr8 (d + 6) new_nexthdr;;
  ret plen.

(** ** ICMP *)

(** Destination Unreachable: type and code, and the third word when the code
    changes it ([mtu] is the field of the ICMPv4 header). *)
Definition icmp4_unreach (code mtu : Z) : option (Z * Z * option Z) :=
  if bool_decide (code ∈ [0; 1; 5; 6; 7; 8; 11; 12]) then Some (ICMPV6_DEST_UNREACH, 0, None)
  else if code =? 2 then Some (ICMPV6_PARAMPROB, 1, Some 6)
  else if code =? 3 then Some (ICMPV6_DEST_UNREACH, 4, None)
  else if code =? 4 then Some (ICMPV6_PKT_TOOBIG, 0, Some (if mtu =? 0 then 576 else mtu + IP4_IP6_HDR_DIFF))
  else if bool_decide (code ∈ [9; 10]) then Some (ICMPV6_DEST_UNREACH, 1, None)
  else None.

(** Parameter Problem: the pointer. *)
Definition icmp4_pointer (icmp_ptr : Z) : Z :=
  if icmp_ptr =? 0 then 0
  else if icmp_ptr =? 2 then 4
  else if icmp_ptr =? 8 then 7
  else if icmp_ptr =? 9 then 6
  else if icmp_ptr =? 12 then 8
  else if icmp_ptr =? 16 then 24
  else 0xffffffff.

Definition icmp4_dest_unreach (icmp : list Z) (c : nat) : M unit :=
  wr8 c ICMPV6_DEST_UNREACH;; wr32 (c + 4) 0;;
  code <- rd8 icmp 1;
  mtu <- (if code =? 4 then rd16 icmp 6 else ret 0);
  match icmp4_unreach code mtu with
  | None => drop_packet
  | Some (ty, code6, word) =>
      wr8 c ty;; wr8 (c + 1) code6;;
      match word with
      | Some w => wr32 (c + 4) w
      | None => ret tt
      end
  end.

(** The switch on the ICMPv4 type: true when the message is an error, whose
    included packet is still to be translated. *)
Definition icmp4_switch (src : list Z) (hdr_len len : Z) (c : nat) : M bool :=
  let h := Z.to_nat hdr_len in
  let icmp := drop h src in
  type <- rd8 icmp 0;
  if type =? ICMP_DEST_UNREACH then icmp4_dest_unreach icmp c;; ret true
  else if type =? ICMP_TIME_EXCEEDED then
    wr8 c ICMPV6_TIME_EXCEED;; code <- rd8 icmp 1; wr8 (c + 1) code;; ret true
  else if type =? ICMP_PARAMETERPROB then
    wr8 c ICMPV6_PARAMPROB;; code <- rd8 icmp 1; wr8 (c + 1) code;;
    id <- rd16 icmp 4;
    wr32 (c + 4) (icmp4_pointer (Z.shiftr id 8));; ret true
  else if type =? ICMP_ECHO then
    wr8 c ICMPV6_ECHO_REQUEST;; wr8 (c + 1) 0;; memcpy (c + 4) icmp 4 (len - hdr_len - 4);; ret false
  else if type =? ICMP_ECHOREPLY then
    wr8 c ICMPV6_ECHO_REPLY;; wr8 (c + 1) 0;; memcpy (c + 4) icmp 4 (len - hdr_len - 4);; ret false
  else drop_packet.

Definition icmp4_translate (rec : list Z -> Z -> nat -> M unit) (src : list Z) (len : Z) (d : nat)
    (include_flag : bool) (hdr_len : Z) (fr_flag : bool) (plen : Z) : M unit :=
  frag_off <- rd16 src 6;
  if negb (ip4_offset frag_off =? 0) || negb (ip4_mf frag_off =? 0) then drop_packet
  else
    tot_len <- rd16 src 2;
    let icmp_len := tot_len - hdr_len in
    let c := (d + 40 + (if fr_flag then 8 else 0))%nat in
    if include_flag then drop_packet
    else
      icmperr <- icmp4_switch src hdr_len len c;
      icmp_len <-
        (if icmperr : bool then
           rec (drop (Z.to_nat hdr_len + 8) src) (len - hdr_len - 8) (c + 8)%nat;;
           wr16 (d + 4) (plen + 20);;
           ret (icmp_len + 20)
         else ret icmp_len);
      wr16_host (c + 2) 0;;
      saddr <- dst_bytes (d + 8) 16;
      daddr <- dst_bytes (d + 24) 16;
      body <- dst_bytes c icmp_len;
      wr16_host (c + 2) (csum_ipv6_magic saddr daddr icmp_len IPPROTO_ICMPV6 (csum_partial body 0)).

(** ** TCP, UDP *)

Definition tcp4_translate (src : list Z) (len : Z) (d : nat) (hdr_len : Z) (fr_flag : bool) : M unit :=
  memcpy (d + 40 + (if fr_flag then 8 else 0)) src (Z.to_nat hdr_len) (len - hdr_len).

Definition udp4_translate (src : list Z) (len : Z) (d : nat) (include_flag : bool) (hdr_len : Z) (fr_flag : bool)
    (plen : Z) : M unit :=
  let h := Z.to_nat hdr_len in
  frag_off <- rd16 src 6;
  fl_csum <-
    (if ip4_offset frag_off =? 0 then
       check <- rd16 src (h + 6);
       if negb (ip4_mf frag_off =? 0) then (if check =? 0 then drop_packet else ret false)
       else ret (check =? 0)
     else ret false);
  let u := (d + 40 + (if fr_flag then 8 else 0))%nat in
  memcpy u src h (len - hdr_len);;
  if fl_csum && negb include_flag then
    let n := plen - (if fr_flag then 8 else 0) in
    wr16_host (u + 6) 0;;
    body <- dst_bytes u n;
    saddr <- dst_bytes (d + 8) 16;
    daddr <- dst_bytes (d + 24) 16;
    wr16_host (u + 6) (csum_ipv6_magic saddr daddr n IPPROTO_UDP (csum_partial body 0))
  else ret tt.

Definition ip4_ip6_body (rec : list Z -> Z -> nat -> M unit) (src : list Z) (len : Z) (d : nat) (include_flag : bool) : M unit :=
  b0 <- rd8 src 0;
  let hdr_len := Z.land b0 15 * 4 in
  f <- ip4_ip6_fragment_header src d include_flag;
  let '(fr_flag, new_tot_len, new_nexthdr) := f in
  plen <- ip4_ip6_header src d include_flag hdr_len new_tot_len new_nexthdr;
  protocol <- rd8 src 9;
  if protocol =? IPPROTO_ICMP then icmp4_translate rec src len d include_flag hdr_len fr_flag plen
  else if protocol =? IPPROTO_TCP then tcp4_translate src len d hdr_len fr_flag
  else if protocol =? IPPROTO_UDP then udp4_translate src len d include_flag hdr_len fr_flag plen
  else drop_packet.

(** [ip4_ip6] calls itself for the packet included in an ICMP error. *)
Fixpoint ip4_ip6_fuel (fuel : nat) (src : list Z) (len : Z) (d : nat) (include_flag : bool) : M unit :=
  match fuel with
  | O => spin
  | S fuel => ip4_ip6_body (fun p n d' => ip4_ip6_fuel fuel p n d' true) src len d include_flag
  end.

Definition ip4_ip6 : list Z -> Z -> nat -> bool -> M unit := ip4_ip6_fuel 2.

End Translate4.

(** ** Symbolic execution

    The headers are short: the proofs name the bytes they hold ([explode]) and
    run the stores on them. *)

Tactic Notation "explode" constr(l) integer(n) :=
  do n (destruct l as [| ? l]; [exfalso; simpl in *; lia |]).

(** A byte satisfies a boolean property that all the 256 bytes satisfy. *)
Lemma nibble_high (v b : Z) : Z.land (u8 (Z.lor (Z.shiftl v 4) (Z.land b 15))) 240 = Z.land (Z.shiftl v 4) 240.
Proof.
  unfold u8. change (2 ^ 8) with 256. rewrite <- land_255, <- Z.land_assoc, Z.land_lor_distr_l.
  change (Z.land 255 240) with 240. rewrite <- (Z.land_assoc b). change (Z.land 15 240) with 0.
  now rewrite Z.land_0_r, Z.lor_0_r.
Qed.

Lemma if_same {A} (b : bool) (x : A) : (if b then x else x) = x.
Proof. now destruct b. Qed.

Lemma land_pow2 x k : 0 <= k -> Z.land x (2 ^ k) = if Z.testbit x k then 2 ^ k else 0.
Proof.
  intros Hk. bitwise. rewrite Z.pow2_bits_eqb by lia.
  destruct (Z.eqb_spec k n) as [-> | Hne].
  - destruct (Z.testbit x n) eqn:E; [| now rewrite Z.testbit_0_l]. now rewrite Z.pow2_bits_true by lia.
  - rewrite andb_false_r. destruct (Z.testbit x k); [| now rewrite Z.testbit_0_l].
    now rewrite Z.pow2_bits_false by lia.
Qed.

Lemma ip4_mf_cases fo : ip4_mf fo = 0 \/ ip4_mf fo = 8192.
Proof. unfold ip4_mf, IP_MF. change 0x2000 with (2 ^ 13). rewrite land_pow2 by lia. destruct (Z.testbit fo 13); auto. Qed.
Lemma ip4_offset_mod fo : ip4_offset fo = fo `mod` 8192.
Proof. unfold ip4_offset, IP_OFFSET. change 0x1fff with (Z.ones 13). now rewrite Z.land_ones. Qed.
Lemma ip4_offset_range fo : 0 <= ip4_offset fo < 8192.
Proof. rewrite ip4_offset_mod. apply Z.mod_pos_bound. lia. Qed.

Lemma frag_field fo :
  Z.lor (u16 (Z.shiftl (ip4_offset fo) 3)) (Z.shiftr (ip4_mf fo) 13) = ip4_offset fo * 8 + ip4_mf fo `div` 8192.
Proof.
  pose proof (ip4_offset_range fo). rewrite Z.shiftl_mul_pow2, Z.shiftr_div_pow2 by lia.
  rewrite u16_id by lia. apply lor_low_bits; [lia |].
  destruct (ip4_mf_cases fo) as [-> | ->]; vm_compute; split; congruence.
Qed.

Section Translate4Facts.
Context `{SiitEnv}.

(** The IPv4 header's fields, as functions of its bytes. *)
Definition hdr8 (src : list Z) (off : nat) : Z := nth off src 0.
Definition hdr16 (src : list Z) (off : nat) : Z := 256 * nth off src 0 + nth (S off) src 0.
Definition ip4_hdr_len (src : list Z) : Z := Z.land (hdr8 src 0) 15 * 4.
Definition wants_fragment_header (src : list Z) (include_flag : bool) : bool :=
  negb ((hdr16 src 6 =? IP_DF) || include_flag).

(** What RFC 2765 asks the IPv6 header to be, given the payload length and the
    next header; the prefix of both addresses is the code's. *)
Definition v6_prefix : list Z := [0; 0; 0; 0; 0; 0; 0; 0; 0; 0; 255; 255].
Definition v6_tos (src : list Z) : Z := if tos_ignore_flag then 0 else hdr8 src 1.
Definition v6_header (src : list Z) (plen nexthdr : Z) : list Z :=
  [96 + v6_tos src `div` 16; v6_tos src `mod` 16 * 16; 0; 0] ++ be_split 2 plen ++ [nexthdr; hdr8 src 8]
  ++ v6_prefix ++ bytes_at src 12 4 ++ v6_prefix ++ bytes_at src 16 4.
Definition v6_fragment_header (src : list Z) : list Z :=
  [ip4_nexthdr (hdr8 src 9); 0]
  ++ be_split 2 (ip4_offset (hdr16 src 6) * 8 + ip4_mf (hdr16 src 6) `div` 8192)
  ++ be_split 4 (hdr16 src 4).
(** Both headers: their bytes in front of the payload, and its length. *)
Definition v6_headers (src : list Z) (include_flag : bool) (payload_len : Z) : list Z :=
  if wants_fragment_header src include_flag
  then v6_header src (payload_len + 8) NEXTHDR_FRAGMENT ++ v6_fragment_header src
  else v6_header src payload_len (ip4_nexthdr (hdr8 src 9)).

Lemma version_priority b x : 0 <= x < 16 -> u8 (Z.lor (Z.land (u8 (Z.lor (Z.shiftl 6 4) (Z.land b 15))) 240) x) = 96 + x.
Proof.
  intros Hx. rewrite nibble_high.
  assert (Hb : byte_ok x) by (unfold byte_ok; lia).
  pose proof (byte_forall_eq (fun x => u8 (Z.lor (Z.land (Z.shiftl 6 4) 240) (x mod 16))) (fun x => 96 + x mod 16) x) as E.
  cbv beta in E. rewrite (Z.mod_small x 16 Hx) in E. apply E; [vm_compute; reflexivity | exact Hb].
Qed.

Lemma tos_high x : byte_ok x -> Z.shiftr (Z.land x 0xf0) 4 = x `div` 16.
Proof. apply (byte_forall_eq (fun x => Z.shiftr (Z.land x 0xf0) 4) (fun x => x `div` 16)). vm_compute. reflexivity. Qed.
Lemma tos_low x : byte_ok x -> u8 (Z.shiftl (Z.land x 0x0f) 4) = x `mod` 16 * 16.
Proof. apply (byte_forall_eq (fun x => u8 (Z.shiftl (Z.land x 0x0f) 4)) (fun x => x `mod` 16 * 16)). vm_compute. reflexivity. Qed.

Lemma header_run src dst include_flag hdr_len tl nh :
  bytes_ok src -> (20 <= length src)%nat -> (40 <= length dst)%nat -> byte_ok nh ->
  ip4_ip6_header src 0 include_flag hdr_len tl nh dst = Ok (tl - hdr_len) (v6_header src (tl - hdr_len) nh ++ drop 40 dst).
Proof.
  intros Hsrc Hl Hd Hnh. explode src 20. explode dst 40.
  repeat match goal with H : bytes_ok (_ :: _) |- _ => apply Forall_cons_1 in H as [? H] end.
  unfold ip4_ip6_header, v6_header, v6_tos, ip4_ip6_address, wr_high, wr_low, wr32, wr16, wr8, bind, ret, wr, dst8, rd8, rd_bytes.
  change (Z.to_nat 4) with 4%nat. change MAPPED_PREFIX with TRANSLATED_PREFIX. rewrite (if_same include_flag).
  destruct tos_ignore_flag;
    cbn -[Z.shiftl Z.shiftr Z.land Z.lor u8 Z.div Z.modulo Z.sub Z.add Z.mul];
    rewrite ?tos_high, ?tos_low, version_priority, ?(u8_id nh), ?(u8_id z7)
      by (unfold byte_ok in *; first [lia | split; [apply Z.div_pos; lia | apply Z.div_lt_upper_bound; lia]]);
    reflexivity.
Qed.

Lemma be16_back x : 256 * (x `div` 256) `mod` 256 + x `mod` 256 = u16 x.
Proof. unfold u16. change (2 ^ 16) with (256 * 256). rewrite Z.rem_mul_r by lia. lia. Qed.

Lemma rd8_hdr8 src off dst : (off < length src)%nat -> rd8 src off dst = Ok (hdr8 src off) dst.
Proof. intros. unfold rd8, hdr8. destruct (nth_lookup_or_length src off 0) as [-> | ?]; [reflexivity | lia]. Qed.
Lemma rd16_hdr16 src off dst : (S off < length src)%nat -> rd16 src off dst = Ok (hdr16 src off) dst.
Proof. intros. unfold rd16, bind. rewrite rd8_hdr8 by lia. now rewrite rd8_hdr8 by lia. Qed.

Lemma fragment_header_run src dst include_flag :
  bytes_ok src -> (20 <= length src)%nat ->
  ((if wants_fragment_header src include_flag then 48 else 40) <= length dst)%nat ->
  ip4_ip6_fragment_header src 0 include_flag dst =
    if wants_fragment_header src include_flag
    then Ok (true, u16 (hdr16 src 2 + 8), NEXTHDR_FRAGMENT) (take 40 dst ++ v6_fragment_header src ++ drop 48 dst)
    else Ok (false, hdr16 src 2, ip4_nexthdr (hdr8 src 9)) dst.
Proof.
  intros Hsrc Hl Hd. unfold ip4_ip6_fragment_header. unfold bind at 1 2 3.
  rewrite !rd16_hdr16, rd8_hdr8 by lia. unfold wants_fragment_header in *.
  destruct ((hdr16 src 6 =? IP_DF) || include_flag); [reflexivity |]. cbn [negb] in *.
  explode src 20. explode dst 48.
  repeat match goal with H : bytes_ok (_ :: _) |- _ => apply Forall_cons_1 in H as [? H] end.
  unfold v6_fragment_header, hdr16, hdr8.
  unfold wr8, wr16, wr32, wr, dst16, rd16, rd8, bind, ret.
  cbn -[Z.shiftl Z.shiftr Z.land Z.lor u8 u16 Z.div Z.modulo Z.sub Z.add Z.mul ip4_nexthdr ip4_offset ip4_mf Z.eqb].
  rewrite be16_back, frag_field, (u8_id (ip4_nexthdr z8)) by (unfold ip4_nexthdr, NEXTHDR_ICMP, byte_ok in *; destruct (z8 =? _); lia).
  reflexivity.
Qed.

Lemma be_split_mod2 x y : u16 x = u16 y -> be_split 2 x = be_split 2 y.
Proof.
  assert (E2 : forall z, be_split 2 z = be_split 2 (u16 z)).
  { intros z. unfold u16, be_split. change (2 ^ 16) with (256 * 256). rewrite Z.rem_mul_r by lia.
    pose proof (Z.mod_pos_bound z 256 ltac:(lia)).
    rewrite (Z.mul_comm 256). cbn [le_split]. rewrite Z.mod_add, Z.div_add, (Z.div_small (z mod 256)), Z.add_0_l by lia.
    now rewrite !Z.mod_mod by lia. }
  intros E. rewrite (E2 x), (E2 y). now rewrite E.
Qed.

Lemma v6_header_mod src x y nh : u16 x = u16 y -> v6_header src x nh = v6_header src y nh.
Proof. intros E. unfold v6_header. now rewrite (be_split_mod2 x y E). Qed.

Lemma length_v6_header src plen nh : (20 <= length src)%nat -> length (v6_header src plen nh) = 40%nat.
Proof.
  intros. unfold v6_header. rewrite !length_app, length_be_split, !length_bytes_at by lia. reflexivity.
Qed.
Lemma length_v6_headers src incl n :
  (20 <= length src)%nat ->
  length (v6_headers src incl n) = (if wants_fragment_header src incl then 48 else 40)%nat.
Proof.
  intros. unfold v6_headers, v6_fragment_header. destruct (wants_fragment_header src incl);
    rewrite ?length_app, length_v6_header, ?length_be_split by done; reflexivity.
Qed.

(** The rest of the body, once the headers are written. *)
Definition ip4_ip6_payload (rec : list Z -> Z -> nat -> M unit) (src : list Z) (len : Z) (include_flag : bool) (plen : Z) : M unit :=
  let hdr_len := ip4_hdr_len src in
  let fr_flag := wants_fragment_header src include_flag in
  let protocol := hdr8 src 9 in
  if protocol =? IPPROTO_ICMP then icmp4_translate rec src len 0 include_flag hdr_len fr_flag plen
  else if protocol =? IPPROTO_TCP then tcp4_translate src len 0 hdr_len fr_flag
  else if protocol =? IPPROTO_UDP then udp4_translate src len 0 include_flag hdr_len fr_flag plen
  else drop_packet.

Lemma headers_run rec src len dst include_flag :
  bytes_ok src -> (20 <= length src)%nat ->
  ((if wants_fragment_header src include_flag then 48 else 40) <= length dst)%nat ->
  ip4_ip6_body rec src len 0 include_flag dst =
    ip4_ip6_payload rec src len include_flag
      ((if wants_fragment_header src include_flag then u16 (hdr16 src 2 + 8) else hdr16 src 2) - ip4_hdr_len src)
      (v6_headers src include_flag (hdr16 src 2 - ip4_hdr_len src)
       ++ drop (if wants_fragment_header src include_flag then 48 else 40)%nat dst).
Proof.
  intros Hsrc Hl Hd. unfold ip4_ip6_body, ip4_ip6_payload, v6_headers.
  assert (Hp : byte_ok (hdr8 src 9)).
  { unfold hdr8. destruct (nth_lookup_or_length src 9 0) as [E | ?]; [| lia].
    eapply Forall_lookup_1; eauto. }
  assert (Hn : byte_ok (ip4_nexthdr (hdr8 src 9))).
  { unfold ip4_nexthdr, NEXTHDR_ICMP, byte_ok in *. destruct (_ =? _); lia. }
  unfold bind at 1. rewrite rd8_hdr8 by lia. fold (ip4_hdr_len src). unfold bind at 1.
  destruct (wants_fragment_header src include_flag) eqn:Ew.
  - rewrite fragment_header_run, Ew by (rewrite ?Ew; auto; lia). unfold bind at 1.
    rewrite header_run by (auto; rewrite ?length_app, ?length_take; unfold NEXTHDR_FRAGMENT, byte_ok; try lia).
    unfold bind. rewrite rd8_hdr8 by lia.
    rewrite drop_app_length' by (rewrite length_take; lia).
    rewrite <- app_assoc. do 2 f_equal.
    apply v6_header_mod. unfold u16. rewrite <- Zminus_mod_idemp_l, Z.mod_mod, Zminus_mod_idemp_l by lia. f_equal. lia.
  - rewrite fragment_header_run, Ew by (rewrite ?Ew; auto; lia). unfold bind at 1.
    rewrite header_run by auto. unfold bind. now rewrite rd8_hdr8 by lia.
Qed.

(** What becomes of the bytes after the IPv4 header, for a protocol other than
    ICMP: [None] when the packet is to be dropped. *)
Definition v6_address (src : list Z) (off : nat) : list Z := v6_prefix ++ bytes_at src off 4.
Definition ip4_payload (src : list Z) (len : Z) : list Z :=
  bytes_at src (Z.to_nat (ip4_hdr_len src)) (Z.to_nat (len - ip4_hdr_len src)).
Definition v6_transport (src : list Z) (len : Z) (include_flag : bool) : option (list Z) :=
  let payload := ip4_payload src len in
  let n := len - ip4_hdr_len src in
  if hdr8 src 9 =? IPPROTO_TCP then Some payload
  else if hdr8 src 9 =? IPPROTO_UDP then
    if (ip4_offset (hdr16 src 6) =? 0) && (hdr16 payload 6 =? 0) then
      if negb (ip4_mf (hdr16 src 6) =? 0) then None
      else if include_flag then Some payload
      else Some (blit payload 6 (le_split 2
             (csum_ipv6_magic (v6_address src 12) (v6_address src 16) n IPPROTO_UDP (csum_partial payload 0))))
    else Some payload
  else None.

Lemma rd_bytes_run p off n dst :
  0 <= n -> (off + Z.to_nat n <= length p)%nat -> rd_bytes p off n dst = Ok (bytes_at p off (Z.to_nat n)) dst.
Proof. intros. unfold rd_bytes. now rewrite (proj2 (Z.leb_le 0 n)), (proj2 (Nat.leb_le _ _)) by lia. Qed.

Lemma wr_run off bs dst : (off + length bs <= length dst)%nat -> wr off bs dst = Ok tt (blit dst off bs).
Proof. intros. unfold wr. now rewrite (proj2 (Nat.leb_le _ _)) by lia. Qed.

(** A store just after a prefix, and one at an offset after it. *)
Lemma blit_app a b k bs : blit (a ++ b) (length a + k) bs = a ++ blit b k bs.
Proof.
  unfold blit. rewrite take_app_add, <- app_assoc, <- Nat.add_assoc. do 3 f_equal. apply drop_app_add.
Qed.
Lemma bytes_at_app_skip a b k n : bytes_at (a ++ b) (length a + k) n = bytes_at b k n.
Proof. unfold bytes_at. now rewrite drop_app_add. Qed.
Lemma blit_front a b : (length a <= length b)%nat -> blit b 0 a = a ++ drop (length a) b.
Proof. reflexivity. Qed.
Lemma blit_in_front a b k bs : (k + length bs <= length a)%nat -> blit (a ++ b) k bs = blit a k bs ++ b.
Proof.
  intros. unfold blit. rewrite take_app_le, drop_app_le by lia. now rewrite <- !app_assoc.
Qed.
Lemma bytes_at_front a b n : n = length a -> bytes_at (a ++ b) 0 n = a.
Proof. intros ->. unfold bytes_at. rewrite drop_0. apply take_app_length. Qed.

Lemma memcpy_after hdrs rest p off n :
  0 <= n -> (off + Z.to_nat n <= length p)%nat -> (Z.to_nat n <= length rest)%nat ->
  memcpy (length hdrs) p off n (hdrs ++ rest) =
    Ok tt (hdrs ++ bytes_at p off (Z.to_nat n) ++ drop (Z.to_nat n) rest).
Proof.
  intros. unfold memcpy, bind. rewrite rd_bytes_run by auto.
  rewrite wr_run by (rewrite length_app, length_bytes_at by lia; lia).
  rewrite <- (Nat.add_0_r (length hdrs)), blit_app, blit_front by (rewrite length_bytes_at by lia; lia).
  now rewrite length_bytes_at by lia.
Qed.

(** The addresses in the destination. *)
Lemma v6_headers_addresses src incl n rest :
  (20 <= length src)%nat ->
  bytes_at (v6_headers src incl n ++ rest) 8 16 = v6_address src 12
  /\ bytes_at (v6_headers src incl n ++ rest) 24 16 = v6_address src 16.
Proof.
  intros. explode src 20. unfold v6_headers. destruct (wants_fragment_header _ incl); split; reflexivity.
Qed.

Lemma hdr8_bytes_at src h n i : (i < n)%nat -> hdr8 (bytes_at src h n) i = hdr8 src (h + i).
Proof. intros. unfold hdr8, bytes_at. rewrite !nth_lookup, lookup_take_lt, lookup_drop by lia. reflexivity. Qed.
Lemma hdr16_bytes_at src h n i : (S i < n)%nat -> hdr16 (bytes_at src h n) i = hdr16 src (h + i).
Proof.
  intros. change (256 * hdr8 (bytes_at src h n) i + hdr8 (bytes_at src h n) (S i) = 256 * hdr8 src (h + i) + hdr8 src (S (h + i))).
  rewrite !hdr8_bytes_at by lia. do 2 f_equal. lia.
Qed.

Lemma hdr8_byte src off : bytes_ok src -> byte_ok (hdr8 src off).
Proof.
  intros Hs. unfold hdr8. destruct (nth_lookup_or_length src off 0) as [E | E].
  - eapply Forall_lookup_1; eauto.
  - rewrite nth_overflow by lia. unfold byte_ok. lia.
Qed.

(** A zero 16-bit field already holds the two bytes a store of zero writes. *)
Lemma blit_zero_field l k : bytes_ok l -> (k + 2 <= length l)%nat -> hdr16 l k = 0 -> blit l k (le_split 2 0) = l.
Proof.
  intros Hl Hk E. pose proof (hdr8_byte l k Hl). pose proof (hdr8_byte l (S k) Hl).
  change (256 * hdr8 l k + hdr8 l (S k) = 0) in E. unfold byte_ok in *.
  unfold blit. transitivity (take k l ++ take 2 (drop k l) ++ drop (k + 2) l).
  - f_equal. destruct (drop k l) as [| a [| b r]] eqn:Ed;
      [apply (f_equal (@length Z)) in Ed; rewrite length_drop in Ed; simpl in Ed; lia.. |].
    assert (hdr8 l k = a /\ hdr8 l (S k) = b) as [Ea Eb].
    { unfold hdr8. rewrite !nth_lookup. replace k with (k + 0)%nat at 1 by lia.
      replace (S k) with (k + 1)%nat by lia. rewrite <- !lookup_drop, Ed. now split. }
    change (le_split 2 0) with [0; 0]. cbn [take length app]. f_equal; [lia | f_equal; lia].
  - rewrite <- drop_drop. now rewrite !take_drop.
Qed.

(** A two-byte store in the payload, behind the headers. *)
Lemma wr16_host_payload hdrs payload rest k v :
  (k + 2 <= length payload)%nat ->
  wr16_host (length hdrs + k) v (hdrs ++ payload ++ rest) = Ok tt (hdrs ++ blit payload k (le_split 2 v) ++ rest).
Proof.
  intros. unfold wr16_host. rewrite wr_run by (rewrite !length_app, length_le_split; lia).
  now rewrite blit_app, blit_in_front by (rewrite length_le_split; lia).
Qed.

(** The checksum of a UDP packet that came without one. *)
Lemma udp4_checksum_run src len incl payload rest hdrs :
  hdrs = v6_headers src incl (hdr16 src 2 - ip4_hdr_len src) -> (20 <= length src)%nat ->
  bytes_ok payload -> (8 <= length payload)%nat -> len - ip4_hdr_len src = Z.of_nat (length payload) ->
  hdr16 payload 6 = 0 ->
  (wr16_host (length hdrs + 6) 0;;
   body <- dst_bytes (length hdrs) (len - ip4_hdr_len src);
   saddr <- dst_bytes (0 + 8) 16;
   daddr <- dst_bytes (0 + 24) 16;
   wr16_host (length hdrs + 6)
     (csum_ipv6_magic saddr daddr (len - ip4_hdr_len src) IPPROTO_UDP (csum_partial body 0))) (hdrs ++ payload ++ rest)
  = Ok tt (hdrs ++ blit payload 6 (le_split 2 (csum_ipv6_magic (v6_address src 12) (v6_address src 16)
             (len - ip4_hdr_len src) IPPROTO_UDP (csum_partial payload 0))) ++ rest).
Proof.
  intros Eh Hl Hb Hp Hn H0.
  assert (Hlh : (40 <= length hdrs)%nat).
  { subst hdrs. rewrite length_v6_headers by auto. destruct (wants_fragment_header src incl); lia. }
  assert (Hrd : forall off n l, 0 <= n -> (off + Z.to_nat n <= length l)%nat ->
    dst_bytes off n l = Ok (bytes_at l off (Z.to_nat n)) l).
  { intros. unfold dst_bytes. now apply rd_bytes_run. }
  unfold bind at 1. rewrite wr16_host_payload by lia. rewrite blit_zero_field by (auto; lia).
  unfold bind at 1. rewrite Hrd by (rewrite ?length_app; lia).
  replace (bytes_at (hdrs ++ payload ++ rest) (length hdrs) (Z.to_nat (len - ip4_hdr_len src))) with payload.
  2:{ rewrite <- (Nat.add_0_r (length hdrs)), bytes_at_app_skip, bytes_at_front by lia. reflexivity. }
  unfold bind at 1. rewrite Hrd by (rewrite ?length_app; lia).
  unfold bind at 1. rewrite Hrd by (rewrite ?length_app; lia).
  change (Z.to_nat 16) with 16%nat. change (0 + 8)%nat with 8%nat. change (0 + 24)%nat with 24%nat. rewrite Eh.
  destruct (v6_headers_addresses src incl (hdr16 src 2 - ip4_hdr_len src) (payload ++ rest) Hl) as [E1 E2].
  rewrite E1, E2. apply wr16_host_payload. lia.
Qed.

Lemma transport_run fuel src len dst include_flag :
  bytes_ok src -> (20 <= length src)%nat ->
  0 <= len - ip4_hdr_len src -> len <= Z.of_nat (length src) ->
  (include_flag = false -> hdr16 src 2 = len /\ len + 8 < 65536) ->
  hdr8 src 9 <> IPPROTO_ICMP ->
  (hdr8 src 9 = IPPROTO_UDP -> ip4_offset (hdr16 src 6) = 0 -> 8 <= len - ip4_hdr_len src) ->
  ((if wants_fragment_header src include_flag then 48 else 40) + Z.to_nat (len - ip4_hdr_len src) <= length dst)%nat ->
  ip4_ip6_fuel (S fuel) src len 0 include_flag dst =
    match v6_transport src len include_flag with
    | Some payload =>
        Ok tt (v6_headers src include_flag (hdr16 src 2 - ip4_hdr_len src) ++ payload
               ++ drop ((if wants_fragment_header src include_flag then 48 else 40) + Z.to_nat (len - ip4_hdr_len src)) dst)
    | None => Dropped
    end.
Proof.
  intros Hsrc Hl Hlen Hlen2 Htot Hicmp Hudp Hroom.
  assert (Hh : 0 <= ip4_hdr_len src).
  { unfold ip4_hdr_len. assert (0 <= Z.land (hdr8 src 0) 15) by (apply Z.land_nonneg; lia). lia. }
  cbn [ip4_ip6_fuel].
  rewrite headers_run by (auto; destruct (wants_fragment_header src include_flag); lia).
  unfold ip4_ip6_payload, v6_transport.
  rewrite (proj2 (Z.eqb_neq _ _) Hicmp).
  set (hdrs := v6_headers src include_flag (hdr16 src 2 - ip4_hdr_len src)).
  set (k := (if wants_fragment_header src include_flag then 48 else 40)%nat) in *.
  assert (Hk : (0 + 40 + (if wants_fragment_header src include_flag then 8 else 0))%nat = length hdrs).
  { unfold hdrs. rewrite length_v6_headers by auto. now destruct (wants_fragment_header src include_flag). }
  assert (Hcopy : memcpy (length hdrs) src (Z.to_nat (ip4_hdr_len src)) (len - ip4_hdr_len src) (hdrs ++ drop k dst)
    = Ok tt (hdrs ++ ip4_payload src len ++ drop (k + Z.to_nat (len - ip4_hdr_len src)) dst)).
  { rewrite memcpy_after by (rewrite ?length_drop; lia). now rewrite drop_drop. }
  destruct (Z.eqb_spec (hdr8 src 9) IPPROTO_TCP) as [Etcp | Etcp].
  { unfold tcp4_translate. rewrite Hk. exact Hcopy. }
  destruct (Z.eqb_spec (hdr8 src 9) IPPROTO_UDP) as [Eudp | Eudp]; [| reflexivity].
  unfold udp4_translate. rewrite Hk. unfold bind at 1. rewrite rd16_hdr16 by lia.
  assert (Hpl : length (ip4_payload src len) = Z.to_nat (len - ip4_hdr_len src))
    by (unfold ip4_payload; rewrite length_bytes_at by lia; lia).
  destruct (Z.eqb_spec (ip4_offset (hdr16 src 6)) 0) as [Eo | Eo]; unfold bind at 1; cbn [andb].
  2:{ unfold ret at 1, bind at 1. now rewrite Hcopy. }
  specialize (Hudp Eudp Eo).
  replace (hdr16 (ip4_payload src len) 6) with (hdr16 src (Z.to_nat (ip4_hdr_len src) + 6))
    by (unfold ip4_payload; now rewrite hdr16_bytes_at by lia).
  unfold bind at 1. rewrite rd16_hdr16 by lia.
  destruct (Z.eqb_spec (hdr16 src (Z.to_nat (ip4_hdr_len src) + 6)) 0) as [Ec | Ec];
    destruct (negb (ip4_mf (hdr16 src 6) =? 0)); try reflexivity; unfold ret at 1, bind at 1;
    rewrite Hcopy; try reflexivity.
  destruct include_flag; [reflexivity |].
  assert (Hn : (if wants_fragment_header src false then u16 (hdr16 src 2 + 8) else hdr16 src 2) - ip4_hdr_len src
    - (if wants_fragment_header src false then 8 else 0) = len - ip4_hdr_len src).
  { destruct (Htot eq_refl) as [-> ?]. destruct (wants_fragment_header src false); [rewrite u16_id by lia |]; lia. }
  cbn [negb andb]. rewrite Hn.
  apply (udp4_checksum_run src len false); auto; try lia.
  - unfold ip4_payload. now apply bytes_at_ok.
  - unfold ip4_payload. rewrite hdr16_bytes_at by lia. exact Ec.
Qed.


(** C28: The packet of a protocol that is copied: two headers, then the bytes after
    the IPv4 header, with the UDP checksum filled in when it was absent. *)
Theorem ip4_ip6_transport src len dst include_flag :
  bytes_ok src -> (20 <= length src)%nat ->
  0 <= len - ip4_hdr_len src -> len <= Z.of_nat (length src) ->
  (include_flag = false -> hdr16 src 2 = len /\ len + 8 < 65536) ->
  hdr8 src 9 <> IPPROTO_ICMP ->
  (hdr8 src 9 = IPPROTO_UDP -> ip4_offset (hdr16 src 6) = 0 -> 8 <= len - ip4_hdr_len src) ->
  ((if wants_fragment_header src include_flag then 48 else 40) + Z.to_nat (len - ip4_hdr_len src) <= length dst)%nat ->
  ip4_ip6 src len 0 include_flag dst =
    match v6_transport src len include_flag with
    | Some payload =>
        Ok tt (v6_headers src include_flag (hdr16 src 2 - ip4_hdr_len src) ++ payload
               ++ drop ((if wants_fragment_header src include_flag then 48 else 40) + Z.to_nat (len - ip4_hdr_len src)) dst)
    | None => Dropped
    end.
Proof. intros. unfold ip4_ip6. now apply transport_run. Qed.

End Translate4Facts.

(** ** The routines, as RFC 1071 has them: an instance for concrete packets *)

Fixpoint word_sum (l : list Z) : Z :=
  match l with
  | a :: b :: l' => a + 256 * b + word_sum l'
  | [a] => a
  | [] => 0
  end.
Definition fold16 (x : Z) : Z := x mod 65536 + x `div` 65536.
Definition csum_fold (x : Z) : Z := 65535 - fold16 (fold16 x).
Definition pseudo_sum (saddr daddr : list Z) (len proto : Z) : Z :=
  word_sum saddr + word_sum daddr + word_sum (be_split 4 len) + word_sum [0; 0; 0; proto].
#[local] Instance rfc_env : SiitEnv := {
  tos_ignore_flag := false;
  csum_partial l s := fold16 (word_sum l + s);
  csum_ipv6_magic s d n p c := csum_fold (pseudo_sum s d n p + c);
  csum_tcpudp_magic s d n p c := csum_fold (pseudo_sum s d n p + c);
  ip_fast_csum l := csum_fold (word_sum l);
  ip_compute_csum l := csum_fold (word_sum l);
}.

(** A UDP datagram of four bytes without a checksum, with DF set. *)
Definition udp_packet : list Z :=
  [0x45; 0x12; 0; 32; 0; 7; 0x40; 0; 64; 17; 0; 0; 10; 0; 0; 1; 10; 0; 0; 9]
  ++ [0; 53; 0; 54; 0; 12; 0; 0; 1; 2; 3; 4].

Lemma ip4_ip6_transport_witness :
  exists ck, v6_transport (H := rfc_env) udp_packet 32 false = Some ([0; 53; 0; 54; 0; 12] ++ ck ++ [1; 2; 3; 4])
  /\ ck <> [0; 0]
  /\ ip4_ip6 (H := rfc_env) udp_packet 32 0 false (repeat 0 52)
     = Ok tt (v6_headers (H := rfc_env) udp_packet false 12 ++ [0; 53; 0; 54; 0; 12] ++ ck ++ [1; 2; 3; 4]).
Proof.
  exists [231; 91]. split; [vm_compute; reflexivity |]. split; [discriminate |].
  etransitivity; [apply (ip4_ip6_transport (H := rfc_env)); try by_compute; try (vm_compute; congruence); auto |].
  vm_compute. reflexivity.
Defined.
