(* ===== verification/SiitIcmp.v ===== *)
(** * SiitIcmp: ICMPv4 messages through the translator

    The packet an ICMP error includes is translated by a second call of
    [ip4_ip6], whose destination lies behind the first 48 or 56 bytes.  The
    call does there what it does at the start of a buffer ([ip4_ip6_framed]),
    so the facts of [Siit] apply to it.  The theorems give the message an ICMPv4
    error becomes, and the case in which the included header makes the copy
    run away. *)
From S2P Require Import Prelude Siit.
#[local] Open Scope siit_scope.

(** ** The translation at an offset *)

Definition lift {A} (pre : list Z) (o : out A) : out A :=
  match o with
  | Ok a dst => Ok a (pre ++ dst)
  | Dropped => Dropped
  | Fault => Fault
  | Spin => Spin
  end.

(** [m] at an offset behind [pre] does there what it does without [pre]. *)
Definition framed {A} (m : nat -> M A) : Prop :=
  forall pre l k, m (length pre + k)%nat (pre ++ l) = lift pre (m k l).

(** A pointer computed from the base by adding a constant. *)
Definition offset_of_base (f : nat -> nat) : Prop := forall d k, f (d + k)%nat = (d + f k)%nat.

Lemma framed_at {A} (m : nat -> M A) f : offset_of_base f -> framed m -> framed (fun d => m (f d)).
Proof. intros Hf Hm pre l k. rewrite Hf. apply Hm. Qed.
Lemma framed_ret {A} (a : A) : framed (fun _ => ret a).
Proof. now intros pre l k. Qed.
Lemma framed_drop {A} : framed (fun _ => drop_packet (A := A)).
Proof. now intros pre l k. Qed.
Lemma framed_bind {A B} (m : nat -> M A) (k : nat -> A -> M B) :
  framed m -> (forall a, framed (fun d => k d a)) -> framed (fun d => bind (m d) (k d)).
Proof.
  intros Hm Hk pre l i. unfold bind. rewrite Hm. destruct (m i l); simpl; auto. apply (Hk a pre dst).
Qed.
Lemma framed_if {A} (b : bool) (x y : nat -> M A) : framed x -> framed y -> framed (fun d => if b then x d else y d).
Proof. now destruct b. Qed.

Lemma framed_rd8 p off : framed (fun _ => rd8 p off).
Proof. intros pre l k. unfold rd8. now destruct (p !! off). Qed.
Lemma framed_rd16 p off : framed (fun _ => rd16 p off).
Proof.
  unfold rd16. apply framed_bind; [apply framed_rd8 | intros a].
  apply framed_bind; [apply framed_rd8 | intros b; apply framed_ret].
Qed.
Lemma framed_rd_bytes p off n : framed (fun _ => rd_bytes p off n).
Proof. intros pre l k. unfold rd_bytes. now destruct (_ && _). Qed.

Lemma framed_wr bs : framed (fun d => wr d bs).
Proof.
  intros pre l k. unfold wr. rewrite length_app, blit_app.
  replace (length pre + k + length bs <=? length pre + length l)%nat with (k + length bs <=? length l)%nat
    by (apply eq_true_iff_eq; rewrite !Nat.leb_le; lia).
  now destruct (_ <=? _)%nat.
Qed.
Lemma framed_dst8 : framed dst8.
Proof.
  intros pre l k. unfold dst8, rd8. rewrite lookup_app_r by lia.
  replace (length pre + k - length pre)%nat with k by lia. now destruct (l !! _).
Qed.
Lemma framed_dst16 : framed dst16.
Proof.
  intros pre l k. unfold dst16, rd16, bind, rd8. rewrite !lookup_app_r by lia.
  replace (length pre + k - length pre)%nat with k by lia.
  replace (S (length pre + k) - length pre)%nat with (S k)%nat by lia.
  destruct (l !! k); [| reflexivity]. now destruct (l !! S k).
Qed.
Lemma framed_dst_bytes n : framed (fun d => dst_bytes d n).
Proof.
  intros pre l k. unfold dst_bytes, rd_bytes. rewrite length_app, bytes_at_app_skip.
  replace (length pre + k + Z.to_nat n <=? length pre + length l)%nat with (k + Z.to_nat n <=? length l)%nat
    by (apply eq_true_iff_eq; rewrite !Nat.leb_le; lia).
  now destruct (_ && _).
Qed.

(** Descends through the operations of the monad. *)
Ltac base_offset := unfold offset_of_base; intros; lia.
Ltac framing :=
  repeat first
    [ progress intros
    | progress cbv beta
    | apply framed_ret | apply framed_drop | apply framed_rd8 | apply framed_rd16 | apply framed_rd_bytes
    | apply framed_bind | apply framed_if
    | apply (framed_at (fun d => wr d _)); [base_offset | apply framed_wr]
    | apply (framed_at (fun d => dst_bytes d _)); [base_offset | apply framed_dst_bytes]
    | apply (framed_at dst8); [base_offset | apply framed_dst8]
    | apply (framed_at dst16); [base_offset | apply framed_dst16]
    | assumption ].

Section IcmpTranslate.
Context `{SiitEnv}.

Lemma framed_fragment_header src incl : framed (fun d => ip4_ip6_fragment_header src d incl).
Proof. unfold ip4_ip6_fragment_header, wr8, wr16, wr32. framing. Qed.

Lemma framed_header src incl h tl nh : framed (fun d => ip4_ip6_header src d incl h tl nh).
Proof. unfold ip4_ip6_header, ip4_ip6_address, wr_high, wr_low, wr8, wr16, wr32. framing. Qed.

Lemma framed_icmp4_switch src h len : framed (fun d => icmp4_switch src h len d).
Proof.
  unfold icmp4_switch, icmp4_dest_unreach, memcpy, wr8, wr16, wr32. framing.
  match goal with |- context [icmp4_unreach ?c ?m] => destruct (icmp4_unreach c m) as [[[? ?] [?|]] |] end; framing.
Qed.

Lemma framed_icmp4_translate rec src len incl h fr plen :
  (forall p n, framed (rec p n)) -> framed (fun d => icmp4_translate rec src len d incl h fr plen).
Proof.
  intros Hrec. unfold icmp4_translate, wr16_host, wr16.
  apply framed_bind; [framing | intros fo]. apply framed_if; [framing |].
  apply framed_bind; [framing | intros tl]. apply framed_if; [framing |].
  apply framed_bind; [| intros err].
  - apply (framed_at (fun d => icmp4_switch src h len d)); [base_offset | apply framed_icmp4_switch].
  - apply framed_bind; [apply framed_if; framing | framing].
    apply (framed_at (rec _ _)); [base_offset | apply Hrec].
Qed.

Lemma framed_body rec src len incl :
  (forall p n, framed (rec p n)) -> framed (fun d => ip4_ip6_body rec src len d incl).
Proof.
  intros Hrec. unfold ip4_ip6_body. apply framed_bind; [framing | intros b0]. cbv zeta.
  apply framed_bind; [apply framed_fragment_header | intros [[fr tl] nh]].
  apply framed_bind; [apply framed_header | intros plen].
  apply framed_bind; [framing | intros protocol].
  apply framed_if; [now apply framed_icmp4_translate |].
  repeat apply framed_if; [| | framing].
  - unfold tcp4_translate, memcpy. framing.
  - unfold udp4_translate, memcpy, wr16_host. framing.
Qed.

Lemma framed_ip4_ip6 fuel src len incl : framed (fun d => ip4_ip6_fuel fuel src len d incl).
Proof.
  revert src len incl. induction fuel as [| fuel IH]; intros; [now intros pre l k |].
  cbn [ip4_ip6_fuel]. apply framed_body. intros p n. apply IH.
Qed.

(** ** The message an ICMPv4 error becomes *)

(** Type, code and, unless the code leaves it as it is, the second word. *)
Definition icmp6_error (icmp : list Z) : option (Z * Z * option Z) :=
  let type := hdr8 icmp 0 in
  let code := hdr8 icmp 1 in
  if type =? ICMP_DEST_UNREACH then
    match icmp4_unreach code (if code =? 4 then hdr16 icmp 6 else 0) with
    | Some (ty, code6, w) => Some (ty, code6, Some (default 0 w))
    | None => None
    end
  else if type =? ICMP_TIME_EXCEEDED then Some (ICMPV6_TIME_EXCEED, code, None)
  else if type =? ICMP_PARAMETERPROB then Some (ICMPV6_PARAMPROB, code, Some (icmp4_pointer (hdr8 icmp 4)))
  else None.

Definition is_echo (icmp : list Z) : bool := (hdr8 icmp 0 =? ICMP_ECHO) || (hdr8 icmp 0 =? ICMP_ECHOREPLY).

(** The first eight bytes of the message, the checksum being [ck], over what
    the buffer held. *)
Definition icmp6_head (m : Z * Z * option Z) (ck old : list Z) : list Z :=
  let '(ty, code, w) := m in
  [ty; code] ++ ck ++ match w with Some w => be_split 4 w | None => bytes_at old 4 4 end.

Lemma icmp4_unreach_bytes code mtu ty code6 w :
  icmp4_unreach code mtu = Some (ty, code6, w) -> byte_ok ty /\ byte_ok code6.
Proof.
  unfold icmp4_unreach. intros E. repeat case_match; simplify_eq; split; by_compute.
Qed.

Lemma be16_high a b : byte_ok a -> byte_ok b -> Z.shiftr (256 * a + b) 8 = a.
Proof. unfold byte_ok. intros. rewrite Z.shiftr_div_pow2 by lia. change (2 ^ 8) with 256. symmetry. apply (Z.div_unique _ _ _ b); lia. Qed.

Lemma switch_run src h len rest :
  bytes_ok src -> 0 <= h -> (Z.to_nat h + 8 <= length src)%nat -> (8 <= length rest)%nat ->
  is_echo (drop (Z.to_nat h) src) = false ->
  icmp4_switch src h len 0 rest =
    match icmp6_error (drop (Z.to_nat h) src) with
    | Some m => Ok true (icmp6_head m (bytes_at rest 2 2) rest ++ drop 8 rest)
    | None => Dropped
    end.
Proof.
  intros Hs Hh Hl Hr Hecho. unfold icmp4_switch, icmp4_dest_unreach.
  set (icmp := drop (Z.to_nat h) src) in *.
  assert (Hi : (8 <= length icmp)%nat) by (unfold icmp; rewrite length_drop; lia).
  assert (Hib : bytes_ok icmp) by (unfold icmp; auto using bytes_ok_drop).
  unfold is_echo in Hecho. apply orb_false_iff in Hecho as [He1 He2].
  unfold bind at 1. rewrite rd8_hdr8 by lia. unfold icmp6_error. rewrite He1, He2.
  pose proof (hdr8_byte icmp 1 Hib) as Hc. pose proof (hdr8_byte icmp 4 Hib). pose proof (hdr8_byte icmp 5 Hib).
  explode rest 8. unfold bind, wr8, wr32, wr, ret.
  destruct (hdr8 icmp 0 =? ICMP_DEST_UNREACH); [| destruct (hdr8 icmp 0 =? ICMP_TIME_EXCEEDED);
    [| destruct (hdr8 icmp 0 =? ICMP_PARAMETERPROB); [| reflexivity]]];
    cbn -[rd8 rd16 icmp4_unreach icmp4_pointer u8 Z.shiftr Z.div Z.modulo];
    rewrite rd8_hdr8 by lia; cbn -[rd8 rd16 icmp4_unreach icmp4_pointer u8 Z.shiftr Z.div Z.modulo Z.eqb].
  - transitivity (match icmp4_unreach (hdr8 icmp 1) (if hdr8 icmp 1 =? 4 then hdr16 icmp 6 else 0) with
      | Some (ty, code6, w) => Ok true (icmp6_head (ty, code6, Some (default 0 w)) [z1; z2]
          (z :: z0 :: z1 :: z2 :: z3 :: z4 :: z5 :: z6 :: rest) ++ rest)
      | None => Dropped end).
    2:{ now destruct (icmp4_unreach _ _) as [[[? ?] ?] |]. }
    destruct (hdr8 icmp 1 =? 4);
      [rewrite rd16_hdr16 by lia |];
      (destruct (icmp4_unreach _ _) as [[[ty code6] w] |] eqn:Eu; [| reflexivity]);
      destruct (icmp4_unreach_bytes _ _ _ _ _ Eu); destruct w;
      cbn -[u8 Z.div Z.modulo]; rewrite !u8_id by assumption; reflexivity.
  - rewrite (u8_id (hdr8 icmp 1)) by exact Hc. reflexivity.
  - rewrite rd16_hdr16 by lia. cbn -[icmp4_pointer u8 Z.shiftr Z.div Z.modulo hdr16].
    rewrite (u8_id (hdr8 icmp 1)) by exact Hc. change (hdr16 icmp 4) with (256 * hdr8 icmp 4 + hdr8 icmp 5).
    rewrite be16_high by assumption. reflexivity.
Qed.

(** The IPv6 packet the included one becomes. *)
Definition v6_included (p : list Z) (n : Z) : option (list Z) :=
  payload ← v6_transport p n true; Some (v6_headers p true (hdr16 p 2 - ip4_hdr_len p) ++ payload).

Lemma included_run p n dst :
  bytes_ok p -> (20 <= length p)%nat -> hdr8 p 9 <> IPPROTO_ICMP ->
  0 <= n - ip4_hdr_len p -> n <= Z.of_nat (length p) ->
  (hdr8 p 9 = IPPROTO_UDP -> 8 <= n - ip4_hdr_len p) ->
  (40 + Z.to_nat (n - ip4_hdr_len p) <= length dst)%nat ->
  ip4_ip6_fuel 1 p n 0 true dst =
    match v6_included p n with
    | Some q => Ok tt (q ++ drop (40 + Z.to_nat (n - ip4_hdr_len p)) dst)
    | None => Dropped
    end.
Proof.
  intros Hp Hl Hicmp H0 Hn Hudp Hroom.
  assert (Ew : wants_fragment_header p true = false) by (unfold wants_fragment_header; now rewrite orb_true_r).
  rewrite transport_run by (auto; try rewrite Ew; auto; discriminate).
  unfold v6_included. rewrite Ew. destruct (v6_transport p n true); simpl; [| reflexivity].
  now rewrite <- app_assoc.
Qed.

Lemma length_v6_included p n q :
  (20 <= length p)%nat -> 0 <= n - ip4_hdr_len p -> n <= Z.of_nat (length p) -> 0 <= ip4_hdr_len p ->
  v6_included p n = Some q -> length q = (40 + Z.to_nat (n - ip4_hdr_len p))%nat.
Proof.
  intros Hl H0 Hn Hh. unfold v6_included, v6_transport.
  assert (Ew : wants_fragment_header p true = false) by (unfold wants_fragment_header; now rewrite orb_true_r).
  intros E. destruct (if hdr8 p 9 =? IPPROTO_TCP then _ else _) as [payload |] eqn:Ep; simpl in E; [| discriminate].
  injection E as <-. rewrite length_app, length_v6_headers, Ew by auto. f_equal.
  assert (Ei : ip4_payload p n = payload) by (repeat case_match; congruence).
  rewrite <- Ei. unfold ip4_payload. apply length_bytes_at. lia.
Qed.

Lemma length_icmp6_head m ck old : length ck = 2%nat -> (8 <= length old)%nat -> length (icmp6_head m ck old) = 8%nat.
Proof.
  intros Hc Ho. destruct m as [[ty code] [w |]]; unfold icmp6_head; rewrite !length_app, Hc.
  - now rewrite length_be_split.
  - now rewrite length_bytes_at by lia.
Qed.

(** A store of the checksum field. *)
Lemma icmp6_head_checksum m ck old v rest :
  length ck = 2%nat -> blit (icmp6_head m ck old ++ rest) 2 (le_split 2 v) = icmp6_head m (le_split 2 v) old ++ rest.
Proof. intros Hc. explode ck 2. destruct ck; [| simpl in Hc; lia]. now destruct m as [[ty code] [w |]]. Qed.

(** The length field of the headers is corrected. *)
Lemma v6_headers_correct_length src incl n v rest :
  (20 <= length src)%nat ->
  u16 v = u16 (n + (if wants_fragment_header src incl then 8 else 0) + 20) ->
  blit (v6_headers src incl n ++ rest) 4 (be_split 2 v) = v6_headers src incl (n + 20) ++ rest.
Proof.
  intros Hl E. rewrite (be_split_mod2 _ _ E). explode src 20. unfold v6_headers.
  destruct (wants_fragment_header _ incl).
  - replace (n + 8 + 20) with (n + 20 + 8) by lia. reflexivity.
  - replace (n + 0 + 20) with (n + 20) by lia. reflexivity.
Qed.

(** The message of [len - h + 20] bytes that an ICMPv4 error becomes, [q] being
    the included packet after its translation. *)
Definition icmp6_message (src : list Z) (len : Z) (m : Z * Z * option Z) (q old : list Z) : list Z :=
  let n := len - ip4_hdr_len src + 20 in
  icmp6_head m (le_split 2 (csum_ipv6_magic (v6_address src 12) (v6_address src 16) n IPPROTO_ICMPV6
    (csum_partial (icmp6_head m [0; 0] old ++ q) 0))) old ++ q.

Lemma icmp6_checksum_run src incl n m ck old q tail hdrs len :
  hdrs = v6_headers src incl n -> (20 <= length src)%nat ->
  length ck = 2%nat -> (8 <= length old)%nat -> len - ip4_hdr_len src + 20 = Z.of_nat (8 + length q) ->
  (wr16_host (length hdrs + 2) 0;;
   saddr <- dst_bytes (0 + 8) 16;
   daddr <- dst_bytes (0 + 24) 16;
   body <- dst_bytes (length hdrs) (len - ip4_hdr_len src + 20);
   wr16_host (length hdrs + 2) (csum_ipv6_magic saddr daddr (len - ip4_hdr_len src + 20) IPPROTO_ICMPV6 (csum_partial body 0)))
    (hdrs ++ icmp6_head m ck old ++ q ++ tail)
  = Ok tt (hdrs ++ icmp6_message src len m q old ++ tail).
Proof.
  intros Eh Hl Hck Hold Hn.
  assert (Hlh : (40 <= length hdrs)%nat).
  { subst hdrs. rewrite length_v6_headers by auto. destruct (wants_fragment_header src incl); lia. }
  assert (Hw : forall v ck rest, length ck = 2%nat -> wr16_host (length hdrs + 2) v (hdrs ++ icmp6_head m ck old ++ rest)
    = Ok tt (hdrs ++ icmp6_head m (le_split 2 v) old ++ rest)).
  { intros v ck' rest Hck'. unfold wr16_host.
    rewrite wr_run by (rewrite !length_app, length_icmp6_head, length_le_split by auto; lia).
    now rewrite blit_app, icmp6_head_checksum. }
  assert (Hrd : forall off k l, 0 <= k -> (off + Z.to_nat k <= length l)%nat ->
    dst_bytes off k l = Ok (bytes_at l off (Z.to_nat k)) l).
  { intros. unfold dst_bytes. now apply rd_bytes_run. }
  unfold bind at 1. rewrite Hw by auto.
  unfold bind at 1. rewrite Hrd by (rewrite ?length_app; lia).
  unfold bind at 1. rewrite Hrd by (rewrite ?length_app; lia).
  change (Z.to_nat 16) with 16%nat. change (0 + 8)%nat with 8%nat. change (0 + 24)%nat with 24%nat.
  destruct (v6_headers_addresses src incl n (icmp6_head m (le_split 2 0) old ++ q ++ tail) Hl) as [E1 E2].
  rewrite <- Eh in E1, E2. rewrite E1, E2.
  unfold bind at 1. rewrite Hrd by (rewrite ?length_app, ?length_icmp6_head by auto; lia).
  replace (bytes_at (hdrs ++ icmp6_head m (le_split 2 0) old ++ q ++ tail) (length hdrs) _) with (icmp6_head m (le_split 2 0) old ++ q).
  2:{ rewrite <- (Nat.add_0_r (length hdrs)), bytes_at_app_skip, app_assoc, bytes_at_front; [reflexivity |].
      rewrite length_app, length_icmp6_head by auto. lia. }
  rewrite Hw by auto. unfold icmp6_message. now rewrite <- app_assoc.
Qed.

(** Up to the second call: the headers, the first eight bytes of the message,
    and what is left to do, [finish], when the included packet is translated. *)
Definition icmp4_finish (src : list Z) (c : nat) : M unit :=
  let h := ip4_hdr_len src in
  wr16 4 ((if wants_fragment_header src false then u16 (hdr16 src 2 + 8) else hdr16 src 2) - h + 20);;
  wr16_host (c + 2) 0;;
  saddr <- dst_bytes 8 16;
  daddr <- dst_bytes 24 16;
  body <- dst_bytes c (hdr16 src 2 - h + 20);
  wr16_host (c + 2) (csum_ipv6_magic saddr daddr (hdr16 src 2 - h + 20) IPPROTO_ICMPV6 (csum_partial body 0)).

Lemma icmp4_error_run src len dst :
  let h := ip4_hdr_len src in
  let d := (if wants_fragment_header src false then 48 else 40)%nat in
  let hdrs := v6_headers src false (hdr16 src 2 - h) in
  let old := drop d dst in
  bytes_ok src -> (20 <= length src)%nat -> hdr8 src 9 = IPPROTO_ICMP ->
  ip4_offset (hdr16 src 6) = 0 -> ip4_mf (hdr16 src 6) = 0 ->
  len <= Z.of_nat (length src) -> 8 <= len - h -> 0 <= h ->
  is_echo (drop (Z.to_nat h) src) = false -> (d + 8 <= length dst)%nat ->
  ip4_ip6 src len 0 false dst =
    match icmp6_error (drop (Z.to_nat h) src) with
    | None => Dropped
    | Some m =>
        let front := hdrs ++ icmp6_head m (bytes_at old 2 2) old in
        match lift front (ip4_ip6_fuel 1 (drop (Z.to_nat h + 8) src) (len - h - 8) 0 true (drop 8 old)) with
        | Ok _ dst' => icmp4_finish src (length hdrs) dst'
        | Dropped => Dropped
        | Fault => Fault
        | Spin => Spin
        end
    end.
Proof.
  intros h d hdrs old Hs Hl Hp Hoff Hmf Hlen H8 Hh Hecho Hroom.
  change (ip4_ip6 src len 0 false dst) with
    (ip4_ip6_body (fun p n d' => ip4_ip6_fuel 1 p n d' true) src len 0 false dst).
  rewrite headers_run by (auto; fold d; lia). fold d h.
  unfold ip4_ip6_payload. rewrite Hp. change (IPPROTO_ICMP =? IPPROTO_ICMP) with true. cbv iota. fold h.
  fold hdrs.
  assert (Hc : (0 + 40 + (if wants_fragment_header src false then 8 else 0))%nat = length hdrs).
  { unfold hdrs. rewrite length_v6_headers by auto. now destruct (wants_fragment_header src false). }
  assert (Hdh : d = length hdrs) by (unfold hdrs, d; now rewrite length_v6_headers by auto).
  unfold icmp4_translate. rewrite Hc. unfold bind at 1. rewrite rd16_hdr16 by lia. rewrite Hoff, Hmf.
  change (negb (0 =? 0) || negb (0 =? 0)) with false. cbv iota. unfold bind at 1. rewrite rd16_hdr16 by lia.
  unfold bind at 1. rewrite <- (Nat.add_0_r (length hdrs)) at 1.
  rewrite (framed_icmp4_switch src h len hdrs), switch_run by (auto; rewrite ?length_drop; lia).
  destruct (icmp6_error _) as [m |]; [| reflexivity].
  fold old. assert (Hold : (8 <= length old)%nat) by (unfold old; rewrite length_drop; lia).
  set (ck := bytes_at old 2 2). assert (Hck : length ck = 2%nat) by (apply length_bytes_at; lia).
  cbn [lift]. cbv iota beta. unfold bind at 1 2.
  replace (length hdrs + 8)%nat with (length (hdrs ++ icmp6_head m ck old) + 0)%nat
    by (rewrite length_app, length_icmp6_head by auto; lia).
  rewrite app_assoc, (framed_ip4_ip6 1 _ (len - h - 8) true (hdrs ++ icmp6_head m ck old)).
  unfold ck, icmp4_finish. fold h. cbv zeta.
  destruct (lift _ _) as [u l | | |]; try reflexivity.
  cbv beta iota. unfold bind at 1. change (0 + 4)%nat with 4%nat. unfold bind at 5.
  now destruct (wr16 4 _ l).
Qed.

(** C36: An ICMPv4 message that is not an echo, in an unfragmented packet whose total length is its
    length, and that includes a packet without IPv4 options (the code corrects the lengths by 20 whatever the included header
    has) which is not ICMP itself and, if UDP, has a whole UDP header: it becomes the ICMPv6 error of
    the tables around the translation of the included packet, where the destination has room; it is dropped when its type, its code or
    the included packet has none. *)
Theorem icmp4_error_translated src len dst :
  let h := ip4_hdr_len src in
  let d := (if wants_fragment_header src false then 48 else 40)%nat in
  let icmp := drop (Z.to_nat h) src in
  let inner := drop (Z.to_nat h + 8) src in
  bytes_ok src -> (20 <= length src)%nat -> hdr8 src 9 = IPPROTO_ICMP ->
  ip4_offset (hdr16 src 6) = 0 -> ip4_mf (hdr16 src 6) = 0 ->
  hdr16 src 2 = len -> len + 8 < 65536 -> len <= Z.of_nat (length src) -> 28 <= len - h ->
  is_echo icmp = false ->
  ip4_hdr_len inner = 20 -> hdr8 inner 9 <> IPPROTO_ICMP -> (hdr8 inner 9 = IPPROTO_UDP -> 36 <= len - h) ->
  (d + Z.to_nat (len - h + 20) <= length dst)%nat ->
  ip4_ip6 src len 0 false dst =
    match icmp6_error icmp, v6_included inner (len - h - 8) with
    | Some m, Some q =>
        Ok tt (v6_headers src false (len - h + 20) ++ icmp6_message src len m q (drop d dst)
               ++ drop (d + Z.to_nat (len - h + 20)) dst)
    | _, _ => Dropped
    end.
Proof.
  intros h d icmp inner Hs Hl Hp Hoff Hmf Htot H16 Hlen H28 Hecho Hih Hip Hudp Hroom.
  assert (Hh : 0 <= h).
  { unfold h, ip4_hdr_len. assert (0 <= Z.land (hdr8 src 0) 15) by (apply Z.land_nonneg; lia). lia. }
  rewrite icmp4_error_run by (auto; fold h d; lia). fold h d icmp inner.
  destruct (icmp6_error icmp) as [m |]; [| reflexivity]. cbv zeta.
  set (hdrs := v6_headers src false (hdr16 src 2 - h)). set (old := drop d dst). set (ck := bytes_at old 2 2).
  assert (Hdh : d = length hdrs) by (unfold hdrs, d; now rewrite length_v6_headers by auto).
  assert (Hod : length old = (length dst - d)%nat) by (unfold old; now rewrite length_drop).
  assert (Hold : (8 <= length old)%nat) by lia.
  assert (Hck : length ck = 2%nat) by (apply length_bytes_at; lia).
  assert (Hil : length inner = (length src - (Z.to_nat h + 8))%nat) by (unfold inner; now rewrite length_drop).
  assert (Hib : bytes_ok inner) by (unfold inner; auto using bytes_ok_drop).
  rewrite included_run by (auto; rewrite ?Hih, ?length_drop; lia). rewrite Hih.
  destruct (v6_included inner (len - h - 8)) as [q |] eqn:Eq; [| reflexivity].
  assert (Hq : length q = (40 + Z.to_nat (len - h - 8 - 20))%nat)
    by (rewrite (length_v6_included inner (len - h - 8)), Hih by (auto; lia); lia).
  cbn [lift]. cbv iota beta. unfold icmp4_finish. fold h. unfold bind at 1. rewrite <- !app_assoc.
  assert (Hfix : forall rest, wr16 4 ((if wants_fragment_header src false then u16 (hdr16 src 2 + 8) else hdr16 src 2) - h + 20)
    (hdrs ++ rest) = Ok tt (v6_headers src false (len - h + 20) ++ rest)).
  { intros rest. unfold wr16. rewrite wr_run by (rewrite length_app, length_be_split; unfold d in Hdh; destruct (wants_fragment_header src false); lia).
    unfold hdrs. rewrite Htot. f_equal. apply v6_headers_correct_length; [exact Hl |].
    destruct (wants_fragment_header src false); [rewrite (u16_id (len + 8)) by lia |]; f_equal; lia. }
  rewrite Hfix, Htot. cbv iota beta.
  assert (Hdh' : length hdrs = length (v6_headers src false (len - h + 20)))
    by (unfold hdrs; now rewrite !length_v6_headers by auto).
  rewrite Hdh'. rewrite (icmp6_checksum_run src false (len - h + 20) m ck old q); auto; [| lia].
  replace (drop (40 + Z.to_nat (len - h - 8 - 20)) (drop 8 old)) with (drop (d + Z.to_nat (len - h + 20)) dst); [reflexivity |].
  unfold old. rewrite !drop_drop. f_equal. lia.
Qed.

(** The header length of the included packet is not checked: when the error
    quotes fewer bytes of a TCP segment than its header length claims, the
    length of the copy is negative and the copy runs out of the buffers. *)
Theorem icmp4_short_inner_faults src len dst :
  let h := ip4_hdr_len src in
  let d := (if wants_fragment_header src false then 48 else 40)%nat in
  let inner := drop (Z.to_nat h + 8) src in
  bytes_ok src -> (20 <= length src)%nat -> hdr8 src 9 = IPPROTO_ICMP ->
  ip4_offset (hdr16 src 6) = 0 -> ip4_mf (hdr16 src 6) = 0 ->
  len <= Z.of_nat (length src) -> 28 <= len - h ->
  hdr8 (drop (Z.to_nat h) src) 0 = ICMP_TIME_EXCEEDED ->
  hdr8 inner 9 = IPPROTO_TCP -> len - h - 8 < ip4_hdr_len inner ->
  (d + 48 <= length dst)%nat ->
  ip4_ip6 src len 0 false dst = Fault.
Proof.
  intros h d inner Hs Hl Hp Hoff Hmf Hlen H28 Hte Htcp Hshort Hroom.
  assert (Hh : 0 <= h).
  { unfold h, ip4_hdr_len. assert (0 <= Z.land (hdr8 src 0) 15) by (apply Z.land_nonneg; lia). lia. }
  assert (Hil : (20 <= length inner)%nat) by (unfold inner; rewrite length_drop; lia).
  assert (Hecho : is_echo (drop (Z.to_nat h) src) = false) by (unfold is_echo; now rewrite Hte).
  rewrite icmp4_error_run by (auto; fold h d; lia). fold h d inner.
  unfold icmp6_error. rewrite Hte. cbv zeta beta.
  change (if ICMP_TIME_EXCEEDED =? ICMP_DEST_UNREACH then _ else _) with
    (Some (ICMPV6_TIME_EXCEED, hdr8 (drop (Z.to_nat h) src) 1, @None Z)). cbv iota.
  cbn [ip4_ip6_fuel].
  assert (Ew : wants_fragment_header inner true = false) by (unfold wants_fragment_header; now rewrite orb_true_r).
  assert (Hib : bytes_ok inner) by (unfold inner; auto using bytes_ok_drop).
  rewrite headers_run by (rewrite ?Ew, ?length_drop; auto; lia).
  unfold ip4_ip6_payload. rewrite Htcp.
  change (IPPROTO_TCP =? IPPROTO_ICMP) with false. change (IPPROTO_TCP =? IPPROTO_TCP) with true. cbv iota.
  unfold tcp4_translate, memcpy, bind at 1, rd_bytes.
  rewrite (proj2 (Z.leb_gt 0 (len - h - 8 - ip4_hdr_len inner))) by lia. reflexivity.
Qed.

End IcmpTranslate.

(** ** Concrete packets *)

(** A TTL-exceeded error, from router 10.0.0.1, for a 24-byte TCP segment. *)
Definition quoted_tcp : list Z :=
  [0x45; 0; 0; 24; 0; 7; 0x40; 0; 1; 6; 0; 0; 10; 0; 0; 9; 10; 0; 0; 8; 1; 2; 3; 4].
Definition ttl_exceeded (quoted : list Z) : list Z :=
  [0x45; 0; 0; 28 + Z.of_nat (length quoted); 0; 7; 0x40; 0; 64; 1; 0; 0; 10; 0; 0; 1; 10; 0; 0; 9; 11; 0; 0; 0; 0; 0; 0; 0]
  ++ quoted.

Lemma icmp4_error_translated_witness :
  exists q, v6_included (H := rfc_env) quoted_tcp 24 = Some q /\ length q = 44%nat /\
  ip4_ip6 (H := rfc_env) (ttl_exceeded quoted_tcp) 52 0 false (repeat 0 100) =
    Ok tt (v6_headers (H := rfc_env) (ttl_exceeded quoted_tcp) false 52
           ++ icmp6_message (H := rfc_env) (ttl_exceeded quoted_tcp) 52 (3, 0, None) q (repeat 0 60)
           ++ repeat 0 8).
Proof.
  eexists. split; [vm_compute; reflexivity |]. split; [reflexivity |].
  etransitivity; [apply (icmp4_error_translated (H := rfc_env)); try by_compute; try (vm_compute; congruence) |].
  vm_compute. reflexivity.
Defined.

(** The quoted segment claims 60 bytes of header. *)
Definition quoted_short : list Z :=
  [0x4f; 0; 0; 60; 0; 7; 0x40; 0; 1; 6; 0; 0; 10; 0; 0; 9; 10; 0; 0; 8; 1; 2; 3; 4].

Lemma icmp4_short_inner_faults_witness :
  ip4_ip6 (H := rfc_env) (ttl_exceeded quoted_short) 52 0 false (repeat 0 100) = Fault.
Proof. apply (icmp4_short_inner_faults (H := rfc_env)); try by_compute; vm_compute; congruence. Defined.
