(* ===== verification/Siit6.v ===== *)
(** * Siit6: the stateless IP/ICMP translator, IPv6 to IPv4

    Models [ip6_ip4] of [feeds/net/siit/src/siit.c] in the monad of [Siit].
    The extension headers are walked with fuel: a walk that has not ended when
    it is used up is [Spin].  The theorems: what a packet sent by the other
    direction becomes (the round trip of a segment), what the tables make of
    ICMPv6 errors, and two defects of the walk and of the MTU field. *)
From S2P Require Import Prelude Siit.
#[local] Open Scope siit_scope.

Section Translate6.
Context `{SiitEnv}.

(** ** Addresses and extension headers *)

(** The third words of the two addresses are the prefixes of the direction. *)
Definition ip6_check_addresses (src : list Z) (include_flag : bool) : M unit :=
  s <- rd32 src 16;
  if negb (s =? (if include_flag then MAPPED_PREFIX else TRANSLATED_PREFIX)) then drop_packet
  else
    t <- rd32 src 32;
    if negb (t =? (if include_flag then TRANSLATED_PREFIX else MAPPED_PREFIX)) then drop_packet
    else ret tt.

(** [len_delta - sizeof(...) >= 0] compares unsigned numbers. *)
Definition room_unsigned (len_delta size : Z) : bool := 0 <=? u32 (len_delta - size).

Record walk := Walk { len_delta : Z; opts_len : Z; next_hdr : Z }.

(** The offset of the current extension header. *)
Definition ext_off (w : walk) : nat := (40 + Z.to_nat (opts_len w))%nat.

Definition ip6_hop_by_hop (src : list Z) (w : walk) : M walk :=
  if next_hdr w =? NEXTHDR_HOP then
    if room_unsigned (len_delta w) 2 then
      hdrlen <- rd8 src (ext_off w + 1);
      let len_delta' := s32 (len_delta w - (hdrlen * 8 + 8)) in
      if 0 <=? len_delta' then
        nexthdr <- rd8 src (ext_off w);
        ret (Walk len_delta' (opts_len w + (hdrlen * 8 + 8)) nexthdr)
      else drop_packet
    else ret w
  else ret w.

Definition ip6_dest_options (src : list Z) (w : walk) : M walk :=
  if room_unsigned (len_delta w) 2 then
    hdrlen <- rd8 src (ext_off w + 1);
    let len_delta' := s32 (len_delta w - (hdrlen * 8 + 8)) in
    if 0 <=? len_delta' then
      nexthdr <- rd8 src (ext_off w);
      ret (Walk len_delta' (opts_len w + (hdrlen * 8 + 8)) nexthdr)
    else ret (Walk len_delta' (opts_len w) (next_hdr w))
  else drop_packet.

Definition ip6_routing (src : list Z) (w : walk) : M walk :=
  if room_unsigned (len_delta w) 4 then
    segments_left <- rd8 src (ext_off w + 3);
    if negb (segments_left =? 0) then drop_packet
    else
      hdrlen <- rd8 src (ext_off w + 1);
      let len_delta' := s32 (len_delta w - (hdrlen * 8 + 8)) in
      if 0 <=? len_delta' then
        nexthdr <- rd8 src (ext_off w);
        ret (Walk len_delta' (opts_len w + (hdrlen * 8 + 8)) nexthdr)
      else drop_packet
  else ret w.

(** The identification and the offset go to the IPv4 header at [d]. *)
Definition ip6_fragment (src : list Z) (d : nat) (w : walk) : M walk :=
  let len_delta' := s32 (len_delta w - 8) in
  if 0 <=? len_delta' then
    id <- rd32 src (ext_off w + 4);
    wr16 (d + 4) id;;
    frag_off <- rd16 src (ext_off w + 2);
    wr16 (d + 6) (Z.shiftr (Z.land frag_off IP6F_OFF_MASK) 3);;
    cur <- dst16 (d + 6);
    wr16 (d + 6) (Z.lor cur (Z.shiftl (Z.land frag_off IP6F_MORE_FRAG) 13));;
    nexthdr <- rd8 src (ext_off w);
    ret (Walk len_delta' (opts_len w + 8) nexthdr)
  else drop_packet.

Definition ip6_is_transport (next_hdr : Z) : bool :=
  (next_hdr =? NEXTHDR_ICMP) || (next_hdr =? NEXTHDR_TCP) || (next_hdr =? NEXTHDR_UDP).

(** The [while] loop over the extension headers. *)
Fixpoint ip6_ext_headers (fuel : nat) (src : list Z) (d : nat) (w : walk) : M walk :=
  match fuel with
  | O => spin
  | S fuel =>
      if ip6_is_transport (next_hdr w) then ret w
      else if next_hdr w =? NEXTHDR_DEST then
        w' <- ip6_dest_options src w; ip6_ext_headers fuel src d w'
      else if next_hdr w =? NEXTHDR_ROUTING then
        w' <- ip6_routing src w; ip6_ext_headers fuel src d w'
      else if next_hdr w =? NEXTHDR_FRAGMENT then
        w' <- ip6_fragment src d w; ip6_ext_headers fuel src d w'
      else if next_hdr w =? NEXTHDR_NONE then ret w
      else drop_packet
  end.

(** ** The IPv4 header; returns [ntot_len] *)

Definition ip6_ip4_header (src : list Z) (d : nat) (w : walk) : M Z :=
  wr_high d 4;; wr_low d 5;;
  (if tos_ignore_flag then wr8 (d + 1) 0
   else
     b0 <- rd8 src 0; wr8 (d + 1) (Z.shiftl (Z.land b0 15) 4);;
     b1 <- rd8 src 1; tos <- dst8 (d + 1); wr8 (d + 1) (Z.lor tos (Z.shiftr b1 4)));;
  payload_len <- rd16 src 4;
  let ntot_len := if payload_len =? 0 then 0 else payload_len + IP4_IP6_HDR_DIFF - opts_len w in
  wr16 (d + 2) ntot_len;;
  hop_limit <- rd8 src 7;
  wr8 (d + 8) hop_limit;;
  wr8 (d + 9) (next_hdr w);;
  saddr <- rd_bytes src 20 4; wr (d + 12) saddr;;
  daddr <- rd_bytes src 36 4; wr (d + 16) daddr;;
  wr16_host (d + 10) 0;;
  hdr <- dst_bytes d 20;
  wr16_host (d + 10) (ip_fast_csum hdr);;
  ret ntot_len.

(** ** ICMP *)

(** Destination Unreachable: the code. *)
Definition icmp6_unreach_code (code : Z) : option Z :=
  if bool_decide (code ∈ [0; 2; 3]) then Some 1
  else if code =? 1 then Some 10
  else if code =? 4 then Some 3
  else None.

(** Parameter Problem: the pointer. *)
Definition icmp6_pointer (ptr : Z) : Z :=
  if ptr =? 0 then 0
  else if ptr =? 4 then 2
  else if ptr =? 6 then 9
  else if ptr =? 7 then 8
  else if ptr =? 8 then 12
  else if ptr =? 24 then 16
  else 0xff.

(** The switch on the type: true when the message is an error. *)
Definition icmp6_switch (icmp : list Z) (c : nat) (len_delta : Z) : M bool :=
  type <- rd8 icmp 0;
  if type =? ICMPV6_DEST_UNREACH then
    wr8 c ICMP_DEST_UNREACH;; wr16 (c + 4) 0;; wr16 (c + 6) 0;;
    code <- rd8 icmp 1;
    match icmp6_unreach_code code with
    | Some code4 => wr8 (c + 1) code4;; ret true
    | None => drop_packet
    end
  else if type =? ICMPV6_PKT_TOOBIG then
    wr8 c ICMP_DEST_UNREACH;; wr8 (c + 1) 4;;
    (* the first two bytes of the 32-bit field: its low half in host order *)
    lo <- rd8 icmp 4; hi <- rd8 icmp 5;
    wr16_host (c + 6) (lo + 256 * hi);; ret true
  else if type =? ICMPV6_TIME_EXCEED then
    wr8 c ICMP_TIME_EXCEEDED;; code <- rd8 icmp 1; wr8 (c + 1) code;; ret true
  else if type =? ICMPV6_PARAMPROB then
    code <- rd8 icmp 1;
    if code =? 1 then wr8 c ICMP_DEST_UNREACH;; wr8 (c + 1) 2;; ret true
    else
      wr8 c ICMP_PARAMETERPROB;; wr8 (c + 1) 0;;
      ptr <- rd32 icmp 4;
      wr16_host (c + 4) (icmp6_pointer ptr);; ret true
  else if type =? ICMPV6_ECHO_REQUEST then
    wr8 c ICMP_ECHO;; wr8 (c + 1) 0;; memcpy (c + 4) icmp 4 2;; memcpy (c + 6) icmp 6 2;;
    (if 0 <? len_delta then memcpy (c + 8) icmp 8 len_delta else ret tt);; ret false
  else if type =? ICMPV6_ECHO_REPLY then
    wr8 c ICMP_ECHOREPLY;; wr8 (c + 1) 0;; memcpy (c + 4) icmp 4 2;; memcpy (c + 6) icmp 6 2;;
    (if 0 <? len_delta then memcpy (c + 8) icmp 8 len_delta else ret tt);; ret false
  else drop_packet.

(** The included packet: the new total length and [real_len]. *)
Definition icmp6_included (rec : list Z -> Z -> nat -> M Z) (icmp : list Z) (d c : nat) (len_delta ntot_len real_len : Z) : M Z :=
  if 40 <=? u32 len_delta then
    inc_opts_len <- rec (drop 8 icmp) len_delta (c + 8)%nat;
    (if negb (ntot_len =? 0) then wr16 (d + 2) (ntot_len - inc_opts_len - IP4_IP6_HDR_DIFF) else ret tt);;
    ret (real_len - inc_opts_len - IP4_IP6_HDR_DIFF)
  else if 0 <? len_delta then memcpy (c + 8) icmp 8 len_delta;; ret real_len
  else ret real_len.

Definition icmp6_translate (rec : list Z -> Z -> nat -> M Z) (src : list Z) (d : nat) (include_flag : bool) (w : walk)
    (ntot_len : Z) : M Z :=
  let len_delta' := s32 (len_delta w - 8) in
  if 0 <=? len_delta' then
    let icmp := drop (ext_off w) src in
    let c := (d + 20)%nat in
    let real_len := 20 + len_delta' + 8 in
    wr8 (d + 9) IPPROTO_ICMP;;
    (if include_flag then
       type <- rd8 icmp 0; if negb (type =? ICMPV6_ECHO_REQUEST) then drop_packet else ret tt
     else ret tt);;
    icmperr <- icmp6_switch icmp c len_delta';
    real_len' <- (if icmperr : bool then icmp6_included rec icmp d c len_delta' ntot_len real_len else ret real_len);
    wr16_host (d + 10) 0;;
    hdr <- dst_bytes d 20;
    wr16_host (d + 10) (ip_fast_csum hdr);;
    (if negb (ntot_len =? 0) then
       wr16_host (c + 2) 0;;
       tot_len <- dst16 (d + 2);
       body <- dst_bytes c (tot_len - 20);
       wr16_host (c + 2) (ip_compute_csum body)
     else ret tt);;
    ret real_len'
  else drop_packet.

(** ** The whole translation *)

Definition ip6_ip4_body (rec : list Z -> Z -> nat -> M Z) (fuel : nat) (src : list Z) (len : Z) (d : nat) (include_flag : bool) : M Z :=
  let len_delta0 := s32 (len - 40) in
  if 0 <=? len_delta0 then
    ip6_check_addresses src include_flag;;
    wr16_host (d + 6) 0;; wr16_host (d + 4) 0;;
    nexthdr <- rd8 src 6;
    w <- ip6_hop_by_hop src (Walk len_delta0 0 nexthdr);
    w <- (if 0 <? len_delta w then ip6_ext_headers fuel src d w else ret w);
    ntot_len <- ip6_ip4_header src d w;
    real_len <-
      (if 0 <? len_delta w then
         if next_hdr w =? NEXTHDR_ICMP then icmp6_translate rec src d include_flag w ntot_len
         else
           memcpy (d + 20) src (ext_off w) (len_delta w);;
           ret (20 + len_delta w)
       else ret 20);
    ret (if include_flag then opts_len w else real_len)
  else drop_packet.

(** Fuel for the walk: every header takes at least eight bytes. *)
Definition walk_fuel (len : Z) : nat := S (S (Z.to_nat len / 8)).

Fixpoint ip6_ip4_fuel (depth : nat) (src : list Z) (len : Z) (d : nat) (include_flag : bool) : M Z :=
  match depth with
  | O => spin
  | S depth => ip6_ip4_body (fun p n d' => ip6_ip4_fuel depth p n d' true) (walk_fuel len) src len d include_flag
  end.

(** An included packet that includes another is dropped. *)
Definition ip6_ip4 : list Z -> Z -> nat -> bool -> M Z := ip6_ip4_fuel 2.

End Translate6.

(** ** The walk over the extension headers *)

Section Walk.
Context `{SiitEnv}.

Lemma room_unsigned_true x n : room_unsigned x n = true.
Proof. unfold room_unsigned. apply Z.leb_le. apply u32_range. Qed.

(** The length the header at [w] claims. *)
Definition ext_len (src : list Z) (w : walk) : Z := hdr8 src (ext_off w + 1) * 8 + 8.

(** A destination options header that claims more than is left. *)
Definition dest_overshoots (src : list Z) (w : walk) : Prop :=
  next_hdr w = NEXTHDR_DEST /\ 0 <= len_delta w < ext_len src w.

(** A computation that ends, and whose result satisfies [P]. *)
Definition ends_with {A} (P : A -> Prop) (m : M A) : Prop :=
  forall dst, match m dst with Ok a _ => P a | Spin => False | _ => True end.

Lemma ends_ret {A} (P : A -> Prop) a : P a -> ends_with P (ret a).
Proof. now intros Ha dst. Qed.
Lemma ends_drop {A} (P : A -> Prop) : ends_with P drop_packet.
Proof. now intros dst. Qed.
Lemma ends_bind {A B} (Q : A -> Prop) (P : B -> Prop) m k :
  ends_with Q m -> (forall a, Q a -> ends_with P (k a)) -> ends_with P (bind m k).
Proof.
  intros Hm Hk dst. unfold bind. specialize (Hm dst). destruct (m dst); auto. apply (Hk _ Hm).
Qed.
Lemma ends_rd8 p off : ends_with (fun b => b = hdr8 p off) (rd8 p off).
Proof. intros dst. unfold rd8, hdr8. rewrite nth_lookup. now destruct (p !! off). Qed.
Lemma ends_rd16 p off : ends_with (fun _ => True) (rd16 p off).
Proof. unfold rd16. eapply ends_bind; [apply ends_rd8 |]. intros. eapply ends_bind; [apply ends_rd8 |]. intros. now apply ends_ret. Qed.
Lemma ends_rd32 p off : ends_with (fun _ => True) (rd32 p off).
Proof. unfold rd32. eapply ends_bind; [apply ends_rd16 |]. intros. eapply ends_bind; [apply ends_rd16 |]. intros. now apply ends_ret. Qed.
Lemma ends_wr off bs : ends_with (fun _ => True) (wr off bs).
Proof. intros dst. unfold wr. now destruct (_ <=? _)%nat. Qed.
Lemma ends_dst16 off : ends_with (fun _ => True) (dst16 off).
Proof. intros dst. apply (ends_rd16 dst off dst). Qed.

(** The walk moved on: at least eight bytes are behind it. *)
Definition advanced (w w' : walk) : Prop := 0 <= len_delta w' /\ len_delta w' + 8 <= len_delta w.

Lemma dest_options_step src w :
  bytes_ok src -> 0 <= len_delta w < 2 ^ 31 -> ~ dest_overshoots src w -> next_hdr w = NEXTHDR_DEST ->
  ends_with (advanced w) (ip6_dest_options src w).
Proof.
  intros Hs Hl Hno Hn. unfold ip6_dest_options. rewrite room_unsigned_true.
  eapply ends_bind; [apply ends_rd8 | intros hdrlen ->].
  pose proof (hdr8_byte src (ext_off w + 1) Hs) as Hb. unfold byte_ok in Hb.
  unfold dest_overshoots, ext_len in Hno. rewrite s32_id by lia.
  destruct (Z.leb_spec 0 (len_delta w - (hdr8 src (ext_off w + 1) * 8 + 8))); [| exfalso; apply Hno; lia].
  eapply ends_bind; [apply ends_rd8 | intros nh _]. apply ends_ret. unfold advanced. cbn [len_delta]. lia.
Qed.

Lemma routing_step src w :
  bytes_ok src -> 0 <= len_delta w < 2 ^ 31 -> ends_with (advanced w) (ip6_routing src w).
Proof.
  intros Hs Hl. unfold ip6_routing. rewrite room_unsigned_true.
  eapply ends_bind; [apply ends_rd8 | intros sl _]. destruct (negb (sl =? 0)); [apply ends_drop |].
  eapply ends_bind; [apply ends_rd8 | intros hdrlen ->].
  pose proof (hdr8_byte src (ext_off w + 1) Hs) as Hb. unfold byte_ok in Hb. rewrite s32_id by lia.
  destruct (Z.leb_spec 0 (len_delta w - (hdr8 src (ext_off w + 1) * 8 + 8))); [| apply ends_drop].
  eapply ends_bind; [apply ends_rd8 | intros nh _]. apply ends_ret. unfold advanced. cbn [len_delta]. lia.
Qed.

Lemma fragment_step src d w : 0 <= len_delta w < 2 ^ 31 -> ends_with (advanced w) (ip6_fragment src d w).
Proof.
  intros Hl. unfold ip6_fragment. rewrite s32_id by lia.
  destruct (Z.leb_spec 0 (len_delta w - 8)); [| apply ends_drop].
  eapply ends_bind; [apply ends_rd32 | intros id _]. eapply ends_bind; [apply ends_wr | intros _ _].
  eapply ends_bind; [apply ends_rd16 | intros fo _]. eapply ends_bind; [apply ends_wr | intros _ _].
  eapply ends_bind; [apply ends_dst16 | intros cur _]. eapply ends_bind; [apply ends_wr | intros _ _].
  eapply ends_bind; [apply ends_rd8 | intros nh _]. apply ends_ret. unfold advanced. cbn [len_delta]. lia.
Qed.

(** The headers a run of the loop passes, as a step relation. *)
Inductive walks (src : list Z) (d : nat) : walk -> list Z -> walk -> list Z -> Prop :=
  | walks_here w dst : walks src d w dst w dst
  | walks_dest w dst w1 dst1 w2 dst2 :
      next_hdr w = NEXTHDR_DEST -> ip6_dest_options src w dst = Ok w1 dst1 ->
      walks src d w1 dst1 w2 dst2 -> walks src d w dst w2 dst2
  | walks_routing w dst w1 dst1 w2 dst2 :
      next_hdr w = NEXTHDR_ROUTING -> ip6_routing src w dst = Ok w1 dst1 ->
      walks src d w1 dst1 w2 dst2 -> walks src d w dst w2 dst2
  | walks_fragment w dst w1 dst1 w2 dst2 :
      next_hdr w = NEXTHDR_FRAGMENT -> ip6_fragment src d w dst = Ok w1 dst1 ->
      walks src d w1 dst1 w2 dst2 -> walks src d w dst w2 dst2.

(** What the loop leaves: a header that ends the walk, and no more bytes than
    there were. *)
Definition walk_ended (w : walk) : walk -> Prop := fun w' =>
  0 <= len_delta w' <= len_delta w /\ (ip6_is_transport (next_hdr w') = true \/ next_hdr w' = NEXTHDR_NONE).

(** C37: With fuel for one header per eight bytes the walk ends, having consumed
    no more than there was, unless it comes to a destination options header
    that claims more bytes than are left. *)
Theorem ext_headers_end fuel src d w dst :
  bytes_ok src -> 0 <= len_delta w < 2 ^ 31 -> (Z.to_nat (len_delta w) / 8 < fuel)%nat ->
  (exists w' dst', walks src d w dst w' dst' /\ dest_overshoots src w')
  \/ match ip6_ext_headers fuel src d w dst with
     | Ok w' _ => walk_ended w w'
     | Spin => False
     | _ => True
     end.
Proof.
  intros Hs. revert w dst. induction fuel as [| fuel IH]; intros w dst Hl Hf; [lia |].
  cbn [ip6_ext_headers].
  destruct (ip6_is_transport (next_hdr w)) eqn:Et; [right; split; auto with lia |].
  assert (Hnext : forall m : M walk, ends_with (advanced w) m ->
    (forall w1 dst1 w2 dst2, m dst = Ok w1 dst1 -> walks src d w1 dst1 w2 dst2 -> walks src d w dst w2 dst2) ->
    (exists w' dst', walks src d w dst w' dst' /\ dest_overshoots src w')
    \/ match bind m (fun w' => ip6_ext_headers fuel src d w') dst with
       | Ok w' _ => walk_ended w w' | Spin => False | _ => True end).
  { intros m Hm Hw. specialize (Hm dst). unfold bind. destruct (m dst) as [w1 dst1 | | |] eqn:Em; auto.
    destruct Hm as [H1 H2].
    assert (Hq : (S (Z.to_nat (len_delta w1) / 8) <= Z.to_nat (len_delta w) / 8)%nat).
    { replace (S (Z.to_nat (len_delta w1) / 8)) with ((Z.to_nat (len_delta w1) + 1 * 8) / 8)%nat
        by (rewrite Nat.div_add by lia; lia). apply Nat.Div0.div_le_mono. lia. }
    destruct (IH w1 dst1 ltac:(lia) ltac:(lia)) as [(w2 & dst2 & Hw2 & Ho) | Hend]; [left; eauto | right].
    destruct (ip6_ext_headers fuel src d w1 dst1); auto. unfold walk_ended in *. intuition lia. }
  destruct (Z.eqb_spec (next_hdr w) NEXTHDR_DEST) as [Ed | Ed].
  { destruct (decide (len_delta w < ext_len src w)) as [Hov | Hov].
    - left. exists w, dst. split; [constructor | split; auto; lia].
    - apply Hnext; [apply dest_options_step; auto; unfold dest_overshoots; lia |].
      intros. eapply walks_dest; eauto. }
  destruct (Z.eqb_spec (next_hdr w) NEXTHDR_ROUTING) as [Er | Er].
  { apply Hnext; [now apply routing_step |]. intros. eapply walks_routing; eauto. }
  destruct (Z.eqb_spec (next_hdr w) NEXTHDR_FRAGMENT) as [Ef | Ef].
  { apply Hnext; [now apply fragment_step |]. intros. eapply walks_fragment; eauto. }
  right. destruct (Z.eqb_spec (next_hdr w) NEXTHDR_NONE); [split; auto with lia | exact I].
Qed.

(** When it does, the walk stays at that header: it counts [len_delta] down
    without moving, however long it runs before the [int] wraps. *)
Lemma dest_overshoot_stays fuel src d w dst :
  bytes_ok src -> (ext_off w + 1 < length src)%nat -> next_hdr w = NEXTHDR_DEST ->
  - 2 ^ 30 <= len_delta w < ext_len src w -> Z.of_nat fuel <= 2 ^ 18 ->
  - 2 ^ 30 <= len_delta w - Z.of_nat fuel * ext_len src w ->
  ip6_ext_headers fuel src d w dst = Spin.
Proof.
  intros Hs Hlen. remember (len_delta w) as ld eqn:Eld. revert w Hlen Eld. 
  revert ld. induction fuel as [| fuel IH]; intros ld w Hlen Eld Hn Hld Hf Hend; [reflexivity |].
  cbn [ip6_ext_headers]. rewrite Hn. change (ip6_is_transport NEXTHDR_DEST) with false. cbv iota.
  change (NEXTHDR_DEST =? NEXTHDR_DEST) with true. cbv iota.
  pose proof (hdr8_byte src (ext_off w + 1) Hs) as Hb. unfold byte_ok in Hb.
  assert (He : 8 <= ext_len src w <= 2048) by (unfold ext_len; lia).
  unfold bind, ip6_dest_options. rewrite room_unsigned_true. unfold bind. rewrite rd8_hdr8 by exact Hlen.
  fold (ext_len src w). rewrite <- Eld. rewrite s32_id by lia.
  rewrite (proj2 (Z.leb_gt 0 (ld - ext_len src w))) by lia. unfold ret.
  assert (Ex : ext_len src (Walk (ld - ext_len src w) (opts_len w) (next_hdr w)) = ext_len src w) by reflexivity.
  apply (IH (ld - ext_len src w)); auto; rewrite ?Ex; cbn [len_delta next_hdr]; lia.
Qed.
End Walk.

(** ** The round trip *)

Section RoundTrip.
Context `{SiitEnv}.

Lemma check_addresses_run src incl incl' n rest dst :
  (20 <= length src)%nat -> ip6_check_addresses (v6_headers src incl n ++ rest) incl' dst = Ok tt dst.
Proof.
  intros. explode src 20. unfold v6_headers. destruct (wants_fragment_header _ incl), incl'; reflexivity.
Qed.

Lemma version_ihl b : u8 (Z.lor (Z.land (u8 (Z.lor (Z.shiftl 4 4) (Z.land b 15))) 240) 5) = 0x45.
Proof. rewrite nibble_high. reflexivity. Qed.

Lemma tos_returned t :
  byte_ok t ->
  u8 (Z.lor (u8 (Z.shiftl (Z.land (96 + t `div` 16) 15) 4)) (Z.shiftr (t `mod` 16 * 16) 4)) = t.
Proof.
  apply (byte_forall_eq (fun t => u8 (Z.lor (u8 (Z.shiftl (Z.land (96 + t `div` 16) 15) 4)) (Z.shiftr (t `mod` 16 * 16) 4))) (fun t => t)).
  vm_compute. reflexivity.
Qed.

Lemma v6_tos_byte src : bytes_ok src -> byte_ok (v6_tos src).
Proof. intros Hs. unfold v6_tos. destruct tos_ignore_flag; [by_compute | now apply hdr8_byte]. Qed.

(** The IPv4 header written from the IPv6 header, [d] holding the
    identification and the offset. *)
Definition v4_fields (src d : list Z) (tot_len nh ck : Z) : list Z :=
  [0x45; v6_tos src] ++ be_split 2 tot_len ++ bytes_at d 4 4 ++ [hdr8 src 8; nh] ++ le_split 2 ck
  ++ bytes_at src 12 4 ++ bytes_at src 16 4.

Lemma tos_part_run src p nh rest a b l :
  bytes_ok src -> (20 <= length src)%nat ->
  (if tos_ignore_flag then wr8 (0 + 1) 0
   else
     b0 <- rd8 (v6_header src p nh ++ rest) 0; wr8 (0 + 1) (Z.shiftl (Z.land b0 15) 4);;
     b1 <- rd8 (v6_header src p nh ++ rest) 1; tos <- dst8 (0 + 1); wr8 (0 + 1) (Z.lor tos (Z.shiftr b1 4))) (a :: b :: l)
  = Ok tt (a :: v6_tos src :: l).
Proof.
  intros Hs Hl. pose proof (v6_tos_byte src Hs) as Ht. unfold v6_header.
  destruct tos_ignore_flag eqn:Et; [unfold v6_tos; now rewrite Et |].
  cbn -[hdr8 Z.land Z.lor Z.shiftl Z.shiftr u8 Z.div Z.modulo Z.mul Z.add].
  now rewrite tos_returned.
Qed.

Lemma version_part_run b l (k : M Z) : (wr_high 0 4;; wr_low 0 5;; k) (b :: l) = k (0x45 :: l).
Proof.
  unfold wr_high, wr_low, bind, dst8, wr8, wr. cbn -[Z.shiftl Z.land Z.lor u8]. now rewrite version_ihl.
Qed.

Lemma v6_header_reads src p nh rest :
  (20 <= length src)%nat ->
  (forall dst, rd16 (v6_header src p nh ++ rest) 4 dst = Ok (u16 p) dst)
  /\ (forall dst, rd8 (v6_header src p nh ++ rest) 6 dst = Ok nh dst)
  /\ (forall dst, rd8 (v6_header src p nh ++ rest) 7 dst = Ok (hdr8 src 8) dst)
  /\ (forall dst, rd_bytes (v6_header src p nh ++ rest) 20 4 dst = Ok (bytes_at src 12 4) dst)
  /\ (forall dst, rd_bytes (v6_header src p nh ++ rest) 36 4 dst = Ok (bytes_at src 16 4) dst).
Proof.
  intros. rewrite <- be16_back. explode src 20. repeat split; intros; reflexivity.
Qed.

Lemma ip6_header_run src p nh rest w d :
  bytes_ok src -> (20 <= length src)%nat -> (20 <= length d)%nat -> byte_ok (next_hdr w) -> 0 < p < 65536 ->
  ip6_ip4_header (v6_header src p nh ++ rest) 0 w d =
    let tot := p + 20 - opts_len w in
    Ok tot (v4_fields src d tot (next_hdr w) (ip_fast_csum (v4_fields src d tot (next_hdr w) 0)) ++ drop 20 d).
Proof.
  intros Hs Hl Hd Hn Hp. unfold ip6_ip4_header. explode d 20. rewrite version_part_run.
  unfold bind at 1. rewrite tos_part_run by auto. cbv zeta.
  destruct (v6_header_reads src p nh rest Hl) as (R4 & _ & R7 & R20 & R36).
  unfold bind at 1. rewrite R4, u16_id by lia.
  rewrite (proj2 (Z.eqb_neq p 0)) by lia. unfold IP4_IP6_HDR_DIFF, v4_fields.
  pose proof (hdr8_byte src 8 Hs) as Httl.
  assert (L1 : length (bytes_at src 12 4) = 4%nat) by (apply length_bytes_at; lia).
  assert (L2 : length (bytes_at src 16 4) = 4%nat) by (apply length_bytes_at; lia).
  generalize dependent (bytes_at src 12 4). intros sa R20 L1. generalize dependent (bytes_at src 16 4). intros da R36 L2.
  explode sa 4. explode da 4. destruct sa; [| simpl in L1; lia]. destruct da; [| simpl in L2; lia].
  unfold bind, wr16, wr8, wr16_host, wr, dst_bytes, rd_bytes at 3, ret. change (Z.to_nat 20) with 20%nat.
  repeat (cbn -[rd8 rd_bytes v6_header u8 Z.div Z.modulo Z.add Z.sub ip_fast_csum]; rewrite ?R7, ?R20, ?R36).
  rewrite !u8_id by assumption. reflexivity.
Qed.
(** The IPv4 header that comes back: no options, the identification and the
    offset only when there was a fragment header, DF never. *)
Definition v4_id_frag (src : list Z) : list Z :=
  if wants_fragment_header src false
  then be_split 2 (hdr16 src 4) ++ be_split 2 (ip4_mf (hdr16 src 6) + ip4_offset (hdr16 src 6))
  else [0; 0; 0; 0].
Definition v4_returned (src : list Z) (tot_len : Z) : list Z :=
  let fields := v4_fields src ([0; 0; 0; 0] ++ v4_id_frag src) tot_len (hdr8 src 9) in
  fields (ip_fast_csum (fields 0)).

Lemma frag_field_back fo :
  let f := ip4_offset fo * 8 + ip4_mf fo `div` 8192 in
  0 <= f < 65536
  /\ Z.lor (u16 (Z.shiftr (Z.land f IP6F_OFF_MASK) 3)) (Z.shiftl (Z.land f IP6F_MORE_FRAG) 13) = ip4_mf fo + ip4_offset fo.
Proof.
  intros f. pose proof (ip4_offset_range fo) as Ho.
  assert (Hm : ip4_mf fo `div` 8192 = 0 \/ ip4_mf fo `div` 8192 = 1) by (destruct (ip4_mf_cases fo) as [-> | ->]; auto).
  assert (Hf : 0 <= f < 65536) by (unfold f; lia). split; [exact Hf |].
  assert (E1 : Z.land f IP6F_MORE_FRAG = ip4_mf fo `div` 8192).
  { unfold IP6F_MORE_FRAG. change 1 with (Z.ones 1). rewrite Z.land_ones by lia. change (2 ^ 1) with 2.
    unfold f. replace (ip4_offset fo * 8) with (ip4_offset fo * 4 * 2) by lia.
    rewrite Z.add_comm, Z.mod_add by lia. apply Z.mod_small. lia. }
  assert (E2 : Z.shiftr (Z.land f IP6F_OFF_MASK) 3 = ip4_offset fo).
  { assert (Z.land f IP6F_OFF_MASK = Z.land (Z.shiftl (Z.shiftr f 3) 3) 0xffff) as ->.
    { bitwise. unfold IP6F_OFF_MASK. destruct (Z.lt_ge_cases n 3).
      - rewrite (Z.testbit_neg_r _ (n - 3)) by lia.
        assert (n = 0 \/ n = 1 \/ n = 2) as [-> | [-> | ->]] by lia; apply andb_false_r.
      - rewrite Z.shiftr_spec by lia. replace (n - 3 + 3) with n by lia. f_equal.
        change 0xfff8 with (Z.shiftl (Z.ones 13) 3). change 0xffff with (Z.ones 16).
        rewrite Z.shiftl_spec by lia. destruct (Z.lt_ge_cases n 16).
        + rewrite !Z.ones_spec_low by lia. reflexivity.
        + rewrite !Z.ones_spec_high by lia. reflexivity. }
    rewrite (Z.shiftr_div_pow2 f), Z.shiftl_mul_pow2 by lia. change (2 ^ 3) with 8.
    assert (f `div` 8 = ip4_offset fo) as ->.
    { unfold f. rewrite Z.div_add_l by lia. rewrite Z.div_small by lia. lia. }
    rewrite land_ffff, u16_id by lia. rewrite Z.shiftr_div_pow2 by lia. apply Z.div_mul. lia. }
  rewrite E1, E2, u16_id by lia.
  destruct (ip4_mf_cases fo) as [-> | ->].
  - change (Z.shiftl (0 `div` 8192) 13) with 0. apply Z.lor_0_r.
  - change (Z.shiftl (8192 `div` 8192) 13) with 8192. rewrite Z.lor_comm. apply (lor_low_bits 1 _ 13); lia.
Qed.

Lemma rd8_skip a b k dst : rd8 (a ++ b) (length a + k) dst = rd8 b k dst.
Proof. unfold rd8. rewrite lookup_app_r by lia. now replace (length a + k - length a)%nat with k by lia. Qed.
Lemma rd16_skip a b k dst : rd16 (a ++ b) (length a + k) dst = rd16 b k dst.
Proof. unfold rd16, bind. now rewrite rd8_skip, plus_n_Sm; destruct (rd8 b k dst); rewrite ?rd8_skip. Qed.

Lemma rd32_skip a b k dst : rd32 (a ++ b) (length a + k) dst = rd32 b k dst.
Proof.
  unfold rd32, bind. rewrite rd16_skip. destruct (rd16 b k dst); [| reflexivity..].
  replace (S (S (length a + k))) with (length a + S (S k))%nat by lia. now rewrite rd16_skip.
Qed.

Lemma hdr16_range src off : bytes_ok src -> 0 <= hdr16 src off < 65536.
Proof.
  intros Hs. pose proof (hdr8_byte src off Hs). pose proof (hdr8_byte src (S off) Hs).
  change (hdr16 src off) with (256 * hdr8 src off + hdr8 src (S off)). unfold byte_ok in *. lia.
Qed.

Lemma fragment_header_reads h src pay :
  bytes_ok src ->
  let f := v6_fragment_header src ++ pay in
  (forall dst, rd8 (h ++ f) (length h + 0) dst = Ok (ip4_nexthdr (hdr8 src 9)) dst)
  /\ (forall dst, rd16 (h ++ f) (length h + 2) dst
       = Ok (ip4_offset (hdr16 src 6) * 8 + ip4_mf (hdr16 src 6) `div` 8192) dst)
  /\ (forall dst, rd32 (h ++ f) (length h + 4) dst = Ok (hdr16 src 4) dst).
Proof.
  intros Hs f. pose proof (hdr16_range src 4 Hs). destruct (frag_field_back (hdr16 src 6)) as [Hf _].
  unfold f, v6_fragment_header. repeat split; intros dst; rewrite ?rd8_skip, ?rd16_skip, ?rd32_skip.
  - reflexivity.
  - transitivity (Ok (256 * ((ip4_offset (hdr16 src 6) * 8 + ip4_mf (hdr16 src 6) `div` 8192) `div` 256) `mod` 256
      + (ip4_offset (hdr16 src 6) * 8 + ip4_mf (hdr16 src 6) `div` 8192) `mod` 256) dst); [reflexivity |].
    now rewrite be16_back, u16_id by lia.
  - transitivity (Ok (65536 * (256 * (((hdr16 src 4 `div` 256) `div` 256) `div` 256) `mod` 256 + ((hdr16 src 4 `div` 256) `div` 256) `mod` 256)
      + (256 * (hdr16 src 4 `div` 256) `mod` 256 + hdr16 src 4 `mod` 256)) dst); [reflexivity |].
    assert ((hdr16 src 4 `div` 256) `div` 256 = 0) as -> by (rewrite Z.div_div by lia; apply Z.div_small; lia).
    rewrite (be16_back (hdr16 src 4)), u16_id by lia. f_equal.
Qed.

(** The fragment header, and the walk that passes it. *)
Lemma fragment_back src p pay d ld :
  bytes_ok src -> (20 <= length src)%nat -> (20 <= length d)%nat -> 8 <= ld < 2 ^ 31 ->
  ip6_fragment (v6_header src p NEXTHDR_FRAGMENT ++ v6_fragment_header src ++ pay) 0 (Walk ld 0 NEXTHDR_FRAGMENT) d
  = Ok (Walk (ld - 8) 8 (ip4_nexthdr (hdr8 src 9)))
       (take 4 d ++ be_split 2 (hdr16 src 4) ++ be_split 2 (ip4_mf (hdr16 src 6) + ip4_offset (hdr16 src 6)) ++ drop 8 d).
Proof.
  intros Hs Hl Hd Hld. unfold ip6_fragment. cbn [len_delta next_hdr opts_len]. rewrite s32_id by lia.
  rewrite (proj2 (Z.leb_le 0 (ld - 8))) by lia.
  replace (ext_off _) with (length (v6_header src p NEXTHDR_FRAGMENT) + 0)%nat by (rewrite length_v6_header by auto; reflexivity).
  set (h := v6_header src p NEXTHDR_FRAGMENT). clearbody h.
  rewrite <- !Nat.add_assoc. change (0 + 4)%nat with 4%nat. change (0 + 2)%nat with 2%nat.
  destruct (fragment_header_reads h src pay Hs) as (R0 & R2 & R4).
  destruct (frag_field_back (hdr16 src 6)) as [Hf Eback].
  generalize dependent (rd8 (h ++ v6_fragment_header src ++ pay) (length h + 0)). intros f0 R0.
  generalize dependent (rd16 (h ++ v6_fragment_header src ++ pay) (length h + 2)). intros f2 R2.
  generalize dependent (rd32 (h ++ v6_fragment_header src ++ pay) (length h + 4)). intros f4 R4.
  explode d 20. clear Hd. unfold bind, wr16, wr, dst16, ret.
  repeat (cbn -[u16 Z.land Z.lor Z.shiftl Z.shiftr Z.div Z.modulo Z.add Z.sub Z.mul ip4_nexthdr hdr16]; rewrite ?R0, ?R2, ?R4).
  rewrite be16_back, Eback. reflexivity.
Qed.

Lemma walk_back src pay d fuel :
  bytes_ok src -> (20 <= length src)%nat -> (20 <= length d)%nat ->
  hdr8 src 9 = IPPROTO_TCP \/ hdr8 src 9 = IPPROTO_UDP ->
  let n := Z.of_nat (length pay) in
  let fr := wants_fragment_header src false in
  n + 8 < 65536 -> bytes_at d 4 4 = [0; 0; 0; 0] ->
  ip6_ext_headers (S (S fuel)) (v6_headers src false n ++ pay) 0
    (Walk (if fr then n + 8 else n) 0 (if fr then NEXTHDR_FRAGMENT else hdr8 src 9)) d
  = Ok (Walk n (if fr then 8 else 0) (hdr8 src 9)) (take 4 d ++ v4_id_frag src ++ drop 8 d).
Proof.
  intros Hs Hl Hd Hp n fr Hn H0. unfold v6_headers, v4_id_frag. fold fr.
  assert (Ht : ip6_is_transport (hdr8 src 9) = true) by (destruct Hp as [-> | ->]; reflexivity).
  assert (Hnh : ip4_nexthdr (hdr8 src 9) = hdr8 src 9) by (destruct Hp as [-> | ->]; reflexivity).
  destruct fr.
  - cbn [ip6_ext_headers next_hdr]. change (ip6_is_transport NEXTHDR_FRAGMENT) with false.
    change (NEXTHDR_FRAGMENT =? NEXTHDR_DEST) with false. change (NEXTHDR_FRAGMENT =? NEXTHDR_ROUTING) with false.
    change (NEXTHDR_FRAGMENT =? NEXTHDR_FRAGMENT) with true. cbv iota. unfold bind.
    rewrite <- app_assoc, fragment_back by (auto; lia). cbn [next_hdr]. rewrite Hnh, Ht, <- app_assoc.
    unfold ret. do 2 f_equal. lia.
  - cbn [ip6_ext_headers next_hdr]. rewrite Ht, <- H0. unfold ret. f_equal.
    transitivity (take 4 d ++ drop 4 d); [now rewrite take_drop |]. f_equal.
    unfold bytes_at. rewrite <- (take_drop 4 (drop 4 d)) at 1. f_equal. now rewrite drop_drop.
Qed.

Lemma ip6_ip4_returns src payload dst :
  bytes_ok src -> (20 <= length src)%nat ->
  hdr8 src 9 = IPPROTO_TCP \/ hdr8 src 9 = IPPROTO_UDP ->
  let n := Z.of_nat (length payload) in
  0 < n -> 28 + n < 65536 -> (20 + length payload <= length dst)%nat ->
  let pkt := v6_headers src false n ++ payload in
  ip6_ip4 pkt (Z.of_nat (length pkt)) 0 false dst
  = Ok (20 + n) (v4_returned src (20 + n) ++ payload ++ drop (20 + length payload) dst).
Proof.
  intros Hs Hl Hp n Hn H16 Hd pkt. set (fr := wants_fragment_header src false).
  assert (Hlen : Z.of_nat (length pkt) = (if fr then 48 else 40) + n).
  { unfold pkt. rewrite length_app, length_v6_headers by auto. fold fr. destruct fr; lia. }
  change (ip6_ip4 pkt (Z.of_nat (length pkt)) 0 false dst) with
    (ip6_ip4_body (fun p n d' => ip6_ip4_fuel 1 p n d' true) (walk_fuel (Z.of_nat (length pkt))) pkt (Z.of_nat (length pkt)) 0 false dst).
  rewrite Hlen. unfold ip6_ip4_body. rewrite s32_id by (destruct fr; lia).
  unfold walk_fuel. set (fuel := (Z.to_nat _ / 8)%nat). clearbody fuel.
  rewrite (proj2 (Z.leb_le 0 _)) by (destruct fr; lia).
  unfold bind at 1. unfold pkt. rewrite check_addresses_run by auto.
  explode dst 20. unfold wr16_host, wr. unfold bind at 1 2. cbn [length Nat.add Nat.leb le_split blit take app drop].
  change (0 mod 256) with 0. change ((0 `div` 256) mod 256) with 0.
  set (d := z :: _).
  set (p := if fr then n + 8 else n). set (nh := if fr then NEXTHDR_FRAGMENT else hdr8 src 9).
  assert (Hnh : ip4_nexthdr (hdr8 src 9) = hdr8 src 9) by (destruct Hp as [-> | ->]; reflexivity).
  assert (Hpkt : exists tail, v6_headers src false n ++ payload = v6_header src p nh ++ tail).
  { unfold v6_headers, p, nh. fold fr. rewrite Hnh. destruct fr; [rewrite <- app_assoc |]; eauto. }
  destruct Hpkt as [tail Epkt].
  assert (Hnz : (nh =? NEXTHDR_HOP) = false) by (unfold nh; destruct fr; [reflexivity |]; destruct Hp as [-> | ->]; reflexivity).
  unfold bind at 1. rewrite Epkt at 1. rewrite (proj1 (proj2 (v6_header_reads src p nh tail Hl))).
  unfold bind at 1. unfold ip6_hop_by_hop. cbn [next_hdr]. rewrite Hnz. unfold ret at 1.
  replace ((if fr then 48 else 40) + n - 40) with p by (unfold p; destruct fr; lia). cbn [len_delta].
  rewrite (proj2 (Z.ltb_lt 0 p)) by (unfold p; destruct fr; lia).
  assert (Hw : ip6_ext_headers (S (S fuel)) (v6_headers src false n ++ payload) 0 (Walk p 0 nh) d
    = Ok (Walk n (if fr then 8 else 0) (hdr8 src 9)) (take 4 d ++ v4_id_frag src ++ drop 8 d)).
  { apply walk_back; auto; [unfold d; simpl; lia | lia]. }
  unfold bind at 1. rewrite Hw. clear Hw.
  set (d' := take 4 d ++ v4_id_frag src ++ drop 8 d).
  assert (Hd' : exists a b c e, v4_id_frag src = [a; b; c; e])
    by (unfold v4_id_frag; destruct (wants_fragment_header src false); repeat eexists).
  destruct Hd' as (ia & ib & ic & ie & Eid).
  assert (Hb : byte_ok (hdr8 src 9)) by (now apply hdr8_byte).
  unfold bind at 1. rewrite Epkt at 1. rewrite ip6_header_run; auto; [| unfold d'; rewrite Eid; simpl; lia | unfold p; destruct fr; lia].
  cbn [next_hdr opts_len len_delta]. cbv zeta.
  replace (p + 20 - (if fr then 8 else 0)) with (20 + n) by (unfold p; destruct fr; lia).
  replace (v4_fields src d' (20 + n) (hdr8 src 9) (ip_fast_csum _)) with (v4_returned src (20 + n))
    by (unfold v4_returned, v4_fields, d'; rewrite Eid; reflexivity).
  replace (drop 20 d') with dst by (unfold d'; rewrite Eid; reflexivity).
  rewrite (proj2 (Z.ltb_lt 0 n)) by lia.
  assert ((hdr8 src 9 =? NEXTHDR_ICMP) = false) as -> by (destruct Hp as [-> | ->]; reflexivity).
  assert (L20 : length (v4_returned src (20 + n)) = 20%nat).
  { unfold v4_returned, v4_fields. rewrite !length_app, !length_be_split, length_le_split, !length_bytes_at
      by (rewrite ?Eid; simpl; lia). reflexivity. }
  assert (Hoff : ext_off (Walk n (if fr then 8 else 0) (hdr8 src 9)) = length (v6_headers src false n)).
  { rewrite length_v6_headers by auto. fold fr. destruct fr; reflexivity. }
  unfold bind at 1 2. rewrite Hoff, <- L20 at 1.
  rewrite memcpy_after by (rewrite ?length_app; simpl in Hd; lia).
  rewrite <- (Nat.add_0_r (length (v6_headers src false n))), bytes_at_app_skip.
  replace (Z.to_nat n) with (length payload) by lia. unfold bytes_at. cbn [drop]. rewrite firstn_all.
  reflexivity.
Qed.

End RoundTrip.

(** ** The MTU of a Packet Too Big *)

(** Only the first two bytes of the 32-bit MTU field reach the IPv4 message:
    an MTU below 65536 becomes 0. *)
Lemma toobig_mtu_lost `{SiitEnv} icmp len_delta dst :
  (8 <= length icmp)%nat -> (8 <= length dst)%nat -> hdr8 icmp 0 = ICMPV6_PKT_TOOBIG ->
  hdr8 icmp 4 = 0 -> hdr8 icmp 5 = 0 ->
  icmp6_switch icmp 0 len_delta dst = Ok true ([3; 4] ++ bytes_at dst 2 4 ++ [0; 0] ++ drop 8 dst).
Proof.
  intros Hi Hd Ht H4 H5. unfold icmp6_switch. unfold bind at 1. rewrite rd8_hdr8, Ht by lia.
  change (ICMPV6_PKT_TOOBIG =? ICMPV6_DEST_UNREACH) with false.
  change (ICMPV6_PKT_TOOBIG =? ICMPV6_PKT_TOOBIG) with true. cbv iota.
  explode dst 8. unfold bind, wr8, wr16_host, wr, ret.
  repeat (cbn -[rd8 Z.div Z.modulo u8]; rewrite ?(rd8_hdr8 icmp) by lia). rewrite H4, H5. reflexivity.
Qed.

(** ** Concrete packets *)

(** A TCP segment of 24 bytes, one fragment of a larger packet. *)
Definition tcp_fragment : list Z :=
  [0x45; 0x12; 0; 44; 1; 7; 0x20; 5; 64; 6; 0; 0; 10; 0; 0; 1; 10; 0; 0; 9]
  ++ [1; 2; 3; 4; 5; 6; 7; 8; 9; 10; 11; 12; 13; 14; 15; 16; 17; 18; 19; 20; 21; 22; 23; 24].


(** A routing header of eight bytes, then a destination header that claims 24
    bytes where 16 are left. *)
Definition overshooting : list Z :=
  repeat 0 40 ++ [60; 0; 0; 0; 0; 0; 0; 0] ++ [6; 2; 0; 0; 0; 0; 0; 0] ++ repeat 0 8.

Lemma ext_headers_end_witness :
  (exists w' dst', walks (overshooting) 0 (Walk 24 0 NEXTHDR_ROUTING) (repeat 0 20) w' dst'
     /\ dest_overshoots overshooting w')
  \/ match ip6_ext_headers 4 overshooting 0 (Walk 24 0 NEXTHDR_ROUTING) (repeat 0 20) with
     | Ok w' _ => walk_ended (Walk 24 0 NEXTHDR_ROUTING) w' | Spin => False | _ => True end.
Proof. apply ext_headers_end; by_compute. Defined.
