(* ===== verification/SiitSpin.v ===== *)
(** * SiitSpin: which translations end

    A computation of [Siit.M] that can be [Spin] only when [Q] holds
    ([spins_only]).  [ip4_ip6] never spins; [ip6_ip4] only where the chain of
    extension headers of the packet, or of the packet an ICMPv6 error includes,
    comes to destination options that claim more bytes than are left. *)
From S2P Require Import Prelude Siit Siit6.
#[local] Open Scope siit_scope.

Definition spins_only {A} (Q : Prop) (m : M A) : Prop := forall dst, m dst = Spin -> Q.

Lemma s32_range x : - 2 ^ 31 <= s32 x < 2 ^ 31.
Proof. unfold s32, swrap. pose proof (Z.mod_pos_bound (x + 2 ^ (32 - 1)) (2 ^ 32)). lia. Qed.

Section SpinsOnly.
Context (Q : Prop).

Lemma spins_bind {A B} (m : M A) (k : A -> M B) :
  spins_only Q m -> (forall a dst dst', m dst = Ok a dst' -> spins_only Q (k a)) -> spins_only Q (bind m k).
Proof.
  intros Hm Hk dst. unfold bind. specialize (Hm dst). destruct (m dst) as [a dst' | | |] eqn:E; auto; try discriminate.
  intros Es. exact (Hk _ _ _ E _ Es).
Qed.
Lemma spins_ret {A} (a : A) : spins_only Q (ret a).
Proof. now intros dst. Qed.
Lemma spins_drop {A} : spins_only Q (drop_packet : M A).
Proof. now intros dst. Qed.
Lemma spins_rd8 p off : spins_only Q (rd8 p off).
Proof. intros dst. unfold rd8. now destruct (p !! off). Qed.
Lemma spins_rd_bytes p off n : spins_only Q (rd_bytes p off n).
Proof. intros dst. unfold rd_bytes. now destruct (_ && _). Qed.
Lemma spins_wr off bs : spins_only Q (wr off bs).
Proof. intros dst. unfold wr. now destruct (_ <=? _)%nat. Qed.
End SpinsOnly.

(** A computation that depends on the destination as its source. *)
Lemma spins_dst {A} Q (f : list Z -> M A) : (forall l, spins_only Q (f l)) -> spins_only Q (fun dst => f dst dst).
Proof. intros Hf dst. apply Hf. Qed.

Ltac spins := repeat first
  [ assumption
  | apply spins_ret | apply spins_drop | apply spins_rd8 | apply spins_rd_bytes | apply spins_wr
  | match goal with
    | |- spins_only _ (bind _ _) => apply spins_bind; [| intros ? ? ? _]
    | |- spins_only _ (if ?b then _ else _) => destruct b
    | |- spins_only _ (match ?x with _ => _ end) => destruct x
    end ].

(** The loads and stores made of others. *)
Lemma spins_rd16 Q p off : spins_only Q (rd16 p off).
Proof. unfold rd16. spins. Qed.
Lemma spins_rd32 Q p off : spins_only Q (rd32 p off).
Proof. unfold rd32. spins; apply spins_rd16. Qed.
Lemma spins_dst8 Q off : spins_only Q (dst8 off).
Proof. apply (spins_dst Q (fun l => rd8 l off)). intros. apply spins_rd8. Qed.
Lemma spins_dst16 Q off : spins_only Q (dst16 off).
Proof. apply (spins_dst Q (fun l => rd16 l off)). intros. apply spins_rd16. Qed.
Lemma spins_dst_bytes Q off n : spins_only Q (dst_bytes off n).
Proof. apply (spins_dst Q (fun l => rd_bytes l off n)). intros. apply spins_rd_bytes. Qed.
Lemma spins_memcpy Q d p off n : spins_only Q (memcpy d p off n).
Proof. unfold memcpy. spins. Qed.
Lemma spins_wr_high Q off v : spins_only Q (wr_high off v).
Proof. unfold wr_high. spins; apply spins_dst8. Qed.
Lemma spins_wr_low Q off v : spins_only Q (wr_low off v).
Proof. unfold wr_low. spins; apply spins_dst8. Qed.
Create HintDb spins.
#[export] Hint Resolve spins_ret spins_drop spins_rd8 spins_rd_bytes spins_wr spins_rd16 spins_rd32 spins_dst8
  spins_dst16 spins_dst_bytes spins_memcpy spins_wr_high spins_wr_low : spins.

Ltac spin_free := repeat first
  [ assumption
  | solve [auto 1 with spins nocore]
  | match goal with
    | |- spins_only _ (bind _ _) => apply spins_bind; [| intros ? ? ? _]
    | |- spins_only _ (if ?b then _ else _) => destruct b
    | |- spins_only _ (let '(_, _) := ?x in _) => destruct x
    | |- spins_only _ (match ?x with _ => _ end) => destruct x
    | |- spins_only _ (wr8 _ _) => unfold wr8
    | |- spins_only _ (wr16 _ _) => unfold wr16
    | |- spins_only _ (wr32 _ _) => unfold wr32
    | |- spins_only _ (wr16_host _ _) => unfold wr16_host
    end ].

(** ** IPv4 to IPv6 *)

Section Spin4.
Context `{SiitEnv}.

(** The recursive call is only reached for a packet that is not itself an
    included one. *)
Lemma spins_ip4_body Q rec src len d incl :
  (incl = false -> forall p n d', spins_only Q (rec p n d')) -> spins_only Q (ip4_ip6_body rec src len d incl).
Proof.
  intros Hrec. unfold ip4_ip6_body, ip4_ip6_fragment_header, ip4_ip6_header, ip4_ip6_address, icmp4_translate, icmp4_switch,
    icmp4_dest_unreach, tcp4_translate, udp4_translate. cbv zeta.
  destruct incl; [| specialize (Hrec eq_refl)]; spin_free; auto with spins.
Qed.

Lemma spins_ip4_ip6 Q src len d incl : spins_only Q (ip4_ip6 src len d incl).
Proof. apply spins_ip4_body. intros -> p n d'. apply spins_ip4_body. discriminate. Qed.
End Spin4.

(** ** IPv6 to IPv4 *)

Section Spin6.
Context `{SiitEnv}.

(** The walk over the headers of [src], [len] bytes long, comes to [w]. *)
Definition header_at (src : list Z) (len : Z) (w : walk) : Prop :=
  exists d dst w0 dst0 dst', ip6_hop_by_hop src (Walk (len - 40) 0 (hdr8 src 6)) dst = Ok w0 dst0 /\ walks src d w0 dst0 w dst'.

(** It comes to destination options that claim more than is left. *)
Definition chain_overshoots (src : list Z) (len : Z) : Prop := exists w, header_at src len w /\ dest_overshoots src w.

(** The walk over the packet does, or the walk over the packet that follows its ICMPv6 header. *)
Definition overshoots (pkt : list Z) (len : Z) : Prop :=
  chain_overshoots pkt len \/
  exists w, header_at pkt len w /\ next_hdr w = NEXTHDR_ICMP /\ chain_overshoots (drop (ext_off w + 8) pkt) (s32 (len_delta w - 8)).

(** What the walk can be given: a length that fits [int]. *)
Lemma hop_range src w dst w' dst' :
  bytes_ok src -> 0 <= len_delta w < 2 ^ 31 -> ip6_hop_by_hop src w dst = Ok w' dst' -> 0 <= len_delta w' <= len_delta w.
Proof.
  intros Hs Hl. unfold ip6_hop_by_hop. destruct (_ =? NEXTHDR_HOP); [| intros E; injection E as <- _; lia].
  rewrite room_unsigned_true. unfold bind, rd8. destruct (src !! (ext_off w + 1)%nat) as [h |] eqn:Eh; [| discriminate].
  pose proof (Forall_lookup_1 _ _ _ _ Hs Eh) as Hb. unfold byte_ok in Hb. rewrite s32_id by lia.
  destruct (Z.leb_spec 0 (len_delta w - (h * 8 + 8))); [| discriminate].
  destruct (src !! ext_off w); [| discriminate]. intros E. injection E as <- _. cbn [len_delta]. lia.
Qed.

(** It does not touch the destination. *)
Lemma hop_anywhere src w dst w' dst' l : ip6_hop_by_hop src w dst = Ok w' dst' -> ip6_hop_by_hop src w l = Ok w' l.
Proof.
  unfold ip6_hop_by_hop, bind, rd8, ret, drop_packet. intros E. repeat (case_match; simplify_eq); congruence.
Qed.

Lemma hop_spins Q src w : spins_only Q (ip6_hop_by_hop src w).
Proof. unfold ip6_hop_by_hop. spin_free. Qed.

Lemma walk_spins src d w len dst :
  bytes_ok src -> 0 <= len_delta w < 2 ^ 31 -> len_delta w <= len - 40 ->
  ip6_ext_headers (walk_fuel len) src d w dst = Spin -> exists w2 dst2, walks src d w dst w2 dst2 /\ dest_overshoots src w2.
Proof.
  intros Hs Hl Hlen E. destruct (ext_headers_end (walk_fuel len) src d w dst Hs Hl) as [Ho | He]; [| exact Ho |].
  - unfold walk_fuel. apply Nat.lt_lt_succ_r, Nat.lt_succ_r, Nat.Div0.div_le_mono. lia.
  - now rewrite E in He.
Qed.

Lemma ext_headers_walks fuel src d w dst w' dst' : ip6_ext_headers fuel src d w dst = Ok w' dst' -> walks src d w dst w' dst'.
Proof.
  revert w dst. induction fuel as [| fuel IH]; intros w dst; [discriminate |]. cbn [ip6_ext_headers].
  destruct (ip6_is_transport _); [intros E; injection E as <- <-; constructor |].
  assert (Hnext : forall (m : M walk), bind m (fun w1 => ip6_ext_headers fuel src d w1) dst = Ok w' dst' ->
    (forall w1 dst1, m dst = Ok w1 dst1 -> walks src d w1 dst1 w' dst' -> walks src d w dst w' dst') -> walks src d w dst w' dst').
  { intros m E Hw. unfold bind in E. destruct (m dst) as [w1 dst1 | | |] eqn:Em; try discriminate. eauto. }
  destruct (Z.eqb_spec (next_hdr w) NEXTHDR_DEST); [intros E; apply (Hnext _ E); intros; eapply walks_dest; eauto |].
  destruct (Z.eqb_spec (next_hdr w) NEXTHDR_ROUTING); [intros E; apply (Hnext _ E); intros; eapply walks_routing; eauto |].
  destruct (Z.eqb_spec (next_hdr w) NEXTHDR_FRAGMENT); [intros E; apply (Hnext _ E); intros; eapply walks_fragment; eauto |].
  destruct (_ =? NEXTHDR_NONE); [intros E; injection E as <- <-; constructor | discriminate].
Qed.

(** An echo request is no error. *)
Lemma echo_no_error icmp c n dst b dst' :
  hdr8 icmp 0 = ICMPV6_ECHO_REQUEST -> icmp6_switch icmp c n dst = Ok b dst' -> b = false.
Proof.
  intros Ht. unfold icmp6_switch, bind at 1, rd8. unfold hdr8 in Ht. rewrite nth_lookup in Ht.
  destruct (icmp !! 0%nat) as [t |]; [| discriminate]. cbn in Ht. subst t.
  change (if ICMPV6_ECHO_REQUEST =? ICMPV6_DEST_UNREACH then ?x else if ICMPV6_ECHO_REQUEST =? ICMPV6_PKT_TOOBIG then ?y else
    if ICMPV6_ECHO_REQUEST =? ICMPV6_TIME_EXCEED then ?z else if ICMPV6_ECHO_REQUEST =? ICMPV6_PARAMPROB then ?u else
    if ICMPV6_ECHO_REQUEST =? ICMPV6_ECHO_REQUEST then ?v else ?r) with v.
  unfold bind, ret. intros E. repeat case_match; congruence.
Qed.

(** Only a packet that is not itself an included one has its included packet
    translated: an included one is dropped unless it is an echo request. *)
Lemma spins_icmp6 Q rec src d incl w n :
  (incl = false -> 0 <= s32 (len_delta w - 8) -> forall d', spins_only Q (rec (drop (ext_off w + 8) src) (s32 (len_delta w - 8)) d')) ->
  spins_only Q (icmp6_translate rec src d incl w n).
Proof.
  intros Hrec. unfold icmp6_translate. cbv zeta.
  destruct (Z.leb_spec 0 (s32 (len_delta w - 8))); [| apply spins_drop].
  apply spins_bind; [spin_free | intros _ _ _ _].
  apply spins_bind; [spin_free | intros x dst dst' Ht].
  apply spins_bind; [unfold icmp6_switch; spin_free |]. intros b dst1 dst2 Hb.
  apply spins_bind; [| intros; spin_free]. destruct b; [| spin_free].
  destruct incl.
  - exfalso. enough (true = false) by discriminate. eapply echo_no_error; [| exact Hb].
    unfold bind, rd8 in Ht. unfold hdr8. rewrite nth_lookup. destruct (drop (ext_off w) src !! 0%nat) as [t |]; [| discriminate].
    cbn. destruct (Z.eqb_spec t ICMPV6_ECHO_REQUEST); [assumption | discriminate].
  - unfold icmp6_included. destruct (_ <=? _); [| spin_free].
    apply spins_bind; [rewrite drop_drop; now apply Hrec | intros; spin_free].
Qed.

Lemma spins_ip6_body Q rec src len d incl :
  bytes_ok src -> 0 <= len < 2 ^ 31 -> (chain_overshoots src len -> Q) ->
  (incl = false -> forall w, header_at src len w -> next_hdr w = NEXTHDR_ICMP -> 0 <= s32 (len_delta w - 8) ->
    forall d', spins_only Q (rec (drop (ext_off w + 8) src) (s32 (len_delta w - 8)) d')) ->
  spins_only Q (ip6_ip4_body rec (walk_fuel len) src len d incl).
Proof.
  intros Hs Hl HQ Hrec. unfold ip6_ip4_body, ip6_check_addresses. cbv zeta. rewrite s32_id by lia.
  destruct (Z.leb_spec 0 (len - 40)); [| apply spins_drop].
  do 3 (apply spins_bind; [spin_free | intros _ _ _ _]).
  apply spins_bind; [spin_free | intros nh dst0 dst0' Hn].
  apply spins_bind; [apply hop_spins | intros w dst dst1 Hw].
  assert (nh = hdr8 src 6) as ->.
  { unfold rd8 in Hn. unfold hdr8. rewrite nth_lookup. destruct (src !! 6%nat); [now injection Hn | discriminate]. }
  assert (0 <= len_delta w <= len - 40) by (apply hop_range in Hw; [exact Hw | assumption | cbn [len_delta]; lia]).
  apply spins_bind.
  { destruct (0 <? len_delta w); [| spin_free]. intros dst2 E.
    apply walk_spins in E as (w2 & dst3 & Hwalk & Ho); [| assumption | lia | lia].
    apply HQ. exists w2. split; [| exact Ho]. exists d, dst2, w, dst2, dst3.
    split; [exact (hop_anywhere _ _ _ _ _ dst2 Hw) | exact Hwalk]. }
  intros w' dst2 dst3 Hw'. apply spins_bind; [unfold ip6_ip4_header; spin_free | intros n _ _ _].
  apply spins_bind; [| intros; spin_free]. destruct (0 <? len_delta w'); [| spin_free].
  destruct (Z.eqb_spec (next_hdr w') NEXTHDR_ICMP) as [Hi |]; [| spin_free]. apply spins_icmp6. intros -> H8 d'. apply Hrec; auto.
  exists d, dst2, w, dst2, dst3. split; [exact (hop_anywhere _ _ _ _ _ dst2 Hw) |].
  destruct (0 <? len_delta w); [now apply ext_headers_walks in Hw' | injection Hw' as <- <-; constructor].
Qed.

Lemma spins_ip6_ip4 src len d :
  bytes_ok src -> 0 <= len < 2 ^ 31 -> spins_only (overshoots src len) (ip6_ip4 src len d false).
Proof.
  intros Hs Hl. apply spins_ip6_body; [assumption | assumption | now left |]. intros _ w Hw Hi H8 d'.
  apply spins_ip6_body; [now apply Forall_drop | split; [exact H8 | apply s32_range] | intros Hc; right; now exists w | discriminate].
Qed.
End Spin6.
