(* ===== verification/SiitXmit.v ===== *)
(** * SiitXmit: the transmit routine of the translator

    Models [ip4_fragment] and [siit_xmit] of [feeds/net/siit/src/siit.c]: the
    statistics of the device, the buffers allocated, freed and handed to
    [netif_rx].  A buffer has an identity: 0 is the incoming one, [S k] the
    [k]-th allocated.  What [dev_alloc_skb] returns and what uninitialised
    memory holds are parameters.  A [Fault] of a translation is [XFault]. *)
From S2P Require Import Prelude Siit Siit6 SiitSpin.
#[local] Open Scope siit_scope.

Definition ETH_P_IP : Z := 0x0800.
Definition ETH_P_IPV6 : Z := 0x86dd.
Definition EINVAL : Z := 22.

(** [dev_alloc_skb k n]: the bytes of the [k]-th allocation, of [n] bytes, or
    [None]; the two stack buffers before they are written. *)
Class XmitEnv := {
  dev_alloc_skb : nat -> Z -> option (list Z);
  frag_buff : Z -> list Z;
  new_packet_buff : list Z;
}.

(** What the code relies on: blocks of the size asked for. *)
Class XmitLaws `{XmitEnv} : Prop := {
  alloc_size : forall k n l, dev_alloc_skb k n = Some l -> length l = Z.to_nat n;
  frag_buff_size : forall n, length (frag_buff n) = Z.to_nat n;
  new_packet_buff_size : length new_packet_buff = Z.to_nat 2048;
}.

Record sk_buff := SkBuff { data : list Z; protocol : Z }.

(** A buffer handed to [netif_rx]: its identity, its link-layer header, its
    data and protocol. *)
Record frame := Frame { frame_id : nat; mac : list Z; frame_data : list Z; frame_protocol : Z }.

Record net_device := NetDevice {
  hard_header_len : nat;
  rx_bytes : Z; rx_packets : Z; tx_bytes : Z; tx_packets : Z;
  tx_errors : Z; rx_errors : Z; rx_dropped : Z;
  allocated : nat;
  freed : list nat;
  received : list frame;
}.

Definition add_rx (dev : net_device) (n : Z) : net_device :=
  NetDevice (hard_header_len dev) (rx_bytes dev + n) (rx_packets dev + 1) (tx_bytes dev) (tx_packets dev)
    (tx_errors dev) (rx_errors dev) (rx_dropped dev) (allocated dev) (freed dev) (received dev).
Definition add_tx (dev : net_device) (n : Z) : net_device :=
  NetDevice (hard_header_len dev) (rx_bytes dev) (rx_packets dev) (tx_bytes dev + n) (tx_packets dev + 1)
    (tx_errors dev) (rx_errors dev) (rx_dropped dev) (allocated dev) (freed dev) (received dev).
Definition add_errors (dev : net_device) (tx rx dropped : Z) : net_device :=
  NetDevice (hard_header_len dev) (rx_bytes dev) (rx_packets dev) (tx_bytes dev) (tx_packets dev)
    (tx_errors dev + tx) (rx_errors dev + rx) (rx_dropped dev + dropped) (allocated dev) (freed dev) (received dev).
Definition count_alloc (dev : net_device) : net_device :=
  NetDevice (hard_header_len dev) (rx_bytes dev) (rx_packets dev) (tx_bytes dev) (tx_packets dev)
    (tx_errors dev) (rx_errors dev) (rx_dropped dev) (S (allocated dev)) (freed dev) (received dev).
Definition dev_kfree_skb (id : nat) (dev : net_device) : net_device :=
  NetDevice (hard_header_len dev) (rx_bytes dev) (rx_packets dev) (tx_bytes dev) (tx_packets dev)
    (tx_errors dev) (rx_errors dev) (rx_dropped dev) (allocated dev) (freed dev ++ [id]) (received dev).
Definition netif_rx (f : frame) (dev : net_device) : net_device :=
  NetDevice (hard_header_len dev) (rx_bytes dev) (rx_packets dev) (tx_bytes dev) (tx_packets dev)
    (tx_errors dev) (rx_errors dev) (rx_dropped dev) (allocated dev) (freed dev) (received dev ++ [f]).

(** The value returned and the device, or a fault, or no end. *)
Inductive xout := XRet (v : Z) (dev : net_device) | XFault | XSpin.

Definition xbind (o : xout) (k : Z -> net_device -> xout) : xout :=
  match o with
  | XRet v dev => k v dev
  | XFault => XFault
  | XSpin => XSpin
  end.

Section Xmit.
Context `{SiitEnv} `{XmitEnv}.

(** [skb_pull]: nothing happens when the buffer is too short. *)
Definition skb_pull (l : list Z) (n : nat) : list Z := if (n <=? length l)%nat then drop n l else l.

(** Allocation of [n] bytes behind a copy of the link-layer header, whose
    protocol field is set: [Dropped] when there is no memory, otherwise the
    identity, the header and, as the buffer, the data after [skb_pull]. *)
Definition alloc_with_header (eth : list Z) (n : Z) (proto : Z) (dev : net_device) : out (nat * list Z) :=
  let hh := hard_header_len dev in
  match dev_alloc_skb (allocated dev) (n + Z.of_nat hh) with
  | None => Dropped
  | Some l =>
      (memcpy 0 eth 0 (Z.of_nat hh);; wr16 12 proto;;
       fun l => Ok (S (allocated dev), take hh l) (skb_pull l hh)) l
  end.

(** ** [ip4_fragment] *)

(** The UDP checksum before the packet is cut, on the incoming buffer; the
    result is [flag_last_mf]. *)
Definition ip4_fragment_udp (hdr_len : Z) : M bool :=
  let h := Z.to_nat hdr_len in
  frag_off <- dst16 6;
  let flag_last_mf := ip4_mf frag_off =? 0 in
  protocol <- dst8 9;
  if (protocol =? IPPROTO_UDP) && (ip4_offset frag_off =? 0) then
    check <- dst16 (h + 6);
    if negb flag_last_mf then (if check =? 0 then drop_packet else ret flag_last_mf)
    else if check =? 0 then
      udp_len <- dst16 (h + 4);
      body <- dst_bytes h udp_len;
      saddr <- dst_bytes 12 4;
      daddr <- dst_bytes 16 4;
      wr16_host (h + 6) (csum_tcpudp_magic saddr daddr udp_len IPPROTO_UDP (csum_partial body 0));;
      ret flag_last_mf
    else ret flag_last_mf
  else ret flag_last_mf.

(** The next fragment in [buff]: header and [frag_len] bytes at [cur]. *)
Definition ip4_fragment_build (skb : list Z) (hdr_len : Z) (cur : nat) (frag_len : Z) (last flag_last_mf : bool) (frag_offset : Z) : M unit :=
  memcpy 0 skb 0 hdr_len;;
  memcpy (Z.to_nat hdr_len) skb cur frag_len;;
  memcpy 4 skb 4 2;;
  (if last && flag_last_mf then wr16 6 (Z.land frag_offset (Z.lnot IP_MF)) else wr16 6 (Z.lor frag_offset IP_MF));;
  wr16 2 (frag_len + hdr_len);;
  wr16_host 10 0;;
  b0 <- dst8 0;
  hdr <- dst_bytes 0 (Z.land b0 15 * 4);
  wr16_host 10 (ip_fast_csum hdr).

Fixpoint ip4_fragment_loop (fuel : nat) (skb eth : list Z) (hdr_len : Z) (flag_last_mf : bool) (buff : list Z)
    (cur : nat) (rest_len frag_offset : Z) (dev : net_device) : xout :=
  match fuel with
  | O => XSpin
  | S fuel =>
      let last_frag := rest_len <=? FRAG_BUFF_SIZE in
      let frag_len := if last_frag then rest_len else FRAG_BUFF_SIZE in
      match ip4_fragment_build skb hdr_len cur frag_len last_frag flag_last_mf frag_offset buff with
      | Ok _ buff =>
          match alloc_with_header eth (frag_len + hdr_len + IP4_IP6_HDR_DIFF + IP6_FRAGMENT_SIZE) ETH_P_IPV6 dev with
          | Dropped => XRet (-1) dev
          | Fault => XFault
          | Spin => XSpin
          | Ok (id, mac) data2 =>
              let dev := count_alloc dev in
              match ip4_ip6 buff (frag_len + hdr_len) 0 false data2 with
              | Dropped => XRet (-1) (dev_kfree_skb id dev)
              | Fault => XFault
              | Spin => XSpin
              | Ok _ data2 =>
                  let dev := netif_rx (Frame id mac data2 ETH_P_IPV6) (add_tx dev (Z.of_nat (length data2))) in
                  if last_frag then XRet 0 dev
                  else ip4_fragment_loop fuel skb eth hdr_len flag_last_mf buff (cur + Z.to_nat frag_len)%nat
                         (rest_len - frag_len) (u16 ((frag_offset * 8 + frag_len) `div` 8)) dev
              end
          end
      | Dropped | Fault => XFault
      | Spin => XSpin
      end
  end.

Definition ip4_fragment (skb : list Z) (len hdr_len : Z) (dev : net_device) (eth : list Z) : xout :=
  match ip4_fragment_udp hdr_len skb with
  | Dropped => XRet (-1) dev
  | Fault => XFault
  | Spin => XSpin
  | Ok flag_last_mf skb =>
      match rd16 skb 6 skb with
      | Ok frag_off _ =>
          ip4_fragment_loop (S (Z.to_nat ((len - hdr_len) `div` FRAG_BUFF_SIZE))) skb eth hdr_len flag_last_mf
            (frag_buff (FRAG_BUFF_SIZE + hdr_len)) (Z.to_nat hdr_len) (len - hdr_len) (ip4_offset frag_off) dev
      | _ => XFault
      end
  end.

(** ** [siit_xmit] *)

(** The tail common to both families: the packet goes up, the incoming buffer
    is freed. *)
Definition xmit_deliver (f : frame) (dev : net_device) : xout :=
  XRet 0 (dev_kfree_skb 0 (netif_rx f (add_tx dev (Z.of_nat (length (frame_data f)))))).

Definition xmit_ip4 (eth skb : list Z) (dev : net_device) : xout :=
  let len := Z.of_nat (length skb) in
  match rd16 skb 2 skb, rd16 skb 6 skb, rd8 skb 0 skb with
  | Ok tot_len _, Ok frag_off _, Ok b0 _ =>
      if negb (len =? tot_len) then XRet 0 (dev_kfree_skb 0 (add_errors dev 1 0 0))
      else
        let hdr_len := Z.land b0 15 * 4 in
        if (Z.land frag_off IP_DF =? 0) && (FRAG_BUFF_SIZE <? len - hdr_len) then
          xbind (ip4_fragment skb len hdr_len dev eth) (fun v dev =>
            XRet 0 (dev_kfree_skb 0 (if v =? -1 then add_errors dev 1 0 0 else dev)))
        else
          let skb_delta := if frag_off =? IP_DF then IP4_IP6_HDR_DIFF else IP4_IP6_HDR_DIFF + IP6_FRAGMENT_SIZE in
          match rd8 skb 9 skb with
          | Ok protocol _ =>
              match (if protocol =? IPPROTO_ICMP then rd8 skb (Z.to_nat hdr_len) skb else Ok ICMP_ECHO skb) with
              | Ok type _ =>
                  let skb_delta := if negb (type =? ICMP_ECHO) && negb (type =? ICMP_ECHOREPLY)
                                   then skb_delta + IP4_IP6_HDR_DIFF else skb_delta in
                  match alloc_with_header eth (len + skb_delta) ETH_P_IPV6 dev with
                  | Dropped => XRet 0 (add_errors (dev_kfree_skb 0 dev) 0 0 1)
                  | Fault => XFault
                  | Spin => XSpin
                  | Ok (id, mac) data2 =>
                      let dev := count_alloc dev in
                      match ip4_ip6 skb len 0 false data2 with
                      | Dropped => XRet 0 (add_errors (dev_kfree_skb id (dev_kfree_skb 0 dev)) 0 1 0)
                      | Fault => XFault
                      | Spin => XSpin
                      | Ok _ data2 => xmit_deliver (Frame id mac data2 ETH_P_IPV6) dev
                      end
                  end
              | _ => XFault
              end
          | _ => XFault
          end
  | _, _, _ => XFault
  end.

Definition xmit_ip6 (eth skb : list Z) (dev : net_device) : xout :=
  match ip6_ip4 skb (Z.of_nat (length skb)) 0 false new_packet_buff with
  | Dropped => XRet 0 (dev_kfree_skb 0 (add_errors dev 0 0 1))
  | Fault => XFault
  | Spin => XSpin
  | Ok new_packet_len buff =>
      match alloc_with_header eth new_packet_len ETH_P_IP dev with
      | Dropped => XRet 0 (dev_kfree_skb 0 (add_errors dev 0 0 1))
      | Fault => XFault
      | Spin => XSpin
      | Ok (id, mac) data2 =>
          match memcpy 0 buff 0 new_packet_len data2 with
          | Ok _ data2 => xmit_deliver (Frame id mac data2 ETH_P_IP) (count_alloc dev)
          | _ => XFault
          end
      end
  end.

Definition siit_xmit (skb : option sk_buff) (dev : option net_device) : Z + xout :=
  match skb, dev with
  | Some skb, Some dev =>
      let dev := add_rx dev (Z.of_nat (length (data skb))) in
      let pulled := skb_pull (data skb) (hard_header_len dev) in
      inr (if protocol skb =? ETH_P_IP then xmit_ip4 (data skb) pulled dev
           else if protocol skb =? ETH_P_IPV6 then xmit_ip6 (data skb) pulled dev
           else XRet 0 (dev_kfree_skb 0 dev))
  | _, _ => inl (- EINVAL)
  end.

End Xmit.

(** ** Ownership and statistics *)

Section XmitOwnership.
Context `{SiitEnv} `{XmitEnv}.

(** From [dev] to [dev'] the buffers [ids] and every buffer allocated on the
    way were freed or handed up, each exactly once, and each packet handed up
    was counted with its length. *)
Definition settled (ids : list nat) (dev dev' : net_device) : Prop :=
  exists fs gs,
    freed dev' = freed dev ++ fs
    /\ received dev' = received dev ++ gs
    /\ fs ++ (frame_id <$> gs) ≡ₚ ids ++ seq (S (allocated dev)) (allocated dev' - allocated dev)
    /\ (allocated dev <= allocated dev')%nat
    /\ hard_header_len dev' = hard_header_len dev
    /\ tx_packets dev' = tx_packets dev + Z.of_nat (length gs)
    /\ tx_bytes dev' = tx_bytes dev + foldr Z.add 0 ((fun f => Z.of_nat (length (frame_data f))) <$> gs).

Lemma settled_refl dev : settled [] dev dev.
Proof.
  exists [], []. rewrite !app_nil_r, Nat.sub_diag. cbn. repeat split; auto; lia.
Qed.

Lemma foldr_add_app l l' : foldr Z.add 0 (l ++ l') = foldr Z.add 0 l + foldr Z.add 0 l'.
Proof. induction l; simpl; lia. Qed.

Lemma settled_trans a b d1 d2 d3 : settled a d1 d2 -> settled b d2 d3 -> settled (a ++ b) d1 d3.
Proof.
  intros (f1 & g1 & F1 & R1 & P1 & A1 & H1 & T1 & B1) (f2 & g2 & F2 & R2 & P2 & A2 & H2 & T2 & B2).
  exists (f1 ++ f2), (g1 ++ g2). repeat split; try congruence; try lia.
  - rewrite F2, F1. now rewrite app_assoc.
  - rewrite R2, R1. now rewrite app_assoc.
  - rewrite fmap_app.
    replace (allocated d3 - allocated d1)%nat with ((allocated d2 - allocated d1) + (allocated d3 - allocated d2))%nat by lia.
    rewrite seq_app. replace (S (allocated d1) + (allocated d2 - allocated d1))%nat with (S (allocated d2)) by lia.
    transitivity ((f1 ++ (frame_id <$> g1)) ++ (f2 ++ (frame_id <$> g2))); [solve_Permutation |].
    rewrite P1, P2. solve_Permutation.
  - rewrite T2, T1, length_app. lia.
  - rewrite B2, B1, fmap_app, foldr_add_app. lia.
Qed.

Lemma settled_free id dev : settled [id] dev (dev_kfree_skb id dev).
Proof. exists [id], []. cbn. rewrite Nat.sub_diag, app_nil_r. repeat split; auto; lia. Qed.

Lemma settled_errors a b c dev : settled [] dev (add_errors dev a b c).
Proof. exists [], []. cbn. rewrite Nat.sub_diag, !app_nil_r. repeat split; auto; lia. Qed.

Lemma settled_rx n dev : settled [] dev (add_rx dev n).
Proof. exists [], []. cbn. rewrite Nat.sub_diag, !app_nil_r. repeat split; auto; lia. Qed.

(** An allocated buffer, freed or handed up. *)
Lemma settled_alloc_free dev : settled [] dev (dev_kfree_skb (S (allocated dev)) (count_alloc dev)).
Proof.
  exists [S (allocated dev)], []. cbn [dev_kfree_skb count_alloc freed received allocated hard_header_len tx_packets tx_bytes].
  replace (S (allocated dev) - allocated dev)%nat with 1%nat by lia. rewrite app_nil_r. cbn. repeat split; auto; lia.
Qed.
Lemma settled_alloc_deliver dev mac d p :
  settled [] dev (netif_rx (Frame (S (allocated dev)) mac d p) (add_tx (count_alloc dev) (Z.of_nat (length d)))).
Proof.
  exists [], [Frame (S (allocated dev)) mac d p].
  cbn [netif_rx add_tx count_alloc freed received allocated hard_header_len tx_packets tx_bytes].
  replace (S (allocated dev) - allocated dev)%nat with 1%nat by lia. rewrite app_nil_r. cbn. repeat split; auto; lia.
Qed.

Lemma alloc_with_header_id eth n proto dev id mac d :
  alloc_with_header eth n proto dev = Ok (id, mac) d -> id = S (allocated dev).
Proof.
  unfold alloc_with_header. destruct (dev_alloc_skb _ _); [| discriminate]. unfold bind.
  destruct (memcpy _ _ _ _ _); try discriminate. destruct (wr16 _ _ _); try discriminate. congruence.
Qed.

Lemma fragment_loop_settles fuel skb eth h flag buff cur rest off dev v dev' :
  ip4_fragment_loop fuel skb eth h flag buff cur rest off dev = XRet v dev' -> settled [] dev dev'.
Proof.
  revert buff cur rest off dev. induction fuel as [| fuel IH]; intros buff cur rest off dev E; [discriminate |].
  cbn [ip4_fragment_loop] in E. set (fl := if rest <=? FRAG_BUFF_SIZE then rest else FRAG_BUFF_SIZE) in E.
  destruct (ip4_fragment_build _ _ _ _ _ _ _ _) as [u buff1 | | |]; try discriminate.
  destruct (alloc_with_header _ _ _ _) as [[id mac] d | | |] eqn:Ea; try discriminate.
  2:{ injection E as <- <-. apply settled_refl. }
  apply alloc_with_header_id in Ea as ->.
  destruct (ip4_ip6 _ _ _ _ _) as [u2 d2 | | |]; try discriminate.
  2:{ injection E as <- <-. apply settled_alloc_free. }
  destruct (rest <=? FRAG_BUFF_SIZE).
  - injection E as <- <-. apply settled_alloc_deliver.
  - apply (settled_trans [] []) with (2 := IH _ _ _ _ _ E). apply settled_alloc_deliver.
Qed.

Lemma fragment_settles skb len h dev eth v dev' :
  ip4_fragment skb len h dev eth = XRet v dev' -> settled [] dev dev'.
Proof.
  unfold ip4_fragment. intros E. destruct (ip4_fragment_udp _ _) as [u s | | |]; try discriminate.
  2:{ injection E as <- <-. apply settled_refl. }
  destruct (rd16 s 6 s); try discriminate. now apply fragment_loop_settles in E.
Qed.

Ltac step_settled := eapply (settled_trans [] _); [apply settled_errors || apply settled_rx |].

Lemma xmit_ip4_settles eth skb dev v dev' :
  xmit_ip4 eth skb dev = XRet v dev' -> v = 0 /\ settled [0%nat] dev dev'.
Proof.
  unfold xmit_ip4. intros E.
  destruct (rd16 skb 2 skb) as [tl s1 | | |]; try discriminate.
  destruct (rd16 skb 6 skb) as [fo s2 | | |]; try discriminate.
  destruct (rd8 skb 0 skb) as [b0 s3 | | |]; try discriminate.
  destruct (negb _) in E.
  { injection E as <- <-. split; [reflexivity |]. step_settled. apply settled_free. }
  destruct (_ && _) in E.
  { destruct (ip4_fragment _ _ _ _ _) as [r d | |] eqn:Ef; try discriminate. apply fragment_settles in Ef.
    injection E as <- <-. split; [reflexivity |]. apply (settled_trans [] _ _ _ _ Ef).
    destruct (r =? -1); [step_settled |]; apply settled_free. }
  destruct (rd8 skb 9 skb) as [p s4 | | |]; try discriminate.
  destruct (if p =? IPPROTO_ICMP then _ else _) as [ty s5 | | |]; try discriminate.
  destruct (alloc_with_header _ _ _ _) as [[id mac] d | | |] eqn:Ea; try discriminate.
  2:{ injection E as <- <-. split; [reflexivity |]. apply (settled_trans [0%nat] [] _ _ _ (settled_free 0 dev)). apply settled_errors. }
  apply alloc_with_header_id in Ea as ->.
  destruct (ip4_ip6 _ _ _ _ _) as [u d2 | | |]; try discriminate; injection E as <- <-; (split; [reflexivity |]).
  - apply (settled_trans [] [0%nat]) with (2 := settled_free 0 _). apply settled_alloc_deliver.
  - apply (settled_trans [0%nat] []) with (2 := settled_errors _ _ _ _).
    exists [0%nat; S (allocated dev)], []. cbn [dev_kfree_skb count_alloc freed received allocated hard_header_len tx_packets tx_bytes].
    replace (S (allocated dev) - allocated dev)%nat with 1%nat by lia. rewrite <- app_assoc, app_nil_r. cbn. repeat split; auto; lia.
Qed.

Lemma xmit_ip6_settles eth skb dev v dev' :
  xmit_ip6 eth skb dev = XRet v dev' -> v = 0 /\ settled [0%nat] dev dev'.
Proof.
  unfold xmit_ip6. intros E.
  destruct (ip6_ip4 _ _ _ _ _) as [n buff | | |]; try discriminate.
  2:{ injection E as <- <-. split; [reflexivity |]. step_settled. apply settled_free. }
  destruct (alloc_with_header _ _ _ _) as [[id mac] d | | |] eqn:Ea; try discriminate.
  2:{ injection E as <- <-. split; [reflexivity |]. step_settled. apply settled_free. }
  apply alloc_with_header_id in Ea as ->.
  destruct (memcpy _ _ _ _ _) as [u d2 | | |]; try discriminate; injection E as <- <-; (split; [reflexivity |]).
  apply (settled_trans [] [0%nat]) with (2 := settled_free 0 _). apply settled_alloc_deliver.
Qed.

(** ** Transmissions that do not end *)

Lemma alloc_never_spins eth n proto dev : alloc_with_header eth n proto dev <> Spin.
Proof.
  unfold alloc_with_header. destruct (dev_alloc_skb _ _) as [l |]; [| discriminate]. unfold bind. 
  pose proof (spins_memcpy False 0 eth 0 (Z.of_nat (hard_header_len dev)) l) as Hm.
  destruct (memcpy _ _ _ _ _) as [u l' | | |]; try discriminate; [| auto].
  pose proof (spins_wr False 12 (be_split 2 proto) l') as Hw. unfold wr16.
  destruct (wr _ _ _); try discriminate. auto.
Qed.

Lemma fragment_udp_never_spins h skb : ip4_fragment_udp h skb <> Spin.
Proof. assert (spins_only False (ip4_fragment_udp h)) as Hn; [| exact (Hn skb)]. unfold ip4_fragment_udp. cbv zeta. spin_free. Qed.

Lemma build_never_spins skb h cur n last flag off buff : ip4_fragment_build skb h cur n last flag off buff <> Spin.
Proof.
  assert (spins_only False (ip4_fragment_build skb h cur n last flag off)) as Hn; [| exact (Hn buff)]. unfold ip4_fragment_build. spin_free.
Qed.

(** Every turn of the loop but the last takes 1232 bytes. *)
Lemma fragment_loop_ends fuel skb eth h flag buff cur rest off dev :
  rest < Z.of_nat fuel * FRAG_BUFF_SIZE -> (0 < fuel)%nat ->
  ip4_fragment_loop fuel skb eth h flag buff cur rest off dev <> XSpin.
Proof.
  revert buff cur rest off dev. induction fuel as [| fuel IH]; intros buff cur rest off dev Hr Hf; [lia |].
  cbn [ip4_fragment_loop]. cbv zeta. set (fl := if rest <=? FRAG_BUFF_SIZE then rest else FRAG_BUFF_SIZE).
  pose proof (build_never_spins skb h cur fl (rest <=? FRAG_BUFF_SIZE) flag off buff) as Hb.
  destruct (ip4_fragment_build _ _ _ _ _ _ _ _) as [u buff1 | | |]; try discriminate; [| auto].
  pose proof (alloc_never_spins eth (fl + h + IP4_IP6_HDR_DIFF + IP6_FRAGMENT_SIZE) ETH_P_IPV6 dev) as Ha.
  destruct (alloc_with_header _ _ _ _) as [[id mac] d | | |]; try discriminate; [| auto].
  pose proof (spins_ip4_ip6 False buff1 (fl + h) 0 false d) as Ht.
  destruct (ip4_ip6 _ _ _ _ _) as [u2 d2 | | |]; try discriminate; [| auto].
  destruct (Z.leb_spec rest FRAG_BUFF_SIZE); [discriminate |]. apply IH; unfold FRAG_BUFF_SIZE in *; lia.
Qed.

Lemma xmit_ip4_ends eth skb dev : xmit_ip4 eth skb dev <> XSpin.
Proof.
  unfold xmit_ip4. cbv zeta.
  pose proof (spins_rd16 False skb 2 skb). pose proof (spins_rd16 False skb 6 skb). pose proof (spins_rd8 False skb 0 skb).
  destruct (rd16 skb 2 skb); destruct (rd16 skb 6 skb); destruct (rd8 skb 0 skb); try discriminate.
  destruct (negb _); [discriminate |]. destruct (_ && _) eqn:Eb.
  { apply andb_prop in Eb as [_ Hl%Z.ltb_lt]. set (h := Z.land _ 15 * 4) in *. unfold ip4_fragment.
    pose proof (fragment_udp_never_spins h skb). destruct (ip4_fragment_udp h skb) as [flag s | | |]; try easy.
    destruct (rd16 s 6 s) as [fo s' | | |]; try easy.
    match goal with |- xbind ?o _ <> _ => assert (o <> XSpin) as Ho; [| now destruct o] end.
    apply fragment_loop_ends; [| lia]. unfold FRAG_BUFF_SIZE in *. Z.to_euclidean_division_equations. lia. }
  destruct (rd8 skb 9 skb); try discriminate. destruct (if _ =? IPPROTO_ICMP then _ else _); try discriminate.
  match goal with |- context [alloc_with_header ?a ?b ?c ?d] =>
    pose proof (alloc_never_spins a b c d); destruct (alloc_with_header a b c d) as [[id mac] l | | |] end; try easy.
  pose proof (spins_ip4_ip6 False skb (Z.of_nat (length skb)) 0 false l) as Ht.
  destruct (ip4_ip6 _ _ _ _ _); try discriminate. auto.
Qed.

Lemma xmit_ip6_ends eth skb dev :
  bytes_ok skb -> Z.of_nat (length skb) < 2 ^ 31 ->
  xmit_ip6 eth skb dev = XSpin -> overshoots skb (Z.of_nat (length skb)).
Proof.
  intros Hs Hl. unfold xmit_ip6.
  pose proof (spins_ip6_ip4 skb (Z.of_nat (length skb)) 0 Hs ltac:(lia) new_packet_buff) as Ht.
  destruct (ip6_ip4 _ _ _ _ _) as [n buff | | |]; try discriminate; [| auto].
  pose proof (alloc_never_spins eth n ETH_P_IP dev) as Ha.
  destruct (alloc_with_header _ _ _ _) as [[id mac] d | | |]; try discriminate; [| easy].
  destruct (memcpy _ _ _ _ _); discriminate.
Qed.


End XmitOwnership.

(** ** Fragmentation *)

Section Fragmentation.
Context `{SiitEnv} `{XmitEnv} `{!XmitLaws}.

(** The IPv4 header of a fragment, made from the header [hdr]. *)
Definition frag_header_fields (hdr : list Z) (tot_len fld ck : Z) : list Z :=
  take 2 hdr ++ be_split 2 tot_len ++ bytes_at hdr 4 2 ++ be_split 2 fld ++ bytes_at hdr 8 2 ++ le_split 2 ck ++ drop 12 hdr.
Definition frag_header (hdr : list Z) (tot_len fld : Z) : list Z :=
  frag_header_fields hdr tot_len fld (ip_fast_csum (frag_header_fields hdr tot_len fld 0)).

Lemma length_frag_header hdr tl fld : (20 <= length hdr)%nat -> length (frag_header hdr tl fld) = length hdr.
Proof.
  intros. unfold frag_header, frag_header_fields.
  rewrite !length_app, !length_be_split, length_le_split, !length_bytes_at, length_take, length_drop by lia. lia.
Qed.

Lemma header_stores hdr R tl fld skb :
  (20 <= length hdr)%nat -> ip4_hdr_len hdr = Z.of_nat (length hdr) ->
  (6 <= length skb)%nat -> bytes_at skb 4 2 = bytes_at hdr 4 2 ->
  (memcpy 4 skb 4 2;; wr16 6 fld;; wr16 2 tl;; wr16_host 10 0;;
   b0 <- dst8 0; h <- dst_bytes 0 (Z.land b0 15 * 4); wr16_host 10 (ip_fast_csum h)) (hdr ++ R)
  = Ok tt (frag_header hdr tl fld ++ R).
Proof.
  intros Hl Hh Hs Eid.
  assert (Eid' : rd_bytes skb 4 2 = fun dst => Ok (bytes_at hdr 4 2) dst).
  { unfold rd_bytes. rewrite (proj2 (Nat.leb_le _ _)) by (simpl; lia). change (Z.to_nat 2) with 2%nat. now rewrite Eid. }
  unfold memcpy. rewrite Eid'. unfold frag_header, frag_header_fields.
  explode hdr 20. unfold ip4_hdr_len, hdr8 in Hh. cbn [nth] in Hh.
  unfold bind, wr16, wr16_host, wr, dst8, dst_bytes.
  cbn -[rd_bytes Z.div Z.modulo Z.land Z.mul ip_fast_csum].
  rewrite Hh, rd_bytes_run by (cbn [length]; rewrite ?length_app; lia).
  rewrite Nat2Z.id. unfold bytes_at at 1. cbn -[Z.div Z.modulo ip_fast_csum].
  rewrite take_app_length. reflexivity.
Qed.

Definition frag_fld (more : bool) (off : Z) : Z := if more then off + 8192 else off.

Lemma frag_fld_facts more off :
  0 <= off < 8192 ->
  ip4_offset (frag_fld more off) = off /\ ip4_mf (frag_fld more off) = (if more then 8192 else 0)
  /\ 0 <= frag_fld more off < 16384.
Proof.
  intros Ho.
  assert (Em : forall x, ip4_mf x = if Z.testbit x 13 then 8192 else 0).
  { intros x. unfold ip4_mf, IP_MF. change 0x2000 with (2 ^ 13). now rewrite land_pow2 by lia. }
  unfold frag_fld. rewrite Em.
  rewrite ip4_offset_mod. destruct more; cbv iota; (split; [| split; [| lia]]).
  - replace (off + 8192) with (off + 1 * 8192) by lia. rewrite Z.mod_add by lia. apply Z.mod_small. lia.
  - replace (Z.testbit (off + 8192) 13) with true; [reflexivity |]. symmetry.
    replace (off + 8192) with (8192 * 1 + off) by lia. apply Z.testbit_true; [lia |].
    change (2 ^ 13) with 8192. rewrite (Z.mul_comm 8192), Z.div_add_l, Z.div_small by lia. reflexivity.
  - apply Z.mod_small. lia.
  - now rewrite (testbit_high off 13) by lia.
Qed.

Lemma clear_mf off : 0 <= off < 8192 -> Z.land off (Z.lnot IP_MF) = off.
Proof.
  intros Ho. bitwise. unfold IP_MF. change 0x2000 with (2 ^ 13). rewrite Z.pow2_bits_eqb by lia.
  destruct (Z.eqb_spec 13 n) as [<- |]; [| apply andb_true_r]. rewrite (testbit_high off 13) by lia. reflexivity.
Qed.
Lemma set_mf off : 0 <= off < 8192 -> Z.lor off IP_MF = off + 8192.
Proof. intros Ho. rewrite Z.lor_comm. unfold IP_MF. change 0x2000 with (1 * 2 ^ 13). rewrite (lor_low_bits 1 off 13) by lia. lia. Qed.

Lemma fld_store last flag off :
  0 <= off < 8192 ->
  (if last && flag then wr16 6 (Z.land off (Z.lnot IP_MF)) else wr16 6 (Z.lor off IP_MF)) = wr16 6 (frag_fld (negb (last && flag)) off).
Proof. intros. rewrite clear_mf, set_mf by auto. now destruct (last && flag). Qed.

Lemma build_run skb h cur n last flag off buff :
  ip4_hdr_len skb = h -> 20 <= h -> (Z.to_nat h <= length skb)%nat ->
  0 <= n -> (cur + Z.to_nat n <= length skb)%nat -> (Z.to_nat h + Z.to_nat n <= length buff)%nat -> 0 <= off < 8192 ->
  ip4_fragment_build skb h cur n last flag off buff =
    Ok tt (frag_header (take (Z.to_nat h) skb) (n + h) (frag_fld (negb (last && flag)) off)
           ++ bytes_at skb cur (Z.to_nat n) ++ drop (Z.to_nat h + Z.to_nat n) buff).
Proof.
  intros Hh H20 Hs Hn Hc Hb Ho. unfold ip4_fragment_build. rewrite fld_store by auto.
  set (hdr := take (Z.to_nat h) skb).
  assert (Lh : length hdr = Z.to_nat h) by (unfold hdr; rewrite length_take; lia).
  unfold bind at 1.
  pose proof (memcpy_after [] buff skb 0 h ltac:(lia) ltac:(lia) ltac:(lia)) as E. cbn [length app] in E. rewrite E.
  change (bytes_at skb 0 (Z.to_nat h)) with hdr.
  unfold bind at 1. rewrite <- Lh. rewrite memcpy_after by (rewrite ?length_drop; lia).
  rewrite drop_drop.
  rewrite header_stores; [reflexivity | lia | | lia |].
  - rewrite Lh, Z2Nat.id by lia. rewrite <- Hh. unfold ip4_hdr_len, hdr8, hdr.
    rewrite !nth_lookup, lookup_take_lt by lia. reflexivity.
  - unfold hdr, bytes_at. rewrite skipn_firstn_comm, take_take. f_equal. lia.
Qed.

(** The IPv6 fragment that carries [chunk]. *)
Definition fragment6 (skb : list Z) (off : Z) (more : bool) (chunk : list Z) : list Z :=
  v6_header skb (Z.of_nat (length chunk) + 8) NEXTHDR_FRAGMENT
  ++ [ip4_nexthdr (hdr8 skb 9); 0] ++ be_split 2 (off * 8 + (if more then 1 else 0)) ++ be_split 4 (hdr16 skb 4) ++ chunk.

(** The header of a fragment differs from the packet's in length, offset and
    checksum only. *)
Lemma frag_header_reads skb h tl fld rest :
  20 <= h -> (Z.to_nat h <= length skb)%nat -> 0 <= tl < 65536 -> 0 <= fld < 65536 ->
  let src := frag_header (take (Z.to_nat h) skb) tl fld ++ rest in
  hdr8 src 0 = hdr8 skb 0 /\ hdr8 src 9 = hdr8 skb 9 /\ hdr16 src 2 = tl /\ hdr16 src 6 = fld
  /\ hdr16 src 4 = hdr16 skb 4 /\ (forall p nh, v6_header src p nh = v6_header skb p nh).
Proof.
  intros Hh Hl Ht Hf src.
  assert (exists j, Z.to_nat h = (20 + j)%nat) as [j Ej] by (exists (Z.to_nat h - 20)%nat; lia).
  unfold src. rewrite Ej in *. unfold frag_header, frag_header_fields. generalize (ip_fast_csum
    (take 2 (take (20 + j) skb) ++ be_split 2 tl ++ bytes_at (take (20 + j) skb) 4 2 ++ be_split 2 fld
     ++ bytes_at (take (20 + j) skb) 8 2 ++ le_split 2 0 ++ drop 12 (take (20 + j) skb))). intros ck.
  explode skb 20. repeat split.
  - transitivity (256 * (tl `div` 256) `mod` 256 + tl `mod` 256); [reflexivity |]. now rewrite be16_back, u16_id by lia.
  - transitivity (256 * (fld `div` 256) `mod` 256 + fld `mod` 256); [reflexivity |]. now rewrite be16_back, u16_id by lia.
Qed.

Lemma frag_header_bytes_ok hdr tl fld : bytes_ok hdr -> bytes_ok (frag_header hdr tl fld).
Proof.
  intros Hh. unfold frag_header, frag_header_fields. rewrite !Forall_app.
  repeat split; auto using bytes_ok_take, bytes_ok_drop, bytes_at_ok with s2l.
Qed.

(** The chunk is copied as it is: TCP, or UDP with a checksum. *)
Definition carried (skb : list Z) (off : Z) (chunk : list Z) : Prop :=
  hdr8 skb 9 = IPPROTO_TCP
  \/ hdr8 skb 9 = IPPROTO_UDP /\ (off = 0 -> (8 <= length chunk)%nat /\ hdr16 chunk 6 <> 0).

Lemma frag_translate skb h chunk stale off more dst :
  let n := Z.of_nat (length chunk) in
  bytes_ok skb -> bytes_ok chunk -> bytes_ok stale ->
  ip4_hdr_len skb = h -> 20 <= h -> (Z.to_nat h <= length skb)%nat -> n + h + 8 < 65536 -> 0 <= off < 8192 ->
  carried skb off chunk -> (48 + length chunk <= length dst)%nat ->
  ip4_ip6 (frag_header (take (Z.to_nat h) skb) (n + h) (frag_fld more off) ++ chunk ++ stale) (n + h) 0 false dst
  = Ok tt (fragment6 skb off more chunk ++ drop (48 + length chunk) dst).
Proof.
  intros n Hs Hc Hst Hh H20 Hl Hn Ho Hcar Hd.
  destruct (frag_fld_facts more off Ho) as (Foff & Fmf & Frange).
  set (src := frag_header _ _ _ ++ _).
  destruct (frag_header_reads skb h (n + h) (frag_fld more off) (chunk ++ stale) H20 Hl ltac:(lia) ltac:(lia))
    as (R0 & R9 & R2 & R6 & R4 & Rv). fold src in R0, R9, R2, R6, R4, Rv.
  assert (Lfh : length (frag_header (take (Z.to_nat h) skb) (n + h) (frag_fld more off)) = Z.to_nat h)
    by (rewrite length_frag_header; rewrite length_take; lia).
  assert (Hhl : ip4_hdr_len src = h) by (unfold ip4_hdr_len; rewrite R0; exact Hh).
  assert (Hsrc : bytes_ok src) by (unfold src; rewrite !Forall_app; auto using frag_header_bytes_ok, bytes_ok_take).
  assert (Hls : length src = (Z.to_nat h + (length chunk + length stale))%nat) by (unfold src; rewrite !length_app, Lfh; lia).
  assert (Hw : wants_fragment_header src false = true).
  { unfold wants_fragment_header. rewrite R6, (proj2 (Z.eqb_neq _ _)) by (unfold IP_DF; lia). reflexivity. }
  assert (Hpay : ip4_payload src (n + h) = chunk).
  { unfold ip4_payload. rewrite Hhl. replace (Z.to_nat (n + h - h)) with (length chunk) by lia.
    rewrite <- Lfh. unfold src. rewrite <- (Nat.add_0_r (length (frag_header _ _ _))), bytes_at_app_skip.
    now apply bytes_at_front. }
  unfold ip4_ip6. rewrite transport_run; auto; try lia.
  - rewrite Hhl. replace (v6_transport src (n + h) false) with (Some chunk).
    + unfold v6_headers. rewrite Hw, R2, Rv. unfold v6_fragment_header. rewrite R9, R6, R4, Foff, Fmf.
      unfold fragment6. rewrite <- !app_assoc. fold n. replace (n + h - h) with n by lia.
      replace (Z.to_nat n) with (length chunk) by lia. now destruct more.
    + unfold v6_transport. rewrite Hpay, R9, R6, Foff. destruct Hcar as [-> | [-> Hu]]; [reflexivity |].
      change (IPPROTO_UDP =? IPPROTO_TCP) with false. change (IPPROTO_UDP =? IPPROTO_UDP) with true. cbv iota.
      destruct (Z.eqb_spec off 0) as [E0 |]; [| reflexivity]. destruct (Hu E0) as [_ Hne].
      now rewrite (proj2 (Z.eqb_neq _ _)) by exact Hne.
  - rewrite R9. destruct Hcar as [-> | [-> _]]; discriminate.
  - rewrite R9, R6, Foff, Hhl. intros E E0. destruct Hcar as [Hx | [_ Hu]]; [rewrite Hx in E; discriminate |]. destruct (Hu E0). lia.
  - rewrite Hw, Hhl. lia.
Qed.

(** The payload in pieces of at most [FRAG_BUFF_SIZE] bytes. *)
Fixpoint cut (fuel : nat) (l : list Z) : list (list Z) :=
  match fuel with
  | O => []
  | S fuel =>
      if Z.of_nat (length l) <=? FRAG_BUFF_SIZE then [l]
      else take (Z.to_nat FRAG_BUFF_SIZE) l :: cut fuel (drop (Z.to_nat FRAG_BUFF_SIZE) l)
  end.

(** Their fragments: each starts, in units of eight bytes, where the piece before
    it ended; all but the last have more to come, the last as the packet itself. *)
Fixpoint fragments6 (skb : list Z) (flag_last_mf : bool) (off : Z) (cs : list (list Z)) : list (list Z) :=
  match cs with
  | [] => []
  | [c] => [fragment6 skb off (negb flag_last_mf) c]
  | c :: cs => fragment6 skb off true c :: fragments6 skb flag_last_mf (off + Z.of_nat (length c) `div` 8) cs
  end.

Lemma pieces_left (m : nat) :
  FRAG_BUFF_SIZE < Z.of_nat m ->
  S (Z.to_nat (Z.of_nat (m - Z.to_nat FRAG_BUFF_SIZE) `div` FRAG_BUFF_SIZE)) = Z.to_nat (Z.of_nat m `div` FRAG_BUFF_SIZE).
Proof.
  unfold FRAG_BUFF_SIZE. intros Hm. replace (Z.of_nat (m - Z.to_nat 1232)) with (Z.of_nat m + (-1) * 1232) by lia.
  rewrite Z.div_add by lia. assert (1 <= Z.of_nat m `div` 1232) by (apply Z.div_le_lower_bound; lia). lia.
Qed.

Lemma cut_concat fuel l : (Z.to_nat (Z.of_nat (length l) `div` FRAG_BUFF_SIZE) < fuel)%nat -> concat (cut fuel l) = l.
Proof.
  revert l. induction fuel as [| fuel IH]; intros l Hf; [lia |]. cbn [cut].
  destruct (Z.leb_spec (Z.of_nat (length l)) FRAG_BUFF_SIZE); [apply app_nil_r |].
  cbn [concat]. rewrite IH; [apply take_drop |]. rewrite length_drop. pose proof (pieces_left (length l)). lia.
Qed.

Lemma cut_small fuel l : Forall (fun c => Z.of_nat (length c) <= FRAG_BUFF_SIZE) (cut fuel l).
Proof.
  revert l. induction fuel as [| fuel IH]; intros l; [constructor |]. cbn [cut].
  destruct (Z.leb_spec (Z.of_nat (length l)) FRAG_BUFF_SIZE); constructor; auto.
  rewrite length_take. unfold FRAG_BUFF_SIZE in *. lia.
Qed.

(** All pieces but the last are of [FRAG_BUFF_SIZE] bytes, and the last is not
    empty unless the payload is. *)
Lemma cut_full fuel l :
  Forall (fun c => Z.of_nat (length c) = FRAG_BUFF_SIZE) (removelast (cut fuel l)) /\
  ((Z.to_nat (Z.of_nat (length l) `div` FRAG_BUFF_SIZE) < fuel)%nat -> l <> [] -> Forall (fun c => c <> []) (cut fuel l)).
Proof.
  revert l. induction fuel as [| fuel IH]; intros l; [split; [constructor | lia] |]. cbn [cut].
  destruct (Z.leb_spec (Z.of_nat (length l)) FRAG_BUFF_SIZE); [split; [constructor | auto] |].
  pose proof (pieces_left (length l) ltac:(assumption)) as Hp. destruct (IH (drop (Z.to_nat FRAG_BUFF_SIZE) l)) as [IH1 IH2].
  assert (length (take (Z.to_nat FRAG_BUFF_SIZE) l) = Z.to_nat 1232) as Ht by (rewrite length_take; unfold FRAG_BUFF_SIZE in *; lia).
  rewrite length_drop in IH2. split.
  - destruct (cut fuel _) as [| c cs]; [constructor |]. constructor; [unfold FRAG_BUFF_SIZE in *; lia | exact IH1].
  - intros Hf Hne. constructor.
    + intros E. rewrite E in Ht. cbn [length] in Ht. lia.
    + apply IH2; [lia |]. intros E. apply (f_equal (@length Z)) in E. rewrite length_drop in E. cbn [length] in E.
      unfold FRAG_BUFF_SIZE in *. lia.
Qed.

(** A frame that holds a packet, followed by [slack] bytes that were never
    written. *)
Definition holds (slack : nat) (pkt : list Z) (f : frame) : Prop :=
  frame_protocol f = ETH_P_IPV6 /\ exists junk, frame_data f = pkt ++ junk /\ length junk = slack.

Lemma alloc_run eth n proto dev :
  (forall k n, is_Some (dev_alloc_skb k n)) -> 14 <= n -> (hard_header_len dev <= length eth)%nat ->
  exists mac d, alloc_with_header eth n proto dev = Ok (S (allocated dev), mac) d /\ length d = Z.to_nat n.
Proof.
  intros Ha Hn He. unfold alloc_with_header. destruct (Ha (allocated dev) (n + Z.of_nat (hard_header_len dev))) as [l El].
  rewrite El. pose proof (alloc_size _ _ _ El) as Ll.
  pose proof (memcpy_after [] l eth 0 (Z.of_nat (hard_header_len dev)) ltac:(lia) ltac:(lia) ltac:(lia)) as Em.
  cbn [length app] in Em. unfold bind at 1. rewrite Em. rewrite Nat2Z.id in *.
  set (l1 := bytes_at eth 0 (hard_header_len dev) ++ drop (hard_header_len dev) l).
  assert (L1 : length l1 = length l) by (unfold l1; rewrite length_app, length_bytes_at, length_drop by lia; lia).
  unfold bind, wr16. rewrite wr_run by (rewrite length_be_split; lia).
  do 2 eexists. split; [reflexivity |]. unfold skb_pull. rewrite length_blit, (proj2 (Nat.leb_le _ _)), length_drop, length_blit;
    rewrite ?length_be_split; lia.
Qed.

Lemma ip4_hdr_len_range src : 0 <= ip4_hdr_len src <= 60.
Proof.
  unfold ip4_hdr_len. change 15 with (Z.ones 4). rewrite Z.land_ones by lia.
  pose proof (Z.mod_pos_bound (hdr8 src 0) (2 ^ 4) ltac:(lia)). lia.
Qed.

Lemma carried_take skb off P k : (8 <= k)%nat -> carried skb off P -> carried skb off (take k P).
Proof.
  intros Hk [Ht | [Hu Hc]]; [left; auto | right; split; auto]. intros E. destruct (Hc E) as [H8 Hne].
  rewrite length_take. split; [lia |].
  pose proof (hdr16_bytes_at P 0 k 6 ltac:(lia)) as Eb. intros E0. apply Hne.
  transitivity (hdr16 (bytes_at P 0 k) 6); [symmetry; exact Eb | exact E0].
Qed.
Lemma carried_next skb off off' P P' : 0 < off' -> carried skb off P -> carried skb off' P'.
Proof. intros Ho [Ht | [Hu Hc]]; [left; auto | right; split; auto; lia]. Qed.

Lemma cut_nonempty fuel l : exists c cs, cut (S fuel) l = c :: cs.
Proof. cbn [cut]. destruct (_ <=? _); eauto. Qed.

Lemma fragment_loop_run fuel skb eth h flag buff cur off dev :
  let P := drop cur skb in
  (forall k n, is_Some (dev_alloc_skb k n)) -> (hard_header_len dev <= length eth)%nat ->
  bytes_ok skb -> ip4_hdr_len skb = h -> 20 <= h -> (Z.to_nat h <= cur <= length skb)%nat ->
  bytes_ok buff -> length buff = Z.to_nat (FRAG_BUFF_SIZE + h) ->
  0 <= off -> off * 8 + Z.of_nat (length P) < 65536 -> carried skb off P ->
  (Z.to_nat (Z.of_nat (length P) `div` FRAG_BUFF_SIZE) < fuel)%nat ->
  exists dev' gs,
    ip4_fragment_loop fuel skb eth h flag buff cur (Z.of_nat (length P)) off dev = XRet 0 dev'
    /\ received dev' = received dev ++ gs
    /\ Forall2 (holds (Z.to_nat (h - 20))) (fragments6 skb flag off (cut fuel P)) gs.
Proof.
  revert buff cur off dev. induction fuel as [| fuel IH]; intros buff cur off dev P Ha He Hs Hh H20 Hcur Hb Lb Ho H16 Hcar Hf; [lia |].
  cbn [ip4_fragment_loop]. unfold FRAG_BUFF_SIZE in *.
  pose proof (ip4_hdr_len_range skb) as Hr.
  assert (LP : length P = (length skb - cur)%nat) by (unfold P; now rewrite length_drop).
  set (last := Z.of_nat (length P) <=? 1232).
  set (n := if last then Z.of_nat (length P) else 1232).
  assert (Hn : 0 <= n <= 1232 /\ n <= Z.of_nat (length P)) by (unfold n, last; destruct (Z.leb_spec (Z.of_nat (length P)) 1232); lia).
  set (chunk := take (Z.to_nat n) P).
  assert (Lc : length chunk = Z.to_nat n) by (unfold chunk; rewrite length_take; lia).
  rewrite build_run by (auto; lia). fold (bytes_at skb cur (Z.to_nat n)).
  change (bytes_at skb cur (Z.to_nat n)) with chunk.
  destruct (alloc_run eth (n + h + IP4_IP6_HDR_DIFF + IP6_FRAGMENT_SIZE) ETH_P_IPV6 dev Ha) as (mac & d & Ed & Ld);
    [unfold IP4_IP6_HDR_DIFF, IP6_FRAGMENT_SIZE; lia | auto |].
  rewrite Ed. unfold IP4_IP6_HDR_DIFF, IP6_FRAGMENT_SIZE in Ld.
  assert (Hcc : carried skb off chunk).
  { unfold chunk. destruct last eqn:El; unfold n.
    - now rewrite Nat2Z.id, firstn_all.
    - apply carried_take; auto. lia. }
  set (more := negb (last && flag)). set (stale := drop (Z.to_nat h + Z.to_nat n) buff).
  assert (Et : ip4_ip6 (frag_header (take (Z.to_nat h) skb) (n + h) (frag_fld more off) ++ chunk ++ stale) (n + h) 0 false d
    = Ok tt (fragment6 skb off more chunk ++ drop (48 + length chunk) d)).
  { replace n with (Z.of_nat (length chunk)) by lia. apply frag_translate; auto; try lia;
      unfold chunk, P, stale; auto using bytes_ok_take, bytes_ok_drop. }
  rewrite Et. clear Et.
  set (f := Frame _ mac _ ETH_P_IPV6). set (dev1 := netif_rx f _).
  assert (Lj : length (drop (48 + length chunk) d) = Z.to_nat (h - 20)) by (rewrite length_drop; lia).
  assert (Hf1 : holds (Z.to_nat (h - 20)) (fragment6 skb off more chunk) f)
    by (split; [reflexivity |]; eexists; split; [reflexivity | exact Lj]).
  cbn [cut]. unfold FRAG_BUFF_SIZE. fold last. destruct last eqn:El.
  - exists dev1, [f]. split; [reflexivity |]. split; [reflexivity |].
    cbn [fragments6]. constructor; [| constructor].
    replace P with chunk; [exact Hf1 |]. unfold chunk, n. now rewrite Nat2Z.id, firstn_all.
  - assert (Hgt : 1232 < Z.of_nat (length P)) by (unfold last in El; apply Z.leb_gt in El; lia).
    assert (En : n = 1232) by reflexivity.
    assert (Hdrop : drop (cur + Z.to_nat n) skb = drop (Z.to_nat 1232) P) by (unfold P; rewrite drop_drop, En; reflexivity).
    assert (Hoff : u16 ((off * 8 + n) `div` 8) = off + 154).
    { rewrite En. replace (off * 8 + 1232) with ((off + 154) * 8) by lia. rewrite Z.div_mul, u16_id by lia. reflexivity. }
    rewrite Hoff. replace (Z.of_nat (length P) - n) with (Z.of_nat (length (drop (cur + Z.to_nat n) skb)))
      by (rewrite length_drop; lia).
    destruct (IH (frag_header (take (Z.to_nat h) skb) (n + h) (frag_fld more off) ++ chunk ++ stale) (cur + Z.to_nat n)%nat (off + 154) dev1)
      as (dev' & gs & Eloop & Erec & Hall); auto.
    + lia.
    + unfold chunk, P, stale. rewrite !Forall_app. auto using frag_header_bytes_ok, bytes_ok_take, bytes_ok_drop.
    + unfold stale. rewrite !length_app, length_frag_header, length_take, length_drop by (rewrite length_take; lia). lia.
    + lia.
    + rewrite length_drop. lia.
    + apply (carried_next skb off _ P); [lia | auto].
    + rewrite length_drop. replace (length skb - (cur + Z.to_nat n))%nat with (length P - Z.to_nat 1232)%nat by lia.
      pose proof (pieces_left (length P)). unfold FRAG_BUFF_SIZE in *. lia.
    + exists dev', (f :: gs). split; [exact Eloop |]. split; [rewrite Erec; unfold dev1; cbn; now rewrite <- app_assoc |].
      rewrite Hdrop in Hall. destruct fuel as [| fuel']; [pose proof (pieces_left (length P)); unfold FRAG_BUFF_SIZE in *; lia |].
      destruct (cut_nonempty fuel' (drop (Z.to_nat 1232) P)) as (c & cs & Ecut). rewrite Ecut in *.
      assert (Z.of_nat (length (take (Z.to_nat 1232) P)) `div` 8 = 154) as E154.
      { rewrite length_take. replace (Z.of_nat (Z.to_nat 1232 `min` length P)) with 1232 by lia. reflexivity. }
      constructor; [exact Hf1 | rewrite E154; exact Hall].
Qed.

Lemma fragment_udp_run skb h :
  let payload := drop (Z.to_nat h) skb in
  (20 <= length skb)%nat -> (Z.to_nat h <= length skb)%nat ->
  carried skb (ip4_offset (hdr16 skb 6)) payload ->
  ip4_fragment_udp h skb = Ok (ip4_mf (hdr16 skb 6) =? 0) skb.
Proof.
  intros payload Hl Hh Hc. unfold ip4_fragment_udp, dst16, dst8. unfold bind at 1. rewrite rd16_hdr16 by lia.
  unfold bind at 1. rewrite rd8_hdr8 by lia.
  destruct Hc as [-> | [-> Hu]]; [reflexivity |]. change (IPPROTO_UDP =? IPPROTO_UDP) with true. cbn [andb].
  destruct (Z.eqb_spec (ip4_offset (hdr16 skb 6)) 0) as [E0 |]; [| reflexivity].
  destruct (Hu E0) as [H8 Hne]. unfold payload in H8. rewrite length_drop in H8.
  unfold bind. rewrite rd16_hdr16 by lia.
  assert (E : hdr16 payload 6 = hdr16 skb (Z.to_nat h + 6)).
  { unfold hdr16. rewrite !nth_lookup. unfold payload. rewrite !lookup_drop.
    now replace (Z.to_nat h + 7)%nat with (S (Z.to_nat h + 6)) by lia. }
  rewrite E in Hne. apply Z.eqb_neq in Hne. rewrite Hne. now destruct (negb _).
Qed.

Lemma length_fragment6 skb off more c : (20 <= length skb)%nat -> length (fragment6 skb off more c) = (48 + length c)%nat.
Proof. intros. unfold fragment6. rewrite !length_app, length_v6_header, !length_be_split by auto. cbn [length]. lia. Qed.

Lemma fragments6_fit skb flag off cs :
  (20 <= length skb)%nat -> Forall (fun c => Z.of_nat (length c) <= FRAG_BUFF_SIZE) cs ->
  Forall (fun p => Z.of_nat (length p) <= 1280) (fragments6 skb flag off cs).
Proof.
  intros Hl Hc. revert off. induction Hc as [| c cs Hc1 Hcs IH]; intros off; [constructor |].
  unfold FRAG_BUFF_SIZE in Hc1.
  destruct cs as [| c' cs]; [| specialize (IH (off + Z.of_nat (length c) `div` 8))]; constructor; try exact IH; try constructor;
    rewrite length_fragment6 by auto; lia.
Qed.

(** C5: A TCP packet, or a UDP packet with a checksum or a later fragment of one,
    leaves as IPv6 fragments of at most 1280 bytes that carry its payload in order
    and without gaps: all pieces but the last have 1232 bytes, a multiple of eight,
    none is empty unless the payload is, and the offset of a fragment is that of
    the one before it plus its length; all but the last have the more-fragments flag, and the last has
    it when the packet itself was not a last fragment.  Every frame has as many
    bytes of unwritten memory at its end as the packet has options.  Allocation
    succeeds, and the payload ends below 65536. *)
Theorem ip4_fragment_covers skb dev eth :
  let h := ip4_hdr_len skb in
  let payload := drop (Z.to_nat h) skb in
  let off := ip4_offset (hdr16 skb 6) in
  (forall k n, is_Some (dev_alloc_skb k n)) -> (forall n, bytes_ok (frag_buff n)) ->
  (hard_header_len dev <= length eth)%nat ->
  bytes_ok skb -> 20 <= h -> (Z.to_nat h <= length skb)%nat ->
  off * 8 + Z.of_nat (length payload) < 65536 -> carried skb off payload ->
  exists dev' gs cs,
    ip4_fragment skb (Z.of_nat (length skb)) h dev eth = XRet 0 dev'
    /\ received dev' = received dev ++ gs
    /\ concat cs = payload
    /\ Forall (fun c => Z.of_nat (length c) = FRAG_BUFF_SIZE) (removelast cs)
    /\ (payload <> [] -> Forall (fun c => c <> []) cs)
    /\ Forall2 (holds (Z.to_nat (h - 20))) (fragments6 skb (ip4_mf (hdr16 skb 6) =? 0) off cs) gs
    /\ Forall (fun p => Z.of_nat (length p) <= 1280) (fragments6 skb (ip4_mf (hdr16 skb 6) =? 0) off cs).
Proof.
  intros h payload off Ha Hfb He Hs H20 Hl H16 Hc. unfold ip4_fragment.
  rewrite fragment_udp_run by (auto; lia). rewrite rd16_hdr16 by lia. fold off.
  assert (LP : length payload = (length skb - Z.to_nat h)%nat) by (unfold payload; now rewrite length_drop).
  replace (Z.of_nat (length skb) - h) with (Z.of_nat (length payload)) by lia.
  set (fuel := S (Z.to_nat (Z.of_nat (length payload) `div` FRAG_BUFF_SIZE))).
  destruct (fragment_loop_run fuel skb eth h (ip4_mf (hdr16 skb 6) =? 0) (frag_buff (FRAG_BUFF_SIZE + h)) (Z.to_nat h) off dev)
    as (dev' & gs & E & Hr & Hall); auto.
  - apply frag_buff_size.
  - apply ip4_offset_range.
  - exists dev', gs, (cut fuel payload). repeat split; auto.
    + apply cut_concat. unfold fuel. lia.
    + apply cut_full.
    + apply cut_full. unfold fuel. lia.
    + apply fragments6_fit; [lia | apply cut_small].
Qed.

End Fragmentation.

(** ** A concrete device *)

#[local] Instance demo_env : XmitEnv := {
  dev_alloc_skb k n := Some (repeat 0xaa (Z.to_nat n));
  frag_buff n := repeat 0 (Z.to_nat n);
  new_packet_buff := repeat 0 (Z.to_nat 2048);
}.
#[local] Instance demo_laws : XmitLaws.
Proof.
  split.
  - intros k n l [= <-]. apply repeat_length.
  - intros n. apply repeat_length.
  - apply repeat_length.
Qed.

Definition demo_dev : net_device := NetDevice 14 0 0 0 0 0 0 0 0 [] [].

(** A TCP packet of 1324 bytes, four of them an option, without DF. *)
Definition long_tcp : list Z :=
  [0x46; 0; 5; 44; 0; 7; 0; 0; 64; 6; 0; 0; 10; 0; 0; 1; 10; 0; 0; 9; 1; 1; 1; 0] ++ repeat 7 (Z.to_nat 1300).

Lemma ip4_fragment_covers_witness :
  exists dev' gs cs,
    ip4_fragment (H := rfc_env) long_tcp (Z.of_nat (length long_tcp)) 24 demo_dev (repeat 0 14) = XRet 0 dev'
    /\ received dev' = [] ++ gs
    /\ concat cs = repeat 7 (Z.to_nat 1300)
    /\ Forall (fun c => Z.of_nat (length c) = FRAG_BUFF_SIZE) (removelast cs)
    /\ (repeat 7 (Z.to_nat 1300) <> [] -> Forall (fun c => c <> []) cs)
    /\ Forall2 (holds 4) (fragments6 (H := rfc_env) long_tcp true 0 cs) gs
    /\ Forall (fun p => Z.of_nat (length p) <= 1280) (fragments6 (H := rfc_env) long_tcp true 0 cs).
Proof.
  apply (ip4_fragment_covers (H := rfc_env) long_tcp demo_dev (repeat 0 14)); try by_compute.
  - intros k n. eexists. reflexivity.
  - intros n. cbn [frag_buff demo_env]. induction (Z.to_nat n); constructor; [by_compute | assumption].
Defined.

