(* ===== verification/RwTask.v ===== *)
(** * RwTask: the tasks of rwcheck

    Models [rwcheck.c], [size_unit.c] and [copy_file] of [fops.c] of
    [allwinner/testtools/testapk/rwcheck/src]: sizes and options, the size of the
    next test file in the three modes, and the rounds that create sealed files until
    the space is used, check them and remove them.  Checksums and the trailer of a
    file are those of [Crc16].  The file system is the map from paths to contents of
    the regular files; the free space is a function of it.  A worker thread writes
    only its own file, so the workers of a row are modelled one after the other.
    Allocation and [stat] succeed, and a readable path is a regular file. *)
From stdpp Require Import gmap.
From Stdlib Require Import String.
From S2P Require Import Prelude CString Crc16.

(** ** [size_unit.c], [config.h] *)

Definition KB : Z := 1024.
Definition MB : Z := KB * 1024.
Definition GB : Z := MB * 1024.

Definition DEFAULT_ORG_SIZE : Z := 64 * KB.
Definition DEFAULT_UP_MODE_BEGIN_SIZE : Z := 4 * KB.
Definition DEFAULT_UP_MODE_END_SIZE : Z := 16 * GB.
Definition DEFAULT_UP_MODE_POWER : Z := 2.
Definition DEFAULT_AUTO_MODE_MAX_SIZE : Z := 4 * GB.
Definition DEFAULT_AUTO_MODE_END_SIZE : Z := 64 * KB.
Definition MAX_JOBS : Z := 10.
Definition DEFAULT_PERCENT : Z := 95.
Definition DEFAULT_TIMES : Z := 1.
Definition DEFAULT_JOBS : Z := 1.
Definition DEFAULT_SMALL_BUF_SIZE : Z := 512 * KB.
Definition DEFAULT_LARGE_BUF_SIZE : Z := 8 * MB.
Definition DEFAULT_BUF_SIZE_DDR_LIMIT : Z := 64 * MB.

(** [str_to_size]: the bytes, or [-EINVAL].  [atol] has 32 bits and is converted to
    [unsigned long long]; the last character of an empty string is outside it. *)
Definition str_to_size (str : list Z) : option (option Z) :=
  c ← List.last (map Some str) None;
  let size := u64 (atol str) in
  if size =? 0 then Some None
  else if (48 <=? c) && (c <=? 57) then Some (Some size)
  else if (c =? 107) || (c =? 75) then Some (Some (u64 (size * KB)))
  else if (c =? 109) || (c =? 77) then Some (Some (u64 (size * MB)))
  else if (c =? 103) || (c =? 71) then Some (Some (u64 (size * GB)))
  else Some None.

(** [num_to_str]. *)
Definition num_to_str (bytes : Z) : list Z :=
  if GB <=? bytes then digits 20 (bytes / GB) [] ++ lit " GB"
  else if MB <=? bytes then digits 20 (bytes / MB) [] ++ lit " MB"
  else if KB <=? bytes then digits 20 (bytes / KB) [] ++ lit " KB"
  else digits 20 bytes [] ++ lit " B".

(** [round_down(x, y)] for a power of two. *)
Definition round_down (x y : Z) : Z := Z.land x (Z.lnot (y - 1)).

(** ** Tasks *)

Inductive run_mode := AUTO_MODE | SAME_MODE | UP_MODE.

(** [sz_cur] and [sz_same] are one member of a union. *)
Record rwtask := Task {
  mode : run_mode;
  min_free_bytes : Z;
  dir : list Z;
  org : list Z;
  set_org : bool;
  jobs : Z;
  percent : Z;
  times : Z;
  count : Z;
  sz_begin : Z;
  sz_end : Z;
  sz_cur : Z;
  sz_buf : Z;
}.

Definition with_cur (t : rwtask) (b : Z) : rwtask :=
  Task (mode t) (min_free_bytes t) (dir t) (org t) (set_org t) (jobs t) (percent t) (times t) (count t)
    (sz_begin t) (sz_end t) b (sz_buf t).
Definition with_count (t : rwtask) (n : Z) : rwtask :=
  Task (mode t) (min_free_bytes t) (dir t) (org t) (set_org t) (jobs t) (percent t) (times t) n
    (sz_begin t) (sz_end t) (sz_cur t) (sz_buf t).

Abbreviation files := (gmap (list Z) (list Z)).

Section Rwcheck.

(** The free space of the test directory, the largest file of its file system, total
    flash and free memory; the result of the [i]-th [write] to a path; the positions of a
    file at which the device fails. *)
Variables (free_flash : files -> Z) (max_file_size total_flash free_ddr : Z).
Variable write_result : list Z -> nat -> Z -> Z.
Variable bad : list Z -> Z -> bool.

Definition is_existed (fs : files) (path : list Z) : bool := match fs !! path with Some _ => true | None => false end.
Abbreviation is_file := is_existed.

(** ** Arguments *)

(** Directories, and the absolute path of one. *)
Variables (is_dir : list Z -> bool) (abs_path : list Z -> option (list Z)).

(** The turn of [parse_args] for the option [c] with [optarg], as [getopt] gives them: [inl]
    is the exit status of [-h] or the error. *)
Definition parse_opt (fs : files) (t : rwtask) (c : Z) (optarg : list Z) : option (Z + rwtask) :=
  let '(Task m f d o so j p n k b e s u) := t in
  let sized (g : Z -> rwtask) :=
    r ← str_to_size optarg;
    Some (match r with None => inl (-1) | Some v => inr (g v) end) in
  if c =? 100 (* d *) then
    Some (if negb (is_dir optarg) then inl (-1)
          else match abs_path optarg with None => inl (-1) | Some d => inr (Task m f d o so j p n k b e s u) end)
  else if c =? 116 (* t *) then
    let n := u32 (atol optarg) in Some (if n =? 0 then inl (-1) else inr (Task m f d o so j p n k b e s u))
  else if (c =? 98) || (c =? 101) (* b, e *) then
    match m with
    | SAME_MODE => Some (inl (-1))
    | _ =>
        if c =? 98 then sized (fun b => Task UP_MODE f d o so j p n k b e s u)
        else sized (fun e => Task UP_MODE f d o so j p n k b e s u)
    end
  else if c =? 115 (* s *) then
    match m with UP_MODE => Some (inl (-1)) | _ => sized (fun s => Task SAME_MODE f d o so j p n k b e s u) end
  else if c =? 117 (* u *) then sized (fun u => Task m f d o so j p n k b e s u)
  else if c =? 105 (* i *) then
    Some (if negb (is_file fs optarg) then inl (-1) else inr (Task m f d (take 1024 optarg) true j p n k b e s u))
  else if c =? 112 (* p *) then
    let p := atol optarg in Some (if (p <? 0) || (99 <? p) then inl (-1) else inr (Task m f d o so j p n k b e s u))
  else if c =? 106 (* j *) then
    let j := atol optarg in Some (if (j <=? 0) || (MAX_JOBS <? j) then inl (-1) else inr (Task m f d o so j p n k b e s u))
  else if c =? 104 (* h *) then Some (inl 0)
  else Some (inl (-1)).

Fixpoint parse_args (fs : files) (t : rwtask) (opts : list (Z * list Z)) : option (Z + rwtask) :=
  match opts with
  | [] => Some (inr t)
  | (c, optarg) :: opts' =>
      r ← parse_opt fs t c optarg;
      match r with inl code => Some (inl code) | inr t => parse_args fs t opts' end
  end.

(** What [init_rwtask] leaves, with the absolute path of the working directory. *)
Definition init_rwtask (total_ddr : Z) (pwd : list Z) : rwtask :=
  Task AUTO_MODE 0 pwd [] false DEFAULT_JOBS DEFAULT_PERCENT DEFAULT_TIMES 0 0 0 0
    (if DEFAULT_BUF_SIZE_DDR_LIMIT <? total_ddr then DEFAULT_LARGE_BUF_SIZE else DEFAULT_SMALL_BUF_SIZE).

(** [check_args], but for the refresh of the system information; [None] is the error. *)
Definition check_args (t : rwtask) (fs : files) : option rwtask :=
  let min_free := u64 (u64 (100 - percent t) * total_flash) / 100 in
  let org := take 1023 (dir t ++ lit "/rwcheck.org") in
  if 16 * MB <=? sz_buf t then None
  else if u64 (free_ddr * 60) / 100 <=? sz_buf t then None
  else
    let b := if sz_begin t =? 0 then DEFAULT_UP_MODE_BEGIN_SIZE else sz_begin t in
    let e := if sz_end t =? 0 then DEFAULT_UP_MODE_END_SIZE else sz_end t in
    let e := if max_file_size <? e then max_file_size else e in
    let done b e c :=
      if set_org t && negb (is_file fs org) then None
      else Some (Task (mode t) min_free (dir t) org (set_org t) (jobs t) (percent t) (times t) (count t) b e c (sz_buf t)) in
    match mode t with
    | UP_MODE => if e <? b then None else done b e (sz_cur t)
    | SAME_MODE => done (sz_begin t) (sz_end t) (if max_file_size <? sz_cur t then max_file_size else sz_cur t)
    | AUTO_MODE => done (sz_begin t) (sz_end t) (sz_cur t)
    end.

(** ** The size of the next file *)

(** The loop of the automatic mode: at most one turn per bit. *)
Fixpoint auto_loop (fuel : nat) (free min_free test : Z) : option Z :=
  if negb (test =? 0) && (u64 (free - test) <? min_free) then
    match fuel with O => None | S fuel' => auto_loop fuel' free min_free (round_down (test / 2) KB) end
  else Some test.

Definition get_task_size_auto_mode (t : rwtask) (free : Z) : option Z :=
  test ← auto_loop 64 free (min_free_bytes t) (round_down (free / 2) KB);
  let test := Z.min test DEFAULT_AUTO_MODE_MAX_SIZE in
  Some (if test <? DEFAULT_AUTO_MODE_END_SIZE then 0 else test).

Definition get_task_size_same_mode (t : rwtask) (free : Z) : Z := if free <=? sz_cur t then 0 else sz_cur t.

Definition get_task_size_up_mode (t : rwtask) (free : Z) : Z :=
  let c := if sz_cur t =? 0 then sz_begin t else u64 (sz_cur t * DEFAULT_UP_MODE_POWER) in
  let c := if sz_end t <? c then sz_begin t else c in
  let c := if free <=? c then sz_begin t else c in
  if u64 (free - c) <? min_free_bytes t then sz_begin t else c.

(** The size, 0 for none, and the task. *)
Definition get_test_size (t : rwtask) (fs : files) : option (Z * rwtask) :=
  let free := free_flash fs in
  if (free =? 0) || (free <=? min_free_bytes t) then Some (0, t)
  else
    let last test t :=
      if test =? 0 then (0, t)
      else if u64 (free - test) <? min_free_bytes t then (0, t)
      else (if max_file_size <? test then max_file_size else test, t) in
    match mode t with
    | AUTO_MODE => test ← get_task_size_auto_mode t free; Some (last test t)
    | SAME_MODE => Some (last (get_task_size_same_mode t free) t)
    | UP_MODE => let c := get_task_size_up_mode t free in Some (last c (with_cur t c))
    end.

(** ** [copy_file] *)

(** The inner loop: [sz] bytes read from the file [src] at [pos], which is set back
    to the start after each short read.  A file without bytes is read for ever. *)
Fixpoint read_full (fuel : nat) (src : list Z) (pos : nat) (want : nat) : option (list Z * nat) :=
  match want with
  | O => Some ([], pos)
  | _ =>
      match fuel with
      | O => None
      | S fuel' =>
          let got := take want (drop pos src) in
          let pos := if (length got =? want)%nat then (pos + length got)%nat else 0%nat in
          r ← read_full fuel' src pos (want - length got);
          Some (got ++ r.1, r.2)
      end
  end.

(** The outer loop, [i] being the number of the write and [done] what the output
    file holds so far: the status and what was written. *)
Fixpoint copy_loop (fuel : nat) (path src : list Z) (pos i : nat) (size buf_size : Z) (done : list Z) : option (Z * list Z) :=
  if size <=? 0 then Some (0, done)
  else
    match fuel with
    | O => None
    | S fuel' =>
        let sz := Z.min size buf_size in
        r ← read_full (S (2 * Z.to_nat sz)) src pos (Z.to_nat sz);
        let w := write_result path i sz in
        let done := done ++ take (Z.to_nat w) r.1 in
        if negb (u64 w =? sz) then Some (-1, done)
        else copy_loop fuel' path src r.2 (S i) (size - sz) buf_size done
    end.

(** The output is created at its full size, filled with zeros, and overwritten from the
    start. *)
Definition copy_file (fs : files) (input output : list Z) (size buf_size : Z) : option (Z * files) :=
  match fs !! input with
  | None => Some (-1, fs)
  | Some src =>
      r ← copy_loop (Z.to_nat size) output src 0 0 size buf_size [];
      Some (r.1, <[output := r.2 ++ replicate (Z.to_nat size - length r.2) 0]> fs)
  end.

(** ** Creating, checking and removing *)

Definition DEFAULT_OUTPUT : list Z := lit "rwcheck.tmp".

(** [testfile] into a buffer of [len] bytes. *)
Definition testfile (t : rwtask) (len : nat) (num job : Z) : list Z :=
  take (pred len)
    (dir t ++ lit "/" ++ DEFAULT_OUTPUT ++ lit "." ++ print_d num ++ (if jobs t =? 1 then [] else lit "_" ++ print_d job)).

(** A worker: the status and the files. *)
Definition sub_thread_do_create (t : rwtask) (fs : files) (path : list Z) (bytes : Z) : option (Z * files) :=
  if is_existed fs path then Some (0, fs)
  else
    r ← copy_file fs (org t) path bytes (sz_buf t);
    let '(ret, fs) := r in
    if negb (ret =? 0) then Some (ret, fs)
    else
      let '(ret, d) := append_crc ((fun l : list Z => (l, bad path)) <$> fs !! path) 2 in
      Some (ret, match d with Some l => <[path := l]> fs | None => fs end).

(** The workers of a row, from [job] on: the status, whether the first file of the row
    was there before, and the files.  A file that is there behind the first one is
    [None]: the workers that run are cancelled at an unknown point.  Cancelling a
    thread that has been joined is taken to do nothing, and the workers behind one that failed
    to run to their ends. *)
Fixpoint create_row (n : nat) (t : rwtask) (fs : files) (num job bytes : Z) : option (Z * bool * files) :=
  match n with
  | O => Some (0, false, fs)
  | S n' =>
      let path := testfile t 128 num job in
      if is_existed fs path then if job =? 0 then Some (0, true, fs) else None
      else
        r ← sub_thread_do_create t fs path bytes;
        q ← create_row n' t r.2 num (job + 1) bytes;
        Some (if r.1 =? 0 then q.1.1 else r.1, q.1.2, q.2)
  end.

Fixpoint create_loop (fuel : nat) (t : rwtask) (fs : files) (num : Z) : option (Z * rwtask * files) :=
  s ← get_test_size t fs;
  let '(size, t) := s in
  if size =? 0 then Some (0, t, fs)
  else
    match fuel with
    | O => None
    | S fuel' =>
        r ← create_row (Z.to_nat (jobs t)) t fs num 0 (size / jobs t);
        let '(ret, there, fs) := r in
        if there || negb (ret =? 0) then Some (ret, t, fs) else create_loop fuel' t fs (num + 1)
    end.

Definition do_create (fuel : nat) (t : rwtask) (fs : files) : option (Z * rwtask * files) :=
  create_loop fuel (match mode t with UP_MODE => with_cur t 0 | _ => t end) fs 0.

(** The files of a row, from [job] on: [inl ret] when [do_check] returns. *)
Fixpoint check_row (n : nat) (t : rwtask) (fs : files) (num job : Z) : Z * rwtask + unit :=
  match n with
  | O => inr tt
  | S n' =>
      let file := testfile t 128 num job in
      match fs !! file with
      | None => inl (0, with_count t num)
      | Some data =>
          match get_crc16_by_path (Some (data, bad file)) CRC16_MAX_BYTES with
          | None => inl (-1, t)
          | Some crc =>
              if check_crc16 crc then check_row n' t fs num (job + 1)
              else if is_file fs (testfile t 128 (num + 1) job) then inl (-1, t)
              else check_row n' t fs num (job + 1)
          end
      end
  end.

Fixpoint check_loop (fuel : nat) (t : rwtask) (fs : files) (num : Z) : option (Z * rwtask) :=
  match fuel with
  | O => None
  | S fuel' =>
      match check_row (Z.to_nat (jobs t)) t fs num 0 with
      | inl r => Some r
      | inr _ => check_loop fuel' t fs (num + 1)
      end
  end.

Definition do_check (fuel : nat) (t : rwtask) (fs : files) : option (Z * rwtask) := check_loop fuel t fs 0.

(** The files of a row, from [job] on: whether one of them was missing.  [remove]
    of a readable file succeeds. *)
Fixpoint remove_row (n : nat) (t : rwtask) (fs : files) (num job : Z) : bool * files :=
  match n with
  | O => (false, fs)
  | S n' =>
      let file := testfile t 100 num job in
      if is_existed fs file then remove_row n' t (delete file fs) num (job + 1) else (true, fs)
  end.

(** Rows [n - 1], ..., 0. *)
Fixpoint remove_loop (n : nat) (t : rwtask) (fs : files) : files :=
  match n with
  | O => fs
  | S n' => let '(missing, fs) := remove_row (Z.to_nat (jobs t)) t fs (Z.of_nat n') 0 in if missing then fs else remove_loop n' t fs
  end.

Definition do_remove (t : rwtask) (fs : files) : Z * files :=
  let fs := remove_loop (Z.to_nat (s32 (count t))) t fs in
  if free_flash fs <=? min_free_bytes t then (-1, fs) else (0, fs).

(** ** [begin] *)

(** The source of [init_orgin_file], 64 KB from [/dev/urandom]. *)
Variable urandom : list Z.

Definition init_orgin_file (t : rwtask) (fs : files) : option (Z * files) :=
  match org t with
  | [] => Some (-2, fs)
  | _ =>
      if set_org t then Some (0, fs)
      else if is_existed fs (org t) then Some (0, fs)
      else
        r ← copy_loop (Z.to_nat DEFAULT_ORG_SIZE) (org t) urandom 0 0 DEFAULT_ORG_SIZE (4 * KB) [];
        Some (r.1, <[org t := r.2 ++ replicate (Z.to_nat DEFAULT_ORG_SIZE - length r.2) 0]> fs)
  end.

Definition deinit_orgin_file (t : rwtask) (fs : files) : files := if set_org t then fs else delete (org t) fs.

(** A round of the loop of [begin]; there is a row to check more than were created. *)
Definition round (fuel : nat) (t : rwtask) (fs : files) : option (Z * rwtask * files) :=
  r ← init_orgin_file t fs;
  let '(ret, fs) := r in
  if negb (ret =? 0) then Some (ret, t, fs)
  else
    r ← do_create fuel t fs;
    let '(ret, t, fs) := r in
    if negb (ret =? 0) then Some (ret, t, fs)
    else
      r ← do_check (S fuel) t fs;
      let '(ret, t) := r in
      if negb (ret =? 0) then Some (ret, t, fs)
      else
        let '(ret, fs) := do_remove t fs in
        if negb (ret =? 0) then Some (ret, t, fs) else Some (0, t, deinit_orgin_file t fs).

Fixpoint begin_ (n : nat) (fuel : nat) (t : rwtask) (fs : files) : option (Z * rwtask * files) :=
  match n with
  | O => Some (0, t, fs)
  | S n' =>
      r ← round fuel t fs;
      let '(ret, t, fs) := r in
      if negb (ret =? 0) then Some (ret, t, fs) else begin_ n' fuel t fs
  end.

(** [main]: the exit status and the files. *)
Definition main_ (total_ddr : Z) (pwd : list Z) (opts : list (Z * list Z)) (fuel : nat) (fs : files) : option (Z * files) :=
  r ← parse_args fs (init_rwtask total_ddr pwd) opts;
  match r with
  | inl code => Some (code, fs)
  | inr t =>
      match check_args t fs with
      | None => Some (-1, fs)
      | Some t => r ← begin_ (Z.to_nat (times t)) fuel t fs; Some (r.1.1, r.2)
      end
  end.
End Rwcheck.

(** ** Lemmas: sizes *)

Lemma round_down_KB x : 0 <= x -> round_down x KB = x / KB * KB.
Proof.
  intros Hx. unfold round_down, KB. change (1024 - 1) with (Z.ones 10). rewrite <- Z.ldiff_land, Z.ldiff_ones_r by lia.
  rewrite Z.shiftr_div_pow2, Z.shiftl_mul_pow2 by lia. reflexivity.
Qed.

Lemma u64_sub a b : 0 <= b <= a -> a < 2 ^ 64 -> u64 (a - b) = a - b.
Proof. intros. apply u64_id. lia. Qed.

(** The automatic size is found, and what it leaves is enough. *)
Lemma auto_loop_ok fuel free m test :
  0 <= test < 2 ^ Z.of_nat fuel -> test <= free < 2 ^ 64 ->
  exists r, auto_loop fuel free m test = Some r /\ 0 <= r <= test /\ (r = 0 \/ m <= free - r).
Proof.
  revert test. induction fuel as [| fuel IH]; intros test Ht Hf; cbn [auto_loop].
  - assert (test = 0) as -> by (simpl in Ht; lia). cbn. exists 0. split; [reflexivity |]. split; [lia | now left].
  - rewrite u64_sub by lia. destruct (Z.eqb_spec test 0) as [-> | H0]; cbn [negb andb]; [exists 0; split; [reflexivity |]; split; [lia | now left] |].
    destruct (Z.ltb_spec (free - test) m); [| exists test; split; [reflexivity |]; split; [lia | right; lia]].
    rewrite Nat2Z.inj_succ, Z.pow_succ_r in Ht by lia.
    assert (0 <= round_down (test / 2) KB <= test / 2) as Hr.
    { rewrite round_down_KB by (apply Z.div_pos; lia). unfold KB. Z.to_euclidean_division_equations. lia. }
    destruct (IH (round_down (test / 2) KB)) as (r & E & Hb & Hc); [Z.to_euclidean_division_equations; lia .. |].
    exists r. split; [exact E |]. split; [Z.to_euclidean_division_equations; lia | exact Hc].
Qed.

(** ** Lemmas: copies *)

(** [n] bytes of the file repeated without end, from position [pos]. *)
Definition cyc (src : list Z) (pos n : nat) : list Z :=
  map (fun i => nth (i mod length src) src 0) (seq pos n).

Lemma length_cyc src pos n : length (cyc src pos n) = n.
Proof. unfold cyc. now rewrite length_map, length_seq. Qed.

Lemma cyc_app src pos a b : cyc src pos a ++ cyc src (pos + a) b = cyc src pos (a + b).
Proof. unfold cyc. now rewrite seq_app, map_app. Qed.

Lemma cyc_shift src pos k n : length src <> O -> cyc src (pos + k * length src) n = cyc src pos n.
Proof.
  intros H. unfold cyc.
  revert pos. induction n as [| n IH]; intros pos; [reflexivity |]. cbn [seq map]. f_equal.
  - now rewrite Nat.Div0.mod_add.
  - apply (IH (S pos)).
Qed.

(** A piece that does not wrap. *)
Lemma cyc_inside src pos n : (pos + n <= length src)%nat -> cyc src pos n = take n (drop pos src).
Proof.
  intros H. apply (nth_ext _ _ 0 0); rewrite length_cyc; [rewrite length_take, length_drop; lia |]. intros i Hi.
  unfold cyc. rewrite (nth_indep _ 0 (nth (0 mod length src) src 0)) by (rewrite length_map, length_seq; lia).
  rewrite (map_nth (fun i => nth (i mod length src) src 0)), seq_nth by lia. rewrite Nat.mod_small by lia.
  rewrite nth_firstn. destruct (Nat.ltb_spec i n); [| lia]. now rewrite nth_skipn.
Qed.

Lemma read_full_cyc fuel src pos want :
  src <> [] -> (pos <= length src)%nat -> (2 * want + (if (pos =? length src)%nat then 1 else 0) <= fuel)%nat ->
  exists pos', read_full fuel src pos want = Some (cyc src pos want, pos') /\ (pos' <= length src)%nat /\
  (forall n, cyc src pos' n = cyc src (pos + want) n).
Proof.
  intros Hs. assert (length src <> 0)%nat as HL by (destruct src; [contradiction | cbn; lia]).
  revert pos want. induction fuel as [| fuel IH]; intros pos want Hp Hf.
  - assert (want = 0)%nat as -> by lia. exists pos. cbn. split; [reflexivity |]. split; [assumption |]. intros. now rewrite Nat.add_0_r.
  - destruct want as [| want]; [exists pos; cbn; split; [reflexivity |]; split; [assumption |]; intros; now rewrite Nat.add_0_r |].
    cbn [read_full]. set (got := take (S want) (drop pos src)).
    assert (length got = Nat.min (S want) (length src - pos)) as Lg by (unfold got; now rewrite length_take, length_drop).
    assert (got = cyc src pos (length got)) as Eg.
    { rewrite cyc_inside by lia. unfold got at 1. destruct (Nat.le_gt_cases (S want) (length src - pos)); [f_equal; lia |].
      rewrite !take_ge by (rewrite length_drop; lia). reflexivity. }
    destruct (Nat.eqb_spec (length got) (S want)) as [Hfull | Hshort].
    + rewrite Hfull, Nat.sub_diag. destruct fuel as [| fuel]; cbn [read_full mbind option_bind fst snd]; rewrite app_nil_r;
        (exists (pos + S want)%nat; rewrite Eg at 1; rewrite Hfull; split; [reflexivity |]; split; [lia | reflexivity]).
    + destruct (IH 0%nat (S want - length got)%nat) as (pos' & E & Hp' & Hc); [lia | |].
      { destruct (Nat.eqb_spec 0 (length src)); [lia |]. destruct (Nat.eqb_spec pos (length src)); lia. }
      rewrite E. cbn [mbind option_bind fst snd]. exists pos'.
      assert (forall n, cyc src 0 n = cyc src (pos + length got) n) as H0.
      { intros n. replace (pos + length got)%nat with (0 + 1 * length src)%nat by lia. symmetry. now apply cyc_shift. }
      split; [| split; [assumption |]].
      * rewrite Eg at 1. rewrite H0, cyc_app. do 3 f_equal. lia.
      * intros n. rewrite Hc. replace (pos + S want)%nat with (0 + (S want - length got) + 1 * length src)%nat by lia.
        now rewrite cyc_shift.
Qed.

Section Clean.
Context (free_flash : files -> Z) (max_file_size total_flash free_ddr : Z).
Context (write_result : list Z -> nat -> Z -> Z) (bad : list Z -> Z -> bool).
(** The device works. *)
Context (Hw : forall p i n, write_result p i n = n) (Hbad : forall p i, bad p i = false).

Lemma copy_loop_cyc fuel path src pos i size buf done :
  src <> [] -> (pos <= length src)%nat -> 1 <= buf -> (Z.to_nat size <= fuel)%nat -> 0 <= size < 2 ^ 64 ->
  copy_loop write_result fuel path src pos i size buf done = Some (0, done ++ cyc src pos (Z.to_nat size)).
Proof.
  intros Hs. revert pos i size done. induction fuel as [| fuel IH]; intros pos i size done Hp Hb Hf Hz; cbn [copy_loop].
  - assert (size = 0) as -> by lia. cbn. now rewrite app_nil_r.
  - destruct (Z.leb_spec size 0); [assert (size = 0) as -> by lia; cbn; now rewrite app_nil_r |].
    set (sz := Z.min size buf). assert (1 <= sz <= size) as Hsz by (unfold sz; lia).
    destruct (read_full_cyc (S (2 * Z.to_nat sz)) src pos (Z.to_nat sz) Hs Hp) as (pos' & E & Hp' & Hc).
    { destruct (_ =? _)%nat; lia. }
    rewrite E. cbn [mbind option_bind fst snd]. rewrite Hw, u64_id, Z.eqb_refl by lia. cbn [negb].
    rewrite take_ge by (rewrite length_cyc; lia). rewrite IH by (assumption || lia). f_equal. f_equal. rewrite <- app_assoc. f_equal.
    rewrite Hc, cyc_app. f_equal. lia.
Qed.

(** The copy is the input repeated, whatever the size of the buffer. *)
Lemma copy_file_cyc fs input output src size buf :
  fs !! input = Some src -> src <> [] -> 1 <= buf -> 0 <= size < 2 ^ 64 ->
  copy_file write_result fs input output size buf = Some (0, <[output := cyc src 0 (Z.to_nat size)]> fs).
Proof.
  intros E Hs Hb Hz. unfold copy_file. rewrite E, copy_loop_cyc by (assumption || lia). cbn [mbind option_bind fst snd app].
  now rewrite length_cyc, Nat.sub_diag, app_nil_r.
Qed.


(** ** Lemmas: the names of the test files *)

Lemma split_at (c : Z) (a b a' b' : list Z) : c ∉ a -> c ∉ a' -> a ++ c :: b = a' ++ c :: b' -> a = a' /\ b = b'.
Proof.
  revert a'. induction a as [| x a IH]; intros [| x' a'] Ha Ha' E; cbn [app] in E.
  - now injection E.
  - injection E as -> _. destruct Ha'. left.
  - injection E as <- _. destruct Ha. left.
  - injection E as <- E. apply not_elem_of_cons in Ha as [_ Ha]. apply not_elem_of_cons in Ha' as [_ Ha'].
    destruct (IH a' Ha Ha' E) as [-> ->]. auto.
Qed.

Lemma print_d_inj m n : 0 <= m < 10 ^ 20 -> 0 <= n < 10 ^ 20 -> print_d m = print_d n -> m = n.
Proof.
  intros Hm Hn E. rewrite !print_d_digits in E by lia. rewrite <- (read_digits_digits 20 m), <- (read_digits_digits 20 n) by (simpl; lia).
  now rewrite E.
Qed.

Lemma print_d_no c n : 0 <= n -> isdigit c = false -> c ∉ print_d n.
Proof.
  intros Hn Hc Hin. rewrite print_d_digits in Hin by assumption. pose proof (digits_isdigit 20 n Hn) as Hd.
  rewrite list.Forall_forall in Hd. rewrite (Hd c Hin) in Hc. discriminate.
Qed.

(** The whole name; both buffers hold it when the directory has at most 40 bytes. *)
Definition name (t : rwtask) (num job : Z) : list Z :=
  dir t ++ lit "/" ++ DEFAULT_OUTPUT ++ lit "." ++ print_d num ++ (if jobs t =? 1 then [] else lit "_" ++ print_d job).

Definition num_ok (n : Z) : Prop := 0 <= n < 10 ^ 19.

Lemma testfile_name t len num job :
  (length (dir t) <= 40)%nat -> (100 <= len)%nat -> num_ok num -> num_ok job -> testfile t len num job = name t num job.
Proof.
  intros Hd Hl [Hn _] [Hj _]. unfold testfile. fold (name t num job). apply take_ge. unfold name. rewrite !length_app.
  rewrite print_d_digits by assumption. pose proof (length_digits 20 num).
  assert (length (if (jobs t =? 1)%Z then [] else lit "_" ++ print_d job) <= 21)%nat.
  { destruct (jobs t =? 1); [cbn; lia |]. rewrite length_app, print_d_digits by assumption. pose proof (length_digits 20 job).
    change (length (lit "_")) with 1%nat. lia. }
  change (length (lit "/")) with 1%nat. change (length (lit ".")) with 1%nat. change (length DEFAULT_OUTPUT) with 11%nat. lia.
Qed.

Lemma name_inj t n j n' j' :
  num_ok n -> num_ok j -> num_ok n' -> num_ok j' -> (jobs t = 1 -> j = j') -> name t n j = name t n' j' -> n = n' /\ j = j'.
Proof.
  unfold num_ok. intros Hn Hj Hn' Hj' H1 E. unfold name in E. do 4 apply app_inv_head in E. destruct (Z.eqb_spec (jobs t) 1) as [E1 | E1].
  - rewrite !app_nil_r in E. split; [apply print_d_inj; (assumption || lia) | auto].
  - change (lit "_") with [95] in E. cbn [app] in E.
    apply split_at in E as [Ea Eb]; [| apply print_d_no; (reflexivity || lia) ..].
    split; apply print_d_inj; (assumption || lia).
Qed.

Lemma name_other_dir t t' n j : dir t = dir t' -> jobs t = jobs t' -> name t n j = name t' n j.
Proof. unfold name. now intros -> ->. Qed.

(** ** Lemmas: sealed files *)

Definition sealed (d : list Z) : Prop := check_crc16 (crc16_end (crc16_common CRC_INIT d)) = true /\ Z.of_nat (length d) < 2 ^ 63.

Lemma check_sealed d p : sealed d -> exists crc, get_crc16_by_path (Some (d, bad p)) CRC16_MAX_BYTES = Some crc /\ check_crc16 crc = true.
Proof.
  intros [Hs Hl]. eexists. split; [apply get_crc16_by_path_spec; [rewrite CRC16_MAX_BYTES_eq; lia | apply Hbad] | exact Hs].
Qed.

Lemma cyc_bytes src pos n : bytes_ok src -> bytes_ok (cyc src pos n).
Proof.
  intros H. apply list.Forall_forall. unfold cyc. intros x (i & <- & _)%list_elem_of_In%in_map_iff.
  destruct (nth_in_or_default (i mod length src) src 0) as [Hin | ->]; [| unfold byte_ok; lia].
  rewrite list.Forall_forall in H. apply H. now apply list_elem_of_In.
Qed.

(** A worker leaves a sealed file of the size it was given. *)
Lemma worker_ok t fs path src bytes :
  fs !! org t = Some src -> src <> [] -> bytes_ok src -> 1 <= sz_buf t -> 2 <= bytes < 2 ^ 62 -> fs !! path = None ->
  exists d, sub_thread_do_create write_result bad t fs path bytes = Some (0, <[path := d]> fs) /\ sealed d /\ length d = Z.to_nat bytes.
Proof.
  intros Ho Hs Hb Hbuf Hbytes Hp. unfold sub_thread_do_create, is_existed. rewrite Hp.
  rewrite (copy_file_cyc fs (org t) path src bytes (sz_buf t) Ho Hs Hbuf ltac:(lia)). cbn [mbind option_bind]. cbn [Z.eqb negb].
  rewrite lookup_insert_eq. cbn [fmap option_fmap option_map].
  destruct (split_last_two (cyc src 0 (Z.to_nat bytes))) as (body & a & b & E); [rewrite length_cyc; lia |].
  assert (length body + 2 = Z.to_nat bytes)%nat as Lb by (rewrite <- (length_cyc src 0 (Z.to_nat bytes)), E, length_app; reflexivity).
  rewrite E, append_crc_run by (lia || apply Hbad). rewrite insert_insert_eq.
  pose proof (cyc_bytes src 0 (Z.to_nat bytes) Hb) as Hc. rewrite E in Hc. apply Forall_app in Hc as [Hbody _].
  eexists. split; [reflexivity |]. rewrite length_app, length_le_split. split; [| lia]. split; [| rewrite length_app, length_le_split; lia].
  pose proof (le_split_bytes 2 (get_crc16_by_buf body)) as Hsl.
  destruct (le_split 2 (get_crc16_by_buf body)) as [| a' [| b' [|]]] eqn:El; try discriminate El.
  apply Forall_cons_1 in Hsl as [Ha' Hsl]. apply Forall_cons_1 in Hsl as [Hb' _].
  now apply sealed_iff.
Qed.

(** ** Lemmas: sizes of the next file *)

Definition SIZE_MIN : Z := 4096.

(** Every size of a task has room for a page in each file of a row. *)
Definition sz_ok (t : rwtask) : Prop :=
  1 <= jobs t <= MAX_JOBS /\ 0 <= min_free_bytes t /\
  match mode t with
  | AUTO_MODE => True
  | SAME_MODE => SIZE_MIN * jobs t <= sz_cur t
  | UP_MODE => SIZE_MIN * jobs t <= sz_begin t <= sz_end t /\ sz_end t < 2 ^ 62 /\ (sz_cur t = 0 \/ sz_begin t <= sz_cur t <= sz_end t)
  end.

Context (Hmax : 64 * KB <= max_file_size) (Hfree0 : forall fs, 0 <= free_flash fs < 2 ^ 42).

Lemma cap_size s n : n <= s < 2 ^ 62 -> n <= 64 * KB -> n <= (if max_file_size <? s then max_file_size else s) < 2 ^ 62.
Proof. intros. destruct (Z.ltb_spec max_file_size s); lia. Qed.

Lemma up_size_ok t free : sz_ok t -> mode t = UP_MODE -> sz_begin t <= get_task_size_up_mode t free <= sz_end t.
Proof.
  intros (Hj & _ & H) E. rewrite E in H. destruct H as (Hb & He & Hc). unfold SIZE_MIN, MAX_JOBS in *. unfold get_task_size_up_mode, DEFAULT_UP_MODE_POWER.
  set (c1 := if sz_cur t =? 0 then _ else _).
  assert (sz_begin t <= c1) as H1 by (unfold c1; destruct (Z.eqb_spec (sz_cur t) 0); [lia |]; destruct Hc as [Hc | Hc]; [contradiction |]; rewrite u64_id by lia; lia).
  destruct (Z.ltb_spec (sz_end t) c1); destruct (_ <=? _); destruct (_ <? _); lia.
Qed.

Lemma get_test_size_ok t fs :
  sz_ok t -> exists s c, get_test_size free_flash max_file_size t fs = Some (s, with_cur t c) /\ sz_ok (with_cur t c) /\
  (s = 0 \/ SIZE_MIN * jobs t <= s < 2 ^ 62 /\ 0 < free_flash fs).
Proof.
  intros Ht. pose proof Ht as (Hj & Hm & Hmode). unfold get_test_size. cbv zeta. set (free := free_flash fs). pose proof (Hfree0 fs) as Hfr. fold free in Hfr.
  assert (with_cur t (sz_cur t) = t) as Et by now destruct t.
  unfold SIZE_MIN, MAX_JOBS in *. unfold KB in *.
  destruct (Z.eqb_spec free 0); cbn [orb]; [exists 0, (sz_cur t); rewrite Et; auto |].
  destruct (free <=? min_free_bytes t); [exists 0, (sz_cur t); rewrite Et; auto |].
  set (last := fun (test : Z) (t : rwtask) => if test =? 0 then (0, t) else if u64 (free - test) <? min_free_bytes t then (0, t) else
    (if max_file_size <? test then max_file_size else test, t)).
  assert (forall test t', test = 0 \/ 4096 * jobs t <= test < 2 ^ 62 -> exists s, last test t' = (s, t') /\ (s = 0 \/ 4096 * jobs t <= s < 2 ^ 62 /\ 0 < free)) as Hlast.
  { intros test t' H. unfold last. destruct (Z.eqb_spec test 0); [exists 0; auto |]. destruct (_ <? _); [exists 0; auto |].
    eexists. split; [reflexivity |]. right. split; [| lia]. apply cap_size; [lia |]. unfold KB. lia. }
  destruct (mode t) eqn:E.
  - unfold get_task_size_auto_mode. destruct (auto_loop_ok 64 free (min_free_bytes t) (round_down (free / 2) KB)) as (r & Er & Hr & _).
    + rewrite round_down_KB by (apply Z.div_pos; lia). unfold KB. simpl (Z.of_nat 64). Z.to_euclidean_division_equations. lia.
    + rewrite round_down_KB by (apply Z.div_pos; lia). unfold KB. Z.to_euclidean_division_equations. lia.
    + rewrite Er. cbn [mbind option_bind].
      edestruct (Hlast (if Z.min r DEFAULT_AUTO_MODE_MAX_SIZE <? DEFAULT_AUTO_MODE_END_SIZE then 0 else Z.min r DEFAULT_AUTO_MODE_MAX_SIZE) t) as (s & Es & Hs).
      { unfold DEFAULT_AUTO_MODE_END_SIZE, DEFAULT_AUTO_MODE_MAX_SIZE, GB, MB, KB. bool_cases; lia. }
      unfold last in Es. rewrite Es. exists s, (sz_cur t). rewrite Et. auto.
  - edestruct (Hlast (get_task_size_same_mode t free) t) as (s & Es & Hs).
    { unfold get_task_size_same_mode. bool_cases; lia. }
    unfold last in Es. rewrite Es. exists s, (sz_cur t). rewrite Et. auto.
  - pose proof (up_size_ok t free Ht E) as Hup.
    edestruct (Hlast (get_task_size_up_mode t free) (with_cur t (get_task_size_up_mode t free))) as (s & Es & Hs); [lia |].
    unfold last in Es. rewrite Es. exists s, (get_task_size_up_mode t free). split; [reflexivity |]. split; [| exact Hs].
    split; [exact Hj |]. split; [exact Hm |]. unfold with_cur. cbn [mode sz_begin sz_end sz_cur jobs]. rewrite E. unfold SIZE_MIN. lia.
Qed.

(** ** Lemmas: rows of files *)

(** The files of the rows before [N] and the first [J] of row [N]. *)
Definition upto (t : rwtask) (N J a b : Z) : Prop := 0 <= a /\ 0 <= b < jobs t /\ (a < N \/ a = N /\ b < J).

(** The file system is [fs0] and the sealed files [P] stands for. *)
Definition made (t : rwtask) (P : Z -> Z -> Prop) (fs0 fs : files) : Prop :=
  (forall a b, P a b -> exists d, fs !! name t a b = Some d /\ sealed d) /\
  (forall p, (forall a b, P a b -> p <> name t a b) -> fs !! p = fs0 !! p).

Lemma made_ext t P Q fs0 fs : (forall a b, P a b <-> Q a b) -> made t P fs0 fs -> made t Q fs0 fs.
Proof. intros H [H1 H2]. split; [intros a b; rewrite <- H; apply H1 | intros p Hp; apply H2; intros a b HP; apply Hp, H, HP]. Qed.

Definition task_ok (t : rwtask) : Prop := (length (dir t) <= 40)%nat /\ 1 <= jobs t <= MAX_JOBS /\ 1 <= sz_buf t.

Definition start_ok (t : rwtask) (fs0 : files) : Prop :=
  (forall a b, 0 <= a -> 0 <= b < jobs t -> fs0 !! name t a b = None) /\
  exists src, fs0 !! org t = Some src /\ src <> [] /\ bytes_ok src.

Lemma name_eq t a b a' b' :
  task_ok t -> 0 <= a < 10 ^ 19 -> 0 <= b < jobs t -> 0 <= a' < 10 ^ 19 -> 0 <= b' < jobs t -> name t a b = name t a' b' -> a = a' /\ b = b'.
Proof. intros (_ & Hj & _) Ha Hb Ha' Hb'. unfold MAX_JOBS in Hj. apply name_inj; unfold num_ok; lia. Qed.

Context (Hfree : forall fs p d, fs !! p = None -> free_flash (<[p := d]> fs) <= Z.max 0 (free_flash fs - Z.of_nat (length d))).

Lemma create_row_ok n t fs0 fs N J bytes :
  task_ok t -> start_ok t fs0 -> 0 <= N < 10 ^ 18 -> 0 <= J -> J + Z.of_nat n <= jobs t -> 2 <= bytes < 2 ^ 62 ->
  made t (upto t N J) fs0 fs ->
  exists fs', create_row write_result bad n t fs N J bytes = Some (0, false, fs') /\ made t (upto t N (J + Z.of_nat n)) fs0 fs' /\
  free_flash fs' <= Z.max 0 (free_flash fs - Z.of_nat n * bytes).
Proof.
  intros Ht [Hnone (src & Ho & Hs & Hb)] HN. revert fs J. induction n as [| n IH]; intros fs J HJ Hn Hby Hm; cbn [create_row].
  - exists fs. rewrite Z.add_0_r, Z.mul_0_l, Z.sub_0_r. split; [reflexivity |]. split; [exact Hm | lia].
  - pose proof Ht as (Hd & Hj & Hbuf). unfold MAX_JOBS in Hj.
    rewrite testfile_name by (assumption || lia || (unfold num_ok; lia)). destruct Hm as [Hm1 Hm2].
    assert (fs !! name t N J = None) as Habs.
    { rewrite Hm2; [apply Hnone; lia |]. intros a b (Ha & Hb' & Hab) E. apply name_eq in E as [-> ->]; (assumption || lia). }
    assert (fs !! org t = Some src) as Horg.
    { rewrite Hm2; [exact Ho |]. intros a b (Ha & Hb' & Hab) E. rewrite E, Hnone in Ho by lia. discriminate. }
    unfold is_existed at 1. rewrite Habs.
    destruct (worker_ok t fs (name t N J) src bytes Horg Hs Hb Hbuf Hby Habs) as (d & Ew & Hsd & Ld). rewrite Ew. cbn [mbind option_bind fst snd].
    destruct (IH (<[name t N J := d]> fs) (J + 1)) as (fs' & E & Hm' & Hf'); [lia | lia | assumption | |].
    + split.
      * intros a b (Ha & Hb' & Hab). destruct (decide (a = N /\ b = J)) as [[-> ->] | Hne].
        { exists d. rewrite lookup_insert_eq. auto. }
        rewrite lookup_insert_ne; [apply Hm1; unfold upto; lia |]. intros Ene. apply Hne. apply name_eq in Ene as [<- <-]; (assumption || lia).
      * intros p Hp. rewrite lookup_insert_ne; [apply Hm2; intros a b (Ha & Hb' & Hab); apply Hp; unfold upto; lia |].
        intros <-. apply (Hp N J); [unfold upto; lia | reflexivity].
    + rewrite E. cbn [mbind option_bind fst snd]. change (0 =? 0) with true. cbv iota. exists fs'. split; [reflexivity |].
      split; [now replace (J + Z.of_nat (S n)) with (J + 1 + Z.of_nat n) by lia |].
      pose proof (Hfree fs (name t N J) d Habs). rewrite Ld, Z2Nat.id in H by lia. nia.
Qed.

(** Space for the rows made so far and the space that is left. *)
Definition room (free0 N free : Z) : Prop := 4096 * N + free <= free0 + 4096 /\ (0 < free -> 4096 * N + free <= free0).

Lemma room_step free0 N free free' b : room free0 N free -> 0 < free -> 4096 <= b -> 0 <= free' <= Z.max 0 (free - b) -> room free0 (N + 1) free'.
Proof. unfold room. lia. Qed.

Lemma upto_row t N a b : upto t N (jobs t) a b <-> upto t (N + 1) 0 a b.
Proof. unfold upto. lia. Qed.

Lemma create_loop_ok fuel t fs0 fs N free0 :
  task_ok t -> start_ok t fs0 -> sz_ok t -> free0 < 2 ^ 42 -> 0 <= N -> room free0 N (free_flash fs) -> made t (upto t N 0) fs0 fs ->
  (Z.to_nat (free_flash fs) <= fuel)%nat ->
  exists c N' fs', create_loop free_flash max_file_size write_result bad fuel t fs N = Some (0, with_cur t c, fs') /\
  sz_ok (with_cur t c) /\ made t (upto t N' 0) fs0 fs' /\ N <= N' <= N + Z.of_nat fuel /\ N' <= 2 ^ 30 + 1.
Proof.
  revert t fs N. induction fuel as [| fuel IH]; intros t fs N Ht Hst Hsz H0 HN Hr Hm Hf; cbn [create_loop];
    destruct (get_test_size_ok t fs Hsz) as (s & c & E & Hsz' & Hs); rewrite E; cbn [mbind option_bind].
  - pose proof (Hfree0 fs). destruct Hs as [-> | [_ Hs]]; [| lia]. exists c, N, fs. unfold room in Hr.
    split; [reflexivity |]. split; [exact Hsz' |]. split; [exact Hm |]. lia.
  - destruct (Z.eqb_spec s 0) as [-> | Hne].
    { exists c, N, fs. pose proof (Hfree0 fs). unfold room in Hr. split; [reflexivity |]. split; [exact Hsz' |]. split; [exact Hm |]. lia. }
    destruct Hs as [Hs | [Hs Hpos]]; [contradiction |]. pose proof (Hfree0 fs) as Hfs. destruct Ht as (Hd & Hj & Hbuf).
    unfold SIZE_MIN, MAX_JOBS in *. change (jobs (with_cur t c)) with (jobs t). set (b := s / jobs t). assert (4096 <= b < 2 ^ 62) as Hb by (unfold b; Z.to_euclidean_division_equations; nia).
    destruct (create_row_ok (Z.to_nat (jobs t)) (with_cur t c) fs0 fs N 0 b) as (fs' & Er & Hm' & Hf'); try assumption.
    + exact (conj Hd (conj Hj Hbuf)).
    + unfold room in Hr. lia.
    + lia.
    + cbn [jobs with_cur]. lia.
    + lia.
    + rewrite Er. cbn [mbind option_bind fst snd orb negb]. change (0 =? 0) with true. cbn [negb].
      rewrite Z2Nat.id in Hm', Hf' by lia. pose proof (Hfree0 fs') as Hfs'.
      destruct (IH (with_cur t c) fs' (N + 1)) as (c' & N' & fs'' & E' & Hsz'' & Hm'' & HN' & HN''); try assumption.
      * exact (conj Hd (conj Hj Hbuf)).
      * lia.
      * apply (room_step free0 N (free_flash fs) _ (jobs t * b)); [assumption | lia | nia | lia].
      * apply (made_ext (with_cur t c) (upto (with_cur t c) N (0 + jobs t))); [| exact Hm'].
        intros x y. rewrite Z.add_0_l. apply (upto_row (with_cur t c)).
      * nia.
      * rewrite E'. exists c', N', fs''. split; [reflexivity |]. split; [exact Hsz'' |]. split; [exact Hm'' |]. lia.
Qed.

(** ** Lemmas: checking and removing *)

Lemma check_row_ok n t fs0 fs N a J :
  task_ok t -> made t (upto t N 0) fs0 fs -> 0 <= a < N -> N <= 2 ^ 30 + 1 -> 0 <= J -> J + Z.of_nat n <= jobs t -> check_row bad n t fs a J = inr tt.
Proof.
  intros Ht [Hm _] Ha HN. revert J. induction n as [| n IH]; intros J HJ Hn; cbn [check_row]; [reflexivity |].
  pose proof Ht as (Hd & Hj & _). unfold MAX_JOBS in Hj. rewrite testfile_name by (assumption || lia || (unfold num_ok; lia)).
  destruct (Hm a J) as (d & E & Hs); [unfold upto; lia |]. rewrite E.
  destruct (check_sealed d (name t a J) Hs) as (crc & Ec & Ht'). rewrite Ec, Ht'. apply IH; lia.
Qed.

Lemma check_loop_ok fuel t fs0 fs N a :
  task_ok t -> start_ok t fs0 -> made t (upto t N 0) fs0 fs -> 0 <= a <= N -> N <= 2 ^ 30 + 1 -> (Z.to_nat (N - a) < fuel)%nat ->
  check_loop bad fuel t fs a = Some (0, with_count t N).
Proof.
  intros Ht Hst Hm. revert a. induction fuel as [| fuel IH]; intros a Ha HN Hf; [lia |]. cbn [check_loop].
  pose proof Ht as (Hd & Hj & _). unfold MAX_JOBS in Hj. destruct (Z.eq_dec a N) as [-> | Hne].
  - replace (Z.to_nat (jobs t)) with (S (Z.to_nat (jobs t - 1))) by lia. cbn [check_row].
    rewrite testfile_name by (assumption || lia || (unfold num_ok; lia)). destruct Hm as [_ Hm]. rewrite Hm.
    + destruct Hst as [Hn _]. rewrite Hn by lia. reflexivity.
    + intros x y (Hx & Hy & Hxy) E. apply name_eq in E as [<- <-]; (assumption || lia).
  - rewrite (check_row_ok _ t fs0 fs N) by (assumption || lia). apply IH; lia.
Qed.

(** Files that stand for [P], less those that stand for [Q]. *)
Lemma made_delete t P Q fs0 fs a b :
  start_ok t fs0 -> 0 <= a -> 0 <= b < jobs t -> (forall x y, Q x y <-> P x y /\ name t x y <> name t a b) ->
  made t P fs0 fs -> made t Q fs0 (delete (name t a b) fs).
Proof.
  intros [Hn _] Ha Hb HQ [H1 H2]. split.
  - intros x y [HP Hne]%HQ. rewrite lookup_delete_ne by congruence. now apply H1.
  - intros p Hp. destruct (decide (name t a b = p)) as [<- | Hne]; [rewrite lookup_delete_eq; symmetry; now apply Hn |].
    rewrite lookup_delete_ne by assumption. apply H2. intros x y HP ->. apply (Hp x y); [| reflexivity]. apply HQ. auto.
Qed.

(** The rows before [N], and of row [N] the files from [J] on. *)
Definition from (t : rwtask) (N J a b : Z) : Prop := 0 <= a /\ 0 <= b < jobs t /\ (a < N \/ a = N /\ J <= b).

Lemma remove_row_ok n t fs0 fs N J :
  task_ok t -> start_ok t fs0 -> 0 <= N <= 2 ^ 30 + 1 -> 0 <= J -> J + Z.of_nat n = jobs t -> made t (from t N J) fs0 fs ->
  exists fs', remove_row n t fs N J = (false, fs') /\ made t (upto t N 0) fs0 fs'.
Proof.
  intros Ht Hst HN. revert fs J. induction n as [| n IH]; intros fs J HJ Hn Hm; cbn [remove_row].
  - exists fs. split; [reflexivity |]. apply (made_ext t (from t N J)); [| assumption]. unfold from, upto. lia.
  - pose proof Ht as (Hd & Hj & _). unfold MAX_JOBS in Hj. rewrite testfile_name by (assumption || lia || (unfold num_ok; lia)).
    pose proof Hm as [Hm1 _]. destruct (Hm1 N J) as (d & E & _); [unfold from; lia |]. unfold is_existed. rewrite E.
    apply IH; [lia | lia |]. apply (made_delete t (from t N J)); [assumption | lia | lia | | assumption].
    intros x y. unfold from. split.
    + intros (Hx & Hy & Hxy). split; [lia |]. intros E'. apply name_eq in E' as [-> ->]; (assumption || lia).
    + intros [(Hx & Hy & Hxy) Hne]. split; [assumption |]. split; [assumption |]. destruct (decide (x = N /\ y = J)) as [[-> ->] | ]; [contradiction | lia].
Qed.

Lemma remove_loop_ok n t fs0 fs :
  task_ok t -> start_ok t fs0 -> Z.of_nat n <= 2 ^ 30 + 1 -> made t (upto t (Z.of_nat n) 0) fs0 fs -> remove_loop n t fs = fs0.
Proof.
  intros Ht Hst. revert fs. induction n as [| n IH]; intros fs Hn Hm; cbn [remove_loop].
  - apply map_eq. intros p. destruct Hm as [_ Hm]. apply Hm. unfold upto. lia.
  - pose proof Ht as (Hd & Hj & _). unfold MAX_JOBS in Hj.
    destruct (remove_row_ok (Z.to_nat (jobs t)) t fs0 fs (Z.of_nat n) 0) as (fs' & E & Hm'); try (assumption || lia).
    + apply (made_ext t (upto t (Z.of_nat (S n)) 0)); [| assumption]. unfold upto, from. lia.
    + rewrite E. apply IH; [lia | exact Hm'].
Qed.

(** ** Lemmas: rounds *)

Context (urandom : list Z) (Hrandom : urandom <> [] /\ bytes_ok urandom).

(** The files a round works on: those of the start and the origin. *)
Definition with_origin (t : rwtask) (fs0 : files) : files :=
  if set_org t then fs0 else <[org t := cyc urandom 0 (Z.to_nat DEFAULT_ORG_SIZE)]> fs0.

(** No test files; the origin is there when it was given, and only then. *)
Definition ready (t : rwtask) (fs0 : files) : Prop :=
  org t = dir t ++ lit "/rwcheck.org" /\
  (forall a b, 0 <= a -> 0 <= b < jobs t -> fs0 !! name t a b = None) /\
  (if set_org t then exists src, fs0 !! org t = Some src /\ src <> [] /\ bytes_ok src else fs0 !! org t = None) /\
  min_free_bytes t < free_flash (with_origin t fs0).

Lemma name_not_org t a b : org t = dir t ++ lit "/rwcheck.org" -> name t a b <> org t.
Proof. intros -> E. unfold name in E. apply app_inv_head in E. discriminate E. Qed.

Lemma org_nonempty t : org t = dir t ++ lit "/rwcheck.org" -> exists c l, org t = c :: l.
Proof. intros ->. destruct (dir t) as [| c l]; [now exists 47, (lit "rwcheck.org") | now exists c, (l ++ lit "/rwcheck.org")]. Qed.

Lemma origin_init_ok t fs0 : ready t fs0 -> init_orgin_file write_result urandom t fs0 = Some (0, with_origin t fs0) /\ start_ok t (with_origin t fs0).
Proof.
  intros (Ho & Hn & Horg & _). unfold init_orgin_file, with_origin. destruct (org_nonempty t Ho) as (c & l & Ec). rewrite Ec. rewrite <- Ec.
  destruct (set_org t); [split; [reflexivity | split; assumption] |]. unfold is_existed. rewrite Horg. destruct Hrandom as [Hr Hrb].
  rewrite (copy_loop_cyc _ (org t) urandom 0 0) by (assumption || (unfold DEFAULT_ORG_SIZE, KB; lia)). cbn [mbind option_bind fst snd app].
  rewrite length_cyc, Nat.sub_diag, app_nil_r. split; [reflexivity |]. split.
  - intros a b Ha Hb. rewrite lookup_insert_ne by (intros E; symmetry in E; revert E; now apply name_not_org). now apply Hn.
  - exists (cyc urandom 0 (Z.to_nat DEFAULT_ORG_SIZE)). rewrite lookup_insert_eq. split; [reflexivity |]. split; [| now apply cyc_bytes].
    intros E%(f_equal length). rewrite length_cyc in E. unfold DEFAULT_ORG_SIZE, KB in E. cbn [length] in E. lia.
Qed.

Lemma deinit_ok t fs0 : ready t fs0 -> deinit_orgin_file t (with_origin t fs0) = fs0.
Proof.
  intros (_ & _ & Horg & _). unfold deinit_orgin_file, with_origin. destruct (set_org t); [reflexivity |]. now apply delete_insert_id.
Qed.

(** A round of a ready task. *)
Lemma round_ok fuel t fs0 :
  task_ok t -> sz_ok t -> ready t fs0 -> (Z.to_nat (free_flash (with_origin t fs0)) <= fuel)%nat ->
  exists c N, round free_flash max_file_size write_result bad urandom fuel t fs0 = Some (0, with_count (with_cur t c) N, fs0) /\
  sz_ok (with_cur t c) /\ 0 <= N.
Proof.
  intros Ht Hsz Hr Hf. destruct (origin_init_ok t fs0 Hr) as [Ei Hst]. unfold round. rewrite Ei. cbn [mbind option_bind]. change (0 =? 0) with true. cbn [negb].
  unfold do_create. set (t0 := match mode t with UP_MODE => with_cur t 0 | _ => t end).
  assert (exists c, t0 = with_cur t c /\ sz_ok (with_cur t c)) as (c0 & -> & Hsz0).
  { unfold t0. pose proof Hsz as (Hj & Hm & H). destruct (mode t) eqn:E; [exists (sz_cur t); destruct t; now split .. |].
    exists 0. split; [reflexivity |]. unfold sz_ok, with_cur. cbn [mode jobs min_free_bytes sz_begin sz_end sz_cur]. rewrite E. tauto. }
  pose proof (Hfree0 (with_origin t fs0)) as H0.
  destruct (create_loop_ok fuel (with_cur t c0) (with_origin t fs0) (with_origin t fs0) 0 (free_flash (with_origin t fs0)))
    as (c & N & fs' & Ec & Hsz' & Hm & HN & HN'); try assumption; try lia.
  { unfold room. lia. }
  { split; [unfold upto; lia | reflexivity]. }
  rewrite Ec. change (with_cur (with_cur t c0) c) with (with_cur t c) in *. cbn [mbind option_bind]. change (0 =? 0) with true. cbn [negb].
  unfold do_check. rewrite (check_loop_ok _ (with_cur t c) (with_origin t fs0) fs' N) by (assumption || lia). cbn [mbind option_bind].
  change (0 =? 0) with true. cbn [negb]. unfold do_remove. rewrite (remove_loop_ok _ (with_count (with_cur t c) N) (with_origin t fs0)); try assumption.
  - cbn [min_free_bytes with_count with_cur]. pose proof Hr as (_ & _ & _ & Hfr). destruct (Z.leb_spec (free_flash (with_origin t fs0)) (min_free_bytes t)); [lia |].
    cbn [negb]. change (0 =? 0) with true. cbn [negb]. exists c, N. split; [| split; [assumption | lia]].
    change (deinit_orgin_file (with_count (with_cur t c) N)) with (deinit_orgin_file t). now rewrite deinit_ok.
  - cbn [count with_count]. rewrite s32_id by lia. lia.
  - cbn [count with_count]. rewrite s32_id, Z2Nat.id by lia. exact Hm.
Qed.

(** ** Properties *)

(** C19: For a directory name of at most 40 bytes ([remove_long_path]), a legal number of jobs and sizes
    that give each file a page: from a directory without test files, with or without a file of its own to copy, and
    with more free space than is to stay free, any number of rounds runs to the end and leaves the file system as it
    was: the test files created have room, pass the check and are removed.  The device works: writes are
    complete, no read fails, the source of random bytes gives some, a file may have 64 KB, there is free space for less than 2^42 bytes,
    and a new file takes at least its length from it. *)
Theorem rounds_leave_no_trace n fuel t fs0 :
  task_ok t -> sz_ok t -> ready t fs0 -> (Z.to_nat (free_flash (with_origin t fs0)) <= fuel)%nat ->
  exists t', begin_ free_flash max_file_size write_result bad urandom n fuel t fs0 = Some (0, t', fs0).
Proof.
  intros Ht. revert t Ht. induction n as [| n IH]; intros t Ht Hsz Hr Hf; cbn [begin_]; [now exists t |].
  destruct (round_ok fuel t fs0 Ht Hsz Hr Hf) as (c & N & E & Hsz' & _). rewrite E. cbn [mbind option_bind]. change (0 =? 0) with true. cbn [negb].
  apply IH; assumption.
Qed.

(** The copy is its input repeated from the start, whatever the size of the buffer. *)
Theorem copy_repeats fs input output src size buf :
  fs !! input = Some src -> src <> [] -> 1 <= buf -> 0 <= size < 2 ^ 64 ->
  exists d, copy_file write_result fs input output size buf = Some (0, <[output := d]> fs) /\
  length d = Z.to_nat size /\ forall i, (i < Z.to_nat size)%nat -> nth i d 0 = nth (i mod length src) src 0.
Proof.
  intros E Hs Hb Hz. exists (cyc src 0 (Z.to_nat size)). rewrite (copy_file_cyc fs input output src) by assumption.
  split; [reflexivity |]. split; [apply length_cyc |]. intros i Hi. unfold cyc.
  rewrite (nth_indep _ 0 (nth (0 mod length src) src 0)) by (rewrite length_map, length_seq; assumption).
  now rewrite (map_nth (fun i => nth (i mod length src) src 0)), seq_nth.
Qed.

(** The size of the next file is found in every mode; a file of that size leaves the space
    that is to stay free and is one the file system can hold.  Mode up: the first size has
    to be within the free space. *)
Theorem test_size_fits t fs :
  0 <= min_free_bytes t -> 0 <= sz_cur t < 2 ^ 62 -> 0 <= sz_begin t -> 0 <= max_file_size ->
  (mode t = UP_MODE -> sz_begin t <= free_flash fs) ->
  exists s t', get_test_size free_flash max_file_size t fs = Some (s, t') /\
  (s = 0 \/ 0 < s /\ min_free_bytes t <= free_flash fs - s) /\ 0 <= s <= max_file_size.
Proof.
  intros Hm Hc Hb Hx Hup. pose proof (Hfree0 fs) as Hfr. unfold get_test_size. cbv zeta. set (free := free_flash fs) in *.
  destruct (Z.eqb_spec free 0); cbn [orb]; [exists 0, t; split; [reflexivity | lia] |].
  destruct (free <=? min_free_bytes t) eqn:Hle; [exists 0, t; split; [reflexivity | lia] |].
  set (last := fun (test : Z) (t' : rwtask) => if test =? 0 then (0, t') else if u64 (free - test) <? min_free_bytes t' then (0, t') else
    (if max_file_size <? test then max_file_size else test, t')).
  assert (forall test t', 0 <= test <= free -> min_free_bytes t' = min_free_bytes t -> exists s t'', Some (last test t') = Some (s, t'') /\
    (s = 0 \/ 0 < s /\ min_free_bytes t <= free - s) /\ 0 <= s <= max_file_size) as Hlast.
  { intros test t' H Ht. unfold last. rewrite Ht. destruct (Z.eqb_spec test 0); [exists 0, t'; split; [reflexivity | lia] |].
    rewrite u64_sub by lia. destruct (Z.ltb_spec (free - test) (min_free_bytes t)); [exists 0, t'; split; [reflexivity | lia] |].
    eexists _, t'. split; [reflexivity |]. destruct (Z.ltb_spec max_file_size test); lia. }
  destruct (mode t) eqn:E.
  - unfold get_task_size_auto_mode. destruct (auto_loop_ok 64 free (min_free_bytes t) (round_down (free / 2) KB)) as (r & Er & Hr & _).
    + rewrite round_down_KB by (apply Z.div_pos; lia). unfold KB. simpl (Z.of_nat 64). Z.to_euclidean_division_equations. lia.
    + rewrite round_down_KB by (apply Z.div_pos; lia). unfold KB. Z.to_euclidean_division_equations. lia.
    + rewrite Er. cbn [mbind option_bind]. apply Hlast; [| reflexivity]. rewrite round_down_KB in Hr by (apply Z.div_pos; lia).
      assert (0 <= r <= free) as Hr' by (unfold KB in Hr; Z.to_euclidean_division_equations; lia). clear Hr Er.
      unfold DEFAULT_AUTO_MODE_END_SIZE, DEFAULT_AUTO_MODE_MAX_SIZE, GB, MB, KB. bool_cases; lia.
  - apply Hlast; [| reflexivity]. unfold get_task_size_same_mode. bool_cases; lia.
  - apply Hlast; [| reflexivity]. specialize (Hup eq_refl). unfold get_task_size_up_mode, DEFAULT_UP_MODE_POWER.
    rewrite (u64_id (sz_cur t * 2)) by lia. set (c1 := if sz_cur t =? 0 then _ else _).
    assert (0 <= c1) as H1 by (unfold c1; bool_cases; lia). clearbody c1. bool_cases; lia.
Qed.

(** Mode up with a first size above the free space: the difference of the two wraps, and the
    size is returned all the same. *)
Theorem up_size_wraps t fs :
  mode t = UP_MODE -> 0 <= min_free_bytes t < free_flash fs -> free_flash fs < sz_begin t <= sz_end t -> sz_end t <= max_file_size ->
  sz_end t < 2 ^ 62 -> sz_cur t = 0 ->
  get_test_size free_flash max_file_size t fs = Some (sz_begin t, with_cur t (sz_begin t)).
Proof.
  intros E Hm Hb He H62 Hc. pose proof (Hfree0 fs) as Hfr. unfold get_test_size. cbv zeta.
  assert (u64 (free_flash fs - sz_begin t) = 2 ^ 64 + (free_flash fs - sz_begin t)) as Hu.
  { unfold u64. symmetry. apply Z.mod_unique with (q := -1); lia. }
  assert (get_task_size_up_mode t (free_flash fs) = sz_begin t) as ->.
  { unfold get_task_size_up_mode. rewrite Hc, Z.eqb_refl. bool_cases; reflexivity. }
  rewrite E. cbn [min_free_bytes with_cur]. rewrite Hu. bool_cases; (reflexivity || lia).
Qed.

(** Whether the last two bytes are the checksum of the rest. *)
Definition sealed_b (d : list Z) : bool := check_crc16 (crc16_end (crc16_common CRC_INIT d)).

(** Rows 0 to [N - 1] of files are there, and nothing of row [N]. *)
Definition rows (t : rwtask) (fs : files) (N : Z) : Prop :=
  (forall a b, 0 <= a < N -> 0 <= b < jobs t -> exists d, fs !! name t a b = Some d /\ Z.of_nat (length d) < 2 ^ 63) /\
  (forall b, 0 <= b < jobs t -> fs !! name t N b = None).

Lemma check_row_exact n t fs N a J :
  task_ok t -> rows t fs N -> 0 <= a < N -> N <= 2 ^ 31 -> 0 <= J -> J + Z.of_nat n <= jobs t ->
  (check_row bad n t fs a J = inl (-1, t) /\ a < N - 1 /\ exists b d, J <= b < J + Z.of_nat n /\ fs !! name t a b = Some d /\ sealed_b d = false) \/
  (check_row bad n t fs a J = inr tt /\ (a < N - 1 -> forall b d, J <= b < J + Z.of_nat n -> fs !! name t a b = Some d -> sealed_b d = true)).
Proof.
  intros Ht [Hr Hn] Ha HN. revert J. induction n as [| n IH]; intros J HJ HnJ; cbn [check_row]; [right; split; [reflexivity |]; intros; lia |].
  pose proof Ht as (Hd & Hj & _). unfold MAX_JOBS in Hj. rewrite !testfile_name by (assumption || lia || (unfold num_ok; lia)).
  destruct (Hr a J) as (d & E & Hl); [lia .. |]. rewrite E, get_crc16_by_path_spec by (rewrite ?CRC16_MAX_BYTES_eq; lia || apply Hbad).
  destruct (IH (J + 1)) as [(E' & Ha' & b & d' & Hb & Hlook & Hs) | [E' Hall]]; [lia | lia | |]; fold (sealed_b d); destruct (sealed_b d) eqn:Hsd.
  - left. split; [assumption |]. split; [assumption |]. exists b, d'. split; [lia | auto].
  - unfold is_existed. destruct (Hr (a + 1) J) as (d2 & -> & _); [lia .. |]. left. split; [reflexivity |]. split; [assumption |].
    exists J, d. split; [lia | auto].
  - right. split; [assumption |]. intros Ha' b d' Hb Hlook. destruct (Z.eq_dec b J) as [-> | Hne]; [congruence |]. apply (Hall Ha' b); [lia | assumption].
  - unfold is_existed. destruct (Z.eq_dec a (N - 1)) as [-> | Hne].
    + replace (N - 1 + 1) with N by lia. rewrite Hn by lia. right. split; [assumption | lia].
    + destruct (Hr (a + 1) J) as (d2 & -> & _); [lia .. |]. left. split; [reflexivity |]. split; [lia |]. exists J, d. split; [lia | auto].
Qed.

Lemma check_loop_exact fuel t fs N a :
  task_ok t -> rows t fs N -> 0 <= a <= N -> N <= 2 ^ 31 -> (Z.to_nat (N - a) < fuel)%nat ->
  (check_loop bad fuel t fs a = Some (-1, t) /\ exists i b d, a <= i < N - 1 /\ 0 <= b < jobs t /\ fs !! name t i b = Some d /\ sealed_b d = false) \/
  (check_loop bad fuel t fs a = Some (0, with_count t N) /\ forall i b d, a <= i < N - 1 -> 0 <= b < jobs t -> fs !! name t i b = Some d -> sealed_b d = true).
Proof.
  intros Ht Hr. revert a. induction fuel as [| fuel IH]; intros a Ha HN Hf; [lia |]. cbn [check_loop].
  pose proof Ht as (Hd & Hj & _). unfold MAX_JOBS in Hj. destruct (Z.eq_dec a N) as [-> | Hne].
  - right. split; [| lia]. replace (Z.to_nat (jobs t)) with (S (Z.to_nat (jobs t - 1))) by lia. cbn [check_row].
    rewrite testfile_name by (assumption || lia || (unfold num_ok; lia)). destruct Hr as [_ ->]; [reflexivity | lia].
  - destruct (check_row_exact (Z.to_nat (jobs t)) t fs N a 0 Ht Hr) as [(E & Ha' & b & d & Hb & Hl & Hs) | [E Hall]]; [lia .. | |]; rewrite E.
    + left. split; [reflexivity |]. exists a, b, d. split; [lia |]. split; [lia | auto].
    + destruct (IH (a + 1)) as [(E' & i & b & d & Hi & Hb & Hl & Hs) | [E' Hall']]; [lia .. | |]; rewrite E'.
      * left. split; [reflexivity |]. exists i, b, d. split; [lia | auto].
      * right. split; [reflexivity |]. intros i b d Hi Hb Hl. destruct (Z.eq_dec i a) as [-> | Hne']; [apply (Hall ltac:(lia) b); [lia | assumption] | apply (Hall' i b); [lia | assumption ..]].
Qed.

(** C39: The check of rows of readable files ends.  It fails exactly when a file of a row before
    the last is not sealed; what is wrong in the last row is put down to the space having
    run out. *)
Theorem check_exact t fs N :
  task_ok t -> rows t fs N -> 0 <= N <= 2 ^ 31 ->
  (do_check bad (S (Z.to_nat N)) t fs = Some (-1, t) /\
     exists i b d, 0 <= i < N - 1 /\ 0 <= b < jobs t /\ fs !! name t i b = Some d /\ sealed_b d = false) \/
  (do_check bad (S (Z.to_nat N)) t fs = Some (0, with_count t N) /\
     forall i b d, 0 <= i < N - 1 -> 0 <= b < jobs t -> fs !! name t i b = Some d -> sealed_b d = true).
Proof. intros Ht Hr HN. apply check_loop_exact; (assumption || lia). Qed.

(** A directory whose name fills the 100 bytes [do_remove] has for a path: nothing is removed. *)
Theorem remove_long_path t fs :
  (99 <= length (dir t))%nat -> 1 <= jobs t -> fs !! take 99 (dir t) = None -> snd (do_remove free_flash t fs) = fs.
Proof.
  intros Hd Hj Hn. unfold do_remove.
  assert (forall n, remove_loop n t fs = fs) as H.
  { intros [| n]; cbn [remove_loop]; [reflexivity |]. replace (Z.to_nat (jobs t)) with (S (Z.to_nat (jobs t - 1))) by lia. cbn [remove_row].
    unfold testfile, is_existed. change (pred 100) with 99%nat. rewrite take_app_le, Hn by (cbn; lia). reflexivity. }
  rewrite H. now destruct (_ <=? _).
Qed.
End Clean.

(** ** Witnesses *)

Definition used (fs : files) : Z := map_fold (fun _ (d : list Z) n => Z.of_nat (length d) + n) 0 fs.
Definition space (total : Z) (fs : files) : Z := Z.max 0 (total - used fs).

Lemma used_insert fs p d : fs !! p = None -> used (<[p := d]> fs) = Z.of_nat (length d) + used fs.
Proof. intros H. unfold used. rewrite map_fold_insert_L; [reflexivity | intros; lia | assumption]. Qed.

Lemma used_nonneg fs : 0 <= used fs.
Proof.
  induction fs as [| p d fs Hp IH] using map_ind; [reflexivity |]. rewrite used_insert by assumption. lia.
Qed.

Lemma space_range total fs : total < 2 ^ 42 -> 0 <= space total fs < 2 ^ 42.
Proof. intros H. pose proof (used_nonneg fs). unfold space. lia. Qed.

Lemma space_law total fs p d : fs !! p = None -> space total (<[p := d]> fs) <= Z.max 0 (space total fs - Z.of_nat (length d)).
Proof. intros H. unfold space. rewrite used_insert by assumption. lia. Qed.

Definition works (p : list Z) (i : nat) (n : Z) : Z := n.
Definition no_bad (p : list Z) (i : Z) : bool := false.

(** Two workers, files of 8 KB a row and up. *)
Definition up_task : rwtask := Task UP_MODE 1000 (lit "/t") (lit "/t/rwcheck.org") false 2 20 1 0 8192 65536 0 512.

Lemma rounds_leave_no_trace_witness :
  ready (space 200000) [7; 9; 1] up_task ∅ /\
  exists t', begin_ (space 200000) (64 * KB) works no_bad [7; 9; 1] 3 (Z.to_nat 200000) up_task ∅ = Some (0, t', ∅).
Proof.
  assert (ready (space 200000) [7; 9; 1] up_task ∅) as Hr.
  { split; [reflexivity |]. split; [intros; apply lookup_empty |]. split; [apply lookup_empty |].
    unfold with_origin. cbn [set_org up_task]. unfold space. rewrite used_insert, length_cyc by apply lookup_empty. by_compute. }
  split; [exact Hr |].
  apply (rounds_leave_no_trace (space 200000) (64 * KB) works no_bad); [reflexivity | reflexivity | reflexivity | | | | | | exact Hr |].
  - intros fs. now apply space_range.
  - intros fs p d. apply space_law.
  - split; [discriminate | repeat constructor; by_compute].
  - split; [by_compute |]. split; by_compute.
  - split; [by_compute |]. split; [by_compute |]. cbn [mode up_task]. split; [by_compute |]. split; [by_compute |]. now left.
  - apply Z2Nat.inj_le; [apply space_range; reflexivity | lia |]. unfold space. pose proof (used_nonneg (with_origin [7; 9; 1] up_task ∅)). lia.
Defined.

Lemma copy_repeats_witness :
  exists d, copy_file works {[ [1] := [7; 8; 9] ]} [1] [2] 8 3 = Some (0, <[ [2] := d ]> {[ [1] := [7; 8; 9] ]}) /\
  length d = Z.to_nat 8 /\ forall i, (i < Z.to_nat 8)%nat -> nth i d 0 = nth (i mod 3) [7; 8; 9] 0.
Proof.
  apply (copy_repeats works (fun _ _ _ => eq_refl) {[ [1] := [7; 8; 9] ]} [1] [2] [7; 8; 9] 8 3); [reflexivity | discriminate | by_compute | by_compute].
Defined.

Lemma test_size_fits_witness :
  exists s t', get_test_size (space 200000) (64 * KB) up_task ∅ = Some (s, t') /\
  (s = 0 \/ 0 < s /\ 1000 <= space 200000 ∅ - s) /\ 0 <= s <= 64 * KB.
Proof.
  apply (test_size_fits (space 200000) (64 * KB)); [intros fs; now apply space_range | by_compute | by_compute | by_compute | by_compute | intros _; by_compute].
Defined.

Lemma up_size_wraps_witness :
  get_test_size (space 5000) (64 * KB) up_task ∅ = Some (8192, with_cur up_task 8192) /\ space 5000 ∅ = 5000.
Proof.
  split; [| reflexivity].
  apply (up_size_wraps (space 5000) (64 * KB)); [intros fs; now apply space_range | reflexivity | by_compute | by_compute | by_compute | by_compute | reflexivity].
Defined.

(** Two rows of two files, the first of which is not sealed. *)
Definition spoilt : files :=
  <[name up_task 0 0 := [1; 2; 3]]> (<[name up_task 0 1 := [0; 0]]> (<[name up_task 1 0 := [0; 0]]> {[name up_task 1 1 := [0; 0]]})).

Lemma check_exact_witness :
  do_check no_bad 3 up_task spoilt = Some (-1, up_task) /\
  ((do_check no_bad (S (Z.to_nat 2)) up_task spoilt = Some (-1, up_task) /\
     exists i b d, 0 <= i < 2 - 1 /\ 0 <= b < jobs up_task /\ spoilt !! name up_task i b = Some d /\ sealed_b d = false) \/
  (do_check no_bad (S (Z.to_nat 2)) up_task spoilt = Some (0, with_count up_task 2) /\
     forall i b d, 0 <= i < 2 - 1 -> 0 <= b < jobs up_task -> spoilt !! name up_task i b = Some d -> sealed_b d = true)).
Proof.
  split; [vm_compute; reflexivity |].
  apply (check_exact no_bad (fun _ _ => eq_refl) up_task spoilt 2); [split; [by_compute | split; by_compute] | | lia].
  split.
  - intros a b Ha Hb. cbn [jobs up_task] in Hb.
    assert (a = 0 \/ a = 1) as [-> | ->] by lia; (assert (b = 0 \/ b = 1) as [-> | ->] by lia); eexists; (split; [vm_compute; reflexivity | by_compute]).
  - intros b Hb. cbn [jobs up_task] in Hb. assert (b = 0 \/ b = 1) as [-> | ->] by lia; vm_compute; reflexivity.
Defined.

Definition long_task : rwtask := Task SAME_MODE 1000 (replicate 100 97) (lit "o") true 1 20 1 5 0 0 4096 512.

Lemma remove_long_path_witness :
  snd (do_remove (space 5000) long_task {[ testfile long_task 128 0 0 := [1] ]}) = {[ testfile long_task 128 0 0 := [1] ]}.
Proof. apply (remove_long_path (space 5000) long_task); [by_compute | by_compute | vm_compute; reflexivity]. Defined.

(** ** Lemmas: arguments *)

Lemma str_to_size_range str v : str_to_size str = Some (Some v) -> 1 <= v < 2 ^ 64.
Proof.
  unfold str_to_size. destruct (List.last _ _) as [c |]; [| discriminate]. cbn [mbind option_bind].
  assert (LONG_MIN <= atol str <= LONG_MAX) as Ha.
  { unfold atol. assert (forall x, LONG_MIN <= Z.max LONG_MIN (Z.min LONG_MAX x) <= LONG_MAX) as H by (unfold LONG_MIN, LONG_MAX; lia).
    repeat match goal with |- context [match ?p with _ => _ end] => destruct p; try apply H end. }
  unfold LONG_MIN, LONG_MAX in Ha. set (a := atol str) in *. clearbody a.
  assert (forall m, 1 <= m <= GB -> u64 a <> 0 -> 1 <= u64 (u64 a * m) < 2 ^ 64) as Hm.
  { unfold GB, MB, KB. intros m Hm H0. assert (u64 (u64 a * m) = (a * m) mod 2 ^ 64) as -> by (unfold u64; now rewrite Z.mul_mod_idemp_l by lia).
    assert (- 2 ^ 61 <= a * m < 2 ^ 61 /\ a * m <> 0) as [Hb Hn].
    { split; [nia |]. intros [-> | ->]%Z.mul_eq_0; [now apply H0 | lia]. }
    generalize dependent (a * m). intros x Hb Hn. destruct (Z.ltb_spec x 0).
    - assert (x mod 2 ^ 64 = x + 2 ^ 64) as ->; [symmetry; apply Z.mod_unique with (q := -1); lia | lia].
    - rewrite Z.mod_small; lia. }
  assert (0 <= u64 a < 2 ^ 64) as Hr by (apply Z.mod_pos_bound; lia).
  destruct (Z.eqb_spec (u64 a) 0) as [| H0]; [discriminate |].
  repeat match goal with |- context [if ?b then _ else _] => destruct b end; intros [= <-];
    try (apply Hm; [unfold GB, MB, KB; lia | assumption]). lia.
Qed.

(** What every option keeps. *)
Definition args_ok (t : rwtask) : Prop :=
  1 <= jobs t <= MAX_JOBS /\ 0 <= percent t <= 99 /\ 1 <= times t < 2 ^ 32 /\ 1 <= sz_buf t < 2 ^ 64 /\
  (mode t = AUTO_MODE -> sz_begin t = 0 /\ sz_end t = 0 /\ sz_cur t = 0).

Lemma parse_opt_keeps is_dir abs_path fs t c optarg t' :
  args_ok t -> parse_opt is_dir abs_path fs t c optarg = Some (inr t') -> args_ok t'.
Proof.
  destruct t as [m f d o so j p n k b e s u]. intros (Hj & Hp & Hn & Hu & Hm). cbn in Hj, Hp, Hn, Hu, Hm. unfold parse_opt.
  assert (forall g, (r ← str_to_size optarg; Some (match r with None => inl (-1) | Some v => inr (g v) end)) = Some (inr t') ->
    exists v, 1 <= v < 2 ^ 64 /\ t' = g v) as Hs.
  { intros g H. destruct (str_to_size optarg) as [[v |] |] eqn:E; cbn [mbind option_bind] in H; try discriminate. injection H as <-.
    exists v. split; [exact (str_to_size_range _ _ E) | reflexivity]. }
  cbv zeta. intros H. pose proof (Z.mod_pos_bound (atol optarg) (2 ^ 32) eq_refl).
  repeat match type of H with
  | (if ?b then _ else _) = _ => destruct b
  | Some (if ?b then _ else _) = _ => destruct b eqn:?
  | Some (match ?x with _ => _ end) = _ => destruct x
  | match m with _ => _ end = _ => destruct m
  | mbind _ _ = _ => apply Hs in H as (v & Hv & ->)
  end; try discriminate; try (injection H as <-); unfold args_ok; cbn;
    (split; [try assumption; lia |]); (split; [try assumption; lia |]); (split; [try assumption; unfold u32 in *; try lia |]);
    try (split; [assumption | (exact Hm || discriminate)]).
Qed.

Lemma parse_args_keeps is_dir abs_path fs opts t t' :
  args_ok t -> parse_args is_dir abs_path fs t opts = Some (inr t') -> args_ok t'.
Proof.
  revert t. induction opts as [| [c o] opts IH]; intros t Ht H; cbn [parse_args] in H; [now injection H as <- |].
  destruct (parse_opt is_dir abs_path fs t c o) as [[code | t1] |] eqn:E; cbn [mbind option_bind] in H; try discriminate.
  apply (IH t1); [| assumption]. exact (parse_opt_keeps _ _ _ _ _ _ _ Ht E).
Qed.

(** What is run on any command line that is accepted: between 1 and 10 workers, at least
    one round, a buffer of fewer than 16 MB that is not empty, sizes in order and within what
    the file system can hold.  The file to copy is [rwcheck.org] of the directory, whatever
    [-i] says. *)
Theorem accepted_args max_file_size total_flash free_ddr is_dir abs_path total_ddr pwd opts fs t t' :
  parse_args is_dir abs_path fs (init_rwtask total_ddr pwd) opts = Some (inr t) ->
  check_args max_file_size total_flash free_ddr t fs = Some t' ->
  1 <= jobs t' <= MAX_JOBS /\ 0 <= percent t' <= 99 /\ 1 <= times t' < 2 ^ 32 /\ 1 <= sz_buf t' < 16 * MB /\
  org t' = take 1023 (dir t' ++ lit "/rwcheck.org") /\
  match mode t' with
  | AUTO_MODE => True
  | SAME_MODE => sz_cur t' <= max_file_size
  | UP_MODE => sz_begin t' <= sz_end t' <= max_file_size
  end.
Proof.
  intros Hp Hc. apply parse_args_keeps in Hp as (Hj & Hpc & Hn & Hu & _).
  2: { unfold args_ok, init_rwtask, DEFAULT_JOBS, DEFAULT_PERCENT, DEFAULT_TIMES, MAX_JOBS. cbn [jobs percent times sz_buf mode sz_begin sz_end sz_cur].
       unfold DEFAULT_LARGE_BUF_SIZE, DEFAULT_SMALL_BUF_SIZE, MB, KB. destruct (_ <? _); repeat split; lia. }
  unfold check_args in Hc. destruct (Z.leb_spec (16 * MB) (sz_buf t)); [discriminate |]. destruct (_ <=? _); [discriminate |]. cbv zeta in Hc.
  destruct (mode t) eqn:E; repeat match type of Hc with (if ?b then None else _) = _ => destruct b eqn:? end; try discriminate;
    injection Hc as <-; cbn [mode jobs percent times sz_buf org dir sz_begin sz_end sz_cur]; rewrite ?E;
    repeat (split; [first [assumption | lia | reflexivity] |]); bool_cases; lia || exact I.
Qed.

Definition some_args : list (Z * list Z) := [(106, lit "4"); (98, lit "8k"); (105, lit "/x")].

Lemma accepted_args_witness :
  exists t t', parse_args (fun _ => true) Some {[lit "/x" := [1]; lit "/t/rwcheck.org" := [2]]} (init_rwtask (100 * MB) (lit "/t")) some_args = Some (inr t) /\
  check_args (2 * GB) (8 * GB) (100 * MB) t {[lit "/x" := [1]; lit "/t/rwcheck.org" := [2]]} = Some t' /\
  org t = lit "/x" /\ org t' = lit "/t/rwcheck.org" /\
  (1 <= jobs t' <= MAX_JOBS /\ 0 <= percent t' <= 99 /\ 1 <= times t' < 2 ^ 32 /\ 1 <= sz_buf t' < 16 * MB /\
   org t' = take 1023 (dir t' ++ lit "/rwcheck.org") /\
   match mode t' with AUTO_MODE => True | SAME_MODE => sz_cur t' <= 2 * GB | UP_MODE => sz_begin t' <= sz_end t' <= 2 * GB end).
Proof.
  eexists _, _. split; [vm_compute; reflexivity |]. split; [vm_compute; reflexivity |]. split; [reflexivity |]. split; [reflexivity |].
  apply (accepted_args (2 * GB) (8 * GB) (100 * MB) (fun _ => true) Some (100 * MB) (lit "/t") some_args {[lit "/x" := [1]; lit "/t/rwcheck.org" := [2]]}
    (Task UP_MODE 0 (lit "/t") (lit "/x") true 4 95 1 0 8192 0 0 (8 * MB))); vm_compute; reflexivity.
Defined.
