(* ===== verification/Ion.v ===== *)
(** * Ion: the buffer allocator of libawion

    Models [allwinner/common/libawion/src/ion_alloc.c]: the context with its reference
    count, the list of the buffers, allocation (plain and secure), release, translation
    between virtual and physical addresses, lookup by descriptor, merging and the path of
    the IOMMU device.  The two build options, a kernel before 5.4 and an IOMMU, are
    variables.  The kernel is a function from the calls made so far, with their replies, to
    the reply of the next call, and what the process holds is computed from the calls.
    [unsigned long] has 32 bits.  The links of the buffer list are left out: it is the
    sequence of its nodes.  Freed memory is not tracked. *)
From stdpp Require Import gmap.
From Stdlib Require Import String.
From S2P Require Import Prelude CString.

(** ** The kernel *)

(** What is asked of a device: the commands of [ioctl] with what they are given. *)
Inductive req :=
  | ION_IOC_ALLOC (len mask flags : Z)
  | ION_IOC_MAP (handle : Z)
  | ION_IOC_NEW_ALLOC (len mask flags : Z)
  | ION_IOC_FREE (handle : Z)
  | PHYS_ADDR (handle size : Z)
  | TEE_ADDR (handle size : Z)
  | POOL_INFO
  | ENGINE_REQ
  | ENGINE_REL
  | GET_IOMMU_ADDR (fd : Z)
  | FREE_IOMMU_ADDR (fd : Z)
  | MERGE_IOMMU_ADDR (fds : list Z)
  | UNMERGE_IOMMU_ADDR (addr : Z)
  | FLUSH_RANGE (start end_ : Z)
  | FLUSH_ALL.

Inductive call :=
  | Malloc
  | OpenIon
  | OpenIommu (path : list Z)
  | Close (fd : Z)
  | Mmap (len fd : Z)
  | Munmap (addr len : Z)
  | Ioctl (dev : Z) (r : req).

(** The result, and what [ioctl] leaves in the structure (handle, descriptor or address). *)
Record reply := Reply { ret : Z; val : Z }.

(** The calls, the last one first. *)
Abbreviation history := (list (call * reply)).

#[global] Instance req_eq_dec : EqDecision req.
Proof. solve_decision. Defined.
#[global] Instance call_eq_dec : EqDecision call.
Proof. solve_decision. Defined.

(** ** State *)

Record buffer_node := Node {
  phy : Z;
  vir : Z;
  size : Z;
  tee : Z;
  user_virt : Z;
  handle : Z;
  aw_fd : Z;
  fd_closed : Z;
}.

#[global] Instance buffer_node_eq_dec : EqDecision buffer_node.
Proof. solve_decision. Defined.

Record ion_alloc_context := Context_ {
  fd : Z;
  iommu_dev_fd : Z;
  list_ : list buffer_node;
  ref_cnt : Z;
}.

Record st := St {
  g_ion_alloc_context : option ion_alloc_context;
  locked : bool;
  iommu_dev_path : list Z;
  hist : history;
}.

Definition start : st := St None false (lit "/dev/cedar_dev" ++ replicate 18 0) [].

(** [None] is a fault: a dereference of [NULL], an access outside an array, a lock that
    is held. *)
Definition M (A : Type) : Type := st -> option (A * st).

#[global] Instance M_ret : MRet M := fun A x s => Some (x, s).
#[global] Instance M_bind : MBind M := fun A B k m s => match m s with Some (x, s') => k x s' | None => None end.

Definition fault {A} : M A := fun _ => None.
Definition get {A} (f : st -> A) : M A := fun s => Some (f s, s).
Definition lock : M unit := fun s => if locked s then None else Some (tt, St (g_ion_alloc_context s) true (iommu_dev_path s) (hist s)).
Definition unlock : M unit := fun s => Some (tt, St (g_ion_alloc_context s) false (iommu_dev_path s) (hist s)).
Definition set_ctx (c : option ion_alloc_context) : M unit := fun s => Some (tt, St c (locked s) (iommu_dev_path s) (hist s)).

Definition set_path (p : list Z) : M unit := fun s => Some (tt, St (g_ion_alloc_context s) (locked s) p (hist s)).

(** [g_ion_alloc_context->...]. *)
Definition deref : M ion_alloc_context :=
  c ← get g_ion_alloc_context; match c with Some c => mret c | None => fault end.

Definition with_list (c : ion_alloc_context) (l : list buffer_node) : ion_alloc_context := Context_ (fd c) (iommu_dev_fd c) l (ref_cnt c).
Definition with_ref (c : ion_alloc_context) (n : Z) : ion_alloc_context := Context_ (fd c) (iommu_dev_fd c) (list_ c) n.

(** The first node of the list [f] holds of; the list without it; the list with it changed. *)
Fixpoint del_first (f : buffer_node -> bool) (l : list buffer_node) : list buffer_node :=
  match l with [] => [] | n :: l' => if f n then l' else n :: del_first f l' end.
Fixpoint upd_first (f : buffer_node -> bool) (g : buffer_node -> buffer_node) (l : list buffer_node) : list buffer_node :=
  match l with [] => [] | n :: l' => if f n then g n :: l' else n :: upd_first f g l' end.

Definition MAP_FAILED : Z := 2 ^ 32 - 1.
Definition AW_ION_SYSTEM_HEAP_MASK : Z := Z.shiftl 1 0.
Definition AW_ION_CARVEOUT_HEAP_MASK : Z := Z.shiftl 1 2.
Definition AW_ION_DMA_HEAP_MASK : Z := Z.shiftl 1 4.
Definition AW_ION_SECURE_HEAP_MASK : Z := Z.shiftl 1 6.
Definition AW_ION_CACHED_FLAG : Z := 1.
Definition AW_ION_CACHED_NEEDS_SYNC_FLAG : Z := 2.

Section Ion.

(** [CONF_KERNEL_VERSION_OLD], [CONF_KERNEL_IOMMU], [ADJUST_ADDRESS_FOR_SECURE_OS_OPTEE];
    whether [MG_IONBUFFER] is 1; what [malloc] leaves in [fd_closed]. *)
Variables (old iommu optee mg_ionbuffer : bool) (junk : Z).
Variable kernel : history -> call -> reply.

Definition sys (c : call) : M reply := fun s =>
  let r := kernel (hist s) c in Some (r, St (g_ion_alloc_context s) (locked s) (iommu_dev_path s) ((c, r) :: hist s)).
Definition sys_ (c : call) : M unit := _ ← sys c; mret tt.

(** ** The context *)

(** The error exit of [sunxi_ion_alloc_open] with the two descriptors. *)
Definition open_error (f i : Z) : M Z :=
  (if 0 <? f then sys_ (Close f) else mret tt);;
  (if iommu && (0 <? i) then sys_ (Close i) else mret tt);;
  set_ctx None;; unlock;; mret (-1).

Definition sunxi_ion_alloc_open : M Z :=
  lock;;
  c ← get g_ion_alloc_context;
  match c with
  | Some c => set_ctx (Some (with_ref c (s32 (ref_cnt c + 1))));; unlock;; mret 0
  | None =>
      m ← sys Malloc;
      if ret m =? 0 then unlock;; mret (-1)
      else
        f ← sys OpenIon;
        if ret f <=? 0 then open_error (ret f) 0
        else
          p ← get iommu_dev_path;
          i ← (if iommu then match cstring p with Some p => r ← sys (OpenIommu p); mret (ret r) | None => fault end else mret 0);
          if iommu && (i <=? 0) then open_error (ret f) i
          else set_ctx (Some (Context_ (ret f) i [] 1));; unlock;; mret 0
  end.

Definition sunxi_ion_alloc_close : M unit :=
  lock;;
  c ← deref;
  let n := s32 (ref_cnt c - 1) in
  (if n <=? 0 then
     sys_ (Close (fd c));;
     (if iommu then sys_ (Close (iommu_dev_fd c)) else mret tt);;
     set_ctx None
   else set_ctx (Some (with_ref c n)));;
  unlock.

(** ** Allocation *)

(** The buffer of the kernel: handle and descriptor. *)
Definition ion_alloc (old : bool) (c : ion_alloc_context) (len mask flags : Z) : M (option (Z * Z)) :=
  if old then
    r ← sys (Ioctl (fd c) (ION_IOC_ALLOC len mask flags));
    if negb (ret r =? 0) then mret None
    else
      q ← sys (Ioctl (fd c) (ION_IOC_MAP (val r)));
      if negb (ret q =? 0) then mret None else mret (Some (val r, val q))
  else
    r ← sys (Ioctl (fd c) (ION_IOC_NEW_ALLOC len mask flags));
    if ret r <? 0 then mret None else mret (Some (0, val r)).

(** The address the devices use. *)
Definition phys_addr (iommu : bool) (c : ion_alloc_context) (handle afd size : Z) : M (option Z) :=
  if iommu then
    r ← sys (Ioctl (iommu_dev_fd c) ENGINE_REQ);
    if negb (ret r =? 0) then mret None
    else
      q ← sys (Ioctl (iommu_dev_fd c) (GET_IOMMU_ADDR afd));
      if negb (ret q =? 0) then mret None else mret (Some (val q))
  else
    r ← sys (Ioctl (fd c) (PHYS_ADDR handle size));
    if negb (ret r =? 0) then mret None else mret (Some (val r)).

Definition free_iommu (iommu : bool) (c : ion_alloc_context) (afd : Z) : M unit :=
  if iommu then sys_ (Ioctl (iommu_dev_fd c) ENGINE_REL);; sys_ (Ioctl (iommu_dev_fd c) (FREE_IOMMU_ADDR afd)) else mret tt.

Definition sunxi_ion_alloc_palloc (size : Z) : M Z :=
  lock;;
  c ← get g_ion_alloc_context;
  match c with
  | None => unlock;; mret 0
  | Some c =>
      if size <=? 0 then unlock;; mret 0
      else
        let mask := Z.lor (if iommu then AW_ION_SYSTEM_HEAP_MASK else AW_ION_DMA_HEAP_MASK) AW_ION_CARVEOUT_HEAP_MASK in
        let flags := if mg_ionbuffer then 0 else Z.lor AW_ION_CACHED_FLAG AW_ION_CACHED_NEEDS_SYNC_FLAG in
        b ← ion_alloc old c size mask flags;
        match b with
        | None => unlock;; mret 0
        | Some (hnd, afd) =>
            a ← sys (Mmap size afd);
            if ret a =? MAP_FAILED then unlock;; mret 0
            else
              p ← phys_addr iommu c hnd afd size;
              match p with
              | None => unlock;; mret 0
              | Some p =>
                  m ← sys Malloc;
                  if ret m =? 0 then
                    sys_ (Munmap (ret a) size);; free_iommu iommu c afd;; sys_ (Close afd);;
                    sys_ (Ioctl (fd c) (ION_IOC_FREE hnd));; unlock;; mret 0
                  else
                    set_ctx (Some (with_list c (list_ c ++ [Node p (ret a) size 0 (ret a) hnd afd 0])));; unlock;; mret (ret a)
              end
        end
  end.

(** Secure memory is asked for from the interface of the old kernels in every build. *)
Definition sunxi_ion_alloc_alloc_drm (size : Z) : M Z :=
  lock;;
  c ← get g_ion_alloc_context;
  match c with
  | None => unlock;; mret 0
  | Some c =>
      if size <=? 0 then unlock;; mret 0
      else
        b ← ion_alloc true c size AW_ION_SECURE_HEAP_MASK (Z.lor AW_ION_CACHED_FLAG AW_ION_CACHED_NEEDS_SYNC_FLAG);
        match b with
        | None => unlock;; mret 0
        | Some (hnd, afd) =>
            a ← sys (Mmap size afd);
            if ret a =? MAP_FAILED then unlock;; mret 0
            else
              p ← phys_addr false c hnd afd size;
              match p with
              | None => unlock;; mret 0
              | Some p =>
                  t ← (if optee then t ← sys (Ioctl (fd c) (TEE_ADDR hnd size)); mret (if negb (ret t =? 0) then None else Some (val t)) else mret (Some (ret a)));
                  match t with
                  | None => unlock;; mret 0
                  | Some t =>
                      m ← sys Malloc;
                      if ret m =? 0 then
                        sys_ (Munmap (ret a) size);; sys_ (Close afd);; sys_ (Ioctl (fd c) (ION_IOC_FREE hnd));; unlock;; mret t
                      else
                        set_ctx (Some (with_list c (list_ c ++ [Node p t size (u32 t) (ret a) hnd afd junk])));; unlock;; mret t
                  end
              end
        end
  end.

(** ** Release *)

Definition at_vir (a : Z) (n : buffer_node) : bool := vir n =? a.

Definition sunxi_ion_alloc_pfree (pbuf : Z) : M unit :=
  if pbuf =? 0 then mret tt
  else
    lock;;
    c ← get g_ion_alloc_context;
    match c with
    | None => unlock
    | Some c =>
        (match List.find (at_vir pbuf) (list_ c) with
         | None => mret tt
         | Some n =>
             sys_ (Munmap (user_virt n) (size n));;
             free_iommu iommu c (aw_fd n);;
             (if fd_closed n =? 0 then sys_ (Close (aw_fd n)) else mret tt);;
             sys_ (Ioctl (fd c) (ION_IOC_FREE (handle n)));;
             set_ctx (Some (with_list c (del_first (at_vir pbuf) (list_ c))))
         end);;
        unlock
    end.

Definition close_node (n : buffer_node) : buffer_node :=
  Node (phy n) (vir n) (size n) (tee n) (user_virt n) (handle n) (aw_fd n) 1.

Definition sunxi_ion_alloc_close_fd_byViraddr (pbuf : Z) : M unit :=
  if pbuf =? 0 then mret tt
  else
    lock;;
    c ← get g_ion_alloc_context;
    match c with
    | None => unlock
    | Some c =>
        (match List.find (at_vir pbuf) (list_ c) with
         | None => mret tt
         | Some n => sys_ (Close (aw_fd n));; set_ctx (Some (with_list c (upd_first (at_vir pbuf) close_node (list_ c))))
         end);;
        unlock
    end.

(** ** Lookup *)

(** [a >= base && a < base + size] of [unsigned long]. *)
Definition in_range (a base size : Z) : bool := (base <=? a) && (a <? u32 (base + size)).

Definition sunxi_ion_alloc_vir2phy_cpu (pbuf : Z) : M Z :=
  if pbuf =? 0 then mret 0
  else
    lock;;
    c ← deref;
    unlock;;
    mret (match List.find (fun n => in_range pbuf (vir n) (size n)) (list_ c) with
          | Some n => u32 (phy n + pbuf - vir n)
          | None => 0
          end).

Definition sunxi_ion_alloc_phy2vir_cpu (pbuf : Z) : M Z :=
  if pbuf =? 0 then mret 0
  else
    lock;;
    c ← deref;
    unlock;;
    mret (match List.find (fun n => in_range pbuf (phy n) (size n)) (list_ c) with
          | Some n => u32 (vir n + pbuf - phy n)
          | None => 0
          end).

Definition get_bufferFd_priv (pbuf : Z) (lock_ : bool) : M Z :=
  if pbuf =? 0 then mret 0
  else
    (if lock_ then lock else mret tt);;
    c ← deref;
    (if lock_ then unlock else mret tt);;
    mret (match List.find (fun n => in_range pbuf (vir n) (size n)) (list_ c) with
          | Some n => aw_fd n
          | None => 0
          end).

Definition sunxi_ion_alloc_get_bufferFd (pbuf : Z) : M Z := get_bufferFd_priv pbuf true.

Definition sunxi_ion_alloc_get_viraddr_byFd (nShareFd : Z) : M Z :=
  lock;;
  c ← deref;
  unlock;;
  mret (match List.find (fun n => nShareFd =? aw_fd n) (list_ c) with
        | Some n => vir n
        | None => 0
        end).

(** ** Caches, merging, path, size of the pool *)

(** Not for kernel 3.4. *)
Definition sunxi_ion_alloc_flush_cache (startAddr size : Z) : M unit :=
  c ← deref;
  let e := u32 (startAddr + size) in
  let w x := if old then s32 x else x in
  sys_ (Ioctl (if old then fd c else iommu_dev_fd c) (FLUSH_RANGE (w startAddr) (w e))).

Definition sunxi_ion_flush_cache_all : M unit := c ← deref; sys_ (Ioctl (fd c) FLUSH_ALL).

(** The descriptors of [virt[i]], ..., [virt[num - 1]], stored from index [i] of an array of
    1024 on. *)
Fixpoint merge_fds (n : nat) (i : Z) (virt : list Z) : M (list Z) :=
  match n with
  | O => mret []
  | S n' =>
      match virt with
      | [] => fault
      | v :: virt' =>
          d ← get_bufferFd_priv v false;
          if 1024 <=? i then fault else l ← merge_fds n' (i + 1) virt'; mret (d :: l)
      end
  end.

Definition sunxi_ion_alloc_merge (num : Z) (virt : list Z) : M Z :=
  if negb iommu then mret 0
  else
    lock;;
    c ← deref;
    r ← sys (Ioctl (iommu_dev_fd c) ENGINE_REQ);
    if ret r <? 0 then unlock;; mret 0
    else
      l ← merge_fds (Z.to_nat num) 0 virt;
      q ← sys (Ioctl (iommu_dev_fd c) (MERGE_IOMMU_ADDR l));
      if ret q <? 0 then sys_ (Ioctl (iommu_dev_fd c) ENGINE_REL);; unlock;; mret 0
      else unlock;; mret (u32 (val q)).

Definition sunxi_ion_alloc_unmerge (p : Z) : M Z :=
  if negb iommu then mret (-1)
  else
    lock;;
    c ← deref;
    r ← sys (Ioctl (iommu_dev_fd c) (UNMERGE_IOMMU_ADDR p));
    unlock;;
    mret (ret r).

(** The new path is read as a string by the message. *)
Definition sunxi_ion_alloc_set_iommu_dev_path (dev_path : list Z) : M Z :=
  if 32 <? Z.of_nat (length dev_path) then mret (-1)
  else
    let p := strncpy dev_path 32 in
    set_path p;;
    match cstring p with None => fault | Some _ => mret 0 end.

Definition sunxi_ion_alloc_get_total_size : M Z :=
  f ← sys OpenIon;
  if ret f <? 0 then mret 0
  else
    r ← sys (Ioctl (ret f) POOL_INFO);
    (if 0 <? ret f then sys_ (Close (ret f)) else mret tt);;
    mret (if ret r <? 0 then ret r else val r).

(** ** Programs *)

(** An operation of the table [_allocionMemOpsS] with its arguments, and its result. *)
Inductive op :=
  | OpOpen
  | OpClose
  | OpTotalSize
  | OpPalloc (size : Z)
  | OpPfree (mem : Z)
  | OpFlushCache (mem size : Z)
  | OpGetPhyaddr (viraddr : Z)
  | OpGetViraddr (phyaddr : Z)
  | OpPallocSecure (size : Z)
  | OpGetBufferFd (viraddr : Z)
  | OpGetViraddrByFd (share_fd : Z)
  | OpSetPath (dev_path : list Z)
  | OpCloseFd (viraddr : Z)
  | OpMerge (num : Z) (virt : list Z)
  | OpUnmerge (phyaddr : Z).

Definition do_op (o : op) : M Z :=
  match o with
  | OpOpen => sunxi_ion_alloc_open
  | OpClose => sunxi_ion_alloc_close;; mret 0
  | OpTotalSize => sunxi_ion_alloc_get_total_size
  | OpPalloc n => sunxi_ion_alloc_palloc n
  | OpPfree p => sunxi_ion_alloc_pfree p;; mret 0
  | OpFlushCache p n => sunxi_ion_alloc_flush_cache p n;; mret 0
  | OpGetPhyaddr p => sunxi_ion_alloc_vir2phy_cpu p
  | OpGetViraddr p => sunxi_ion_alloc_phy2vir_cpu p
  | OpPallocSecure n => sunxi_ion_alloc_alloc_drm n
  | OpGetBufferFd p => sunxi_ion_alloc_get_bufferFd p
  | OpGetViraddrByFd n => sunxi_ion_alloc_get_viraddr_byFd n
  | OpSetPath l => sunxi_ion_alloc_set_iommu_dev_path l
  | OpCloseFd p => sunxi_ion_alloc_close_fd_byViraddr p;; mret 0
  | OpMerge n l => sunxi_ion_alloc_merge n l
  | OpUnmerge p => sunxi_ion_alloc_unmerge p
  end.

(** The results of a sequence of operations. *)
Fixpoint run (os : list op) : M (list Z) :=
  match os with
  | [] => mret []
  | o :: os' => r ← do_op o; rs ← run os'; mret (r :: rs)
  end.
End Ion.

(** ** What the process holds *)

(** Descriptors, mappings with their lengths, handles, descriptors with an IOMMU address,
    and the times the engine is asked for. *)
Record held := Held {
  h_fds : gset Z;
  h_maps : gset (Z * Z);
  h_handles : gset Z;
  h_iovas : gset Z;
  h_engines : Z;
}.

Definition nothing : held := Held ∅ ∅ ∅ ∅ 0.

Definition add_fd (f : Z) (x : held) : held := Held ({[f]} ∪ h_fds x) (h_maps x) (h_handles x) (h_iovas x) (h_engines x).

(** What a call that succeeded has changed. *)
Definition step_held (e : call * reply) (x : held) : held :=
  let '(c, r) := e in
  match c with
  | Malloc => x
  | OpenIon | OpenIommu _ => if ret r <? 0 then x else add_fd (ret r) x
  | Close f => if ret r =? 0 then Held (h_fds x ∖ {[f]}) (h_maps x) (h_handles x) (h_iovas x) (h_engines x) else x
  | Mmap len _ => if ret r =? MAP_FAILED then x else Held (h_fds x) ({[(ret r, len)]} ∪ h_maps x) (h_handles x) (h_iovas x) (h_engines x)
  | Munmap a len => if ret r =? 0 then Held (h_fds x) (h_maps x ∖ {[(a, len)]}) (h_handles x) (h_iovas x) (h_engines x) else x
  | Ioctl _ q =>
      match q with
      | ION_IOC_ALLOC _ _ _ => if ret r =? 0 then Held (h_fds x) (h_maps x) ({[val r]} ∪ h_handles x) (h_iovas x) (h_engines x) else x
      | ION_IOC_MAP _ => if ret r =? 0 then add_fd (val r) x else x
      | ION_IOC_NEW_ALLOC _ _ _ => if ret r <? 0 then x else add_fd (val r) x
      | ION_IOC_FREE h => if ret r =? 0 then Held (h_fds x) (h_maps x) (h_handles x ∖ {[h]}) (h_iovas x) (h_engines x) else x
      | ENGINE_REQ => if ret r =? 0 then Held (h_fds x) (h_maps x) (h_handles x) (h_iovas x) (h_engines x + 1) else x
      | ENGINE_REL => if ret r =? 0 then Held (h_fds x) (h_maps x) (h_handles x) (h_iovas x) (h_engines x - 1) else x
      | GET_IOMMU_ADDR f => if ret r =? 0 then Held (h_fds x) (h_maps x) (h_handles x) ({[f]} ∪ h_iovas x) (h_engines x) else x
      | FREE_IOMMU_ADDR f => if ret r =? 0 then Held (h_fds x) (h_maps x) (h_handles x) (h_iovas x ∖ {[f]}) (h_engines x) else x
      | _ => x
      end
  end.

Definition held_of (h : history) : held := foldr step_held nothing h.

