(* ===== verification/IonRun.v ===== *)
(** * IonRun: what the buffers of libawion are worth

    Proofs about [Ion].  [wp] is the predicate of a program whose faults are accounted for
    ([F]), [wpc] the predicate of a run in which no call fails.  The properties: whatever
    the kernel replies, buffers stay apart and operations with their preconditions do not
    fault; addresses are translated exactly; a run without a failed call holds what its
    live buffers need and nothing else; and the cases where this does not hold. *)
From stdpp Require Import gmap.
From Stdlib Require Import String.
From S2P Require Import Prelude CString Ion.

(** ** Lemmas: running *)

(** [Q] of the result and the state, [F] of a fault. *)
Definition wp {A} (F : Prop) (m : M A) (Q : A -> st -> Prop) (s : st) : Prop :=
  match m s with Some (x, s') => Q x s' | None => F end.

Lemma wp_ret {A} F (x : A) Q s : Q x s -> wp F (mret x) Q s.
Proof. exact id. Qed.

Lemma wp_bind {A B} F (m : M A) (k : A -> M B) Q s : wp F m (fun x => wp F (k x) Q) s -> wp F (m ≫= k) Q s.
Proof. unfold wp, mbind, M_bind. now destruct (m s) as [[x s'] |]. Qed.

Lemma wp_mono {A} (F : Prop) (m : M A) (Q R : A -> st -> Prop) s : (forall x s', Q x s' -> R x s') -> wp F m Q s -> wp F m R s.
Proof. unfold wp. destruct (m s) as [[x s'] |]; auto. Qed.

Lemma wp_get {A} F (f : st -> A) Q s : Q (f s) s -> wp F (get f) Q s.
Proof. exact id. Qed.

Lemma wp_lock F Q s :
  locked s = false -> Q tt (St (g_ion_alloc_context s) true (iommu_dev_path s) (hist s)) -> wp F lock Q s.
Proof. unfold wp, lock. now intros ->. Qed.

Lemma wp_unlock F Q s : Q tt (St (g_ion_alloc_context s) false (iommu_dev_path s) (hist s)) -> wp F unlock Q s.
Proof. exact id. Qed.

Lemma wp_set_ctx F c Q s : Q tt (St c (locked s) (iommu_dev_path s) (hist s)) -> wp F (set_ctx c) Q s.
Proof. exact id. Qed.

Lemma wp_set_path F p Q s : Q tt (St (g_ion_alloc_context s) (locked s) p (hist s)) -> wp F (set_path p) Q s.
Proof. exact id. Qed.

Lemma wp_deref F Q s : match g_ion_alloc_context s with Some c => Q c s | None => F end -> wp F deref Q s.
Proof. unfold wp, deref, mbind, M_bind, get. now destruct (g_ion_alloc_context s). Qed.

Lemma wp_sys F kernel c Q s :
  Q (kernel (hist s) c) (St (g_ion_alloc_context s) (locked s) (iommu_dev_path s) ((c, kernel (hist s) c) :: hist s)) -> wp F (sys kernel c) Q s.
Proof. exact id. Qed.

Lemma wp_sys_ F kernel c Q s :
  Q tt (St (g_ion_alloc_context s) (locked s) (iommu_dev_path s) ((c, kernel (hist s) c) :: hist s)) -> wp F (sys_ kernel c) Q s.
Proof. exact id. Qed.

Lemma wp_if {A} F (b : bool) (m1 m2 : M A) Q s :
  (b = true -> wp F m1 Q s) -> (b = false -> wp F m2 Q s) -> wp F (if b then m1 else m2) Q s.
Proof. destruct b; auto. Qed.

(** One step of a proof about a program. *)
Ltac wp_step :=
  lazymatch goal with
  | |- wp _ (mbind _ _) _ _ => apply wp_bind
  | |- wp _ (mret _) _ _ => apply wp_ret
  | |- wp _ (get _) _ _ => apply wp_get; cbn [g_ion_alloc_context iommu_dev_path]
  | |- wp _ lock _ _ => apply wp_lock; [try assumption; try reflexivity | cbn [g_ion_alloc_context locked iommu_dev_path hist]]
  | |- wp _ unlock _ _ => apply wp_unlock; cbn [g_ion_alloc_context locked iommu_dev_path hist]
  | |- wp _ (set_ctx _) _ _ => apply wp_set_ctx; cbn [g_ion_alloc_context locked iommu_dev_path hist]
  | |- wp _ (set_path _) _ _ => apply wp_set_path; cbn [g_ion_alloc_context locked iommu_dev_path hist]
  | |- wp _ (sys _ _) _ _ => apply wp_sys; cbn [g_ion_alloc_context locked iommu_dev_path hist]
  | |- wp _ (sys_ _ _) _ _ => apply wp_sys_; cbn [g_ion_alloc_context locked iommu_dev_path hist]
  | |- wp _ (if ?b then _ else _) _ _ => apply wp_if; intros ?
  end.

(** ** Lemmas: the list of buffers *)

Lemma del_first_split f l n :
  List.find f l = Some n -> exists l1 l2, l = l1 ++ n :: l2 /\ del_first f l = l1 ++ l2 /\ Forall (fun m => f m = false) l1 /\ f n = true.
Proof.
  induction l as [| m l IH]; [discriminate |]. cbn [List.find del_first]. destruct (f m) eqn:E.
  - intros [= <-]. exists [], l. auto.
  - intros H. destruct (IH H) as (l1 & l2 & -> & -> & Hf & Hn). exists (m :: l1), l2. split; [reflexivity |]. split; [reflexivity |]. split; [now constructor | assumption].
Qed.

Lemma upd_first_map {A} (g : buffer_node -> buffer_node) (p : buffer_node -> A) f l :
  (forall n, p (g n) = p n) -> p <$> upd_first f g l = p <$> l.
Proof.
  intros H. induction l as [| n l IH]; [reflexivity |]. cbn [upd_first]. destruct (f n); cbn [fmap list_fmap]; [now rewrite H | now rewrite <- IH].
Qed.

(** ** Lemmas: mappings *)

Definition buf (n : buffer_node) : Z * Z := (user_virt n, size n).

Definition apart (x y : Z * Z) : Prop := x.1 + x.2 <= y.1 \/ y.1 + y.2 <= x.1.

Definition maps_ok (m : gset (Z * Z)) : Prop :=
  (forall x, x ∈ m -> 0 < x.1 /\ 0 < x.2 /\ x.1 + x.2 < 2 ^ 32) /\ (forall x y, x ∈ m -> y ∈ m -> x <> y -> apart x y).

Definition nodes_ok (m : gset (Z * Z)) (l : list buffer_node) : Prop :=
  NoDup (buf <$> l) /\ (forall n, n ∈ l -> vir n = user_virt n /\ buf n ∈ m).

Abbreviation maps_of h := (h_maps (held_of h)).

(** Calls that leave the mappings alone. *)
Definition quiet (c : call) : bool := match c with Mmap _ _ | Munmap _ _ => false | _ => true end.

Lemma maps_quiet c r h : quiet c = true -> maps_of ((c, r) :: h) = maps_of h.
Proof.
  intros H. cbn [held_of foldr]. fold (held_of h). unfold step_held.
  destruct c as [| | | | | | dev q]; try discriminate H; try (destruct q); repeat case_match; reflexivity.
Qed.

Lemma nodes_ok_app m l n : nodes_ok m l -> vir n = user_virt n -> buf n ∈ m -> buf n ∉ buf <$> l -> nodes_ok m (l ++ [n]).
Proof.
  intros [Hd Hn] Hv Hm Hnew. split.
  - rewrite fmap_app. apply list.NoDup_app. split; [assumption |]. split; [| apply NoDup_singleton].
    intros x Hx [-> | Hx']%elem_of_cons; [contradiction | inversion Hx'].
  - intros x [Hx | [-> | Hx]%elem_of_cons]%elem_of_app; [now apply Hn | auto | inversion Hx].
Qed.

Lemma nodes_ok_del m l f : nodes_ok m l -> nodes_ok m (del_first f l).
Proof.
  intros [Hd Hn]. destruct (List.find f l) as [n |] eqn:E.
  - destruct (del_first_split f l n E) as (l1 & l2 & -> & -> & _). split.
    + rewrite fmap_app, fmap_cons in Hd. rewrite fmap_app. apply list.NoDup_app in Hd as (H1 & H12 & H2). apply list.NoDup_cons in H2 as [_ H2].
      apply list.NoDup_app. split; [assumption |]. split; [| assumption]. intros x Hx Hx'. apply (H12 x Hx). now apply elem_of_cons; right.
    + intros x Hx. apply Hn. apply elem_of_app. apply elem_of_app in Hx as [Hx | Hx]; [now left | right; now apply elem_of_cons; right].
  - assert (del_first f l = l) as ->; [| now split]. clear Hd Hn. induction l as [| n l IH]; [reflexivity |]. cbn [List.find del_first] in *.
    destruct (f n); [discriminate |]. now rewrite IH.
Qed.

Lemma nodes_ok_del_new m l f n : nodes_ok m l -> List.find f l = Some n -> buf n ∉ buf <$> del_first f l.
Proof.
  intros [Hd _] E. destruct (del_first_split f l n E) as (l1 & l2 & -> & -> & _). rewrite fmap_app, fmap_cons in Hd. rewrite fmap_app.
  apply list.NoDup_app in Hd as (_ & H12 & H2). apply list.NoDup_cons in H2 as [H2 _]. intros [Hx | Hx]%elem_of_app; [| contradiction].
  apply (H12 _ Hx). apply elem_of_cons. now left.
Qed.

Lemma nodes_ok_upd m l f g :
  nodes_ok m l -> (forall n, buf (g n) = buf n) -> (forall n, vir (g n) = vir n) -> nodes_ok m (upd_first f g l).
Proof.
  intros [Hd Hn] Hb Hv. split; [now rewrite upd_first_map |]. clear Hd. induction l as [| n l IH]; [intros x Hx; inversion Hx |]. cbn [upd_first].
  destruct (f n); intros x [-> | Hx]%elem_of_cons.
  - destruct (Hn n) as [H1 H2]; [now left |]. rewrite Hb, Hv. split; [| assumption]. pose proof (Hb n) as Hu. unfold buf in Hu. congruence.
  - apply Hn. now right.
  - apply Hn. now left.
  - apply IH; [| assumption]. intros y Hy. apply Hn. now right.
Qed.

Lemma nodes_ok_shrink m l a n : nodes_ok m l -> (a, n) ∉ buf <$> l -> nodes_ok (m ∖ {[(a, n)]}) l.
Proof.
  intros [Hd Hn] Hnot. split; [assumption |]. intros x Hx. destruct (Hn x Hx) as [H1 H2]. split; [assumption |].
  apply elem_of_difference. split; [assumption |]. intros E%elem_of_singleton. apply Hnot. apply list_elem_of_fmap. now exists x.
Qed.

Lemma nodes_ok_grow m m' l : nodes_ok m l -> m ⊆ m' -> nodes_ok m' l.
Proof. intros [Hd Hn] Hs. split; [assumption |]. intros x Hx. destruct (Hn x Hx). auto. Qed.

Lemma maps_ok_sub m m' : maps_ok m -> m' ⊆ m -> maps_ok m'.
Proof. intros [H1 H2] Hs. split; [intros; apply H1; auto | intros; apply H2; auto]. Qed.

Lemma maps_munmap h a n r : maps_of ((Munmap a n, r) :: h) = maps_of h \/ maps_of ((Munmap a n, r) :: h) = maps_of h ∖ {[(a, n)]}.
Proof. cbn. destruct (ret r =? 0); auto. Qed.

(** ** The buffers under any replies of the kernel *)

Section Any_reply.
Context (old iommu optee mg_ionbuffer : bool) (junk : Z) (kernel : history -> call -> reply).

(** [mmap] gives a region of its own. *)
Definition mmap_fresh : Prop := forall h n f, 0 < n -> ret (kernel h (Mmap n f)) <> MAP_FAILED ->
  let a := ret (kernel h (Mmap n f)) in 0 < a /\ a + n < 2 ^ 32 /\ forall x, x ∈ maps_of h -> apart x (a, n).

Context (Hmmap : mmap_fresh).

Definition inv0 (h : history) (l : list buffer_node) : Prop := maps_ok (maps_of h) /\ nodes_ok (maps_of h) l.

Lemma inv0_quiet c r h l : quiet c = true -> inv0 h l -> inv0 ((c, r) :: h) l.
Proof. intros Hq. unfold inv0. now rewrite maps_quiet. Qed.

Lemma inv0_mmap h l n f :
  0 < n -> inv0 h l -> let r := kernel h (Mmap n f) in
  inv0 ((Mmap n f, r) :: h) l /\
  (ret r <> MAP_FAILED -> (ret r, n) ∈ maps_of ((Mmap n f, r) :: h) /\ (ret r, n) ∉ buf <$> l).
Proof.
  intros Hn [Hm Hl] r. unfold inv0. cbn [held_of foldr]. fold (held_of h). unfold step_held. destruct (Z.eqb_spec (ret r) MAP_FAILED) as [E | E].
  - split; [now split |]. contradiction.
  - cbn [h_maps]. destruct (Hmmap h n f Hn E) as (Ha & Hb & Hap). fold r in Ha, Hb, Hap. split; [split |].
    + destruct Hm as [H1 H2]. split.
      * intros x [-> %elem_of_singleton | Hx]%elem_of_union; [cbn [fst snd]; lia | now apply H1].
      * intros x y [-> %elem_of_singleton | Hx]%elem_of_union [-> %elem_of_singleton | Hy]%elem_of_union Hxy.
        -- contradiction.
        -- destruct (Hap y Hy) as [? | ?]; [now right | now left].
        -- now apply Hap.
        -- now apply H2.
    + eapply nodes_ok_grow; [exact Hl |]. set_solver.
    + intros _. split; [set_solver |]. intros (x & Ex & Hx)%list_elem_of_fmap. destruct Hl as [_ Hl]. destruct (Hl x Hx) as [_ Hx'].
      rewrite <- Ex in Hx'. destruct (Hap _ Hx') as [H | H]; cbn [fst snd] in H; lia.
Qed.

Lemma inv0_munmap h l a n r : (a, n) ∉ buf <$> l -> inv0 h l -> inv0 ((Munmap a n, r) :: h) l.
Proof.
  intros Hnot [Hm Hl]. unfold inv0. destruct (maps_munmap h a n r) as [-> | ->]; [now split |].
  split; [apply (maps_ok_sub (maps_of h)); [assumption | set_solver] | now apply nodes_ok_shrink].
Qed.

Definition nodes (s : st) : list buffer_node := match g_ion_alloc_context s with Some c => list_ c | None => [] end.

(** The lock is free, the path ends within its array, the buffers are mapped where their
    nodes say, apart from each other. *)
Definition inv (s : st) : Prop := locked s = false /\ is_Some (cstring (iommu_dev_path s)) /\ inv0 (hist s) (nodes s).

Lemma inv0_nil h l : inv0 h l -> inv0 h [].
Proof. intros [H _]. split; [assumption |]. split; [apply NoDup_nil_2 | intros x Hx; inversion Hx]. Qed.

Ltac quiet_calls := repeat (apply inv0_quiet; [reflexivity |]).
Ltac inv_done := solve [split; [first [reflexivity | assumption] |]; split; [cbn [iommu_dev_path]; repeat match goal with E : iommu_dev_path _ = _ |- _ => rewrite E; cbn [iommu_dev_path] end; assumption |]; unfold nodes; cbn [g_ion_alloc_context list_ with_list with_ref hist];
  repeat match goal with E : g_ion_alloc_context ?s = _ |- context [g_ion_alloc_context ?s] => rewrite E; cbn [g_ion_alloc_context list_] end;
  quiet_calls; try assumption; eauto using inv0_nil].
Ltac go := repeat first [progress wp_step | inv_done].

Lemma open_keeps F s : inv s -> wp F (sunxi_ion_alloc_open iommu kernel) (fun _ s' => inv s') s.
Proof.
  intros (Hl & Hp & Hi). unfold sunxi_ion_alloc_open, open_error. wp_step. wp_step. wp_step. wp_step. unfold nodes in Hi.
  destruct Hp as [q Hq]. assert (is_Some (cstring (iommu_dev_path s))) as Hp by now exists q.
  destruct (g_ion_alloc_context s) as [c |]; [go |]. go. all: rewrite Hq; go.
Qed.

Lemma close_keeps F s : (g_ion_alloc_context s = None -> F) -> inv s -> wp F (sunxi_ion_alloc_close iommu kernel) (fun _ s' => inv s') s.
Proof.
  intros HF (Hl & Hp & Hi). unfold sunxi_ion_alloc_close. do 3 wp_step. apply wp_deref. cbn [g_ion_alloc_context]. unfold nodes in Hi.
  destruct (g_ion_alloc_context s) as [c |]; [| now apply HF]. cbv zeta. go.
Qed.

Lemma ion_alloc_keeps F o c n mask flags l s :
  inv0 (hist s) l -> wp F (ion_alloc kernel o c n mask flags) (fun _ s' => inv0 (hist s') l /\ g_ion_alloc_context s' = g_ion_alloc_context s /\ iommu_dev_path s' = iommu_dev_path s) s.
Proof.
  intros Hi. unfold ion_alloc.
  repeat first [wp_step | solve [split; [cbn [hist]; quiet_calls; assumption | split; reflexivity]]].
Qed.

Lemma phys_addr_keeps F o c hnd afd n l s :
  inv0 (hist s) l -> wp F (phys_addr kernel o c hnd afd n)
    (fun _ s' => inv0 (hist s') l /\ maps_of (hist s') = maps_of (hist s) /\ g_ion_alloc_context s' = g_ion_alloc_context s /\ iommu_dev_path s' = iommu_dev_path s) s.
Proof.
  intros Hi. unfold phys_addr.
  repeat first [wp_step | solve [split; [cbn [hist]; quiet_calls; assumption |]; split; [cbn [hist]; now rewrite ?maps_quiet by reflexivity | split; reflexivity]]].
Qed.

Lemma free_iommu_keeps F c afd l s :
  inv0 (hist s) l -> wp F (free_iommu kernel iommu c afd) (fun _ s' => inv0 (hist s') l /\ g_ion_alloc_context s' = g_ion_alloc_context s /\ iommu_dev_path s' = iommu_dev_path s) s.
Proof. intros Hi. unfold free_iommu. repeat first [wp_step | solve [split; [cbn [hist]; quiet_calls; assumption | split; reflexivity]]]. Qed.

(** What [palloc] and [alloc_drm] share: a buffer joins the list. *)
Lemma add_keeps c s h n l a node :
  l = list_ c -> is_Some (cstring s) -> inv0 h l -> (a, n) ∈ maps_of h -> (a, n) ∉ buf <$> l -> buf node = (a, n) -> vir node = user_virt node ->
  inv (St (Some (with_list c (l ++ [node]))) false s h).
Proof.
  intros -> Hp [Hm Hl] Hin Hnew Hb Hv. split; [reflexivity |]. split; [exact Hp |]. unfold nodes. cbn [g_ion_alloc_context list_ with_list hist].
  split; [assumption |]. apply nodes_ok_app; rewrite ?Hb; assumption.
Qed.

Lemma palloc_keeps F n s : inv s -> wp F (sunxi_ion_alloc_palloc old iommu mg_ionbuffer kernel n) (fun _ s' => inv s') s.
Proof.
  intros (Hl & Hp & Hi). unfold sunxi_ion_alloc_palloc. do 4 wp_step. unfold nodes in Hi.
  destruct (g_ion_alloc_context s) as [c |]; [| go]. wp_step; [go |]. apply Z.leb_gt in H. cbv zeta. wp_step.
  eapply wp_mono; [| apply (ion_alloc_keeps _ _ _ _ _ _ (list_ c)); exact Hi]. intros b s1 (Hi1 & Hc1 & Hp1).
  destruct b as [[hnd afd] |]; [| go]. do 2 wp_step.
  destruct (inv0_mmap (hist s1) (list_ c) n afd H Hi1) as [Hi2 Hnew]. wp_step; [go |]. apply Z.eqb_neq in H0. specialize (Hnew H0) as [Hin Hnew].
  wp_step. eapply wp_mono; [| apply (phys_addr_keeps _ _ _ _ _ _ (list_ c)); exact Hi2]. intros p s2 (Hi3 & Em & Hc2 & Hp2). cbn [hist] in Em. rewrite <- Em in Hin.
  destruct p as [p |]; [| go]. do 2 wp_step. wp_step.
  - do 2 wp_step. wp_step. eapply wp_mono; [| apply (free_iommu_keeps _ c afd (list_ c))]; [intros _ s3 (Hi4 & Hc3 & Hp3); go |].
    apply inv0_munmap; [assumption |]. now apply inv0_quiet.
  - do 3 wp_step. wp_step. apply (add_keeps _ _ _ n _ (ret (kernel (hist s1) (Mmap n afd)))); first [reflexivity | assumption | cbn [iommu_dev_path]; rewrite Hp2; cbn [iommu_dev_path]; rewrite Hp1; exact Hp].
Qed.

Lemma alloc_drm_keeps F n s :
  optee = false -> inv s -> wp F (sunxi_ion_alloc_alloc_drm optee junk kernel n) (fun _ s' => inv s') s.
Proof.
  intros -> (Hl & Hp & Hi). unfold sunxi_ion_alloc_alloc_drm. do 4 wp_step. unfold nodes in Hi.
  destruct (g_ion_alloc_context s) as [c |]; [| go]. wp_step; [go |]. apply Z.leb_gt in H. wp_step.
  eapply wp_mono; [| apply (ion_alloc_keeps _ _ _ _ _ _ (list_ c)); exact Hi]. intros b s1 (Hi1 & Hc1 & Hp1).
  destruct b as [[hnd afd] |]; [| go]. do 2 wp_step.
  destruct (inv0_mmap (hist s1) (list_ c) n afd H Hi1) as [Hi2 Hnew]. wp_step; [go |]. apply Z.eqb_neq in H0. specialize (Hnew H0) as [Hin Hnew].
  wp_step. eapply wp_mono; [| apply (phys_addr_keeps _ _ _ _ _ _ (list_ c)); exact Hi2]. intros p s2 (Hi3 & Em & Hc2 & Hp2). cbn [hist] in Em. rewrite <- Em in Hin.
  destruct p as [p |]; [| go]. do 4 wp_step. wp_step.
  - do 8 (try wp_step). split; [reflexivity |]. split; [cbn [iommu_dev_path]; rewrite Hp2; cbn [iommu_dev_path]; rewrite Hp1; exact Hp |].
    unfold nodes. cbn [g_ion_alloc_context hist]. rewrite Hc2. cbn [g_ion_alloc_context]. rewrite Hc1. cbn [g_ion_alloc_context].
    quiet_calls. apply inv0_munmap; [assumption |]. now apply inv0_quiet.
  - do 3 wp_step. wp_step. apply (add_keeps _ _ _ n _ (ret (kernel (hist s1) (Mmap n afd)))); first [reflexivity | assumption | cbn [iommu_dev_path]; rewrite Hp2; cbn [iommu_dev_path]; rewrite Hp1; exact Hp].
Qed.

Lemma pfree_keeps F p s : inv s -> wp F (sunxi_ion_alloc_pfree iommu kernel p) (fun _ s' => inv s') s.
Proof.
  intros Hinv. pose proof Hinv as (Hl & Hp & Hi). unfold sunxi_ion_alloc_pfree. wp_step; [apply wp_ret; exact Hinv |]. do 4 wp_step. unfold nodes in Hi.
  destruct (g_ion_alloc_context s) as [c |]; [| go]. wp_step.
  destruct (List.find (at_vir p) (list_ c)) as [n |] eqn:E; [| go].
  assert (inv0 (hist s) (del_first (at_vir p) (list_ c)) /\ buf n ∉ buf <$> del_first (at_vir p) (list_ c)) as [Hi' Hnew].
  { destruct Hi as [Hm Hn]. split; [split; [assumption | now apply nodes_ok_del] | now apply (nodes_ok_del_new (maps_of (hist s)))]. }
  wp_step. wp_step. wp_step. eapply wp_mono; [| apply (free_iommu_keeps _ c _ (del_first (at_vir p) (list_ c)))]; [| now apply inv0_munmap].
  intros _ s1 (Hi1 & Hc1 & Hp1). go.
Qed.

Lemma close_fd_keeps F p s : inv s -> wp F (sunxi_ion_alloc_close_fd_byViraddr kernel p) (fun _ s' => inv s') s.
Proof.
  intros Hinv. pose proof Hinv as (Hl & Hp & Hi). unfold sunxi_ion_alloc_close_fd_byViraddr. wp_step; [apply wp_ret; exact Hinv |]. do 4 wp_step. unfold nodes in Hi.
  destruct (g_ion_alloc_context s) as [c |]; [| go]. wp_step. destruct (List.find (at_vir p) (list_ c)) as [n |] eqn:E; [| go].
  do 4 wp_step. split; [reflexivity |]. split; [exact Hp |]. unfold nodes. cbn [g_ion_alloc_context list_ with_list hist]. apply inv0_quiet; [reflexivity |].
  destruct Hi as [Hm Hn]. split; [assumption |]. now apply nodes_ok_upd.
Qed.

Lemma merge_fds_keeps F n i virt s :
  (g_ion_alloc_context s = None \/ (length virt < n)%nat \/ 1024 < i + Z.of_nat n -> F) ->
  wp F (merge_fds n i virt) (fun _ s' => s' = s) s.
Proof.
  revert i virt. induction n as [| n IH]; intros i virt HF; cbn [merge_fds]; [now apply wp_ret |].
  destruct virt as [| v virt]; [apply HF; right; left; cbn; lia |]. cbn [length] in HF.
  wp_step. eapply (wp_mono _ _ (fun _ s' => s' = s)).
  - intros d s' ->. wp_step; [apply HF; right; right; apply Z.leb_le in H; lia |]. wp_step.
    eapply wp_mono; [| apply IH; intros [H' | H']; apply HF; [now left | right; lia]]. intros l s' ->. now apply wp_ret.
  - unfold get_bufferFd_priv. wp_step; [now apply wp_ret |]. do 2 wp_step. wp_step. apply wp_deref.
    destruct (g_ion_alloc_context s); [| apply HF; now left]. do 3 wp_step. reflexivity.
Qed.

(** The operations of the invariant: secure memory only where its address is the mapping's. *)
Definition op_fine (o : op) : Prop := match o with OpPallocSecure _ => optee = false | _ => True end.

(** What an operation needs not to fault. *)
Definition safe (o : op) (s : st) : Prop :=
  match o with
  | OpClose | OpFlushCache _ _ | OpGetPhyaddr _ | OpGetViraddr _ | OpGetBufferFd _ | OpGetViraddrByFd _ | OpUnmerge _ => g_ion_alloc_context s <> None
  | OpSetPath l => (length l < 32)%nat /\ cstr_ok l
  | OpMerge n virt => g_ion_alloc_context s <> None /\ n <= Z.of_nat (length virt) /\ n <= 1024
  | _ => True
  end.

Lemma lookup_keeps {A} F (f : ion_alloc_context -> A) s :
  (g_ion_alloc_context s = None -> F) -> inv s -> wp F (lock;; c ← deref; unlock;; mret (f c)) (fun _ s' => inv s') s.
Proof.
  intros HF (Hl & Hp & Hi). do 3 wp_step. apply wp_deref. cbn [g_ion_alloc_context]. unfold nodes in Hi.
  destruct (g_ion_alloc_context s) as [c |] eqn:E; [| now apply HF].
  do 3 wp_step. split; [reflexivity |]. split; [exact Hp |]. unfold nodes. cbn [g_ion_alloc_context hist]. exact Hi.
Qed.

Lemma cstring_strncpy l : (length l < 32)%nat -> cstr_ok l -> is_Some (cstring (strncpy l 32)).
Proof.
  intros Hl Hc. unfold strncpy, cstring. rewrite take_ge by lia. replace (32 - length l)%nat with (S (31 - length l)) by lia. cbn [replicate].
  rewrite strlen_cstr by assumption. now eexists.
Qed.

Lemma do_op_keeps (F : Prop) o s :
  (~ safe o s -> F) -> op_fine o -> inv s -> wp F (do_op old iommu optee mg_ionbuffer junk kernel o) (fun _ s' => inv s') s.
Proof.
  intros HF Ho Hinv. pose proof Hinv as (Hl & Hp & Hi).
  destruct o; cbn [do_op]; unfold safe in HF.
  - now apply open_keeps.
  - wp_step. eapply wp_mono; [| apply close_keeps; [tauto | assumption]]. intros. now apply wp_ret.
  - unfold sunxi_ion_alloc_get_total_size. go.
  - now apply palloc_keeps.
  - wp_step. eapply wp_mono; [| now apply pfree_keeps]. intros. now apply wp_ret.
  - unfold sunxi_ion_alloc_flush_cache. unfold nodes in Hi. do 2 wp_step. apply wp_deref. destruct (g_ion_alloc_context s) as [c |] eqn:E; [| tauto]. cbv zeta. go.
  - unfold sunxi_ion_alloc_vir2phy_cpu. wp_step; [now apply wp_ret |]. apply lookup_keeps; [tauto | assumption].
  - unfold sunxi_ion_alloc_phy2vir_cpu. wp_step; [now apply wp_ret |]. apply lookup_keeps; [tauto | assumption].
  - now apply alloc_drm_keeps.
  - unfold sunxi_ion_alloc_get_bufferFd, get_bufferFd_priv. wp_step; [now apply wp_ret |]. apply lookup_keeps; [tauto | assumption].
  - unfold sunxi_ion_alloc_get_viraddr_byFd. apply lookup_keeps; [tauto | assumption].
  - unfold sunxi_ion_alloc_set_iommu_dev_path. wp_step; [now apply wp_ret |]. cbv zeta. do 2 wp_step. destruct (cstring (strncpy dev_path 32)) as [q |] eqn:E.
    + apply (wp_ret F). split; [assumption |]. split; [now exists q | exact Hi].
    + apply HF. intros [H1 H2]. destruct (cstring_strncpy dev_path H1 H2) as [? E']. congruence.
  - wp_step. eapply wp_mono; [| now apply close_fd_keeps]. intros. now apply wp_ret.
  - unfold sunxi_ion_alloc_merge. wp_step; [now apply wp_ret |]. do 3 wp_step. apply wp_deref. cbn [g_ion_alloc_context]. unfold nodes in Hi.
    destruct (g_ion_alloc_context s) as [c |] eqn:E; [| tauto]. do 2 wp_step. wp_step; [go |]. wp_step. eapply wp_mono; [| apply merge_fds_keeps].
    + intros l s' ->. go.
    + cbn [g_ion_alloc_context]. intros Hbad. apply HF. intros (_ & H1 & H2). destruct Hbad as [[=] | Hbad]. lia.
  - unfold sunxi_ion_alloc_unmerge. wp_step; [now apply wp_ret |]. do 3 wp_step. apply wp_deref. cbn [g_ion_alloc_context]. unfold nodes in Hi.
    destruct (g_ion_alloc_context s) as [c |] eqn:E; [| tauto]. go.
Qed.

Lemma run_keeps os s : Forall op_fine os -> inv s -> wp True (run old iommu optee mg_ionbuffer junk kernel os) (fun _ s' => inv s') s.
Proof.
  intros Hos. revert s. induction Hos as [| o os Ho Hos IH]; intros s Hs; cbn [run]; [now apply wp_ret |].
  wp_step. eapply wp_mono; [| now apply (do_op_keeps True)]. intros r s1 H1. wp_step. eapply wp_mono; [| now apply IH]. intros. now apply wp_ret.
Qed.

Lemma inv_start : inv start.
Proof.
  split; [reflexivity |]. split; [now vm_compute; eexists |]. split; [split; intros; set_solver |].
  split; [apply NoDup_nil_2 | intros x Hx; inversion Hx].
Qed.
End Any_reply.

(** ** Runs without a failed call *)

Definition good (c : call) (r : reply) : Prop :=
  match c with
  | Malloc => ret r <> 0
  | OpenIon | OpenIommu _ => 0 < ret r
  | Mmap _ _ => ret r <> MAP_FAILED
  | Close _ | Munmap _ _ | Ioctl _ _ => ret r = 0
  end.

Definition clean (h : history) : Prop := Forall (fun e => good e.1 e.2) h.

(** Programs only add calls. *)
Definition grows {A} (m : M A) : Prop := forall s x s', m s = Some (x, s') -> clean (hist s') -> clean (hist s).

Lemma grows_ret {A} (x : A) : grows (mret x).
Proof. intros s y s' [= _ <-]. exact id. Qed.
Lemma grows_bind {A B} (m : M A) (k : A -> M B) : grows m -> (forall x, grows (k x)) -> grows (m ≫= k).
Proof.
  intros Hm Hk s y s' E H. unfold mbind, M_bind in E. destruct (m s) as [[x s1] |] eqn:E1; [| discriminate]. exact (Hm _ _ _ E1 (Hk _ _ _ _ E H)).
Qed.
Lemma grows_get {A} (f : st -> A) : grows (get f).
Proof. intros s y s' [= _ <-]. exact id. Qed.
Lemma grows_lock : grows lock.
Proof. intros s y s' E. unfold lock in E. destruct (locked s); [discriminate |]. now injection E as _ <-. Qed.
Lemma grows_unlock : grows unlock.
Proof. intros s y s' [= _ <-]. exact id. Qed.
Lemma grows_set_ctx c : grows (set_ctx c).
Proof. intros s y s' [= _ <-]. exact id. Qed.
Lemma grows_sys kernel c : grows (sys kernel c).
Proof. intros s y s' [= _ <-] H. cbn [hist] in H. now apply Forall_cons_1 in H as [_ H]. Qed.
Lemma grows_sys_ kernel c : grows (sys_ kernel c).
Proof. intros s y s' [= _ <-] H. cbn [hist] in H. now apply Forall_cons_1 in H as [_ H]. Qed.
Lemma grows_fault {A} : grows (A := A) fault.
Proof. discriminate. Qed.
Lemma grows_deref : grows deref.
Proof. apply grows_bind; [apply grows_get |]. intros [c |]; [apply grows_ret | apply grows_fault]. Qed.

Ltac grow :=
  repeat (cbv zeta; first [apply grows_ret | apply grows_get | apply grows_lock | apply grows_unlock | apply grows_set_ctx | apply grows_sys
    | apply grows_sys_ | apply grows_deref | apply grows_fault | assumption | (apply grows_bind; [| intros ?]) | progress case_match]).

(** [Q] of the result and the state, if the run ends and no call of it failed. *)
Definition wpc {A} (m : M A) (Q : A -> st -> Prop) (s : st) : Prop :=
  forall x s', m s = Some (x, s') -> clean (hist s') -> Q x s'.

Lemma wpc_ret {A} (x : A) (Q : A -> st -> Prop) s : (clean (hist s) -> Q x s) -> wpc (mret x) Q s.
Proof. intros H y s' [= <- <-]. exact H. Qed.
Lemma wpc_bind {A B} (m : M A) (k : A -> M B) Q s : (forall x, grows (k x)) -> wpc m (fun x => wpc (k x) Q) s -> wpc (m ≫= k) Q s.
Proof.
  intros Hk Hm y s' E H. unfold mbind, M_bind in E. destruct (m s) as [[x s1] |] eqn:E1; [| discriminate].
  exact (Hm _ _ E1 (Hk _ _ _ _ E H) _ _ E H).
Qed.
Lemma wpc_mono {A} (m : M A) (Q R : A -> st -> Prop) s : (forall x s', Q x s' -> R x s') -> wpc m Q s -> wpc m R s.
Proof. intros HQ Hm x s' E H. exact (HQ _ _ (Hm _ _ E H)). Qed.
Lemma wpc_get {A} (f : st -> A) (Q : A -> st -> Prop) s : Q (f s) s -> wpc (get f) Q s.
Proof. intros H y s' [= <- <-] _. exact H. Qed.
Lemma wpc_lock Q s : Q tt (St (g_ion_alloc_context s) true (iommu_dev_path s) (hist s)) -> wpc lock Q s.
Proof. intros H y s' E _. unfold lock in E. destruct (locked s); [discriminate |]. injection E as <- <-. exact H. Qed.
Lemma wpc_unlock Q s : Q tt (St (g_ion_alloc_context s) false (iommu_dev_path s) (hist s)) -> wpc unlock Q s.
Proof. intros H y s' [= <- <-] _. exact H. Qed.
Lemma wpc_set_ctx c Q s : Q tt (St c (locked s) (iommu_dev_path s) (hist s)) -> wpc (set_ctx c) Q s.
Proof. intros H y s' [= <- <-] _. exact H. Qed.
Lemma wpc_sys kernel c (Q : reply -> st -> Prop) s :
  (good c (kernel (hist s) c) -> Q (kernel (hist s) c) (St (g_ion_alloc_context s) (locked s) (iommu_dev_path s) ((c, kernel (hist s) c) :: hist s))) ->
  wpc (sys kernel c) Q s.
Proof. intros H y s' [= <- <-] Hc. apply H. cbn [hist] in Hc. now apply Forall_cons_1 in Hc as [Hc _]. Qed.
Lemma wpc_sys_ kernel c (Q : unit -> st -> Prop) s :
  (good c (kernel (hist s) c) -> Q tt (St (g_ion_alloc_context s) (locked s) (iommu_dev_path s) ((c, kernel (hist s) c) :: hist s))) ->
  wpc (sys_ kernel c) Q s.
Proof. intros H y s' [= <- <-] Hc. apply H. cbn [hist] in Hc. now apply Forall_cons_1 in Hc as [Hc _]. Qed.
Lemma wpc_deref Q s c : g_ion_alloc_context s = Some c -> Q c s -> wpc deref Q s.
Proof. intros Hc H y s' E _. unfold deref, get, mbind, M_bind in E. rewrite Hc in E. injection E as <- <-. exact H. Qed.

Lemma wpc_if {A} (b : bool) (m1 m2 : M A) Q s :
  (b = true -> wpc m1 Q s) -> (b = false -> wpc m2 Q s) -> wpc (if b then m1 else m2) Q s.
Proof. destruct b; auto. Qed.

(** A test of a reply that is known to be good. *)
Ltac decided :=
  match goal with
  | H : ret ?r = 0 |- context [ret ?r =? 0] => rewrite H
  | H : ret ?r = 0 |- context [ret ?r <? 0] => rewrite H
  | H : ret ?r <> ?b |- context [ret ?r =? ?b] => rewrite (proj2 (Z.eqb_neq _ _) H)
  | H : 0 < ret ?r |- context [ret ?r <=? 0] => rewrite (proj2 (Z.leb_gt _ _) H)
  | H : 0 < ret ?r |- context [ret ?r <? 0] => rewrite (proj2 (Z.ltb_ge _ _) (Z.lt_le_incl _ _ H))
  end; cbn [negb andb Z.eqb Z.ltb Z.compare].

Ltac wpc_step :=
  lazymatch goal with
  | |- wpc (mbind _ _) _ _ => apply wpc_bind; [intros ?; solve [grow] |]
  | |- wpc (if _ then _ else _) _ _ => apply wpc_if; intros ?
  | |- wpc (mret _) _ _ => apply wpc_ret; intros _
  | |- wpc (get _) _ _ => apply wpc_get; cbn [g_ion_alloc_context iommu_dev_path]
  | |- wpc lock _ _ => apply wpc_lock; cbn [g_ion_alloc_context locked iommu_dev_path hist]
  | |- wpc unlock _ _ => apply wpc_unlock; cbn [g_ion_alloc_context locked iommu_dev_path hist]
  | |- wpc (set_ctx _) _ _ => apply wpc_set_ctx; cbn [g_ion_alloc_context locked iommu_dev_path hist]
  | |- wpc (sys _ _) _ _ => apply wpc_sys; cbn [good]; intros ?; cbn [g_ion_alloc_context locked iommu_dev_path hist] in *
  | |- wpc (sys_ _ _) _ _ => apply wpc_sys_; cbn [good]; intros ?; cbn [g_ion_alloc_context locked iommu_dev_path hist] in *
  end.

Lemma held_cons e h : held_of (e :: h) = step_held e (held_of h).
Proof. reflexivity. Qed.

Ltac works := repeat first [decided | wpc_step].
Ltac holds := cbn [hist]; rewrite ?held_cons; cbn [step_held h_fds h_maps h_handles h_iovas h_engines]; repeat decided; unfold add_fd;
  cbn [h_fds h_maps h_handles h_iovas h_engines].

Section Clean_run.
Context (old iommu optee mg_ionbuffer : bool) (junk : Z) (kernel : history -> call -> reply).

(** A new descriptor and a new handle are not in use. *)
Definition fd_fresh : Prop := forall h c,
  match c with
  | OpenIon | OpenIommu _ => ret (kernel h c) ∉ h_fds (held_of h)
  | Ioctl _ (ION_IOC_MAP _) | Ioctl _ (ION_IOC_NEW_ALLOC _ _ _) => val (kernel h c) ∉ h_fds (held_of h)
  | Ioctl _ (ION_IOC_ALLOC _ _ _) => val (kernel h c) ∉ h_handles (held_of h)
  | _ => True
  end.

Context (Hfd : fd_fresh) (Hmmap : mmap_fresh kernel).

(** What a node stands for, added to and taken from what is held. *)
Definition take_node (n : buffer_node) (x : held) : held :=
  Held ({[aw_fd n]} ∪ h_fds x) ({[buf n]} ∪ h_maps x) (if old then {[handle n]} ∪ h_handles x else h_handles x)
    (if iommu then {[aw_fd n]} ∪ h_iovas x else h_iovas x) (if iommu then h_engines x + 1 else h_engines x).
Definition drop_node (n : buffer_node) (x : held) : held :=
  Held (h_fds x ∖ {[aw_fd n]}) (h_maps x ∖ {[buf n]}) (h_handles x ∖ {[handle n]})
    (if iommu then h_iovas x ∖ {[aw_fd n]} else h_iovas x) (if iommu then h_engines x - 1 else h_engines x).

(** The same lock and context. *)
Definition calls_only (s s' : st) : Prop := g_ion_alloc_context s' = g_ion_alloc_context s /\ locked s' = locked s.

Lemma grows_ion_alloc o c n mask flags : grows (ion_alloc kernel o c n mask flags).
Proof. unfold ion_alloc. grow. Qed.
Lemma grows_phys_addr o c hnd afd n : grows (phys_addr kernel o c hnd afd n).
Proof. unfold phys_addr. grow. Qed.
Lemma grows_free_iommu c afd : grows (free_iommu kernel iommu c afd).
Proof. unfold free_iommu. grow. Qed.

Lemma ion_alloc_works o c n mask flags s :
  wpc (ion_alloc kernel o c n mask flags) (fun b s' => exists hnd afd, b = Some (hnd, afd) /\ calls_only s s' /\
    let x := held_of (hist s) in
    held_of (hist s') = Held ({[afd]} ∪ h_fds x) (h_maps x) (if o then {[hnd]} ∪ h_handles x else h_handles x) (h_iovas x) (h_engines x) /\
    afd ∉ h_fds x /\ (if o then hnd ∉ h_handles x else True)) s.
Proof.
  unfold ion_alloc. destruct o; works; eexists _, _; (split; [reflexivity |]); (split; [now split |]); cbv zeta; holds; (split; [reflexivity |]).
  - split; [| exact (Hfd _ (Ioctl _ (ION_IOC_ALLOC _ _ _)))].
    match goal with |- val (kernel ?h ?q) ∉ _ => generalize (Hfd h q) end. holds. intros Hf. exact Hf.
  - split; [exact (Hfd _ (Ioctl _ (ION_IOC_NEW_ALLOC _ _ _))) | exact I].
Qed.

Ltac grow ::=
  repeat (cbv zeta; first [apply grows_ret | apply grows_get | apply grows_lock | apply grows_unlock | apply grows_set_ctx | apply grows_sys
    | apply grows_sys_ | apply grows_deref | apply grows_fault | apply grows_ion_alloc | apply grows_phys_addr | apply grows_free_iommu
    | assumption | (apply grows_bind; [| intros ?]) | progress case_match]).

Lemma phys_addr_works o c hnd afd n s :
  wpc (phys_addr kernel o c hnd afd n) (fun b s' => exists p, b = Some p /\ calls_only s s' /\
    let x := held_of (hist s) in
    held_of (hist s') = Held (h_fds x) (h_maps x) (h_handles x) (if o then {[afd]} ∪ h_iovas x else h_iovas x) (if o then h_engines x + 1 else h_engines x)) s.
Proof.
  unfold phys_addr. destruct o; works; eexists; (split; [reflexivity |]); (split; [now split |]); cbv zeta; holds; [reflexivity |].
  now destruct (held_of (hist s)).
Qed.

Lemma palloc_works n c s :
  g_ion_alloc_context s = Some c -> 0 < n ->
  wpc (sunxi_ion_alloc_palloc old iommu mg_ionbuffer kernel n) (fun a s' => exists node, vir node = a /\
    g_ion_alloc_context s' = Some (with_list c (list_ c ++ [node])) /\ locked s' = false /\ fd_closed node = 0 /\
    (buf node = (a, n) /\ 0 < a) /\ held_of (hist s') = take_node node (held_of (hist s)) /\
    aw_fd node ∉ h_fds (held_of (hist s)) /\ buf node ∉ h_maps (held_of (hist s)) /\ (if old then handle node ∉ h_handles (held_of (hist s)) else True)) s.
Proof.
  intros Hc Hn. unfold sunxi_ion_alloc_palloc, take_node. do 4 wpc_step. rewrite Hc. assert ((n <=? 0) = false) as -> by lia. cbv zeta.
  wpc_step. eapply wpc_mono; [| apply ion_alloc_works]. intros b s1 (hnd & afd & -> & [Hc1 Hl1] & E1 & Hf1 & Hh1). cbn [hist] in E1, Hf1, Hh1.
  do 2 wpc_step. destruct (Hmmap (hist s1) n afd Hn H) as (Ha & _ & Hap). decided. wpc_step.
  eapply wpc_mono; [| apply phys_addr_works]. intros b s2 (p & -> & [Hc2 Hl2] & E2). cbn [hist] in E2. works.
  eexists (Node _ _ _ _ _ _ _ _). unfold buf. cbn [vir fd_closed user_virt size aw_fd handle]. do 4 (split; [reflexivity |]). split; [split; [reflexivity | exact Ha] |].
  split; [| split; [exact Hf1 |]; split; [| exact Hh1]].
  - holds. rewrite E2. holds. now rewrite E1.
  - intros Hin. rewrite E1 in Hap. destruct (Hap _ Hin) as [H' | H']; cbn [fst snd] in H'; lia.
Qed.

Lemma drop_works c s n l :
  g_ion_alloc_context s = Some c -> vir n <> 0 -> List.find (at_vir (vir n)) (list_ c) = Some n -> fd_closed n = 0 ->
  del_first (at_vir (vir n)) (list_ c) = l ->
  wpc (sunxi_ion_alloc_pfree iommu kernel (vir n)) (fun _ s' =>
    g_ion_alloc_context s' = Some (with_list c l) /\ locked s' = false /\ held_of (hist s') = drop_node n (held_of (hist s))) s.
Proof.
  intros Hc Hv Hf Hcl <-. unfold sunxi_ion_alloc_pfree, free_iommu, drop_node. assert ((vir n =? 0) = false) as -> by lia.
  do 4 wpc_step. rewrite Hc, Hf. wpc_step. rewrite Hcl. cbn [Z.eqb]. destruct iommu; works;
    (split; [reflexivity |]); (split; [reflexivity |]); holds; reflexivity.
Qed.

Definition fds_of (c : ion_alloc_context) : list Z := (fd c :: if iommu then [iommu_dev_fd c] else []) ++ (aw_fd <$> list_ c).

(** The devices, and what each buffer of the list needs. *)
Definition resources (c : ion_alloc_context) : held :=
  Held (list_to_set (fds_of c)) (list_to_set (buf <$> list_ c)) (if old then list_to_set (handle <$> list_ c) else ∅)
    (if iommu then list_to_set (aw_fd <$> list_ c) else ∅) (if iommu then Z.of_nat (length (list_ c)) else 0).

Definition live (n : buffer_node) : Prop := fd_closed n = 0 /\ 0 < vir n.

Definition tight (c : ion_alloc_context) (s : st) : Prop :=
  g_ion_alloc_context s = Some c /\ locked s = false /\ NoDup (fds_of c) /\ NoDup (buf <$> list_ c) /\
  (if old then NoDup (handle <$> list_ c) else True) /\ Forall live (list_ c) /\ held_of (hist s) = resources c.

Lemma set_add (l : list Z) x : list_to_set (l ++ [x]) = ({[x]} ∪ list_to_set l : gset Z).
Proof. rewrite list_to_set_app_L. set_solver. Qed.

Lemma nodup_add {A} (l : list A) x : NoDup l -> x ∉ l -> NoDup (l ++ [x]).
Proof. intros Hd Hx. apply list.NoDup_app. split; [assumption |]. split; [| apply NoDup_singleton]. intros y Hy ->%list_elem_of_singleton. contradiction. Qed.

Lemma set_drop {A} `{EqDecision A, !Countable A} (l1 l2 : list A) x :
  NoDup (l1 ++ x :: l2) -> (list_to_set (l1 ++ x :: l2) ∖ {[x]} : gset A) = list_to_set (l1 ++ l2).
Proof.
  intros (_ & Hx & [Hx2 _]%list.NoDup_cons)%list.NoDup_app. assert (x ∉ l1) by (intros H1; apply (Hx x H1); now left).
  rewrite !list_to_set_app_L, list_to_set_cons. set_solver.
Qed.

Lemma nodup_drop {A} (l1 l2 : list A) x : NoDup (l1 ++ x :: l2) -> NoDup (l1 ++ l2).
Proof.
  intros (H1 & Hx & [_ H2]%list.NoDup_cons)%list.NoDup_app. apply list.NoDup_app. split; [assumption |]. split; [| assumption].
  intros y Hy Hy'. apply (Hx y Hy). now right.
Qed.

Lemma palloc_tight n c s :
  tight c s -> wpc (sunxi_ion_alloc_palloc old iommu mg_ionbuffer kernel n) (fun _ s' => exists c', tight c' s' /\ ref_cnt c' = ref_cnt c) s.
Proof.
  intros (Hc & Hl & Hf & Hb & Hh & Hv & E). destruct (Z.leb_spec n 0) as [Hn | Hn].
  - unfold sunxi_ion_alloc_palloc. do 4 wpc_step. rewrite Hc. assert ((n <=? 0) = true) as -> by lia. do 3 wpc_step.
    exists c. split; [| reflexivity]. split; [reflexivity |]. split; [reflexivity |]. auto.
  - eapply wpc_mono; [| apply (palloc_works n c s Hc Hn)]. intros a s' (node & <- & Hc' & Hl' & Hcl & [Hbuf Hpos] & E' & Hfn & Hbn & Hhn).
    rewrite E in E', Hfn, Hbn, Hhn. cbn [h_fds h_maps h_handles resources] in Hfn, Hbn, Hhn. rewrite elem_of_list_to_set in Hfn. rewrite elem_of_list_to_set in Hbn.
    exists (with_list c (list_ c ++ [node])). split; [| reflexivity]. split; [exact Hc' |]. split; [exact Hl' |].
    unfold fds_of, tight, resources. cbn [fd iommu_dev_fd list_ with_list]. rewrite !fmap_app. cbn [fmap list_fmap].
    split; [rewrite app_assoc; now apply nodup_add |]. split; [now apply nodup_add |].
    split; [destruct old; [apply nodup_add; [assumption |]; now rewrite elem_of_list_to_set in Hhn | exact I] |].
    split; [apply Forall_app; split; [assumption |]; constructor; [now split | constructor] |].
    rewrite E'. unfold take_node, resources, fds_of. cbn [h_fds h_maps h_handles h_iovas h_engines].
    f_equal.
    + cbn [fd iommu_dev_fd list_ with_list]. now rewrite fmap_app, list_fmap_singleton, app_assoc, set_add.
    + rewrite (list_to_set_app_L (buf <$> list_ c)). set_solver.
    + destruct old; [now rewrite set_add | reflexivity].
    + destruct iommu; [now rewrite set_add | reflexivity].
    + destruct iommu; [rewrite length_app; cbn [length]; lia | reflexivity].
Qed.

Lemma pfree_tight p c s :
  tight c s -> wpc (sunxi_ion_alloc_pfree iommu kernel p) (fun _ s' => exists c', tight c' s' /\ ref_cnt c' = ref_cnt c) s.
Proof.
  intros Ht. pose proof Ht as (Hc & Hl & Hf & Hb & Hh & Hv & E).
  destruct (List.find (at_vir p) (list_ c)) as [n |] eqn:Ef.
  - destruct (del_first_split _ _ _ Ef) as (l1 & l2 & El & Ed & _ & Hn). apply Z.eqb_eq in Hn. subst p.
    assert (live n) as [Hcl Hpos] by (rewrite list.Forall_forall in Hv; apply Hv; rewrite El; apply elem_of_app; right; now left).
    eapply wpc_mono; [| apply (drop_works c s n (l1 ++ l2) Hc ltac:(lia) Ef Hcl Ed)]. intros _ s' (Hc' & Hl' & E').
    exists (with_list c (l1 ++ l2)). split; [| reflexivity]. split; [exact Hc' |]. split; [exact Hl' |].
    unfold fds_of, tight, resources in *. cbn [fd iommu_dev_fd list_ with_list]. rewrite El, fmap_app, fmap_cons in Hf. rewrite El, fmap_app, fmap_cons in Hb. rewrite El, fmap_app, fmap_cons in Hh. rewrite app_assoc in Hf.
    rewrite El in Hv. apply Forall_app in Hv as [Hv1 Hv2]. apply Forall_cons_1 in Hv2 as [_ Hv2].
    rewrite !fmap_app, (app_assoc _ (aw_fd <$> l1)). split; [now apply nodup_drop in Hf |]. split; [now apply nodup_drop in Hb |].
    split; [destruct old; [now apply nodup_drop in Hh | exact I] |]. split; [now apply Forall_app |].
    rewrite E', E. unfold drop_node, resources. cbn [h_fds h_maps h_handles h_iovas h_engines list_ with_list]. rewrite ?El. f_equal.
    + unfold fds_of. cbn [fd iommu_dev_fd list_ with_list]. rewrite ?El, !fmap_app, fmap_cons, !(app_assoc _ (aw_fd <$> l1)). now apply set_drop.
    + rewrite fmap_app, fmap_cons. now apply set_drop.
    + destruct old; [| set_solver]. rewrite fmap_app, fmap_cons. now apply set_drop.
    + destruct iommu; [| reflexivity]. rewrite !fmap_app, fmap_cons. apply set_drop. rewrite <- app_assoc in Hf. now apply list.NoDup_app in Hf as (_ & _ & Hf).
    + destruct iommu; [rewrite !length_app; cbn [length]; lia | reflexivity].
  - unfold sunxi_ion_alloc_pfree. wpc_step; [wpc_step; now exists c |]. do 4 wpc_step. rewrite Hc, Ef. do 3 wpc_step. exists c.
    split; [| reflexivity]. split; [reflexivity |]. split; [reflexivity |]. auto.
Qed.

Definition plain (o : op) : bool :=
  match o with OpPalloc _ | OpPfree _ | OpGetPhyaddr _ | OpGetViraddr _ | OpGetBufferFd _ | OpGetViraddrByFd _ => true | _ => false end.

Lemma lookup_tight {A} (f : ion_alloc_context -> A) c s :
  tight c s -> wpc (lock;; c ← deref; unlock;; mret (f c)) (fun _ s' => exists c', tight c' s' /\ ref_cnt c' = ref_cnt c) s.
Proof.
  intros (Hc & Hl & H). do 3 wpc_step. apply (wpc_deref _ _ c); [exact Hc |]. do 3 wpc_step. exists c. split; [| reflexivity].
  split; [exact Hc |]. split; [reflexivity | exact H].
Qed.

Lemma do_op_tight o c s :
  plain o = true -> tight c s -> wpc (do_op old iommu optee mg_ionbuffer junk kernel o) (fun _ s' => exists c', tight c' s' /\ ref_cnt c' = ref_cnt c) s.
Proof.
  intros Ho Ht. assert (exists c', tight c' s /\ ref_cnt c' = ref_cnt c) as Hsame by now exists c.
  destruct o; try discriminate Ho; cbn [do_op].
  - now apply palloc_tight.
  - wpc_step. eapply wpc_mono; [| apply (pfree_tight _ c); assumption]. intros. now wpc_step.
  - unfold sunxi_ion_alloc_vir2phy_cpu. wpc_step; [now wpc_step |]. apply (lookup_tight _ c); assumption.
  - unfold sunxi_ion_alloc_phy2vir_cpu. wpc_step; [now wpc_step |]. apply (lookup_tight _ c); assumption.
  - unfold sunxi_ion_alloc_get_bufferFd, get_bufferFd_priv. wpc_step; [now wpc_step |]. apply (lookup_tight _ c); assumption.
  - unfold sunxi_ion_alloc_get_viraddr_byFd. apply (lookup_tight _ c); assumption.
Qed.

Lemma grows_plain o : plain o = true -> grows (do_op old iommu optee mg_ionbuffer junk kernel o).
Proof.
  destruct o; try discriminate; intros _; cbn [do_op];
    unfold sunxi_ion_alloc_palloc, sunxi_ion_alloc_pfree, sunxi_ion_alloc_vir2phy_cpu, sunxi_ion_alloc_phy2vir_cpu, sunxi_ion_alloc_get_bufferFd,
      get_bufferFd_priv, sunxi_ion_alloc_get_viraddr_byFd; grow.
Qed.

Lemma grows_run os : forallb plain os = true -> grows (run old iommu optee mg_ionbuffer junk kernel os).
Proof.
  induction os as [| o os IH]; intros Hos; cbn [run]; [apply grows_ret |]. cbn [forallb] in Hos. apply andb_true_iff in Hos as [Ho Hos].
  apply grows_bind; [now apply grows_plain |]. intros r. apply grows_bind; [now apply IH |]. intros rs. apply grows_ret.
Qed.

Lemma run_tight os c s :
  forallb plain os = true -> tight c s -> wpc (run old iommu optee mg_ionbuffer junk kernel os) (fun _ s' => exists c', tight c' s' /\ ref_cnt c' = ref_cnt c) s.
Proof.
  revert c s. induction os as [| o os IH]; intros c s Hos Ht; cbn [run]; [apply wpc_ret; intros _; now exists c |].
  cbn [forallb] in Hos. apply andb_true_iff in Hos as [Ho Hos]. pose proof (grows_run os Hos) as Hg. wpc_step. eapply wpc_mono; [| apply (do_op_tight _ c); assumption]. intros r s1 (c1 & Ht1 & E1).
  wpc_step. eapply wpc_mono; [| apply (IH c1 s1 Hos Ht1)]. intros rs s2 (c2 & Ht2 & E2). apply wpc_ret; intros _. exists c2. split; [assumption | congruence].
Qed.

Lemma open_tight s q :
  g_ion_alloc_context s = None -> held_of (hist s) = nothing -> cstring (iommu_dev_path s) = Some q ->
  wpc (sunxi_ion_alloc_open iommu kernel) (fun _ s' => exists c, tight c s' /\ ref_cnt c = 1) s.
Proof.
  intros Hn H0 Hq. unfold sunxi_ion_alloc_open. do 4 wpc_step. rewrite Hn. do 2 wpc_step. decided. do 2 wpc_step. decided. do 3 wpc_step. rewrite Hq.
  destruct iommu eqn:Ei; cbn [andb]; works; (eexists (Context_ _ _ [] 1); split; [| reflexivity]); unfold tight, resources, fds_of; rewrite ?Ei;
    cbn [g_ion_alloc_context locked list_ fd iommu_dev_fd fmap list_fmap length list_to_set]; (split; [reflexivity |]); (split; [reflexivity |]); rewrite ?app_nil_r.
  all: holds; rewrite H0; unfold nothing; cbn [h_fds h_maps h_handles h_iovas h_engines].
  - split; [apply list.NoDup_cons; split; [| apply NoDup_singleton] |].
    + intros Hin%list_elem_of_singleton.
      match type of Hin with _ = ret (kernel ?h ?c) => generalize (Hfd h c) end. holds. rewrite H0, <- Hin. set_solver.
    + split; [apply NoDup_nil_2 |]. split; [destruct old; [apply NoDup_nil_2 | exact I] |]. split; [constructor |]. f_equal; first [now destruct old | set_solver].
  - split; [apply NoDup_singleton |]. split; [apply NoDup_nil_2 |]. split; [destruct old; [apply NoDup_nil_2 | exact I] |]. split; [constructor |].
    f_equal; first [now destruct old | set_solver].
Qed.

Lemma close_tight c s :
  tight c s -> ref_cnt c = 1 -> list_ c = [] ->
  wpc (sunxi_ion_alloc_close iommu kernel) (fun _ s' => g_ion_alloc_context s' = None /\ held_of (hist s') = nothing) s.
Proof.
  intros (Hc & Hl & Hf & _ & _ & _ & E) Hr Hnil. unfold sunxi_ion_alloc_close. do 3 wpc_step. apply (wpc_deref _ _ c); [exact Hc |]. rewrite Hr.
  cbv zeta. change (s32 (1 - 1) <=? 0) with true. cbv iota. destruct iommu eqn:Ei; works; (split; [reflexivity |]); holds; rewrite E; unfold resources, fds_of, nothing;
    cbn [h_fds h_maps h_handles h_iovas h_engines]; rewrite Hnil, Ei; cbn [fmap list_fmap list_to_set app length]; (f_equal; first [now destruct old | set_solver]).
Qed.
End Clean_run.

(** ** Lemmas: lookups *)

Lemma find_only {A} (f : A -> bool) l x : x ∈ l -> f x = true -> (forall y, y ∈ l -> f y = true -> y = x) -> List.find f l = Some x.
Proof.
  induction l as [| y l IH]; intros Hin Hx Hu; [inversion Hin |]. cbn [List.find]. destruct (f y) eqn:E; [f_equal; apply Hu; [now left | assumption] |].
  apply elem_of_cons in Hin as [-> | Hin]; [congruence |]. apply IH; [assumption | assumption |]. intros z Hz. apply Hu. now right.
Qed.

Lemma nodup_inj {A B} (f : A -> B) l x y : NoDup (f <$> l) -> x ∈ l -> y ∈ l -> f x = f y -> x = y.
Proof.
  induction l as [| z l IH]; intros Hd Hx Hy E; [inversion Hx |]. rewrite fmap_cons in Hd. apply list.NoDup_cons in Hd as [Hz Hd].
  apply elem_of_cons in Hx. apply elem_of_cons in Hy. destruct Hx as [-> | Hx], Hy as [-> | Hy]; [reflexivity | | | now apply IH].
  - destruct Hz. rewrite E. now apply list_elem_of_fmap_2.
  - destruct Hz. rewrite <- E. now apply list_elem_of_fmap_2.
Qed.

Lemma lookup_run {A} (f : ion_alloc_context -> A) s c :
  g_ion_alloc_context s = Some c -> locked s = false -> (lock;; c ← deref; unlock;; mret (f c)) s = Some (f c, s).
Proof. destruct s as [g l p h]. cbn. intros -> ->. reflexivity. Qed.

(** The buffers of a state the invariant holds of. *)
Lemma inv_buffers s n m :
  inv s -> n ∈ nodes s -> m ∈ nodes s ->
  vir n = user_virt n /\ buf n ∈ maps_of (hist s) /\ 0 < vir n /\ 0 < size n /\ vir n + size n < 2 ^ 32 /\ (n <> m -> apart (buf n) (buf m)).
Proof.
  intros (_ & _ & [[Hpos Hap] [Hd Hn]]) Hin Him. destruct (Hn n Hin) as [Hv Hmap]. destruct (Hn m Him) as [_ Hmap'].
  destruct (Hpos _ Hmap) as (H1 & H2 & H3). unfold buf in H1, H2, H3. cbn [fst snd] in H1, H2, H3. rewrite Hv.
  split; [reflexivity |]. split; [assumption |]. split; [assumption |]. split; [assumption |]. split; [assumption |].
  intros Hne. apply Hap; [assumption | assumption |]. intros E. apply Hne. exact (nodup_inj buf _ _ _ Hd Hin Him E).
Qed.

(** ** Properties *)

(** C29: Whatever the kernel replies, as long as a new mapping is a region of its own: after any
    operations the lock is free, every buffer of the list is mapped where its node says and the
    buffers are apart from each other; and an operation whose precondition holds does not
    fault.  Secure memory only where its address is that of the mapping. *)
Theorem allocator_safe old iommu optee mg_ionbuffer junk kernel os rs s :
  mmap_fresh kernel -> Forall (op_fine optee) os -> run old iommu optee mg_ionbuffer junk kernel os start = Some (rs, s) ->
  locked s = false /\
  (forall n m, n ∈ nodes s -> m ∈ nodes s ->
     vir n = user_virt n /\ buf n ∈ maps_of (hist s) /\ 0 < vir n /\ 0 < size n /\ vir n + size n < 2 ^ 32 /\ (n <> m -> apart (buf n) (buf m))) /\
  (forall o, op_fine optee o -> safe o s -> is_Some (do_op old iommu optee mg_ionbuffer junk kernel o s)).
Proof.
  intros Hm Hos E. assert (inv s) as Hi.
  { pose proof (run_keeps old iommu optee mg_ionbuffer junk kernel Hm os start Hos (inv_start kernel Hm)) as H. unfold wp in H. now rewrite E in H. }
  split; [apply Hi |]. split; [intros n m; now apply inv_buffers |]. intros o Ho Hs.
  pose proof (do_op_keeps old iommu optee mg_ionbuffer junk kernel Hm False o s ltac:(tauto) Ho Hi) as H. unfold wp in H.
  destruct (do_op _ _ _ _ _ _ _ _) as [[r s'] |]; [now eexists | contradiction].
Qed.

(** Every address of a buffer is translated to that of the same byte for the devices; and
    back, when the buffers are apart for the devices too. *)
Theorem translation_exact old iommu optee mg_ionbuffer junk kernel os rs s n k :
  mmap_fresh kernel -> Forall (op_fine optee) os -> run old iommu optee mg_ionbuffer junk kernel os start = Some (rs, s) ->
  n ∈ nodes s -> 0 <= k < size n ->
  sunxi_ion_alloc_vir2phy_cpu (vir n + k) s = Some (u32 (phy n + k), s) /\
  sunxi_ion_alloc_get_bufferFd (vir n + k) s = Some (aw_fd n, s) /\
  (0 < phy n -> (forall m, m ∈ nodes s -> 0 < phy m /\ phy m + size m < 2 ^ 32 /\ (m <> n -> apart (phy m, size m) (phy n, size n))) ->
   sunxi_ion_alloc_phy2vir_cpu (phy n + k) s = Some (vir n + k, s)).
Proof.
  intros Hm Hos E Hin Hk. assert (inv s) as Hi.
  { pose proof (run_keeps old iommu optee mg_ionbuffer junk kernel Hm os start Hos (inv_start kernel Hm)) as H. unfold wp in H. now rewrite E in H. }
  pose proof (inv_buffers s n n Hi Hin Hin) as (Hv & _ & H0 & H1 & H2 & _).
  assert (exists c, g_ion_alloc_context s = Some c /\ nodes s = list_ c) as (c & Hc & Hl).
  { unfold nodes in *. destruct (g_ion_alloc_context s) as [c |]; [now exists c | inversion Hin]. }
  assert (List.find (fun m => in_range (vir n + k) (vir m) (size m)) (list_ c) = Some n) as Hf.
  { rewrite <- Hl. apply find_only; [assumption | unfold in_range; rewrite u32_id by lia; lia |].
    intros m Him Hr. destruct (decide (m = n)) as [| Hne]; [assumption |]. destruct (inv_buffers s m n Hi Him Hin) as (Hvm & _ & H0m & H1m & H2m & Hap).
    unfold in_range in Hr. rewrite u32_id in Hr by lia. destruct (Hap Hne) as [Ha | Ha]; unfold buf in Ha; cbn [fst snd] in Ha; rewrite <- Hvm, <- Hv in Ha; lia. }
  unfold sunxi_ion_alloc_vir2phy_cpu, sunxi_ion_alloc_get_bufferFd, get_bufferFd_priv, sunxi_ion_alloc_phy2vir_cpu.
  assert ((vir n + k =? 0) = false) as -> by lia. split; [| split].
  - rewrite (lookup_run _ s c Hc) by apply Hi. rewrite Hf. do 3 f_equal. lia.
  - rewrite (lookup_run _ s c Hc) by apply Hi. now rewrite Hf.
  - intros Hp Hap. destruct (Hap n Hin) as (_ & H3 & _). assert ((phy n + k =? 0) = false) as -> by lia. rewrite (lookup_run _ s c Hc) by apply Hi.
    assert (List.find (fun m => in_range (phy n + k) (phy m) (size m)) (list_ c) = Some n) as ->; [| rewrite u32_id by lia; do 2 f_equal; lia].
    rewrite <- Hl. apply find_only; [assumption | unfold in_range; rewrite u32_id by lia; lia |].
    intros m Him Hr. destruct (decide (m = n)) as [| Hne]; [assumption |]. destruct (Hap m Him) as (H0m & H2m & Ha).
    destruct (inv_buffers s m n Hi Him Hin) as (_ & _ & _ & H1m & _ & _). unfold in_range in Hr. rewrite u32_id in Hr by lia.
    destruct (Ha Hne) as [Ha' | Ha']; cbn [fst snd] in Ha'; lia.
Qed.

(** C16: A run of [open] and then allocations, releases and lookups of addresses and descriptors in
    which every call on the kernel succeeds: the process holds the devices and what each buffer of the list needs, once,
    and nothing else; when every buffer has been released, [close], if its calls succeed too, leaves nothing.  The
    kernel gives descriptors, handles and regions that are not in use.  Not in the run: a second [open] or [close],
    imported and merged buffers ([merge_keeps_engine], [closed_twice]). *)
Theorem held_exactly old iommu optee mg_ionbuffer junk kernel os rs s :
  fd_fresh kernel -> mmap_fresh kernel -> forallb plain os = true ->
  run old iommu optee mg_ionbuffer junk kernel (OpOpen :: os) start = Some (rs, s) -> clean (hist s) ->
  exists c, g_ion_alloc_context s = Some c /\ held_of (hist s) = resources old iommu c /\
  (list_ c = [] -> exists s', sunxi_ion_alloc_close iommu kernel s = Some (tt, s') /\ (clean (hist s') -> held_of (hist s') = nothing)).
Proof.
  intros Hfd Hm Hos E Hcl.
  assert (wpc (run old iommu optee mg_ionbuffer junk kernel (OpOpen :: os)) (fun _ s' => exists c, tight old iommu c s' /\ ref_cnt c = 1) start) as H.
  { cbn [run]. pose proof (grows_run old iommu optee mg_ionbuffer junk kernel os Hos) as Hg. apply wpc_bind; [intros r; apply grows_bind; [assumption | intros; apply grows_ret] |].
    cbn [do_op]. eapply wpc_mono; [| exact (open_tight old iommu kernel Hfd Hm start (lit "/dev/cedar_dev") eq_refl eq_refl eq_refl)].
    intros r s1 (c & Ht & Hr). apply wpc_bind; [intros; apply grows_ret |].
    eapply wpc_mono; [| apply (run_tight old iommu optee mg_ionbuffer junk kernel Hfd Hm os c s1 Hos Ht)]. intros rs1 s2 (c2 & Ht2 & Hr2).
    apply wpc_ret. intros _. exists c2. split; [assumption | congruence]. }
  destruct (H _ _ E Hcl) as (c & Ht & Hr). exists c. pose proof Ht as (Hc & Hl & _ & _ & _ & _ & Eh). split; [assumption |]. split; [assumption |].
  intros Hnil. pose proof (close_tight old iommu kernel Hfd Hm c s Ht Hr Hnil) as Hclose. unfold wpc in Hclose.
  destruct (sunxi_ion_alloc_close iommu kernel s) as [[[] s'] |] eqn:Ec; [exists s'; split; [reflexivity |]; intros Hc'; now apply (Hclose tt s') |].
  exfalso. assert (wp False (sunxi_ion_alloc_close iommu kernel) (fun _ _ => True) s) as Hwp; [| unfold wp in Hwp; now rewrite Ec in Hwp].
  unfold sunxi_ion_alloc_close. do 3 wp_step. apply wp_deref. cbn [g_ion_alloc_context]. rewrite Hc. cbv zeta. repeat first [exact I | wp_step].
Qed.

(** A buffer whose memory cannot be mapped: nothing is returned, and its descriptor stays open. *)
Theorem palloc_failure_leaks old iommu mg_ionbuffer kernel n s c :
  g_ion_alloc_context s = Some c -> locked s = false -> 0 < n -> fd_fresh kernel ->
  (forall h d q, ret (kernel h (Ioctl d q)) = 0) -> (forall h f, ret (kernel h (Mmap n f)) = MAP_FAILED) ->
  exists s' f, sunxi_ion_alloc_palloc old iommu mg_ionbuffer kernel n s = Some (0, s') /\ g_ion_alloc_context s' = Some c /\
  f ∉ h_fds (held_of (hist s)) /\ f ∈ h_fds (held_of (hist s')).
Proof.
  intros Hc Hl Hn Hfd Hio Hmm.
  assert (wp False (sunxi_ion_alloc_palloc old iommu mg_ionbuffer kernel n) (fun a s' => a = 0 /\ exists f, g_ion_alloc_context s' = Some c /\
    f ∉ h_fds (held_of (hist s)) /\ f ∈ h_fds (held_of (hist s'))) s) as H.
  2: { unfold wp in H. destruct (sunxi_ion_alloc_palloc _ _ _ _ _ _) as [[a s'] |]; [destruct H as (-> & f & H) | contradiction]. now exists s', f. }
  unfold sunxi_ion_alloc_palloc, ion_alloc. do 4 wp_step. rewrite Hc. assert ((n <=? 0) = false) as -> by lia. cbv zeta.
  destruct old; repeat first [progress (rewrite ?Hio, ?Hmm, ?Z.eqb_refl; cbn [negb Z.eqb Z.ltb Z.compare]) | wp_step];
    (split; [reflexivity |]); eexists; (split; [reflexivity |]); cbn [hist].
  - match goal with |- _ /\ _ ∈ h_fds (held_of (_ :: (?q, kernel ?h _) :: _)) => generalize (Hfd h q) end.
    rewrite !held_cons. cbn [step_held]. rewrite !Hio, !Hmm. cbn [Z.eqb]. rewrite Z.eqb_refl. unfold add_fd. cbn [h_fds]. intros Hf. split; [exact Hf | set_solver].
  - match goal with |- _ /\ _ ∈ h_fds (held_of (_ :: (?q, kernel ?h _) :: _)) => generalize (Hfd h q) end.
    rewrite !held_cons. cbn [step_held]. rewrite !Hio, !Hmm. cbn [Z.ltb Z.compare]. rewrite Z.eqb_refl. unfold add_fd. cbn [h_fds]. intros Hf. split; [exact Hf | set_solver].
Qed.

(** A path of 32 bytes is accepted and has no terminator in the array. *)
Theorem path_of_32 l s : length l = 32%nat -> cstr_ok l -> sunxi_ion_alloc_set_iommu_dev_path l s = None.
Proof.
  intros Hl Hc. unfold sunxi_ion_alloc_set_iommu_dev_path. rewrite Hl. cbn [Z.of_nat Pos.of_succ_nat Z.ltb Z.compare]. unfold mbind, M_bind, set_path.
  assert (cstring (strncpy l 32) = None) as E; [| change (32 <? 32) with false; cbv zeta iota; now rewrite E].
  unfold strncpy, cstring. rewrite take_ge, Hl, app_nil_r by lia. clear Hl. induction Hc as [| c l Hc0 Hc IH]; [reflexivity |]. cbn [strlen].
  destruct (Z.eqb_spec c 0); [lia |]. destruct (strlen l); [discriminate IH | reflexivity].
Qed.

(** ** Examples *)

(** A kernel: the first free descriptors and handles, mappings and device addresses one
    behind the other. *)
Definition next_of (l : list Z) : Z := 1 + foldr Z.max 0 l.
Definition top_of (l : list (Z * Z)) : Z := foldr (fun x t => Z.max (x.1 + x.2) t) 4096 l.
Definition demo (h : history) (c : call) : reply :=
  let x := held_of h in
  match c with
  | Malloc => Reply 1 0
  | OpenIon | OpenIommu _ => Reply (next_of (elements (h_fds x))) 0
  | Close _ | Munmap _ _ => Reply 0 0
  | Mmap n _ => let a := top_of (elements (h_maps x)) in Reply (if a + n <? MAP_FAILED then a else MAP_FAILED) 0
  | Ioctl _ (ION_IOC_ALLOC _ _ _) => Reply 0 (next_of (elements (h_handles x)))
  | Ioctl _ (ION_IOC_MAP _) | Ioctl _ (ION_IOC_NEW_ALLOC _ _ _) => Reply 0 (next_of (elements (h_fds x)))
  | Ioctl _ (GET_IOMMU_ADDR _) => Reply 0 (4096 + Z.of_nat (length h) * 65536)
  | Ioctl _ _ => Reply 0 0
  end.

Lemma next_of_fresh (l : list Z) : next_of l ∉ l.
Proof.
  assert (forall x, x ∈ l -> x <= foldr Z.max 0 l) as H.
  { induction l as [| y l IH]; intros x Hx; [inversion Hx |]. cbn [foldr]. apply elem_of_cons in Hx as [-> | Hx]; [lia |]. specialize (IH x Hx). lia. }
  intros Hin%H. unfold next_of in Hin. lia.
Qed.

Lemma demo_fd_fresh : fd_fresh demo.
Proof.
  intros h c. destruct c as [| | | | | | d q]; try exact I; try (destruct q; try exact I); cbn [demo ret val]; rewrite <- elem_of_elements; apply next_of_fresh.
Qed.

Lemma top_of_max (l : list (Z * Z)) x : x ∈ l -> x.1 + x.2 <= top_of l.
Proof.
  unfold top_of. induction l as [| y l IH]; intros Hx; [inversion Hx |]. cbn [foldr]. apply elem_of_cons in Hx as [-> | Hx]; [lia |]. specialize (IH Hx). lia.
Qed.

Lemma top_of_low (l : list (Z * Z)) : 4096 <= top_of l.
Proof. unfold top_of. induction l; cbn [foldr]; lia. Qed.

Lemma demo_mmap_fresh : mmap_fresh demo.
Proof.
  intros h n f Hn. cbn [demo ret]. destruct (Z.ltb_spec (top_of (elements (maps_of h)) + n) MAP_FAILED) as [Hlt | Hge]; [| contradiction].
  intros _. pose proof (top_of_low (elements (maps_of h))). unfold MAP_FAILED in Hlt. split; [lia |]. split; [lia |].
  intros x Hx. left. cbn [fst]. apply top_of_max. now apply elem_of_elements.
Qed.

(** Three buffers, the second of which is released. *)
Definition some_ops : list op := [OpPalloc 8192; OpPalloc 100; OpGetPhyaddr 4100; OpPfree 12288; OpPalloc 4096; OpPfree 99].

#[global] Instance good_dec c r : Decision (good c r).
Proof. destruct c; cbn [good]; apply _. Defined.

Lemma allocator_safe_witness :
  exists rs s, run false true false false 0 demo (OpOpen :: some_ops) start = Some (rs, s) /\
  (length (nodes s) = 2)%nat /\ locked s = false /\
  (forall n m, n ∈ nodes s -> m ∈ nodes s ->
     vir n = user_virt n /\ buf n ∈ maps_of (hist s) /\ 0 < vir n /\ 0 < size n /\ vir n + size n < 2 ^ 32 /\ (n <> m -> apart (buf n) (buf m))) /\
  (forall o, op_fine false o -> safe o s -> is_Some (do_op false true false false 0 demo o s)).
Proof.
  eexists _, _. split; [vm_compute; reflexivity |]. split; [vm_compute; reflexivity |].
  eapply (allocator_safe false true false false 0 demo (OpOpen :: some_ops)); [exact demo_mmap_fresh | repeat constructor | vm_compute; reflexivity].
Defined.

Lemma translation_exact_witness :
  exists rs s n, run true true false false 0 demo (OpOpen :: some_ops) start = Some (rs, s) /\ n ∈ nodes s /\
  (sunxi_ion_alloc_vir2phy_cpu (vir n + 5) s = Some (u32 (phy n + 5), s) /\
   sunxi_ion_alloc_get_bufferFd (vir n + 5) s = Some (aw_fd n, s) /\
   (0 < phy n -> (forall m, m ∈ nodes s -> 0 < phy m /\ phy m + size m < 2 ^ 32 /\ (m <> n -> apart (phy m, size m) (phy n, size n))) ->
    sunxi_ion_alloc_phy2vir_cpu (phy n + 5) s = Some (vir n + 5, s))).
Proof.
  eexists _, _, _. split; [vm_compute; reflexivity |]. split; [vm_compute; left |].
  eapply (translation_exact true true false false 0 demo (OpOpen :: some_ops)); [exact demo_mmap_fresh | repeat constructor | vm_compute; reflexivity | vm_compute; left | by_compute].
Defined.

Lemma held_exactly_witness :
  exists rs s, run true true false false 0 demo (OpOpen :: some_ops) start = Some (rs, s) /\ clean (hist s) /\
  exists c, g_ion_alloc_context s = Some c /\ held_of (hist s) = resources true true c /\
  (list_ c = [] -> exists s', sunxi_ion_alloc_close true demo s = Some (tt, s') /\ (clean (hist s') -> held_of (hist s') = nothing)).
Proof.
  assert (forall h, bool_decide (clean h) = true -> clean h) as Hb by (intros h; apply bool_decide_eq_true_1).
  eexists _, _. split; [vm_compute; reflexivity |]. split; [apply Hb; vm_compute; reflexivity |].
  eapply (held_exactly true true false false 0 demo some_ops); [exact demo_fd_fresh | exact demo_mmap_fresh | reflexivity | vm_compute; reflexivity | apply Hb; vm_compute; reflexivity].
Defined.

(** Closing the descriptor of a buffer twice closes that of another buffer, which has been given
    the same number; and the lookup by that number finds the first buffer. *)
Example closed_twice :
  match run false true false false 0 demo [OpOpen; OpPalloc 4096; OpCloseFd 4096; OpPalloc 4096; OpGetViraddrByFd 3; OpCloseFd 4096] start with
  | Some (rs, s) =>
      rs = [0; 4096; 0; 8192; 4096; 0] /\ (vir <$> nodes s) = [4096; 8192] /\ (aw_fd <$> nodes s) = [3; 3] /\ (fd_closed <$> nodes s) = [1; 0] /\
      bool_decide (3 ∈ h_fds (held_of (hist s))) = false
  | None => False
  end.
Proof. vm_compute. repeat split. Qed.

(** A merged address that is given back keeps the engine. *)
Example merge_keeps_engine :
  match run false true false false 0 demo [OpOpen; OpMerge 0 []; OpUnmerge 0; OpClose] start with
  | Some (_, s) => g_ion_alloc_context s = None /\ h_engines (held_of (hist s)) = 1
  | None => False
  end.
Proof. vm_compute. repeat split. Qed.

(** A second [close]. *)
Example closed_once_too_often : run false true false false 0 demo [OpOpen; OpClose; OpClose] start = None.
Proof. vm_compute. reflexivity. Qed.

(** [malloc] fails for the node of a secure buffer: its address is returned all the same. *)
Definition no_malloc (h : history) (c : call) : reply := match h, c with _ :: _, Malloc => Reply 0 0 | _, _ => demo h c end.

Example secure_freed :
  match run true false false false 0 no_malloc [OpOpen; OpPallocSecure 4096] start with
  | Some (rs, s) => rs = [0; 4096] /\ nodes s = [] /\ bool_decide (maps_of (hist s) = ∅) = true
  | None => False
  end.
Proof. vm_compute. repeat split. Qed.
