(* ===== verification/LinkList.v ===== *)
(** * LinkList: the linked lists of tinymp3

    Models [allwinner/audio/tinymp3/src/libplayer/linklist.c]: singly linked lists
    with a head, a tail and a count, over nodes that the caller allocates and moves
    between lists.  Memory is two maps, of the nodes and of the list structures, so
    that two arguments may be the same list.  A load or store through NULL or to a
    freed node is [None]; so is a walk longer than the number of nodes, which only
    a cyclic chain has.  The callbacks look at a node and change nothing. *)
From stdpp Require Import gmap.
From S2P Require Import Prelude.

Record listNode := Node { data : Z; next : option nat }.

(** [lastaccess] is [None] while it is indeterminate. *)
Record linkList := LinkList { head : option nat; lastaccess : option (option nat); tail : option nat; count : Z }.

Record mem := Mem { nodes : gmap nat listNode; lists : gmap nat linkList }.

Definition set_list (m : mem) (l : nat) (s : linkList) : mem := Mem (nodes m) (<[l := s]> (lists m)).
Definition set_node (m : mem) (p : nat) (n : listNode) : mem := Mem (<[p := n]> (nodes m)) (lists m).

(** [p->next = q]. *)
Definition set_next (m : mem) (p : nat) (q : option nat) : option mem :=
  n ← nodes m !! p; Some (set_node m p (Node (data n) q)).

Definition next_of (m : mem) (p : nat) : option (option nat) := next <$> nodes m !! p.

Definition is_empty (s : linkList) : bool := match head s with None => true | Some _ => false end.

(** ** Nodes *)

(** [create_listnode] and [make_listnode]: the address [malloc] returns, if any;
    the data of a new node of the first kind are the bytes behind it, here its own
    address. *)
Definition create_listnode (m : mem) (addr : option nat) : option nat * mem :=
  match addr with Some p => (Some p, set_node m p (Node (Z.of_nat p) None)) | None => (None, m) end.

Definition make_listnode (m : mem) (d : Z) (addr : option nat) : option nat * mem :=
  match addr with Some p => (Some p, set_node m p (Node d None)) | None => (None, m) end.

Definition delete_listnode (m : mem) (p : nat) : option mem :=
  _ ← nodes m !! p; Some (Mem (delete p (nodes m)) (lists m)).

(** ** Lists *)

Definition linkList_init (m : mem) (l : nat) : option mem :=
  s ← lists m !! l; Some (set_list m l (LinkList None (lastaccess s) None 0)).

(** The loop of [linkList_destroy]: the memory and the count left. *)
Fixpoint destroy_loop (fuel : nat) (m : mem) (node : option nat) (c : Z) : option (mem * Z) :=
  match node with
  | None => Some (m, c)
  | Some p =>
      match fuel with
      | O => None
      | S fuel' => nx ← next_of m p; m ← delete_listnode m p; destroy_loop fuel' m nx (s32 (c - 1))
      end
  end.

Definition linkList_destroy (m : mem) (l : nat) : option (Z * mem) :=
  s ← lists m !! l;
  r ← destroy_loop (size (nodes m)) m (head s) (count s);
  Some (if r.2 =? 0 then 0 else -1, set_list r.1 l (LinkList None (Some None) None r.2)).

Definition list_insert_head (m : mem) (l node : nat) : option mem :=
  s ← lists m !! l;
  let done m hd tl := set_list m l (LinkList (Some hd) (lastaccess s) tl (s32 (count s + 1))) in
  if is_empty s then Some (done m node (Some node))
  else m ← set_next m node (head s); Some (done m node (tail s)).

Definition list_insert_tail (m : mem) (l node : nat) : option mem :=
  s ← lists m !! l;
  let done m hd := set_list m l (LinkList hd (lastaccess s) (Some node) (s32 (count s + 1))) in
  if is_empty s then Some (done m (Some node))
  else t ← tail s; m ← set_next m t (Some node); Some (done m (head s)).

Section Find.
Variable fn : nat -> listNode -> bool.

Fixpoint find_loop (fuel : nat) (m : mem) (node : option nat) : option (option nat) :=
  match node with
  | None => Some None
  | Some p =>
      match fuel with
      | O => None
      | S fuel' => n ← nodes m !! p; if fn p n then Some (Some p) else find_loop fuel' m (next n)
      end
  end.

Definition list_find_node (m : mem) (l : nat) (s_node : option nat) : option (option nat * mem) :=
  s ← lists m !! l;
  r ← find_loop (size (nodes m)) m (match s_node with Some p => Some p | None => head s end);
  Some (r, set_list m l (LinkList (head s) (Some r) (tail s) (count s))).
End Find.

(** The walk of [list_pick_node] for the node before [node]. *)
Fixpoint pick_loop (fuel : nat) (m : mem) (preNode node : nat) : option (option nat) :=
  match fuel with
  | O => None
  | S fuel' =>
      nx ← next_of m preNode;
      match nx with
      | None => Some None
      | Some q => if (q =? node)%nat then Some (Some preNode) else pick_loop fuel' m q node
      end
  end.

Definition list_pick_node (m : mem) (l node : nat) : option (Z * mem) :=
  s ← lists m !! l;
  match head s with
  | None => Some (-1, m)
  | Some h =>
      if (h =? node)%nat then
        nx ← next_of m node;
        m ← set_next m node None;
        Some (0, set_list m l
          (LinkList nx (lastaccess s) (if decide (tail s = Some h) then None else tail s) (s32 (count s - 1))))
      else
        r ← pick_loop (size (nodes m)) m h node;
        match r with
        | None => Some (-1, m)
        | Some pre =>
            nx ← next_of m node;
            m ← set_next m pre nx;
            m ← set_next m node None;
            Some (0, set_list m l
              (LinkList (Some h) (lastaccess s) (if decide (tail s = Some node) then Some pre else tail s) (s32 (count s - 1))))
        end
  end.

Definition list_pick_head (m : mem) (l : nat) : option (option nat * mem) :=
  s ← lists m !! l;
  match head s with
  | None => Some (None, m)
  | Some h =>
      nx ← next_of m h;
      m ← set_next m h None;
      Some (Some h, set_list m l
        (LinkList nx (lastaccess s) (if decide (tail s = Some h) then None else tail s) (s32 (count s - 1))))
  end.

(** NULL arguments are refused. *)
Definition interlist_move_node (m : mem) (list2 list1 node : option nat) : option (Z * mem) :=
  match list1, list2, node with
  | Some l1, Some l2, Some p =>
      r ← list_pick_node m l1 p;
      if r.1 <? 0 then Some (-1, r.2) else m ← list_insert_tail r.2 l2 p; Some (0, m)
  | _, _, _ => Some (-1, m)
  end.

Definition list_move_tail (m : mem) (l node : option nat) : option (Z * mem) := interlist_move_node m l l node.

(** ** The sequence a list stands for *)

(** The nodes from [p] up to [q], not included. *)
Fixpoint lseg (h : gmap nat listNode) (p : option nat) (xs : list nat) (q : option nat) : Prop :=
  match xs with
  | [] => p = q
  | x :: xs => p = Some x /\ exists n, h !! x = Some n /\ lseg h (next n) xs q
  end.

Record rep (m : mem) (l : nat) (xs : list nat) : Prop := {
  rep_nodup : NoDup xs;
  rep_short : Z.of_nat (length xs) < 2 ^ 31 - 1;
  rep_list : exists la, lists m !! l = Some (LinkList (list.head xs) la (list.last xs) (Z.of_nat (length xs)));
  rep_chain : lseg (nodes m) (list.head xs) xs None;
}.

(** A node that is in no list: its [next] is NULL. *)
Definition loose (m : mem) (p : nat) : Prop := exists d, nodes m !! p = Some (Node d None).

(** ** Lemmas: segments *)

Lemma lseg_app h p xs ys q : lseg h p (xs ++ ys) q <-> exists r, lseg h p xs r /\ lseg h r ys q.
Proof.
  revert p. induction xs as [| x xs IH]; intros p; cbn [app lseg].
  - split; [intros H; now exists p | intros (r & -> & H); exact H].
  - split.
    + intros [-> (n & Hn & (r & H1 & H2)%IH)]. exists r. split; [split; [reflexivity | now exists n] | exact H2].
    + intros (r & [-> (n & Hn & H1)] & H2). split; [reflexivity |]. exists n. split; [assumption |]. apply IH. now exists r.
Qed.

(** A segment does not see other nodes. *)
Lemma lseg_frame h h' p xs q : (forall x, x ∈ xs -> h' !! x = h !! x) -> lseg h p xs q -> lseg h' p xs q.
Proof.
  revert p. induction xs as [| x xs IH]; intros p Hx; cbn [lseg]; [auto |].
  intros [-> (n & Hn & H)]. split; [reflexivity |]. exists n. split; [rewrite Hx by left; exact Hn |].
  apply IH; [| exact H]. intros y Hy. apply Hx. now right.
Qed.

Lemma lseg_insert h p xs q a n : a ∉ xs -> lseg h p xs q -> lseg (<[a := n]> h) p xs q.
Proof. intros Ha. apply lseg_frame. intros x Hx. apply lookup_insert_ne. congruence. Qed.

Lemma lseg_head h p xs : lseg h p xs None -> p = list.head xs.
Proof. destruct xs; cbn; [auto | tauto]. Qed.

Lemma lseg_nodes h p xs q x : lseg h p xs q -> x ∈ xs -> exists n, h !! x = Some n.
Proof.
  revert p. induction xs as [| y xs IH]; intros p; cbn [lseg]; [intros _ H%not_elem_of_nil; contradiction |].
  intros [-> (n & Hn & H)] [-> | Hx]%elem_of_cons; [now exists n | eauto].
Qed.

Lemma lseg_size h p xs q : NoDup xs -> lseg h p xs q -> (length xs <= size h)%nat.
Proof.
  intros Hd H. rewrite <- (size_dom h), <- (size_list_to_set (C := gset nat) xs) by assumption.
  apply subseteq_size. intros x Hx%elem_of_list_to_set. apply elem_of_dom. destruct (lseg_nodes _ _ _ _ _ H Hx) as [n E].
  now exists n.
Qed.

(** Replacing the pointer at the end of a segment. *)
Lemma lseg_relink h p xs t d r q :
  t ∉ xs -> lseg h p (xs ++ [t]) r -> lseg (<[t := Node d q]> h) p (xs ++ [t]) q.
Proof.
  intros Ht. rewrite !lseg_app. intros (r' & H1 & [-> (n & Hn & H2)]). exists (Some t). split.
  - now apply lseg_insert.
  - split; [reflexivity |]. exists (Node d q). split; [apply lookup_insert_eq | reflexivity].
Qed.

Lemma NoDup_app_inv (xs ys : list nat) : NoDup (xs ++ ys) -> NoDup xs /\ NoDup ys /\ (forall x, x ∈ xs -> x ∉ ys).
Proof. intros H%list.NoDup_app. tauto. Qed.

Lemma s32_count n : Z.of_nat n < 2 ^ 31 - 1 -> s32 (Z.of_nat n + 1) = Z.of_nat n + 1.
Proof. intros. apply s32_id. lia. Qed.

Lemma set_next_some m p n q : nodes m !! p = Some n -> set_next m p q = Some (set_node m p (Node (data n) q)).
Proof. intros E. unfold set_next. now rewrite E. Qed.

Lemma next_of_some m p n : nodes m !! p = Some n -> next_of m p = Some (next n).
Proof. intros E. unfold next_of. now rewrite E. Qed.

(** ** Insertion *)

(** What an operation on list [l] that touches the nodes [ps] leaves alone. *)
Definition untouched (m m' : mem) (l : nat) (ps : list nat) : Prop :=
  (forall l', l' <> l -> lists m' !! l' = lists m !! l') /\ (forall p, p ∉ ps -> nodes m' !! p = nodes m !! p).

Lemma rep_untouched m m' l l' xs ps :
  untouched m m' l ps -> l' <> l -> (forall x, x ∈ xs -> x ∉ ps) -> rep m l' xs -> rep m' l' xs.
Proof.
  intros [U1 U2] Hl Hx [Hd Hs (la & Hla) Hc]. constructor; auto.
  - exists la. now rewrite U1.
  - apply (lseg_frame (nodes m)); auto.
Qed.

Lemma insert_head_spec m l xs p :
  rep m l xs -> loose m p -> p ∉ xs -> Z.of_nat (length xs) < 2 ^ 31 - 2 ->
  exists m', list_insert_head m l p = Some m' /\ rep m' l (p :: xs) /\ untouched m m' l [p].
Proof.
  intros [Hd Hs (la & Hla) Hc] [d Hp] Hpx Hlen. unfold list_insert_head. rewrite Hla. cbn [mbind option_bind head tail lastaccess count].
  rewrite s32_count by lia. destruct xs as [| x xs]; cbn [list.head is_empty head] in *.
  - eexists. split; [reflexivity |]. split; [constructor |].
    + apply NoDup_singleton.
    + cbn. lia.
    + exists la. cbn [lists set_list]. rewrite lookup_insert_eq. reflexivity.
    + cbn [nodes set_list list.head lseg]. split; [reflexivity |]. eexists. split; [exact Hp | reflexivity].
    + split; intros; cbn; [now rewrite lookup_insert_ne by congruence | reflexivity].
  - rewrite (set_next_some m p _ _ Hp). cbn [mbind option_bind]. eexists. split; [reflexivity |]. split; [constructor |].
    + apply list.NoDup_cons. split; assumption.
    + cbn [length] in *. lia.
    + exists la. cbn [lists set_list set_node]. rewrite lookup_insert_eq. cbn [length]. do 2 f_equal. lia.
    + cbn [nodes set_list set_node list.head data]. split; [reflexivity |]. eexists. split; [apply lookup_insert_eq |].
      cbn [next]. now apply lseg_insert.
    + split; intros; cbn; [now rewrite lookup_insert_ne by congruence |].
      rewrite lookup_insert_ne; [reflexivity |]. intros ->. apply H. now left.
Qed.

Lemma insert_tail_spec m l xs p :
  rep m l xs -> loose m p -> p ∉ xs -> Z.of_nat (length xs) < 2 ^ 31 - 2 ->
  exists m', list_insert_tail m l p = Some m' /\ rep m' l (xs ++ [p]) /\ untouched m m' l xs.
Proof.
  intros [Hd Hs (la & Hla) Hc] [d Hp] Hpx Hlen. unfold list_insert_tail. rewrite Hla. cbn [mbind option_bind head tail lastaccess count].
  rewrite s32_count by lia. destruct xs as [| t ys _] using rev_ind.
  - cbn [list.head is_empty head app]. eexists. split; [reflexivity |]. split; [constructor |].
    + apply NoDup_singleton.
    + cbn. lia.
    + exists la. cbn [lists set_list]. rewrite lookup_insert_eq. reflexivity.
    + cbn [nodes set_list list.head lseg]. split; [reflexivity |]. eexists. split; [exact Hp | reflexivity].
    + split; intros; cbn; [now rewrite lookup_insert_ne by congruence | reflexivity].
  - assert (is_empty (LinkList (list.head (ys ++ [t])) la (list.last (ys ++ [t])) (Z.of_nat (length (ys ++ [t])))) = false) as ->
      by (now destruct ys).
    rewrite last_snoc. cbn [mbind option_bind]. destruct (lseg_nodes _ _ _ _ t Hc) as [n Hn]; [apply elem_of_app; right; now left |].
    rewrite (set_next_some m t _ _ Hn). cbn [mbind option_bind]. eexists. split; [reflexivity |].
    apply NoDup_app_inv in Hd as (Hd1 & _ & Hd3).
    assert (t ∉ ys) as Hty by (intros Hin; apply (Hd3 t Hin); now left).
    assert (p <> t) as Hpt by (intros ->; apply Hpx, elem_of_app; right; now left).
    split; [constructor |].
    + rewrite <- app_assoc. apply list.NoDup_app. split; [assumption |]. split.
      * intros x Hx [-> | [-> | []%not_elem_of_nil]%elem_of_cons]%elem_of_cons; [contradiction |].
        apply Hpx, elem_of_app. now left.
      * apply list.NoDup_cons. split; [rewrite list_elem_of_singleton; congruence | apply NoDup_singleton].
    + rewrite !length_app in *. cbn [length] in *. lia.
    + exists la. cbn [lists set_list set_node]. rewrite lookup_insert_eq, last_snoc. f_equal. f_equal; [now destruct ys |].
      rewrite !length_app. cbn [length]. lia.
    + cbn [nodes set_list set_node]. apply lseg_app. exists (Some p). split.
      * assert (list.head ((ys ++ [t]) ++ [p]) = list.head (ys ++ [t])) as -> by (now destruct ys).
        apply (lseg_relink _ _ _ _ _ None); assumption.
      * cbn [lseg]. split; [reflexivity |]. eexists. split; [rewrite lookup_insert_ne by congruence; exact Hp | reflexivity].
    + split; intros; cbn; [now rewrite lookup_insert_ne by congruence |].
      rewrite lookup_insert_ne; [reflexivity |]. intros ->. apply H, elem_of_app. right. now left.
Qed.

(** ** Removal *)

Lemma s32_pred n : Z.of_nat (S n) < 2 ^ 31 - 1 -> s32 (Z.of_nat (S n) - 1) = Z.of_nat n.
Proof. intros. rewrite s32_id; lia. Qed.

Lemma last_in (xs : list nat) x : list.last xs = Some x -> x ∈ xs.
Proof. intros [l ->]%last_Some. apply elem_of_app. right. now left. Qed.

(** The tail after the first node goes. *)
Lemma last_tl p (ys : list nat) :
  p ∉ ys -> (if decide (list.last (p :: ys) = Some p) then None else list.last (p :: ys)) = list.last ys.
Proof.
  intros Hp. destruct ys as [| y ys].
  - cbn. now rewrite decide_True.
  - rewrite last_cons_cons. rewrite decide_False; [reflexivity |]. intros E%last_in. contradiction.
Qed.

(** The tail after a later node goes. *)
Lemma last_mid (xs ys : list nat) a p :
  p ∉ ys -> (if decide (list.last (xs ++ a :: p :: ys) = Some p) then Some a else list.last (xs ++ a :: p :: ys)) =
  list.last (xs ++ a :: ys).
Proof.
  intros Hp. rewrite !last_app_cons, last_cons_cons. destruct ys as [| y ys].
  - now rewrite decide_True.
  - rewrite !last_cons_cons. rewrite decide_False; [reflexivity |]. intros E%last_in. contradiction.
Qed.

Lemma pick_loop_hit fuel m xs a node ys pre :
  lseg (nodes m) (Some pre) (xs ++ a :: node :: ys) None -> node ∉ xs ++ [a] -> (length xs < fuel)%nat ->
  pick_loop fuel m pre node = Some (Some a).
Proof.
  revert pre fuel. induction xs as [| x xs IH]; intros pre fuel H Hn Hf; (destruct fuel as [| fuel]; [cbn in Hf; lia |]);
    cbn [app lseg pick_loop] in *.
  - destruct H as ([= ->] & n & Hx & E & _). rewrite (next_of_some m a n Hx). cbn. rewrite E, Nat.eqb_refl. reflexivity.
  - destruct H as ([= ->] & n & Hx & H). rewrite (next_of_some m x n Hx). cbn [mbind option_bind].
    apply not_elem_of_cons in Hn as [Hne Hn]. cbn [length] in Hf. destruct (next n) as [q |] eqn:Eq.
    + assert (q ∈ xs ++ [a]) as Hq.
      { destruct xs as [| x' xs]; cbn [app lseg] in H; destruct H as ([= ->] & _); left. }
      destruct (Nat.eqb_spec q node) as [-> | _]; [contradiction |]. apply IH; [assumption | assumption | lia].
    + destruct xs; destruct H as ([=] & _).
Qed.

Lemma pick_loop_miss fuel m pre xs node :
  lseg (nodes m) (Some pre) (pre :: xs) None -> node ∉ xs -> (length xs < fuel)%nat -> pick_loop fuel m pre node = Some None.
Proof.
  revert pre fuel. induction xs as [| x xs IH]; intros pre fuel H Hn Hf; (destruct fuel as [| fuel]; [cbn in Hf; lia |]);
    cbn [lseg pick_loop] in *; destruct H as (_ & n & Hx & H); rewrite (next_of_some m pre n Hx); cbn [mbind option_bind].
  - now rewrite H.
  - destruct H as [E H]. rewrite E. apply not_elem_of_cons in Hn as [Hne Hn]. destruct (Nat.eqb_spec x node) as [-> | _]; [contradiction |].
    cbn [length] in Hf. apply IH; [split; [reflexivity | exact H] | assumption | lia].
Qed.

(** Taking out the first node. *)
Lemma pick_first m l p ys :
  rep m l (p :: ys) ->
  exists m', list_pick_node m l p = Some (0, m') /\ list_pick_head m l = Some (Some p, m') /\
  rep m' l ys /\ loose m' p /\ untouched m m' l [p].
Proof.
  intros [Hd Hs (la & Hla) Hc]. unfold list_pick_node, list_pick_head. rewrite Hla. cbn [mbind option_bind head tail lastaccess count list.head].
  rewrite Nat.eqb_refl. cbn [list.head] in Hc. destruct Hc as (_ & n & Hn & Hc). apply list.NoDup_cons in Hd as [Hp Hd].
  rewrite (next_of_some m p n Hn). cbn [mbind option_bind]. rewrite (set_next_some m p n None Hn). cbn [mbind option_bind].
  cbn [length] in *. rewrite s32_pred, last_tl, (lseg_head _ _ _ Hc) by assumption. eexists.
  split; [reflexivity |]. split; [reflexivity |]. split; [constructor |].
  - assumption.
  - lia.
  - exists la. cbn [lists set_list set_node]. now rewrite lookup_insert_eq.
  - cbn [nodes set_list set_node]. apply lseg_insert; [assumption |]. now rewrite <- (lseg_head _ _ _ Hc).
  - split; [exists (data n); cbn; now rewrite lookup_insert_eq |]. split; intros; cbn; [now rewrite lookup_insert_ne by congruence |].
    rewrite lookup_insert_ne; [reflexivity |]. intros ->. apply H. left.
Qed.

(** Taking out the node after [a]. *)
Lemma pick_later m l xs a p ys :
  rep m l (xs ++ a :: p :: ys) ->
  exists m', list_pick_node m l p = Some (0, m') /\ rep m' l (xs ++ a :: ys) /\ loose m' p /\ untouched m m' l [a; p].
Proof.
  intros [Hd Hs (la & Hla) Hc]. unfold list_pick_node. rewrite Hla. cbn [mbind option_bind head tail lastaccess count].
  assert (length xs < size (nodes m))%nat as Hfuel
    by (pose proof (lseg_size _ _ _ _ Hd Hc) as Hz; rewrite length_app in Hz; cbn [length] in Hz; lia).
  apply NoDup_app_inv in Hd as (Hd1 & Hd2 & Hd3). apply list.NoDup_cons in Hd2 as [Ha Hd2]. apply list.NoDup_cons in Hd2 as [Hp Hd2].
  apply not_elem_of_cons in Ha as [Hap Ha].
  assert (p ∉ xs) as Hpx by (intros Hx; apply (Hd3 p Hx); right; left).
  assert (a ∉ xs) as Hax by (intros Hx; apply (Hd3 a Hx); left).
  destruct (lseg_nodes _ _ _ _ p Hc) as [n Hn]; [apply elem_of_app; right; right; left |].
  destruct (list.head (xs ++ a :: p :: ys)) as [h |] eqn:Eh; [| destruct xs; discriminate].
  assert (h <> p) as Hhp by (destruct xs; injection Eh as <-; [congruence |]; intros ->; apply Hpx; left).
  destruct (Nat.eqb_spec h p) as [| _]; [contradiction |].
  rewrite (pick_loop_hit _ m xs a p ys h Hc) by (assumption || (apply not_elem_of_app; split; [assumption | apply not_elem_of_cons; split; [congruence | apply not_elem_of_nil]])).
  cbn [mbind option_bind]. rewrite (next_of_some m p n Hn). cbn [mbind option_bind].
  apply lseg_app in Hc as (r & Hc1 & Hc2). destruct Hc2 as (-> & na & Hna & (_ & n' & Hn' & Hc2)).
  assert (n' = n) as -> by congruence.
  rewrite (set_next_some m a na (next n) Hna). cbn [mbind option_bind].
  rewrite (set_next_some _ p n None) by (cbn; now rewrite lookup_insert_ne by congruence). cbn [mbind option_bind].
  rewrite last_mid by assumption. eexists. split; [reflexivity |]. split; [constructor |].
  - apply list.NoDup_app. split; [assumption |]. split; [| now apply list.NoDup_cons].
    intros x Hx [-> | Hy]%elem_of_cons; [contradiction |]. apply (Hd3 x Hx). right. now right.
  - rewrite length_app in *. cbn [length] in *. lia.
  - exists la. cbn [lists set_list set_node]. rewrite lookup_insert_eq. rewrite !length_app in *. cbn [length] in *.
    rewrite !Nat.add_succ_r, s32_pred by lia. do 2 f_equal. destruct xs; exact (eq_sym Eh).
  - cbn [nodes set_list set_node]. apply lseg_insert; [rewrite elem_of_app, elem_of_cons; intuition congruence |]. apply lseg_app. exists (Some a).
    split; [apply lseg_insert; [assumption |]; destruct xs; cbn in Eh |- *; rewrite <- Eh in Hc1; exact Hc1 |].
    split; [reflexivity |]. eexists. split; [apply lookup_insert_eq |]. now apply lseg_insert.
  - split; [exists (data n); cbn; now rewrite lookup_insert_eq |]. split; intros; cbn; [now rewrite lookup_insert_ne by congruence |].
    rewrite !lookup_insert_ne; [reflexivity | |]; intros ->; apply H; [left | right; left].
Qed.

(** [list_pick_node] takes a member out, wherever it is. *)
Lemma pick_node_member m l xs p ys :
  rep m l (xs ++ p :: ys) ->
  exists m', list_pick_node m l p = Some (0, m') /\ rep m' l (xs ++ ys) /\ loose m' p /\ untouched m m' l (xs ++ [p]).
Proof.
  destruct xs as [| a xs _] using rev_ind; intros H.
  - destruct (pick_first m l p ys H) as (m' & E & _ & R & L & U). now exists m'.
  - rewrite <- app_assoc in H. destruct (pick_later m l xs a p ys H) as (m' & E & R & L & U1 & U2). exists m'.
    rewrite <- !app_assoc. split; [exact E |]. split; [exact R |]. split; [exact L |]. split; [exact U1 |]. intros q Hq. apply U2.
    rewrite !elem_of_app, !elem_of_cons in *. tauto.
Qed.

Lemma pick_node_absent m l xs p : rep m l xs -> p ∉ xs -> list_pick_node m l p = Some (-1, m).
Proof.
  intros [Hd Hs (la & Hla) Hc] Hp. unfold list_pick_node. rewrite Hla. cbn [mbind option_bind head tail lastaccess count].
  destruct xs as [| x xs]; [reflexivity |]. cbn [list.head] in *. pose proof (lseg_size _ _ _ _ Hd Hc) as Hz. cbn [length] in Hz.
  apply not_elem_of_cons in Hp as [Hne Hp].
  destruct (Nat.eqb_spec x p) as [| _]; [congruence |]. now rewrite (pick_loop_miss _ m x xs p Hc Hp) by lia.
Qed.

(** ** Search and destruction *)

Definition find_ref (fn : nat -> listNode -> bool) (m : mem) (xs : list nat) : option nat :=
  List.find (fun x => from_option (fn x) false (nodes m !! x)) xs.

Lemma find_loop_ref fn fuel m p xs :
  lseg (nodes m) p xs None -> (length xs <= fuel)%nat -> find_loop fn fuel m p = Some (find_ref fn m xs).
Proof.
  revert p fuel. induction xs as [| x xs IH]; intros p fuel; cbn [lseg length].
  - intros -> _. now destruct fuel.
  - intros [-> (n & Hn & H)] Hf. destruct fuel as [| fuel]; [lia |]. unfold find_ref. cbn [find_loop find]. rewrite Hn. cbn.
    destruct (fn x n); [reflexivity |]. apply IH; [assumption | lia].
Qed.

Lemma destroy_loop_all fuel m p xs :
  NoDup xs -> lseg (nodes m) p xs None -> (length xs <= fuel)%nat -> Z.of_nat (length xs) < 2 ^ 31 - 1 ->
  exists h, destroy_loop fuel m p (Z.of_nat (length xs)) = Some (Mem h (lists m), 0) /\
  forall q, h !! q = if decide (q ∈ xs) then None else nodes m !! q.
Proof.
  revert m p fuel. induction xs as [| x xs IH]; intros m p fuel; cbn [lseg].
  - intros _ -> _ _. exists (nodes m). split; [destruct fuel, m; reflexivity |]. intros q. rewrite decide_False; [reflexivity | apply not_elem_of_nil].
  - intros [Hx Hd]%list.NoDup_cons [-> (n & Hn & H)] Hf Hl. cbn [length] in *. destruct fuel as [| fuel]; [lia |]. cbn [destroy_loop].
    rewrite (next_of_some m x n Hn). cbn [mbind option_bind]. unfold delete_listnode. rewrite Hn. cbn [mbind option_bind].
    rewrite s32_pred by assumption.
    destruct (IH (Mem (delete x (nodes m)) (lists m)) (next n) fuel) as (h & E & Hh); [assumption | | lia | lia |].
    + apply (lseg_frame (nodes m)); [intros y Hy; cbn; apply lookup_delete_ne; congruence | assumption].
    + exists h. split; [exact E |]. intros q. rewrite Hh. cbn [nodes]. destruct (decide (q = x)) as [-> | Hq].
      * rewrite (decide_True (P := x ∈ x :: xs)) by left. rewrite lookup_delete_eq. now case_decide.
      * rewrite lookup_delete_ne by congruence. destruct (decide (q ∈ xs)); [now rewrite decide_True by now right |].
        rewrite decide_False; [reflexivity |]. intros [|]%elem_of_cons; contradiction.
Qed.

(** Appending a node that no list holds, after its removal. *)
Lemma move_spec m l1 l2 xs p ys zs :
  rep m l1 (xs ++ p :: ys) -> rep m l2 zs -> l1 <> l2 -> (forall x, x ∈ xs ++ p :: ys -> x ∉ zs) ->
  Z.of_nat (length zs) < 2 ^ 31 - 2 ->
  exists m', interlist_move_node m (Some l2) (Some l1) (Some p) = Some (0, m') /\
  rep m' l1 (xs ++ ys) /\ rep m' l2 (zs ++ [p]).
Proof.
  intros H1 H2 Hl Hd Hz. destruct (pick_node_member m l1 xs p ys H1) as (m1 & E1 & R1 & L1 & U1).
  unfold interlist_move_node. rewrite E1. cbn [mbind option_bind fst snd]. rewrite (proj2 (Z.ltb_ge 0 0)) by lia.
  assert (p ∉ zs) as Hp by (apply Hd, elem_of_app; right; left).
  assert (rep m1 l2 zs) as R2.
  { apply (rep_untouched m m1 l1 l2 zs (xs ++ [p])); [assumption | congruence | | assumption].
    intros x Hx Hin. apply (Hd x); [| assumption]. rewrite elem_of_app, elem_of_cons in *.
    destruct Hin as [| [-> |]]; [auto | auto |]. now apply not_elem_of_nil in H. }
  destruct (insert_tail_spec m1 l2 zs p R2 L1 Hp Hz) as (m2 & E2 & R2' & U2). exists m2. rewrite E2. split; [reflexivity |]. split; [| assumption].
  apply (rep_untouched m1 m2 l2 l1 (xs ++ ys) zs); [assumption | assumption | | assumption].
  intros x Hx. apply Hd. rewrite elem_of_app, elem_of_cons in *. tauto.
Qed.

Lemma move_tail_spec m l xs p ys :
  rep m l (xs ++ p :: ys) -> exists m', list_move_tail m (Some l) (Some p) = Some (0, m') /\ rep m' l (xs ++ ys ++ [p]).
Proof.
  intros H. pose proof (rep_nodup _ _ _ H) as Hd. pose proof (rep_short _ _ _ H) as Hs.
  destruct (pick_node_member m l xs p ys H) as (m1 & E1 & R1 & L1 & U1). unfold list_move_tail, interlist_move_node.
  rewrite E1. cbn [mbind option_bind fst snd]. rewrite (proj2 (Z.ltb_ge 0 0)) by lia.
  apply NoDup_app_inv in Hd as (_ & [Hp _]%list.NoDup_cons & Hd). rewrite length_app in Hs. cbn [length] in Hs.
  destruct (insert_tail_spec m1 l (xs ++ ys) p R1 L1) as (m2 & E2 & R2 & _).
  - apply not_elem_of_app. split; [| assumption]. intros Hx. apply (Hd p Hx). left.
  - rewrite length_app. lia.
  - exists m2. rewrite E2. rewrite <- app_assoc in R2. now split.
Qed.

Lemma rep_empty m l la : lists m !! l = Some (LinkList None la None 0) -> rep m l [].
Proof. intros E. constructor; [apply base.NoDup_nil_2 | cbn; lia | now exists la | reflexivity]. Qed.

(** ** Properties *)

(** Removal and moves.  A list that stands for [xs ++ p :: ys] and another that
    shares no node with it: [interlist_move_node] returns 0, takes [p] out wherever
    it stands and appends it to the other, so that heads, tails and counts of both
    are those of [xs ++ ys] and [zs ++ [p]]; moved to its own tail, a list becomes
    [xs ++ ys ++ [p]].  A node of no list is refused with -1 and nothing changes. *)
Theorem moves_keep_sequences m l1 l2 xs p ys zs q :
  rep m l1 (xs ++ p :: ys) -> rep m l2 zs -> l1 <> l2 -> (forall x, x ∈ xs ++ p :: ys -> x ∉ zs) ->
  Z.of_nat (length zs) < 2 ^ 31 - 2 -> q ∉ xs ++ p :: ys ->
  (exists m', interlist_move_node m (Some l2) (Some l1) (Some p) = Some (0, m') /\ rep m' l1 (xs ++ ys) /\ rep m' l2 (zs ++ [p])) /\
  (exists m', list_move_tail m (Some l1) (Some p) = Some (0, m') /\ rep m' l1 (xs ++ ys ++ [p])) /\
  interlist_move_node m (Some l2) (Some l1) (Some q) = Some (-1, m).
Proof.
  intros H1 H2 Hl Hd Hz Hq. split; [now apply move_spec |]. split; [now apply move_tail_spec |].
  unfold interlist_move_node. now rewrite (pick_node_absent m l1 _ q H1 Hq).
Qed.

(** Three nodes, 10 and 20 in list 0 and 30 in list 1. *)
Definition demo_mem : mem :=
  Mem {[10%nat := Node 1 (Some 20%nat); 20%nat := Node 2 None; 30%nat := Node 3 None]}
      {[0%nat := LinkList (Some 10%nat) None (Some 20%nat) 2; 1%nat := LinkList (Some 30%nat) None (Some 30%nat) 1]}.

Lemma demo_rep : rep demo_mem 0 [10; 20]%nat /\ rep demo_mem 1 [30]%nat.
Proof.
  split; constructor; [by_compute | cbn; lia | now exists None | | by_compute | cbn; lia | now exists None |]; cbn [lseg list.head].
  - split; [reflexivity |]. eexists. split; [reflexivity |]. cbn. split; [reflexivity |]. eexists. now split.
  - split; [reflexivity |]. eexists. now split.
Qed.

Lemma moves_keep_sequences_witness :
  exists m', interlist_move_node demo_mem (Some 1%nat) (Some 0%nat) (Some 10%nat) = Some (0, m') /\
  rep m' 0 [20%nat] /\ rep m' 1 [30; 10]%nat.
Proof.
  apply (moves_keep_sequences demo_mem 0 1 [] 10%nat [20%nat] [30%nat] 40%nat).
  - apply demo_rep.
  - apply demo_rep.
  - discriminate.
  - intros x [-> | [-> | []%not_elem_of_nil]%elem_of_cons]%elem_of_cons; by_compute.
  - cbn. lia.
  - by_compute.
Defined.

(** Destruction.  [linkList_destroy] returns 0, frees exactly the nodes of the list
    and leaves the list empty; no other node or list changes. *)
Theorem destroy_frees_all m l xs :
  rep m l xs ->
  exists m', linkList_destroy m l = Some (0, m') /\ rep m' l [] /\
  (forall q, nodes m' !! q = if decide (q ∈ xs) then None else nodes m !! q) /\
  (forall l', l' <> l -> lists m' !! l' = lists m !! l').
Proof.
  intros [Hd Hs (la & Hla) Hc]. unfold linkList_destroy. rewrite Hla. cbn [mbind option_bind head count].
  destruct (destroy_loop_all (size (nodes m)) m _ xs Hd Hc (lseg_size _ _ _ _ Hd Hc) Hs) as (h & E & Hh).
  rewrite E. cbn [mbind option_bind fst snd]. eexists. split; [reflexivity |]. split; [| split].
  - apply (rep_empty _ _ (Some None)). cbn. now rewrite lookup_insert_eq.
  - exact Hh.
  - intros l' Hl. cbn. now rewrite lookup_insert_ne by congruence.
Qed.

Lemma destroy_frees_all_witness :
  exists m', linkList_destroy demo_mem 0 = Some (0, m') /\ rep m' 0 [] /\
  (forall q, nodes m' !! q = if decide (q ∈ [10; 20]%nat) then None else nodes demo_mem !! q) /\
  (forall l', l' <> 0%nat -> lists m' !! l' = lists demo_mem !! l').
Proof. apply (destroy_frees_all demo_mem 0 [10; 20]%nat). apply demo_rep. Defined.

(** Search.  From the head, or from a node of the list, [list_find_node] returns the
    first node the callback accepts, NULL when there is none, and records it as the
    last access; it returns on every list. *)
Theorem find_first_match fn m l xs ys start :
  rep m l (xs ++ ys) -> match start with None => xs = [] | Some _ => list.head ys = start end ->
  exists m', list_find_node fn m l start = Some (find_ref fn m ys, m') /\ rep m' l (xs ++ ys) /\
  lastaccess <$> lists m' !! l = Some (Some (find_ref fn m ys)).
Proof.
  intros [Hd Hs (la & Hla) Hc] Hst. unfold list_find_node. rewrite Hla. cbn [mbind option_bind head].
  pose proof (lseg_size _ _ _ _ Hd Hc) as Hz. rewrite length_app in Hz. pose proof Hc as (r & _ & Hr)%lseg_app.
  assert (match start with Some p => Some p | None => list.head (xs ++ ys) end = r) as ->.
  { rewrite (lseg_head _ _ _ Hr). destruct start; [now rewrite Hst | now rewrite Hst]. }
  rewrite (find_loop_ref fn _ m r ys Hr) by lia. cbn [mbind option_bind]. eexists. split; [reflexivity |]. split; [constructor |].
  - assumption.
  - assumption.
  - eexists. cbn. now rewrite lookup_insert_eq.
  - exact Hc.
  - cbn. now rewrite lookup_insert_eq.
Qed.

Lemma find_first_match_witness :
  exists m', list_find_node (fun _ n => data n =? 2) demo_mem 0 None = Some (Some 20%nat, m') /\ rep m' 0 [10; 20]%nat /\
  lastaccess <$> lists m' !! 0%nat = Some (Some (Some 20%nat)).
Proof. apply (find_first_match (fun _ n => data n =? 2) demo_mem 0 [] [10; 20]%nat None); [apply demo_rep | reflexivity]. Defined.
