(* ===== verification/Micrond.v ===== *)
(** * Micrond: the cron daemon

    Models [feeds/utils/micrond/src/micrond.c]: the crontab fields as bit sets
    ([strict_atoi], [parse_strings], [parse_times]), the lines and files
    ([handle_line], [read_crontab], [read_crondir]), the check of a job against the
    broken-down time and the loop of [main] over the readings of the clock.  A C
    string is the list of its bytes before the terminator; [int] and [long] have 32
    bits and an overflow of a signed addition is [None].  Allocation succeeds.  The
    directory is given as the list of its entries in the order of [readdir], each
    with its contents or [None] when it cannot be opened, and what [fork] and the
    shell make of a command is outside the model. *)
From Stdlib Require Import String.
From S2P Require Import Prelude CString.

(** ** Numbers and names *)

Definition INT_MAX : Z := 2 ^ 31 - 1.

(** A signed [int] addition. *)
Definition int_add (a b : Z) : option Z := if a + b <=? INT_MAX then Some (a + b) else None.

Definition bit (b : Z) : Z := Z.shiftl 1 b.

Fixpoint skip_digits (l : list Z) : list Z :=
  match l with c :: l' => if isdigit c then skip_digits l' else l | [] => [] end.

(** [strtol(s, &end, 10)] and the bytes at [end]; without a digit they are [s]. *)
Definition strtol (s : list Z) : Z * list Z :=
  let clamp x := Z.max LONG_MIN (Z.min LONG_MAX x) in
  let num (sign : Z) (l : list Z) :=
    match l with
    | c :: _ => if isdigit c then (clamp (sign * read_digits 0 l), skip_digits l) else (0, s)
    | [] => (0, s)
    end in
  match skip_space s with
  | 45 :: l => num (-1) l
  | 43 :: l => num 1 l
  | l => num 1 l
  end.

Definition strict_atoi (s : list Z) : Z :=
  let '(ret, e) := strtol s in match e with [] => ret | _ => -1 end.

Definition tolower (c : Z) : Z := if (65 <=? c) && (c <=? 90) then c + 32 else c.

(** [strcasecmp(a, b) == 0]. *)
Definition strcaseeq (a b : list Z) : bool := bool_decide (map tolower a = map tolower b).

Fixpoint strings_loop (i : Z) (input : list Z) (strings : list (list Z)) : Z :=
  match strings with
  | [] => 0
  | s :: strings => if strcaseeq input s then bit i else strings_loop (i + 1) input strings
  end.

Definition parse_strings (input : list Z) (strings : list (list Z)) : Z := strings_loop 0 input strings.

Definition MONTHS : list (list Z) :=
  [lit "jan"; lit "feb"; lit "mar"; lit "apr"; lit "may"; lit "jun";
   lit "jul"; lit "aug"; lit "sep"; lit "oct"; lit "nov"; lit "dec"].

Definition WEEKDAYS : list (list Z) :=
  [lit "sun"; lit "mon"; lit "tue"; lit "wed"; lit "thu"; lit "fri"; lit "sat"].

(** ** Time fields *)

(** [p = strchr(s, c); if (p) *p = 0]: what is left of [s], and the bytes at
    [p + 1] if there is a [p]. *)
Fixpoint cut (c : Z) (s : list Z) : list Z * option (list Z) :=
  match s with
  | [] => ([], None)
  | x :: s' => if x =? c then ([], Some s') else let '(a, b) := cut c s' in (x :: a, b)
  end.

(** The loop over the range, one turn per value; the fuel is one more than the
    length of the range. *)
Fixpoint times_loop (fuel : nat) (i last step n ret : Z) : option Z :=
  match fuel with
  | O => None
  | S fuel' =>
      if i <=? last then
        let ret := Z.lor ret (bit (Z.rem i n)) in
        i ← int_add i step; times_loop fuel' i last step n ret
      else Some ret
  end.

(** [begin] and [end]. *)
Definition parse_range (input : list Z) (min n : Z) : Z * Z :=
  let '(input, minus) := cut 45 input in
  match minus with
  | Some p => (strict_atoi input, strict_atoi p)
  | None =>
      if bool_decide (input = lit "*") then (min, min + n - 1)
      else (strict_atoi input, strict_atoi input)
  end.

(** One element of a comma list, [ret] being the value of the elements after it. *)
Definition parse_item (input : list Z) (min n ret : Z) : option Z :=
  let '(input, slash) := cut 47 input in
  let step := match slash with Some p => strict_atoi p | None => 1 end in
  if step <=? 0 then Some 0
  else
    let '(b, e) := parse_range input min n in
    if (b <? min) || (e <? min) then Some 0
    else times_loop (S (Z.to_nat (e - b + 1))) (b - min) (e - min) step n ret.

(** The call for the elements after a comma comes first; there are at most as many
    calls as the input has bytes, and one. *)
Fixpoint parse_times_rec (fuel : nat) (input : list Z) (min n : Z) : option Z :=
  match fuel with
  | O => None
  | S fuel' =>
      let '(input, comma) := cut 44 input in
      match comma with
      | None => parse_item input min n 0
      | Some p =>
          ret ← parse_times_rec fuel' p min n;
          if ret =? 0 then Some 0 else parse_item input min n ret
      end
  end.

Definition parse_times (input : list Z) (min n : Z) : option Z := parse_times_rec (S (length input)) input min n.

(** ** Lines and files *)

Record job := Job { minutes : Z; hours : Z; doms : Z; months : Z; dows : Z; command : list Z }.

#[global] Instance job_eq_dec : EqDecision job.
Proof. solve_decision. Defined.

Fixpoint take_word (s : list Z) : list Z * list Z :=
  match s with
  | c :: s' => if isspace c then ([], s) else let '(w, r) := take_word s' in (c :: w, r)
  | [] => ([], [])
  end.

(** [sscanf] with [k] conversions "%ms" and white space: the words, and the input
    behind the last white space. *)
Fixpoint scan_words (k : nat) (s : list Z) : list (list Z) * list Z :=
  match k with
  | O => ([], skip_space s)
  | S k' =>
      match take_word (skip_space s) with
      | ([], r) => ([], r)
      | (w, r) => let '(ws, r) := scan_words k' r in (w :: ws, r)
      end
  end.

(** A field that is given by a name or by numbers. *)
Definition parse_named (input : list Z) (strings : list (list Z)) (min n : Z) : option Z :=
  let r := parse_strings input strings in
  if r =? 0 then parse_times input min n else Some r.

(** The status and the list of jobs.  Fields are stored at the widths of the
    structure. *)
Definition handle_line (line : list Z) (jobs : list job) : option (Z * list job) :=
  match scan_words 5 line with
  | ([], _) => Some (0, jobs)
  | ([c0; c1; c2; c3; c4], rest) =>
      mi ← parse_times c0 0 60;
      if mi =? 0 then Some (-1, jobs) else
      ho ← parse_times c1 0 24;
      if u32 ho =? 0 then Some (-1, jobs) else
      do ← parse_times c2 1 31;
      if u32 do =? 0 then Some (-1, jobs) else
      mo ← parse_named c3 MONTHS 1 12;
      if u16 mo =? 0 then Some (-1, jobs) else
      dw ← parse_named c4 WEEKDAYS 0 7;
      if u8 dw =? 0 then Some (-1, jobs) else
      Some (0, Job mi (u32 ho) (u32 do) (u16 mo) (u8 dw) rest :: jobs)
  | _ => Some (-1, jobs)
  end.

(** [fgets]: at most [room] bytes, up to a newline. *)
Fixpoint fgets (room : nat) (file : list Z) : list Z * list Z :=
  match room, file with
  | S room', c :: file' => if c =? 10 then ([c], file') else let '(l, r) := fgets room' file' in (c :: l, r)
  | _, _ => ([], file)
  end.

Definition LINE_SIZE : nat := Z.to_nat 16384.

(** The lines a file is read as: the C string in the buffer after each call. *)
Fixpoint read_lines (fuel : nat) (room : nat) (file : list Z) : list (list Z) :=
  match fuel, file with
  | S fuel', _ :: _ => let '(l, file) := fgets room file in (cut 0 l).1 :: read_lines fuel' room file
  | _, _ => []
  end.

(** What the daemon does that can be seen from outside. *)
Inductive event :=
  | Usage
  | Unreadable (name : list Z)
  | SyntaxError (name : list Z) (line : Z)
  | Sleep (seconds : Z)
  | Fork (cmd : list Z).

Fixpoint crontab_loop (name : list Z) (lineno : Z) (lines : list (list Z)) (jobs : list job) : option (list event * list job) :=
  match lines with
  | [] => Some ([], jobs)
  | line :: lines =>
      let lineno := u32 (lineno + 1) in
      r ← handle_line (cut 35 line).1 jobs;
      q ← crontab_loop name lineno lines r.2;
      Some ((if r.1 =? 0 then [] else [SyntaxError name lineno]) ++ q.1, q.2)
  end.

Definition read_crontab (name : list Z) (file : option (list Z)) (jobs : list job) : option (list event * list job) :=
  match file with
  | None => Some ([Unreadable name], jobs)
  | Some l => crontab_loop name 0 (read_lines (length l) (pred LINE_SIZE) l) jobs
  end.

Definition entry : Type := list Z * option (list Z).

Fixpoint crondir_loop (ents : list entry) (jobs : list job) : option (list event * list job) :=
  match ents with
  | [] => Some ([], jobs)
  | (name, file) :: ents =>
      if bool_decide (head name = Some 46) then crondir_loop ents jobs
      else
        r ← read_crontab name file jobs;
        q ← crondir_loop ents r.2;
        Some (r.1 ++ q.1, q.2)
  end.

(** [None] is the exit with status 1. *)
Definition read_crondir (dir : option (list entry)) : option (option (list event * list job)) :=
  match dir with None => Some None | Some ents => Some <$> crondir_loop ents [] end.

(** ** Jobs and the clock *)

Record tm := Tm { tm_min : Z; tm_hour : Z; tm_mday : Z; tm_mon : Z; tm_wday : Z }.

Definition run_job (j : job) : list event := [Fork (command j)].

Definition check_job (now : tm) (j : job) : list event :=
  if Z.land (minutes j) (bit (tm_min now)) =? 0 then []
  else if Z.land (hours j) (bit (tm_hour now)) =? 0 then []
  else if Z.land (doms j) (bit (tm_mday now - 1)) =? 0 then []
  else if Z.land (months j) (bit (tm_mon now)) =? 0 then []
  else if Z.land (dows j) (bit (tm_wday now)) =? 0 then []
  else run_job j.

(** [60 - t%60], and a turn of the loop of [main]: [now] is the reading after the
    sleep. *)
Definition sleep_time (t : Z) : Z := 60 - Z.rem t 60.

Definition tick (jobs : list job) (minute : Z) (now : tm) : Z * list event :=
  let minute := Z.rem (minute + 1) 60 in
  if tm_min now =? minute then (minute, flat_map (check_job now) jobs)
  else (tm_min now, []).

Section Main.
Variable localtime : Z -> tm.

(** The loop over the values [time] returns, for as many turns as there are. *)
Fixpoint main_loop (jobs : list job) (minute t : Z) (times : list Z) : list event :=
  match times with
  | [] => []
  | t' :: times =>
      let r := tick jobs minute (localtime t') in
      Sleep (sleep_time t) :: r.2 ++ main_loop jobs r.1 t' times
  end.

Inductive outcome := Exit (code : Z) | Running.

Definition main (argc : Z) (dir : option (list entry)) (t : Z) (times : list Z) : option (list event * outcome) :=
  if negb (argc =? 2) then Some ([Usage], Exit (if argc <? 2 then 0 else 1))
  else
    r ← read_crondir dir;
    match r with
    | None => Some ([Usage], Exit 1)
    | Some (evs, jobs) => Some (evs ++ main_loop jobs (tm_min (localtime t)) t times, Running)
    end.
End Main.

Example times_1 : parse_times (lit "*/15") 0 60 = Some (2 ^ 0 + 2 ^ 15 + 2 ^ 30 + 2 ^ 45).
Proof. by_compute. Qed.
Example times_2 : parse_times (lit "1-5,7") 0 7 = Some (Z.ones 6).
Proof. by_compute. Qed.
Example line_1 : handle_line (lit "0 8-18/2 1 jan sun  echo x") [] = Some (0, [Job 1 (2^8+2^10+2^12+2^14+2^16+2^18) 1 1 1 (lit "echo x")]).
Proof. by_compute. Qed.

(** ** Lemmas: bits *)

Lemma testbit_bit b k : 0 <= b -> Z.testbit (bit b) k = (k =? b).
Proof.
  intros. unfold bit. destruct (Z.ltb_spec k 0); [rewrite Z.testbit_neg_r by lia; bool_cases; lia || reflexivity |].
  rewrite Z.shiftl_1_l, Z.pow2_bits_eqb by lia. apply Z.eqb_sym.
Qed.

Lemma land_bit m b : 0 <= b -> (Z.land m (bit b) =? 0) = negb (Z.testbit m b).
Proof.
  intros Hb. destruct (Z.eqb_spec (Z.land m (bit b)) 0) as [E | E].
  - assert (Z.testbit (Z.land m (bit b)) b = false) as H by (rewrite E; apply Z.bits_0).
    rewrite Z.land_spec, testbit_bit, Z.eqb_refl, andb_true_r in H by assumption. now rewrite H.
  - destruct (Z.testbit m b) eqn:Em; [reflexivity |]. destruct E. apply Z.bits_inj'. intros k Hk.
    rewrite Z.land_spec, testbit_bit, Z.bits_0 by assumption. destruct (Z.eqb_spec k b) as [-> |]; [now rewrite Em | apply andb_false_r].
Qed.

Lemma bits_bound x n : 0 <= x -> 0 <= n -> (forall k, n <= k -> Z.testbit x k = false) -> x < 2 ^ n.
Proof.
  intros Hx Hn H. destruct (Z.ltb_spec x (2 ^ n)); [assumption |]. exfalso.
  assert (0 < x) by (pose proof (Z.pow_pos_nonneg 2 n); lia).
  pose proof (Z.bit_log2 x ltac:(assumption)) as Hb. rewrite H in Hb; [discriminate |].
  rewrite <- (Z.log2_pow2 n) by assumption. now apply Z.log2_le_mono.
Qed.

Lemma bit_pos b : 0 <= b -> 0 < bit b.
Proof. intros. unfold bit. rewrite Z.shiftl_1_l. apply Z.pow_pos_nonneg; lia. Qed.

Lemma lor_bit_bound ret i n : 0 < n -> 0 <= i -> 0 <= ret < 2 ^ n -> 0 < Z.lor ret (bit (Z.rem i n)) < 2 ^ n.
Proof.
  intros Hn Hi Hr. rewrite Z.rem_mod_nonneg by lia. pose proof (Z.mod_pos_bound i n Hn) as Hm. pose proof (bit_pos (i mod n) ltac:(lia)) as Hb.
  assert (0 <= Z.lor ret (bit (i mod n))) as H0 by (apply Z.lor_nonneg; lia). split.
  - enough (Z.lor ret (bit (i mod n)) <> 0) by lia. intros [_ E]%Z.lor_eq_0_iff. lia.
  - apply bits_bound; [assumption | lia |]. intros k Hk. rewrite Z.lor_spec, testbit_bit by lia.
    rewrite (testbit_high ret n k) by lia. cbn [orb]. apply Z.eqb_neq. lia.
Qed.

(** ** Lemmas: the loop *)

(** The value [i] has after the last turn. *)
Definition stop (i last step : Z) : Z := if i <=? last then i + ((last - i) / step + 1) * step else i.

Lemma stop_step i last step : 0 < step -> i <= last -> stop i last step = stop (i + step) last step.
Proof.
  intros Hs Hi. unfold stop. rewrite (proj2 (Z.leb_le i last)) by lia. destruct (Z.leb_spec (i + step) last) as [H | H].
  - replace (last - (i + step)) with (last - i + (-1) * step) by lia. rewrite Z.div_add by lia. lia.
  - rewrite Z.div_small by lia. lia.
Qed.

Lemma stop_le i last step : 0 < step -> i <= stop i last step.
Proof. intros Hs. unfold stop. bool_cases; [| lia]. pose proof (Z.div_pos (last - i) step). nia. Qed.

(** The bits of the loop, and when its counter overflows. *)
Lemma times_loop_exact fuel i last step n ret :
  0 < step -> 0 < n -> 0 <= i -> last - i + 2 <= Z.of_nat fuel -> (0 < fuel)%nat -> i <= INT_MAX ->
  if stop i last step <=? INT_MAX then
    exists r, times_loop fuel i last step n ret = Some r /\
    forall k, Z.testbit r k = true <-> Z.testbit ret k = true \/ exists j, 0 <= j /\ i + j * step <= last /\ (i + j * step) mod n = k
  else times_loop fuel i last step n ret = None.
Proof.
  intros Hs Hn. revert i ret. induction fuel as [| fuel IH]; intros i ret Hi Hf Hf0 Hmax; [lia |]. cbn [times_loop].
  destruct (Z.leb_spec i last) as [Hle | Hgt].
  - rewrite stop_step by assumption. pose proof (stop_le (i + step) last step Hs) as Hst. unfold int_add.
    destruct (Z.leb_spec (i + step) INT_MAX) as [Ho | Ho]; cbn [mbind option_bind].
    + specialize (IH (i + step) (Z.lor ret (bit (Z.rem i n))) ltac:(lia) ltac:(lia) ltac:(lia) Ho).
      destruct (stop (i + step) last step <=? INT_MAX); [| exact IH]. destruct IH as (r & E & Hr). exists r. split; [exact E |].
      intros k. rewrite Hr, Z.lor_spec, orb_true_iff, testbit_bit, Z.eqb_eq, Z.rem_mod_nonneg by (try apply Z.rem_nonneg; lia).
      split.
      * intros [[H | ->] | (j & Hj & Hl & Hk)]; [now left | right; exists 0; repeat split; try lia; f_equal; lia |].
        right. exists (j + 1). repeat split; [lia | lia |]. rewrite <- Hk. f_equal. lia.
      * intros [H | (j & Hj & Hl & Hk)]; [tauto |]. destruct (Z.eq_dec j 0) as [-> | Hj0].
        -- left. right. rewrite <- Hk. f_equal. lia.
        -- right. exists (j - 1). repeat split; [lia | lia |]. rewrite <- Hk. f_equal. lia.
    + rewrite (proj2 (Z.leb_gt _ _)) by lia. reflexivity.
  - assert (stop i last step = i) as -> by (unfold stop; bool_cases; lia). rewrite (proj2 (Z.leb_le _ _)) by assumption.
    exists ret. split; [reflexivity |]. intros k. split; [tauto |]. intros [H | (j & Hj & Hl & _)]; [assumption | nia].
Qed.

(** The bits stay within the width, and a turn sets one. *)
Lemma times_loop_width fuel i last step n ret r :
  0 < step -> 0 < n -> 0 <= i -> 0 <= ret < 2 ^ n -> times_loop fuel i last step n ret = Some r -> 0 <= r < 2 ^ n.
Proof.
  intros Hs Hn. revert i ret. induction fuel as [| fuel IH]; intros i ret Hi Hr; cbn [times_loop]; [discriminate |].
  destruct (i <=? last); [| now intros [= <-]]. unfold int_add. destruct (i + step <=? INT_MAX); [| discriminate].
  cbn [mbind option_bind]. apply IH; [lia |]. pose proof (lor_bit_bound ret i n Hn Hi Hr). lia.
Qed.

Lemma parse_item_width input min n ret r :
  0 < n -> 0 <= ret < 2 ^ n -> parse_item input min n ret = Some r -> 0 <= r < 2 ^ n.
Proof.
  intros Hn Hr. unfold parse_item. assert (0 < 2 ^ n) by (apply Z.pow_pos_nonneg; lia).
  destruct (cut 47 input) as [inp slash]. set (step := match slash with Some p => _ | None => _ end).
  destruct (Z.leb_spec step 0); [intros [= <-]; lia |]. destruct (parse_range inp min n) as [b e]. destruct ((b <? min) || (e <? min)) eqn:Eb; [intros [= <-]; lia |].
  apply orb_false_iff in Eb as [Eb _]. apply times_loop_width; lia.
Qed.

Lemma parse_times_width input min n r : 0 < n -> parse_times input min n = Some r -> 0 <= r < 2 ^ n.
Proof.
  intros Hn. unfold parse_times. generalize (S (length input)). intros fuel. assert (0 < 2 ^ n) by (apply Z.pow_pos_nonneg; lia).
  revert input r. induction fuel as [| fuel IH]; intros input r; cbn [parse_times_rec]; [discriminate |].
  destruct (cut 44 input) as [inp [p |]]; [| apply parse_item_width; lia].
  destruct (parse_times_rec fuel p min n) as [r1 |] eqn:E; cbn [mbind option_bind]; [| discriminate].
  apply IH in E. destruct (r1 =? 0); [intros [= <-]; lia |]. now apply parse_item_width.
Qed.

(** ** Lemmas: text *)

Lemma cut_none c s : c ∉ s -> cut c s = (s, None).
Proof.
  induction s as [| x s IH]; cbn [cut]; [reflexivity |]. intros [Hx Hs]%not_elem_of_cons.
  destruct (Z.eqb_spec x c); [congruence |]. now rewrite IH.
Qed.

Lemma cut_some c a b : c ∉ a -> cut c (a ++ c :: b) = (a, Some b).
Proof.
  induction a as [| x a IH]; cbn [cut app]; [now rewrite Z.eqb_refl |]. intros [Hx Hs]%not_elem_of_cons.
  destruct (Z.eqb_spec x c); [congruence |]. now rewrite IH.
Qed.

Abbreviation all_digits l := (Forall (fun c => isdigit c = true) l).

Lemma print_d_all n : 0 <= n -> all_digits (print_d n).
Proof. intros. rewrite print_d_digits by assumption. now apply digits_isdigit. Qed.

Lemma digits_not_in c l : isdigit c = false -> all_digits l -> c ∉ l.
Proof. intros Hc Hl Hin. rewrite list.Forall_forall in Hl. rewrite (Hl c Hin) in Hc. discriminate. Qed.

Lemma skip_digits_all l : all_digits l -> skip_digits l = [].
Proof. induction 1 as [| c l Hc _ IH]; [reflexivity |]. cbn [skip_digits]. now rewrite Hc. Qed.

Lemma strtol_digit c l :
  isdigit c = true -> strtol (c :: l) = (Z.max LONG_MIN (Z.min LONG_MAX (read_digits 0 (c :: l))), skip_digits (c :: l)).
Proof.
  intros Hc. pose proof (isdigit_range c Hc) as Hr. unfold strtol. cbv zeta.
  assert (c = 48 \/ c = 49 \/ c = 50 \/ c = 51 \/ c = 52 \/ c = 53 \/ c = 54 \/ c = 55 \/ c = 56 \/ c = 57) as Hcs by lia.
  repeat destruct Hcs as [-> | Hcs]; subst; cbn -[Z.mul]; now rewrite Z.mul_1_l.
Qed.

(** A printed number reads back. *)
Lemma strict_atoi_print n : 0 <= n <= INT_MAX -> strict_atoi (print_d n) = n.
Proof.
  intros Hn. unfold INT_MAX in Hn. pose proof (print_d_all n ltac:(lia)) as Hd. rewrite print_d_digits in * by lia.
  pose proof (digits_nonempty 20 n ltac:(lia)) as Hne. pose proof (read_digits_digits 20 n ltac:(simpl; lia)) as Hr.
  destruct (digits 20 n []) as [| c l]; [contradiction |]. unfold strict_atoi.
  rewrite strtol_digit by now inversion Hd. rewrite (skip_digits_all _ Hd), Hr. unfold LONG_MIN, LONG_MAX. lia.
Qed.

(** ** Crontab fields *)

Inductive span := Star | One (a : Z) | Span (a b : Z).

(** A span, and the step if one is given. *)
Definition item : Type := span * option Z.

Definition lo (min : Z) (s : span) : Z := match s with Star => min | One a => a | Span a _ => a end.
Definition hi (min n : Z) (s : span) : Z := match s with Star => min + n - 1 | One a => a | Span _ b => b end.
Definition every (it : item) : Z := default 1 it.2.

Definition print_span (s : span) : list Z :=
  match s with Star => lit "*" | One a => print_d a | Span a b => print_d a ++ 45 :: print_d b end.

Definition print_item (it : item) : list Z :=
  print_span it.1 ++ match it.2 with Some s => 47 :: print_d s | None => [] end.

Fixpoint print_field (its : list item) : list Z :=
  match its with
  | [] => []
  | [it] => print_item it
  | it :: its => print_item it ++ 44 :: print_field its
  end.

(** A range that goes up, and numbers for which no addition overflows. *)
Definition item_ok (min n : Z) (it : item) : Prop :=
  min <= lo min it.1 <= hi min n it.1 /\ 0 < every it /\ hi min n it.1 + every it <= INT_MAX.

(** The item selects the [k]-th value of the field, the values being counted round
    the field. *)
Definition selects (min n : Z) (it : item) (k : Z) : Prop :=
  exists j, 0 <= j /\ lo min it.1 + j * every it <= hi min n it.1 /\ (lo min it.1 - min + j * every it) mod n = k.

(** Inside the field that is what a crontab says: a value of the range at a multiple
    of the step. *)
Lemma selects_in_range min n it k :
  0 < n -> item_ok min n it -> hi min n it.1 <= min + n - 1 -> 0 <= k < n ->
  selects min n it k <-> lo min it.1 <= min + k <= hi min n it.1 /\ (min + k - lo min it.1) mod every it = 0.
Proof.
  intros Hn (Hl & He & _) Hh Hk. unfold selects. split.
  - intros (j & Hj & Hle & Hm). rewrite Z.mod_small in Hm by lia. split; [nia |].
    replace (min + k - lo min it.1) with (j * every it) by lia. apply Z_mod_mult.
  - intros [Hr Hm]. exists ((min + k - lo min it.1) / every it).
    pose proof (Z.div_mod (min + k - lo min it.1) (every it) ltac:(lia)) as E. rewrite Hm in E.
    split; [apply Z.div_pos; lia |]. split; [lia |]. rewrite Z.mod_small; lia.
Qed.

Lemma span_not_in c s : isdigit c = false -> c <> 42 -> c <> 45 -> (0 <= lo 0 s /\ 0 <= hi 0 1 s) -> c ∉ print_span s.
Proof.
  intros Hc H1 H2 [Hl Hh]. destruct s as [| a | a b]; cbn [print_span lo hi] in *.
  - change (lit "*") with [42]. rewrite elem_of_cons. intros [| []%not_elem_of_nil]. congruence.
  - apply digits_not_in; [assumption | now apply print_d_all].
  - rewrite elem_of_app, elem_of_cons. intros [H | [H | H]]; [| congruence |];
      (eapply digits_not_in; [eassumption | | exact H]; now apply print_d_all).
Qed.

Lemma ok_span min n it : 0 <= min -> item_ok min n it -> 0 <= lo 0 it.1 /\ 0 <= hi 0 1 it.1.
Proof. intros Hm (H & _). destruct it as [[] ?]; cbn in *; lia. Qed.

Lemma parse_range_print min n s : lo min s <= hi min n s <= INT_MAX -> 0 <= lo 0 s /\ 0 <= hi 0 1 s ->
  parse_range (print_span s) min n = (lo min s, hi min n s).
Proof.
  intros Hle [Hl Hh]. unfold parse_range. destruct s as [| a | a b]; cbn [print_span lo hi] in *.
  - reflexivity.
  - rewrite cut_none by (apply digits_not_in; [reflexivity | now apply print_d_all]).
    assert (print_d a <> lit "*") by (intros E; pose proof (print_d_all a Hl) as Hd; rewrite E in Hd; now inversion Hd).
    now rewrite bool_decide_eq_false_2, strict_atoi_print by (assumption || lia).
  - rewrite cut_some by (apply digits_not_in; [reflexivity | now apply print_d_all]).
    now rewrite !strict_atoi_print by lia.
Qed.

(** An element of a field, read: undefined exactly when the counter of the loop
    leaves the range of [int]. *)
Lemma parse_item_print min n it ret :
  0 <= min -> 0 < n -> 0 <= ret < 2 ^ n -> min <= lo min it.1 <= hi min n it.1 -> hi min n it.1 <= INT_MAX -> 0 < every it <= INT_MAX ->
  if stop (lo min it.1 - min) (hi min n it.1 - min) (every it) <=? INT_MAX then
    exists r, parse_item (print_item it) min n ret = Some r /\ 0 < r < 2 ^ n /\
    forall k, Z.testbit r k = true <-> Z.testbit ret k = true \/ selects min n it k
  else parse_item (print_item it) min n ret = None.
Proof.
  intros Hm Hn Hr Hl Hh He. assert (0 <= lo 0 it.1 /\ 0 <= hi 0 1 it.1) as Hp by (destruct it as [[] ?]; cbn in *; lia).
  assert (47 ∉ print_span it.1) as Hc by (apply span_not_in; [reflexivity | discriminate | discriminate | exact Hp]).
  assert (parse_item (print_item it) min n ret =
    times_loop (S (Z.to_nat (hi min n it.1 - lo min it.1 + 1))) (lo min it.1 - min) (hi min n it.1 - min) (every it) n ret) as ->.
  { unfold parse_item, print_item. destruct it as [s [t |]]; cbn [fst snd every default] in *.
    - rewrite (cut_some _ _ _ Hc), strict_atoi_print by (unfold every in He; cbn in He; lia). unfold every in *. cbn [snd default from_option id] in *.
      rewrite (proj2 (Z.leb_gt t 0)) by lia. rewrite parse_range_print by (assumption || lia). now rewrite !(proj2 (Z.ltb_ge _ _)) by lia.
    - rewrite app_nil_r, (cut_none _ _ Hc). cbn -[parse_range times_loop]. rewrite parse_range_print by (assumption || lia).
      now rewrite !(proj2 (Z.ltb_ge _ _)) by lia. }
  pose proof (times_loop_exact (S (Z.to_nat (hi min n it.1 - lo min it.1 + 1))) (lo min it.1 - min) (hi min n it.1 - min) (every it) n ret
    ltac:(lia) Hn ltac:(lia) ltac:(lia) ltac:(lia) ltac:(lia)) as H.
  destruct (stop _ _ _ <=? INT_MAX); [| exact H]. destruct H as (r & E & Hk). exists r. split; [exact E |].
  assert (forall k, Z.testbit r k = true <-> Z.testbit ret k = true \/ selects min n it k) as Hk'.
  { intros k. rewrite Hk. unfold selects. split; (intros [H | (j & H1 & H2 & H3)]; [now left | right; exists j; split; [assumption | split; [lia | assumption]]]). }
  split; [| exact Hk']. assert (0 <= r < 2 ^ n) as Hw by (eapply times_loop_width; [| | | | exact E]; lia).
  enough (r <> 0) by lia. intros ->. pose proof (proj2 (Hk' ((lo min it.1 - min) mod n))) as Hb. rewrite Z.bits_0 in Hb.
  discriminate Hb. right. exists 0. split; [lia |]. split; [lia |]. now rewrite Z.mul_0_l, Z.add_0_r.
Qed.

Lemma item_stop min n it : item_ok min n it -> stop (lo min it.1 - min) (hi min n it.1 - min) (every it) <= hi min n it.1 - min + every it.
Proof.
  intros (Hl & He & Hm). unfold stop. bool_cases; [| lia].
  pose proof (Z.mul_div_le (hi min n it.1 - min - (lo min it.1 - min)) (every it) He). lia.
Qed.

Lemma parse_item_ok min n it ret :
  0 <= min -> 0 < n -> 0 <= ret < 2 ^ n -> item_ok min n it ->
  exists r, parse_item (print_item it) min n ret = Some r /\ 0 < r < 2 ^ n /\
  forall k, Z.testbit r k = true <-> Z.testbit ret k = true \/ selects min n it k.
Proof.
  intros Hm Hn Hr Hok. pose proof (item_stop min n it Hok) as Hs. destruct Hok as (Hl & He & Ho).
  pose proof (parse_item_print min n it ret Hm Hn Hr ltac:(lia) ltac:(lia) ltac:(lia)) as H.
  rewrite (proj2 (Z.leb_le _ _)) in H by lia. exact H.
Qed.

Lemma item_not_in c it :
  isdigit c = false -> c <> 42 -> c <> 45 -> c <> 47 -> 0 <= lo 0 it.1 /\ 0 <= hi 0 1 it.1 -> 0 < every it -> c ∉ print_item it.
Proof.
  intros Hc H1 H2 H3 Hl He. unfold print_item. rewrite elem_of_app. intros [H | H].
  - revert H. now apply span_not_in.
  - unfold every in He. destruct it as [s [t |]]; cbn in *; [| now apply not_elem_of_nil in H].
    apply elem_of_cons in H as [| H]; [congruence |]. revert H. apply digits_not_in; [assumption | apply print_d_all; lia].
Qed.

Lemma parse_field min n its :
  0 <= min -> 0 < n -> Forall (item_ok min n) its -> its <> [] ->
  forall fuel, (length its <= fuel)%nat ->
  exists r, parse_times_rec fuel (print_field its) min n = Some r /\ 0 < r < 2 ^ n /\
  forall k, Z.testbit r k = true <-> Exists (fun it => selects min n it k) its.
Proof.
  intros Hm Hn H Hne. induction H as [| it its Hit Hits IH]; [contradiction |]. intros [| fuel] Hf; [cbn in Hf; lia |].
  assert (0 < 2 ^ n) by (apply Z.pow_pos_nonneg; lia). cbn [parse_times_rec].
  assert (44 ∉ print_item it) as Hc by (apply item_not_in; try discriminate; [reflexivity | now apply (ok_span min n) | apply Hit]). destruct its as [| it2 its].
  - change (print_field [it]) with (print_item it). rewrite (cut_none _ _ Hc).
    destruct (parse_item_ok min n it 0 Hm Hn ltac:(lia) Hit) as (r & E & Hr & Hk). exists r. split; [exact E |]. split; [exact Hr |].
    intros k. rewrite Hk, Z.bits_0, Exists_cons, Exists_nil. intuition discriminate.
  - change (print_field (it :: it2 :: its)) with (print_item it ++ 44 :: print_field (it2 :: its)). rewrite (cut_some _ _ _ Hc).
    destruct (IH ltac:(discriminate) fuel ltac:(cbn [length] in *; lia)) as (r1 & E1 & Hr1 & Hk1). rewrite E1. cbn [mbind option_bind].
    destruct (Z.eqb_spec r1 0); [lia |].
    destruct (parse_item_ok min n it r1 Hm Hn ltac:(lia) Hit) as (r & E & Hr & Hk). exists r. split; [exact E |]. split; [exact Hr |].
    intros k. rewrite Hk, Hk1, (Exists_cons _ it). tauto.
Qed.

(** ** Names, words and lines *)

(** A field that may be a name: the number of the name, in any case of letters, or
    items. *)
Inductive field := Named (i : Z) (s : list Z) | Items (its : list item).

Definition print_named (f : field) : list Z := match f with Named _ s => s | Items its => print_field its end.

Definition field_ok (min n : Z) (its : list item) : Prop := Forall (item_ok min n) its /\ its <> [].

Definition named_ok (strings : list (list Z)) (min n : Z) (f : field) : Prop :=
  match f with
  | Named i s => 0 <= i /\ strings !! Z.to_nat i = Some (map tolower s)
  | Items its => field_ok min n its
  end.

Definition field_selects (min n : Z) (its : list item) (k : Z) : Prop := Exists (fun it => selects min n it k) its.

Definition named_selects (min n : Z) (f : field) (k : Z) : Prop :=
  match f with Named i _ => k = i | Items its => field_selects min n its k end.

(** Printed fields begin with a digit or a star and hold no white space. *)
Definition plain (c : Z) : Prop := isdigit c = true \/ c = 42 \/ c = 44 \/ c = 45 \/ c = 47.

Lemma digits_plain l : all_digits l -> Forall plain l.
Proof. apply Forall_impl. intros c Hc. now left. Qed.

Lemma print_item_plain min n it : 0 <= min -> item_ok min n it -> Forall plain (print_item it).
Proof.
  intros Hm (H1 & H2 & H3). apply Forall_app. split.
  - destruct it as [[| a | a b] ?]; cbn -[lit] in *; [change (Forall plain [42]); constructor; [unfold plain; auto | constructor] | |].
    + apply digits_plain, print_d_all. lia.
    + apply Forall_app. split; [apply digits_plain, print_d_all; lia |]. constructor; [unfold plain; auto |]. apply digits_plain, print_d_all. lia.
  - unfold every in *. destruct it as [s [t |]]; cbn in *; [| constructor]. constructor; [unfold plain; auto 6 |].
    apply digits_plain, print_d_all. lia.
Qed.

Lemma print_field_plain min n its : 0 <= min -> Forall (item_ok min n) its -> Forall plain (print_field its).
Proof.
  intros Hm. induction 1 as [| it its Hit Hits IH]; [constructor |]. pose proof (print_item_plain min n it Hm Hit) as Hp.
  destruct its as [| it2 its]; [exact Hp |]. change (print_field (it :: it2 :: its)) with (print_item it ++ 44 :: print_field (it2 :: its)).
  apply Forall_app. split; [exact Hp |]. constructor; [unfold plain; auto | exact IH].
Qed.

Lemma print_item_nonempty it : (0 <= lo 0 it.1) -> print_item it <> [].
Proof.
  intros Hl. unfold print_item. destruct it as [[| a | a b] t]; cbn [fst print_span lo app] in *; [discriminate | |];
    (intros E; apply app_nil in E as [E _]); [| apply app_nil in E as [E _]]; rewrite print_d_digits in E by assumption;
    revert E; apply digits_nonempty; lia.
Qed.

Lemma print_field_nonempty min n its : 0 <= min -> field_ok min n its -> print_field its <> [].
Proof.
  intros Hm [H Hne]. destruct H as [| it its Hit Hits]; [contradiction |].
  pose proof (print_item_nonempty it (proj1 (ok_span min n it Hm Hit))) as Hp.
  destruct its as [| it2 its]; [exact Hp |]. change (print_field (it :: it2 :: its)) with (print_item it ++ 44 :: print_field (it2 :: its)).
  intros [E _]%app_nil. contradiction.
Qed.

Lemma plain_not_space c : plain c -> isspace c = false.
Proof. intros [H%isdigit_range | [-> | [-> | [-> | ->]]]]; [unfold isspace; bool_cases; lia || reflexivity | reflexivity ..]. Qed.

Lemma strings_loop_plain i input strings :
  Forall plain input -> input <> [] -> Forall (fun s => exists c t, s = c :: t /\ 97 <= c <= 122) strings -> strings_loop i input strings = 0.
Proof.
  intros Hp Hne H. revert i. induction H as [| s strings (c & t & -> & Hc) _ IH]; intros i; [reflexivity |]. cbn [strings_loop].
  unfold strcaseeq. rewrite bool_decide_eq_false_2; [apply IH |]. destruct input as [| x input]; [contradiction |].
  cbn [map]. intros [= E _]. apply Forall_cons_1 in Hp as [Hx _]. revert E. unfold tolower.
  destruct Hx as [Hx%isdigit_range | [-> | [-> | [-> | ->]]]]; bool_cases; cbn [andb]; lia.
Qed.

Lemma strings_loop_name i input strings k :
  NoDup (map (map tolower) strings) -> (forall s, s ∈ strings -> map tolower s = s) ->
  strings !! k = Some (map tolower input) -> strings_loop i input strings = bit (i + Z.of_nat k).
Proof.
  revert i k. induction strings as [| s strings IH]; intros i k Hd Hl; [discriminate |]. cbn [strings_loop map] in *.
  apply list.NoDup_cons in Hd as [Hs Hd]. unfold strcaseeq. destruct k as [| k]; cbn [lookup list_lookup].
  - intros [= E]. rewrite <- E, (Hl s) by left. rewrite bool_decide_eq_true_2 by reflexivity. f_equal. lia.
  - intros E. rewrite bool_decide_eq_false_2.
    + rewrite (IH (i + 1) k Hd); [f_equal; lia | | exact E]. intros s' Hs'. apply Hl. now right.
    + intros E'. apply Hs. rewrite <- E'. apply list_elem_of_lookup_2 in E. apply list_elem_of_fmap.
      exists (map tolower input). split; [symmetry; apply Hl; now right | exact E].
Qed.

Lemma names_ok : NoDup (map (map tolower) MONTHS) /\ NoDup (map (map tolower) WEEKDAYS) /\
  (forall s, s ∈ MONTHS ++ WEEKDAYS -> map tolower s = s /\ exists c t, s = c :: t /\ 97 <= c <= 122 /\ Forall (fun c => isspace c = false) s).
Proof.
  split; [by_compute |]. split; [by_compute |].
  assert (Forall (fun s => map tolower s = s /\ 97 <= default 0 (head s) <= 122 /\
    Forall (fun c => isspace c = false) s) (MONTHS ++ WEEKDAYS)) as H by by_compute.
  rewrite list.Forall_forall in H. intros s (E & Hc & Hw)%H. split; [exact E |]. destruct s as [| c t]; [cbn in Hc; lia |]. eauto.
Qed.

(** A field is read as a bit set of the values it selects. *)
Definition reads (n r : Z) (P : Z -> Prop) : Prop := 0 < r < 2 ^ n /\ forall k, 0 <= k < n -> Z.testbit r k = true <-> P k.

Lemma parse_times_field min n its :
  0 <= min -> 0 < n -> field_ok min n its ->
  exists r, parse_times (print_field its) min n = Some r /\ reads n r (field_selects min n its).
Proof.
  intros Hm Hn [H Hne].
  assert (length its <= S (length (print_field its)))%nat as Hlen.
  { clear H Hne. induction its as [| it its IH]; [cbn; lia |]. destruct its as [| it2 its]; [cbn [length]; lia |].
    change (print_field (it :: it2 :: its)) with (print_item it ++ 44 :: print_field (it2 :: its)). rewrite length_app. cbn [length] in *. lia. }
  destruct (parse_field min n its Hm Hn H Hne _ Hlen) as (r & E & Hr & Hk). exists r. split; [exact E |]. split; [exact Hr |]. auto.
Qed.

Lemma named_spec strings min n f :
  strings = MONTHS /\ min = 1 /\ n = 12 \/ strings = WEEKDAYS /\ min = 0 /\ n = 7 -> named_ok strings min n f ->
  exists r, parse_named (print_named f) strings min n = Some r /\ reads n r (named_selects min n f).
Proof.
  destruct names_ok as (D1 & D2 & D3). intros Hs.
  assert (forall s, s ∈ strings -> s ∈ MONTHS ++ WEEKDAYS) as Hsub by (intros s ?; apply elem_of_app; destruct Hs as [[-> _] | [-> _]]; tauto).
  assert (NoDup (map (map tolower) strings)) as Hd by (destruct Hs as [[-> _] | [-> _]]; assumption).
  assert (0 <= min /\ 0 < n /\ length strings = Z.to_nat n) as (Hm & Hn & Hlen) by (destruct Hs as [(-> & -> & ->) | (-> & -> & ->)]; cbn; lia).
  unfold parse_named, parse_strings. destruct f as [i s | its]; cbn [named_ok print_named named_selects].
  - intros [Hi E]. rewrite (strings_loop_name 0 s strings (Z.to_nat i) Hd); [| intros; apply D3, Hsub; assumption | exact E].
    rewrite Z2Nat.id, Z.add_0_l by assumption. pose proof (bit_pos i Hi). destruct (Z.eqb_spec (bit i) 0); [lia |].
    exists (bit i). split; [reflexivity |]. apply lookup_lt_Some in E. split; [split; [assumption |] |].
    + unfold bit. rewrite Z.shiftl_1_l. apply Z.pow_lt_mono_r; lia.
    + intros k Hk. now rewrite testbit_bit, Z.eqb_eq by assumption.
  - intros Hok. rewrite strings_loop_plain.
    + now apply parse_times_field.
    + eapply print_field_plain; [exact Hm | apply Hok].
    + now apply (print_field_nonempty min n).
    + apply list.Forall_forall. intros s Hin. destruct (D3 s (Hsub s Hin)) as (_ & c & t & E & Hc & _). eauto.
Qed.

(** *** Lines *)

Abbreviation wordy s := (Forall (fun c => isspace c = false) s).

Lemma take_word_space w r : wordy w -> take_word (w ++ 32 :: r) = (w, 32 :: r).
Proof. induction 1 as [| c w Hc _ IH]; [reflexivity |]. cbn [app take_word]. now rewrite Hc, IH. Qed.

Lemma skip_space_word w r : wordy w -> w <> [] -> skip_space (w ++ r) = w ++ r.
Proof. destruct 1 as [| c w Hc _]; [contradiction |]. intros _. cbn [app skip_space]. now rewrite Hc. Qed.

Lemma scan_word k w r : wordy w -> w <> [] -> scan_words (S k) (w ++ 32 :: r) = (w :: (scan_words k r).1, (scan_words k r).2).
Proof.
  intros Hw Hne. cbn [scan_words]. rewrite skip_space_word, take_word_space by assumption. destruct w as [| c w]; [contradiction |].
  assert (scan_words k (32 :: r) = scan_words k r) as -> by (destruct k; reflexivity). now destruct (scan_words k r).
Qed.

Lemma field_wordy min n its : 0 <= min -> field_ok min n its -> wordy (print_field its) /\ print_field its <> [].
Proof.
  intros Hm H. split; [| now apply (print_field_nonempty min n)]. eapply Forall_impl; [exact plain_not_space |].
  eapply print_field_plain; [exact Hm | apply H].
Qed.

Lemma named_wordy strings min n f :
  strings = MONTHS \/ strings = WEEKDAYS -> 0 <= min -> named_ok strings min n f -> wordy (print_named f) /\ print_named f <> [].
Proof.
  intros Hs Hm. destruct f as [i s | its]; [| now apply (field_wordy min n)]. intros [_ E%list_elem_of_lookup_2]. cbn [print_named].
  destruct names_ok as (_ & _ & D). destruct (D (map tolower s)) as (_ & c & t & Et & _ & Hw);
    [apply elem_of_app; destruct Hs as [-> | ->]; tauto |]. split; [| destruct s; discriminate].
  rewrite Forall_map in Hw. eapply Forall_impl; [| exact Hw]. intros x Hx.
  destruct (isspace x) eqn:Ex; [| reflexivity]. assert (tolower x = x) as Et'; [| now rewrite <- Ex, <- Et'].
  unfold isspace in Ex. unfold tolower. destruct (Z.leb_spec 65 x); [lia | reflexivity].
Qed.

(** The ranges of [localtime]. *)
Definition tm_ok (x : tm) : Prop :=
  0 <= tm_min x < 60 /\ 0 <= tm_hour x < 24 /\ 1 <= tm_mday x <= 31 /\ 0 <= tm_mon x < 12 /\ 0 <= tm_wday x < 7.

#[global] Instance tm_ok_dec x : Decision (tm_ok x).
Proof. unfold tm_ok. apply _. Defined.

(** A line as a crontab has it. *)
Record entry5 := Entry { e_min : list item; e_hour : list item; e_dom : list item; e_mon : field; e_dow : field; e_cmd : list Z }.

Definition print_line (e : entry5) : list Z :=
  print_field (e_min e) ++ 32 :: print_field (e_hour e) ++ 32 :: print_field (e_dom e) ++ 32 ::
  print_named (e_mon e) ++ 32 :: print_named (e_dow e) ++ 32 :: e_cmd e.

Definition entry_ok (e : entry5) : Prop :=
  field_ok 0 60 (e_min e) /\ field_ok 0 24 (e_hour e) /\ field_ok 1 31 (e_dom e) /\
  named_ok MONTHS 1 12 (e_mon e) /\ named_ok WEEKDAYS 0 7 (e_dow e) /\ skip_space (e_cmd e) = e_cmd e.

(** The times the entry stands for. *)
Definition due (e : entry5) (x : tm) : Prop :=
  field_selects 0 60 (e_min e) (tm_min x) /\ field_selects 0 24 (e_hour e) (tm_hour x) /\
  field_selects 1 31 (e_dom e) (tm_mday x - 1) /\ named_selects 1 12 (e_mon e) (tm_mon x) /\ named_selects 0 7 (e_dow e) (tm_wday x).

Lemma reads_bit n r P k : reads n r P -> 0 <= k < n -> (Z.land r (bit k) =? 0) = false <-> P k.
Proof. intros [_ H] Hk. rewrite land_bit, negb_false_iff by lia. now apply H. Qed.

Lemma check_job_cases x mi ho do mo dw cmd (P1 P2 P3 P4 P5 : Z -> Prop) :
  tm_ok x -> reads 60 mi P1 -> reads 24 ho P2 -> reads 31 do P3 -> reads 12 mo P4 -> reads 7 dw P5 ->
  let due := P1 (tm_min x) /\ P2 (tm_hour x) /\ P3 (tm_mday x - 1) /\ P4 (tm_mon x) /\ P5 (tm_wday x) in
  due /\ check_job x (Job mi ho do mo dw cmd) = [Fork cmd] \/ ~ due /\ check_job x (Job mi ho do mo dw cmd) = [].
Proof.
  intros (T1 & T2 & T3 & T4 & T5) R1 R2 R3 R4 R5 due. unfold check_job, run_job. cbn [minutes hours doms months dows command].
  pose proof (reads_bit _ _ _ _ R1 T1) as H1. pose proof (reads_bit _ _ _ _ R2 T2) as H2. pose proof (reads_bit _ _ _ (tm_mday x - 1) R3 ltac:(lia)) as H3.
  pose proof (reads_bit _ _ _ _ R4 T4) as H4. pose proof (reads_bit _ _ _ _ R5 T5) as H5. unfold due.
  destruct (Z.land mi _ =? 0); [right; intuition congruence |]. destruct (Z.land ho _ =? 0); [right; intuition congruence |].
  destruct (Z.land do _ =? 0); [right; intuition congruence |]. destruct (Z.land mo _ =? 0); [right; intuition congruence |].
  destruct (Z.land dw _ =? 0); [right; intuition congruence |]. left. intuition.
Qed.

Lemma scan_line e : entry_ok e ->
  scan_words 5 (print_line e) =
  ([print_field (e_min e); print_field (e_hour e); print_field (e_dom e); print_named (e_mon e); print_named (e_dow e)], e_cmd e).
Proof.
  intros (H1 & H2 & H3 & H4 & H5 & H6). unfold print_line.
  destruct (field_wordy 0 60 _ ltac:(lia) H1), (field_wordy 0 24 _ ltac:(lia) H2), (field_wordy 1 31 _ ltac:(lia) H3),
    (named_wordy _ 1 12 _ (or_introl eq_refl) ltac:(lia) H4), (named_wordy _ 0 7 _ (or_intror eq_refl) ltac:(lia) H5).
  rewrite !scan_word by assumption. cbn [scan_words fst snd]. now rewrite H6.
Qed.

(** ** Properties *)

(** C17: The daemon runs what the crontab says.  A line of five fields, printed from
    lists of values, ranges and steps or from a name of a month or a weekday in any
    case, is accepted and becomes the first job; at a broken-down time that job
    forks its command exactly when every field selects the time, and does nothing
    otherwise.  Values are counted round the field, so that a Sunday is 0 and 7. *)
Theorem crontab_line_runs e jobs :
  entry_ok e ->
  exists j, handle_line (print_line e) jobs = Some (0, j :: jobs) /\
  forall x, tm_ok x -> due e x /\ check_job x j = [Fork (e_cmd e)] \/ ~ due e x /\ check_job x j = [].
Proof.
  intros He. unfold handle_line. rewrite (scan_line e He). destruct He as (H1 & H2 & H3 & H4 & H5 & H6).
  destruct (parse_times_field 0 60 _ ltac:(lia) ltac:(lia) H1) as (mi & -> & R1).
  destruct (parse_times_field 0 24 _ ltac:(lia) ltac:(lia) H2) as (ho & -> & R2).
  destruct (parse_times_field 1 31 _ ltac:(lia) ltac:(lia) H3) as (do & -> & R3).
  destruct (named_spec MONTHS 1 12 _ ltac:(tauto) H4) as (mo & -> & R4). destruct (named_spec WEEKDAYS 0 7 _ ltac:(tauto) H5) as (dw & -> & R5).
  cbn [mbind option_bind]. pose proof (proj1 R1) as W1. pose proof (proj1 R2) as W2. pose proof (proj1 R3) as W3.
  pose proof (proj1 R4) as W4. pose proof (proj1 R5) as W5.
  rewrite (proj2 (Z.eqb_neq mi 0)) by lia. rewrite !u32_id, (u16_id mo) by lia. assert (u8 dw = dw) as -> by (apply u8_id; lia).
  rewrite !(proj2 (Z.eqb_neq _ 0)) by lia. eexists. split; [reflexivity |]. intros x Hx. now apply check_job_cases.
Qed.

(** "*/15 8-18/2 1,15 * Mon  echo x". *)
Definition demo_entry : entry5 :=
  Entry [(Star, Some 15)] [(Span 8 18, Some 2)] [(One 1, None); (One 15, None)] (Items [(Star, None)]) (Named 1 (lit "Mon")) (lit "echo x").

Lemma crontab_line_runs_witness :
  print_line demo_entry = lit "*/15 8-18/2 1,15 * Mon echo x" /\
  exists j, handle_line (print_line demo_entry) [] = Some (0, [j]) /\
  forall x, tm_ok x -> due demo_entry x /\ check_job x j = [Fork (lit "echo x")] \/ ~ due demo_entry x /\ check_job x j = [].
Proof.
  split; [by_compute |]. apply (crontab_line_runs demo_entry []).
  repeat split; repeat constructor; try discriminate; vm_compute; congruence.
Defined.

(** ** Widths *)

Definition job_ok (j : job) : Prop :=
  0 < minutes j < 2 ^ 60 /\ 0 < hours j < 2 ^ 24 /\ 0 < doms j < 2 ^ 31 /\ 0 < months j < 2 ^ 12 /\ 0 < dows j < 2 ^ 7.

Lemma strings_loop_bound i input strings : 0 <= i -> 0 <= strings_loop i input strings < 2 ^ (i + Z.of_nat (length strings)).
Proof.
  revert i. induction strings as [| s strings IH]; intros i Hi; cbn [strings_loop length].
  - split; [lia | apply Z.pow_pos_nonneg; lia].
  - destruct (strcaseeq input s).
    + pose proof (bit_pos i Hi). split; [lia |]. unfold bit. rewrite Z.shiftl_1_l. apply Z.pow_lt_mono_r; lia.
    + specialize (IH (i + 1) ltac:(lia)). replace (i + 1 + Z.of_nat (length strings)) with (i + Z.of_nat (S (length strings))) in IH by lia. exact IH.
Qed.

Lemma parse_named_width input strings min n r :
  0 < n -> Z.of_nat (length strings) <= n -> parse_named input strings min n = Some r -> 0 <= r < 2 ^ n.
Proof.
  intros Hn Hl. unfold parse_named, parse_strings. pose proof (strings_loop_bound 0 input strings ltac:(lia)) as Hb.
  pose proof (Z.pow_le_mono_r 2 _ n ltac:(lia) Hl). destruct (strings_loop 0 input strings =? 0); [now apply parse_times_width |].
  intros [= <-]. change (0 + Z.of_nat (length strings)) with (Z.of_nat (length strings)) in Hb. lia.
Qed.

Lemma handle_line_ok line jobs st jobs' :
  Forall job_ok jobs -> handle_line line jobs = Some (st, jobs') -> Forall job_ok jobs' /\ (st = 0 \/ st = -1 /\ jobs' = jobs).
Proof.
  intros Hj. unfold handle_line.
  destruct (scan_words 5 line) as [[| c0 [| c1 [| c2 [| c3 [| c4 [| c5 ?]]]]]] rest]; try (intros [= <- <-]; auto).
  destruct (parse_times c0 0 60) as [mi |] eqn:E0; cbn [mbind option_bind]; [| discriminate]. apply parse_times_width in E0; [| lia].
  destruct (Z.eqb_spec mi 0); [intros [= <- <-]; auto |].
  destruct (parse_times c1 0 24) as [ho |] eqn:E1; cbn [mbind option_bind]; [| discriminate]. apply parse_times_width in E1; [| lia].
  rewrite u32_id by lia. destruct (Z.eqb_spec ho 0); [intros [= <- <-]; auto |].
  destruct (parse_times c2 1 31) as [do |] eqn:E2; cbn [mbind option_bind]; [| discriminate]. apply parse_times_width in E2; [| lia].
  rewrite u32_id by lia. destruct (Z.eqb_spec do 0); [intros [= <- <-]; auto |].
  destruct (parse_named c3 MONTHS 1 12) as [mo |] eqn:E3; cbn [mbind option_bind]; [| discriminate].
  apply parse_named_width in E3; [| lia | cbn; lia]. rewrite u16_id by lia. destruct (Z.eqb_spec mo 0); [intros [= <- <-]; auto |].
  destruct (parse_named c4 WEEKDAYS 0 7) as [dw |] eqn:E4; cbn [mbind option_bind]; [| discriminate].
  apply parse_named_width in E4; [| lia | cbn; lia]. assert (u8 dw = dw) as -> by (apply u8_id; lia).
  destruct (Z.eqb_spec dw 0); [intros [= <- <-]; auto |]. intros [= <- <-]. split; [| now left]. constructor; [| exact Hj].
  unfold job_ok. cbn [minutes hours doms months dows]. lia.
Qed.

Lemma crontab_loop_ok name lineno lines jobs evs jobs' :
  Forall job_ok jobs -> crontab_loop name lineno lines jobs = Some (evs, jobs') -> Forall job_ok jobs'.
Proof.
  revert lineno jobs evs. induction lines as [| line lines IH]; intros lineno jobs evs Hj; cbn [crontab_loop]; [now intros [= _ <-] |].
  destruct (handle_line _ jobs) as [[st jobs1] |] eqn:E; cbn [mbind option_bind]; [| discriminate].
  apply handle_line_ok in E as [Hj1 _]; [| assumption]. cbn [fst snd].
  destruct (crontab_loop name (u32 (lineno + 1)) lines jobs1) as [[evs1 jobs2] |] eqn:E2; cbn [mbind option_bind]; [| discriminate].
  intros [= _ <-]. eauto.
Qed.

Lemma crondir_loop_ok ents jobs evs jobs' :
  Forall job_ok jobs -> crondir_loop ents jobs = Some (evs, jobs') -> Forall job_ok jobs'.
Proof.
  revert jobs evs. induction ents as [| [name file] ents IH]; intros jobs evs Hj; cbn [crondir_loop]; [now intros [= _ <-] |].
  case_bool_decide; [now apply IH |].
  destruct (read_crontab name file jobs) as [[evs1 jobs1] |] eqn:E; cbn [mbind option_bind]; [| discriminate]. cbn [fst snd].
  assert (Forall job_ok jobs1) as Hj1.
  { unfold read_crontab in E. destruct file; [now apply crontab_loop_ok in E | now injection E as _ <-]. }
  destruct (crondir_loop ents jobs1) as [[evs2 jobs2] |] eqn:E2; cbn [mbind option_bind]; [| discriminate]. intros [= _ <-]. eauto.
Qed.

(** The widths of the structure are enough: whatever the directory holds, every
    field of every job is a set that is not empty and fits the 60, 24, 31, 12 and 7
    values, so that no assignment to a narrower member loses a bit. *)
Theorem jobs_in_width dir evs jobs : read_crondir dir = Some (Some (evs, jobs)) -> Forall job_ok jobs.
Proof.
  unfold read_crondir. destruct dir as [ents |]; [| discriminate]. destruct (crondir_loop ents []) as [[evs' jobs'] |] eqn:E; [| discriminate].
  intros [= <- <-]. eapply crondir_loop_ok; [| exact E]. constructor.
Qed.

Definition demo_dir : list entry := [(lit ".keep", None); (lit "a", Some (lit "61 * * 13 7 x # y")); (lit "b", None)].

Lemma jobs_in_width_witness :
  read_crondir (Some demo_dir) = Some (Some ([Unreadable (lit "b")], [Job 2 (Z.ones 24) (Z.ones 31) 1 1 (lit "x ")])) /\
  Forall job_ok [Job 2 (Z.ones 24) (Z.ones 31) 1 1 (lit "x ")].
Proof.
  assert (read_crondir (Some demo_dir) = Some (Some ([Unreadable (lit "b")], [Job 2 (Z.ones 24) (Z.ones 31) 1 1 (lit "x ")]))) as E
    by (vm_compute; reflexivity).
  split; [exact E | exact (jobs_in_width _ _ _ E)].
Defined.

(** A number at the end of the range of [int].  The loop over "a-b/s" is undefined
    exactly when the first value above [b] that it reaches is not an [int]; in
    particular 2147483647 alone is, where 2147483646 is read as its remainder. *)
Theorem times_overflow a b s :
  0 <= a <= b -> b <= INT_MAX -> 0 < s <= INT_MAX ->
  parse_times (print_field [(Span a b, Some s)]) 0 60 = None <-> a + ((b - a) / s + 1) * s > INT_MAX.
Proof.
  intros Hab Hb Hs. unfold parse_times. cbn [print_field parse_times_rec].
  assert (44 ∉ print_item (Span a b, Some s)) as Hc
    by (apply item_not_in; try discriminate; [reflexivity | cbn; lia | unfold every; cbn; lia]).
  rewrite (cut_none _ _ Hc).
  pose proof (parse_item_print 0 60 (Span a b, Some s) 0 ltac:(lia) ltac:(lia) ltac:(lia) ltac:(cbn; lia) Hb Hs) as H.
  unfold stop in H. cbn [fst lo hi every snd default] in H. rewrite !Z.sub_0_r in H. cbn [from_option id] in H.
  rewrite (proj2 (Z.leb_le a b)) in H by lia.
  destruct (Z.leb_spec (a + ((b - a) / s + 1) * s) INT_MAX) as [Hle | Hgt].
  - destruct H as (r & -> & _). split; [discriminate | lia].
  - split; [lia | intros _; exact H].
Qed.

Lemma times_overflow_witness :
  (parse_times (print_field [(Span INT_MAX INT_MAX, Some 1)]) 0 60 = None <-> INT_MAX + ((INT_MAX - INT_MAX) / 1 + 1) * 1 > INT_MAX) /\
  parse_times (print_field [(One (INT_MAX - 1), None)]) 0 60 = Some (2 ^ 6).
Proof. split; [apply (times_overflow INT_MAX INT_MAX 1); unfold INT_MAX; lia | vm_compute; reflexivity]. Defined.

(** ** The clock *)

(** The times of waking up, [d] seconds after the end of each sleep. *)
Fixpoint wakes (t : Z) (ds : list Z) : list Z :=
  match ds with [] => [] | d :: ds => let t' := t + sleep_time t + d in t' :: wakes t' ds end.

(** The run in which every minute has its turn. *)
Fixpoint every_minute (localtime : Z -> tm) (jobs : list job) (t : Z) (ds : list Z) : list event :=
  match ds with
  | [] => []
  | d :: ds =>
      let t' := t + sleep_time t + d in
      Sleep (60 - t mod 60) :: flat_map (check_job (localtime t')) jobs ++ every_minute localtime jobs t' ds
  end.

Lemma next_wake t d : 0 <= t -> 0 <= d < 60 -> 0 <= t + sleep_time t + d /\ (t + sleep_time t + d) / 60 = t / 60 + 1.
Proof.
  intros Ht Hd. unfold sleep_time. rewrite Z.rem_mod_nonneg by lia. Z.to_euclidean_division_equations. lia.
Qed.

(** A clock that is not moved.  When every sleep lasts as long as asked for, or less
    than a minute longer, and the minutes of local time are those of [time] up to a
    constant, then the wake-ups fall in consecutive minutes and in each one every
    job is checked once, against the local time of the wake-up. *)
Theorem main_every_minute localtime o jobs t ds :
  (forall t, 0 <= t -> tm_min (localtime t) = (t / 60 + o) mod 60) -> 0 <= t -> Forall (fun d => 0 <= d < 60) ds ->
  main_loop localtime jobs (tm_min (localtime t)) t (wakes t ds) = every_minute localtime jobs t ds /\
  forall k t', wakes t ds !! k = Some t' -> t' / 60 = t / 60 + Z.of_nat k + 1.
Proof.
  intros Hcal Ht Hds. revert t Ht. induction Hds as [| d ds Hd Hds IH]; intros t Ht; [split; [reflexivity | discriminate] |].
  pose proof (next_wake t d Ht Hd) as [H0 Hn]. specialize (IH _ H0) as [IH1 IH2]. cbn [wakes every_minute main_loop]. split.
  - assert (tick jobs (tm_min (localtime t)) (localtime (t + sleep_time t + d)) =
      (tm_min (localtime (t + sleep_time t + d)), flat_map (check_job (localtime (t + sleep_time t + d))) jobs)) as ->.
    { unfold tick. assert (tm_min (localtime (t + sleep_time t + d)) = Z.rem (tm_min (localtime t) + 1) 60) as E.
      { rewrite !Hcal, Hn by assumption. pose proof (Z.mod_pos_bound (t / 60 + o) 60 ltac:(lia)).
        rewrite Z.rem_mod_nonneg by lia. rewrite Zplus_mod_idemp_l. f_equal. lia. }
      now rewrite <- E, Z.eqb_refl. }
    cbn [fst snd]. rewrite IH1. unfold sleep_time. now rewrite Z.rem_mod_nonneg by lia.
  - intros [| k] t'; cbn [lookup list_lookup]; [intros [= <-]; lia |]. intros H%IH2. lia.
Qed.

Definition utc (t : Z) : tm := Tm (t / 60 mod 60) (t / 3600 mod 24) 1 0 ((t / 86400 + 4) mod 7).

Definition demo_jobs : list job := [Job (Z.ones 60) (Z.ones 24) (Z.ones 31) (Z.ones 12) (Z.ones 7) (lit "x")].

Lemma main_every_minute_witness :
  main_loop utc demo_jobs (tm_min (utc 50)) 50 (wakes 50 [0; 30; 59]) =
  [Sleep 10; Fork (lit "x"); Sleep 60; Fork (lit "x"); Sleep 30; Fork (lit "x")].
Proof.
  refine (eq_trans (proj1 (main_every_minute utc 0 _ 50 [0; 30; 59] _ _ _)) _).
  - intros t _. cbn. now rewrite Z.add_0_r.
  - lia.
  - by_compute.
  - vm_compute. reflexivity.
Defined.

(** A clock that is moved.  Whatever the readings, after a turn the loop holds the
    minute of the last reading, and a reading whose minute is not the one after the
    previous reading's runs no job. *)
Theorem tick_resyncs localtime jobs t t' times :
  tm_ok (localtime t) -> tm_min (localtime t') <> (tm_min (localtime t) + 1) mod 60 ->
  main_loop localtime jobs (tm_min (localtime t)) t (t' :: times) =
  Sleep (sleep_time t) :: main_loop localtime jobs (tm_min (localtime t')) t' times.
Proof.
  intros (H & _) Hne. cbn [main_loop]. unfold tick. rewrite Z.rem_mod_nonneg by lia. now rewrite (proj2 (Z.eqb_neq _ _)).
Qed.

Lemma tick_resyncs_witness :
  main_loop utc demo_jobs 0 50 [50; 70] = [Sleep 10; Sleep 10; Fork (lit "x")].
Proof.
  refine (eq_trans (tick_resyncs utc demo_jobs 50 50 [70] _ _) _);
    [repeat split; vm_compute; congruence | vm_compute; discriminate | vm_compute; reflexivity].
Defined.
