(* ===== verification/AactdCom.v ===== *)
(** * AactdCom: the wire format of the audio control daemon

    Models [allwinner/audio/aactd-lib/files]: the helpers of [common.c] (reading
    and writing a number of bytes on a descriptor, little-endian integers, the
    checksum) and the messages of [communicate.c].  A buffer is the list of its
    bytes and a pointer into it an offset; NULL is [None] where the code tests for
    it; an access outside a buffer or an array is [None].  The structures are
    packed: a header has 8 bytes, a filter 14, a register 8.  The target is little
    endian and [size_t] has 32 bits. *)
From S2P Require Import Prelude.

(** ** Memory *)

Definition load (l : list Z) (off n : nat) : option (list Z) :=
  if decide (off + n <= length l)%nat then Some (bytes_at l off n) else None.

Definition store (l : list Z) (off : nat) (src : list Z) : option (list Z) :=
  if decide (off + length src <= length l)%nat then Some (blit l off src) else None.

(** ** [common.c] *)

(** What [read] can give on a connection: some of the bytes that came, or an error;
    after the last of them the end of file. *)
Inductive rd := Data (l : list Z) | Fail.

(** [read(fd, ptr, n)]: [None] is the error. *)
Definition sys_read (c : list rd) (n : Z) : option (list Z) * list rd :=
  match c with
  | [] => (Some [], [])
  | Fail :: c => (None, c)
  | Data l :: c =>
      let k := Z.to_nat (Z.min n (Z.of_nat (length l))) in
      (Some (take k l), match drop k l with [] => c | r => Data r :: c end)
  end.

(** At most one call per byte and per event. *)
Definition rd_weight (c : list rd) : nat := sum_list_with (fun r => S (match r with Data l => length l | Fail => O end)) c.

(** The loop of [aactd_readn] into [buf] at [off]. *)
Fixpoint readn_loop (fuel : nat) (c : list rd) (buf : list Z) (off : nat) (left bytes : Z) : option (Z * list Z * list rd) :=
  if left <=? 0 then Some (s32 (bytes - left), buf, c)
  else
    match fuel with
    | O => None
    | S fuel' =>
        match sys_read c left with
        | (None, c) => Some (-1, buf, c)
        | (Some [], c) => Some (s32 (bytes - left), buf, c)
        | (Some got, c) =>
            buf ← store buf off got;
            readn_loop fuel' c buf (off + length got) (left - Z.of_nat (length got)) bytes
        end
    end.

Definition aactd_readn (c : list rd) (buf : list Z) (off : nat) (bytes : Z) : option (Z * list Z * list rd) :=
  readn_loop (S (rd_weight c)) c buf off bytes bytes.

(** [write(fd, ptr, n)] when the results of the calls are [w], and all is taken
    after them. *)
Definition sys_write (w : list Z) (n : Z) : Z * list Z :=
  match w with [] => (n, []) | r :: w => (Z.min r n, w) end.

(** The loop of [aactd_writen]: the result, what went out and the results left. *)
Fixpoint writen_loop (fuel : nat) (w : list Z) (l : list Z) (left bytes : Z) (out : list Z) : option (Z * list Z * list Z) :=
  if left <=? 0 then Some (s32 (bytes - left), out, w)
  else
    match fuel with
    | O => None
    | S fuel' =>
        let '(r, w) := sys_write w left in
        if r <? 0 then Some (-1, out, w)
        else if r =? 0 then Some (s32 (bytes - left), out, w)
        else
          sent ← load l 0 (Z.to_nat r);
          writen_loop fuel' w (drop (Z.to_nat r) l) (left - r) bytes (out ++ sent)
    end.

Definition aactd_writen (w : list Z) (buf : list Z) (bytes : Z) : option (Z * list Z * list Z) :=
  writen_loop (S (length w)) w buf bytes bytes [].

Definition aactd_le_buf_to_uint16 (buf : list Z) (off : nat) : option Z := le_combine <$> load buf off 2.
Definition aactd_le_buf_to_int16 (buf : list Z) (off : nat) : option Z := swrap 16 ∘ le_combine <$> load buf off 2.
Definition aactd_le_buf_to_uint32 (buf : list Z) (off : nat) : option Z := le_combine <$> load buf off 4.
Definition aactd_le_buf_to_int32 (buf : list Z) (off : nat) : option Z := s32 ∘ le_combine <$> load buf off 4.

Definition aactd_uint16_to_le_buf (value : Z) (buf : list Z) (off : nat) : option (list Z) := store buf off (le_split 2 value).
Definition aactd_int16_to_le_buf (value : Z) (buf : list Z) (off : nat) : option (list Z) := store buf off (le_split 2 value).
Definition aactd_uint32_to_le_buf (value : Z) (buf : list Z) (off : nat) : option (list Z) := store buf off (le_split 4 value).
Definition aactd_int32_to_le_buf (value : Z) (buf : list Z) (off : nat) : option (list Z) := store buf off (le_split 4 value).

(** A count of zero or less adds nothing. *)
Definition aactd_calculate_checksum (buf : list Z) (buf_len : Z) : option Z :=
  foldl (fun sum b => u8 (sum + b)) 0 <$> load buf 0 (Z.to_nat buf_len).

(** ** [communicate.c]: the header *)

Definition AACTD_COM_HEADER_FLAG : Z := 0xAA.
Definition CMD_READ : Z := 0.
Definition CMD_WRITE : Z := 1.
Definition EQ_SW : Z := 1.
Definition DRC_HW : Z := 2.

Record aactd_com_header := Header { flag : Z; version : Z; command : Z; type : Z; data_len : Z }.

Definition aactd_com_buf_to_header (buf : option (list Z)) (header : option aactd_com_header)
  : option (Z * option aactd_com_header) :=
  match buf, header with
  | Some p, Some _ =>
      fl ← p !! 0%nat; ve ← p !! 1%nat; co ← p !! 2%nat; ty ← p !! 3%nat;
      le ← aactd_le_buf_to_uint32 p 4;
      Some (0, Some (Header fl ve co ty le))
  | _, _ => Some (-1, header)
  end.

Definition aactd_com_header_to_buf (header : option aactd_com_header) (buf : option (list Z)) : option (Z * option (list Z)) :=
  match header, buf with
  | Some h, Some p =>
      p ← store p 0 [flag h; version h; command h; type h];
      p ← aactd_uint32_to_le_buf (data_len h) p 4;
      Some (0, Some p)
  | _, _ => Some (-1, buf)
  end.

(** ** Equalizer parameters *)

Record aactd_com_eq_sw_filter_arg :=
  FilterArg { filter_type : Z; frequency : Z; gain : Z; quality : Z; enabled : Z }.

(** [filter_args] is the array the pointer of the structure points to. *)
Record aactd_com_eq_sw_data :=
  EqData { global_enabled : Z; filter_num : Z; filter_args : list aactd_com_eq_sw_filter_arg }.

Definition FILTER_SIZE : nat := 14.

Definition aactd_com_eq_sw_buf_to_filter_arg (buf : option (list Z)) (off : nat) (arg : option aactd_com_eq_sw_filter_arg)
  : option (Z * option aactd_com_eq_sw_filter_arg) :=
  match buf, arg with
  | Some p, Some _ =>
      ty ← p !! off;
      fr ← aactd_le_buf_to_int32 p (off + 1);
      ga ← aactd_le_buf_to_int32 p (off + 5);
      qu ← aactd_le_buf_to_int32 p (off + 9);
      en ← p !! (off + 13)%nat;
      Some (0, Some (FilterArg ty fr ga qu en))
  | _, _ => Some (-1, arg)
  end.

Definition aactd_com_eq_sw_filter_arg_to_buf (arg : option aactd_com_eq_sw_filter_arg) (buf : option (list Z)) (off : nat)
  : option (Z * option (list Z)) :=
  match arg, buf with
  | Some a, Some p =>
      p ← store p off [filter_type a];
      p ← aactd_int32_to_le_buf (frequency a) p (off + 1);
      p ← aactd_int32_to_le_buf (gain a) p (off + 5);
      p ← aactd_int32_to_le_buf (quality a) p (off + 9);
      p ← store p (off + 13) [enabled a];
      Some (0, Some p)
  | _, _ => Some (-1, buf)
  end.

Section Loops.
Context {A : Type}.
Variable size : nat.
Variable read1 : list Z -> nat -> A -> option A.
Variable write1 : A -> list Z -> nat -> option (list Z).

(** The loops over the elements [i], ..., [i + n - 1] of an array, which stand [size]
    bytes apart in the buffer. *)
Fixpoint read_loop (n i : nat) (p : list Z) (off : nat) (args : list A) : option (list A) :=
  match n with
  | O => Some args
  | S n' => old ← args !! i; a ← read1 p off old; read_loop n' (S i) p (off + size) (<[i := a]> args)
  end.

Fixpoint write_loop (n i : nat) (args : list A) (p : list Z) (off : nat) : option (list Z) :=
  match n with
  | O => Some p
  | S n' => a ← args !! i; p ← write1 a p off; write_loop n' (S i) args p (off + size)
  end.
End Loops.

(** The calls in the loops; neither argument is NULL there. *)
Definition read_filter (p : list Z) (off : nat) (old : aactd_com_eq_sw_filter_arg) : option aactd_com_eq_sw_filter_arg :=
  r ← aactd_com_eq_sw_buf_to_filter_arg (Some p) off (Some old); r.2.

Definition write_filter (a : aactd_com_eq_sw_filter_arg) (p : list Z) (off : nat) : option (list Z) :=
  r ← aactd_com_eq_sw_filter_arg_to_buf (Some a) (Some p) off; r.2.

Definition aactd_com_eq_sw_buf_to_data (buf : option (list Z)) (off : nat) (data : option aactd_com_eq_sw_data)
  : option (Z * option aactd_com_eq_sw_data) :=
  match buf, data with
  | Some p, Some d =>
      ge ← p !! off;
      fn ← p !! (off + 1)%nat;
      args ← read_loop FILTER_SIZE read_filter (Z.to_nat fn) 0 p (off + 2) (filter_args d);
      Some (0, Some (EqData ge fn args))
  | _, _ => Some (-1, data)
  end.

Definition aactd_com_eq_sw_data_to_buf (data : option aactd_com_eq_sw_data) (buf : option (list Z)) (off : nat)
  : option (Z * option (list Z)) :=
  match data, buf with
  | Some d, Some p =>
      p ← store p off [global_enabled d];
      p ← store p (off + 1) [filter_num d];
      p ← write_loop FILTER_SIZE write_filter (Z.to_nat (filter_num d)) 0 (filter_args d) p (off + 2);
      Some (0, Some p)
  | _, _ => Some (-1, buf)
  end.

(** ** Register parameters *)

Record aactd_com_drc_hw_reg_arg := RegArg { offset : Z; value : Z }.
Record aactd_com_drc_hw_data := DrcData { reg_num : Z; reg_args : list aactd_com_drc_hw_reg_arg }.

Definition REG_SIZE : nat := 8.

Definition aactd_com_drc_hw_buf_to_reg_arg (buf : option (list Z)) (off : nat) (arg : option aactd_com_drc_hw_reg_arg)
  : option (Z * option aactd_com_drc_hw_reg_arg) :=
  match buf, arg with
  | Some p, Some _ =>
      o ← aactd_le_buf_to_uint32 p off;
      v ← aactd_le_buf_to_uint32 p (off + 4);
      Some (0, Some (RegArg o v))
  | _, _ => Some (-1, arg)
  end.

Definition aactd_com_drc_hw_reg_arg_to_buf (arg : option aactd_com_drc_hw_reg_arg) (buf : option (list Z)) (off : nat)
  : option (Z * option (list Z)) :=
  match arg, buf with
  | Some a, Some p =>
      p ← aactd_uint32_to_le_buf (offset a) p off;
      p ← aactd_uint32_to_le_buf (value a) p (off + 4);
      Some (0, Some p)
  | _, _ => Some (-1, buf)
  end.

Definition read_reg (p : list Z) (off : nat) (old : aactd_com_drc_hw_reg_arg) : option aactd_com_drc_hw_reg_arg :=
  r ← aactd_com_drc_hw_buf_to_reg_arg (Some p) off (Some old); r.2.

Definition write_reg (a : aactd_com_drc_hw_reg_arg) (p : list Z) (off : nat) : option (list Z) :=
  r ← aactd_com_drc_hw_reg_arg_to_buf (Some a) (Some p) off; r.2.

Definition aactd_com_drc_hw_buf_to_data (buf : option (list Z)) (off : nat) (data : option aactd_com_drc_hw_data)
  : option (Z * option aactd_com_drc_hw_data) :=
  match buf, data with
  | Some p, Some d =>
      rn ← aactd_le_buf_to_uint16 p off;
      args ← read_loop REG_SIZE read_reg (Z.to_nat rn) 0 p (off + 2) (reg_args d);
      Some (0, Some (DrcData rn args))
  | _, _ => Some (-1, data)
  end.

Definition aactd_com_drc_hw_data_to_buf (data : option aactd_com_drc_hw_data) (buf : option (list Z)) (off : nat)
  : option (Z * option (list Z)) :=
  match data, buf with
  | Some d, Some p =>
      p ← aactd_uint16_to_le_buf (reg_num d) p off;
      p ← write_loop REG_SIZE write_reg (Z.to_nat (reg_num d)) 0 (reg_args d) p (off + 2);
      Some (0, Some p)
  | _, _ => Some (-1, buf)
  end.

(** ** Messages in memory *)

(** [com_data] is the buffer from the address in [data] on. *)
Record aactd_com := Com { header : aactd_com_header; com_data : list Z; checksum : Z }.

(** [memcpy] of the data; the copy reads and writes [data_len] bytes. *)
Definition aactd_com_copy (src dst : aactd_com) : option aactd_com :=
  let n := Z.to_nat (data_len (header src)) in
  d ← load (com_data src) 0 n;
  m ← store (com_data dst) 0 d;
  Some (Com (header src) m (checksum src)).

(** What [aactd_com_print_content] shows of the data. *)
Inductive content :=
  | EqContent (global_enabled filter_num : Z) (args : list aactd_com_eq_sw_filter_arg)
  | DrcContent (reg_num : Z) (args : list aactd_com_drc_hw_reg_arg)
  | NoContent.

Fixpoint show_loop {A} (size : nat) (read1 : list Z -> nat -> option A) (n : nat) (p : list Z) (off : nat) : option (list A) :=
  match n with
  | O => Some []
  | S n' => a ← read1 p off; l ← show_loop size read1 n' p (off + size); Some (a :: l)
  end.

Definition aactd_com_print_content (com : aactd_com) : option content :=
  if type (header com) =? EQ_SW then
    ge ← com_data com !! 0%nat;
    fn ← com_data com !! 1%nat;
    l ← show_loop FILTER_SIZE (fun p off => read_filter p off (FilterArg 0 0 0 0 0)) (Z.to_nat fn) (com_data com) 2;
    Some (EqContent ge fn l)
  else if type (header com) =? DRC_HW then
    rn ← aactd_le_buf_to_uint16 (com_data com) 0;
    l ← show_loop REG_SIZE (fun p off => read_reg p off (RegArg 0 0)) (Z.to_nat rn) (com_data com) 2;
    Some (DrcContent rn l)
  else Some NoContent.

(** ** Lemmas: memory *)

(** [bs] stands at [off] in [l]. *)
Definition holds (l : list Z) (off : nat) (bs : list Z) : Prop := exists pre post, l = pre ++ bs ++ post /\ length pre = off.

Lemma holds_app l off a b : holds l off (a ++ b) <-> holds l off a /\ holds l (off + length a) b.
Proof.
  split.
  - intros (pre & post & -> & <-). split; [exists pre, (b ++ post) | exists (pre ++ a), post]; rewrite ?length_app, <- ?app_assoc; auto.
  - intros [(pre & post & E & Hp) (pre' & post' & E' & Hp')]. exists pre, post'. split; [| assumption].
    rewrite E', (app_assoc pre a post) in E. apply app_inj_1 in E as [-> <-]; [| rewrite length_app; lia].
    now rewrite E', <- !app_assoc.
Qed.

Lemma holds_load l off bs : holds l off bs -> load l off (length bs) = Some bs.
Proof.
  intros (pre & post & -> & <-). unfold load. rewrite decide_True by (rewrite !length_app; lia). unfold bytes_at.
  now rewrite drop_app_length, take_app_length.
Qed.

Lemma holds_lookup l off b bs : holds l off (b :: bs) -> l !! off = Some b.
Proof. intros (pre & post & -> & <-). now apply list_lookup_middle. Qed.

Lemma holds_tail l off b bs : holds l off (b :: bs) -> holds l (S off) bs.
Proof. intros H. change (b :: bs) with ([b] ++ bs) in H. apply holds_app in H as [_ H]. now rewrite Nat.add_1_r in H. Qed.

Lemma holds_drop l off bs : holds l off bs -> forall k, (k <= off)%nat -> holds (drop k l) (off - k) bs.
Proof.
  intros (pre & post & -> & <-) k Hk. exists (drop k pre), post. rewrite drop_app_le by assumption. now rewrite length_drop.
Qed.

(** Two stores that touch are one. *)
Lemma store_store l off a b :
  (l' ← store l off a; store l' (off + length a) b) = store l off (a ++ b).
Proof.
  unfold store. rewrite length_app. destruct (decide (off + length a <= length l)%nat) as [Ha | Ha]; cbn [mbind option_bind].
  - rewrite length_blit by assumption. rewrite Nat.add_assoc.
    destruct (decide (off + length a + length b <= length l)%nat); [| reflexivity]. f_equal. unfold blit.
    rewrite length_app, (app_assoc (take off l)), take_app_length' by (rewrite length_app, length_take; lia).
    rewrite drop_app_ge by (rewrite !length_app, length_take; lia). rewrite <- !app_assoc. do 3 f_equal.
    rewrite length_app, length_take, drop_drop. f_equal. lia.
  - now rewrite decide_False by lia.
Qed.

Lemma store_some l off a :
  (off + length a <= length l)%nat -> store l off a = Some (blit l off a) /\ holds (blit l off a) off a /\ length (blit l off a) = length l.
Proof.
  intros H. unfold store. rewrite decide_True by assumption. split; [reflexivity |]. split; [| now apply length_blit].
  exists (take off l), (drop (off + length a) l). split; [reflexivity |]. rewrite length_take. lia.
Qed.

Lemma uint32_load l off v : 0 <= v < 2 ^ 32 -> holds l off (le_split 4 v) -> aactd_le_buf_to_uint32 l off = Some v.
Proof. intros Hv H%holds_load. rewrite length_le_split in H. unfold aactd_le_buf_to_uint32. rewrite H. cbn [fmap option_fmap option_map]. rewrite le_combine_split. f_equal. apply Z.mod_small. lia. Qed.

Lemma uint16_load l off v : 0 <= v < 2 ^ 16 -> holds l off (le_split 2 v) -> aactd_le_buf_to_uint16 l off = Some v.
Proof. intros Hv H%holds_load. rewrite length_le_split in H. unfold aactd_le_buf_to_uint16. rewrite H. cbn [fmap option_fmap option_map]. rewrite le_combine_split. f_equal. apply Z.mod_small. lia. Qed.

Lemma s32_mod v : - 2 ^ 31 <= v < 2 ^ 31 -> s32 (v mod 2 ^ 32) = v.
Proof. intros Hv. unfold s32, swrap. rewrite Zplus_mod_idemp_l, Z.mod_small by lia. lia. Qed.

Lemma int32_load l off v : - 2 ^ 31 <= v < 2 ^ 31 -> holds l off (le_split 4 v) -> aactd_le_buf_to_int32 l off = Some v.
Proof.
  intros Hv H%holds_load. rewrite length_le_split in H. unfold aactd_le_buf_to_int32. rewrite H. cbn [fmap option_fmap option_map compose].
  rewrite le_combine_split. f_equal. now apply s32_mod.
Qed.

(** ** Lemmas: encodings *)

Definition enc_header (h : aactd_com_header) : list Z := [flag h; version h; command h; type h] ++ le_split 4 (data_len h).

Definition enc_filter (a : aactd_com_eq_sw_filter_arg) : list Z :=
  [filter_type a] ++ le_split 4 (frequency a) ++ le_split 4 (gain a) ++ le_split 4 (quality a) ++ [enabled a].

Definition enc_reg (a : aactd_com_drc_hw_reg_arg) : list Z := le_split 4 (offset a) ++ le_split 4 (value a).

Definition header_ok (h : aactd_com_header) : Prop :=
  byte_ok (flag h) /\ byte_ok (version h) /\ byte_ok (command h) /\ byte_ok (type h) /\ 0 <= data_len h < 2 ^ 32.

Definition filter_ok (a : aactd_com_eq_sw_filter_arg) : Prop :=
  byte_ok (filter_type a) /\ (- 2 ^ 31 <= frequency a < 2 ^ 31) /\ (- 2 ^ 31 <= gain a < 2 ^ 31) /\
  (- 2 ^ 31 <= quality a < 2 ^ 31) /\ byte_ok (enabled a).

Definition reg_ok (a : aactd_com_drc_hw_reg_arg) : Prop := 0 <= offset a < 2 ^ 32 /\ 0 <= value a < 2 ^ 32.

Lemma length_enc_header h : length (enc_header h) = 8%nat. Proof. reflexivity. Qed.
Lemma length_enc_filter a : length (enc_filter a) = FILTER_SIZE. Proof. reflexivity. Qed.
Lemma length_enc_reg a : length (enc_reg a) = REG_SIZE. Proof. reflexivity. Qed.

Lemma header_to_buf_enc h p : aactd_com_header_to_buf (Some h) (Some p) = (fun p => (0, Some p)) <$> store p 0 (enc_header h).
Proof.
  unfold aactd_com_header_to_buf, aactd_uint32_to_le_buf, enc_header. rewrite <- store_store. change (length _) with 4%nat.
  destruct (store p 0 _) as [q |]; [| reflexivity]. cbn [mbind option_bind]. now destruct (store q _ _).
Qed.

Lemma buf_to_header_enc h h0 p : header_ok h -> holds p 0 (enc_header h) -> aactd_com_buf_to_header (Some p) (Some h0) = Some (0, Some h).
Proof.
  intros (_ & _ & _ & _ & Hl) H. unfold aactd_com_buf_to_header. unfold enc_header in H. cbn [app] in H.
  pose proof (holds_lookup _ _ _ _ H) as ->. apply holds_tail in H. pose proof (holds_lookup _ _ _ _ H) as ->. apply holds_tail in H.
  pose proof (holds_lookup _ _ _ _ H) as ->. apply holds_tail in H. pose proof (holds_lookup _ _ _ _ H) as ->. apply holds_tail in H.
  cbn [mbind option_bind]. rewrite (uint32_load _ _ _ Hl H). now destruct h.
Qed.

Lemma write_filter_enc a p off : write_filter a p off = store p off (enc_filter a).
Proof.
  unfold write_filter, aactd_com_eq_sw_filter_arg_to_buf, aactd_int32_to_le_buf, enc_filter. rewrite <- store_store.
  change (length [filter_type a]) with 1%nat. destruct (store p off _) as [p1 |]; [| reflexivity]. cbn [mbind option_bind].
  rewrite <- store_store, length_le_split, <- Nat.add_assoc. cbn [Nat.add]. destruct (store p1 _ _) as [p2 |]; [| reflexivity]. cbn [mbind option_bind].
  rewrite <- store_store, length_le_split, <- Nat.add_assoc. cbn [Nat.add]. destruct (store p2 _ _) as [p3 |]; [| reflexivity]. cbn [mbind option_bind].
  rewrite <- store_store, length_le_split, <- Nat.add_assoc. cbn [Nat.add]. destruct (store p3 _ _) as [p4 |]; [| reflexivity]. cbn [mbind option_bind].
  now destruct (store p4 _ _).
Qed.

Lemma read_filter_enc a a0 p off : filter_ok a -> holds p off (enc_filter a) -> read_filter p off a0 = Some a.
Proof.
  intros (_ & Hf & Hg & Hq & _) H. unfold enc_filter in H. rewrite !holds_app, !length_le_split in H.
  destruct H as (H1 & H2 & H3 & H4 & H5). change (length [filter_type a]) with 1%nat in *. rewrite <- !Nat.add_assoc in *. cbn [Nat.add] in *.
  unfold read_filter, aactd_com_eq_sw_buf_to_filter_arg. rewrite (holds_lookup _ _ _ _ H1). cbn [mbind option_bind].
  rewrite (int32_load _ _ _ Hf H2). cbn [mbind option_bind]. rewrite (int32_load _ _ _ Hg H3). cbn [mbind option_bind].
  rewrite (int32_load _ _ _ Hq H4). cbn [mbind option_bind]. rewrite (holds_lookup _ _ _ _ H5). now destruct a.
Qed.

Lemma write_reg_enc a p off : write_reg a p off = store p off (enc_reg a).
Proof.
  unfold write_reg, aactd_com_drc_hw_reg_arg_to_buf, aactd_uint32_to_le_buf, enc_reg. rewrite <- store_store, length_le_split.
  destruct (store p off _) as [p1 |]; [| reflexivity]. cbn [mbind option_bind]. now destruct (store p1 _ _).
Qed.

Lemma read_reg_enc a a0 p off : reg_ok a -> holds p off (enc_reg a) -> read_reg p off a0 = Some a.
Proof.
  intros (Ho & Hv) H. unfold enc_reg in H. rewrite holds_app, length_le_split in H. destruct H as (H1 & H2).
  unfold read_reg, aactd_com_drc_hw_buf_to_reg_arg. rewrite (uint32_load _ _ _ Ho H1). cbn [mbind option_bind].
  rewrite (uint32_load _ _ _ Hv H2). now destruct a.
Qed.

Section LoopLemmas.
Context {A : Type} (size : nat) (read1 : list Z -> nat -> A -> option A) (write1 : A -> list Z -> nat -> option (list Z)).
Context (enc : A -> list Z) (ok : A -> Prop).
Context (Hlen : forall a, length (enc a) = size) (Hw : forall a p off, write1 a p off = store p off (enc a)).
Context (Hr : forall a a0 p off, ok a -> holds p off (enc a) -> read1 p off a0 = Some a).
Context (Hs : forall p off a0, is_Some (read1 p off a0) <-> (off + size <= length p)%nat).

Lemma write_loop_enc n i args p off :
  (i + n <= length args)%nat -> (off <= length p)%nat ->
  write_loop size write1 n i args p off = store p off (concat (map enc (take n (drop i args)))).
Proof.
  revert i p off. induction n as [| n IH]; intros i p off Hn Ho; cbn [write_loop].
  - rewrite take_0. cbn [map concat]. unfold store. cbn [length]. rewrite decide_True by lia. unfold blit. cbn [length app].
    now rewrite Nat.add_0_r, take_drop.
  - destruct (lookup_lt_is_Some_2 args i ltac:(lia)) as [a Ea]. rewrite Ea. cbn [mbind option_bind]. rewrite Hw.
    rewrite (drop_S args a i Ea). cbn [take map concat]. rewrite <- store_store, Hlen.
    destruct (store p off (enc a)) as [q |] eqn:E; [| reflexivity]. cbn [mbind option_bind]. apply IH; [lia |].
    unfold store in E. destruct (decide (off + length (enc a) <= length p)%nat) as [H |]; [| discriminate]. injection E as <-.
    rewrite length_blit by assumption. rewrite Hlen in H. exact H.
Qed.

Lemma read_loop_enc n i p off args xs :
  length xs = n -> Forall ok xs -> holds p off (concat (map enc xs)) -> (i + n <= length args)%nat ->
  read_loop size read1 n i p off args = Some (take i args ++ xs ++ drop (i + n) args).
Proof.
  intros <- H. revert i off args. induction H as [| x xs Hx Hxs IH]; intros i off args Hp Hi; cbn [length read_loop].
  - cbn [app]. now rewrite Nat.add_0_r, take_drop.
  - cbn [length] in Hi. destruct (lookup_lt_is_Some_2 args i ltac:(lia)) as [a Ea]. rewrite Ea. cbn [mbind option_bind].
    cbn [map concat] in Hp. apply holds_app in Hp as [H1 H2]. rewrite Hlen in H2. rewrite (Hr x a p off Hx H1). cbn [mbind option_bind].
    rewrite IH; [| exact H2 | rewrite length_insert; lia]. f_equal.
    rewrite (take_S_r _ i x) by (apply list_lookup_insert_eq; lia). rewrite take_insert_ge, drop_insert_lt, <- !app_assoc by lia. cbn [app].
    now rewrite Nat.add_succ_r.
Qed.

(** The loop is defined exactly inside the array and the buffer. *)
Lemma read_loop_defined n i p off args :
  is_Some (read_loop size read1 n i p off args) <-> n = O \/ (i + n <= length args /\ off + n * size <= length p)%nat.
Proof.
  revert i off args. induction n as [| n IH]; intros i off args; cbn [read_loop]; [split; [now left | now eexists] |].
  destruct (args !! i) as [a |] eqn:Ea; cbn [mbind option_bind].
  - apply lookup_lt_Some in Ea. destruct (read1 p off a) as [b |] eqn:Eb; cbn [mbind option_bind].
    + rewrite IH, length_insert. assert (off + size <= length p)%nat by (apply (Hs p off a); eauto). lia.
    + split; [intros [? [=]] |]. intros [| [_ Hle]]; [discriminate |]. exfalso.
      destruct (proj2 (Hs p off a)) as [? E]; [lia | congruence].
  - apply lookup_ge_None in Ea. split; [intros [? [=]] |]. lia.
Qed.

Lemma read_loop_length n i p off args args' : read_loop size read1 n i p off args = Some args' -> length args' = length args.
Proof.
  revert i off args. induction n as [| n IH]; intros i off args; cbn [read_loop]; [now intros [= ->] |].
  destruct (args !! i); [| discriminate]. cbn [mbind option_bind]. destruct (read1 p off _); [| discriminate]. cbn [mbind option_bind].
  intros H%IH. now rewrite length_insert in H.
Qed.
End LoopLemmas.

Lemma load_defined l off n : is_Some (load l off n) <-> (off + n <= length l)%nat.
Proof. unfold load. destruct (decide _); split; intros H; try assumption; try contradiction; [now eexists | now destruct H]. Qed.

Lemma read_filter_defined p off a0 : is_Some (read_filter p off a0) <-> (off + FILTER_SIZE <= length p)%nat.
Proof.
  unfold read_filter, aactd_com_eq_sw_buf_to_filter_arg, aactd_le_buf_to_int32, FILTER_SIZE.
  destruct (p !! off) as [b |] eqn:E0; cbn [mbind option_bind]; [| apply lookup_ge_None in E0; split; [intros [? [=]] | lia]].
  destruct (p !! (off + 13)%nat) as [e |] eqn:E1; [apply lookup_lt_Some in E1 | apply lookup_ge_None in E1].
  - destruct (proj2 (load_defined p (off + 1) 4) ltac:(lia)) as [? ->], (proj2 (load_defined p (off + 5) 4) ltac:(lia)) as [? ->],
      (proj2 (load_defined p (off + 9) 4) ltac:(lia)) as [? ->]. split; [lia | now eexists].
  - split; [| lia]. destruct (load p (off + 1) 4); [| now intros [? [=]]]. destruct (load p (off + 5) 4); [| now intros [? [=]]].
    destruct (load p (off + 9) 4); now intros [? [=]].
Qed.

Lemma read_reg_defined p off a0 : is_Some (read_reg p off a0) <-> (off + REG_SIZE <= length p)%nat.
Proof.
  unfold read_reg, aactd_com_drc_hw_buf_to_reg_arg, aactd_le_buf_to_uint32, REG_SIZE.
  destruct (decide (off + 4 + 4 <= length p)%nat) as [H | H].
  - destruct (proj2 (load_defined p off 4) ltac:(lia)) as [? ->], (proj2 (load_defined p (off + 4) 4) H) as [? ->].
    split; [lia | now eexists].
  - split; [| lia]. destruct (load p off 4); [| now intros [? [=]]]. cbn.
    destruct (load p (off + 4) 4) eqn:E; [| now intros [? [=]]]. assert (is_Some (load p (off + 4) 4)) as Hd%load_defined by eauto. lia.
Qed.

(** ** Lemmas: descriptors *)

(** What a connection delivers before the first error or end of file. *)
Fixpoint delivered (c : list rd) : list Z :=
  match c with Data (b :: l) :: c => (b :: l) ++ delivered c | _ => [] end.

(** Nothing but data, none of it empty. *)
Definition clean (c : list rd) : Prop := Forall (fun r => exists b l, r = Data (b :: l)) c.

Lemma sys_read_clean c n :
  clean c -> 0 < n -> c <> [] ->
  exists got c', sys_read c n = (Some got, c') /\ got <> [] /\ clean c' /\ delivered c = got ++ delivered c' /\
  Z.of_nat (length got) <= n /\ (rd_weight c' < rd_weight c)%nat.
Proof.
  intros H Hn Hne. destruct H as [| r c (b & l & ->) Hc]; [contradiction |]. cbn [sys_read].
  set (k := Z.to_nat (Z.min n (Z.of_nat (length (b :: l))))). assert (0 < k <= length (b :: l))%nat as Hk by (cbn [length] in *; lia).
  exists (take k (b :: l)), (match drop k (b :: l) with [] => c | r => Data r :: c end). split; [reflexivity |].
  assert (take k (b :: l) <> []) as Hg by (destruct k; [lia | discriminate]). split; [exact Hg |].
  pose proof (take_drop k (b :: l)) as Et. assert (Z.of_nat (length (take k (b :: l))) <= n) by (rewrite length_take; lia).
  pose proof (length_drop (b :: l) k) as Hd. destruct (drop k (b :: l)) as [| b' l'] eqn:E.
  - rewrite app_nil_r in Et. split; [exact Hc |]. change (delivered (Data (b :: l) :: c)) with ((b :: l) ++ delivered c).
    split; [now rewrite Et |]. split; [assumption |].
    change (rd_weight (Data (b :: l) :: c)) with (S (S (length l)) + rd_weight c)%nat. lia.
  - split; [constructor; [eauto | assumption] |]. change (delivered (Data (b :: l) :: c)) with ((b :: l) ++ delivered c).
    split; [rewrite <- Et at 1; now rewrite <- app_assoc |]. split; [assumption |]. change (rd_weight (Data (b :: l) :: c)) with (S (S (length l)) + rd_weight c)%nat.
    change (rd_weight (Data (b' :: l') :: c)) with (S (S (length l')) + rd_weight c)%nat. cbn [length] in Hd. lia.
Qed.

(** [aactd_readn] on a connection that delivers enough takes exactly what was asked
    for, however it was cut up; on one that delivers less it takes everything; and it
    faults exactly when what it takes does not fit. *)
Lemma readn_loop_clean fuel c buf off left bytes :
  clean c -> (rd_weight c < fuel)%nat -> 0 <= left <= bytes -> (off <= length buf)%nat ->
  let k := Z.to_nat (Z.min left (Z.of_nat (length (delivered c)))) in
  if decide (off + k <= length buf)%nat then
    exists c', readn_loop fuel c buf off left bytes = Some (s32 (bytes - left + Z.of_nat k), blit buf off (take k (delivered c)), c') /\
    clean c' /\ delivered c' = drop k (delivered c) /\ (rd_weight c' <= rd_weight c)%nat
  else readn_loop fuel c buf off left bytes = None.
Proof.
  cbv zeta. revert c buf off left. induction fuel as [| fuel IH]; intros c buf off left Hc Hf Hl Hoff; [lia |]. cbn [readn_loop].
  destruct (Z.leb_spec left 0) as [H0 | H0].
  - assert (left = 0) as -> by lia. rewrite Z.min_l by lia. change (Z.to_nat 0) with O. rewrite decide_True by lia. exists c.
    rewrite take_0, drop_0, Z.sub_0_r, Z.add_0_r. unfold blit. cbn [length app]. rewrite Nat.add_0_r, take_drop. auto.
  - destruct c as [| r c].
    + cbn [sys_read delivered length]. rewrite Z.min_r by lia. change (Z.to_nat (Z.of_nat 0)) with O. rewrite decide_True by lia. exists [].
      unfold blit. cbn [take drop length app]. rewrite Z.add_0_r, Nat.add_0_r, take_drop. auto.
    + destruct (sys_read_clean (r :: c) left Hc H0 ltac:(discriminate)) as (got & c' & E & Hg & Hc' & Hdel & Hle & Hwt).
      rewrite E. destruct got as [| g got]; [contradiction |]. set (got' := g :: got) in *. rewrite Hdel, length_app.
      set (k2 := Z.to_nat (Z.min (left - Z.of_nat (length got')) (Z.of_nat (length (delivered c'))))) in *.
      assert (Z.to_nat (Z.min left (Z.of_nat (length got' + length (delivered c')))) = length got' + k2)%nat as -> by (unfold k2; lia).
      destruct (decide (off + length got' <= length buf)%nat) as [Hroom | Hroom].
      2: { unfold store. rewrite !decide_False by lia. reflexivity. }
      destruct (store_some buf off got' Hroom) as (Es & Hh & Hlen). rewrite Es. cbn [mbind option_bind].
      specialize (IH c' (blit buf off got') (off + length got')%nat (left - Z.of_nat (length got')) Hc' ltac:(lia) ltac:(lia) ltac:(rewrite Hlen; lia)).
      fold k2 in IH. rewrite Hlen, <- Nat.add_assoc in IH. destruct (decide (off + (length got' + k2) <= length buf)%nat) as [Hd | Hd]; [| exact IH].
      destruct IH as (c2 & E2 & Hc2 & Hd2 & Hw2). exists c2. rewrite E2, take_app_add, drop_app_add.
      split; [| split; [assumption | split; [assumption | lia]]]. f_equal. f_equal. f_equal; [f_equal; lia |].
      assert (length (take k2 (delivered c')) = k2) as Hk2 by (rewrite length_take; unfold k2; lia).
      destruct (store_some (blit buf off got') (off + length got') (take k2 (delivered c')) ltac:(rewrite Hlen, Hk2; lia)) as (Es2 & _).
      destruct (store_some buf off (got' ++ take k2 (delivered c')) ltac:(rewrite length_app, Hk2; lia)) as (Es3 & _).
      pose proof (store_store buf off got' (take k2 (delivered c'))) as Hss. rewrite Es in Hss. cbn [mbind option_bind] in Hss. congruence.
Qed.

Lemma readn_exact c buf off bytes :
  clean c -> 0 <= bytes -> (off <= length buf)%nat ->
  let k := Z.to_nat (Z.min bytes (Z.of_nat (length (delivered c)))) in
  if decide (off + k <= length buf)%nat then
    exists c', aactd_readn c buf off bytes = Some (s32 (Z.of_nat k), blit buf off (take k (delivered c)), c') /\
    clean c' /\ delivered c' = drop k (delivered c) /\ (rd_weight c' <= rd_weight c)%nat
  else aactd_readn c buf off bytes = None.
Proof.
  intros Hc Hb Hoff k. pose proof (readn_loop_clean (S (rd_weight c)) c buf off bytes bytes Hc ltac:(lia) ltac:(lia) Hoff) as H.
  cbv zeta in H. fold k in H. rewrite Z.sub_diag, Z.add_0_l in H. exact H.
Qed.

Lemma readn_clean c buf off bytes :
  clean c -> 0 <= bytes < 2 ^ 31 -> (off + Z.to_nat bytes <= length buf)%nat ->
  let k := Z.to_nat (Z.min bytes (Z.of_nat (length (delivered c)))) in
  exists c', aactd_readn c buf off bytes = Some (Z.of_nat k, blit buf off (take k (delivered c)), c') /\
  clean c' /\ delivered c' = drop k (delivered c) /\ (rd_weight c' <= rd_weight c)%nat.
Proof.
  intros Hc Hb Hroom k. pose proof (readn_exact c buf off bytes Hc ltac:(lia) ltac:(lia)) as H. cbv zeta in H. fold k in H.
  rewrite decide_True in H by lia. now rewrite s32_id in H by lia.
Qed.

(** Whatever the connection, a call that returns a count has consumed something. *)
Lemma sys_read_weight c n got c' : sys_read c n = (Some got, c') -> got <> [] -> (rd_weight c' < rd_weight c)%nat.
Proof.
  destruct c as [| [l |] c]; cbn [sys_read]; [congruence | | congruence]. set (k := Z.to_nat _). intros [= <- <-] Hne.
  pose proof (length_drop l k) as Hd. assert (0 < k)%nat by (destruct k; [contradiction | lia]).
  change (rd_weight (Data l :: c)) with (S (length l) + rd_weight c)%nat. destruct (drop k l) as [| x r]; [lia |].
  change (rd_weight (Data (x :: r) :: c)) with (S (length (x :: r)) + rd_weight c)%nat. destruct l; [now destruct k | cbn [length] in *; lia].
Qed.

Lemma sys_read_weight_le c n r c' : sys_read c n = (r, c') -> (rd_weight c' <= rd_weight c)%nat.
Proof.
  destruct c as [| [l |] c]; cbn [sys_read].
  - intros [= _ <-]. lia.
  - set (k := Z.to_nat _). intros [= _ <-]. pose proof (length_drop l k) as Hd. change (rd_weight (Data l :: c)) with (S (length l) + rd_weight c)%nat.
    destruct (drop k l) as [| x r']; [lia |]. change (rd_weight (Data (x :: r') :: c)) with (S (length (x :: r')) + rd_weight c)%nat. lia.
  - intros [= _ <-]. change (rd_weight (Fail :: c)) with (S (rd_weight c)). lia.
Qed.

Lemma readn_loop_weight fuel c buf off left bytes n b c' :
  readn_loop fuel c buf off left bytes = Some (n, b, c') ->
  (rd_weight c' <= rd_weight c)%nat /\ length b = length buf /\ (left = bytes -> 0 < n -> (rd_weight c' < rd_weight c)%nat).
Proof.
  revert c buf off left. induction fuel as [| fuel IH]; intros c buf off left; cbn [readn_loop].
  - destruct (left <=? 0); [| discriminate]. intros [= <- <- <-]. split; [lia |]. split; [reflexivity |]. intros ->. rewrite Z.sub_diag. easy.
  - destruct (left <=? 0); [intros [= <- <- <-]; split; [lia |]; split; [reflexivity |]; intros ->; rewrite Z.sub_diag; easy |].
    destruct (sys_read c left) as [[[| g got] |] c1] eqn:E.
    + intros [= <- <- <-]. apply sys_read_weight_le in E. split; [lia |]. split; [reflexivity |]. intros ->. rewrite Z.sub_diag. easy.
    + assert (rd_weight c1 < rd_weight c)%nat as Hlt by (eapply sys_read_weight; [exact E | discriminate]).
      unfold store. destruct (decide _) as [Hd |]; [| discriminate]. cbn [mbind option_bind]. intros H%IH.
      rewrite length_blit in H by exact Hd. destruct H as (H1 & H2 & _). split; [lia |]. split; [exact H2 |]. lia.
    + intros [= <- <- <-]. apply sys_read_weight_le in E. split; [lia |]. split; [reflexivity |]. lia.
Qed.

(** The fuel is never what stops the loop. *)
Lemma readn_loop_fuel fuel c buf off left bytes :
  (rd_weight c < fuel)%nat -> readn_loop fuel c buf off left bytes = readn_loop (S (rd_weight c)) c buf off left bytes.
Proof.
  assert (forall w fuel fuel' c buf off left, (rd_weight c <= w)%nat -> (rd_weight c < fuel)%nat -> (rd_weight c < fuel')%nat ->
    readn_loop fuel c buf off left bytes = readn_loop fuel' c buf off left bytes) as H; [| intros; apply (H (rd_weight c)); lia].
  clear. induction w as [| w IH]; intros [| fuel] [| fuel'] c buf off left Hw H1 H2; try lia; cbn [readn_loop];
    (destruct (left <=? 0); [reflexivity |]); destruct (sys_read c left) as [[[| g got] |] c1] eqn:E; try reflexivity;
    (assert (rd_weight c1 < rd_weight c)%nat by (eapply sys_read_weight; [exact E | discriminate])); [lia |].
  destruct (store buf off (g :: got)); [| reflexivity]. cbn [mbind option_bind]. apply IH; lia.
Qed.

Lemma concat_map_length {A} (enc : A -> list Z) size (l : list A) : (forall a, length (enc a) = size) -> length (concat (map enc l)) = (length l * size)%nat.
Proof. intros H. induction l as [| a l IH]; [reflexivity |]. cbn [map concat length]. rewrite length_app, H, IH. lia. Qed.

Definition enc_eq (d : aactd_com_eq_sw_data) : list Z :=
  [global_enabled d; filter_num d] ++ concat (map enc_filter (take (Z.to_nat (filter_num d)) (filter_args d))).
Definition enc_drc (d : aactd_com_drc_hw_data) : list Z :=
  le_split 2 (reg_num d) ++ concat (map enc_reg (take (Z.to_nat (reg_num d)) (reg_args d))).

(** The array holds the elements that count. *)
Definition eq_ok (d : aactd_com_eq_sw_data) : Prop :=
  byte_ok (global_enabled d) /\ byte_ok (filter_num d) /\ filter_num d <= Z.of_nat (length (filter_args d)) /\ Forall filter_ok (filter_args d).
Definition drc_ok (d : aactd_com_drc_hw_data) : Prop :=
  0 <= reg_num d < 2 ^ 16 /\ reg_num d <= Z.of_nat (length (reg_args d)) /\ Forall reg_ok (reg_args d).

#[global] Instance eq_ok_dec d : Decision (eq_ok d).
Proof. unfold eq_ok, filter_ok. apply _. Defined.
#[global] Instance drc_ok_dec d : Decision (drc_ok d).
Proof. unfold drc_ok, reg_ok. apply _. Defined.

Lemma length_enc_eq d : eq_ok d -> length (enc_eq d) = (2 + Z.to_nat (filter_num d) * FILTER_SIZE)%nat.
Proof.
  intros (_ & Hb & Hn & _). unfold enc_eq, byte_ok in *. rewrite length_app, (concat_map_length _ FILTER_SIZE) by reflexivity.
  now rewrite length_take, Nat.min_l by lia.
Qed.

Lemma length_enc_drc d : drc_ok d -> length (enc_drc d) = (2 + Z.to_nat (reg_num d) * REG_SIZE)%nat.
Proof.
  intros (Hb & Hn & _). unfold enc_drc. rewrite length_app, (concat_map_length _ REG_SIZE), length_le_split by reflexivity.
  now rewrite length_take, Nat.min_l by lia.
Qed.

Lemma eq_to_buf_enc d p off :
  eq_ok d -> (off + 2 <= length p)%nat ->
  aactd_com_eq_sw_data_to_buf (Some d) (Some p) off = (fun p => (0, Some p)) <$> store p off (enc_eq d).
Proof.
  intros (_ & Hb & Hn & _) Hp. unfold byte_ok in Hb. unfold aactd_com_eq_sw_data_to_buf, enc_eq. rewrite <- store_store.
  change [global_enabled d; filter_num d] with ([global_enabled d] ++ [filter_num d]). rewrite <- store_store.
  destruct (store_some p off [global_enabled d] ltac:(cbn; lia)) as (-> & _ & L1). cbn [mbind option_bind].
  destruct (store_some (blit p off [global_enabled d]) (off + 1) [filter_num d] ltac:(rewrite L1; cbn; lia)) as (E & _ & L2).
  change (length [global_enabled d]) with 1%nat. rewrite E. cbn [mbind option_bind].
  rewrite (write_loop_enc FILTER_SIZE write_filter enc_filter length_enc_filter write_filter_enc) by (rewrite ?L2, ?L1; lia).
  rewrite drop_0. change (length ([global_enabled d] ++ [filter_num d])) with 2%nat. now destruct (store _ (off + 2) _).
Qed.

Lemma buf_to_eq_enc d d0 p off :
  eq_ok d -> (Z.to_nat (filter_num d) <= length (filter_args d0))%nat -> holds p off (enc_eq d) ->
  let n := Z.to_nat (filter_num d) in
  aactd_com_eq_sw_buf_to_data (Some p) off (Some d0) =
  Some (0, Some (EqData (global_enabled d) (filter_num d) (take n (filter_args d) ++ drop n (filter_args d0)))).
Proof.
  intros (_ & Hb & Hn & Hok) Hc H. cbv zeta. unfold byte_ok in Hb. unfold aactd_com_eq_sw_buf_to_data. unfold enc_eq in H. cbn [app] in H.
  pose proof (holds_lookup _ _ _ _ H) as ->. apply holds_tail in H. pose proof (holds_lookup _ _ _ _ H) as E. apply holds_tail in H.
  rewrite Nat.add_1_r, E. cbn [mbind option_bind].
  rewrite (read_loop_enc FILTER_SIZE read_filter enc_filter filter_ok length_enc_filter read_filter_enc _ _ _ _ _ (take (Z.to_nat (filter_num d)) (filter_args d))).
  - now rewrite take_0.
  - rewrite length_take. lia.
  - now apply Forall_take.
  - replace (off + 2)%nat with (S (S off)) by lia. exact H.
  - lia.
Qed.

Lemma drc_to_buf_enc d p off :
  drc_ok d -> (off + 2 <= length p)%nat ->
  aactd_com_drc_hw_data_to_buf (Some d) (Some p) off = (fun p => (0, Some p)) <$> store p off (enc_drc d).
Proof.
  intros (Hb & Hn & _) Hp. unfold aactd_com_drc_hw_data_to_buf, enc_drc, aactd_uint16_to_le_buf. rewrite <- store_store, length_le_split.
  destruct (store_some p off (le_split 2 (reg_num d)) ltac:(rewrite length_le_split; lia)) as (-> & _ & L1). cbn [mbind option_bind].
  rewrite (write_loop_enc REG_SIZE write_reg enc_reg length_enc_reg write_reg_enc) by (rewrite ?L1; lia).
  rewrite drop_0. now destruct (store _ (off + 2) _).
Qed.

Lemma buf_to_drc_enc d d0 p off :
  drc_ok d -> (Z.to_nat (reg_num d) <= length (reg_args d0))%nat -> holds p off (enc_drc d) ->
  let n := Z.to_nat (reg_num d) in
  aactd_com_drc_hw_buf_to_data (Some p) off (Some d0) =
  Some (0, Some (DrcData (reg_num d) (take n (reg_args d) ++ drop n (reg_args d0)))).
Proof.
  intros (Hb & Hn & Hok) Hc H. cbv zeta. unfold aactd_com_drc_hw_buf_to_data. unfold enc_drc in H. apply holds_app in H as [H1 H].
  rewrite (uint16_load _ _ _ Hb H1), length_le_split in *. cbn [mbind option_bind].
  rewrite (read_loop_enc REG_SIZE read_reg enc_reg reg_ok length_enc_reg read_reg_enc _ _ _ _ _ (take (Z.to_nat (reg_num d)) (reg_args d))).
  - now rewrite take_0.
  - rewrite length_take. lia.
  - now apply Forall_take.
  - exact H.
  - lia.
Qed.

(** ** Lemmas: the checksum *)

Definition sum (l : list Z) : Z := foldr Z.add 0 l.

Lemma sum_app a b : sum (a ++ b) = sum a + sum b.
Proof. unfold sum. induction a as [| x a IH]; cbn [app foldr]; [reflexivity | rewrite IH; lia]. Qed.

Lemma foldl_sum l s : foldl (fun sum b => u8 (sum + b)) (u8 s) l = u8 (s + sum l).
Proof.
  revert s. induction l as [| x l IH]; intros s; cbn [foldl]; [cbn; now rewrite Z.add_0_r |].
  assert (u8 (u8 s + x) = u8 (s + x)) as -> by (unfold u8; apply Zplus_mod_idemp_l). rewrite IH. unfold sum. cbn [foldr]. f_equal. lia.
Qed.

Lemma checksum_whole l n : (Z.to_nat n <= length l)%nat -> aactd_calculate_checksum l n = Some (u8 (sum (take (Z.to_nat n) l))).
Proof.
  intros H. unfold aactd_calculate_checksum, load. rewrite decide_True by lia. cbn [fmap option_fmap option_map]. f_equal.
  unfold bytes_at. rewrite drop_0. exact (foldl_sum _ 0).
Qed.

Lemma sum_perm a b : Permutation a b -> sum a = sum b.
Proof. unfold sum. induction 1; cbn; lia. Qed.

Lemma u8_add_cancel x y z : u8 (x + z) = u8 (y + z) -> byte_ok x -> byte_ok y -> x = y.
Proof. unfold u8, byte_ok. intros E Hx Hy. Z.to_euclidean_division_equations. lia. Qed.

(** ** Properties *)

(** Messages survive the wire.  Parameters written into a buffer with room for them
    and read back are the same: of a destination array the elements that are read
    become those of the source and the others stay; outside the place of the message
    the buffer keeps its bytes. *)
Theorem data_round_trip d d0 r r0 p off :
  eq_ok d -> (Z.to_nat (filter_num d) <= length (filter_args d0))%nat -> (off + 2 + Z.to_nat (filter_num d) * 14 <= length p)%nat ->
  drc_ok r -> (Z.to_nat (reg_num r) <= length (reg_args r0))%nat -> (off + 2 + Z.to_nat (reg_num r) * 8 <= length p)%nat ->
  (exists p', aactd_com_eq_sw_data_to_buf (Some d) (Some p) off = Some (0, Some p') /\
    (let n := Z.to_nat (filter_num d) in aactd_com_eq_sw_buf_to_data (Some p') off (Some d0) =
    Some (0, Some (EqData (global_enabled d) (filter_num d) (take n (filter_args d) ++ drop n (filter_args d0))))) /\
    take off p' = take off p /\ drop (off + 2 + Z.to_nat (filter_num d) * 14) p' = drop (off + 2 + Z.to_nat (filter_num d) * 14) p) /\
  (exists p', aactd_com_drc_hw_data_to_buf (Some r) (Some p) off = Some (0, Some p') /\
    (let n := Z.to_nat (reg_num r) in aactd_com_drc_hw_buf_to_data (Some p') off (Some r0) =
    Some (0, Some (DrcData (reg_num r) (take n (reg_args r) ++ drop n (reg_args r0))))) /\
    take off p' = take off p /\ drop (off + 2 + Z.to_nat (reg_num r) * 8) p' = drop (off + 2 + Z.to_nat (reg_num r) * 8) p).
Proof.
  intros Hd Hd0 Hp Hr Hr0 Hp2. pose proof (length_enc_eq d Hd) as Ld. pose proof (length_enc_drc r Hr) as Lr.
  unfold FILTER_SIZE, REG_SIZE in *. split.
  - destruct (store_some p off (enc_eq d) ltac:(lia)) as (E & H & L). exists (blit p off (enc_eq d)).
    rewrite eq_to_buf_enc, E by (assumption || lia). split; [reflexivity |]. split; [now apply buf_to_eq_enc |].
    unfold blit. rewrite take_app_length' by (rewrite length_take; lia). split; [reflexivity |].
    rewrite app_assoc, drop_app_length' by (rewrite length_app, length_take; lia). now rewrite Ld, Nat.add_assoc.
  - destruct (store_some p off (enc_drc r) ltac:(lia)) as (E & H & L). exists (blit p off (enc_drc r)).
    rewrite drc_to_buf_enc, E by (assumption || lia). split; [reflexivity |]. split; [now apply buf_to_drc_enc |].
    unfold blit. rewrite take_app_length' by (rewrite length_take; lia). split; [reflexivity |].
    rewrite app_assoc, drop_app_length' by (rewrite length_app, length_take; lia). now rewrite Lr, Nat.add_assoc.
Qed.

Definition demo_eq : aactd_com_eq_sw_data := EqData 1 2 [FilterArg 1 1000 (-12) 150 1; FilterArg 1 9000 (-12) 220 0].
Definition demo_drc : aactd_com_drc_hw_data := DrcData 2 [RegArg 0xF0 0xA0000000; RegArg 0x108 0xFB].

Lemma data_round_trip_witness :
  let p := replicate 64 7 in
  (exists p', aactd_com_eq_sw_data_to_buf (Some demo_eq) (Some p) 8 = Some (0, Some p') /\
    aactd_com_eq_sw_buf_to_data (Some p') 8 (Some (EqData 0 0 (replicate 3 (FilterArg 0 0 0 0 0)))) =
    Some (0, Some (EqData 1 2 (filter_args demo_eq ++ [FilterArg 0 0 0 0 0]))) /\ take 8 p' = replicate 8 7 /\ drop 38 p' = replicate 26 7) /\
  (exists p', aactd_com_drc_hw_data_to_buf (Some demo_drc) (Some p) 8 = Some (0, Some p') /\
    aactd_com_drc_hw_buf_to_data (Some p') 8 (Some (DrcData 0 (replicate 2 (RegArg 0 0)))) = Some (0, Some demo_drc) /\
    take 8 p' = replicate 8 7 /\ drop 26 p' = replicate 38 7).
Proof.
  apply (data_round_trip demo_eq (EqData 0 0 (replicate 3 (FilterArg 0 0 0 0 0))) demo_drc (DrcData 0 (replicate 2 (RegArg 0 0))) (replicate 64 7) 8); by_compute.
Defined.

(** The checksum notices every change of one byte, and no change of the order. *)
Theorem checksum_detects l l' i b :
  Forall byte_ok l -> byte_ok b -> (i < length l)%nat -> Permutation l l' ->
  (aactd_calculate_checksum (<[i := b]> l) (Z.of_nat (length l)) = aactd_calculate_checksum l (Z.of_nat (length l)) <-> l !! i = Some b) /\
  aactd_calculate_checksum l' (Z.of_nat (length l)) = aactd_calculate_checksum l (Z.of_nat (length l)).
Proof.
  intros Hl Hb Hi Hp. pose proof (Permutation_length Hp) as HL. rewrite !checksum_whole by (rewrite ?length_insert; lia). rewrite Nat2Z.id.
  rewrite (take_ge l), (take_ge l'), take_ge by (rewrite ?length_insert; lia). split.
  - destruct (lookup_lt_is_Some_2 l i Hi) as [x Ex]. rewrite insert_take_drop by assumption. rewrite Ex.
    assert (l = take i l ++ x :: drop (S i) l) as El by (now rewrite take_drop_middle).
    assert (byte_ok x) as Hx by (rewrite list.Forall_forall in Hl; apply Hl; now apply list_elem_of_lookup_2 in Ex).
    split.
    + intros [= E]. rewrite El in E at 3. rewrite !sum_app in E. unfold sum in E. cbn [foldr] in E. fold (sum (take i l)) (sum (drop (S i) l)) in E.
      rewrite (Z.add_comm b), (Z.add_comm x), !Z.add_assoc in E. f_equal. symmetry. apply (u8_add_cancel b x (sum (take i l) + sum (drop (S i) l))); [| assumption ..].
      replace (b + (sum (take i l) + sum (drop (S i) l))) with (sum (take i l) + sum (drop (S i) l) + b) by lia.
      replace (x + (sum (take i l) + sum (drop (S i) l))) with (sum (take i l) + sum (drop (S i) l) + x) by lia. exact E.
    + intros [= ->]. rewrite El at 3. reflexivity.
  - now rewrite (sum_perm l l' Hp).
Qed.

Lemma checksum_detects_witness :
  (aactd_calculate_checksum [1; 2; 3] 3 = aactd_calculate_checksum [1; 9; 3] 3 <-> Some 9 = Some 2) /\
  aactd_calculate_checksum [3; 1; 9] 3 = aactd_calculate_checksum [1; 9; 3] 3.
Proof.
  apply (checksum_detects [1; 9; 3] [3; 1; 9] 1 2); [by_compute | by_compute | cbn; lia |].
  apply Permutation_sym, (Permutation_cons_append [1; 9] 3).
Defined.
