(* ===== verification/Aactd.v ===== *)
(** * Aactd: the audio control daemon

    Models [allwinner/audio/aactd/files/daemon]: the reception of messages on a
    connection ([main.c]), their dispatch ([local.c]), the register writes of the
    hardware compressor ([drc_hw.c]) and the equalizer parameters with the threads
    that forward them to local clients ([eq_sw.c]).  A fault, that is an access
    outside a buffer, is [None].  Connections are those of [AactdCom].  The start-up
    (options, sockets, allocation) is not modelled: the buffers are as it leaves
    them. *)
From S2P Require Import Prelude AactdCom.

Section Daemon.

(** [DRC_HW_REG_BASE_ADDR], a constant of the build; [com_buf_len_max];
    [verbose_level]; and the file the registers are written through: [None] when it
    cannot be opened, or the result of each [write]. *)
Variables (DRC_HW_REG_BASE_ADDR com_buf_len_max verbose_level : Z).
Variable sysfs : option (list Z -> Z).

(** ** [drc_hw.c] *)

Definition hex_digit (d : Z) : Z := if d <? 10 then 48 + d else 87 + d.
Fixpoint hex_digits (n : nat) (x : Z) : list Z :=
  match n with O => [] | S n' => hex_digits n' (x / 16) ++ [hex_digit (x mod 16)] end.

(** ["0x%08x 0x%08x"] of the 22 bytes of the buffer, the terminator not counted. *)
Definition reg_string (a : aactd_com_drc_hw_reg_arg) : list Z :=
  let reg_addr := u32 (DRC_HW_REG_BASE_ADDR + offset a) in
  take 21 ([48; 120] ++ hex_digits 8 reg_addr ++ [32; 48; 120] ++ hex_digits 8 (value a)).

(** The loop of [drc_hw_data_set]: the status and the strings handed to [write]. *)
Fixpoint data_set_loop (w : list Z -> Z) (n i : nat) (args : list aactd_com_drc_hw_reg_arg) : option (Z * list (list Z)) :=
  match n with
  | O => Some (0, [])
  | S n' =>
      a ← args !! i;
      let buf := reg_string a in
      let ret := w buf in
      if ret <? 0 then Some (ret, [buf])
      else if ret <? Z.of_nat (length buf) then Some (-1, [buf])
      else r ← data_set_loop w n' (S i) args; Some (r.1, buf :: r.2)
  end.

Definition drc_hw_data_set (data : aactd_com_drc_hw_data) : option (Z * list (list Z)) :=
  match sysfs with
  | None => Some (-1, [])
  | Some w => data_set_loop w (Z.to_nat (reg_num data)) 0 (reg_args data)
  end.

(** The status, [local_data] and the writes. *)
Definition drc_hw_write_com_to_local (com : aactd_com) (local_data : aactd_com_drc_hw_data)
  : option (Z * aactd_com_drc_hw_data * list (list Z)) :=
  r ← aactd_com_drc_hw_buf_to_data (Some (com_data com)) 0 (Some local_data);
  d ← r.2;
  if r.1 <? 0 then Some (r.1, d, [])
  else q ← drc_hw_data_set d; Some (if q.1 <? 0 then q.1 else 0, d, q.2).

(** ** [eq_sw.c] *)

(** [local_com_buf] and [local_com], whose data are the buffer from byte 8 on. *)
Record eq_local := EqLocal { local_com_buf : list Z; local_header : aactd_com_header; local_checksum : Z }.

Definition actual_len (h : aactd_com_header) : Z := u32 (8 + data_len h + 1).

Definition eq_sw_write_com_to_local (com : aactd_com) (e : eq_local) : option eq_local :=
  c ← aactd_com_copy com (Com (local_header e) (drop 8 (local_com_buf e)) (local_checksum e));
  let buf := take 8 (local_com_buf e) ++ com_data c in
  r ← aactd_com_header_to_buf (Some (header c)) (Some buf);
  buf ← r.2;
  let com_buf_actual_len := actual_len (header c) in
  sum ← aactd_calculate_checksum buf (s32 (u32 (com_buf_actual_len - 1)));
  buf ← store buf (Z.to_nat (u32 (com_buf_actual_len - 1))) [sum];
  Some (EqLocal buf (header c) sum).

(** ** [local.c] and [main.c] *)

(** The broadcast of new equalizer parameters, and a write to the register file. *)
Inductive event := Updated (msg : list Z) | RegWrite (s : list Z).

Record st := St {
  remote_com_buf : list Z;
  remote_header : aactd_com_header;
  eq : eq_local;
  drc : aactd_com_drc_hw_data;
  log : list event;
}.

Definition set_buf (s : st) (b : list Z) : st := St b (remote_header s) (eq s) (drc s) (log s).
Definition set_header (s : st) (h : aactd_com_header) : st := St (remote_com_buf s) h (eq s) (drc s) (log s).

(** What a client is sent: the message in [local_com_buf]. *)
Definition local_msg (e : eq_local) : list Z := take (Z.to_nat (actual_len (local_header e))) (local_com_buf e).

Definition write_com_to_local (com : aactd_com) (s : st) : option (Z * st) :=
  if type (header com) =? EQ_SW then
    e ← eq_sw_write_com_to_local com (eq s);
    Some (0, St (remote_com_buf s) (remote_header s) e (drc s) (log s ++ [Updated (local_msg e)]))
  else if type (header com) =? DRC_HW then
    r ← drc_hw_write_com_to_local com (drc s);
    let '(ret, d, ws) := r in
    Some (if ret <? 0 then ret else 0, St (remote_com_buf s) (remote_header s) (eq s) d (log s ++ map RegWrite ws))
  else Some (0, s).

(** What a turn of the inner loop comes to before the dispatch: [break], [continue],
    or a message whose checksum is right. *)
Inductive got := Break | Continue | Message (com : aactd_com).

Definition receive (s : st) (c : list rd) : option (got * st * list rd) :=
  r ← aactd_readn c (remote_com_buf s) 0 8;
  let '(read_bytes, b, c) := r in
  let s := set_buf s b in
  if read_bytes <? 0 then Some (Break, s, c)
  else if read_bytes =? 0 then Some (Break, s, c)
  else if read_bytes <? 8 then Some (Continue, s, c)
  else
    q ← aactd_com_buf_to_header (Some b) (Some (remote_header s));
    h ← q.2;
    let s := set_header s h in
    if negb (flag h =? AACTD_COM_HEADER_FLAG) then Some (Continue, s, c)
    else if com_buf_len_max <? actual_len h then Some (Continue, s, c)
    else
      r ← aactd_readn c b 8 (u32 (data_len h + 1));
      let '(read_bytes, b, c) := r in
      let s := set_buf s b in
      if read_bytes <? 0 then Some (Break, s, c)
      else if read_bytes =? 0 then Some (Break, s, c)
      else if read_bytes <? u32 (data_len h + 1) then Some (Continue, s, c)
      else
        sum ← b !! Z.to_nat (8 + data_len h);
        cal ← aactd_calculate_checksum b (s32 (u32 (actual_len h - 1)));
        if negb (sum =? cal) then Some (Continue, s, c)
        else Some (Message (Com h (drop 8 b) sum), s, c).

Definition dispatch (com : aactd_com) (s : st) : option st :=
  if command (header com) =? CMD_READ then Some s
  else if command (header com) =? CMD_WRITE then snd <$> write_com_to_local com s
  else Some s.

(** A turn of the loop on a connection: whether it goes on. *)
Definition conn_step (s : st) (c : list rd) : option (bool * st * list rd) :=
  r ← receive s c;
  let '(g, s, c) := r in
  match g with
  | Break => Some (false, s, c)
  | Continue => Some (true, s, c)
  | Message com =>
      _ ← (if 1 <=? verbose_level then (fun _ => tt) <$> aactd_com_print_content com else Some tt);
      s ← dispatch com s;
      Some (true, s, c)
  end.

Inductive run := Finished (s : st) | Faulted | OutOfFuel.

Fixpoint conn_loop (fuel : nat) (s : st) (c : list rd) : run :=
  match fuel with
  | O => OutOfFuel
  | S fuel' =>
      match conn_step s c with
      | None => Faulted
      | Some (true, s, c) => conn_loop fuel' s c
      | Some (false, s, _) => Finished s
      end
  end.

(** A connection from [accept] to [close]. *)
Definition connection (s : st) (c : list rd) : run := conn_loop (S (rd_weight c)) s c.

(** ** The threads of [eq_sw.c]

    A client thread: before its first message, between two critical sections,
    waiting for the condition, woken, ended. *)

Inductive pc := Start | Between | Waiting | Woken | Closed.

Record client := Client { at_ : pc; sent : list (list Z) }.

Definition wake (p : pc) : pc := match p with Waiting => Woken | p => p end.

(** The critical section at the start of [client_connect_thread] and the one in its
    loop, the socket taking all that is written or failing. *)
Definition client_start (e : eq_local) (ok : bool) (k : client) : client :=
  if data_len (local_header e) =? 0 then Client Between (sent k)
  else if ok then Client Between (sent k ++ [local_msg e]) else Client Closed (sent k).

Definition client_update (e : eq_local) (ok : bool) (k : client) : client :=
  if ok then Client Between (sent k ++ [local_msg e]) else Client Closed (sent k).

(** Interleavings of the thread of [main] and a client: each critical section is one
    step.  [Spurious] is the end of a wait without a broadcast, which
    [pthread_cond_wait] allows. *)
Inductive action := Update (com : aactd_com) | Begin (ok : bool) | Wait | Spurious | Resume (ok : bool).

Definition act (a : action) (x : eq_local * client) : option (eq_local * client) :=
  let '(e, k) := x in
  match a, at_ k with
  | Update com, p => e' ← eq_sw_write_com_to_local com e; Some (e', Client (wake p) (sent k))
  | Begin ok, Start => Some (e, client_start e ok k)
  | Wait, Between => Some (e, Client Waiting (sent k))
  | Spurious, Waiting => Some (e, Client Woken (sent k))
  | Resume ok, Woken => Some (e, client_update e ok k)
  | _, _ => None
  end.

(** The state after a run, and the messages of its updates. *)
Fixpoint acts (l : list action) (x : eq_local * client) : option (eq_local * client * list (list Z)) :=
  match l with
  | [] => Some (x, [])
  | a :: l =>
      y ← act a x;
      r ← acts l y;
      Some (r.1, (match a with Update _ => [local_msg y.1] | _ => [] end) ++ r.2)
  end.
End Daemon.

Lemma blit_blit l off a b :
  (off + length a + length b <= length l)%nat -> blit (blit l off a) (off + length a) b = blit l off (a ++ b).
Proof.
  intros H. pose proof (store_store l off a b) as E.
  destruct (store_some l off a ltac:(lia)) as (E1 & _ & L1). rewrite E1 in E. cbn [mbind option_bind] in E.
  destruct (store_some (blit l off a) (off + length a) b ltac:(rewrite L1; lia)) as (E2 & _).
  destruct (store_some l off (a ++ b) ltac:(rewrite length_app; lia)) as (E3 & _). congruence.
Qed.

Lemma holds_0 l bs : holds l 0 bs <-> exists post, l = bs ++ post.
Proof.
  split; [intros (pre & post & -> & ->%length_zero_iff_nil); now exists post | intros (post & ->); now exists [], post].
Qed.

(** ** Messages and what they mean *)

Record msg := Msg { m_head : aactd_com_header; m_data : list Z }.

Definition body (m : msg) : list Z := enc_header (m_head m) ++ m_data m.
Definition enc_msg (m : msg) : list Z := body m ++ [u8 (sum (body m))].

Definition msg_ok (max : Z) (m : msg) : Prop :=
  header_ok (m_head m) /\ flag (m_head m) = AACTD_COM_HEADER_FLAG /\ Z.of_nat (length (m_data m)) = data_len (m_head m) /\
  8 + data_len (m_head m) + 1 <= max.

#[global] Instance msg_ok_dec max m : Decision (msg_ok max m).
Proof. unfold msg_ok, header_ok. apply _. Defined.

Section Proofs.
Context (base max verbose : Z) (sysfs : option (list Z -> Z)).

(** The buffers have the lengths they were allocated with. *)
Record st_ok (s : st) : Prop := {
  ok_buf : Z.of_nat (length (remote_com_buf s)) = max;
  ok_eq : Z.of_nat (length (local_com_buf (eq s))) = max;
  ok_drc : Z.of_nat (length (reg_args (drc s))) = max / 8;
}.

Context (Hmax : 9 <= max < 2 ^ 31).

Lemma length_body m : Z.of_nat (length (m_data m)) = data_len (m_head m) -> Z.of_nat (length (body m)) = 8 + data_len (m_head m).
Proof. intros H. unfold body. rewrite length_app, length_enc_header. lia. Qed.

Lemma actual_len_ok h : 0 <= data_len h -> 8 + data_len h + 1 <= max -> actual_len h = 8 + data_len h + 1.
Proof. intros. unfold actual_len. apply u32_id. lia. Qed.

Lemma receive_msg s c m rest :
  st_ok s -> clean c -> msg_ok max m -> delivered c = enc_msg m ++ rest ->
  exists b c', receive max s c = Some (Message (Com (m_head m) (drop 8 b) (u8 (sum (body m)))), set_header (set_buf s b) (m_head m), c') /\
  clean c' /\ delivered c' = rest /\ length b = length (remote_com_buf s) /\ holds b 0 (enc_msg m).
Proof.
  intros [Hb _ _] Hc (Hh & Hf & Hl & Hm) HD. pose proof Hh as (_ & _ & _ & _ & H32). pose proof (length_body m Hl) as Lb.
  set (h := m_head m) in *. set (d := m_data m) in *. set (cs := u8 (sum (body m))).
  assert (delivered c = enc_header h ++ d ++ [cs] ++ rest) as HD2 by (rewrite HD; unfold enc_msg, body; fold h d cs; now rewrite <- !app_assoc).
  destruct (readn_clean c (remote_com_buf s) 0 8 Hc ltac:(lia) ltac:(lia)) as (c1 & E1 & Hc1 & Hd1 & _).
  assert (Z.to_nat (Z.min 8 (Z.of_nat (length (delivered c)))) = length (enc_header h)) as Ek
    by (rewrite HD2, length_app, length_enc_header; lia).
  rewrite Ek, HD2, take_app_length in E1. rewrite Ek, HD2, drop_app_length in Hd1.
  unfold receive. rewrite E1, length_enc_header. cbn [mbind option_bind]. change (Z.of_nat 8) with 8. cbn [Z.ltb Z.eqb Z.compare].
  change (8 <? 0) with false. change (8 =? 0) with false. change (8 <? 8) with false. cbv iota.
  set (b1 := blit (remote_com_buf s) 0 (enc_header h)).
  destruct (store_some (remote_com_buf s) 0 (enc_header h) ltac:(rewrite length_enc_header; lia)) as (_ & Hh1 & Lb1). fold b1 in Hh1, Lb1.
  rewrite (buf_to_header_enc h _ b1 Hh Hh1). cbn [mbind option_bind fst snd]. rewrite Hf, Z.eqb_refl. cbn [negb].
  rewrite (actual_len_ok h) by lia. destruct (Z.ltb_spec max (8 + data_len h + 1)); [lia |]. rewrite u32_id by lia.
  destruct (readn_clean c1 b1 8 (data_len h + 1) Hc1 ltac:(lia) ltac:(rewrite Lb1; lia)) as (c2 & E2 & Hc2 & Hd2 & _).
  assert (Z.to_nat (Z.min (data_len h + 1) (Z.of_nat (length (delivered c1)))) = length (d ++ [cs])) as Ek2
    by (rewrite Hd1, !length_app; cbn [length]; lia).
  rewrite Ek2, Hd1, app_assoc, take_app_length in E2. rewrite Ek2, Hd1, app_assoc, drop_app_length in Hd2. rewrite E2. cbn [mbind option_bind].
  assert (Z.of_nat (length (d ++ [cs])) = data_len h + 1) as Ld by (rewrite length_app; cbn [length]; lia). rewrite Ld.
  destruct (Z.ltb_spec (data_len h + 1) 0); [lia |]. destruct (Z.eqb_spec (data_len h + 1) 0); [lia |].
  destruct (Z.ltb_spec (data_len h + 1) (data_len h + 1)); [lia |].
  assert (blit b1 8 (d ++ [cs]) = blit (remote_com_buf s) 0 (enc_msg m)) as ->.
  { unfold b1. change 8%nat with (0 + length (enc_header h))%nat. rewrite blit_blit by (rewrite length_enc_header; lia).
    unfold enc_msg, body. fold h d cs. now rewrite <- app_assoc. }
  assert (length (enc_msg m) <= length (remote_com_buf s))%nat as Lm by (unfold enc_msg; rewrite length_app; cbn [length]; lia).
  destruct (store_some (remote_com_buf s) 0 (enc_msg m) Lm) as (_ & Hh2 & Lb2). set (b := blit (remote_com_buf s) 0 (enc_msg m)) in *.
  pose proof Hh2 as (post & Eb)%holds_0. unfold enc_msg in Eb. fold cs in Eb.
  assert (b !! Z.to_nat (8 + data_len h) = Some cs) as -> by (rewrite Eb, <- app_assoc; apply list_lookup_middle; lia).
  cbn [mbind option_bind]. replace (8 + data_len h + 1 - 1) with (8 + data_len h) by lia. rewrite u32_id, s32_id by lia.
  rewrite checksum_whole by lia.
  assert (take (Z.to_nat (8 + data_len h)) b = body m) as -> by (rewrite Eb, <- app_assoc; apply take_app_length'; lia).
  cbn [mbind option_bind]. fold cs. rewrite Z.eqb_refl.
  cbn [negb]. exists b, c2. split; [reflexivity |]. auto.
Qed.

(** ** Dispatch *)

Lemma eq_write_msg e h data cs m :
  Z.of_nat (length (local_com_buf e)) = max -> msg_ok max m -> m_head m = h -> holds data 0 (m_data m) ->
  exists e', eq_sw_write_com_to_local (Com h data cs) e = Some e' /\ local_msg e' = enc_msg m /\ local_header e' = h /\
  Z.of_nat (length (local_com_buf e')) = max.
Proof.
  intros He (Hh & Hf & Hl & Hm) <- Hd. pose proof Hh as (_ & _ & _ & _ & H32). pose proof (length_body m Hl) as Lb.
  set (h := m_head m) in *. set (d := m_data m) in *. set (B := local_com_buf e) in *.
  assert (length (enc_header h) = 8)%nat as L8 by reflexivity.
  unfold eq_sw_write_com_to_local, aactd_com_copy. cbn [header com_data checksum]. fold B.
  assert (Z.to_nat (data_len h) = length d) as -> by lia. rewrite (holds_load _ _ _ Hd). cbn [mbind option_bind].
  destruct (store_some (drop 8 B) 0 d ltac:(rewrite length_drop; lia)) as (-> & Hd1 & Ld1). cbn [mbind option_bind header com_data].
  assert (take 8 B ++ blit (drop 8 B) 0 d = blit B 8 d) as ->.
  { unfold blit. cbn [take app Nat.add]. now rewrite drop_drop. }
  destruct (store_some B 8 d ltac:(lia)) as (_ & Hd2 & Ld2).
  rewrite header_to_buf_enc. destruct (store_some (blit B 8 d) 0 (enc_header h) ltac:(lia)) as (-> & Hh3 & Lh3). cbn [fmap option_fmap option_map mbind option_bind fst snd].
  rewrite (actual_len_ok h) by lia. replace (8 + data_len h + 1 - 1) with (8 + data_len h) by lia. rewrite u32_id, s32_id by lia.
  assert (blit (blit B 8 d) 0 (enc_header h) = body m ++ drop (length (body m)) B) as E3.
  { unfold blit at 1. cbn [take app Nat.add]. rewrite L8. unfold blit. rewrite drop_app_length' by (rewrite length_take; lia).
    unfold body. fold h d. now rewrite length_app, <- app_assoc. }
  rewrite E3. rewrite checksum_whole by (rewrite length_app; lia). rewrite take_app_length' by lia. cbn [mbind option_bind].
  assert (length (drop (length (body m)) B) = (length B - length (body m))%nat) as Lr by apply length_drop.
  destruct (store_some (body m ++ drop (length (body m)) B) (Z.to_nat (8 + data_len h)) [u8 (sum (body m))]
    ltac:(rewrite length_app; cbn [length]; lia)) as (-> & Hs & Ls). cbn [mbind option_bind].
  eexists. split; [reflexivity |]. cbn [local_header local_com_buf]. unfold local_msg. cbn [local_header local_com_buf].
  rewrite actual_len_ok by lia. split; [| split; [reflexivity | rewrite Ls, length_app; lia]].
  unfold blit. assert (forall X, take (Z.to_nat (8 + data_len h)) (body m ++ X) = body m) as -> by (intros X; apply take_app_length'; lia).
  unfold enc_msg. rewrite app_assoc. apply take_app_length'. rewrite length_app. cbn [length]. lia.
Qed.

(** The register file takes every string. *)
Definition accepting : Prop := exists w, sysfs = Some w /\ forall l, w l = Z.of_nat (length l).

Lemma data_set_all w n i args :
  (forall l, w l = Z.of_nat (length l)) -> (i + n <= length args)%nat ->
  data_set_loop base w n i args = Some (0, map (reg_string base) (take n (drop i args))).
Proof.
  intros Hw. revert i. induction n as [| n IH]; intros i Hn; cbn [data_set_loop]; [now rewrite take_0 |].
  destruct (lookup_lt_is_Some_2 args i ltac:(lia)) as [a Ea]. rewrite Ea. cbn [mbind option_bind]. rewrite Hw.
  destruct (Z.ltb_spec (Z.of_nat (length (reg_string base a))) 0); [lia |].
  destruct (Z.ltb_spec (Z.of_nat (length (reg_string base a))) (Z.of_nat (length (reg_string base a)))); [lia |].
  rewrite IH by lia. rewrite (drop_S args a i Ea). reflexivity.
Qed.

Lemma drc_write_msg local h data cs r :
  accepting -> drc_ok r -> (Z.to_nat (reg_num r) <= length (reg_args local))%nat -> holds data 0 (enc_drc r) ->
  exists local', drc_hw_write_com_to_local base sysfs (Com h data cs) local =
    Some (0, local', map (reg_string base) (take (Z.to_nat (reg_num r)) (reg_args r))) /\ length (reg_args local') = length (reg_args local).
Proof.
  intros (w & Hw & Hall) Hr Hc Hd. unfold drc_hw_write_com_to_local. cbn [com_data]. rewrite (buf_to_drc_enc r local data 0 Hr Hc Hd).
  cbn [mbind option_bind fst snd]. change (0 <? 0) with false. cbv iota. unfold drc_hw_data_set. rewrite Hw. cbn [reg_num reg_args].
  destruct Hr as (Hn & Hl & _).
  assert (length (take (Z.to_nat (reg_num r)) (reg_args r)) = Z.to_nat (reg_num r)) as Lt by (rewrite length_take; lia).
  rewrite (data_set_all w _ _ _ Hall) by (rewrite length_app, Lt; lia). cbn [mbind option_bind fst snd].
  rewrite drop_0, take_app_length' by lia. change (0 <? 0) with false. cbv iota. eexists. split; [reflexivity |].
  cbn [reg_args]. rewrite length_app, Lt, length_drop. lia.
Qed.

(** What the daemon does on a message. *)
Inductive means : msg -> list event -> Prop :=
  | means_eq m : command (m_head m) = CMD_WRITE -> type (m_head m) = EQ_SW -> means m [Updated (enc_msg m)]
  | means_drc m r : command (m_head m) = CMD_WRITE -> type (m_head m) = DRC_HW -> m_data m = enc_drc r -> drc_ok r ->
      reg_num r = Z.of_nat (length (reg_args r)) -> means m (map (fun a => RegWrite (reg_string base a)) (reg_args r))
  | means_none m : command (m_head m) <> CMD_WRITE \/ (type (m_head m) <> EQ_SW /\ type (m_head m) <> DRC_HW) -> means m [].

Lemma step_msg s c m evs rest :
  accepting -> verbose < 1 -> st_ok s -> clean c -> msg_ok max m -> means m evs -> delivered c = enc_msg m ++ rest ->
  exists s' c', conn_step base max verbose sysfs s c = Some (true, s', c') /\ st_ok s' /\ log s' = log s ++ evs /\ clean c' /\ delivered c' = rest.
Proof.
  intros Ha Hv Hs Hc Hm Hmean HD. destruct (receive_msg s c m rest Hs Hc Hm HD) as (b & c' & E & Hc' & Hd' & Lb & Hb).
  unfold conn_step. rewrite E. cbn [mbind option_bind]. rewrite (proj2 (Z.leb_gt 1 verbose)) by lia. cbn [mbind option_bind].
  set (s1 := set_header (set_buf s b) (m_head m)). assert (st_ok s1) as Hs1 by (destruct Hs; constructor; cbn; [lia | assumption ..]).
  assert (holds (drop 8 b) 0 (m_data m)) as Hd.
  { unfold enc_msg, body in Hb. rewrite <- app_assoc in Hb. apply holds_app in Hb as [_ Hb]. apply holds_app in Hb as [Hb _].
    exact (holds_drop _ _ _ Hb 8 ltac:(reflexivity)). }
  assert (forall s2, dispatch base sysfs (Com (m_head m) (drop 8 b) (u8 (sum (body m)))) s1 = Some s2 -> st_ok s2 -> log s2 = log s ++ evs ->
    exists s' c'', (s3 ← dispatch base sysfs (Com (m_head m) (drop 8 b) (u8 (sum (body m)))) s1; Some (true, s3, c')) = Some (true, s', c'') /\
    st_ok s' /\ log s' = log s ++ evs /\ clean c'' /\ delivered c'' = rest) as Hk by (intros s2 -> ? ?; exists s2, c'; auto).
  destruct Hmean as [m Hcm Ht | m r Hcm Ht Hdata Hr Hn | m Hno].
  - destruct (eq_write_msg (eq s1) (m_head m) (drop 8 b) (u8 (sum (body m))) m (ok_eq _ Hs1) Hm eq_refl Hd) as (e' & Ee & Hmsg & _ & Le).
    eapply Hk.
    + unfold dispatch, write_com_to_local. cbn [header]. rewrite Hcm, Ht.
      change (CMD_WRITE =? CMD_READ) with false. change (CMD_WRITE =? CMD_WRITE) with true. change (EQ_SW =? EQ_SW) with true.
      cbv iota. rewrite Ee. reflexivity.
    + destruct Hs1. constructor; assumption.
    + cbn [log s1 set_header set_buf]. now rewrite Hmsg.
  - pose proof (ok_drc _ Hs1) as Hcap. destruct Hm as (_ & _ & Hl & Hfit). rewrite Hdata in Hd.
    pose proof Hr as (Hrn & _ & _). rewrite Hdata, (length_enc_drc r Hr) in Hl.
    assert (Z.to_nat (reg_num r) <= length (reg_args (drc s1)))%nat as Hc8.
    { enough (reg_num r <= max / 8) by lia. apply Z.div_le_lower_bound; [lia |]. unfold REG_SIZE in Hl. lia. }
    destruct (drc_write_msg (drc s1) (m_head m) (drop 8 b) (u8 (sum (body m))) r Ha Hr Hc8 Hd) as (local' & El & Ll).
    rewrite take_ge in El by lia. eapply Hk.
    + unfold dispatch, write_com_to_local. cbn [header]. rewrite Hcm, Ht.
      change (CMD_WRITE =? CMD_READ) with false. change (CMD_WRITE =? CMD_WRITE) with true. change (DRC_HW =? EQ_SW) with false.
      change (DRC_HW =? DRC_HW) with true. cbv iota. rewrite El. reflexivity.
    + constructor; [apply Hs1 | apply Hs1 |]. change (Z.of_nat (length (reg_args local')) = max / 8). rewrite Ll. apply Hs1.
    + cbn [log s1 set_header set_buf]. now rewrite map_map.
  - apply (Hk s1).
    + unfold dispatch, write_com_to_local. cbn [header]. destruct (command (m_head m) =? CMD_READ); [reflexivity |].
      destruct (Z.eqb_spec (command (m_head m)) CMD_WRITE) as [Ec |]; [| reflexivity]. destruct Hno as [| [H1 H2]]; [contradiction |].
      now rewrite (proj2 (Z.eqb_neq _ _) H1), (proj2 (Z.eqb_neq _ _) H2).
    + assumption.
    + now rewrite app_nil_r.
Qed.

Lemma delivered_weight c : clean c -> (length (delivered c) <= rd_weight c)%nat.
Proof.
  induction 1 as [| r c (b & l & ->) _ IH]; [reflexivity |].
  change (delivered (Data (b :: l) :: c)) with ((b :: l) ++ delivered c). change (rd_weight (Data (b :: l) :: c)) with (S (length (b :: l)) + rd_weight c)%nat.
  rewrite length_app. lia.
Qed.

Lemma step_end s c :
  st_ok s -> clean c -> delivered c = [] ->
  exists s', conn_step base max verbose sysfs s c = Some (false, s', []) /\ st_ok s' /\ log s' = log s.
Proof.
  intros Hs Hc HD. destruct Hc as [| r c (b & l & ->) _]; [| discriminate]. exists (set_buf s (remote_com_buf s)).
  split; [reflexivity |]. split; [| reflexivity]. now destruct Hs.
Qed.

Lemma loop_msgs fuel s c ms evs :
  accepting -> verbose < 1 -> st_ok s -> clean c -> Forall (msg_ok max) ms -> Forall2 means ms evs -> delivered c = concat (map enc_msg ms) ->
  (length ms < fuel)%nat ->
  exists s', conn_loop base max verbose sysfs fuel s c = Finished s' /\ st_ok s' /\ log s' = log s ++ concat evs.
Proof.
  intros Ha Hv Hs Hc Hms Hev. revert fuel s c Hs Hc. induction Hev as [| m ev ms evs Hm _ IH]; intros [| fuel] s c Hs Hc HD Hf;
    cbn [length] in Hf; try lia; cbn [conn_loop].
  - destruct (step_end s c Hs Hc HD) as (s' & -> & Hs' & Hl). exists s'. rewrite Hl. cbn [concat]. rewrite app_nil_r. auto.
  - apply Forall_cons_1 in Hms as [Hm1 Hms].
    destruct (step_msg s c m ev _ Ha Hv Hs Hc Hm1 Hm HD) as (s1 & c1 & -> & Hs1 & Hl1 & Hc1 & Hd1).
    destruct (IH Hms fuel s1 c1 Hs1 Hc1 Hd1 ltac:(lia)) as (s' & E & Hs' & Hl'). exists s'. rewrite E, Hl', Hl1, <- app_assoc. auto.
Qed.

(** ** Faults *)

Lemma split_header D : bytes_ok D -> (8 <= length D)%nat -> exists h rest, D = enc_header h ++ rest /\ header_ok h.
Proof.
  intros HD HL. destruct D as [| a [| b [| c [| d [| e [| f [| g [| h rest]]]]]]]]; cbn [length] in HL; try lia.
  apply Forall_cons_1 in HD as [Ha HD]. apply Forall_cons_1 in HD as [Hb HD]. apply Forall_cons_1 in HD as [Hc HD].
  apply Forall_cons_1 in HD as [Hd HD].
  assert (bytes_ok [e; f; g; h]) as H4 by (exact (bytes_ok_take 4 _ HD)).
  exists (Header a b c d (le_combine [e; f; g; h])), rest. split.
  - unfold enc_header. cbn [flag version command type data_len]. assert (le_split 4 (le_combine [e; f; g; h]) = [e; f; g; h]) as -> by exact (le_split_combine _ H4). reflexivity.
  - split; [exact Ha |]. split; [exact Hb |]. split; [exact Hc |]. split; [exact Hd |]. cbn [data_len].
    exact (le_combine_range _ H4).
Qed.

Lemma receive_header s c h rest :
  st_ok s -> clean c -> header_ok h -> delivered c = enc_header h ++ rest ->
  receive max s c = None <->
  flag h = AACTD_COM_HEADER_FLAG /\ 2 ^ 32 - 9 <= data_len h <= 2 ^ 32 - 2 /\ max - 8 < Z.of_nat (length rest).
Proof.
  intros [Hb _ _] Hc Hh HD. pose proof Hh as (_ & _ & _ & _ & H32).
  destruct (readn_clean c (remote_com_buf s) 0 8 Hc ltac:(lia) ltac:(lia)) as (c1 & E1 & Hc1 & Hd1 & _).
  assert (Z.to_nat (Z.min 8 (Z.of_nat (length (delivered c)))) = length (enc_header h)) as Ek
    by (rewrite HD, length_app, length_enc_header; lia).
  rewrite Ek, HD, take_app_length in E1. rewrite Ek, HD, drop_app_length in Hd1.
  unfold receive. rewrite E1, length_enc_header. cbn [mbind option_bind]. change (Z.of_nat 8) with 8.
  change (8 <? 0) with false. change (8 =? 0) with false. change (8 <? 8) with false. cbv iota.
  set (b1 := blit (remote_com_buf s) 0 (enc_header h)).
  destruct (store_some (remote_com_buf s) 0 (enc_header h) ltac:(rewrite length_enc_header; lia)) as (_ & Hh1 & Lb1). fold b1 in Hh1, Lb1.
  rewrite (buf_to_header_enc h _ b1 Hh Hh1). cbn [mbind option_bind fst snd].
  destruct (Z.eqb_spec (flag h) AACTD_COM_HEADER_FLAG) as [Hf | Hf]; cbn [negb]; [| split; [discriminate | tauto]].
  destruct (Z.ltb_spec max (actual_len h)) as [Hgt | Hle].
  { split; [discriminate |]. intros (_ & Hw & _). exfalso. revert Hgt. unfold actual_len, u32. Z.to_euclidean_division_equations. lia. }
  pose proof (readn_exact c1 b1 8 (u32 (data_len h + 1)) Hc1 ltac:(apply u32_range) ltac:(lia)) as H2. cbv zeta in H2. rewrite Hd1 in H2.
  set (k := Z.to_nat (Z.min (u32 (data_len h + 1)) (Z.of_nat (length rest)))) in *.
  assert (0 <= data_len h <= max - 9 \/ 2 ^ 32 - 9 <= data_len h <= 2 ^ 32 - 1) as Hcase
    by (revert Hle; unfold actual_len, u32; Z.to_euclidean_division_equations; lia).
  assert (u32 (data_len h + 1) = data_len h + 1 /\ data_len h <= 2 ^ 32 - 2 \/ data_len h = 2 ^ 32 - 1 /\ u32 (data_len h + 1) = 0) as Hu
    by (unfold u32; Z.to_euclidean_division_equations; lia).
  destruct (decide (8 + k <= length b1)%nat) as [Hfit | Hfit].
  - destruct H2 as (c2 & E2 & Hc2 & Hd2 & _). rewrite E2. cbn [mbind option_bind]. rewrite s32_id by lia. split.
    2: { intros (_ & H3 & H4). exfalso. unfold k in Hfit. lia. }
    destruct (Z.ltb_spec (Z.of_nat k) 0); [discriminate |]. destruct (Z.eqb_spec (Z.of_nat k) 0); [discriminate |].
    destruct (Z.ltb_spec (Z.of_nat k) (u32 (data_len h + 1))); [discriminate |].
    assert (0 <= data_len h <= max - 9) as Hin by (unfold k in *; lia).
    assert (length (blit b1 8 (take k rest)) = length b1) as Lb2 by (apply length_blit; rewrite length_take; unfold k in *; lia).
    destruct (lookup_lt_is_Some_2 (blit b1 8 (take k rest)) (Z.to_nat (8 + data_len h)) ltac:(lia)) as [x ->]. cbn [mbind option_bind].
    rewrite actual_len_ok by lia. rewrite u32_id, s32_id by lia. rewrite checksum_whole by lia. cbn [mbind option_bind].
    destruct (negb _); discriminate.
  - rewrite H2. cbn [mbind option_bind]. split; [intros _ | reflexivity]. split; [exact Hf |]. unfold k in Hfit. lia.
Qed.

(** A turn that goes on has consumed something. *)
Lemma receive_weight s c g s' c' : receive max s c = Some (g, s', c') -> g <> Break -> (rd_weight c' < rd_weight c)%nat.
Proof.
  unfold receive. destruct (aactd_readn c (remote_com_buf s) 0 8) as [[[n b] c1] |] eqn:E1; [| discriminate]. cbn [mbind option_bind].
  apply readn_loop_weight in E1 as (W1 & _ & W2). specialize (W2 eq_refl).
  destruct (Z.ltb_spec n 0); [intros [= <- _ _]; congruence |]. destruct (Z.eqb_spec n 0); [intros [= <- _ _]; congruence |].
  destruct (n <? 8); [intros [= _ _ <-] _; apply W2; lia |]. specialize (W2 ltac:(lia)).
  destruct (aactd_com_buf_to_header (Some b) (Some _)) as [[q1 [h |]] |]; try discriminate. cbn [mbind option_bind snd].
  destruct (negb _); [intros [= _ _ <-] _; exact W2 |]. destruct (max <? actual_len h); [intros [= _ _ <-] _; exact W2 |].
  destruct (aactd_readn c1 b 8 _) as [[[n2 b2] c2] |] eqn:E2; [| discriminate]. cbn [mbind option_bind]. apply readn_loop_weight in E2 as (W3 & _).
  destruct (n2 <? 0); [intros [= <- _ _]; congruence |]. destruct (n2 =? 0); [intros [= <- _ _]; congruence |].
  destruct (n2 <? _); [intros [= _ _ <-] _; lia |]. destruct (b2 !! _); [| discriminate]. cbn [mbind option_bind].
  destruct (aactd_calculate_checksum b2 _); [| discriminate]. cbn [mbind option_bind]. destruct (negb _); intros [= _ _ <-] _; lia.
Qed.

Lemma conn_step_weight s c s' c' : conn_step base max verbose sysfs s c = Some (true, s', c') -> (rd_weight c' < rd_weight c)%nat.
Proof.
  unfold conn_step. destruct (receive max s c) as [[[g s1] c1] |] eqn:E; [| discriminate]. cbn [mbind option_bind].
  destruct g as [| | com]; [discriminate | |].
  - intros [= _ <-]. eapply receive_weight; [exact E | discriminate].
  - destruct (if 1 <=? verbose then _ else _) as [[] |]; [| discriminate]. cbn [mbind option_bind].
    destruct (dispatch base sysfs com s1); [| discriminate]. cbn [mbind option_bind]. intros [= _ <-]. eapply receive_weight; [exact E | discriminate].
Qed.

Lemma data_set_defined w n i args : (i + n <= length args)%nat -> is_Some (data_set_loop base w n i args).
Proof.
  revert i. induction n as [| n IH]; intros i H; cbn [data_set_loop]; [now eexists |].
  destruct (lookup_lt_is_Some_2 args i ltac:(lia)) as [a ->]. cbn [mbind option_bind].
  destruct (w (reg_string base a) <? 0); [now eexists |]. destruct (w (reg_string base a) <? _); [now eexists |].
  destruct (IH (S i) ltac:(lia)) as [r ->]. now eexists.
Qed.

Lemma drc_write_defined h b cs local :
  Z.of_nat (length b) = max -> Z.of_nat (length (reg_args local)) = max / 8 -> bytes_ok b ->
  drc_hw_write_com_to_local base sysfs (Com h (drop 8 b) cs) local = None <-> max < 10 + 8 * le_combine (bytes_at b 8 2).
Proof.
  intros Hb Hl Hok. unfold drc_hw_write_com_to_local, aactd_com_drc_hw_buf_to_data, aactd_le_buf_to_uint16, load. cbn [com_data].
  assert (bytes_at (drop 8 b) 0 2 = bytes_at b 8 2) as Ebytes by (unfold bytes_at; now rewrite drop_drop).
  assert (0 <= le_combine (bytes_at b 8 2)) as H0 by (apply le_combine_range; auto with s2l).
  destruct (decide (0 + 2 <= length (drop 8 b))%nat) as [H2 | H2]; cbn [fmap option_fmap option_map mbind option_bind].
  2: { rewrite length_drop in H2. split; [lia | reflexivity]. }
  rewrite length_drop in H2. rewrite Ebytes. set (rn := le_combine (bytes_at b 8 2)) in *.
  pose proof (read_loop_defined REG_SIZE read_reg read_reg_defined (Z.to_nat rn) 0 (drop 8 b) (0 + 2) (reg_args local)) as Hdef.
  rewrite length_drop in Hdef. unfold REG_SIZE in *.
  destruct (read_loop 8 read_reg (Z.to_nat rn) 0 (drop 8 b) (0 + 2) (reg_args local)) as [args |] eqn:E; cbn [mbind option_bind fst snd].
  - change (0 <? 0) with false. cbv iota. apply read_loop_length in E.
    assert (10 + 8 * rn <= max) as Hin by (destruct (proj1 Hdef (ex_intro _ args eq_refl)); lia). split; [| lia]. intros Hn. exfalso. revert Hn.
    unfold drc_hw_data_set. destruct sysfs as [w |]; [| discriminate]. cbn [reg_num reg_args].
    destruct (data_set_defined w (Z.to_nat rn) 0 args) as [r ->]; [| discriminate]. rewrite E.
    enough (rn <= max / 8) by lia. apply Z.div_le_lower_bound; lia.
  - split; [| reflexivity]. intros _. destruct (Z.ltb_spec max (10 + 8 * rn)); [assumption |]. exfalso.
    destruct (proj2 Hdef) as [? ?]; [| discriminate]. right.
    assert (rn <= max / 8) by (apply Z.div_le_lower_bound; lia). lia.
Qed.
End Proofs.

(** ** Properties *)

(** C7: Reception and dispatch refine the list of messages.  A connection that delivers,
    in pieces of any size, the encodings of messages that fit the buffer is read to
    its end; the daemon broadcasts exactly the bytes of each equalizer message,
    writes the registers of each compressor message in order, and ignores the
    others. *)
Theorem connection_refines base max verbose sysfs s c ms evs :
  9 <= max < 2 ^ 31 -> accepting sysfs -> verbose < 1 -> st_ok max s ->
  clean c -> Forall (msg_ok max) ms -> Forall2 (means base) ms evs -> delivered c = concat (map enc_msg ms) ->
  exists s', connection base max verbose sysfs s c = Finished s' /\ st_ok max s' /\ log s' = log s ++ concat evs.
Proof.
  intros Hmax Ha Hv Hs Hc Hms Hev HD. apply (loop_msgs base max verbose sysfs Hmax (S (rd_weight c)) s c ms evs); try assumption.
  pose proof (delivered_weight c Hc) as Hw. rewrite HD in Hw. enough (length ms <= length (concat (map enc_msg ms)))%nat by lia.
  clear. induction ms as [| m ms IH]; [cbn; lia |]. cbn [map concat length]. unfold enc_msg at 1. rewrite !length_app. cbn [length]. lia.
Qed.

Definition demo_st (max : nat) : st :=
  St (replicate max 0) (Header 0 0 0 0 0) (EqLocal (replicate max 0) (Header 0 0 0 0 0) 0)
    (DrcData 0 (replicate (max / 8) (RegArg 0 0))) [].

Definition demo_msgs : list msg :=
  [Msg (Header 0xAA 1 CMD_WRITE DRC_HW 18) (enc_drc demo_drc); Msg (Header 0xAA 1 CMD_READ EQ_SW 0) [];
   Msg (Header 0xAA 1 CMD_WRITE EQ_SW 30) (enc_eq demo_eq)].

Definition full_write (l : list Z) : Z := Z.of_nat (length l).

Lemma connection_refines_witness :
  let c := map (fun b => Data [b]) (concat (map enc_msg demo_msgs)) in
  exists s', connection 0x05096000 64 (-1) (Some full_write) (demo_st 64) c = Finished s' /\ st_ok 64 s' /\
  log s' = map (fun a => RegWrite (reg_string 0x05096000 a)) (reg_args demo_drc) ++ [Updated (enc_msg (Msg (Header 0xAA 1 CMD_WRITE EQ_SW 30) (enc_eq demo_eq)))].
Proof.
  apply (connection_refines 0x05096000 64 (-1) (Some full_write) (demo_st 64) _ demo_msgs
    [map (fun a => RegWrite (reg_string 0x05096000 a)) (reg_args demo_drc); []; [Updated (enc_msg (Msg (Header 0xAA 1 CMD_WRITE EQ_SW 30) (enc_eq demo_eq)))]]).
  - lia.
  - exists full_write. now split.
  - lia.
  - now constructor.
  - apply Forall_map, Forall_true. intros b. now exists b, [].
  - by_compute.
  - constructor; [apply (means_drc _ _ demo_drc); [reflexivity .. | by_compute | reflexivity] |].
    constructor; [apply means_none; now left | constructor; [now apply means_eq | constructor]].
  - vm_compute. reflexivity.
Defined.

(** C30: The length check that wraps.  Receiving runs out of [remote_com_buf] exactly when
    a header with the right flag declares from 2^32 - 9 to 2^32 - 2 bytes of data,
    for which the 32-bit sum that is compared with the size of the buffer is at most
    7, and more bytes follow than the buffer holds. *)
Theorem receive_faults_exactly max s c :
  9 <= max < 2 ^ 31 -> st_ok max s -> clean c -> bytes_ok (delivered c) ->
  receive max s c = None <->
  exists h rest, delivered c = enc_header h ++ rest /\ header_ok h /\ flag h = AACTD_COM_HEADER_FLAG /\
  2 ^ 32 - 9 <= data_len h <= 2 ^ 32 - 2 /\ max - 8 < Z.of_nat (length rest).
Proof.
  intros Hmax Hs Hc HD. split.
  - intros E. destruct (decide (8 <= length (delivered c))%nat) as [H8 | H8].
    + destruct (split_header _ HD H8) as (h & rest & Eh & Hh). exists h, rest. split; [exact Eh |]. split; [exact Hh |].
      now apply (receive_header max Hmax s c h rest Hs Hc Hh Eh).
    + exfalso. destruct (readn_clean c (remote_com_buf s) 0 8 Hc ltac:(lia) ltac:(destruct Hs; lia)) as (c1 & E1 & _).
      revert E. unfold receive. rewrite E1. cbn [mbind option_bind]. rewrite Z.min_r, Nat2Z.id by lia.
      destruct (Z.ltb_spec (Z.of_nat (length (delivered c))) 0); [discriminate |].
      destruct (Z.eqb_spec (Z.of_nat (length (delivered c))) 0); [discriminate |].
      destruct (Z.ltb_spec (Z.of_nat (length (delivered c))) 8); [discriminate | lia].
  - intros (h & rest & Eh & Hh & H). now apply (receive_header max Hmax s c h rest Hs Hc Hh Eh).
Qed.

Lemma receive_faults_exactly_witness :
  receive 64 (demo_st 64) [Data (enc_header (Header 0xAA 1 1 1 (2 ^ 32 - 2)) ++ replicate 57 65)] = None.
Proof.
  apply (receive_faults_exactly 64); [lia | now constructor | constructor; [eexists _, _; reflexivity | constructor] | by_compute |].
  exists (Header 0xAA 1 1 1 (2 ^ 32 - 2)), (replicate 57 65). split; [reflexivity |]. split; [by_compute |]. split; [reflexivity |].
  cbn [data_len]. rewrite length_replicate. lia.
Defined.

(** The register count that is not checked.  Whatever the length of a message, the
    compressor parameters run out of the buffers exactly when their count of
    registers needs more than the whole receive buffer; a count that is larger than
    the message has room for, and smaller than that, is served from the bytes of
    earlier messages. *)
Theorem drc_faults_exactly base max sysfs h b cs local :
  9 <= max < 2 ^ 31 -> Z.of_nat (length b) = max -> Z.of_nat (length (reg_args local)) = max / 8 -> bytes_ok b ->
  drc_hw_write_com_to_local base sysfs (Com h (drop 8 b) cs) local = None <-> max < 10 + 8 * le_combine (bytes_at b 8 2).
Proof. intros Hmax. now apply drc_write_defined. Qed.

(** A message of two bytes that writes a register from stale bytes, and one that
    faults. *)
Lemma drc_faults_exactly_witness :
  (drc_hw_write_com_to_local 0 (Some full_write) (Com (Header 0xAA 1 1 2 2) (drop 8 (replicate 8 0 ++ [7; 0] ++ replicate 54 0)) 0) (drc (demo_st 64)) = None <->
    64 < 10 + 8 * 7) /\
  snd <$> drc_hw_write_com_to_local 0 (Some full_write) (Com (Header 0xAA 1 1 2 2) (drop 8 (replicate 8 0 ++ [1; 0] ++ replicate 54 0)) 0) (drc (demo_st 64)) =
    Some [reg_string 0 (RegArg 0 0)].
Proof.
  split; [| vm_compute; reflexivity].
  apply (drc_faults_exactly 0 64 (Some full_write) (Header 0xAA 1 1 2 2) (replicate 8 0 ++ [7; 0] ++ replicate 54 0) 0 (drc (demo_st 64)));
    [lia | reflexivity | reflexivity | by_compute].
Defined.

(** Whatever comes on a connection, errors and pieces without data included, its loop
    ends or faults: each turn that goes on has consumed something. *)
Theorem connection_ends base max verbose sysfs s c : connection base max verbose sysfs s c <> OutOfFuel.
Proof.
  unfold connection. assert (forall fuel s c, (rd_weight c < fuel)%nat -> conn_loop base max verbose sysfs fuel s c <> OutOfFuel) as H; [| apply H; lia].
  clear. induction fuel as [| fuel IH]; intros s c Hf; [lia |]. cbn [conn_loop].
  destruct (conn_step base max verbose sysfs s c) as [[[[] s'] c'] |] eqn:E; [| discriminate | discriminate].
  apply conn_step_weight in E. apply IH. lia.
Qed.

(** ** The client threads *)

Definition spurious (a : action) : bool := match a with Spurious => true | _ => false end.

(** [us]: the updates so far. *)
Definition thread_inv (us : list (list Z)) (x : eq_local * client) : Prop :=
  match list.last us with Some m => local_msg x.1 = m | None => data_len (local_header x.1) = 0 end /\
  match at_ x.2 with
  | Start => sent x.2 = []
  | Woken => exists us0 m, us = us0 ++ [m] /\ sublist (sent x.2) us0
  | _ => sublist (sent x.2) us
  end.

Lemma act_inv us a x y :
  thread_inv us x -> spurious a = false -> act a x = Some y ->
  thread_inv (us ++ match a with Update _ => [local_msg y.1] | _ => [] end) y.
Proof.
  destruct x as [e [p l]]. intros [Hn Hp] Ha. cbn [fst snd at_ sent] in *.
  destruct a as [com | ok | | | ok], p; cbn [act at_ sent]; try discriminate; rewrite ?app_nil_r.
  1-5: destruct (eq_sw_write_com_to_local com e) as [e' |]; [| discriminate]; cbn [mbind option_bind]; intros [= <-];
    (split; cbn [fst snd at_ sent wake]; [now rewrite last_snoc |]).
  - exact Hp.
  - now apply sublist_inserts_r.
  - now exists us, (local_msg e').
  - destruct Hp as (us0 & m & -> & Hl). exists (us0 ++ [m]), (local_msg e'). split; [reflexivity | now apply sublist_inserts_r].
  - now apply sublist_inserts_r.
  - unfold client_start. cbn [sent]. destruct (Z.eqb_spec (data_len (local_header e)) 0) as [H0 | H0].
    + intros [= <-]. split; [exact Hn |]. cbn. rewrite Hp. apply sublist_nil_l.
    + destruct ok; intros [= <-]; (split; [exact Hn |]); cbn; rewrite Hp; [| apply sublist_nil_l].
      destruct us as [| u us _] using rev_ind; [contradiction |]. rewrite last_snoc in Hn. cbn [app]. rewrite Hn. now apply sublist_inserts_l.
  - intros [= <-]. now split.
  - destruct Hp as (us0 & m & -> & Hl). rewrite last_snoc in Hn. unfold client_update. destruct ok; intros [= <-]; (split; cbn [fst snd at_ sent]; [now rewrite last_snoc |]).
    + rewrite Hn. now apply sublist_app.
    + now apply sublist_inserts_r.
Qed.

Lemma acts_inv us l x y us' :
  thread_inv us x -> existsb spurious l = false -> acts l x = Some (y, us') -> thread_inv (us ++ us') y.
Proof.
  revert us x us'. induction l as [| a l IH]; intros us x us' Hx Hs; cbn [acts existsb] in *.
  - intros [= <- <-]. now rewrite app_nil_r.
  - apply orb_false_iff in Hs as [Ha Hs]. destruct (act a x) as [z |] eqn:E; [| discriminate]. cbn [mbind option_bind].
    destruct (acts l z) as [[y1 us1] |] eqn:E2; [| discriminate]. cbn [mbind option_bind fst snd]. intros [= <- <-]. rewrite app_assoc.
    eapply IH; [| exact Hs | exact E2]. now apply (act_inv us a x z).
Qed.

(** What a client is sent.  From the start of the daemon and of a client, under every
    interleaving of updates and client steps in which no wait ends by itself, the
    messages written to the client are updates, in order and each at most once, and
    a client that is about to write has the newest one before it. *)
Theorem client_order l e e' k us :
  data_len (local_header e) = 0 -> existsb spurious l = false -> acts l (e, Client Start []) = Some (e', k, us) ->
  sublist (sent k) us /\ (at_ k = Woken -> list.last us = Some (local_msg e')).
Proof.
  intros H0 Hs E. assert (thread_inv [] (e, Client Start [])) as Hi by now split.
  destruct (acts_inv [] l _ _ us Hi Hs E) as [Hn Hp]. cbn [app fst snd] in *. split.
  - destruct (at_ k); try assumption; [rewrite Hp; apply sublist_nil_l |]. destruct Hp as (us0 & m & -> & Hl). now apply sublist_inserts_r.
  - intros Hw. rewrite Hw in Hp. destruct Hp as (us0 & m & -> & _). rewrite last_snoc in *. now rewrite Hn.
Qed.

Definition demo_com (ge : Z) : aactd_com := Com (Header 0xAA 1 1 1 2) ([ge; 0] ++ replicate 10 0) 0.

Lemma client_order_witness :
  sublist [enc_msg (Msg (Header 0xAA 1 1 1 2) [1; 0]); enc_msg (Msg (Header 0xAA 1 1 1 2) [3; 0])]
    [enc_msg (Msg (Header 0xAA 1 1 1 2) [1; 0]); enc_msg (Msg (Header 0xAA 1 1 1 2) [2; 0]); enc_msg (Msg (Header 0xAA 1 1 1 2) [3; 0])].
Proof.
  refine (proj1 (client_order [Update (demo_com 1); Begin true; Wait; Update (demo_com 2); Update (demo_com 3); Resume true]
    (eq (demo_st 64)) _ (Client Between _) _ _ _ _)); [reflexivity | reflexivity | vm_compute; reflexivity].
Defined.

(** The lost update.  An update between two critical sections of a client finds no
    one waiting: the client then waits with an old message as the last one it was
    sent, and no step of its own is left. *)
Theorem client_lost_update :
  exists e k us, acts [Update (demo_com 1); Begin true; Update (demo_com 2); Wait] (eq (demo_st 64), Client Start []) = Some (e, k, us) /\
  list.last (sent k) <> Some (local_msg e) /\ list.last us = Some (local_msg e) /\
  forall a y, act a (e, k) = Some y -> a = Spurious \/ exists com, a = Update com.
Proof.
  eexists _, _, _. split; [vm_compute; reflexivity |]. split; [vm_compute; discriminate |]. split; [vm_compute; reflexivity |].
  intros [com | ok | | | ok] y; cbn [act at_]; try discriminate; eauto.
Qed.
