(* ===== verification/Page.v ===== *)
(** * Page: the page switcher of smartva

    Models [smartva/src/common/middle/page/page.c] over the lists of [DbList]:
    pages register in [page_head]; requests to switch are put in [page_msg_head]
    and handled one at a time by [page_task], which the GUI calls periodically and
    which, for an animated switch, polls both pages until their animation ends.

    The hooks of a page are code of the application: [answer n] is what the [n]th
    call of a hook returns and the requests it puts in the queue meanwhile.  The
    calls are logged.  A failed [assert], a null request and a wait of the GUI
    thread on an empty list are [None]. *)
From Stdlib Require Import String.
From stdpp Require Import gmap.
From S2P Require Import Prelude CString DbList.
#[local] Open Scope list_scope.

(** What the lists point at: a page, or the identifier looked for. *)
Inductive ptr := PagePtr (r : nat) | IdPtr (id : Z).

#[global] Instance ptr_eq_dec : EqDecision ptr.
Proof. solve_decision. Defined.

Inductive hook := on_create | on_destroy | on_show | on_hide | msg_proc | on_anim | is_anim_end.

#[global] Instance hook_eq_dec : EqDecision hook.
Proof. solve_decision. Defined.

(** [page_interface_t]: the hooks that are not NULL, the identifier, the data. *)
Record page_interface := PageInterface { ops : list hook; id : Z; user_data : Z }.

Inductive cmd := CMD_NONE | CMD_SWITCH | CMD_ANIM_SWITCH.

Record page_param := Param { pcmd : cmd; old_page : Z; new_page : Z }.

Definition PAGE_NONE : Z := 0.

(** The globals of the file, the static variables of [page_task], the memory of
    the pages, the log of hook calls, and the requests freed. *)
Record st := St {
  page_head : option (@db_list ptr);
  page_msg_head : option (@db_list page_param);
  current_id : Z;
  anim_p : option page_param;
  b_animing : bool;
  pages : gmap nat page_interface;
  calls : list (nat * hook);
  freed : list page_param;
}.

Definition with_queue (s : st) (q : option (@db_list page_param)) : st :=
  St (page_head s) q (current_id s) (anim_p s) (b_animing s) (pages s) (calls s) (freed s).
Definition with_head (s : st) (h : option (@db_list ptr)) : st :=
  St h (page_msg_head s) (current_id s) (anim_p s) (b_animing s) (pages s) (calls s) (freed s).
Definition with_current (s : st) (i : Z) : st :=
  St (page_head s) (page_msg_head s) i (anim_p s) (b_animing s) (pages s) (calls s) (freed s).
Definition with_anim (s : st) (p : option page_param) (b : bool) : st :=
  St (page_head s) (page_msg_head s) (current_id s) p b (pages s) (calls s) (freed s).
Definition with_pages (s : st) (m : gmap nat page_interface) : st :=
  St (page_head s) (page_msg_head s) (current_id s) (anim_p s) (b_animing s) m (calls s) (freed s).
Definition logged (s : st) (c : nat * hook) : st :=
  St (page_head s) (page_msg_head s) (current_id s) (anim_p s) (b_animing s) (pages s) (calls s ++ [c]) (freed s).
Definition free (s : st) (p : page_param) : st :=
  St (page_head s) (page_msg_head s) (current_id s) (anim_p s) (b_animing s) (pages s) (calls s) (freed s ++ [p]).

(** ** Looking pages up *)

Definition page_at (s : st) (r : nat) : page_interface := default (PageInterface [] PAGE_NONE 0) (pages s !! r).

Definition compare_by_id (s : st) (dst src : ptr) : Z :=
  match dst, src with
  | PagePtr r, IdPtr i => if i =? id (page_at s r) then 0 else -1
  | _, _ => -1
  end.

Definition compare_by_page (dst src : ptr) : Z := if bool_decide (dst = src) then 0 else -1.

(** [find_page]: [None] for the failed assertion. *)
Definition find_page (s : st) (i : Z) : option (option nat) :=
  match page_head s with
  | None => None
  | Some _ =>
      match __db_list_search_node (page_head s) (Some (IdPtr i)) (compare_by_id s) with
      | Some (PagePtr r) => Some (Some r)
      | _ => Some None
      end
  end.

Definition reg_page (s : st) (r : nat) (malloc_ok : bool) : option st :=
  match page_head s with
  | None => None
  | Some _ => Some (with_head s (__db_list_put_tail (page_head s) (Some (PagePtr r)) malloc_ok).2)
  end.

Definition unreg_page (s : st) (r : nat) : option st :=
  match page_head s with
  | None => None
  | Some _ => Some (with_head s (__db_list_search_and_pop (page_head s) (Some (PagePtr r)) compare_by_page).2)
  end.

(** ** Requests *)

(** [switch_page] and [anim_switch_page]: the flags tell whether the request and
    the list node are allocated. *)
Definition post (s : st) (p : page_param) (malloc_ok node_ok : bool) : st :=
  if malloc_ok then with_queue s (__db_list_put_tail (page_msg_head s) (Some p) node_ok).2 else s.

Definition switch_page (s : st) (old_id new_id : Z) (malloc_ok node_ok : bool) : st :=
  post s (Param CMD_SWITCH old_id new_id) malloc_ok node_ok.

Definition anim_switch_page (s : st) (old_id new_id : Z) (malloc_ok node_ok : bool) : st :=
  post s (Param CMD_ANIM_SWITCH old_id new_id) malloc_ok node_ok.

(** [page_init] and [page_uninit]: the first flag of a list is the success of its
    [malloc]; what destroying the lists frees are the registered pages and the
    requests. *)
Definition create_list {A} (nm : string) (blk malloc_ok : bool) : option (@db_list A) :=
  match db_list_create (Some (lit nm)) blk malloc_ok true true true with Some l => l | None => None end.

Definition page_init (s : st) (head_ok msg_ok : bool) : st :=
  with_queue (with_head s (create_list "page_head" false head_ok)) (create_list "page_msg_head" true msg_ok).

Definition page_uninit (s : st) : option (list ptr * list page_param) :=
  match page_head s, page_msg_head s with
  | Some _, Some _ => Some (__db_list_destory (page_head s), __db_list_destory (page_msg_head s))
  | _, _ => None
  end.

Definition current_page (s : st) : option Z :=
  if is_list_empty (page_msg_head s) =? 1 then Some (current_id s)
  else
    match __db_list_search_node_byindex (page_msg_head s) (s32 (__db_list_get_num (page_msg_head s) - 1)) with
    | Some p => Some (new_page p)
    | None => None
    end.

Definition set_page_user_data (s : st) (i v : Z) : option (Z * st) :=
  match find_page s i with
  | None => None
  | Some None => Some (-1, s)
  | Some (Some r) =>
      let p := page_at s r in Some (0, with_pages s (<[r := PageInterface (ops p) (id p) v]> (pages s)))
  end.

(** 0 for NULL. *)
Definition get_page_user_data (s : st) (i : Z) : option Z :=
  match find_page s i with
  | None => None
  | Some None => Some 0
  | Some (Some r) => Some (user_data (page_at s r))
  end.

Section Hooks.
(** What the hooks return and post; all their allocations succeed. *)
Variable answer : nat -> Z * list page_param.

Definition has (s : st) (r : nat) (h : hook) : bool := bool_decide (h ∈ ops (page_at s r)).

Definition call (s : st) (r : nat) (h : hook) : Z * st :=
  let '(v, posted) := answer (length (calls s)) in
  (v, fold_left (fun s p => post s p true true) posted (logged s (r, h))).

(** [if (page->ops.h) page->ops.h(...)], for a page that is registered. *)
Definition call_if (s : st) (o : option nat) (h : hook) : st :=
  match o with
  | Some r => if has s r h then (call s r h).2 else s
  | None => s
  end.

Definition create_page (s : st) (i : Z) : option (Z * st) :=
  o ← find_page s i;
  match o with
  | Some r =>
      if has s r on_create then
        let '(v, s) := call s r on_create in
        Some (if v =? 0 then (0, with_current s i) else (-1, s))
      else Some (-1, s)
  | None => Some (-1, s)
  end.

(** [destory_page], [show_page], [hide_page] and [sent_page_msg]. *)
Definition call_page (s : st) (i : Z) (h : hook) : option st := o ← find_page s i; Some (call_if s o h).

Definition destory_page (s : st) (i : Z) : option st := call_page s i on_destroy.
Definition show_page (s : st) (i : Z) : option st := call_page s i on_show.
Definition hide_page (s : st) (i : Z) : option st := call_page s i on_hide.
Definition sent_page_msg (s : st) (to : Z) : option st := call_page s to msg_proc.

(** The handling of a request just popped. *)
Definition begin_request (s : st) (p : page_param) : option st :=
  match pcmd p with
  | CMD_SWITCH =>
      s ← destory_page s (old_page p);
      r ← create_page s (new_page p);
      Some (with_anim (free r.2 p) None false)
  | CMD_ANIM_SWITCH =>
      r ← create_page s (new_page p);
      o ← find_page r.2 (old_page p);
      let s := call_if r.2 o on_anim in
      n ← find_page s (new_page p);
      Some (with_anim (call_if s n on_anim) (Some p) true)
  | CMD_NONE => Some (with_anim (free s p) None false)
  end.

(** The poll of a running animation: whether both pages say it has ended. *)
Definition poll (s : st) (o n : option nat) : bool * st :=
  match o, n with
  | Some o, Some n =>
      if has s o is_anim_end && has s n is_anim_end then
        let '(v, s) := call s o is_anim_end in
        if v =? 0 then (false, s) else let '(w, s) := call s n is_anim_end in (negb (w =? 0), s)
      else (false, s)
  | _, _ => (false, s)
  end.

Definition continue_anim (s : st) (p : page_param) : option st :=
  o ← find_page s (old_page p);
  n ← find_page s (new_page p);
  let '(over, s) := poll s o n in
  if over then s ← destory_page (with_anim s (Some p) false) (old_page p); Some (with_anim (free s p) None false)
  else Some s.

Definition page_task (s : st) : option st :=
  if b_animing s then
    match anim_p s with Some p => continue_anim s p | None => None end
  else if is_list_empty (page_msg_head s) =? 1 then Some s
  else
    match __db_list_pop (page_msg_head s) with
    | Some (Some p, q) => begin_request (with_anim (with_queue s q) (Some p) false) p
    | _ => None
    end.
End Hooks.

(** ** The effect of the hooks *)

Definition enq (d : @db_list page_param) (l : list page_param) : @db_list page_param :=
  fold_left (fun d p => with_members d (members d ++ [p]) (u32 (member_num d + 1))) l d.

Lemma members_enq d l : members (enq d l) = members d ++ l.
Proof.
  revert d. induction l as [| p l IH]; intros d; cbn; [now rewrite app_nil_r |].
  unfold enq in IH. rewrite IH. cbn. now rewrite <- app_assoc.
Qed.

Lemma enq_app d l1 l2 : enq (enq d l1) l2 = enq d (l1 ++ l2).
Proof. unfold enq. now rewrite fold_left_app. Qed.

(** The state after the hooks [cs] ran and [l] was put in the queue. *)
Definition after (s : st) (cs : list (nat * hook)) (l : list page_param) : st :=
  St (page_head s) ((fun d => enq d l) <$> page_msg_head s) (current_id s) (anim_p s) (b_animing s) (pages s)
    (calls s ++ cs) (freed s).

Lemma after_nil s : after s [] [] = s.
Proof. unfold after. destruct s as [h [q |] c p b m k f]; cbn; now rewrite app_nil_r. Qed.

Lemma after_after s c1 l1 c2 l2 : after (after s c1 l1) c2 l2 = after s (c1 ++ c2) (l1 ++ l2).
Proof.
  unfold after. cbn. rewrite app_assoc. destruct (page_msg_head s) as [d |]; cbn; [| reflexivity]. now rewrite enq_app.
Qed.

Lemma post_after s p : post s p true true = after s [] [p].
Proof. unfold post, after, with_queue. destruct s as [h [q |] c a b m k f]; cbn; now rewrite app_nil_r. Qed.

Lemma posts_after s l : fold_left (fun s p => post s p true true) l s = after s [] l.
Proof.
  revert s. induction l as [| p l IH]; intros s; cbn [fold_left]; [now rewrite after_nil |].
  now rewrite IH, post_after, after_after.
Qed.

Section HookLemmas.
Variable answer : nat -> Z * list page_param.

Lemma call_after s r h :
  call answer s r h = ((answer (length (calls s))).1, after s [(r, h)] (answer (length (calls s))).2).
Proof.
  unfold call. destruct (answer (length (calls s))) as [v l]. cbn [fst snd]. f_equal. rewrite posts_after.
  unfold after, logged. cbn. now rewrite app_nil_r.
Qed.

(** The requests posted by the [n] calls from the [k]th on. *)
Definition posted (k n : nat) : list page_param := concat (map (fun i => (answer i).2) (seq k n)).

Lemma posted_app k n m : posted k (n + m) = posted k n ++ posted (k + n) m.
Proof. unfold posted. now rewrite seq_app, map_app, concat_app. Qed.

Lemma posted_1 k : posted k 1 = (answer k).2.
Proof. unfold posted. cbn. apply app_nil_r. Qed.

(** A state reached by hooks alone. *)
Definition hooked (s : st) (cs : list (nat * hook)) : st := after s cs (posted (length (calls s)) (length cs)).

Lemma hooked_nil s : hooked s [] = s.
Proof. apply after_nil. Qed.

Lemma hooked_hooked s c1 c2 : hooked (hooked s c1) c2 = hooked s (c1 ++ c2).
Proof.
  unfold hooked at 1 2. rewrite after_after. unfold hooked, after at 2. cbn [calls].
  rewrite !length_app, posted_app. reflexivity.
Qed.

Lemma call_hooked s r h : call answer s r h = ((answer (length (calls s))).1, hooked s [(r, h)]).
Proof. rewrite call_after. unfold hooked. cbn [length]. now rewrite posted_1. Qed.

Lemma find_page_hooked s cs i : find_page (hooked s cs) i = find_page s i.
Proof. reflexivity. Qed.

Lemma has_hooked s cs r h : has (hooked s cs) r h = has s r h.
Proof. reflexivity. Qed.

(** The calls of an optional hook. *)
Definition hook_calls (s : st) (o : option nat) (h : hook) : list (nat * hook) :=
  match o with Some r => if has s r h then [(r, h)] else [] | None => [] end.

Lemma call_if_hooked s o h : call_if answer s o h = hooked s (hook_calls s o h).
Proof.
  unfold call_if, hook_calls. destruct o as [r |]; [| now rewrite hooked_nil].
  destruct (has s r h); [| now rewrite hooked_nil]. now rewrite call_hooked.
Qed.

Lemma create_page_hooked s i o :
  find_page s i = Some o ->
  let ok := match o with Some r => has s r on_create && ((answer (length (calls s))).1 =? 0) | None => false end in
  create_page answer s i = Some (if ok then 0 else -1,
    let s' := hooked s (hook_calls s o on_create) in if ok then with_current s' i else s').
Proof.
  intros E. unfold create_page, hook_calls. rewrite E. cbn. destruct o as [r |]; [| now rewrite hooked_nil].
  destruct (has s r on_create); [| now rewrite hooked_nil]. rewrite call_hooked. cbn [andb].
  now destruct (_ =? 0).
Qed.
End HookLemmas.

(** ** The requests *)

Definition queued (s : st) : list page_param := match page_msg_head s with Some d => members d | None => [] end.

(** All requests ever accepted, in order: freed, being handled, waiting. *)
Definition pending (s : st) : list page_param :=
  freed s ++ (match anim_p s with Some p => [p] | None => [] end) ++ queued s.

Record wf (s : st) : Prop := {
  wf_head : page_head s <> None;
  wf_queue : page_msg_head s <> None;
  wf_anim : b_animing s = true <-> anim_p s <> None;
}.

Lemma find_page_some s i : page_head s <> None -> exists o, find_page s i = Some o.
Proof.
  unfold find_page. destruct (page_head s); [| contradiction]. intros _.
  destruct (__db_list_search_node _ _ _) as [[r | j] |]; eauto.
Qed.

Lemma queued_after s cs l : page_msg_head s <> None -> queued (after s cs l) = queued s ++ l.
Proof. unfold queued, after. cbn. destruct (page_msg_head s); [| contradiction]. intros _. apply members_enq. Qed.

(** What a turn that handles [p] looks like: the hooks [cs] ran on the state [s0]
    and [p] is either freed or still being handled. *)
Lemma pending_turn answer s0 cs p s' (over : bool) :
  page_msg_head s0 <> None -> anim_p s0 = Some p ->
  page_msg_head s' = page_msg_head (hooked answer s0 cs) -> calls s' = calls (hooked answer s0 cs) ->
  freed s' = (if over then freed s0 ++ [p] else freed s0) -> anim_p s' = (if over then None else Some p) ->
  pending s' = pending s0 ++ posted answer (length (calls s0)) (length cs).
Proof.
  intros Hq Ha Eq Ec Ef Ea. assert (queued s' = queued s0 ++ posted answer (length (calls s0)) (length cs)) as Q.
  { unfold queued. rewrite Eq. apply (queued_after s0 cs _ Hq). }
  unfold pending. rewrite Ef, Ea, Ha, Q. destruct over; cbn [app]; now rewrite <- ?app_assoc.
Qed.

Section Task.
Variable answer : nat -> Z * list page_param.

(** The state in which the popped request is handled. *)
Definition popped (s : st) (d : @db_list page_param) (p : page_param) (ms : list page_param) : st :=
  with_anim (with_queue s (Some (with_members d ms (u32 (member_num d - 1))))) (Some p) false.

Lemma page_task_pop s d p ms :
  b_animing s = false -> page_msg_head s = Some d -> members d = p :: ms ->
  page_task answer s = begin_request answer (popped s d p ms) p.
Proof.
  intros Hb Hq Hm. unfold page_task. rewrite Hb, Hq. cbn [is_list_empty]. rewrite Hm. cbn [Z.eqb].
  unfold __db_list_pop. cbn [is_list_empty]. rewrite Hm. cbn [Z.eqb]. unfold pop_first. rewrite Hm. reflexivity.
Qed.

Lemma pending_popped s d p ms :
  b_animing s = false -> wf s -> page_msg_head s = Some d -> members d = p :: ms -> pending (popped s d p ms) = pending s.
Proof.
  intros Hb Hw Hq Hm. assert (anim_p s = None) as Ha.
  { destruct (anim_p s) as [a |] eqn:E; [| reflexivity]. exfalso. destruct Hw as [_ _ W]. rewrite E, Hb in W.
    assert (false = true) by (apply W; discriminate). discriminate. }
  unfold pending, queued. cbn. now rewrite Ha, Hq, Hm.
Qed.

(** A plain switch: the old page is destroyed first, then the new one is created;
    the current page changes only when [on_create] returns 0. *)
Lemma begin_switch s p o n :
  pcmd p = CMD_SWITCH -> find_page s (old_page p) = Some o -> find_page s (new_page p) = Some n ->
  let c1 := hook_calls s o on_destroy in
  let c2 := hook_calls s n on_create in
  let ok := match n with
            | Some r => has s r on_create && ((answer (length (calls s) + length c1)).1 =? 0)
            | None => false
            end in
  begin_request answer s p =
    Some (let s' := hooked answer s (c1 ++ c2) in
          with_anim (free (if ok then with_current s' (new_page p) else s') p) None false).
Proof.
  intros Hc Ho Hn c1 c2 ok. unfold begin_request. rewrite Hc. unfold destory_page, call_page. rewrite Ho. cbn [mbind option_bind].
  rewrite call_if_hooked. fold c1.
  pose proof (create_page_hooked answer (hooked answer s c1) (new_page p) n ltac:(rewrite find_page_hooked; exact Hn)) as E.
  cbn zeta in E. rewrite E. cbn [mbind option_bind fst snd]. clear E.
  assert (length (calls (hooked answer s c1)) = (length (calls s) + length c1)%nat) as -> by apply length_app.
  change (hook_calls (hooked answer s c1) n on_create) with c2. rewrite hooked_hooked. reflexivity.
Qed.

Lemma begin_anim s p o n :
  pcmd p = CMD_ANIM_SWITCH -> find_page s (old_page p) = Some o -> find_page s (new_page p) = Some n ->
  exists cs ok, begin_request answer s p =
    Some (let s' := hooked answer s cs in with_anim (if ok : bool then with_current s' (new_page p) else s') (Some p) true).
Proof.
  intros Hc Ho Hn. unfold begin_request. rewrite Hc.
  pose proof (create_page_hooked answer s (new_page p) n Hn) as E. cbn zeta in E. rewrite E. cbn [mbind option_bind fst snd]. clear E.
  set (ok := match n with Some r => _ | None => false end).
  exists (hook_calls s n on_create ++ hook_calls s o on_anim ++ hook_calls s n on_anim), ok.
  rewrite app_assoc.
  assert (forall cs i j, find_page (if ok then with_current (hooked answer s cs) i else hooked answer s cs) j = find_page s j) as F
    by (intros; now destruct ok).
  rewrite F, Ho. cbn [mbind option_bind]. rewrite call_if_hooked.
  assert (forall (c1 c2 : list (nat * hook)) i, hooked answer (if ok then with_current (hooked answer s c1) i else hooked answer s c1) c2 =
    if ok then with_current (hooked answer s (c1 ++ c2)) i else hooked answer s (c1 ++ c2)) as G.
  { intros. destruct ok; [| apply hooked_hooked].
    change (hooked answer (with_current (hooked answer s c1) i) c2) with (with_current (hooked answer (hooked answer s c1) c2) i).
    now rewrite hooked_hooked. }
  rewrite G, F, Hn. cbn [mbind option_bind]. rewrite call_if_hooked, G.
  assert (forall i c o h, hook_calls (if ok then with_current (hooked answer s c) i else hooked answer s c) o h = hook_calls s o h) as K
    by (intros; now destruct ok).
  rewrite !K. reflexivity.
Qed.
End Task.

Section Theorems.
Variable answer : nat -> Z * list page_param.

Lemma poll_hooked s o n : exists cs over, poll answer s o n = (over, hooked answer s cs).
Proof.
  unfold poll. destruct o as [o |]; [| exists [], false; now rewrite hooked_nil].
  destruct n as [n |]; [| exists [], false; now rewrite hooked_nil].
  destruct (has s o is_anim_end && has s n is_anim_end); [| exists [], false; now rewrite hooked_nil].
  rewrite call_hooked. destruct (_ =? 0); [now exists [(o, is_anim_end)], false |].
  rewrite call_hooked, hooked_hooked. now eexists ([(o, is_anim_end)] ++ [(n, is_anim_end)]), _.
Qed.

Lemma continue_anim_hooked s p :
  page_head s <> None -> anim_p s = Some p -> b_animing s = true ->
  exists cs (over : bool), continue_anim answer s p =
    Some (if over then with_anim (free (hooked answer s cs) p) None false else hooked answer s cs).
Proof.
  intros Hh Ha Hb. destruct (find_page_some s (old_page p) Hh) as [o Ho]. destruct (find_page_some s (new_page p) Hh) as [n Hn].
  unfold continue_anim. rewrite Ho, Hn. cbn [mbind option_bind].
  destruct (poll_hooked s o n) as (cs & over & ->). destruct over; [| now exists cs, false].
  unfold destory_page, call_page.
  change (find_page (with_anim (hooked answer s cs) (Some p) false) (old_page p)) with (find_page s (old_page p)).
  rewrite Ho. cbn [mbind option_bind]. rewrite call_if_hooked.
  change (hook_calls (with_anim (hooked answer s cs) (Some p) false) o on_destroy) with (hook_calls s o on_destroy).
  exists (cs ++ hook_calls s o on_destroy), true. rewrite <- hooked_hooked. reflexivity.
Qed.

(** C31: The queue is first in, first out and nothing is lost: whatever the hooks do, a
    turn of [page_task] is defined, and the requests freed, in progress and waiting
    are together those of before followed by those that its hooks have put. *)
Theorem page_task_fifo s :
  wf s ->
  exists s' cs, page_task answer s = Some s' /\ wf s' /\ calls s' = calls s ++ cs /\
    pending s' = pending s ++ posted answer (length (calls s)) (length cs).
Proof.
  intros Hw. pose proof Hw as [Hh Hq Ha]. destruct (b_animing s) eqn:Hb.
  - destruct (anim_p s) as [p |] eqn:Hp; [| exfalso; apply (proj1 Ha eq_refl); reflexivity].
    destruct (continue_anim_hooked s p Hh Hp Hb) as (cs & over & E). unfold page_task. rewrite Hb, Hp.
    eexists _, cs. split; [exact E |].
    assert (page_msg_head (hooked answer s cs) <> None) by (cbn; destruct (page_msg_head s); [discriminate | contradiction]).
    split; [| split].
    + destruct over; constructor; cbn; auto; [split; [discriminate | contradiction] | rewrite Hb, Hp; split; auto; discriminate].
    + now destruct over.
    + apply (pending_turn answer s cs p _ over); auto; now destruct over.
  - destruct (page_msg_head s) as [d |] eqn:Hd; [| contradiction].
    destruct (members d) as [| p ms] eqn:Hm.
    { exists s, []. unfold page_task. rewrite Hb, Hd. cbn [is_list_empty]. rewrite Hm. cbn [Z.eqb].
      rewrite !app_nil_r. auto. }
    rewrite (page_task_pop answer s d p ms Hb Hd Hm). pose proof (pending_popped s d p ms Hb Hw Hd Hm) as Pp.
    set (s0 := popped s d p ms) in *. rewrite <- Pp.
    assert (page_head s0 <> None /\ page_msg_head s0 <> None /\ anim_p s0 = Some p /\ calls s0 = calls s) as (H1 & H2 & H3 & H4)
      by (repeat split; auto; discriminate).
    destruct (find_page_some s0 (old_page p) H1) as [o Ho]. destruct (find_page_some s0 (new_page p) H1) as [n Hn].
    rewrite <- H4. clearbody s0. clear -H1 H2 H3 Ho Hn. destruct (pcmd p) eqn:Hc.
    + exists (with_anim (free s0 p) None false), []. unfold begin_request. rewrite Hc. split; [reflexivity |].
      split; [constructor; cbn; auto; split; [discriminate | contradiction] |]. split; [symmetry; apply app_nil_r |].
      apply (pending_turn answer s0 [] p _ true); auto; now rewrite hooked_nil.
    + eexists _, (hook_calls s0 o on_destroy ++ hook_calls s0 n on_create).
      split; [apply (begin_switch answer s0 p o n Hc Ho Hn) |]. cbv zeta.
      set (ok := match n with Some r => _ | None => false end). split; [| split].
      * destruct ok; constructor; cbn; auto; try (destruct (page_msg_head s0); [discriminate | contradiction]);
          split; (discriminate || contradiction).
      * now destruct ok.
      * apply (pending_turn answer s0 _ p _ true); auto; now destruct ok.
    + destruct (begin_anim answer s0 p o n Hc Ho Hn) as (cs & ok & E). eexists _, cs. split; [exact E |]. cbv zeta. split; [| split].
      * destruct ok; constructor; cbn; auto; try (destruct (page_msg_head s0); [discriminate | contradiction]); split; auto; discriminate.
      * now destruct ok.
      * apply (pending_turn answer s0 cs p _ false); auto; now destruct ok.
Qed.

(** A switch: [on_destroy] of the old page, then [on_create] of the new one, each
    if the page is registered and has it; the current page is the new one exactly
    when [on_create] was called and returned 0, and otherwise stays the page that
    was just destroyed. *)
Theorem page_switch s d p ms o n :
  wf s -> b_animing s = false -> page_msg_head s = Some d -> members d = p :: ms -> pcmd p = CMD_SWITCH ->
  find_page s (old_page p) = Some o -> find_page s (new_page p) = Some n ->
  exists s', page_task answer s = Some s' /\
    calls s' = calls s ++ hook_calls s o on_destroy ++ hook_calls s n on_create /\
    current_id s' =
      (if match n with
          | Some r => has s r on_create && ((answer (length (calls s) + length (hook_calls s o on_destroy))).1 =? 0)
          | None => false
          end then new_page p else current_id s) /\
    freed s' = freed s ++ [p] /\ b_animing s' = false.
Proof.
  intros Hw Hb Hd Hm Hc Ho Hn. rewrite (page_task_pop answer s d p ms Hb Hd Hm).
  rewrite (begin_switch answer (popped s d p ms) p o n Hc Ho Hn). cbv zeta. eexists. split; [reflexivity |].
  change (hook_calls (popped s d p ms)) with (hook_calls s). change (has (popped s d p ms)) with (has s).
  change (calls (popped s d p ms)) with (calls s).
  match goal with |- context [if ?b then with_current _ _ else _] => destruct b end; repeat split; reflexivity.
Qed.

(** Later states: turns of the task and requests posted in between. *)
Inductive later : st -> st -> Prop :=
  | later_refl s : later s s
  | later_task s s1 s2 : page_task answer s = Some s1 -> later s1 s2 -> later s s2
  | later_post s p a b s2 : later (post s p a b) s2 -> later s s2.

Definition cannot_end (s : st) (p : page_param) : Prop :=
  forall o n, find_page s (old_page p) = Some (Some o) -> find_page s (new_page p) = Some (Some n) ->
    has s o is_anim_end && has s n is_anim_end = false.

Lemma stuck_task s p :
  page_head s <> None -> b_animing s = true -> anim_p s = Some p -> cannot_end s p -> page_task answer s = Some s.
Proof.
  intros Hh Hb Hp Hc. unfold page_task, continue_anim. rewrite Hb, Hp.
  destruct (find_page_some s (old_page p) Hh) as [o Ho]. destruct (find_page_some s (new_page p) Hh) as [n Hn].
  rewrite Ho, Hn. cbn [mbind option_bind]. unfold poll. destruct o as [o |]; [| reflexivity]. destruct n as [n |]; [| reflexivity].
  now rewrite (Hc o n Ho Hn).
Qed.

Lemma post_queue s p a b : exists l, post s p a b = with_queue s (page_msg_head (post s p a b)) /\
  (page_msg_head s <> None -> queued (post s p a b) = queued s ++ l).
Proof.
  unfold post. destruct a.
  - unfold with_queue, queued. cbn. destruct (page_msg_head s) as [d |]; cbn.
    + destruct b; cbn; [exists [p] | exists []]; (split; [reflexivity |]); intros _; [reflexivity | now rewrite app_nil_r].
    + exists []. split; [reflexivity | contradiction].
  - exists []. split; [now destruct s | intros _; now rewrite app_nil_r].
Qed.

(** An animated switch whose pages cannot both tell that their animation has ended
    never ends: the turns do nothing any more and no other request is handled. *)
Theorem animation_stuck s s' p :
  page_head s <> None -> page_msg_head s <> None -> b_animing s = true -> anim_p s = Some p -> cannot_end s p ->
  later s s' ->
  b_animing s' = true /\ anim_p s' = Some p /\ calls s' = calls s /\ current_id s' = current_id s /\
  exists l, queued s' = queued s ++ l.
Proof.
  intros Hh Hq Hb Hp Hc L. induction L as [s | s s1 s2 E L IH | s q a b s2 L IH].
  - repeat (split; [assumption || reflexivity |]). exists []. now rewrite app_nil_r.
  - rewrite (stuck_task s p Hh Hb Hp Hc) in E. injection E as <-. auto.
  - destruct (post_queue s q a b) as (l1 & E & Q). specialize (Q Hq).
    assert (page_msg_head (post s q a b) <> None) as Hq'.
    { unfold post. destruct a; [| exact Hq]. cbn. destruct (page_msg_head s); [destruct b; discriminate | contradiction]. }
    rewrite E in IH. rewrite E in Q. destruct (IH Hh Hq' Hb Hp Hc) as (B & P & K & U & l & El).
    repeat (split; [assumption |]). exists (l1 ++ l). rewrite El, Q. symmetry. apply app_assoc.
Qed.
End Theorems.

(** ** The current page *)

Lemma node_byindex_nth {A} (ms : list A) i j :
  0 <= i -> i + Z.of_nat (length ms) < 2 ^ 31 -> (j < length ms)%nat -> node_byindex ms i (i + Z.of_nat j) = ms !! j.
Proof.
  revert i j. induction ms as [| a ms IH]; intros i j Hi Hl Hj; cbn [length] in *; [lia |]. cbn [node_byindex].
  destruct j as [| j].
  - rewrite Z.add_0_r, Z.eqb_refl. reflexivity.
  - destruct (Z.eqb_spec (i + Z.of_nat (S j)) i); [lia |]. rewrite s32_id by lia.
    replace (i + Z.of_nat (S j)) with (i + 1 + Z.of_nat j) by lia. rewrite IH by lia. reflexivity.
Qed.

(** The current page is the target of the last request that waits, whether or not
    it will be created; with none waiting, the last page that was created. *)
Theorem current_page_last s d ms p :
  page_msg_head s = Some d -> counted d -> members d = ms ++ [p] -> Z.of_nat (length ms) + 1 < 2 ^ 31 ->
  current_page s = Some (new_page p).
Proof.
  intros Hd Hc Hm Hl. unfold current_page. rewrite Hd. cbn [is_list_empty __db_list_get_num].
  unfold counted in Hc. rewrite Hc, Hm, length_app. cbn [length].
  replace (Z.of_nat (length ms + 1)) with (Z.of_nat (length ms) + 1) by lia.
  rewrite u32_id, (s32_id (Z.of_nat (length ms) + 1)) by lia. replace (Z.of_nat (length ms) + 1 - 1) with (Z.of_nat (length ms)) by lia. rewrite s32_id by lia.
  assert (((match ms ++ [p] with [] => 1 | _ => 0 end) =? 1) = false) as Hne by (destruct ms; reflexivity).
  rewrite Hne. unfold __db_list_search_node_byindex. cbn [is_list_empty]. rewrite Hm, Hne.
  change (Z.of_nat (length ms)) with (0 + Z.of_nat (length ms)).
  rewrite node_byindex_nth by (rewrite ?length_app; cbn [length]; lia).
  now rewrite list_lookup_middle.
Qed.

(** [page_uninit] frees the registered pages themselves, which the application
    declares [static]. *)
Lemma page_uninit_frees s h q :
  page_head s = Some h -> page_msg_head s = Some q -> page_uninit s = Some (members h, members q).
Proof. intros Hh Hq. unfold page_uninit. now rewrite Hh, Hq. Qed.

(** ** Examples *)

Definition ex_pages : gmap nat page_interface :=
  {[ 0%nat := PageInterface [on_create; on_destroy; on_show] 1 0; 1%nat := PageInterface [on_create; is_anim_end] 2 0 ]}.
Definition ex_answer (n : nat) : Z * list page_param := if (n =? 1)%nat then (-1, [Param CMD_SWITCH 2 1]) else (0, []).

Definition ex_queue (l : list page_param) : @db_list page_param := DbL true (u32 (Z.of_nat (length l))) [] l.

Definition ex_state (l : list page_param) (animing : option page_param) : st :=
  St (Some (DbL false 2 [] [PagePtr 0; PagePtr 1])) (Some (ex_queue l)) 1 animing
    (match animing with Some _ => true | None => false end) ex_pages [] [].

Lemma ex_wf l a : wf (ex_state l a).
Proof. constructor; cbn; try discriminate. destruct a; split; try discriminate; congruence. Qed.

Lemma page_task_fifo_witness :
  exists s' cs, page_task ex_answer (ex_state [Param CMD_SWITCH 1 2] None) = Some s' /\ wf s' /\
    calls s' = [] ++ cs /\ pending s' = [Param CMD_SWITCH 1 2] ++ posted ex_answer 0 (length cs).
Proof. exact (page_task_fifo ex_answer (ex_state [Param CMD_SWITCH 1 2] None) (ex_wf _ _)). Defined.

(** The creation of page 2 fails after page 1 was destroyed. *)
Lemma page_switch_witness :
  exists s', page_task ex_answer (ex_state [Param CMD_SWITCH 1 2] None) = Some s' /\
    calls s' = [(0%nat, on_destroy); (1%nat, on_create)] /\ current_id s' = 1 /\
    freed s' = [Param CMD_SWITCH 1 2] /\ b_animing s' = false.
Proof.
  exact (page_switch ex_answer (ex_state [Param CMD_SWITCH 1 2] None) (ex_queue [Param CMD_SWITCH 1 2]) (Param CMD_SWITCH 1 2) []
    (Some 0%nat) (Some 1%nat) (ex_wf _ _) eq_refl eq_refl eq_refl eq_refl eq_refl eq_refl).
Defined.

Lemma animation_stuck_witness :
  let s := ex_state [] (Some (Param CMD_ANIM_SWITCH 1 2)) in
  let s' := post s (Param CMD_SWITCH 2 1) true true in
  b_animing s' = true /\ anim_p s' = Some (Param CMD_ANIM_SWITCH 1 2) /\ calls s' = [] /\ current_id s' = 1 /\
  exists l, queued s' = [] ++ l.
Proof.
  apply (animation_stuck ex_answer (ex_state [] (Some (Param CMD_ANIM_SWITCH 1 2))) _ (Param CMD_ANIM_SWITCH 1 2));
    [discriminate | discriminate | reflexivity | reflexivity | |].
  - intros o n Ho Hn. injection Ho as <-. injection Hn as <-. reflexivity.
  - eapply later_task; [reflexivity |]. eapply later_post, later_refl.
Defined.

Lemma current_page_last_witness : current_page (ex_state [Param CMD_SWITCH 1 2; Param CMD_SWITCH 2 1] None) = Some 1.
Proof.
  exact (current_page_last (ex_state [Param CMD_SWITCH 1 2; Param CMD_SWITCH 2 1] None) _ [Param CMD_SWITCH 1 2] (Param CMD_SWITCH 2 1)
    eq_refl eq_refl eq_refl eq_refl).
Defined.
