(* ===== verification/Charset.v ===== *)
(** * Charset: the character set conversions of smartva

    Models [utf8.c], [utf16be.c], [charset.c] and the two conversions of [gbk.c] of
    [smartva/src/common/middle/va_lvgl/va_font].  Strings are converted character
    by character through a 16-bit code ([__u16]).  A source is the list of the
    bytes of memory from the source pointer on, which may be longer than the size
    the caller gives; a destination is the list of the bytes of its buffer.
    Reading or writing outside them is [None].  [long] has 32 bits; its left
    shifts wrap.  The tables of [gbk.c], eleven thousand lines of data, are the
    parameters [GbkTables]. *)
From S2P Require Import Prelude.

(** ** Memory *)

Definition get (m : list Z) (i : nat) : option Z := m !! i.
Definition put (m : list Z) (i : nat) (b : Z) : option (list Z) := if (i <? length m)%nat then Some (<[i := b]> m) else None.

(** ** UTF-8 *)

Record utf8_row := Row { cmask : Z; cval : Z; shift : Z; lmask : Z; lval : Z }.

Definition utf8_table : list utf8_row := [
  Row 0x80 0x00 0 0x7F 0;
  Row 0xE0 0xC0 6 0x7FF 0x80;
  Row 0xF0 0xE0 12 0xFFFF 0x800;
  Row 0xF8 0xF0 18 0x1FFFFF 0x10000;
  Row 0xFC 0xF8 24 0x3FFFFFF 0x200000;
  Row 0xFE 0xFC 30 0x7FFFFFFF 0x4000000].

(** The loop of [utf8_mbtowc]: [nc] rows were tried, [pos] is where [s] points.
    The result is the count or -1, and [*p]. *)
Fixpoint mbtowc_loop (rows : list utf8_row) (m : list Z) (c0 l n nc : Z) (pos : nat) (p : Z) : option (Z * Z) :=
  match rows with
  | [] => Some (-1, p)
  | t :: rows =>
      let nc := nc + 1 in
      if Z.land c0 (cmask t) =? cval t then
        let l := Z.land l (lmask t) in
        if l <? lval t then Some (-1, p) else Some (nc, u16 l)
      else if n <=? nc then Some (-1, p)
      else
        b ← get m (S pos);
        let c := Z.land (Z.lxor b 0x80) 0xFF in
        if negb (Z.land c 0xC0 =? 0) then Some (-1, p)
        else mbtowc_loop rows m c0 (s32 (Z.lor (Z.shiftl l 6) c)) n nc (S pos) p
  end.

Definition utf8_mbtowc (p : Z) (m : list Z) (n : Z) : option (Z * Z) :=
  c0 ← get m 0; mbtowc_loop utf8_table m c0 c0 n 0 0 p.

(** The bytes after the first: [c] counts down by 6. *)
Fixpoint wctomb_tail (k : nat) (l c : Z) (out : list Z) (pos : nat) : option (list Z) :=
  match k with
  | O => Some out
  | S k' =>
      let c := c - 6 in
      out ← put out (S pos) (u8 (Z.lor 0x80 (Z.land (Z.shiftr l c) 0x3F)));
      wctomb_tail k' l c out (S pos)
  end.

Fixpoint wctomb_loop (rows : list utf8_row) (out : list Z) (l maxlen nc : Z) : option (Z * list Z) :=
  match rows with
  | [] => Some (-1, out)
  | t :: rows =>
      if maxlen =? 0 then Some (-1, out)
      else
        let nc := nc + 1 in
        if l <=? lmask t then
          out ← put out 0 (u8 (Z.lor (cval t) (Z.shiftr l (shift t))));
          out ← wctomb_tail (Z.to_nat (shift t `div` 6)) l (shift t) out 0;
          Some (nc, out)
        else wctomb_loop rows out l (maxlen - 1) nc
  end.

Definition utf8_wctomb (out : list Z) (wc maxlen : Z) : option (Z * list Z) := wctomb_loop utf8_table out wc maxlen 0.

Definition UTF8_uni2char (uni : Z) (out : list Z) (boundlen : Z) : option (Z * list Z) :=
  r ← utf8_wctomb out uni (s32 boundlen);
  if r.1 =? -1 then out ← put r.2 0 63; Some (-1, out) else Some r.

Definition UTF8_char2uni (m : list Z) (boundlen uni : Z) : option (Z * Z) :=
  r ← utf8_mbtowc uni m (s32 boundlen);
  Some (if r.1 =? -1 then (-1, 0x3f) else r).

(** ** UTF-16, big endian *)

Definition UTF16BE_uni2char (uni : Z) (out : list Z) (boundlen : Z) : option (Z * list Z) :=
  if boundlen <=? 1 then Some (-1, out)
  else
    out ← put out 0 (Z.land (Z.shiftr uni 8) 0xFF);
    out ← put out 1 (Z.land uni 0xFF);
    Some (2, out).

Definition UTF16BE_char2uni (m : list Z) (boundlen uni : Z) : option (Z * Z) :=
  if boundlen <=? 1 then Some (-1, uni)
  else
    a ← get m 0;
    b ← get m 1;
    Some (2, u16 (Z.lor (Z.shiftl (Z.land a 0xFF) 8) (Z.land b 0xFF))).

(** ** GBK *)

(** The pages, 256 words or 512 bytes each; [None] is NULL. *)
Class GbkTables := {
  page_charset2uni : Z -> option (Z -> Z);
  page_uni2charset : Z -> option (Z -> Z);
  u2c_00 : Z -> Z;
}.

Definition ENAMETOOLONG : Z := 36.

Section Gbk.
Context `{GbkTables}.

Definition GBK_uni2char (uni : Z) (out : list Z) (boundlen : Z) : option (Z * list Z) :=
  let cl := Z.land uni 0xFF in
  let ch := Z.land (Z.shiftr uni 8) 0xFF in
  if boundlen <=? 0 then Some (-1, out)
  else if uni =? 0x20ac then out ← put out 0 0x80; Some (1, out)
  else if ch =? 0 then
    let out0 := u2c_00 (cl * 2) in
    let out1 := u2c_00 (cl * 2 + 1) in
    if (out0 =? 0) && (out1 =? 0) then
      if cl <? 0x80 then out ← put out 0 cl; Some (1, out) else Some (-1, out)
    else if boundlen <=? 1 then Some (- ENAMETOOLONG, out)
    else out ← put out 0 out0; out ← put out 1 out1; Some (2, out)
  else
    match page_uni2charset ch with
    | Some page =>
        if boundlen <=? 1 then Some (- ENAMETOOLONG, out)
        else
          out ← put out 0 (page (cl * 2));
          out ← put out 1 (page (cl * 2 + 1));
          Some (if (page (cl * 2) =? 0) && (page (cl * 2 + 1) =? 0) then -1 else 2, out)
    | None => Some (-1, out)
    end.

Definition GBK_char2uni (m : list Z) (boundlen uni : Z) : option (Z * Z) :=
  if boundlen <=? 0 then Some (-1, uni)
  else
    ch ← get m 0;
    let single := Some (1, if ch =? 0x80 then 0x20ac else ch) in
    if boundlen =? 1 then single
    else
      cl ← get m 1;
      match page_charset2uni ch with
      | Some page => if negb (cl =? 0) then Some (if page cl =? 0 then (-1, 0) else (2, page cl)) else single
      | None => single
      end.

(** ** Strings *)

Inductive conv := Done (n : Z) (dst : list Z) | Fault | OutOfFuel.

(** The loop that all conversions share: [m] and [dst] are the whole memories,
    [st] and [dt] the total lengths. *)
Fixpoint conv_loop (char2uni : list Z -> Z -> Z -> option (Z * Z)) (uni2char : Z -> list Z -> Z -> option (Z * list Z))
    (fuel : nat) (m : list Z) (src_size : Z) (dst : list Z) (dst_size st dt uni : Z) : conv :=
  match fuel with
  | O => OutOfFuel
  | S fuel' =>
      match char2uni (drop (Z.to_nat st) m) (u32 (src_size - st)) uni with
      | None => Fault
      | Some (n, uni) =>
          if n <=? 0 then Done dt dst
          else
            let st := st + n in
            match uni2char uni (drop (Z.to_nat dt) dst) (u32 (dst_size - dt)) with
            | None => Fault
            | Some (k, out) =>
                let dst := take (Z.to_nat dt) dst ++ out in
                if k <=? 0 then Done dt dst else conv_loop char2uni uni2char fuel' m src_size dst dst_size st (dt + k) uni
            end
      end
  end.

Inductive font_charset_e :=
  | CHARSET_ISO8859_1 | CHARSET_UCS_2 | CHARSET_UTF16BE | CHARSET_UTF_8 | CHARSET_ASCII | CHARSET_UNICODE | CHARSET_UTF_32
  | CHARSET_GBK | CHARSET_MAX.

Definition conver2uni (c : font_charset_e) : list Z -> Z -> Z -> option (Z * Z) :=
  match c with
  | CHARSET_UTF_8 => UTF8_char2uni
  | CHARSET_UTF16BE => UTF16BE_char2uni
  | CHARSET_GBK => GBK_char2uni
  | CHARSET_ISO8859_1 => GBK_char2uni
  | CHARSET_UCS_2 => UTF8_char2uni
  | _ => GBK_char2uni
  end.

(** The pointers are not NULL.  The fuel is one turn per byte of the destination
    and one to stop. *)
Definition font_conver_utf8 (src_charset : font_charset_e) (src : list Z) (src_size : Z) (dst : list Z) (dst_size : Z) : conv :=
  if (src_size =? 0) || (dst_size =? 0) then Done (-1) dst
  else conv_loop (conver2uni src_charset) UTF8_uni2char (S (Z.to_nat dst_size)) src src_size dst dst_size 0 0 0.

Definition GBK2UTF8 (src : list Z) (src_size : Z) (dst : list Z) (dst_size : Z) : conv :=
  if (src_size =? 0) || (dst_size =? 0) then Done 0 dst
  else conv_loop GBK_char2uni UTF8_uni2char (S (Z.to_nat dst_size)) src src_size dst dst_size 0 0 0.

Definition UTF82GBK (src : list Z) (src_size : Z) (dst : list Z) (dst_size : Z) : conv :=
  if (src_size =? 0) || (dst_size =? 0) then Done 0 dst
  else conv_loop UTF8_char2uni GBK_uni2char (S (Z.to_nat dst_size)) src src_size dst dst_size 0 0 0.
End Gbk.

(** ** UTF-8: the reference encoding *)

Definition utf8 (u : Z) : list Z :=
  if u <? 0x80 then [u]
  else if u <? 0x800 then [0xC0 + u / 64; 0x80 + u mod 64]
  else [0xE0 + u / 4096; 0x80 + u / 64 mod 64; 0x80 + u mod 64].

Lemma length_utf8 u : (1 <= length (utf8 u) <= 3)%nat.
Proof. unfold utf8. bool_cases; cbn; lia. Qed.

Lemma land_63 x : Z.land x 63 = x mod 64.
Proof. change 63 with (Z.ones 6). now rewrite Z.land_ones. Qed.

(** The marker bits of a byte and its payload. *)
Lemma marker x :
  0 <= x < 64 ->
  u8 (Z.lor 0x80 x) = 0x80 + x /\
  (x < 32 -> u8 (Z.lor 0xC0 x) = 0xC0 + x) /\ (x < 16 -> u8 (Z.lor 0xE0 x) = 0xE0 + x).
Proof.
  intros Hx.
  pose proof (range_forall (fun x => (u8 (Z.lor 0x80 x) =? 0x80 + x) && implb (x <? 32) (u8 (Z.lor 0xC0 x) =? 0xC0 + x)
     && implb (x <? 16) (u8 (Z.lor 0xE0 x) =? 0xE0 + x)) 0 64 x eq_refl Hx) as E. cbv beta in E.
  rewrite !andb_true_iff, !implb_true_iff, !Z.ltb_lt, !Z.eqb_eq in E. tauto.
Qed.

Lemma put_cons b m v : put (b :: m) 0 v = Some (v :: m).
Proof. reflexivity. Qed.

Lemma put_S b m i v : put (b :: m) (S i) v = (fun m => b :: m) <$> put m i v.
Proof. unfold put. cbn [length insert list_insert]. change (S i <? S (length m))%nat with (i <? length m)%nat. now destruct (i <? length m)%nat. Qed.

(** [utf8_wctomb] writes the reference encoding when it has the room, and nothing
    otherwise. *)
Lemma wctomb_spec out u maxlen :
  0 <= u < 65536 -> 0 <= maxlen -> (length (utf8 u) <= length out)%nat ->
  utf8_wctomb out u maxlen =
    Some (if Z.of_nat (length (utf8 u)) <=? maxlen then (Z.of_nat (length (utf8 u)), utf8 u ++ drop (length (utf8 u)) out)
          else (-1, out)).
Proof.
  intros Hu Hm. unfold utf8_wctomb, utf8_table, utf8.
  pose proof (Z.mod_pos_bound u 64 ltac:(lia)). pose proof (Z.mod_pos_bound (u / 64) 64 ltac:(lia)).
  destruct (Z.ltb_spec u 0x80); [| destruct (Z.ltb_spec u 0x800)]; cbn [length]; intros Ho.
  - destruct out as [| a out]; [cbn in Ho; lia |]. cbn [wctomb_loop lmask cval shift].
    destruct (Z.eqb_spec maxlen 0) as [-> | ?]; [reflexivity |].
    destruct (Z.leb_spec u 0x7F); [| lia]. rewrite put_cons. cbn [mbind option_bind].
    rewrite Z.shiftr_0_r, Z.lor_0_l, u8_id by lia. destruct (Z.leb_spec (Z.of_nat 1) maxlen); [reflexivity | lia].
  - destruct out as [| a [| b out]]; try (cbn in Ho; lia). cbn [wctomb_loop lmask cval shift].
    destruct (Z.eqb_spec maxlen 0) as [-> | ?]; [reflexivity |].
    destruct (Z.leb_spec u 0x7F); [lia |]. destruct (Z.eqb_spec (maxlen - 1) 0).
    { destruct (Z.leb_spec (Z.of_nat 2) maxlen); [lia | reflexivity]. }
    destruct (Z.leb_spec u 0x7FF); [| lia]. rewrite put_cons. cbn [mbind option_bind].
    change (Z.to_nat (6 `div` 6)) with 1%nat. cbn [wctomb_tail]. rewrite put_S, put_cons. cbn [mbind option_bind fmap option_fmap option_map].
    change (6 - 6) with 0. rewrite Z.shiftr_0_r, land_63, Z.shiftr_div_pow2 by lia. change (2 ^ 6) with 64.
    assert (0 <= u / 64 < 32) by (split; [apply Z.div_pos; lia | apply Z.div_lt_upper_bound; lia]).
    rewrite (proj1 (proj2 (marker (u / 64) ltac:(lia)))), (proj1 (marker (u mod 64) ltac:(lia))) by lia.
    destruct (Z.leb_spec (Z.of_nat 2) maxlen); [reflexivity | lia].
  - destruct out as [| a [| b [| c out]]]; try (cbn in Ho; lia). cbn [wctomb_loop lmask cval shift].
    destruct (Z.eqb_spec maxlen 0) as [-> | ?]; [reflexivity |].
    destruct (Z.leb_spec u 0x7F); [lia |]. destruct (Z.eqb_spec (maxlen - 1) 0).
    { destruct (Z.leb_spec (Z.of_nat 3) maxlen); [lia | reflexivity]. }
    destruct (Z.leb_spec u 0x7FF); [lia |]. destruct (Z.eqb_spec (maxlen - 1 - 1) 0).
    { destruct (Z.leb_spec (Z.of_nat 3) maxlen); [lia | reflexivity]. }
    destruct (Z.leb_spec u 0xFFFF); [| lia]. rewrite put_cons. cbn [mbind option_bind].
    change (Z.to_nat (12 `div` 6)) with 2%nat. cbn [wctomb_tail].
    rewrite !put_S, put_cons. cbn [mbind option_bind fmap option_fmap option_map].
    rewrite !put_S, put_cons. cbn [mbind option_bind fmap option_fmap option_map].
    change (12 - 6 - 6) with 0. change (12 - 6) with 6. rewrite Z.shiftr_0_r, !land_63, !Z.shiftr_div_pow2 by lia.
    change (2 ^ 6) with 64. change (2 ^ 12) with 4096.
    assert (0 <= u / 4096 < 16) by (split; [apply Z.div_pos; lia | apply Z.div_lt_upper_bound; lia]).
    rewrite (proj2 (proj2 (marker (u / 4096) ltac:(lia)))), !(fun x H => proj1 (marker x H)) by lia.
    destruct (Z.leb_spec (Z.of_nat 3) maxlen); [reflexivity | lia].
Qed.

Lemma wctomb_short out u maxlen :
  0 <= u < 65536 -> 0 <= maxlen < Z.of_nat (length (utf8 u)) -> utf8_wctomb out u maxlen = Some (-1, out).
Proof.
  intros Hu. unfold utf8_wctomb, utf8_table, utf8.
  destruct (Z.ltb_spec u 0x80); [| destruct (Z.ltb_spec u 0x800)]; cbn [length]; intros Hm; cbn [wctomb_loop lmask].
  all: repeat match goal with
    | |- context [?a =? 0] => destruct (Z.eqb_spec a 0); [reflexivity |]
    | |- context [?a <=? ?b] => destruct (Z.leb_spec a b); [lia |]
    end; lia.
Qed.

(** ** UTF-8: decoding *)

(** A continuation byte and its payload. *)
Lemma continuation y :
  0 <= y < 64 -> Z.land (Z.lxor (0x80 + y) 0x80) 0xFF = y /\ Z.land y 0xC0 = 0.
Proof.
  intros Hy.
  pose proof (range_forall (fun y => (Z.land (Z.lxor (0x80 + y) 0x80) 0xFF =? y) && (Z.land y 0xC0 =? 0)) 0 64 y eq_refl Hy) as E.
  cbv beta in E. rewrite andb_true_iff, !Z.eqb_eq in E. exact E.
Qed.

Lemma continuation_only b : byte_ok b -> Z.land (Z.land (Z.lxor b 0x80) 0xFF) 0xC0 = 0 ->
  b = 0x80 + Z.land (Z.lxor b 0x80) 0xFF /\ 0 <= Z.land (Z.lxor b 0x80) 0xFF < 64.
Proof.
  intros Hb Hc.
  pose proof (byte_forall (fun b => implb (Z.land (Z.land (Z.lxor b 0x80) 0xFF) 0xC0 =? 0)
    ((b =? 0x80 + Z.land (Z.lxor b 0x80) 0xFF) && (0 <=? Z.land (Z.lxor b 0x80) 0xFF) && (Z.land (Z.lxor b 0x80) 0xFF <? 64)))
    b eq_refl Hb) as E.
  cbv beta in E. rewrite implb_true_iff, !andb_true_iff, !Z.eqb_eq, Z.leb_le, Z.ltb_lt in E. intuition.
Qed.

(** The rows that a first byte matches. *)
Lemma first_byte b : byte_ok b ->
  ((Z.land b 0x80 =? 0) = (b <? 0x80)) /\ ((Z.land b 0xE0 =? 0xC0) = ((0xC0 <=? b) && (b <? 0xE0))) /\
  ((Z.land b 0xF0 =? 0xE0) = ((0xE0 <=? b) && (b <? 0xF0))).
Proof.
  intros Hb.
  pose proof (byte_forall (fun b => eqb (Z.land b 0x80 =? 0) (b <? 0x80) && eqb (Z.land b 0xE0 =? 0xC0) ((0xC0 <=? b) && (b <? 0xE0))
    && eqb (Z.land b 0xF0 =? 0xE0) ((0xE0 <=? b) && (b <? 0xF0))) b eq_refl Hb) as E.
  cbv beta in E. rewrite !andb_true_iff, !eqb_true_iff in E. tauto.
Qed.

Lemma shift_in a y : 0 <= y < 64 -> - 2 ^ 31 <= a * 64 + y < 2 ^ 31 -> s32 (Z.lor (Z.shiftl a 6) y) = a * 64 + y.
Proof.
  intros Hy Ha. rewrite Z.shiftl_mul_pow2, lor_low_bits by (cbn; lia). change (2 ^ 6) with 64. now apply s32_id.
Qed.

Lemma land_mask x k : 0 <= k -> Z.land x (2 ^ k - 1) = x mod 2 ^ k.
Proof. intros. replace (2 ^ k - 1) with (Z.ones k) by (rewrite Z.ones_equiv; lia). now rewrite Z.land_ones. Qed.

(** An ASCII byte is taken whatever the bound says. *)
Lemma mbtowc_ascii p b m n : 0 <= b < 0x80 -> utf8_mbtowc p (b :: m) n = Some (1, b).
Proof.
  intros Hb. unfold utf8_mbtowc. cbn [get lookup list_lookup mbind option_bind utf8_table mbtowc_loop cmask cval lmask lval].
  rewrite (proj1 (first_byte b ltac:(unfold byte_ok; lia))). destruct (Z.ltb_spec b 0x80); [| lia].
  change 0x7F with (2 ^ 7 - 1). rewrite land_mask, Z.mod_small by (cbn; lia). destruct (Z.ltb_spec b 0); [lia |].
  now rewrite u16_id by lia.
Qed.

(** A sequence of two or three bytes: the bounds, the continuation bytes and the
    shortest form are checked. *)
Lemma mbtowc_2 p x y m n :
  0 <= x < 32 -> 0 <= y < 64 -> 2 <= n ->
  utf8_mbtowc p (0xC0 + x :: 0x80 + y :: m) n = Some (if x * 64 + y <? 0x80 then (-1, p) else (2, x * 64 + y)).
Proof.
  intros Hx Hy Hn. unfold utf8_mbtowc. cbn [get lookup list_lookup mbind option_bind utf8_table mbtowc_loop cmask cval lmask lval].
  destruct (first_byte (0xC0 + x) ltac:(unfold byte_ok; lia)) as (-> & -> & _).
  destruct (Z.ltb_spec (0xC0 + x) 0x80); [lia |]. destruct (Z.leb_spec n (0 + 1)); [lia |].
  cbn [get lookup list_lookup mbind option_bind]. destruct (continuation y Hy) as [-> ->]. cbn [Z.eqb negb].
  destruct (Z.leb_spec 0xC0 (0xC0 + x)); [| lia]. destruct (Z.ltb_spec (0xC0 + x) 0xE0); [| lia]. cbn [andb].
  rewrite shift_in by lia. change 0x7FF with (2 ^ 11 - 1). rewrite land_mask by lia. change (2 ^ 11) with 2048.
  assert (((0xC0 + x) * 64 + y) mod 2048 = x * 64 + y) as -> by (symmetry; apply Z.mod_unique with 6; lia).
  rewrite u16_id by lia. now destruct (_ <? _).
Qed.

Lemma mbtowc_3 p x y z m n :
  0 <= x < 16 -> 0 <= y < 64 -> 0 <= z < 64 -> 3 <= n ->
  utf8_mbtowc p (0xE0 + x :: 0x80 + y :: 0x80 + z :: m) n =
    Some (if x * 4096 + y * 64 + z <? 0x800 then (-1, p) else (3, x * 4096 + y * 64 + z)).
Proof.
  intros Hx Hy Hz Hn. unfold utf8_mbtowc. cbn [get lookup list_lookup mbind option_bind utf8_table mbtowc_loop cmask cval lmask lval].
  destruct (first_byte (0xE0 + x) ltac:(unfold byte_ok; lia)) as (-> & -> & ->).
  destruct (Z.ltb_spec (0xE0 + x) 0x80); [lia |]. destruct (Z.leb_spec n (0 + 1)); [lia |].
  cbn [get lookup list_lookup mbind option_bind]. destruct (continuation y Hy) as [-> ->]. cbn [Z.eqb negb].
  destruct (Z.ltb_spec (0xE0 + x) 0xE0); [lia |]. rewrite andb_false_r. destruct (Z.leb_spec n (0 + 1 + 1)); [lia |].
  cbn [get lookup list_lookup mbind option_bind]. destruct (continuation z Hz) as [-> ->]. cbn [Z.eqb negb].
  destruct (Z.leb_spec 0xE0 (0xE0 + x)); [| lia]. destruct (Z.ltb_spec (0xE0 + x) 0xF0); [| lia]. cbn [andb].
  rewrite (shift_in (0xE0 + x) y), shift_in by lia. change 0xFFFF with (2 ^ 16 - 1). rewrite land_mask by lia. change (2 ^ 16) with 65536.
  assert ((((0xE0 + x) * 64 + y) * 64 + z) mod 65536 = x * 4096 + y * 64 + z) as ->
    by (symmetry; apply Z.mod_unique with 14; lia).
  rewrite u16_id by lia. now destruct (_ <? _).
Qed.

Lemma mbtowc_utf8 p u m n :
  0 <= u < 65536 -> Z.of_nat (length (utf8 u)) <= n -> utf8_mbtowc p (utf8 u ++ m) n = Some (Z.of_nat (length (utf8 u)), u).
Proof.
  intros Hu. pose proof (Z.mod_pos_bound u 64 ltac:(lia)). pose proof (Z.mod_pos_bound (u / 64) 64 ltac:(lia)).
  pose proof (Z.div_mod u 64 ltac:(lia)). pose proof (Z.div_mod (u / 64) 64 ltac:(lia)) as D. rewrite Z.div_div in D by lia.
  change (64 * 64) with 4096 in D. unfold utf8.
  destruct (Z.ltb_spec u 0x80); [| destruct (Z.ltb_spec u 0x800)]; cbn [length app]; intros Hn.
  - apply mbtowc_ascii. lia.
  - rewrite mbtowc_2 by lia. replace (u / 64 * 64 + u mod 64) with u by lia. destruct (Z.ltb_spec u 128); [lia | reflexivity].
  - rewrite mbtowc_3 by lia. replace (u / 4096 * 4096 + u / 64 mod 64 * 64 + u mod 64) with u by lia.
    destruct (Z.ltb_spec u 2048); [lia | reflexivity].
Qed.

(** What is decoded from at most three bytes is the shortest encoding of the
    character: stray, overlong and cut sequences are refused. *)
Theorem mbtowc_shortest p m n k u :
  bytes_ok m -> utf8_mbtowc p m n = Some (k, u) -> 0 < k <= 3 ->
  0 <= u < 65536 /\ exists rest, m = utf8 u ++ rest /\ k = Z.of_nat (length (utf8 u)) /\ (k = 1 \/ k <= n).
Proof.
  intros Hm E Hk. destruct m as [| b0 m]; [discriminate |]. apply Forall_cons_1 in Hm as [Hb0 Hm].
  destruct (Z.ltb_spec b0 0x80) as [H0 | H0].
  { unfold byte_ok in Hb0. rewrite mbtowc_ascii in E by lia. injection E as <- <-. split; [lia |].
    exists m. unfold utf8. destruct (Z.ltb_spec b0 0x80); [| lia]. cbn. auto. }
  assert (forall b m' x, m = b :: m' -> byte_ok b -> Z.land (Z.land (Z.lxor b 0x80) 0xFF) 0xC0 = 0 ->
    x = Z.land (Z.lxor b 0x80) 0xFF -> b = 0x80 + x /\ 0 <= x < 64) as Cont by (intros; subst; now apply continuation_only).
  pose proof E as E0. unfold utf8_mbtowc in E. cbn [get lookup list_lookup mbind option_bind utf8_table mbtowc_loop cmask cval lmask lval] in E.
  destruct (first_byte b0 Hb0) as (F1 & F2 & F3). rewrite F1, F2, F3 in E.
  destruct (Z.ltb_spec b0 0x80); [lia |]. destruct (Z.leb_spec n (0 + 1)); [injection E as <- _; lia |].
  destruct m as [| b1 m]; [discriminate |]. apply Forall_cons_1 in Hm as [Hb1 Hm]. cbn [get lookup list_lookup mbind option_bind] in E.
  destruct (Z.eqb_spec (Z.land (Z.land (Z.lxor b1 128) 255) 192) 0) as [C1 | ?]; [| injection E as <- _; lia].
  destruct (continuation_only b1 Hb1 C1) as [B1 Y]. cbn [negb] in E.
  set (y := Z.land (Z.lxor b1 128) 255) in *. clearbody y. subst b1.
  destruct ((0xC0 <=? b0) && (b0 <? 0xE0)) eqn:T2.
  { assert (b0 = 0xC0 + (b0 - 0xC0)) as Eb by lia. rewrite Eb in E0. rewrite mbtowc_2 in E0 by lia.
    destruct (Z.ltb_spec ((b0 - 0xC0) * 64 + y) 0x80); [injection E0 as <- _; lia |]. injection E0 as <- <-. split; [lia |].
    exists m. set (u := (b0 - 0xC0) * 64 + y) in *. unfold utf8.
    destruct (Z.ltb_spec u 128); [lia |]. destruct (Z.ltb_spec u 2048); [| lia].
    assert (u / 64 = b0 - 0xC0 /\ u mod 64 = y) as (-> & ->) by (unfold u; split; Z.to_euclidean_division_equations; lia).
    cbn [app length]. split; [f_equal; lia | lia]. }
  destruct (Z.leb_spec n (0 + 1 + 1)); [injection E as <- _; lia |].
  destruct m as [| b2 m]; [discriminate |]. apply Forall_cons_1 in Hm as [Hb2 Hm]. cbn [get lookup list_lookup mbind option_bind] in E.
  destruct (Z.eqb_spec (Z.land (Z.land (Z.lxor b2 128) 255) 192) 0) as [C2 | ?]; [| injection E as <- _; lia].
  destruct (continuation_only b2 Hb2 C2) as [B2 W]. cbn [negb] in E.
  set (z := Z.land (Z.lxor b2 128) 255) in *. clearbody z. subst b2.
  destruct ((0xE0 <=? b0) && (b0 <? 0xF0)) eqn:T3.
  { assert (b0 = 0xE0 + (b0 - 0xE0)) as Eb by lia. rewrite Eb in E0. rewrite mbtowc_3 in E0 by lia.
    destruct (Z.ltb_spec ((b0 - 0xE0) * 4096 + y * 64 + z) 0x800); [injection E0 as <- _; lia |]. injection E0 as <- <-. split; [lia |].
    exists m. set (u := (b0 - 0xE0) * 4096 + y * 64 + z) in *. unfold utf8.
    destruct (Z.ltb_spec u 128); [lia |]. destruct (Z.ltb_spec u 2048); [lia |].
    assert (u / 4096 = b0 - 0xE0 /\ u / 64 mod 64 = y /\ u mod 64 = z) as (-> & -> & ->)
      by (unfold u; repeat split; Z.to_euclidean_division_equations; lia).
    cbn [app length]. split; [f_equal; lia | lia]. }
  exfalso. clear -E Hk.
  repeat match type of E with
  | (if ?c then _ else _) = _ => destruct c
  | mbind _ (?l !! ?i) = _ => destruct (l !! i); [cbn [mbind option_bind] in E | discriminate E]
  end; injection E as <- _; lia.
Qed.

(** C38: The character conversions invert each other, for all 65536 codes and within
    any bounds that fit. *)
Theorem utf8_round_trip u out maxlen m n uni :
  0 <= u < 65536 -> Z.of_nat (length (utf8 u)) <= maxlen < 2 ^ 31 -> (length (utf8 u) <= length out)%nat ->
  Z.of_nat (length (utf8 u)) <= n < 2 ^ 31 ->
  UTF8_uni2char u out maxlen = Some (Z.of_nat (length (utf8 u)), utf8 u ++ drop (length (utf8 u)) out) /\
  UTF8_char2uni (utf8 u ++ m) n uni = Some (Z.of_nat (length (utf8 u)), u).
Proof.
  intros Hu Hm Ho Hn. unfold UTF8_uni2char, UTF8_char2uni. rewrite !s32_id by lia.
  rewrite wctomb_spec by lia. destruct (Z.leb_spec (Z.of_nat (length (utf8 u))) maxlen); [| lia].
  rewrite mbtowc_utf8 by lia. cbn [mbind option_bind fst].
  destruct (Z.eqb_spec (Z.of_nat (length (utf8 u))) (-1)); [lia |]. split; reflexivity.
Qed.

(** ** The conversion of strings *)

Definition encoded (us : list Z) : list Z := concat (map utf8 us).

(** [dec] reads the characters [us] from position [st] to position [st']. *)
Inductive reads (dec : list Z -> Z -> Z -> option (Z * Z)) (m : list Z) (src_size : Z) : Z -> list Z -> Z -> Prop :=
  | reads_nil st : reads dec m src_size st [] st
  | reads_cons st n u us st' :
      (forall uni, dec (drop (Z.to_nat st) m) (u32 (src_size - st)) uni = Some (n, u)) -> 0 < n -> 0 <= u < 65536 ->
      reads dec m src_size (st + n) us st' -> reads dec m src_size st (u :: us) st'.

Lemma uni2char_utf8 u out n :
  0 <= u < 65536 -> 0 <= n < 2 ^ 31 -> (length (utf8 u) <= length out)%nat -> Z.of_nat (length (utf8 u)) <= n ->
  UTF8_uni2char u out n = Some (Z.of_nat (length (utf8 u)), utf8 u ++ drop (length (utf8 u)) out).
Proof.
  intros Hu Hn Ho Hl. unfold UTF8_uni2char. rewrite s32_id, wctomb_spec by lia.
  destruct (Z.leb_spec (Z.of_nat (length (utf8 u))) n); [| lia]. cbn [mbind option_bind fst].
  destruct (Z.eqb_spec (Z.of_nat (length (utf8 u))) (-1)); [lia | reflexivity].
Qed.

Lemma conv_reads dec m src_size dst_size us st st' fuel dst dt uni :
  reads dec m src_size st us st' -> 0 <= dt -> dt + Z.of_nat (length (encoded us)) <= dst_size < 2 ^ 31 ->
  dst_size <= Z.of_nat (length dst) ->
  exists uni', conv_loop dec UTF8_uni2char (length us + fuel) m src_size dst dst_size st dt uni =
    conv_loop dec UTF8_uni2char fuel m src_size
      (take (Z.to_nat dt) dst ++ encoded us ++ drop (Z.to_nat dt + length (encoded us)) dst) dst_size st'
      (dt + Z.of_nat (length (encoded us))) uni'.
Proof.
  intros R. revert dst dt uni. induction R as [st | st n u us st' E Hn Hu R IH]; intros dst dt uni Hdt Hd Hl.
  { exists uni. cbn [encoded map concat length app Nat.add]. rewrite Nat.add_0_r, take_drop, Z.add_0_r. reflexivity. }
  cbn [encoded map concat] in Hd |- *. fold (encoded us) in *. rewrite length_app in *.
  pose proof (length_utf8 u) as Hlu. cbn [length Nat.add conv_loop]. rewrite E. destruct (Z.leb_spec n 0); [lia |].
  rewrite (u32_id (dst_size - dt)) by lia. rewrite uni2char_utf8 by (rewrite ?length_drop; lia).
  destruct (Z.leb_spec (Z.of_nat (length (utf8 u))) 0); [lia |].
  set (dst1 := take (Z.to_nat dt) dst ++ utf8 u ++ drop (length (utf8 u)) (drop (Z.to_nat dt) dst)).
  assert (length dst1 = length dst) as Hl1 by (unfold dst1; rewrite !length_app, length_take, !length_drop; lia).
  destruct (IH dst1 (dt + Z.of_nat (length (utf8 u))) u ltac:(lia) ltac:(lia) ltac:(lia)) as (uni' & ->).
  exists uni'. f_equal; [| lia].
  replace (Z.to_nat (dt + Z.of_nat (length (utf8 u)))) with (Z.to_nat dt + length (utf8 u))%nat by lia.
  assert (take (Z.to_nat dt + length (utf8 u)) dst1 = take (Z.to_nat dt) dst ++ utf8 u) as ->.
  { unfold dst1. rewrite app_assoc. apply take_app_length'. rewrite length_app, length_take. lia. }
  rewrite <- !app_assoc. do 3 f_equal. unfold dst1. rewrite app_assoc, drop_drop, drop_app_ge
    by (rewrite length_app, length_take; lia).
  rewrite drop_drop, length_app, length_take. f_equal. lia.
Qed.

(** A count is at most the room left. *)
Lemma wctomb_count rows out l maxlen nc k out' :
  wctomb_loop rows out l maxlen nc = Some (k, out') -> 0 <= nc -> 0 <= maxlen -> k = -1 \/ nc + 1 <= k <= nc + maxlen.
Proof.
  revert maxlen nc. induction rows as [| t rows IH]; intros maxlen nc; cbn [wctomb_loop]; [intros [= <- _]; auto |].
  destruct (Z.eqb_spec maxlen 0); [intros [= <- _]; auto |]. destruct (l <=? lmask t).
  - destruct (put out 0 _) as [out1 |]; [| discriminate]. cbn [mbind option_bind].
    destruct (wctomb_tail _ _ _ _ _); [| discriminate]. intros [= <- _]. lia.
  - intros E Hnc Hm. destruct (IH _ _ E); lia.
Qed.

Lemma UTF16BE_char2uni_u16 m n uni k u : UTF16BE_char2uni m n uni = Some (k, u) -> 0 < k -> 0 <= u < 65536.
Proof.
  unfold UTF16BE_char2uni. destruct (n <=? 1); [intros [= <- _]; lia |].
  destruct (get m 0); [| discriminate]. cbn [mbind option_bind]. destruct (get m 1); [| discriminate].
  intros [= _ <-] _. apply u16_range.
Qed.

Lemma mbtowc_u16 rows m c0 l n nc pos p k u : mbtowc_loop rows m c0 l n nc pos p = Some (k, u) -> 0 < k -> 0 <= u < 65536.
Proof.
  revert l nc pos. induction rows as [| t rows IH]; intros l nc pos; cbn [mbtowc_loop]; [intros [= <- _]; lia |].
  destruct (_ =? cval t).
  { destruct (_ <? lval t); [intros [= <- _]; lia |]. intros [= _ <-] _. apply u16_range. }
  destruct (n <=? nc + 1); [intros [= <- _]; lia |].
  destruct (get m (S pos)) as [b |]; [| discriminate]. cbn [mbind option_bind].
  destruct (negb _); [intros [= <- _]; lia |]. apply IH.
Qed.

Lemma UTF8_char2uni_u16 m n uni k u : UTF8_char2uni m n uni = Some (k, u) -> 0 < k -> 0 <= u < 65536.
Proof.
  unfold UTF8_char2uni, utf8_mbtowc. destruct (get m 0) as [c0 |]; [| discriminate]. cbn [mbind option_bind].
  destruct (mbtowc_loop _ _ _ _ _ _ _ _) as [[k' u'] |] eqn:E; [| discriminate]. cbn [mbind option_bind fst].
  destruct (Z.eqb_spec k' (-1)); intros [= <- <-] Hk; [lia |]. exact (mbtowc_u16 _ _ _ _ _ _ _ _ _ _ E Hk).
Qed.

(** Any conversion to UTF-8 with a destination of exactly [dst_size] bytes that
    the text fills and a character left: the mark of the failure is written behind
    the buffer. *)
Lemma conv_full dec m src_size dst_size us st st' n u fuel dst uni :
  reads dec m src_size st us st' -> (forall uni, dec (drop (Z.to_nat st') m) (u32 (src_size - st')) uni = Some (n, u)) ->
  0 < n -> 0 <= u < 65536 ->
  Z.of_nat (length (encoded us)) = dst_size -> dst_size = Z.of_nat (length dst) -> dst_size < 2 ^ 31 ->
  conv_loop dec UTF8_uni2char (length us + S fuel) m src_size dst dst_size st 0 uni = Fault.
Proof.
  intros R E Hn Hu Hd Hl Hs.
  destruct (conv_reads dec m src_size dst_size us st st' (S fuel) dst 0 uni R ltac:(lia) ltac:(lia) ltac:(lia)) as (uni' & ->).
  cbn [conv_loop]. rewrite E. destruct (Z.leb_spec n 0); [lia |]. rewrite Z.add_0_l, Hd, Z.sub_diag.
  change (u32 0) with 0. change (Z.to_nat 0) with 0%nat. rewrite take_0. cbn [Nat.add app].
  assert (drop (Z.to_nat dst_size) (encoded us ++ drop (length (encoded us)) dst) = []) as ->.
  { apply drop_ge. rewrite length_app, length_drop. lia. }
  unfold UTF8_uni2char. change (s32 0) with 0. rewrite wctomb_short by (pose proof (length_utf8 u); lia). reflexivity.
Qed.

Section Strings.
Context `{GbkTables}.

(** The destination bytes bound the turns: every conversion to UTF-8 ends. *)
Lemma conv_ends dec m src_size dst_size fuel st dt uni dst :
  0 <= dt <= dst_size -> dst_size < 2 ^ 31 -> dst_size - dt < Z.of_nat fuel ->
  (forall i n uni k u, dec (drop i m) n uni = Some (k, u) -> 0 < k -> 0 <= u < 65536) ->
  conv_loop dec UTF8_uni2char fuel m src_size dst dst_size st dt uni <> OutOfFuel.
Proof.
  intros Hdt Hd Hf Hdec. revert st dt uni dst Hdt Hf. induction fuel as [| fuel IH]; intros st dt uni dst Hdt Hf; [lia |].
  cbn [conv_loop]. destruct (dec _ _ _) as [[n u] |] eqn:E; [| discriminate].
  destruct (Z.leb_spec n 0); [discriminate |]. apply Hdec in E; [| assumption]. rewrite u32_id by lia.
  destruct (UTF8_uni2char u _ _) as [[k out] |] eqn:E'; [| discriminate]. destruct (Z.leb_spec k 0); [discriminate |].
  unfold UTF8_uni2char in E'. rewrite s32_id in E' by lia.
  destruct (Z.lt_ge_cases (dst_size - dt) (Z.of_nat (length (utf8 u)))) as [Hlt | Hge].
  - rewrite wctomb_short in E' by lia. cbn [mbind option_bind fst] in E'. rewrite Z.eqb_refl in E'.
    destruct (put _ 0 63); [| discriminate]. injection E' as <- _. lia.
  - destruct (utf8_wctomb _ u (dst_size - dt)) as [[k' out'] |] eqn:W; [| discriminate]. cbn [mbind option_bind fst] in E'.
    assert (k' = -1 \/ 1 <= k' <= dst_size - dt) as Hk'.
    { unfold utf8_wctomb in W. apply wctomb_count in W; lia. }
    destruct (Z.eqb_spec k' (-1)).
    + destruct (put _ 0 63); [| discriminate]. injection E' as <- _. lia.
    + injection E' as <- _. apply IH; lia.
Qed.
(** Every conversion to UTF-8 ends, whatever the bytes. *)
Theorem font_conver_utf8_ends c src src_size dst dst_size :
  c = CHARSET_UTF_8 \/ c = CHARSET_UTF16BE \/ c = CHARSET_UCS_2 -> 0 <= dst_size < 2 ^ 31 ->
  font_conver_utf8 c src src_size dst dst_size <> OutOfFuel.
Proof.
  intros Hc Hd. unfold font_conver_utf8. destruct (_ || _); [discriminate |].
  apply conv_ends; [lia | lia | lia |]. intros i n uni k u E Hk.
  destruct Hc as [-> | [-> | ->]]; cbn [conver2uni] in E;
    [exact (UTF8_char2uni_u16 _ _ _ _ _ E Hk) | exact (UTF16BE_char2uni_u16 _ _ _ _ _ E Hk) | exact (UTF8_char2uni_u16 _ _ _ _ _ E Hk)].
Qed.

(** The bytes of a text in UTF-16, big endian. *)
Definition utf16be (us : list Z) : list Z := concat (map (fun u => [u / 256; u mod 256]) us).

Lemma length_utf16be us : length (utf16be us) = (2 * length us)%nat.
Proof. induction us as [| u us IH]; [reflexivity |]. unfold utf16be in *. cbn [map concat app length]. lia. Qed.

Lemma reads_utf16be pre us rest size :
  Forall (fun u => 0 <= u < 65536) us -> size = Z.of_nat (length pre + 2 * length us) -> size < 2 ^ 32 ->
  reads UTF16BE_char2uni (pre ++ utf16be us ++ rest) size (Z.of_nat (length pre)) us size.
Proof.
  intros Hus. revert pre. induction Hus as [| u us Hu Hus IH]; intros pre Es Hs.
  - cbn [length] in Es. replace size with (Z.of_nat (length pre)) by lia. constructor.
  - change (utf16be (u :: us)) with ([u / 256; u mod 256] ++ utf16be us). cbn [length] in Es.
    apply reads_cons with 2; [| lia | assumption |].
    + intros uni. rewrite Nat2Z.id, drop_app_length. unfold UTF16BE_char2uni. rewrite u32_id by lia.
      destruct (Z.leb_spec (size - Z.of_nat (length pre)) 1); [lia |]. cbn [get app lookup list_lookup mbind option_bind].
      rewrite !land_255, (Z.mod_small (u / 256)), Zmod_mod by (split; [apply Z.div_pos; lia | apply Z.div_lt_upper_bound; lia]).
      rewrite Z.shiftl_mul_pow2, lor_low_bits by (lia || (change (2 ^ 8) with 256; apply Z.mod_pos_bound; lia)).
      change (2 ^ 8) with 256. pose proof (Z.div_mod u 256 ltac:(lia)). rewrite u16_id by lia. do 2 f_equal. lia.
    + rewrite <- app_assoc. rewrite (app_assoc pre). replace (Z.of_nat (length pre) + 2) with (Z.of_nat (length (pre ++ [u / 256; u mod 256])))
        by (rewrite length_app; cbn [length]; lia).
      apply IH; [| assumption]. rewrite length_app. cbn [length]. lia.
Qed.

(** UTF-16 becomes the UTF-8 of the same characters, and the conversion stops at
    the end of the source, when the result fits. *)
Theorem utf16_to_utf8 us rest dst dst_size :
  Forall (fun u => 0 <= u < 65536) us -> us <> [] -> Z.of_nat (length us) < 2 ^ 31 ->
  Z.of_nat (length (encoded us)) <= dst_size < 2 ^ 31 -> dst_size <= Z.of_nat (length dst) ->
  font_conver_utf8 CHARSET_UTF16BE (utf16be us ++ rest) (2 * Z.of_nat (length us)) dst dst_size =
    Done (Z.of_nat (length (encoded us))) (encoded us ++ drop (length (encoded us)) dst).
Proof.
  intros Hus Hne Hl Hd Hdst. assert (0 < length us)%nat by (destruct us; [contradiction | cbn; lia]).
  assert (length us <= length (encoded us))%nat as Hle.
  { clear. induction us as [| u us IH]; [reflexivity |]. unfold encoded in *. cbn [map concat length]. rewrite length_app.
    pose proof (length_utf8 u). lia. }
  unfold font_conver_utf8. destruct (Z.eqb_spec (2 * Z.of_nat (length us)) 0); [lia |]. destruct (Z.eqb_spec dst_size 0); [lia |].
  cbn [orb conver2uni]. set (size := 2 * Z.of_nat (length us)).
  pose proof (reads_utf16be [] us rest size Hus ltac:(unfold size; cbn [length]; lia) ltac:(unfold size; lia)) as R.
  cbn [app length] in R. change (Z.of_nat 0) with 0 in R.
  replace (S (Z.to_nat dst_size)) with (length us + S (Z.to_nat dst_size - length us))%nat by lia.
  destruct (conv_reads _ _ _ dst_size _ _ _ (S (Z.to_nat dst_size - length us)) dst 0 0 R ltac:(lia) ltac:(lia) ltac:(lia)) as (uni' & ->).
  cbn [conv_loop]. rewrite Z.sub_diag. change (u32 0) with 0. unfold UTF16BE_char2uni.
  change (Z.to_nat 0) with 0%nat. rewrite take_0. reflexivity.
Qed.

Lemma reads_utf8 pre us rest size :
  Forall (fun u => 0 <= u < 65536) us -> size = Z.of_nat (length pre + length (encoded us)) -> size < 2 ^ 31 ->
  reads UTF8_char2uni (pre ++ encoded us ++ rest) size (Z.of_nat (length pre)) us size.
Proof.
  intros Hus. revert pre. induction Hus as [| u us Hu Hus IH]; intros pre Es Hs.
  - cbn [encoded map concat length] in Es. replace size with (Z.of_nat (length pre)) by lia. constructor.
  - change (encoded (u :: us)) with (utf8 u ++ encoded us) in *. rewrite length_app in Es. pose proof (length_utf8 u).
    apply reads_cons with (Z.of_nat (length (utf8 u))); [| lia | assumption |].
    + intros uni. rewrite Nat2Z.id, drop_app_length, <- app_assoc. unfold UTF8_char2uni.
      rewrite u32_id, s32_id, mbtowc_utf8 by lia. cbn [mbind option_bind fst].
      destruct (Z.eqb_spec (Z.of_nat (length (utf8 u))) (-1)); [lia | reflexivity].
    + rewrite <- app_assoc. rewrite (app_assoc pre). rewrite <- Nat2Z.inj_add, <- length_app.
      apply IH; [rewrite length_app; lia | assumption].
Qed.

Lemma encoded_zeros k : encoded (replicate k 0) = replicate k 0.
Proof. induction k as [| k IH]; [reflexivity |]. cbn [replicate]. unfold encoded in *. cbn [map concat]. now rewrite IH. Qed.

(** Past its end the source is read on: an ASCII byte needs no room. *)
Lemma reads_zeros size k m st :
  0 <= st -> (forall i, (i < k)%nat -> m !! (Z.to_nat st + i)%nat = Some 0) ->
  reads UTF8_char2uni m size st (replicate k 0) (st + Z.of_nat k).
Proof.
  revert st. induction k as [| k IH]; intros st Hst Hm; [rewrite Z.add_0_r; constructor |].
  cbn [replicate]. apply reads_cons with 1; [| lia | lia |].
  - intros uni. specialize (Hm 0%nat ltac:(lia)). rewrite Nat.add_0_r in Hm.
    rewrite (drop_S m 0 (Z.to_nat st)) by exact Hm. unfold UTF8_char2uni. rewrite mbtowc_ascii by lia. reflexivity.
  - replace (st + Z.of_nat (S k)) with (st + 1 + Z.of_nat k) by lia. apply IH; [lia |].
    intros i Hi. replace (Z.to_nat (st + 1) + i)%nat with (Z.to_nat st + S i)%nat by lia. apply Hm. lia.
Qed.

Lemma reads_app dec m size st us1 st1 us2 st2 :
  reads dec m size st us1 st1 -> reads dec m size st1 us2 st2 -> reads dec m size st (us1 ++ us2) st2.
Proof. induction 1; [auto |]. intros R. cbn [app]. econstructor; eauto. Qed.

Lemma encoded_app us1 us2 : encoded (us1 ++ us2) = encoded us1 ++ encoded us2.
Proof. unfold encoded. now rewrite map_app, concat_app. Qed.

(** A conversion from UTF-8 does not stop at the end of its source: with a source
    that ends in NULs, as a C string does, it fills the destination and then
    writes behind it. *)
Theorem utf8_source_overruns us dst zeros :
  Forall (fun u => 0 <= u < 65536) us -> us <> [] ->
  (length (encoded us) <= length dst < zeros)%nat -> Z.of_nat (length dst) < 2 ^ 31 ->
  font_conver_utf8 CHARSET_UTF_8 (encoded us ++ replicate zeros 0) (Z.of_nat (length (encoded us))) dst (Z.of_nat (length dst)) = Fault.
Proof.
  intros Hus Hne Hl Hd. set (len := length (encoded us)) in *. set (k := (length dst - len)%nat).
  assert (length us <= len)%nat as Hle.
  { unfold len. clear. induction us as [| u us IH]; [reflexivity |]. unfold encoded in *. cbn [map concat length]. rewrite length_app.
    pose proof (length_utf8 u). lia. }
  assert (0 < length us)%nat by (destruct us; [contradiction | cbn; lia]).
  unfold font_conver_utf8. destruct (Z.eqb_spec (Z.of_nat len) 0); [lia |]. destruct (Z.eqb_spec (Z.of_nat (length dst)) 0); [lia |].
  cbn [orb conver2uni]. set (m := encoded us ++ replicate zeros 0).
  assert (forall i, (i < zeros)%nat -> m !! (len + i)%nat = Some 0) as Hz.
  { intros i Hi. unfold m. rewrite lookup_app_r by (unfold len; lia). apply lookup_replicate. split; [reflexivity | unfold len; lia]. }
  pose proof (reads_utf8 [] us (replicate zeros 0) (Z.of_nat len) Hus ltac:(reflexivity) ltac:(lia)) as R1.
  cbn [app length] in R1. change (Z.of_nat 0) with 0 in R1. fold m in R1.
  pose proof (reads_zeros (Z.of_nat len) k m (Z.of_nat len) ltac:(lia) ltac:(intros; rewrite Nat2Z.id; apply Hz; lia)) as R2.
  pose proof (reads_app _ _ _ _ _ _ _ _ R1 R2) as R.
  replace (S (Z.to_nat (Z.of_nat (length dst)))) with (length (us ++ replicate k 0%Z) + S (length dst - length us - k))%nat
    by (rewrite length_app, length_replicate; lia).
  apply (conv_full _ _ _ _ _ _ _ 1 0 _ _ _ R); [| lia | lia | | reflexivity | assumption].
  - intros uni. replace (Z.to_nat (Z.of_nat len + Z.of_nat k)) with (len + k)%nat by lia.
    rewrite (drop_S m 0) by (apply Hz; lia). unfold UTF8_char2uni. rewrite mbtowc_ascii by lia. reflexivity.
  - rewrite encoded_app, encoded_zeros, length_app, length_replicate. fold len. lia.
Qed.
End Strings.

(** ** Examples *)

(** No page at all. *)
Definition no_tables : GbkTables := {| page_charset2uni := fun _ => None; page_uni2charset := fun _ => None; u2c_00 := fun _ => 0 |}.

(** Codes above 16 bits are cut, not refused: U+10041 is read as the letter A. *)
Example beyond_bmp : UTF8_char2uni [0xF0; 0x90; 0x81; 0x81] 4 0 = Some (4, 0x41).
Proof. reflexivity. Qed.

Lemma utf8_round_trip_witness :
  UTF8_uni2char 0x20AC (replicate 4 0) 4 = Some (3, [0xE2; 0x82; 0xAC; 0]) /\ UTF8_char2uni [0xE2; 0x82; 0xAC; 0] 3 0 = Some (3, 0x20AC).
Proof. exact (utf8_round_trip 0x20AC (replicate 4 0) 4 [0] 3 0 ltac:(lia) ltac:(by_compute) ltac:(by_compute) ltac:(by_compute)). Defined.

Lemma mbtowc_shortest_witness :
  exists rest, [0xC3; 0xA9; 0x21] = utf8 0xE9 ++ rest.
Proof.
  destruct (mbtowc_shortest 0 [0xC3; 0xA9; 0x21] 3 2 0xE9) as (_ & rest & E & _); [by_compute | reflexivity | lia |].
  now exists rest.
Defined.

Lemma font_conver_utf8_ends_witness :
  @font_conver_utf8 no_tables CHARSET_UTF_8 (replicate 20 65) 5 (replicate 10 0) 10 <> OutOfFuel.
Proof. apply (@font_conver_utf8_ends no_tables CHARSET_UTF_8); [now left | lia]. Defined.

Lemma utf16_to_utf8_witness :
  @font_conver_utf8 no_tables CHARSET_UTF16BE [0x00; 0x41; 0x4E; 0x2D; 1; 2; 3] 4 (replicate 8 0) 8 = Done 4 [0x41; 0xE4; 0xB8; 0xAD; 0; 0; 0; 0].
Proof.
  exact (@utf16_to_utf8 no_tables [0x41; 0x4E2D] [1; 2; 3] (replicate 8 0) 8 ltac:(by_compute) ltac:(by_compute) ltac:(by_compute)
    ltac:(by_compute) ltac:(by_compute)).
Defined.

Lemma utf8_source_overruns_witness :
  @font_conver_utf8 no_tables CHARSET_UTF_8 ([0x41; 0x42] ++ replicate 9 0) 2 (replicate 8 255) 8 = Fault.
Proof.
  exact (@utf8_source_overruns no_tables [0x41; 0x42] (replicate 8 255) 9 ltac:(by_compute) ltac:(by_compute) ltac:(by_compute)
    ltac:(by_compute)).
Defined.
