(* ===== verification/Owipcalc.v ===== *)
(** * Owipcalc: the address calculator, one operation at a time

    Models [feeds/net/owipcalc/src/owipcalc.c].  A [struct cidr] holds its
    address as the sixteen bytes of the union (an IPv4 address is the first
    four); [s_addr] is those four bytes as the little-endian machine reads them.
    Every operation works on the top of a stack of results, which the program's
    pointer [a] always designates.  Shifting an [int] by 32 or more, a byte past
    the union and the top of an empty stack are [Undefined]; the other [int]
    operations wrap, as the compilers of the tree define them.  [strtoul] and the
    dotted notation are modelled; the notation of IPv6 addresses is a parameter. *)
From S2P Require Import Prelude CString.

Inductive af := AF_INET | AF_INET6.

#[global] Instance af_eq_dec : EqDecision af.
Proof. solve_decision. Defined.

Record cidr := Cidr { family : af; prefix : Z; addr : list Z }.

(** The globals and what was printed. *)
Record calc := Calc { stack : list cidr; quiet : bool; printed : bool; output : list Z }.

Definition with_stack (s : calc) (l : list cidr) : calc := Calc l (quiet s) (printed s) (output s).

(** A computation returns, leaves through [exit], or has no defined meaning. *)
Inductive res (A : Type) :=
  | Val (a : A) (s : calc)
  | Exited (code : Z) (s : calc)
  | Undefined.
Arguments Val {A} a s.
Arguments Exited {A} code s.
Arguments Undefined {A}.

Definition C (A : Type) : Type := calc -> res A.
Definition ret {A} (a : A) : C A := fun s => Val a s.
Definition undefined {A} : C A := fun _ => Undefined.
Definition exit {A} (code : Z) : C A := fun s => Exited code s.
Definition bind {A B} (m : C A) (k : A -> C B) : C B := fun s =>
  match m s with
  | Val a s' => k a s'
  | Exited code s' => Exited code s'
  | Undefined => Undefined
  end.

Declare Scope calc_scope.
Delimit Scope calc_scope with calc.
Notation "x <- m ; k" := (bind m (fun x => k)) (at level 100, m at next level, right associativity) : calc_scope.
Notation "m ;; k" := (bind m (fun _ => k)) (at level 100, right associativity) : calc_scope.
#[local] Open Scope calc_scope.

(** ** The stack and the output *)

Definition top : C cidr := fun s =>
  match stack s with
  | a :: _ => Val a s
  | [] => Undefined
  end.

Definition cidr_push (a : cidr) : C unit := fun s => Val tt (with_stack s (a :: stack s)).

Definition cidr_pop : C bool := fun s =>
  match stack s with
  | _ :: l => Val true (with_stack s l)
  | [] => Val false s
  end.

(** Change the top in place. *)
Definition set_top (n : cidr) : C unit := fun s =>
  match stack s with
  | _ :: l => Val tt (with_stack s (n :: l))
  | [] => Undefined
  end.

(** [cidr_clone(a)], [a] being the top: the copy becomes the top. *)
Definition cidr_clone : C cidr := a <- top; cidr_push a;; ret a.

Definition qprintf (text : list Z) : C unit := fun s =>
  Val tt (Calc (stack s) (quiet s) true (if quiet s then output s else output s ++ text)).

(** The separator that every printing operation puts first. *)
Definition separator : C unit := fun s => if printed s then qprintf [32] s else Val tt s.

(** Print 1 or 0 and return it. *)
Definition verdict (b : bool) : C bool := qprintf [if b then 49 else 48];; ret b.

(** ** IPv4 words *)

Definition htonl (x : Z) : Z := le_combine (be_split 4 x).
Definition ntohl (x : Z) : Z := be_combine (le_split 4 x).

Definition s_addr (c : cidr) : Z := le_combine (take 4 (addr c)).
Definition with_s_addr (c : cidr) (x : Z) : cidr := Cidr (family c) (prefix c) (le_split 4 x ++ drop 4 (addr c)).
Definition with_prefix (c : cidr) (p : Z) : cidr := Cidr (family c) p (addr c).

(** [1 << n] as an [int]; the count is an [uint32_t]. *)
Definition shl1 (n : Z) : option Z := if n <? 32 then Some (s32 (2 ^ n)) else None.
(** [1 << (32 - prefix)] and [(1 << (32 - prefix)) - 1]. *)
Definition block4 (p : Z) : option Z := shl1 (u32 (32 - p)).
Definition hostmask4 (p : Z) : option Z := (fun v => s32 (v - 1)) <$> block4 p.

Definition of_option {A} (o : option A) : C A := match o with Some a => ret a | None => undefined end.

(** ** Operations on IPv4 addresses *)

Definition cidr_add4 (b : cidr) : C bool :=
  a <- top;
  let x := ntohl (s_addr a) in
  let y := ntohl (s_addr b) in
  n <- cidr_clone;
  if negb (bool_decide (family n = AF_INET)) || negb (bool_decide (family b = AF_INET)) then ret false
  else if u32 (x + y) <? x then ret false
  else set_top (with_s_addr n (htonl (u32 (x + y))));; ret true.

Definition cidr_sub4 (b : cidr) : C bool :=
  a <- top;
  let x := ntohl (s_addr a) in
  let y := ntohl (s_addr b) in
  n <- cidr_clone;
  if negb (bool_decide (family n = AF_INET)) || negb (bool_decide (family b = AF_INET)) then ret false
  else if x <? u32 (x - y) then ret false
  else set_top (with_s_addr n (htonl (u32 (x - y))));; ret true.

Definition cidr_network4 : C bool :=
  n <- cidr_clone;
  m <- of_option (hostmask4 (prefix n));
  set_top (with_prefix (with_s_addr n (Z.land (s_addr n) (htonl (u32 (Z.lnot m))))) 32);; ret true.

Definition cidr_broadcast4 : C bool :=
  n <- cidr_clone;
  m <- of_option (hostmask4 (prefix n));
  set_top (with_prefix (with_s_addr n (Z.lor (s_addr n) (htonl (u32 m)))) 32);; ret true.

Definition cidr_contains4 (b : cidr) : C bool :=
  a <- top;
  m <- of_option (hostmask4 (prefix a));
  let net1 := Z.land (s_addr a) (htonl (u32 (Z.lnot m))) in
  let net2 := Z.land (s_addr b) (htonl (u32 (Z.lnot m))) in
  separator;;
  verdict ((prefix a =? 0) || ((prefix a <=? prefix b) && (net1 =? net2))).

Definition cidr_netmask4 : C bool :=
  n <- cidr_clone;
  m <- of_option (hostmask4 (prefix n));
  set_top (with_prefix (with_s_addr n (htonl (u32 (Z.lnot m)))) 32);; ret true.

Definition between (lo hi x : Z) : bool := (lo <=? x) && (x <=? hi).

Definition cidr_private4 : C bool :=
  a <- top;
  let x := ntohl (s_addr a) in
  separator;;
  verdict (between 0x0A000000 0x0AFFFFFF x || between 0xAC100000 0xAC1FFFFF x || between 0xC0A80000 0xC0A8FFFF x).

Definition cidr_linklocal4 : C bool :=
  a <- top;
  let x := ntohl (s_addr a) in
  separator;;
  verdict (between 0xA9FE0000 0xA9FEFFFF x).

(** The step is added to the word as the machine holds it, not as the network
    does. *)
Definition cidr_prev4 (b : cidr) : C bool :=
  n <- cidr_clone;
  v <- of_option (block4 (prefix b));
  set_top (with_s_addr (with_prefix n (prefix b)) (u32 (s_addr n - htonl (u32 v))));; ret true.

Definition cidr_next4 (b : cidr) : C bool :=
  n <- cidr_clone;
  v <- of_option (block4 (prefix b));
  set_top (with_s_addr (with_prefix n (prefix b)) (u32 (s_addr n + htonl (u32 v))));; ret true.

Definition cidr_6to4 : C bool :=
  n <- cidr_clone;
  let x := s_addr n in
  set_top (Cidr AF_INET6 48
    ([0x20; 0x02; u8 (Z.shiftr x 24); Z.land (Z.shiftr x 16) 0xff; Z.land (Z.shiftr x 8) 0xff; Z.land x 0xff]
     ++ replicate 10 0));; ret true.

(** ** Operations on IPv6 addresses *)

(** The [do] loop of add and sub, from byte [idx] down to byte 0: [f] gives the
    byte and the carry from the two bytes and the carry; the bytes are listed
    from [idx] down. *)
Fixpoint carry_loop (f : Z -> Z -> Z -> Z * Z) (x y : list Z) (carry : Z) : list Z * Z :=
  match x, y with
  | a :: x, b :: y =>
      let '(v, carry) := f a b carry in
      let '(vs, carry) := carry_loop f x y carry in (v :: vs, carry)
  | _, _ => ([], carry)
  end.

Definition add_byte (a b carry : Z) : Z * Z := (u8 (a + b + carry), if 256 <=? a + b + carry then 1 else 0).
Definition sub_byte (a b carry : Z) : Z * Z := (u8 (a - (b + carry)), if a - b - carry <? 0 then 1 else 0).

(** The loop on an address: the new address and the carry left. *)
Definition carry_addr (f : Z -> Z -> Z -> Z * Z) (x y : list Z) (carry : Z) : list Z * Z :=
  let '(v, carry) := carry_loop f (rev x) (rev y) carry in (rev v, carry).

Definition with_addr (c : cidr) (l : list Z) : cidr := Cidr (family c) (prefix c) l.

Definition cidr_add6 (b : cidr) : C bool :=
  n <- cidr_clone;
  if negb (bool_decide (family n = AF_INET6)) || negb (bool_decide (family b = AF_INET6)) then ret false
  else
    let '(x, carry) := carry_addr add_byte (addr n) (addr b) 0 in
    set_top (with_addr n x);; ret (carry =? 0).

Definition cidr_sub6 (b : cidr) : C bool :=
  n <- cidr_clone;
  if negb (bool_decide (family n = AF_INET6)) || negb (bool_decide (family b = AF_INET6)) then ret false
  else
    let '(x, carry) := carry_addr sub_byte (addr n) (addr b) 0 in
    set_top (with_addr n x);; ret (carry =? 0).

(** prev and next: the loop starts at the byte that holds the last bit of the
    prefix, with a carry of one and nothing to add. *)
Definition step_addr (f : Z -> Z -> Z -> Z * Z) (x : list Z) (idx : nat) : option (list Z * Z) :=
  if (idx <? length x)%nat then
    let '(v, carry) := carry_addr f (take (S idx) x) (replicate (S idx) 0) 1 in Some (v ++ drop (S idx) x, carry)
  else None.

Definition cidr_step6 (f : Z -> Z -> Z -> Z * Z) (b : cidr) : C bool :=
  n <- cidr_clone;
  if prefix b =? 0 then ret false
  else
    r <- of_option (step_addr f (addr n) (Z.to_nat (u8 ((prefix b - 1) `div` 8))));
    let '(x, carry) := r in
    set_top (with_addr n x);;
    if negb (carry =? 0) then ret false
    else set_top (with_prefix (with_addr n x) (prefix b));; ret true.

Definition cidr_prev6 (b : cidr) : C bool := cidr_step6 sub_byte b.
Definition cidr_next6 (b : cidr) : C bool := cidr_step6 add_byte b.

(** [(128 - prefix) / 8] and [(128 - prefix) % 8], unsigned. *)
Definition host_bytes (p : Z) : Z := u32 (128 - p) `div` 8.
Definition host_bits (p : Z) : Z := u32 (128 - p) `mod` 8.
(** [~((1 << k) - 1)] as a byte. *)
Definition byte_mask (k : Z) : Z := u8 (Z.lnot (2 ^ k - 1)).

(** The loop and the mask of network: index -1 is outside the union. *)
Definition clear_host (p : Z) (l : list Z) : option (list Z) :=
  let i := Z.to_nat (host_bytes p) in
  if (16 <? i)%nat || ((i =? 16)%nat && negb (host_bits p =? 0)) then None
  else
    let l := take (16 - i) l ++ replicate i 0 in
    Some (if host_bits p =? 0 then l
          else <[(15 - i)%nat := Z.land (nth (15 - i) l 0) (byte_mask (host_bits p))]> l).

Definition cidr_network6 : C bool :=
  n <- cidr_clone;
  l <- of_option (clear_host (prefix n) (addr n));
  set_top (with_addr n l);; ret true.

Definition fits6 (a b : cidr) : bool :=
  let i := Z.to_nat (u8 (host_bytes (prefix a) `mod` 16)) in
  let m := byte_mask (host_bits (prefix a)) in
  let net1 := Z.land (nth (15 - i) (addr a) 0) m in
  let net2 := Z.land (nth (15 - i) (addr b) 0) m in
  (prefix a =? 0)
  || ((prefix a <=? prefix b) && (net1 =? net2)
      && ((i =? 15)%nat || bool_decide (take (15 - i) (addr a) = take (15 - i) (addr b)))).

Definition cidr_contains6 (b : cidr) : C bool :=
  a <- top;
  separator;;
  verdict (fits6 a b).

Definition cidr_linklocal6 : C bool :=
  a <- top;
  separator;;
  verdict ((nth 0 (addr a) 0 =? 0xfe) && between 0x80 0xbf (nth 1 (addr a) 0)).

Definition cidr_ula6 : C bool :=
  a <- top; separator;; verdict (between 0xfc 0xfd (nth 0 (addr a) 0)).

(** ** Operations on both *)

(** "%u". *)
Definition print_u (n : Z) : list Z := print_d (u32 n).

Definition cidr_howmany (b : cidr) : C bool :=
  a <- top;
  separator;;
  if prefix b <? prefix a then qprintf [48];; ret true
  else v <- of_option (shl1 (u32 (prefix b - prefix a))); qprintf (print_u v);; ret true.

Definition cidr_prefix (b : cidr) : C bool := a <- top; set_top (with_prefix a (prefix b));; ret true.

Definition cidr_quiet : C bool := fun s => Val true (Calc (stack s) true (printed s) (output s)).

(** ** Well-formed states *)

Record cidr_ok (c : cidr) : Prop := {
  ok_len : length (addr c) = 16%nat;
  ok_bytes : bytes_ok (addr c);
  ok_prefix : 0 <= prefix c < 2 ^ 32;
}.

(** The numbers the addresses stand for. *)
Definition value4 (c : cidr) : Z := be_combine (take 4 (addr c)).
Definition value6 (c : cidr) : Z := be_combine (addr c).

(** ** Lemmas: words *)

Lemma byte_add_split b x : byte_ok b -> b + 256 * x = Z.lor b (Z.shiftl x 8).
Proof.
  intros Hb. rewrite byte_cons_lxor by assumption. unfold byte_ok in Hb. bitwise.
  destruct (Z.lt_ge_cases n 8).
  - rewrite (Z.testbit_neg_r _ (n - 8)) by lia. now rewrite xorb_false_r, orb_false_r.
  - rewrite (testbit_high b 8) by lia. reflexivity.
Qed.

Lemma rev_zip_with (f : Z -> Z -> Z) a b :
  length a = length b -> rev (zip_with f a b) = zip_with f (rev a) (rev b).
Proof.
  revert b. induction a as [| x a IH]; intros [| y b] Hl; try discriminate; [reflexivity |].
  cbn [zip_with rev]. rewrite IH by now injection Hl.
  rewrite zip_with_app by (rewrite !length_rev; now injection Hl). reflexivity.
Qed.

(** A bitwise operation on words works byte by byte. *)
Section Bytewise.
Context (op : Z -> Z -> Z) (f : bool -> bool -> bool).
Hypothesis op_spec : forall x y n, Z.testbit (op x y) n = f (Z.testbit x n) (Z.testbit y n).
Hypothesis op_nonneg : forall x y, 0 <= x -> 0 <= y -> 0 <= op x y.
Hypothesis f_false : f false false = false.

Lemma byte_op x y : byte_ok x -> byte_ok y -> byte_ok (op x y).
Proof using All.
  unfold byte_ok. intros Hx Hy. split; [apply op_nonneg; lia |]. change 256 with (2 ^ 8).
  apply lt_pow2_testbit; [lia | apply op_nonneg; lia |].
  intros m Hm. now rewrite op_spec, (testbit_high x 8), (testbit_high y 8) by lia.
Qed.

Lemma bytes_zip_op a b : bytes_ok a -> bytes_ok b -> bytes_ok (zip_with op a b).
Proof using All.
  intros Ha. revert b. induction Ha as [| x a Hx Ha IH]; intros [| y b] Hb; try constructor;
    apply Forall_cons_1 in Hb as [Hy Hb]; auto using byte_op.
Qed.

Lemma le_combine_op a b :
  bytes_ok a -> bytes_ok b -> length a = length b ->
  op (le_combine a) (le_combine b) = le_combine (zip_with op a b).
Proof using All.
  intros Ha. revert b. induction Ha as [| x a Hx Ha IH]; intros [| y b] Hb Hl; try discriminate.
  { apply Z.bits_inj'. intros n Hn. cbn. now rewrite op_spec, !Z.testbit_0_l, f_false. }
  apply Forall_cons_1 in Hb as [Hy Hb]. pose proof (byte_op x y Hx Hy).
  cbn [le_combine zip_with]. rewrite <- IH by (assumption || now injection Hl).
  rewrite !byte_add_split by assumption. unfold byte_ok in *.
  apply Z.bits_inj'. intros n Hn. rewrite op_spec, !Z.lor_spec, !Z.shiftl_spec, !op_spec by lia.
  destruct (Z.lt_ge_cases n 8).
  - rewrite !(Z.testbit_neg_r _ (n - 8)), f_false, !orb_false_r by lia. reflexivity.
  - rewrite (testbit_high x 8), (testbit_high y 8) by lia. now rewrite f_false.
Qed.

(** Swapping the bytes of two words commutes with the operation. *)
Lemma swap_op a y :
  bytes_ok a -> length a = 4%nat -> 0 <= y < 2 ^ 32 ->
  le_split 4 (op (le_combine a) (htonl y)) = be_split 4 (op (be_combine a) y).
Proof using All.
  intros Ha Hl Hy. unfold htonl, be_combine, be_split.
  assert (y = le_combine (le_split 4 y)) as Ey by (rewrite le_combine_split, Z.mod_small by (simpl; lia); reflexivity).
  rewrite Ey at 2. rewrite !le_combine_op by
    (rewrite ?length_rev, ?length_le_split; auto using Forall_rev, le_split_bytes).
  assert (forall l, bytes_ok l -> length l = 4%nat -> le_split 4 (le_combine l) = l) as E4
    by (intros l Hb <-; now apply le_split_combine).
  rewrite !E4 by
    (first [apply bytes_zip_op; auto using Forall_rev, le_split_bytes
      | rewrite length_zip_with, ?length_rev, ?length_le_split, ?Hl; reflexivity]).
  rewrite rev_zip_with, rev_involutive by (rewrite length_rev, length_le_split; lia). reflexivity.
Qed.
End Bytewise.

Lemma swap_land a y :
  bytes_ok a -> length a = 4%nat -> 0 <= y < 2 ^ 32 ->
  le_split 4 (Z.land (le_combine a) (htonl y)) = be_split 4 (Z.land (be_combine a) y).
Proof.
  apply (swap_op Z.land andb); auto using Z.land_spec. intros. apply Z.land_nonneg. lia.
Qed.

Lemma swap_lor a y :
  bytes_ok a -> length a = 4%nat -> 0 <= y < 2 ^ 32 ->
  le_split 4 (Z.lor (le_combine a) (htonl y)) = be_split 4 (Z.lor (be_combine a) y).
Proof.
  apply (swap_op Z.lor orb); auto using Z.lor_spec. intros. apply Z.lor_nonneg. lia.
Qed.

(** ** Lemmas: addresses as numbers *)

(** The cidr with its IPv4 word replaced by the number [x]. *)
Definition put4 (c : cidr) (x : Z) : cidr := Cidr (family c) (prefix c) (be_split 4 x ++ drop 4 (addr c)).

Lemma take4_len c : cidr_ok c -> length (take 4 (addr c)) = 4%nat.
Proof. intros [Hl _ _]. rewrite length_take, Hl. reflexivity. Qed.

Lemma take4_bytes c : cidr_ok c -> bytes_ok (take 4 (addr c)).
Proof. intros [_ Hb _]. now apply Forall_take. Qed.

#[local] Hint Resolve take4_len take4_bytes : core.

Lemma value4_range c : cidr_ok c -> 0 <= value4 c < 2 ^ 32.
Proof.
  intros H. pose proof (be_combine_range _ (take4_bytes c H)) as Hr.
  rewrite take4_len in Hr by assumption. apply Hr.
Qed.

Lemma ntohl_s_addr c : cidr_ok c -> ntohl (s_addr c) = value4 c.
Proof.
  intros H. unfold ntohl, s_addr, value4. rewrite <- (take4_len c H) at 1.
  now rewrite le_split_combine by auto.
Qed.

Lemma le_split_htonl x : le_split 4 (htonl x) = be_split 4 x.
Proof.
  unfold htonl. rewrite <- (length_be_split 4 x) at 1. apply le_split_combine, be_split_bytes.
Qed.

Lemma with_s_addr_htonl c x : with_s_addr c (htonl x) = put4 c x.
Proof. unfold with_s_addr, put4. now rewrite le_split_htonl. Qed.

Lemma value4_put4 c x : 0 <= x < 2 ^ 32 -> value4 (put4 c x) = x.
Proof.
  intros Hx. unfold value4, put4. cbn [addr]. rewrite <- (length_be_split 4 x) at 1.
  rewrite take_app_length, be_combine_split. apply Z.mod_small. assumption.
Qed.

Lemma addr_put4_ok c x : cidr_ok c -> length (addr (put4 c x)) = 16%nat /\ bytes_ok (addr (put4 c x)).
Proof.
  intros [Hl Hb Hp]. unfold put4. cbn [addr]. split.
  - rewrite length_app, length_be_split, length_drop, Hl. reflexivity.
  - apply Forall_app. auto using be_split_bytes, Forall_drop.
Qed.

Lemma put4_ok c x : cidr_ok c -> cidr_ok (put4 c x).
Proof. intros H. destruct (addr_put4_ok c x H). destruct H. now constructor. Qed.

Lemma with_prefix_ok c p : cidr_ok c -> 0 <= p < 2 ^ 32 -> cidr_ok (with_prefix c p).
Proof. intros [Hl Hb _] Hp. now constructor. Qed.

Lemma with_s_addr_ok c x : cidr_ok c -> cidr_ok (with_s_addr c x).
Proof.
  intros [Hl Hb Hp]. constructor; unfold with_s_addr; cbn [addr prefix]; [| | assumption].
  - rewrite length_app, length_le_split, length_drop, Hl. reflexivity.
  - apply Forall_app. auto using le_split_bytes, Forall_drop.
Qed.

(** The block of the [2 ^ k] numbers around [x], its first and its last. *)
Definition block_first (k x : Z) : Z := x - x mod 2 ^ k.
Definition block_last (k x : Z) : Z := x - x mod 2 ^ k + (2 ^ k - 1).

Lemma block_first_div k x : 0 <= k -> block_first k x = 2 ^ k * (x / 2 ^ k).
Proof. intros. unfold block_first. pose proof (Z.div_mod x (2 ^ k)). assert (0 < 2 ^ k) by lia. lia. Qed.

Lemma block_range w k x : 0 <= k <= w -> 0 <= x < 2 ^ w -> 0 <= block_first k x /\ block_last k x < 2 ^ w.
Proof.
  intros Hk Hx. assert (0 < 2 ^ k) by lia.
  pose proof (Z.mod_pos_bound x (2 ^ k) ltac:(lia)). pose proof (Z.div_mod x (2 ^ k) ltac:(lia)).
  assert (0 <= x / 2 ^ k) by (apply Z.div_pos; lia).
  assert (2 ^ w = 2 ^ k * 2 ^ (w - k)) as Ew by (rewrite <- Z.pow_add_r by lia; f_equal; lia).
  assert (x / 2 ^ k < 2 ^ (w - k)) by (apply Z.div_lt_upper_bound; lia).
  unfold block_first, block_last. nia.
Qed.

Lemma land_hostmask k x :
  0 <= k < 32 -> 0 <= x < 2 ^ 32 -> Z.land x (u32 (Z.lnot (2 ^ k - 1))) = block_first k x.
Proof.
  intros Hk Hx. rewrite block_first_div by lia.
  rewrite (Z.mul_comm (2 ^ k)), <- Z.shiftr_div_pow2, <- Z.shiftl_mul_pow2 by lia.
  replace (2 ^ k - 1) with (Z.ones k) by (rewrite Z.ones_equiv; lia).
  unfold u32. rewrite <- Z.land_ones by lia. bitwise.
  destruct (Z.lt_ge_cases n 32).
  - rewrite (Z.ones_spec_low 32), andb_true_r by lia. destruct (Z.lt_ge_cases n k).
    + rewrite Z.ones_spec_low, andb_false_r, Z.testbit_neg_r by lia. reflexivity.
    + rewrite Z.ones_spec_high, andb_true_r, Z.shiftr_spec by lia. f_equal. lia.
  - rewrite (testbit_high x 32), Z.shiftr_spec, (testbit_high x 32) by lia. reflexivity.
Qed.

Lemma lor_hostmask k x : 0 <= k -> 0 <= x -> Z.lor x (2 ^ k - 1) = block_last k x.
Proof.
  intros Hk Hx. unfold block_last. fold (block_first k x). rewrite block_first_div by lia.
  rewrite (Z.mul_comm (2 ^ k)), <- Z.shiftr_div_pow2, <- Z.shiftl_mul_pow2 by lia.
  replace (2 ^ k - 1) with (Z.ones k) by (rewrite Z.ones_equiv; lia).
  rewrite Z.add_nocarry_lxor.
  - bitwise. destruct (Z.lt_ge_cases n k).
    + rewrite Z.ones_spec_low, orb_true_r, Z.testbit_neg_r by lia. reflexivity.
    + rewrite Z.ones_spec_high, orb_false_r, xorb_false_r, Z.shiftr_spec by lia. f_equal. lia.
  - bitwise. destruct (Z.lt_ge_cases n k).
    + rewrite (Z.testbit_neg_r _ (n - k)) by lia. reflexivity.
    + rewrite Z.ones_spec_high, andb_false_r by lia. reflexivity.
Qed.

(** Two blocks, the one of the lesser exponent is in the other or apart. *)
Lemma block_incl j k x y :
  0 <= k <= j -> (block_first j x <= block_first k y /\ block_last k y <= block_last j x <-> block_first j x = block_first j y).
Proof.
  intros H. assert (0 < 2 ^ k) by lia. assert (0 < 2 ^ j) by lia.
  assert (2 ^ j = 2 ^ k * 2 ^ (j - k)) as Ej by (rewrite <- Z.pow_add_r by lia; f_equal; lia).
  rewrite !block_first_div by lia.
  assert (forall z, block_last k z = 2 ^ k * (z / 2 ^ k) + (2 ^ k - 1)) as Lk
    by (intros; unfold block_last; fold (block_first k z); now rewrite block_first_div by lia).
  assert (forall z, block_last j z = 2 ^ j * (z / 2 ^ j) + (2 ^ j - 1)) as Lj
    by (intros; unfold block_last; fold (block_first j z); now rewrite block_first_div by lia).
  rewrite Lk, Lj.
  pose proof (Z.div_mod y (2 ^ k) ltac:(lia)). pose proof (Z.mod_pos_bound y (2 ^ k) ltac:(lia)).
  assert (y / 2 ^ j = y / 2 ^ k / 2 ^ (j - k)) as Eq by (rewrite Z.div_div by lia; f_equal; lia).
  set (q := y / 2 ^ k) in *. set (d := 2 ^ (j - k)) in *. assert (0 < d) by (unfold d; lia).
  pose proof (Z.div_mod q d ltac:(lia)). pose proof (Z.mod_pos_bound q d ltac:(lia)).
  rewrite Eq in *. set (a := x / 2 ^ j) in *. set (b := q / d) in *.
  split.
  - intros [Hlo Hhi]. enough (a = b) by congruence.
    assert (2 ^ k * (d * a) <= 2 ^ k * q) as Hl by (rewrite Ej in Hlo; lia).
    assert (2 ^ k * q < 2 ^ k * (d * (a + 1))) as Hr by (rewrite Ej in Hhi; lia).
    apply Z.mul_le_mono_pos_l in Hl; [| lia]. apply Z.mul_lt_mono_pos_l in Hr; [| lia]. nia.
  - intros E%Z.mul_reg_l; [| lia]. rewrite E, Ej.
    assert (2 ^ k * (d * b) <= 2 ^ k * q) by (apply Z.mul_le_mono_nonneg_l; lia).
    assert (2 ^ k * (q + 1) <= 2 ^ k * (d * (b + 1))) by (apply Z.mul_le_mono_nonneg_l; lia). lia.
Qed.

Lemma block4_spec p : 0 < p <= 32 -> block4 p = Some (s32 (2 ^ (32 - p))).
Proof.
  intros Hp. unfold block4, shl1. rewrite u32_id by lia.
  destruct (Z.ltb_spec (32 - p) 32); [reflexivity | lia].
Qed.

Lemma hostmask4_spec p : 0 < p <= 32 -> hostmask4 p = Some (2 ^ (32 - p) - 1).
Proof.
  intros Hp. unfold hostmask4. rewrite block4_spec by lia. cbn. f_equal.
  assert (0 < 2 ^ (32 - p) <= 2 ^ 31) by (split; [lia | apply Z.pow_le_mono_r; lia]).
  destruct (Z.eq_dec (32 - p) 31) as [-> | ?]; [reflexivity |].
  assert (2 ^ (32 - p) <= 2 ^ 30) by (apply Z.pow_le_mono_r; lia). rewrite !s32_id by (try rewrite s32_id; lia).
  reflexivity.
Qed.

Lemma u32_s32 x : u32 (s32 x) = u32 x.
Proof.
  unfold u32, s32, swrap. change (2 ^ (32 - 1)) with (2 ^ 31).
  rewrite Zminus_mod_idemp_l. f_equal. lia.
Qed.

(** Equal masked words are equal masked numbers. *)
Lemma be_split_inj n x y : 0 <= x < 256 ^ Z.of_nat n -> 0 <= y < 256 ^ Z.of_nat n -> be_split n x = be_split n y -> x = y.
Proof.
  intros Hx Hy E. apply (f_equal be_combine) in E. rewrite !be_combine_split, !Z.mod_small in E by assumption. exact E.
Qed.

Lemma le_split_inj n x y : 0 <= x < 256 ^ Z.of_nat n -> 0 <= y < 256 ^ Z.of_nat n -> le_split n x = le_split n y -> x = y.
Proof.
  intros Hx Hy E. apply (f_equal le_combine) in E. rewrite !le_combine_split, !Z.mod_small in E by assumption. exact E.
Qed.

Lemma land_le_l x y n : 0 <= n -> 0 <= x < 2 ^ n -> 0 <= y -> 0 <= Z.land x y < 2 ^ n.
Proof.
  intros Hn Hx Hy. split; [apply Z.land_nonneg; lia |].
  apply lt_pow2_testbit; [lia | apply Z.land_nonneg; lia |].
  intros m Hm. now rewrite Z.land_spec, (testbit_high x n) by lia.
Qed.

Lemma word_land_eq a b y :
  cidr_ok a -> cidr_ok b -> 0 <= y < 2 ^ 32 ->
  (Z.land (s_addr a) (htonl y) = Z.land (s_addr b) (htonl y) <-> Z.land (value4 a) y = Z.land (value4 b) y).
Proof.
  intros Ha Hb Hy. pose proof (value4_range a Ha). pose proof (value4_range b Hb).
  assert (forall c, cidr_ok c -> le_split 4 (Z.land (s_addr c) (htonl y)) = be_split 4 (Z.land (value4 c) y)) as E
    by (intros; unfold s_addr; apply swap_land; auto).
  assert (0 <= htonl y) by (unfold htonl; apply le_combine_range, be_split_bytes).
  assert (forall c, cidr_ok c -> 0 <= s_addr c < 2 ^ 32) as Hs.
  { intros c Hc. pose proof (le_combine_range _ (take4_bytes c Hc)) as Hr. rewrite take4_len in Hr by assumption. apply Hr. }
  split; intros Heq.
  - apply (be_split_inj 4); try (apply (land_le_l _ _ 32); lia). rewrite <- !E by assumption. congruence.
  - apply (le_split_inj 4); try (apply (land_le_l _ _ 32); try lia; auto). rewrite !E by assumption. congruence.
Qed.

Lemma nth_byte l i : bytes_ok l -> byte_ok (nth i l 0).
Proof.
  intros H. revert i. induction H as [| b l Hb _ IH]; intros [| i]; cbn [nth];
    auto; unfold byte_ok; lia.
Qed.

Lemma lookup_nth (l : list Z) i : (i < length l)%nat -> l !! i = Some (nth i l 0).
Proof.
  intros H. destruct (lookup_lt_is_Some_2 l i H) as [z Ez]. rewrite Ez. f_equal.
  symmetry. apply nth_lookup_Some with (d := 0) in Ez. exact Ez.
Qed.

(** ** Running an operation on a state with a top *)

Ltac run_calc :=
  unfold cidr_clone, verdict, separator, bind, ret, top, cidr_push, set_top, with_stack, exit, undefined, qprintf;
  cbn [stack quiet printed output].

Lemma with_prefix_put4 c x p : with_prefix (put4 c x) p = put4 (with_prefix c p) x.
Proof. reflexivity. Qed.

(** [with_s_addr] on the word the mask leaves, as a number. *)
Lemma with_s_addr_land c y :
  cidr_ok c -> 0 <= y < 2 ^ 32 -> with_s_addr c (Z.land (s_addr c) (htonl y)) = put4 c (Z.land (value4 c) y).
Proof. intros H Hy. unfold with_s_addr, put4, s_addr. now rewrite swap_land by auto. Qed.

Lemma with_s_addr_lor c y :
  cidr_ok c -> 0 <= y < 2 ^ 32 -> with_s_addr c (Z.lor (s_addr c) (htonl y)) = put4 c (Z.lor (value4 c) y).
Proof. intros H Hy. unfold with_s_addr, put4, s_addr. now rewrite swap_lor by auto. Qed.

Section Ops4.
Context (a b : cidr) (l : list cidr) (q pr : bool) (out : list Z).
Hypothesis Ha : cidr_ok a.
Hypothesis Hb : cidr_ok b.

(** Addition: the sum when it fits in 32 bits; otherwise the operation fails,
    and a copy of the operand is the new top all the same. *)
Theorem add4_spec :
  family a = AF_INET -> family b = AF_INET ->
  cidr_add4 b (Calc (a :: l) q pr out) =
    if value4 a + value4 b <? 2 ^ 32
    then Val true (Calc (put4 a (value4 a + value4 b) :: a :: l) q pr out)
    else Val false (Calc (a :: a :: l) q pr out).
Proof using Ha Hb.
  intros Fa Fb. unfold cidr_add4. run_calc. rewrite Fa, Fb, !ntohl_s_addr by assumption.
  pose proof (value4_range a Ha). pose proof (value4_range b Hb). cbn [negb orb bool_decide decide].
  rewrite !bool_decide_eq_true_2 by reflexivity. cbn [negb orb].
  destruct (Z.ltb_spec (value4 a + value4 b) (2 ^ 32)) as [Hs | Hs].
  - rewrite u32_id by lia. destruct (Z.ltb_spec (value4 a + value4 b) (value4 a)); [lia |].
    now rewrite with_s_addr_htonl.
  - assert (u32 (value4 a + value4 b) = value4 a + value4 b - 2 ^ 32) as ->
      by (unfold u32; symmetry; apply Z.mod_unique with 1; lia).
    destruct (Z.ltb_spec (value4 a + value4 b - 2 ^ 32) (value4 a)); [reflexivity | lia].
Qed.

Theorem sub4_spec :
  family a = AF_INET -> family b = AF_INET ->
  cidr_sub4 b (Calc (a :: l) q pr out) =
    if value4 b <=? value4 a
    then Val true (Calc (put4 a (value4 a - value4 b) :: a :: l) q pr out)
    else Val false (Calc (a :: a :: l) q pr out).
Proof using Ha Hb.
  intros Fa Fb. unfold cidr_sub4. run_calc. rewrite Fa, Fb, !ntohl_s_addr by assumption.
  pose proof (value4_range a Ha). pose proof (value4_range b Hb).
  rewrite !bool_decide_eq_true_2 by reflexivity. cbn [negb orb].
  destruct (Z.leb_spec (value4 b) (value4 a)) as [Hs | Hs].
  - rewrite u32_id by lia. destruct (Z.ltb_spec (value4 a) (value4 a - value4 b)); [lia |].
    now rewrite with_s_addr_htonl.
  - assert (u32 (value4 a - value4 b) = value4 a - value4 b + 2 ^ 32) as ->
      by (unfold u32; symmetry; apply Z.mod_unique with (-1); lia).
    destruct (Z.ltb_spec (value4 a) (value4 a - value4 b + 2 ^ 32)); [reflexivity | lia].
Qed.

Hypothesis Hp : 0 < prefix a <= 32.

Lemma mask_range : 0 <= 2 ^ (32 - prefix a) - 1 < 2 ^ 32.
Proof using Hp.
  assert (2 ^ (32 - prefix a) <= 2 ^ 31) by (apply Z.pow_le_mono_r; lia). lia.
Qed.

Lemma network4_spec :
  cidr_network4 (Calc (a :: l) q pr out) =
    Val true (Calc (with_prefix (put4 a (block_first (32 - prefix a) (value4 a))) 32 :: a :: l) q pr out).
Proof using Ha Hp.
  unfold cidr_network4. run_calc. rewrite hostmask4_spec by assumption. cbn [of_option]. run_calc.
  rewrite with_s_addr_land by auto using u32_range. pose proof (value4_range a Ha).
  rewrite land_hostmask by lia. reflexivity.
Qed.

Lemma broadcast4_spec :
  cidr_broadcast4 (Calc (a :: l) q pr out) =
    Val true (Calc (with_prefix (put4 a (block_last (32 - prefix a) (value4 a))) 32 :: a :: l) q pr out).
Proof using Ha Hp.
  unfold cidr_broadcast4. run_calc. rewrite hostmask4_spec by assumption. cbn [of_option]. run_calc.
  pose proof mask_range. pose proof (value4_range a Ha).
  rewrite u32_id, with_s_addr_lor, lor_hostmask by (assumption || lia). reflexivity.
Qed.

Lemma netmask4_spec :
  cidr_netmask4 (Calc (a :: l) q pr out) =
    Val true (Calc (with_prefix (put4 a (2 ^ 32 - 2 ^ (32 - prefix a))) 32 :: a :: l) q pr out).
Proof using Hp.
  unfold cidr_netmask4. run_calc. rewrite hostmask4_spec by assumption. cbn [of_option]. run_calc.
  rewrite with_s_addr_htonl. repeat f_equal. pose proof mask_range. unfold u32, Z.lnot.
  symmetry. apply Z.mod_unique with (-1); lia.
Qed.

Lemma contains4_spec :
  cidr_contains4 b (Calc (a :: l) q pr out) =
    verdict ((prefix a <=? prefix b)
             && (block_first (32 - prefix a) (value4 a) =? block_first (32 - prefix a) (value4 b)))
      (Calc (a :: l) q pr (if pr && negb q then out ++ [32] else out)).
Proof using Ha Hb Hp.
  unfold cidr_contains4. run_calc. rewrite hostmask4_spec by assumption. cbn [of_option]. run_calc.
  pose proof (value4_range a Ha). pose proof (value4_range b Hb).
  destruct (Z.eqb_spec (prefix a) 0) as [? | _]; [lia |]. cbn [orb].
  assert ((Z.land (s_addr a) (htonl (u32 (Z.lnot (2 ^ (32 - prefix a) - 1)))) =?
           Z.land (s_addr b) (htonl (u32 (Z.lnot (2 ^ (32 - prefix a) - 1)))))
          = (block_first (32 - prefix a) (value4 a) =? block_first (32 - prefix a) (value4 b))) as ->.
  { rewrite <- !land_hostmask by lia. apply Bool.eq_iff_eq_true. rewrite !Z.eqb_eq.
    apply word_land_eq; auto using u32_range. }
  destruct pr, q; reflexivity.
Qed.
End Ops4.

Lemma block_sub j k x y :
  0 <= j -> 0 <= k ->
  ((forall z, block_first k y <= z <= block_last k y -> block_first j x <= z <= block_last j x) <->
   k <= j /\ block_first j x = block_first j y).
Proof.
  intros Hj Hk. assert (0 < 2 ^ k) by lia. assert (0 < 2 ^ j) by lia.
  assert (block_first k y <= block_last k y) by (unfold block_first, block_last; lia).
  split.
  - intros H2. pose proof (H2 (block_first k y) ltac:(lia)). pose proof (H2 (block_last k y) ltac:(lia)).
    assert (k <= j) as Hkj.
    { apply Z.nlt_ge. intros Hlt. assert (2 ^ j < 2 ^ k) by (apply Z.pow_lt_mono_r; lia).
      unfold block_first, block_last in *. lia. }
    split; [assumption |]. apply (block_incl j k); lia.
  - intros [Hkj E]. apply (block_incl j k) in E; lia.
Qed.

Definition in_block4 (c : cidr) (x : Z) : Prop :=
  block_first (32 - prefix c) (value4 c) <= x <= block_last (32 - prefix c) (value4 c).

Lemma contains4_verdict a b l q pr out :
  cidr_ok a -> cidr_ok b -> 0 < prefix a <= 32 -> prefix b <= 32 ->
  exists v : bool, cidr_contains4 b (Calc (a :: l) q pr out) =
      Val v (Calc (a :: l) q true (if q then out else out ++ (if pr then [32] else []) ++ [if v then 49 else 48])) /\
    (v = true <-> forall x, in_block4 b x -> in_block4 a x).
Proof.
  intros Ha Hb Hp Hpb. destruct Hb as [Hbl Hbb Hbp]. rewrite contains4_spec by (auto; now constructor).
  unfold verdict, bind, ret, qprintf. cbn [stack quiet printed output].
  eexists. split.
  - destruct pr, q; cbn [negb andb app]; rewrite <- ?app_assoc; reflexivity.
  - unfold in_block4. rewrite block_sub by lia. rewrite andb_true_iff, Z.leb_le, Z.eqb_eq. intuition lia.
Qed.

(** The first four bytes are all that counts of an IPv4 address. *)
Lemma trimmed c rest : cidr_ok c -> length rest = 12%nat -> bytes_ok rest ->
  cidr_ok (Cidr AF_INET (prefix c) (take 4 (addr c) ++ rest)) /\
  value4 (Cidr AF_INET (prefix c) (take 4 (addr c) ++ rest)) = value4 c.
Proof.
  intros Hc Hl Hb. pose proof (take4_len c Hc). pose proof (take4_bytes c Hc). destruct Hc as [_ _ Hp]. split.
  - constructor; cbn [addr prefix]; [now rewrite length_app, Hl, H | now apply Forall_app | assumption].
  - unfold value4. cbn [addr]. now rewrite take_app_length'.
Qed.

(** The network address, the broadcast address and the mask of a block: the first
    and the last address of the block, and the offset of an address in it is what
    the mask clears. *)
Theorem subnet4 a l q pr out :
  cidr_ok a -> 0 < prefix a <= 32 ->
  exists n b m,
    cidr_network4 (Calc (a :: l) q pr out) = Val true (Calc (n :: a :: l) q pr out) /\
    cidr_broadcast4 (Calc (a :: l) q pr out) = Val true (Calc (b :: a :: l) q pr out) /\
    cidr_netmask4 (Calc (a :: l) q pr out) = Val true (Calc (m :: a :: l) q pr out) /\
    prefix n = 32 /\ prefix b = 32 /\ prefix m = 32 /\
    (forall x, value4 n <= x <= value4 b <-> in_block4 a x) /\
    value4 n = Z.land (value4 a) (value4 m) /\
    value4 n <= value4 a <= value4 b /\ value4 b - value4 n + 1 = 2 ^ 32 - value4 m.
Proof.
  intros Ha Hp. rewrite network4_spec, broadcast4_spec, netmask4_spec by assumption.
  eexists _, _, _. repeat (split; [reflexivity |]).
  rewrite !with_prefix_put4. pose proof (value4_range a Ha).
  assert (0 < 2 ^ (32 - prefix a)) by lia.
  assert (2 ^ (32 - prefix a) <= 2 ^ 31) by (apply Z.pow_le_mono_r; lia).
  pose proof (block_range 32 (32 - prefix a) (value4 a) ltac:(lia) ltac:(lia)).
  pose proof (Z.mod_pos_bound (value4 a) (2 ^ (32 - prefix a)) ltac:(lia)).
  assert (block_first (32 - prefix a) (value4 a) <= value4 a <= block_last (32 - prefix a) (value4 a))
    by (unfold block_first, block_last; lia).
  rewrite !value4_put4 by lia. split; [reflexivity |]. split; [| split; [assumption |]].
  - rewrite <- land_hostmask by lia. f_equal. unfold u32, Z.lnot.
    symmetry. apply Z.mod_unique with (-1); lia.
  - unfold block_first, block_last in *. lia.
Qed.

Lemma subnet4_witness : exists n b m, let a := Cidr AF_INET 20 ([192; 168; 77; 1] ++ replicate 12 0) in
  cidr_network4 (Calc [a] false false []) = Val true (Calc [n; a] false false []) /\
    cidr_broadcast4 (Calc [a] false false []) = Val true (Calc [b; a] false false []) /\
    cidr_netmask4 (Calc [a] false false []) = Val true (Calc [m; a] false false []) /\
    prefix n = 32 /\ prefix b = 32 /\ prefix m = 32 /\
    (forall x, value4 n <= x <= value4 b <-> in_block4 a x) /\
    value4 n = Z.land (value4 a) (value4 m) /\
    value4 n <= value4 a <= value4 b /\ value4 b - value4 n + 1 = 2 ^ 32 - value4 m.
Proof. apply subnet4; [constructor; by_compute | by_compute]. Defined.

(** ** The steps of next and prev *)

(** The byte of the network order that holds bit [p - 1], and its weight there. *)
Definition step_byte (p : Z) : Z := (p - 1) `div` 8.
Definition step_weight (p : Z) : Z := 2 ^ (7 - (p - 1) `mod` 8).

Lemma step_word p :
  0 < p <= 32 ->
  htonl (u32 (s32 (2 ^ (32 - p)))) = step_weight p * 256 ^ step_byte p /\
  2 ^ (32 - p) = step_weight p * 256 ^ (3 - step_byte p).
Proof.
  intros Hp. assert (Forall (fun p => htonl (u32 (s32 (2 ^ (32 - p)))) = step_weight p * 256 ^ step_byte p /\
    2 ^ (32 - p) = step_weight p * 256 ^ (3 - step_byte p)) (seqZ 1 32)) as H by by_compute.
  rewrite list.Forall_forall in H. apply (H p), elem_of_seqZ. lia.
Qed.

Lemma le_combine_insert l i x y :
  l !! i = Some y -> le_combine (<[i := x]> l) = le_combine l + (x - y) * 256 ^ Z.of_nat i.
Proof.
  revert i. induction l as [| b l IH]; intros [| i] E; try discriminate.
  - injection E as ->. cbn [insert list_insert le_combine Z.of_nat]. rewrite Z.pow_0_r. lia.
  - cbn in E. change (<[S i:=x]> (b :: l)) with (b :: <[i:=x]> l). cbn [le_combine].
    rewrite (IH i E), Nat2Z.inj_succ, Z.pow_succ_r by lia. lia.
Qed.

Lemma le_combine_app l1 l2 :
  le_combine (l1 ++ l2) = le_combine l1 + 256 ^ Z.of_nat (length l1) * le_combine l2.
Proof.
  induction l1 as [| b l1 IH]; cbn [app le_combine length]; [rewrite Z.pow_0_r; lia |].
  rewrite IH, Nat2Z.inj_succ, Z.pow_succ_r by lia. lia.
Qed.

Lemma be_combine_app l1 l2 :
  be_combine (l1 ++ l2) = be_combine l1 * 256 ^ Z.of_nat (length l2) + be_combine l2.
Proof. unfold be_combine. rewrite rev_app_distr, le_combine_app, length_rev. lia. Qed.

Lemma be_combine_cons b l : be_combine (b :: l) = b * 256 ^ Z.of_nat (length l) + be_combine l.
Proof. change (b :: l) with ([b] ++ l). rewrite be_combine_app. unfold be_combine at 1. cbn [rev app le_combine]. lia. Qed.

Lemma le_split_app k m x y :
  0 <= x < 256 ^ Z.of_nat k -> le_split (k + m) (x + 256 ^ Z.of_nat k * y) = le_split k x ++ le_split m y.
Proof.
  revert x. induction k as [| k IH]; intros x Hx.
  { cbn in Hx |- *. f_equal. lia. }
  rewrite Nat2Z.inj_succ, Z.pow_succ_r in * by lia. cbn [Nat.add le_split app].
  replace (x + 256 * 256 ^ Z.of_nat k * y) with (x + 256 ^ Z.of_nat k * y * 256) by lia.
  rewrite Z.mod_add, Z.div_add by lia. f_equal. apply IH.
  split; [apply Z.div_pos; lia |]. apply Z.div_lt_upper_bound; lia.
Qed.

(** Adding [e] at one byte of a little-endian word: the bytes below stay, those
    above take the carry. *)
Lemma le_split_step pre b post e :
  bytes_ok pre ->
  le_split (length pre + S (length post)) (le_combine (pre ++ b :: post) + e * 256 ^ Z.of_nat (length pre)) =
    pre ++ (b + e) `mod` 256 :: le_split (length post) (le_combine post + (b + e) `div` 256).
Proof.
  intros Hpre. rewrite le_combine_app. cbn [le_combine].
  pose proof (le_combine_range pre Hpre).
  replace (le_combine pre + 256 ^ Z.of_nat (length pre) * (b + 256 * le_combine post) + e * 256 ^ Z.of_nat (length pre))
    with (le_combine pre + 256 ^ Z.of_nat (length pre) * (b + e + le_combine post * 256)) by lia.
  rewrite le_split_app, le_split_combine by assumption. cbn [le_split].
  rewrite Z.mod_add, Z.div_add by lia. do 3 f_equal. lia.
Qed.

Lemma be_split_step pre b post e :
  bytes_ok post ->
  be_split (length pre + S (length post)) (be_combine (pre ++ b :: post) + e * 256 ^ Z.of_nat (length post)) =
    be_split (length pre) (be_combine pre + (b + e) `div` 256) ++ (b + e) `mod` 256 :: post.
Proof.
  intros Hpost. unfold be_split, be_combine. rewrite rev_app_distr. cbn [rev]. rewrite <- app_assoc. cbn [app].
  pose proof (le_split_step (rev post) b (rev pre) e (Forall_rev Hpost)) as E. rewrite !length_rev in E.
  replace (length pre + S (length post))%nat with (length post + S (length pre))%nat by lia.
  rewrite E, rev_app_distr. cbn [rev]. now rewrite rev_involutive, <- app_assoc.
Qed.

Lemma le_split_moves l e :
  bytes_ok l -> l <> [] -> e = 1 \/ e = -1 -> le_split (length l) (le_combine l + e) <> l.
Proof.
  intros Hb Hl He E. apply (f_equal le_combine) in E. rewrite le_combine_split in E.
  pose proof (le_combine_range l Hb). assert (256 <= 256 ^ Z.of_nat (length l)).
  { change 256 with (256 ^ 1) at 1. apply Z.pow_le_mono_r; [lia |]. destruct l; [contradiction | cbn; lia]. }
  set (m := 256 ^ Z.of_nat (length l)) in *.
  pose proof (Z.div_mod (le_combine l + e) m ltac:(lia)) as D. change (Z.pow_pos 256 1) with 256 in *.
  rewrite E in D. set (q := (le_combine l + e) / m) in *. clearbody m q.
  destruct (Z.lt_trichotomy q 0) as [Hq | [-> | Hq]]; nia.
Qed.

Lemma be_split_moves l e :
  bytes_ok l -> l <> [] -> e = 1 \/ e = -1 -> be_split (length l) (be_combine l + e) <> l.
Proof.
  intros Hb Hl He E. unfold be_split, be_combine in E. apply (f_equal (@rev Z)) in E. rewrite rev_involutive in E.
  rewrite <- (length_rev l) in E. revert E. apply le_split_moves; auto using Forall_rev.
  intros E%(f_equal (@rev Z)). rewrite rev_involutive in E. contradiction.
Qed.

(** A carry out of the byte goes to the wrong neighbour: the machine's sum is the
    network's exactly when there is none. *)
Lemma carry_way pre b post e :
  bytes_ok (pre ++ b :: post) -> length (pre ++ b :: post) = 4%nat -> -256 < e < 256 ->
  let n := (length pre + S (length post))%nat in
  le_split n (le_combine (pre ++ b :: post) + e * 256 ^ Z.of_nat (length pre)) =
  be_split n (be_combine (pre ++ b :: post) + e * 256 ^ Z.of_nat (length post)) <-> 0 <= b + e < 256.
Proof.
  intros Hb Hl He n. unfold n. apply Forall_app in Hb as [Hpre Hb]. apply Forall_cons_1 in Hb as [Hb Hpost].
  rewrite le_split_step, be_split_step by assumption. unfold byte_ok in Hb. split.
  - intros E. apply app_inj_1 in E as [E1 E2]; [| now rewrite length_be_split].
    injection E2 as E2. destruct (Z.lt_ge_cases (b + e) 0) as [H |].
    { assert ((b + e) `div` 256 = -1) as Q by (symmetry; apply Z.div_unique with (b + e + 256); lia). rewrite Q in *.
      destruct pre; [destruct post; [discriminate |] |].
      - exfalso. revert E2. apply le_split_moves; auto; discriminate.
      - exfalso. symmetry in E1. revert E1. apply be_split_moves; auto; discriminate. }
    destruct (Z.lt_ge_cases (b + e) 256) as [| H']; [lia |].
    assert ((b + e) `div` 256 = 1) as Q by (symmetry; apply Z.div_unique with (b + e - 256); lia). rewrite Q in *.
    destruct pre; [destruct post; [discriminate |] |].
    + exfalso. revert E2. apply le_split_moves; auto; discriminate.
    + exfalso. symmetry in E1. revert E1. apply be_split_moves; auto; discriminate.
  - intros H. rewrite Z.div_small, !Z.add_0_r by lia.
    now rewrite le_split_combine, be_split_combine by assumption.
Qed.

Lemma le_split_mod n x : le_split n (x mod 256 ^ Z.of_nat n) = le_split n x.
Proof. rewrite <- le_combine_split. rewrite <- (length_le_split n x) at 1. apply le_split_combine, le_split_bytes. Qed.

Lemma le_split_u32 x : le_split 4 (u32 x) = le_split 4 x.
Proof.
  rewrite <- (le_split_combine (le_split 4 x)) by apply le_split_bytes.
  rewrite length_le_split, le_combine_split. reflexivity.
Qed.

Lemma be_split_back n x : be_split n (be_combine (le_split n x)) = le_split n x.
Proof. rewrite <- (length_le_split n x) at 1. apply be_split_combine, le_split_bytes. Qed.

Lemma step_byte_range p : 0 < p <= 32 -> 0 <= step_byte p < 4.
Proof. unfold step_byte. intros. split; [apply Z.div_pos; lia | apply Z.div_lt_upper_bound; lia]. Qed.

Lemma step_weight_range p : 0 < p -> 0 < step_weight p <= 128.
Proof.
  intros Hp. unfold step_weight. pose proof (Z.mod_pos_bound (p - 1) 8 ltac:(lia)).
  split; [lia |]. change 128 with (2 ^ 7). apply Z.pow_le_mono_r; lia.
Qed.

(** The new word of next ([e] the weight) and prev ([e] its opposite). *)
Lemma step4 a p e :
  cidr_ok a -> 0 < p <= 32 -> -256 < e < 256 ->
  (value4 (with_s_addr a (u32 (s_addr a + e * 256 ^ step_byte p))) = u32 (value4 a + e * 256 ^ (3 - step_byte p)) <->
   0 <= nth (Z.to_nat (step_byte p)) (addr a) 0 + e < 256).
Proof.
  intros Ha Hp He. pose proof (step_byte_range p Hp) as Hi. pose proof (take4_len a Ha) as Hl.
  pose proof (take4_bytes a Ha) as Hb. set (i := Z.to_nat (step_byte p)) in *. unfold value4, s_addr, with_s_addr. cbn [addr].
  rewrite le_split_u32. rewrite take_app_length' by now rewrite length_le_split.
  assert (exists pre b post, take 4 (addr a) = pre ++ b :: post /\ length pre = i /\ nth i (addr a) 0 = b)
    as (pre & b & post & E & Hpre & Hn).
  { exists (take i (take 4 (addr a))), (nth i (addr a) 0), (drop (S i) (take 4 (addr a))).
    split; [| split; [rewrite length_take; lia | reflexivity]].
    assert (take 4 (addr a) !! i = Some (nth i (addr a) 0)) as E.
    { rewrite lookup_take_lt by lia. apply lookup_nth. rewrite length_take in Hl. lia. }
    now rewrite (take_drop_middle _ _ _ E). }
  rewrite Hn, E in *. rewrite length_app in Hl. cbn [length] in Hl.
  pose proof (carry_way pre b post e Hb ltac:(rewrite length_app; cbn [length]; lia) He) as W. cbv zeta in W.
  rewrite Hl in W. rewrite <- W. replace (step_byte p) with (Z.of_nat (length pre)) by lia.
  replace (3 - Z.of_nat (length pre)) with (Z.of_nat (length post)) by lia. split.
  - intros Q. apply (f_equal (be_split 4)) in Q.
    rewrite be_split_back in Q. rewrite Q. unfold be_split. now rewrite le_split_u32.
  - intros ->. now rewrite be_combine_split.
Qed.

(** [next] of IPv4 is the network's next block exactly when the byte that holds
    the last bit of the prefix does not overflow; otherwise the carry goes to the
    byte on its right. *)
Theorem next4_exact a b l q pr out :
  cidr_ok a -> 0 < prefix b <= 32 ->
  exists n, cidr_next4 b (Calc (a :: l) q pr out) = Val true (Calc (n :: a :: l) q pr out) /\ prefix n = prefix b /\
    (value4 n = u32 (value4 a + 2 ^ (32 - prefix b)) <->
     nth (Z.to_nat (step_byte (prefix b))) (addr a) 0 + step_weight (prefix b) < 256).
Proof.
  intros Ha Hp. unfold cidr_next4. run_calc. rewrite block4_spec by assumption. cbn [of_option]. run_calc.
  eexists. split; [reflexivity |]. split; [reflexivity |].
  pose proof (step_word _ Hp) as [-> ->]. pose proof (step_weight_range (prefix b) ltac:(lia)).
  assert (cidr_ok (with_prefix a (prefix b))) as Ha' by (apply with_prefix_ok; [assumption | lia]).
  pose proof (step4 (with_prefix a (prefix b)) (prefix b) (step_weight (prefix b)) Ha' Hp ltac:(lia)) as S4.
  change (value4 (with_prefix a (prefix b))) with (value4 a) in S4.
  change (addr (with_prefix a (prefix b))) with (addr a) in S4.
  change (s_addr (with_prefix a (prefix b))) with (s_addr a) in S4. rewrite S4.
  assert (0 <= nth (Z.to_nat (step_byte (prefix b))) (addr a) 0) by (apply nth_byte, Ha). lia.
Qed.

(** [prev], the same way: exactly when the byte does not underflow. *)
Theorem prev4_exact a b l q pr out :
  cidr_ok a -> 0 < prefix b <= 32 ->
  exists n, cidr_prev4 b (Calc (a :: l) q pr out) = Val true (Calc (n :: a :: l) q pr out) /\ prefix n = prefix b /\
    (value4 n = u32 (value4 a - 2 ^ (32 - prefix b)) <->
     step_weight (prefix b) <= nth (Z.to_nat (step_byte (prefix b))) (addr a) 0).
Proof.
  intros Ha Hp. unfold cidr_prev4. run_calc. rewrite block4_spec by assumption. cbn [of_option]. run_calc.
  eexists. split; [reflexivity |]. split; [reflexivity |].
  pose proof (step_word _ Hp) as [-> ->]. pose proof (step_weight_range (prefix b) ltac:(lia)).
  assert (cidr_ok (with_prefix a (prefix b))) as Ha' by (apply with_prefix_ok; [assumption | lia]).
  pose proof (step4 (with_prefix a (prefix b)) (prefix b) (- step_weight (prefix b)) Ha' Hp ltac:(lia)) as S4.
  rewrite !Z.mul_opp_l, !Z.add_opp_r in S4.
  change (value4 (with_prefix a (prefix b))) with (value4 a) in S4.
  change (addr (with_prefix a (prefix b))) with (addr a) in S4.
  change (s_addr (with_prefix a (prefix b))) with (s_addr a) in S4. rewrite S4.
  pose proof (nth_byte (addr a) (Z.to_nat (step_byte (prefix b))) (ok_bytes a Ha)) as Hn. unfold byte_ok in Hn. lia.
Qed.

(** 10.0.255.0/24 and its "next" /24. *)
Definition ex_net : cidr := Cidr AF_INET 24 ([10; 0; 255; 0] ++ replicate 12 0).
Definition ex_arg : cidr := Cidr AF_INET 24 (replicate 16 0).

Lemma next4_exact_witness :
  exists n, cidr_next4 ex_arg (Calc [ex_net] false false []) = Val true (Calc [n; ex_net] false false []) /\
    value4 n <> u32 (value4 ex_net + 2 ^ (32 - prefix ex_arg)).
Proof.
  destruct (next4_exact ex_net ex_arg [] false false []) as (n & H & _ & W); [constructor; by_compute | by_compute |].
  exists n. split; [exact H |]. intros E%W. vm_compute in E. discriminate.
Defined.

Lemma prev4_exact_witness :
  exists n, cidr_prev4 ex_arg (Calc [ex_net] false false []) = Val true (Calc [n; ex_net] false false []) /\
    value4 n = u32 (value4 ex_net - 2 ^ (32 - prefix ex_arg)).
Proof.
  destruct (prev4_exact ex_net ex_arg [] false false []) as (n & H & _ & W); [constructor; by_compute | by_compute |].
  exists n. split; [exact H |]. apply W. by_compute.
Defined.

Example next4_carry :
  cidr_next4 ex_arg (Calc [ex_net] false false []) =
  Val true (Calc [Cidr AF_INET 24 ([10; 0; 0; 1] ++ replicate 12 0); ex_net] false false []).
Proof. reflexivity. Qed.

(** ** Operations on IPv6 addresses *)

Lemma value6_range c : cidr_ok c -> 0 <= value6 c < 2 ^ 128.
Proof.
  intros [Hl Hb _]. pose proof (be_combine_range _ Hb) as Hr. rewrite Hl in Hr. apply Hr.
Qed.

(** One turn of a [do] loop with [s] = 1 for additions and -1 for subtractions:
    the byte and the carry make up the exact result. *)
Definition byte_step_ok (s : Z) (f : Z -> Z -> Z -> Z * Z) : Prop :=
  forall a b c, byte_ok a -> byte_ok b -> c = 0 \/ c = 1 ->
    let '(v, c') := f a b c in byte_ok v /\ (c' = 0 \/ c' = 1) /\ a + s * (b + c) = v + 256 * (s * c').

Lemma add_byte_ok : byte_step_ok 1 add_byte.
Proof.
  unfold byte_step_ok, byte_ok, add_byte, u8. intros a b c Ha Hb Hc. change (2 ^ 8) with 256.
  pose proof (Z.mod_pos_bound (a + b + c) 256 ltac:(lia)). pose proof (Z.div_mod (a + b + c) 256).
  split; [lia |]. bool_cases; split; lia.
Qed.

Lemma sub_byte_ok : byte_step_ok (-1) sub_byte.
Proof.
  unfold byte_step_ok, byte_ok, sub_byte, u8. intros a b c Ha Hb Hc. change (2 ^ 8) with 256.
  pose proof (Z.mod_pos_bound (a - (b + c)) 256 ltac:(lia)). pose proof (Z.div_mod (a - (b + c)) 256).
  split; [lia |]. bool_cases; split; lia.
Qed.

Section CarryLoop.
Context (s : Z) (f : Z -> Z -> Z -> Z * Z).
Hypothesis f_ok : byte_step_ok s f.

Lemma carry_loop_spec x y c :
  bytes_ok x -> bytes_ok y -> length x = length y -> c = 0 \/ c = 1 ->
  let '(v, c') := carry_loop f x y c in
  bytes_ok v /\ length v = length x /\ (c' = 0 \/ c' = 1) /\
  le_combine x + s * (le_combine y + c) = le_combine v + 256 ^ Z.of_nat (length x) * (s * c').
Proof using All.
  intros Hx. revert y c. induction Hx as [| a x Ha Hx IH]; intros [| b y] c Hy Hl Hc; try discriminate.
  { cbn. repeat split; auto. lia. }
  apply Forall_cons_1 in Hy as [Hb Hy]. cbn [carry_loop]. pose proof (f_ok a b c Ha Hb Hc) as F.
  destruct (f a b c) as [v c1]. destruct F as (Hv & Hc1 & E1).
  specialize (IH y c1 Hy ltac:(now injection Hl) Hc1). destruct (carry_loop f x y c1) as [vs c2].
  destruct IH as (Hvs & Hlen & Hc2 & E2). cbn [le_combine length].
  split; [now constructor |]. split; [now rewrite Hlen |]. split; [assumption |].
  rewrite Nat2Z.inj_succ, Z.pow_succ_r by lia.
  replace (a + 256 * le_combine x + s * (b + 256 * le_combine y + c))
    with (a + s * (b + c) + 256 * (le_combine x + s * le_combine y)) by lia.
  rewrite E1. lia.
Qed.

Lemma carry_addr_spec x y c :
  bytes_ok x -> bytes_ok y -> length x = length y -> c = 0 \/ c = 1 ->
  exists c', carry_addr f x y c = (be_split (length x) (be_combine x + s * (be_combine y + c)), c') /\
    (c' = 0 \/ c' = 1) /\
    0 <= be_combine x + s * (be_combine y + c) - 256 ^ Z.of_nat (length x) * (s * c') < 256 ^ Z.of_nat (length x).
Proof using All.
  intros Hx Hy Hl Hc. unfold carry_addr.
  pose proof (carry_loop_spec (rev x) (rev y) c (Forall_rev Hx) (Forall_rev Hy) ltac:(rewrite !length_rev; exact Hl) Hc) as L.
  destruct (carry_loop f (rev x) (rev y) c) as [v c']. destruct L as (Hv & Hlen & Hc' & E).
  rewrite length_rev in *. fold (be_combine x) (be_combine y) in E. exists c'.
  pose proof (le_combine_range v Hv) as R. rewrite Hlen in R. rewrite E. split; [| split; [assumption | lia]].
  f_equal. unfold be_split. f_equal. rewrite <- le_split_mod, (Z.mul_comm _ (s * c')), Z.mod_add by lia.
  rewrite Z.mod_small by assumption. rewrite <- Hlen. symmetry. now apply le_split_combine.
Qed.
End CarryLoop.

Section Ops6.
Context (a b : cidr) (l : list cidr) (q pr : bool) (out : list Z).
Hypothesis Ha : cidr_ok a.
Hypothesis Hb : cidr_ok b.

(** The byte loops of add and sub are the arithmetic of 128-bit integers, and
    the verdict is that the result is one; the wrapped result is left on the
    stack in any case. *)
Theorem add6_sub6_spec :
  family a = AF_INET6 -> family b = AF_INET6 ->
  cidr_add6 b (Calc (a :: l) q pr out) =
    Val (value6 a + value6 b <? 2 ^ 128)
      (Calc (with_addr a (be_split 16 (value6 a + value6 b)) :: a :: l) q pr out) /\
  cidr_sub6 b (Calc (a :: l) q pr out) =
    Val (value6 b <=? value6 a)
      (Calc (with_addr a (be_split 16 (value6 a - value6 b)) :: a :: l) q pr out).
Proof using Ha Hb.
  intros Fa Fb. unfold cidr_add6, cidr_sub6. run_calc. rewrite Fa, Fb.
  rewrite !bool_decide_eq_true_2 by reflexivity. cbn [negb orb].
  pose proof (value6_range a Ha) as Ra. pose proof (value6_range b Hb) as Rb. unfold value6 in *.
  destruct Ha as [Hla Hba _], Hb as [Hlb Hbb _]. assert (length (addr a) = length (addr b)) as Hl by congruence.
  pose proof (carry_addr_spec 1 add_byte add_byte_ok _ _ 0 Hba Hbb Hl ltac:(now left)) as (c & E & Hc & R).
  pose proof (carry_addr_spec (-1) sub_byte sub_byte_ok _ _ 0 Hba Hbb Hl ltac:(now left)) as (c' & E' & Hc' & R').
  rewrite Hla in *. change (256 ^ Z.of_nat 16) with (2 ^ 128) in *. rewrite E, E'.
  replace (be_combine (addr a) + 1 * (be_combine (addr b) + 0)) with (be_combine (addr a) + be_combine (addr b)) in * by lia.
  replace (be_combine (addr a) + -1 * (be_combine (addr b) + 0)) with (be_combine (addr a) - be_combine (addr b)) in * by lia.
  split; f_equal; bool_cases; lia.
Qed.
End Ops6.

(** The step of the loop that starts at byte [i]. *)
Definition step6 (p : Z) : Z := 256 ^ (15 - (p - 1) `div` 8).

Lemma be_combine_replicate0 n : be_combine (replicate n 0) = 0.
Proof.
  induction n as [| n IH]; [reflexivity |]. cbn [replicate]. rewrite be_combine_cons, IH. lia.
Qed.

Lemma be_split_app n m x y :
  0 <= y < 256 ^ Z.of_nat m -> be_split (n + m) (x * 256 ^ Z.of_nat m + y) = be_split n x ++ be_split m y.
Proof.
  intros Hy. unfold be_split. rewrite Nat.add_comm, Z.mul_comm, (Z.add_comm _ y), le_split_app by assumption.
  apply rev_app_distr.
Qed.

(** The loop from byte [idx] on: a carry into byte 0 is the overflow. *)
Lemma step_addr_spec s f x idx :
  byte_step_ok s f -> bytes_ok x -> (idx < length x)%nat ->
  let z := be_combine x + s * 256 ^ Z.of_nat (length x - 1 - idx) in
  exists c, step_addr f x idx = Some (be_split (length x) z, c) /\ (c = 0 \/ c = 1) /\
    0 <= z - 256 ^ Z.of_nat (length x) * (s * c) < 256 ^ Z.of_nat (length x).
Proof.
  intros Hf Hb Hi z. unfold step_addr. destruct (Nat.ltb_spec idx (length x)); [| lia].
  set (h := take (S idx) x). set (t := drop (S idx) x).
  assert (x = h ++ t) as Ex by (symmetry; apply take_drop).
  assert (length h = S idx) as Hh by (unfold h; rewrite length_take; lia).
  assert (bytes_ok h /\ bytes_ok t) as [Hbh Hbt] by (unfold h, t; auto using Forall_take, Forall_drop).
  pose proof (carry_addr_spec s f Hf h (replicate (S idx) 0) 1 Hbh) as (c & E & Hc & R).
  { apply Forall_replicate. unfold byte_ok. lia. }
  { now rewrite length_replicate. }
  { now right. }
  rewrite E. exists c. rewrite be_combine_replicate0 in *.
  replace (s * (0 + 1)) with s in * by lia.
  assert (length t = length x - 1 - idx)%nat as Ht by (unfold t; rewrite length_drop; lia).
  assert (z = (be_combine h + s) * 256 ^ Z.of_nat (length t) + be_combine t) as Ez.
  { unfold z. rewrite <- Ht, Ex, be_combine_app. lia. }
  pose proof (be_combine_range t Hbt) as Rt.
  split; [| split; [assumption |]].
  - do 2 f_equal. rewrite Ez. rewrite Ex, length_app, be_split_app by assumption.
    now rewrite be_split_combine by assumption.
  - rewrite Ez. rewrite Ex, length_app, Nat2Z.inj_add, Z.pow_add_r by lia.
    set (H0 := 256 ^ Z.of_nat (length h)) in *. set (T0 := 256 ^ Z.of_nat (length t)) in *.
    set (u := be_combine h + s) in *. clearbody H0 T0 u.
    replace (u * T0 + be_combine t - H0 * T0 * (s * c)) with ((u - H0 * (s * c)) * T0 + be_combine t) by lia.
    nia.
Qed.

Lemma step6_index p : 0 < p <= 128 -> (Z.to_nat (u8 ((p - 1) `div` 8)) < 16)%nat /\
  256 ^ Z.of_nat (16 - 1 - Z.to_nat (u8 ((p - 1) `div` 8))) = step6 p.
Proof.
  intros Hp. assert (0 <= (p - 1) `div` 8 < 16)
    by (split; [apply Z.div_pos; lia | apply Z.div_lt_upper_bound; lia]).
  rewrite u8_id by lia. split; [lia |]. unfold step6. f_equal. lia.
Qed.

(** next and prev of IPv6 step by the last whole byte of the prefix: by
    [2 ^ (128 - p)] only when 8 divides [p].  The prefix is set only on success. *)
Theorem next6_prev6_spec a b l q pr out :
  cidr_ok a -> 0 < prefix b <= 128 ->
  (let z := value6 a + step6 (prefix b) in
   cidr_next6 b (Calc (a :: l) q pr out) =
     Val (z <? 2 ^ 128)
       (Calc (with_prefix (with_addr a (be_split 16 z)) (if z <? 2 ^ 128 then prefix b else prefix a) :: a :: l) q pr out)) /\
  (let z := value6 a - step6 (prefix b) in
   cidr_prev6 b (Calc (a :: l) q pr out) =
     Val (0 <=? z)
       (Calc (with_prefix (with_addr a (be_split 16 z)) (if 0 <=? z then prefix b else prefix a) :: a :: l) q pr out)) /\
  (step6 (prefix b) = 2 ^ (128 - prefix b) <-> (8 | prefix b)).
Proof.
  intros Ha Hp. pose proof (value6_range a Ha) as Ra. destruct Ha as [Hla Hba _].
  pose proof (step6_index _ Hp) as [Hi Es]. unfold value6 in *.
  pose proof (step_addr_spec 1 add_byte (addr a) _ add_byte_ok Hba ltac:(rewrite Hla; exact Hi)) as (c & E & Hc & R).
  pose proof (step_addr_spec (-1) sub_byte (addr a) _ sub_byte_ok Hba ltac:(rewrite Hla; exact Hi)) as (c' & E' & Hc' & R').
  rewrite Hla, Es in *. change (256 ^ Z.of_nat 16) with (2 ^ 128) in *.
  rewrite Z.mul_1_l in *. replace (-1 * step6 (prefix b)) with (- step6 (prefix b)) in * by lia. rewrite Z.add_opp_r in *.
  split; [| split].
  - unfold cidr_next6, cidr_step6. run_calc. destruct (Z.eqb_spec (prefix b) 0); [lia |].
    rewrite E. cbn [of_option]. run_calc. destruct Hc as [-> | ->]; cbn [Z.eqb negb]; run_calc.
    + destruct (Z.ltb_spec (be_combine (addr a) + step6 (prefix b)) (2 ^ 128)); [reflexivity | lia].
    + destruct (Z.ltb_spec (be_combine (addr a) + step6 (prefix b)) (2 ^ 128)); [lia | reflexivity].
  - unfold cidr_prev6, cidr_step6. run_calc. destruct (Z.eqb_spec (prefix b) 0); [lia |].
    rewrite E'. cbn [of_option]. run_calc. destruct Hc' as [-> | ->]; cbn [Z.eqb negb]; run_calc.
    + destruct (Z.leb_spec 0 (be_combine (addr a) - step6 (prefix b))); [reflexivity | lia].
    + destruct (Z.leb_spec 0 (be_combine (addr a) - step6 (prefix b))); [lia | reflexivity].
  - unfold step6. change 256 with (2 ^ 8). assert (0 <= (prefix b - 1) `div` 8 < 16)
      by (split; [apply Z.div_pos; lia | apply Z.div_lt_upper_bound; lia]).
    rewrite <- Z.pow_mul_r by lia. pose proof (Z.div_mod (prefix b - 1) 8 ltac:(lia)).
    pose proof (Z.mod_pos_bound (prefix b - 1) 8 ltac:(lia)). split.
    + intros Q. apply Z.pow_inj_r in Q; [| lia..]. exists (16 - (15 - (prefix b - 1) `div` 8)). lia.
    + intros [k Hk]. f_equal. assert ((prefix b - 1) `div` 8 = k - 1); [| lia].
      symmetry. apply Z.div_unique with 7; lia.
Qed.

(** The bytes of an address with the host part cleared. *)
Definition net_bytes (p : Z) (l : list Z) : list Z :=
  let i := Z.to_nat ((128 - p) `div` 8) in
  take (15 - i) l ++ Z.land (nth (15 - i) l 0) (byte_mask ((128 - p) `mod` 8)) :: replicate i 0.

Lemma byte_mask_spec x k : byte_ok x -> 0 <= k < 8 -> Z.land x (byte_mask k) = block_first k x.
Proof.
  unfold byte_ok. intros Hx Hk. rewrite block_first_div by lia.
  rewrite (Z.mul_comm (2 ^ k)), <- Z.shiftr_div_pow2, <- Z.shiftl_mul_pow2 by lia.
  unfold byte_mask, u8. replace (2 ^ k - 1) with (Z.ones k) by (rewrite Z.ones_equiv; lia).
  rewrite <- Z.land_ones by lia. bitwise.
  destruct (Z.lt_ge_cases n 8).
  - rewrite (Z.ones_spec_low 8), andb_true_r by lia. destruct (Z.lt_ge_cases n k).
    + rewrite Z.ones_spec_low, andb_false_r, Z.testbit_neg_r by lia. reflexivity.
    + rewrite Z.ones_spec_high, andb_true_r, Z.shiftr_spec by lia. f_equal. lia.
  - rewrite (testbit_high x 8), Z.shiftr_spec, (testbit_high x 8) by lia. reflexivity.
Qed.

Lemma block_first_split k i b r x :
  0 <= i -> 0 <= k < 8 -> 0 <= r < 256 ^ i ->
  block_first (8 * i + k) ((x * 256 + b) * 256 ^ i + r) = (x * 256 + block_first k b) * 256 ^ i.
Proof.
  intros Hi Hk Hr. rewrite !block_first_div by lia.
  rewrite Z.pow_add_r, Z.pow_mul_r by lia. change (2 ^ 8) with 256.
  rewrite <- Z.div_div, Z.div_add_l, (Z.div_small r), Z.add_0_r by lia.
  generalize (256 ^ i). intros w.
  assert (256 = 2 ^ (8 - k) * 2 ^ k) as E by (rewrite <- Z.pow_add_r by lia; replace (8 - k + k) with 8 by lia; reflexivity).
  assert ((x * 256 + b) / 2 ^ k = x * 2 ^ (8 - k) + b / 2 ^ k) as ->
    by (rewrite E, Z.mul_assoc, Z.div_add_l by lia; reflexivity).
  rewrite E. ring.
Qed.

Lemma host_index p : 0 < p <= 128 -> 0 <= (128 - p) `div` 8 < 16.
Proof. intros. split; [apply Z.div_pos; lia | apply Z.div_lt_upper_bound; lia]. Qed.

Lemma net_bytes_spec p l :
  bytes_ok l -> length l = 16%nat -> 0 < p <= 128 ->
  bytes_ok (net_bytes p l) /\ length (net_bytes p l) = 16%nat /\
  be_combine (net_bytes p l) = block_first (128 - p) (be_combine l).
Proof.
  intros Hb Hl Hp. pose proof (host_index p Hp) as Hi. unfold net_bytes.
  pose proof (Z.mod_pos_bound (128 - p) 8 ltac:(lia)) as Hk.
  pose proof (nth_byte l (15 - Z.to_nat ((128 - p) `div` 8)) Hb) as Hn.
  set (i := Z.to_nat ((128 - p) `div` 8)) in *. set (k := (128 - p) `mod` 8) in *.
  assert (0 <= byte_mask k < 2 ^ 8) as Hm by (unfold byte_mask; apply u8_range).
  split; [| split].
  - apply Forall_app. split; [auto using Forall_take |]. constructor; [| apply Forall_replicate; unfold byte_ok; lia].
    unfold byte_ok in *. change 256 with (2 ^ 8). apply land_le_l; lia.
  - rewrite length_app. cbn [length]. rewrite length_take, length_replicate. lia.
  - assert (l = take (15 - i) l ++ nth (15 - i) l 0 :: drop (S (15 - i)) l) as El.
    { symmetry. apply take_drop_middle, lookup_nth. lia. }
    rewrite El at 3. rewrite !be_combine_app, !be_combine_cons, be_combine_replicate0, byte_mask_spec by (assumption || lia).
    cbn [length]. rewrite length_replicate. assert (length (drop (S (15 - i)) l) = i) as -> by (rewrite length_drop; lia).
    pose proof (Z.div_mod (128 - p) 8 ltac:(lia)). replace (128 - p) with (8 * Z.of_nat i + k) by lia.
    rewrite Nat2Z.inj_succ, Z.pow_succ_r by lia.
    pose proof (be_combine_range (drop (S (15 - i)) l) ltac:(auto using Forall_drop)) as Hr.
    assert (length (drop (S (15 - i)) l) = i) as E by (rewrite length_drop; lia). rewrite E in Hr.
    replace (be_combine (take (15 - i) l) * (256 * 256 ^ Z.of_nat i) +
      (nth (15 - i) l 0 * 256 ^ Z.of_nat i + be_combine (drop (S (15 - i)) l)))
      with ((be_combine (take (15 - i) l) * 256 + nth (15 - i) l 0) * 256 ^ Z.of_nat i + be_combine (drop (S (15 - i)) l)) by lia.
    rewrite block_first_split by lia. lia.
Qed.

Lemma clear_host_spec p l :
  bytes_ok l -> length l = 16%nat -> 0 <= p <= 128 ->
  clear_host p l = Some (be_split 16 (block_first (128 - p) (be_combine l))).
Proof.
  intros Hb Hl Hp. unfold clear_host, host_bits, host_bytes. rewrite u32_id by lia.
  destruct (Z.eq_dec p 0) as [-> | ?].
  { pose proof (be_combine_range l Hb) as R. rewrite Hl in R.
    unfold block_first. change (2 ^ (128 - 0)) with (256 ^ Z.of_nat 16). rewrite (Z.mod_small (be_combine l)) by exact R. rewrite Z.sub_diag.
    reflexivity. }
  pose proof (net_bytes_spec p l Hb Hl ltac:(lia)) as (Hb' & Hl' & <-).
  assert (be_split 16 (be_combine (net_bytes p l)) = net_bytes p l) as -> by (rewrite <- Hl'; now apply be_split_combine).
  pose proof (host_index p ltac:(lia)) as Hi. unfold net_bytes. set (i := Z.to_nat ((128 - p) `div` 8)) in *.
  destruct (Nat.ltb_spec 16 i); [lia |]. destruct (Nat.eqb_spec i 16); [lia |]. cbn [orb andb]. f_equal.
  assert (take (16 - i) l = take (15 - i) l ++ [nth (15 - i) l 0]) as ->.
  { replace (16 - i)%nat with (S (15 - i)) by lia. apply take_S_r, lookup_nth. lia. }
  rewrite <- app_assoc. cbn [app].
  destruct (Z.eqb_spec ((128 - p) `mod` 8) 0) as [E8 | ?].
  - rewrite E8. do 2 f_equal. rewrite byte_mask_spec by (auto using nth_byte || lia).
    unfold block_first. rewrite Z.mod_1_r. lia.
  - assert (length (take (15 - i) l) = 15 - i)%nat as El by (rewrite length_take; lia).
    rewrite app_nth2, El, Nat.sub_diag by lia. cbn [nth].
    rewrite <- El at 1. rewrite insert_app_r_alt, Nat.sub_diag by lia. reflexivity.
Qed.

(** [network] of IPv6 clears the host part, for every prefix up to 128, and
    leaves the prefix as it is. *)
Theorem network6_spec a l q pr out :
  cidr_ok a -> prefix a <= 128 ->
  cidr_network6 (Calc (a :: l) q pr out) =
    Val true (Calc (with_addr a (be_split 16 (block_first (128 - prefix a) (value6 a))) :: a :: l) q pr out).
Proof.
  intros [Hl Hb Hp0] Hp. unfold cidr_network6. run_calc.
  rewrite clear_host_spec by first [assumption | lia]. reflexivity.
Qed.

Definition in_block6 (c : cidr) (x : Z) : Prop :=
  block_first (128 - prefix c) (value6 c) <= x <= block_last (128 - prefix c) (value6 c).

Lemma fits6_spec a b :
  cidr_ok a -> cidr_ok b -> prefix a <= 128 -> prefix b <= 128 ->
  fits6 a b = true <-> forall x, in_block6 b x -> in_block6 a x.
Proof.
  intros Ha Hb Hpa Hpb. pose proof (value6_range a Ha) as Ra. pose proof (value6_range b Hb) as Rb.
  destruct Ha as [Hla Hba Ha0], Hb as [Hlb Hbb Hb0].
  unfold fits6, in_block6, host_bits, host_bytes, value6 in *. rewrite block_sub, u32_id by lia.
  destruct (Z.eqb_spec (prefix a) 0) as [E0 | ?].
  { rewrite E0. cbn [orb]. unfold block_first. rewrite !Z.mod_small by lia. intuition lia. }
  pose proof (host_index (prefix a) ltac:(lia)) as Hi. rewrite (Z.mod_small _ 16), u8_id by lia.
  pose proof (net_bytes_spec (prefix a) (addr a) Hba Hla ltac:(lia)) as (Na & La & <-).
  pose proof (net_bytes_spec (prefix a) (addr b) Hbb Hlb ltac:(lia)) as (Nb & Lb & <-).
  assert (be_combine (net_bytes (prefix a) (addr a)) = be_combine (net_bytes (prefix a) (addr b)) <->
          net_bytes (prefix a) (addr a) = net_bytes (prefix a) (addr b)) as ->.
  { split; [| congruence]. intros E. rewrite <- (be_split_combine _ Na), <- (be_split_combine _ Nb). congruence. }
  unfold net_bytes. set (i := Z.to_nat ((128 - prefix a) `div` 8)) in *. cbn [orb].
  rewrite !andb_true_iff, orb_true_iff, Z.leb_le, Z.eqb_eq, Nat.eqb_eq, bool_decide_eq_true. split.
  - intros [[H1 H2] H3]. split; [lia |]. rewrite H2. f_equal. destruct H3 as [-> | H3]; [reflexivity | assumption].
  - intros [H1 H2]. apply app_inj_1 in H2 as [H2 H3]; [| rewrite !length_take; lia].
    injection H3 as H3. split; [split; [lia | assumption] | now right].
Qed.

(** [contains] of IPv6: the verdict is that every address of the argument's block
    is an address of the base's block. *)
Theorem contains6_block a b l q pr out :
  cidr_ok a -> cidr_ok b -> prefix a <= 128 -> prefix b <= 128 ->
  exists v out', cidr_contains6 b (Calc (a :: l) q pr out) = Val v (Calc (a :: l) q true out') /\
    (v = true <-> forall x, in_block6 b x -> in_block6 a x).
Proof.
  intros Ha Hb Hpa Hpb. pose proof (fits6_spec a b Ha Hb Hpa Hpb) as F. unfold cidr_contains6. run_calc.
  destruct pr, q; eexists (fits6 a b), _; (split; [reflexivity | exact F]).
Qed.

(** [6to4]: the octets of the address are placed in reverse. *)
Theorem sixto4_reversed a l q pr out :
  cidr_ok a ->
  cidr_6to4 (Calc (a :: l) q pr out) =
    Val true (Calc (Cidr AF_INET6 48 (be_split 2 0x2002 ++ rev (take 4 (addr a)) ++ replicate 10 0) :: a :: l) q pr out).
Proof.
  intros [Hl Hb _]. unfold cidr_6to4. run_calc. do 4 f_equal. unfold s_addr.
  destruct (addr a) as [| b0 [| b1 [| b2 [| b3 t]]]]; try discriminate. clear Hl.
  do 4 (apply Forall_cons_1 in Hb as [? Hb]). unfold byte_ok in *.
  cbn [firstn rev app le_combine]. rewrite !land_255, !Z.shiftr_div_pow2 by lia. unfold u8.
  change (be_split 2 8194) with [32; 2]. rewrite Z.mul_0_r, Z.add_0_r.
  set (w := b0 + 256 * (b1 + 256 * (b2 + 256 * b3))).
  assert (w / 2 ^ 24 mod 2 ^ 8 = b3 /\ w / 2 ^ 16 mod 256 = b2 /\ w / 2 ^ 8 mod 256 = b1 /\ w mod 256 = b0)
    as (-> & -> & -> & ->) by (unfold w; repeat split; Z.to_euclidean_division_equations; lia).
  reflexivity.
Qed.

(** [howmany]: the number of blocks of the argument's size in the base's block;
    32 bits of difference are not provided for. *)
Theorem howmany_count a b l q pr out :
  cidr_ok a -> cidr_ok b -> prefix b - prefix a < 32 ->
  cidr_howmany b (Calc (a :: l) q pr out) =
    Val true (Calc (a :: l) q true
      (if q then out else out ++ (if pr then [32] else []) ++
         print_d (if prefix b <? prefix a then 0 else 2 ^ (prefix b - prefix a)))).
Proof.
  intros [_ _ Ha] [_ _ Hb] Hd. unfold cidr_howmany, print_u. run_calc.
  destruct (Z.ltb_spec (prefix b) (prefix a)) as [Hlt | Hge].
  - destruct pr, q; cbn [app stack quiet printed output]; rewrite <- ?app_assoc; reflexivity.
  - unfold shl1. rewrite u32_id by lia. destruct (Z.ltb_spec (prefix b - prefix a) 32); [| lia].
    cbn [of_option]. run_calc. rewrite u32_s32, u32_id
      by (split; [lia |]; apply Z.pow_lt_mono_r; lia).
    destruct pr, q; cbn [app stack quiet printed output]; rewrite <- ?app_assoc; reflexivity.
Qed.

(** ** Examples *)

Definition ex_six : cidr := Cidr AF_INET6 36 ([0x20; 0x01; 0x0d; 0xb8; 0xf0] ++ replicate 11 0).
Definition ex_six_arg : cidr := Cidr AF_INET6 52 (replicate 15 0 ++ [1]).

Lemma add4_spec_witness :
  cidr_add4 ex_arg (Calc [ex_net] false false []) = Val true (Calc [ex_net; ex_net] false false []).
Proof.
  rewrite (add4_spec ex_net ex_arg [] false false []); [reflexivity | constructor; by_compute | constructor; by_compute | reflexivity | reflexivity].
Defined.

Lemma sub4_spec_witness :
  cidr_sub4 ex_net (Calc [ex_arg] false false []) = Val false (Calc [ex_arg; ex_arg] false false []).
Proof.
  rewrite (sub4_spec ex_arg ex_net [] false false []); [reflexivity | constructor; by_compute | constructor; by_compute | reflexivity | reflexivity].
Defined.

Lemma add6_sub6_spec_witness :
  (exists s, cidr_add6 ex_six_arg (Calc [ex_six] false false []) = Val true s) /\
  (exists s, cidr_sub6 ex_six (Calc [ex_six_arg] false false []) = Val false s).
Proof.
  pose proof (add6_sub6_spec ex_six ex_six_arg [] false false [] ltac:(constructor; by_compute) ltac:(constructor; by_compute)
    eq_refl eq_refl) as [E _].
  pose proof (add6_sub6_spec ex_six_arg ex_six [] false false [] ltac:(constructor; by_compute) ltac:(constructor; by_compute)
    eq_refl eq_refl) as [_ E'].
  split; eexists; [rewrite E | rewrite E']; reflexivity.
Defined.

(** 2001:db8:f000::/36: "next" of /52 steps by 2^72, not by 2^76. *)
Lemma next6_prev6_spec_witness :
  (exists s, cidr_next6 ex_six_arg (Calc [ex_six] false false []) = Val true s) /\
  (exists s, cidr_prev6 ex_six_arg (Calc [ex_six] false false []) = Val true s) /\
  step6 (prefix ex_six_arg) <> 2 ^ (128 - prefix ex_six_arg).
Proof.
  pose proof (next6_prev6_spec ex_six ex_six_arg [] false false [] ltac:(constructor; by_compute) ltac:(by_compute)) as (E & E' & W).
  split; [eexists; rewrite E; reflexivity |]. split; [eexists; rewrite E'; reflexivity |].
  intros [k Hk]%W. cbn in Hk. lia.
Defined.

Lemma network6_spec_witness :
  cidr_network6 (Calc [ex_six] false false []) =
    Val true (Calc [Cidr AF_INET6 36 ([0x20; 0x01; 0x0d; 0xb8; 0xf0] ++ replicate 11 0); ex_six] false false []).
Proof. rewrite (network6_spec ex_six [] false false []); [reflexivity | constructor; by_compute | by_compute]. Defined.

Lemma contains6_block_witness :
  exists v out', cidr_contains6 ex_six_arg (Calc [ex_six] false false []) = Val v (Calc [ex_six] false true out') /\
    (v = true <-> forall x, in_block6 ex_six_arg x -> in_block6 ex_six x).
Proof. apply contains6_block; try (constructor; by_compute); by_compute. Defined.

Lemma sixto4_reversed_witness :
  exists s, cidr_6to4 (Calc [ex_net] false false []) = Val true s /\
    stack s = [Cidr AF_INET6 48 ([0x20; 0x02; 0; 255; 0; 10] ++ replicate 10 0); ex_net].
Proof.
  eexists. split; [rewrite (sixto4_reversed ex_net [] false false []) by (constructor; by_compute); reflexivity | reflexivity].
Defined.

Lemma howmany_count_witness :
  cidr_howmany ex_six_arg (Calc [ex_six] false false []) = Val true (Calc [ex_six] false true [54; 53; 53; 51; 54]).
Proof.
  rewrite (howmany_count ex_six ex_six_arg [] false false []); [reflexivity | constructor; by_compute | constructor; by_compute | by_compute].
Defined.
