(* ===== verification/OwipcalcRun.v ===== *)
(** * OwipcalcRun: arguments, results and the run of the address calculator

    Models the parsing and printing of [feeds/net/owipcalc/src/owipcalc.c] and all
    of [main.c].  [strtoul] has 32 bits; [inet_pton] and [inet_ntop] of IPv4 are
    the dotted notation without leading zeros.  The notation of IPv6 addresses and
    the bytes of the union that [malloc] leaves and no IPv4 path writes are the
    parameters [Inet].  What goes to [stderr] is not modelled.  [runop] loads the
    argument after the terminator of [argv] before it looks at the terminator;
    the value is not used and the load is not modelled. *)
From Stdlib Require Import Ascii String.
From S2P Require Import Prelude CString Owipcalc.
#[local] Open Scope list_scope.
#[local] Open Scope Z_scope.
#[local] Open Scope calc_scope.

(** ** Strings *)

(** [strchr(s, c)] as the text before the character and the text from it on. *)
Fixpoint strchr (s : list Z) (c : Z) : option (list Z * list Z) :=
  match s with
  | [] => None
  | x :: s' =>
      if x =? c then Some ([], s)
      else match strchr s' c with Some (u, v) => Some (x :: u, v) | None => None end
  end.

Definition has_char (s : list Z) (c : Z) : bool := match strchr s c with Some _ => true | None => false end.

(** The value of a digit, in bases up to 16; 99 for other characters. *)
Definition digit_value (c : Z) : Z :=
  if isdigit c then c - 48
  else if (97 <=? c) && (c <=? 102) then c - 87
  else if (65 <=? c) && (c <=? 70) then c - 55
  else 99.

(** The longest run of digits: its value and what follows; [None] if empty. *)
Fixpoint scan_digits (base acc : Z) (s : list Z) : Z * list Z :=
  match s with
  | c :: s' => if digit_value c <? base then scan_digits base (base * acc + digit_value c) s' else (acc, s)
  | [] => (acc, [])
  end.

Definition scan_number (base : Z) (s : list Z) : option (Z * list Z) :=
  match s with
  | c :: _ => if digit_value c <? base then Some (scan_digits base 0 s) else None
  | [] => None
  end.

(** Base 0: "0x" and a digit, "0", or decimal. *)
Definition scan_auto (s : list Z) : option (Z * list Z) :=
  match s with
  | c :: x :: s' =>
      if c =? 48 then
        if (x =? 120) || (x =? 88)
        then match scan_number 16 s' with Some r => Some r | None => Some (0, x :: s') end
        else scan_number 8 s
      else scan_number 10 s
  | _ => scan_number 10 s
  end.

Definition ULONG_MAX : Z := 2 ^ 32 - 1.

(** [strtoul(s, &r, base)], base 0 or 10: [None] when [r] is [s]. *)
Definition strtoul (s : list Z) (auto : bool) : option (Z * list Z) :=
  let scan := if auto then scan_auto else scan_number 10 in
  let value (neg : bool) (n : Z) : Z := if ULONG_MAX <? n then ULONG_MAX else if neg then u32 (- n) else n in
  match skip_space s with
  | [] => None
  | c :: s' =>
      let neg := c =? 45 in
      match scan (if neg || (c =? 43) then s' else c :: s') with
      | Some (n, r) => Some (value neg n, r)
      | None => None
      end
  end.

(** ** The dotted notation *)

Fixpoint span_digits (s : list Z) : list Z * list Z :=
  match s with
  | c :: s' => if isdigit c then let '(u, v) := span_digits s' in (c :: u, v) else ([], s)
  | [] => ([], [])
  end.

(** One to three digits, no leading zero, at most 255. *)
Definition octet (s : list Z) : option (Z * list Z) :=
  let '(ds, r) := span_digits s in
  if ((1 <=? length ds) && (length ds <=? 3))%nat
     && ((length ds =? 1)%nat || negb (nth 0 ds 0 =? 48)) && (read_digits 0 ds <=? 255)
  then Some (read_digits 0 ds, r) else None.

Fixpoint octets (n : nat) (s : list Z) : option (list Z) :=
  match octet s with
  | None => None
  | Some (b, r) =>
      match n, r with
      | O, [] => Some [b]
      | S n', 46 :: r' => match octets n' r' with Some l => Some (b :: l) | None => None end
      | _, _ => None
      end
  end.

(** [inet_pton(AF_INET, s, dst)], [None] for a result other than 1. *)
Definition inet_pton4 (s : list Z) : option (list Z) := octets 3 s.

(** [inet_ntop(AF_INET, src, ...)]. *)
Fixpoint inet_ntop4 (l : list Z) : list Z :=
  match l with
  | [] => []
  | [b] => print_d b
  | b :: l' => print_d b ++ 46 :: inet_ntop4 l'
  end.

Class Inet := {
  inet_pton6 : list Z -> option (list Z);
  inet_ntop6 : list Z -> list Z;
  malloc_rest : list Z;
}.

(** The notation: sixteen bytes come back from their text, which has a colon and
    no slash and fits in INET6_ADDRSTRLEN; only such texts are read. *)
Class InetLaws `{Inet} := {
  pton6_ok : forall s l, inet_pton6 s = Some l -> length l = 16%nat /\ bytes_ok l;
  ntop6_pton6 : forall l, length l = 16%nat -> bytes_ok l -> inet_pton6 (inet_ntop6 l) = Some l;
  ntop6_text : forall l, length l = 16%nat -> bytes_ok l ->
    (1 < length (inet_ntop6 l) < 46)%nat /\ has_char (inet_ntop6 l) 58 = true /\ has_char (inet_ntop6 l) 47 = false;
  malloc_rest_ok : length malloc_rest = 12%nat /\ bytes_ok malloc_rest;
}.

(** The number of bits of a mask: the loop shifts it out. *)
Fixpoint count_bits (fuel : nat) (m : Z) : Z :=
  match fuel with
  | O => 0
  | S fuel' => if m =? 0 then 0 else Z.land m 1 + count_bits fuel' (Z.shiftr m 1)
  end.

Section Run.
Context `{Inet}.

(** The sizes of the text buffers. *)
Definition sizeof_v4 : nat := 33.
Definition sizeof_v6 : nat := 51.

(** ** Parsing *)

(** What follows the slash: a mask in dotted notation or a number. *)
Definition parse_prefix4 (p : list Z) : option Z :=
  if has_char p 46
  then match inet_pton4 p with Some m => Some (count_bits 32 (le_combine m)) | None => None end
  else match strtoul p false with
       | Some (n, []) => if 32 <? n then None else Some n
       | _ => None
       end.

Definition cidr_parse4 (s : list Z) : option cidr :=
  if (sizeof_v4 <=? length s)%nat then None
  else
    match (match strchr s 47 with
           | Some (host, slash) => match parse_prefix4 (tail slash) with Some p => Some (host, p, true) | None => None end
           | None => Some (s, 32, false)
           end) with
    | None => None
    | Some (host, p, slash) =>
        if slash && (length host =? 0)%nat then Some (Cidr AF_INET p (replicate 4 0 ++ malloc_rest))
        else match inet_pton4 host with
             | Some l => Some (Cidr AF_INET p (l ++ malloc_rest))
             | None => None
             end
    end.

Definition parse_prefix6 (p : list Z) : option Z :=
  match strtoul p false with
  | Some (n, []) => if 128 <? n then None else Some n
  | _ => None
  end.

Definition cidr_parse6 (s : list Z) : option cidr :=
  if (sizeof_v6 <=? length s)%nat then None
  else
    match (match strchr s 47 with
           | Some (host, slash) => match parse_prefix6 (tail slash) with Some p => Some (host, p, true) | None => None end
           | None => Some (s, 128, false)
           end) with
    | None => None
    | Some (host, p, slash) =>
        if slash && (length host =? 0)%nat then Some (Cidr AF_INET6 p (replicate 16 0))
        else match inet_pton6 host with
             | Some l => Some (Cidr AF_INET6 p l)
             | None => None
             end
    end.

(** An argument: a number is both the prefix and the address. *)
Definition cidr_parse (s : list Z) (af_hint : af) : C (option cidr) :=
  match strtoul s true with
  | Some (sum, []) =>
      ret (Some match af_hint with
                | AF_INET => Cidr AF_INET sum (le_split 4 (htonl sum) ++ malloc_rest)
                | AF_INET6 => Cidr AF_INET6 sum (be_split 16 sum)
                end)
  | _ =>
      match (if has_char s 58 then cidr_parse6 s else cidr_parse4 s) with
      | None => ret None
      | Some a => if bool_decide (family a = af_hint) then ret (Some a) else exit 4
      end
  end.

(** ** Printing *)

Definition cidr_print4 : C bool :=
  a <- top;
  if negb (bool_decide (family a = AF_INET)) then ret false
  else
    separator;;
    qprintf (inet_ntop4 (take 4 (addr a)));;
    (if prefix a <? 32 then qprintf (47 :: print_u (prefix a)) else ret tt);;
    cidr_pop;; ret true.

Definition cidr_print6 : C bool :=
  a <- top;
  if negb (bool_decide (family a = AF_INET6)) then ret false
  else
    separator;;
    qprintf (inet_ntop6 (addr a));;
    (if prefix a <? 128 then qprintf (47 :: print_u (prefix a)) else ret tt);;
    cidr_pop;; ret true.

(** ** The operations by name *)

(** [a1] and [a2]: the operation without and with an argument. *)
Record fns := Fns { a1 : option (C bool); a2 : option (cidr -> C bool) }.
Record op := Op { name : list Z; f4 : fns; f6 : fns }.

Definition no : fns := Fns None None.
Definition one (f : C bool) : fns := Fns (Some f) None.
Definition two (f : cidr -> C bool) : fns := Fns None (Some f).

Definition ops : list op := [
  Op (lit "add") (two cidr_add4) (two cidr_add6);
  Op (lit "sub") (two cidr_sub4) (two cidr_sub6);
  Op (lit "next") (two cidr_next4) (two cidr_next6);
  Op (lit "prev") (two cidr_prev4) (two cidr_prev6);
  Op (lit "network") (one cidr_network4) (one cidr_network6);
  Op (lit "broadcast") (one cidr_broadcast4) no;
  Op (lit "prefix") (two cidr_prefix) (two cidr_prefix);
  Op (lit "netmask") (one cidr_netmask4) no;
  Op (lit "6to4") (one cidr_6to4) no;
  Op (lit "howmany") (two cidr_howmany) (two cidr_howmany);
  Op (lit "contains") (two cidr_contains4) (two cidr_contains6);
  Op (lit "private") (one cidr_private4) no;
  Op (lit "linklocal") (one cidr_linklocal4) (one cidr_linklocal6);
  Op (lit "ula") no (one cidr_ula6);
  Op (lit "quiet") (one cidr_quiet) (one cidr_quiet);
  Op (lit "pop") (one cidr_pop) (one cidr_pop);
  Op (lit "print") (one cidr_print4) (one cidr_print6)].

Definition find_op (arg : list Z) : option op := List.find (fun o => bool_decide (name o = arg)) ops.

Definition needs_arg (o : op) : bool :=
  match a2 (f4 o), a2 (f6 o) with None, None => false | _, _ => true end.

Definition fns_of (o : op) (f : af) : fns := match f with AF_INET => f4 o | AF_INET6 => f6 o end.

(** What a call of [runop] leaves: whether to go on, the arguments left, the
    status. *)
Record turn := Turn { go : bool; args_left : list (list Z); status : Z }.

Definition failed (v : bool) : Z := if v then 0 else 1.

Definition runop (arg : list (list Z)) (st : Z) : C turn :=
  match arg with
  | [] => ret (Turn false [] st)
  | arg1 :: rest =>
      match find_op arg1 with
      | None => ret (Turn false arg st)
      | Some o =>
          if needs_arg o then
            match rest with
            | [] => ret (Turn false arg 2)
            | arg2 :: rest' =>
                a <- top;
                parsed <- cidr_parse arg2 (family a);
                match parsed with
                | None => ret (Turn false arg 3)
                | Some b =>
                    match a2 (fns_of o (family a)) with
                    | None => ret (Turn false rest' 5)
                    | Some f => v <- f b; ret (Turn true rest' (failed v))
                    end
                end
            end
          else
            a <- top;
            match a1 (fns_of o (family a)) with
            | None => ret (Turn false rest 5)
            | Some f => v <- f; ret (Turn true rest (failed v))
            end
      end
  end.

(** [while (runop(&arg, &status));] *)
Fixpoint while_runop (fuel : nat) (arg : list (list Z)) (st : Z) (s : calc) : option (res turn) :=
  match fuel with
  | O => None
  | S fuel' =>
      match runop arg st s with
      | Val t s' => if go t then while_runop fuel' (args_left t) (status t) s' else Some (Val t s')
      | Exited code s' => Some (Exited code s')
      | Undefined => Some Undefined
      end
  end.

(** What follows the loop. *)
Definition finish (t : turn) : C unit :=
  match args_left t with
  | _ :: _ => exit 6
  | [] =>
      (fun s =>
         if negb (printed s) && (status t <? 2)
         then (a <- top;
               (if bool_decide (family a = AF_INET) then cidr_print4 else cidr_print6);; ret tt) s
         else Val tt s);;
      qprintf [10];;
      exit (status t)
  end.

Definition main (argv : list (list Z)) : option (res unit) :=
  let s := Calc [] false false [] in
  match argv with
  | _ :: base :: (_ :: _) as arg =>
      match (if has_char base 58 then cidr_parse6 base else cidr_parse4 base) with
      | None => Some (Exited 1 s)
      | Some a =>
          match while_runop (S (length (drop 2 argv))) (drop 2 argv) 0 (Calc [a] false false []) with
          | None => None
          | Some (Val t s') => Some (finish t s')
          | Some (Exited code s') => Some (Exited code s')
          | Some Undefined => Some Undefined
          end
      end
  | _ => Some (Exited 1 s)
  end.
End Run.

(** ** Lemmas: scanning numbers and text *)

Definition dotted_text (s : list Z) : Prop := Forall (fun c => isdigit c = true \/ c = 46 \/ c = 47) s.

Lemma has_char_in s c : has_char s c = true <-> In c s.
Proof.
  unfold has_char. induction s as [| x s IH]; cbn [strchr In]; [intuition discriminate |].
  destruct (Z.eqb_spec x c); [intuition |]. rewrite <- IH.
  destruct (strchr s c) as [[u v] |]; intuition discriminate.
Qed.

Lemma has_char_not_in s c : has_char s c = false <-> ~ In c s.
Proof. rewrite <- has_char_in. destruct (has_char s c); intuition discriminate. Qed.

Lemma strchr_app s t c : ~ In c s -> strchr (s ++ c :: t) c = Some (s, c :: t).
Proof.
  induction s as [| x s IH]; cbn [app strchr In]; intros Hn.
  - now rewrite Z.eqb_refl.
  - destruct (Z.eqb_spec x c); [intuition |]. rewrite IH by intuition. reflexivity.
Qed.

Lemma strchr_none s c : ~ In c s -> strchr s c = None.
Proof. intros Hn%has_char_not_in. unfold has_char in Hn. now destruct (strchr s c). Qed.

(** A scan stops at a point. *)
Lemma scan_digits_dot base acc s : base <= 16 -> In 46 s -> (scan_digits base acc s).2 <> [].
Proof.
  intros Hb. revert acc. induction s as [| c s IH]; intros acc Hin; [contradiction |]. cbn [scan_digits].
  destruct (Z.ltb_spec (digit_value c) base); [| discriminate].
  apply IH. destruct Hin as [-> | Hin]; [| assumption]. cbn in H. lia.
Qed.

Lemma scan_number_dot base s n r : base <= 16 -> In 46 s -> scan_number base s = Some (n, r) -> r <> [].
Proof.
  intros Hb Hin. unfold scan_number. destruct s as [| c s]; [discriminate |].
  destruct (digit_value c <? base); [| discriminate]. intros E.
  assert (scan_digits base 0 (c :: s) = (n, r)) as E' by congruence.
  pose proof (scan_digits_dot base 0 (c :: s) Hb Hin) as Hd. now rewrite E' in Hd.
Qed.

Lemma scan_auto_dot s n r : In 46 s -> scan_auto s = Some (n, r) -> r <> [].
Proof.
  intros Hin. unfold scan_auto. destruct s as [| c [| x s]]; [contradiction | |].
  { destruct Hin as [-> | []]. discriminate. }
  destruct (Z.eqb_spec c 48) as [-> | Hc].
  - destruct ((x =? 120) || (x =? 88)) eqn:Ex.
    + destruct (scan_number 16 s) as [[n' r'] |] eqn:E; [| intros [= _ <-]; discriminate].
      intros [= <- <-]. revert E. apply scan_number_dot; [lia |].
      destruct Hin as [? | [-> | Hin]]; [discriminate | discriminate | assumption].
    + apply scan_number_dot; [lia | assumption].
  - apply scan_number_dot; [lia | assumption].
Qed.

(** Text with a point is no number. *)
Lemma strtoul_dot s auto n r : In 46 s -> strtoul s auto = Some (n, r) -> r <> [].
Proof.
  intros Hin. assert (In 46 (skip_space s)) as Hs.
  { clear -Hin. induction s as [| c s IH]; [contradiction |]. cbn [skip_space].
    destruct (isspace c) eqn:E; [| assumption]. apply IH. destruct Hin as [-> | ?]; [discriminate | assumption]. }
  assert (forall t m r', In 46 t -> (if auto then scan_auto else scan_number 10) t = Some (m, r') -> r' <> []) as Hscan
    by (intros t m r' Ht; destruct auto; [now apply scan_auto_dot | apply scan_number_dot; [lia | assumption]]).
  unfold strtoul. cbv zeta. destruct (skip_space s) as [| c t]; [contradiction |].
  match goal with |- context [match ?x with Some _ => _ | None => _ end] => destruct x as [[m r'] |] eqn:E end; [| discriminate]. intros [= _ <-]. apply Hscan in E; [exact E |].
  destruct ((c =? 45) || (c =? 43)) eqn:Ec; [| assumption]. destruct Hs as [-> | Hs]; [discriminate | assumption].
Qed.

(** ** Lemmas: the dotted notation *)

Definition stops (r : list Z) : Prop := match r with [] => True | c :: _ => isdigit c = false end.

Lemma span_digits_app s r : Forall (fun c => isdigit c = true) s -> stops r -> span_digits (s ++ r) = (s, r).
Proof.
  intros Hs Hr. induction Hs as [| c s Hc Hs IH]; cbn [app span_digits].
  - destruct r as [| c r]; [reflexivity |]. cbn in Hr. cbn [span_digits]. now rewrite Hr.
  - now rewrite Hc, IH.
Qed.

Lemma octet_print b r : byte_ok b -> stops r -> octet (print_d b ++ r) = Some (b, r).
Proof.
  intros Hb Hr.
  assert (Forall (fun b => ((1 <=? length (print_d b)) && (length (print_d b) <=? 3))%nat
     && ((length (print_d b) =? 1)%nat || negb (nth 0 (print_d b) 0 =? 48)) && (read_digits 0 (print_d b) <=? 255) = true /\
     read_digits 0 (print_d b) = b) (seqZ 0 256)) as F by by_compute.
  rewrite list.Forall_forall in F. unfold byte_ok in Hb. destruct (F b) as [F1 F2]; [apply elem_of_seqZ; lia |].
  unfold octet. rewrite span_digits_app; [rewrite F1, F2; reflexivity | | assumption].
  rewrite print_d_digits by lia. apply digits_isdigit. lia.
Qed.

Lemma octets_ntop4 b l : bytes_ok (b :: l) -> octets (length l) (inet_ntop4 (b :: l)) = Some (b :: l).
Proof.
  revert b. induction l as [| b' l IH]; intros b Hb; apply Forall_cons_1 in Hb as [Hb Hl].
  - cbn [inet_ntop4 length octets]. rewrite <- (app_nil_r (print_d b)), octet_print by (assumption || exact I). reflexivity.
  - change (inet_ntop4 (b :: b' :: l)) with (print_d b ++ 46 :: inet_ntop4 (b' :: l)). cbn [length octets].
    rewrite octet_print by (assumption || reflexivity). now rewrite IH.
Qed.

Lemma inet_ntop4_pton4 l : bytes_ok l -> length l = 4%nat -> inet_pton4 (inet_ntop4 l) = Some l.
Proof.
  intros Hb Hl. destruct l as [| b l]; [discriminate |]. unfold inet_pton4.
  replace 3%nat with (length l) by (cbn in Hl; lia). now apply octets_ntop4.
Qed.

Lemma inet_ntop4_text l : bytes_ok l -> Forall (fun c => isdigit c = true \/ c = 46) (inet_ntop4 l).
Proof.
  assert (forall b, byte_ok b -> Forall (fun c => isdigit c = true \/ c = 46) (print_d b)) as Hp.
  { intros b Hb. unfold byte_ok in Hb. rewrite print_d_digits by lia.
    eapply Forall_impl; [| apply digits_isdigit; lia]. auto. }
  intros H. induction H as [| b l Hb Hl IH]; [constructor |]. destruct l as [| b' l]; [now apply Hp |].
  change (inet_ntop4 (b :: b' :: l)) with (print_d b ++ 46 :: inet_ntop4 (b' :: l)).
  apply Forall_app. split; [now apply Hp |]. constructor; auto.
Qed.

Lemma length_ntop4 l : bytes_ok l -> (length (inet_ntop4 l) <= 4 * length l)%nat.
Proof.
  assert (Forall (fun b => (length (print_d b) <= 3)%nat) (seqZ 0 256)) as F by by_compute.
  rewrite list.Forall_forall in F.
  intros H. induction H as [| b l Hb Hl IH]; [cbn; lia |]. unfold byte_ok in Hb.
  pose proof (F b ltac:(apply elem_of_seqZ; lia)) as Hlen. cbn [length].
  destruct l as [| b' l]; [cbn [inet_ntop4 length]; lia |].
  change (inet_ntop4 (b :: b' :: l)) with (print_d b ++ 46 :: inet_ntop4 (b' :: l)).
  rewrite length_app. cbn [length] in *. lia.
Qed.

Lemma dotted_no c s : Forall (fun c => isdigit c = true \/ c = 46) s -> isdigit c = false -> c <> 46 -> ~ In c s.
Proof.
  intros Hs Hd Hc Hin. rewrite List.Forall_forall in Hs. destruct (Hs c Hin); congruence.
Qed.

Lemma ntop4_dot b b' l : In 46 (inet_ntop4 (b :: b' :: l)).
Proof.
  change (inet_ntop4 (b :: b' :: l)) with (print_d b ++ 46 :: inet_ntop4 (b' :: l)).
  apply in_or_app. right. now left.
Qed.

(** Decimal numbers read back. *)
Lemma strtoul_prefix n : 0 <= n <= 128 -> strtoul (print_u n) false = Some (n, []) /\
  has_char (print_u n) 46 = false /\ (length (print_u n) <= 3)%nat /\ has_char (print_u n) 58 = false.
Proof.
  intros Hn. assert (Forall (fun n => strtoul (print_u n) false = Some (n, []) /\
    has_char (print_u n) 46 = false /\ (length (print_u n) <= 3)%nat /\ has_char (print_u n) 58 = false) (seqZ 0 129)) as F
    by by_compute.
  rewrite list.Forall_forall in F. apply F, elem_of_seqZ. lia.
Qed.

(** ** Lemmas: how computations end *)

Lemma bind_val {A B} (m : C A) (k : A -> C B) s b s' :
  bind m k s = Val b s' -> exists a s1, m s = Val a s1 /\ k a s1 = Val b s'.
Proof. unfold bind. destruct (m s) as [a s1 | |]; [eauto | discriminate | discriminate]. Qed.

(** [m] leaves through [exit] only with [code]s in [P]. *)
Definition exits {A} (m : C A) (P : Z -> Prop) : Prop := forall s, match m s with Exited c _ => P c | _ => True end.

Lemma exits_bind {A B} (m : C A) (k : A -> C B) P : exits m P -> (forall a, exits (k a) P) -> exits (bind m k) P.
Proof. intros Hm Hk s. specialize (Hm s). unfold bind. destruct (m s) as [a s1 | |]; [apply Hk | exact Hm | exact I]. Qed.

Lemma exits_ret {A} (a : A) P : exits (ret a) P.
Proof. intros s. exact I. Qed.
Lemma exits_exit {A} code (P : Z -> Prop) : P code -> exits (A := A) (exit code) P.
Proof. intros H s. exact H. Qed.
Lemma exits_undefined {A} P : exits (A := A) undefined P.
Proof. intros s. exact I. Qed.
Lemma exits_of_option {A} (o : option A) P : exits (of_option o) P.
Proof. destruct o; [apply exits_ret | apply exits_undefined]. Qed.
Lemma exits_top P : exits top P.
Proof. intros s. unfold top. now destruct (stack s). Qed.
Lemma exits_push a P : exits (cidr_push a) P.
Proof. intros s. exact I. Qed.
Lemma exits_set_top a P : exits (set_top a) P.
Proof. intros s. unfold set_top. now destruct (stack s). Qed.
Lemma exits_pop P : exits cidr_pop P.
Proof. intros s. unfold cidr_pop. now destruct (stack s). Qed.
Lemma exits_qprintf text P : exits (qprintf text) P.
Proof. intros s. exact I. Qed.
Lemma exits_separator P : exits separator P.
Proof. intros s. unfold separator. now destruct (printed s). Qed.
Lemma exits_quiet P : exits cidr_quiet P.
Proof. intros s. exact I. Qed.

Create HintDb exits discriminated.
#[local] Hint Resolve exits_ret exits_undefined exits_of_option exits_top exits_push exits_set_top exits_pop
  exits_qprintf exits_separator exits_quiet : exits.

Ltac no_exit :=
  repeat match goal with
  | |- exits (bind _ _) _ => apply exits_bind; [| intros ?]
  | |- exits (if ?b then _ else _) _ => destruct b
  | |- exits (let '(_, _) := ?r in _) _ => destruct r
  | |- exits (let _ := _ in _) _ => cbv zeta
  | |- exits (match ?o with Some _ => _ | None => _ end) _ => destruct o
  end; auto with exits.

Lemma ops_exits b P :
  Forall (fun m => exits m P)
    [cidr_add4 b; cidr_sub4 b; cidr_next4 b; cidr_prev4 b; cidr_contains4 b; cidr_add6 b; cidr_sub6 b;
     cidr_next6 b; cidr_prev6 b; cidr_contains6 b; cidr_howmany b; cidr_prefix b;
     cidr_network4; cidr_broadcast4; cidr_netmask4; cidr_private4; cidr_linklocal4; cidr_6to4; cidr_network6;
     cidr_linklocal6; cidr_ula6; cidr_quiet; cidr_pop].
Proof.
  repeat apply Forall_cons_2; try apply Forall_nil_2;
    unfold cidr_add4, cidr_sub4, cidr_next4, cidr_prev4, cidr_contains4, cidr_add6, cidr_sub6, cidr_next6, cidr_prev6,
      cidr_step6, cidr_contains6, cidr_howmany, cidr_prefix, cidr_network4, cidr_broadcast4, cidr_netmask4, cidr_private4,
      cidr_linklocal4, cidr_6to4, cidr_network6, cidr_linklocal6, cidr_ula6, verdict, cidr_clone; no_exit.
Qed.

Section RunLemmas.
Context `{Inet}.

Lemma print4_exits P : exits cidr_print4 P.
Proof. unfold cidr_print4. no_exit. Qed.
Lemma print6_exits P : exits cidr_print6 P.
Proof. unfold cidr_print6. no_exit. Qed.

Lemma find_op_in arg o : find_op arg = Some o -> In o ops.
Proof. intros E. now apply List.find_some in E. Qed.

(** The functions of the table are the operations. *)
Lemma ops_fns (Q : C bool -> Prop) (Q2 : (cidr -> C bool) -> Prop) o f :
  In o ops ->
  Forall Q [cidr_network4; cidr_broadcast4; cidr_netmask4; cidr_private4; cidr_linklocal4; cidr_6to4; cidr_network6;
     cidr_linklocal6; cidr_ula6; cidr_quiet; cidr_pop; cidr_print4; cidr_print6] ->
  Forall Q2 [cidr_add4; cidr_sub4; cidr_next4; cidr_prev4; cidr_contains4; cidr_add6; cidr_sub6; cidr_next6; cidr_prev6;
     cidr_contains6; cidr_howmany; cidr_prefix] ->
  match a1 (fns_of o f) with Some m => Q m | None => True end /\
  match a2 (fns_of o f) with Some m => Q2 m | None => True end.
Proof.
  intros Ho HQ HQ2. rewrite List.Forall_forall in HQ, HQ2.
  repeat (destruct Ho as [<- | Ho]; [destruct f; (split; [first [exact I | apply HQ; cbn; tauto] | first [exact I | apply HQ2; cbn; tauto]]) |]).
  destruct Ho.
Qed.

Lemma table_exits o f P : In o ops ->
  match a1 (fns_of o f) with Some m => exits m P | None => True end /\
  match a2 (fns_of o f) with Some m => forall b, exits (m b) P | None => True end.
Proof.
  intros Ho. apply (ops_fns (fun m => exits m P) (fun m => forall b, exits (m b) P) o f Ho).
  - pose proof (fun b => ops_exits b P) as E. specialize (E (Cidr AF_INET 0 [])). repeat apply Forall_cons_1 in E as [? E].
    repeat apply Forall_cons_2; try assumption; auto using print4_exits, print6_exits.
  - repeat apply Forall_cons_2; try apply Forall_nil_2; intros b; pose proof (ops_exits b P) as E;
      repeat apply Forall_cons_1 in E as [? E]; assumption.
Qed.

Lemma parse_exits s f : exits (cidr_parse s f) (fun c => c = 4).
Proof.
  unfold cidr_parse. destruct (strtoul s true) as [[n [| c r]] |]; [auto with exits | |];
    (destruct (if has_char s 58 then cidr_parse6 s else cidr_parse4 s) as [a |]; [| auto with exits];
     destruct (bool_decide (family a = f)); [auto with exits | now apply exits_exit]).
Qed.

Lemma runop_exits arg st : exits (runop arg st) (fun c => c = 4).
Proof.
  unfold runop. destruct arg as [| arg1 rest]; [auto with exits |].
  destruct (find_op arg1) as [o |] eqn:Eo; [| auto with exits]. apply find_op_in in Eo.
  destruct (needs_arg o).
  - destruct rest as [| arg2 rest]; [auto with exits |].
    apply exits_bind; [auto with exits | intros a]. apply exits_bind; [apply parse_exits |]. intros [b |]; [| auto with exits].
    pose proof (table_exits o (family a) (fun c => c = 4) Eo) as [_ T].
    destruct (a2 (fns_of o (family a))); [| auto with exits]. apply exits_bind; auto with exits.
  - apply exits_bind; [auto with exits | intros a].
    pose proof (table_exits o (family a) (fun c => c = 4) Eo) as [T _].
    destruct (a1 (fns_of o (family a))); [| auto with exits]. apply exits_bind; auto with exits.
Qed.

(** A turn that goes on has consumed an argument; one that stops for want of an
    argument, or for a bad one, has not. *)
Lemma runop_turn arg st s t s' :
  runop arg st s = Val t s' -> st = 0 \/ st = 1 ->
  if go t then (length (args_left t) < length arg)%nat /\ (status t = 0 \/ status t = 1)
  else args_left t = [] -> status t = 0 \/ status t = 1 \/ status t = 5.
Proof.
  intros E Hst. unfold runop in E. destruct arg as [| arg1 rest].
  { injection E as <- <-. cbn. intuition. }
  destruct (find_op arg1) as [o |]; [| injection E as <- <-; discriminate].
  destruct (needs_arg o).
  - destruct rest as [| arg2 rest]; [injection E as <- <-; discriminate |].
    apply bind_val in E as (a & s1 & _ & E). apply bind_val in E as ([b |] & s2 & _ & E); [| injection E as <- <-; discriminate].
    destruct (a2 (fns_of o (family a))); [| injection E as <- <-; cbn; intuition].
    apply bind_val in E as (v & s3 & _ & E). injection E as <- <-. cbn. destruct v; cbn; split; auto with lia.
  - apply bind_val in E as (a & s1 & _ & E).
    destruct (a1 (fns_of o (family a))); [| injection E as <- <-; cbn; intuition].
    apply bind_val in E as (v & s3 & _ & E). injection E as <- <-. cbn. destruct v; cbn; split; auto with lia.
Qed.

(** With more fuel than arguments the loop ends, with [exit(4)] or a turn that
    stops. *)
Lemma while_runop_ends fuel arg st s :
  (length arg < fuel)%nat -> st = 0 \/ st = 1 ->
  match while_runop fuel arg st s with
  | None => False
  | Some (Val t _) => args_left t = [] -> status t = 0 \/ status t = 1 \/ status t = 5
  | Some (Exited c _) => c = 4
  | Some Undefined => True
  end.
Proof.
  revert arg st s. induction fuel as [| fuel IH]; intros arg st s Hf Hst; [lia |]. cbn [while_runop].
  pose proof (runop_exits arg st s) as X. pose proof (runop_turn arg st s) as T.
  destruct (runop arg st s) as [t s' | c s' |]; [| exact X | exact I].
  specialize (T t s' eq_refl Hst). destruct (go t); [| exact T].
  destruct T as [Hlt Hst']. apply IH; [lia | assumption].
Qed.

(** The program ends on every command line: the loop has enough fuel. *)
Theorem main_ends argv : exists r, main argv = Some r.
Proof.
  unfold main. destruct argv as [| prog [| base [| arg0 arg]]]; eauto.
  destruct (if has_char base 58 then cidr_parse6 base else cidr_parse4 base) as [a |]; [| eauto].
  cbn [drop]. pose proof (while_runop_ends (S (length (arg0 :: arg))) (arg0 :: arg) 0 (Calc [a] false false [])
    ltac:(lia) ltac:(now left)) as W.
  destruct (while_runop _ _ _ _) as [[t s' | c s' |] |]; [eauto | eauto | eauto | contradiction].
Qed.

Lemma finish_exits t : (args_left t = [] -> status t = 0 \/ status t = 1 \/ status t = 5) ->
  exits (finish t) (fun c => c = 0 \/ c = 1 \/ c = 5 \/ c = 6).
Proof.
  intros Ht. unfold finish. destruct (args_left t) as [| ? ?]; [| apply exits_exit; auto].
  apply exits_bind; [| intros _].
  - intros s. destruct (negb (printed s) && (status t <? 2)); [| exact I].
    assert (exits (a <- top;
               (if bool_decide (family a = AF_INET) then cidr_print4 else cidr_print6);; ret tt)
       (fun c => c = 0 \/ c = 1 \/ c = 5 \/ c = 6)) as X; [| apply X].
    apply exits_bind; [auto with exits |]. intros a. apply exits_bind; [| auto with exits].
    destruct (bool_decide _); [apply print4_exits | apply print6_exits].
  - apply exits_bind; [auto with exits | intros _]. apply exits_exit. specialize (Ht eq_refl). intuition.
Qed.

(** The exit codes.  The statuses 2 (an operation without its argument) and 3 (an
    argument that does not parse) are never returned: the arguments are not
    consumed and the program reports an unknown operation. *)
Theorem main_codes argv c s :
  main argv = Some (Exited c s) -> c = 0 \/ c = 1 \/ c = 4 \/ c = 5 \/ c = 6.
Proof.
  unfold main. destruct argv as [| prog [| base [| arg0 arg]]]; try (intros [= <- _]; auto).
  destruct (if has_char base 58 then cidr_parse6 base else cidr_parse4 base) as [a |]; [| intros [= <- _]; auto].
  cbn [drop]. pose proof (while_runop_ends (S (length (arg0 :: arg))) (arg0 :: arg) 0 (Calc [a] false false [])
    ltac:(lia) ltac:(now left)) as W.
  destruct (while_runop _ _ _ _) as [[t s' | c' s' |] |]; [| intros [= <- _]; auto | discriminate | contradiction].
  intros [= E]. pose proof (finish_exits t W s') as F. rewrite E in F. intuition.
Qed.
End RunLemmas.

(** ** Printing and parsing back *)

Definition text4 (c : cidr) : list Z :=
  inet_ntop4 (take 4 (addr c)) ++ (if prefix c <? 32 then 47 :: print_u (prefix c) else []).

Definition text6 `{Inet} (c : cidr) : list Z :=
  inet_ntop6 (addr c) ++ (if prefix c <? 128 then 47 :: print_u (prefix c) else []).

Section Text.
Context `{InetLaws}.

Lemma print4_text c l q pr out :
  family c = AF_INET ->
  cidr_print4 (Calc (c :: l) q pr out) =
    Val true (Calc l q true (if q then out else out ++ (if pr then [32] else []) ++ text4 c)).
Proof.
  intros Hf. unfold cidr_print4, cidr_pop, text4. run_calc. rewrite Hf, bool_decide_eq_true_2 by reflexivity. cbn [negb].
  destruct pr, q, (prefix c <? 32); run_calc; cbn [app]; rewrite <- ?app_assoc, ?app_nil_r; reflexivity.
Qed.

Lemma print6_text c l q pr out :
  family c = AF_INET6 ->
  cidr_print6 (Calc (c :: l) q pr out) =
    Val true (Calc l q true (if q then out else out ++ (if pr then [32] else []) ++ text6 c)).
Proof.
  intros Hf. unfold cidr_print6, cidr_pop, text6. run_calc. rewrite Hf, bool_decide_eq_true_2 by reflexivity. cbn [negb].
  destruct pr, q, (prefix c <? 128); run_calc; cbn [app]; rewrite <- ?app_assoc, ?app_nil_r; reflexivity.
Qed.

Lemma take4_text c : cidr_ok c ->
  bytes_ok (take 4 (addr c)) /\ length (take 4 (addr c)) = 4%nat /\
  Forall (fun c => isdigit c = true \/ c = 46) (inet_ntop4 (take 4 (addr c))) /\
  (0 < length (inet_ntop4 (take 4 (addr c))) <= 16)%nat /\ In 46 (inet_ntop4 (take 4 (addr c))).
Proof.
  intros [Hl Hb _]. assert (bytes_ok (take 4 (addr c))) as Hb4 by now apply Forall_take.
  assert (length (take 4 (addr c)) = 4%nat) as Hl4 by (rewrite length_take; lia).
  pose proof (length_ntop4 _ Hb4) as Hlen. pose proof (inet_ntop4_text _ Hb4).
  repeat split; auto; destruct (take 4 (addr c)) as [| b0 [| b1 t]]; try discriminate;
    pose proof (ntop4_dot b0 b1 t) as Hd; auto; try (rewrite Hl4 in Hlen; lia).
  destruct (inet_ntop4 _); [contradiction | cbn; lia].
Qed.

Lemma parse4_text4 c : cidr_ok c -> prefix c <= 32 ->
  cidr_parse4 (text4 c) = Some (Cidr AF_INET (prefix c) (take 4 (addr c) ++ malloc_rest)).
Proof using Type*.
  intros Hc Hp. pose proof (take4_text c Hc) as (Hb & Hl & Ht & Hlen & Hdot). destruct Hc as [_ _ Hp0].
  assert (~ In 47 (inet_ntop4 (take 4 (addr c)))) as Hns by (apply dotted_no; [assumption | reflexivity | lia]).
  unfold cidr_parse4, text4. destruct (Z.ltb_spec (prefix c) 32).
  - pose proof (strtoul_prefix (prefix c) ltac:(lia)) as (Hu & Hud & Hul & _).
    destruct (Nat.leb_spec sizeof_v4 (length (inet_ntop4 (take 4 (addr c)) ++ 47 :: print_u (prefix c)))) as [Hbig |].
    { rewrite length_app in Hbig. cbn [length] in Hbig. unfold sizeof_v4 in Hbig. lia. }
    rewrite strchr_app by assumption. cbn [tail]. unfold parse_prefix4. rewrite Hud, Hu.
    destruct (Z.ltb_spec 32 (prefix c)); [lia |].
    destruct (Nat.eqb_spec (length (inet_ntop4 (take 4 (addr c)))) 0); [lia |]. cbn [andb].
    now rewrite inet_ntop4_pton4.
  - rewrite app_nil_r. destruct (Nat.leb_spec sizeof_v4 (length (inet_ntop4 (take 4 (addr c))))) as [Hbig |].
    { unfold sizeof_v4 in Hbig. lia. }
    rewrite strchr_none by assumption. cbn [andb]. rewrite inet_ntop4_pton4 by assumption.
    replace (prefix c) with 32 by lia. reflexivity.
Qed.

(** What [print] prints for an IPv4 address, [cidr_parse4] reads as the same
    address and prefix. *)
Theorem print4_parse4 c l out :
  cidr_ok c -> family c = AF_INET -> prefix c <= 32 ->
  exists text rest, cidr_print4 (Calc (c :: l) false false out) = Val true (Calc l false true (out ++ text)) /\
    cidr_parse4 text = Some (Cidr AF_INET (prefix c) (take 4 (addr c) ++ rest)).
Proof using Type*.
  intros Hc Hf Hp. exists (text4 c), malloc_rest. split; [now apply print4_text | now apply parse4_text4].
Qed.

(** The same for IPv6: the whole value comes back. *)
Theorem print6_parse6 c l out :
  cidr_ok c -> family c = AF_INET6 -> prefix c <= 128 ->
  exists text, cidr_print6 (Calc (c :: l) false false out) = Val true (Calc l false true (out ++ text)) /\
    cidr_parse6 text = Some c.
Proof using All.
  intros [Hl Hb Hp0] Hf Hp. exists (text6 c). split; [now apply print6_text |].
  destruct (ntop6_text (addr c) Hl Hb) as (Hlen & _ & Hns%has_char_not_in).
  unfold cidr_parse6, text6. destruct c as [f p l6]. cbn [family prefix addr] in *. subst f.
  destruct (Z.ltb_spec p 128).
  - pose proof (strtoul_prefix p ltac:(lia)) as (Hu & _ & Hul & _).
    destruct (Nat.leb_spec sizeof_v6 (length (inet_ntop6 l6 ++ 47 :: print_u p))) as [Hbig |].
    { rewrite length_app in Hbig. cbn [length] in Hbig. unfold sizeof_v6 in Hbig. lia. }
    rewrite strchr_app by assumption. cbn [tail]. unfold parse_prefix6. rewrite Hu.
    destruct (Z.ltb_spec 128 p); [lia |]. destruct (Nat.eqb_spec (length (inet_ntop6 l6)) 0); [lia |]. cbn [andb].
    now rewrite ntop6_pton6.
  - rewrite app_nil_r. destruct (Nat.leb_spec sizeof_v6 (length (inet_ntop6 l6))) as [Hbig |].
    { unfold sizeof_v6 in Hbig. lia. }
    rewrite strchr_none by assumption. cbn [andb]. rewrite ntop6_pton6 by assumption.
    replace p with 128 by lia. reflexivity.
Qed.

(** A mask in dotted notation is read as the prefix it stands for. *)
Theorem mask_prefix p : 0 <= p <= 32 -> parse_prefix4 (inet_ntop4 (be_split 4 (2 ^ 32 - 2 ^ (32 - p)))) = Some p.
Proof.
  intros Hp.
  assert (Forall (fun p => parse_prefix4 (inet_ntop4 (be_split 4 (2 ^ 32 - 2 ^ (32 - p)))) = Some p) (seqZ 0 33)) as F
    by by_compute.
  rewrite list.Forall_forall in F. apply F, elem_of_seqZ. lia.
Qed.

Lemma text4_no_colon c : cidr_ok c -> prefix c <= 32 -> has_char (text4 c) 58 = false.
Proof.
  intros Hc Hp. pose proof (take4_text c Hc) as (_ & _ & Ht & _). destruct Hc as [_ _ Hp0].
  apply has_char_not_in. unfold text4. intros [Hin | Hin]%in_app_or.
  - revert Hin. apply dotted_no; [assumption | reflexivity | lia].
  - destruct (Z.ltb_spec (prefix c) 32); [| contradiction]. destruct Hin as [? | Hin]; [discriminate |].
    pose proof (strtoul_prefix (prefix c) ltac:(lia)) as (_ & _ & _ & Hn%has_char_not_in). contradiction.
Qed.

(** An address as the argument of an operation. *)
Lemma cidr_parse_text4 c s : cidr_ok c -> prefix c <= 32 ->
  cidr_parse (text4 c) AF_INET s = Val (Some (Cidr AF_INET (prefix c) (take 4 (addr c) ++ malloc_rest))) s.
Proof using Type*.
  intros Hc Hp. unfold cidr_parse. pose proof (take4_text c Hc) as (_ & _ & _ & _ & Hdot).
  assert (In 46 (text4 c)) as Hin by (apply in_or_app; now left).
  rewrite text4_no_colon, parse4_text4 by assumption. cbn [family]. rewrite bool_decide_eq_true_2 by reflexivity.
  destruct (strtoul (text4 c) true) as [[n [| x r]] |] eqn:E; try reflexivity.
  now apply strtoul_dot in E.
Qed.

(** C27: The command [owipcalc A contains B] on printed IPv4 addresses.  When the
    prefix of [A] is above 0, it prints 1 and exits with 0 when every address of
    [B]'s block is in [A]'s, and prints 0 and exits with 1 otherwise.  When it is 0
    the run is undefined: [1 << (32 - a->prefix)] is computed before the branch
    that would answer 1 is reached. *)
Theorem main_contains4 prog a b :
  cidr_ok a -> cidr_ok b -> family a = AF_INET -> family b = AF_INET -> 0 <= prefix a <= 32 -> prefix b <= 32 ->
  if prefix a =? 0 then main [prog; text4 a; lit "contains"; text4 b] = Some Undefined
  else exists (v : bool) s, main [prog; text4 a; lit "contains"; text4 b] = Some (Exited (failed v) s) /\
    output s = [if v then 49 else 48; 10] /\ (v = true <-> forall x, in_block4 b x -> in_block4 a x).
Proof using All.
  intros Ha Hb Hfa Hfb Hpa Hpb. unfold main. rewrite text4_no_colon, parse4_text4 by (assumption || lia).
  set (a' := Cidr AF_INET (prefix a) (take 4 (addr a) ++ malloc_rest)).
  set (b' := Cidr AF_INET (prefix b) (take 4 (addr b) ++ malloc_rest)).
  assert (runop [lit "contains"; text4 b] 0 (Calc [a'] false false []) =
    (v <- cidr_contains4 b'; ret (Turn true [] (failed v))) (Calc [a'] false false [])) as R.
  { unfold runop. change (find_op (lit "contains")) with (Some (Op (lit "contains") (two cidr_contains4) (two cidr_contains6))).
    cbn [needs_arg f4 f6 a2 two]. unfold bind at 1, top. cbn [stack family].
    unfold bind at 1. change (family a') with AF_INET. rewrite cidr_parse_text4 by assumption. reflexivity. }
  cbn [drop length]. cbn [while_runop]. rewrite R. unfold bind at 1. destruct (Z.eqb_spec (prefix a) 0) as [E0 | E0].
  { unfold cidr_contains4, bind at 1, top. cbn [stack]. unfold bind at 1. change (prefix a') with (prefix a). now rewrite E0. }
  assert (cidr_ok a' /\ value4 a' = value4 a) as [Ha' Ea] by (apply trimmed; [assumption | apply malloc_rest_ok..]).
  assert (cidr_ok b' /\ value4 b' = value4 b) as [Hb' Eb] by (apply trimmed; [assumption | apply malloc_rest_ok..]).
  destruct (contains4_verdict a' b' [] false false [] Ha' Hb' ltac:(cbn; lia) Hpb) as (v & Ev & Hv).
  unfold bind at 1. rewrite Ev. unfold ret at 1. cbn [go args_left status]. exists v. eexists. split; [| split].
  - unfold runop, ret. cbn [go]. unfold finish. cbn [args_left status printed]. run_calc. cbn [negb andb]. reflexivity.
  - reflexivity.
  - rewrite Hv. unfold in_block4. rewrite Ea, Eb. reflexivity.
Qed.
End Text.

(** ** Command lines *)

(** The exit code and the text of a run. *)
Definition seen (r : option (res unit)) : option (Z * list Z) :=
  match r with Some (Exited c s) => Some (c, output s) | _ => None end.

(** The example of the usage text, "add 100 print add 150 print" on 192.168.1.0: the
    second sum starts from the base again, 192.168.1.150 and not .250, and the
    results are on one line. *)
Theorem usage_example `{Inet} :
  seen (main (map lit ["owipcalc"; "192.168.1.1/255.255.255.0"; "network"; "add"; "100"; "print"; "add"; "150"; "print"]%string))
  = Some (0, lit "192.168.1.100 192.168.1.150" ++ [10]).
Proof. vm_compute. reflexivity. Qed.

(** An operation without its argument is reported as unknown. *)
Example missing_argument `{Inet} : seen (main (map lit ["owipcalc"; "10.0.0.1"; "add"]%string)) = Some (6, []).
Proof. vm_compute. reflexivity. Qed.

(** Popping the last address leaves nothing to print: a null dereference. *)
Example pop_all `{Inet} : main (map lit ["owipcalc"; "10.0.0.1"; "pop"]%string) = Some Undefined.
Proof. vm_compute. reflexivity. Qed.

(** Any mask is accepted: its bits are counted. *)
Example odd_mask : parse_prefix4 (lit "255.0.255.0") = Some 16.
Proof. vm_compute. reflexivity. Qed.

(** A notation for the examples: eight groups of four digits. *)
Definition hex (n : Z) : Z := if n <? 10 then 48 + n else 87 + n.

Fixpoint groups (l : list Z) : list Z :=
  match l with
  | [x; y] => [hex (x / 16); hex (x mod 16); hex (y / 16); hex (y mod 16)]
  | x :: y :: l' => [hex (x / 16); hex (x mod 16); hex (y / 16); hex (y mod 16); 58] ++ groups l'
  | _ => []
  end.

Fixpoint read_groups (n : nat) (s : list Z) : option (list Z) :=
  match s with
  | a :: b :: c :: d :: s' =>
      if (digit_value a <? 16) && (digit_value b <? 16) && (digit_value c <? 16) && (digit_value d <? 16)
         && (0 <=? digit_value a) && (0 <=? digit_value b) && (0 <=? digit_value c) && (0 <=? digit_value d) then
        match n, s' with
        | O, [] => Some [16 * digit_value a + digit_value b; 16 * digit_value c + digit_value d]
        | S n', 58 :: s'' =>
            match read_groups n' s'' with
            | Some l => Some (16 * digit_value a + digit_value b :: 16 * digit_value c + digit_value d :: l)
            | None => None
            end
        | _, _ => None
        end
      else None
  | _ => None
  end.

Lemma read_groups_ok n s l : read_groups n s = Some l -> length l = (2 * S n)%nat /\ bytes_ok l.
Proof.
  revert s l. induction n as [| n IH]; intros s l; destruct s as [| a [| b [| c [| d s]]]]; try discriminate; cbn [read_groups];
    destruct (_ && _) eqn:T; try discriminate;
    assert (byte_ok (16 * digit_value a + digit_value b) /\ byte_ok (16 * digit_value c + digit_value d)) as [H1 H2]
      by (unfold byte_ok; lia).
  - destruct s; [| discriminate]. intros [= <-]. split; [reflexivity |]. auto.
  - destruct s as [| x s]; [discriminate |]. destruct (Z.eq_dec x 58) as [-> | Hx].
    + destruct (read_groups n s) as [l' |] eqn:E; [| discriminate]. intros [= <-]. destruct (IH _ _ E) as [Hl Hb].
      split; [cbn [length]; lia | auto].
    + intros E. exfalso. destruct x as [| p | p]; try discriminate; do 6 (destruct p as [p | p |]; try discriminate); congruence.
Qed.

Lemma hex_value n : 0 <= n < 16 -> digit_value (hex n) = n /\ hex n <> 58 /\ hex n <> 47.
Proof.
  intros Hn. assert (Forall (fun n => digit_value (hex n) = n /\ hex n <> 58 /\ hex n <> 47) (seqZ 0 16)) as F by by_compute.
  rewrite list.Forall_forall in F. apply F, elem_of_seqZ. lia.
Qed.

Lemma byte_nibbles x : byte_ok x -> 0 <= x / 16 < 16 /\ 0 <= x mod 16 < 16 /\ 16 * (x / 16) + x mod 16 = x.
Proof. unfold byte_ok. intros. Z.to_euclidean_division_equations. lia. Qed.

Lemma read_groups_groups n l : length l = (2 * S n)%nat -> bytes_ok l ->
  read_groups n (groups l) = Some l /\ length (groups l) = (5 * n + 4)%nat /\ ~ In 47 (groups l) /\
  ((0 < n)%nat -> In 58 (groups l)).
Proof.
  revert l. induction n as [| n IH]; intros l Hl Hb; destruct l as [| x [| y l]]; try (cbn in Hl; lia);
    apply Forall_cons_1 in Hb as [Hx Hb]; apply Forall_cons_1 in Hb as [Hy Hb];
    pose proof (byte_nibbles x Hx) as (X1 & X2 & X3); pose proof (byte_nibbles y Hy) as (Y1 & Y2 & Y3);
    pose proof (hex_value _ X1) as (A1 & A2 & A3); pose proof (hex_value _ X2) as (B1 & B2 & B3);
    pose proof (hex_value _ Y1) as (C1 & C2 & C3); pose proof (hex_value _ Y2) as (D1 & D2 & D3).
  - destruct l; [| cbn in Hl; lia]. cbn [groups read_groups]. rewrite A1, B1, C1, D1, X3, Y3.
    split; [| split; [reflexivity | split; [cbn; intuition | lia]]].
    repeat match goal with |- context [?u <? 16] => destruct (Z.ltb_spec u 16); [| lia] end.
    repeat match goal with |- context [0 <=? ?u] => destruct (Z.leb_spec 0 u); [| lia] end. reflexivity.
  - destruct (IH l ltac:(cbn in Hl; lia) Hb) as (R & L & N & _). destruct l as [| z l]; [cbn in Hl; lia |].
    change (groups (x :: y :: z :: l)) with ([hex (x / 16); hex (x mod 16); hex (y / 16); hex (y mod 16); 58] ++ groups (z :: l)).
    cbn [app read_groups]. rewrite A1, B1, C1, D1, X3, Y3, R.
    split; [| split; [cbn [length]; lia | split; [cbn [In]; intuition discriminate | intros _; cbn; tauto]]].
    repeat match goal with |- context [?u <? 16] => destruct (Z.ltb_spec u 16); [| lia] end.
    repeat match goal with |- context [0 <=? ?u] => destruct (Z.leb_spec 0 u); [| lia] end. reflexivity.
Qed.

Definition demo_inet : Inet := {|
  inet_pton6 := read_groups 7;
  inet_ntop6 := groups;
  malloc_rest := replicate 12 165;
|}.

Lemma demo_laws : @InetLaws demo_inet.
Proof.
  constructor; cbn [inet_pton6 inet_ntop6 malloc_rest demo_inet].
  - intros s l E. now apply read_groups_ok in E.
  - intros l Hl Hb. now apply (read_groups_groups 7).
  - intros l Hl Hb. destruct (read_groups_groups 7 l Hl Hb) as (_ & L & N & C). rewrite L. split; [lia |].
    rewrite has_char_in, has_char_not_in. split; [apply C; lia | exact N].
  - split; [reflexivity | by_compute].
Qed.

Lemma main_codes_witness :
  exists c s, @main demo_inet (map lit ["owipcalc"; "::1"; "add"]%string) = Some (Exited c s) /\ c <> 2 /\ c <> 3.
Proof.
  destruct (@main demo_inet (map lit ["owipcalc"; "::1"; "add"]%string)) as [[| c s |] |] eqn:E;
    try (vm_compute in E; discriminate).
  exists c, s. pose proof (@main_codes demo_inet _ _ _ E). split; [reflexivity | lia].
Defined.

Lemma print4_parse4_witness :
  exists text rest, @cidr_print4 (Calc [ex_net] false false []) = Val true (Calc [] false true text) /\
    @cidr_parse4 demo_inet text = Some (Cidr AF_INET 24 ([10; 0; 255; 0] ++ rest)).
Proof. apply (@print4_parse4 demo_inet demo_laws ex_net [] []); [constructor; by_compute | reflexivity | by_compute]. Defined.

Lemma print6_parse6_witness :
  exists text, @cidr_print6 demo_inet (Calc [ex_six] false false []) = Val true (Calc [] false true text) /\
    @cidr_parse6 demo_inet text = Some ex_six.
Proof. apply (@print6_parse6 demo_inet demo_laws ex_six [] []); [constructor; by_compute | reflexivity | by_compute]. Defined.

Lemma mask_prefix_witness : parse_prefix4 (lit "255.255.240.0") = Some 20.
Proof. apply (mask_prefix 20). lia. Defined.

Lemma main_contains4_witness :
  exists (v : bool) s, @main demo_inet (map lit ["owipcalc"; "10.0.255.0/24"; "contains"; "0.0.0.0/24"]%string) = Some (Exited (failed v) s) /\
    output s = [if v then 49 else 48; 10] /\ (v = true <-> forall x, in_block4 ex_arg x -> in_block4 ex_net x).
Proof.
  apply (@main_contains4 demo_inet demo_laws (lit "owipcalc") ex_net ex_arg);
    [constructor; by_compute | constructor; by_compute | reflexivity | reflexivity | by_compute | by_compute].
Defined.
