(* ===== verification/Block.v ===== *)
(** * Block: records in a block of bytes

    What the packed tables of the file scanner of smartva share: the alignment of
    [scan_file/common.h], and 32-bit members and C strings at an offset of a block.  An
    access outside the block is [None].  The machine is little endian. *)
From S2P Require Import Prelude CString.

(** [RAT_ALIGN(val, sizeof(__u64))]. *)
Definition align8 (val : Z) : Z := Z.land (u32 (val + (8 - 1))) (u32 (Z.lnot (8 - 1))).

(** A 32-bit member of an entry. *)
Definition get32 (d : list Z) (off : Z) : option Z :=
  if (0 <=? off) && (off + 4 <=? Z.of_nat (length d)) then Some (le_combine (bytes_at d (Z.to_nat off) 4)) else None.

(** Stores [src] at [off]; a store that leaves the block is a fault. *)
Definition store (d : list Z) (off : Z) (src : list Z) : option (list Z) :=
  if (0 <=? off) && (off + Z.of_nat (length src) <=? Z.of_nat (length d)) then Some (blit d (Z.to_nat off) src) else None.

(** The C string at [off]. *)
Definition get_str (d : list Z) (off : Z) : option (list Z) :=
  if (0 <=? off) && (off <=? Z.of_nat (length d)) then cstring (drop (Z.to_nat off) d) else None.

(** ** Members of a block *)

Lemma align8_eq v : 0 <= v < 2 ^ 32 - 8 -> align8 v = v + 7 - (v + 7) mod 8.
Proof.
  intros H. unfold align8. rewrite (u32_id (v + (8 - 1))) by lia.
  change (u32 (Z.lnot (8 - 1))) with (Z.shiftl (Z.ones 29) 3).
  assert (v + 7 - (v + 7) mod 8 = Z.shiftl (Z.shiftr (v + 7) 3) 3) as ->.
  { rewrite Z.shiftl_mul_pow2, Z.shiftr_div_pow2 by lia. change (2 ^ 3) with 8.
    pose proof (Z.div_mod (v + 7) 8). lia. }
  bitwise. destruct (Z.lt_ge_cases n 3).
  - rewrite !(Z.testbit_neg_r _ (n - 3)) by lia. apply andb_false_r.
  - rewrite Z.shiftr_spec by lia. replace (n - 3 + 3) with n by lia. change (8 - 1) with 7.
    destruct (Z.lt_ge_cases n 32).
    + rewrite Z.ones_spec_low by lia. apply andb_true_r.
    + rewrite (testbit_high (v + 7) 32) by lia. reflexivity.
Qed.

Lemma align8_bounds v : 0 <= v < 2 ^ 32 - 8 -> v <= align8 v < v + 8.
Proof. intros. rewrite align8_eq by lia. pose proof (Z.mod_pos_bound (v + 7) 8). lia. Qed.

Lemma get32_range d off x : bytes_ok d -> get32 d off = Some x -> 0 <= x < 2 ^ 32.
Proof.
  unfold get32. intros Hd. destruct (_ && _) eqn:E; [| discriminate]. intros [= <-].
  pose proof (le_combine_range (bytes_at d (Z.to_nat off) 4) (bytes_at_ok _ _ _ Hd)) as H.
  rewrite length_bytes_at in H by lia. exact H.
Qed.

Lemma store_inv d off src d' : store d off src = Some d' ->
  0 <= off /\ off + Z.of_nat (length src) <= Z.of_nat (length d) /\ d' = blit d (Z.to_nat off) src /\ length d' = length d.
Proof.
  unfold store. destruct (_ && _) eqn:E; [| discriminate]. intros [= <-].
  rewrite length_blit by lia. repeat split; lia.
Qed.

Lemma store_ok d off src : 0 <= off -> off + Z.of_nat (length src) <= Z.of_nat (length d) ->
  store d off src = Some (blit d (Z.to_nat off) src).
Proof. intros. unfold store. now rewrite (proj2 (andb_true_iff _ _)) by lia. Qed.

(** A store at or after [n] keeps the first [n] bytes. *)
Lemma store_take d off src d' n : store d off src = Some d' -> Z.of_nat n <= off -> take n d' = take n d.
Proof.
  intros H Hn. apply store_inv in H as (H0 & Hl & -> & _). unfold blit.
  rewrite take_app_le by (rewrite length_take; lia). rewrite take_take. f_equal. lia.
Qed.

Lemma store_read d off src d' k : store d off src = Some d' -> (k = length src)%nat -> bytes_at d' (Z.to_nat off) k = src.
Proof.
  intros H ->. apply store_inv in H as (H0 & Hl & -> & _). apply bytes_at_blit_same; lia.
Qed.

Lemma bytes_at_take (d : list Z) off k n : (off + k <= n)%nat -> bytes_at (take n d) off k = bytes_at d off k.
Proof. intros. unfold bytes_at. rewrite skipn_firstn_comm, take_take. f_equal. lia. Qed.

(** The members below [n] depend only on the first [n] bytes. *)
Lemma get32_frame d d' n off x : take n d' = take n d -> off + 4 <= Z.of_nat n -> get32 d off = Some x -> get32 d' off = Some x.
Proof.
  unfold get32. intros Ht Hn. destruct (_ && _) eqn:E; [| discriminate]. intros [= <-].
  pose proof (f_equal length Ht) as Hlen. rewrite !length_take in Hlen.
  rewrite (proj2 (andb_true_iff _ _)) by lia. do 2 f_equal.
  rewrite <- (bytes_at_take d' _ _ n), <- (bytes_at_take d _ _ n) by lia. now rewrite Ht.
Qed.

(** A 32-bit member inside what was stored. *)
Lemma get32_store_part d off pre x post d' : store d off (pre ++ le_split 4 x ++ post) = Some d' ->
  get32 d' (off + Z.of_nat (length pre)) = Some (u32 x).
Proof.
  intros H. pose proof (store_read _ _ _ _ _ H eq_refl) as Hr. apply store_inv in H as (H0 & Hl & _ & Hl').
  rewrite !length_app, length_le_split in Hl, Hr. unfold get32. rewrite (proj2 (andb_true_iff _ _)) by lia.
  assert (bytes_at d' (Z.to_nat (off + Z.of_nat (length pre))) 4 = le_split 4 x) as ->.
  { unfold bytes_at in *. replace (Z.to_nat (off + Z.of_nat (length pre))) with (Z.to_nat off + length pre)%nat by lia.
    rewrite <- drop_drop. rewrite <- (take_drop (length pre + (4 + length post)) (drop (Z.to_nat off) d')), Hr.
    rewrite <- !app_assoc, drop_app_length. apply take_app_length'. now rewrite length_le_split. }
  now rewrite le_combine_split.
Qed.

Lemma get32_store d off x d' : store d off (le_split 4 x) = Some d' -> get32 d' off = Some (u32 x).
Proof.
  intros H. pose proof (get32_store_part d off [] x [] d') as P. rewrite app_nil_r, Z.add_0_r in P. exact (P H).
Qed.

Lemma le_split_add n m x : le_split (n + m) x = le_split n x ++ le_split m (x / 256 ^ Z.of_nat n).
Proof.
  revert x. induction n as [| n IH]; intros x; [now rewrite Z.div_1_r |].
  cbn [Nat.add le_split app]. rewrite IH, Z.div_div, Nat2Z.inj_succ, Z.pow_succ_r by lia. reflexivity.
Qed.

Lemma strlen_inv l n : strlen l = Some n -> exists rest, l = take n l ++ 0 :: rest.
Proof.
  revert n. induction l as [| c l IH]; intros n; [discriminate |]. cbn [strlen].
  destruct (Z.eqb_spec c 0) as [-> |]; [intros [= <-]; now exists l |].
  destruct (strlen l) as [m |]; [| discriminate]. intros [= <-].
  destruct (IH m eq_refl) as [rest E]. exists rest. cbn [firstn app]. now rewrite <- E.
Qed.

Lemma strlen_prefix l n : strlen l = Some n -> strlen (take (S n) l) = Some n.
Proof.
  revert n. induction l as [| c l IH]; intros n; [discriminate |]. cbn [strlen firstn].
  destruct (c =? 0); [easy |]. destruct (strlen l) as [m |]; [| discriminate]. intros [= <-].
  now rewrite (IH m eq_refl).
Qed.

Lemma strlen_longer l l' n : strlen l = Some n -> take (S n) l' = take (S n) l -> strlen l' = Some n.
Proof.
  revert l' n. induction l as [| c l IH]; intros l' n; [discriminate |]. cbn [strlen].
  destruct l' as [| c' l']; cbn [firstn]; [discriminate |]. intros H [= -> Ht]. cbn [strlen].
  destruct (c =? 0); [exact H |]. destruct (strlen l) as [m |]; [| discriminate].
  injection H as <-. now rewrite (IH l' m).
Qed.

Lemma get_str_frame d d' n off p : take n d' = take n d -> off + Z.of_nat (length p) + 1 <= Z.of_nat n ->
  get_str d off = Some p -> get_str d' off = Some p.
Proof.
  unfold get_str, cstring. intros Ht Hn. destruct (_ && _) eqn:E; [| discriminate].
  destruct (strlen (drop (Z.to_nat off) d)) as [m |] eqn:Em; [| discriminate]. intros [= <-].
  pose proof (strlen_bound _ _ Em) as Hm. rewrite length_drop in Hm.
  rewrite length_take, length_drop in Hn.
  pose proof (f_equal length Ht) as Hlen. rewrite !length_take in Hlen.
  rewrite (proj2 (andb_true_iff _ _)) by lia.
  assert (forall k, (k <= S m)%nat -> take k (drop (Z.to_nat off) d') = take k (drop (Z.to_nat off) d)) as Hk.
  { intros k Hkm. change (bytes_at d' (Z.to_nat off) k = bytes_at d (Z.to_nat off) k).
    rewrite <- (bytes_at_take d' _ _ n), <- (bytes_at_take d _ _ n) by lia. now rewrite Ht. }
  rewrite (strlen_longer _ (drop (Z.to_nat off) d') _ Em) by (apply Hk; lia). f_equal. apply Hk. lia.
Qed.

Lemma get_str_store d off p d' : cstr_ok p -> store d off (p ++ [0]) = Some d' -> get_str d' off = Some p.
Proof.
  intros Hp H. pose proof (store_read _ _ _ _ _ H eq_refl) as Hr. apply store_inv in H as (H0 & Hl & _ & Hl').
  rewrite length_app in Hl, Hr. simpl in Hl, Hr. unfold get_str. rewrite (proj2 (andb_true_iff _ _)) by lia.
  rewrite <- (take_drop (length p + 1) (drop (Z.to_nat off) d')).
  change (take (length p + 1) (drop (Z.to_nat off) d')) with (bytes_at d' (Z.to_nat off) (length p + 1)).
  rewrite Hr, <- app_assoc. apply cstring_cstr, Hp.
Qed.
