(* ===== verification/ScanStack.v ===== *)
(** * ScanStack: the stack of directory paths of the file scanner

    Models [thirdparty/gui/lvgl-6/smartva/src/common/middle/scan_file/ScanStack.c]: a
    stack of paths packed in one block of bytes, each entry with its length and the
    offset of the entry below it.  The block grows by 4096 bytes at most once per push.
    A call of [malloc] or [realloc] is numbered; a variable says which ones succeed and
    another what a fresh byte holds.  [size_t] has 32 bits and is little endian.  The
    handle tests for [NULL] are left to the callers, which have none. *)
From Stdlib Require Import String.
From S2P Require Import Prelude CString Block.

(** [None] is a fault: an access through [NULL] or outside a block. *)
Record ScanStack_t := Stack {
  Alloc : Z;
  Size : Z;
  Top : Z;
  Data : option (list Z);
}.

Definition STACK_GROWN_LEN : Z := 4096.
Definition EPDK_OK : Z := 0.
Definition EPDK_FAIL : Z := -1.

(** [offsetof(ScanStackEntry_t, Path)], and the length of an entry. *)
Definition PATH_OFFSET : Z := 8.
Definition rec_len (path : list Z) : Z := align8 (PATH_OFFSET + Z.of_nat (length path) + 1).

Section Stack.

(** Which allocations succeed; the byte that uninitialised memory holds at an address. *)
Variables (mem_ok : nat -> bool) (junk : nat -> Z).

Definition fresh (off n : Z) : list Z := map junk (seq (Z.to_nat off) (Z.to_nat n)).

(** The number of allocations made is threaded through. *)
Definition ScanStackAlloc (n : nat) : option ScanStack_t * nat :=
  if mem_ok n then
    (Some (Stack STACK_GROWN_LEN 0 0 (if mem_ok (S n) then Some (fresh 0 STACK_GROWN_LEN) else None)), S (S n))
  else (None, S n).

(** [realloc] when the free space does not suffice. *)
Definition stack_grow (RecLen : Z) (s : ScanStack_t) (n : nat) : option ScanStack_t * nat :=
  if u32 (Alloc s - Size s) <? RecLen then
    if mem_ok n then
      let Len := u32 (Alloc s + STACK_GROWN_LEN) in
      let old := default [] (Data s) in
      (Some (Stack (u32 (Alloc s + STACK_GROWN_LEN)) (Size s) (Top s) (Some (take (Z.to_nat Len) old ++ fresh (Z.of_nat (length old)) (Len - Z.of_nat (length old))))), S n)
    else (None, S n)
  else (Some s, n).

Definition ScanStackPush (s : ScanStack_t) (path : list Z) (n : nat) : option (Z * ScanStack_t * nat) :=
  let RecLen := rec_len path in
  match stack_grow RecLen s n with
  | (None, n) => Some (EPDK_FAIL, s, n)
  | (Some s, n) =>
      d ← Data s;
      d ← store d (Size s) (le_split 4 RecLen);
      d ← store d (Size s + 4) (le_split 4 (Top s));
      d ← store d (Size s + PATH_OFFSET) (path ++ [0]);
      Some (EPDK_OK, Stack (Alloc s) (u32 (Size s + RecLen)) (Size s) (Some d), n)
  end.

(** The returned path is copied by the callers before the next call; an empty stack
    gives [NULL]. *)
Definition ScanStackPop (s : ScanStack_t) : option (option (list Z) * ScanStack_t) :=
  if Size s =? 0 then Some (None, s) else
  d ← Data s;
  prev ← get32 d (Top s + 4);
  len ← get32 d (Top s);
  path ← get_str d (Top s + PATH_OFFSET);
  Some (Some path, Stack (Alloc s) (u32 (Size s - len)) prev (Data s)).

Definition ScanStackEmpty (s : ScanStack_t) : bool := Size s =? 0.

(** ** What the bytes mean

    [layout d size top l]: the first [size] bytes of [d] hold the paths [l], the top of the
    stack first, and [top] is the offset of the first of them. *)
Inductive layout (d : list Z) : Z -> Z -> list (list Z) -> Prop :=
  | layout_nil : layout d 0 0 []
  | layout_cons off prev p l :
      layout d off prev l -> cstr_ok p -> Z.of_nat (length p) < 2 ^ 31 ->
      get32 d off = Some (rec_len p) -> get32 d (off + 4) = Some prev -> get_str d (off + PATH_OFFSET) = Some p ->
      layout d (off + rec_len p) off (p :: l).

Definition repr (s : ScanStack_t) (l : list (list Z)) : Prop :=
  exists d, Data s = Some d /\ Z.of_nat (length d) = Alloc s /\ Size s <= Alloc s /\
    STACK_GROWN_LEN <= Alloc s < 2 ^ 32 /\ layout d (Size s) (Top s) l.

(** ** Sequences of calls *)

Inductive op := Push (path : list Z) | Pop | Empty.
Inductive out := Code (r : Z) | Popped (path : option (list Z)) | Flag (b : bool).

Fixpoint run (ops : list op) (s : ScanStack_t) (n : nat) : option (list out * ScanStack_t) :=
  match ops with
  | [] => Some ([], s)
  | Push p :: ops =>
      '(r, s, n) ← ScanStackPush s p n; '(os, s) ← run ops s n; Some (Code r :: os, s)
  | Pop :: ops => '(p, s) ← ScanStackPop s; '(os, s) ← run ops s n; Some (Popped p :: os, s)
  | Empty :: ops => '(os, s') ← run ops s n; Some (Flag (ScanStackEmpty s) :: os, s')
  end.

End Stack.

(** The same calls on a list of paths. *)
Fixpoint spec_run (ops : list op) (l : list (list Z)) : list out * list (list Z) :=
  match ops with
  | [] => ([], l)
  | Push p :: ops => let '(os, l) := spec_run ops (p :: l) in (Code EPDK_OK :: os, l)
  | Pop :: ops => let '(os, l') := spec_run ops (tail l) in (Popped (head l) :: os, l')
  | Empty :: ops => let '(os, l') := spec_run ops l in (Flag (bool_decide (l = [])) :: os, l')
  end.

(** A path that fits the growth of the block. *)
Definition op_ok (o : op) : Prop := match o with Push p => cstr_ok p /\ Z.of_nat (length p) <= 4087 | _ => True end.

#[global] Instance op_ok_dec o : Decision (op_ok o).
Proof. destruct o; simpl; apply _. Defined.
#[global] Instance out_eq_dec : EqDecision out.
Proof. solve_decision. Defined.

Lemma rec_len_bounds p : Z.of_nat (length p) < 2 ^ 31 ->
  PATH_OFFSET + Z.of_nat (length p) + 1 <= rec_len p < PATH_OFFSET + Z.of_nat (length p) + 9.
Proof. unfold rec_len, PATH_OFFSET. intros. pose proof (align8_bounds (8 + Z.of_nat (length p) + 1)). lia. Qed.

Lemma layout_size d size top l : layout d size top l -> 0 <= top <= size /\ (size = 0 <-> l = []).
Proof.
  induction 1 as [| off prev p l Hl IH Hp Hn]; [easy |]. pose proof (rec_len_bounds p Hn). unfold PATH_OFFSET in *.
  split; [lia |]. split; [lia | discriminate].
Qed.

(** The layout below [n] depends only on the first [n] bytes. *)
Lemma layout_frame d d' n size top l : take n d' = take n d -> size <= Z.of_nat n ->
  layout d size top l -> layout d' size top l.
Proof.
  intros Ht Hn Hl. revert Hn. induction Hl as [| off prev p l Hl IH Hp Hlp Hlen Hprev Hstr]; intros Hn; [constructor |].
  pose proof (rec_len_bounds p Hlp) as Hb. unfold PATH_OFFSET in *.
  econstructor; eauto.
  - apply IH. lia.
  - eapply get32_frame; [exact Ht | lia | exact Hlen].
  - eapply get32_frame; [exact Ht | lia | exact Hprev].
  - eapply get_str_frame; [exact Ht | unfold PATH_OFFSET; lia | exact Hstr].
Qed.

(** Writing an entry on top of the stack. *)
Lemma push_entry d size top l p :
  layout d size top l -> cstr_ok p -> Z.of_nat (length p) < 2 ^ 31 -> Z.of_nat (length d) < 2 ^ 32 ->
  size + PATH_OFFSET + Z.of_nat (length p) + 1 <= Z.of_nat (length d) ->
  exists d1 d2 d3,
    store d size (le_split 4 (rec_len p)) = Some d1 /\ store d1 (size + 4) (le_split 4 top) = Some d2 /\
    store d2 (size + PATH_OFFSET) (p ++ [0]) = Some d3 /\ length d3 = length d /\ layout d3 (size + rec_len p) size (p :: l).
Proof.
  intros Hl Hp Hlp Hd Hroom. pose proof (layout_size _ _ _ _ Hl) as [Hs _]. pose proof (rec_len_bounds p Hlp). unfold PATH_OFFSET in *.
  edestruct (store d size (le_split 4 (rec_len p))) as [d1 |] eqn:E1; [| rewrite store_ok in E1 by (rewrite ?length_le_split; lia); discriminate].
  pose proof (store_inv _ _ _ _ E1) as (_ & _ & _ & L1).
  destruct (store d1 (size + 4) (le_split 4 top)) as [d2 |] eqn:E2; [| rewrite store_ok in E2 by (rewrite ?length_le_split; lia); discriminate].
  pose proof (store_inv _ _ _ _ E2) as (_ & _ & _ & L2).
  destruct (store d2 (size + 8) (p ++ [0])) as [d3 |] eqn:E3; [| rewrite store_ok in E3 by (rewrite ?length_app; simpl; lia); discriminate].
  pose proof (store_inv _ _ _ _ E3) as (_ & _ & _ & L3).
  exists d1, d2, d3. split_and!; [done | done | done | lia |].
  pose proof (store_take _ _ _ _ (Z.to_nat (size + 8)) E3 ltac:(lia)) as T3.
  pose proof (store_take _ _ _ _ (Z.to_nat (size + 4)) E2 ltac:(lia)) as T2.
  apply (layout_cons d3 size top p l); [| exact Hp | exact Hlp | | |].
  - apply (layout_frame d _ (Z.to_nat size)); [| lia | exact Hl].
    rewrite (store_take _ _ _ _ (Z.to_nat size) E3), (store_take _ _ _ _ (Z.to_nat size) E2) by lia.
    apply (store_take _ _ _ _ _ E1). lia.
  - apply (get32_frame d2 _ (Z.to_nat (size + 8))); [exact T3 | lia |].
    apply (get32_frame d1 _ (Z.to_nat (size + 4))); [exact T2 | lia |].
    rewrite (get32_store _ _ _ _ E1), u32_id by lia. reflexivity.
  - apply (get32_frame d2 _ (Z.to_nat (size + 8))); [exact T3 | lia |].
    rewrite (get32_store _ _ _ _ E2), u32_id by lia. reflexivity.
  - exact (get_str_store _ _ _ _ Hp E3).
Qed.

(** ** The stack of bytes is a stack of paths *)

Section Refinement.

Context (mem_ok : nat -> bool) (junk : nat -> Z).

Abbreviation push := (ScanStackPush mem_ok junk).

(** The size of the block after a push has made room. *)
Definition room (s : ScanStack_t) (p : list Z) : Z :=
  if Alloc s - Size s <? rec_len p then Alloc s + STACK_GROWN_LEN else Alloc s.

Lemma grow_spec s l p n : repr s l -> Z.of_nat (length p) < 2 ^ 31 -> room s p < 2 ^ 32 ->
  exists s' n', stack_grow mem_ok junk (rec_len p) s n = (s', n') /\
    match s' with
    | Some s' => repr s' l /\ Alloc s' = room s p /\ Size s' = Size s /\ Top s' = Top s
    | None => mem_ok n = false /\ room s p <> Alloc s
    end.
Proof.
  intros (d & HD & Hlen & Hs & Ha & Hl) Hp Hr. pose proof (layout_size _ _ _ _ Hl) as [Ht _].
  unfold stack_grow, room in *. rewrite u32_id by lia. unfold STACK_GROWN_LEN in *.
  destruct (Z.ltb_spec (Alloc s - Size s) (rec_len p)).
  - destruct (mem_ok n) eqn:Em; [| do 2 eexists; split; [reflexivity |]; split; [done | lia]].
    do 2 eexists. split; [reflexivity |]. cbn [Alloc Size Top]. rewrite u32_id by lia.
    split; [| done]. rewrite HD. cbn [default from_option id]. rewrite firstn_all2 by lia.
    assert (length (fresh junk (Z.of_nat (length d)) (Alloc s + 4096 - Z.of_nat (length d))) = Z.to_nat 4096) as Hf.
    { unfold fresh. rewrite length_map, length_seq. lia. }
    eexists. split; [reflexivity |]. cbn [Alloc Size Top]. rewrite length_app, Hf. unfold STACK_GROWN_LEN.
    split_and!; [lia | lia | lia | lia |].
    apply (layout_frame d _ (length d)); [rewrite take_app_length, firstn_all; reflexivity | lia | exact Hl].
  - do 2 eexists. split; [reflexivity |]. split; [| done]. exists d. auto.
Qed.

Lemma push_repr s l p n : repr s l -> cstr_ok p -> Z.of_nat (length p) < 2 ^ 31 -> room s p < 2 ^ 32 ->
  Size s + PATH_OFFSET + Z.of_nat (length p) + 1 <= room s p -> Size s + rec_len p <= room s p ->
  (exists s' n', push s p n = Some (EPDK_OK, s', n') /\ repr s' (p :: l) /\ Alloc s' = room s p) \/
  (mem_ok n = false /\ exists n', push s p n = Some (EPDK_FAIL, s, n')).
Proof.
  intros Hr Hp Hlp Hroom Hfit Hrec. unfold ScanStackPush.
  destruct (grow_spec s l p n Hr Hlp Hroom) as ([s' |] & n' & -> & H); [left | right; naive_solver].
  destruct H as ((d & -> & Hlen & Hs & Ha & Hl) & Ea & Es & Et). cbn [mbind option_bind].
  rewrite Es, Et in *. pose proof (layout_size _ _ _ _ Hl) as [Ht _].
  destruct (push_entry d (Size s) (Top s) l p Hl Hp Hlp) as (d1 & d2 & d3 & -> & E2 & E3 & L & Hl'); [lia | lia |].
  cbn [mbind option_bind]. rewrite E2. cbn [mbind option_bind]. rewrite E3. cbn [mbind option_bind].
  pose proof (rec_len_bounds p Hlp). unfold PATH_OFFSET in *.
  do 2 eexists. split; [reflexivity |]. cbn [Alloc]. split; [| exact Ea]. rewrite u32_id by lia.
  exists d3. cbn [Data Alloc Size Top]. split_and!; [done | lia | lia | lia | lia | exact Hl'].
Qed.

Lemma pop_repr s p l : repr s (p :: l) -> exists s', ScanStackPop s = Some (Some p, s') /\ repr s' l /\ Alloc s' = Alloc s.
Proof.
  intros (d & HD & Hlen & Hs & Ha & Hl). pose proof (layout_size _ _ _ _ Hl) as [Ht He].
  unfold ScanStackPop. destruct (Z.eqb_spec (Size s) 0) as [E |]; [apply He in E; discriminate |].
  rewrite HD. cbn [mbind option_bind].
  inversion Hl as [| off prev p' l' Hl0 Hp Hlp Hrl Hprev Hstr Esz Etop Ep]; subst p' l' off.
  rewrite Hprev. cbn [mbind option_bind]. rewrite Hrl. cbn [mbind option_bind]. rewrite Hstr. cbn [mbind option_bind].
  eexists. split; [reflexivity |]. split; [| done]. exists d. cbn [Alloc Size Top Data].
  pose proof (layout_size _ _ _ _ Hl0) as [Ht0 _]. pose proof (rec_len_bounds p Hlp). unfold PATH_OFFSET in *.
  replace (Top s + rec_len p - rec_len p) with (Top s) by lia. rewrite u32_id by lia. split_and!; [done | lia | lia | lia | lia | exact Hl0].
Qed.

Lemma empty_repr s l : repr s l -> ScanStackEmpty s = bool_decide (l = []).
Proof.
  intros (d & HD & Hlen & Hs & Ha & Hl). pose proof (layout_size _ _ _ _ Hl) as [_ He]. unfold ScanStackEmpty.
  destruct (Z.eqb_spec (Size s) 0) as [E | E]; symmetry; [apply bool_decide_eq_true_2 | apply bool_decide_eq_false_2]; tauto.
Qed.

Lemma pop_empty s : repr s [] -> ScanStackPop s = Some (None, s).
Proof. intros H. pose proof (empty_repr s [] H) as E. unfold ScanStackPop, ScanStackEmpty in *. rewrite E. reflexivity. Qed.

Lemma alloc_repr n : mem_ok n = true -> mem_ok (S n) = true ->
  exists s, ScanStackAlloc mem_ok junk n = (Some s, S (S n)) /\ repr s [] /\ Alloc s = STACK_GROWN_LEN.
Proof.
  intros H1 H2. unfold ScanStackAlloc. rewrite H1, H2. eexists. split; [reflexivity |]. split; [| done].
  eexists. split; [reflexivity |]. cbn [Alloc Size Top]. unfold fresh, STACK_GROWN_LEN. rewrite length_map, length_seq.
  split_and!; [lia | lia | lia | lia | constructor].
Qed.

End Refinement.

Lemma push_small mem_ok junk s l p n : repr s l -> cstr_ok p -> Z.of_nat (length p) <= 4087 -> Alloc s + STACK_GROWN_LEN < 2 ^ 32 ->
  (exists s' n', ScanStackPush mem_ok junk s p n = Some (EPDK_OK, s', n') /\ repr s' (p :: l) /\ Alloc s' <= Alloc s + STACK_GROWN_LEN) \/
  (mem_ok n = false /\ exists n', ScanStackPush mem_ok junk s p n = Some (EPDK_FAIL, s, n')).
Proof.
  intros Hr Hp Hlp Ha. assert (rec_len p <= 4096) as Hrec.
  { unfold rec_len, PATH_OFFSET. rewrite align8_eq by lia.
    pose proof (Z.div_mod (8 + Z.of_nat (length p) + 1 + 7) 8 ltac:(lia)). pose proof (Z.mod_pos_bound (8 + Z.of_nat (length p) + 1 + 7) 8). lia. }
  pose proof (rec_len_bounds p ltac:(lia)) as Hb. pose proof Hr as (d & _ & Hlen & Hs & Hal & Hl).
  unfold PATH_OFFSET, STACK_GROWN_LEN in *.
  assert (Size s + rec_len p <= room s p) by (unfold room, STACK_GROWN_LEN; bool_cases; lia).
  assert (room s p <= Alloc s + 4096) by (unfold room, STACK_GROWN_LEN; bool_cases; lia).
  destruct (push_repr mem_ok junk s l p n Hr Hp) as [(s' & n' & E & Hr' & Ea) | H']; [lia | lia | unfold PATH_OFFSET; lia | lia | |]; [left | right; exact H'].
  exists s', n'. split_and!; [exact E | exact Hr' | lia].
Qed.

Lemma run_repr mem_ok junk ops s l n : (forall k, mem_ok k = true) -> repr s l -> Forall op_ok ops ->
  Alloc s + STACK_GROWN_LEN * Z.of_nat (length ops) < 2 ^ 32 ->
  exists s', run mem_ok junk ops s n = Some (fst (spec_run ops l), s') /\ repr s' (snd (spec_run ops l)).
Proof.
  intros Hmem. revert s l n. induction ops as [| o ops IH]; intros s l n Hr Hok Ha; [now exists s |].
  apply Forall_cons_1 in Hok as [Ho Hok]. cbn [length] in Ha. unfold STACK_GROWN_LEN in *.
  destruct o as [p | |]; cbn [run spec_run].
  - destruct Ho as [Hp Hlp].
    destruct (push_small mem_ok junk s l p n Hr Hp Hlp) as [(s' & n' & -> & Hr' & Ea) | [Hf _]];
      [unfold STACK_GROWN_LEN; lia | | now rewrite Hmem in Hf].
    cbn [mbind option_bind]. unfold STACK_GROWN_LEN in *.
    destruct (IH s' (p :: l) n' Hr' Hok ltac:(lia)) as (s2 & -> & Hr2). cbn [mbind option_bind].
    destruct (spec_run ops (p :: l)) as [os l']. now exists s2.
  - assert (exists s', ScanStackPop s = Some (head l, s') /\ repr s' (tail l) /\ Alloc s' = Alloc s) as (s' & -> & Hr' & Ea).
    { destruct l as [| p l]; [exists s; now rewrite pop_empty | now apply pop_repr]. }
    cbn [mbind option_bind]. destruct (IH s' (tail l) n Hr' Hok ltac:(lia)) as (s2 & -> & Hr2). cbn [mbind option_bind].
    destruct (spec_run ops (tail l)) as [os l']. now exists s2.
  - destruct (IH s l n Hr Hok ltac:(lia)) as (s2 & -> & Hr2). cbn [mbind option_bind]. rewrite (empty_repr s l Hr).
    destruct (spec_run ops l) as [os l']. now exists s2.
Qed.

(** ** Properties *)

(** The packed stack refines the stack of its paths: from its creation on, any sequence of
    pushes, pops and tests of paths of at most 4087 bytes gives, call by call, what the
    same calls give on a list of paths, and no store leaves the block.  (Growing once per
    push is enough for such paths; memory is not exhausted.) *)
Theorem stack_refines mem_ok junk ops :
  (forall k, mem_ok k = true) -> Forall op_ok ops -> 4096 * (Z.of_nat (length ops) + 1) < 2 ^ 32 ->
  exists s n s', ScanStackAlloc mem_ok junk 0 = (Some s, n) /\
    run mem_ok junk ops s n = Some (fst (spec_run ops []), s') /\ repr s' (snd (spec_run ops [])).
Proof.
  intros Hmem Hok Hl. destruct (alloc_repr mem_ok junk 0 (Hmem _) (Hmem _)) as (s & E & Hr & Ha).
  destruct (run_repr mem_ok junk ops s [] 2 Hmem Hr Hok) as (s' & E' & Hr'); [rewrite Ha; unfold STACK_GROWN_LEN; lia |].
  now exists s, 2%nat, s'.
Qed.

Definition demo_ops : list op := [Push (lit "/mnt"); Push (replicate 4087 97); Pop; Push (lit "/mnt/a"); Push (lit "/mnt/b"); Pop; Pop; Empty; Pop; Pop; Empty].

Lemma stack_refines_witness :
  exists s n s', ScanStackAlloc (fun _ => true) (fun k => Z.of_nat k mod 256) 0 = (Some s, n) /\
    run (fun _ => true) (fun k => Z.of_nat k mod 256) demo_ops s n = Some (fst (spec_run demo_ops []), s') /\ repr s' (snd (spec_run demo_ops [])).
Proof. apply (stack_refines (fun _ => true) (fun k => Z.of_nat k mod 256) demo_ops); [easy | by_compute | reflexivity]. Defined.

(** A path of 8192 bytes is stored past the end of the block: the block grows once. *)
Example long_push_overflows :
  (s ← fst (ScanStackAlloc (fun _ => true) (fun _ => 0) 0); ScanStackPush (fun _ => true) (fun _ => 0) s (replicate (Z.to_nat 8192) 97) 2) = None.
Proof. by_compute. Qed.
