(* ===== verification/Scan.v ===== *)
(** * Scan: the media file scanner of smartva

    Models [thirdparty/gui/lvgl-6/smartva/src/common/middle/scan_file/scan.c]: files whose
    suffix is wanted are collected, directory after directory, into a chain of 4096-byte
    lists of packed entries, all at once or a few at a time, and cursors walk over the chain.

    The file system is a function from a path to the entries [readdir] gives, [None] where
    [opendir] fails; it does not change during a scan.  A directory handle is the list of
    the entries not read yet.  A pointer to a list is its place in the chain, so that the
    links are the neighbouring places.  [malloc] is that of [ScanStack].  The returned entry
    is a value: its path is copied out of the list, where it does not change before the
    lists are freed.  The progress callback and messages are left out; [char] is unsigned
    and [size_t] and pointers have 32 bits, as on the ARM targets. *)
From Stdlib Require Import String.
From S2P Require Import Prelude CString Block ScanStack.

#[local] Open Scope string_scope.
#[local] Open Scope list_scope.
#[local] Open Scope Z_scope.

(** ** The suffixes *)

(** [rat_media_type_t], as far as the table uses it. *)
Definition RAT_MEDIA_TYPE_ALL : Z := 0.
Definition RAT_MEDIA_TYPE_PIC : Z := 1.
Definition RAT_MEDIA_TYPE_AUDIO : Z := 2.
Definition RAT_MEDIA_TYPE_VIDEO : Z := 3.
Definition RAT_MEDIA_TYPE_EBOOK : Z := 4.
Definition RAT_MEDIA_TYPE_FIRMWARE : Z := 5.
Definition RAT_MEDIA_TYPE_UNKNOWN : Z := 6.
Definition RAT_MEDIA_TYPE_VIDEO_AND_AUDIO : Z := 7.
Definition RAT_MEDIA_TYPE_VIDEO_AND_PIC : Z := 12.
Definition RAT_MEDIA_TYPE_MAX : Z := 13.

Definition flag (n : Z) : Z := Z.shiftl 1 n.
Definition flags (l : list Z) : Z := foldr (fun n => Z.lor (flag n)) 0 l.

(** [EBOOK_SCAN_ALL], [MOVIE_SCAN_ALL], [MUSIC_SCAN_ALL], [PHOTO_SCAN_ALL]. *)
Definition EBOOK_SCAN_ALL : Z := flags [1; 2; 3; 4; 5; 6; 7; 8].
Definition MOVIE_SCAN_ALL : Z := flags [15; 16; 17; 18; 18; 19; 20; 21; 22; 23; 24; 25; 26; 27; 28; 29; 30; 31; 32; 57].
Definition MUSIC_SCAN_ALL : Z := flags [33; 34; 35; 36; 37; 38; 39; 40; 41; 42; 43; 44; 45; 46; 47; 55; 56].
Definition PHOTO_SCAN_ALL : Z := flags [48; 49; 50; 51; 52; 53].

Record FmtIdx_t := Fmt { Suffix : list Z; FmtFormat : Z; ScanFlag : Z }.

Definition ValidFmtTbl : list FmtIdx_t :=
  let ebook s n := Fmt (lit s) RAT_MEDIA_TYPE_EBOOK (flag n) in
  let video s n := Fmt (lit s) RAT_MEDIA_TYPE_VIDEO (flag n) in
  let audio s n := Fmt (lit s) RAT_MEDIA_TYPE_AUDIO (flag n) in
  let pic s n := Fmt (lit s) RAT_MEDIA_TYPE_PIC (flag n) in
  [ ebook ".txt" 1; ebook ".h" 2; ebook ".c" 3; ebook ".ini" 4; ebook ".lrc" 5; ebook ".srt" 6; ebook ".ssa" 7; ebook ".ass" 8;
    video ".AVI" 15; video ".DIVX" 15; video ".PMP" 20; video ".3GP" 21; video ".MP4" 16; video ".M4V" 16; video ".F4V" 19;
    video ".MPG" 17; video ".MPEG" 17; video ".VOB" 22; video ".RM" 18; video ".RAM" 18; video ".FLV" 19; video ".WMV" 26;
    video ".ASF" 27; video ".MKV" 25; video ".PSR" 28; video ".TP" 29; video ".TRP" 30; video ".TS" 30; video ".M2TS" 30;
    video ".MOV" 31; video ".WEBM" 57;
    audio ".MP3" 33; audio ".MP2" 34; audio ".MP1" 35; audio ".OGG" 37; audio ".APE" 38; audio ".FLAC" 39; audio ".AAC" 42;
    audio ".AMR" 43; audio ".WAV" 47; audio ".M4A" 55; audio ".OMA" 56;
    pic ".JFIF" 48; pic ".JPEG" 49; pic ".PNG" 50; pic ".BMP" 51; pic ".JPG" 52; pic ".GIF" 53;
    Fmt (lit ".IMG") RAT_MEDIA_TYPE_FIRMWARE (flag 54); Fmt (lit ".swu") RAT_MEDIA_TYPE_FIRMWARE (flag 54) ].

(** [rat.c]: the table and its lookup. *)
Definition ToUpperTable : list Z := seqZ 0 97 ++ seqZ 65 26 ++ seqZ 123 133.
Definition SLIB_toupper (c : Z) : Z := nth (Z.to_nat c) ToUpperTable 0.

(** A character of a C string, its terminator included. *)
Definition char_at (s : list Z) (i : nat) : Z := nth i s 0.

(** The loop from the end; the position found, [None] for [NULL]. *)
Fixpoint strchrlast_loop (s : list Z) (c : Z) (i : nat) : nat :=
  match i with
  | O => O
  | S i' => if char_at s i =? c then i else strchrlast_loop s c i'
  end.
Definition SLIB_strchrlast (s : list Z) (c : Z) : option nat :=
  let i := strchrlast_loop s c (List.length s) in if char_at s i =? c then Some i else None.

(** The loop: the position where it stops.  (Its tests of the next pointers never fail.) *)
Fixpoint stricmp_loop (p1 p2 : list Z) : list Z * list Z :=
  match p1, p2 with
  | x :: p1', y :: p2' => if SLIB_toupper x =? SLIB_toupper y then stricmp_loop p1' p2' else (p1, p2)
  | _, _ => (p1, p2)
  end.
Definition SLIB_stricmp (p1 p2 : list Z) : Z :=
  let '(p1, p2) := stricmp_loop p1 p2 in
  if negb (char_at p1 0 =? char_at p2 0) then SLIB_toupper (char_at p1 0) - SLIB_toupper (char_at p2 0)
  else if char_at p1 0 =? 0 then 0
  else SLIB_toupper (char_at p1 1).

Fixpoint valid_loop (tbl : list FmtIdx_t) (suffix : list Z) (Types : Z) : option (option Z) :=
  match tbl with
  | [] => None
  | f :: tbl =>
      if SLIB_stricmp suffix (Suffix f) =? 0 then
        Some (if negb (Z.land (ScanFlag f) Types =? 0) || (Types =? 0) then Some (FmtFormat f) else None)
      else valid_loop tbl suffix Types
  end.

(** The format stored, where the result is [EPDK_TRUE]. *)
Definition ValidFileType (file : list Z) (Types : Z) : option Z :=
  match SLIB_strchrlast file 46 with
  | None => None
  | Some i =>
      match valid_loop ValidFmtTbl (drop i file) Types with
      | Some r => r
      | None => if Types =? 0 then Some RAT_MEDIA_TYPE_UNKNOWN else None
      end
  end.

(** ** State *)

Definition SCAN_MAX_PATH : Z := 768 + 1.
Definition FILELIST_LEN : Z := 4096.

(** [offsetof(ScanFileList_t, Data)], [offsetof(ScanFileEntry_t, Name)]. *)
Definition DATA_OFFSET : Z := 20.
Definition NAME_OFFSET : Z := 16.

Module FList.
Record t := Make {
  Alloc : Z;
  Size : Z;
  Top : Z;
  Data : list Z;
}.
End FList.

(** [CurList] is a place in the chain, [None] for [NULL]. *)
Record cursor := Cursor { CurList : option nat; Offset : Z }.

(** [d_type] and [d_name]. *)
Record dirent := Dirent { d_type : Z; d_name : list Z }.
Definition FSYS_ATTR_DIRECTORY : Z := 4.

Record ScanInfo_t := ScanInfo {
  Lists : list FList.t;
  ScanCursor : cursor;
  TmpCursor : cursor;
  ScanTypes : Z;
  OnceCnt : Z;
  CurCnt : Z;
  hStack : ScanStack_t;
  pCurDir : option (list dirent);
  CurPath : list Z;
  allocs : nat;
}.

#[global] Instance cursor_eq_dec : EqDecision cursor.
Proof. solve_decision. Defined.

Definition with_lists l (s : ScanInfo_t) := ScanInfo l (ScanCursor s) (TmpCursor s) (ScanTypes s) (OnceCnt s) (CurCnt s) (hStack s) (pCurDir s) (CurPath s) (allocs s).
Definition with_cursor c (s : ScanInfo_t) := ScanInfo (Lists s) c (TmpCursor s) (ScanTypes s) (OnceCnt s) (CurCnt s) (hStack s) (pCurDir s) (CurPath s) (allocs s).
Definition with_tmp c (s : ScanInfo_t) := ScanInfo (Lists s) (ScanCursor s) c (ScanTypes s) (OnceCnt s) (CurCnt s) (hStack s) (pCurDir s) (CurPath s) (allocs s).
Definition with_cnt n (s : ScanInfo_t) := ScanInfo (Lists s) (ScanCursor s) (TmpCursor s) (ScanTypes s) (OnceCnt s) n (hStack s) (pCurDir s) (CurPath s) (allocs s).
Definition with_stack h (s : ScanInfo_t) := ScanInfo (Lists s) (ScanCursor s) (TmpCursor s) (ScanTypes s) (OnceCnt s) (CurCnt s) h (pCurDir s) (CurPath s) (allocs s).
Definition with_dir d (s : ScanInfo_t) := ScanInfo (Lists s) (ScanCursor s) (TmpCursor s) (ScanTypes s) (OnceCnt s) (CurCnt s) (hStack s) d (CurPath s) (allocs s).
Definition with_path p (s : ScanInfo_t) := ScanInfo (Lists s) (ScanCursor s) (TmpCursor s) (ScanTypes s) (OnceCnt s) (CurCnt s) (hStack s) (pCurDir s) p (allocs s).
Definition with_allocs n (s : ScanInfo_t) := ScanInfo (Lists s) (ScanCursor s) (TmpCursor s) (ScanTypes s) (OnceCnt s) (CurCnt s) (hStack s) (pCurDir s) (CurPath s) n.

(** [None] is a fault: an access through [NULL], outside a block or past an array. *)
Definition M (A : Type) : Type := ScanInfo_t -> option (A * ScanInfo_t).

#[global] Instance M_ret : MRet M := fun A x s => Some (x, s).
#[global] Instance M_bind : MBind M := fun A B k m s => match m s with Some (x, s') => k x s' | None => None end.

Definition fault {A} : M A := fun _ => None.
Definition get {A} (f : ScanInfo_t -> A) : M A := fun s => Some (f s, s).
Definition put (f : ScanInfo_t -> ScanInfo_t) : M unit := fun s => Some (tt, f s).
Definition lift {A} (o : option A) : M A := fun s => match o with Some x => Some (x, s) | None => None end.

Section Scan.

Variables (mem_ok : nat -> bool) (junk : nat -> Z).
Variable fs : list Z -> option (list dirent).

(** ** The chain of lists *)

Definition new_list : FList.t := FList.Make (FILELIST_LEN - DATA_OFFSET) 0 0 (fresh junk 0 (FILELIST_LEN - DATA_OFFSET)).

(** The length of an entry; [Format] is 64 bits wide. *)
Definition entry_len (path : list Z) : Z := align8 (NAME_OFFSET + Z.of_nat (List.length path) + 1).

(** An entry at the end of a list. *)
Definition store_entry (l : FList.t) (path : list Z) (format : Z) : option FList.t :=
  let RecLen := entry_len path in
  d ← store (FList.Data l) (FList.Size l) (le_split 4 RecLen);
  d ← store d (FList.Size l + 4) (le_split 4 (FList.Top l));
  d ← store d (FList.Size l + 8) (le_split 8 format);
  d ← store d (FList.Size l + NAME_OFFSET) (path ++ [0]);
  Some (FList.Make (FList.Alloc l) (u32 (FList.Size l + RecLen)) (FList.Size l) d).

(** [LastList] is the last of the chain. *)
Definition LastList (lists : list FList.t) : nat := pred (List.length lists).

Definition InsertFileEntryToList (filePath : list Z) (format : Z) : M Z :=
  lists ← get Lists;
  pLastList ← lift (lists !! LastList lists);
  r ← (if u32 (FList.Alloc pLastList - FList.Size pLastList) <? entry_len filePath then
         n ← get allocs;
         put (with_allocs (S n));;
         (if mem_ok n then put (with_lists (lists ++ [new_list]));; mret EPDK_OK else mret EPDK_FAIL)
       else mret EPDK_OK);
  if negb (r =? EPDK_OK) then mret EPDK_FAIL else
  lists ← get Lists;
  pLastList ← lift (lists !! LastList lists);
  l ← lift (store_entry pLastList filePath format);
  put (with_lists (<[LastList lists := l]> lists));;
  mret EPDK_OK.

(** ** Directories *)

(** [strcpy(CurPath, ...)]. *)
Definition copy_CurPath (p : list Z) : M unit :=
  if Z.of_nat (List.length p) <? SCAN_MAX_PATH then put (with_path p) else fault.

(** [CurPath/d_name] in [tempPath]. *)
Definition build_tempPath (name : list Z) : M (list Z) :=
  p ← get CurPath;
  let t := p ++ lit "/" ++ name in
  if Z.of_nat (List.length t) <? SCAN_MAX_PATH + 256 then mret t else fault.

Definition stack_push (p : list Z) : M Z :=
  h ← get hStack; n ← get allocs;
  '(r, h, n) ← lift (ScanStackPush mem_ok junk h p n);
  put (fun s => with_allocs n (with_stack h s));; mret r.

(** Pops the next directory into [CurPath] and opens it. *)
Definition pop_open : M unit :=
  h ← get hStack;
  '(p, h) ← lift (ScanStackPop h);
  put (with_stack h);;
  p ← lift p;
  copy_CurPath p;;
  put (with_dir (fs p)).

Definition close_dir : M unit := put (with_dir None).

(** The work on one entry: [inl] the entry was passed over with [continue], [inr] whether
    the insertion succeeded and how many files it added. *)
Definition scan_entry (e : dirent) : M (unit + (bool * Z)) :=
  if d_type e =? FSYS_ATTR_DIRECTORY then
    if char_at (d_name e) 0 =? 46 then mret (inl tt) else
    t ← build_tempPath (d_name e); stack_push t;; mret (inr (true, 0))
  else
    types ← get ScanTypes;
    match ValidFileType (d_name e) types with
    | None => mret (inr (true, 0))
    | Some format =>
        t ← build_tempPath (d_name e);
        r ← InsertFileEntryToList t format;
        if negb (r =? EPDK_OK) then mret (inr (false, 0)) else mret (inr (true, 1))
    end.

(** [readdir] over an open directory.  [true]: the end was reached. *)
Fixpoint scan_dir (l : list dirent) (Count : Z) : M (bool * Z) :=
  match l with
  | [] => mret (true, Count)
  | e :: l =>
      put (with_dir (Some l));;
      r ← scan_entry e;
      match r with
      | inl _ => scan_dir l Count
      | inr (ok, k) => if (ok : bool) then scan_dir l (Count + k) else (close_dir;; mret (false, Count))
      end
  end.

(** Fuel: one turn per directory. *)
Fixpoint ScanAllFiles_loop (fuel : nat) (Count : Z) : M Z :=
  match fuel with
  | O => fault
  | S fuel =>
      h ← get hStack;
      if ScanStackEmpty h then mret Count else
      pop_open;;
      d ← get pCurDir;
      match d with
      | None => ScanAllFiles_loop fuel Count
      | Some l =>
          '(ok, Count) ← scan_dir l Count;
          if negb ok then mret Count else close_dir;; ScanAllFiles_loop fuel Count
      end
  end.

(** The same, until [OnceCnt] files are found: the directory then stays open. *)
Fixpoint scan_dir_once (l : list dirent) (Count : Z) : M (bool * Z) :=
  match l with
  | [] => mret (true, Count)
  | e :: l =>
      put (with_dir (Some l));;
      r ← scan_entry e;
      match r with
      | inl _ => scan_dir_once l Count
      | inr (ok, k) =>
          if negb ok then close_dir;; mret (false, Count) else
          once ← get OnceCnt;
          if once <=? Count + k then mret (false, Count + k) else scan_dir_once l (Count + k)
      end
  end.

Definition finish (Count : Z) : M Z :=
  c ← get CurCnt; put (with_cnt (s32 (c + Count)));; mret Count.

Fixpoint ScanFilesOneTime_loop (fuel : nat) (Count : Z) : M Z :=
  match fuel with
  | O => fault
  | S fuel =>
      d ← get pCurDir;
      match d with
      | None => finish Count
      | Some l =>
          '(ok, Count) ← scan_dir_once l Count;
          if negb ok then finish Count else
          close_dir;;
          h ← get hStack;
          if ScanStackEmpty h then finish Count else
          pop_open;; ScanFilesOneTime_loop fuel Count
      end
  end.

Definition ScanFilesOneTime (fuel : nat) : M Z :=
  d ← get pCurDir;
  match d with
  | Some _ => ScanFilesOneTime_loop fuel 0
  | None =>
      h ← get hStack;
      if ScanStackEmpty h then finish 0 else
      pop_open;; ScanFilesOneTime_loop fuel 0
  end.

(** ** Cursors *)

(** [c->CurList->...] *)
Definition cur_list (c : cursor) : M FList.t :=
  lists ← get Lists;
  i ← lift (CurList c);
  lift (lists !! i).

(** [CurList->Next], [CurList->Prev] of the list at a place. *)
Definition Next (lists : list FList.t) (i : nat) : option nat := if (S i <? List.length lists)%nat then Some (S i) else None.
Definition Prev (i : nat) : option nat := match i with O => None | S i => Some i end.
Definition cur_next (c : cursor) : M (option nat) := lists ← get Lists; i ← lift (CurList c); mret (Next lists i).
Definition cur_prev (c : cursor) : M (option nat) := i ← lift (CurList c); mret (Prev i).

(** [pEntry->RecLen], [pEntry->Prev] of the entry under the cursor. *)
Definition entry_member (c : cursor) (off : Z) : M Z := l ← cur_list c; lift (get32 (FList.Data l) (Offset c + off)).

Definition first_cursor : cursor := Cursor (Some O) 0.

Definition ScanMoveToFirst : M Z := put (with_cursor first_cursor);; mret EPDK_OK.

(** [Offset += RecLen], the end of both functions that move on. *)
Definition step_entry (c : cursor) : M cursor :=
  len ← entry_member c 0; mret (Cursor (CurList c) (u32 (Offset c + len))).

Definition ScanMoveToNext (fuel : nat) : M Z :=
  c ← get ScanCursor;
  l ← cur_list c;
  nxt ← cur_next c;
  let forward := c' ← step_entry c; put (with_cursor c');; mret EPDK_OK in
  let to_next nxt := put (with_cursor (Cursor nxt 0));; mret EPDK_OK in
  if Offset c =? FList.Top l then
    match nxt with
    | Some _ => to_next nxt
    | None =>
        Count ← ScanFilesOneTime fuel;
        l ← cur_list c;
        if Count =? 0 then put (with_cursor (Cursor (CurList c) (FList.Size l)));; mret EPDK_FAIL
        else if Offset c =? FList.Top l then nxt ← cur_next c; to_next nxt
        else forward
    end
  else forward.

(** [__ScanMoveCursorToNext], on a cursor of the caller. *)
Definition ScanMoveCursorToNext (c : cursor) : M (Z * cursor) :=
  l ← cur_list c;
  if Offset c =? FList.Top l then
    nxt ← cur_next c;
    match nxt with
    | None => mret (EPDK_FAIL, c)
    | Some _ => mret (EPDK_OK, Cursor nxt 0)
    end
  else c ← step_entry c; mret (EPDK_OK, c).

(** [__ScanMoveCurosrToPrev]; [ScanMoveToPrev] is the same on the cursor of the scan. *)
Definition ScanMoveCurosrToPrev (c : cursor) : M (Z * cursor) :=
  if Offset c =? 0 then
    prv ← cur_prev c;
    match prv with
    | None => mret (EPDK_FAIL, c)
    | Some i => l ← cur_list (Cursor (Some i) 0); mret (EPDK_OK, Cursor (Some i) (FList.Top l))
    end
  else
    l ← cur_list c;
    if FList.Size l =? Offset c then mret (EPDK_OK, Cursor (CurList c) (FList.Top l)) else
    p ← entry_member c 4; mret (EPDK_OK, Cursor (CurList c) p).

Definition ScanMoveToPrev : M Z :=
  c ← get ScanCursor; '(r, c) ← ScanMoveCurosrToPrev c; put (with_cursor c);; mret r.

Definition ScanIsDone : M bool :=
  h ← get hStack; d ← get pCurDir; c ← get ScanCursor; lists ← get Lists;
  if ScanStackEmpty h && (match d with None => true | Some _ => false end) then
    i ← lift (CurList c);
    if (i =? LastList lists)%nat then l ← cur_list c; mret (Offset c =? FList.Size l) else mret false
  else mret false.

(** [__ScanGetCurrentCursorData]: the format and the path, [None] for [NULL]. *)
Definition ScanGetCurrentCursorData (c : cursor) : M (option (Z * list Z) * cursor) :=
  l ← cur_list c;
  r ← (if Offset c =? FList.Size l then
         nxt ← cur_next c;
         match nxt with None => mret None | Some _ => mret (Some (Cursor nxt 0)) end
       else mret (Some c));
  match r with
  | None => mret (None, c)
  | Some c =>
      l ← cur_list c;
      lo ← lift (get32 (FList.Data l) (Offset c + 8));
      hi ← lift (get32 (FList.Data l) (Offset c + 12));
      name ← lift (get_str (FList.Data l) (Offset c + NAME_OFFSET));
      mret (Some (lo + 2 ^ 32 * hi, name), c)
  end.

(** [ScanGetCurrent] is the same on the cursor of the scan. *)
Definition ScanGetCurrent : M (option (Z * list Z)) :=
  c ← get ScanCursor; '(r, c) ← ScanGetCurrentCursorData c; put (with_cursor c);; mret r.

Definition ScanGetCurCnt : M Z := get CurCnt.

(** ** Begin *)

Definition SetupScanProcess (fuel : nat) : M Z :=
  p ← get CurPath;
  stack_push p;;
  once ← get OnceCnt;
  if once =? 0 then Count ← ScanAllFiles_loop fuel 0; put (with_cnt Count);; mret EPDK_OK
  else ScanFilesOneTime fuel;; mret EPDK_OK.

(** The handle, and the number of allocations made. *)
Definition ScanFilesBegin (fuel : nat) (pDir : list Z) (FileTypes OnceCnt_ : Z) (n : nat) : option (option ScanInfo_t * nat) :=
  if negb (mem_ok n) then Some (None, S n) else
  if negb (mem_ok (S n)) then Some (None, S (S n)) else
  match ScanStackAlloc mem_ok junk (S (S n)) with
  | (None, n) => Some (None, n)
  | (Some h, n) =>
      let s := ScanInfo [new_list] first_cursor (Cursor None 0) FileTypes OnceCnt_ 0 h None [] n in
      match (copy_CurPath pDir;; SetupScanProcess fuel) s with
      | None => None
      | Some (r, s) => if r =? EPDK_OK then Some (Some s, allocs s) else Some (None, allocs s)
      end
  end.

(** ** The moves of [rat.c] *)

(** The loop of [rat_move_cursor_forward]. *)
Fixpoint forward_loop (fuel turns : nat) (i : Z) : M Z :=
  match turns with
  | O => mret i
  | S turns =>
      done ← ScanIsDone;
      if (done : bool) then mret i else
      ret ← ScanMoveToNext fuel;
      if ret =? EPDK_FAIL then mret i else forward_loop fuel turns (i + 1)
  end.

(** The loop of [rat_move_cursor_backward]. *)
Fixpoint backward_loop (turns : nat) (i : Z) : M Z :=
  match turns with
  | O => mret i
  | S turns => ret ← ScanMoveToPrev; if ret =? EPDK_FAIL then mret i else backward_loop turns (i + 1)
  end.

End Scan.
