(* ===== verification/ScanList.v ===== *)
(** * ScanList: the chain of packed lists is a list of files

    [block_ok]: a 4096-byte list holds given entries; [chain_ok]: the chain does; [at_]: a
    cursor is at a place of the list of all entries.  The insertion appends to that list and
    leaves cursors where they are; the cursor functions move by one. *)
From S2P Require Import Prelude CString Block ScanStack Scan.

(** An entry: format and path. *)
Abbreviation entry := (Z * list Z)%type.

Definition entry_ok (e : entry) : Prop :=
  0 <= e.1 < 2 ^ 32 /\ cstr_ok e.2 /\ Z.of_nat (length e.2) < SCAN_MAX_PATH + 256.

(** The offset of the entry at a place. *)
Definition off (es : list entry) (k : nat) : Z := foldr (fun e n => entry_len e.2 + n) 0 (take k es).

Record entry_at (d : list Z) (es : list entry) (k : nat) (e : entry) : Prop := EntryAt {
  entry_ok_at : entry_ok e;
  RecLen_at : get32 d (off es k) = Some (entry_len e.2);
  Prev_at : get32 d (off es k + 4) = Some (off es (pred k));
  Format_at : get32 d (off es k + 8) = Some e.1;
  Format_hi_at : get32 d (off es k + 12) = Some 0;
  Name_at : get_str d (off es k + NAME_OFFSET) = Some e.2;
}.

Record block_ok (l : FList.t) (es : list entry) : Prop := BlockOk {
  block_Alloc : FList.Alloc l = FILELIST_LEN - DATA_OFFSET;
  block_len : Z.of_nat (length (FList.Data l)) = FILELIST_LEN - DATA_OFFSET;
  block_Size : FList.Size l = off es (length es);
  block_fits : FList.Size l <= FList.Alloc l;
  block_Top : FList.Top l = off es (pred (length es));
  block_entries : forall k e, es !! k = Some e -> entry_at (FList.Data l) es k e;
}.

(** Only a chain without entries has an empty list. *)
Definition chain_ok (ls : list FList.t) (ess : list (list entry)) : Prop :=
  Forall2 block_ok ls ess /\ (ess = [[]] \/ (ess <> [] /\ Forall (fun es => es <> []) ess)).

(** The cursor at place [g] of all entries; after the last entry of a list it stands for
    the first one of the next. *)
Definition at_ (ess : list (list entry)) (c : cursor) (g : nat) : Prop :=
  exists i es k, CurList c = Some i /\ ess !! i = Some es /\ Offset c = off es k /\ (k <= length es)%nat /\
    g = (length (concat (take i ess)) + k)%nat.

(** At an entry, and not after the end of a list. *)
Definition on (ess : list (list entry)) (c : cursor) (g : nat) : Prop :=
  exists i es k, CurList c = Some i /\ ess !! i = Some es /\ Offset c = off es k /\ (k < length es)%nat /\
    g = (length (concat (take i ess)) + k)%nat.

(** ** Offsets *)

Lemma entry_len_bounds p : Z.of_nat (length p) < SCAN_MAX_PATH + 256 ->
  NAME_OFFSET + Z.of_nat (length p) + 1 <= entry_len p <= 1048.
Proof.
  unfold entry_len, NAME_OFFSET, SCAN_MAX_PATH. intros.
  pose proof (align8_bounds (16 + Z.of_nat (length p) + 1)). split; [lia |].
  rewrite align8_eq by lia. pose proof (Z.mod_pos_bound (16 + Z.of_nat (length p) + 1 + 7) 8).
  pose proof (Z.div_mod (16 + Z.of_nat (length p) + 1 + 7) 8). lia.
Qed.

Lemma off_0 es : off es 0 = 0.
Proof. reflexivity. Qed.

Lemma off_app_le es es' k : (k <= length es)%nat -> off (es ++ es') k = off es k.
Proof. intros. unfold off. now rewrite take_app_le. Qed.

Lemma off_S es k e : es !! k = Some e -> off es (S k) = off es k + entry_len e.2.
Proof.
  intros H. unfold off. rewrite (take_S_r _ _ _ H), foldr_app. cbn [foldr].
  generalize (take k es). intros l. induction l as [| x l IH]; cbn [foldr]; lia.
Qed.

Lemma off_lt es k k' : Forall entry_ok es -> (k < k')%nat -> (k' <= length es)%nat -> off es k + 17 <= off es k'.
Proof.
  intros Hes. induction k' as [| k' IH]; intros Hk Hl; [lia |].
  destruct (lookup_lt_is_Some_2 es k' ltac:(lia)) as [e He].
  pose proof (Forall_lookup_1 _ _ _ _ Hes He) as (_ & _ & Hlen). pose proof (entry_len_bounds _ Hlen).
  unfold NAME_OFFSET in *. rewrite (off_S _ _ _ He).
  destruct (decide (k = k')) as [-> |]; [lia |]. specialize (IH ltac:(lia) ltac:(lia)). lia.
Qed.

Lemma off_nonneg es k : Forall entry_ok es -> (k <= length es)%nat -> 0 <= off es k.
Proof. intros Hes Hk. destruct k as [| k]; [reflexivity |]. pose proof (off_lt es 0 (S k) Hes ltac:(lia) Hk). rewrite off_0 in *. lia. Qed.

Lemma off_inj es k k' : Forall entry_ok es -> (k <= length es)%nat -> (k' <= length es)%nat -> off es k = off es k' -> k = k'.
Proof.
  intros Hes Hk Hk' E. destruct (Nat.lt_trichotomy k k') as [H | [H | H]]; [| exact H |];
    [pose proof (off_lt es k k' Hes H Hk') | pose proof (off_lt es k' k Hes H Hk)]; lia.
Qed.

Lemma block_entry_ok l es : block_ok l es -> Forall entry_ok es.
Proof. intros H. apply Forall_lookup_2. intros k e He. exact (entry_ok_at _ _ _ _ (block_entries _ _ H k e He)). Qed.

(** ** The insertion *)

Section Insert.

Context (mem_ok : nat -> bool) (junk : nat -> Z).

Lemma new_list_ok : block_ok (new_list junk) [].
Proof.
  constructor; cbn [new_list FList.Alloc FList.Data FList.Size FList.Top length]; try reflexivity.
  - discriminate.
  - intros k e He. rewrite lookup_nil in He. discriminate.
Qed.

Lemma entry_at_frame d d' es es' n k e : take n d' = take n d -> (k <= length es)%nat ->
  off es k + entry_len e.2 <= Z.of_nat n -> entry_at d es k e -> entry_at d' (es ++ es') k e.
Proof.
  intros Ht Hk Hn [Hok H1 H2 H3 H4 H5]. pose proof Hok as (_ & _ & Hlen). pose proof (entry_len_bounds _ Hlen) as Hb.
  unfold NAME_OFFSET in *.
  split; rewrite ?(off_app_le es es') by lia; [done | eapply get32_frame; eauto; lia .. |].
  eapply get_str_frame; eauto; unfold NAME_OFFSET in *; lia.
Qed.
(** Writing the four members of an entry. *)
Lemma write_entry d size top e : entry_ok e -> 0 <= size -> 0 <= top < 2 ^ 32 ->
  size + NAME_OFFSET + Z.of_nat (length e.2) + 1 <= Z.of_nat (length d) ->
  exists d1 d2 d3 d4,
    store d size (le_split 4 (entry_len e.2)) = Some d1 /\ store d1 (size + 4) (le_split 4 top) = Some d2 /\
    store d2 (size + 8) (le_split 8 e.1) = Some d3 /\ store d3 (size + NAME_OFFSET) (e.2 ++ [0]) = Some d4 /\
    length d4 = length d /\ take (Z.to_nat size) d4 = take (Z.to_nat size) d /\
    get32 d4 size = Some (entry_len e.2) /\ get32 d4 (size + 4) = Some top /\ get32 d4 (size + 8) = Some e.1 /\
    get32 d4 (size + 12) = Some 0 /\ get_str d4 (size + NAME_OFFSET) = Some e.2.
Proof.
  intros (Hf & Hcs & Hlen) Hs Ht Hroom. pose proof (entry_len_bounds _ Hlen) as Hel. unfold NAME_OFFSET in *.
  edestruct (store d size) as [d1 |] eqn:E1; [| rewrite store_ok in E1 by (rewrite ?length_le_split; lia); discriminate].
  pose proof (store_inv _ _ _ _ E1) as (_ & _ & _ & L1).
  destruct (store d1 (size + 4) (le_split 4 top)) as [d2 |] eqn:E2; [| rewrite store_ok in E2 by (rewrite ?length_le_split; lia); discriminate].
  pose proof (store_inv _ _ _ _ E2) as (_ & _ & _ & L2).
  destruct (store d2 (size + 8) (le_split 8 e.1)) as [d3 |] eqn:E3; [| rewrite store_ok in E3 by (rewrite ?length_le_split; lia); discriminate].
  pose proof (store_inv _ _ _ _ E3) as (_ & _ & _ & L3).
  destruct (store d3 (size + 16) (e.2 ++ [0])) as [d4 |] eqn:E4; [| rewrite store_ok in E4 by (rewrite ?length_app; simpl; lia); discriminate].
  pose proof (store_inv _ _ _ _ E4) as (_ & _ & _ & L4).
  pose proof (fun n => store_take _ _ _ _ n E4) as T4. pose proof (fun n => store_take _ _ _ _ n E3) as T3.
  pose proof (fun n => store_take _ _ _ _ n E2) as T2. pose proof (fun n => store_take _ _ _ _ n E1) as T1.
  exists d1, d2, d3, d4. split_and!; try done; [lia | now rewrite T4, T3, T2, T1 by lia | | | | |].
  - apply (get32_frame d1 _ (Z.to_nat (size + 4))); [now rewrite T4, T3, T2 by lia | lia |].
    rewrite (get32_store _ _ _ _ E1), u32_id by lia. reflexivity.
  - apply (get32_frame d2 _ (Z.to_nat (size + 8))); [now rewrite T4, T3 by lia | lia |].
    rewrite (get32_store _ _ _ _ E2), u32_id by lia. reflexivity.
  - apply (get32_frame d3 _ (Z.to_nat (size + 16))); [now rewrite T4 by lia | lia |].
    change 8%nat with (4 + 4)%nat in E3. rewrite le_split_add in E3.
    pose proof (get32_store_part _ _ [] _ _ _ E3) as F. rewrite u32_id, Z.add_0_r in F by lia. exact F.
  - apply (get32_frame d3 _ (Z.to_nat (size + 16))); [now rewrite T4 by lia | lia |].
    change 8%nat with (4 + 4)%nat in E3. rewrite le_split_add in E3.
    pose proof (get32_store_part d2 (size + 8) (le_split 4 e.1) (e.1 / 256 ^ Z.of_nat 4) [] d3) as F.
    rewrite app_nil_r, length_le_split in F. specialize (F E3). rewrite Z.div_small in F by (simpl; lia).
    change (u32 0) with 0 in F. rewrite <- F. f_equal. lia.
  - exact (get_str_store _ _ _ _ Hcs E4).
Qed.

Lemma off_end es e : off (es ++ [e]) (length (es ++ [e])) = off es (length es) + entry_len e.2.
Proof.
  rewrite length_app, Nat.add_1_r, (off_S _ (length es) e) by (now apply list_lookup_middle).
  now rewrite off_app_le by lia.
Qed.

Lemma off_next_le es k e : Forall entry_ok es -> es !! k = Some e -> off es k + entry_len e.2 <= off es (length es).
Proof.
  intros Hes Hk. pose proof (lookup_lt_Some _ _ _ Hk). rewrite <- (off_S _ _ _ Hk).
  destruct (decide (S k = length es)) as [-> |]; [lia |]. pose proof (off_lt es (S k) (length es) Hes ltac:(lia) ltac:(lia)). lia.
Qed.

Lemma block_top_le l es : block_ok l es -> 0 <= FList.Top l <= FList.Size l.
Proof.
  intros Hb. pose proof (block_entry_ok _ _ Hb) as Hes. destruct Hb as [_ _ HS _ HT _]. rewrite HT, HS.
  split; [apply off_nonneg; [exact Hes | lia] |]. destruct es as [| x es]; [easy |].
  pose proof (off_lt (x :: es) (pred (length (x :: es))) (length (x :: es)) Hes ltac:(simpl; lia) ltac:(lia)). lia.
Qed.

Lemma store_entry_ok l es e : block_ok l es -> entry_ok e -> FList.Size l + entry_len e.2 <= FList.Alloc l ->
  exists l', store_entry l e.2 e.1 = Some l' /\ block_ok l' (es ++ [e]).
Proof.
  intros Hb Hok Hroom. pose proof Hok as (Hf & Hcs & Hlen). pose proof (entry_len_bounds _ Hlen) as Hel.
  pose proof (block_entry_ok _ _ Hb) as Hes. pose proof (block_top_le _ _ Hb) as Htop.
  destruct Hb as [HA Hd HS Hfit HT Hent]. unfold NAME_OFFSET, FILELIST_LEN, DATA_OFFSET in *.
  destruct (write_entry (FList.Data l) (FList.Size l) (FList.Top l) e Hok) as
    (d1 & d2 & d3 & d4 & E1 & E2 & E3 & E4 & L & Hfr & F1 & F2 & F3 & F4 & F5); [lia | lia | unfold NAME_OFFSET; lia |].
  unfold store_entry. rewrite E1. cbn [mbind option_bind]. rewrite E2. cbn [mbind option_bind]. rewrite E3.
  cbn [mbind option_bind]. rewrite E4. cbn [mbind option_bind].
  eexists. split; [reflexivity |].
  constructor; cbn [FList.Alloc FList.Size FList.Top FList.Data]; unfold FILELIST_LEN, DATA_OFFSET.
  - exact HA.
  - lia.
  - rewrite off_end, <- HS. apply u32_id. lia.
  - rewrite u32_id; lia.
  - rewrite length_app, Nat.add_1_r. cbn [pred]. now rewrite off_app_le by lia.
  - intros k x Hk. apply lookup_app_Some in Hk as [Hk | [Hk1 Hk2]].
    + pose proof (lookup_lt_Some _ _ _ Hk) as Hkl. pose proof (off_next_le _ _ _ Hes Hk).
      apply (entry_at_frame (FList.Data l) _ _ _ (Z.to_nat (FList.Size l))); [exact Hfr | lia | lia | now apply Hent].
    + apply list_lookup_singleton_Some in Hk2 as [Hk2 <-]. assert (k = length es) as -> by lia.
      split; rewrite ?(off_app_le es [e]) by lia; rewrite <- ?HS, <- ?HT; assumption.
Qed.
(** Lists that grow at the end. *)
Definition ext (ess ess' : list (list entry)) : Prop :=
  forall i es, ess !! i = Some es -> exists t, ess' !! i = Some (es ++ t) /\ ((S i < length ess)%nat -> t = []).

Lemma ext_refl ess : ext ess ess.
Proof. intros i es H. exists []. now rewrite app_nil_r. Qed.

Lemma ext_length ess ess' : ext ess ess' -> (length ess <= length ess')%nat.
Proof.
  intros H. destruct (length ess) as [| n] eqn:E; [lia |].
  destruct (lookup_lt_is_Some_2 ess n ltac:(lia)) as [es He]. destruct (H n es He) as (t & Ht & _).
  apply lookup_lt_Some in Ht. lia.
Qed.

Lemma ext_trans ess1 ess2 ess3 : ext ess1 ess2 -> ext ess2 ess3 -> ext ess1 ess3.
Proof.
  intros H1 H2 i es He. pose proof (ext_length _ _ H1). destruct (H1 i es He) as (t & Ht & Hl). destruct (H2 i _ Ht) as (t' & Ht' & Hl').
  exists (t ++ t'). rewrite app_assoc. split; [exact Ht' |]. intros Hi. rewrite Hl, Hl' by lia. reflexivity.
Qed.

Lemma ext_take ess ess' i : ext ess ess' -> (i < length ess)%nat -> take i ess' = take i ess.
Proof.
  intros H Hi. pose proof (ext_length _ _ H). apply list_eq. intros j. destruct (decide (j < i)%nat).
  - rewrite !lookup_take_lt by lia. destruct (lookup_lt_is_Some_2 ess j ltac:(lia)) as [es He].
    destruct (H j es He) as (t & Ht & Hl). rewrite He, Ht, Hl by lia. now rewrite app_nil_r.
  - rewrite !lookup_take_ge by lia. reflexivity.
Qed.

Lemma at_ext ess ess' c g : ext ess ess' -> at_ ess c g -> at_ ess' c g.
Proof.
  intros H (i & es & k & Hc & He & Ho & Hk & ->). destruct (H i es He) as (t & Ht & _).
  exists i, (es ++ t), k. pose proof (lookup_lt_Some _ _ _ He).
  rewrite (ext_take ess ess') by assumption. rewrite off_app_le, length_app by lia. split_and!; [done | done | done | lia | done].
Qed.

Lemma on_ext ess ess' c g : ext ess ess' -> on ess c g -> on ess' c g.
Proof.
  intros H (i & es & k & Hc & He & Ho & Hk & ->). destruct (H i es He) as (t & Ht & _).
  exists i, (es ++ t), k. pose proof (lookup_lt_Some _ _ _ He).
  rewrite (ext_take ess ess') by assumption. rewrite off_app_le, length_app by lia. split_and!; [done | done | done | lia | done].
Qed.

Lemma on_at ess c g : on ess c g -> at_ ess c g.
Proof. intros (i & es & k & ? & ? & ? & ? & ?). exists i, es, k. split_and!; auto with lia. Qed.

Lemma chain_last ls ess : chain_ok ls ess -> exists l es, ls !! LastList ls = Some l /\ ess !! LastList ls = Some es /\
  block_ok l es /\ length ls = length ess /\ S (LastList ls) = length ess.
Proof.
  intros [H2 Hne]. pose proof (Forall2_length H2) as Hl. unfold LastList.
  assert (length ess <> 0%nat) by (destruct Hne as [-> | [Hne _]]; [easy | now destruct ess]).
  destruct (lookup_lt_is_Some_2 ls (pred (length ls)) ltac:(lia)) as [l El].
  destruct (Forall2_lookup_l _ _ _ _ _ H2 El) as (es & Ee & Hb). exists l, es. split_and!; auto with lia.
Qed.

(** Replacing the last list by a longer one. *)
Lemma chain_update ls ess es e l : chain_ok ls ess -> ess !! LastList ls = Some es -> block_ok l (es ++ [e]) ->
  chain_ok (<[LastList ls := l]> ls) (<[LastList ls := es ++ [e]]> ess) /\
  concat (<[LastList ls := es ++ [e]]> ess) = concat ess ++ [e] /\ ext ess (<[LastList ls := es ++ [e]]> ess).
Proof.
  intros Hc He Hb. pose proof (chain_last _ _ Hc) as (l0 & es0 & _ & _ & _ & Hlen & Hlast). destruct Hc as [H2 Hne].
  split_and!.
  - split; [now apply Forall2_insert |]. right. split; [intros E; apply (f_equal length) in E; rewrite length_insert in E; simpl in E; lia |].
    destruct Hne as [-> | [_ Hne]].
    + destruct (LastList ls); [| discriminate]. repeat constructor. intros E. now apply app_nil in E.
    + apply Forall_insert; [exact Hne |]. intros E. now apply app_nil in E.
  - rewrite <- (take_drop_middle ess _ _ He) at 2. rewrite insert_take_drop by (apply lookup_lt_Some in He; exact He).
    rewrite (drop_ge ess (S (LastList ls))) by lia. rewrite !concat_app. cbn [concat]. rewrite !app_nil_r. apply app_assoc.
  - intros i es' Hi. destruct (decide (i = LastList ls)) as [-> |].
    + exists [e]. rewrite list_lookup_insert_eq by (apply lookup_lt_Some in He; exact He). split; [congruence | lia].
    + exists []. rewrite list_lookup_insert_ne, app_nil_r by congruence. done.
Qed.

Lemma chain_new ls ess e l' : chain_ok ls ess -> concat ess <> [] -> block_ok l' [e] ->
  chain_ok (ls ++ [l']) (ess ++ [[e]]) /\ concat (ess ++ [[e]]) = concat ess ++ [e] /\ ext ess (ess ++ [[e]]).
Proof.
  intros [H2 Hne] Hcc Hb'. split_and!.
  - split; [apply Forall2_app; [exact H2 | constructor; [exact Hb' | constructor]] |]. right. split; [now destruct ess |].
    destruct Hne as [-> | [_ Hne]]; [easy |]. apply Forall_app. split; [exact Hne | now repeat constructor].
  - rewrite concat_app. reflexivity.
  - intros i es Hi. exists []. rewrite app_nil_r. split; [| done]. apply lookup_app_l_Some, Hi.
Qed.

Lemma insert_lookup_snoc {A} (l : list A) x y : <[length l := y]> (l ++ [x]) = l ++ [y].
Proof. rewrite insert_app_r_alt, Nat.sub_diag by lia. reflexivity. Qed.

(** The insertion appends to the list of all entries, or memory is exhausted and nothing
    changes. *)
Lemma insert_ok s ess e : chain_ok (Lists s) ess -> entry_ok e ->
  (exists ls n ess', InsertFileEntryToList mem_ok junk e.2 e.1 s = Some (EPDK_OK, with_allocs n (with_lists ls s)) /\
     chain_ok ls ess' /\ concat ess' = concat ess ++ [e] /\ ext ess ess') \/
  (mem_ok (allocs s) = false /\ InsertFileEntryToList mem_ok junk e.2 e.1 s = Some (EPDK_FAIL, with_allocs (S (allocs s)) s)).
Proof.
  intros Hc Hok. destruct (chain_last _ _ Hc) as (l & es & El & Ee & Hb & Hlen & Hlast).
  pose proof Hok as (_ & _ & Hl). pose proof (entry_len_bounds _ Hl) as Hel.
  pose proof (block_top_le _ _ Hb) as Ht. pose proof (block_fits _ _ Hb) as Hfit. pose proof (block_Alloc _ _ Hb) as HA.
  unfold InsertFileEntryToList, get, put, lift, mret, M_ret, mbind, M_bind. rewrite El.
  unfold FILELIST_LEN, DATA_OFFSET, NAME_OFFSET in *. rewrite u32_id by lia.
  destruct (Z.ltb_spec (FList.Alloc l - FList.Size l) (entry_len e.2)) as [Hfull | Hfree].
  - cbn [allocs with_allocs]. destruct (mem_ok (allocs s)) eqn:Em; [left | right; now split].
    destruct (store_entry_ok _ [] e new_list_ok Hok) as (l' & E' & Hb'); [cbn; unfold FILELIST_LEN, DATA_OFFSET; lia |].
    assert (concat ess <> []) as Hne.
    { intros E. apply List.concat_nil_Forall in E. pose proof (Forall_lookup_1 _ _ _ _ E Ee) as ->.
      pose proof (block_Size _ _ Hb) as HS. change (off [] (length [])) with 0 in HS. lia. }
    destruct (chain_new _ _ e l' Hc Hne Hb') as (Hc' & Hcc & Hext).
    exists (Lists s ++ [l']), (S (allocs s)), (ess ++ [[e]]). split_and!; try assumption.
    change (EPDK_OK =? EPDK_OK) with true. cbn [negb Lists with_lists with_allocs].
    assert (LastList (Lists s ++ [new_list junk]) = length (Lists s)) as -> by (unfold LastList; rewrite length_app; simpl; lia).
    rewrite list_lookup_middle by reflexivity. rewrite E', insert_lookup_snoc. reflexivity.
  - left. destruct (store_entry_ok l es e Hb Hok ltac:(lia)) as (l' & E' & Hb').
    destruct (chain_update _ _ _ _ _ Hc Ee Hb') as (Hc' & Hcc & Hext).
    exists (<[LastList (Lists s) := l']> (Lists s)), (allocs s), (<[LastList (Lists s) := es ++ [e]]> ess).
    split_and!; try assumption. change (EPDK_OK =? EPDK_OK) with true. cbn [negb]. rewrite ?El, E'. now destruct s.
Qed.

End Insert.

(** ** Steps of the monad *)

Lemma bind_some {A B} (m : M A) (k : A -> M B) s x s' : m s = Some (x, s') -> (m ≫= k) s = k x s'.
Proof. intros H. unfold mbind, M_bind. now rewrite H. Qed.

Lemma bind_bind {A B C} (m : M A) (f : A -> M B) (k : B -> M C) s : ((m ≫= f) ≫= k) s = (m ≫= (fun x => f x ≫= k)) s.
Proof. unfold mbind, M_bind. destruct (m s) as [[x s'] |]; reflexivity. Qed.

Lemma bind_ret {A B} (x : A) (k : A -> M B) s : (mret x ≫= k) s = k x s.
Proof. reflexivity. Qed.

Lemma bind_get {A B} (f : ScanInfo_t -> A) (k : A -> M B) s : (get f ≫= k) s = k (f s) s.
Proof. reflexivity. Qed.

Lemma bind_put {B} (f : ScanInfo_t -> ScanInfo_t) (k : unit -> M B) s : (put f ≫= k) s = k tt (f s).
Proof. reflexivity. Qed.

Lemma bind_lift {A B} (x : A) (k : A -> M B) s : (lift (Some x) ≫= k) s = k x s.
Proof. reflexivity. Qed.

(** Runs the steps whose results are immediate, and those given. *)
Ltac mstep := repeat first [rewrite bind_bind | rewrite bind_ret | rewrite bind_get | rewrite bind_put | rewrite bind_lift].
Tactic Notation "mrun" uconstr(H) := mstep; erewrite bind_some by (exact H || apply H); mstep.

(** ** Cursors *)

Lemma lookup_app_add {A} (l1 l2 : list A) k : (l1 ++ l2) !! (length l1 + k)%nat = l2 !! k.
Proof. rewrite lookup_app_r by lia. f_equal. lia. Qed.

Lemma concat_split {A} (ess : list (list A)) i es : ess !! i = Some es ->
  concat ess = concat (take i ess) ++ es ++ concat (drop (S i) ess).
Proof. intros H. rewrite <- (take_drop_middle ess i es H) at 1. now rewrite concat_app. Qed.

Lemma concat_lookup {A} (ess : list (list A)) i es k : ess !! i = Some es -> (k < length es)%nat ->
  concat ess !! (length (concat (take i ess)) + k)%nat = es !! k.
Proof. intros H Hk. rewrite (concat_split _ _ _ H), lookup_app_add, lookup_app_l by lia. reflexivity. Qed.

Lemma concat_take_S {A} (ess : list (list A)) i es : ess !! i = Some es ->
  length (concat (take (S i) ess)) = (length (concat (take i ess)) + length es)%nat.
Proof. intros H. rewrite (take_S_r _ _ _ H), concat_app, length_app. simpl. rewrite app_nil_r. reflexivity. Qed.

Lemma chain_nonempty ls ess i es : chain_ok ls ess -> ess !! i = Some es -> (0 < i \/ S i < length ess)%nat -> es <> [].
Proof.
  intros [_ [-> | [_ Hne]]] Hi Hpos; [| exact (Forall_lookup_1 _ _ _ _ Hne Hi)].
  destruct i; simpl in *; [lia | discriminate].
Qed.

Lemma on_lookup ess c g : on ess c g -> (g < length (concat ess))%nat.
Proof.
  intros (i & es & k & _ & He & _ & Hk & ->). rewrite (concat_split _ _ _ He), !length_app. lia.
Qed.

Lemma cur_list_ok s ess c i es : chain_ok (Lists s) ess -> CurList c = Some i -> ess !! i = Some es ->
  exists l, cur_list c s = Some (l, s) /\ block_ok l es /\ Lists s !! i = Some l.
Proof.
  intros [H2 _] Hc Hi. destruct (Forall2_lookup_r _ _ _ _ _ H2 Hi) as (l & Hl & Hb).
  exists l. split; [| done]. unfold cur_list, mbind, M_bind, get, lift. rewrite Hc, Hl. reflexivity.
Qed.

Lemma cur_next_ok s ess c i : chain_ok (Lists s) ess -> CurList c = Some i ->
  cur_next c s = Some (if (S i <? length ess)%nat then Some (S i) else None, s).
Proof.
  intros [H2 _] Hc. pose proof (Forall2_length H2) as Hl. unfold cur_next, mbind, M_bind, get, lift, mret, M_ret, Next. rewrite Hc, Hl. reflexivity.
Qed.

Lemma first_on s ess : chain_ok (Lists s) ess -> at_ ess first_cursor 0.
Proof.
  intros Hc. destruct (chain_last _ _ Hc) as (l & es & _ & _ & _ & _ & Hl).
  destruct (lookup_lt_is_Some_2 ess 0 ltac:(lia)) as [es0 He]. exists 0%nat, es0, 0%nat. repeat split; [exact He | lia].
Qed.

(** An entry's members, read through a cursor. *)
Lemma member_ok s ess c i es k e : chain_ok (Lists s) ess -> CurList c = Some i -> ess !! i = Some es -> Offset c = off es k ->
  es !! k = Some e -> exists l, cur_list c s = Some (l, s) /\ entry_at (FList.Data l) es k e /\ block_ok l es.
Proof.
  intros Hc Hi He Ho Hk. destruct (cur_list_ok _ _ _ _ _ Hc Hi He) as (l & Hl & Hb & _). exists l.
  split_and!; [exact Hl | exact (block_entries _ _ Hb _ _ Hk) | exact Hb].
Qed.

Lemma step_entry_ok s ess c i es k : chain_ok (Lists s) ess -> CurList c = Some i -> ess !! i = Some es -> Offset c = off es k ->
  (k < length es)%nat -> step_entry c s = Some (Cursor (Some i) (off es (S k)), s).
Proof.
  intros Hc Hi He Ho Hk. destruct (lookup_lt_is_Some_2 es k Hk) as [e Hek].
  destruct (member_ok _ _ _ _ _ _ _ Hc Hi He Ho Hek) as (l & Hl & Hat & Hb).
  pose proof (block_entry_ok _ _ Hb) as Hes. pose proof (off_next_le _ _ _ Hes Hek) as Hle.
  pose proof (block_fits _ _ Hb). pose proof (block_Alloc _ _ Hb) as HA. pose proof (block_Size _ _ Hb) as HS.
  pose proof (off_nonneg es k Hes ltac:(lia)). destruct (entry_ok_at _ _ _ _ Hat) as (_ & _ & Hlen).
  pose proof (entry_len_bounds _ Hlen). unfold FILELIST_LEN, DATA_OFFSET, NAME_OFFSET in *.
  unfold step_entry, entry_member, mbind, M_bind, lift, mret, M_ret. rewrite Hl, Ho, Z.add_0_r, (RecLen_at _ _ _ _ Hat).
  rewrite (off_S _ _ _ Hek), u32_id, Hi by lia. reflexivity.
Qed.

Lemma read_entry_ok s ess c i es k e : chain_ok (Lists s) ess -> CurList c = Some i -> ess !! i = Some es -> Offset c = off es k ->
  es !! k = Some e ->
  (l ← cur_list c; lo ← lift (get32 (FList.Data l) (Offset c + 8)); hi ← lift (get32 (FList.Data l) (Offset c + 12));
   name ← lift (get_str (FList.Data l) (Offset c + NAME_OFFSET)); mret (Some (lo + 2 ^ 32 * hi, name), c)) s = Some ((Some e, c), s).
Proof.
  intros Hc Hi He Ho Hk. destruct (member_ok _ _ _ _ _ _ _ Hc Hi He Ho Hk) as (l & Hl & [_ _ _ Hf Hh Hn] & _).
  unfold mbind, M_bind, lift, mret, M_ret. rewrite Hl, Ho, Hf, Hh, Hn, Z.mul_0_r, Z.add_0_r. now destruct e.
Qed.

(** The entry under a cursor. *)
Lemma get_current_ok s ess c g : chain_ok (Lists s) ess -> at_ ess c g ->
  match concat ess !! g with
  | Some e => exists c', ScanGetCurrentCursorData c s = Some ((Some e, c'), s) /\ on ess c' g
  | None => ScanGetCurrentCursorData c s = Some ((None, c), s)
  end.
Proof.
  intros Hc (i & es & k & Hi & He & Ho & Hk & ->).
  destruct (cur_list_ok _ _ _ _ _ Hc Hi He) as (l & Hl & Hb & _). pose proof (block_entry_ok _ _ Hb) as Hes.
  pose proof (cur_next_ok _ _ c _ Hc Hi) as Hn. pose proof (block_Size _ _ Hb) as HS.
  unfold ScanGetCurrentCursorData. mrun Hl.
  destruct (decide (k = length es)) as [-> | Hne].
  - rewrite Ho, HS, Z.eqb_refl. mrun Hn.
    pose proof (lookup_lt_Some _ _ _ He) as Hil.
    destruct (Nat.ltb_spec (S i) (length ess)) as [Hnx | Hlast].
    + destruct (lookup_lt_is_Some_2 ess (S i) Hnx) as [es' He'].
      pose proof (chain_nonempty _ _ _ _ Hc He' ltac:(lia)). destruct es' as [| e es']; [easy |].
      assert (concat ess !! (length (concat (take i ess)) + length es)%nat = Some e) as ->.
      { rewrite <- (concat_take_S _ _ _ He). rewrite <- (Nat.add_0_r (length _)), (concat_lookup _ _ _ 0 He') by (simpl; lia). reflexivity. }
      exists (Cursor (Some (S i)) 0). split.
      * exact (read_entry_ok s ess (Cursor (Some (S i)) 0) (S i) (e :: es') 0 e Hc eq_refl He' eq_refl eq_refl).
      * exists (S i), (e :: es'), 0%nat. rewrite (concat_take_S _ _ _ He). repeat split; [exact He' | simpl; lia | lia].
    + rewrite (concat_split _ _ _ He), (drop_ge ess) by lia. rewrite lookup_app_add, lookup_ge_None_2 by (simpl; rewrite app_nil_r; lia).
      reflexivity.
  - rewrite concat_lookup with (es := es) by (assumption || lia).
    destruct (lookup_lt_is_Some_2 es k ltac:(lia)) as [e Hek]. rewrite Hek.
    destruct (Z.eqb_spec (Offset c) (FList.Size l)) as [E |].
    { rewrite Ho, HS in E. apply off_inj in E; [lia | exact Hes | lia | lia]. }
    exists c. split; [exact (read_entry_ok _ _ _ _ _ _ _ Hc Hi He Ho Hek) |].
    exists i, es, k. repeat split; auto with lia.
Qed.

(** One entry forward, within what has been read. *)
Lemma move_next_ok s ess c g : chain_ok (Lists s) ess -> on ess c g ->
  if (S g <? length (concat ess))%nat then exists c', ScanMoveCursorToNext c s = Some ((EPDK_OK, c'), s) /\ on ess c' (S g)
  else ScanMoveCursorToNext c s = Some ((EPDK_FAIL, c), s).
Proof.
  intros Hc (i & es & k & Hi & He & Ho & Hk & ->).
  destruct (cur_list_ok _ _ _ _ _ Hc Hi He) as (l & Hl & Hb & _). pose proof (block_entry_ok _ _ Hb) as Hes.
  pose proof (cur_next_ok _ _ c _ Hc Hi) as Hn. pose proof (lookup_lt_Some _ _ _ He) as Hil.
  pose proof (f_equal (@length _) (concat_split _ _ _ He)) as Hlen. rewrite !length_app in Hlen.
  unfold ScanMoveCursorToNext. mrun Hl.
  destruct (Z.eqb_spec (Offset c) (FList.Top l)) as [E | E]; rewrite Ho, (block_Top _ _ Hb) in E.
  - apply off_inj in E; [| exact Hes | lia | lia]. mrun Hn.
    destruct (Nat.ltb_spec (S i) (length ess)) as [Hnx | Hlast].
    + destruct (lookup_lt_is_Some_2 ess (S i) Hnx) as [es' He'].
      pose proof (chain_nonempty _ _ _ _ Hc He' ltac:(lia)). destruct es' as [| e es']; [easy |].
      pose proof (f_equal (@length _) (concat_split _ _ _ He')) as Hlen'. rewrite !length_app, (concat_take_S _ _ _ He) in Hlen'. cbn [length] in Hlen'.
      rewrite (proj2 (Nat.ltb_lt _ _)) by lia. eexists. split; [reflexivity |].
      exists (S i), (e :: es'), 0%nat. rewrite (concat_take_S _ _ _ He). repeat split; [exact He' | simpl; lia | lia].
    + rewrite (drop_ge ess) in Hlen by lia. cbn [concat length] in Hlen. rewrite (proj2 (Nat.ltb_ge _ _)) by lia. reflexivity.
  - assert (k <> pred (length es)) by congruence. rewrite (proj2 (Nat.ltb_lt _ _)) by lia.
    mrun (step_entry_ok _ _ _ _ _ _ Hc Hi He Ho Hk). eexists. split; [reflexivity |].
    exists i, es, (S k). repeat split; auto with lia.
Qed.

(** One entry backward. *)
Lemma move_prev_ok s ess c g : chain_ok (Lists s) ess -> at_ ess c g ->
  match g with
  | O => ScanMoveCurosrToPrev c s = Some ((EPDK_FAIL, c), s)
  | S g' => exists c', ScanMoveCurosrToPrev c s = Some ((EPDK_OK, c'), s) /\ on ess c' g'
  end.
Proof.
  intros Hc (i & es & k & Hi & He & Ho & Hk & ->).
  destruct (cur_list_ok _ _ _ _ _ Hc Hi He) as (l & Hl & Hb & _). pose proof (block_entry_ok _ _ Hb) as Hes.
  unfold ScanMoveCurosrToPrev.
  destruct k as [| k].
  - rewrite Ho. change (off es 0 =? 0) with true. cbv iota. unfold cur_prev, mbind, M_bind, lift, mret, M_ret. rewrite Hi.
    destruct i as [| i]; [reflexivity |]. cbn [Prev].
    destruct (lookup_lt_is_Some_2 ess i) as [es' He']; [apply lookup_lt_Some in He; lia |].
    pose proof (chain_nonempty _ _ _ _ Hc He' ltac:(apply lookup_lt_Some in He; lia)) as Hne.
    destruct (cur_list_ok s ess (Cursor (Some i) 0) i es' Hc eq_refl He') as (l' & Hl' & Hb' & _). rewrite Hl'.
    rewrite (concat_take_S _ _ _ He'). destruct es' as [| x es']; [easy |]. rewrite Nat.add_0_r. cbn [length]. rewrite Nat.add_succ_r.
    eexists. split; [reflexivity |]. exists i, (x :: es'), (length es'). rewrite (block_Top _ _ Hb'). repeat split; [exact He' | simpl; lia].
  - rewrite Nat.add_succ_r. pose proof (off_lt es 0 (S k) Hes ltac:(lia) ltac:(lia)) as Hpos. rewrite off_0 in Hpos.
    destruct (Z.eqb_spec (Offset c) 0); [lia |]. mrun Hl.
    destruct (Z.eqb_spec (FList.Size l) (Offset c)) as [E | E]; rewrite Ho, (block_Size _ _ Hb) in E.
    + apply off_inj in E; [| exact Hes | lia | lia]. eexists. split; [reflexivity |].
      exists i, es, k. rewrite (block_Top _ _ Hb), E. repeat split; auto with lia.
    + assert (length es <> S k) by congruence. destruct (lookup_lt_is_Some_2 es (S k) ltac:(lia)) as [e Hek].
      destruct (member_ok _ _ _ _ _ _ _ Hc Hi He Ho Hek) as (l' & Hl' & [_ _ Hp _ _ _] & _).
      unfold entry_member, mbind, M_bind, lift, mret, M_ret. rewrite Hl', Ho, Hp. cbn [pred]. eexists. split; [reflexivity |].
      exists i, es, k. repeat split; auto with lia.
Qed.
