(* ===== verification/ScanRun.v ===== *)
(** * ScanRun: what the scanner finds

    The reference: the files of a tree of directories, the files of a directory before its
    subdirectories, the last subdirectory first ([visit]).  The scan of everything finds
    exactly these, and so does the scan a few at a time while every directory opens; moving
    a cursor is moving an index over them.  [tree_ok] are the limits: names fit the path
    buffers and the tree is not deeper than a bound. *)
From Stdlib Require Import String.
From S2P Require Import Prelude CString Block ScanStack Scan ScanList.

#[local] Open Scope string_scope.
#[local] Open Scope list_scope.
#[local] Open Scope Z_scope.

Section Tree.

Variable fs : list Z -> option (list dirent).
Variable types : Z.

(** What an entry of the directory [p] adds: files, subdirectories. *)
Definition entry_files (p : list Z) (e : dirent) : list entry :=
  if d_type e =? FSYS_ATTR_DIRECTORY then [] else
  match ValidFileType (d_name e) types with Some f => [(f, p ++ lit "/" ++ d_name e)] | None => [] end.
Definition entry_subs (p : list Z) (e : dirent) : list (list Z) :=
  if (d_type e =? FSYS_ATTR_DIRECTORY) && negb (char_at (d_name e) 0 =? 46) then [p ++ lit "/" ++ d_name e] else [].
Definition dir_files (p : list Z) (l : list dirent) : list entry := concat (map (entry_files p) l).
Definition dir_subs (p : list Z) (l : list dirent) : list (list Z) := concat (map (entry_subs p) l).

Fixpoint visit (depth : nat) (p : list Z) : list entry :=
  match fs p with
  | None => []
  | Some l =>
      dir_files p l ++ match depth with O => [] | S depth => concat (map (visit depth) (rev (dir_subs p l))) end
  end.

Fixpoint ndirs (depth : nat) (p : list Z) : nat :=
  S match fs p with
    | None => O
    | Some l => match depth with O => O | S depth => list_sum (map (ndirs depth) (dir_subs p l)) end
    end.

Definition dirent_ok (p : list Z) (e : dirent) : Prop :=
  cstr_ok (d_name e) /\ Z.of_nat (List.length (p ++ lit "/" ++ d_name e)) < SCAN_MAX_PATH + 256.

Fixpoint tree_ok (depth : nat) (p : list Z) : Prop :=
  cstr_ok p /\ Z.of_nat (List.length p) < SCAN_MAX_PATH /\
  match fs p with
  | None => True
  | Some l =>
      Forall (dirent_ok p) l /\
      match depth with O => dir_subs p l = [] | S depth => Forall (tree_ok depth) (dir_subs p l) end
  end.

#[global] Instance dirent_ok_dec p e : Decision (dirent_ok p e).
Proof. unfold dirent_ok. apply _. Defined.
#[global] Instance tree_ok_dec depth p : Decision (tree_ok depth p).
Proof. revert p. induction depth as [| depth IH]; intros p; cbn [tree_ok]; destruct (fs p); apply _. Defined.

(** Every directory can be opened. *)
Fixpoint opens (depth : nat) (p : list Z) : bool :=
  match fs p with
  | None => false
  | Some l => match depth with O => true | S depth => forallb (opens depth) (dir_subs p l) end
  end.

(** The entries of a tree bound its files. *)
Fixpoint nentries (depth : nat) (p : list Z) : nat :=
  match fs p with
  | None => O
  | Some l => (length l + match depth with O => O | S depth => list_sum (map (nentries depth) (dir_subs p l)) end)%nat
  end.

Lemma visit_le depth p : (length (visit depth p) <= nentries depth p)%nat.
Proof.
  revert p. induction depth as [| depth IH]; intros p; cbn [visit nentries]; destruct (fs p) as [l |]; try (cbn; lia);
    rewrite length_app; (enough (length (dir_files p l) <= length l)%nat as Hl;
      [| unfold dir_files; induction l as [| e l IHl]; [cbn; lia |]; cbn [map concat]; rewrite length_app;
         enough (length (entry_files p e) <= 1)%nat by (cbn [length]; lia); unfold entry_files; repeat case_match; cbn; lia]); [cbn [length]; lia |].
  apply Nat.add_le_mono; [exact Hl |]. rewrite map_rev. generalize (dir_subs p l) as qs. induction qs as [| q qs IHq]; [cbn; lia |].
  cbn [map rev]. rewrite concat_app, length_app. cbn [concat]. rewrite app_nil_r. simpl list_sum. specialize (IH q). lia.
Qed.

(** ** The depth does not matter once it is enough *)

Lemma tree_ok_path depth p : tree_ok depth p -> cstr_ok p /\ Z.of_nat (List.length p) < SCAN_MAX_PATH.
Proof. destruct depth; cbn [tree_ok]; tauto. Qed.

Lemma tree_ok_S depth p : tree_ok depth p -> tree_ok (S depth) p.
Proof.
  revert p. induction depth as [| depth IH]; intros p (Hc & Hl & H).
  - cbn [tree_ok]. split_and!; [exact Hc | exact Hl |]. destruct (fs p) as [l |]; [| exact I].
    destruct H as [Hd Hs]. split; [exact Hd |]. rewrite Hs. constructor.
  - split_and!; [exact Hc | exact Hl |]. destruct (fs p) as [l |]; [| exact I].
    destruct H as [Hd Hs]. split; [exact Hd |]. revert Hs. apply List.Forall_impl. exact IH.
Qed.

Lemma tree_ok_subs depth p l : tree_ok depth p -> fs p = Some l -> Forall (dirent_ok p) l /\ Forall (tree_ok depth) (dir_subs p l).
Proof.
  destruct depth as [| depth]; cbn [tree_ok]; intros (_ & _ & H) E; rewrite E in H; destruct H as [Hd Hs]; split; auto.
  - rewrite Hs. constructor.
  - revert Hs. apply List.Forall_impl. intros q. apply tree_ok_S.
Qed.

Lemma visit_S depth p : tree_ok depth p -> visit (S depth) p = visit depth p.
Proof.
  revert p. induction depth as [| depth IH]; intros p H.
  - destruct H as (_ & _ & H). cbn [visit]. destruct (fs p) as [l |]; [| reflexivity]. destruct H as [_ ->]. reflexivity.
  - destruct H as (_ & _ & H). change (visit (S (S depth)) p) with
      (match fs p with None => [] | Some l => dir_files p l ++ concat (map (visit (S depth)) (rev (dir_subs p l))) end).
    cbn [visit]. destruct (fs p) as [l |]; [| reflexivity]. destruct H as [_ H]. do 2 f_equal.
    apply map_ext_in. intros q Hq. apply IH. rewrite <- in_rev in Hq. rewrite list.Forall_forall in H. apply H. now apply list_elem_of_In.
Qed.

Lemma ndirs_S depth p : tree_ok depth p -> ndirs (S depth) p = ndirs depth p.
Proof.
  revert p. induction depth as [| depth IH]; intros p H.
  - destruct H as (_ & _ & H). cbn [ndirs]. destruct (fs p) as [l |]; [| reflexivity]. destruct H as [_ ->]. reflexivity.
  - destruct H as (_ & _ & H). change (ndirs (S (S depth)) p) with
      (S match fs p with None => O | Some l => list_sum (map (ndirs (S depth)) (dir_subs p l)) end).
    cbn [ndirs]. destruct (fs p) as [l |]; [| reflexivity]. destruct H as [_ H]. do 2 f_equal.
    apply map_ext_in. intros q Hq. apply IH. rewrite list.Forall_forall in H. apply H. now apply list_elem_of_In.
Qed.

Lemma opens_S depth p : tree_ok depth p -> opens (S depth) p = opens depth p.
Proof.
  revert p. induction depth as [| depth IH]; intros p H.
  - destruct H as (_ & _ & H). cbn [opens]. destruct (fs p) as [l |]; [| reflexivity]. destruct H as [_ ->]. reflexivity.
  - destruct H as (_ & _ & H). change (opens (S (S depth)) p) with
      (match fs p with None => false | Some l => forallb (opens (S depth)) (dir_subs p l) end).
    change (opens (S depth) p) with (match fs p with None => false | Some l => forallb (opens depth) (dir_subs p l) end).
    destruct (fs p) as [l |]; [| reflexivity]. destruct H as [_ H].
    induction (dir_subs p l) as [| q qs IHq]; [reflexivity |]. apply Forall_cons_1 in H as [Hq Hqs].
    cbn [forallb]. now rewrite IH, IHq.
Qed.

(** The equations of a tree at a fixed depth. *)
Definition visits (depth : nat) (st : list (list Z)) : list entry := concat (map (visit depth) st).
Definition size (depth : nat) (st : list (list Z)) : nat := list_sum (map (ndirs depth) st).

Lemma visits_app depth st1 st2 : visits depth (st1 ++ st2) = visits depth st1 ++ visits depth st2.
Proof. unfold visits. now rewrite map_app, concat_app. Qed.

Lemma size_app depth st1 st2 : size depth (st1 ++ st2) = (size depth st1 + size depth st2)%nat.
Proof. unfold size. now rewrite map_app, list_sum_app. Qed.

Lemma size_rev depth st : size depth (rev st) = size depth st.
Proof. unfold size. rewrite map_rev. induction (map _ st) as [| x l IH]; [reflexivity |]. cbn [rev]. rewrite list_sum_app, IH. simpl. lia. Qed.

Lemma visit_open depth p l : tree_ok depth p -> fs p = Some l ->
  visit depth p = dir_files p l ++ visits depth (rev (dir_subs p l)).
Proof. intros H E. rewrite <- (visit_S depth p H). cbn [visit]. now rewrite E. Qed.

Lemma visit_closed depth p : fs p = None -> visit depth p = [].
Proof. intros E. destruct depth; cbn [visit]; now rewrite E. Qed.

Lemma ndirs_open depth p l : tree_ok depth p -> fs p = Some l -> ndirs depth p = S (size depth (dir_subs p l)).
Proof. intros H E. rewrite <- (ndirs_S depth p H). cbn [ndirs]. now rewrite E. Qed.

Lemma ndirs_pos depth p : (0 < ndirs depth p)%nat.
Proof. destruct depth; cbn [ndirs]; lia. Qed.

Lemma opens_open depth p : tree_ok depth p -> opens depth p = true ->
  exists l, fs p = Some l /\ Forall (fun q => opens depth q = true) (dir_subs p l).
Proof.
  intros H E. rewrite <- (opens_S depth p H) in E. cbn [opens] in E. destruct (fs p) as [l |]; [| discriminate].
  exists l. split; [reflexivity |]. apply List.Forall_forall. apply forallb_forall. exact E.
Qed.

End Tree.

(** ** One directory *)

Section Scanning.

Context (mem_ok : nat -> bool) (junk : nat -> Z) (fs : list Z -> option (list dirent)) (types : Z).
Context (Hmem : forall n, mem_ok n = true).

(** Chain and stack hold [ess] and [st]; [b] more paths can be pushed. *)
Record inv (s : ScanInfo_t) (ess : list (list entry)) (st : list (list Z)) (b : nat) : Prop := Inv {
  inv_chain : chain_ok (Lists s) ess;
  inv_stack : repr (hStack s) st;
  inv_room : ScanStack.Alloc (hStack s) + STACK_GROWN_LEN * Z.of_nat b < 2 ^ 32;
  inv_types : ScanTypes s = types;
}.

(** What a scan leaves alone. *)
Definition same (s s' : ScanInfo_t) : Prop :=
  ScanCursor s' = ScanCursor s /\ TmpCursor s' = TmpCursor s /\ OnceCnt s' = OnceCnt s.

Lemma same_refl s : same s s.
Proof. done. Qed.
Lemma same_trans s1 s2 s3 : same s1 s2 -> same s2 s3 -> same s1 s3.
Proof. unfold same. intuition congruence. Qed.

Lemma ValidFileType_range name f : ValidFileType name types = Some f -> 0 <= f < 2 ^ 32.
Proof.
  assert (forall suffix r, valid_loop ValidFmtTbl suffix types = Some (Some r) -> 0 <= r < 2 ^ 32) as H.
  { assert (Forall (fun x => 0 <= FmtFormat x < 2 ^ 32) ValidFmtTbl) as Ht by (unfold ValidFmtTbl; repeat constructor; vm_compute; congruence).
    revert Ht. generalize ValidFmtTbl as t. induction t as [| x t IH]; intros Ht suffix r; [discriminate |].
    apply Forall_cons_1 in Ht as [Hx Ht]. cbn [valid_loop]. destruct (_ =? 0); [| now apply IH].
    destruct (_ || _); [intros [= <-]; exact Hx | discriminate]. }
  unfold ValidFileType. destruct (SLIB_strchrlast name 46) as [i |]; [| discriminate].
  destruct (valid_loop _ _ _) as [r |] eqn:E; [intros ->; exact (H _ _ E) |].
  destruct (types =? 0); [intros [= <-]; unfold RAT_MEDIA_TYPE_UNKNOWN; lia | discriminate].
Qed.

Lemma path_cstr p name : cstr_ok p -> cstr_ok name -> cstr_ok (p ++ lit "/" ++ name).
Proof. intros. apply Forall_app. split; [assumption |]. apply Forall_app. split; [by_compute | assumption]. Qed.

Lemma build_ok s p e : CurPath s = p -> dirent_ok p e -> build_tempPath (d_name e) s = Some (p ++ lit "/" ++ d_name e, s).
Proof.
  intros <- [_ H]. unfold build_tempPath. rewrite bind_get. cbv zeta. rewrite (proj2 (Z.ltb_lt _ _)) by exact H. reflexivity.
Qed.

Lemma stack_push_ok s ess st b q : inv s ess st (S b) -> cstr_ok q -> Z.of_nat (List.length q) < SCAN_MAX_PATH + 256 ->
  exists s', stack_push mem_ok junk q s = Some (EPDK_OK, s') /\ inv s' ess (q :: st) b /\ same s s' /\
    CurPath s' = CurPath s /\ CurCnt s' = CurCnt s /\ pCurDir s' = pCurDir s.
Proof.
  intros [Hc Hr Hb Ht] Hq Hl. unfold SCAN_MAX_PATH, STACK_GROWN_LEN in *.
  destruct (push_small mem_ok junk (hStack s) st q (allocs s) Hr Hq) as [(h & n & E & Hr' & Ha) | [H _]];
    [lia | unfold STACK_GROWN_LEN; lia | | now rewrite Hmem in H].
  unfold stack_push. mstep. rewrite E. mstep.
  eexists. split; [reflexivity |]. unfold STACK_GROWN_LEN in *.
  split; [split; cbn; [exact Hc | exact Hr' | unfold STACK_GROWN_LEN; lia | exact Ht] | done].
Qed.

(** One entry of a directory. *)
Lemma scan_entry_ok s ess st b p e : inv s ess st (length (entry_subs p e) + b) -> CurPath s = p -> cstr_ok p -> dirent_ok p e ->
  exists s' ess' r, scan_entry mem_ok junk e s = Some (r, s') /\ inv s' ess' (entry_subs p e ++ st) b /\
    concat ess' = concat ess ++ entry_files types p e /\ ext ess ess' /\ same s s' /\ CurPath s' = p /\
    CurCnt s' = CurCnt s /\ pCurDir s' = pCurDir s /\
    match r with inl _ => entry_files types p e = [] | inr (ok, k) => ok = true /\ k = Z.of_nat (length (entry_files types p e)) end.
Proof.
  intros Hi Hp Hcp Hd. pose proof Hd as [Hn Hlen]. unfold scan_entry, entry_subs, entry_files in *.
  destruct (d_type e =? FSYS_ATTR_DIRECTORY).
  - destruct (char_at (d_name e) 0 =? 46); cbn [andb negb] in *.
    + exists s, ess, (inl tt). rewrite app_nil_r. split_and!; try done. apply ext_refl.
    + mrun (build_ok _ _ _ Hp Hd). cbn [length] in Hi. destruct (stack_push_ok _ _ _ _ _ Hi (path_cstr p _ Hcp Hn) Hlen) as (s' & E & Hi' & Hs & Hp' & Hc' & Hd').
      mrun E. exists s', ess, (inr (true, 0)). rewrite app_nil_r. split_and!; try done; [apply ext_refl | congruence].
  - mstep. rewrite (inv_types _ _ _ _ Hi). cbn [andb length] in *. destruct (ValidFileType (d_name e) types) as [f |] eqn:Ef.
    + mrun (build_ok _ _ _ Hp Hd). set (q := p ++ lit "/" ++ d_name e) in *.
      assert (entry_ok (f, q)) as Hok by (split_and!; [exact (proj1 (ValidFileType_range _ _ Ef)) | exact (proj2 (ValidFileType_range _ _ Ef)) | now apply path_cstr | exact Hlen]).
      destruct (insert_ok mem_ok junk s ess (f, q) (inv_chain _ _ _ _ Hi) Hok) as [(ls & n & ess' & E & Hc & Hcc & Hx) | [H _]]; [| now rewrite Hmem in H].
      cbn [fst snd] in E. mrun E. change (negb (EPDK_OK =? EPDK_OK)) with false. cbv iota.
      eexists _, ess', (inr (true, 1)). split; [reflexivity |]. destruct Hi as [_ Hr Hb Ht].
      split; [split; cbn; [exact Hc | exact Hr | exact Hb | exact Ht] |]. split_and!; try done.
    + exists s, ess, (inr (true, 0)). rewrite app_nil_r. split_and!; try done. apply ext_refl.
Qed.

Lemma dir_files_cons p e l : dir_files types p (e :: l) = entry_files types p e ++ dir_files types p l.
Proof. reflexivity. Qed.
Lemma dir_subs_cons p e l : dir_subs p (e :: l) = entry_subs p e ++ dir_subs p l.
Proof. reflexivity. Qed.
Lemma entry_subs_rev p e : rev (entry_subs p e) = entry_subs p e.
Proof. unfold entry_subs. now destruct (_ && _). Qed.

Lemma inv_dir s ess st b d : inv s ess st b -> inv (with_dir d s) ess st b.
Proof. intros [? ? ? ?]. now split. Qed.

(** The rest of a directory. *)
Lemma scan_dir_ok p l s ess st b Count : inv s ess st (length (dir_subs p l) + b) -> CurPath s = p -> cstr_ok p -> Forall (dirent_ok p) l ->
  exists s' ess', scan_dir mem_ok junk l Count s = Some ((true, Count + Z.of_nat (length (dir_files types p l))), s') /\
    inv s' ess' (rev (dir_subs p l) ++ st) b /\ concat ess' = concat ess ++ dir_files types p l /\ ext ess ess' /\ same s s' /\ CurCnt s' = CurCnt s.
Proof.
  intros Hi Hp Hcp Hd. revert s ess st Count Hi Hp. induction l as [| e l IH]; intros s ess st Count Hi Hp.
  - exists s, ess. rewrite app_nil_r, Z.add_0_r. split_and!; try done. apply ext_refl.
  - apply Forall_cons_1 in Hd as [He Hd]. specialize (IH Hd). rewrite dir_subs_cons, length_app, <- Nat.add_assoc in Hi. cbn [scan_dir]. mstep.
    destruct (scan_entry_ok _ _ _ _ _ _ (inv_dir _ _ _ _ (Some l) Hi) Hp Hcp He) as (s1 & ess1 & r & E & Hi1 & Hcc1 & Hx1 & Hs1 & Hp1 & Hc1 & _ & Hr).
    mrun E. assert (exists k, (match r with inl _ => scan_dir mem_ok junk l Count | inr (ok, k) => if (ok : bool) then scan_dir mem_ok junk l (Count + k) else (close_dir;; mret (false, Count)) end) s1
      = scan_dir mem_ok junk l (Count + k) s1 /\ k = Z.of_nat (length (entry_files types p e))) as (k & -> & ->).
    { destruct r as [u | [ok k]]; [exists 0; rewrite Z.add_0_r, Hr; done | destruct Hr as [-> ->]; eauto]. }
    destruct (IH s1 ess1 _ (Count + Z.of_nat (length (entry_files types p e))) Hi1 Hp1) as (s2 & ess2 & -> & Hi2 & Hcc2 & Hx2 & Hs2 & Hc2).
    exists s2, ess2. rewrite dir_files_cons, dir_subs_cons, length_app, rev_app_distr, <- app_assoc, entry_subs_rev.
    split_and!; [do 3 f_equal; lia | exact Hi2 | rewrite Hcc2, Hcc1; symmetry; apply app_assoc | exact (ext_trans _ _ _ Hx1 Hx2) | exact (same_trans _ _ _ Hs1 Hs2) | exact (eq_trans Hc2 Hc1)].
Qed.

(** ** All directories *)

Lemma pop_open_ok s ess p st b depth : inv s ess (p :: st) b -> tree_ok fs depth p ->
  exists s', pop_open fs s = Some (tt, s') /\ inv s' ess st b /\ CurPath s' = p /\ pCurDir s' = fs p /\ same s s' /\ CurCnt s' = CurCnt s.
Proof.
  intros [Hc Hr Hb Ht] Hok. destruct (tree_ok_path _ _ _ Hok) as [Hcp Hl]. destruct (pop_repr _ _ _ Hr) as (h & E & Hr' & Ha).
  unfold pop_open. mstep. rewrite E. mstep. unfold copy_CurPath. rewrite (proj2 (Z.ltb_lt _ _)) by exact Hl. mstep.
  eexists. split; [reflexivity |]. split; [| done]. split; cbn; [exact Hc | exact Hr' | rewrite Ha; exact Hb | exact Ht].
Qed.

Lemma stack_empty_ok s ess st b : inv s ess st b -> ScanStackEmpty (hStack s) = bool_decide (st = []).
Proof. intros Hi. exact (empty_repr _ _ (inv_stack _ _ _ _ Hi)). Qed.

Lemma inv_less s ess st b b' : (b' <= b)%nat -> inv s ess st b -> inv s ess st b'.
Proof. intros Hb [Hc Hr Hs Ht]. split; [exact Hc | exact Hr | unfold STACK_GROWN_LEN in *; lia | exact Ht]. Qed.

Lemma size_length depth st : (length st <= size fs depth st)%nat.
Proof.
  unfold size. induction st as [| q qs IH]; [simpl; lia |]. unfold list_sum in *. cbn [map length foldr].
  pose proof (ndirs_pos fs depth q). lia.
Qed.

(** The pushes that a stack of directories leads to. *)
Definition pushes (depth : nat) (st : list (list Z)) : nat := (size fs depth st - length st)%nat.

Lemma pushes_cons depth p st : pushes depth (p :: st) = (pred (ndirs fs depth p) + pushes depth st)%nat.
Proof.
  pose proof (ndirs_pos fs depth p). pose proof (size_length depth st).
  assert (size fs depth (p :: st) = ndirs fs depth p + size fs depth st)%nat as E by reflexivity.
  unfold pushes. rewrite E. cbn [length]. lia.
Qed.

Lemma pushes_subs depth p l st : tree_ok fs depth p -> fs p = Some l ->
  (length (dir_subs p l) + pushes depth (rev (dir_subs p l) ++ st) = pred (ndirs fs depth p) + pushes depth st)%nat.
Proof.
  intros Hp El. rewrite (ndirs_open _ _ _ _ Hp El). unfold pushes. rewrite size_app, size_rev, length_app, length_rev.
  pose proof (size_length depth (dir_subs p l)). pose proof (size_length depth st). lia.
Qed.

Lemma scan_all_ok depth fuel st s ess b Count : inv s ess st (pushes depth st + b) -> pCurDir s = None ->
  Forall (tree_ok fs depth) st -> (size fs depth st < fuel)%nat ->
  exists s' ess', ScanAllFiles_loop mem_ok junk fs fuel Count s = Some (Count + Z.of_nat (length (visits fs types depth st)), s') /\
    inv s' ess' [] b /\ concat ess' = concat ess ++ visits fs types depth st /\ ext ess ess' /\ same s s' /\ CurCnt s' = CurCnt s /\ pCurDir s' = None.
Proof.
  revert st s ess Count. induction fuel as [| fuel IH]; intros st s ess Count Hi Hdir Hok Hf; [lia |].
  cbn [ScanAllFiles_loop]. mstep. rewrite (stack_empty_ok _ _ _ _ Hi). destruct st as [| p st].
  { rewrite bool_decide_eq_true_2 by done. exists s, ess. unfold visits. cbn. rewrite app_nil_r, Z.add_0_r. split_and!; try done. apply ext_refl. }
  rewrite bool_decide_eq_false_2 by done. apply Forall_cons_1 in Hok as [Hp Hok].
  rewrite pushes_cons in Hi. change (size fs depth (p :: st)) with (ndirs fs depth p + size fs depth st)%nat in Hf. change (visits fs types depth (p :: st)) with (visit fs types depth p ++ visits fs types depth st).
  destruct (pop_open_ok _ _ _ _ _ _ Hi Hp) as (s1 & E & Hi1 & Hp1 & Hd1 & Hs1 & Hc1). mrun E. rewrite Hd1. destruct (fs p) as [l |] eqn:El.
  - destruct (tree_ok_subs _ _ _ _ Hp El) as [Hde Hsub]. pose proof (ndirs_open _ _ _ _ Hp El) as Hnd. rewrite (visit_open _ _ _ _ _ Hp El).
    pose proof (pushes_subs depth p l st Hp El) as Hsz. destruct (tree_ok_path _ _ _ Hp) as [Hcp _].
    destruct (scan_dir_ok p l s1 ess st (pushes depth (rev (dir_subs p l) ++ st) + b) Count) as (s2 & ess2 & E2 & Hi2 & Hcc2 & Hx2 & Hs2 & Hc2); [| done .. |].
    { refine (inv_less _ _ _ _ _ _ Hi1). lia. }
    mrun E2. cbn [negb]. unfold close_dir. mstep.
    destruct (IH (rev (dir_subs p l) ++ st) (with_dir None s2) ess2 (Count + Z.of_nat (length (dir_files types p l)))) as (s3 & ess3 & -> & Hi3 & Hcc3 & Hx3 & Hs3 & Hc3 & Hd3).
    + now apply inv_dir.
    + done.
    + apply Forall_app. split; [now apply Forall_rev | exact Hok].
    + rewrite size_app, size_rev. lia.
    + exists s3, ess3. rewrite visits_app in *. rewrite !length_app in *.
      split_and!; [do 2 f_equal; lia | exact Hi3 | now rewrite Hcc3, Hcc2, <- !app_assoc | exact (ext_trans _ _ _ Hx2 Hx3) | | | exact Hd3].
      * exact (same_trans _ _ _ (same_trans _ _ _ Hs1 Hs2) Hs3).
      * exact (eq_trans Hc3 (eq_trans Hc2 Hc1)).
  - rewrite (visit_closed _ _ _ _ El). pose proof (ndirs_pos fs depth p).
    destruct (IH st s1 ess Count) as (s3 & ess3 & -> & Hi3 & Hcc3 & Hx3 & Hs3 & Hc3 & Hd3); [refine (inv_less _ _ _ _ _ _ Hi1); lia | done | done | lia |].
    exists s3, ess3. split_and!; try done; [exact (same_trans _ _ _ Hs1 Hs3) | exact (eq_trans Hc3 Hc1)].
Qed.

(** ** A few files at a time *)

Lemma dir_files_app p l1 l2 : dir_files types p (l1 ++ l2) = dir_files types p l1 ++ dir_files types p l2.
Proof. unfold dir_files. now rewrite map_app, concat_app. Qed.
Lemma dir_subs_app p l1 l2 : dir_subs p (l1 ++ l2) = dir_subs p l1 ++ dir_subs p l2.
Proof. unfold dir_subs. now rewrite map_app, concat_app. Qed.

(** The rest of a directory, up to the file that makes the number full. *)
Lemma scan_dir_once_ok p l s ess st b Count : inv s ess st (length (dir_subs p l) + b) -> CurPath s = p -> cstr_ok p -> Forall (dirent_ok p) l ->
  Count < OnceCnt s ->
  exists s' ess' l1 l2 r, l = l1 ++ l2 /\ scan_dir_once mem_ok junk l Count s = Some ((r, Count + Z.of_nat (length (dir_files types p l1))), s') /\
    inv s' ess' (rev (dir_subs p l1) ++ st) (length (dir_subs p l2) + b) /\ concat ess' = concat ess ++ dir_files types p l1 /\
    ext ess ess' /\ same s s' /\ CurPath s' = p /\ CurCnt s' = CurCnt s /\
    if (r : bool) then l2 = [] /\ Count + Z.of_nat (length (dir_files types p l1)) < OnceCnt s
    else pCurDir s' = Some l2 /\ Count + Z.of_nat (length (dir_files types p l1)) = OnceCnt s.
Proof.
  intros Hi Hp Hcp Hd. revert s ess st Count Hi Hp. induction l as [| e l IH]; intros s ess st Count Hi Hp Hlt.
  - exists s, ess, [], [], true. rewrite Z.add_0_r. split_and!; try done; [now rewrite app_nil_r | apply ext_refl].
  - apply Forall_cons_1 in Hd as [He Hd]. specialize (IH Hd). rewrite dir_subs_cons, length_app, <- Nat.add_assoc in Hi. cbn [scan_dir_once]. mstep.
    destruct (scan_entry_ok _ _ _ _ _ _ (inv_dir _ _ _ _ (Some l) Hi) Hp Hcp He) as (s1 & ess1 & r & E & Hi1 & Hcc1 & Hx1 & Hs1 & Hp1 & Hc1 & Hd1 & Hr).
    mrun E. assert (OnceCnt s1 = OnceCnt s) as Ho by exact (proj2 (proj2 Hs1)). set (k := Z.of_nat (length (entry_files types p e))) in *.
    assert ((Count + k < OnceCnt s /\ (match r with inl _ => scan_dir_once mem_ok junk l Count
       | inr (ok, k) => if negb ok then close_dir;; mret (false, Count) else once ← get OnceCnt; if once <=? Count + k then mret (false, Count + k) else scan_dir_once mem_ok junk l (Count + k) end) s1
       = scan_dir_once mem_ok junk l (Count + k) s1) \/
      (Count + k = OnceCnt s /\ (match r with inl _ => scan_dir_once mem_ok junk l Count
       | inr (ok, k) => if negb ok then close_dir;; mret (false, Count) else once ← get OnceCnt; if once <=? Count + k then mret (false, Count + k) else scan_dir_once mem_ok junk l (Count + k) end) s1
       = Some ((false, Count + k), s1))) as [[Hk ->] | [Hk ->]].
    { assert (k <= 1) by (unfold k, entry_files; destruct (d_type e =? FSYS_ATTR_DIRECTORY), (ValidFileType (d_name e) types); simpl; lia).
      destruct r as [u | [ok k']].
      - left. unfold k. rewrite Hr. cbn [length Z.of_nat]. rewrite Z.add_0_r. done.
      - destruct Hr as [-> ->]. cbn [negb]. rewrite bind_get, Ho. fold k. destruct (Z.leb_spec (OnceCnt s) (Count + k)); [right | left]; (split; [lia | reflexivity]). }
    + destruct (IH s1 ess1 _ (Count + k) Hi1 Hp1) as (s2 & ess2 & l1 & l2 & r2 & -> & -> & Hi2 & Hcc2 & Hx2 & Hs2 & Hp2 & Hc2 & Hr2); [lia |].
      exists s2, ess2, (e :: l1), l2, r2. rewrite dir_files_cons, dir_subs_cons, length_app, rev_app_distr, <- app_assoc, entry_subs_rev, Nat2Z.inj_add, Z.add_assoc. fold k.
      rewrite Ho in Hr2.
      split_and!; [reflexivity | reflexivity | exact Hi2 | rewrite Hcc2, Hcc1; symmetry; apply app_assoc | exact (ext_trans _ _ _ Hx1 Hx2) | exact (same_trans _ _ _ Hs1 Hs2) | exact Hp2 | exact (eq_trans Hc2 Hc1) | exact Hr2].
    + exists s1, ess1, [e], l, false. unfold dir_files, dir_subs at 1. cbn [map concat]. rewrite !app_nil_r, entry_subs_rev. fold k.
      split_and!; try done.
Qed.

Section Portions.

Context (depth : nat).

Definition good (st : list (list Z)) : Prop := Forall (fun p => tree_ok fs depth p /\ opens fs depth p = true) st.

(** What is still to be found: [P]. *)
Definition pend (s : ScanInfo_t) (st : list (list Z)) (P : list entry) : Prop :=
  good st /\
  match pCurDir s with
  | Some l => cstr_ok (CurPath s) /\ Forall (dirent_ok (CurPath s)) l /\ good (dir_subs (CurPath s) l) /\
      P = dir_files types (CurPath s) l ++ visits fs types depth (rev (dir_subs (CurPath s) l) ++ st)
  | None => P = visits fs types depth st
  end.

(** The directories still to be opened. *)
Definition todo (s : ScanInfo_t) (st : list (list Z)) : list (list Z) :=
  match pCurDir s with Some l => dir_subs (CurPath s) l | None => [] end ++ st.
Definition budget (s : ScanInfo_t) (st : list (list Z)) : nat :=
  match pCurDir s with
  | Some l => (length (dir_subs (CurPath s) l) + pushes depth (rev (dir_subs (CurPath s) l) ++ st))%nat
  | None => pushes depth st
  end.

Record scanning (s : ScanInfo_t) (ess : list (list entry)) (st : list (list Z)) (P : list entry) : Prop := Scanning {
  scan_inv : inv s ess st (budget s st);
  scan_pend : pend s st P;
}.

Lemma good_app st1 st2 : good (st1 ++ st2) <-> good st1 /\ good st2.
Proof. apply Forall_app. Qed.
Lemma good_rev st : good (rev st) <-> good st.
Proof. unfold good. rewrite !list.Forall_forall. setoid_rewrite list_elem_of_In. setoid_rewrite <- in_rev. reflexivity. Qed.

(** Opening the next directory. *)
Lemma pop_scanning s ess p st P : scanning s ess (p :: st) P -> pCurDir s = None ->
  exists s' l, pop_open fs s = Some (tt, s') /\ scanning s' ess st P /\ pCurDir s' = Some l /\ same s s' /\ CurCnt s' = CurCnt s /\
    (S (size fs depth (todo s' st)) = size fs depth (p :: st))%nat.
Proof.
  intros [Hi [Hg HP]] Hd. unfold budget in Hi. rewrite Hd in *. apply Forall_cons_1 in Hg as [[Hp Hop] Hg]. subst P.
  destruct (opens_open _ _ _ Hp Hop) as (l & El & Hsub). destruct (tree_ok_subs _ _ _ _ Hp El) as [Hde Hts].
  destruct (pop_open_ok _ _ _ _ _ _ Hi Hp) as (s' & E & Hi' & Hp' & Hd' & Hs' & Hc'). rewrite El in Hd'.
  exists s', l. destruct (tree_ok_path _ _ _ Hp) as [Hcp _].
  split_and!; [exact E | split | exact Hd' | exact Hs' | exact Hc' |].
  - unfold budget. rewrite Hd', Hp'. rewrite pushes_cons in Hi'. rewrite (pushes_subs _ _ _ _ Hp El). exact Hi'.
  - split; [exact Hg |]. rewrite Hd', Hp'. split_and!; [exact Hcp | exact Hde | |].
    + apply list.Forall_forall. intros q Hq. rewrite list.Forall_forall in Hts, Hsub. auto.
    + unfold visits at 1. cbn [map concat]. rewrite (visit_open _ _ _ _ _ Hp El), visits_app, <- app_assoc. reflexivity.
  - unfold todo. rewrite Hd', Hp', size_app. change (size fs depth (p :: st)) with (ndirs fs depth p + size fs depth st)%nat.
    rewrite (ndirs_open _ _ _ _ Hp El). lia.
Qed.

Lemma finish_ok Count s : finish Count s = Some (Count, with_cnt (s32 (CurCnt s + Count)) s).
Proof. reflexivity. Qed.

Lemma scanning_cnt s ess st P n : scanning s ess st P -> scanning (with_cnt n s) ess st P.
Proof. intros [[? ? ? ?] ?]. now split. Qed.

Lemma once_loop_ok fuel : forall s ess st P l Count, scanning s ess st P -> pCurDir s = Some l -> Count < OnceCnt s ->
  (size fs depth (todo s st) < fuel)%nat ->
  exists s' ess' st' F P', ScanFilesOneTime_loop mem_ok junk fs fuel Count s = Some (Count + Z.of_nat (length F), s') /\
    scanning s' ess' st' P' /\ P = F ++ P' /\ concat ess' = concat ess ++ F /\ ext ess ess' /\ same s s' /\
    CurCnt s' = s32 (CurCnt s + (Count + Z.of_nat (length F))) /\ (size fs depth (todo s' st') <= size fs depth (todo s st))%nat /\
    (Count + Z.of_nat (length F) = OnceCnt s \/ (Count + Z.of_nat (length F) < OnceCnt s /\ P' = [] /\ st' = [] /\ pCurDir s' = None)).
Proof.
  induction fuel as [| fuel IH]; intros s ess st P l Count [Hi [Hg HP]] Hd Hlt Hf; [lia |].
  cbn [ScanFilesOneTime_loop]. mstep. rewrite Hd in *. destruct HP as (Hcp & Hde & Hgs & ->).
  unfold budget in Hi. rewrite Hd in Hi. unfold todo in Hf |- *. rewrite Hd in *. set (p := CurPath s) in *.
  destruct (scan_dir_once_ok p l s ess st _ Count Hi eq_refl Hcp Hde Hlt) as (s1 & ess1 & l1 & l2 & r & -> & E & Hi1 & Hcc1 & Hx1 & Hs1 & Hp1 & Hc1 & Hr).
  mrun E. destruct r; cbn [negb].
  - destruct Hr as [-> Hlt1]. rewrite app_nil_r in *. unfold close_dir. mstep.
    assert (scanning (with_dir None s1) ess1 (rev (dir_subs p l1) ++ st) (visits fs types depth (rev (dir_subs p l1) ++ st))) as Hsc.
    { split; [apply inv_dir; exact Hi1 |]. split; [apply good_app; split; [now apply good_rev | exact Hg] | reflexivity]. }
    cbn [hStack with_dir]. rewrite (stack_empty_ok _ _ _ _ Hi1). destruct (rev (dir_subs p l1) ++ st) as [| q st1] eqn:Est.
    + rewrite bool_decide_eq_true_2 by done. rewrite finish_ok.
      exists (with_cnt (s32 (CurCnt s1 + (Count + Z.of_nat (length (dir_files types p l1))))) (with_dir None s1)), ess1, [], (dir_files types p l1), [].
      split_and!; [reflexivity | exact (scanning_cnt _ _ _ _ _ Hsc) | reflexivity | exact Hcc1 | exact Hx1 | exact Hs1 | cbn; now rewrite Hc1 | cbn; lia | right; done].
    + rewrite bool_decide_eq_false_2 by done.
      destruct (pop_scanning _ _ _ _ _ Hsc eq_refl) as (s2 & l' & E2 & Hsc2 & Hd2 & Hs2 & Hc2 & Hsz2). mrun E2.
      assert (size fs depth (q :: st1) = size fs depth (dir_subs p l1 ++ st)) as Hsz by (rewrite <- Est, !size_app, size_rev; reflexivity).
      destruct (IH s2 ess1 st1 _ l' (Count + Z.of_nat (length (dir_files types p l1))) Hsc2 Hd2) as (s3 & ess3 & st3 & F & P' & -> & Hsc3 & HP3 & Hcc3 & Hx3 & Hs3 & Hc3 & Hsz3 & Hend).
      { rewrite (proj2 (proj2 Hs2)). cbn. rewrite (proj2 (proj2 Hs1)). exact Hlt1. }
      { lia. }
      assert (OnceCnt s2 = OnceCnt s) as Ho by (rewrite (proj2 (proj2 Hs2)); exact (proj2 (proj2 Hs1))).
      assert (CurCnt s2 = CurCnt s) as Hc by exact (eq_trans Hc2 Hc1).
      exists s3, ess3, st3, (dir_files types p l1 ++ F), P'. rewrite length_app, Nat2Z.inj_add, Z.add_assoc, <- Ho, <- Hc.
      split_and!; [reflexivity | exact Hsc3 | rewrite HP3; apply app_assoc | rewrite Hcc3, Hcc1; symmetry; apply app_assoc | exact (ext_trans _ _ _ Hx1 Hx3) |
        exact (same_trans _ _ _ Hs1 (same_trans (with_dir None s1) _ _ Hs2 Hs3)) | exact Hc3 | unfold todo in Hsz3 at 1 |- *; lia | exact Hend].
  - destruct Hr as [Hd1 Heq]. rewrite finish_ok.
    assert (good (dir_subs p l1) /\ good (dir_subs p l2)) as [Hg1 Hg2] by (rewrite dir_subs_app in Hgs; now apply good_app).
    exists (with_cnt (s32 (CurCnt s1 + (Count + Z.of_nat (length (dir_files types p l1))))) s1), ess1, (rev (dir_subs p l1) ++ st), (dir_files types p l1),
      (dir_files types p l2 ++ visits fs types depth (rev (dir_subs p l2) ++ rev (dir_subs p l1) ++ st)).
    split_and!; [reflexivity | | | exact Hcc1 | exact Hx1 | exact Hs1 | cbn; now rewrite Hc1 | | left; exact Heq].
    + apply scanning_cnt. split.
      * unfold budget. rewrite Hd1, Hp1. refine (inv_less _ _ _ _ _ _ Hi1). unfold pushes. rewrite dir_subs_app, rev_app_distr, <- app_assoc. lia.
      * split; [apply good_app; split; [now apply good_rev | exact Hg] |]. rewrite Hd1, Hp1. split_and!; [exact Hcp | now apply Forall_app in Hde as [_ ?] | exact Hg2 | reflexivity].
    + rewrite dir_files_app, dir_subs_app, rev_app_distr, <- !app_assoc. reflexivity.
    + unfold todo. cbn [pCurDir with_cnt CurPath]. rewrite Hd1, Hp1, dir_subs_app, !size_app, size_rev. lia.
Qed.

Definition exhausted (s : ScanInfo_t) (st : list (list Z)) : Prop := st = [] /\ pCurDir s = None.

Lemma exhausted_nothing s ess st P : scanning s ess st P -> exhausted s st -> P = [].
Proof. intros [_ [_ H]] [-> Hd]. rewrite Hd in H. exact H. Qed.

Lemma once_ok fuel s ess st P : scanning s ess st P -> (size fs depth (todo s st) < fuel)%nat -> 0 < OnceCnt s \/ exhausted s st ->
  exists s' ess' st' F P', ScanFilesOneTime mem_ok junk fs fuel s = Some (Z.of_nat (length F), s') /\
    scanning s' ess' st' P' /\ P = F ++ P' /\ concat ess' = concat ess ++ F /\ ext ess ess' /\ same s s' /\
    CurCnt s' = s32 (CurCnt s + Z.of_nat (length F)) /\ (size fs depth (todo s' st') <= size fs depth (todo s st))%nat /\
    (0 < OnceCnt s -> Z.of_nat (length F) <= OnceCnt s) /\ (F = [] -> exhausted s' st').
Proof.
  intros Hsc Hf Ho. unfold ScanFilesOneTime. mstep. destruct (pCurDir s) as [l |] eqn:Hd.
  - destruct Ho as [Ho | [_ Ho]]; [| congruence].
    destruct (once_loop_ok fuel s ess st P l 0 Hsc Hd Ho Hf) as (s' & ess' & st' & F & P' & -> & H1 & H2 & H3 & H4 & H5 & H6 & H7 & H8).
    exists s', ess', st', F, P'. rewrite Z.add_0_l in *. split_and!; try done; [intros _; lia |].
    intros ->. cbn in H8. destruct H8 as [H8 | (_ & _ & H8)]; [lia | exact H8].
  - mstep. rewrite (stack_empty_ok _ _ _ _ (scan_inv _ _ _ _ Hsc)). destruct st as [| p st].
    + rewrite bool_decide_eq_true_2 by done. rewrite finish_ok. exists (with_cnt (s32 (CurCnt s + 0)) s), ess, [], [], P.
      rewrite app_nil_r. split_and!; try done; [now apply scanning_cnt | apply ext_refl | intros ?; simpl; lia].
    + rewrite bool_decide_eq_false_2 by done. destruct Ho as [Ho | [Ho _]]; [| discriminate].
      destruct (pop_scanning _ _ _ _ _ Hsc Hd) as (s1 & l & E1 & Hsc1 & Hd1 & Hs1 & Hc1 & Hsz1). mrun E1.
      unfold todo in Hf |- * at 2. rewrite Hd in Hf |- *. cbn [app] in Hf |- *.
      assert (OnceCnt s1 = OnceCnt s) as Ho1 by exact (proj2 (proj2 Hs1)).
      destruct (once_loop_ok fuel s1 ess st P l 0 Hsc1 Hd1) as (s' & ess' & st' & F & P' & -> & H1 & H2 & H3 & H4 & H5 & H6 & H7 & H8); [lia | lia |].
      exists s', ess', st', F, P'. rewrite Z.add_0_l, Hc1, Ho1 in *. split_and!; try done; [exact (same_trans _ _ _ Hs1 H5) | lia | intros _; lia |].
      intros ->. cbn in H8. destruct H8 as [H8 | (_ & _ & H8)]; [lia | exact H8].
Qed.

(** ** The cursor of a scan is an index *)

(** The cursor is at entry [g] of [all], of which a part may still have to be scanned; after
    the last entry the scan is finished. *)
Definition place (fuel : nat) (once : Z) (all : list entry) (s : ScanInfo_t) (g : nat) : Prop :=
  exists ess st P, scanning s ess st P /\ all = concat ess ++ P /\ (OnceCnt s = once /\ (0 < once \/ exhausted s st)) /\
    (size fs depth (todo s st) < fuel)%nat /\ CurCnt s = Z.of_nat (length (concat ess)) /\
    (on ess (ScanCursor s) g \/ (g = length all /\ at_ ess (ScanCursor s) g /\ exhausted s st)).

Lemma scanning_cursor s ess st P c : scanning s ess st P -> scanning (with_cursor c s) ess st P.
Proof. intros [[? ? ? ?] ?]. now split. Qed.

Lemma first_place s ess : chain_ok (Lists s) ess -> (0 < length (concat ess))%nat -> on ess first_cursor 0.
Proof.
  intros Hc Hpos. destruct (first_on s ess Hc) as (i & es & k & Hi & He & Ho & Hk & E). injection Hi as <-. cbn in E. assert (k = 0%nat) as -> by lia.
  exists 0%nat, es, 0%nat. split_and!; try done. destruct es; [| simpl; lia].
  destruct Hc as [_ [-> | [_ Hne]]]; [simpl in Hpos; lia | now apply (Forall_lookup_1 _ _ _ _ Hne) in He].
Qed.

(** The place after the last entry. *)
Lemma at_end s ess c : chain_ok (Lists s) ess -> at_ ess c (length (concat ess)) ->
  CurList c = Some (LastList (Lists s)) /\ exists l, cur_list c s = Some (l, s) /\ Offset c = FList.Size l.
Proof.
  intros Hc (i & es & k & Hi & He & Ho & Hk & E). destruct (cur_list_ok _ _ _ _ _ Hc Hi He) as (l & Hl & Hb & _).
  destruct (chain_last _ _ Hc) as (_ & _ & _ & _ & _ & _ & Hlast). pose proof (lookup_lt_Some _ _ _ He) as Hil.
  pose proof (f_equal (@length _) (concat_split _ _ _ He)) as Hlen. rewrite !length_app in Hlen.
  destruct (decide (S i = length ess)) as [Hs | Hs].
  - split; [rewrite Hi; f_equal; lia |]. exists l. split; [exact Hl |]. rewrite Ho, (block_Size _ _ Hb). f_equal. lia.
  - destruct (lookup_lt_is_Some_2 ess (S i) ltac:(lia)) as [es' He']. pose proof (chain_nonempty _ _ _ _ Hc He' ltac:(lia)) as Hne.
    assert (drop (S i) ess = es' :: drop (S (S i)) ess) as Hd by (now apply drop_S).
    rewrite Hd in Hlen. cbn [concat] in Hlen. rewrite length_app in Hlen. destruct es'; [easy |]. simpl in Hlen. lia.
Qed.

Lemma on_not_end s ess c g : chain_ok (Lists s) ess -> on ess c g -> exists l, cur_list c s = Some (l, s) /\ Offset c <> FList.Size l.
Proof.
  intros Hc (i & es & k & Hi & He & Ho & Hk & E). destruct (cur_list_ok _ _ _ _ _ Hc Hi He) as (l & Hl & Hb & _).
  exists l. split; [exact Hl |]. rewrite Ho, (block_Size _ _ Hb). intros Hoff. apply off_inj in Hoff; [lia | exact (block_entry_ok _ _ Hb) | lia | lia].
Qed.

Section Place.

Context (fuel : nat) (once : Z) (all : list entry).

Lemma place_le s g : place fuel once all s g -> (g <= length all)%nat.
Proof.
  intros (ess & st & P & _ & -> & _ & _ & _ & [H | [-> _]]); [| lia]. apply on_lookup in H. rewrite length_app. lia.
Qed.

Lemma move_to_first_ok s g : place fuel once all s g -> exists s', ScanMoveToFirst s = Some (EPDK_OK, s') /\ place fuel once all s' 0.
Proof.
  intros (ess & st & P & Hsc & -> & [Ho Ho'] & Hf & Hcnt & Hp). eexists. split; [reflexivity |].
  pose proof (inv_chain _ _ _ _ (scan_inv _ _ _ _ Hsc)) as Hc.
  exists ess, st, P. split_and!; try done; [now apply scanning_cursor |].
  destruct (decide (0 < length (concat ess))%nat) as [Hpos | Hz]; [left; exact (first_place s _ Hc Hpos) | right].
  destruct Hp as [H | (_ & _ & Hex)]; [apply on_lookup in H; lia |].
  rewrite (exhausted_nothing _ _ _ _ Hsc Hex), app_nil_r. split_and!; [lia | exact (first_on s _ Hc) | exact Hex].
Qed.

Lemma is_done_ok s g : place fuel once all s g -> ScanIsDone s = Some (bool_decide (g = length all), s).
Proof.
  intros (ess & st & P & Hsc & -> & [Ho Ho'] & Hf & Hcnt & Hp). pose proof (inv_chain _ _ _ _ (scan_inv _ _ _ _ Hsc)) as Hc.
  unfold ScanIsDone. mstep. rewrite (stack_empty_ok _ _ _ _ (scan_inv _ _ _ _ Hsc)).
  destruct Hp as [Hon | (-> & Hat & Hex)].
  - pose proof (on_lookup _ _ _ Hon) as Hlt. rewrite (bool_decide_eq_false_2 (g = _)) by (rewrite length_app; lia).
    destruct (bool_decide (st = []) && _); [| reflexivity]. pose proof Hon as (i & es & k & Hi & _). rewrite Hi. mstep.
    destruct (i =? LastList (Lists s))%nat; [| reflexivity]. destruct (on_not_end _ _ _ _ Hc Hon) as (l & El & Hne). mrun El.
    destruct (Z.eqb_spec (Offset (ScanCursor s)) (FList.Size l)); [contradiction | reflexivity].
  - rewrite (exhausted_nothing _ _ _ _ Hsc Hex), app_nil_r in *. destruct Hex as [-> ->]. destruct (at_end _ _ _ Hc Hat) as (-> & l & El & Heq).
    rewrite !bool_decide_eq_true_2 by done. cbn [andb]. mstep. rewrite Nat.eqb_refl. mrun El. now rewrite Heq, Z.eqb_refl.
Qed.

Lemma get_current_place s g : place fuel once all s g -> exists s', ScanGetCurrent s = Some (all !! g, s') /\ place fuel once all s' g.
Proof.
  intros (ess & st & P & Hsc & -> & [Ho Ho'] & Hf & Hcnt & Hp). pose proof (inv_chain _ _ _ _ (scan_inv _ _ _ _ Hsc)) as Hc.
  assert (at_ ess (ScanCursor s) g) as Hat by (destruct Hp as [H | (_ & H & _)]; [now apply on_at | exact H]).
  pose proof (get_current_ok s ess (ScanCursor s) g Hc Hat) as H. unfold ScanGetCurrent. mstep.
  destruct Hp as [Hon | (-> & _ & Hex)].
  - pose proof (on_lookup _ _ _ Hon) as Hlt. rewrite lookup_app_l by exact Hlt. destruct (lookup_lt_is_Some_2 _ _ Hlt) as [e Ee]. rewrite Ee in *.
    destruct H as (c' & E & Hon'). mrun E. eexists. split; [reflexivity |]. exists ess, st, P.
    split_and!; try done; [now apply scanning_cursor | now left].
  - rewrite (exhausted_nothing _ _ _ _ Hsc Hex), app_nil_r in *. rewrite lookup_ge_None_2 in * by lia. mrun H. eexists. split; [reflexivity |].
    exists ess, st, []. rewrite app_nil_r. split_and!; try done; [apply scanning_cursor; now rewrite <- (exhausted_nothing _ _ _ _ Hsc Hex) at 1 | right]. done.
Qed.

Lemma move_to_prev_ok s g : place fuel once all s g ->
  exists s', ScanMoveToPrev s = Some (if (g =? 0)%nat then EPDK_FAIL else EPDK_OK, s') /\ place fuel once all s' (pred g).
Proof.
  intros (ess & st & P & Hsc & -> & [Ho Ho'] & Hf & Hcnt & Hp). pose proof (inv_chain _ _ _ _ (scan_inv _ _ _ _ Hsc)) as Hc.
  assert (at_ ess (ScanCursor s) g) as Hat by (destruct Hp as [H | (_ & H & _)]; [now apply on_at | exact H]).
  pose proof (move_prev_ok s ess (ScanCursor s) g Hc Hat) as H. unfold ScanMoveToPrev. mstep.
  destruct g as [| g].
  - mrun H. eexists. split; [reflexivity |]. exists ess, st, P. split_and!; try done; [now apply scanning_cursor].
  - destruct H as (c' & E & Hon). mrun E. eexists. split; [reflexivity |]. exists ess, st, P.
    split_and!; try done; [now apply scanning_cursor | now left].
Qed.

(** Where there is a next entry, [ScanMoveToNext] does what the move of a free cursor does. *)
Lemma next_inv s c l nxt c' : cur_list c s = Some (l, s) -> cur_next c s = Some (nxt, s) ->
  ScanMoveCursorToNext c s = Some ((EPDK_OK, c'), s) ->
  if Offset c =? FList.Top l then exists i, nxt = Some i /\ c' = Cursor nxt 0 else step_entry c s = Some (c', s).
Proof.
  intros El En. unfold ScanMoveCursorToNext. mrun El. destruct (Offset c =? FList.Top l).
  - mrun En. destruct nxt as [i |]; [intros [= <-]; eauto | intros [=]].
  - unfold mbind, M_bind. destruct (step_entry c s) as [[c1 s1] |]; [| discriminate]. intros [= <- <-]. reflexivity.
Qed.

Lemma next_fail s c l nxt : cur_list c s = Some (l, s) -> cur_next c s = Some (nxt, s) ->
  ScanMoveCursorToNext c s = Some ((EPDK_FAIL, c), s) -> (Offset c =? FList.Top l) = true /\ nxt = None.
Proof.
  intros El En. unfold ScanMoveCursorToNext. mrun El. destruct (Offset c =? FList.Top l).
  - mrun En. destruct nxt as [i |]; [intros [=] | done].
  - unfold mbind, M_bind. destruct (step_entry c s) as [[c1 s1] |]; discriminate.
Qed.

Lemma on_lists s ess c g : chain_ok (Lists s) ess -> on ess c g ->
  exists l nxt, cur_list c s = Some (l, s) /\ cur_next c s = Some (nxt, s).
Proof.
  intros Hc (i & es & k & Hi & He & _). destruct (cur_list_ok _ _ _ _ _ Hc Hi He) as (l & Hl & _).
  eexists l, _. split; [exact Hl | exact (cur_next_ok _ _ c _ Hc Hi)].
Qed.

(** Scanning found nothing more: the cursor after the last entry. *)
Lemma end_cursor s ess ess' c g : chain_ok (Lists s) ess' -> ext ess ess' -> concat ess' = concat ess -> on ess c g ->
  S g = length (concat ess) ->
  exists l, cur_list c s = Some (l, s) /\ at_ ess' (Cursor (CurList c) (FList.Size l)) (length (concat ess)).
Proof.
  intros Hc Hx Hcc (i & es & k & Hi & He & Ho & Hk & ->) Hlast. destruct (Hx i es He) as (t & Ht & _).
  destruct (cur_list_ok _ _ _ _ _ Hc Hi Ht) as (l & Hl & Hb & _). exists l. split; [exact Hl |].
  pose proof (lookup_lt_Some _ _ _ He) as Hil. pose proof (f_equal (@length _) (concat_split _ _ _ Ht)) as Hlen.
  rewrite Hcc, !length_app, (ext_take _ _ _ Hx Hil) in Hlen.
  exists i, (es ++ t), (length (es ++ t)). split_and!; [exact Hi | exact Ht | exact (block_Size _ _ Hb) | lia |].
  rewrite (ext_take _ _ _ Hx Hil), length_app. lia.
Qed.

Lemma move_to_next_ok s g : place fuel once all s g -> (g < length all)%nat -> Z.of_nat (length all) < 2 ^ 31 ->
  exists s', ScanMoveToNext mem_ok junk fs fuel s = Some (if (S g <? length all)%nat then EPDK_OK else EPDK_FAIL, s') /\ place fuel once all s' (S g).
Proof.
  intros (ess & st & P & Hsc & -> & Ho & Hf & Hcnt & [Hon | (-> & _)]) Hg Hmax; [| lia]. pose proof (inv_chain _ _ _ _ (scan_inv _ _ _ _ Hsc)) as Hc.
  destruct (on_lists _ _ _ _ Hc Hon) as (l & nxt & El & En). pose proof (on_lookup _ _ _ Hon) as Hgl.
  pose proof (move_next_ok s ess (ScanCursor s) g Hc Hon) as Hmv.
  unfold ScanMoveToNext. mstep. mrun El. mrun En. cbv zeta.
  destruct (Nat.ltb_spec (S g) (length (concat ess))) as [Hin | Hout].
  - destruct Hmv as (c' & Emv & Hon'). pose proof (next_inv _ _ _ _ _ El En Emv) as Hcase. rewrite length_app in *.
    rewrite (proj2 (Nat.ltb_lt _ _)) by lia.
    exists (with_cursor c' s). split.
    + destruct (Offset (ScanCursor s) =? FList.Top l); [destruct Hcase as (i & -> & ->); reflexivity | now mrun Hcase].
    + exists ess, st, P. destruct Ho as [Ho Ho']. split_and!; try done; [now apply scanning_cursor | now left].
  - pose proof (next_fail _ _ _ _ El En Hmv) as [Ht ->]. rewrite Ht.
    destruct (once_ok fuel s ess st P Hsc Hf ltac:(destruct Ho as [<- Ho]; exact Ho)) as (s1 & ess1 & st1 & F & P1 & E1 & Hsc1 & -> & Hcc1 & Hx1 & Hs1 & Hcnt1 & Hsz1 & _ & Hex1).
    rewrite !length_app in *. rewrite Hcnt, s32_id in Hcnt1 by lia.
    assert (OnceCnt s1 = once /\ (0 < once \/ exhausted s1 st1)) as Ho1.
    { split; [rewrite (proj2 (proj2 Hs1)); exact (proj1 Ho) |]. destruct Ho as [_ [Ho | Hex]]; [now left | right]. apply Hex1.
      pose proof (exhausted_nothing _ _ _ _ Hsc Hex) as E0. now apply app_nil in E0. }
    pose proof (inv_chain _ _ _ _ (scan_inv _ _ _ _ Hsc1)) as Hc1. mrun E1. destruct F as [| f F].
    + rewrite app_nil_r in Hcc1. destruct (end_cursor s1 ess ess1 (ScanCursor s) g Hc1 Hx1 Hcc1 Hon ltac:(lia)) as (l1 & El1 & Hat1).
      mrun El1. cbn [length Z.of_nat Z.eqb]. mstep. specialize (Hex1 eq_refl). pose proof (exhausted_nothing _ _ _ _ Hsc1 Hex1) as ->.
      cbn [app length] in *. rewrite (proj2 (Nat.ltb_ge _ _)) by lia. eexists. split; [reflexivity |].
      exists ess1, st1, []. rewrite Hcc1, app_nil_r. split_and!; [now apply scanning_cursor | reflexivity | exact (proj1 Ho1) | exact (proj2 Ho1) | exact (Nat.le_lt_trans _ _ _ Hsz1 Hf) | cbn; rewrite Hcnt1; f_equal; simpl; lia |].
      right. replace (S g) with (length (concat ess)) by lia. split_and!; [reflexivity | exact Hat1 | exact Hex1].
    + pose proof (on_ext _ _ _ _ Hx1 Hon) as Hon1. destruct (on_lists _ _ _ _ Hc1 Hon1) as (l1 & nxt1 & El1 & En1). mrun El1.
      assert (length (concat ess1) = length (concat ess) + S (length F))%nat as Hlen1 by (rewrite Hcc1, length_app; reflexivity).
      pose proof (move_next_ok s1 ess1 (ScanCursor s) g Hc1 Hon1) as Hmv1. rewrite (proj2 (Nat.ltb_lt (S g) _)) in Hmv1 by lia.
      destruct Hmv1 as (c' & Emv & Hon'). pose proof (next_inv _ _ _ _ _ El1 En1 Emv) as Hcase.
      rewrite (proj2 (Nat.ltb_lt (S g) _)) by (simpl; lia). exists (with_cursor c' s1). split.
      * rewrite (proj2 (Z.eqb_neq (Z.of_nat (length (f :: F))) 0)) by (simpl; lia). destruct (Offset (ScanCursor s) =? FList.Top l1); [mrun En1; destruct Hcase as (i & -> & ->); reflexivity | now mrun Hcase].
      * exists ess1, st1, P1. rewrite Hcc1. split_and!; [now apply scanning_cursor | apply app_assoc | exact (proj1 Ho1) | exact (proj2 Ho1) | exact (Nat.le_lt_trans _ _ _ Hsz1 Hf) | cbn [CurCnt with_cursor]; rewrite Hcnt1, length_app; f_equal; simpl; lia | now left].
Qed.

End Place.

End Portions.

(** ** Begin *)

Definition start (root : list Z) (once : Z) (h : ScanStack_t) (n : nat) : ScanInfo_t :=
  ScanInfo [new_list junk] first_cursor (Cursor None 0) types once 0 h None root n.

Lemma start_inv root once h n b : repr h [] -> ScanStack.Alloc h = STACK_GROWN_LEN -> STACK_GROWN_LEN * (Z.of_nat b + 1) < 2 ^ 32 ->
  inv (start root once h n) [[]] [] b.
Proof.
  intros Hr Ha Hb. split; [| exact Hr | cbn; rewrite Ha; lia | reflexivity].
  split; [constructor; [apply new_list_ok | constructor] | now left].
Qed.

Lemma begin_eq fuel root once n : Z.of_nat (List.length root) < SCAN_MAX_PATH -> exists h k, repr h [] /\ ScanStack.Alloc h = STACK_GROWN_LEN /\
  ScanFilesBegin mem_ok junk fs fuel root types once n =
    match SetupScanProcess mem_ok junk fs fuel (start root once h k) with
    | None => None
    | Some (r, s) => if r =? EPDK_OK then Some (Some s, allocs s) else Some (None, allocs s)
    end.
Proof.
  intros Hl. destruct (alloc_repr mem_ok junk (S (S n)) (Hmem _) (Hmem _)) as (h & E & Hr & Ha). exists h, (S (S (S (S n)))).
  split_and!; [exact Hr | exact Ha |]. unfold ScanFilesBegin. rewrite !Hmem, E. cbn [negb]. unfold copy_CurPath.
  rewrite (proj2 (Z.ltb_lt _ _)) by exact Hl. mstep. reflexivity.
Qed.

Section Begin.

Context (depth fuel : nat) (root : list Z) (n : nat).
Context (Hroot : tree_ok fs depth root) (Hsize : Z.of_nat (ndirs fs depth root) < 2 ^ 19) (Hfuel : (ndirs fs depth root < fuel)%nat).
Context (Hmax : Z.of_nat (length (visit fs types depth root)) < 2 ^ 31).

(** The first directory is on the stack. *)
Lemma setup_push once h k : repr h [] -> ScanStack.Alloc h = STACK_GROWN_LEN ->
  exists s, stack_push mem_ok junk root (start root once h k) = Some (EPDK_OK, s) /\ inv s [[]] [root] (pushes depth [root]) /\
    same (start root once h k) s /\ CurCnt s = 0 /\ pCurDir s = None.
Proof.
  intros Hr Ha. destruct (tree_ok_path _ _ _ Hroot) as [Hc Hl]. pose proof (ndirs_pos fs depth root).
  assert (pushes depth [root] = pred (ndirs fs depth root)) as Hp by (rewrite pushes_cons; unfold pushes; cbn; lia).
  destruct (stack_push_ok (start root once h k) [[]] [] (pushes depth [root]) root) as (s & E & Hi & Hs & _ & H0 & Hd).
  - apply start_inv; [exact Hr | exact Ha | unfold STACK_GROWN_LEN; rewrite Hp; lia].
  - exact Hc.
  - unfold SCAN_MAX_PATH in *. lia.
  - exists s. done.
Qed.

Lemma begin_all_ok : exists s ess k, ScanFilesBegin mem_ok junk fs fuel root types 0 n = Some (Some s, k) /\
  inv s ess [] 0 /\ concat ess = visit fs types depth root /\ CurCnt s = Z.of_nat (length (visit fs types depth root)) /\
  pCurDir s = None /\ OnceCnt s = 0 /\ ScanCursor s = first_cursor.
Proof.
  destruct (tree_ok_path _ _ _ Hroot) as [Hc Hl]. destruct (begin_eq fuel root 0 n Hl) as (h & k & Hr & Ha & ->).
  destruct (setup_push 0 h k Hr Ha) as (s & E & Hi & Hs & H0 & Hd). unfold SetupScanProcess. mstep. mrun E.
  rewrite (proj2 (proj2 Hs) : OnceCnt s = 0). cbn [Z.eqb].
  destruct (scan_all_ok depth fuel [root] s [[]] 0 0) as (s' & ess & E' & Hi' & Hcc & _ & Hs' & _ & Hd'); [now rewrite Nat.add_0_r | exact Hd | now repeat constructor | cbn; lia |].
  mrun E'. change (EPDK_OK =? EPDK_OK) with true. cbv iota.
  assert (visits fs types depth [root] = visit fs types depth root) as Hv by (unfold visits; cbn; apply app_nil_r). rewrite Hv in *.
  eexists _, ess, _. split; [reflexivity |]. destruct Hi' as [? ? ? ?].
  split_and!; [now split | exact Hcc | reflexivity | exact Hd' | |].
  - cbn. rewrite (proj2 (proj2 Hs')). exact (proj2 (proj2 Hs)).
  - cbn. rewrite (proj1 Hs'). exact (proj1 Hs).
Qed.

Lemma begin_place once : 0 <= once -> (0 < once -> opens fs depth root = true) ->
  exists s k, ScanFilesBegin mem_ok junk fs fuel root types once n = Some (Some s, k) /\ place depth fuel once (visit fs types depth root) s 0.
Proof.
  intros Hon Hop. destruct (Z.eq_dec once 0) as [-> | Hne].
  - destruct begin_all_ok as (s & ess & k & E & Hi & Hcc & Hcnt & Hd & Ho & Hcur). exists s, k. split; [exact E |].
    assert (scanning depth s ess [] []) as Hsc.
    { split; [refine (inv_less _ _ _ _ _ _ Hi) | split; [constructor | rewrite Hd; reflexivity]]. unfold budget. rewrite Hd. reflexivity. }
    exists ess, [], []. rewrite app_nil_r, Hcc. split_and!; [exact Hsc | reflexivity | exact Ho | now right | unfold todo; rewrite Hd; cbn; lia | exact Hcnt |].
    rewrite Hcur. destruct (decide (0 < length (concat ess))%nat) as [Hpos | Hz].
    + left. exact (first_place s _ (inv_chain _ _ _ _ Hi) Hpos).
    + right. rewrite <- Hcc. split_and!; [lia | exact (first_on s _ (inv_chain _ _ _ _ Hi)) | done].
  - specialize (Hop ltac:(lia)). destruct (tree_ok_path _ _ _ Hroot) as [Hc Hl]. destruct (begin_eq fuel root once n Hl) as (h & k & Hr & Ha & ->).
    destruct (setup_push once h k Hr Ha) as (s & E & Hi & Hs & H0 & Hd). unfold SetupScanProcess. mstep. mrun E.
    assert (OnceCnt s = once) as Ho by exact (proj2 (proj2 Hs)). rewrite Ho. destruct (Z.eqb_spec once 0) as [? | _]; [lia |].
    assert (visits fs types depth [root] = visit fs types depth root) as Hv by (unfold visits; cbn; apply app_nil_r).
    assert (scanning depth s [[]] [root] (visit fs types depth root)) as Hsc.
    { split; [unfold budget; rewrite Hd; exact Hi |]. split; [now repeat constructor | rewrite Hd; now symmetry]. }
    destruct (once_ok depth fuel s _ _ _ Hsc) as (s' & ess & st & F & P & E' & Hsc' & HF & Hcc & _ & Hs' & Hcnt & Hsz & _ & Hex);
      [unfold todo; rewrite Hd; cbn; lia | left; lia |].
    mrun E'. change (EPDK_OK =? EPDK_OK) with true. cbv iota. eexists s', _. split; [reflexivity |].
    assert (OnceCnt s' = once) as Ho' by (rewrite (proj2 (proj2 Hs')); exact Ho).
    cbn [concat app] in Hcc. pose proof (inv_chain _ _ _ _ (scan_inv _ _ _ _ _ Hsc')) as Hch.
    assert (ScanCursor s' = first_cursor) as Hcur by (rewrite (proj1 Hs'); exact (proj1 Hs)).
    exists ess, st, P. rewrite Hcc. split_and!; [exact Hsc' | exact HF | exact Ho' | left; lia | refine (Nat.le_lt_trans _ _ _ Hsz _); unfold todo; rewrite Hd; cbn; lia | |].
    + rewrite Hcnt, H0, Z.add_0_l. apply s32_id. rewrite HF, length_app in Hmax. lia.
    + rewrite Hcur. destruct F as [| f F].
      * right. specialize (Hex eq_refl). rewrite HF, (exhausted_nothing _ _ _ _ _ Hsc' Hex). split_and!; [reflexivity | exact (first_on s' _ Hch) | exact Hex].
      * left. apply (first_place s' _ Hch). rewrite Hcc. simpl. lia.
Qed.

End Begin.

End Scanning.

(** ** Suffixes *)

Lemma strchrlast_loop_spec s c i : strchrlast_loop s c i = i /\ char_at s i = c \/
  (strchrlast_loop s c i <= i)%nat /\ (forall j, (strchrlast_loop s c i < j <= i)%nat -> char_at s j <> c) /\
  (strchrlast_loop s c i = 0%nat \/ char_at s (strchrlast_loop s c i) = c).
Proof.
  induction i as [| i IH]; cbn [strchrlast_loop]; [right; split_and!; [lia | lia | now left] |].
  destruct (Z.eqb_spec (char_at s (S i)) c) as [E | E]; [now left | right].
  destruct IH as [[-> Hc] | (Hle & Hj & H0)]; (split_and!; [lia | | tauto]).
  - intros j Hj. assert (j = S i) as -> by lia. exact E.
  - intros j Hj'. destruct (decide (j = S i)) as [-> |]; [exact E | apply Hj; lia].
Qed.

(** The last occurrence. *)
Lemma strchrlast_spec s c i : cstr_ok s -> 0 < c ->
  SLIB_strchrlast s c = Some i <-> (char_at s i = c /\ forall j, (i < j)%nat -> char_at s j <> c).
Proof.
  intros Hs Hc. assert (forall j, (List.length s <= j)%nat -> char_at s j <> c) as Hend.
  { intros j Hj. unfold char_at. rewrite nth_overflow by exact Hj. lia. }
  pose proof (strchrlast_loop_spec s c (List.length s)) as H. unfold SLIB_strchrlast. cbv zeta.
  set (k := strchrlast_loop s c (List.length s)) in *.
  assert ((k <= List.length s)%nat /\ (forall j, (k < j)%nat -> char_at s j <> c)) as [Hk Hafter].
  { destruct H as [[Ek Ec] | (Hle & Hj & _)]; [exfalso; exact (Hend k ltac:(lia) ltac:(now rewrite Ek in * )) |].
    split; [exact Hle |]. intros j Hkj. destruct (decide (j <= List.length s)%nat); [apply Hj; lia | apply Hend; lia]. }
  destruct (Z.eqb_spec (char_at s k) c) as [E | E]; split.
  - intros [= <-]. done.
  - intros [Ei Hi]. f_equal. destruct (Nat.lt_trichotomy k i) as [Hlt | [-> | Hlt]]; [now apply Hafter in Hlt | done | now apply Hi in Hlt].
  - discriminate.
  - intros [Ei Hi]. exfalso. destruct H as [[Ek Ec] | (_ & _ & [E0 | E0])]; [now rewrite Ek in E | | congruence].
    destruct (decide (i = k)) as [-> |]; [contradiction | apply (Hafter i); [lia | exact Ei]].
Qed.

Definition upper (s : list Z) : list Z := map SLIB_toupper s.

Lemma toupper_zero c : 0 < c < 256 -> SLIB_toupper c <> 0.
Proof.
  intros Hc E. assert (forallb (fun x => negb (SLIB_toupper x =? 0) || (x =? 0)) (seqZ 0 256) = true) as H by (vm_compute; reflexivity).
  pose proof (byte_forall _ c H ltac:(unfold byte_ok; lia)) as Hb. cbv beta in Hb. rewrite E in Hb. destruct (Z.eqb_spec c 0); [lia | discriminate].
Qed.

(** The comparison is equality without regard to case. *)
Lemma stricmp_zero a b : cstr_ok a -> cstr_ok b -> SLIB_stricmp a b = 0 <-> upper a = upper b.
Proof.
  intros Ha. revert b. unfold SLIB_stricmp. induction Ha as [| x a Hx Ha IH]; intros b Hb.
  - destruct Hb as [| y b Hy Hb]; [done |]. cbn [stricmp_loop char_at nth]. pose proof (toupper_zero y Hy) as Hz. destruct (Z.eqb_spec 0 y); [lia |]. cbn [negb].
    change (SLIB_toupper 0) with 0. split; [lia | discriminate].
  - destruct Hb as [| y b Hy Hb]; cbn [stricmp_loop].
    + cbn [char_at nth]. pose proof (toupper_zero x Hx) as Hz. destruct (Z.eqb_spec x 0); [lia |]. cbn [negb]. change (SLIB_toupper 0) with 0. split; [lia | discriminate].
    + destruct (Z.eqb_spec (SLIB_toupper x) (SLIB_toupper y)) as [E | E].
      * rewrite (IH b Hb). cbn [upper map]. rewrite E. split; [intros H; f_equal; exact H | now intros [= H]].
      * cbn [char_at nth]. destruct (Z.eqb_spec x y) as [-> |]; [contradiction |]. cbn [negb]. split; [lia | intros [= ? _]; contradiction].
Qed.

Lemma valid_loop_find tbl suffix types : cstr_ok suffix -> Forall (fun f => cstr_ok (Suffix f)) tbl ->
  valid_loop tbl suffix types =
    match List.find (fun f => bool_decide (upper (Suffix f) = upper suffix)) tbl with
    | None => None
    | Some f => Some (if bool_decide (Z.land (ScanFlag f) types <> 0 \/ types = 0) then Some (FmtFormat f) else None)
    end.
Proof.
  intros Hs Ht. induction Ht as [| f tbl Hf Ht IH]; [reflexivity |]. cbn [valid_loop List.find].
  pose proof (stricmp_zero suffix (Suffix f) Hs Hf) as H. destruct (Z.eqb_spec (SLIB_stricmp suffix (Suffix f)) 0) as [E | E].
  - rewrite bool_decide_eq_true_2 by (symmetry; now apply H). f_equal.
    match goal with |- (if ?a then _ else _) = (if ?b then _ else _) => assert (a = b) as -> end; [| reflexivity].
    apply eq_true_iff_eq. rewrite bool_decide_eq_true, orb_true_iff, negb_true_iff, Z.eqb_neq, Z.eqb_eq. reflexivity.
  - rewrite bool_decide_eq_false_2 by (intros E'; apply E, H; now symmetry). exact IH.
Qed.

(** A name whose last dot starts [suffix] has the format of the entry of the table that is
    [suffix] up to case, if the types ask for it; a suffix that is not in the table is
    accepted, as unknown, exactly when every type is asked for; without a dot a name is
    refused. *)
Theorem valid_file_type name types : cstr_ok name ->
  ((forall c, c ∈ name -> c <> 46) -> ValidFileType name types = None) /\
  (forall stem ext_, name = stem ++ 46 :: ext_ -> (forall c, c ∈ ext_ -> c <> 46) ->
    ValidFileType name types =
      match List.find (fun f => bool_decide (upper (Suffix f) = upper (46 :: ext_))) ValidFmtTbl with
      | Some f => if bool_decide (Z.land (ScanFlag f) types <> 0 \/ types = 0) then Some (FmtFormat f) else None
      | None => if types =? 0 then Some RAT_MEDIA_TYPE_UNKNOWN else None
      end).
Proof.
  intros Hs. assert (forall l j, (forall c, c ∈ l -> c <> 46) -> char_at l j <> 46) as Hno.
  { intros l j Hl. unfold char_at. destruct (nth_in_or_default j l 0) as [Hin | ->]; [apply Hl; now apply list_elem_of_In | lia]. }
  split.
  - intros Hn. unfold ValidFileType. destruct (SLIB_strchrlast name 46) as [i |] eqn:E; [| reflexivity].
    apply strchrlast_spec in E as [E _]; [| exact Hs | lia]. now apply Hno in E.
  - intros stem ext_ -> He. apply cstr_ok_app in Hs as [Hst Hex]. unfold ValidFileType.
    assert (SLIB_strchrlast (stem ++ 46 :: ext_) 46 = Some (List.length stem)) as ->.
    { apply strchrlast_spec; [now apply cstr_ok_app | lia |]. split.
      - unfold char_at. rewrite app_nth2, Nat.sub_diag by lia. reflexivity.
      - intros j Hj. unfold char_at. rewrite app_nth2 by lia. destruct (j - List.length stem)%nat as [| k] eqn:Ek; [lia |]. exact (Hno ext_ k He). }
    rewrite drop_app_length. rewrite valid_loop_find; [| exact Hex | unfold ValidFmtTbl; repeat constructor; by_compute].
    destruct (List.find _ _); reflexivity.
Qed.

Lemma valid_file_type_witness : ValidFileType (lit "song.tar.Mp3") MUSIC_SCAN_ALL = Some RAT_MEDIA_TYPE_AUDIO.
Proof.
  rewrite (proj2 (valid_file_type (lit "song.tar.Mp3") MUSIC_SCAN_ALL ltac:(by_compute)) (lit "song.tar") (lit "Mp3") eq_refl).
  - vm_compute. reflexivity.
  - change (lit "Mp3") with [77; 112; 51]. intros c Hc. rewrite !elem_of_cons, elem_of_nil in Hc. lia.
Defined.

(** ** What a client sees *)

(** The calls of [rat.c] on a scan. *)
Inductive cmd := First | Forward (n : nat) | Backward (n : nat) | Current | Done.
Inductive answer := Ok (r : Z) | Moved (n : Z) | Found (e : option entry) | AtEnd (b : bool).

#[global] Instance answer_eq_dec : EqDecision answer.
Proof. solve_decision. Defined.

Definition run_cmd mem_ok junk fs fuel (c : cmd) : M answer :=
  match c with
  | First => r ← ScanMoveToFirst; mret (Ok r)
  | Forward n => k ← forward_loop mem_ok junk fs fuel n 0; mret (Moved k)
  | Backward n => k ← backward_loop n 0; mret (Moved k)
  | Current => e ← ScanGetCurrent; mret (Found e)
  | Done => b ← ScanIsDone; mret (AtEnd b)
  end.

Fixpoint run_cmds mem_ok junk fs fuel (cs : list cmd) : M (list answer) :=
  match cs with
  | [] => mret []
  | c :: cs => a ← run_cmd mem_ok junk fs fuel c; l ← run_cmds mem_ok junk fs fuel cs; mret (a :: l)
  end.

(** The same on an index into the files [all]: a move past the last file is not counted but
    leaves the index behind it. *)
Definition forward_spec (len g n : nat) : nat * nat :=
  if (g =? len)%nat then (0, g)%nat else if (g + n <? len)%nat then (n, g + n)%nat else (len - 1 - g, len)%nat.

Definition spec_cmd (all : list entry) (c : cmd) (g : nat) : answer * nat :=
  match c with
  | First => (Ok EPDK_OK, 0%nat)
  | Forward n => let '(k, g) := forward_spec (length all) g n in (Moved (Z.of_nat k), g)
  | Backward n => (Moved (Z.of_nat (n `min` g)), (g - n)%nat)
  | Current => (Found (all !! g), g)
  | Done => (AtEnd (bool_decide (g = length all)), g)
  end.

Fixpoint spec_cmds (all : list entry) (cs : list cmd) (g : nat) : list answer :=
  match cs with
  | [] => []
  | c :: cs => let '(a, g) := spec_cmd all c g in a :: spec_cmds all cs g
  end.

Section Client.

Context (mem_ok : nat -> bool) (junk : nat -> Z) (fs : list Z -> option (list dirent)) (types : Z).
Context (Hmem : forall n, mem_ok n = true) (depth fuel : nat) (once : Z) (all : list entry) (Hmax : Z.of_nat (length all) < 2 ^ 31).

Abbreviation place := (place fs types depth fuel once all).

Lemma forward_ok n : forall i s g, place s g -> exists s',
  forward_loop mem_ok junk fs fuel n i s = Some (i + Z.of_nat (forward_spec (length all) g n).1, s') /\ place s' (forward_spec (length all) g n).2.
Proof.
  induction n as [| n IH]; intros i s g Hp; pose proof (place_le _ _ _ _ _ _ _ _ Hp) as Hle; unfold forward_spec in *.
  - exists s. rewrite Nat.add_0_r. destruct (Nat.eqb_spec g (length all)); [subst; cbn; rewrite Z.add_0_r; done |].
    rewrite (proj2 (Nat.ltb_lt _ _)) by lia. cbn. rewrite Z.add_0_r. done.
  - cbn [forward_loop]. mrun (is_done_ok _ _ _ _ _ _ _ _ Hp). destruct (Nat.eqb_spec g (length all)) as [-> | Hne].
    + rewrite bool_decide_eq_true_2 by done. exists s. cbn. rewrite Z.add_0_r. done.
    + rewrite bool_decide_eq_false_2 by done. destruct (move_to_next_ok mem_ok junk fs types Hmem _ _ _ _ _ _ Hp ltac:(lia) Hmax) as (s' & E & Hp'). mrun E.
      destruct (Nat.ltb_spec (S g) (length all)) as [Hlt | Hge].
      * change (EPDK_OK =? EPDK_FAIL) with false. cbv iota. destruct (IH (i + 1) s' (S g) Hp') as (s2 & -> & Hp2).
        rewrite (proj2 (Nat.eqb_neq (S g) _)) in * by lia. rewrite Nat.add_succ_r in *. cbn [Nat.add] in *.
        exists s2. destruct (_ <? _)%nat; cbn [fst snd] in *; (split; [do 2 f_equal; lia | exact Hp2]).
      * change (EPDK_FAIL =? EPDK_FAIL) with true. cbv iota. rewrite (proj2 (Nat.ltb_ge _ _)) by lia.
        exists s'. cbn [fst snd]. replace (length all) with (S g) by lia. split; [change (Some (i, s') = Some (i + Z.of_nat (S g - 1 - g), s')); do 2 f_equal; lia | exact Hp'].
Qed.

Lemma backward_ok n : forall i s g, place s g -> exists s',
  backward_loop n i s = Some (i + Z.of_nat (n `min` g), s') /\ place s' (g - n).
Proof.
  induction n as [| n IH]; intros i s g Hp; cbn [backward_loop].
  - exists s. rewrite Z.add_0_r, Nat.sub_0_r. done.
  - destruct (move_to_prev_ok _ _ _ _ _ _ _ _ Hp) as (s' & E & Hp'). mrun E. destruct g as [| g].
    + exists s'. cbn. rewrite Z.add_0_r. done.
    + cbn [Nat.eqb]. change (EPDK_OK =? EPDK_FAIL) with false. cbv iota. destruct (IH (i + 1) s' g Hp') as (s2 & -> & Hp2). exists s2.
      split; [do 2 f_equal; lia | exact Hp2].
Qed.

Lemma cmd_ok c s g : place s g -> exists s', run_cmd mem_ok junk fs fuel c s = Some ((spec_cmd all c g).1, s') /\ place s' (spec_cmd all c g).2.
Proof.
  intros Hp. destruct c as [| n | n | |]; cbn [run_cmd spec_cmd].
  - destruct (move_to_first_ok _ _ _ _ _ _ _ _ Hp) as (s' & E & Hp'). mrun E. now exists s'.
  - destruct (forward_ok n 0 s g Hp) as (s' & E & Hp'). mrun E. exists s'. destruct (forward_spec _ _ _). done.
  - destruct (backward_ok n 0 s g Hp) as (s' & E & Hp'). mrun E. now exists s'.
  - destruct (get_current_place _ _ _ _ _ _ _ _ Hp) as (s' & E & Hp'). mrun E. now exists s'.
  - mrun (is_done_ok _ _ _ _ _ _ _ _ Hp). now exists s.
Qed.

Lemma cmds_ok cs : forall s g, place s g -> exists s', run_cmds mem_ok junk fs fuel cs s = Some (spec_cmds all cs g, s').
Proof.
  induction cs as [| c cs IH]; intros s g Hp; [now exists s |]. cbn [run_cmds spec_cmds].
  destruct (cmd_ok c s g Hp) as (s1 & E & Hp1). destruct (spec_cmd all c g) as [a g1]. mrun E.
  destruct (IH s1 g1 Hp1) as (s2 & E2). mrun E2. now exists s2.
Qed.

End Client.

(** ** Properties *)

(** C18: Scanning everything at once finds exactly the files of the tree whose suffix is wanted,
    in the order of the reference: the packed lists hold these entries, the counter is their
    number, and the stack of directories is empty again.  The tree is finite (no deeper
    than [depth], with less than 2^19 directories), its paths fit the buffers and memory is
    not exhausted; a directory that cannot be opened counts as empty. *)
Theorem scan_finds_all mem_ok junk fs types depth fuel root :
  (forall n, mem_ok n = true) -> tree_ok fs depth root -> Z.of_nat (ndirs fs depth root) < 2 ^ 19 -> (ndirs fs depth root < fuel)%nat ->
  exists s n ess, ScanFilesBegin mem_ok junk fs fuel root types 0 0 = Some (Some s, n) /\
    chain_ok (Lists s) ess /\ concat ess = visit fs types depth root /\
    CurCnt s = Z.of_nat (length (visit fs types depth root)) /\ repr (hStack s) [] /\ pCurDir s = None.
Proof.
  intros Hmem Hroot Hsize Hfuel.
  destruct (begin_all_ok mem_ok junk fs types Hmem depth fuel root 0 Hroot Hsize Hfuel) as (s & ess & n & E & [Hc Hr _ _] & Hcc & Hcnt & Hd & _).
  now exists s, n, ess.
Qed.

(** C21: The files are read the same way whether the scan collected them all first ([once] is 0)
    or looks for [once] more whenever the cursor runs out: every sequence of cursor calls gets the answers of an index
    moving over the files of the tree.  For the second way every directory must open ([unreadable_directory_ends_walk]);
    for the first, those that do not are left out.  Memory is not exhausted, and the tree fits the scanner: path
    lengths, fewer than 2^19 directories, fewer than 2^31 files. *)
Theorem scanner_refines mem_ok junk fs types depth fuel root once cs :
  (forall n, mem_ok n = true) -> tree_ok fs depth root -> Z.of_nat (ndirs fs depth root) < 2 ^ 19 -> (ndirs fs depth root < fuel)%nat ->
  Z.of_nat (length (visit fs types depth root)) < 2 ^ 31 -> 0 <= once -> (0 < once -> opens fs depth root = true) ->
  exists s n s', ScanFilesBegin mem_ok junk fs fuel root types once 0 = Some (Some s, n) /\
    run_cmds mem_ok junk fs fuel cs s = Some (spec_cmds (visit fs types depth root) cs 0, s').
Proof.
  intros Hmem Hroot Hsize Hfuel Hmax Hon Hop.
  destruct (begin_place mem_ok junk fs types Hmem depth fuel root 0 Hroot Hsize Hfuel Hmax once Hon Hop) as (s & n & E & Hp).
  destruct (cmds_ok mem_ok junk fs types Hmem depth fuel once _ Hmax cs s 0 Hp) as (s' & E'). now exists s, n, s'.
Qed.

(** A tree for the witnesses. *)
Definition demo_fs (p : list Z) : option (list dirent) :=
  if bool_decide (p = lit "/m") then
    Some [Dirent 8 (lit "a.mp3"); Dirent 4 (lit "."); Dirent 4 (lit ".."); Dirent 4 (lit "x"); Dirent 8 (lit "b.txt"); Dirent 4 (lit "y"); Dirent 8 (lit "c.MP4")]
  else if bool_decide (p = lit "/m/x") then Some [Dirent 8 (lit "d.mp3")]
  else if bool_decide (p = lit "/m/y") then Some [Dirent 8 (lit "e.wav"); Dirent 4 (lit "z")]
  else if bool_decide (p = lit "/m/y/z") then Some []
  else None.

(** The same with [/m/y/z] unreadable. *)
Definition demo_fs' (p : list Z) : option (list dirent) := if bool_decide (p = lit "/m/y/z") then None else demo_fs p.

Abbreviation mem := (fun _ : nat => true).
Abbreviation junk0 := (fun _ : nat => 205).
Definition demo_cmds : list cmd := [Current; Forward 2; Current; Backward 1; Current; Forward 5; Done; Current; Backward 1; Current; First; Current].

Lemma scan_finds_all_witness :
  visit demo_fs' MUSIC_SCAN_ALL 2 (lit "/m") = [(2, lit "/m/a.mp3"); (2, lit "/m/y/e.wav"); (2, lit "/m/x/d.mp3")] /\
  exists s n ess, ScanFilesBegin mem junk0 demo_fs' 5 (lit "/m") MUSIC_SCAN_ALL 0 0 = Some (Some s, n) /\
    chain_ok (Lists s) ess /\ concat ess = visit demo_fs' MUSIC_SCAN_ALL 2 (lit "/m") /\
    CurCnt s = Z.of_nat (length (visit demo_fs' MUSIC_SCAN_ALL 2 (lit "/m"))) /\ repr (hStack s) [] /\ pCurDir s = None.
Proof.
  split; [vm_compute; reflexivity |].
  apply (scan_finds_all mem junk0 demo_fs' MUSIC_SCAN_ALL 2 5 (lit "/m")); [easy | by_compute | by_compute | by_compute].
Defined.

Lemma scanner_refines_witness :
  exists s n s', ScanFilesBegin mem junk0 demo_fs 5 (lit "/m") MUSIC_SCAN_ALL 1 0 = Some (Some s, n) /\
    run_cmds mem junk0 demo_fs 5 demo_cmds s = Some (spec_cmds (visit demo_fs MUSIC_SCAN_ALL 2 (lit "/m")) demo_cmds 0, s').
Proof.
  apply (scanner_refines mem junk0 demo_fs MUSIC_SCAN_ALL 2 5 (lit "/m") 1 demo_cmds);
    [easy | by_compute | by_compute | by_compute | by_compute | lia | intros _; vm_compute; reflexivity].
Defined.

(** When a directory cannot be opened, the scan a few at a time stops in front of it: the
    file [d.mp3], which the scan of everything finds, is not reached. *)
Example unreadable_directory_ends_walk :
  (match ScanFilesBegin mem junk0 demo_fs' 5 (lit "/m") MUSIC_SCAN_ALL 1 0 with
   | Some (Some s, _) => fst <$> run_cmds mem junk0 demo_fs' 5 [Forward 1; Forward 1; Current] s
   | _ => None
   end) = Some [Moved 1; Moved 0; Found None].
Proof. vm_compute. reflexivity. Qed.

(** A first portion without files, one file after it: the cursor becomes [NULL] and the
    next call dereferences it. *)
Definition late_fs (p : list Z) : option (list dirent) :=
  if bool_decide (p = lit "/m") then Some [Dirent 4 (lit "x"); Dirent 4 (lit "y")]
  else if bool_decide (p = lit "/m/x") then Some [Dirent 8 (lit "d.mp3")]
  else None.

Example null_cursor :
  match ScanFilesBegin mem junk0 late_fs 5 (lit "/m") MUSIC_SCAN_ALL 1 0 with
  | Some (Some s, _) =>
      match ScanMoveToNext mem junk0 late_fs 5 s with
      | Some (r, s') => r = EPDK_OK /\ CurList (ScanCursor s') = None /\ ScanGetCurrent s' = None
      | None => False
      end
  | _ => False
  end.
Proof. vm_compute. done. Qed.
