(* ===== verification/Rat.v ===== *)
(** * Rat: the media lists and playlists of smartva

    Models [scan_file/rat/rat.c] and [rat_npl.c] over the scanner of [Scan]: the 26 places
    for opened lists with their counts of users, the playlist of each media type, the lookups
    by index and by path, and the play modes.  The scans live in a heap, so that a use after
    [ScanFree] is a fault.  The file system may change between calls.  The time decides what
    the first [rand] after [srand(time(0))] gives.  Messages and the progress callback are
    left out. *)
From Stdlib Require Import String.
From stdpp Require Import gmap.
From S2P Require Import Prelude CString Block ScanStack Scan.

#[local] Open Scope string_scope.
#[local] Open Scope list_scope.
#[local] Open Scope Z_scope.

(** ** State *)

Definition RAT_PLAY_MODE_ONLY_ONCE : Z := 0.
Definition RAT_PLAY_MODE_ROTATE_ONE : Z := 1.
Definition RAT_PLAY_MODE_ROTATE_ALL : Z := 2.
Definition RAT_PLAY_MODE_SEQUENCE : Z := 3.
Definition RAT_PLAY_MODE_RANDOM : Z := 4.
Definition RAT_MAX_LIST_CNT : nat := Z.to_nat (RAT_MEDIA_TYPE_MAX * 2).
Definition RAT_MAX_FULL_PATH_LEN : Z := 768 + 1.

Record rat_list := RatList {
  hscan : option nat;
  media_type : Z;
  str_path : list Z;
  open_cnt : Z;
  npl_cur_index : Z;
  NplCursor : cursor;
  play_mode : Z;
  modify_flag : Z;
}.

Definition zero_list : rat_list := RatList None 0 [] 0 0 (Cursor None 0) 0 0.

(** A handle: [NULL], a place of [g_rat_list], or [&g_null_rat_npl], whose [hscan] is 0. *)
Inductive handle := HNull | HList (i : nat) | HNullNpl.

#[global] Instance handle_eq_dec : EqDecision handle.
Proof. solve_decision. Defined.

Record world := World {
  g_rat_list : list rat_list;
  g_rat_npl : list (option nat);
  scans : gmap nat ScanInfo_t;
  mallocs : nat;
  locked : bool;
  has_init : bool;
  disk : list Z -> option (list dirent);
  now : Z;
}.

Definition with_list l (w : world) := World l (g_rat_npl w) (scans w) (mallocs w) (locked w) (has_init w) (disk w) (now w).
Definition with_npl l (w : world) := World (g_rat_list w) l (scans w) (mallocs w) (locked w) (has_init w) (disk w) (now w).
Definition with_scans m n (w : world) := World (g_rat_list w) (g_rat_npl w) m n (locked w) (has_init w) (disk w) (now w).
Definition with_lock b (w : world) := World (g_rat_list w) (g_rat_npl w) (scans w) (mallocs w) b (has_init w) (disk w) (now w).
Definition with_init b (w : world) := World (g_rat_list w) (g_rat_npl w) (scans w) (mallocs w) (locked w) b (disk w) (now w).
Definition with_disk d t (w : world) := World (g_rat_list w) (g_rat_npl w) (scans w) (mallocs w) (locked w) (has_init w) d t.

Definition boot d t : world := World (replicate RAT_MAX_LIST_CNT zero_list) (replicate (Z.to_nat RAT_MEDIA_TYPE_MAX) None) ∅ 0 false false d t.

(** [None] is a fault: a stale or [NULL] pointer, an index outside an array, a lock that is
    held, a division by zero, or a fault of the scanner. *)
Definition R (A : Type) : Type := world -> option (A * world).

#[global] Instance R_ret : MRet R := fun A x w => Some (x, w).
#[global] Instance R_bind : MBind R := fun A B k m w => match m w with Some (x, w') => k x w' | None => None end.

Definition rfault {A} : R A := fun _ => None.
Definition rget {A} (f : world -> A) : R A := fun w => Some (f w, w).
Definition rput (f : world -> world) : R unit := fun w => Some (tt, f w).
Definition rlift {A} (o : option A) : R A := fun w => match o with Some x => Some (x, w) | None => None end.

(** [RAT_ENTER_CRITICAL_SECTION], [RAT_LEAVE_CRITICAL_SECTION]. *)
Definition enter : R unit := fun w => if locked w then None else Some (tt, with_lock true w).
Definition leave {A} (x : A) : R A := fun w => Some (x, with_lock false w).

(** [g_rat_list[i]]. *)
Definition slot (i : nat) : R rat_list := l ← rget g_rat_list; rlift (l !! i).
Definition set_slot (i : nat) (f : rat_list -> rat_list) : R unit := s ← slot i; rput (fun w => with_list (<[i := f s]> (g_rat_list w)) w).

Definition npl (t : Z) : R (option nat) := l ← rget g_rat_npl; if 0 <=? t then rlift (l !! Z.to_nat t) else rfault.
Definition set_npl (t : Z) (o : option nat) : R unit := npl t;; rput (fun w => with_npl (<[Z.to_nat t := o]> (g_rat_npl w)) w).

Definition with_hscan h (s : rat_list) := RatList h (media_type s) (str_path s) (open_cnt s) (npl_cur_index s) (NplCursor s) (play_mode s) (modify_flag s).
Definition with_media t (s : rat_list) := RatList (hscan s) t (str_path s) (open_cnt s) (npl_cur_index s) (NplCursor s) (play_mode s) (modify_flag s).
Definition with_str p (s : rat_list) := RatList (hscan s) (media_type s) p (open_cnt s) (npl_cur_index s) (NplCursor s) (play_mode s) (modify_flag s).
Definition with_open n (s : rat_list) := RatList (hscan s) (media_type s) (str_path s) n (npl_cur_index s) (NplCursor s) (play_mode s) (modify_flag s).
Definition with_index n (s : rat_list) := RatList (hscan s) (media_type s) (str_path s) (open_cnt s) n (NplCursor s) (play_mode s) (modify_flag s).
Definition with_nplcursor c (s : rat_list) := RatList (hscan s) (media_type s) (str_path s) (open_cnt s) (npl_cur_index s) c (play_mode s) (modify_flag s).
Definition with_mode m (s : rat_list) := RatList (hscan s) (media_type s) (str_path s) (open_cnt s) (npl_cur_index s) (NplCursor s) m (modify_flag s).
Definition with_modify b (s : rat_list) := RatList (hscan s) (media_type s) (str_path s) (open_cnt s) (npl_cur_index s) (NplCursor s) (play_mode s) b.

Section Rat.

Variables (mem_ok : nat -> bool) (junk : nat -> Z) (fuel : nat).
(** The first number [rand] gives after [srand]. *)
Variable rand : Z -> Z.

(** A computation on a scan; the number of allocations is that of the program. *)
Definition on_scan {A} (id : nat) (m : M A) : R A := fun w =>
  match scans w !! id with
  | None => None
  | Some s =>
      match m (with_allocs (mallocs w) s) with
      | None => None
      | Some (x, s') => Some (x, with_scans (<[id := s']> (scans w)) (allocs s') w)
      end
  end.

(** [ScanFree]. *)
Definition ScanFree (id : nat) : R unit := fun w =>
  match scans w !! id with None => None | Some _ => Some (tt, with_scans (delete id (scans w)) (mallocs w) w) end.

Definition fresh_id (w : world) : nat := base.fresh (dom (scans w) : gset nat).

(** [ScanFilesBegin]; the new scan gets an address that is not in use. *)
Definition scan_begin (pDir : list Z) (types once : Z) : R (option nat) := fun w =>
  match ScanFilesBegin mem_ok junk (disk w) fuel pDir types once (mallocs w) with
  | None => None
  | Some (None, n) => Some (None, with_scans (scans w) n w)
  | Some (Some s, n) => let id := fresh_id w in Some (Some id, with_scans (<[id := s]> (scans w)) n w)
  end.

(** ** Opening and closing *)

(** The first place the test holds of. *)
Fixpoint find_slot (f : rat_list -> bool) (l : list rat_list) : option nat :=
  match l with [] => None | s :: l => if f s then Some O else S <$> find_slot f l end.

(** What a scan looks for; [None] for the types that cannot be opened. *)
Definition file_types (t : Z) : option Z :=
  if RAT_MEDIA_TYPE_PIC =? t then Some PHOTO_SCAN_ALL
  else if RAT_MEDIA_TYPE_VIDEO =? t then Some MOVIE_SCAN_ALL
  else if RAT_MEDIA_TYPE_AUDIO =? t then Some MUSIC_SCAN_ALL
  else if RAT_MEDIA_TYPE_EBOOK =? t then Some EBOOK_SCAN_ALL
  else if RAT_MEDIA_TYPE_ALL =? t then Some 0
  else if RAT_MEDIA_TYPE_VIDEO_AND_AUDIO =? t then Some (Z.lor MOVIE_SCAN_ALL MUSIC_SCAN_ALL)
  else if RAT_MEDIA_TYPE_VIDEO_AND_PIC =? t then Some (Z.lor MOVIE_SCAN_ALL PHOTO_SCAN_ALL)
  else None.

(** The end of [rat_open]: the place [i] gets the scan [id]. *)
Definition open_fill (pDir : list Z) (t : Z) (research npl_update : bool) (id i : nat) : R handle :=
  on_scan id ScanMoveToFirst;;
  set_slot i (with_hscan (Some id));;
  set_slot i (with_media t);;
  set_slot i (fun s => with_open (if research then s32 (open_cnt s + 1) else 1) s);;
  set_slot i (fun s => if open_cnt s <? 1 then with_open 1 s else s);;
  (if Z.of_nat (List.length pDir) <? RAT_MAX_FULL_PATH_LEN then set_slot i (with_str pDir) else rfault);;
  (if npl_update then
     total_cnt ← on_scan id ScanGetCurCnt;
     set_slot i (fun s => if total_cnt - 1 <? npl_cur_index s then with_index (total_cnt - 1) s else s);;
     set_slot i (fun s => if npl_cur_index s <? 0 then with_index 0 s else s)
   else set_slot i (with_index 0));;
  leave (HList i).

(** The second half of [rat_open]; [research] is the place of a list that is scanned again,
    with whether its playlist must follow. *)
Definition open_search (pDir : list Z) (t once : Z) (research : option nat) (npl_update : bool) : R handle :=
  match file_types t with
  | None => leave HNull
  | Some types =>
      h ← scan_begin pDir types once;
      match h with
      | None => leave HNull
      | Some id =>
          l ← rget g_rat_list;
          match (match research with Some i => Some i | None => find_slot (fun s => bool_decide (hscan s = None) && (open_cnt s =? 0)) l end) with
          | None => ScanFree id;; leave HNull
          | Some i => open_fill pDir t (negb (bool_decide (research = None))) npl_update id i
          end
      end
  end.

(** A place is given back. *)
Definition clear_slot (s : rat_list) : rat_list := with_modify 0 (with_str [] (with_open 0 (with_hscan None s))).

Definition rat_open (pDir : list Z) (t once : Z) : R handle :=
  enter;;
  l ← rget g_rat_list;
  match find_slot (fun s => bool_decide (pDir = str_path s) && (t =? media_type s)) l with
  | None => open_search pDir t once None false
  | Some i =>
      s ← slot i;
      if open_cnt s =? 0 then leave HNull else
      match hscan s with
      | None => leave HNull
      | Some id =>
          if modify_flag s =? 0 then
            set_slot i (fun s => with_open (s32 (open_cnt s + 1)) s);;
            on_scan id ScanMoveToFirst;;
            leave (HList i)
          else
            p ← npl t;
            ScanFree id;;
            set_slot i clear_slot;;
            open_search pDir t once (Some i) (bool_decide (p = Some i))
      end
  end.

(** [0 == pRatList || 0 == pRatList->hscan]: the scan behind a handle. *)
Definition scan_of (h : handle) : R (option nat) :=
  match h with HList i => s ← slot i; mret (hscan s) | _ => mret None end.

Definition rat_close (h : handle) : R Z :=
  sc ← scan_of h;
  match h, sc with
  | HList j, Some id =>
      enter;;
      l ← rget g_rat_list;
      match find_slot (fun s => bool_decide (hscan s = Some id)) l with
      | None => leave (-1)
      | Some i =>
          set_slot i (fun s => with_open (s32 (open_cnt s - 1)) s);;
          s ← slot i;
          (if open_cnt s =? 0 then
             ScanFree id;;
             set_slot i clear_slot;;
             p ← npl (media_type s);
             if bool_decide (p = Some j) then set_npl (media_type s) None else mret tt
           else mret tt);;
          leave 0
      end
  | _, _ => mret (-1)
  end.

(** ** Moving over an open list *)

Definition rat_move_cursor_to_first (h : handle) : R Z :=
  sc ← scan_of h;
  match sc with None => mret (-1) | Some id => enter;; ret ← on_scan id ScanMoveToFirst; leave ret end.

Definition rat_move_cursor_forward (h : handle) (cnt : nat) : R Z :=
  sc ← scan_of h;
  match sc with
  | None => mret 0
  | Some id => enter;; d ← rget disk; i ← on_scan id (forward_loop mem_ok junk d fuel cnt 0); leave i
  end.

Definition rat_move_cursor_backward (h : handle) (cnt : nat) : R Z :=
  sc ← scan_of h;
  match sc with None => mret 0 | Some id => enter;; i ← on_scan id (backward_loop cnt 0); leave i end.

Definition rat_is_cursor_end (h : handle) : R Z :=
  sc ← scan_of h;
  match sc with None => mret (-1) | Some id => enter;; b ← on_scan id ScanIsDone; leave (if (b : bool) then 1 else 0) end.

Definition rat_get_cur_item_info (h : handle) : R (Z * option (Z * list Z)) :=
  sc ← scan_of h;
  match sc with
  | None => mret (EPDK_FAIL, None)
  | Some id =>
      enter;; e ← on_scan id ScanGetCurrent;
      leave (match e with Some _ => (EPDK_OK, e) | None => (EPDK_FAIL, None) end)
  end.

Definition rat_get_cur_scan_cnt (h : handle) : R Z :=
  sc ← scan_of h;
  match sc with None => mret 0 | Some id => enter;; c ← on_scan id ScanGetCurCnt; leave (u32 c) end.

(** [while (n < index)] with the cursor moving; the moves made. *)
Fixpoint move_n (turns : nat) (n : Z) (c : cursor) : M (Z * cursor) :=
  match turns with
  | O => mret (n, c)
  | S turns => '(r, c) ← ScanMoveCursorToNext c; if negb (r =? EPDK_OK) then mret (n, c) else move_n turns (n + 1) c
  end.

(** The entry at an index, and the cursor left. *)
Definition entry_by_index (index : Z) : M (option (option (Z * list Z)) * cursor) :=
  '(n, c) ← move_n (Z.to_nat index) 0 first_cursor;
  if n =? index then '(e, c) ← ScanGetCurrentCursorData c; mret (Some e, c) else mret (None, c).

Definition rat_get_item_info_by_index (h : handle) (index : Z) : R (Z * option (Z * list Z)) :=
  match h with HNull => mret (EPDK_FAIL, None) | _ =>
    enter;;
    sc ← scan_of h;
    match sc with
    | None => leave (EPDK_FAIL, None)
    | Some id =>
        cnt ← on_scan id ScanGetCurCnt;
        if (cnt <=? 0) || (cnt <=? index) then leave (EPDK_FAIL, None) else
        '(e, c) ← on_scan id (entry_by_index index);
        on_scan id (put (with_tmp c));;
        leave (match e with Some (Some x) => (EPDK_OK, Some x) | _ => (EPDK_FAIL, None) end)
    end
  end.

(** ** Playlists *)

Definition rat_npl_open (t : Z) : R handle :=
  enter;; p ← npl t; match p with Some i => leave (HList i) | None => leave HNullNpl end.

Definition rat_npl_close (h : handle) : R Z := mret (match h with HNullNpl => -1 | _ => EPDK_OK end).

(** The opening of every playlist function: the place and the scan, under the lock; [dflt]
    is returned for [NULL] or without a scan, -1 for the null playlist. *)
Definition with_playlist {A} (h : handle) (dflt null : A) (f : nat -> nat -> R A) : R A :=
  match h with
  | HNull => mret dflt
  | HNullNpl => mret null
  | HList i =>
      enter;;
      s ← slot i;
      match hscan s with None => leave dflt | Some id => f i id end
  end.

(** The [do] loop: the comparison of the path and the move; one turn per file. *)
Fixpoint file2index_loop (turns : nat) (path : list Z) (index : Z) (c : cursor) : M (Z * cursor) :=
  match turns with
  | O => fault
  | S turns =>
      '(e, c) ← ScanGetCurrentCursorData c;
      match e with
      | None => mret (-1, c)
      | Some (_, name) =>
          if bool_decide (path = name) then mret (index, c) else
          '(r, c) ← ScanMoveCursorToNext c;
          if r =? EPDK_OK then file2index_loop turns path (s32 (index + 1)) c else mret (-1, c)
      end
  end.

Definition rat_npl_file2index (h : handle) (path : list Z) : R Z :=
  with_playlist h (-1) (-1) (fun i id =>
    cnt ← on_scan id ScanGetCurCnt;
    if cnt <=? 0 then leave (-1) else
    '(r, c) ← on_scan id (file2index_loop (Z.to_nat cnt) path 0 first_cursor);
    set_slot i (with_nplcursor c);;
    leave r).

(** The code, and what is stored in [file]: [Some []] for an empty string, [None] nothing. *)
Definition rat_npl_index2file (h : handle) (index : Z) : R (Z * option (list Z)) :=
  with_playlist h (EPDK_FAIL, None) (-1, None) (fun i id =>
    cnt ← on_scan id ScanGetCurCnt;
    if (cnt <=? 0) || (u32 cnt <=? index) then leave (EPDK_FAIL, None) else
    '(e, c) ← on_scan id (entry_by_index index);
    set_slot i (with_nplcursor c);;
    leave (match e with Some (Some (_, name)) => (EPDK_OK, Some name) | _ => (EPDK_FAIL, Some []) end)).

(** [srand(time(0)); rand() % max] on [__u32]. *)
Definition rat_random (max : Z) : R Z :=
  t ← rget now; if u32 max =? 0 then rfault else mret (u32 (rand t) mod u32 max).

(** The new current index and the result, by the play mode. *)
Definition next_index (mode cur cnt : Z) : R (Z * Z) :=
  if mode =? RAT_PLAY_MODE_ONLY_ONCE then mret ((if cur =? -1 then 0 else cur), -1)
  else if mode =? RAT_PLAY_MODE_ROTATE_ONE then let c := (if cur =? -1 then 0 else cur) in mret (c, c)
  else if mode =? RAT_PLAY_MODE_ROTATE_ALL then let c := (if cur <? cnt - 1 then cur + 1 else 0) in mret (c, c)
  else if mode =? RAT_PLAY_MODE_SEQUENCE then let c := (if cur <? cnt - 1 then cur + 1 else -1) in mret (c, c)
  else
    r ← rat_random cnt;
    let c := s32 r in
    let c := (if c <? 0 then 0 else c) in
    let c := (if cnt - 1 <? c then cnt - 1 else c) in
    mret (c, c).

Definition prev_index (mode cur cnt : Z) : R (Z * Z) :=
  if mode =? RAT_PLAY_MODE_ONLY_ONCE then mret (cur, -1)
  else if mode =? RAT_PLAY_MODE_ROTATE_ONE then let c := (if cur =? -1 then 0 else cur) in mret (c, c)
  else if (mode =? RAT_PLAY_MODE_ROTATE_ALL) || (mode =? RAT_PLAY_MODE_SEQUENCE) then
    let c := s32 (cur - 1) in if c <? 0 then mret (0, -1) else mret (c, c)
  else r ← rat_random (cnt - 1); let c := s32 r in mret (c, c).

(** [CurCnt <= 0 || npl_cur_index >= CurCnt]: no result. *)
Definition with_index_of (h : handle) (f : Z -> Z -> Z -> R (Z * Z)) : R Z :=
  with_playlist h (-1) (-1) (fun i id =>
    cnt ← on_scan id ScanGetCurCnt;
    s ← slot i;
    if (cnt <=? 0) || (cnt <=? npl_cur_index s) then leave (-1) else
    '(c, n) ← f (play_mode s) (npl_cur_index s) cnt;
    set_slot i (with_index c);;
    leave n).

Definition rat_npl_get_next (h : handle) : R Z := with_index_of h next_index.
Definition rat_npl_get_prev (h : handle) : R Z := with_index_of h prev_index.
Definition rat_npl_get_cur (h : handle) : R Z := with_index_of h (fun _ cur _ => mret (cur, cur)).

Definition rat_npl_set_cur (h : handle) (index : Z) : R Z :=
  with_playlist h (-1) (-1) (fun i id =>
    cnt ← on_scan id ScanGetCurCnt;
    if (cnt <=? 0) || (cnt <=? index) then leave (-1) else
    set_slot i (with_index index);;
    leave EPDK_OK).

Definition rat_npl_set_play_mode (h : handle) (mode : Z) : R Z :=
  with_playlist h EPDK_FAIL (-1) (fun i _ => set_slot i (with_mode mode);; leave EPDK_OK).

Definition rat_npl_get_play_mode (h : handle) : R Z :=
  with_playlist h RAT_PLAY_MODE_ONLY_ONCE (-1) (fun i _ => s ← slot i; leave (play_mode s)).

Definition rat_npl_get_total_count (h : handle) : R Z :=
  with_playlist h (-1) (-1) (fun _ id => cnt ← on_scan id ScanGetCurCnt; leave cnt).

Definition rat_set_file_for_play (h : handle) (file : list Z) : R Z :=
  sc ← scan_of h;
  match h, sc with
  | HList i, Some _ =>
      enter;;
      s ← slot i;
      set_npl (media_type s) (Some i);;
      leave tt;;
      s ← slot i;
      hnpl ← rat_npl_open (media_type s);
      ret ← rat_npl_file2index hnpl file;
      rat_npl_set_cur hnpl (if ret =? -1 then 0 else ret);;
      rat_npl_close hnpl;;
      mret 0
  | _, _ => mret (-1)
  end.

(** ** Start, end, changes of the disk *)

(** [SLIB_strnicmp]: the loop stops with the number of characters still to compare. *)
Fixpoint strnicmp_loop (p1 p2 : list Z) (n : nat) : list Z * list Z * nat :=
  match n, p1, p2 with
  | S n', x :: p1', y :: p2' => if SLIB_toupper x =? SLIB_toupper y then strnicmp_loop p1' p2' n' else (p1, p2, n)
  | _, _, _ => (p1, p2, n)
  end.
Definition SLIB_strnicmp (p1 p2 : list Z) (len_max : nat) : Z :=
  match len_max with
  | O => 0
  | _ =>
      let '(p1, p2, rest) := strnicmp_loop p1 p2 len_max in
      match rest with
      | O => 0
      | _ =>
          if negb (char_at p1 0 =? char_at p2 0) then SLIB_toupper (char_at p1 0) - SLIB_toupper (char_at p2 0)
          else if char_at p1 0 =? 0 then 0
          else SLIB_toupper (char_at p1 1)
      end
  end.

(** Playlists, then places, whose root directory fits. *)
Fixpoint clear_npls (fits : rat_list -> bool) (n : nat) (t : Z) : R unit :=
  match n with
  | O => mret tt
  | S n =>
      p ← npl t;
      (match p with Some i => s ← slot i; if fits s then set_npl t None else mret tt | None => mret tt end);;
      clear_npls fits n (t + 1)
  end.
Fixpoint clear_slots (fits : rat_list -> bool) (n i : nat) : R unit :=
  match n with
  | O => mret tt
  | S n =>
      s ← slot i;
      (match hscan s with Some id => if fits s then ScanFree id;; set_slot i clear_slot else mret tt | None => mret tt end);;
      clear_slots fits n (S i)
  end.
Definition clear_lists (fits : rat_list -> bool) : R Z :=
  enter;; clear_npls fits (Z.to_nat RAT_MEDIA_TYPE_MAX) 0;; clear_slots fits RAT_MAX_LIST_CNT 0;; leave 0.

(** [str_cur] holds one character of [arg]. *)
Definition rat_clear_all_list_by_root (arg : Z) : R Z :=
  let str_cur := if arg =? 0 then [] else [arg] in
  clear_lists (fun s => SLIB_strnicmp str_cur (str_path s) 1 =? 0).
Definition rat_clear_all_list : R Z := clear_lists (fun _ => true).

Definition rat_init : R Z :=
  b ← rget has_init;
  if (b : bool) then mret EPDK_OK else
  rput (with_lock false);;
  rput (with_list (replicate RAT_MAX_LIST_CNT zero_list));;
  rput (with_init true);; mret EPDK_OK.

Definition rat_deinit : R Z :=
  b ← rget has_init;
  if negb b then mret EPDK_OK else
  rat_clear_all_list;; rput (with_init false);; mret EPDK_OK.

(** [__ValidFileType] stores the format in [media_type]. *)
Definition rat_get_file_type (file_name : list Z) : Z := default RAT_MEDIA_TYPE_UNKNOWN (ValidFileType file_name 0).

Fixpoint set_modify (fits : rat_list -> bool) (b : Z) (n i : nat) : R unit :=
  match n with
  | O => mret tt
  | S n =>
      s ← slot i;
      (if negb (bool_decide (hscan s = None)) && fits s then set_slot i (with_modify b) else mret tt);;
      set_modify fits b n (S i)
  end.
Definition rat_set_modify_flag (t b : Z) : R Z := enter;; set_modify (fun s => t =? media_type s) b RAT_MAX_LIST_CNT 0;; leave EPDK_OK.
Definition rat_set_modify_flag_all (b : Z) : R Z := enter;; set_modify (fun _ => true) b RAT_MAX_LIST_CNT 0;; leave EPDK_OK.

End Rat.
