(* ===== verification/RatRun.v ===== *)
(** * RatRun: the lists stay consistent, the playlists play

    [winv]: the places, the scans in use and the playlists agree, the lock is free, and every
    open list is completely scanned (the middleware opens them so).  Every call keeps this
    and runs to its end; what the lookups and the play modes return is computed from the list
    of the files. *)
From Stdlib Require Import String.
From stdpp Require Import gmap.
From S2P Require Import Prelude CString Block ScanStack Scan ScanList ScanRun Rat.

#[local] Open Scope string_scope.
#[local] Open Scope list_scope.
#[local] Open Scope Z_scope.

(** ** Completely scanned lists *)

(** The entries of the lists, the cursor at [g] of them, nothing left to scan. *)
Definition settled (s : ScanInfo_t) (all : list entry) (g : nat) : Prop :=
  exists ess, chain_ok (Lists s) ess /\ concat ess = all /\ CurCnt s = Z.of_nat (length all) /\ Z.of_nat (length all) < 2 ^ 31 /\
    repr (hStack s) [] /\ pCurDir s = None /\ OnceCnt s = 0 /\
    (on ess (ScanCursor s) g \/ (g = length all /\ at_ ess (ScanCursor s) g)).

Lemma settled_place fs fuel s all g : (0 < fuel)%nat -> settled s all g -> place fs (ScanTypes s) 0 fuel 0 all s g.
Proof.
  intros Hf (ess & Hc & Hcc & Hcnt & _ & Hr & Hd & Ho & Hp).
  assert (scanning fs (ScanTypes s) 0 s ess [] []) as Hsc.
  { split; [split; [exact Hc | exact Hr | | reflexivity] | split; [constructor | now rewrite Hd]].
    destruct Hr as (_ & _ & _ & _ & Ha & _). unfold budget. rewrite Hd. change (pushes fs 0 []) with 0%nat. lia. }
  exists ess, [], []. rewrite app_nil_r, Hcc. split_and!; try done; [now right | unfold todo; rewrite Hd; cbn; lia |].
  destruct Hp as [Hp | [-> Hp]]; [now left | right; done].
Qed.

Lemma place_settled fs types depth fuel s all g : place fs types depth fuel 0 all s g -> Z.of_nat (length all) < 2 ^ 31 -> settled s all g.
Proof.
  intros (ess & st & P & Hsc & -> & [Ho [Hx | Hx]] & Hf & Hcnt & Hp) Hmax; [lia |].
  pose proof (exhausted_nothing _ _ _ _ _ _ _ Hsc Hx) as ->. rewrite app_nil_r in *. destruct Hsc as [[Hc Hr _ _] _]. destruct Hx as [-> Hd].
  exists ess. split_and!; try done. destruct Hp as [Hp | (-> & Hp & _)]; [now left | right; done].
Qed.

Lemma settled_allocs s all g n : settled s all g -> settled (with_allocs n s) all g.
Proof. done. Qed.
Lemma settled_tmp s all g c : settled s all g -> settled (with_tmp c s) all g.
Proof. done. Qed.
Lemma settled_cnt s all g : settled s all g -> CurCnt s = Z.of_nat (length all) /\ Z.of_nat (length all) < 2 ^ 31.
Proof. intros (ess & _ & _ & H1 & H2 & _). done. Qed.

(** ** Total correctness of a call *)

Definition wp {A} (m : R A) (Q : A -> world -> Prop) (w : world) : Prop :=
  match m w with Some (x, w') => Q x w' | None => False end.

Lemma wpr_bind {A B} (m : R A) (k : A -> R B) Q w : wp m (fun x w' => wp (k x) Q w') w -> wp (m ≫= k) Q w.
Proof. unfold wp, mbind, R_bind. now destruct (m w) as [[x w'] |]. Qed.
Lemma wpr_ret {A} (x : A) (Q : A -> world -> Prop) w : Q x w -> wp (mret x) Q w.
Proof. done. Qed.
Lemma wpr_get {A} (f : world -> A) (Q : A -> world -> Prop) w : Q (f w) w -> wp (rget f) Q w.
Proof. done. Qed.
Lemma wpr_put f (Q : unit -> world -> Prop) w : Q tt (f w) -> wp (rput f) Q w.
Proof. done. Qed.
Lemma wpr_leave {A} (x : A) (Q : A -> world -> Prop) w : Q x (with_lock false w) -> wp (leave x) Q w.
Proof. done. Qed.
Lemma wpr_mono {A} (m : R A) (Q Q' : A -> world -> Prop) w : wp m Q w -> (forall x w', Q x w' -> Q' x w') -> wp m Q' w.
Proof. unfold wp. destruct (m w) as [[x w'] |]; auto. Qed.
Lemma wpr_run {A} (m : R A) (Q : A -> world -> Prop) w : wp m Q w -> exists x w', m w = Some (x, w') /\ Q x w'.
Proof. unfold wp. destruct (m w) as [[x w'] |]; [eauto | easy]. Qed.

(** ** The invariant *)

(** An open list has users and a scan; a closed one has neither. *)
Definition slot_ok (S : gmap nat ScanInfo_t) (b : Z) (s : rat_list) : Prop :=
  0 <= open_cnt s <= b /\
  match hscan s with
  | Some id => (0 < open_cnt s /\ file_types (media_type s) <> None) /\ exists sc all g, S !! id = Some sc /\ settled sc all g
  | None => open_cnt s = 0 /\ str_path s = []
  end.

(** The places [L], the playlists [N] and the scans in use [S]; [b] bounds the number of
    users of a list. *)
Record consistent (L : list rat_list) (N : list (option nat)) (S : gmap nat ScanInfo_t) (b : Z) : Prop := Consistent {
  winv_lists : length L = RAT_MAX_LIST_CNT;
  winv_npls : length N = Z.to_nat RAT_MEDIA_TYPE_MAX;
  winv_slots : forall i s, L !! i = Some s -> slot_ok S b s;
  winv_once : forall i j s t id, L !! i = Some s -> L !! j = Some t -> hscan s = Some id -> hscan t = Some id -> i = j;
  winv_used : forall id, is_Some (S !! id) -> exists i s, L !! i = Some s /\ hscan s = Some id;
  winv_playlists : forall t i, N !! t = Some (Some i) -> exists s, L !! i = Some s /\ hscan s <> None /\ media_type s = Z.of_nat t;
}.

(** Of a world, apart from the lock. *)
Definition winv (w : world) (b : Z) : Prop := consistent (g_rat_list w) (g_rat_npl w) (scans w) b.

(** Fields that do not matter to the invariant. *)
Definition alike (s s' : rat_list) : Prop :=
  hscan s' = hscan s /\ media_type s' = media_type s /\ open_cnt s' = open_cnt s /\ str_path s' = str_path s.

Lemma winv_mono w b b' : b <= b' -> winv w b -> winv w b'.
Proof. intros Hb [H1 H2 H3 H4 H5 H6]. split; try assumption. intros i s Hs. destruct (H3 i s Hs) as [? ?]. split; [lia | assumption]. Qed.

Lemma winv_lock w b l : winv (with_lock l w) b <-> winv w b.
Proof. done. Qed.

Lemma lookup_update {A} (l : list A) i j x y : <[i := x]> l !! j = Some y -> (i = j /\ y = x /\ (i < length l)%nat) \/ (i <> j /\ l !! j = Some y).
Proof.
  intros H. destruct (decide (i = j)) as [<- | Hne]; [left | right; now rewrite list_lookup_insert_ne in H].
  pose proof (lookup_lt_Some _ _ _ H) as Hl. rewrite length_insert in Hl. rewrite list_lookup_insert_eq in H by exact Hl. split_and!; congruence.
Qed.

Lemma update_lookup {A} (l : list A) i j x s : l !! i = Some s -> (exists y, <[i := x]> l !! j = Some y /\ (i = j -> y = x) /\ (i <> j -> l !! j = Some y)) \/ l !! j = None.
Proof.
  intros Hi. destruct (decide (i = j)) as [<- | Hne].
  - left. exists x. rewrite list_lookup_insert_eq by (eapply lookup_lt_Some; exact Hi). done.
  - destruct (l !! j) as [y |] eqn:E; [left; exists y; now rewrite list_lookup_insert_ne | now right].
Qed.

Lemma winv_alike w b i s s' : winv w b -> g_rat_list w !! i = Some s -> alike s s' -> winv (with_list (<[i := s']> (g_rat_list w)) w) b.
Proof.
  intros [H1 H2 H3 H4 H5 H6] Hi (E1 & E2 & E3 & E4).
  assert (forall j t, <[i := s']> (g_rat_list w) !! j = Some t -> exists t0, g_rat_list w !! j = Some t0 /\ alike t0 t) as Hback.
  { intros j t Hj. apply lookup_update in Hj as [(<- & -> & _) | [_ Hj]]; [now exists s | now exists t]. }
  assert (forall j t0, g_rat_list w !! j = Some t0 -> exists t, <[i := s']> (g_rat_list w) !! j = Some t /\ alike t0 t) as Hforth.
  { intros j t0 Hj. destruct (decide (i = j)) as [<- | Hne].
    - exists s'. rewrite list_lookup_insert_eq by (eapply lookup_lt_Some; exact Hi). now replace t0 with s by congruence.
    - exists t0. now rewrite list_lookup_insert_ne. }
  split; cbn [g_rat_list g_rat_npl scans with_list].
  - now rewrite length_insert.
  - exact H2.
  - intros j t Hj. destruct (Hback j t Hj) as (t0 & Hj0 & A1 & A2 & A3 & A4). unfold slot_ok. rewrite A1, A2, A3, A4. exact (H3 j t0 Hj0).
  - intros j k t u id Hj Hk Et Eu. destruct (Hback j t Hj) as (t0 & Hj0 & A1 & _). destruct (Hback k u Hk) as (u0 & Hk0 & B1 & _).
    apply (H4 j k t0 u0 id); congruence.
  - intros id Hid. destruct (H5 id Hid) as (j & t & Hj & Et). destruct (Hforth j t Hj) as (t' & Hj' & A1 & _). exists j, t'. split; congruence.
  - intros t j Hj. destruct (H6 t j Hj) as (u & Hu & Hne & Em). destruct (Hforth j u Hu) as (u' & Hu' & A1 & A2 & _). exists u'. rewrite A1, A2. done.
Qed.

(** ** Rules *)

Lemma wpr_enter Q w : locked w = false -> Q tt (with_lock true w) -> wp enter Q w.
Proof. intros H HQ. unfold wp, enter. now rewrite H. Qed.

Lemma wpr_slot i s Q w : g_rat_list w !! i = Some s -> Q s w -> wp (slot i) Q w.
Proof. intros H HQ. unfold wp, slot, mbind, R_bind, rget, rlift. now rewrite H. Qed.

Lemma wpr_set_slot i f s (Q : unit -> world -> Prop) w : g_rat_list w !! i = Some s -> Q tt (with_list (<[i := f s]> (g_rat_list w)) w) -> wp (set_slot i f) Q w.
Proof. intros H HQ. unfold set_slot. apply wpr_bind, (wpr_slot i s); [exact H | exact HQ]. Qed.

Lemma wpr_npl t o Q w : 0 <= t -> g_rat_npl w !! Z.to_nat t = Some o -> Q o w -> wp (npl t) Q w.
Proof. intros Ht H HQ. unfold wp, npl, mbind, R_bind, rget, rlift. rewrite (proj2 (Z.leb_le _ _)) by exact Ht. now rewrite H. Qed.

Lemma wpr_set_npl t o o' (Q : unit -> world -> Prop) w : 0 <= t -> g_rat_npl w !! Z.to_nat t = Some o ->
  Q tt (with_npl (<[Z.to_nat t := o']> (g_rat_npl w)) w) -> wp (set_npl t o') Q w.
Proof. intros Ht H HQ. unfold set_npl. apply wpr_bind, (wpr_npl t o); [exact Ht | exact H | exact HQ]. Qed.

Lemma wpr_scan {A} id (m : M A) sc x sc' Q w : scans w !! id = Some sc -> m (with_allocs (mallocs w) sc) = Some (x, sc') ->
  Q x (with_scans (<[id := sc']> (scans w)) (allocs sc') w) -> wp (on_scan id m) Q w.
Proof. intros H1 H2 HQ. unfold wp, on_scan. now rewrite H1, H2. Qed.

Lemma live w b i s id : winv w b -> g_rat_list w !! i = Some s -> hscan s = Some id ->
  0 < open_cnt s <= b /\ exists sc all g, scans w !! id = Some sc /\ settled sc all g.
Proof. intros H Hi Hid. destruct (winv_slots _ _ _ _ H i s Hi) as [Hb Hs]. rewrite Hid in Hs. destruct Hs as [[Hp _] Hs]. split; [lia | exact Hs]. Qed.

Lemma winv_scan w b id sc sc' n all g : winv w b -> scans w !! id = Some sc -> settled sc' all g ->
  winv (with_scans (<[id := sc']> (scans w)) n w) b.
Proof.
  intros [H1 H2 H3 H4 H5 H6] Hid Hs. split; cbn [g_rat_list g_rat_npl scans with_scans]; try assumption.
  - intros i s Hi. destruct (H3 i s Hi) as [Hb Hsl]. split; [exact Hb |]. destruct (hscan s) as [id' |]; [| exact Hsl].
    destruct Hsl as [Hp (sc0 & all0 & g0 & E0 & Hset)]. split; [exact Hp |]. cbn [scans with_scans]. destruct (decide (id = id')) as [<- | Hne].
    + exists sc', all, g. now rewrite lookup_insert_eq.
    + exists sc0, all0, g0. now rewrite lookup_insert_ne.
  - intros id' Hid'. apply H5. destruct (decide (id = id')) as [<- | Hne]; [now exists sc | now rewrite lookup_insert_ne in Hid'].
Qed.

(** Ready for the next call. *)
Definition ready (b : Z) (w : world) : Prop := winv w b /\ locked w = false.

Definition handle_ok (h : handle) : Prop := match h with HList i => (i < RAT_MAX_LIST_CNT)%nat | _ => True end.

Lemma handle_slot w b i : winv w b -> (i < RAT_MAX_LIST_CNT)%nat -> exists s, g_rat_list w !! i = Some s.
Proof. intros H Hi. apply lookup_lt_is_Some_2. now rewrite (winv_lists _ _ _ _ H). Qed.

Lemma wpr_scan_of w b h (Q : option nat -> world -> Prop) : winv w b -> handle_ok h -> Q None w ->
  (forall i s id, h = HList i -> g_rat_list w !! i = Some s -> hscan s = Some id -> Q (Some id) w) -> wp (scan_of h) Q w.
Proof.
  intros H Hh Hn Hs. destruct h as [| i |]; cbn [scan_of]; [exact Hn | | exact Hn].
  destruct (handle_slot w b i H Hh) as [s Es]. apply wpr_bind, (wpr_slot i s); [exact Es |]. apply wpr_ret.
  destruct (hscan s) as [id |] eqn:E; [exact (Hs i s id eq_refl Es E) | exact Hn].
Qed.

(** A computation that keeps a scanned list settled, with what it returns. *)
Definition keeps {A} (m : M A) (P : A -> list entry -> nat -> nat -> Prop) : Prop :=
  forall sc all g, settled sc all g -> exists x sc' g', m sc = Some (x, sc') /\ settled sc' all g' /\ P x all g g'.

Lemma wpr_keeps {A} id (m : M A) P sc all g b (Q : A -> world -> Prop) w : winv w b -> keeps m P -> scans w !! id = Some sc -> settled sc all g ->
  (forall x sc' g', settled sc' all g' -> P x all g g' -> winv (with_scans (<[id := sc']> (scans w)) (allocs sc') w) b ->
     Q x (with_scans (<[id := sc']> (scans w)) (allocs sc') w)) ->
  wp (on_scan id m) Q w.
Proof.
  intros Hw Hm Hid Hs HQ. destruct (Hm _ all g (settled_allocs _ _ _ (mallocs w) Hs)) as (x & sc' & g' & E & Hs' & HP).
  apply (wpr_scan id m sc x sc' Q w Hid E). apply (HQ x sc' g' Hs' HP). exact (winv_scan _ _ _ _ _ _ _ _ Hw Hid Hs').
Qed.

(** The shape of the cursor calls. *)
Lemma cursor_call {A B} (m : (list Z -> option (list dirent)) -> M A) (P : A -> list entry -> nat -> nat -> Prop) (k : A -> B) d h b w :
  ready b w -> handle_ok h -> (forall fs, keeps (m fs) P) ->
  wp (sc ← scan_of h; match sc with None => mret d | Some id => enter;; fs ← rget disk; x ← on_scan id (m fs); leave (k x) end) (fun _ w' => ready b w') w.
Proof.
  intros [Hw Hl] Hh Hm. apply wpr_bind, (wpr_scan_of w b h _ Hw Hh); [now split |].
  intros i s id _ Hi Hid. destruct (live _ _ _ _ _ Hw Hi Hid) as [_ (sc & all & g & Esc & Hs)].
  apply wpr_bind, wpr_enter; [exact Hl |]. apply wpr_bind, wpr_get, wpr_bind.
  eapply (wpr_keeps id (m (disk (with_lock true w))) P sc all g b); [now apply winv_lock | apply Hm | exact Esc | exact Hs |].
  intros x sc' g' _ _ Hw'. apply wpr_leave. split; [now apply winv_lock | reflexivity].
Qed.

Section Calls.

Context (mem_ok : nat -> bool) (junk : nat -> Z) (fuel : nat) (rand : Z -> Z).
Context (Hmem : forall n, mem_ok n = true) (Hfuel : (0 < fuel)%nat).

(** ** The cursor calls *)

Definition seen (_ : Z) (all : list entry) (g g' : nat) : Prop := True.

Lemma keeps_first : keeps ScanMoveToFirst (fun r _ _ g' => r = EPDK_OK /\ g' = 0%nat).
Proof.
  intros sc all g H. destruct (move_to_first_ok (fun _ => None) _ 0 fuel 0 all sc g (settled_place _ fuel _ _ _ Hfuel H)) as (s' & E & Hp).
  exists EPDK_OK, s', 0%nat. split_and!; [exact E | exact (place_settled _ _ _ _ _ _ _ Hp (proj2 (settled_cnt _ _ _ H))) | done | done].
Qed.

Lemma keeps_forward fs n : keeps (forward_loop mem_ok junk fs fuel n 0)
  (fun k all g g' => k = Z.of_nat (forward_spec (length all) g n).1 /\ g' = (forward_spec (length all) g n).2).
Proof.
  intros sc all g H. destruct (forward_ok mem_ok junk fs (ScanTypes sc) Hmem 0 fuel 0 all (proj2 (settled_cnt _ _ _ H)) n 0 sc g (settled_place _ fuel _ _ _ Hfuel H)) as (s' & E & Hp).
  eexists _, s', _. split_and!; [exact E | exact (place_settled _ _ _ _ _ _ _ Hp (proj2 (settled_cnt _ _ _ H))) | done | done].
Qed.

Lemma keeps_backward n : keeps (backward_loop n 0) (fun k all g g' => k = Z.of_nat (n `min` g) /\ g' = (g - n)%nat).
Proof.
  intros sc all g H. destruct (backward_ok (fun _ => None) (ScanTypes sc) 0 fuel 0 all n 0 sc g (settled_place _ fuel _ _ _ Hfuel H)) as (s' & E & Hp).
  eexists _, s', _. split_and!; [exact E | exact (place_settled _ _ _ _ _ _ _ Hp (proj2 (settled_cnt _ _ _ H))) | done | done].
Qed.

Lemma keeps_done : keeps ScanIsDone (fun b all g g' => b = bool_decide (g = length all) /\ g' = g).
Proof.
  intros sc all g H. exists (bool_decide (g = length all)), sc, g.
  split_and!; [exact (is_done_ok (fun _ => None) _ 0 fuel 0 all sc g (settled_place _ fuel _ _ _ Hfuel H)) | exact H | done | done].
Qed.

Lemma keeps_current : keeps ScanGetCurrent (fun e all g g' => e = all !! g /\ g' = g).
Proof.
  intros sc all g H. destruct (get_current_place (fun _ => None) _ 0 fuel 0 all sc g (settled_place _ fuel _ _ _ Hfuel H)) as (s' & E & Hp).
  eexists _, s', _. split_and!; [exact E | exact (place_settled _ _ _ _ _ _ _ Hp (proj2 (settled_cnt _ _ _ H))) | done | done].
Qed.

Lemma keeps_cnt : keeps ScanGetCurCnt (fun c all g g' => c = Z.of_nat (length all) /\ g' = g).
Proof. intros sc all g H. exists (CurCnt sc), sc, g. split_and!; [done | exact H | exact (proj1 (settled_cnt _ _ _ H)) | done]. Qed.

(** ** Lookups *)

Lemma move_n_ok s ess n : chain_ok (Lists s) ess -> forall k c g, on ess c g -> (g + n < length (concat ess))%nat ->
  exists c', move_n n k c s = Some ((k + Z.of_nat n, c'), s) /\ on ess c' (g + n).
Proof.
  intros Hc. induction n as [| n IH]; intros k c g Hon Hg; cbn [move_n].
  - exists c. now rewrite Nat.add_0_r, Z.add_0_r.
  - pose proof (move_next_ok s ess c g Hc Hon) as Hmv. rewrite (proj2 (Nat.ltb_lt _ _)) in Hmv by lia.
    destruct Hmv as (c' & E & Hon'). mrun E. cbv beta iota. change (negb (EPDK_OK =? EPDK_OK)) with false. cbv iota.
    destruct (IH (k + 1) c' (S g) Hon') as (c2 & -> & Hon2); [lia |]. exists c2. rewrite <- Nat.add_succ_comm. split; [do 3 f_equal; lia | exact Hon2].
Qed.

Lemma entry_by_index_ok s all g index : settled s all g -> 0 <= index < Z.of_nat (length all) ->
  exists e c, all !! Z.to_nat index = Some e /\ entry_by_index index s = Some ((Some (Some e), c), s).
Proof.
  intros (ess & Hc & <- & _) Hi. assert (0 < length (concat ess))%nat as Hpos by lia.
  destruct (move_n_ok s ess (Z.to_nat index) Hc 0 first_cursor 0 (first_place s ess Hc Hpos)) as (c & E & Hon); [lia |].
  unfold entry_by_index. mrun E. cbv beta iota. cbn [Nat.add] in Hon. rewrite Z.add_0_l, Z2Nat.id, Z.eqb_refl by lia.
  pose proof (get_current_ok s ess c _ Hc (on_at _ _ _ Hon)) as Hcur.
  destruct (lookup_lt_is_Some_2 (concat ess) (Z.to_nat index) ltac:(lia)) as [e Ee]. rewrite Ee in *. destruct Hcur as (c' & E' & _).
  mrun E'. now exists e, c'.
Qed.

(** The first place of a path. *)
Fixpoint index_of (path : list Z) (l : list entry) : option nat :=
  match l with [] => None | e :: l => if bool_decide (path = e.2) then Some O else S <$> index_of path l end.

Lemma file2index_ok s ess path n : chain_ok (Lists s) ess -> Z.of_nat (length (concat ess)) < 2 ^ 31 -> forall c g, on ess c g -> (length (concat ess) - g <= n)%nat ->
  exists c', file2index_loop n path (Z.of_nat g) c s =
    Some ((match index_of path (drop g (concat ess)) with Some k => Z.of_nat (g + k) | None => -1 end, c'), s).
Proof.
  intros Hc Hmax. induction n as [| n IH]; intros c g Hon Hn; [pose proof (on_lookup _ _ _ Hon); lia |].
  pose proof (on_lookup _ _ _ Hon) as Hlt. pose proof (get_current_ok s ess c g Hc (on_at _ _ _ Hon)) as Hcur.
  destruct (lookup_lt_is_Some_2 _ _ Hlt) as [e Ee]. rewrite Ee in Hcur. destruct Hcur as (c' & E & Hon').
  cbn [file2index_loop]. mrun E. destruct e as [f name]. rewrite (drop_S _ _ _ Ee). cbn [index_of snd].
  destruct (bool_decide (path = name)).
  - exists c'. rewrite Nat.add_0_r. reflexivity.
  - pose proof (move_next_ok s ess c' g Hc Hon') as Hmv. destruct (Nat.ltb_spec (S g) (length (concat ess))) as [Hlt' | Hge].
    + destruct Hmv as (c2 & E2 & Hon2). mrun E2. cbv beta iota. change (EPDK_OK =? EPDK_OK) with true. cbv iota. rewrite s32_id by lia.
      destruct (IH c2 (S g) Hon2 ltac:(lia)) as (c3 & E3). replace (Z.of_nat g + 1) with (Z.of_nat (S g)) by lia. exists c3. rewrite E3.
      destruct (index_of path (drop (S g) (concat ess))); cbn [fmap option_fmap option_map]; [do 3 f_equal; lia | reflexivity].
    + mrun Hmv. cbv beta iota. change (EPDK_FAIL =? EPDK_OK) with false. cbv iota. exists c'. rewrite (drop_ge _ (S g)) by lia. reflexivity.
Qed.

(** ** Playlist calls *)

Lemma unlock w : locked w = false -> with_lock false (with_lock true w) = w.
Proof. destruct w. cbn. now intros ->. Qed.

Lemma wpr_playlist {A} h (d n : A) f b (Q : A -> world -> Prop) w : ready b w -> handle_ok h ->
  (h = HNull -> Q d w) -> (h = HNullNpl -> Q n w) ->
  (forall i s, h = HList i -> g_rat_list w !! i = Some s -> hscan s = None -> Q d w) ->
  (forall i s id sc all g, h = HList i -> g_rat_list w !! i = Some s -> hscan s = Some id -> scans w !! id = Some sc -> settled sc all g ->
     wp (f i id) Q (with_lock true w)) ->
  wp (with_playlist h d n f) Q w.
Proof.
  intros [Hw Hl] Hh H1 H2 H3 H4. destruct h as [| i |]; cbn [with_playlist]; [now apply wpr_ret, H1 | | now apply wpr_ret, H2].
  destruct (handle_slot w b i Hw Hh) as [s Es]. apply wpr_bind, wpr_enter; [exact Hl |]. apply wpr_bind, (wpr_slot i s); [exact Es |].
  destruct (hscan s) as [id |] eqn:E.
  - destruct (live _ _ _ _ _ Hw Es E) as [_ (sc & all & g & Esc & Hs)]. exact (H4 i s id sc all g eq_refl Es E Esc Hs).
  - apply wpr_leave. rewrite (unlock _ Hl). exact (H3 i s eq_refl Es E).
Qed.

(** The number of files, read under the lock. *)
Lemma wpr_count id sc all g b (Q : Z -> world -> Prop) w : winv w b -> scans w !! id = Some sc -> settled sc all g ->
  (forall sc', settled sc' all g -> winv (with_scans (<[id := sc']> (scans w)) (mallocs w) w) b ->
     Q (Z.of_nat (length all)) (with_scans (<[id := sc']> (scans w)) (mallocs w) w)) ->
  wp (on_scan id ScanGetCurCnt) Q w.
Proof.
  intros Hw Hid Hs HQ. apply (wpr_scan id ScanGetCurCnt sc (CurCnt sc) (with_allocs (mallocs w) sc) Q w Hid eq_refl).
  rewrite (proj1 (settled_cnt _ _ _ Hs)). apply HQ; [exact Hs |]. exact (winv_scan _ _ _ _ _ _ _ _ Hw Hid (settled_allocs _ _ _ _ Hs)).
Qed.

Lemma ready_leave b w : winv w b -> ready b (with_lock false w).
Proof. intros H. split; [now apply winv_lock | reflexivity]. Qed.

Lemma ready_set b w i s s' : winv w b -> g_rat_list w !! i = Some s -> alike s s' -> ready b (with_lock false (with_list (<[i := s']> (g_rat_list w)) w)).
Proof. intros Hw Hi Ha. apply ready_leave. exact (winv_alike _ _ _ _ _ Hw Hi Ha). Qed.

(** The place [i] has an open list with the files [all]. *)
Definition plays (w : world) (i : nat) (s : rat_list) (all : list entry) : Prop :=
  g_rat_list w !! i = Some s /\ exists id sc g, hscan s = Some id /\ scans w !! id = Some sc /\ settled sc all g.

(** After a call on an open list: what was returned and the place that is left. *)
Definition post {A} (P : list entry -> rat_list -> A -> rat_list -> Prop) (b : Z) (i : nat) (s : rat_list) (all : list entry) (N : list (option nat)) (r : A) (w : world) : Prop :=
  ready b w /\ g_rat_npl w = N /\ exists s', plays w i s' all /\ alike s s' /\ P all s r s'.

(** A playlist function on an open list, under a precondition on the place and its files. *)
Definition serves {A} (C : list entry -> rat_list -> Prop) (f : nat -> nat -> R A) (P : list entry -> rat_list -> A -> rat_list -> Prop) : Prop :=
  forall b w i s id sc all g, winv w b -> g_rat_list w !! i = Some s -> hscan s = Some id -> scans w !! id = Some sc -> settled sc all g -> C all s ->
    wp (f i id) (post P b i s all (g_rat_npl w)) w.

Lemma alike_refl s : alike s s.
Proof. done. Qed.

Lemma playlist_ready {A} C h (d n : A) f P b w : serves C f P -> ready b w -> handle_ok h ->
  (forall i s all, h = HList i -> plays w i s all -> C all s) -> wp (with_playlist h d n f) (fun _ w' => ready b w') w.
Proof.
  intros Hf Hr Hh HC. eapply wpr_playlist; [exact Hr | exact Hh | try (intros; exact Hr) ..].
  intros i s id sc all g Eh Hi Hid Esc Hs. eapply wpr_mono; [eapply (Hf b (with_lock true w)); eauto; [apply winv_lock; exact (proj1 Hr) |] |].
  - apply (HC i s all Eh). split; [exact Hi | now exists id, sc, g].
  - intros x w' [H _]. exact H.
Qed.

Lemma playlist_plays {A} C i s all (d n : A) f P b w : serves C f P -> ready b w -> plays w i s all -> C all s ->
  wp (with_playlist (HList i) d n f) (post P b i s all (g_rat_npl w)) w.
Proof.
  intros Hf [Hw Hl] (Hi & id & sc & g & Hid & Esc & Hs) HC. cbn [with_playlist]. apply wpr_bind, wpr_enter; [exact Hl |].
  apply wpr_bind, (wpr_slot i s); [exact Hi |]. rewrite Hid. eapply (Hf b (with_lock true w)); eauto.
Qed.

(** The ends of the functions: leaving with the place unchanged, or changed in what does not
    matter to the invariant. *)
Lemma end_same {A} (x : A) b w i s all N (P : list entry -> rat_list -> A -> rat_list -> Prop) : winv w b -> plays w i s all -> g_rat_npl w = N -> P all s x s ->
  wp (leave x) (post P b i s all N) w.
Proof. intros Hw Hp HN HP. apply wpr_leave. split; [now apply ready_leave |]. split; [exact HN |]. exists s. split_and!; [exact Hp | exact (alike_refl s) | exact HP]. Qed.

Lemma end_set {A} (x : A) b w i s s' all N (P : list entry -> rat_list -> A -> rat_list -> Prop) f : winv w b -> plays w i s all -> s' = f s -> g_rat_npl w = N ->
  alike s s' -> P all s x s' -> wp (set_slot i f;; leave x) (post P b i s all N) w.
Proof.
  intros Hw (Hi & id & sc & g & Hid & Esc & Hs) -> HN Ha HP. apply wpr_bind, (wpr_set_slot i f s); [exact Hi |]. apply wpr_leave.
  split; [exact (ready_set _ _ _ _ _ Hw Hi Ha) |]. split; [exact HN |]. exists (f s). split_and!; [| exact Ha | exact HP]. split.
  - cbn. apply list_lookup_insert_eq. eapply lookup_lt_Some. exact Hi.
  - exists id, sc, g. destruct Ha as (E & _). split_and!; [congruence | exact Esc | exact Hs].
Qed.

(** The first step of most of them. *)
Lemma with_count {A} b w i s id sc all g (k : Z -> R A) (Q : A -> world -> Prop) :
  winv w b -> g_rat_list w !! i = Some s -> hscan s = Some id -> scans w !! id = Some sc -> settled sc all g ->
  (forall w1 sc1, winv w1 b -> g_rat_list w1 !! i = Some s -> scans w1 !! id = Some sc1 -> settled sc1 all g -> plays w1 i s all -> now w1 = now w -> g_rat_npl w1 = g_rat_npl w -> wp (k (Z.of_nat (length all))) Q w1) ->
  wp (cnt ← on_scan id ScanGetCurCnt; k cnt) Q w.
Proof.
  intros Hw Hi Hid Esc Hs Hk. apply wpr_bind. eapply wpr_count; [exact Hw | exact Esc | exact Hs |]. intros sc1 Hs1 Hw1.
  apply (Hk _ sc1); [exact Hw1 | exact Hi | apply lookup_insert_eq | exact Hs1 | | reflexivity | reflexivity].
  split; [exact Hi |]. exists id, sc1, g. split_and!; [exact Hid | apply lookup_insert_eq | exact Hs1].
Qed.

(** A step on the scan that leaves it where it is. *)
Lemma with_reading {A B} b w i s id sc all g (m : M A) x (k : A -> R B) (Q : B -> world -> Prop) :
  winv w b -> g_rat_list w !! i = Some s -> hscan s = Some id -> scans w !! id = Some sc -> settled sc all g ->
  m (with_allocs (mallocs w) sc) = Some (x, with_allocs (mallocs w) sc) ->
  (forall w1, winv w1 b -> plays w1 i s all -> g_rat_npl w1 = g_rat_npl w -> wp (k x) Q w1) ->
  wp (y ← on_scan id m; k y) Q w.
Proof.
  intros Hw Hi Hid Esc Hs Hm Hk. apply wpr_bind. eapply wpr_scan; [exact Esc | exact Hm |].
  apply Hk; [exact (winv_scan _ _ _ _ _ _ _ _ Hw Esc (settled_allocs _ _ _ _ Hs)) | | reflexivity].
  split; [exact Hi |]. exists id, (with_allocs (mallocs w) sc), g. split_and!; [exact Hid | apply lookup_insert_eq | exact Hs].
Qed.

Definition always (_ : list entry) (_ : rat_list) : Prop := True.

(** [rat_npl_file2index]: the first index of the path, or -1. *)
Definition file2index_body (path : list Z) (i id : nat) : R Z :=
  cnt ← on_scan id ScanGetCurCnt;
  if cnt <=? 0 then leave (-1) else
  '(r, c) ← on_scan id (file2index_loop (Z.to_nat cnt) path 0 first_cursor); set_slot i (with_nplcursor c);; leave r.

Lemma file2index_serves path : serves always (file2index_body path) (fun all s r s' =>
  r = match index_of path all with Some k => Z.of_nat k | None => -1 end /\ npl_cur_index s' = npl_cur_index s /\ play_mode s' = play_mode s).
Proof.
  intros b w i s id sc all g Hw Hi Hid Esc Hs _. unfold file2index_body. eapply with_count; try eassumption.
  intros w1 sc1 Hw1 Hi1 Esc1 Hs1 Hp1 _ HN1. destruct (Z.leb_spec (Z.of_nat (length all)) 0) as [Hz | Hpos].
  - apply end_same; [exact Hw1 | exact Hp1 | exact HN1 |]. destruct all; [done | simpl in Hz; lia].
  - pose proof Hs1 as (ess & Hc & Hcc & Hrest). rewrite Nat2Z.id. rewrite <- Hcc in Hpos |- *.
    assert (Z.of_nat (length (concat ess)) < 2 ^ 31) as Hmax by (rewrite Hcc; tauto).
    destruct (file2index_ok (with_allocs (mallocs w1) sc1) ess path (length (concat ess)) Hc Hmax first_cursor 0 (first_place sc1 ess Hc ltac:(lia)) ltac:(lia)) as (c & E).
    rewrite Hcc in *. eapply with_reading; [exact Hw1 | exact Hi1 | exact Hid | exact Esc1 | exact Hs1 | exact E |].
    intros w2 Hw2 Hp2 HN2. cbv beta iota. eapply (end_set _ _ _ _ _ _ _ _ _ _ Hw2 Hp2 eq_refl (eq_trans HN2 HN1)); [done |].
    rewrite drop_0. cbn [Nat.add]. destruct (index_of path all); done.
Qed.

(** [rat_npl_index2file]: the path at an index. *)
Definition index2file_body (index : Z) (i id : nat) : R (Z * option (list Z)) :=
  cnt ← on_scan id ScanGetCurCnt;
  if (cnt <=? 0) || (u32 cnt <=? index) then leave (EPDK_FAIL, None) else
  '(e, c) ← on_scan id (entry_by_index index);
  set_slot i (with_nplcursor c);;
  leave (match e with Some (Some (_, name)) => (EPDK_OK, Some name) | _ => (EPDK_FAIL, Some []) end).

Lemma index2file_serves index : 0 <= index -> serves always (index2file_body index) (fun all s r s' =>
  r = match all !! Z.to_nat index with Some e => (EPDK_OK, Some e.2) | None => (EPDK_FAIL, None) end /\
  npl_cur_index s' = npl_cur_index s /\ play_mode s' = play_mode s).
Proof.
  intros Hix b w i s id sc all g Hw Hi Hid Esc Hs _. unfold index2file_body. eapply with_count; try eassumption.
  intros w1 sc1 Hw1 Hi1 Esc1 Hs1 Hp1 _ HN1. pose proof (settled_cnt _ _ _ Hs1) as [_ Hmax]. rewrite u32_id by lia.
  destruct (orb _ _) eqn:Eo.
  - apply end_same; [exact Hw1 | exact Hp1 | exact HN1 |]. rewrite lookup_ge_None_2 by lia. done.
  - destruct (entry_by_index_ok (with_allocs (mallocs w1) sc1) all g index Hs1 ltac:(lia)) as (e & c & Ee & E).
    eapply with_reading; [exact Hw1 | exact Hi1 | exact Hid | exact Esc1 | exact Hs1 | exact E |].
    intros w2 Hw2 Hp2 HN2. cbv beta iota. eapply (end_set _ _ _ _ _ _ _ _ _ _ Hw2 Hp2 eq_refl (eq_trans HN2 HN1)); [done |]. cbv beta. rewrite Ee. now destruct e.
Qed.

(** ** The play modes *)

Definition next_spec (t mode cur cnt : Z) : Z * Z :=
  if mode =? RAT_PLAY_MODE_ONLY_ONCE then ((if cur =? -1 then 0 else cur), -1)
  else if mode =? RAT_PLAY_MODE_ROTATE_ONE then let c := (if cur =? -1 then 0 else cur) in (c, c)
  else if mode =? RAT_PLAY_MODE_ROTATE_ALL then let c := (if cur <? cnt - 1 then cur + 1 else 0) in (c, c)
  else if mode =? RAT_PLAY_MODE_SEQUENCE then let c := (if cur <? cnt - 1 then cur + 1 else -1) in (c, c)
  else let c := u32 (rand t) mod cnt in (c, c).

(** Backward, at a random place: never the last file. *)
Definition prev_spec (t mode cur cnt : Z) : Z * Z :=
  if mode =? RAT_PLAY_MODE_ONLY_ONCE then (cur, -1)
  else if mode =? RAT_PLAY_MODE_ROTATE_ONE then let c := (if cur =? -1 then 0 else cur) in (c, c)
  else if (mode =? RAT_PLAY_MODE_ROTATE_ALL) || (mode =? RAT_PLAY_MODE_SEQUENCE) then
    let c := s32 (cur - 1) in if c <? 0 then (0, -1) else (c, c)
  else let c := u32 (rand t) mod (cnt - 1) in (c, c).

Lemma random_ok max w : 0 < max < 2 ^ 31 -> rat_random rand max w = Some (u32 (rand (now w)) mod max, w).
Proof.
  intros Hm. unfold rat_random, mbind, R_bind, rget. rewrite (u32_id max) by lia. destruct (Z.eqb_spec max 0); [lia | reflexivity].
Qed.

Lemma random_range x max : 0 < max < 2 ^ 31 -> 0 <= u32 x mod max < max.
Proof. intros. apply Z.mod_pos_bound. lia. Qed.

Lemma next_index_ok mode cur cnt w : 0 < cnt < 2 ^ 31 -> next_index rand mode cur cnt w = Some (next_spec (now w) mode cur cnt, w).
Proof.
  intros Hc. unfold next_index, next_spec. cbv zeta.
  destruct (mode =? RAT_PLAY_MODE_ONLY_ONCE); [reflexivity |]. destruct (mode =? RAT_PLAY_MODE_ROTATE_ONE); [reflexivity |].
  destruct (mode =? RAT_PLAY_MODE_ROTATE_ALL); [reflexivity |]. destruct (mode =? RAT_PLAY_MODE_SEQUENCE); [reflexivity |].
  unfold mbind, R_bind. rewrite random_ok by exact Hc. pose proof (random_range (rand (now w)) cnt Hc) as Hr. rewrite s32_id by lia.
  destruct (Z.ltb_spec (u32 (rand (now w)) mod cnt) 0); [lia |]. destruct (Z.ltb_spec (cnt - 1) (u32 (rand (now w)) mod cnt)); [lia | reflexivity].
Qed.

(** Going back at random divides by zero when there is one file. *)
Definition random_mode (mode : Z) : Prop := ~ 0 <= mode <= 3.
Definition prev_defined (all : list entry) (s : rat_list) : Prop := random_mode (play_mode s) -> length all <> 1%nat.

#[global] Instance random_mode_dec mode : Decision (random_mode mode).
Proof. unfold random_mode. apply _. Defined.

Lemma prev_index_ok mode cur cnt w : 0 < cnt < 2 ^ 31 -> (random_mode mode -> cnt <> 1) -> prev_index rand mode cur cnt w = Some (prev_spec (now w) mode cur cnt, w).
Proof.
  intros Hc Hone. unfold prev_index, prev_spec, random_mode, RAT_PLAY_MODE_ONLY_ONCE, RAT_PLAY_MODE_ROTATE_ONE, RAT_PLAY_MODE_ROTATE_ALL, RAT_PLAY_MODE_SEQUENCE in *. cbv zeta.
  destruct (Z.eqb_spec mode 0); [reflexivity |]. destruct (Z.eqb_spec mode 1); [reflexivity |].
  destruct (Z.eqb_spec mode 2); cbn [orb]; [destruct (s32 (cur - 1) <? 0); reflexivity |].
  destruct (Z.eqb_spec mode 3); [destruct (s32 (cur - 1) <? 0); reflexivity |].
  unfold mbind, R_bind. rewrite random_ok by lia. pose proof (random_range (rand (now w)) (cnt - 1) ltac:(lia)) as Hr. rewrite s32_id by lia. reflexivity.
Qed.

Lemma prev_index_fault mode cur w : random_mode mode -> prev_index rand mode cur 1 w = None.
Proof.
  unfold prev_index, random_mode, RAT_PLAY_MODE_ONLY_ONCE, RAT_PLAY_MODE_ROTATE_ONE, RAT_PLAY_MODE_ROTATE_ALL, RAT_PLAY_MODE_SEQUENCE. intros H.
  destruct (Z.eqb_spec mode 0); [lia |]. destruct (Z.eqb_spec mode 1); [lia |]. destruct (Z.eqb_spec mode 2); [lia |]. destruct (Z.eqb_spec mode 3); [lia |]. reflexivity.
Qed.

Definition index_body (f : Z -> Z -> Z -> R (Z * Z)) (i id : nat) : R Z :=
  cnt ← on_scan id ScanGetCurCnt;
  s ← slot i;
  if (cnt <=? 0) || (cnt <=? npl_cur_index s) then leave (-1) else
  '(c, n) ← f (play_mode s) (npl_cur_index s) cnt;
  set_slot i (with_index c);;
  leave n.

(** What a function of the current index returns and leaves, given what it computes. *)
Definition index_post (spec : Z -> Z -> Z -> Z * Z) (all : list entry) (s : rat_list) (r : Z) (s' : rat_list) : Prop :=
  let cnt := Z.of_nat (length all) in
  play_mode s' = play_mode s /\
  if (cnt <=? 0) || (cnt <=? npl_cur_index s) then r = -1 /\ npl_cur_index s' = npl_cur_index s
  else (npl_cur_index s', r) = spec (play_mode s) (npl_cur_index s) cnt.

Lemma index_serves f spec (C : list entry -> rat_list -> Prop) t :
  (forall mode cur cnt w, 0 < cnt < 2 ^ 31 -> now w = t -> (forall all s, C all s -> Z.of_nat (length all) = cnt -> play_mode s = mode -> f mode cur cnt w = Some (spec mode cur cnt, w))) ->
  forall b w i s id sc all g, now w = t -> winv w b -> g_rat_list w !! i = Some s -> hscan s = Some id -> scans w !! id = Some sc -> settled sc all g -> C all s ->
    wp (index_body f i id) (post (index_post spec) b i s all (g_rat_npl w)) w.
Proof.
  intros Hf b w i s id sc all g Ht Hw Hi Hid Esc Hs HC. unfold index_body. eapply with_count; try eassumption.
  intros w1 sc1 Hw1 Hi1 Esc1 Hs1 Hp1 Hn1 HN1. pose proof (settled_cnt _ _ _ Hs1) as [_ Hmax].
  apply wpr_bind, (wpr_slot i s); [exact Hi1 |]. destruct (orb _ _) eqn:Eo.
  - apply end_same; [exact Hw1 | exact Hp1 | exact HN1 |]. unfold index_post. cbv zeta. rewrite Eo. done.
  - assert (f (play_mode s) (npl_cur_index s) (Z.of_nat (length all)) w1 = Some (spec (play_mode s) (npl_cur_index s) (Z.of_nat (length all)), w1)) as E.
    { apply (Hf (play_mode s) (npl_cur_index s) (Z.of_nat (length all)) w1 ltac:(lia) ltac:(congruence) all s HC eq_refl eq_refl). }
    destruct (spec (play_mode s) (npl_cur_index s) (Z.of_nat (length all))) as [c n] eqn:Esp.
    apply wpr_bind. unfold wp at 1. rewrite E. cbv beta iota.
    eapply (end_set _ _ _ _ _ _ _ _ _ _ Hw1 Hp1 eq_refl HN1); [done |]. unfold index_post. cbv zeta. rewrite Eo, Esp. done.
Qed.

Lemma next_plays b w i s all : ready b w -> plays w i s all ->
  wp (rat_npl_get_next rand (HList i)) (post (index_post (next_spec (now w))) b i s all (g_rat_npl w)) w.
Proof.
  intros [Hw Hl] (Hi & id & sc & g & Hid & Esc & Hs). unfold rat_npl_get_next, with_index_of. cbn [with_playlist].
  apply wpr_bind, wpr_enter; [exact Hl |]. apply wpr_bind, (wpr_slot i s); [exact Hi |]. rewrite Hid.
  eapply (index_serves (next_index rand) _ always (now w)) with (w := with_lock true w); try eassumption; [| reflexivity | done].
  intros mode cur cnt w' Hc <- _ _ _ _ _. now apply next_index_ok.
Qed.

Lemma prev_plays b w i s all : ready b w -> plays w i s all -> prev_defined all s ->
  wp (rat_npl_get_prev rand (HList i)) (post (index_post (prev_spec (now w))) b i s all (g_rat_npl w)) w.
Proof.
  intros [Hw Hl] (Hi & id & sc & g & Hid & Esc & Hs) HC. unfold rat_npl_get_prev, with_index_of. cbn [with_playlist].
  apply wpr_bind, wpr_enter; [exact Hl |]. apply wpr_bind, (wpr_slot i s); [exact Hi |]. rewrite Hid.
  eapply (index_serves (prev_index rand) _ prev_defined (now w)) with (w := with_lock true w); try eassumption; [| reflexivity].
  intros mode cur cnt w' Hc <- all' s' HC' Hlen <-. apply prev_index_ok; [exact Hc |]. intros Hm. specialize (HC' Hm). lia.
Qed.

Lemma cur_plays b w i s all : ready b w -> plays w i s all ->
  wp (rat_npl_get_cur (HList i)) (post (index_post (fun _ cur _ => (cur, cur))) b i s all (g_rat_npl w)) w.
Proof.
  intros [Hw Hl] (Hi & id & sc & g & Hid & Esc & Hs). unfold rat_npl_get_cur, with_index_of. cbn [with_playlist].
  apply wpr_bind, wpr_enter; [exact Hl |]. apply wpr_bind, (wpr_slot i s); [exact Hi |]. rewrite Hid.
  eapply (index_serves (fun _ cur _ => mret (cur, cur)) _ always (now w)) with (w := with_lock true w); try eassumption; [| reflexivity | done].
  done.
Qed.

(** ** The remaining playlist calls *)

Lemma set_cur_serves index : serves always (fun i id =>
    cnt ← on_scan id ScanGetCurCnt;
    if (cnt <=? 0) || (cnt <=? index) then leave (-1) else set_slot i (with_index index);; leave EPDK_OK)
  (fun all s r s' => play_mode s' = play_mode s /\
     if (Z.of_nat (length all) <=? 0) || (Z.of_nat (length all) <=? index) then r = -1 /\ npl_cur_index s' = npl_cur_index s
     else r = EPDK_OK /\ npl_cur_index s' = index).
Proof.
  intros b w i s id sc all g Hw Hi Hid Esc Hs _. eapply with_count; try eassumption.
  intros w1 sc1 Hw1 Hi1 Esc1 Hs1 Hp1 _ HN1. destruct (orb _ _) eqn:Eo.
  - apply end_same; [exact Hw1 | exact Hp1 | exact HN1 |]. now rewrite Eo.
  - eapply (end_set _ _ _ _ _ _ _ _ _ _ Hw1 Hp1 eq_refl HN1); [done |]. now rewrite Eo.
Qed.

Lemma set_mode_serves mode : serves always (fun i _ => set_slot i (with_mode mode);; leave EPDK_OK)
  (fun all s r s' => r = EPDK_OK /\ play_mode s' = mode /\ npl_cur_index s' = npl_cur_index s).
Proof.
  intros b w i s id sc all g Hw Hi Hid Esc Hs _. assert (plays w i s all) as Hp by (split; [exact Hi | now exists id, sc, g]).
  now eapply (end_set _ _ _ _ _ _ _ _ _ _ Hw Hp eq_refl eq_refl).
Qed.

Lemma get_mode_serves : serves always (fun i _ => s ← slot i; leave (play_mode s)) (fun all s r s' => r = play_mode s /\ s' = s).
Proof.
  intros b w i s id sc all g Hw Hi Hid Esc Hs _. assert (plays w i s all) as Hp by (split; [exact Hi | now exists id, sc, g]).
  apply wpr_bind, (wpr_slot i s); [exact Hi |]. now apply end_same.
Qed.

Lemma total_serves : serves always (fun _ id => cnt ← on_scan id ScanGetCurCnt; leave cnt) (fun all s r s' => r = Z.of_nat (length all) /\ s' = s).
Proof.
  intros b w i s id sc all g Hw Hi Hid Esc Hs _. eapply with_count; try eassumption.
  intros w1 sc1 Hw1 Hi1 Esc1 Hs1 Hp1 _ HN1. now apply end_same.
Qed.

(** ** Opening and closing *)

Lemma find_slot_some f l i : find_slot f l = Some i -> exists s, l !! i = Some s /\ f s = true.
Proof.
  revert i. induction l as [| s l IH]; intros i; [discriminate |]. cbn [find_slot].
  destruct (f s) eqn:E; [intros [= <-]; now exists s |]. destruct (find_slot f l) as [j |]; [| discriminate].
  intros [= <-]. exact (IH j eq_refl).
Qed.

Lemma find_slot_none f l i s : find_slot f l = None -> l !! i = Some s -> f s = false.
Proof.
  revert i. induction l as [| s' l IH]; intros i; [discriminate |]. cbn [find_slot].
  destruct (f s') eqn:E; [discriminate |]. destruct (find_slot f l); [discriminate |]. intros _. destruct i; [now intros [= <-] | now apply IH].
Qed.

Lemma file_types_range t ty : file_types t = Some ty -> 0 <= t < RAT_MEDIA_TYPE_MAX.
Proof.
  unfold file_types, RAT_MEDIA_TYPE_PIC, RAT_MEDIA_TYPE_VIDEO, RAT_MEDIA_TYPE_AUDIO, RAT_MEDIA_TYPE_EBOOK, RAT_MEDIA_TYPE_ALL, RAT_MEDIA_TYPE_VIDEO_AND_AUDIO, RAT_MEDIA_TYPE_VIDEO_AND_PIC, RAT_MEDIA_TYPE_MAX.
  repeat match goal with |- context [?a =? t] => destruct (Z.eqb_spec a t); [lia |] end. discriminate.
Qed.

(** Rules that keep the fields apart: a change of a place, a step on a scan. *)
Lemma wpr_update i f L s w (Q : unit -> world -> Prop) : g_rat_list w = <[i := s]> L -> (i < length L)%nat ->
  (forall w', g_rat_list w' = <[i := f s]> L -> g_rat_npl w' = g_rat_npl w -> scans w' = scans w -> Q tt w') -> wp (set_slot i f) Q w.
Proof.
  intros Hw Hi HQ. apply (wpr_set_slot i f s); [rewrite Hw; now apply list_lookup_insert_eq |]. apply HQ; [| reflexivity | reflexivity].
  cbn. now rewrite Hw, list_insert_insert_eq.
Qed.

(** [consistent] but for the place [i], which is free, and the playlist of type [t], which may
    still point to it. *)
Record hole (L : list rat_list) (N : list (option nat)) (S : gmap nat ScanInfo_t) (b : Z) (i : nat) (t : Z) : Prop := Hole {
  hole_lists : length L = RAT_MAX_LIST_CNT;
  hole_npls : length N = Z.to_nat RAT_MEDIA_TYPE_MAX;
  hole_slots : forall j s, L !! j = Some s -> slot_ok S b s;
  hole_free : exists s, L !! i = Some s /\ hscan s = None;
  hole_once : forall j k s u id, L !! j = Some s -> L !! k = Some u -> hscan s = Some id -> hscan u = Some id -> j = k;
  hole_used : forall id, is_Some (S !! id) -> exists j s, L !! j = Some s /\ hscan s = Some id;
  hole_playlists : forall t' j, N !! t' = Some (Some j) ->
    (j = i /\ Z.of_nat t' = t) \/ exists s, L !! j = Some s /\ hscan s <> None /\ media_type s = Z.of_nat t';
}.

Lemma hole_consistent L N S b i t s : consistent L N S b -> L !! i = Some s -> hscan s = None -> hole L N S b i t.
Proof. intros [H1 H2 H3 H4 H5 H6] Hi Hs. split; try assumption; [now exists s |]. intros t' j Hj. right. exact (H6 t' j Hj). Qed.

(** Freeing the scan of a place. *)
Lemma clear_hole L N S b i s id : consistent L N S b -> L !! i = Some s -> hscan s = Some id ->
  hole (<[i := clear_slot s]> L) N (delete id S) b i (media_type s).
Proof.
  intros [H1 H2 H3 H4 H5 H6] Hi Hs. pose proof (lookup_lt_Some _ _ _ Hi) as Hil.
  assert (forall j u, <[i := clear_slot s]> L !! j = Some u -> (j = i /\ u = clear_slot s) \/ (j <> i /\ L !! j = Some u /\ hscan u <> Some id)) as Hback.
  { intros j u Hj. apply lookup_update in Hj as [(<- & -> & _) | [Hne Hj]]; [now left | right; split_and!; [congruence | exact Hj |]].
    intros Hu. apply Hne. exact (H4 i j s u id Hi Hj Hs Hu). }
  split.
  - now rewrite length_insert.
  - exact H2.
  - intros j u Hj. destruct (Hback j u Hj) as [[_ ->] | (_ & Hj' & Hne)].
    + destruct (H3 i s Hi) as [? _]. split; cbn; [lia | done].
    + destruct (H3 j u Hj') as [Hb Hu]. split; [exact Hb |]. destruct (hscan u) as [id' |]; [| exact Hu].
      destruct Hu as [Hp (sc & all & g & E & Hset)]. split; [exact Hp |]. exists sc, all, g. rewrite lookup_delete_ne by congruence. done.
  - exists (clear_slot s). split; [now apply list_lookup_insert_eq | done].
  - intros j k u v id' Hj Hk Eu Ev. destruct (Hback j u Hj) as [[_ ->] | (_ & Hj' & _)]; [discriminate |].
    destruct (Hback k v Hk) as [[_ ->] | (_ & Hk' & _)]; [discriminate |]. exact (H4 j k u v id' Hj' Hk' Eu Ev).
  - intros id' Hid'. destruct (decide (id' = id)) as [-> | Hne]; [rewrite lookup_delete_eq in Hid'; now destruct Hid' |].
    rewrite lookup_delete_ne in Hid' by congruence. destruct (H5 id' Hid') as (j & u & Hj & Eu). exists j, u. split; [| exact Eu].
    rewrite list_lookup_insert_ne; [exact Hj | congruence].
  - intros t' j Hj. destruct (H6 t' j Hj) as (u & Hu & Hne & Em). destruct (decide (j = i)) as [-> | Hji].
    + left. split; [reflexivity | congruence].
    + right. exists u. rewrite list_lookup_insert_ne by congruence. done.
Qed.

(** Filling a free place. *)
Lemma fill_hole L N S b i t id sc all g s : hole L N S b i t -> S !! id = None -> settled sc all g ->
  hscan s = Some id -> media_type s = t -> open_cnt s = 1 -> 1 <= b -> file_types t <> None ->
  consistent (<[i := s]> L) N (<[id := sc]> S) b.
Proof.
  intros [H1 H2 H3 (s0 & Hi & Hfree) H4 H5 H6] Hid Hset Hs Hm Ho Hb Hft. pose proof (lookup_lt_Some _ _ _ Hi) as Hil.
  assert (forall j u, <[i := s]> L !! j = Some u -> (j = i /\ u = s) \/ (j <> i /\ L !! j = Some u /\ hscan u <> Some id)) as Hback.
  { intros j u Hj. apply lookup_update in Hj as [(<- & -> & _) | [Hne Hj]]; [now left | right; split_and!; [congruence | exact Hj |]].
    intros Hu. destruct (H3 j u Hj) as [_ Hsl]. rewrite Hu in Hsl. destruct Hsl as [_ (sc' & _ & _ & E & _)]. congruence. }
  split.
  - now rewrite length_insert.
  - exact H2.
  - intros j u Hj. destruct (Hback j u Hj) as [[_ ->] | (_ & Hj' & Hne)].
    + split; [lia |]. rewrite Hs, Hm. split; [split; [lia | exact Hft] |]. exists sc, all, g. now rewrite lookup_insert_eq.
    + destruct (H3 j u Hj') as [Hbu Hu]. split; [exact Hbu |]. destruct (hscan u) as [id' |]; [| exact Hu].
      destruct Hu as [Hp (sc' & all' & g' & E & Hset')]. split; [exact Hp |]. exists sc', all', g'. rewrite lookup_insert_ne by congruence. done.
  - intros j k u v id' Hj Hk Eu Ev. destruct (Hback j u Hj) as [[-> ->] | (_ & Hj' & Hne)], (Hback k v Hk) as [[-> ->] | (_ & Hk' & Hne')];
      [reflexivity | congruence | congruence | exact (H4 j k u v id' Hj' Hk' Eu Ev)].
  - intros id' Hid'. destruct (decide (id' = id)) as [-> | Hne].
    + exists i, s. split; [now apply list_lookup_insert_eq | exact Hs].
    + rewrite lookup_insert_ne in Hid' by congruence. destruct (H5 id' Hid') as (j & u & Hj & Eu). exists j, u. split; [| exact Eu].
      rewrite list_lookup_insert_ne; [exact Hj | intros <-; congruence].
  - intros t' j Hj. destruct (H6 t' j Hj) as [[-> Et] | (u & Hu & Hne & Em)].
    + exists s. split_and!; [now apply list_lookup_insert_eq | congruence | congruence].
    + exists u. rewrite list_lookup_insert_ne by (intros <-; congruence). done.
Qed.

(** A directory that can be scanned completely. *)
Definition dir_ok (d : list Z -> option (list dirent)) (root : list Z) : Prop := exists depth,
  tree_ok d depth root /\ Z.of_nat (ndirs d depth root) < 2 ^ 19 /\ (ndirs d depth root < fuel)%nat /\
  forall types, Z.of_nat (length (visit d types depth root)) < 2 ^ 31.

Lemma begin_ok d root types n : dir_ok d root -> exists s k all, ScanFilesBegin mem_ok junk d fuel root types 0 n = Some (Some s, k) /\ settled s all 0.
Proof.
  intros (depth & Hroot & Hsize & Hf & Hmax).
  destruct (begin_place mem_ok junk d types Hmem depth fuel root n Hroot Hsize Hf (Hmax types) 0) as (s & k & E & Hp); [lia | lia |].
  exists s, k, (visit d types depth root). split; [exact E |]. exact (place_settled _ _ _ _ _ _ _ Hp (Hmax types)).
Qed.

(** What the second half of [rat_open] leaves. *)
Definition opened (b : Z) (pDir : list Z) (t : Z) (i : nat) (all : list entry) (h : handle) (w : world) : Prop :=
  ready b w /\ h = HList i /\ exists s, plays w i s all /\ str_path s = pDir /\ media_type s = t /\ open_cnt s = 1.

Lemma wpr_any {A} (m : R A) (Q : A -> world -> Prop) w x w' : m w = Some (x, w') -> Q x w' -> wp m Q w.
Proof. intros E. unfold wp. now rewrite E. Qed.

(** The list is given the place. *)
Lemma open_fill_ok b pDir t research upd id i L N S w sc all : hole L N S b i t -> 1 <= b -> file_types t <> None ->
  Z.of_nat (List.length pDir) < RAT_MAX_FULL_PATH_LEN -> S !! id = None ->
  g_rat_list w = L -> g_rat_npl w = N -> scans w = <[id := sc]> S -> settled sc all 0 ->
  wp (open_fill pDir t research upd id i) (opened b pDir t i all) w.
Proof.
  intros Hh Hb Hft Hlen Hid HL HN HS Hset. pose proof Hh as [_ _ Hsl (s0 & Hi & Hfree) _ _ _]. pose proof (lookup_lt_Some _ _ _ Hi) as Hil.
  destruct (Hsl i s0 Hi) as [_ H0]. rewrite Hfree in H0. destruct H0 as [H0 _].
  assert (forall w1 s, g_rat_list w1 = <[i := s]> L -> g_rat_npl w1 = N -> (exists sc1, scans w1 = <[id := sc1]> S /\ settled sc1 all 0) ->
    hscan s = Some id -> media_type s = t -> open_cnt s = 1 -> str_path s = pDir -> wp (leave (HList i)) (opened b pDir t i all) w1) as Hend.
  { intros w1 s EL EN (sc1 & ES & Hset1) E1 E2 E3 E4. apply wpr_leave. split.
    - apply ready_leave. unfold winv. rewrite EL, EN, ES. exact (fill_hole _ _ _ _ _ _ _ _ _ _ _ Hh Hid Hset1 E1 E2 E3 Hb Hft).
    - split; [reflexivity |]. exists s. split_and!; [| exact E4 | exact E2 | exact E3]. split; [cbn; rewrite EL; now apply list_lookup_insert_eq |].
      exists id, sc1, 0%nat. cbn. rewrite ES, lookup_insert_eq. done. }
  unfold open_fill. destruct (keeps_first _ all 0%nat (settled_allocs _ _ _ (mallocs w) Hset)) as (r & sc1 & g1 & E & Hset1 & _ & ->).
  apply wpr_bind. eapply wpr_scan; [rewrite HS; apply lookup_insert_eq | exact E |].
  apply wpr_bind, (wpr_update i _ L s0); [cbn; rewrite HL; now rewrite list_insert_id | exact Hil |]. intros w2 L2 N2 S2.
  apply wpr_bind, (wpr_update i _ L _ _ _ L2 Hil). intros w3 L3 N3 S3.
  apply wpr_bind, (wpr_update i _ L _ _ _ L3 Hil). intros w4 L4 N4 S4.
  apply wpr_bind, (wpr_update i _ L _ _ _ L4 Hil). intros w5 L5 N5 S5.
  apply wpr_bind. rewrite (proj2 (Z.ltb_lt _ _)) by exact Hlen. apply (wpr_update i _ L _ _ _ L5 Hil). intros w6 L6 N6 S6.
  assert ((if research then s32 (open_cnt (with_media t (with_hscan (Some id) s0)) + 1) else 1) = 1) as Ho by (destruct research; cbn; [now rewrite H0 | reflexivity]).
  rewrite Ho in L6. cbn [open_cnt with_open Z.ltb Z.compare] in L6.
  assert (scans w6 = <[id := sc1]> S) as HS6 by (rewrite S6, S5, S4, S3, S2; cbn; rewrite HS; apply insert_insert_eq).
  assert (g_rat_npl w6 = N) as HN6 by (rewrite N6, N5, N4, N3, N2; exact HN).
  apply wpr_bind. destruct upd.
  - apply wpr_bind. eapply wpr_scan; [rewrite HS6; apply lookup_insert_eq | reflexivity |].
    assert (CurCnt (with_allocs (mallocs w6) sc1) = Z.of_nat (length all)) as -> by exact (proj1 (settled_cnt _ _ _ Hset1)).
    apply wpr_bind. eapply wpr_update; [exact L6 | exact Hil |]. intros w7 L7 N7 S7. apply (wpr_update i _ L _ _ _ L7 Hil). intros w8 L8 N8 S8.
    eapply (Hend w8 _ L8); [rewrite N8, N7; exact HN6 | | | | |].
    + exists (with_allocs (mallocs w6) sc1). split; [rewrite S8, S7; cbn; rewrite HS6; apply insert_insert_eq | exact Hset1].
    + now repeat case_match.
    + now repeat case_match.
    + now repeat case_match.
    + now repeat case_match.
  - apply (wpr_update i _ L _ _ _ L6 Hil). intros w7 L7 N7 S7.
    eapply (Hend w7 _ L7); [rewrite N7; exact HN6 | exists sc1; split; [now rewrite S7 | exact Hset1] | done | done | done | done].
Qed.

Lemma dir_ok_len d root : dir_ok d root -> Z.of_nat (List.length root) < RAT_MAX_FULL_PATH_LEN.
Proof. intros (depth & H & _). exact (proj2 (tree_ok_path _ _ _ H)). Qed.

Lemma fresh_unused w : scans w !! fresh_id w = None.
Proof. apply (not_elem_of_dom (D := gset nat)). unfold fresh_id. apply is_fresh. Qed.

(** The scan and the choice of a place. *)
Lemma open_search_ok b pDir t research upd w : dir_ok (disk w) pDir -> 1 <= b ->
  match research with
  | Some i => hole (g_rat_list w) (g_rat_npl w) (scans w) b i t /\ file_types t <> None
  | None => winv w b
  end ->
  wp (open_search mem_ok junk fuel pDir t 0 research upd) (fun _ w' => ready b w') w.
Proof.
  intros Hd Hb Hr. unfold open_search. destruct (file_types t) as [types |] eqn:Et.
  2: { apply wpr_leave. destruct research as [i |]; [now destruct Hr | now apply ready_leave]. }
  destruct (begin_ok (disk w) pDir types (mallocs w) Hd) as (sc & k & all & E & Hset).
  apply wpr_bind. eapply wpr_any; [unfold scan_begin; rewrite E; reflexivity |]. cbv beta iota zeta.
  assert (scans w !! fresh_id w = None) as Hfr by exact (fresh_unused w).
  apply wpr_bind, wpr_get. cbn [g_rat_list with_scans]. pose proof (dir_ok_len _ _ Hd) as Hlen.
  destruct research as [i |].
  - destruct Hr as [Hh Hft]. rewrite bool_decide_eq_false_2 by done.
    eapply wpr_mono; [eapply open_fill_ok; [exact Hh | exact Hb | congruence | exact Hlen | exact Hfr | reflexivity | reflexivity | reflexivity | exact Hset] |].
    intros h w' [H _]. exact H.
  - rewrite bool_decide_eq_true_2 by done. destruct (find_slot _ (g_rat_list w)) as [i |] eqn:Ef.
    + apply find_slot_some in Ef as (s & Hi & Hs). apply andb_true_iff in Hs as [Hs _]. apply bool_decide_eq_true in Hs.
      eapply wpr_mono; [eapply open_fill_ok; [exact (hole_consistent _ _ _ _ _ _ _ Hr Hi Hs) | exact Hb | congruence | exact Hlen | exact Hfr | reflexivity | reflexivity | reflexivity | exact Hset] |].
      intros h w' [H _]. exact H.
    + apply wpr_bind. eapply wpr_any; [unfold ScanFree; cbn [scans with_scans]; rewrite lookup_insert_eq; reflexivity |].
      apply wpr_leave, ready_leave. unfold winv. cbn. rewrite delete_insert_id by exact Hfr. exact Hr.
Qed.

(** One more or one less user. *)
Lemma consistent_open L N S b b' i s id n : consistent L N S b -> L !! i = Some s -> hscan s = Some id -> 0 < n <= b' -> b <= b' ->
  consistent (<[i := with_open n s]> L) N S b'.
Proof.
  intros [H1 H2 H3 H4 H5 H6] Hi Hs Hn Hb. pose proof (lookup_lt_Some _ _ _ Hi) as Hil.
  assert (forall j u, <[i := with_open n s]> L !! j = Some u -> exists u0, L !! j = Some u0 /\ hscan u = hscan u0 /\ media_type u = media_type u0 /\
    ((open_cnt u = n /\ hscan u0 = Some id) \/ (u = u0))) as Hback.
  { intros j u Hj. apply lookup_update in Hj as [(<- & -> & _) | [_ Hj]]; [exists s; split_and!; auto | exists u; split_and!; auto]. }
  split.
  - now rewrite length_insert.
  - exact H2.
  - intros j u Hj. destruct (Hback j u Hj) as (u0 & Hj0 & E1 & E2 & Hor). destruct (H3 j u0 Hj0) as [Hb0 Hu]. unfold slot_ok. rewrite E1, E2.
    destruct Hor as [[E3 Eid] | ->]; [| split; [lia | exact Hu]]. split; [lia |]. rewrite Eid in *. destruct Hu as [[_ Hft] Hu]. split; [split; [lia | exact Hft] | exact Hu].
  - intros j k u v id' Hj Hk Eu Ev. destruct (Hback j u Hj) as (u0 & Hj0 & E1 & _). destruct (Hback k v Hk) as (v0 & Hk0 & F1 & _). apply (H4 j k u0 v0 id'); congruence.
  - intros id' Hid'. destruct (H5 id' Hid') as (j & u & Hj & Eu). destruct (decide (i = j)) as [<- | Hne].
    + exists i, (with_open n s). split; [now apply list_lookup_insert_eq |]. cbn. congruence.
    + exists j, u. rewrite list_lookup_insert_ne by exact Hne. done.
  - intros t j Hj. destruct (H6 t j Hj) as (u & Hu & Hne & Em). destruct (decide (i = j)) as [<- | Hij].
    + exists (with_open n s). rewrite list_lookup_insert_eq by exact Hil. split_and!; [done | cbn; congruence | cbn; congruence].
    + exists u. rewrite list_lookup_insert_ne by exact Hij. done.
Qed.

Lemma live_type w b i s id : winv w b -> g_rat_list w !! i = Some s -> hscan s = Some id ->
  file_types (media_type s) <> None /\ 0 <= media_type s /\ exists o, g_rat_npl w !! Z.to_nat (media_type s) = Some o.
Proof.
  intros Hw Hi Hs. destruct (winv_slots _ _ _ _ Hw i s Hi) as [_ Hsl]. rewrite Hs in Hsl. destruct Hsl as [[_ Hft] _].
  destruct (file_types (media_type s)) as [ty |] eqn:E; [| contradiction]. pose proof (file_types_range _ _ E) as Hr. split_and!; [done | lia |].
  apply lookup_lt_is_Some_2. rewrite (winv_npls _ _ _ _ Hw). lia.
Qed.

Lemma rat_open_ok pDir t b w : ready b w -> 0 <= b < 2 ^ 31 - 1 -> dir_ok (disk w) pDir ->
  wp (rat_open mem_ok junk fuel pDir t 0) (fun _ w' => ready (b + 1) w') w.
Proof.
  intros [Hw Hl] Hb Hd. unfold rat_open. apply wpr_bind, wpr_enter; [exact Hl |]. apply wpr_bind, wpr_get.
  assert (winv (with_lock true w) (b + 1)) as Hw1 by (apply (winv_mono _ b); [lia | exact Hw]).
  destruct (find_slot _ _) as [i |] eqn:Ef.
  2: { apply (open_search_ok (b + 1)); [exact Hd | lia | exact Hw1]. }
  apply find_slot_some in Ef as (s & Hi & Hm). apply andb_true_iff in Hm as [_ Hm]. apply Z.eqb_eq in Hm.
  apply wpr_bind, (wpr_slot i s); [exact Hi |]. destruct (open_cnt s =? 0); [apply wpr_leave; now apply ready_leave |].
  destruct (hscan s) as [id |] eqn:Hs; [| apply wpr_leave; now apply ready_leave].
  destruct (live w b i s id Hw Hi Hs) as [Ho (sc & all & g & Esc & Hset)]. destruct (modify_flag s =? 0).
  - apply wpr_bind, (wpr_set_slot i _ s); [exact Hi |]. rewrite s32_id by lia.
    pose proof (consistent_open _ _ _ b (b + 1) i s id (open_cnt s + 1) Hw Hi Hs ltac:(lia) ltac:(lia)) as Hc.
    apply wpr_bind. eapply (wpr_keeps id _ _ sc all g (b + 1)); [exact Hc | exact keeps_first | exact Esc | exact Hset |].
    intros x sc' g' _ _ Hw'. apply wpr_leave. now apply ready_leave.
  - destruct (live_type w b i s id Hw Hi Hs) as (Hft & Ht0 & o & Eo). apply wpr_bind, (wpr_npl t o); [now rewrite Hm | now rewrite Hm |].
    apply wpr_bind. eapply wpr_any; [unfold ScanFree; cbn [scans with_lock]; rewrite Esc; reflexivity |].
    apply wpr_bind, (wpr_set_slot i _ s); [exact Hi |]. rewrite Hm.
    apply (open_search_ok (b + 1)); [exact Hd | lia |].
    split; [| exact Hft]. exact (clear_hole _ _ _ (b + 1) i s id Hw1 Hi Hs).
Qed.

(** The playlists that point to a freed place are cleared. *)
Lemma hole_unpointed L N S b i t : hole L N S b i t -> (forall t', N !! t' <> Some (Some i)) -> consistent L N S b.
Proof.
  intros [H1 H2 H3 _ H4 H5 H6] Hn. split; try assumption. intros t' j Hj. destruct (H6 t' j Hj) as [[-> _] | H]; [now apply Hn in Hj | exact H].
Qed.

Lemma hole_unpoint L N S b i t : hole L N S b i t -> 0 <= t -> consistent L (if bool_decide (N !! Z.to_nat t = Some (Some i)) then <[Z.to_nat t := None]> N else N) S b.
Proof.
  intros [H1 H2 H3 (s0 & Hi & Hf) H4 H5 H6] Ht. set (N' := if bool_decide _ then _ else _).
  assert (forall t' j, N' !! t' = Some (Some j) -> N !! t' = Some (Some j) /\ (t' = Z.to_nat t -> j <> i)) as HN.
  { intros t' j. unfold N'. case_bool_decide as E.
    - intros Hj. apply lookup_update in Hj as [(_ & ? & _) | [Hne Hj]]; [discriminate | split; [exact Hj | congruence]].
    - intros Hj. split; [exact Hj | intros -> ->; contradiction]. }
  split; try assumption; [unfold N'; case_bool_decide; [now rewrite length_insert | exact H2] |].
  intros t' j Hj. destruct (HN t' j Hj) as [Hj' Hne]. destruct (H6 t' j Hj') as [[-> Et] | H]; [exfalso; apply Hne; [lia | reflexivity] | exact H].
Qed.

Lemma rat_close_ok h b w : ready b w -> handle_ok h -> b < 2 ^ 31 -> wp (rat_close h) (fun _ w' => ready b w') w.
Proof.
  intros [Hw Hl] Hh Hb. unfold rat_close. apply wpr_bind. eapply wpr_scan_of; [exact Hw | exact Hh | destruct h; now split |].
  intros j s id -> Hj Hs. apply wpr_bind, wpr_enter; [exact Hl |]. apply wpr_bind, wpr_get.
  destruct (find_slot _ _) as [i |] eqn:Ef.
  2: { apply wpr_leave. now apply ready_leave. }
  apply find_slot_some in Ef as (s' & Hi & Hs'). apply bool_decide_eq_true in Hs'. cbn in Hi.
  assert (i = j) as -> by exact (winv_once _ _ _ _ Hw i j s' s id Hi Hj Hs' Hs). assert (s' = s) as -> by congruence.
  destruct (live w b j s id Hw Hj Hs) as [Ho (sc & all & g & Esc & Hset)]. pose proof (lookup_lt_Some _ _ _ Hj) as Hjl.
  apply wpr_bind, (wpr_set_slot j _ s); [exact Hj |]. rewrite s32_id by lia.
  apply wpr_bind, (wpr_slot j (with_open (open_cnt s - 1) s)); [now apply list_lookup_insert_eq |]. apply wpr_bind. cbn [open_cnt with_open].
  destruct (Z.eqb_spec (open_cnt s - 1) 0) as [E0 | Hne].
  - apply wpr_bind. eapply wpr_any; [unfold ScanFree; cbn [scans with_lock with_list]; rewrite Esc; reflexivity |].
    apply wpr_bind. eapply wpr_update; [reflexivity | exact Hjl |]. intros w3 L3 N3 S3. cbn [g_rat_npl scans with_lock with_list with_scans] in *.
    pose proof (clear_hole _ _ _ b j s id Hw Hj Hs) as Hh3. change (clear_slot (with_open (open_cnt s - 1) s)) with (clear_slot s) in L3.
    destruct (live_type w b j s id Hw Hj Hs) as (_ & Ht0 & o & Eo). cbn [media_type with_open].
    pose proof (hole_unpoint _ _ _ _ _ _ Hh3 Ht0) as Hc.
    apply wpr_bind, (wpr_npl _ o); [exact Ht0 | now rewrite N3 |]. rewrite Eo in Hc. destruct (decide (o = Some j)) as [-> | Ep].
    + rewrite bool_decide_eq_true_2 in Hc by done. rewrite bool_decide_eq_true_2 by done. eapply wpr_set_npl; [exact Ht0 | rewrite N3; exact Eo |].
      apply wpr_leave. apply ready_leave. unfold winv. cbn. rewrite L3, N3, S3. exact Hc.
    + rewrite bool_decide_eq_false_2 in Hc by congruence. rewrite bool_decide_eq_false_2 by exact Ep. apply wpr_ret, wpr_leave, ready_leave. unfold winv. rewrite L3, N3, S3. exact Hc.
  - apply wpr_ret, wpr_leave, ready_leave. exact (consistent_open _ _ _ b b j s id (open_cnt s - 1) Hw Hj Hs ltac:(lia) ltac:(lia)).
Qed.

(** ** Lookup by index, the file to play *)

Lemma move_n_total s ess n : chain_ok (Lists s) ess -> forall k c g, on ess c g ->
  exists k' c' g', move_n n k c s = Some ((k', c'), s) /\ on ess c' g'.
Proof.
  intros Hc. induction n as [| n IH]; intros k c g Hon; cbn [move_n]; [now exists k, c, g |].
  pose proof (move_next_ok s ess c g Hc Hon) as Hmv. destruct (S g <? length (concat ess))%nat.
  - destruct Hmv as (c' & E & Hon'). mrun E. cbv beta iota. change (negb (EPDK_OK =? EPDK_OK)) with false. cbv iota. exact (IH _ _ _ Hon').
  - mrun Hmv. cbv beta iota. change (negb (EPDK_FAIL =? EPDK_OK)) with true. cbv iota. now exists k, c, g.
Qed.

Definition item_body (index : Z) (id : nat) : R (Z * option (Z * list Z)) :=
  cnt ← on_scan id ScanGetCurCnt;
  if (cnt <=? 0) || (cnt <=? index) then leave (EPDK_FAIL, None) else
  '(e, c) ← on_scan id (entry_by_index index);
  on_scan id (put (with_tmp c));;
  leave (match e with Some (Some x) => (EPDK_OK, Some x) | _ => (EPDK_FAIL, None) end).

(** An index below 0 is refused after the walk, one too large before it. *)
Lemma item_serves index b w i s id sc all g : winv w b -> g_rat_list w !! i = Some s -> hscan s = Some id -> scans w !! id = Some sc -> settled sc all g ->
  wp (item_body index id) (post (fun all s r s' => s' = s /\
    r = match (if index <? 0 then None else all !! Z.to_nat index) with Some e => (EPDK_OK, Some e) | None => (EPDK_FAIL, None) end) b i s all (g_rat_npl w)) w.
Proof.
  intros Hw Hi Hid Esc Hs. unfold item_body. eapply with_count; try eassumption.
  intros w1 sc1 Hw1 Hi1 Esc1 Hs1 Hp1 _ HN1. destruct (orb _ _) eqn:Eo.
  { apply end_same; [exact Hw1 | exact Hp1 | exact HN1 |]. split; [done |]. destruct (Z.ltb_spec index 0); [done |]. rewrite lookup_ge_None_2 by lia. done. }
  assert (exists e c, entry_by_index index (with_allocs (mallocs w1) sc1) = Some ((e, c), with_allocs (mallocs w1) sc1) /\
    match e with Some (Some x) => (EPDK_OK, Some x) | _ => (EPDK_FAIL, None) end =
    match (if index <? 0 then None else all !! Z.to_nat index) with Some e => (EPDK_OK, Some e) | None => (EPDK_FAIL, None) end) as (e & c & E & Er).
  { destruct (Z.ltb_spec index 0) as [Hneg | Hpos].
    - unfold entry_by_index. replace (Z.to_nat index) with 0%nat by lia. cbn [move_n]. mstep. destruct (Z.eqb_spec 0 index); [lia |]. now exists None, first_cursor.
    - destruct (entry_by_index_ok (with_allocs (mallocs w1) sc1) all g index Hs1 ltac:(lia)) as (e & c & Ee & E). exists (Some (Some e)), c. now rewrite Ee. }
  eapply with_reading; [exact Hw1 | exact Hi1 | exact Hid | exact Esc1 | exact Hs1 | exact E |].
  intros w2 Hw2 (Hi2 & id2 & sc2 & g2 & Hid2 & Esc2 & Hs2) HN2. cbv beta iota. assert (id2 = id) as -> by congruence.
  apply wpr_bind. eapply wpr_scan; [exact Esc2 | reflexivity |]. apply end_same; [| | exact (eq_trans HN2 HN1) | now rewrite Er].
  - exact (winv_scan _ _ _ _ _ _ _ _ Hw2 Esc2 (settled_tmp _ _ _ c (settled_allocs _ _ _ (mallocs w2) Hs2))).
  - split; [exact Hi2 |]. exists id, (with_tmp c (with_allocs (mallocs w2) sc2)), g2. split_and!; [exact Hid | apply lookup_insert_eq | exact Hs2].
Qed.

Lemma item_by_index_ok h index b w : ready b w -> handle_ok h -> wp (rat_get_item_info_by_index h index) (fun _ w' => ready b w') w.
Proof.
  intros [Hw Hl] Hh. unfold rat_get_item_info_by_index.
  destruct h as [| i |]; [now split | | apply wpr_bind, wpr_enter; [exact Hl |]; apply wpr_bind, wpr_ret, wpr_leave; now apply ready_leave].
  apply wpr_bind, wpr_enter; [exact Hl |]. apply wpr_bind. eapply (wpr_scan_of _ b); [exact Hw | exact Hh | apply wpr_leave; now apply ready_leave |].
  intros j s id [= <-] Hi Hs. destruct (live _ b _ _ _ Hw Hi Hs) as [_ (sc & all & g & Esc & Hset)].
  eapply wpr_mono; [exact (item_serves index b (with_lock true w) i s id sc all g Hw Hi Hs Esc Hset) |]. intros r w' [H _]. exact H.
Qed.

Lemma npl_open_ok t b w : ready b w -> 0 <= t < RAT_MEDIA_TYPE_MAX ->
  exists h w', rat_npl_open t w = Some (h, w') /\ w' = w /\ handle_ok h /\ (forall i, h = HList i <-> g_rat_npl w !! Z.to_nat t = Some (Some i)) /\ h <> HNull.
Proof.
  intros [Hw Hl] Ht. destruct (lookup_lt_is_Some_2 (g_rat_npl w) (Z.to_nat t)) as [o Eo]; [rewrite (winv_npls _ _ _ _ Hw); lia |].
  unfold rat_npl_open, mbind, R_bind, enter. rewrite Hl. unfold npl, mbind, R_bind, rget, rlift. cbn [g_rat_npl with_lock]. rewrite (proj2 (Z.leb_le _ _)), Eo by lia.
  destruct o as [i |]; (eexists _, _; split; [reflexivity |]; rewrite (unlock _ Hl); split_and!; [reflexivity | | | discriminate]); try done.
  - destruct (winv_playlists _ _ _ _ Hw _ _ Eo) as (s & Hi & _). apply lookup_lt_Some in Hi. cbn. now rewrite <- (winv_lists _ _ _ _ Hw).
  - intros j. split; [intros [= <-]; reflexivity | intros [= <-]; reflexivity].
Qed.

(** A playlist may point to any open list of its type. *)
Lemma consistent_point L N S b t i s : consistent L N S b -> L !! i = Some s -> hscan s <> None -> media_type s = Z.of_nat t ->
  consistent L (<[t := Some i]> N) S b.
Proof.
  intros [H1 H2 H3 H4 H5 H6] Hi Hs Hm. split; try assumption; [now rewrite length_insert |].
  intros t' j Hj. apply lookup_update in Hj as [(<- & [= ->] & _) | [_ Hj]]; [now exists s | exact (H6 t' j Hj)].
Qed.

Lemma consistent_unpoint L N S b t : consistent L N S b -> consistent L (<[t := None]> N) S b.
Proof.
  intros [H1 H2 H3 H4 H5 H6]. split; try assumption; [now rewrite length_insert |].
  intros t' j Hj. apply lookup_update in Hj as [(_ & ? & _) | [_ Hj]]; [discriminate | exact (H6 t' j Hj)].
Qed.

Lemma index_of_some path l k : index_of path l = Some k -> exists e, l !! k = Some e /\ e.2 = path.
Proof.
  revert k. induction l as [| e l IH]; intros k; [discriminate |]. cbn [index_of]. case_bool_decide as E; [intros [= <-]; now exists e |].
  destruct (index_of path l) as [j |]; [| discriminate]. intros [= <-]. exact (IH j eq_refl).
Qed.

Lemma index_of_bound path l k : index_of path l = Some k -> (k < length l)%nat.
Proof. intros H. destruct (index_of_some _ _ _ H) as (e & He & _). exact (lookup_lt_Some _ _ _ He). Qed.

(** [rat_set_file_for_play]: the list becomes the playlist of its type, at the file, or at
    the first one if the file is not in the list. *)
Definition start_index (path : list Z) (all : list entry) : Z := match index_of path all with Some k => Z.of_nat k | None => 0 end.

Lemma play_plays b w i s all file : ready b w -> plays w i s all ->
  wp (rat_set_file_for_play (HList i) file) (fun r w' => r = 0 /\ ready b w' /\ g_rat_npl w' !! Z.to_nat (media_type s) = Some (Some i) /\
    exists s', plays w' i s' all /\ alike s s' /\ play_mode s' = play_mode s /\
      npl_cur_index s' = if Z.of_nat (length all) <=? 0 then npl_cur_index s else start_index file all) w.
Proof.
  intros [Hw Hl] (Hi & id & sc & g & Hid & Esc & Hs). unfold rat_set_file_for_play. apply wpr_bind. cbn [scan_of].
  apply wpr_bind, (wpr_slot i s); [exact Hi |]. apply wpr_ret. rewrite Hid.
  destruct (live_type w b i s id Hw Hi Hid) as (Hft & Ht0 & o & Eo).
  destruct (file_types (media_type s)) as [ty |] eqn:Ety; [| contradiction]. pose proof (file_types_range _ _ Ety) as Htr.
  apply wpr_bind, wpr_enter; [exact Hl |]. apply wpr_bind, (wpr_slot i s); [exact Hi |].
  apply wpr_bind. eapply wpr_set_npl; [exact Ht0 | exact Eo |]. apply wpr_bind, wpr_leave. set (w1 := with_lock false _).
  assert (ready b w1) as Hr1.
  { split; [| reflexivity]. refine (consistent_point _ _ _ _ _ i s Hw Hi _ _); [congruence | lia]. }
  apply wpr_bind, (wpr_slot i s); [exact Hi |].
  destruct (npl_open_ok (media_type s) b w1 Hr1 Htr) as (h & w2 & E & -> & _ & Hh & _).
  assert (h = HList i) as ->.
  { apply Hh. unfold w1. cbn. apply list_lookup_insert_eq. eapply lookup_lt_Some. exact Eo. }
  apply wpr_bind. eapply wpr_any; [exact E |]. apply wpr_bind.
  assert (plays w1 i s all) as Hp1 by (split; [exact Hi | now exists id, sc, g]).
  pose proof (playlist_plays always i s all (-1) (-1) (file2index_body file) _ b w1 (file2index_serves file) Hr1 Hp1 I) as Hf.
  destruct (wpr_run _ _ _ Hf) as (r & w2 & Er & Hr2 & HN2 & s2 & Hp2 & Ha2 & -> & Ei2 & Em2). eapply wpr_any; [exact Er |].
  assert ((if (match index_of file all with Some k => Z.of_nat k | None => -1 end) =? -1 then 0 else match index_of file all with Some k => Z.of_nat k | None => -1 end)
    = start_index file all) as ->.
  { unfold start_index. destruct (index_of file all); [destruct (Z.eqb_spec (Z.of_nat n) (-1)); [lia | reflexivity] | reflexivity]. }
  apply wpr_bind. eapply wpr_mono; [exact (playlist_plays always i s2 all (-1) (-1) _ _ b w2 (set_cur_serves (start_index file all)) Hr2 Hp2 I) |].
  intros r3 w3 (Hr3 & HN3 & s3 & Hp3 & Ha3 & Em3 & Hif). apply wpr_bind, wpr_ret, wpr_ret.
  split_and!; [reflexivity | exact Hr3 | |].
  - rewrite HN3, HN2. unfold w1. cbn. apply list_lookup_insert_eq. eapply lookup_lt_Some. exact Eo.
  - exists s3. split; [exact Hp3 |]. split; [unfold alike in *; intuition congruence |]. split; [congruence |].
    destruct (Z.leb_spec (Z.of_nat (length all)) 0) as [Hz | Hpos]; cbn [orb] in Hif; [destruct Hif; congruence |].
    destruct (Z.leb_spec (Z.of_nat (length all)) (start_index file all)) as [Hge | _]; [| destruct Hif; congruence].
    unfold start_index in Hge. destruct (index_of file all) as [k |] eqn:Ek; [apply index_of_bound in Ek; lia | lia].
Qed.

Lemma play_ok h b w file : ready b w -> handle_ok h -> wp (rat_set_file_for_play h file) (fun _ w' => ready b w') w.
Proof.
  intros [Hw Hl] Hh. destruct h as [| i |]; [now split | | now split]. destruct (handle_slot w b i Hw Hh) as [s Hi].
  destruct (hscan s) as [id |] eqn:Hs.
  - destruct (live _ _ _ _ _ Hw Hi Hs) as [_ (sc & all & g & Esc & Hset)].
    eapply wpr_mono; [apply (play_plays b w i s all file); [now split | split; [exact Hi | now exists id, sc, g]] |]. intros r w' (_ & H & _). exact H.
  - unfold rat_set_file_for_play. apply wpr_bind. cbn [scan_of]. apply wpr_bind, (wpr_slot i s); [exact Hi |]. apply wpr_ret. rewrite Hs. now split.
Qed.

(** ** Clearing *)

(** No playlist from [t] down points to a list that fits. *)
Definition unpointed (fits : rat_list -> bool) (L : list rat_list) (N : list (option nat)) : Prop :=
  forall t i s, N !! t = Some (Some i) -> L !! i = Some s -> fits s = false.

Lemma clear_npls_ok fits n : forall t b w, winv w b -> 0 <= t -> Z.of_nat n + t = RAT_MEDIA_TYPE_MAX ->
  (forall t' i s, (t' < Z.to_nat t)%nat -> g_rat_npl w !! t' = Some (Some i) -> g_rat_list w !! i = Some s -> fits s = false) ->
  wp (clear_npls fits n t) (fun _ w' => winv w' b /\ unpointed fits (g_rat_list w') (g_rat_npl w')) w.
Proof.
  induction n as [| n IH]; intros t b w Hw Ht Hn Hun; cbn [clear_npls].
  - apply wpr_ret. split; [exact Hw |]. intros t' i s Hj. apply (Hun t' i s); [| exact Hj]. apply lookup_lt_Some in Hj. rewrite (winv_npls _ _ _ _ Hw) in Hj. lia.
  - destruct (lookup_lt_is_Some_2 (g_rat_npl w) (Z.to_nat t)) as [o Eo]; [rewrite (winv_npls _ _ _ _ Hw); lia |].
    apply wpr_bind, (wpr_npl t o); [exact Ht | exact Eo |]. apply wpr_bind.
    assert (forall w', winv w' b -> g_rat_list w' = g_rat_list w ->
      (forall t' i s, (t' < Z.to_nat (t + 1))%nat -> g_rat_npl w' !! t' = Some (Some i) -> g_rat_list w !! i = Some s -> fits s = false) ->
      wp (clear_npls fits n (t + 1)) (fun _ w' => winv w' b /\ unpointed fits (g_rat_list w') (g_rat_npl w')) w') as Hnext.
    { intros w' Hw' HL Hun'. apply IH; [exact Hw' | lia | lia | now rewrite HL]. }
    destruct o as [i |].
    + destruct (winv_playlists _ _ _ _ Hw _ _ Eo) as (s & Hi & _). apply wpr_bind, (wpr_slot i s); [exact Hi |]. destruct (fits s) eqn:Ef.
      * eapply wpr_set_npl; [exact Ht | exact Eo |]. apply Hnext; [exact (consistent_unpoint _ _ _ _ _ Hw) | reflexivity |].
        intros t' j u Hlt Hj. cbn in Hj. apply lookup_update in Hj as [(_ & ? & _) | [Hne Hj]]; [discriminate |]. apply (Hun t' j u); [lia | exact Hj].
      * apply wpr_ret, Hnext; [exact Hw | reflexivity |]. intros t' j u Hlt Hj Hu. destruct (decide (t' = Z.to_nat t)) as [-> |]; [congruence |].
        apply (Hun t' j u); [lia | exact Hj | exact Hu].
    + apply wpr_ret, Hnext; [exact Hw | reflexivity |]. intros t' j u Hlt Hj Hu. destruct (decide (t' = Z.to_nat t)) as [-> |]; [congruence |].
      apply (Hun t' j u); [lia | exact Hj | exact Hu].
Qed.

(** A fitting list has a scan no more, or is one of those still to come. *)
Lemma clear_slots_ok fits n : forall i b w, winv w b -> (n + i = RAT_MAX_LIST_CNT)%nat -> unpointed fits (g_rat_list w) (g_rat_npl w) ->
  wp (clear_slots fits n i) (fun _ w' => winv w' b /\ forall j s', g_rat_list w' !! j = Some s' ->
    g_rat_list w !! j = Some s' \/ hscan s' = None) w.
Proof.
  induction n as [| n IH]; intros i b w Hw Hn Hun; cbn [clear_slots]; [apply wpr_ret; split; [exact Hw |]; now left |].
  destruct (handle_slot w b i Hw ltac:(lia)) as [s Hi]. apply wpr_bind, (wpr_slot i s); [exact Hi |]. apply wpr_bind.
  destruct (hscan s) as [id |] eqn:Hs; [destruct (fits s) eqn:Ef |]; [| now apply wpr_ret, IH; [| lia |] ..].
  destruct (live _ _ _ _ _ Hw Hi Hs) as [_ (sc & all & g & Esc & Hset)].
  apply wpr_bind. eapply wpr_any; [unfold ScanFree; rewrite Esc; reflexivity |]. eapply wpr_set_slot; [exact Hi |].
  pose proof (clear_hole _ _ _ b i s id Hw Hi Hs) as Hh.
  assert (consistent (<[i := clear_slot s]> (g_rat_list w)) (g_rat_npl w) (delete id (scans w)) b) as Hc.
  { apply (hole_unpointed _ _ _ _ i (media_type s)); [exact Hh |]. intros t' Hp. rewrite (Hun t' i s Hp Hi) in Ef. discriminate. }
  eapply wpr_mono; [apply IH; [exact Hc | lia |] |].
  - intros t' j u Hp Hu. cbn in Hp, Hu. apply lookup_update in Hu as [(<- & _ & _) | [_ Hu]]; [| exact (Hun t' j u Hp Hu)].
    rewrite (Hun t' i s Hp Hi) in Ef. discriminate.
  - intros _ w' [Hw' Hj]. split; [exact Hw' |]. intros j u Hu. destruct (Hj j u Hu) as [Hu' | Hu']; [| now right].
    cbn in Hu'. apply lookup_update in Hu' as [(_ & -> & _) | [_ Hu']]; [now right | now left].
Qed.

Lemma clear_lists_ok fits b w : ready b w -> wp (clear_lists fits) (fun _ w' => ready b w') w.
Proof.
  intros [Hw Hl]. unfold clear_lists. apply wpr_bind, wpr_enter; [exact Hl |]. apply wpr_bind.
  eapply wpr_mono; [apply (clear_npls_ok fits _ 0 b); [exact Hw | lia | reflexivity | intros; lia] |]. intros _ w1 [Hw1 Hun]. apply wpr_bind.
  eapply wpr_mono; [apply (clear_slots_ok fits _ 0 b w1 Hw1); [lia | exact Hun] |]. intros _ w2 [Hw2 _]. apply wpr_leave. now apply ready_leave.
Qed.

Lemma set_modify_ok fits v n : forall i b w, winv w b -> (n + i = RAT_MAX_LIST_CNT)%nat -> wp (set_modify fits v n i) (fun _ w' => winv w' b) w.
Proof.
  induction n as [| n IH]; intros i b w Hw Hn; cbn [set_modify]; [now apply wpr_ret |].
  destruct (handle_slot w b i Hw ltac:(lia)) as [s Hi]. apply wpr_bind, (wpr_slot i s); [exact Hi |]. apply wpr_bind.
  destruct (_ && _); [| apply wpr_ret, IH; [exact Hw | lia]]. eapply wpr_set_slot; [exact Hi |]. apply IH; [| lia].
  exact (winv_alike w b i s (with_modify v s) Hw Hi ltac:(done)).
Qed.

Lemma set_modify_call fits v b w : ready b w -> wp (enter;; set_modify fits v RAT_MAX_LIST_CNT 0;; leave EPDK_OK) (fun _ w' => ready b w') w.
Proof.
  intros [Hw Hl]. apply wpr_bind, wpr_enter; [exact Hl |]. apply wpr_bind. eapply wpr_mono; [apply (set_modify_ok fits v _ 0 b); [exact Hw | lia] |].
  intros x w' Hw'. apply wpr_leave. now apply ready_leave.
Qed.

(** The start of the module, and of the program. *)
Lemma zero_consistent N b : 0 <= b -> length N = Z.to_nat RAT_MEDIA_TYPE_MAX -> (forall t i, N !! t <> Some (Some i)) ->
  consistent (replicate RAT_MAX_LIST_CNT zero_list) N ∅ b.
Proof.
  intros Hb HN Hn. split; [now rewrite length_replicate | exact HN | | | |].
  - intros i s Hi. apply lookup_replicate in Hi as [-> _]. split; cbn; [lia | done].
  - intros i j s t id Hi _ Hs. apply lookup_replicate in Hi as [-> _]. discriminate.
  - intros id [sc Hid]. rewrite lookup_empty in Hid. discriminate.
  - intros t i Hi. now apply Hn in Hi.
Qed.

Lemma boot_ready d t : ready 0 (boot d t).
Proof.
  split; [| reflexivity]. apply zero_consistent; [lia | reflexivity |].
  intros u i Hu. apply lookup_replicate in Hu as [? _]. discriminate.
Qed.

(** [rat_init] with lists still open would forget them. *)
Lemma rat_init_ok b w : ready b w -> 0 <= b -> has_init w = true \/ scans w = ∅ -> wp rat_init (fun _ w' => ready b w') w.
Proof.
  intros [Hw Hl] Hb Hi. unfold rat_init. apply wpr_bind, wpr_get. destruct (has_init w) eqn:E; [apply wpr_ret; now split |].
  destruct Hi as [? | Hs]; [discriminate |]. do 3 (apply wpr_bind, wpr_put). apply wpr_ret. split; [| reflexivity].
  unfold winv. cbn. rewrite Hs. apply zero_consistent; [exact Hb | exact (winv_npls _ _ _ _ Hw) |].
  intros t i Hp. destruct (winv_playlists _ _ _ _ Hw t i Hp) as (s & Hi & Hne & _). destruct (winv_slots _ _ _ _ Hw i s Hi) as [_ Hsl].
  destruct (hscan s) as [id |]; [| contradiction]. destruct Hsl as [_ (sc & _ & _ & Esc & _)]. rewrite Hs, lookup_empty in Esc. discriminate.
Qed.

Lemma rat_deinit_ok b w : ready b w -> wp rat_deinit (fun _ w' => ready b w') w.
Proof.
  intros Hr. unfold rat_deinit. apply wpr_bind, wpr_get. destruct (negb _); [now apply wpr_ret |]. apply wpr_bind.
  eapply wpr_mono; [exact (clear_lists_ok _ _ _ Hr) |]. intros x w' [Hw' Hl']. apply wpr_bind, wpr_put, wpr_ret. now split.
Qed.

(** ** Every call *)

Inductive call :=
  | Open (pDir : list Z) (t : Z) | Close (h : handle)
  | MoveFirst (h : handle) | MoveForward (h : handle) (n : nat) | MoveBackward (h : handle) (n : nat) | CursorEnd (h : handle)
  | CurItem (h : handle) | ScanCnt (h : handle) | ItemAt (h : handle) (index : Z) | Play (h : handle) (file : list Z)
  | NplOpen (t : Z) | FileIndex (h : handle) (path : list Z) | IndexFile (h : handle) (index : Z)
  | Next (h : handle) | Prev (h : handle) | Cur (h : handle) | SetCur (h : handle) (index : Z)
  | SetMode (h : handle) (mode : Z) | Mode (h : handle) | Total (h : handle)
  | ClearRoot (c : Z) | ClearAll | SetModify (t v : Z) | SetModifyAll (v : Z) | Init | Deinit.

Inductive result := RZ (z : Z) | RH (h : handle) | RE (r : Z * option entry) | RF (r : Z * option (list Z)).

Definition exec (c : call) : R result :=
  match c with
  | Open p t => h ← rat_open mem_ok junk fuel p t 0; mret (RH h)
  | Close h => r ← rat_close h; mret (RZ r)
  | MoveFirst h => r ← rat_move_cursor_to_first h; mret (RZ r)
  | MoveForward h n => r ← rat_move_cursor_forward mem_ok junk fuel h n; mret (RZ r)
  | MoveBackward h n => r ← rat_move_cursor_backward h n; mret (RZ r)
  | CursorEnd h => r ← rat_is_cursor_end h; mret (RZ r)
  | CurItem h => r ← rat_get_cur_item_info h; mret (RE r)
  | ScanCnt h => r ← rat_get_cur_scan_cnt h; mret (RZ r)
  | ItemAt h i => r ← rat_get_item_info_by_index h i; mret (RE r)
  | Play h f => r ← rat_set_file_for_play h f; mret (RZ r)
  | NplOpen t => h ← rat_npl_open t; mret (RH h)
  | FileIndex h p => r ← rat_npl_file2index h p; mret (RZ r)
  | IndexFile h i => r ← rat_npl_index2file h i; mret (RF r)
  | Next h => r ← rat_npl_get_next rand h; mret (RZ r)
  | Prev h => r ← rat_npl_get_prev rand h; mret (RZ r)
  | Cur h => r ← rat_npl_get_cur h; mret (RZ r)
  | SetCur h i => r ← rat_npl_set_cur h i; mret (RZ r)
  | SetMode h m => r ← rat_npl_set_play_mode h m; mret (RZ r)
  | Mode h => r ← rat_npl_get_play_mode h; mret (RZ r)
  | Total h => r ← rat_npl_get_total_count h; mret (RZ r)
  | ClearRoot c => r ← rat_clear_all_list_by_root c; mret (RZ r)
  | ClearAll => r ← rat_clear_all_list; mret (RZ r)
  | SetModify t v => r ← rat_set_modify_flag t v; mret (RZ r)
  | SetModifyAll v => r ← rat_set_modify_flag_all v; mret (RZ r)
  | Init => r ← rat_init; mret (RZ r)
  | Deinit => r ← rat_deinit; mret (RZ r)
  end.

(** The handle of a call. *)
Definition call_handle (c : call) : handle :=
  match c with
  | Close h | MoveFirst h | MoveForward h _ | MoveBackward h _ | CursorEnd h | CurItem h | ScanCnt h | ItemAt h _ | Play h _
  | FileIndex h _ | IndexFile h _ | Next h | Prev h | Cur h | SetCur h _ | SetMode h _ | Mode h | Total h => h
  | _ => HNull
  end.

(** What a caller must not do: a handle that no call returns; a directory whose tree is too
    deep or too large; a media type outside the table; a step back at random in a list of
    one file; starting the module with lists open. *)
Definition call_ok (w : world) (c : call) : Prop :=
  handle_ok (call_handle c) /\
  match c with
  | Open p _ => dir_ok (disk w) p
  | NplOpen t => 0 <= t < RAT_MEDIA_TYPE_MAX
  | IndexFile _ i => 0 <= i
  | Prev (HList i) => forall s all, plays w i s all -> prev_defined all s
  | Init => has_init w = true \/ scans w = ∅
  | _ => True
  end.

Lemma wpr_result {A} (m : R A) (k : A -> result) b w : wp m (fun _ w' => ready b w') w -> wp (r ← m; mret (k r)) (fun _ w' => ready b w') w.
Proof. intros H. apply wpr_bind. eapply wpr_mono; [exact H |]. intros x w' Hw'. now apply wpr_ret. Qed.

Lemma ready_mono b b' w : b <= b' -> ready b w -> ready b' w.
Proof. intros Hb [Hw Hl]. split; [exact (winv_mono _ _ _ Hb Hw) | exact Hl]. Qed.

Lemma wpr_ready_mono {A} (m : R A) b b' w : b <= b' -> wp m (fun _ w' => ready b w') w -> wp m (fun _ w' => ready b' w') w.
Proof. intros Hb H. eapply wpr_mono; [exact H |]. intros x w'. now apply ready_mono. Qed.

Lemma serves_ready {A} h (d n : A) f P b w : serves always f P -> ready b w -> handle_ok h -> wp (with_playlist h d n f) (fun _ w' => ready b w') w.
Proof. intros Hf Hr Hh. eapply playlist_ready; [exact Hf | exact Hr | exact Hh | done]. Qed.

(** The functions of the current index, for any handle. *)
Lemma index_ready f h b w : ready b w -> handle_ok h ->
  (forall i s all, h = HList i -> plays w i s all -> wp (with_index_of (HList i) f) (fun _ w' => ready b w') w) ->
  wp (with_index_of h f) (fun _ w' => ready b w') w.
Proof.
  intros [Hw Hl] Hh Hp. destruct h as [| i |]; [now split | | now split]. destruct (handle_slot w b i Hw Hh) as [s Hi]. destruct (hscan s) as [id |] eqn:Hs.
  - destruct (live _ _ _ _ _ Hw Hi Hs) as [_ (sc & all & g & Esc & Hset)]. apply (Hp i s all eq_refl). split; [exact Hi | now exists id, sc, g].
  - unfold with_index_of. cbn [with_playlist]. apply wpr_bind, wpr_enter; [exact Hl |]. apply wpr_bind, (wpr_slot i s); [exact Hi |]. rewrite Hs.
    apply wpr_leave. now apply ready_leave.
Qed.

Lemma exec_ok c b w : ready b w -> 0 <= b < 2 ^ 31 - 1 -> call_ok w c -> wp (exec c) (fun _ w' => ready (b + 1) w') w.
Proof.
  intros Hr Hb [Hh Hok].
  destruct c as [p t | h | h | h n | h n | h | h | h | h i | h f | t | h p | h i | h | h | h | h i | h m | h | h | c | | t v | v | |]; cbn [exec call_handle] in *;
    apply wpr_result.
  - now apply rat_open_ok.
  - apply (wpr_ready_mono _ b); [lia |]. apply rat_close_ok; [exact Hr | exact Hh | lia].
  - apply (wpr_ready_mono _ b); [lia |]. exact (cursor_call (fun _ => ScanMoveToFirst) _ id (-1) h b w Hr Hh (fun _ => keeps_first)).
  - apply (wpr_ready_mono _ b); [lia |]. exact (cursor_call (fun fs => forward_loop mem_ok junk fs fuel n 0) _ id 0 h b w Hr Hh (fun fs => keeps_forward fs n)).
  - apply (wpr_ready_mono _ b); [lia |]. exact (cursor_call (fun _ => backward_loop n 0) _ id 0 h b w Hr Hh (fun _ => keeps_backward n)).
  - apply (wpr_ready_mono _ b); [lia |]. exact (cursor_call (fun _ => ScanIsDone) _ (fun d : bool => if d then 1 else 0) (-1) h b w Hr Hh (fun _ => keeps_done)).
  - apply (wpr_ready_mono _ b); [lia |]. exact (cursor_call (fun _ => ScanGetCurrent) _ (fun e => match e with Some _ => (EPDK_OK, e) | None => (EPDK_FAIL, None) end) _ h b w Hr Hh (fun _ => keeps_current)).
  - apply (wpr_ready_mono _ b); [lia |]. exact (cursor_call (fun _ => ScanGetCurCnt) _ u32 0 h b w Hr Hh (fun _ => keeps_cnt)).
  - apply (wpr_ready_mono _ b); [lia |]. now apply item_by_index_ok.
  - apply (wpr_ready_mono _ b); [lia |]. now apply play_ok.
  - apply (wpr_ready_mono _ b); [lia |]. destruct (npl_open_ok t b w Hr Hok) as (h & w' & E & -> & _). eapply wpr_any; [exact E | exact Hr].
  - apply (wpr_ready_mono _ b); [lia |]. exact (serves_ready _ _ _ _ _ b w (file2index_serves p) Hr Hh).
  - apply (wpr_ready_mono _ b); [lia |]. exact (serves_ready _ _ _ _ _ b w (index2file_serves i Hok) Hr Hh).
  - apply (wpr_ready_mono _ b); [lia |]. apply index_ready; [exact Hr | exact Hh |]. intros i s all _ Hp.
    eapply wpr_mono; [exact (next_plays b w i s all Hr Hp) |]. intros x w' [H _]. exact H.
  - apply (wpr_ready_mono _ b); [lia |]. apply index_ready; [exact Hr | exact Hh |]. intros i s all -> Hp.
    eapply wpr_mono; [exact (prev_plays b w i s all Hr Hp (Hok s all Hp)) |]. intros x w' [H _]. exact H.
  - apply (wpr_ready_mono _ b); [lia |]. apply index_ready; [exact Hr | exact Hh |]. intros i s all _ Hp.
    eapply wpr_mono; [exact (cur_plays b w i s all Hr Hp) |]. intros x w' [H _]. exact H.
  - apply (wpr_ready_mono _ b); [lia |]. exact (serves_ready _ _ _ _ _ b w (set_cur_serves i) Hr Hh).
  - apply (wpr_ready_mono _ b); [lia |]. exact (serves_ready _ _ _ _ _ b w (set_mode_serves m) Hr Hh).
  - apply (wpr_ready_mono _ b); [lia |]. exact (serves_ready _ _ _ _ _ b w get_mode_serves Hr Hh).
  - apply (wpr_ready_mono _ b); [lia |]. exact (serves_ready _ _ _ _ _ b w total_serves Hr Hh).
  - apply (wpr_ready_mono _ b); [lia |]. exact (clear_lists_ok _ b w Hr).
  - apply (wpr_ready_mono _ b); [lia |]. exact (clear_lists_ok _ b w Hr).
  - apply (wpr_ready_mono _ b); [lia |]. exact (set_modify_call _ v b w Hr).
  - apply (wpr_ready_mono _ b); [lia |]. exact (set_modify_call _ v b w Hr).
  - apply (wpr_ready_mono _ b); [lia |]. apply rat_init_ok; [exact Hr | lia | exact Hok].
  - apply (wpr_ready_mono _ b); [lia |]. exact (rat_deinit_ok b w Hr).
Qed.

(** The worlds that correct calls lead to; between them the disk and the time may change. *)
Inductive reach : world -> Z -> Prop :=
  | reach_boot d t : reach (boot d t) 0
  | reach_call w n c r w' : reach w n -> n < 2 ^ 31 - 1 -> call_ok w c -> exec c w = Some (r, w') -> reach w' (n + 1)
  | reach_disk w n d t : reach w n -> reach (with_disk d t w) n.

Lemma reach_ready w n : reach w n -> 0 <= n /\ ready n w.
Proof.
  induction 1 as [d t | w n c r w' _ [Hn IH] Hb Hok E | w n d t _ [Hn IH]].
  - split; [lia | apply boot_ready].
  - split; [lia |]. pose proof (exec_ok c n w IH ltac:(lia) Hok) as H. unfold wp in H. rewrite E in H. exact H.
  - split; [exact Hn |]. destruct IH as [Hw Hl]. now split.
Qed.

End Calls.
