(* ===== verification/RatPlay.v ===== *)
(** * RatPlay: the properties of the media lists

    Every sequence of calls is safe, a file and its index are found from each other, and a
    list that is opened and played on with [RAT_PLAY_MODE_ROTATE_ALL] goes round its
    files. *)
From Stdlib Require Import String.
From stdpp Require Import gmap.
From S2P Require Import Prelude CString Block ScanStack Scan ScanList ScanRun Rat RatRun.

#[local] Open Scope string_scope.
#[local] Open Scope list_scope.
#[local] Open Scope Z_scope.

(** ** From an opened directory to its files *)

Section Playing.

Context (mem_ok : nat -> bool) (junk : nat -> Z) (fuel : nat) (rand : Z -> Z).
Context (Hmem : forall n, mem_ok n = true).
Context (d : list Z -> option (list dirent)) (t0 ty types : Z) (depth : nat) (p : list Z).
Context (Hty : file_types ty = Some types) (Hp : p <> []) (Hroot : tree_ok d depth p).
Context (Hsize : Z.of_nat (ndirs d depth p) < 2 ^ 19) (Hfuel : (ndirs d depth p < fuel)%nat).
Context (Hmax : Z.of_nat (length (visit d types depth p)) < 2 ^ 31).

Abbreviation all := (visit d types depth p).

Lemma find_slot_replicate f n : (0 < n)%nat -> find_slot f (replicate n zero_list) = if f zero_list then Some 0%nat else None.
Proof.
  induction n as [| n IH]; intros Hn; [lia |]. cbn [replicate find_slot]. destruct (f zero_list) eqn:E; [reflexivity |].
  destruct n as [| n]; [reflexivity |]. rewrite IH by lia. reflexivity.
Qed.

(** The first list opened, after [rat_init]. *)
Abbreviation started := (with_init true (boot d t0)).

Lemma open_boot : wp (rat_open mem_ok junk fuel p ty 0) (opened 1 p ty 0 all) started.
Proof.
  assert (0 < fuel)%nat as Hf by lia. unfold rat_open. apply wpr_bind, wpr_enter; [reflexivity |]. apply wpr_bind, wpr_get.
  cbn [g_rat_list with_lock with_init boot]. rewrite find_slot_replicate by (vm_compute; lia). cbn [str_path zero_list].
  rewrite bool_decide_eq_false_2 by exact Hp. cbn [andb]. unfold open_search. rewrite Hty.
  destruct (begin_place mem_ok junk d types Hmem depth fuel p 0 Hroot Hsize Hfuel Hmax 0) as (sc & k & E & Hpl); [lia | lia |].
  pose proof (place_settled _ _ _ _ _ _ _ Hpl Hmax) as Hset.
  apply wpr_bind. eapply wpr_any; [unfold scan_begin; cbn [disk with_lock with_init boot mallocs]; rewrite E; reflexivity |]. cbv beta iota zeta.
  apply wpr_bind, wpr_get. rewrite bool_decide_eq_true_2 by done. cbn [g_rat_list with_scans with_lock with_init boot].
  rewrite find_slot_replicate by (vm_compute; lia). cbn [hscan open_cnt zero_list]. rewrite bool_decide_eq_true_2 by done. cbn [andb Z.eqb].
  pose proof (boot_ready fuel Hf d t0) as [Hw _]. assert (winv (boot d t0) 1) as Hw1 by (apply (winv_mono _ 0); [lia | exact Hw]).
  eapply (open_fill_ok fuel Hf) with (S := ∅) (sc := sc); [| lia | congruence | exact (proj2 (tree_ok_path _ _ _ Hroot)) | apply lookup_empty | reflexivity | reflexivity | reflexivity | exact Hset].
  exact (hole_consistent _ _ _ _ 0 ty zero_list Hw1 eq_refl eq_refl).
Qed.

(** The files played one after another: the next index and its path. *)
Fixpoint play_on (n : nat) (h : handle) : R (list (Z * option (list Z))) :=
  match n with
  | O => mret []
  | S n => k ← rat_npl_get_next rand h; r ← rat_npl_index2file h k; l ← play_on n h; mret (r :: l)
  end.

Definition path_at (l : list entry) (k : Z) : Z * option (list Z) :=
  match l !! Z.to_nat k with Some e => (EPDK_OK, Some e.2) | None => (EPDK_FAIL, None) end.

Lemma rotate_next c cnt t : 0 <= c < cnt -> next_spec rand t RAT_PLAY_MODE_ROTATE_ALL c cnt = ((c + 1) mod cnt, (c + 1) mod cnt).
Proof.
  intros Hc. unfold next_spec. change (RAT_PLAY_MODE_ROTATE_ALL =? RAT_PLAY_MODE_ONLY_ONCE) with false. change (RAT_PLAY_MODE_ROTATE_ALL =? RAT_PLAY_MODE_ROTATE_ONE) with false. change (RAT_PLAY_MODE_ROTATE_ALL =? RAT_PLAY_MODE_ROTATE_ALL) with true. cbv iota zeta.
  destruct (Z.ltb_spec c (cnt - 1)); [rewrite Z.mod_small by lia; reflexivity |]. replace (c + 1) with cnt by lia. rewrite Z.mod_same by lia. reflexivity.
Qed.

Lemma play_on_rotates l n : forall b w i s, ready b w -> plays w i s l -> play_mode s = RAT_PLAY_MODE_ROTATE_ALL -> 0 <= npl_cur_index s < Z.of_nat (length l) ->
  wp (play_on n (HList i)) (fun r _ => r = map (fun j => path_at l ((npl_cur_index s + 1 + j) mod Z.of_nat (length l))) (seqZ 0 (Z.of_nat n))) w.
Proof.
  assert (0 < fuel)%nat as Hf by lia. induction n as [| n IH]; intros b w i s Hr Hpl Hm Hc; [done |]. cbn [play_on]. apply wpr_bind.
  eapply wpr_mono; [exact (next_plays fuel rand Hf b w i s l Hr Hpl) |]. intros k w1 (Hr1 & _ & s1 & Hpl1 & _ & Hpost).
  unfold index_post in Hpost. cbv zeta in Hpost. rewrite Hm, (proj2 (orb_false_iff _ _)) in Hpost by lia. destruct Hpost as [Hm1 Hpost].
  rewrite rotate_next in Hpost by exact Hc. injection Hpost as Hc1 ->. set (cnt := Z.of_nat (length l)) in *.
  pose proof (Z.mod_pos_bound (npl_cur_index s + 1) cnt ltac:(lia)) as Hrange.
  apply wpr_bind. eapply wpr_mono; [exact (playlist_plays always i s1 l _ _ _ _ b w1 (index2file_serves fuel Hf _ (proj1 Hrange)) Hr1 Hpl1 I) |].
  intros r w2 (Hr2 & _ & s2 & Hpl2 & _ & -> & Hc2 & Hm2). apply wpr_bind.
  eapply wpr_mono; [apply (IH b w2 i s2 Hr2 Hpl2); [congruence | rewrite Hc2, Hc1; exact Hrange] |]. intros r w3 ->. apply wpr_ret.
  rewrite Hc2, Hc1. rewrite (seqZ_cons 0 (Z.of_nat (S n))) by lia. cbn [map]. f_equal; [rewrite Z.add_0_r; reflexivity |].
  replace (Z.pred (Z.of_nat (S n))) with (Z.of_nat n) by lia. change (Z.succ 0) with (1 + 0). rewrite <- (fmap_add_seqZ 1 0 (Z.of_nat n)). change (Z.add 1 <$> seqZ 0 (Z.of_nat n)) with (map (Z.add 1) (seqZ 0 (Z.of_nat n))). rewrite List.map_map.
  apply List.map_ext. intros j. fold cnt. f_equal. rewrite <- Z.add_assoc, Zplus_mod_idemp_l. reflexivity.
Qed.

(** The list is opened, made the playlist of its type and played on from a file. *)
Definition play_session (ty : Z) (p file : list Z) (n : nat) : R (list (Z * option (list Z))) :=
  rat_init;;
  h ← rat_open mem_ok junk fuel p ty 0;
  rat_set_file_for_play h file;;
  k ← rat_npl_open ty;
  rat_npl_set_play_mode k RAT_PLAY_MODE_ROTATE_ALL;;
  play_on n k.

Lemma session_rotates file n : (0 < length all)%nat ->
  wp (play_session ty p file n) (fun r _ => r = map (fun j => path_at all ((start_index file all + 1 + j) mod Z.of_nat (length all))) (seqZ 0 (Z.of_nat n))) (boot d t0).
Proof.
  intros Hne. assert (0 < fuel)%nat as Hf by lia. pose proof (file_types_range fuel Hf _ _ Hty) as Htr. unfold play_session. apply wpr_bind. eapply wpr_any; [reflexivity |].
  apply wpr_bind. eapply wpr_mono; [exact open_boot |]. intros h w1 (Hr1 & -> & s1 & Hp1 & _ & Hm1 & _).
  apply wpr_bind. eapply wpr_mono; [exact (play_plays junk fuel rand Hf 1 w1 0 s1 all file Hr1 Hp1) |].
  intros r w2 (_ & Hr2 & Hnpl & s2 & Hp2 & _ & _ & Hc2). rewrite (proj2 (Z.leb_gt _ _)) in Hc2 by lia. rewrite Hm1 in Hnpl.
  destruct (npl_open_ok fuel Hf ty 1 w2 Hr2 Htr) as (h & w3 & E & -> & _ & Hh & _).
  apply wpr_bind. eapply wpr_any; [exact E |]. rewrite (proj2 (Hh 0%nat) Hnpl).
  apply wpr_bind. eapply wpr_mono; [exact (playlist_plays always 0 s2 all _ _ _ _ 1 w2 (set_mode_serves RAT_PLAY_MODE_ROTATE_ALL) Hr2 Hp2 I) |].
  intros r3 w3 (Hr3 & _ & s3 & Hp3 & _ & _ & Hm3 & Hc3). rewrite <- Hc2, <- Hc3.
  apply (play_on_rotates all n 1 w3 0 s3 Hr3 Hp3 Hm3). rewrite Hc3, Hc2. unfold start_index.
  destruct (index_of file all) as [k |] eqn:Ek; [apply index_of_bound in Ek |]; lia.
Qed.

End Playing.

(** ** The properties *)

Lemma index_of_none path l : index_of path l = None -> path ∉ map snd l.
Proof.
  induction l as [| e l IH]; cbn [index_of map]; [intros _ H; now apply not_elem_of_nil in H |]. case_bool_decide as E; [discriminate |].
  destruct (index_of path l); [discriminate |]. intros _ Hin. apply elem_of_cons in Hin as [-> | Hin]; [done | now apply IH].
Qed.

(** C25: After [rat_init], [rat_open], [rat_set_file_for_play] and
    [rat_npl_set_play_mode] with [RAT_PLAY_MODE_ROTATE_ALL], each [rat_npl_get_next] with
    [rat_npl_index2file] gives the path of the next file of the tree after the chosen one,
    and the first after the last, as often as it is called. *)
Theorem rotate_plays_all mem_ok junk fuel rand d t0 ty types depth p file n :
  (forall k, mem_ok k = true) -> file_types ty = Some types -> p <> [] -> tree_ok d depth p ->
  Z.of_nat (ndirs d depth p) < 2 ^ 19 -> (ndirs d depth p < fuel)%nat -> Z.of_nat (length (visit d types depth p)) < 2 ^ 31 ->
  (0 < length (visit d types depth p))%nat ->
  let all := visit d types depth p in
  exists w, play_session mem_ok junk fuel rand ty p file n (boot d t0) =
    Some (map (fun j => path_at all ((start_index file all + 1 + j) mod Z.of_nat (length all))) (seqZ 0 (Z.of_nat n)), w).
Proof.
  intros Hmem Hty Hp Hroot Hsize Hfuel Hmax Hne all.
  destruct (wpr_run _ _ _ (session_rotates mem_ok junk fuel rand Hmem d t0 ty types depth p Hty Hp Hroot Hsize Hfuel Hmax file n Hne)) as (r & w & E & ->).
  now exists w.
Qed.

(** C15: The lists, the scans and the playlists are consistent and the lock is free after any
    sequence of fewer than 2^31 - 1 correct calls, on any disk, with the disk changing between the calls and memory for
    every allocation; and the next correct call ends without a fault and keeps this.  A call is correct ([call_ok]) when
    its handle is the null handle, one of no list, or that of a place of the table, in use or not; a directory that is opened has a tree that fits
    the scanner (paths, depth, number of directories and files); a media type is one of the table; an index is not
    negative; a step back in the random mode is not made in a list of one file ([prev_of_one_file_faults]); and the
    module is not initialised a second time while lists are open. *)
Theorem registry_safe mem_ok junk fuel rand w n c :
  (forall k, mem_ok k = true) -> (0 < fuel)%nat -> reach mem_ok junk fuel rand w n -> n < 2 ^ 31 - 1 -> call_ok fuel w c ->
  ready n w /\ exists r w', exec mem_ok junk fuel rand c w = Some (r, w') /\ ready (n + 1) w'.
Proof.
  intros Hmem Hf Hre Hn Hok. destruct (reach_ready mem_ok junk fuel rand Hmem Hf w n Hre) as [H0 Hr]. split; [exact Hr |].
  exact (wpr_run _ _ _ (exec_ok mem_ok junk fuel rand Hmem Hf c n w Hr ltac:(lia) Hok)).
Qed.

(** A file of a list and its index: looked up by its path, then by the index found, the
    path comes back; a path that is not in the list gives -1. *)
Theorem file_index_round_trip fuel b w i s all path :
  (0 < fuel)%nat -> ready b w -> plays w i s all ->
  exists k w', rat_npl_file2index (HList i) path w = Some (k, w') /\
    (path ∉ map snd all -> k = -1) /\
    (path ∈ map snd all -> 0 <= k /\ exists w'', rat_npl_index2file (HList i) k w' = Some ((EPDK_OK, Some path), w'') /\ ready b w'').
Proof.
  intros Hf Hr Hp.
  pose proof (playlist_plays always i s all (-1) (-1) (file2index_body path) _ b w (file2index_serves (fun _ => 0) fuel id Hf path) Hr Hp I) as H.
  destruct (wpr_run _ _ _ H) as (k & w1 & E1 & Hr1 & _ & s1 & Hp1 & _ & -> & _). eexists _, w1. split; [exact E1 |].
  destruct (index_of path all) as [k |] eqn:Ek.
  - destruct (index_of_some _ _ _ Ek) as (e & He & <-). split.
    + intros Hn. exfalso. apply Hn, list_elem_of_In, List.in_map, list_elem_of_In. eapply list_elem_of_lookup_2. exact He.
    + intros _. split; [lia |].
      pose proof (playlist_plays always i s1 all (EPDK_FAIL, None) (-1, None) (index2file_body (Z.of_nat k)) _ b w1 (index2file_serves fuel Hf (Z.of_nat k) ltac:(lia)) Hr1 Hp1 I) as H2.
      destruct (wpr_run _ _ _ H2) as (r & w2 & E2 & Hr2 & _ & s2 & _ & _ & -> & _). exists w2. split; [| exact Hr2].
      rewrite Nat2Z.id, He in E2. exact E2.
  - split; [done |]. intros Hin. exfalso. exact (index_of_none _ _ Ek Hin).
Qed.

(** The tree of the scanner's witnesses, as the directory of the calls. *)
Lemma demo_dir_ok : dir_ok 5 demo_fs (lit "/m").
Proof.
  exists 2%nat. split; [by_compute |]. split; [by_compute |]. split; [by_compute |].
  intros types. pose proof (visit_le demo_fs types 2 (lit "/m")) as H. replace (nentries demo_fs 2 (lit "/m")) with 10%nat in H by reflexivity. lia.
Qed.

Abbreviation mem := (fun _ : nat => true).
Abbreviation junk0 := (fun _ : nat => 205).
Abbreviation rand0 := (fun t : Z => t * 1103515245 + 12345).

Lemma registry_safe_witness :
  ready 0 (boot demo_fs 7) /\ exists r w', exec mem junk0 5 rand0 (Open (lit "/m") RAT_MEDIA_TYPE_AUDIO) (boot demo_fs 7) = Some (r, w') /\ ready (0 + 1) w'.
Proof.
  apply (registry_safe mem junk0 5 rand0 (boot demo_fs 7) 0 (Open (lit "/m") RAT_MEDIA_TYPE_AUDIO));
    [easy | lia | apply reach_boot | lia | split; [exact I | exact demo_dir_ok]].
Defined.

Lemma rotate_plays_all_witness :
  map (fun j => path_at (visit demo_fs MUSIC_SCAN_ALL 2 (lit "/m")) ((start_index (lit "/m/y/e.wav") (visit demo_fs MUSIC_SCAN_ALL 2 (lit "/m")) + 1 + j) mod 3)) (seqZ 0 4)
    = [(0, Some (lit "/m/x/d.mp3")); (0, Some (lit "/m/a.mp3")); (0, Some (lit "/m/y/e.wav")); (0, Some (lit "/m/x/d.mp3"))] /\
  exists w, play_session mem junk0 5 rand0 RAT_MEDIA_TYPE_AUDIO (lit "/m") (lit "/m/y/e.wav") 4 (boot demo_fs 7) =
    Some (map (fun j => path_at (visit demo_fs MUSIC_SCAN_ALL 2 (lit "/m")) ((start_index (lit "/m/y/e.wav") (visit demo_fs MUSIC_SCAN_ALL 2 (lit "/m")) + 1 + j) mod 3)) (seqZ 0 4), w).
Proof.
  split; [vm_compute; reflexivity |].
  apply (rotate_plays_all mem junk0 5 rand0 demo_fs 7 RAT_MEDIA_TYPE_AUDIO MUSIC_SCAN_ALL 2 (lit "/m") (lit "/m/y/e.wav") 4);
    [easy | reflexivity | discriminate | by_compute | by_compute | by_compute | by_compute | by_compute].
Defined.

Lemma file_index_round_trip_witness : exists w s,
  plays w 0 s (visit demo_fs MUSIC_SCAN_ALL 2 (lit "/m")) /\ exists k w', rat_npl_file2index (HList 0) (lit "/m/y/e.wav") w = Some (k, w') /\
    (lit "/m/y/e.wav" ∉ map snd (visit demo_fs MUSIC_SCAN_ALL 2 (lit "/m")) -> k = -1) /\
    (lit "/m/y/e.wav" ∈ map snd (visit demo_fs MUSIC_SCAN_ALL 2 (lit "/m")) -> 0 <= k /\
      exists w'', rat_npl_index2file (HList 0) k w' = Some ((EPDK_OK, Some (lit "/m/y/e.wav")), w'') /\ ready 1 w'').
Proof.
  destruct (wpr_run _ _ _ (open_boot mem junk0 5 (fun _ => eq_refl) demo_fs 7 RAT_MEDIA_TYPE_AUDIO MUSIC_SCAN_ALL 2 (lit "/m") eq_refl
    ltac:(discriminate) ltac:(by_compute) ltac:(by_compute) ltac:(by_compute) ltac:(by_compute))) as (h & w & _ & Hr & _ & s & Hp & _).
  exists w, s. split; [exact Hp |]. apply (file_index_round_trip 5 1 w 0 s); [lia | exact Hr | exact Hp].
Defined.

(** Going back at random in a list of one file divides by zero. *)
Example prev_of_one_file_faults :
  (match play_session mem junk0 5 rand0 RAT_MEDIA_TYPE_AUDIO (lit "/m/x") (lit "/m/x/d.mp3") 0 (boot demo_fs 7) with
   | Some (_, w) => match rat_npl_set_play_mode (HList 0) RAT_PLAY_MODE_RANDOM w with
                    | Some (_, w) => Some (bool_decide (is_Some (rat_npl_get_next rand0 (HList 0) w)), bool_decide (is_Some (rat_npl_get_prev rand0 (HList 0) w)))
                    | None => None
                    end
   | None => None
   end) = Some (true, false).
Proof. vm_compute. reflexivity. Qed.

(** A list with two users is opened again after its modify flag was set: its count of users
    starts again at 1, so the next close takes the list from the others. *)
Definition forget_session : R (handle * handle * handle * Z * Z) :=
  h1 ← rat_open mem junk0 5 (lit "/m") RAT_MEDIA_TYPE_AUDIO 0;
  h2 ← rat_open mem junk0 5 (lit "/m") RAT_MEDIA_TYPE_AUDIO 0;
  rat_set_modify_flag RAT_MEDIA_TYPE_AUDIO 1;;
  h3 ← rat_open mem junk0 5 (lit "/m") RAT_MEDIA_TYPE_AUDIO 0;
  r ← rat_close h3;
  k ← rat_move_cursor_to_first h1;
  mret (h1, h2, h3, r, k).

Example reopen_forgets_users : fst <$> forget_session (boot demo_fs 7) = Some (HList 0, HList 0, HList 0, 0, -1).
Proof. vm_compute. reflexivity. Qed.
