(* ===== verification/Insmod.v ===== *)
(** * Insmod: the parallel module loader

    Models [allwinner/common/parallel_insmod/src/parallel_insmod.c]: four threads read the
    names of modules from one file and start [insmod] for each; a line that begins with
    "Height" is a barrier.  A step of a thread is a pthread call, a system call or what lies
    between two of them; the steps of the threads, of the children and of [main] interleave
    freely.  Mutexes are of the default kind.  [pthread_cond_wait] may wake up without a
    signal.  [vfork] returns when the child runs [insmod]; [wait] returns any child that has
    ended, whichever thread started it.

    [fp] is the list of the lines of the file with their ends, as [getline] delivers them,
    and a position.  The buffer [line] is shared, as it is static.  The time and the messages
    are left out, but for the one on a malformed line. *)
From Stdlib Require Import String.
From S2P Require Import Prelude CString.

#[local] Open Scope string_scope.
#[local] Open Scope list_scope.
#[local] Open Scope Z_scope.

(** [getline] over the whole file. *)
Fixpoint lines_of (content : list Z) : list (list Z) :=
  match content with
  | [] => []
  | c :: rest =>
      if c =? 10 then [10] :: lines_of rest
      else match lines_of rest with [] => [[c]] | l :: ls => (c :: l) :: ls end
  end.

(** ** State *)

Definition NUM_THREAD : nat := 4.

(** Where a thread is: [get_module] up to [UnlockLock], then [insmod_thread], and
    [put_module] from [WantPut] on.  The number of the line stands for the module; the
    program keeps its name only. *)
Inductive pc :=
  | NotCreated
  | AtLock | Again | UnlockEof
  | WantMutex | TestCount | CondWait | Rewake | UnlockHeight | NextHeight
  | WantCount (k : nat) | Count (k : nat) | UnlockCount (k : nat) | FormatName (k : nat) | UnlockLock (k : nat) (name : list Z)
  | Fork (k : nat) (name : list Z) | WaitChild
  | WantPut | Put | Signal | UnlockPut
  | Done.

Inductive main_pc := Create (i : nat) | Join (i : nat).

(** What happens outside the program, the last event first. *)
Inductive event := Invalid (k : nat) | Started (k : nat) (name : list Z) | Exited (k : nat) | Reaped (k : nat).

#[global] Instance pc_eq_dec : EqDecision pc.
Proof. solve_decision. Defined.
#[global] Instance event_eq_dec : EqDecision event.
Proof. solve_decision. Defined.

(** [children]: not waited for yet, with whether they have ended.  [status]: what the
    process has ended with. *)
Record state := State {
  pos : nat;
  line : option (list Z);
  cur_height : Z;
  insmoding : Z;
  lock : option nat;
  mutex : option nat;
  threads : list pc;
  children : list (nat * bool);
  main_at : main_pc;
  status : option Z;
  log : list event;
}.

Definition with_pos n l (s : state) := State n l (cur_height s) (insmoding s) (lock s) (mutex s) (threads s) (children s) (main_at s) (status s) (log s).
Definition with_height n (s : state) := State (pos s) (line s) n (insmoding s) (lock s) (mutex s) (threads s) (children s) (main_at s) (status s) (log s).
Definition with_count n (s : state) := State (pos s) (line s) (cur_height s) n (lock s) (mutex s) (threads s) (children s) (main_at s) (status s) (log s).
Definition with_lock o (s : state) := State (pos s) (line s) (cur_height s) (insmoding s) o (mutex s) (threads s) (children s) (main_at s) (status s) (log s).
Definition with_mutex o (s : state) := State (pos s) (line s) (cur_height s) (insmoding s) (lock s) o (threads s) (children s) (main_at s) (status s) (log s).
Definition with_threads l (s : state) := State (pos s) (line s) (cur_height s) (insmoding s) (lock s) (mutex s) l (children s) (main_at s) (status s) (log s).
Definition with_children l (s : state) := State (pos s) (line s) (cur_height s) (insmoding s) (lock s) (mutex s) (threads s) l (main_at s) (status s) (log s).
Definition with_main m (s : state) := State (pos s) (line s) (cur_height s) (insmoding s) (lock s) (mutex s) (threads s) (children s) m (status s) (log s).
Definition with_status o (s : state) := State (pos s) (line s) (cur_height s) (insmoding s) (lock s) (mutex s) (threads s) (children s) (main_at s) o (log s).
Definition with_log e (s : state) := State (pos s) (line s) (cur_height s) (insmoding s) (lock s) (mutex s) (threads s) (children s) (main_at s) (status s) (e :: log s).

Definition goto (t : nat) (p : pc) (s : state) : state := with_threads (<[t := p]> (threads s)) s.

(** A step that cannot be taken, or whose effect the standard leaves open. *)
Inductive res := Next (s : state) | Blocked | Undef.

Definition acquire_lock (t : nat) (p : pc) (s : state) : res :=
  match lock s with None => Next (with_lock (Some t) (goto t p s)) | Some _ => Blocked end.
Definition release_lock (t : nat) (p : pc) (s : state) : res :=
  if bool_decide (lock s = Some t) then Next (with_lock None (goto t p s)) else Undef.
Definition acquire_mutex (t : nat) (p : pc) (s : state) : res :=
  match mutex s with None => Next (with_mutex (Some t) (goto t p s)) | Some _ => Blocked end.
Definition release_mutex (t : nat) (p : pc) (s : state) : res :=
  if bool_decide (mutex s = Some t) then Next (with_mutex None (goto t p s)) else Undef.

Definition is_waiting (p : pc) : bool := match p with CondWait => true | _ => false end.

Section Loader.

Variables (lines : list (list Z)) (module_path : list Z).

(** [strncmp("Height", line, 6) == 0]. *)
Definition is_height (l : list Z) : bool := bool_decide (take 6 l = lit "Height").

(** The characters of a string in a buffer. *)
Definition chars (l : list Z) : list Z := default [] (cstring (l ++ [0])).

Definition malformed (l : list Z) : bool := (1 <? Z.of_nat (List.length (chars l))) && negb (nth 0 l 0 =? 9).

(** [snprintf(name_buf, 1024, "%s/%s", module_path, &line[1])]. *)
Definition module_name (l : list Z) : list Z := take (Z.to_nat 1023) (module_path ++ lit "/" ++ chars (tail l)).

(** ** Steps *)

(** The thread [t]; [c] chooses which waiter a signal wakes, which child [wait] returns and
    whether [vfork] fails. *)
Definition run (t c : nat) (s : state) : res :=
  match threads s !! t with
  | None | Some NotCreated | Some CondWait | Some Done => Blocked
  (* get_module *)
  | Some AtLock => acquire_lock t Again s
  | Some Again =>
      match lines !! pos s with
      | None => Next (goto t UnlockEof (with_pos (pos s) None s))
      | Some l =>
          let k := pos s in
          let s := with_pos (S k) (Some l) s in
          if is_height l then Next (goto t WantMutex s)
          else Next (goto t (WantCount k) (if malformed l then with_log (Invalid k) s else s))
      end
  | Some UnlockEof => release_lock t Done s
  | Some WantMutex => acquire_mutex t TestCount s
  | Some TestCount =>
      if negb (insmoding s =? 0) then release_mutex t CondWait s else Next (goto t UnlockHeight s)
  | Some Rewake => acquire_mutex t TestCount s
  | Some UnlockHeight => release_mutex t NextHeight s
  | Some NextHeight => Next (goto t Again (with_height (s32 (cur_height s + 1)) s))
  | Some (WantCount k) => acquire_mutex t (Count k) s
  | Some (Count k) => Next (goto t (UnlockCount k) (with_count (s32 (insmoding s + 1)) s))
  | Some (UnlockCount k) => release_mutex t (FormatName k) s
  | Some (FormatName k) => match line s with Some l => Next (goto t (UnlockLock k (module_name l)) s) | None => Undef end
  | Some (UnlockLock k name) => release_lock t (Fork k name) s
  (* insmod_thread *)
  | Some (Fork k name) =>
      if (c =? 0)%nat then Next (goto t WaitChild (with_log (Started k name) (with_children (children s ++ [(k, false)]) s)))
      else Next (with_status (Some 1) s)
  | Some WaitChild =>
      match children s with
      | [] => Next (goto t WantPut s)
      | _ =>
          match children s !! c with
          | Some (k, true) => Next (goto t WantPut (with_log (Reaped k) (with_children (delete c (children s)) s)))
          | _ => Blocked
          end
      end
  (* put_module *)
  | Some WantPut => acquire_mutex t Put s
  | Some Put => Next (goto t Signal (if negb (insmoding s =? 0) then with_count (s32 (insmoding s - 1)) s else s))
  | Some Signal =>
      if (insmoding s =? 0) && existsb is_waiting (threads s) then
        match threads s !! c with Some CondWait => Next (goto t UnlockPut (goto c Rewake s)) | _ => Blocked end
      else Next (goto t UnlockPut s)
  | Some UnlockPut => release_mutex t AtLock s
  end.

(** [main]: the threads are created and joined; [ok]: [pthread_create] succeeds. *)
Definition run_main (ok : bool) (s : state) : res :=
  match main_at s with
  | Create i =>
      if (i <? NUM_THREAD)%nat then
        if ok then Next (with_main (Create (S i)) (goto i AtLock s)) else Next (with_status (Some 0) s)
      else Next (with_main (Join 0) s)
  | Join i =>
      if (i <? NUM_THREAD)%nat then
        match threads s !! i with Some Done => Next (with_main (Join (S i)) s) | _ => Blocked end
      else Next (with_status (Some 0) s)
  end.

(** A step of a thread, of [main], the end of a child, a wake-up without a signal. *)
Inductive act := Run (t c : nat) | RunMain (ok : bool) | Exit (i : nat) | Spurious (t : nat).

Definition step (a : act) (s : state) : res :=
  match status s with
  | Some _ => Blocked
  | None =>
      match a with
      | Run t c => run t c s
      | RunMain ok => run_main ok s
      | Exit i =>
          match children s !! i with
          | Some (k, false) => Next (with_log (Exited k) (with_children (<[i := (k, true)]> (children s)) s))
          | _ => Blocked
          end
      | Spurious t => match threads s !! t with Some CondWait => Next (goto t Rewake s) | _ => Blocked end
      end
  end.

(** The start of the threads. *)
Definition start : state := State 0 None 0 0 None None (replicate NUM_THREAD NotCreated) [] (Create 0) None [].

Inductive steps : list act -> state -> state -> Prop :=
  | steps_nil s : steps [] s s
  | steps_cons a acts s s' s'' : step a s = Next s' -> steps acts s' s'' -> steps (a :: acts) s s''.

(** The same as a function. *)
Fixpoint exec (acts : list act) (s : state) : res :=
  match acts with [] => Next s | a :: acts => match step a s with Next s => exec acts s | r => r end end.

(** ** What should happen *)

(** The modules among the first [n] lines; the barriers before a line. *)
Definition modules (n : nat) : list nat := List.filter (fun k => match lines !! k with Some l => negb (is_height l) | None => false end) (seq 0 n).
Definition height (n : nat) : Z := Z.of_nat (List.length (List.filter is_height (take n lines))).

Definition started (l : list event) : list nat := omap (fun e => match e with Started k _ => Some k | _ => None end) l.
Definition exited (l : list event) : list nat := omap (fun e => match e with Exited k => Some k | _ => None end) l.
Definition reaped (l : list event) : list nat := omap (fun e => match e with Reaped k => Some k | _ => None end) l.

End Loader.

(** [main]: the usage line or an error message ends it with 0; else the threads start. *)
Definition main (argc : Z) (file : option (list Z)) : state :=
  if negb (argc =? 3) then with_status (Some 0) start
  else match file with None => with_status (Some 0) start | Some _ => start end.
