(* ===== verification/InsmodRun.v ===== *)
(** * InsmodRun: the barriers hold and the loader ends

    [sync]: the mutexes belong to the threads that are inside, the counter is the number of
    modules being loaded, who waits will be woken.  [book]: every module read is carried by
    one thread, running, or waited for, and all that are not yet waited for lie between the
    same two barriers.  [ends] and [measure] give the end. *)
From Stdlib Require Import String.
From stdpp Require Import sets list.
From S2P Require Import Prelude CString Insmod.

#[local] Open Scope string_scope.
#[local] Open Scope list_scope.
#[local] Open Scope Z_scope.

(** ** Classes of program points *)

(** Between [insmoding++] and [insmoding--]. *)
Definition busy (p : pc) : Z := match p with UnlockCount _ | FormatName _ | UnlockLock _ _ | Fork _ _ | WaitChild | WantPut | Put => 1 | _ => 0 end.
(** With a child to wait for. *)
Definition reaping (p : pc) : Z := match p with WaitChild => 1 | _ => 0 end.
(** At a barrier. *)
Definition passing (p : pc) : Z := match p with WantMutex | TestCount | CondWait | Rewake | UnlockHeight | NextHeight => 1 | _ => 0 end.
Definition holds_lock (p : pc) : bool :=
  match p with
  | Again | UnlockEof | WantMutex | TestCount | CondWait | Rewake | UnlockHeight | NextHeight
  | WantCount _ | Count _ | UnlockCount _ | FormatName _ | UnlockLock _ _ => true
  | _ => false
  end.
Definition holds_mutex (p : pc) : bool :=
  match p with TestCount | UnlockHeight | Count _ | UnlockCount _ | Put | Signal | UnlockPut => true | _ => false end.
(** The module read and not started yet. *)
Definition carry (p : pc) : option nat :=
  match p with WantCount k | Count k | UnlockCount k | FormatName k | UnlockLock k _ | Fork k _ => Some k | _ => None end.

Definition total (f : pc -> Z) (l : list pc) : Z := foldr (fun p n => f p + n) 0 l.

Lemma total_insert f l t p p' : l !! t = Some p -> total f (<[t := p']> l) = total f l - f p + f p'.
Proof.
  revert t. induction l as [| q l IH]; intros [| t] H; try discriminate; [injection H as ->; cbn; lia |].
  change (f q + total f (<[t := p']> l) = f q + total f l - f p + f p'). rewrite (IH t H). lia.
Qed.

Lemma total_nonneg f l : (forall p, 0 <= f p) -> 0 <= total f l.
Proof. intros Hf. induction l as [| p l IH]; cbn; [lia |]. pose proof (Hf p). unfold total in IH. lia. Qed.

Lemma total_ge f l t p : (forall p, 0 <= f p) -> l !! t = Some p -> f p <= total f l.
Proof.
  intros Hf. revert t. induction l as [| q l IH]; intros [| t] H; try discriminate; cbn.
  - injection H as ->. pose proof (total_nonneg f l Hf). unfold total in *. lia.
  - specialize (IH t H). pose proof (Hf q). unfold total in IH. lia.
Qed.

Lemma total_le f g l : (forall p, f p <= g p) -> total f l <= total g l.
Proof. intros H. induction l as [| p l IH]; cbn; [lia |]. specialize (H p). unfold total in IH. lia. Qed.

Lemma total_pos f l : 0 < total f l -> exists t p, l !! t = Some p /\ 0 < f p.
Proof.
  induction l as [| q l IH]; cbn; [lia |]. intros H. destruct (Z_lt_le_dec 0 (f q)) as [Hq | Hq]; [now exists 0%nat, q |].
  destruct IH as (t & p & Ht & Hp); [unfold total; lia |]. now exists (S t), p.
Qed.

(** What the threads carry, after a step of one of them. *)
Lemma carry_insert (l : list pc) (t : nat) p p' : l !! t = Some p ->
  exists rest, omap carry l ≡ₚ option_list (carry p) ++ rest /\ omap carry (<[t := p']> l) ≡ₚ option_list (carry p') ++ rest.
Proof.
  revert t. induction l as [| q l IH]; intros [| t] H; try discriminate.
  - injection H as ->. exists (omap carry l). cbn. destruct (carry p), (carry p'); done.
  - destruct (IH t H) as (rest & H1 & H2). exists (option_list (carry q) ++ rest). cbn.
    destruct (carry q) as [k |]; cbn; [rewrite H1, H2; split; apply Permutation_middle | done].
Qed.

Lemma busy_nonneg p : 0 <= busy p.
Proof. now destruct p. Qed.

(** ** Cases of a step *)

Lemma lookup_set {A} (l : list A) i j x y : <[i := x]> l !! j = Some y -> (i = j /\ x = y) \/ (i <> j /\ l !! j = Some y).
Proof.
  intros H. destruct (decide (i = j)) as [<- | Hne]; [left | right; now rewrite list_lookup_insert_ne in H].
  pose proof (lookup_lt_Some _ _ _ H) as Hl. rewrite length_insert in Hl. rewrite list_lookup_insert_eq in H by exact Hl. split; congruence.
Qed.

(** Every way in which a step can end in a state, the state written out. *)
Ltac step_cases H :=
  unfold step, run, run_main, acquire_lock, release_lock, acquire_mutex, release_mutex in H;
  repeat match type of H with
  | context [match ?x with _ => _ end] =>
      lazymatch x with
      | context [match _ with _ => _ end] => fail
      | _ => let E := fresh "E" in destruct x eqn:E; try discriminate H
      end
  end;
  injection H as <-;
  repeat match goal with E : bool_decide _ = true |- _ => apply bool_decide_eq_true in E end.

(** Looking up a thread after a step. *)
Ltac look H :=
  cbn [threads goto with_pos with_height with_count with_lock with_mutex with_threads with_children with_main with_status with_log] in H;
  repeat (let E1 := fresh in let E2 := fresh in
    apply lookup_set in H as [[E1 E2] | [? H]]; [try discriminate E2; first [subst | rewrite <- ?E2, <- ?E1 in *] |]).

(** ** The invariant *)

Section Inv.

Context (lines : list (list Z)) (module_path : list Z).

Abbreviation stepl := (step lines module_path).
Abbreviation nameof := (module_name module_path).
Abbreviation mods := (modules lines).
Abbreviation lheight := (height lines).

Definition created (m : main_pc) : nat := match m with Create i => i | Join _ => NUM_THREAD end.

(** What holds at a point, besides the locks. *)
Definition point_ok (s : state) (p : pc) : Prop :=
  match p with
  | WantCount k | Count k | UnlockCount k | FormatName k => exists l, line s = Some l /\ lines !! k = Some l
  | UnlockLock k name | Fork k name => exists l, lines !! k = Some l /\ name = nameof l
  | UnlockHeight | NextHeight => insmoding s = 0
  | _ => True
  end.

(** Threads, locks and counters. *)
Record sync (s : state) : Prop := Sync {
  sync_length : length (threads s) = NUM_THREAD;
  sync_lock t p : threads s !! t = Some p -> (holds_lock p = true <-> lock s = Some t);
  sync_mutex t p : threads s !! t = Some p -> (holds_mutex p = true <-> mutex s = Some t);
  sync_lock_dom t : lock s = Some t -> (t < NUM_THREAD)%nat;
  sync_mutex_dom t : mutex s = Some t -> (t < NUM_THREAD)%nat;
  sync_count : insmoding s = total busy (threads s);
  sync_children : Z.of_nat (length (children s)) = total reaping (threads s);
  sync_created t p : threads s !! t = Some p -> (p = NotCreated <-> (created (main_at s) <= t)%nat);
  sync_main : (created (main_at s) <= NUM_THREAD)%nat;
  sync_point t p : threads s !! t = Some p -> point_ok s p;
  sync_wake t : threads s !! t = Some CondWait -> insmoding s <> 0 \/ exists t', threads s !! t' = Some Signal;
}.

(** The thread that [main] creates. *)
Lemma create_point s i : sync s -> main_at s = Create i -> (i <? NUM_THREAD)%nat = true -> threads s !! i = Some NotCreated.
Proof.
  intros H Hm Hi. apply Nat.ltb_lt in Hi. destruct (lookup_lt_is_Some_2 (threads s) i) as [p Hp]; [now rewrite (sync_length _ H) |].
  rewrite Hp. f_equal. apply (sync_created _ H i p Hp). now rewrite Hm.
Qed.

Lemma total_4 f l : (forall p, 0 <= f p <= 1) -> length l = NUM_THREAD -> 0 <= total f l <= 4.
Proof.
  intros Hf Hl. split; [apply total_nonneg; intros p; apply Hf |].
  assert (total f l <= Z.of_nat (length l)) as H by (clear Hl; induction l as [| p l IH]; cbn [total foldr length]; [lia |]; specialize (Hf p); unfold total in IH; lia).
  rewrite Hl in H. exact H.
Qed.

Lemma count_range s : sync s -> 0 <= insmoding s <= 4.
Proof. intros H. rewrite (sync_count _ H). apply total_4; [intros p; destruct p; cbn; lia | exact (sync_length _ H)]. Qed.

(** Two threads at most one of which can be there. *)
Lemma same_lock s t p t' p' : sync s -> threads s !! t = Some p -> threads s !! t' = Some p' -> holds_lock p = true -> holds_lock p' = true -> t = t'.
Proof. intros H Hp Hp' H1 H2. apply (sync_lock _ H _ _ Hp) in H1. apply (sync_lock _ H _ _ Hp') in H2. congruence. Qed.
Lemma same_mutex s t p t' p' : sync s -> threads s !! t = Some p -> threads s !! t' = Some p' -> holds_mutex p = true -> holds_mutex p' = true -> t = t'.
Proof. intros H Hp Hp' H1 H2. apply (sync_mutex _ H _ _ Hp) in H1. apply (sync_mutex _ H _ _ Hp') in H2. congruence. Qed.

(** Facts on the thread that steps. *)
Ltac creating I := repeat match goal with Hm : main_at ?s = Create ?i, Hi : (?i <? NUM_THREAD)%nat = true |- _ =>
  pose proof (create_point s i I Hm Hi); apply Nat.ltb_lt in Hi end.

Lemma step_locks a s s' t' p' : stepl a s = Next s' -> sync s -> threads s' !! t' = Some p' ->
  (holds_lock p' = true <-> lock s' = Some t') /\ (holds_mutex p' = true <-> mutex s' = Some t').
Proof.
  intros H I Hp'. step_cases H; creating I; look Hp'; cbn;
    repeat match goal with E : threads ?s !! ?t = Some ?p |- _ => pose proof (sync_lock _ I t p E); pose proof (sync_mutex _ I t p E); clear E end;
    cbn [holds_lock holds_mutex] in *; intuition congruence.
Qed.

Lemma step_dom a s s' t : stepl a s = Next s' -> sync s ->
  (lock s' = Some t -> (t < NUM_THREAD)%nat) /\ (mutex s' = Some t -> (t < NUM_THREAD)%nat).
Proof.
  intros H I. pose proof (sync_length _ I) as Hl. rewrite <- Hl. step_cases H; cbn;
    (split; intros Ht; try discriminate Ht; try (injection Ht as <-); try (eapply lookup_lt_Some; eassumption);
      rewrite Hl; first [exact (sync_lock_dom _ I _ Ht) | exact (sync_mutex_dom _ I _ Ht)]).
Qed.

Ltac fields := cbn [threads lock mutex line pos cur_height insmoding children main_at status log
  goto with_pos with_height with_count with_lock with_mutex with_threads with_children with_main with_status with_log].

(** The totals after a step, from those before. *)
Ltac totals :=
  try match goal with E : threads ?s !! ?t = Some Signal, E' : threads ?s !! ?c = Some CondWait |- _ =>
    assert (<[c := Rewake]> (threads s) !! t = Some Signal) by (rewrite list_lookup_insert_ne by congruence; exact E) end;
  repeat match goal with
  | E : ?l !! ?t = Some ?p |- context [total ?f (<[?t := ?q]> ?l)] => rewrite (total_insert f l t p q E)
  end.

Lemma waiting_child s t : sync s -> threads s !! t = Some WaitChild -> children s <> [].
Proof.
  intros I Ht E. pose proof (sync_children _ I) as H. rewrite E in H.
  pose proof (total_ge reaping _ _ _ ltac:(intros p; destruct p; cbn; lia) Ht) as H1. cbn in H, H1. lia.
Qed.

Lemma step_length a s s' : stepl a s = Next s' -> length (threads s') = length (threads s).
Proof. intros H. step_cases H; fields; rewrite ?length_insert; reflexivity. Qed.

Lemma step_counts a s s' : stepl a s = Next s' -> sync s ->
  insmoding s' = total busy (threads s') /\ Z.of_nat (length (children s')) = total reaping (threads s').
Proof.
  intros H I. pose proof (sync_count _ I) as Hc. pose proof (sync_children _ I) as Hr. pose proof (count_range _ I) as Hrange.
  step_cases H; creating I; fields; totals; cbn [busy reaping]; rewrite ?s32_id by lia;
    try match goal with E : threads ?s !! ?t = Some WaitChild |- _ => pose proof (waiting_child s t I E) end;
    repeat match goal with E : children ?s = _ |- _ => rewrite E in * end;
    try match goal with E : ?l !! ?c = Some (?k, true) |- _ => pose proof (length_delete l c ltac:(eauto)) end;
    rewrite ?length_app, ?length_insert in *; cbn [length] in *; try (split; lia); try contradiction.
  pose proof (total_ge busy _ _ _ busy_nonneg E1) as Hb. cbn in Hb. destruct (Z.eqb_spec (insmoding s) 0); [lia | discriminate].
Qed.

Lemma step_created a s s' : stepl a s = Next s' -> sync s ->
  (created (main_at s') <= NUM_THREAD)%nat /\ forall t p, threads s' !! t = Some p -> (p = NotCreated <-> (created (main_at s') <= t)%nat).
Proof.
  intros H I. pose proof (sync_main _ I) as Hm. pose proof (sync_created _ I) as Hc.
  step_cases H; creating I; fields;
    repeat match goal with E : main_at ?s = _ |- _ => rewrite E in * end; cbn [created] in *; (split; [lia |]); intros t' p' Hp'; look Hp'; fields;
    repeat match goal with E : threads ?s !! ?t = Some ?p |- _ => pose proof (Hc t p E); clear E end; cbn [created] in *;
    try solve [intuition (congruence || lia)];
    repeat match goal with E : (_ <? _)%nat = false |- _ => apply Nat.ltb_ge in E end;
    match goal with H : ?p' = NotCreated <-> _ |- ?p' = NotCreated <-> _ => rewrite H; lia end.
Qed.

Lemma step_points a s s' t p : stepl a s = Next s' -> sync s -> threads s' !! t = Some p -> point_ok s' p.
Proof.
  intros H I Hp. pose proof (count_range _ I) as Hrange.
  step_cases H; creating I; look Hp; unfold point_ok; fields;
    repeat match goal with E : threads ?s !! ?t = Some ?p |- _ => pose proof (sync_point _ I t p E); revert E end; intros; cbn [point_ok] in *;
    try solve [eauto | intuition eauto];
    try (destruct p; try exact Logic.I; cbn [point_ok] in *; try assumption; exfalso;
     match goal with E : threads ?s !! ?t = Some ?p, E' : threads ?s !! ?t' = Some ?p', N : ?t <> ?t' |- _ =>
       first [exact (N (same_lock s t p t' p' I E E' eq_refl eq_refl)) | exact (N (same_mutex s t p t' p' I E E' eq_refl eq_refl))] end).
  - now destruct (Z.eqb_spec (insmoding s) 0).
  - destruct H as (l0 & El & Ek). exists l0. split; [exact Ek | congruence].
  - destruct p; try exact Logic.I; try assumption; exfalso;
      [exact (H (same_mutex s t0 Put t UnlockHeight I E1 Hp eq_refl eq_refl)) | now rewrite H0 in E3].
Qed.

Lemma existsb_waiting s : existsb is_waiting (threads s) = false -> forall t, threads s !! t <> Some CondWait.
Proof.
  intros H t Ht. apply list_elem_of_lookup_2, list_elem_of_In in Ht.
  assert (existsb is_waiting (threads s) = true) by (apply existsb_exists; now exists CondWait). congruence.
Qed.

(** A thread that does not signal steps. *)
Lemma signal_kept (l : list pc) t p q : l !! t = Some p -> p <> Signal -> (exists t', l !! t' = Some Signal) -> exists t', <[t := q]> l !! t' = Some Signal.
Proof. intros Ht Hp [t' Ht']. exists t'. rewrite list_lookup_insert_ne by congruence. exact Ht'. Qed.

(** Who waits has something to wait for, or a signal is about to come. *)
Lemma step_wake a s s' t : stepl a s = Next s' -> sync s -> threads s' !! t = Some CondWait ->
  insmoding s' <> 0 \/ exists t', threads s' !! t' = Some Signal.
Proof.
  intros H I Hp. pose proof (count_range _ I) as Hrange.
  step_cases H; creating I; look Hp; fields;
    try (pose proof (sync_wake _ I _ Hp) as [Hw | Hw]; [now left | right]; eapply signal_kept; [eassumption | discriminate | exact Hw]);
    try exact (sync_wake _ I _ Hp).
  - left. now destruct (Z.eqb_spec (insmoding s) 0).
  - left. rewrite s32_id; lia.
  - right. exists t0. apply list_lookup_insert_eq. eapply lookup_lt_Some. eassumption.
  - exfalso. match goal with E : threads s !! c = Some CondWait, N : c <> t |- _ => exact (N (same_lock s _ _ _ _ I E Hp eq_refl eq_refl)) end.
  - left. intros Hz. match goal with E : _ && _ = false |- _ => rewrite Hz in E; exact (existsb_waiting s E t Hp) end.
Qed.

Lemma step_sync a s s' : stepl a s = Next s' -> sync s -> sync s'.
Proof.
  intros H I. destruct (step_counts a s s' H I) as [Hc Hr]. destruct (step_created a s s' H I) as [Hm Hn]. split; try assumption.
  - rewrite (step_length a s s' H). exact (sync_length _ I).
  - intros t p Hp. exact (proj1 (step_locks a s s' t p H I Hp)).
  - intros t p Hp. exact (proj2 (step_locks a s s' t p H I Hp)).
  - intros t. exact (proj1 (step_dom a s s' t H I)).
  - intros t. exact (proj2 (step_dom a s s' t H I)).
  - intros t p. exact (step_points a s s' t p H I).
  - intros t. exact (step_wake a s s' t H I).
Qed.

Lemma start_sync : sync start.
Proof.
  assert (forall t p, threads start !! t = Some p -> p = NotCreated /\ (t < 4)%nat) as H.
  { intros [| [| [| [| t]]]] p Hp; cbn in Hp; try discriminate Hp; injection Hp as <-; split; (done || lia). }
  split; try reflexivity; try discriminate; intros; try match goal with Hp : threads start !! _ = Some _ |- _ => apply H in Hp as [? ?]; subst end; cbn; try done; try lia.
  split; (done || lia).
Qed.

(** No step misuses a mutex or reads a buffer that is not there. *)
Lemma sync_defined a s : sync s -> stepl a s <> Undef.
Proof.
  intros I H. unfold step, run, run_main, acquire_lock, release_lock, acquire_mutex, release_mutex in H.
  repeat case_match; try discriminate;
    repeat match goal with E : bool_decide _ = false |- _ => apply bool_decide_eq_false in E; apply E end;
    try (apply (sync_lock _ I _ _ ltac:(eassumption)); reflexivity); try (apply (sync_mutex _ I _ _ ltac:(eassumption)); reflexivity).
  destruct (sync_point _ I _ _ ltac:(eassumption)) as (l & El & _). congruence.
Qed.

(** ** Where the modules are *)

Lemma carry_same (l : list pc) (t : nat) p q : l !! t = Some p -> carry p = carry q -> omap carry (<[t := q]> l) = omap carry l.
Proof.
  revert t. induction l as [| p' l IH]; intros [| t] H E; try discriminate.
  - injection H as ->. cbn. now rewrite E.
  - cbn in H. change (omap carry (<[S t := q]> (p' :: l))) with (match carry p' with Some k => k :: omap carry (<[t := q]> l) | None => omap carry (<[t := q]> l) end).
    rewrite (IH t H E). reflexivity.
Qed.

Lemma modules_S n l : lines !! n = Some l -> mods (S n) = mods n ++ (if is_height l then [] else [n]).
Proof. intros H. unfold modules. rewrite seq_S, List.filter_app. cbn. rewrite H. now destruct (is_height l). Qed.

Lemma height_S n l : lines !! n = Some l -> lheight (S n) = lheight n + (if is_height l then 1 else 0).
Proof.
  intros H. unfold height. rewrite (take_S_r _ _ _ H), List.filter_app, length_app. cbn. destruct (is_height l); cbn; lia.
Qed.

Lemma height_mono n m : (n <= m)%nat -> lheight n <= lheight m.
Proof.
  intros H. unfold height. replace (take n lines) with (take n (take m lines)) by (rewrite take_take; f_equal; lia).
  rewrite <- (take_drop n (take m lines)) at 2. rewrite List.filter_app, length_app. lia.
Qed.

Definition done_children (l : list (nat * bool)) : list nat := omap (fun x : nat * bool => if x.2 then Some x.1 else None) l.

Record book (s : state) : Prop := Book {
  book_pos : (pos s <= length lines)%nat;
  book_height : cur_height s + total passing (threads s) = lheight (pos s);
  book_modules : mods (pos s) ≡ₚ omap carry (threads s) ++ (children s).*1 ++ reaped (log s);
  book_started : started (log s) ≡ₚ (children s).*1 ++ reaped (log s);
  book_exited : exited (log s) ≡ₚ done_children (children s) ++ reaped (log s);
  book_names k n : Started k n ∈ log s -> exists l, lines !! k = Some l /\ n = nameof l;
  book_live k : k ∈ omap carry (threads s) ++ (children s).*1 -> lheight k = cur_height s;
  book_past k : k ∈ mods (pos s) -> lheight k <= cur_height s;
}.

(** Nothing is loading once a barrier is passed. *)
Lemma passed_alone s t : sync s -> threads s !! t = Some NextHeight -> omap carry (threads s) = [] /\ children s = [].
Proof.
  intros I Ht. pose proof (sync_point _ I _ _ Ht) as Hz. cbn in Hz. rewrite (sync_count _ I) in Hz.
  assert (forall t' p, threads s !! t' = Some p -> busy p = 0) as Hb.
  { intros t' p Hp. pose proof (total_ge busy _ _ _ busy_nonneg Hp). pose proof (busy_nonneg p). lia. }
  split.
  - destruct (omap carry (threads s)) as [| k l] eqn:E; [reflexivity | exfalso].
    assert (k ∈ omap carry (threads s)) as Hk by (rewrite E; left). apply list_elem_of_omap in Hk as (p & Hp & Hc).
    apply list_elem_of_lookup in Hp as [t' Hp]. pose proof (Hb t' p Hp) as Hb'.
    destruct (decide (t = t')) as [<- | N]; [rewrite Ht in Hp; injection Hp as <-; discriminate |].
    destruct p; try discriminate; exact (N (same_lock s _ _ _ _ I Ht Hp eq_refl eq_refl)).
  - pose proof (sync_children _ I) as Hc. destruct (children s); [reflexivity | exfalso].
    pose proof (total_le reaping busy (threads s) ltac:(intros []; cbn; lia)). cbn in Hc. lia.
Qed.

Lemma delete_fst (l : list (nat * bool)) c k b : l !! c = Some (k, b) -> l.*1 ≡ₚ k :: (delete c l).*1.
Proof. intros H. now rewrite (delete_Permutation l c (k, b) H) at 1. Qed.

Lemma delete_done (l : list (nat * bool)) c k : l !! c = Some (k, true) -> done_children l ≡ₚ k :: done_children (delete c l).
Proof. intros H. unfold done_children. now rewrite (delete_Permutation l c (k, true) H) at 1. Qed.

Lemma exit_done (l : list (nat * bool)) c k : l !! c = Some (k, false) -> (<[c := (k, true)]> l).*1 = l.*1 /\ done_children (<[c := (k, true)]> l) ≡ₚ k :: done_children l.
Proof.
  revert c. induction l as [| [k' b] l IH]; intros [| c] H; try discriminate.
  - injection H as -> ->. done.
  - destruct (IH c H) as [H1 H2]. cbn. split; [f_equal; exact H1 |]. unfold done_children in *. cbn.
    destruct b; cbn; [rewrite H2; apply Permutation_swap | exact H2].
Qed.

Lemma book_frame s s' : pos s' = pos s -> cur_height s' = cur_height s -> total passing (threads s') = total passing (threads s) ->
  omap carry (threads s') = omap carry (threads s) -> children s' = children s -> log s' = log s -> book s -> book s'.
Proof. intros E1 E2 E3 E4 E5 E6 [B1 B2 B3 B4 B5 B6 B7 B8]. split; rewrite ?E1, ?E2, ?E3, ?E4, ?E5, ?E6; assumption. Qed.

(** A barrier is read. *)
Lemma read_height_book s t l : threads s !! t = Some Again -> lines !! pos s = Some l -> is_height l = true -> book s ->
  book (goto t WantMutex (with_pos (S (pos s)) (Some l) s)).
Proof.
  intros Ht Hl Hh [B1 B2 B3 B4 B5 B6 B7 B8]. pose proof (modules_S _ _ Hl) as Em. rewrite Hh, app_nil_r in Em.
  split; fields; rewrite ?(carry_same _ t Again WantMutex Ht eq_refl), ?Em; try assumption.
  - pose proof (lookup_lt_Some _ _ _ Hl). lia.
  - totals. rewrite (height_S _ _ Hl), Hh, <- B2. cbn. lia.
Qed.

(** A module is read. *)
Lemma read_module_book s t l log' : threads s !! t = Some Again -> lines !! pos s = Some l -> is_height l = false ->
  started log' = started (log s) -> exited log' = exited (log s) -> reaped log' = reaped (log s) ->
  (forall k n, Started k n ∈ log' -> Started k n ∈ log s) -> total passing (threads s) = 0 -> book s ->
  book (State (S (pos s)) (Some l) (cur_height s) (insmoding s) (lock s) (mutex s) (<[t := WantCount (pos s)]> (threads s)) (children s) (main_at s) (status s) log').
Proof.
  intros Ht Hl Hh L1 L2 L3 L4 Hz [B1 B2 B3 B4 B5 B6 B7 B8]. pose proof (modules_S _ _ Hl) as Em. rewrite Hh in Em.
  destruct (carry_insert _ t _ (WantCount (pos s)) Ht) as (rest & R1 & R2). cbn in R1, R2.
  assert (lheight (pos s) = cur_height s) as Ehp by lia.
  split; fields; rewrite ?Em, ?L1, ?L2, ?L3; try assumption.
  - pose proof (lookup_lt_Some _ _ _ Hl). lia.
  - totals. rewrite (height_S _ _ Hl), Hh, <- B2. cbn. lia.
  - rewrite R2, B3, R1. cbn. rewrite Permutation_app_comm. reflexivity.
  - intros k n Hk. exact (B6 k n (L4 k n Hk)).
  - intros k. rewrite R2. cbn. intros Hk. apply elem_of_cons in Hk as [-> | Hk]; [exact Ehp |]. apply B7. now rewrite R1.
  - intros k Hk. apply elem_of_app in Hk as [Hk | Hk]; [now apply B8 |]. apply list_elem_of_singleton in Hk as ->. lia.
Qed.

Lemma started_log_cons e l : started (e :: l) = option_list (match e with Started k _ => Some k | _ => None end) ++ started l.
Proof. now destruct e. Qed.

(** A child is started. *)
Lemma fork_book s t k name : threads s !! t = Some (Fork k name) -> sync s -> book s ->
  book (goto t WaitChild (with_log (Started k name) (with_children (children s ++ [(k, false)]) s))).
Proof.
  intros Ht I [B1 B2 B3 B4 B5 B6 B7 B8].
  destruct (carry_insert _ t _ WaitChild Ht) as (rest & R1 & R2). cbn in R1, R2.
  split; fields; rewrite ?fmap_app; cbn [fmap list_fmap fst]; try assumption.
  - totals. rewrite <- B2. cbn. lia.
  - change (reaped (Started k name :: log s)) with (reaped (log s)). rewrite R2, B3, R1. cbn [app]. rewrite <- app_assoc. cbn [app].
    rewrite <- (Permutation_middle (children s).*1), <- (Permutation_middle rest). reflexivity.
  - change (reaped (Started k name :: log s)) with (reaped (log s)). rewrite <- app_assoc. cbn [app]. rewrite <- Permutation_middle. now apply perm_skip.
  - unfold done_children in *. rewrite omap_app. cbn. rewrite app_nil_r. exact B5.
  - intros k' n' Hk. apply elem_of_cons in Hk as [[= -> ->] | Hk]; [exact (sync_point _ I _ _ Ht) | now apply B6].
  - intros k' Hk. apply B7. rewrite R1. cbn. rewrite R2 in Hk. set_solver.
Qed.

(** A child is waited for. *)
Lemma reap_book s t c k : threads s !! t = Some WaitChild -> children s !! c = Some (k, true) -> book s ->
  book (goto t WantPut (with_log (Reaped k) (with_children (delete c (children s)) s))).
Proof.
  intros Ht Hc [B1 B2 B3 B4 B5 B6 B7 B8]. pose proof (delete_fst _ _ _ _ Hc) as Hd. pose proof (delete_done _ _ _ Hc) as Hx.
  split; fields; rewrite ?(carry_same _ t WaitChild WantPut Ht eq_refl); try assumption.
  - totals. rewrite <- B2. cbn. lia.
  - rewrite B3, Hd. cbn. f_equiv. rewrite <- Permutation_middle. reflexivity.
  - cbn. rewrite B4, Hd. cbn. rewrite <- Permutation_middle. reflexivity.
  - cbn. rewrite B5, Hx. cbn. rewrite <- Permutation_middle. reflexivity.
  - intros k' n' Hk. apply elem_of_cons in Hk as [? | Hk]; [discriminate | now apply B6].
  - intros k' Hk. apply B7. rewrite Hd. set_solver.
Qed.

(** A child ends. *)
Lemma exit_book s i k : children s !! i = Some (k, false) -> book s -> book (with_log (Exited k) (with_children (<[i := (k, true)]> (children s)) s)).
Proof.
  intros Hc [B1 B2 B3 B4 B5 B6 B7 B8]. destruct (exit_done _ _ _ Hc) as [Hf Hx].
  split; fields; rewrite ?Hf; try assumption.
  - cbn. rewrite Hx, B5. reflexivity.
  - intros k' n' Hk. apply elem_of_cons in Hk as [? | Hk]; [discriminate | now apply B6].
Qed.

(** A barrier is passed. *)
Lemma pass_book s t : threads s !! t = Some NextHeight -> Z.of_nat (length lines) < 2 ^ 31 -> sync s -> book s ->
  book (goto t Again (with_height (s32 (cur_height s + 1)) s)).
Proof.
  intros Ht Hmax I [B1 B2 B3 B4 B5 B6 B7 B8]. destruct (passed_alone s t I Ht) as [Ec Ech].
  pose proof (total_ge passing _ _ _ ltac:(intros []; cbn; lia) Ht) as Hp. cbn in Hp.
  pose proof (total_4 passing _ ltac:(intros []; cbn; lia) (sync_length _ I)) as Hp4.
  assert (lheight (pos s) <= Z.of_nat (length lines)) as Hle.
  { unfold height. pose proof (List.filter_length_le is_height (take (pos s) lines)). rewrite length_take in H. lia. }
  assert (0 <= lheight (pos s)) as H0 by (unfold height; lia).
  split; fields; rewrite ?(carry_same _ t NextHeight Again Ht eq_refl), ?s32_id by lia; try assumption.
  - totals. rewrite <- B2. cbn. lia.
  - rewrite Ec, Ech. intros k Hk. now apply not_elem_of_nil in Hk.
  - intros k Hk. specialize (B8 k Hk). lia.
Qed.

Lemma again_alone s t : sync s -> threads s !! t = Some Again -> total passing (threads s) = 0.
Proof.
  intros I Ht. pose proof (total_nonneg passing (threads s) ltac:(intros []; cbn; lia)) as H0.
  destruct (Z_lt_le_dec 0 (total passing (threads s))) as [H | H]; [exfalso | lia].
  destruct (total_pos _ _ H) as (t' & p & Hp & Hpos). destruct (decide (t = t')) as [<- | N].
  - rewrite Ht in Hp. injection Hp as <-. cbn in Hpos. lia.
  - destruct p; cbn in Hpos; try lia; exact (N (same_lock s _ _ _ _ I Ht Hp eq_refl eq_refl)).
Qed.

Lemma step_book a s s' : Z.of_nat (length lines) < 2 ^ 31 -> stepl a s = Next s' -> sync s -> book s -> book s'.
Proof.
  intros Hmax H I B. step_cases H; creating I;
    try (eapply (book_frame s); fields; totals; cbn [passing]; solve [exact B | eapply carry_same; [eassumption | reflexivity] | reflexivity | lia]);
    try solve [eapply read_height_book; eassumption | eapply pass_book; eassumption | eapply fork_book; eassumption | eapply reap_book; eassumption | eapply exit_book; eassumption].
  - refine (read_module_book s t l (Invalid (pos s) :: log s) E1 E3 E4 eq_refl eq_refl eq_refl _ (again_alone s t I E1) B).
    intros k n Hk. apply elem_of_cons in Hk as [? | Hk]; [discriminate | exact Hk].
  - refine (read_module_book s t l (log s) E1 E3 E4 eq_refl eq_refl eq_refl _ (again_alone s t I E1) B). easy.
  - repeat match goal with Ech : children s = _ |- _ => rewrite <- Ech in * end. eapply reap_book; eassumption.
  - assert (<[c := Rewake]> (threads s) !! t = Some Signal) as Ht by (rewrite list_lookup_insert_ne by congruence; assumption).
    apply (book_frame s); fields; totals; cbn [passing]; try reflexivity; try lia; [| exact B].
    rewrite (carry_same _ t Signal UnlockPut Ht eq_refl). eapply carry_same; [eassumption | reflexivity].
Qed.

Lemma start_book : book start.
Proof. split; cbn; try done; try lia; intros; exfalso; eapply not_elem_of_nil; eassumption. Qed.

(** ** Reachable states *)

Lemma steps_inv acts s s' : Z.of_nat (length lines) < 2 ^ 31 -> steps lines module_path acts s s' -> sync s -> book s -> sync s' /\ book s'.
Proof.
  intros Hmax. induction 1 as [s | a acts s s' s'' H _ IH]; intros I B; [done |].
  apply IH; [exact (step_sync _ _ _ H I) | exact (step_book _ _ _ Hmax H I B)].
Qed.

Lemma reached_inv acts s : Z.of_nat (length lines) < 2 ^ 31 -> steps lines module_path acts start s -> sync s /\ book s.
Proof. intros Hmax H. exact (steps_inv acts _ _ Hmax H start_sync start_book). Qed.

Lemma modules_lookup k n : k ∈ mods n <-> (k < n)%nat /\ exists l, lines !! k = Some l /\ is_height l = false.
Proof.
  unfold modules. rewrite list_elem_of_In, List.filter_In, in_seq. split.
  - intros [Hk Hf]. destruct (lines !! k) as [l |]; [| discriminate]. split; [lia |]. exists l. now destruct (is_height l).
  - intros [Hk (l & El & Eh)]. rewrite El, Eh. split; [lia | reflexivity].
Qed.

(** A module that has started: everything below has ended. *)
Lemma book_barrier s j k : book s -> k ∈ started (log s) -> lheight j < lheight k -> (exists l, lines !! j = Some l /\ is_height l = false) -> j ∈ exited (log s).
Proof.
  intros B Hk Hlt Hj. pose proof (book_modules _ B) as Hm.
  assert (k ∈ mods (pos s)) as Hkm by (rewrite Hm; rewrite (book_started _ B) in Hk; set_solver).
  pose proof (book_past _ B k Hkm) as Hpast. apply modules_lookup in Hkm as [Hkp _].
  assert (j < pos s)%nat as Hjp.
  { destruct (Nat.lt_ge_cases j (pos s)) as [? | Hge]; [assumption | exfalso]. pose proof (height_mono k j ltac:(lia)). lia. }
  assert (j ∈ mods (pos s)) as Hjm by now apply modules_lookup.
  rewrite Hm, app_assoc in Hjm. apply elem_of_app in Hjm as [Hjm | Hjm].
  - pose proof (book_live _ B j Hjm). lia.
  - rewrite (book_exited _ B). set_solver.
Qed.

(** ** The end *)

Definition weight (p : pc) : Z :=
  match p with
  | NotCreated => 10 | AtLock => 3 | Again => 2 | UnlockEof => 1 | Done => 0
  | WantMutex => 27 | TestCount => 25 | CondWait => 22 | Rewake => 26 | UnlockHeight => 10 | NextHeight => 9
  | WantCount _ => 60 | Count _ => 59 | UnlockCount _ => 58 | FormatName _ => 57 | UnlockLock _ _ => 56
  | Fork _ _ => 55 | WaitChild => 50 | WantPut => 40 | Put => 39 | Signal => 35 | UnlockPut => 8
  end.

Definition running (l : list (nat * bool)) : Z := Z.of_nat (length (List.filter (fun x => negb x.2) l)).

(** What is left to do. *)
Definition measure (s : state) : Z :=
  100 * (Z.of_nat (length lines) - Z.of_nat (pos s)) + total weight (threads s) + running (children s) +
  (match main_at s with Create i => 20 - Z.of_nat i | Join i => 10 - Z.of_nat i end) + (match status s with None => 1 | Some _ => 0 end).

Lemma running_delete l c k : l !! c = Some (k, true) -> running (delete c l) = running l.
Proof.
  unfold running. revert c. induction l as [| [k' b] l IH]; intros [| c] H; try discriminate.
  - injection H as -> ->. reflexivity.
  - specialize (IH c H). change (delete (S c) ((k', b) :: l)) with ((k', b) :: delete c l). cbn [List.filter snd]. destruct b; cbn [negb length]; lia.
Qed.

Lemma running_exit l c k : l !! c = Some (k, false) -> running (<[c := (k, true)]> l) = running l - 1.
Proof.
  unfold running. revert c. induction l as [| [k' b] l IH]; intros [| c] H; try discriminate.
  - injection H as -> ->. cbn [insert list_insert List.filter negb snd length]. lia.
  - specialize (IH c H). change (<[S c := (k, true)]> ((k', b) :: l)) with ((k', b) :: <[c := (k, true)]> l). cbn [List.filter snd]. destruct b; cbn [negb length]; lia.
Qed.

Lemma running_fork l k : running (l ++ [(k, false)]) = running l + 1.
Proof. unfold running. rewrite List.filter_app, length_app. cbn. lia. Qed.

Definition spurious (a : act) : bool := match a with Spurious _ => true | _ => false end.

Lemma step_measure a s s' : stepl a s = Next s' -> sync s -> spurious a = false -> measure s' < measure s.
Proof.
  intros H I Ha. pose proof (sync_main _ I) as Hm. step_cases H; creating I; unfold measure; fields;
    repeat match goal with E : status s = None |- _ => rewrite E end; repeat match goal with E : main_at s = _ |- _ => rewrite E in * end;
    totals; cbn [weight]; try discriminate Ha; try lia.
  - rewrite running_fork. lia.
  - repeat match goal with Ech : children s = _ |- _ => rewrite <- Ech in * end. erewrite running_delete by eassumption. lia.
  - cbn in Hm. unfold NUM_THREAD in Hm. lia.
  - erewrite running_exit by eassumption. lia.
Qed.

Lemma measure_nonneg s : sync s -> book s -> (match main_at s with Join i => (i <= NUM_THREAD)%nat | _ => True end) -> 0 <= measure s.
Proof.
  intros I B Hj. pose proof (book_pos _ B). pose proof (total_nonneg weight (threads s) ltac:(intros []; cbn; lia)). pose proof (sync_main _ I) as Hm.
  unfold measure, running. destruct (main_at s); cbn [created] in *; unfold NUM_THREAD in *; destruct (status s); lia.
Qed.

(** The ends of the threads and of the file. *)
Record ends (s : state) : Prop := Ends {
  ends_eof t p : threads s !! t = Some p -> p = UnlockEof \/ p = Done -> (length lines <= pos s)%nat;
  ends_join i : main_at s = Join i -> (i <= NUM_THREAD)%nat /\ forall t, (t < i)%nat -> threads s !! t = Some Done;
}.

Lemma step_eof a s s' t p : stepl a s = Next s' -> sync s -> ends s -> threads s' !! t = Some p -> p = UnlockEof \/ p = Done -> (length lines <= pos s')%nat.
Proof.
  intros H I [H1 _] Hp Hor. step_cases H; creating I; look Hp; fields; try (destruct Hor; discriminate);
    first [exact (H1 _ _ Hp Hor) | eapply Nat.le_trans; [exact (H1 _ _ Hp Hor) | lia] | eapply H1; [eassumption | tauto] | now apply lookup_ge_None].
Qed.

Lemma step_join a s s' i : stepl a s = Next s' -> sync s -> ends s -> main_at s' = Join i -> (i <= NUM_THREAD)%nat /\ forall t, (t < i)%nat -> threads s' !! t = Some Done.
Proof.
  intros H I [_ H2] Hm. step_cases H; creating I; revert Hm; fields; intros Hm; try discriminate Hm;
    try (destruct (H2 _ Hm) as [Hi Hd]; split; [exact Hi |]; intros t' Ht'; specialize (Hd t' Ht'); rewrite ?list_lookup_insert_ne by congruence; exact Hd);
    try congruence.
  - injection Hm as <-. split; [lia |]. intros t' Ht'. lia.
  - injection Hm as <-. destruct (H2 _ eq_refl) as [_ Hd]. apply Nat.ltb_lt in E2. split; [lia |].
    intros t' Ht'. destruct (decide (t' = i0)) as [-> |]; [assumption | apply Hd; lia].
  - exact (H2 _ (eq_trans (eq_sym E1) Hm)).
Qed.

Lemma step_ends a s s' : stepl a s = Next s' -> sync s -> ends s -> ends s'.
Proof. intros H I B. split; [intros t p; exact (step_eof a s s' t p H I B) | intros i; exact (step_join a s s' i H I B)]. Qed.

Lemma start_ends : ends start.
Proof.
  split; [| discriminate]. intros [| [| [| [| t]]]] p Hp; cbn in Hp; try discriminate Hp; injection Hp as <-; intros [? | ?]; discriminate.
Qed.

Lemma ends_reached acts s : steps lines module_path acts start s -> sync s /\ ends s.
Proof.
  assert (forall acts s0, sync s0 -> ends s0 -> steps lines module_path acts s0 s -> sync s /\ ends s) as H.
  { intros acts'. induction acts' as [| a acts' IH]; intros s0 I B Hs; inversion Hs; subst; [done |].
    eapply IH; [eapply step_sync; eassumption | eapply step_ends; eassumption | assumption]. }
  exact (H acts start start_sync start_ends).
Qed.

(** A thread that can go on whatever the others do. *)
Definition can_go (s : state) (p : pc) : bool :=
  match p with
  | NotCreated | CondWait | Done => false
  | AtLock => bool_decide (lock s = None)
  | WantMutex | Rewake | WantCount _ | WantPut => bool_decide (mutex s = None)
  | WaitChild => existsb snd (children s)
  | _ => true
  end.

Lemma go s t p : sync s -> status s = None -> threads s !! t = Some p -> can_go s p = true -> exists c s', stepl (Run t c) s = Next s' /\ status s' = None.
Proof.
  intros I Hs Hp Hg.
  assert (forall c, stepl (Run t c) s = run lines module_path t c s) as E by (intros; unfold step; now rewrite Hs).
  assert ((forall c, run lines module_path t c s <> Undef)) as Hdef by (intros c; rewrite <- E; now apply sync_defined).
  destruct p; try discriminate Hg; cbn [can_go] in Hg; try (apply bool_decide_eq_true in Hg).
  all: try (exists 0%nat; specialize (Hdef 0%nat); rewrite E; unfold run in Hdef |- *; rewrite Hp in Hdef |- *;
    unfold acquire_lock, release_lock, acquire_mutex, release_mutex in *; rewrite ?Hg in *; repeat case_match; try contradiction; solve [eexists; split; [reflexivity | exact Hs]]).
  - exists 0%nat. rewrite E. unfold run. rewrite Hp. eexists. split; [reflexivity | exact Hs].
  - apply existsb_exists in Hg as ([k b] & Hin & Hb). cbn in Hb. subst b. apply list_elem_of_In, list_elem_of_lookup in Hin as [c Hc].
    exists c. rewrite E. unfold run. rewrite Hp, Hc. destruct (children s); [discriminate |]. eexists. split; [reflexivity | exact Hs].
  - destruct ((insmoding s =? 0) && existsb is_waiting (threads s)) eqn:Ew.
    + apply andb_true_iff in Ew as [E1 E2]. pose proof E2 as E3. apply existsb_exists in E2 as (p & Hin & Hw). destruct p; try discriminate.
      apply list_elem_of_In, list_elem_of_lookup in Hin as [c Hc]. exists c. rewrite E. unfold run. rewrite Hp, E1, E3, Hc. eexists. split; [reflexivity | exact Hs].
    + exists 0%nat. rewrite E. unfold run. rewrite Hp, Ew. eexists. split; [reflexivity | exact Hs].
Qed.

(** A thread that is not done: it goes on, or a child is still running, or another thread
    goes on. *)
Lemma some_goes s t p : sync s -> created (main_at s) = NUM_THREAD -> threads s !! t = Some p -> p <> Done ->
  (exists t' p', threads s !! t' = Some p' /\ can_go s p' = true) \/ (exists i k, children s !! i = Some (k, false)).
Proof.
  intros I Hm Hp Hne.
  assert (forall t' p', threads s !! t' = Some p' -> p' <> NotCreated) as Hnc.
  { intros t' p' Hp' E. apply (sync_created _ I _ _ Hp') in E. rewrite Hm, <- (sync_length _ I) in E. apply lookup_lt_Some in Hp'. lia. }
  assert (forall t', (t' < NUM_THREAD)%nat -> exists p', threads s !! t' = Some p') as Hex.
  { intros t' Ht'. apply lookup_lt_is_Some_2. now rewrite (sync_length _ I). }
  (* whoever holds the mutex goes on *)
  destruct (mutex s) as [m |] eqn:Em.
  { left. destruct (Hex m (sync_mutex_dom _ I m Em)) as [pm Hpm]. exists m, pm. split; [exact Hpm |].
    apply (sync_mutex _ I _ _ Hpm) in Em. now destruct pm. }
  (* who is busy goes on, or has a child *)
  assert (forall t' p', threads s !! t' = Some p' -> busy p' = 1 ->
    (exists t' p', threads s !! t' = Some p' /\ can_go s p' = true) \/ (exists i k, children s !! i = Some (k, false))) as Hbusy.
  { intros t' p' Hp' Hb. destruct (can_go s p') eqn:Eg; [left; now exists t', p' |]. destruct p'; try discriminate; cbn [can_go] in Eg.
    - right. destruct (children s) as [| [k b] l] eqn:Ech; [now apply (waiting_child s t' I Hp') in Ech |]. destruct b; [discriminate | now exists 0%nat, k].
    - rewrite bool_decide_eq_true_2 in Eg by exact Em. discriminate. }
  (* who waits, waits for one of them *)
  assert (forall t', threads s !! t' = Some CondWait ->
    (exists t' p', threads s !! t' = Some p' /\ can_go s p' = true) \/ (exists i k, children s !! i = Some (k, false))) as Hwait.
  { intros t' Ht'. destruct (sync_wake _ I t' Ht') as [Hz | [t2 Ht2]]; [| left; now exists t2, Signal].
    pose proof (count_range _ I). rewrite (sync_count _ I) in *. destruct (total_pos busy (threads s)) as (t2 & p2 & Hp2 & Hb); [lia |].
    apply (Hbusy t2 p2 Hp2). destruct p2; cbn in *; lia. }
  destruct (can_go s p) eqn:Eg; [left; now exists t, p |]. destruct p; cbn [can_go] in Eg; try discriminate;
    try (rewrite bool_decide_eq_true_2 in Eg by exact Em; discriminate); try contradiction.
  - now apply Hnc in Hp.
  - destruct (lock s) as [h |] eqn:El; [| now rewrite bool_decide_eq_true_2 in Eg].
    destruct (Hex h (sync_lock_dom _ I h El)) as [ph Hph]. pose proof Hph as Hl. apply (sync_lock _ I) in Hl.
    destruct (decide (ph = CondWait)) as [-> | Hnw]; [now apply (Hwait h) |]. left. exists h, ph. split; [exact Hph |].
    apply Hl in El. destruct ph; try discriminate; cbn [can_go]; try reflexivity; try (now apply bool_decide_eq_true_2); contradiction.
  - now apply (Hwait t).
  - now apply (Hbusy t WaitChild).
Qed.

(** Nothing fails. *)
Definition plain (a : act) : bool := match a with Spurious _ | RunMain false => false | _ => true end.

Lemma progress s : sync s -> ends s -> status s = None -> exists a s', plain a = true /\ stepl a s = Next s' /\
  (status s' = None \/ (status s' = Some 0 /\ main_at s' = Join NUM_THREAD)).
Proof.
  intros I B Hs. destruct (main_at s) as [i | i] eqn:Em.
  - exists (RunMain true). unfold step, run_main. rewrite Hs, Em. destruct (i <? NUM_THREAD)%nat; (eexists; split_and!; [done | reflexivity | now left]).
  - destruct (ends_join _ B i Em) as [Hi _]. destruct (decide (i = NUM_THREAD)) as [-> | Hne].
    + exists (RunMain true). unfold step, run_main. rewrite Hs, Em. eexists. split_and!; [done | reflexivity | right; split; [reflexivity | exact Em]].
    + destruct (lookup_lt_is_Some_2 (threads s) i) as [p Hp]; [rewrite (sync_length _ I); lia |]. destruct (decide (p = Done)) as [-> | Hd].
      * exists (RunMain true). unfold step, run_main. rewrite Hs, Em, Hp. rewrite (proj2 (Nat.ltb_lt _ _)) by lia. eexists. split_and!; [done | reflexivity | now left].
      * destruct (some_goes s i p I ltac:(now rewrite Em) Hp Hd) as [(t & q & Hq & Hg) | (j & k & Hj)].
        -- destruct (go s t q I Hs Hq Hg) as (c & s' & E & Hs'). exists (Run t c), s'. split_and!; [done | exact E | now left].
        -- exists (Exit j). unfold step. rewrite Hs, Hj. eexists. split_and!; [done | reflexivity | now left].
Qed.

(** When [main] has ended, every module has been loaded, once, under its name. *)
Definition all_loaded (s : state) : Prop :=
  started (log s) ≡ₚ mods (length lines) /\ exited (log s) ≡ₚ mods (length lines) /\ reaped (log s) ≡ₚ mods (length lines) /\
  forall k n, Started k n ∈ log s -> exists l, lines !! k = Some l /\ n = nameof l.

Lemma main_ended s : sync s -> book s -> ends s -> main_at s = Join NUM_THREAD -> all_loaded s.
Proof.
  intros I B E Hm. destruct (ends_join _ E _ Hm) as [_ Hd].
  assert (threads s = replicate NUM_THREAD Done) as Et.
  { pose proof (sync_length _ I) as Hl. apply list_eq. intros t. destruct (decide (t < NUM_THREAD)%nat) as [Ht | Ht].
    - rewrite (Hd t Ht). symmetry. apply lookup_replicate. done.
    - rewrite !lookup_ge_None_2; [done | rewrite length_replicate; lia | lia]. }
  pose proof (book_modules _ B) as B1. pose proof (book_started _ B) as B2. pose proof (book_exited _ B) as B3. pose proof (sync_children _ I) as Hc.
  assert (pos s = length lines) as Ep.
  { pose proof (book_pos _ B). pose proof (ends_eof _ E 0%nat Done (Hd 0%nat ltac:(unfold NUM_THREAD; lia)) ltac:(now right)). lia. }
  rewrite Et in B1, Hc. destruct (children s); [| discriminate Hc]. cbn in B1, B2, B3. rewrite Ep in B1.
  split_and!; [now rewrite B1 | now rewrite B1 | now rewrite B1 | exact (book_names _ B)].
Qed.

Lemma finish n : forall s, Z.of_nat (length lines) < 2 ^ 31 -> measure s < Z.of_nat n -> sync s -> book s -> ends s -> status s = None ->
  exists acts s', forallb plain acts = true /\ steps lines module_path acts s s' /\ status s' = Some 0 /\ main_at s' = Join NUM_THREAD /\ all_loaded s'.
Proof.
  induction n as [| n IH]; intros s Hmax Hn I B E Hs.
  { pose proof (measure_nonneg s I B) as H0. destruct (main_at s) as [i | i] eqn:Em; [specialize (H0 Logic.I); lia |].
    specialize (H0 (proj1 (ends_join _ E i Em))). lia. }
  destruct (progress s I E Hs) as (a & s' & Ha & Hst & Hor).
  pose proof (step_sync _ _ _ Hst I) as I'. pose proof (step_book _ _ _ Hmax Hst I B) as B'. pose proof (step_ends _ _ _ Hst I E) as E'.
  destruct Hor as [Hs' | [Hs' Hm']].
  - pose proof (step_measure a s s' Hst I ltac:(now destruct a)) as Hd.
    destruct (IH s' Hmax ltac:(lia) I' B' E' Hs') as (acts & s'' & H1 & H2 & H3). exists (a :: acts), s''.
    split; [cbn; now rewrite Ha |]. split; [econstructor; eassumption | exact H3].
  - exists [a], s'. split; [cbn; now rewrite Ha |]. split; [econstructor; [exact Hst | constructor] |].
    split_and!; [exact Hs' | exact Hm' | exact (main_ended s' I' B' E' Hm')].
Qed.

Lemma run_bound acts s s' : Z.of_nat (length lines) < 2 ^ 31 -> steps lines module_path acts s s' -> sync s -> book s -> ends s -> forallb (fun a => negb (spurious a)) acts = true ->
  Z.of_nat (length acts) <= measure s.
Proof.
  intros Hmax. induction 1 as [s | a acts s s' s'' H Hss IH]; intros I B E Hsp.
  - cbn. apply measure_nonneg; [exact I | exact B |]. destruct (main_at s) as [| i] eqn:Em; [done | exact (proj1 (ends_join _ E i Em))].
  - cbn in Hsp. apply andb_true_iff in Hsp as [Ha Hsp]. apply negb_true_iff in Ha. pose proof (step_measure a s s' H I Ha).
    specialize (IH (step_sync _ _ _ H I) (step_book _ _ _ Hmax H I B) (step_ends _ _ _ H I E) Hsp). cbn [length]. lia.
Qed.

End Inv.

(** ** The properties *)

Lemma lines_of_concat content : concat (lines_of content) = content.
Proof.
  induction content as [| c rest IH]; [reflexivity |]. cbn [lines_of]. destruct (Z.eqb_spec c 10) as [-> |].
  - cbn. now rewrite IH.
  - destruct (lines_of rest) as [| l ls]; cbn in *; now rewrite <- IH.
Qed.

Lemma exec_steps lines path acts : forall s s', exec lines path acts s = Next s' -> steps lines path acts s s'.
Proof.
  induction acts as [| a acts IH]; intros s s' H; cbn in H; [injection H as <-; constructor |].
  destruct (step lines path a s) as [s1 | |] eqn:E; try discriminate. econstructor; [exact E | now apply IH].
Qed.

(** C9: However the four threads, the children and [main] interleave: once [insmod] has been
    started for a module, it has ended for every module above a barrier in front of that
    module.  (As this holds of every state that is reached, it held when [insmod] was
    started.)  It does not matter that [wait] may return the child of another thread. *)
Theorem barrier_holds lines path acts s j k l :
  Z.of_nat (length lines) < 2 ^ 31 -> steps lines path acts start s -> k ∈ started (log s) ->
  lines !! j = Some l -> is_height l = false -> height lines j < height lines k -> j ∈ exited (log s).
Proof.
  intros Hmax Hs Hk Hj Hh Hlt. destruct (reached_inv lines path acts s Hmax Hs) as [_ B]. apply (book_barrier lines path s j k B Hk Hlt). now exists l.
Qed.

(** C10: The loader never blocks for good and never runs for ever: without spurious wake-ups it
    takes at most 100 steps for a line and 61 more, and from every state in which the process
    still runs, steps without a failure lead to the end of [main]; then [insmod] has been
    started exactly once for every module, under its path, has ended and has been waited
    for. *)
Theorem loader_ends lines path acts s :
  Z.of_nat (length lines) < 2 ^ 31 -> steps lines path acts start s ->
  (forallb (fun a => negb (spurious a)) acts = true -> Z.of_nat (length acts) <= 100 * Z.of_nat (length lines) + 61) /\
  (status s = None -> exists acts' s', forallb plain acts' = true /\ steps lines path acts' s s' /\
     status s' = Some 0 /\ main_at s' = Join NUM_THREAD /\ all_loaded lines path s').
Proof.
  intros Hmax Hs. split.
  - intros Hsp. pose proof (run_bound lines path acts _ s Hmax Hs (start_sync lines path) (start_book lines path) (start_ends lines) Hsp) as H.
    change (measure lines start) with (100 * (Z.of_nat (length lines) - 0) + 40 + 0 + 20 + 1) in H. lia.
  - intros Hst. destruct (reached_inv lines path acts s Hmax Hs) as [I B]. destruct (ends_reached lines path acts s Hs) as [_ E].
    exact (finish lines path (S (Z.to_nat (measure lines s))) s Hmax ltac:(lia) I B E Hst).
Qed.

(** No step releases a mutex its thread does not hold, waits for the condition without it or
    reads the shared line when there is none; the counter is the number of modules that are
    loading. *)
Theorem loader_defined lines path acts s a :
  Z.of_nat (length lines) < 2 ^ 31 -> steps lines path acts start s ->
  step lines path a s <> Undef /\ insmoding s = total busy (threads s) /\ 0 <= insmoding s <= 4.
Proof.
  intros Hmax Hs. destruct (reached_inv lines path acts s Hmax Hs) as [I _]. split_and!; try exact (sync_defined lines path a s I);
    [exact (sync_count _ _ _ I) | apply (count_range _ _ _ I) ..].
Qed.

(** ** A run *)

(** A scheduler that tries its candidates in turn. *)
Definition candidates : list act :=
  RunMain true :: concat (map (fun t => [Run t 0; Run t 1; Run t 2; Run t 3]) [0%nat; 1%nat; 2%nat; 3%nat]) ++ [Exit 1; Exit 0; Exit 2; Exit 3].
Fixpoint pick lines path (s : state) (l : list act) : option (act * state) :=
  match l with [] => None | a :: l => match step lines path a s with Next s' => Some (a, s') | _ => pick lines path s l end end.
Fixpoint schedule lines path (n : nat) (s : state) : list act :=
  match n with
  | O => []
  | S n => match pick lines path s candidates with Some (a, s') => a :: schedule lines path n s' | None => [] end
  end.

Definition demo_lines : list (list Z) := lines_of (lit "Height 0:" ++ [13; 10; 9] ++ lit "a.ko" ++ [13; 10; 9] ++ lit "b.ko" ++ [13; 10] ++ lit "Height 1:" ++ [13; 10; 9] ++ lit "c.ko" ++ [13; 10]).
Definition demo_path : list Z := lit "/lib/modules".
Definition demo_acts : list act := schedule demo_lines demo_path 300 start.
Definition demo_end : state := match exec demo_lines demo_path demo_acts start with Next s => s | _ => start end.

Lemma barrier_holds_witness : 4%nat ∈ started (log demo_end) /\ height demo_lines 1 < height demo_lines 4 /\ 1%nat ∈ exited (log demo_end).
Proof.
  split; [by_compute | split; [vm_compute; reflexivity |]].
  apply (barrier_holds demo_lines demo_path demo_acts demo_end 1 4 (9 :: lit "a.ko" ++ [13; 10]));
    [vm_compute; reflexivity | apply exec_steps; vm_compute; reflexivity | by_compute | reflexivity | reflexivity | vm_compute; reflexivity].
Defined.

Lemma loader_ends_witness :
  (forallb (fun a => negb (spurious a)) demo_acts = true -> Z.of_nat (length demo_acts) <= 100 * Z.of_nat (length demo_lines) + 61) /\
  (status demo_end = None -> exists acts' s', forallb plain acts' = true /\ steps demo_lines demo_path acts' demo_end s' /\
     status s' = Some 0 /\ main_at s' = Join NUM_THREAD /\ all_loaded demo_lines demo_path s').
Proof.
  apply (loader_ends demo_lines demo_path demo_acts demo_end); [vm_compute; reflexivity | apply exec_steps; vm_compute; reflexivity].
Defined.

Lemma loader_defined_witness :
  step demo_lines demo_path (Exit 0) start <> Undef /\ insmoding start = total busy (threads start) /\ 0 <= insmoding start <= 4.
Proof. apply (loader_defined demo_lines demo_path [] start (Exit 0)); [vm_compute; reflexivity | constructor]. Defined.

(** The name keeps the end of the line that [modparse.py] writes. *)
Example name_keeps_line_end : module_name demo_path (9 :: lit "a.ko" ++ [13; 10]) = lit "/lib/modules/a.ko" ++ [13; 10].
Proof. vm_compute. reflexivity. Qed.

(** The first thread waits and gets the child of the second: its own is still loading. *)
Example reaps_anothers_child :
  match exec demo_lines demo_path (replicate 5 (RunMain true) ++ replicate 13 (Run 0 0) ++ replicate 8 (Run 1 0) ++ [Exit 1; Run 0 1]) start with
  | Next s => threads s !! 0%nat = Some WantPut /\ children s = [(1%nat, false)] /\ threads s !! 1%nat = Some WaitChild
  | _ => False
  end.
Proof. vm_compute. done. Qed.
