(* ===== verification/Convert.v ===== *)
(** * Convert: the pixel formats of the camera program

    [src/allwinner/vision/camerademo/src/convert.c]: the conversions of a camera frame
    between the YUV formats and to 24-bit RGB.  A pointer argument is [None] where it is
    [NULL] and else the bytes from it to the end of its block; an access outside the block
    and an [int] that overflows are faults, [None].  The two blocks of a call do not
    overlap.  A function gives its result and the destination after it. *)
From S2P Require Import Prelude.

(** ** Memory and loops *)

Abbreviation buf := (list Z).

Definition rd (b : buf) (i : Z) : option Z := if i <? 0 then None else b !! Z.to_nat i.
Definition wr (b : buf) (i v : Z) : option buf :=
  if (0 <=? i) && (i <? Z.of_nat (length b)) then Some (<[Z.to_nat i := v]> b) else None.

(** A result that is an [int], and a product of two [int]s. *)
Definition int (r : Z) : option Z := if (- 2 ^ 31 <=? r) && (r <? 2 ^ 31) then Some r else None.
Definition imul (a b : Z) : option Z := int (a * b).

(** [for (i = i; i < n; i += step)]: at most [n - i] turns for a positive [step]. *)
Fixpoint for_loop {T : Type} (fuel : nat) (i n step : Z) (body : Z -> T -> option T) (s : T) : option T :=
  if i <? n then
    match fuel with
    | O => None
    | S fuel => s ← body i s; for_loop fuel (i + step) n step body s
    end
  else Some s.
Definition for_lt {T : Type} (i n step : Z) (body : Z -> T -> option T) (s : T) : option T :=
  for_loop (Z.to_nat (n - i)) i n step body s.

Definition memcpy (dst src : buf) (n : Z) : option buf :=
  if (0 <=? n) && (n <=? Z.of_nat (length dst)) && (n <=? Z.of_nat (length src))
  then Some (blit dst 0 (take (Z.to_nat n) src)) else None.

Definition ConverFunc := option buf -> option buf -> Z -> Z -> option (Z * option buf).

(** The test of the arguments all conversions begin with. *)
Definition checked (dst src : option buf) (width height : Z) (body : buf -> buf -> option buf) : option (Z * option buf) :=
  match dst, src with
  | Some d, Some s =>
      if (width <=? 0) || (height <=? 0) then Some (-1, dst) else d ← body d s; Some (0, Some d)
  | _, _ => Some (-1, dst)
  end.

(** ** Between the YUV formats *)

(** The loops over the chroma samples: [*(dst++) = *(src_uv + i)]. *)
Definition copy_every_second (src : buf) (src_uv i n : Z) (p : Z) (dst : buf) : option buf :=
  r ← for_lt i n 2 (fun i '(p, dst) => v ← rd src (src_uv + i); dst ← wr dst p v; Some (p + 1, dst)) (p, dst);
  Some (snd r).

Definition NV21ToYV12 : ConverFunc := fun save_YV12 NV21 width height =>
  checked save_YV12 NV21 width height (fun dst src =>
    n ← imul width height;
    let src_uv := n in
    let dst_v := n in
    let dst_u := dst_v + n / 4 in
    dst ← memcpy dst src n;
    dst ← copy_every_second src src_uv 1 (n / 2) dst_u dst;
    copy_every_second src src_uv 0 (n / 2) dst_v dst).

Definition NV21ToYU12 : ConverFunc := fun save_YU12 NV21 width height =>
  checked save_YU12 NV21 width height (fun dst src =>
    n ← imul width height;
    let src_uv := n in
    let dst_u := n in
    let dst_v := dst_u + n / 4 in
    dst ← memcpy dst src n;
    dst ← copy_every_second src src_uv 1 (n / 2) dst_u dst;
    copy_every_second src src_uv 0 (n / 2) dst_v dst).

(** The loop over the chroma of one row; [4 * j + k > 2 * width] leaves it. *)
Fixpoint yuyv_row (fuel : nat) (src : buf) (width base k plane : Z) (j index : Z) (dst : buf) : option (Z * buf) :=
  if j <? width / 2 then
    match fuel with
    | O => None
    | S fuel =>
        if 2 * width <? 4 * j + k then Some (index, dst)
        else v ← rd src (base + 4 * j + k); dst ← wr dst (plane + u32 (index * 2)) v;
             yuyv_row fuel src width base k plane (j + 1) (u32 (index + 1)) dst
    end
  else Some (index, dst).

(** The loops over the rows: those of the other parity are skipped. *)
Definition yuyv_plane (src : buf) (width height k plane skip : Z) (dst : buf) : option buf :=
  r ← for_lt 0 height 1 (fun i '(index, dst) =>
        if i mod 2 =? skip then Some (index, dst)
        else row ← imul (i * 2) width; yuyv_row (Z.to_nat (width / 2)) src width row k plane 0 index dst)
      (0, dst);
  Some (snd r).

Definition YUYVToNV21 : ConverFunc := fun save_NV21 YUYV width height =>
  checked save_NV21 YUYV width height (fun dst src =>
    n ← imul width height;
    let dst_nv21_v := n in
    let dst_nv21_u := n + 1 in
    dst ← for_lt 0 n 1 (fun i dst => k ← imul 2 i; v ← rd src k; wr dst i v) dst;
    dst ← yuyv_plane src width height 1 dst_nv21_u 1 dst;
    yuyv_plane src width height 3 dst_nv21_v 0 dst).

(** ** To 24-bit RGB *)

Definition clamp (temp : Z) : Z := if temp <? 0 then 0 else if 255 <? temp then 255 else temp.

(** The three bytes of a pixel: blue, green, red. *)
Definition rgb (y u v : Z) : Z * Z * Z :=
  (clamp (y + Z.shiftr (7289 * u) 12 - 228),
   clamp (y - Z.shiftr (1415 * u) 12 - Z.shiftr (2936 * v) 12 + 136),
   clamp (y + Z.shiftr (5765 * v) 12 - 180)).

(** The body of the loops: pixel [D] from the samples [src_y[Y]], [src_u[U]] and [src_v[V]]. *)
Definition put_pixel (src : buf) (src_y src_u src_v Y U V D : Z) (dst_RGB : buf) : option buf :=
  y ← rd src (src_y + Y); u ← rd src (src_u + U); v ← rd src (src_v + V);
  let '(temp0, temp1, temp2) := rgb y u v in
  k ← imul 3 D; k2 ← int (k + 2);
  dst ← wr dst_RGB k temp0; dst ← wr dst (k + 1) temp1; wr dst k2 temp2.

(** [for (y = 0; y < height; y ++) for (x = 0; x < width; x ++)] *)
Definition for_yx (width height : Z) (body : Z -> Z -> buf -> option buf) (dst : buf) : option buf :=
  for_lt 0 height 1 (fun y dst => for_lt 0 width 1 (body y) dst) dst.

Definition YUV422PToRGB24 : ConverFunc := fun RGB24 YUV422P width height =>
  checked RGB24 YUV422P width height (fun dst src =>
    n ← imul width height; n3 ← imul n 3;
    let src_y := 0 in let src_u := n in let src_v := n3 / 2 in
    for_yx width height (fun y x dst =>
      let Y := y * width + x in let U := Z.shiftr Y 1 in let V := U in
      put_pixel src src_y src_u src_v Y U V Y dst) dst).

Definition YUV420ToRGB24 : ConverFunc := fun RGB24 YUV420 width height =>
  checked RGB24 YUV420 width height (fun dst src =>
    n ← imul width height; n5 ← imul n 5;
    let src_y := 0 in let src_u := n in let src_v := n5 / 4 in
    for_yx width height (fun y x dst =>
      let Y := y * width + x in let U := Z.shiftr y 1 * Z.shiftr width 1 + Z.shiftr x 1 in let V := U in
      put_pixel src src_y src_u src_v Y U V Y dst) dst).

Definition YVU420ToRGB24 : ConverFunc := fun RGB24 YVU420 width height =>
  checked RGB24 YVU420 width height (fun dst src =>
    n ← imul width height; n5 ← imul n 5;
    let src_y := 0 in let src_u := n5 / 4 in let src_v := n in
    for_yx width height (fun y x dst =>
      let Y := y * width + x in let U := Z.shiftr y 1 * Z.shiftr width 1 + Z.shiftr x 1 in let V := U in
      put_pixel src src_y src_u src_v Y U V Y dst) dst).

Definition YUYVToRGB24 : ConverFunc := fun RGB24 YUYV width height =>
  checked RGB24 YUYV width height (fun dst src =>
    let src_y := 0 in let src_u := 1 in let src_v := 3 in
    n ← imul width height;
    for_lt 0 n 1 (fun i dst =>
      Y ← imul 2 i; U ← imul (Z.shiftr i 1) 4; let V := U in
      put_pixel src src_y src_u src_v Y U V i dst) dst).

Definition YVYUToRGB24 : ConverFunc := fun RGB24 YVYU width height =>
  checked RGB24 YVYU width height (fun dst src =>
    let src_y := 0 in let src_u := 3 in let src_v := 1 in
    n ← imul width height;
    for_lt 0 n 1 (fun i dst =>
      Y ← imul 2 i; U ← imul (Z.shiftr i 1) 4; let V := U in
      put_pixel src src_y src_u src_v Y U V i dst) dst).

Definition UYVYToRGB24 : ConverFunc := fun RGB24 UYVY width height =>
  checked RGB24 UYVY width height (fun dst src =>
    let src_y := 1 in let src_u := 0 in let src_v := 2 in
    n ← imul width height;
    for_lt 0 n 1 (fun i dst =>
      Y ← imul 2 i; U ← imul (Z.shiftr i 1) 4; let V := U in
      put_pixel src src_y src_u src_v Y U V i dst) dst).

Definition VYUYToRGB24 : ConverFunc := fun RGB24 VYUY width height =>
  checked RGB24 VYUY width height (fun dst src =>
    let src_y := 1 in let src_u := 2 in let src_v := 0 in
    n ← imul width height;
    for_lt 0 n 1 (fun i dst =>
      Y ← imul 2 i; U ← imul (Z.shiftr i 1) 4; let V := U in
      put_pixel src src_y src_u src_v Y U V i dst) dst).

Definition NV12ToRGB24 : ConverFunc := fun RGB24 NV12 width height =>
  checked RGB24 NV12 width height (fun dst src =>
    n ← imul width height;
    let src_y := 0 in let src_v := n + 1 in let src_u := n in
    for_yx width height (fun y x dst =>
      let Y := y * width + x in
      let U := (Z.shiftr y 1 * Z.shiftr width 1 + Z.shiftr x 1) * 2 in let V := U in
      put_pixel src src_y src_u src_v Y U V Y dst) dst).

Definition NV21ToRGB24 : ConverFunc := fun RGB24 NV21 width height =>
  checked RGB24 NV21 width height (fun dst src =>
    n ← imul width height;
    let src_y := 0 in let src_v := n in let src_u := n + 1 in
    for_yx width height (fun y x dst =>
      let Y := y * width + x in
      let U := Z.shiftl (Z.shiftr y 1 * Z.shiftr width 1 + Z.shiftr x 1) 1 in let V := U in
      put_pixel src src_y src_u src_v Y U V Y dst) dst).

Definition YV12ToRGB24 : ConverFunc := fun RGB24 YV12 width height =>
  checked RGB24 YV12 width height (fun dst src =>
    n ← imul width height; n5 ← imul n 5;
    let src_y := 0 in let src_v := n in let src_u := n5 / 4 in
    for_yx width height (fun y x dst =>
      let Y := y * width + x in let U := Z.shiftr y 1 * Z.shiftr width 1 + Z.shiftr x 1 in let V := U in
      put_pixel src src_y src_u src_v Y U V Y dst) dst).

Definition NV16ToRGB24 : ConverFunc := fun RGB24 NV16 width height =>
  checked RGB24 NV16 width height (fun dst src =>
    n ← imul width height;
    let src_y := 0 in let src_u := n in let src_v := n + 1 in
    for_yx width height (fun y x dst =>
      let Y := y * width + x in let U := Z.shiftr Y 1 * 2 in let V := U in
      put_pixel src src_y src_u src_v Y U V Y dst) dst).

Definition NV61ToRGB24 : ConverFunc := fun RGB24 NV61 width height =>
  checked RGB24 NV61 width height (fun dst src =>
    n ← imul width height;
    let src_y := 0 in let src_u := n + 1 in let src_v := n in
    for_yx width height (fun y x dst =>
      let Y := y * width + x in let U := Z.shiftr Y 1 * 2 in let V := U in
      put_pixel src src_y src_u src_v Y U V Y dst) dst).

(** ** To 16-bit RGB *)

(** The 16-bit value of a pixel; its bytes are stored with the low one first. *)
Definition pack555 (b g r : Z) : Z :=
  u16 (Z.lor (Z.lor (Z.shiftl (Z.shiftr r 3) 10) (Z.shiftl (Z.shiftr g 3) 5)) (Z.shiftr b 3)).
Definition pack565 (b g r : Z) : Z :=
  u16 (Z.lor (Z.lor (Z.shiftl (Z.shiftr r 3) 11) (Z.shiftl (Z.shiftr g 2) 5)) (Z.shiftr b 3)).

(** The loop of both functions. *)
Definition pack_loop (pack : Z -> Z -> Z -> Z) (len : Z) (dst src : buf) : option buf :=
  for_lt 0 len 1 (fun i dst =>
    k ← imul 3 i; k2 ← int (k + 2); r ← rd src k2; g ← rd src (k + 1); b ← rd src k;
    let v := pack b g r in dst ← wr dst (2 * i) (v mod 256); wr dst (2 * i + 1) (v / 256)) dst.

(** The test looks at the local pointers [src_24] and [dst_555], both still [NULL]; the arguments are
    assigned to them after it. *)
Definition RGB24ToRGB555 : ConverFunc := fun RGB555 RGB24 width height =>
  let dst_555 : option buf := None in let src_24 : option buf := None in
  len ← imul width height;
  if bool_decide (src_24 = None) || bool_decide (dst_555 = None) || (width <=? 0) || (height <=? 0) then Some (-1, RGB555)
  else
    dst_555 ← RGB555; src_24 ← RGB24;
    dst ← pack_loop pack555 len dst_555 src_24; Some (0, Some dst).

Definition RGB24ToRGB565 : ConverFunc := fun RGB565 RGB24 width height =>
  let dst_565 : option buf := None in let src_24 : option buf := None in
  len ← imul width height;
  if bool_decide (src_24 = None) || bool_decide (dst_565 = None) || (width <=? 0) || (height <=? 0) then Some (-1, RGB565)
  else
    dst_565 ← RGB565; src_24 ← RGB24;
    dst ← pack_loop pack565 len dst_565 src_24; Some (0, Some dst).

(** ** The table of formats

    [fmt_fourcc] of [camerademo.c]: the YUV formats with their conversions.  The names of the
    formats stand for the codes of [videodev2.h]. *)
Inductive V4L2_PIX_FMT :=
  | YUV422P | YUV420 | YVU420 | NV16 | NV12 | NV61 | NV21 | HM12 | YUYV | YVYU | UYVY | VYUY.

Definition fmt_fourcc : list (V4L2_PIX_FMT * option ConverFunc) :=
  [(YUV422P, Some YUV422PToRGB24); (YUV420, Some YUV420ToRGB24); (YVU420, Some YVU420ToRGB24); (NV16, Some NV16ToRGB24);
   (NV12, Some NV12ToRGB24); (NV61, Some NV61ToRGB24); (NV21, Some NV21ToRGB24); (HM12, None); (YUYV, Some YUYVToRGB24);
   (YVYU, Some YVYUToRGB24); (UYVY, Some UYVYToRGB24); (VYUY, Some VYUYToRGB24)].
