(* ===== verification/ConvertRun.v ===== *)
(** * ConvertRun: what the conversions compute

    The formats as the kernel documents them, as the place of the three samples of a pixel
    in a frame, and the theorems: every conversion of the table [fmt_fourcc] reads its
    format and stays in its blocks, and the conversions between the YUV formats keep the
    picture. *)
From S2P Require Import Prelude Convert.
From stdpp Require Import sets.

#[local] Open Scope Z_scope.

(** ** Specification *)

(** The length of a frame of [w] times [h] pixels, [w] and [h] even. *)
Definition frame_size (f : V4L2_PIX_FMT) (w h : Z) : Z :=
  match f with
  | YUV420 | YVU420 | NV12 | NV21 | HM12 => w * h + w * h / 2
  | _ => 2 * (w * h)
  end.

(** The places of the samples Y, U and V of the pixel in column [x] of row [y]: planes of their
    own, one plane of pairs, or pairs of pixels in four bytes. *)
Definition layout (f : V4L2_PIX_FMT) (w h x y : Z) : Z * Z * Z :=
  let n := w * h in
  let planes u v := (y * w + x, u, v) in
  let sub22 := y / 2 * (w / 2) + x / 2 in
  let sub21 := y * (w / 2) + x / 2 in
  let packed := y * (2 * w) + 4 * (x / 2) in
  match f with
  | YUV422P => planes (n + sub21) (n + n / 2 + sub21)
  | YUV420 => planes (n + sub22) (n + n / 4 + sub22)
  | YVU420 => planes (n + n / 4 + sub22) (n + sub22)
  | NV16 => planes (n + 2 * sub21) (n + 2 * sub21 + 1)
  | NV61 => planes (n + 2 * sub21 + 1) (n + 2 * sub21)
  | NV12 | HM12 => planes (n + 2 * sub22) (n + 2 * sub22 + 1)
  | NV21 => planes (n + 2 * sub22 + 1) (n + 2 * sub22)
  | YUYV => (packed + 2 * (x mod 2), packed + 1, packed + 3)
  | YVYU => (packed + 2 * (x mod 2), packed + 3, packed + 1)
  | UYVY => (packed + 2 * (x mod 2) + 1, packed, packed + 2)
  | VYUY => (packed + 2 * (x mod 2) + 1, packed + 2, packed)
  end.

Definition byte_at (b : buf) (i : Z) : Z := default 0 (rd b i).

(** The samples of a pixel, its colour, and the picture: blue, green, red, row after row. *)
Definition samples (f : V4L2_PIX_FMT) (src : buf) (w h x y : Z) : Z * Z * Z :=
  let '(Y, U, V) := layout f w h x y in (byte_at src Y, byte_at src U, byte_at src V).
Definition colour (f : V4L2_PIX_FMT) (src : buf) (w h x y : Z) : Z * Z * Z :=
  let '(Y, U, V) := samples f src w h x y in rgb Y U V.
Definition bytes3 (c : Z * Z * Z) : list Z := let '(b, g, r) := c in [b; g; r].
Definition picture (f : V4L2_PIX_FMT) (src : buf) (w h : Z) : list Z :=
  seqZ 0 (w * h) ≫= fun i => bytes3 (colour f src w h (i mod w) (i / w)).

(** ** Memory and loops *)

Lemma rd_ok b i : 0 <= i < Z.of_nat (length b) -> rd b i = Some (byte_at b i).
Proof.
  intros H. unfold byte_at, rd. rewrite (proj2 (Z.ltb_ge i 0)) by lia.
  destruct (lookup_lt_is_Some_2 b (Z.to_nat i)) as [v ->]; [lia | reflexivity].
Qed.

Lemma wr_app l a r v i : i = Z.of_nat (length l) -> wr (l ++ a :: r) i v = Some ((l ++ [v]) ++ r).
Proof.
  intros ->. unfold wr. rewrite length_app. cbn [length].
  rewrite (proj2 (andb_true_iff _ _)) by (split; [apply Z.leb_le | apply Z.ltb_lt]; lia).
  rewrite Nat2Z.id, insert_app_r_alt by lia.
  rewrite Nat.sub_diag. cbn. now rewrite <- app_assoc.
Qed.

Lemma int_ok r : - 2 ^ 31 <= r < 2 ^ 31 -> int r = Some r.
Proof. intros. unfold int. now rewrite (proj2 (andb_true_iff _ _)) by lia. Qed.
Lemma imul_ok a b : - 2 ^ 31 <= a * b < 2 ^ 31 -> imul a b = Some (a * b).
Proof. apply int_ok. Qed.

(** A loop keeps an invariant that its body keeps. *)
Lemma for_loop_inv {T} (P : Z -> T -> Prop) fuel i n step body s :
  0 < step -> n - i <= Z.of_nat fuel -> P i s ->
  (forall j s, i <= j < n -> (j - i) mod step = 0 -> P j s -> exists s', body j s = Some s' /\ P (j + step) s') ->
  exists s', for_loop fuel i n step body s = Some s' /\ exists e, n <= e < Z.max (i + 1) (n + step) /\ i <= e /\ (e - i) mod step = 0 /\ P e s'.
Proof.
  intros Hstep. revert i s. induction fuel as [| fuel IH]; intros i s Hf HP Hb; cbn [for_loop].
  - rewrite (proj2 (Z.ltb_ge i n)) by lia. exists s. split; [reflexivity |]. exists i.
    rewrite Z.sub_diag. repeat split; try lia; auto.
  - destruct (Z.ltb_spec i n) as [Hi | Hi].
    + destruct (Hb i s ltac:(lia) ltac:(now rewrite Z.sub_diag) HP) as (s1 & E1 & H1). rewrite E1. cbn.
      destruct (IH (i + step) s1 ltac:(lia) H1) as (s2 & E2 & e & He & Hie & Hm & HP2).
      { intros j t Hj Hjm Ht. apply Hb; [lia | | exact Ht].
        replace (j - i) with (j - (i + step) + 1 * step) by lia. now rewrite Z.mod_add by lia. }
      exists s2. split; [exact E2 |]. exists e. repeat split; try lia; [| exact HP2].
      replace (e - i) with (e - (i + step) + 1 * step) by lia. now rewrite Z.mod_add by lia.
    + exists s. split; [reflexivity |]. exists i. rewrite Z.sub_diag. repeat split; try lia; auto.
Qed.

Lemma for_lt_inv {T} (P : Z -> T -> Prop) i n body s : i <= n -> P i s ->
  (forall j s, i <= j < n -> P j s -> exists s', body j s = Some s' /\ P (j + 1) s') ->
  exists s', for_lt i n 1 body s = Some s' /\ P n s'.
Proof.
  intros Hi HP Hb. destruct (for_loop_inv P (Z.to_nat (n - i)) i n 1 body s) as (s' & E & e & He & _ & _ & H); try lia; auto.
  exists s'. replace n with e at 2 by lia. auto.
Qed.

(** ** The loops over the pixels *)

(** The destination after the first [k] pixels. *)
Definition painted (px : Z -> Z * Z * Z) (dst : buf) (k : Z) : buf :=
  (seqZ 0 k ≫= fun i => bytes3 (px i)) ++ drop (Z.to_nat (3 * k)) dst.

Lemma length_bind3 px l : length (l ≫= fun i : Z => bytes3 (px i)) = (3 * length l)%nat.
Proof. induction l as [| i l IH]; [reflexivity |]. cbn. rewrite length_app, IH. destruct (px i) as [[b g] r]. cbn. lia. Qed.

Lemma seqZ_snoc k : 0 <= k -> seqZ 0 (k + 1) = seqZ 0 k ++ [k].
Proof. intros. rewrite seqZ_app by lia. f_equal. Qed.

Section Pixels.
Context (src dst : buf) (n : Z).
Context (Hn : 0 <= n) (H31 : 3 * n < 2 ^ 31) (Hdst : 3 * n <= Z.of_nat (length dst)).

Lemma put_pixel_painted px sy su sv Y U V k : 0 <= k < n ->
  0 <= sy + Y < Z.of_nat (length src) -> 0 <= su + U < Z.of_nat (length src) -> 0 <= sv + V < Z.of_nat (length src) ->
  px k = rgb (byte_at src (sy + Y)) (byte_at src (su + U)) (byte_at src (sv + V)) ->
  put_pixel src sy su sv Y U V k (painted px dst k) = Some (painted px dst (k + 1)).
Proof.
  intros Hk HY HU HV Hpx. unfold put_pixel. rewrite !rd_ok by assumption. cbn [mbind option_bind].
  rewrite <- Hpx. destruct (px k) as [[b g] r] eqn:Epx.
  rewrite imul_ok by lia. cbn [mbind option_bind]. rewrite int_ok by lia. cbn [mbind option_bind].
  unfold painted. rewrite seqZ_snoc, bind_app by lia.
  replace (Z.to_nat (3 * (k + 1))) with (Z.to_nat (3 * k) + 3)%nat by lia. rewrite <- drop_drop.
  assert (length (drop (Z.to_nat (3 * k)) dst) = length dst - Z.to_nat (3 * k))%nat as Hl by apply length_drop.
  destruct (drop (Z.to_nat (3 * k)) dst) as [| d0 [| d1 [| d2 l]]] eqn:Ed; cbn [length] in Hl; try lia.
  assert (length (seqZ 0 k ≫= fun i : Z => bytes3 (px i)) = Z.to_nat (3 * k)) as Hp.
  { rewrite length_bind3, length_seqZ. lia. }
  rewrite wr_app by lia. cbn [mbind option_bind]. rewrite wr_app by (rewrite length_app; cbn [length]; lia).
  cbn [mbind option_bind].
  rewrite wr_app by (rewrite !length_app; cbn [length]; lia). f_equal.
  cbn. rewrite Epx. cbn. now rewrite <- !app_assoc.
Qed.
End Pixels.

Lemma pixel_loop_ok dst n px body : 0 <= n -> (forall k, 0 <= k < n -> body k (painted px dst k) = Some (painted px dst (k + 1))) ->
  for_lt 0 n 1 body dst = Some (painted px dst n).
Proof.
  intros Hn Hb. destruct (for_lt_inv (fun k d => d = painted px dst k) 0 n body dst) as (d & -> & ->); auto.
  intros j d Hj ->. eauto.
Qed.

Lemma pixel_yx_ok dst px w h body : 0 < w -> 0 <= h ->
  (forall x y, 0 <= x < w -> 0 <= y < h -> body y x (painted px dst (y * w + x)) = Some (painted px dst (y * w + x + 1))) ->
  for_yx w h body dst = Some (painted px dst (w * h)).
Proof.
  intros Hw Hh Hb. unfold for_yx.
  destruct (for_lt_inv (fun y d => d = painted px dst (y * w)) 0 h (fun y d => for_lt 0 w 1 (body y) d) dst) as (d & E & Hd); auto.
  - intros y d Hy ->.
    destruct (for_lt_inv (fun x d => d = painted px dst (y * w + x)) 0 w (body y) (painted px dst (y * w))) as (d & -> & ->).
    + lia.
    + now rewrite Z.add_0_r.
    + intros x d Hx ->. exists (painted px dst (y * w + x + 1)). rewrite Z.add_assoc. auto.
    + eexists. split; [reflexivity |]. f_equal. lia.
  - rewrite E, Hd. do 2 f_equal. lia.
Qed.

(** ** The places of the samples *)

Lemma shiftr_1 z : Z.shiftr z 1 = z / 2.
Proof. now rewrite Z.shiftr_div_pow2 by lia. Qed.
Lemma shiftl_1 z : Z.shiftl z 1 = z * 2.
Proof. now rewrite Z.shiftl_mul_pow2 by lia. Qed.

Lemma triple_eq (y y' u u' v v' : Z) : y = y' -> u = u' -> v = v' -> (y, u, v) = (y', u', v').
Proof. congruence. Qed.

(** The pixel in column [x] of row [y] of [2 * a] times [2 * b] pixels. *)
Lemma place a b x y : 0 <= x < 2 * a -> 0 <= y < 2 * b ->
  (y * (2 * a) + x) / 2 = y * a + x / 2 /\ 0 <= y / 2 * a + x / 2 < a * b /\
  0 <= y * a + x / 2 < 2 * (a * b) /\ 0 <= y * (2 * a) + x < 4 * (a * b).
Proof.
  intros Hx Hy. assert (0 <= x / 2 < a) as Hx2 by (split; [apply Z.div_pos | apply Z.div_lt_upper_bound]; lia).
  assert (0 <= y / 2 < b) as Hy2 by (split; [apply Z.div_pos | apply Z.div_lt_upper_bound]; lia).
  assert (0 <= y / 2 * a <= (b - 1) * a) by nia. assert (0 <= y * a <= (2 * b - 1) * a) by nia.
  split; [| repeat split; lia].
  replace (y * (2 * a) + x) with (x + y * a * 2) by lia. rewrite Z.div_add by lia. lia.
Qed.

Lemma frame_divs a b : 2 * a * (2 * b) / 2 = 2 * (a * b) /\ 2 * a * (2 * b) / 4 = a * b /\
  2 * a * (2 * b) * 3 / 2 = 6 * (a * b) /\ 2 * a * (2 * b) * 5 / 4 = 5 * (a * b).
Proof.
  repeat split.
  - replace (2 * a * (2 * b)) with (2 * (a * b) * 2) by lia. now apply Z.div_mul.
  - replace (2 * a * (2 * b)) with (a * b * 4) by lia. now apply Z.div_mul.
  - replace (2 * a * (2 * b) * 3) with (6 * (a * b) * 2) by lia. now apply Z.div_mul.
  - replace (2 * a * (2 * b) * 5) with (5 * (a * b) * 4) by lia. now apply Z.div_mul.
Qed.

Lemma colour_at f src w h x y : 0 <= x < w -> colour f src w h ((y * w + x) mod w) ((y * w + x) / w) = colour f src w h x y.
Proof.
  intros Hx. rewrite Z.add_comm, Z.mod_add, Z.div_add by lia. rewrite Z.mod_small, Z.div_small by lia. now rewrite Z.add_0_l.
Qed.

(** Converts the pixel in column [x] of row [y]. *)
Lemma put_colour f src dst w h sy su sv Y U V x y : 0 <= x < w -> 0 <= y < h -> 3 * (w * h) < 2 ^ 31 ->
  3 * (w * h) <= Z.of_nat (length dst) -> layout f w h x y = (sy + Y, su + U, sv + V) ->
  0 <= sy + Y < Z.of_nat (length src) -> 0 <= su + U < Z.of_nat (length src) -> 0 <= sv + V < Z.of_nat (length src) ->
  put_pixel src sy su sv Y U V (y * w + x) (painted (fun i => colour f src w h (i mod w) (i / w)) dst (y * w + x)) =
  Some (painted (fun i => colour f src w h (i mod w) (i / w)) dst (y * w + x + 1)).
Proof.
  intros Hx Hy H31 Hd Hl HY HU HV. apply (put_pixel_painted src dst (w * h)); auto; try nia.
  rewrite colour_at by lia. unfold colour, samples. now rewrite Hl.
Qed.

(** The argument checks pass on frames of positive size. *)
Lemma checked_ok dst src w h body d : 0 < w -> 0 < h -> body dst src = Some d ->
  checked (Some dst) (Some src) w h body = Some (0, Some d).
Proof.
  intros Hw Hh E. unfold checked. rewrite (proj2 (Z.leb_gt w 0)), (proj2 (Z.leb_gt h 0)) by lia. cbn. now rewrite E.
Qed.

Section Conversions.
Context (src dst : buf) (a b : Z).
Context (Ha : 0 < a) (Hb : 0 < b) (H31 : 5 * (2 * a * (2 * b)) < 2 ^ 31).
Context (Hdst : 3 * (2 * a * (2 * b)) <= Z.of_nat (length dst)).

(** A nest of loops whose body reads the samples of format [f]. *)
Lemma nest_reads f sy su sv U V :
  frame_size f (2 * a) (2 * b) <= Z.of_nat (length src) ->
  (forall x y, 0 <= x < 2 * a -> 0 <= y < 2 * b ->
    layout f (2 * a) (2 * b) x y = (sy + (y * (2 * a) + x), su + U y x, sv + V y x) /\
    0 <= sy + (y * (2 * a) + x) < frame_size f (2 * a) (2 * b) /\
    0 <= su + U y x < frame_size f (2 * a) (2 * b) /\ 0 <= sv + V y x < frame_size f (2 * a) (2 * b)) ->
  for_yx (2 * a) (2 * b) (fun y x dst => put_pixel src sy su sv (y * (2 * a) + x) (U y x) (V y x) (y * (2 * a) + x) dst) dst =
  Some (picture f src (2 * a) (2 * b) ++ drop (Z.to_nat (3 * (2 * a * (2 * b)))) dst).
Proof.
  intros Hsrc HL. change (picture f src (2 * a) (2 * b) ++ drop (Z.to_nat (3 * (2 * a * (2 * b)))) dst) with
    (painted (fun i => colour f src (2 * a) (2 * b) (i mod (2 * a)) (i / (2 * a))) dst (2 * a * (2 * b))).
  apply pixel_yx_ok; [lia | lia |]. intros x y Hx Hy. destruct (HL x y Hx Hy) as (E & HY & HU & HV).
  apply (put_colour f src dst (2 * a) (2 * b)); auto; lia.
Qed.

Ltac nest f :=
  apply checked_ok; [lia | lia |]; cbv beta zeta; unfold imul; rewrite ?int_ok by lia; cbn [mbind option_bind];
  rewrite ?int_ok by lia; cbn [mbind option_bind];
  apply (nest_reads f); [assumption |]; intros x y Hx Hy;
  destruct (place a b x y Hx Hy) as (E1 & E2 & E3 & E4); destruct (frame_divs a b) as (D1 & D2 & D3 & D4);
  unfold layout, frame_size; rewrite ?shiftl_1, ?shiftr_1, ?E1, ?D1, ?D2, ?D3, ?D4;
  rewrite ?(Z.mul_comm 2 a), ?Z.div_mul by lia.

(** The loop over the pairs of pixels in four bytes. *)
Lemma pairs_read f sy su sv :
  2 * (2 * a * (2 * b)) <= Z.of_nat (length src) -> (0 <= sy < 2 /\ 0 <= su < 4 /\ 0 <= sv < 4) ->
  (forall x y, layout f (2 * a) (2 * b) x y = (y * (2 * (2 * a)) + 4 * (x / 2) + 2 * (x mod 2) + sy, y * (2 * (2 * a)) + 4 * (x / 2) + su, y * (2 * (2 * a)) + 4 * (x / 2) + sv)) ->
  for_lt 0 (2 * a * (2 * b)) 1 (fun i dst => Y ← imul 2 i; U ← imul (Z.shiftr i 1) 4; put_pixel src sy su sv Y U U i dst) dst =
  Some (picture f src (2 * a) (2 * b) ++ drop (Z.to_nat (3 * (2 * a * (2 * b)))) dst).
Proof.
  intros Hsrc Hs HL. change (picture f src (2 * a) (2 * b) ++ drop (Z.to_nat (3 * (2 * a * (2 * b)))) dst) with
    (painted (fun i => colour f src (2 * a) (2 * b) (i mod (2 * a)) (i / (2 * a))) dst (2 * a * (2 * b))).
  apply pixel_loop_ok; [lia |]. intros k Hk. set (x := k mod (2 * a)). set (y := k / (2 * a)).
  assert (0 <= x < 2 * a) as Hx by (apply Z.mod_pos_bound; lia).
  assert (0 <= y < 2 * b) as Hy by (split; [apply Z.div_pos | apply Z.div_lt_upper_bound]; lia).
  assert (k = y * (2 * a) + x) as Ek by (unfold x, y; rewrite Z.mul_comm; apply Z.div_mod; lia).
  clearbody x y. subst k. destruct (place a b x y Hx Hy) as (E1 & E2 & E3 & E4).
  rewrite shiftr_1, E1. unfold imul. rewrite !int_ok by lia. cbn [mbind option_bind].
  pose proof (Z.div_mod x 2). pose proof (Z.mod_pos_bound x 2).
  apply (put_colour f src dst (2 * a) (2 * b)); auto; try lia.
  rewrite HL. apply triple_eq; lia.
Qed.

Ltac pairs f :=
  apply checked_ok; [lia | lia |]; cbv beta zeta; rewrite imul_ok by lia; cbn [mbind option_bind];
  apply (pairs_read f); [assumption | lia | intros x y; unfold layout; apply triple_eq; lia].

Lemma table_reads f conv : In (f, Some conv) fmt_fourcc -> frame_size f (2 * a) (2 * b) <= Z.of_nat (length src) ->
  conv (Some dst) (Some src) (2 * a) (2 * b) =
  Some (0, Some (picture f src (2 * a) (2 * b) ++ drop (Z.to_nat (3 * (2 * a * (2 * b)))) dst)).
Proof.
  intros Hin Hsrc. cbn [In fmt_fourcc] in Hin.
  repeat match goal with H : _ \/ _ |- _ => destruct H as [[= <- <-] | H] || destruct H as [[= ] | H] end; [.. | destruct Hin].
  - nest YUV422P. split; [apply triple_eq; lia | lia].
  - nest YUV420. split; [apply triple_eq; lia | lia].
  - nest YVU420. split; [apply triple_eq; lia | lia].
  - nest NV16. split; [apply triple_eq; lia | lia].
  - nest NV12. split; [apply triple_eq; lia | lia].
  - nest NV61. split; [apply triple_eq; lia | lia].
  - nest NV21. split; [apply triple_eq; lia | lia].
  - pairs YUYV.
  - pairs YVYU.
  - pairs UYVY.
  - pairs VYUY.
Qed.

(** [YV12ToRGB24] is not in the table: its format is that of [YVU420ToRGB24]. *)
Lemma yv12_reads : frame_size YVU420 (2 * a) (2 * b) <= Z.of_nat (length src) ->
  YV12ToRGB24 (Some dst) (Some src) (2 * a) (2 * b) =
  Some (0, Some (picture YVU420 src (2 * a) (2 * b) ++ drop (Z.to_nat (3 * (2 * a * (2 * b)))) dst)).
Proof. intros Hsrc. nest YVU420. split; [apply triple_eq; lia | lia]. Qed.
End Conversions.

(** ** The conversions between the YUV formats *)

Lemma wr_spec b i v : 0 <= i < Z.of_nat (length b) ->
  exists b', wr b i v = Some b' /\ length b' = length b /\ forall j, byte_at b' j = if j =? i then v else byte_at b j.
Proof.
  intros Hi. exists (<[Z.to_nat i := v]> b). split; [| split].
  - unfold wr. now rewrite (proj2 (andb_true_iff _ _)) by lia.
  - apply length_insert.
  - intros j. unfold byte_at, rd. destruct (Z.eqb_spec j i) as [-> | Hne].
    + rewrite (proj2 (Z.ltb_ge i 0)) by lia. rewrite list_lookup_insert_eq by lia. reflexivity.
    + destruct (Z.ltb_spec j 0); [reflexivity |]. rewrite list_lookup_insert_ne by lia. reflexivity.
Qed.

Lemma memcpy_spec dst src n : 0 <= n <= Z.of_nat (length dst) -> n <= Z.of_nat (length src) ->
  exists d, memcpy dst src n = Some d /\ length d = length dst /\
    forall j, byte_at d j = if (0 <=? j) && (j <? n) then byte_at src j else byte_at dst j.
Proof.
  intros Hd Hs. assert (length (take (Z.to_nat n) src) = Z.to_nat n) as Hl by (rewrite length_take; lia).
  exists (blit dst 0 (take (Z.to_nat n) src)). split; [| split].
  - unfold memcpy. destruct (_ && _) eqn:E; [reflexivity |]. lia.
  - apply length_blit. lia.
  - intros j. unfold byte_at, rd, blit. rewrite Hl. cbn [take]. rewrite Nat.add_0_l, app_nil_l.
    destruct (Z.ltb_spec j 0); [now rewrite (proj2 (Z.leb_gt 0 j)) by lia |]. rewrite (proj2 (Z.leb_le 0 j)) by lia. cbn [andb].
    destruct (Z.ltb_spec j n).
    + rewrite lookup_app_l, lookup_take_lt by lia. reflexivity.
    + rewrite lookup_app_r, lookup_drop, Hl by lia. do 2 f_equal. lia.
Qed.

(** The state of the copying loop before its turn [k]. *)
Definition copied (src : buf) (src_uv i p : Z) (dst : buf) (k : Z) (r : Z * buf) : Prop :=
  exists t, k = i + 2 * t /\ fst r = p + t /\ length (snd r) = length dst /\
    forall j, byte_at (snd r) j = if (p <=? j) && (j <? p + t) then byte_at src (src_uv + i + 2 * (j - p)) else byte_at dst j.

(** Every second byte of [2 * m], from the first or the second one on. *)
Lemma copy_spec src src_uv i m p dst : 0 <= i <= 1 -> 0 <= m -> 0 <= src_uv -> src_uv + 2 * m <= Z.of_nat (length src) ->
  0 <= p -> p + m <= Z.of_nat (length dst) ->
  exists d, copy_every_second src src_uv i (2 * m) p dst = Some d /\ length d = length dst /\
    forall j, byte_at d j = if (p <=? j) && (j <? p + m) then byte_at src (src_uv + i + 2 * (j - p)) else byte_at dst j.
Proof.
  intros Hi Hm Hs0 Hs Hp0 Hp. assert (copied src src_uv i p dst i (p, dst)) as F0.
  { exists 0. repeat split; cbn [fst snd]; try lia. intros j. destruct (_ && _) eqn:E; [lia | reflexivity]. }
  unfold copy_every_second, for_lt. edestruct (for_loop_inv (copied src src_uv i p dst) (Z.to_nat (2 * m - i)) i (2 * m) 2) as (r & -> & e & He & _ & Hmod & t & -> & Er & El & Eb);
    [lia | lia | exact F0 | |].
  - intros k [q d] Hk Hmod (t & -> & Eq & El & Eb). cbn [fst snd] in *. subst q. rewrite rd_ok by lia. cbn [mbind option_bind].
    destruct (wr_spec d (p + t) (byte_at src (src_uv + (i + 2 * t)))) as (d' & -> & El' & Eb'); [lia |]. cbn [mbind option_bind].
    eexists. split; [reflexivity |]. exists (t + 1). cbn [fst snd]. repeat split; try lia. intros j. rewrite Eb', Eb.
    bool_cases; cbn [andb]; try lia; try reflexivity. f_equal. lia.
  - cbn. exists (snd r). split; [reflexivity |]. split; [exact El |]. replace m with t by lia. exact Eb.
Qed.

Lemma bind_ext_in (F G : Z -> list Z) l : (forall i, i ∈ l -> F i = G i) -> l ≫= F = l ≫= G.
Proof.
  induction l as [| i l IH]; intros H; [reflexivity |]. rewrite !bind_cons. f_equal; [| apply IH; intros]; apply H; set_solver.
Qed.

Lemma picture_ext f g src d w h : 0 < w -> (forall x y, 0 <= x < w -> 0 <= y < h -> colour f d w h x y = colour g src w h x y) ->
  picture f d w h = picture g src w h.
Proof.
  intros Hw He. unfold picture. apply bind_ext_in. intros i Hi. apply elem_of_seqZ in Hi. f_equal. apply He.
  - apply Z.mod_pos_bound. lia.
  - split; [apply Z.div_pos | apply Z.div_lt_upper_bound]; lia.
Qed.

(** The planar copies of an NV21 frame of [2 * a] times [2 * b] pixels: the bytes of the result. *)
Lemma nv21_planes src dst a b (pv pu : Z) : 0 < a -> 0 < b -> 2 * a * (2 * b) < 2 ^ 31 ->
  frame_size NV21 (2 * a) (2 * b) <= Z.of_nat (length src) -> frame_size NV21 (2 * a) (2 * b) <= Z.of_nat (length dst) ->
  (pv = 4 * (a * b) /\ pu = 5 * (a * b) \/ pu = 4 * (a * b) /\ pv = 5 * (a * b)) ->
  exists d, (n ← imul (2 * a) (2 * b); d ← memcpy dst src n; d ← copy_every_second src n 1 (n / 2) pu d; copy_every_second src n 0 (n / 2) pv d) = Some d /\
    length d = length dst /\
    (forall j, 0 <= j < 4 * (a * b) -> byte_at d j = byte_at src j) /\
    (forall j, 0 <= j < a * b -> byte_at d (pu + j) = byte_at src (4 * (a * b) + 2 * j + 1)) /\
    (forall j, 0 <= j < a * b -> byte_at d (pv + j) = byte_at src (4 * (a * b) + 2 * j)).
Proof.
  intros Ha Hb H31 Hs Hd Hp. unfold frame_size in *. destruct (frame_divs a b) as (D1 & _).
  rewrite imul_ok by lia. cbn [mbind option_bind]. rewrite D1 in *.
  destruct (memcpy_spec dst src (2 * a * (2 * b))) as (d1 & E1 & L1 & B1); [lia | lia |]. rewrite E1. cbn [mbind option_bind].
  destruct (copy_spec src (2 * a * (2 * b)) 1 (a * b) pu d1) as (d2 & E2 & L2 & B2); try lia. rewrite E2. cbn [mbind option_bind].
  destruct (copy_spec src (2 * a * (2 * b)) 0 (a * b) pv d2) as (d3 & E3 & L3 & B3); try lia. exists d3. rewrite E3.
  split; [reflexivity |]. split; [lia |]. repeat split; intros j Hj; rewrite B3, B2, B1; bool_cases; cbn [andb]; try lia; f_equal; lia.
Qed.

(** The rows of a YUYV frame of which one chroma sample is taken: the state after [c] samples; [pos] is the place of each. *)
Definition taken (src : buf) (pos : Z -> Z) (plane : Z) (dst : buf) (c : Z) (d : buf) : Prop :=
  length d = length dst /\
  forall j, byte_at d j = if (plane <=? j) && (j <? plane + 2 * c) && ((j - plane) mod 2 =? 0) then byte_at src (pos ((j - plane) / 2)) else byte_at dst j.

Lemma taken_step src pos plane dst c d : 0 <= c < 2 ^ 31 -> 0 <= plane -> plane + 2 * c < Z.of_nat (length dst) -> taken src pos plane dst c d ->
  exists d', wr d (plane + u32 (c * 2)) (byte_at src (pos c)) = Some d' /\ taken src pos plane dst (c + 1) d'.
Proof.
  intros Hc Hp Hd [HL HB]. rewrite u32_id by lia. destruct (wr_spec d (plane + c * 2) (byte_at src (pos c))) as (d' & E & L & B); [lia |].
  exists d'. split; [exact E |]. split; [lia |]. intros j. rewrite B, HB. destruct (Z.eqb_spec j (plane + c * 2)) as [-> | Hne].
  - replace (plane + c * 2 - plane) with (c * 2) by lia. rewrite Z.div_mul, Z.mod_mul by lia. bool_cases; cbn [andb]; reflexivity || lia.
  - pose proof (Z.div_mod (j - plane) 2). bool_cases; cbn [andb]; try reflexivity; lia.
Qed.

Section Rows.
Context (src dst : buf) (a b s k plane : Z) (pos : Z -> Z).
Context (Ha : 0 < a) (Hb : 0 < b) (Hs : 0 <= s <= 1) (Hk : 0 <= k <= 3) (H31 : 2 * (2 * a * (2 * b)) < 2 ^ 31).
Context (Hsrc : 2 * (2 * a * (2 * b)) <= Z.of_nat (length src)).
Context (Hp0 : 0 <= plane) (Hdst : plane + 2 * (a * b) - 1 <= Z.of_nat (length dst)).
Context (Hpos : forall r t, 0 <= r -> 0 <= t < a -> pos (r * a + t) = (2 * r + s) * 2 * (2 * a) + 4 * t + k).

Lemma yuyv_row_ok r : 0 <= r < b -> forall fuel t d, 0 <= t -> t + Z.of_nat fuel = a -> taken src pos plane dst (r * a + t) d ->
  exists d', yuyv_row fuel src (2 * a) ((2 * r + s) * 2 * (2 * a)) k plane t (r * a + t) d = Some ((r + 1) * a, d') /\
    taken src pos plane dst ((r + 1) * a) d'.
Proof using All.
  intros Hr fuel. assert (0 <= r * a <= (b - 1) * a) as Hra by nia.
  assert (0 <= (2 * r + s) * a <= (2 * b - 1) * a) as Hrs by nia.
  induction fuel as [| fuel IH]; intros t d Ht Hf Hd; cbn [yuyv_row]; replace (2 * a / 2) with a by (rewrite Z.mul_comm, Z.div_mul; lia).
  - rewrite (proj2 (Z.ltb_ge t a)) by lia. exists d. replace (r * a + t) with ((r + 1) * a) in * by lia. auto.
  - rewrite (proj2 (Z.ltb_lt t a)), (proj2 (Z.ltb_ge (2 * (2 * a)) (4 * t + k))) by lia.
    rewrite rd_ok by lia. cbn [mbind option_bind]. rewrite <- Hpos by lia.
    destruct (taken_step src pos plane dst (r * a + t) d) as (d1 & -> & H1); [lia | lia | lia | exact Hd |]. cbn [mbind option_bind].
    rewrite (u32_id (r * a + t + 1)), <- Z.add_assoc by lia. apply IH; [lia | lia |]. now rewrite Z.add_assoc.
Qed.

Lemma yuyv_plane_ok : exists d, yuyv_plane src (2 * a) (2 * b) k plane (1 - s) dst = Some d /\ taken src pos plane dst (a * b) d.
Proof using All.
  unfold yuyv_plane.
  destruct (for_lt_inv (fun y r => fst r = (y + 1 - s) / 2 * a /\ taken src pos plane dst (fst r) (snd r)) 0 (2 * b)
    (fun i '(index, dst) => if i mod 2 =? 1 - s then Some (index, dst)
        else row ← imul (i * 2) (2 * a); yuyv_row (Z.to_nat (2 * a / 2)) src (2 * a) row k plane 0 index dst) (0, dst)) as (r & -> & Er & Ht).
  - lia.
  - cbn. split; [destruct (Z.eq_dec s 0) as [-> | ?]; [reflexivity | now replace s with 1 by lia] |]. split; [reflexivity |].
    intros j. bool_cases; cbn [andb]; reflexivity || lia.
  - intros y [c d] Hy [Ec Hd]. cbn [fst snd] in *. pose proof (Z.div_mod y 2) as Dy. pose proof (Z.mod_pos_bound y 2) as My.
    destruct (Z.eqb_spec (y mod 2) (1 - s)) as [E | E].
    + exists (c, d). split; [reflexivity |]. cbn. split; [| exact Hd]. rewrite Ec. f_equal.
      transitivity (y / 2 + (1 - s)); [symmetry; apply (Z.div_unique _ _ _ 0); lia | apply (Z.div_unique _ _ _ 1); lia].
    + assert (y = 2 * (y / 2) + s) as Ey by lia. set (r := y / 2) in *. assert (0 <= r < b) as Hr by lia.
      assert ((y + 1 - s) / 2 = r) as Er by (symmetry; apply (Z.div_unique _ _ _ 1); lia).
      assert (c = r * a + 0) as Ec' by (rewrite Ec, Er; lia). clear Ec. subst c.
      rewrite imul_ok by nia. cbn [mbind option_bind].
      replace (y * 2 * (2 * a)) with ((2 * r + s) * 2 * (2 * a)) by (rewrite Ey; lia).
      destruct (yuyv_row_ok r Hr (Z.to_nat (2 * a / 2)) 0 d) as (d' & E' & H'); [lia | rewrite (Z.mul_comm 2 a), Z.div_mul by lia; lia | exact Hd |].
      rewrite E'. eexists. split; [reflexivity |]. cbn. split; [| exact H']. f_equal.
      apply (Z.div_unique _ _ _ 0); lia.
  - cbn [mbind option_bind]. exists (snd r). split; [reflexivity |]. rewrite Er in Ht. replace (a * b) with ((2 * b + 1 - s) / 2 * a); [exact Ht |].
    rewrite (Z.mul_comm a b). f_equal. symmetry. apply (Z.div_unique _ _ _ (1 - s)); lia.
Qed.
End Rows.

Lemma luma_loop src dst n : 0 <= n -> 2 * n < 2 ^ 31 -> 2 * n <= Z.of_nat (length src) -> n <= Z.of_nat (length dst) ->
  exists d, for_lt 0 n 1 (fun i dst => k ← imul 2 i; v ← rd src k; wr dst i v) dst = Some d /\ length d = length dst /\
    forall j, byte_at d j = if (0 <=? j) && (j <? n) then byte_at src (2 * j) else byte_at dst j.
Proof.
  intros Hn H31 Hs Hd.
  destruct (for_lt_inv (fun i d => length d = length dst /\
      forall j, byte_at d j = if (0 <=? j) && (j <? i) then byte_at src (2 * j) else byte_at dst j) 0 n
    (fun i dst => k ← imul 2 i; v ← rd src k; wr dst i v) dst) as (d & E & L & B).
  - lia.
  - split; [reflexivity |]. intros j. bool_cases; cbn [andb]; reflexivity || lia.
  - intros i d Hi [L B]. rewrite imul_ok by lia. cbn [mbind option_bind]. rewrite rd_ok by lia. cbn [mbind option_bind].
    destruct (wr_spec d i (byte_at src (2 * i))) as (d' & E & L' & B'); [lia |]. exists d'. split; [exact E |]. split; [lia |].
    intros j. rewrite B', B. destruct (Z.eqb_spec j i) as [-> | ?]; bool_cases; cbn [andb]; reflexivity || lia.
  - eauto.
Qed.

(** What [YUYVToNV21] takes from a frame of [2 * a] times [2 * b] pixels. *)
Lemma yuyv_to_nv21_samples src dst a b : 0 < a -> 0 < b -> 2 * (2 * a * (2 * b)) < 2 ^ 31 ->
  frame_size YUYV (2 * a) (2 * b) <= Z.of_nat (length src) -> frame_size NV21 (2 * a) (2 * b) <= Z.of_nat (length dst) ->
  exists d, YUYVToNV21 (Some dst) (Some src) (2 * a) (2 * b) = Some (0, Some d) /\ length d = length dst /\
    forall x y, 0 <= x < 2 * a -> 0 <= y < 2 * b ->
      samples NV21 d (2 * a) (2 * b) x y =
      (fst (fst (samples YUYV src (2 * a) (2 * b) x y)), snd (fst (samples YUYV src (2 * a) (2 * b) x (2 * (y / 2)))),
       snd (samples YUYV src (2 * a) (2 * b) x (2 * (y / 2) + 1))).
Proof.
  intros Ha Hb H31 Hs Hd. unfold frame_size in *. destruct (frame_divs a b) as (D1 & _). rewrite D1 in Hd. assert (0 < a * b) by nia.
  set (pos := fun s k m => (2 * (m / a) + s) * 2 * (2 * a) + 4 * (m mod a) + k).
  assert (forall s k r t, 0 <= r -> 0 <= t < a -> pos s k (r * a + t) = (2 * r + s) * 2 * (2 * a) + 4 * t + k) as Hpos.
  { intros s k r t Hr Ht. unfold pos. rewrite (Z.add_comm (r * a)), Z.div_add, Z.mod_add by lia. now rewrite Z.div_small, Z.mod_small by lia. }
  destruct (luma_loop src dst (2 * a * (2 * b))) as (d1 & E1 & L1 & B1); [lia | lia | lia | lia |].
  destruct (yuyv_plane_ok src d1 a b 0 1 (2 * a * (2 * b) + 1) (pos 0 1)) as (d2 & E2 & L2 & B2); try lia; [apply Hpos |].
  destruct (yuyv_plane_ok src d2 a b 1 3 (2 * a * (2 * b)) (pos 1 3)) as (d3 & E3 & L3 & B3); try lia; [apply Hpos |].
  exists d3. split.
  { apply checked_ok; [lia | lia |]. cbv beta zeta. rewrite imul_ok by lia. cbn [mbind option_bind]. rewrite E1. cbn [mbind option_bind].
    change (1 - 0) with 1 in E2. rewrite E2. cbn [mbind option_bind]. exact E3. }
  split; [lia |]. intros x y Hx Hy. destruct (place a b x y Hx Hy) as (_ & P2 & _ & P4).
  unfold samples, layout. cbn [fst snd]. rewrite (Z.mul_comm 2 a), Z.div_mul by lia.
  pose proof (Z.div_mod x 2). pose proof (Z.mod_pos_bound x 2). set (m := y / 2 * a + x / 2) in *.
  assert (0 <= x / 2 < a) as Hx2 by (split; [apply Z.div_pos | apply Z.div_lt_upper_bound]; lia).
  assert (0 <= y / 2) as Hy2 by (apply Z.div_pos; lia).
  assert ((2 * m + 1) mod 2 = 1 /\ 2 * m mod 2 = 0) as [M1 M0].
  { split; [rewrite Z.add_comm, Z.mul_comm; now rewrite Z.mod_add by lia | rewrite Z.mul_comm; now apply Z.mod_mul]. }
  apply triple_eq.
  - rewrite B3, B2, B1. bool_cases; cbn [andb]; try lia; f_equal; lia.
  - rewrite B3, B2. replace (a * 2 * (2 * b) + 2 * m + 1 - 2 * a * (2 * b)) with (2 * m + 1) by lia. rewrite M1.
    replace (a * 2 * (2 * b) + 2 * m + 1 - (2 * a * (2 * b) + 1)) with (2 * m) by lia. rewrite M0, (Z.mul_comm 2 m), Z.div_mul by lia.
    bool_cases; cbn [andb]; try lia; f_equal; unfold m; rewrite Hpos by lia; lia.
  - rewrite B3. replace (a * 2 * (2 * b) + 2 * m - 2 * a * (2 * b)) with (2 * m) by lia. rewrite M0, (Z.mul_comm 2 m), Z.div_mul by lia.
    bool_cases; cbn [andb]; try lia; f_equal; unfold m; rewrite Hpos by lia; lia.
Qed.

Lemma samples_colour f g d src w h x y x' y' x'' y'' :
  samples f d w h x y = (fst (fst (samples g src w h x y)), snd (fst (samples g src w h x' y')), snd (samples g src w h x'' y'')) ->
  colour f d w h x y = rgb (fst (fst (samples g src w h x y))) (snd (fst (samples g src w h x' y'))) (snd (samples g src w h x'' y'')).
Proof. unfold colour. now intros ->. Qed.

Lemma even_half w : 0 < w -> w mod 2 = 0 -> exists a, w = 2 * a /\ 0 < a.
Proof. intros Hw E. exists (w / 2). pose proof (Z.div_mod w 2). lia. Qed.

(** A frame with the planes of chroma at [pu] and [pv] shows the picture of an NV21 frame with the same samples. *)
Lemma planar_picture f src d a b pu pv : 0 < a -> 0 < b ->
  (forall x y, layout f (2 * a) (2 * b) x y = (y * (2 * a) + x, pu + (y / 2 * a + x / 2), pv + (y / 2 * a + x / 2))) ->
  (forall j, 0 <= j < 4 * (a * b) -> byte_at d j = byte_at src j) ->
  (forall j, 0 <= j < a * b -> byte_at d (pu + j) = byte_at src (4 * (a * b) + 2 * j + 1)) ->
  (forall j, 0 <= j < a * b -> byte_at d (pv + j) = byte_at src (4 * (a * b) + 2 * j)) ->
  picture f d (2 * a) (2 * b) = picture NV21 src (2 * a) (2 * b).
Proof.
  intros Ha Hb HL BY BU BV. apply picture_ext; [lia |]. intros x y Hx Hy. destruct (place a b x y Hx Hy) as (_ & P2 & _ & P4).
  unfold colour, samples. rewrite HL, BY, BU, BV by lia. unfold layout. rewrite (Z.mul_comm 2 a), Z.div_mul by lia.
  now replace (a * 2 * (2 * b)) with (4 * (a * b)) by lia.
Qed.

(** Both planar copies of an NV21 frame show the same picture. *)
Lemma planar_copies src dst a b : 0 < a -> 0 < b -> 2 * a * (2 * b) < 2 ^ 31 ->
  frame_size NV21 (2 * a) (2 * b) <= Z.of_nat (length src) -> frame_size NV21 (2 * a) (2 * b) <= Z.of_nat (length dst) ->
  (exists d, NV21ToYV12 (Some dst) (Some src) (2 * a) (2 * b) = Some (0, Some d) /\ length d = length dst /\
    picture YVU420 d (2 * a) (2 * b) = picture NV21 src (2 * a) (2 * b)) /\
  (exists d, NV21ToYU12 (Some dst) (Some src) (2 * a) (2 * b) = Some (0, Some d) /\ length d = length dst /\
    picture YUV420 d (2 * a) (2 * b) = picture NV21 src (2 * a) (2 * b)).
Proof.
  intros Ha Hb H31 Hs Hd. destruct (frame_divs a b) as (D1 & D2 & _). set (n := 2 * a * (2 * b)) in *.
  assert (n = 4 * (a * b) /\ n + n / 4 = 5 * (a * b)) as [N4 N5] by lia.
  assert (forall x y, y / 2 * (2 * a / 2) + x / 2 = y / 2 * a + x / 2) as Esub by (intros; now rewrite (Z.mul_comm 2 a), Z.div_mul by lia).
  split.
  - destruct (nv21_planes src dst a b n (n + n / 4)) as (d & E & L & BY & BU & BV); auto.
    rewrite imul_ok in E by lia. exists d. split; [apply checked_ok; [lia | lia |]; rewrite imul_ok by lia; exact E |]. split; [exact L |]. eapply planar_picture; eauto.
    intros x y. unfold layout. fold n. rewrite Esub. apply triple_eq; lia.
  - destruct (nv21_planes src dst a b (n + n / 4) n) as (d & E & L & BY & BU & BV); auto.
    rewrite imul_ok in E by lia. exists d. split; [apply checked_ok; [lia | lia |]; rewrite imul_ok by lia; exact E |]. split; [exact L |]. eapply planar_picture; eauto.
    intros x y. unfold layout. fold n. rewrite Esub. apply triple_eq; lia.
Qed.

(** The test of [RGB24ToRGB555] and [RGB24ToRGB565]. *)
Lemma rgb16_fails dst src w h : - 2 ^ 31 <= w * h < 2 ^ 31 ->
  RGB24ToRGB555 dst src w h = Some (-1, dst) /\ RGB24ToRGB565 dst src w h = Some (-1, dst).
Proof. intros. unfold RGB24ToRGB555, RGB24ToRGB565. now rewrite imul_ok by assumption. Qed.

(** ** Theorems *)

(** C13: Every conversion of the table [fmt_fourcc], called on a frame of its format with even sides and on large
    enough blocks, stays inside them, overflows no [int] and writes exactly the picture of
    the frame: for every pixel the colour of the three samples at the places the format gives them.  The
    rest of the destination is kept. *)
Theorem converters_read_layout f conv src dst w h :
  In (f, Some conv) fmt_fourcc -> 0 < w -> 0 < h -> w mod 2 = 0 -> h mod 2 = 0 -> 5 * (w * h) < 2 ^ 31 ->
  frame_size f w h <= Z.of_nat (length src) -> 3 * (w * h) <= Z.of_nat (length dst) ->
  conv (Some dst) (Some src) w h = Some (0, Some (picture f src w h ++ drop (Z.to_nat (3 * (w * h))) dst)).
Proof.
  intros Hin Hw Hh Ew Eh H31 Hs Hd. destruct (even_half w Hw Ew) as (a & -> & Ha). destruct (even_half h Hh Eh) as (b & -> & Hb).
  apply table_reads; auto.
Qed.

Lemma converters_read_layout_witness :
  NV21ToRGB24 (Some (repeat 7 13)) (Some [50; 100; 150; 200; 90; 240]) 2 2 =
  Some (0, Some (picture NV21 [50; 100; 150; 200; 90; 240] 2 2 ++ [7])).
Proof.
  apply (converters_read_layout NV21 NV21ToRGB24 [50; 100; 150; 200; 90; 240] (repeat 7 13) 2 2);
    [cbn; tauto | lia | lia | reflexivity | reflexivity | lia | apply Z.leb_le; reflexivity | apply Z.leb_le; reflexivity].
Defined.

(** C20: Copying an NV21 frame to a planar format does not change what is seen: both planar copies convert to the
    same pixels as the frame itself, by the conversions of their formats. *)
Theorem planar_copies_commute src dst out w h :
  0 < w -> 0 < h -> w mod 2 = 0 -> h mod 2 = 0 -> 5 * (w * h) < 2 ^ 31 ->
  frame_size NV21 w h <= Z.of_nat (length src) -> frame_size NV21 w h <= Z.of_nat (length dst) -> 3 * (w * h) <= Z.of_nat (length out) ->
  exists yv12 yu12 r,
    NV21ToYV12 (Some dst) (Some src) w h = Some (0, Some yv12) /\ NV21ToYU12 (Some dst) (Some src) w h = Some (0, Some yu12) /\
    NV21ToRGB24 (Some out) (Some src) w h = Some (0, Some r) /\
    YV12ToRGB24 (Some out) (Some yv12) w h = Some (0, Some r) /\ YVU420ToRGB24 (Some out) (Some yv12) w h = Some (0, Some r) /\
    YUV420ToRGB24 (Some out) (Some yu12) w h = Some (0, Some r).
Proof.
  intros Hw Hh Ew Eh H31 Hs Hd Ho. destruct (even_half w Hw Ew) as (a & -> & Ha). destruct (even_half h Hh Eh) as (b & -> & Hb).
  assert (0 < a * b) by nia. destruct (planar_copies src dst a b) as [(d & E & L & P) (d' & E' & L' & P')]; auto; [lia |].
  exists d, d', (picture NV21 src (2 * a) (2 * b) ++ drop (Z.to_nat (3 * (2 * a * (2 * b)))) out).
  do 2 (split; [assumption |]). split; [apply (table_reads src out a b Ha Hb H31 Ho NV21); [cbn; tauto | exact Hs] |].
  rewrite <- P at 1 2. rewrite <- P'. split; [apply (yv12_reads d out a b); auto; now rewrite L |].
  split; [apply (table_reads d out a b Ha Hb H31 Ho YVU420) | apply (table_reads d' out a b Ha Hb H31 Ho YUV420)];
    [cbn; tauto | now rewrite L | cbn; tauto | now rewrite L'].
Qed.

Lemma planar_copies_commute_witness :
  exists yv12 yu12 r,
    NV21ToYV12 (Some (repeat 0 6)) (Some [50; 100; 150; 200; 90; 240]) 2 2 = Some (0, Some yv12) /\
    NV21ToYU12 (Some (repeat 0 6)) (Some [50; 100; 150; 200; 90; 240]) 2 2 = Some (0, Some yu12) /\
    NV21ToRGB24 (Some (repeat 0 12)) (Some [50; 100; 150; 200; 90; 240]) 2 2 = Some (0, Some r) /\
    YV12ToRGB24 (Some (repeat 0 12)) (Some yv12) 2 2 = Some (0, Some r) /\
    YVU420ToRGB24 (Some (repeat 0 12)) (Some yv12) 2 2 = Some (0, Some r) /\
    YUV420ToRGB24 (Some (repeat 0 12)) (Some yu12) 2 2 = Some (0, Some r).
Proof.
  apply (planar_copies_commute [50; 100; 150; 200; 90; 240] (repeat 0 6) (repeat 0 12) 2 2);
    [lia | lia | reflexivity | reflexivity | lia | apply Z.leb_le; reflexivity | apply Z.leb_le; reflexivity | apply Z.leb_le; reflexivity].
Defined.

(** [YUYVToNV21] keeps the brightness of every pixel and takes the chroma of two rows from one each: U
    from the upper and V from the lower one.  Where both rows have the same chroma the frame converts to
    the same pixels as before. *)
Theorem yuyv_to_nv21 src dst w h :
  0 < w -> 0 < h -> w mod 2 = 0 -> h mod 2 = 0 -> 5 * (w * h) < 2 ^ 31 ->
  frame_size YUYV w h <= Z.of_nat (length src) -> frame_size NV21 w h <= Z.of_nat (length dst) ->
  exists d, YUYVToNV21 (Some dst) (Some src) w h = Some (0, Some d) /\ length d = length dst /\
    (forall x y, 0 <= x < w -> 0 <= y < h ->
      samples NV21 d w h x y = (fst (fst (samples YUYV src w h x y)), snd (fst (samples YUYV src w h x (2 * (y / 2)))),
        snd (samples YUYV src w h x (2 * (y / 2) + 1)))) /\
    ((forall x y, 0 <= x < w -> 0 <= y < h ->
       snd (fst (samples YUYV src w h x (2 * (y / 2)))) = snd (fst (samples YUYV src w h x y)) /\
       snd (samples YUYV src w h x (2 * (y / 2) + 1)) = snd (samples YUYV src w h x y)) ->
     forall out, 3 * (w * h) <= Z.of_nat (length out) ->
       exists r, NV21ToRGB24 (Some out) (Some d) w h = Some (0, Some r) /\ YUYVToRGB24 (Some out) (Some src) w h = Some (0, Some r)).
Proof.
  intros Hw Hh Ew Eh H31 Hs Hd. destruct (even_half w Hw Ew) as (a & -> & Ha). destruct (even_half h Hh Eh) as (b & -> & Hb).
  assert (0 < a * b) by nia. destruct (yuyv_to_nv21_samples src dst a b) as (d & E & L & HS); auto; [lia |].
  exists d. do 2 (split; [assumption |]). split; [exact HS |]. intros Hc out Ho.
  exists (picture YUYV src (2 * a) (2 * b) ++ drop (Z.to_nat (3 * (2 * a * (2 * b)))) out). split.
  - replace (picture YUYV src (2 * a) (2 * b)) with (picture NV21 d (2 * a) (2 * b)).
    { apply (table_reads d out a b Ha Hb H31 Ho NV21); [cbn; tauto | now rewrite L]. }
    apply picture_ext; [lia |]. intros x y Hx Hy. unfold colour. rewrite HS by assumption. destruct (Hc x y Hx Hy) as [-> ->].
    now destruct (samples YUYV src (2 * a) (2 * b) x y) as [[? ?] ?].
  - apply (table_reads src out a b Ha Hb H31 Ho YUYV); [cbn; tauto | exact Hs].
Qed.

Lemma yuyv_to_nv21_witness :
  exists d, YUYVToNV21 (Some (repeat 0 6)) (Some [10; 90; 20; 240; 30; 91; 40; 241]) 2 2 = Some (0, Some d) /\ d = [10; 20; 30; 40; 241; 90].
Proof.
  destruct (yuyv_to_nv21 [10; 90; 20; 240; 30; 91; 40; 241] (repeat 0 6) 2 2) as (d & E & _);
    [lia | lia | reflexivity | reflexivity | lia | apply Z.leb_le; reflexivity | apply Z.leb_le; reflexivity |].
  exists d. split; [exact E |]. vm_compute in E. congruence.
Defined.

Lemma clamp_near t e : Z.abs (4096 * t - e) <= 8318 -> Z.abs (4096 * clamp t - Z.max 0 (Z.min (255 * 4096) e)) <= 8318.
Proof. unfold clamp. intros. bool_cases; lia. Qed.

Lemma clamp_byte t : byte_ok (clamp t).
Proof. unfold clamp, byte_ok. bool_cases; lia. Qed.

(** The fixed-point arithmetic of the conversions differs by less than 2.04 (8318 over 4096) from the exact transformation (with
    the coefficients 7289, 1415, 2936 and 5765 over 4096) cut off at the range of a byte, and gives bytes. *)
Theorem colour_accuracy y u v b g r : byte_ok y -> byte_ok u -> byte_ok v -> rgb y u v = (b, g, r) ->
  let exact z := Z.max 0 (Z.min (255 * 4096) z) in
  Z.abs (4096 * b - exact (4096 * y + 7289 * (u - 128))) <= 8318 /\
  Z.abs (4096 * g - exact (4096 * y - 1415 * (u - 128) - 2936 * (v - 128))) <= 8318 /\
  Z.abs (4096 * r - exact (4096 * y + 5765 * (v - 128))) <= 8318 /\ byte_ok b /\ byte_ok g /\ byte_ok r.
Proof.
  intros Hy Hu Hv [= <- <- <-]. cbv zeta. rewrite !Z.shiftr_div_pow2 by lia. change (2 ^ 12) with 4096.
  pose proof (Z.div_mod (7289 * u) 4096). pose proof (Z.mod_pos_bound (7289 * u) 4096).
  pose proof (Z.div_mod (1415 * u) 4096). pose proof (Z.mod_pos_bound (1415 * u) 4096).
  pose proof (Z.div_mod (2936 * v) 4096). pose proof (Z.mod_pos_bound (2936 * v) 4096).
  pose proof (Z.div_mod (5765 * v) 4096). pose proof (Z.mod_pos_bound (5765 * v) 4096).
  repeat split; try apply clamp_near; try apply clamp_byte; lia.
Qed.

Lemma colour_accuracy_witness : let exact z := Z.max 0 (Z.min (255 * 4096) z) in
  Z.abs (4096 * 99 - exact (4096 * 100 + 7289 * (128 - 128))) <= 8318 /\
  Z.abs (4096 * 101 - exact (4096 * 100 - 1415 * (128 - 128) - 2936 * (128 - 128))) <= 8318 /\
  Z.abs (4096 * 100 - exact (4096 * 100 + 5765 * (128 - 128))) <= 8318 /\ byte_ok 99 /\ byte_ok 101 /\ byte_ok 100.
Proof. apply (colour_accuracy 100 128 128); [unfold byte_ok; lia | unfold byte_ok; lia | unfold byte_ok; lia | reflexivity]. Defined.

(** Neither conversion to 16 bits ever converts: whatever the arguments, the answer is -1 and the destination
    is as before, because the test reads the local pointers before the arguments are assigned to them. *)
Theorem rgb16_never_converts dst src w h : - 2 ^ 31 <= w * h < 2 ^ 31 ->
  RGB24ToRGB555 dst src w h = Some (-1, dst) /\ RGB24ToRGB565 dst src w h = Some (-1, dst).
Proof. apply rgb16_fails. Qed.

Lemma rgb16_never_converts_witness :
  RGB24ToRGB555 (Some [0; 0]) (Some [255; 255; 255]) 1 1 = Some (-1, Some [0; 0]) /\
  RGB24ToRGB565 (Some [0; 0]) (Some [255; 255; 255]) 1 1 = Some (-1, Some [0; 0]).
Proof. apply (rgb16_never_converts (Some [0; 0]) (Some [255; 255; 255]) 1 1). lia. Defined.

(** ** Odd sizes *)

(** An NV21 frame of 3 times 3 pixels has 9 + 4 bytes, but the bytes 13 and 14 are read. *)
Example odd_frame_read_past_end : NV21ToRGB24 (Some (repeat 0 27)) (Some (repeat 0 13)) 3 3 = None.
Proof. reflexivity. Qed.

(** With an odd height there is one row of U samples too many: 2 times 3 pixels have 6 + 3 bytes. *)
Example odd_height_written_past_end : YUYVToNV21 (Some (repeat 0 9)) (Some (repeat 0 12)) 2 3 = None.
Proof. reflexivity. Qed.

(** Where the number of chroma pairs is not even the second plane overwrites the end of the first one: 2 times 3 pixels. *)
Example odd_height_overwrites : NV21ToYV12 (Some (repeat 0 9)) (Some [1; 2; 3; 4; 5; 6; 10; 11; 12]) 2 3 =
  Some (0, Some [1; 2; 3; 4; 5; 6; 10; 12; 0]).
Proof. reflexivity. Qed.
