(* ===== verification/Bitmap.v ===== *)
(** * Bitmap: the files the camera program saves

    The functions of [src/allwinner/vision/camerademo/src/convert.c] that save a frame, its
    planes or its picture, and [save_frame_to_file] of [common.c].  The files are a map from paths to contents;
    [fopen] opens a file empty where [can_open] allows it and [fwrite] appends, never short (the code
    ignores its result); [malloc k n] is the [k]-th block a function asks for, with any
    contents, or [NULL].  Releasing a block and the messages are left out. *)
From S2P Require Import Prelude CString Convert ConvertRun.
From stdpp Require Import gmap.

#[local] Open Scope Z_scope.

(** ** Files *)

Abbreviation path := (list Z).
Abbreviation world := (gmap (list Z) (list Z)).

Section Saving.
Context (can_open : path -> bool) (malloc : nat -> Z -> option buf).

Definition fopen (p : path) (w : world) : option world := if can_open p then Some (<[p := []]> w) else None.

(** [n] bytes of a block from [off] on; reading outside the block is a fault. *)
Definition fwrite (b : buf) (off n : Z) (p : path) (w : world) : option world :=
  if (0 <=? off) && (0 <=? n) && (off + n <=? Z.of_nat (length b))
  then Some (<[p := default [] (w !! p) ++ bytes_at b (Z.to_nat off) (Z.to_nat n)]> w) else None.

(** [sprintf(buffer, "%s/%s", dir, name)] into [size] bytes. *)
Definition sprintf_path (size : Z) (dir name : path) : option path :=
  let s := dir ++ [47] ++ name in if Z.of_nat (length s) + 1 <=? size then Some s else None.

(** [save_frame_to_file]: an item of no bytes counts as not written. *)
Definition save_frame_to_file (str : path) (start : buf) (length : Z) (w : world) : option (Z * world) :=
  match fopen str w with
  | None => Some (-1, w)
  | Some w => w ← fwrite start 0 (if length <? 0 then u64 length else length) str w;
              Some (if length =? 0 then -1 else 0, w)
  end.

(** ** The planes of a frame *)

Definition source_y_yuv : path := [115; 111; 117; 114; 99; 101; 95; 121; 46; 121; 117; 118].
Definition source_u_yuv : path := [115; 111; 117; 114; 99; 101; 95; 117; 46; 121; 117; 118].
Definition source_v_yuv : path := [115; 111; 117; 114; 99; 101; 95; 118; 46; 121; 117; 118].
Definition source_y_bin : path := [115; 111; 117; 114; 99; 101; 95; 121; 46; 98; 105; 110].
Definition source_uv_bin : path := [115; 111; 117; 114; 99; 101; 95; 117; 118; 46; 98; 105; 110].

Definition saveYUV_NV21 (dir : option path) (NV21 : option buf) (width height : Z) (w : world) : option (Z * world) :=
  match dir, NV21 with
  | Some dir, Some src =>
      if (width <=? 0) || (height <=? 0) then Some (-1, w) else
      n ← imul width height;
      let src_uv := n in
      path_y ← sprintf_path 32 dir source_y_yuv;
      path_u ← sprintf_path 32 dir source_u_yuv;
      path_v ← sprintf_path 32 dir source_v_yuv;
      match fopen path_y w with
      | None => Some (-1, w)
      | Some w =>
          w ← fwrite src 0 n path_y w;
          let fp_u := fopen path_u w in let w := default w fp_u in
          let fp_v := fopen path_v w in let w := default w fp_v in
          if bool_decide (fp_u = None) || bool_decide (fp_v = None) then Some (-1, w) else
          w ← for_lt 1 (n / 2) 2 (fun i w => fwrite src (src_uv + i) 1 path_u w) w;
          w ← for_lt 0 (n / 2) 2 (fun j w => fwrite src (src_uv + j) 1 path_v w) w;
          Some (0, w)
      end
  | _, _ => Some (-1, w)
  end.

Definition saveY_UV_NV21 (dir : option path) (NV21 : option buf) (width height : Z) (w : world) : option (Z * world) :=
  match dir, NV21 with
  | Some dir, Some src =>
      if (width <=? 0) || (height <=? 0) then Some (-1, w) else
      n ← imul width height;
      let src_uv := n in
      path_y ← sprintf_path 32 dir source_y_bin;
      path_uv ← sprintf_path 32 dir source_uv_bin;
      match fopen path_y w with
      | None => Some (-1, w)
      | Some w =>
          w ← fwrite src 0 n path_y w;
          match fopen path_uv w with
          | None => Some (-1, w)
          | Some w => w ← fwrite src src_uv (n / 2) path_uv w; Some (0, w)
          end
      end
  | _, _ => Some (-1, w)
  end.

(** ** Pictures *)

Record BITMAPFILEHEADER := FileHeader { bfType : Z; bfSize : Z; bfReserved1 : Z; bfReserved2 : Z; bfOffBits : Z }.
Record BITMAPINFOHEADER := InfoHeader {
  biSize : Z; biWidth : Z; biHeight : Z; biPlanes : Z; biBitCount : Z; biCompression : Z; biSizeImage : Z;
  biXPelsPerMeter : Z; biYPelsPerMeter : Z; biClrUsed : Z; biClrImportant : Z }.

(** The packed structures in memory, and their sizes. *)
Definition file_header_bytes (h : BITMAPFILEHEADER) : buf :=
  le_split 2 (bfType h) ++ le_split 4 (bfSize h) ++ le_split 2 (bfReserved1 h) ++ le_split 2 (bfReserved2 h) ++ le_split 4 (bfOffBits h).
Definition info_header_bytes (h : BITMAPINFOHEADER) : buf :=
  le_split 4 (biSize h) ++ le_split 4 (biWidth h) ++ le_split 4 (biHeight h) ++ le_split 2 (biPlanes h) ++ le_split 2 (biBitCount h) ++
  le_split 4 (biCompression h) ++ le_split 4 (biSizeImage h) ++ le_split 4 (biXPelsPerMeter h) ++ le_split 4 (biYPelsPerMeter h) ++
  le_split 4 (biClrUsed h) ++ le_split 4 (biClrImportant h).
Definition sizeof_file_header : Z := 14.
Definition sizeof_info_header : Z := 40.

(** Writes the parts of a file one after the other. *)
Fixpoint fwrite_all (parts : list buf) (p : path) (w : world) : option world :=
  match parts with
  | [] => Some w
  | b :: parts => w ← fwrite b 0 (Z.of_nat (length b)) p w; fwrite_all parts p w
  end.

(** [func(rgb_24, yuv_data, width, height)], its result ignored. *)
Definition call (func : ConverFunc) (dst : buf) (src : buf) (width height : Z) : option buf :=
  r ← func (Some dst) (Some src) width height; snd r.

Definition YUVToBMP (bmp_path : option path) (yuv_data : option buf) (func : option ConverFunc) (width height : Z) (w : world) : option (Z * world) :=
  match bmp_path, yuv_data, func with
  | Some bmp_path, Some yuv_data, Some func =>
      if (width <=? 0) || (height <=? 0) then Some (-1, w) else
      n ← imul width height; size ← imul n 3;
      let BmpFileHeader := FileHeader 0x4d42 (u32 (size + sizeof_file_header + sizeof_info_header)) 0 0 (sizeof_file_header + sizeof_info_header) in
      let BmpInfoHeader := InfoHeader sizeof_info_header (u32 width) (u32 (- height)) 0x01 24 0 0 0 0 0 0 in
      match malloc 0 size with
      | None => Some (-1, w)
      | Some rgb_24 =>
          rgb_24 ← call func rgb_24 yuv_data width height;
          match fopen bmp_path w with
          | None => Some (-1, w)
          | Some w =>
              w ← fwrite_all [file_header_bytes BmpFileHeader; info_header_bytes BmpInfoHeader] bmp_path w;
              w ← fwrite rgb_24 0 size bmp_path w; Some (0, w)
          end
      end
  | _, _, _ => Some (-1, w)
  end.

(** The two members that [YUVToBMP555] and [YUVToBMP565] never set are arguments, [xpels] and [ypels]. *)
Definition YUVToBMP555 (xpels ypels : Z) (bmp_path : option path) (yuv_data : option buf) (func : option ConverFunc) (width height : Z) (w : world) : option (Z * world) :=
  match bmp_path, yuv_data, func with
  | Some bmp_path, Some yuv_data, Some func =>
      if (width <=? 0) || (height <=? 0) then Some (-1, w) else
      n ← imul width height; n2 ← imul n 2; n3 ← imul n 3;
      let BmpFileHeader := FileHeader 0x4d42 (u32 (n2 + sizeof_file_header + sizeof_info_header)) 0 0 (sizeof_file_header + sizeof_info_header) in
      let BmpInfoHeader := InfoHeader sizeof_info_header (u32 width) (u32 (- height)) 0x01 16 0 0 xpels ypels 0 0 in
      match malloc 0 n3, malloc 1 n2 with
      | Some rgb_24, Some rgb_555 =>
          rgb_24 ← call func rgb_24 yuv_data width height;
          rgb_555 ← call RGB24ToRGB555 rgb_555 rgb_24 width height;
          match fopen bmp_path w with
          | None => Some (-1, w)
          | Some w =>
              w ← fwrite_all [file_header_bytes BmpFileHeader; info_header_bytes BmpInfoHeader] bmp_path w;
              w ← fwrite rgb_555 0 n2 bmp_path w; Some (0, w)
          end
      | _, _ => Some (-1, w)
      end
  | _, _, _ => Some (-1, w)
  end.

(** The three masks of the colours. *)
Definition masks_565 : buf := le_split 4 0xf800 ++ le_split 4 0x07e0 ++ le_split 4 0x001f.

Definition YUVToBMP565 (xpels ypels : Z) (bmp_path : option path) (yuv_data : option buf) (func : option ConverFunc) (width height : Z) (w : world) : option (Z * world) :=
  match bmp_path, yuv_data, func with
  | Some bmp_path, Some yuv_data, Some func =>
      if (width <=? 0) || (height <=? 0) then Some (-1, w) else
      n ← imul width height; n2 ← imul n 2; n3 ← imul n 3;
      let BmpFileHeader := FileHeader 0x4d42 (u32 (n2 + sizeof_file_header + sizeof_info_header + 12)) 0 0 (sizeof_file_header + sizeof_info_header + 12) in
      let BmpInfoHeader := InfoHeader sizeof_info_header (u32 width) (u32 (- height)) 0x01 16 3
        (Z.land (u32 (bfSize BmpFileHeader + 3)) (u32 (Z.lnot 3))) xpels ypels 0 0 in
      match malloc 0 n3, malloc 1 n2 with
      | Some rgb_24, Some rgb_565 =>
          rgb_24 ← call func rgb_24 yuv_data width height;
          rgb_565 ← call RGB24ToRGB565 rgb_565 rgb_24 width height;
          match fopen bmp_path w with
          | None => Some (-1, w)
          | Some w =>
              w ← fwrite_all [file_header_bytes BmpFileHeader; info_header_bytes BmpInfoHeader; masks_565] bmp_path w;
              w ← fwrite rgb_565 0 n2 bmp_path w; Some (0, w)
          end
      | _, _ => Some (-1, w)
      end
  | _, _, _ => Some (-1, w)
  end.

Definition rgb888_rgb : path := [114; 103; 98; 56; 56; 56; 46; 114; 103; 98].
Definition rgb555_rgb : path := [114; 103; 98; 53; 53; 53; 46; 114; 103; 98].
Definition rgb565_rgb : path := [114; 103; 98; 53; 54; 53; 46; 114; 103; 98].

Definition YUVToRGBfile (rgb_path : option path) (yuv_data : option buf) (func : option ConverFunc) (width height : Z) (w : world) : option (Z * world) :=
  match rgb_path, yuv_data, func with
  | Some rgb_path, Some yuv_data, Some func =>
      if (width <=? 0) || (height <=? 0) then Some (-1, w) else
      n ← imul width height; n3 ← imul n 3; n2 ← imul n 2;
      match malloc 0 n3, malloc 1 n2 with
      | Some rgb_24, Some rgb_555 =>
          path ← sprintf_path 128 rgb_path rgb888_rgb;
          rgb_24 ← call func rgb_24 yuv_data width height;
          match fopen path w with
          | None => Some (-1, w)
          | Some w =>
              w ← fwrite rgb_24 0 n3 path w;
              path ← sprintf_path 128 rgb_path rgb555_rgb;
              rgb_555 ← call RGB24ToRGB555 rgb_555 rgb_24 width height;
              match fopen path w with
              | None => Some (-1, w)
              | Some w =>
                  w ← fwrite rgb_555 0 n2 path w;
                  path ← sprintf_path 128 rgb_path rgb565_rgb;
                  let rgb_555 := repeat 0 (Z.to_nat n2) ++ drop (Z.to_nat n2) rgb_555 in
                  rgb_555 ← call RGB24ToRGB565 rgb_555 rgb_24 width height;
                  match fopen path w with
                  | None => Some (-1, w)
                  | Some w => w ← fwrite rgb_555 0 n2 path w; Some (0, w)
                  end
              end
          end
      | _, _ => Some (-1, w)
      end
  | _, _, _ => Some (-1, w)
  end.
End Saving.

(** ** Reading a bitmap

    The format as documented: 24 bits per pixel, rows padded to a multiple of four bytes, from the top
    when the height is negative and else from the bottom. *)
Definition field (file : buf) (off n : nat) : Z := le_combine (bytes_at file off n).
Definition bmp_width (file : buf) : Z := s32 (field file 18 4).
Definition bmp_height (file : buf) : Z := s32 (field file 22 4).
Definition bmp_stride (file : buf) : Z := (24 * bmp_width file + 31) / 32 * 4.
Definition bmp_valid (file : buf) : Prop :=
  field file 0 2 = 0x4d42 /\ field file 2 4 = Z.of_nat (length file) /\ field file 14 4 = 40 /\ field file 28 2 = 24 /\ field file 30 4 = 0.
Definition bmp_pixel (file : buf) (x y : Z) : list Z :=
  let row := if bmp_height file <? 0 then y else bmp_height file - 1 - y in
  bytes_at file (Z.to_nat (field file 10 4 + row * bmp_stride file + 3 * x)) 3.

(** ** The contents of the files *)

Lemma bytes_at_app_r (l k : buf) off n : (length l <= off)%nat -> bytes_at (l ++ k) off n = bytes_at k (off - length l) n.
Proof. intros H. unfold bytes_at. now rewrite drop_app_ge by exact H. Qed.

(** The three bytes of a pixel among those of all pixels. *)
Lemma bytes_at_pixels (px : Z -> Z * Z * Z) l i z : l !! i = Some z -> bytes_at (l ≫= fun k => bytes3 (px k)) (3 * i) 3 = bytes3 (px z).
Proof.
  revert i. induction l as [| z' l IH]; intros [| i] E; try discriminate.
  - injection E as ->. cbn. destruct (px z) as [[b g] r]. reflexivity.
  - rewrite bind_cons. unfold bytes_at. replace (3 * S i)%nat with (length (bytes3 (px z')) + 3 * i)%nat by (destruct (px z') as [[? ?] ?]; cbn [bytes3 length]; lia).
    rewrite drop_app_add. now apply IH.
Qed.

Lemma picture_pixel f src w h x y : 0 <= x < w -> 0 <= y < h ->
  bytes_at (picture f src w h) (Z.to_nat (3 * (y * w + x))) 3 = bytes3 (colour f src w h x y).
Proof.
  intros Hx Hy. unfold picture. rewrite <- (colour_at f src w h x y) by exact Hx.
  replace (Z.to_nat (3 * (y * w + x))) with (3 * Z.to_nat (y * w + x))%nat by nia.
  apply (bytes_at_pixels (fun i => colour f src w h (i mod w) (i / w))). rewrite lookup_seqZ. nia.
Qed.

Lemma length_picture f src w h : 0 <= w * h -> Z.of_nat (length (picture f src w h)) = 3 * (w * h).
Proof. intros H. unfold picture. rewrite length_bind3, length_seqZ. lia. Qed.

Lemma fwrite_ok b off n p w : 0 <= off -> 0 <= n -> off + n <= Z.of_nat (length b) ->
  fwrite b off n p w = Some (<[p := default [] (w !! p) ++ bytes_at b (Z.to_nat off) (Z.to_nat n)]> w).
Proof. intros. unfold fwrite. destruct (_ && _) eqn:E; [reflexivity | lia]. Qed.

Lemma fwrite_all_ok parts p w c : w !! p = Some c -> fwrite_all parts p w = Some (<[p := c ++ mjoin parts]> w).
Proof.
  revert w c. induction parts as [| b parts IH]; intros w c Ew; cbn [fwrite_all mjoin list_join].
  - rewrite app_nil_r. now rewrite insert_id.
  - rewrite fwrite_ok by lia. cbn [mbind option_bind]. rewrite Ew. cbn [default].
    unfold bytes_at. rewrite drop_0, take_ge by lia.
    rewrite (IH _ (c ++ b)) by apply lookup_insert_eq. now rewrite insert_insert_eq, <- app_assoc.
Qed.

(** The header of [YUVToBMP] for a picture of [w] times [h] pixels. *)
Definition bmp_header (w h : Z) : buf :=
  file_header_bytes (FileHeader 0x4d42 (u32 (w * h * 3 + 54)) 0 0 54) ++
  info_header_bytes (InfoHeader 40 (u32 w) (u32 (- h)) 0x01 24 0 0 0 0 0 0).

Lemma length_bmp_header w h : length (bmp_header w h) = 54%nat.
Proof. reflexivity. Qed.

(** A field of four bytes of a file. *)
Lemma field_split pre post x n : field (pre ++ le_split n x ++ post) (length pre) n = x mod 256 ^ Z.of_nat n.
Proof.
  unfold field, bytes_at. rewrite drop_app_length, take_app_length', le_combine_split; [reflexivity |]. symmetry. apply length_le_split.
Qed.

Lemma u32_mod x : u32 x mod 256 ^ Z.of_nat 4 = u32 x.
Proof. apply Z.mod_small. apply u32_range. Qed.

Lemma s32_u32 x : - 2 ^ 31 <= x < 2 ^ 31 -> s32 (u32 x) = x.
Proof.
  intros H. unfold s32, swrap, u32. change (32 - 1) with 31. rewrite Z.add_mod_idemp_l by lia. rewrite Z.mod_small by lia. lia.
Qed.

Lemma bmp_header_fields w h body : 
  field (bmp_header w h ++ body) 0 2 = 0x4d42 /\ field (bmp_header w h ++ body) 2 4 = u32 (w * h * 3 + 54) /\
  field (bmp_header w h ++ body) 10 4 = 54 /\ field (bmp_header w h ++ body) 14 4 = 40 /\
  field (bmp_header w h ++ body) 18 4 = u32 w /\ field (bmp_header w h ++ body) 22 4 = u32 (- h) /\
  field (bmp_header w h ++ body) 28 2 = 24 /\ field (bmp_header w h ++ body) 30 4 = 0.
Proof.
  repeat split; try (unfold field; reflexivity);
    cbv [bmp_header file_header_bytes info_header_bytes bfType bfSize bfReserved1 bfReserved2 bfOffBits biSize biWidth biHeight
      biPlanes biBitCount biCompression biSizeImage biXPelsPerMeter biYPelsPerMeter biClrUsed biClrImportant];
    rewrite <- !app_assoc.
  - exact (eq_trans (field_split (le_split 2 0x4d42) _ _ 4) (u32_mod _)).
  - exact (eq_trans (field_split (le_split 2 0x4d42 ++ le_split 4 (u32 (w * h * 3 + 54)) ++ le_split 2 0 ++ le_split 2 0 ++ le_split 4 54 ++ le_split 4 40) _ _ 4) (u32_mod _)).
  - exact (eq_trans (field_split (le_split 2 0x4d42 ++ le_split 4 (u32 (w * h * 3 + 54)) ++ le_split 2 0 ++ le_split 2 0 ++ le_split 4 54 ++ le_split 4 40 ++ le_split 4 (u32 w)) _ _ 4) (u32_mod _)).
Qed.

(** What [YUVToBMP] leaves in the file. *)
Lemma yuv_to_bmp_file can_open malloc p src conv a b rgb_24 w0 f :
  In (f, Some conv) fmt_fourcc -> 0 < a -> 0 < b -> 5 * (2 * a * (2 * b)) < 2 ^ 31 -> frame_size f (2 * a) (2 * b) <= Z.of_nat (length src) ->
  malloc 0%nat (2 * a * (2 * b) * 3) = Some rgb_24 -> Z.of_nat (length rgb_24) = 2 * a * (2 * b) * 3 -> can_open p = true ->
  YUVToBMP can_open malloc (Some p) (Some src) (Some conv) (2 * a) (2 * b) w0 =
  Some (0, <[p := bmp_header (2 * a) (2 * b) ++ picture f src (2 * a) (2 * b)]> w0).
Proof.
  intros Hin Ha Hb H31 Hs Hm Hl Ho. assert (0 < a * b) by nia. unfold YUVToBMP.
  rewrite (proj2 (Z.leb_gt (2 * a) 0)), (proj2 (Z.leb_gt (2 * b) 0)) by lia. cbn [orb].
  rewrite imul_ok by lia. cbn [mbind option_bind]. rewrite imul_ok by lia. cbn [mbind option_bind]. rewrite Hm. unfold call.
  rewrite (table_reads src rgb_24 a b Ha Hb H31 ltac:(lia) f conv Hin Hs). cbn [mbind option_bind snd].
  rewrite drop_ge, app_nil_r by lia. unfold fopen. rewrite Ho.
  rewrite (fwrite_all_ok _ p _ []) by apply lookup_insert_eq. cbn [mbind option_bind].
  pose proof (length_picture f src (2 * a) (2 * b) ltac:(lia)) as Lp. rewrite fwrite_ok by lia. cbn [mbind option_bind].
  rewrite lookup_insert_eq, !insert_insert_eq. unfold bytes_at. change (Z.to_nat 0) with 0%nat. rewrite drop_0, take_ge by lia.
  do 3 f_equal. unfold bmp_header, sizeof_file_header, sizeof_info_header. cbn [mjoin list_join]. rewrite app_nil_l, app_nil_r.
  now replace (2 * a * (2 * b) * 3 + 14 + 40) with (2 * a * (2 * b) * 3 + 54) by lia.
Qed.

(** C14: A photo saved as a bitmap, for every format of the table, a width that is a multiple of four
    (the rows are written without padding: [unpadded_rows]) and an even height, with [5 w h] below 2^31, a source that
    holds the frame, a block of [3 w h] bytes obtained and a file that opens: the file written is a valid bitmap
    of the size of the frame, whose pixels, read as the format says, are the colours of the frame's pixels; the
    other files are as before. *)
Theorem photo_decodes can_open malloc p src f conv w h rgb_24 w0 :
  In (f, Some conv) fmt_fourcc -> 0 < w -> 0 < h -> w mod 4 = 0 -> h mod 2 = 0 -> 5 * (w * h) < 2 ^ 31 ->
  frame_size f w h <= Z.of_nat (length src) -> malloc 0%nat (w * h * 3) = Some rgb_24 -> Z.of_nat (length rgb_24) = w * h * 3 ->
  can_open p = true ->
  exists w1 file, YUVToBMP can_open malloc (Some p) (Some src) (Some conv) w h w0 = Some (0, w1) /\
    w1 !! p = Some file /\ (forall q, q <> p -> w1 !! q = w0 !! q) /\
    bmp_valid file /\ bmp_width file = w /\ bmp_height file = - h /\
    forall x y, 0 <= x < w -> 0 <= y < h -> bmp_pixel file x y = bytes3 (colour f src w h x y).
Proof.
  intros Hin Hw Hh Ew Eh H31 Hs Hm Hl Ho. destruct (even_half h Hh Eh) as (b & -> & Hb).
  assert (exists k, w = 2 * (2 * k) /\ 0 < k) as (k & -> & Hk) by (exists (w / 4); pose proof (Z.div_mod w 4); lia).
  assert (0 < k * b) by nia. set (w := 2 * (2 * k)) in *. set (h := 2 * b) in *.
  exists (<[p := bmp_header w h ++ picture f src w h]> w0), (bmp_header w h ++ picture f src w h).
  split; [apply (yuv_to_bmp_file can_open malloc p src conv (2 * k) b rgb_24 w0 f); auto; lia |].
  split; [apply lookup_insert_eq |]. split; [intros q Hq; now apply lookup_insert_ne |].
  destruct (bmp_header_fields w h (picture f src w h)) as (F0 & F2 & F10 & F14 & F18 & F22 & F28 & F30).
  pose proof (length_picture f src w h ltac:(unfold w, h; lia)) as Lp.
  assert (bmp_width (bmp_header w h ++ picture f src w h) = w) as Ew'.
  { unfold bmp_width. rewrite F18. apply s32_u32. unfold w, h in *. nia. }
  assert (bmp_height (bmp_header w h ++ picture f src w h) = - h) as Eh'.
  { unfold bmp_height. rewrite F22. apply s32_u32. unfold w, h in *. nia. }
  split; [| split; [exact Ew' | split; [exact Eh' |]]].
  - repeat split; auto. rewrite F2, length_app, length_bmp_header, u32_id; lia.
  - intros x y Hx Hy. unfold bmp_pixel, bmp_stride. rewrite Eh', Ew', F10, (proj2 (Z.ltb_lt (- h) 0)) by lia.
    replace ((24 * w + 31) / 32 * 4) with (3 * w) by (unfold w; replace (24 * (2 * (2 * k)) + 31) with (31 + 3 * k * 32) by lia; rewrite Z.div_add by lia; change (31 / 32) with 0; lia).
    rewrite <- (picture_pixel f src w h x y) by assumption. rewrite bytes_at_app_r by (rewrite length_bmp_header; nia).
    f_equal. rewrite length_bmp_header. nia.
Qed.

Lemma photo_decodes_witness : exists w1 file,
  YUVToBMP (fun _ => true) (fun _ n => Some (repeat 170 (Z.to_nat n))) (Some [112]) (Some (seqZ 60 16)) (Some YUYVToRGB24) 4 2 ∅ = Some (0, w1) /\
  w1 !! [112] = Some file /\ (forall q, q <> [112] -> w1 !! q = (∅ : world) !! q) /\ bmp_valid file /\ bmp_width file = 4 /\ bmp_height file = - 2 /\
  forall x y, 0 <= x < 4 -> 0 <= y < 2 -> bmp_pixel file x y = bytes3 (colour YUYV (seqZ 60 16) 4 2 x y).
Proof.
  apply (photo_decodes (fun _ => true) (fun _ n => Some (repeat 170 (Z.to_nat n))) [112] (seqZ 60 16) YUYV YUYVToRGB24 4 2 (repeat 170 24));
    [cbn; tauto | lia | lia | reflexivity | reflexivity | lia | apply Z.leb_le; reflexivity | reflexivity | reflexivity | reflexivity].
Defined.

(** Where it cannot save, [YUVToBMP] answers -1 and leaves the files alone: no path, frame or conversion,
    an empty size, no block, a file that does not open.  Only the last case runs the
    conversion first. *)
Theorem photo_fails_cleanly can_open malloc bmp_path yuv func w h w0 :
  bmp_path = None \/ yuv = None \/ func = None \/ w <= 0 \/ h <= 0 \/ (Z.abs (w * h * 3) < 2 ^ 31 /\ malloc 0%nat (w * h * 3) = None) \/
  (exists p src conv rgb rgb', bmp_path = Some p /\ yuv = Some src /\ func = Some conv /\ Z.abs (w * h * 3) < 2 ^ 31 /\
     malloc 0%nat (w * h * 3) = Some rgb /\ conv (Some rgb) (Some src) w h = Some (0, Some rgb') /\ can_open p = false) ->
  YUVToBMP can_open malloc bmp_path yuv func w h w0 = Some (-1, w0).
Proof.
  intros Hcases. unfold YUVToBMP. destruct bmp_path as [p |], yuv as [src |], func as [conv |]; try reflexivity.
  destruct (Z.leb_spec w 0); [reflexivity |]. destruct (Z.leb_spec h 0); [reflexivity |]. cbn [orb].
  destruct Hcases as [E | [E | [E | [E | [E | [[H31 Hm] | (p' & src' & conv' & rgb & rgb' & [= <-] & [= <-] & [= <-] & H31 & Hm & Ec & Ho)]]]]]]; try discriminate; try lia.
  - rewrite imul_ok by lia. cbn [mbind option_bind]. rewrite imul_ok by lia. cbn [mbind option_bind]. now rewrite Hm.
  - rewrite imul_ok by lia. cbn [mbind option_bind]. rewrite imul_ok by lia. cbn [mbind option_bind]. rewrite Hm. unfold call.
    rewrite Ec. cbn [mbind option_bind snd]. unfold fopen. now rewrite Ho.
Qed.

Lemma photo_fails_cleanly_witness : YUVToBMP (fun _ => true) (fun _ _ => None) (Some [112]) (Some []) (Some YUYVToRGB24) 2 2 ∅ = Some (-1, ∅).
Proof. apply photo_fails_cleanly. do 5 right. left. split; [lia | reflexivity]. Defined.

(** A 16-bit bitmap never holds the picture: its pixels are the bytes the block had when it was obtained. *)
Theorem bmp16_holds_stale_bytes can_open malloc xpels ypels p src f conv w h rgb_24 rgb_16 w0 :
  In (f, Some conv) fmt_fourcc -> 0 < w -> 0 < h -> w mod 2 = 0 -> h mod 2 = 0 -> 5 * (w * h) < 2 ^ 31 ->
  frame_size f w h <= Z.of_nat (length src) -> malloc 0%nat (w * h * 3) = Some rgb_24 -> Z.of_nat (length rgb_24) = w * h * 3 ->
  malloc 1%nat (w * h * 2) = Some rgb_16 -> Z.of_nat (length rgb_16) = w * h * 2 -> can_open p = true ->
  exists w1 w2 hdr1 hdr2,
    YUVToBMP555 can_open malloc xpels ypels (Some p) (Some src) (Some conv) w h w0 = Some (0, w1) /\ w1 !! p = Some (hdr1 ++ rgb_16) /\
    YUVToBMP565 can_open malloc xpels ypels (Some p) (Some src) (Some conv) w h w0 = Some (0, w2) /\ w2 !! p = Some (hdr2 ++ rgb_16) /\
    length hdr1 = 54%nat /\ length hdr2 = 66%nat.
Proof.
  intros Hin Hw Hh Ew Eh H31 Hs Hm Hl Hm2 Hl2 Ho. destruct (even_half w Hw Ew) as (a & -> & Ha). destruct (even_half h Hh Eh) as (b & -> & Hb).
  assert (0 < a * b) by nia. unfold YUVToBMP555, YUVToBMP565.
  rewrite (proj2 (Z.leb_gt (2 * a) 0)), (proj2 (Z.leb_gt (2 * b) 0)) by lia. cbn [orb].
  rewrite (imul_ok (2 * a)) by lia. cbn [mbind option_bind]. rewrite !imul_ok by lia. cbn [mbind option_bind]. rewrite Hm, Hm2. unfold call.
  rewrite (table_reads src rgb_24 a b Ha Hb H31 ltac:(lia) f conv Hin Hs). cbn [mbind option_bind snd].
  destruct (rgb16_fails (Some rgb_16) (Some (picture f src (2 * a) (2 * b) ++ drop (Z.to_nat (3 * (2 * a * (2 * b)))) rgb_24)) (2 * a) (2 * b)) as [-> ->]; [lia |].
  cbn [mbind option_bind snd]. unfold fopen. rewrite Ho. rewrite !(fwrite_all_ok _ p _ []) by apply lookup_insert_eq. cbn [mbind option_bind].
  rewrite !fwrite_ok by lia. cbn [mbind option_bind]. rewrite !lookup_insert_eq. unfold bytes_at. change (Z.to_nat 0) with 0%nat. rewrite drop_0, take_ge by lia.
  do 4 eexists. split; [reflexivity |]. rewrite lookup_insert_eq. split; [reflexivity |]. split; [reflexivity |]. rewrite lookup_insert_eq. split; [reflexivity |].
  split; reflexivity.
Qed.

(** ** The planes of a frame in files of their own *)

(** The chroma plane of an NV21 frame put together from its two halves. *)
Fixpoint interleave (v u : list Z) : list Z :=
  match v, u with
  | x :: v, y :: u => x :: y :: interleave v u
  | _, _ => []
  end.

Lemma bytes_at_cons b off n : (off < length b)%nat -> bytes_at b off (S n) = byte_at b (Z.of_nat off) :: bytes_at b (S off) n.
Proof.
  intros H. pose proof (rd_ok b (Z.of_nat off) ltac:(lia)) as E. unfold rd in E.
  rewrite (proj2 (Z.ltb_ge _ 0)), Nat2Z.id in E by lia. unfold bytes_at. now rewrite (drop_S b _ _ E).
Qed.

Lemma bytes_at_one b i : 0 <= i < Z.of_nat (length b) -> bytes_at b (Z.to_nat i) 1 = [byte_at b i].
Proof. intros H. rewrite bytes_at_cons by lia. now rewrite Z2Nat.id by lia. Qed.

(** The loop that writes every second byte of [2 * m]. *)
Lemma fwrite_every_second src uv i m p w c : 0 <= i <= 1 -> 0 <= m -> 0 <= uv -> uv + 2 * m <= Z.of_nat (length src) -> w !! p = Some c ->
  for_lt i (2 * m) 2 (fun i w => fwrite src (uv + i) 1 p w) w =
  Some (<[p := c ++ map (fun t => byte_at src (uv + i + 2 * t)) (seqZ 0 m)]> w).
Proof.
  intros Hi Hm Huv Hs Hc. unfold for_lt.
  destruct (for_loop_inv (fun k w' => exists t, k = i + 2 * t /\ 0 <= t /\ w' = <[p := c ++ map (fun t => byte_at src (uv + i + 2 * t)) (seqZ 0 t)]> w)
    (Z.to_nat (2 * m - i)) i (2 * m) 2 (fun i w => fwrite src (uv + i) 1 p w) w) as (w' & -> & e & He & _ & Hmod & t & -> & Ht & ->).
  - lia.
  - lia.
  - exists 0. repeat split; [lia | lia |]. cbn. rewrite app_nil_r. now rewrite insert_id.
  - intros k w' Hk _ (t & -> & Ht & ->). rewrite fwrite_ok by lia. eexists. split; [reflexivity |]. exists (t + 1).
    split; [lia |]. split; [lia |]. rewrite lookup_insert_eq, insert_insert_eq. cbn [default from_option]. unfold id. rewrite bytes_at_one by lia.
    rewrite seqZ_snoc, map_app by lia. cbn [map]. rewrite app_assoc. do 4 f_equal. lia.
  - now replace m with t by lia.
Qed.

Lemma interleave_halves b off k m : (off + 2 * (k + m) <= length b)%nat ->
  interleave (map (fun t => byte_at b (Z.of_nat off + 0 + 2 * t)) (seqZ (Z.of_nat k) (Z.of_nat m)))
    (map (fun t => byte_at b (Z.of_nat off + 1 + 2 * t)) (seqZ (Z.of_nat k) (Z.of_nat m))) = bytes_at b (off + 2 * k) (2 * m).
Proof.
  revert k. induction m as [| m IH]; intros k H; [reflexivity |].
  rewrite !(seqZ_cons (Z.of_nat k)) by lia. replace (Z.pred (Z.of_nat (S m))) with (Z.of_nat m) by lia.
  replace (Z.succ (Z.of_nat k)) with (Z.of_nat (S k)) by lia. cbn [map interleave]. rewrite IH by lia.
  replace (2 * S m)%nat with (S (S (2 * m))) by lia. rewrite !bytes_at_cons by lia.
  f_equal; [f_equal; lia | f_equal; [f_equal; lia | f_equal; lia]].
Qed.

(** ** The saved planes *)

(** [saveYUV_NV21] with a directory of at most 18 bytes (the paths are printed into 32), where the three files open:
    each plane is in its file, and the brightness followed by the two halves of the chroma, put
    together again, is the frame.  The other files are as before. *)
Theorem planes_round_trip can_open dir src w h w0 :
  0 < w -> 0 < h -> w mod 2 = 0 -> h mod 2 = 0 -> w * h < 2 ^ 31 -> frame_size NV21 w h <= Z.of_nat (length src) -> (length dir <= 18)%nat ->
  can_open (dir ++ 47 :: source_y_yuv) = true -> can_open (dir ++ 47 :: source_u_yuv) = true -> can_open (dir ++ 47 :: source_v_yuv) = true ->
  exists w1 Y U V, saveYUV_NV21 can_open (Some dir) (Some src) w h w0 = Some (0, w1) /\
    w1 !! (dir ++ 47 :: source_y_yuv) = Some Y /\ w1 !! (dir ++ 47 :: source_u_yuv) = Some U /\ w1 !! (dir ++ 47 :: source_v_yuv) = Some V /\
    Y ++ interleave V U = take (Z.to_nat (frame_size NV21 w h)) src /\
    forall q, q <> dir ++ 47 :: source_y_yuv -> q <> dir ++ 47 :: source_u_yuv -> q <> dir ++ 47 :: source_v_yuv -> w1 !! q = w0 !! q.
Proof.
  intros Hw Hh Ew Eh H31 Hs Hdir Oy Ou Ov. destruct (even_half w Hw Ew) as (a & -> & Ha). destruct (even_half h Hh Eh) as (b & -> & Hb).
  assert (0 < a * b) by nia. destruct (frame_divs a b) as (D1 & _). unfold frame_size in *. rewrite D1 in *.
  set (py := dir ++ 47 :: source_y_yuv) in *. set (pu := dir ++ 47 :: source_u_yuv) in *. set (pv := dir ++ 47 :: source_v_yuv) in *.
  assert (py <> pu /\ py <> pv /\ pu <> pv) as (Nyu & Nyv & Nuv) by (repeat split; intros E; apply app_inv_head in E; discriminate).
  assert (forall name, length name = 12%nat -> sprintf_path 32 dir name = Some (dir ++ 47 :: name)) as Hp.
  { intros name Hn. unfold sprintf_path. rewrite (proj2 (Z.leb_le _ _)); [reflexivity |]. rewrite !length_app. cbn [length]. lia. }
  assert (saveYUV_NV21 can_open (Some dir) (Some src) (2 * a) (2 * b) w0 =
    Some (0, <[pu := map (fun t => byte_at src (2 * a * (2 * b) + 1 + 2 * t)) (seqZ 0 (a * b))]>
      (<[pv := map (fun t => byte_at src (2 * a * (2 * b) + 0 + 2 * t)) (seqZ 0 (a * b))]>
        (<[pu := []]> (<[py := bytes_at src (Z.to_nat 0) (Z.to_nat (2 * a * (2 * b)))]> w0))))) as E.
  { unfold saveYUV_NV21. rewrite (proj2 (Z.leb_gt (2 * a) 0)), (proj2 (Z.leb_gt (2 * b) 0)) by lia. cbn [orb].
    rewrite imul_ok by lia. cbn [mbind option_bind]. rewrite !Hp by reflexivity. cbn [mbind option_bind]. fold py pu pv.
    unfold fopen. rewrite Oy. rewrite fwrite_ok by lia. cbn [mbind option_bind]. rewrite lookup_insert_eq, insert_insert_eq. cbn [default from_option]. unfold id.
    rewrite Ou, Ov. cbn [default from_option]. unfold id. rewrite !bool_decide_eq_false_2 by discriminate. cbn [orb].
    rewrite D1. rewrite (fwrite_every_second src _ 1 (a * b) pu _ []); try lia; [| now rewrite lookup_insert_ne, lookup_insert_eq by congruence].
    cbn [mbind option_bind]. rewrite (fwrite_every_second src _ 0 (a * b) pv _ []); try lia;
      [| now rewrite lookup_insert_ne, lookup_insert_eq by congruence].
    cbn [mbind option_bind app]. rewrite (insert_insert_ne _ pv pu) by congruence. now rewrite insert_insert_eq. }
  rewrite E. do 4 eexists. split; [reflexivity |]. rewrite lookup_insert_ne, lookup_insert_ne, lookup_insert_ne, lookup_insert_eq by congruence.
  split; [reflexivity |]. rewrite lookup_insert_eq. split; [reflexivity |]. rewrite lookup_insert_ne, lookup_insert_eq by congruence. split; [reflexivity |].
  split; [| intros q Q1 Q2 Q3; now rewrite !lookup_insert_ne by congruence].
  pose proof (interleave_halves src (Z.to_nat (2 * a * (2 * b))) 0 (Z.to_nat (a * b)) ltac:(lia)) as I.
  rewrite !Z2Nat.id in I by lia. change (Z.of_nat 0) with 0 in I. rewrite I. unfold bytes_at. rewrite drop_0, Nat.add_0_r.
  rewrite take_take_drop. f_equal. lia.
Qed.

Lemma planes_round_trip_witness : exists w1 Y U V,
  saveYUV_NV21 (fun _ => true) (Some [47; 116]) (Some (seqZ 10 12)) 4 2 ∅ = Some (0, w1) /\
  w1 !! ([47; 116] ++ 47 :: source_y_yuv) = Some Y /\ w1 !! ([47; 116] ++ 47 :: source_u_yuv) = Some U /\ w1 !! ([47; 116] ++ 47 :: source_v_yuv) = Some V /\
  Y ++ interleave V U = take (Z.to_nat (frame_size NV21 4 2)) (seqZ 10 12) /\
  forall q, q <> [47; 116] ++ 47 :: source_y_yuv -> q <> [47; 116] ++ 47 :: source_u_yuv -> q <> [47; 116] ++ 47 :: source_v_yuv -> w1 !! q = (∅ : world) !! q.
Proof.
  apply (planes_round_trip (fun _ => true) [47; 116] (seqZ 10 12) 4 2);
    [lia | lia | reflexivity | reflexivity | lia | apply Z.leb_le; reflexivity | cbn; lia | reflexivity | reflexivity | reflexivity].
Defined.

(** A directory of 19 bytes, printed with a file name into 32 bytes, overflows them. *)
Example long_directory_overflows : saveYUV_NV21 (fun _ => true) (Some (repeat 97 19)) (Some (repeat 0 6)) 2 2 ∅ = None.
Proof. reflexivity. Qed.

(** The rows of a bitmap of two columns are written without the two bytes of padding the format asks for, so the file
    reads wrongly from the second row on: the first byte of that row is taken from its third pixel byte. *)
Example unpadded_rows :
  match YUVToBMP (fun _ => true) (fun _ n => Some (repeat 0 (Z.to_nat n))) (Some [112]) (Some [10; 128; 20; 128; 30; 128; 40; 128]) (Some YUYVToRGB24) 2 2 ∅ with
  | Some (_, w) => option_map (fun file => (bmp_pixel file 0 1, bytes3 (colour YUYV [10; 128; 20; 128; 30; 128; 40; 128] 2 2 0 1))) (w !! [112])
  | None => None
  end = Some ([30; 39; 41], [29; 31; 30]).
Proof. vm_compute. reflexivity. Qed.
