(* ===== verification/Thermal.v ===== *)
(** * Thermal: the fan controller

    [src/allwinner/common/thermal_pwm/src]: the temperature files ([utils.c], [platform.c]), the
    controller ([pid.c]) and the loop that sets the duty of a PWM channel ([main.c]).
    What the kernel answers is an argument: the contents read from the thermal file each second
    ([None] where it cannot be opened) and a list of the outcomes of the next [access] and
    [open] calls; the numbers written to files are recorded in order.  [None] is undefined
    behaviour: an [int] that overflows, or a [float] converted to an integer type that does not
    hold it.  [getopt] and the messages are left out. *)
From Stdlib Require Import String.
From S2P Require Import Prelude CString.

#[local] Open Scope string_scope.
#[local] Open Scope list_scope.
#[local] Open Scope Z_scope.

(** ** Single precision

    A [float] is a mantissa of at most 24 bits times a power of two; results are rounded to the nearest,
    ties to even.  The exponents here stay far from the limits of the format (-149 to 104). *)
Record float := F { man : Z; expo : Z }.

(** [m * 2 ^ e], rounded. *)
Definition rnd (m e : Z) : float :=
  let a := Z.abs m in
  let k := Z.log2 a - 23 in
  if k <=? 0 then F m e
  else
    let q := a / 2 ^ k in
    let r := a mod 2 ^ k in
    let half := 2 ^ (k - 1) in
    F (Z.sgn m * (if (half <? r) || ((r =? half) && Z.odd q) then q + 1 else q)) (e + k).

Definition of_int (z : Z) : float := rnd z 0.
Definition fmul (x y : float) : float := rnd (man x * man y) (expo x + expo y).

(** [x / d] for an [x] from an integer and an integer [d] above zero: the quotient to 64 binary places,
    with one more bit set when something is left. *)
Definition fdiv_int (x : float) (d : Z) : float :=
  let a := Z.abs (man x) * 2 ^ expo x * 2 ^ 64 in
  rnd (Z.sgn (man x) * (2 * (a / d) + (if a mod d =? 0 then 0 else 1))) (- 65).

(** Conversion to an integer, and [floor]. *)
Definition ftrunc (x : float) : Z := if 0 <=? expo x then man x * 2 ^ expo x else Z.quot (man x) (2 ^ (- expo x)).
Definition ffloor (x : float) : Z := if 0 <=? expo x then man x * 2 ^ expo x else man x / 2 ^ (- expo x).

(** The values of [int] and of [uint32_t]. *)
Definition to_int (z : Z) : option Z := if (- 2 ^ 31 <=? z) && (z <? 2 ^ 31) then Some z else None.
Definition to_uint32 (z : Z) : option Z := if (0 <=? z) && (z <? 2 ^ 32) then Some z else None.

(** ** pid.c *)

Record PID := Pid {
  SetTemperature : Z; ActualTemperature : Z; SumError : Z; Kp : float; Ki : float; Kd : float;
  NowError : Z; LastError : Z; Out0 : Z; Out : Z }.

(** The constants [700], [0.600] and [0.00] as [float]s; the temperature that was measured last is kept. *)
Definition InitPID (pid : PID) : PID :=
  Pid 125 (ActualTemperature pid) 0 (F 700 0) (F 10066330 (-24)) (F 0 0) 0 0 0 0.

(** [pid] before [InitPID]: static storage. *)
Definition pid_zero : PID := Pid 0 0 0 (F 0 0) (F 0 0) (F 0 0) 0 0 0 0.

Definition LocPIDCalc (pid : PID) : option (Z * PID) :=
  now ← to_int (ActualTemperature pid - SetTemperature pid);
  sum ← to_int (SumError pid + now);
  out1 ← to_int (ftrunc (fmul (Kp pid) (of_int now)));
  out2 ← to_int (ftrunc (fmul (fmul (Kp pid) (Ki pid)) (of_int sum)));
  delta ← to_int (now - LastError pid);
  out3 ← to_int (ftrunc (fmul (fmul (Kp pid) (Kd pid)) (of_int delta)));
  out ← to_int (out1 + out2);
  out ← to_int (out + out3);
  out ← to_int (out + Out pid);
  Some (out, Pid (SetTemperature pid) (ActualTemperature pid) sum (Kp pid) (Ki pid) (Kd pid) now now (Out0 pid) (Out pid)).

Definition SetPID_Kp (value : Z) (pid : PID) : PID :=
  Pid (SetTemperature pid) (ActualTemperature pid) (SumError pid) (fdiv_int (of_int value) 1000) (Ki pid) (Kd pid) (NowError pid) (LastError pid) (Out0 pid) (Out pid).
Definition SetPID_Ki (value : Z) (pid : PID) : PID :=
  Pid (SetTemperature pid) (ActualTemperature pid) (SumError pid) (Kp pid) (fdiv_int (of_int value) 1000) (Kd pid) (NowError pid) (LastError pid) (Out0 pid) (Out pid).
Definition SetPID_Kd (value : Z) (pid : PID) : PID :=
  Pid (SetTemperature pid) (ActualTemperature pid) (SumError pid) (Kp pid) (Ki pid) (fdiv_int (of_int value) 1000) (NowError pid) (LastError pid) (Out0 pid) (Out pid).
Definition SetPID_Temperature (value : Z) (pid : PID) : PID :=
  Pid value (ActualTemperature pid) (SumError pid) (Kp pid) (Ki pid) (Kd pid) (NowError pid) (LastError pid) (Out0 pid) (Out pid).

(** The members set before a calculation. *)
Definition set_temperatures (target temperature : Z) (pid : PID) : PID :=
  Pid target temperature (SumError pid) (Kp pid) (Ki pid) (Kd pid) (NowError pid) (LastError pid) (Out0 pid) (Out pid).

(** [pid_test]: the temperatures are [uint32_t]; the value given to [pwm_r2p0]. *)
Definition pid_test (T Temperature : Z) (pid : PID) : option (Z * PID) :=
  let pid := InitPID pid in
  if T <? Temperature then
    '(temp, pid) ← LocPIDCalc (set_temperatures (s32 T) (s32 Temperature) pid);
    Some (if 3072 <? temp then 3072 else if temp <? 0 then 0 else temp, pid)
  else Some (0, pid).

(** ** utils.c *)

(** [strtoul(buf, 0, 0)] with 32 bits: blanks, a sign, the prefix of a base, digits; too large a number
    gives the largest one. *)
Definition digit (c : Z) : Z :=
  if (48 <=? c) && (c <=? 57) then c - 48
  else if (97 <=? c) && (c <=? 122) then c - 87
  else if (65 <=? c) && (c <=? 90) then c - 55 else 99.

Fixpoint read_base (base acc : Z) (l : list Z) : Z :=
  match l with
  | c :: l => if digit c <? base then read_base base (base * acc + digit c) l else acc
  | [] => acc
  end.

Definition read_prefixed (l : list Z) : Z :=
  match l with
  | 48 :: x :: l' =>
      if ((x =? 120) || (x =? 88)) && (digit (default 0 (head l')) <? 16) && bool_decide (l' <> []) then read_base 16 0 l'
      else read_base 8 0 (x :: l')
  | _ => read_base 10 0 l
  end.

Definition strtoul (s : list Z) : Z :=
  let l := skip_space s in
  let '(neg, l) := match l with 45 :: l => (true, l) | 43 :: l => (false, l) | _ => (false, l) end in
  let v := read_prefixed l in
  if 2 ^ 32 - 1 <? v then 2 ^ 32 - 1 else if neg then u32 (- v) else v.

(** The bytes read, at most 31 of them: up to the first NUL they are the string. *)
Definition readIntFromFile (contents : option (list Z)) : Z :=
  match contents with
  | None => -1
  | Some b =>
      let b := take 31 b in
      match b with
      | [] => -1
      | _ => s32 (strtoul (default b (cstring b)))
      end
  end.

(** ** platform.c *)

Definition DEFAULT_TEMPERATURE : Z := 100.

Definition thermal_init (contents : option (list Z)) : Z := if readIntFromFile contents =? -1 then -1 else 0.

Definition thermal_temperature_get (contents : option (list Z)) : option Z :=
  let temp := readIntFromFile contents in
  if temp =? -1 then Some DEFAULT_TEMPERATURE else to_uint32 (ffloor (fdiv_int (of_int temp) 1000)).

(** The outcomes of the next calls, and what was written so far. *)
Record io := Io { outcomes : list bool; written : list (list Z * Z) }.

Definition next (s : io) : bool * io :=
  match outcomes s with b :: l => (b, Io l (written s)) | [] => (false, s) end.

Definition path_accessable (path : list Z) (s : io) : bool * io := next s.

Definition writeIntToFile (path : list Z) (t : Z) (s : io) : Z * io :=
  let '(ok, s) := next s in
  if ok then (0, Io (outcomes s) (written s ++ [(path, t)])) else (-1, s).

Definition DEFAULT_DUTY_CYCLE : Z := 1000.
Definition PWM_CHIP : list Z := lit "/sys/class/pwm/pwmchip0".
Definition PWM_CHIP_EXPORT : list Z := lit "/sys/class/pwm/pwmchip0/export".

(** [sprintf(pwm_path_, "%s/pwm%d", PWM_CHIP, id)] and the files in it. *)
Definition pwm_path (id : Z) : list Z := PWM_CHIP ++ lit "/pwm" ++ print_d id.
Definition enable_file (id : Z) : list Z := pwm_path id ++ lit "/enable".
Definition period_file (id : Z) : list Z := pwm_path id ++ lit "/period".
Definition duty_file (id : Z) : list Z := pwm_path id ++ lit "/duty_cycle".

(** Writes in order; the first failure ends them. *)
Fixpoint write_all (l : list (list Z * Z)) (s : io) : Z * io :=
  match l with
  | [] => (0, s)
  | (path, t) :: l => let '(r, s) := writeIntToFile path t s in if negb (r =? 0) then (-1, s) else write_all l s
  end.

Definition pwm_init (id period : Z) (s : io) : Z * io :=
  let '(ok, s) := path_accessable PWM_CHIP_EXPORT s in
  if negb ok then (-1, s) else
  let '(ok, s) := path_accessable (pwm_path id) s in
  let '(r, s) := if negb ok then writeIntToFile PWM_CHIP_EXPORT id s else (0, s) in
  if negb (r =? 0) then (-1, s) else
  write_all [(enable_file id, 0); (period_file id, period); (duty_file id, DEFAULT_DUTY_CYCLE); (enable_file id, 1)] s.

Definition pwm_config_duty (id duty : Z) (s : io) : Z * io := write_all [(duty_file id, duty)] s.

(** ** main.c *)

Definition PWM_PERIOD_NS : Z := 128 * 1000.
Definition PWM_SAFETY_GAP : Z := 500.

(** The constant [41.67f]. *)
Definition plus : float := F 10923540 (-18).

Definition cycle_to_duty (cycle : Z) : Z :=
  let cycle := if 3072 <? cycle then 3072 else if cycle <? 0 then 0 else cycle in
  let active_ns := fmul (of_int cycle) plus in
  let duty := ffloor active_ns in
  if PWM_PERIOD_NS - PWM_SAFETY_GAP <? duty then PWM_PERIOD_NS - PWM_SAFETY_GAP else duty.

(** One turn of the loop: the temperature that is read, the new state and the duty. *)
Definition control (target : Z) (contents : option (list Z)) (pid : PID) : option (Z * PID) :=
  temperature ← thermal_temperature_get contents;
  let temperature := s32 temperature in
  if target <? temperature then
    '(cycle, pid) ← LocPIDCalc (set_temperatures target temperature pid); Some (cycle_to_duty cycle, pid)
  else Some (0, pid).

(** The loop over the seconds; the result of setting the duty is not looked at. *)
Fixpoint loop (id target : Z) (readings : list (option (list Z))) (pid : PID) (s : io) : option (PID * io) :=
  match readings with
  | [] => Some (pid, s)
  | r :: readings =>
      '(duty, pid) ← control target r pid;
      loop id target readings pid (snd (pwm_config_duty id duty s))
  end.

(** [main] with its options; the file is read once by [thermal_init] and then every second.  [inl] is the result of a
    failed start. *)
Definition main (id target : Z) (first : option (list Z)) (readings : list (option (list Z))) (s : io) : option (Z + (PID * io)) :=
  if negb (thermal_init first =? 0) then Some (inl (-1))
  else
    let '(r, s) := pwm_init id PWM_PERIOD_NS s in
    if negb (r =? 0) then Some (inl (-1)) else inr <$> loop id target readings (InitPID pid_zero) s.
