(* ===== verification/ThermalRun.v ===== *)
(** * ThermalRun: what the fan controller does

    The rounding of the [float]s, the temperature read from the kernel's text, and the
    controller as a sum of errors over the integers, with exact duties that the
    program meets within a nanosecond. *)
From Stdlib Require Import String.
From S2P Require Import Prelude CString Thermal.

#[local] Open Scope string_scope.
#[local] Open Scope list_scope.
#[local] Open Scope Z_scope.

(** ** Rounding *)

(** Rounding changes a number by at most one part in [2 ^ 24]: the mantissa, brought back to the exponent [e], is [w]. *)
Lemma rnd_near m e : 0 <= m -> exists w k, 0 <= k /\ 0 <= w /\ rnd m e = F (w / 2 ^ k) (e + k) /\ w mod 2 ^ k = 0 /\ Z.abs (w - m) * 2 ^ 24 <= m.
Proof.
  intros Hm. unfold rnd. rewrite Z.abs_eq by lia. set (k := Z.log2 m - 23). destruct (Z.leb_spec k 0) as [Hk | Hk].
  - exists m, 0. cbn. rewrite Z.div_1_r, Z.add_0_r, Z.mod_1_r, Z.sub_diag. repeat split; lia.
  - assert (0 < m) as Hpos by (destruct (Z.eq_dec m 0) as [E | ?]; [unfold k in Hk; rewrite E in Hk; cbn in Hk; lia | lia]).
    pose proof (Z.log2_spec m Hpos) as [Hlog _]. replace (Z.log2 m) with (k + 23) in Hlog by (unfold k; lia).
    assert (2 ^ (k + 23) = 2 ^ (k - 1) * 2 ^ 24) as E23 by (rewrite <- Z.pow_add_r by lia; f_equal; lia).
    assert (2 ^ k = 2 * 2 ^ (k - 1)) as E1 by (rewrite <- Z.pow_succ_r by lia; f_equal; lia).
    assert (0 < 2 ^ (k - 1)) as Hp by (apply Z.pow_pos_nonneg; lia).
    pose proof (Z.div_mod m (2 ^ k) ltac:(lia)) as Hdm. pose proof (Z.mod_pos_bound m (2 ^ k) ltac:(lia)) as Hr.
    pose proof (Z.div_pos m (2 ^ k) ltac:(lia) ltac:(lia)) as Hq. rewrite Z.sgn_pos, Z.mul_1_l by lia.
    set (q := m / 2 ^ k) in *. set (r := m mod 2 ^ k) in *.
    set (q' := if (2 ^ (k - 1) <? r) || ((r =? 2 ^ (k - 1)) && Z.odd q) then q + 1 else q).
    assert (Z.abs (q' * 2 ^ k - m) <= 2 ^ (k - 1)) as Hnear.
    { unfold q'. destruct (Z.ltb_spec (2 ^ (k - 1)) r); cbn [orb]; [lia |]. destruct (Z.eqb_spec r (2 ^ (k - 1))); cbn [andb]; [destruct (Z.odd q); lia | lia]. }
    assert (0 <= q') as Hq' by (unfold q'; destruct (_ || _); lia).
    exists (q' * 2 ^ k), k. rewrite Z.div_mul, Z.mod_mul by lia. repeat split; [lia | nia |]. nia.
Qed.

Lemma ffloor_rnd m e : 0 <= m -> e <= 0 -> exists w, 0 <= w /\ Z.abs (w - m) * 2 ^ 24 <= m /\
  ffloor (rnd m e) = w / 2 ^ (- e) /\ ftrunc (rnd m e) = w / 2 ^ (- e).
Proof.
  intros Hm He. destruct (rnd_near m e Hm) as (w & k & Hk & Hw & -> & Hmod & Hnear). exists w. do 2 (split; [assumption |]).
  assert (0 < 2 ^ k) as Hp by (apply Z.pow_pos_nonneg; lia). pose proof (Z.div_mod w (2 ^ k) ltac:(lia)) as Hdm. rewrite Hmod, Z.add_0_r in Hdm.
  pose proof (Z.div_pos w (2 ^ k) Hw Hp) as Hq. unfold ffloor, ftrunc. cbn [man expo]. destruct (Z.leb_spec 0 (e + k)).
  - assert (w / 2 ^ k * 2 ^ (e + k) = w / 2 ^ (- e)) as E; [| now rewrite E].
    apply (Z.div_unique _ _ _ 0); [left; split; [lia | apply Z.pow_pos_nonneg; lia] |].
    rewrite Hdm at 1. replace (2 ^ k) with (2 ^ (- e) * 2 ^ (e + k)) at 1 by (rewrite <- Z.pow_add_r by lia; f_equal; lia). lia.
  - assert (0 < 2 ^ (- (e + k))) as Hp' by (apply Z.pow_pos_nonneg; lia). rewrite Z.quot_div_nonneg by lia.
    assert (w / 2 ^ k / 2 ^ (- (e + k)) = w / 2 ^ (- e)) as E; [| now rewrite E].
    rewrite Z.div_div by lia. f_equal. rewrite <- Z.pow_add_r by lia. f_equal. lia.
Qed.

Lemma of_int_small z : 0 <= z < 2 ^ 24 -> of_int z = F z 0.
Proof.
  intros Hz. unfold of_int, rnd. rewrite Z.abs_eq by lia.
  assert (Z.log2 z < 24) by (destruct (Z.eq_dec z 0) as [-> | ?]; [cbn; lia | apply Z.log2_lt_pow2; lia]).
  now rewrite (proj2 (Z.leb_le (Z.log2 z - 23) 0)) by lia.
Qed.

Lemma to_int_ok z : - 2 ^ 31 <= z < 2 ^ 31 -> to_int z = Some z.
Proof. intros. unfold to_int. now rewrite (proj2 (andb_true_iff _ _)) by lia. Qed.

(** ** The temperature *)

Lemma read_base_10 acc l : read_base 10 acc l = read_digits acc l.
Proof.
  revert acc. induction l as [| c l IH]; intros acc; [reflexivity |]. cbn [read_base read_digits].
  assert ((digit c <? 10) = isdigit c) as ->.
  { unfold digit, isdigit. destruct ((48 <=? c) && (c <=? 57)) eqn:E1; [lia |].
    destruct ((97 <=? c) && (c <=? 122)) eqn:E2; [lia |]. destruct ((65 <=? c) && (c <=? 90)) eqn:E3; lia. }
  destruct (isdigit c) eqn:E; [| reflexivity]. rewrite IH. f_equal. apply isdigit_range in E.
  unfold digit. rewrite (proj2 (andb_true_iff _ _)) by lia. reflexivity.
Qed.

(** The first digit of a number above zero is not zero. *)
Lemma digits_first fuel n : 0 < n < 10 ^ Z.of_nat fuel -> exists c l, digits fuel n [] = c :: l /\ 49 <= c <= 57.
Proof.
  revert n. induction fuel as [| fuel IH]; intros n Hn; [cbn in Hn; lia |]. cbn [digits]. destruct (Z.ltb_spec n 10).
  - exists (48 + n mod 10), []. rewrite Z.mod_small by lia. split; [reflexivity | lia].
  - rewrite Nat2Z.inj_succ, Z.pow_succ_r in Hn by lia.
    destruct (IH (n / 10)) as (c & l & E & Hc); [split; [apply Z.div_str_pos; lia | apply Z.div_lt_upper_bound; lia] |].
    rewrite digits_app, E. exists c, (l ++ [48 + n mod 10]). split; [reflexivity | exact Hc].
Qed.

(** What the kernel writes for a temperature. *)
Definition temp_text (t : Z) : list Z := print_d t ++ [10].

Lemma strtoul_text t : 0 <= t < 2 ^ 31 -> strtoul (temp_text t) = t.
Proof.
  intros Ht. unfold temp_text. rewrite print_d_digits by lia. destruct (Z.eq_dec t 0) as [-> | Hnz]; [reflexivity |].
  pose proof (digits_isdigit 20 t ltac:(lia)) as Hd. pose proof (read_digits_digits 20 t ltac:(cbn; lia)) as Hr.
  destruct (digits_first 20 t) as (c & l & E & Hc); [cbn; lia |]. rewrite E in *. cbn [app]. unfold strtoul.
  assert (skip_space (c :: l ++ [10]) = c :: l ++ [10]) as -> by (cbn [skip_space]; unfold isspace; bool_cases; try lia; reflexivity).
  assert (read_prefixed (c :: l ++ [10]) = t) as Hp.
  { transitivity (read_base 10 0 (c :: l ++ [10])).
    - assert (c = 49 \/ c = 50 \/ c = 51 \/ c = 52 \/ c = 53 \/ c = 54 \/ c = 55 \/ c = 56 \/ c = 57) as Hcs by lia.
      repeat destruct Hcs as [-> | Hcs]; try reflexivity. now subst.
    - rewrite read_base_10. change (c :: l ++ [10]) with ((c :: l) ++ [10]). now rewrite read_digits_app, Hr by assumption. }
  assert ((match c :: l ++ [10] with 45 :: l => (true, l) | 43 :: l => (false, l) | _ => (false, c :: l ++ [10]) end) = (false, c :: l ++ [10])) as ->.
  { assert (c = 49 \/ c = 50 \/ c = 51 \/ c = 52 \/ c = 53 \/ c = 54 \/ c = 55 \/ c = 56 \/ c = 57) as Hcs by lia.
    repeat destruct Hcs as [-> | Hcs]; try reflexivity. now subst. }
  rewrite Hp. destruct (Z.ltb_spec (2 ^ 32 - 1) t); [lia | reflexivity].
Qed.

Lemma strlen_none l : Forall (fun c => c <> 0) l -> strlen l = None.
Proof.
  induction 1 as [| c l Hc _ IH]; [reflexivity |]. cbn [strlen]. rewrite (proj2 (Z.eqb_neq c 0)) by exact Hc. now rewrite IH.
Qed.

Lemma read_text t : 0 <= t < 2 ^ 31 -> readIntFromFile (Some (temp_text t)) = t.
Proof.
  intros Ht. unfold readIntFromFile. assert (List.length (temp_text t) <= 21)%nat as Hl.
  { unfold temp_text. rewrite length_app, print_d_digits by lia. pose proof (length_digits 20 t). cbn [List.length]. lia. }
  rewrite take_ge by lia. assert (cstring (temp_text t) = None \/ cstring (temp_text t) = Some (temp_text t)) as Hc.
  { left. unfold cstring. assert (strlen (temp_text t) = None) as ->; [| reflexivity].
    assert (Forall (fun c => c <> 0) (temp_text t)) as Hf.
    { apply Forall_app. split; [| repeat constructor; lia]. eapply Forall_impl; [| apply print_d_cstr; lia]. cbn. lia. }
    now apply strlen_none. }
  assert (default (temp_text t) (cstring (temp_text t)) = temp_text t) as -> by (destruct Hc as [-> | ->]; reflexivity).
  rewrite strtoul_text by exact Ht. rewrite s32_id by lia.
  destruct (temp_text t) as [| c l] eqn:E; [| reflexivity]. unfold temp_text in E. destruct (print_d t); discriminate.
Qed.

(** A small integer is kept whatever its exponent. *)
Lemma ffloor_rnd_exact m j : 0 <= m < 2 ^ 24 -> 0 <= j -> ffloor (rnd (m * 2 ^ j) (- j)) = m.
Proof.
  intros Hm Hj. destruct (Z.eq_dec m 0) as [-> | Hnz].
  { rewrite Z.mul_0_l. change (rnd 0 (- j)) with (F 0 (- j)). unfold ffloor. cbn [man expo].
    destruct (0 <=? - j) eqn:E; [reflexivity |]. apply Z.div_0_l, Z.pow_nonzero; lia. }
  assert (0 < 2 ^ j) as Hp by (apply Z.pow_pos_nonneg; lia). unfold rnd. rewrite Z.abs_eq, Z.log2_mul_pow2 by lia.
  assert (Z.log2 m < 24) as Hl by (apply Z.log2_lt_pow2; lia). set (k := j + Z.log2 m - 23).
  assert (forall i, 0 <= i -> ffloor (F (m * 2 ^ i) (- i)) = m) as Hf.
  { intros i Hi. unfold ffloor. cbn [man expo]. destruct (Z.leb_spec 0 (- i)).
    - replace i with 0 by lia. cbn. lia.
    - rewrite Z.opp_involutive. apply Z.div_mul. apply Z.pow_nonzero; lia. }
  destruct (Z.leb_spec k 0) as [Hk | Hk]; [now apply Hf |]. rewrite Z.sgn_pos, Z.mul_1_l by (apply Z.mul_pos_pos; lia).
  assert (m * 2 ^ j = m * 2 ^ (j - k) * 2 ^ k) as E by (rewrite <- Z.mul_assoc, <- Z.pow_add_r by lia; do 2 f_equal; lia).
  assert (0 < 2 ^ k) as Hpk by (apply Z.pow_pos_nonneg; lia). assert (0 < 2 ^ (k - 1)) as Hpk1 by (apply Z.pow_pos_nonneg; lia).
  rewrite E, Z.mod_mul, Z.div_mul by lia. rewrite (proj2 (Z.ltb_ge (2 ^ (k - 1)) 0)), (proj2 (Z.eqb_neq 0 (2 ^ (k - 1)))) by lia. cbn [orb andb].
  replace (- j + k) with (- (j - k)) by lia. apply Hf. lia.
Qed.

(** A quotient by 1000, rounded to a [float] and down to an integer. *)
Lemma floor_thousandth t : 0 <= t < 10 ^ 7 -> ffloor (fdiv_int (of_int t) 1000) = t / 1000.
Proof.
  intros Ht. rewrite of_int_small by lia. unfold fdiv_int. cbn [man expo].
  change (2 ^ 0) with 1. rewrite Z.mul_1_r, (Z.abs_eq t) by lia.
  pose proof (Z.div_mod t 1000). pose proof (Z.mod_pos_bound t 1000).
  pose proof (Z.div_mod (t * 2 ^ 64) 1000). pose proof (Z.mod_pos_bound (t * 2 ^ 64) 1000).
  set (b := if t * 2 ^ 64 mod 1000 =? 0 then 0 else 1).
  assert (0 <= b <= 1) as Hb by (unfold b; destruct (_ =? _); lia).
  replace (Z.sgn t * (2 * (t * 2 ^ 64 / 1000) + b)) with (2 * (t * 2 ^ 64 / 1000) + b)
    by (destruct (Z.eq_dec t 0) as [E | ?]; [unfold b; rewrite E; reflexivity | rewrite Z.sgn_pos by lia; lia]).
  set (q := t / 1000) in *. destruct (Z.eq_dec (t mod 1000) 0) as [Er | Er].
  - replace (2 * (t * 2 ^ 64 / 1000) + b) with (q * 2 ^ 65); [apply (ffloor_rnd_exact q 65); lia |].
    assert (t * 2 ^ 64 mod 1000 = 0) as Em by (replace (t * 2 ^ 64) with (q * 2 ^ 64 * 1000) by lia; now apply Z.mod_mul).
    assert (b = 0) as -> by (unfold b; now rewrite Em). lia.
  - destruct (ffloor_rnd (2 * (t * 2 ^ 64 / 1000) + b) (-65)) as (w & Hw & Hn & -> & _); [lia | lia |].
    change (2 ^ (- (-65))) with (2 ^ 65). symmetry. apply (Z.div_unique _ _ _ (w - q * 2 ^ 65)); lia.
Qed.

Lemma temperature_text t : 0 <= t < 10 ^ 7 -> thermal_temperature_get (Some (temp_text t)) = Some (t / 1000).
Proof.
  intros Ht. unfold thermal_temperature_get. rewrite read_text by lia. rewrite (proj2 (Z.eqb_neq t (-1))) by lia.
  rewrite floor_thousandth by lia. pose proof (Z.div_mod t 1000). pose proof (Z.mod_pos_bound t 1000).
  unfold to_uint32. now rewrite (proj2 (andb_true_iff _ _)) by lia.
Qed.

(** ** The controller *)

(** The constants set by [InitPID]; a state of the controller after [S] degree-seconds above the target. *)
Definition running (pid : PID) (S : Z) : Prop :=
  SumError pid = S /\ Kp pid = F 700 0 /\ Ki pid = F 10066330 (-24) /\ Kd pid = F 0 0 /\ Out pid = 0 /\ 0 <= LastError pid <= 2 ^ 20.

Lemma product_zero x : ftrunc (fmul (F 0 0) x) = 0.
Proof. unfold fmul. cbn [man expo]. rewrite Z.mul_0_l. cbn. unfold ftrunc. cbn [man expo]. destruct (0 <=? _) eqn:E; [reflexivity |]. apply Z.quot_0_l, Z.pow_nonzero; lia. Qed.

(** The proportional part, exact for every error of at most 20000 degrees. *)
Lemma proportional e : 0 <= e <= 2 ^ 20 -> exists o, ftrunc (fmul (F 700 0) (of_int e)) = o /\ Z.abs (o - 700 * e) <= 64 /\ (e <= 20000 -> o = 700 * e) /\ 700 * (Z.min e 1) <= o.
Proof.
  intros He. rewrite of_int_small by lia. unfold fmul. cbn [man expo]. destruct (ffloor_rnd (700 * e) (0 + 0)) as (w & Hw & Hn & _ & ->); [lia | lia |].
  cbn [Z.opp Z.add]. change (2 ^ 0) with 1. rewrite Z.div_1_r. exists w. split; [reflexivity |]. lia.
Qed.

(** The integral part: [700 * 0.6f] is [420] and a little more. *)
Lemma integral S : 0 <= S <= 2 ^ 20 -> exists o, ftrunc (fmul (fmul (F 700 0) (F 10066330 (-24))) (of_int S)) = o /\
  420 * S <= o <= 421 * S /\ (S <= 16384 -> o = 420 * S).
Proof.
  intros HS. rewrite of_int_small by lia. change (fmul (F 700 0) (F 10066330 (-24))) with (F 13762561 (-15)). unfold fmul. cbn [man expo].
  destruct (ffloor_rnd (13762561 * S) (-15 + 0)) as (w & Hw & Hn & _ & ->); [lia | lia |]. change (2 ^ (- (-15 + 0))) with 32768.
  exists (w / 32768). pose proof (Z.div_mod w 32768). pose proof (Z.mod_pos_bound w 32768). split; [reflexivity |]. lia.
Qed.

(** One calculation above the target. *)
Lemma LocPIDCalc_running pid S target temp : running pid S -> 0 <= S -> 0 <= target < temp -> S + (temp - target) <= 2 ^ 20 ->
  exists out pid', LocPIDCalc (set_temperatures target temp pid) = Some (out, pid') /\ running pid' (S + (temp - target)) /\
    Z.abs (out - (700 * (temp - target) + 420 * (S + (temp - target)))) <= 64 + (S + (temp - target)) /\
    (S + (temp - target) <= 16384 -> out = 700 * (temp - target) + 420 * (S + (temp - target))) /\
    700 + 420 * (S + (temp - target)) <= out.
Proof.
  intros (HS & HKp & HKi & HKd & HOut & HL) HS0 Ht H20. set (e := temp - target) in *.
  destruct (proportional e) as (o1 & E1 & B1 & X1 & L1); [lia |]. destruct (integral (S + e)) as (o2 & E2 & B2 & X2); [lia |].
  unfold LocPIDCalc, set_temperatures. cbn [ActualTemperature SetTemperature SumError Kp Ki Kd NowError LastError Out0 Out].
  rewrite HS, HKp, HKi, HKd, HOut. fold e. rewrite (to_int_ok e) by lia. cbn [mbind option_bind].
  rewrite (to_int_ok (S + e)) by lia. cbn [mbind option_bind]. rewrite E1, (to_int_ok o1) by lia. cbn [mbind option_bind].
  rewrite E2, (to_int_ok o2) by lia. cbn [mbind option_bind]. rewrite (to_int_ok (e - LastError pid)) by lia. cbn [mbind option_bind].
  change (fmul (F 700 0) (F 0 0)) with (F 0 0). rewrite product_zero. rewrite (to_int_ok 0) by lia. cbn [mbind option_bind].
  rewrite (to_int_ok (o1 + o2)) by lia. cbn [mbind option_bind]. rewrite (to_int_ok (o1 + o2 + 0)) by lia. cbn [mbind option_bind].
  rewrite (to_int_ok (o1 + o2 + 0 + 0)) by lia. cbn [mbind option_bind]. eexists _, _. split; [reflexivity |].
  split; [repeat split; cbn; auto; lia |]. lia.
Qed.

(** ** The duty *)

(** The duty of a number of cycles in whole numbers: 41.67 nanoseconds each, for 0 to 3072 cycles, and at most
    the period without the gap. *)
Definition exact_duty (c : Z) : Z := Z.min (128000 - 500) (4167 * Z.max 0 (Z.min 3072 c) / 100).

(** The duty [d] for [c] cycles is the exact one, or one nanosecond less where the exact one is a whole number. *)
Definition near_duty (c d : Z) : Prop :=
  d = exact_duty c \/ 0 < c <= 3072 /\ c mod 100 = 0 /\ d = exact_duty c - 1.

(** All cycles the duty distinguishes, by evaluation: the duty is 41.67 nanoseconds for each, up to one, and at most the
    period without the gap. *)
Lemma duty_small c : 0 <= c <= 3072 -> Z.min 127500 (4167 * c / 100) - 1 <= cycle_to_duty c <= Z.min 127500 (4167 * c / 100) /\ 0 <= cycle_to_duty c.
Proof.
  intros Hc. pose proof (range_forall (fun c => (Z.min 127500 (4167 * c / 100) - 1 <=? cycle_to_duty c) && (cycle_to_duty c <=? Z.min 127500 (4167 * c / 100)) && (0 <=? cycle_to_duty c))
    0 3073 c ltac:(vm_compute; reflexivity) ltac:(lia)) as H. cbv beta in H. lia.
Qed.

Lemma duty_clamp c : cycle_to_duty c = cycle_to_duty (Z.max 0 (Z.min 3072 c)).
Proof.
  unfold cycle_to_duty. f_equal. destruct (Z.ltb_spec 3072 c).
  - rewrite Z.min_l, Z.max_r by lia. reflexivity.
  - rewrite Z.min_r by lia. destruct (Z.ltb_spec c 0).
    + rewrite Z.max_l by lia. reflexivity.
    + rewrite Z.max_r by lia. rewrite (proj2 (Z.ltb_ge 3072 c)), (proj2 (Z.ltb_ge c 0)) by lia. reflexivity.
Qed.

Lemma duty_range c : 0 <= cycle_to_duty c <= 127500.
Proof. rewrite duty_clamp. pose proof (duty_small (Z.max 0 (Z.min 3072 c)) ltac:(lia)). lia. Qed.

Lemma duty_full c : 3072 <= c -> cycle_to_duty c = 127500.
Proof. intros. rewrite duty_clamp, Z.min_l by lia. reflexivity. Qed.

Lemma exact_duty_clamp c : exact_duty c = exact_duty (Z.max 0 (Z.min 3072 c)).
Proof. unfold exact_duty. do 3 f_equal. lia. Qed.

Lemma duty_near c : near_duty c (cycle_to_duty c).
Proof.
  set (ok := fun c => (cycle_to_duty c =? exact_duty c) ||
    ((0 <? c) && (c mod 100 =? 0) && (cycle_to_duty c =? exact_duty c - 1))).
  assert (forall c, 0 <= c <= 3072 -> ok c = true) as Hok.
  { intros c' Hc. apply (range_forall ok 0 3073 c'); [vm_compute; reflexivity | lia]. }
  unfold near_duty. rewrite (duty_clamp c), (exact_duty_clamp c). set (c' := Z.max 0 (Z.min 3072 c)).
  specialize (Hok c' ltac:(lia)). unfold ok in Hok. apply orb_true_iff in Hok as [H | H]; [left; lia |].
  apply andb_true_iff in H as [[H0 H1]%andb_true_iff H2]. destruct (Z.le_gt_cases c 3072) as [Hc | Hc].
  - assert (c' = c) as E by lia. rewrite E in *. right. lia.
  - assert (c' = 3072) as E by lia. rewrite E in H1. discriminate.
Qed.

(** ** The controller as sums of integers

    The duties a run should set, from the sum [S] of the earlier errors in degrees, and the sum after it. *)
Fixpoint duties (target S : Z) (temps : list Z) : list Z :=
  match temps with
  | [] => []
  | t :: temps =>
      if target <? t then let S := S + (t - target) in cycle_to_duty (700 * (t - target) + 420 * S) :: duties target S temps
      else 0 :: duties target S temps
  end.

(** The same without the program's arithmetic: the cycles of the controller, nothing up to the target and above it
    700 for each degree and 420 for each degree-second. *)
Fixpoint cycles (target S : Z) (temps : list Z) : list Z :=
  match temps with
  | [] => []
  | t :: temps =>
      if target <? t then let S := S + (t - target) in 700 * (t - target) + 420 * S :: cycles target S temps
      else 0 :: cycles target S temps
  end.

Lemma duties_near target S temps : Forall2 near_duty (cycles target S temps) (duties target S temps).
Proof.
  revert S. induction temps as [| t temps IH]; intros S; cbn [cycles duties]; [constructor |].
  destruct (target <? t); (constructor; [| apply IH]); [apply duty_near | left; reflexivity].
Qed.

Fixpoint total (target S : Z) (temps : list Z) : Z :=
  match temps with [] => S | t :: temps => total target (if target <? t then S + (t - target) else S) temps end.

Lemma total_grows target S temps : S <= total target S temps.
Proof. revert S. induction temps as [| t temps IH]; intros S; cbn [total]; [lia |]. specialize (IH (if target <? t then S + (t - target) else S)). destruct (Z.ltb_spec target t); lia. Qed.

Lemma control_step target t pid S : running pid S -> 0 <= S -> 0 <= target -> 0 <= t < 10 ^ 7 ->
  (if target <? t / 1000 then S + (t / 1000 - target) else S) <= 2 ^ 20 ->
  exists pid', control target (Some (temp_text t)) pid = Some (hd 0 (duties target S [t / 1000]), pid') /\ running pid' (total target S [t / 1000]).
Proof.
  intros Hr HS Ht Htext Hb. unfold control. rewrite temperature_text by exact Htext. cbn [mbind option_bind duties total].
  pose proof (Z.div_mod t 1000). pose proof (Z.mod_pos_bound t 1000). rewrite s32_id by lia.
  destruct (Z.ltb_spec target (t / 1000)) as [Hhot | Hcold]; [| exists pid; split; [reflexivity | exact Hr]].
  destruct (LocPIDCalc_running pid S target (t / 1000) Hr HS ltac:(lia) Hb) as (out & pid' & -> & Hr' & Hnear & Hexact & Hlow).
  exists pid'. cbn [mbind option_bind hd]. split; [| exact Hr']. do 2 f_equal.
  destruct (Z.le_gt_cases (S + (t / 1000 - target)) 16384); [rewrite Hexact by assumption; reflexivity |]. rewrite !duty_full by lia. reflexivity.
Qed.

Lemma duties_cons target S t temps : duties target S (t :: temps) = hd 0 (duties target S [t]) :: duties target (total target S [t]) temps.
Proof. cbn [duties total]. destruct (target <? t); reflexivity. Qed.

Lemma loop_runs id target texts : 0 <= target -> Forall (fun t => 0 <= t < 10 ^ 7) texts ->
  forall pid S w, running pid S -> 0 <= S -> total target S (map (fun t => t / 1000) texts) <= 2 ^ 20 ->
  exists pid', loop id target (map (fun t => Some (temp_text t)) texts) pid (Io (repeat true (List.length texts)) w) =
    Some (pid', Io [] (w ++ map (fun d => (duty_file id, d)) (duties target S (map (fun t => t / 1000) texts)))) /\
    running pid' (total target S (map (fun t => t / 1000) texts)).
Proof.
  intros Ht Hf. induction Hf as [| t texts Htext _ IH]; intros pid S w Hr HS Hb; cbn [map loop List.length repeat].
  - exists pid. cbn. rewrite app_nil_r. auto.
  - cbn [map total] in Hb. pose proof (total_grows target (if target <? t / 1000 then S + (t / 1000 - target) else S) (map (fun t => t / 1000) texts)) as Hle.
    destruct (control_step target t pid S Hr HS Ht Htext ltac:(lia)) as (pid1 & -> & Hr1). cbn [mbind option_bind].
    rewrite (duties_cons target S (t / 1000) (map _ texts)). set (d := hd 0 (duties target S [t / 1000])) in *.
    change (snd (pwm_config_duty id d (Io (true :: repeat true (List.length texts)) w))) with
      (Io (repeat true (List.length texts)) (w ++ [(duty_file id, d)])).
    destruct (IH pid1 (total target S [t / 1000]) (w ++ [(duty_file id, d)])) as (pid2 & E2 & Hr2); auto.
    { cbn [total]. destruct (Z.ltb_spec target (t / 1000)); lia. }
    exists pid2. rewrite E2, <- app_assoc. split; [reflexivity | exact Hr2].
Qed.

Lemma duties_full target S temps : 6 <= S -> duties target S temps = map (fun t => if target <? t then 127500 else 0) temps.
Proof.
  revert S. induction temps as [| t temps IH]; intros S HS; [reflexivity |]. cbn [duties map].
  destruct (Z.ltb_spec target t); [| now rewrite IH]. rewrite IH by lia. f_equal. apply duty_full. lia.
Qed.

Lemma control_range target contents pid d pid' : control target contents pid = Some (d, pid') -> 0 <= d <= 127500.
Proof.
  unfold control. destruct (thermal_temperature_get contents) as [temp |]; [| discriminate]. cbn [mbind option_bind].
  destruct (target <? s32 temp); [| intros [= <- _]; lia].
  destruct (LocPIDCalc _) as [[out p] |]; [| discriminate]. intros [= <- _]. apply duty_range.
Qed.

(** ** Theorems *)

(** C34: Where every file opens, the program sets up the channel (off, period, first duty, on) and then sets each second
    a duty near that of a controller over the integers: no cycles up to the target, above it 700 cycles for each
    degree and 420 for each degree-second so far, 41.67 nanoseconds per cycle, at most the period without the gap.
    The duty written is the exact one rounded down, or one nanosecond less when the exact one is a whole number;
    the sum of the errors is exact.  The readings are texts of the kernel from zero to 10000 degrees, with at most
    2^20 degree-seconds above the target in all. *)
Theorem fan_follows_temperature id target t0 texts :
  0 <= target -> 0 <= t0 < 10 ^ 7 -> Forall (fun t => 0 <= t < 10 ^ 7) texts ->
  total target 0 (map (fun t => t / 1000) texts) <= 2 ^ 20 ->
  exists pid ds, main id target (Some (temp_text t0)) (map (fun t => Some (temp_text t)) texts) (Io (repeat true (6 + List.length texts)) []) =
    Some (inr (pid, Io [] ([(enable_file id, 0); (period_file id, 128000); (duty_file id, 1000); (enable_file id, 1)] ++
      map (fun d => (duty_file id, d)) ds))) /\
    Forall2 near_duty (cycles target 0 (map (fun t => t / 1000) texts)) ds /\
    SumError pid = total target 0 (map (fun t => t / 1000) texts).
Proof.
  intros Ht H0 Hf Hb. assert (running (InitPID pid_zero) 0) as Hr by (repeat split; cbn; lia).
  destruct (loop_runs id target texts Ht Hf (InitPID pid_zero) 0
    [(enable_file id, 0); (period_file id, 128000); (duty_file id, 1000); (enable_file id, 1)] Hr ltac:(lia) Hb) as (pid & E & HS & _).
  exists pid, (duties target 0 (map (fun t => t / 1000) texts)). split; [| split; [apply duties_near | exact HS]].
  unfold main, thermal_init. rewrite read_text, (proj2 (Z.eqb_neq t0 (-1))) by lia. change (negb (0 =? 0)) with false. cbv iota.
  change (pwm_init id PWM_PERIOD_NS (Io (repeat true (6 + List.length texts)) [])) with
    (0, Io (repeat true (List.length texts)) [(enable_file id, 0); (period_file id, 128000); (duty_file id, 1000); (enable_file id, 1)]).
  change (negb (0 =? 0)) with false. cbv iota. now rewrite E.
Qed.

(** A reading below the target and two above it. *)
Lemma fan_follows_temperature_witness : exists pid ds,
  main 0 80 (Some (temp_text 45000)) (map (fun t => Some (temp_text t)) [79999; 81500; 82000]) (Io (repeat true 9) []) =
  Some (inr (pid, Io [] ([(enable_file 0, 0); (period_file 0, 128000); (duty_file 0, 1000); (enable_file 0, 1)] ++
    map (fun d => (duty_file 0, d)) ds))) /\ Forall2 near_duty [0; 1120; 2660] ds /\ SumError pid = 3.
Proof.
  apply (fan_follows_temperature 0 80 45000 [79999; 81500; 82000]);
    [lia | lia | repeat (constructor; [split; [apply Z.leb_le | apply Z.ltb_lt]; reflexivity |]); constructor | apply Z.leb_le; reflexivity].
Defined.

(** Rounding does make a difference: 2800 cycles are 116676 nanoseconds, and the program's product is below it. *)
Example float_duty_below : exact_duty 2800 = 116676 /\ cycle_to_duty 2800 = 116675.
Proof. split; reflexivity. Qed.

(** Whatever is read and whatever fails, only the duty file is written in the loop, and every value leaves the
    channel off for at least 500 nanoseconds of its period. *)
Theorem fan_duty_safe id target readings pid s pid' s' : loop id target readings pid s = Some (pid', s') ->
  exists ds, written s' = written s ++ map (fun d => (duty_file id, d)) ds /\
    Forall (fun d => 0 <= d <= PWM_PERIOD_NS - PWM_SAFETY_GAP) ds /\ (List.length ds <= List.length readings)%nat.
Proof.
  revert pid s. induction readings as [| r readings IH]; intros pid s; cbn [loop].
  - intros [= <- <-]. exists []. cbn. rewrite app_nil_r. auto.
  - destruct (control target r pid) as [[d p] |] eqn:Ec; [| discriminate]. cbn [mbind option_bind]. intros (ds & E & Hf & Hl)%IH.
    apply control_range in Ec. destruct s as [[| [] o] w]; unfold pwm_config_duty, write_all, writeIntToFile, next in E; cbn in E.
    + exists ds. split; [exact E | split; [exact Hf | cbn [List.length]; lia]].
    + exists (d :: ds). rewrite <- app_assoc in E. split; [exact E | split; [constructor; [exact Ec | exact Hf] | cbn [List.length]; lia]].
    + exists ds. split; [exact E | split; [exact Hf | cbn [List.length]; lia]].
Qed.

Lemma fan_duty_safe_witness : exists ds,
  [(duty_file 0, 127500)] = [] ++ map (fun d => (duty_file 0, d)) ds /\ Forall (fun d => 0 <= d <= PWM_PERIOD_NS - PWM_SAFETY_GAP) ds /\ (List.length ds <= 2)%nat.
Proof.
  exact (fan_duty_safe 0 80 [None; Some (lit "20000")] (InitPID pid_zero) (Io [true] [])
    (set_temperatures 80 100 (Pid 80 100 20 (F 700 0) (F 10066330 (-24)) (F 0 0) 20 20 0 0)) (Io [] [(duty_file 0, 127500)]) eq_refl).
Defined.

(** The sum of the errors never falls.  After six degree-seconds above the target the controller only switches the
    fan: every later reading above the target gives the largest duty, every other one none. *)
Theorem fan_only_switches id target pid S texts w :
  running pid S -> 6 <= S -> 0 <= target -> Forall (fun t => 0 <= t < 10 ^ 7) texts -> total target S (map (fun t => t / 1000) texts) <= 2 ^ 20 ->
  exists pid', loop id target (map (fun t => Some (temp_text t)) texts) pid (Io (repeat true (List.length texts)) w) =
    Some (pid', Io [] (w ++ map (fun t => (duty_file id, if target <? t / 1000 then 127500 else 0)) texts)).
Proof.
  intros Hr HS Ht Hf Hb. destruct (loop_runs id target texts Ht Hf pid S w Hr ltac:(lia) Hb) as (pid' & E & _).
  exists pid'. rewrite E, duties_full, !map_map by exact HS. reflexivity.
Qed.

Lemma fan_only_switches_witness : exists pid',
  loop 0 80 (map (fun t => Some (temp_text t)) [81000; 80999; 45000]) (Pid 80 90 10 (F 700 0) (F 10066330 (-24)) (F 0 0) 10 10 0 0) (Io (repeat true 3) []) =
  Some (pid', Io [] ([] ++ map (fun t => (duty_file 0, if 80 <? t / 1000 then 127500 else 0)) [81000; 80999; 45000])).
Proof.
  apply (fan_only_switches 0 80 (Pid 80 90 10 (F 700 0) (F 10066330 (-24)) (F 0 0) 10 10 0 0) 10 [81000; 80999; 45000]);
    [repeat split; cbn; lia | lia | lia | repeat (constructor; [split; [apply Z.leb_le | apply Z.ltb_lt]; reflexivity |]); constructor | apply Z.leb_le; reflexivity].
Defined.

(** ** Limits *)

(** After some 59 days one degree above the target the integral part no longer fits an [int]. *)
Example long_heat_undefined : control 80 (Some (temp_text 81000)) (Pid 80 81 5113060 (F 700 0) (F 10066330 (-24)) (F 0 0) 1 1 0 0) = None.
Proof. reflexivity. Qed.

(** A temperature below zero is converted to an unsigned integer that cannot hold it; a thousandth of a
    degree below zero counts as a file that cannot be read, which is 100 degrees. *)
Example cold_undefined : thermal_temperature_get (Some (lit "-5000")) = None.
Proof. reflexivity. Qed.
Example just_below_zero_is_hot : thermal_temperature_get (Some (lit "-1")) = Some 100.
Proof. reflexivity. Qed.
