(* ===== verification/Maccalc.v ===== *)
(** * Maccalc: the MAC address tool

    [src/feeds/net/maccalc/src/main.c].  A run gets the arguments, the outcomes of the [read]s of its
    input and the result of its [write]; it gives the bytes written to its output and
    the exit code.  A read that never comes is [None].  The usage message and the
    other messages on the error output are left out. *)
From Stdlib Require Import String.
From S2P Require Import Prelude CString.

#[local] Open Scope string_scope.
#[local] Open Scope list_scope.
#[local] Open Scope Z_scope.

Definition MAC_ADDRESS_LEN : nat := 6.
Definition ERR_INVALID : Z := 1.
Definition ERR_IO : Z := 2.
Definition EXIT_SUCCESS : Z := 0.
Definition EXIT_FAILURE : Z := 1.

(** ** Parsing and printing *)

Definition hex_value (c : Z) : option Z :=
  if (48 <=? c) && (c <=? 57) then Some (c - 48)
  else if (97 <=? c) && (c <=? 102) then Some (c - 87)
  else if (65 <=? c) && (c <=? 70) then Some (c - 55) else None.

(** At most [width] hexadecimal digits, at least one; the number and the rest. *)
Fixpoint more_digits (width : nat) (acc : Z) (s : list Z) : Z * list Z :=
  match width, s with
  | S width, c :: s' => match hex_value c with Some d => more_digits width (16 * acc + d) s' | None => (acc, s) end
  | _, _ => (acc, s)
  end.
Definition scan_digits (width : nat) (s : list Z) : option (Z * list Z) :=
  match s with
  | c :: s' => match hex_value c with Some d => Some (more_digits (Nat.pred width) d s') | None => None end
  | [] => None
  end.

(** The conversion "%02hhx" of [sscanf]: blanks, then two characters at most, of which a sign is one; the
    prefix "0x" fills them and leaves no digit. *)
Definition scan_hhx (s : list Z) : option (Z * list Z) :=
  match skip_space s with
  | 45 :: s' => '(v, r) ← scan_digits 1 s'; Some (u8 (- v), r)
  | 43 :: s' => scan_digits 1 s'
  | 48 :: 120 :: _ | 48 :: 88 :: _ => None
  | s' => scan_digits 2 s'
  end.

(** [n] conversions with a colon between two of them; [None] when fewer succeed. *)
Fixpoint scan_mac (n : nat) (s : list Z) : option (list Z) :=
  match n with
  | O => Some []
  | S n' =>
      '(v, r) ← scan_hhx s;
      match n' with
      | O => Some [v]
      | S _ => match r with 58 :: r => l ← scan_mac n' r; Some (v :: l) | _ => None end
      end
  end.

Definition parse_mac (mac_str : list Z) : list Z + Z :=
  match scan_mac MAC_ADDRESS_LEN mac_str with Some buf => inl buf | None => inr ERR_INVALID end.

(** "%02x" and the whole line. *)
Definition hex_char (d : Z) : Z := if d <? 10 then 48 + d else 87 + d.
Definition print_02x (b : Z) : list Z := [hex_char (b / 16); hex_char (b mod 16)].
Fixpoint print_bytes (buf : list Z) : list Z :=
  match buf with
  | [] => []
  | [b] => print_02x b
  | b :: buf => print_02x b ++ 58 :: print_bytes buf
  end.
Definition print_mac (buf : list Z) : list Z := print_bytes buf ++ [10].

(** ** Commands: what is written, and the result *)

Definition maccalc_do_add (argv : list (list Z)) : list Z * Z :=
  match argv with
  | [a0; a1] =>
      match parse_mac a0 with
      | inr err => ([], err)
      | inl mac =>
          let i := atol a1 in
          let at_ k := nth k mac 0 in
          let t := Z.lor (Z.lor (Z.shiftl (at_ 3%nat) 16) (Z.shiftl (at_ 4%nat) 8)) (at_ 5%nat) in
          let t := u32 (t + i) in
          (print_mac [at_ 0%nat; at_ 1%nat; at_ 2%nat; Z.land (Z.shiftr t 16) 0xff; Z.land (Z.shiftr t 8) 0xff; Z.land t 0xff], 0)
      end
  | _ => ([], ERR_INVALID)
  end.

Definition maccalc_do_logical (op : Z -> Z -> Z) (argv : list (list Z)) : list Z * Z :=
  match argv with
  | [a0; a1] =>
      match parse_mac a0 with
      | inr err => ([], err)
      | inl mac1 =>
          match parse_mac a1 with
          | inr err => ([], err)
          | inl mac2 => (print_mac (zip_with op mac1 mac2), 0)
          end
      end
  | _ => ([], ERR_INVALID)
  end.

Definition op_or (n1 n2 : Z) : Z := Z.lor n1 n2.
Definition op_and (n1 n2 : Z) : Z := Z.land n1 n2.
Definition op_xor (n1 n2 : Z) : Z := Z.lxor n1 n2.
Definition maccalc_do_or := maccalc_do_logical op_or.
Definition maccalc_do_and := maccalc_do_logical op_and.
Definition maccalc_do_xor := maccalc_do_logical op_xor.

(** [c]: how many bytes [write] writes, or a negative number. *)
Definition maccalc_do_mac2bin (c : Z) (argv : list (list Z)) : list Z * Z :=
  match argv with
  | [a0] =>
      match parse_mac a0 with
      | inr err => ([], err)
      | inl mac => (take (Z.to_nat c) mac, if c =? Z.of_nat MAC_ADDRESS_LEN then 0 else ERR_IO)
      end
  | _ => ([], ERR_INVALID)
  end.

(** The outcomes of a [read]: some bytes (as many as fit are taken), the end, an interruption, an error. *)
Inductive event := Data (b : Z) (l : list Z) | Eof | Eintr | Error.

(** [read_safe]: the bytes so far and the number still wanted; the total, or -1, with the bytes. *)
Fixpoint read_safe (events : list event) (total : list Z) (count : nat) : option (Z * list Z) :=
  match count with
  | O => Some (Z.of_nat (List.length total), total)
  | _ =>
      match events with
      | [] => None
      | Eof :: _ => Some (Z.of_nat (List.length total), total)
      | Eintr :: events => read_safe events total count
      | Error :: _ => Some (-1, total)
      | Data b l :: events =>
          let got := take count (b :: l) in
          read_safe events (total ++ got) (count - List.length got)
      end
  end.

Definition maccalc_do_bin2mac (events : list event) (argv : list (list Z)) : option (list Z * Z) :=
  match argv with
  | [] =>
      '(c, mac) ← read_safe events [] MAC_ADDRESS_LEN;
      Some (if c =? Z.of_nat MAC_ADDRESS_LEN then (print_mac mac, 0) else ([], ERR_IO))
  | _ => Some ([], ERR_INVALID)
  end.

(** [main]: the arguments after the name of the program. *)
Definition main (events : list event) (c : Z) (argv : list (list Z)) : option (list Z * Z) :=
  match argv with
  | [] => Some ([], EXIT_FAILURE)
  | cmd :: argv =>
      let named s := bool_decide (cmd = lit s) in
      ret ←
        (if named "add" then Some (maccalc_do_add argv)
         else if named "and" then Some (maccalc_do_and argv)
         else if named "or" then Some (maccalc_do_or argv)
         else if named "xor" then Some (maccalc_do_xor argv)
         else if named "mac2bin" then Some (maccalc_do_mac2bin c argv)
         else if named "bin2mac" then maccalc_do_bin2mac events argv
         else Some ([], EXIT_FAILURE));
      let '(out, r) := ret in Some (out, if r =? 0 then EXIT_SUCCESS else EXIT_FAILURE)
  end.

(** ** Parsing *)

(** All bytes, by evaluation. *)
Lemma scan_hhx_print b rest : byte_ok b -> scan_hhx (print_02x b ++ rest) = Some (b, rest).
Proof.
  intros Hb. assert (Forall (fun b => scan_hhx (print_02x b ++ rest) = Some (b, rest)) (seqZ 0 256)) as H.
  { let l := eval vm_compute in (seqZ 0 256) in change (seqZ 0 256) with l. repeat (apply Forall_cons; [reflexivity |]). apply Forall_nil. }
  apply (proj1 (list.Forall_forall _ _) H). apply elem_of_seqZ. unfold byte_ok in Hb. lia.
Qed.

Lemma scan_mac_print buf rest : buf <> [] -> bytes_ok buf -> scan_mac (List.length buf) (print_bytes buf ++ rest) = Some buf.
Proof.
  intros Hne H. induction H as [| b [| b' buf] Hb _ IH]; [contradiction | |].
  - cbn [print_bytes List.length scan_mac]. rewrite scan_hhx_print by exact Hb. reflexivity.
  - change (print_bytes (b :: b' :: buf) ++ rest) with (print_02x b ++ 58 :: (print_bytes (b' :: buf) ++ rest)).
    cbn [List.length] in *. remember (S (List.length buf)) as n eqn:En. cbn [scan_mac]. rewrite scan_hhx_print by exact Hb.
    cbn [mbind option_bind]. rewrite IH by discriminate. now rewrite En.
Qed.

(** A printed address is read back, whatever follows it. *)
Lemma parse_print buf rest : List.length buf = MAC_ADDRESS_LEN -> bytes_ok buf -> parse_mac (print_bytes buf ++ rest) = inl buf.
Proof. intros Hl Hb. unfold parse_mac. rewrite <- Hl, scan_mac_print; [reflexivity | | exact Hb]. intros ->. discriminate. Qed.

(** ** Adding *)

Lemma byte_of_u32 x k : 0 <= k <= 24 -> Z.land (Z.shiftr (u32 x) k) 0xff = (x / 2 ^ k) mod 256.
Proof.
  intros Hk. unfold u32. change 0xff with (Z.ones 8). change 256 with (2 ^ 8). rewrite <- (Z.land_ones _ 8) by lia.
  rewrite <- (Z.shiftr_div_pow2 x k), <- (Z.land_ones x 32) by lia. bitwise.
  destruct (Z.lt_ge_cases n 8).
  - rewrite (Z.ones_spec_low 32) by lia. now rewrite andb_true_r.
  - rewrite (Z.ones_spec_high 8) by lia. now rewrite !andb_false_r.
Qed.

Lemma low_bytes b3 b4 b5 : byte_ok b3 -> byte_ok b4 -> byte_ok b5 ->
  Z.lor (Z.lor (Z.shiftl b3 16) (Z.shiftl b4 8)) b5 = be_combine [b3; b4; b5].
Proof.
  unfold byte_ok. intros H3 H4 H5. rewrite !Z.shiftl_mul_pow2 by lia.
  rewrite (lor_low_bits b3 (b4 * 2 ^ 8) 16) by lia.
  replace (b3 * 2 ^ 16 + b4 * 2 ^ 8) with ((b3 * 2 ^ 8 + b4) * 2 ^ 8) by lia. rewrite lor_low_bits by lia. cbn. lia.
Qed.

(** [add] on an address and any number: the last three bytes as a number, modulo [2 ^ 24]. *)
Lemma do_add_spec pre low rest a : List.length pre = 3%nat -> List.length low = 3%nat -> bytes_ok pre -> bytes_ok low ->
  maccalc_do_add [print_bytes (pre ++ low) ++ rest; a] = (print_mac (pre ++ be_split 3 (be_combine low + atol a)), 0).
Proof.
  intros Lp Ll Hp Hl. unfold maccalc_do_add. rewrite parse_print; [| now rewrite length_app, Lp, Ll | now apply Forall_app].
  destruct pre as [| b0 [| b1 [| b2 [| ? ?]]]]; try discriminate. destruct low as [| b3 [| b4 [| b5 [| ? ?]]]]; try discriminate.
  cbn [app nth]. do 2 f_equal. rewrite low_bytes by (repeat (apply Forall_cons_1 in Hl as [? Hl]); assumption).
  set (x := be_combine [b3; b4; b5] + atol a).
  rewrite !byte_of_u32 by lia. rewrite <- (Z.shiftr_0_r (u32 x)), byte_of_u32 by lia.
  unfold be_split. cbn [le_split rev app]. rewrite Z.div_1_r, Z.div_div by lia. reflexivity.
Qed.

(** ** The binary forms *)

(** The bytes that arrive before the end or an error. *)
Fixpoint stream (events : list event) : list Z :=
  match events with
  | [] => []
  | Data b l :: events => (b :: l) ++ stream events
  | Eintr :: events => stream events
  | _ :: _ => []
  end.

(** However the input is cut and interrupted, [read_safe] takes its first [count] bytes. *)
Lemma read_safe_stream events total count : (count <= List.length (stream events))%nat ->
  read_safe events total count = Some (Z.of_nat (List.length total + count), total ++ take count (stream events)).
Proof.
  revert total count. induction events as [| [b l | | |] events IH]; intros total count H; cbn [stream] in *;
    try (destruct count as [| count]; [cbn; now rewrite app_nil_r, Nat.add_0_r | cbn [List.length] in H; lia]).
  - destruct count as [| count]; [cbn; now rewrite app_nil_r, Nat.add_0_r |].
    cbn [read_safe]. set (got := take (S count) (b :: l)). assert (List.length got = Nat.min (S count) (List.length (b :: l))) as Hg by apply length_take.
    rewrite length_app in H. rewrite IH by lia. rewrite length_app, <- app_assoc.
    replace (List.length total + List.length got + (S count - List.length got))%nat with (List.length total + S count)%nat by lia.
    do 3 f_equal. rewrite take_app. fold got. do 2 f_equal. lia.
  - destruct count as [| count]; [cbn; now rewrite app_nil_r, Nat.add_0_r |]. cbn [read_safe]. now apply IH.
Qed.

Lemma be_split_mod n x : be_split n x = be_split n (x mod 256 ^ Z.of_nat n).
Proof.
  rewrite <- (be_combine_split n x). symmetry. pose proof (be_split_combine (be_split n x) (be_split_bytes n x)) as E.
  rewrite length_be_split in E. exact E.
Qed.

Lemma split_mac (mac : list Z) : List.length mac = MAC_ADDRESS_LEN -> exists pre low, mac = pre ++ low /\ List.length pre = 3%nat /\ List.length low = 3%nat.
Proof.
  intros Hl. exists (take 3 mac), (drop 3 mac). rewrite take_drop, length_take, length_drop, Hl. auto.
Qed.

Lemma zip_lxor_ok (a m : list Z) : bytes_ok a -> bytes_ok m -> bytes_ok (zip_with Z.lxor a m).
Proof.
  intros Ha. revert m. induction Ha as [| x a Hx _ IH]; intros m Hm; [constructor |]. destruct Hm as [| y m Hy Hm]; [constructor |].
  constructor; [unfold byte_ok in *; apply (lxor_range x y 8); lia | now apply IH].
Qed.

Lemma zip_lxor_twice (a m : list Z) : (List.length a <= List.length m)%nat -> zip_with Z.lxor (zip_with Z.lxor a m) m = a.
Proof.
  revert m. induction a as [| x a IH]; intros [| y m] H; cbn in *; try lia; [reflexivity .. |].
  now rewrite IH, Z.lxor_assoc, Z.lxor_nilpotent, Z.lxor_0_r by lia.
Qed.

Lemma main_logical events c name op a b m1 m2 : In (name, op) [(lit "and", op_and); (lit "or", op_or); (lit "xor", op_xor)] ->
  parse_mac a = inl m1 -> parse_mac b = inl m2 -> main events c [name; a; b] = Some (print_mac (zip_with op m1 m2), EXIT_SUCCESS).
Proof.
  intros H E1 E2. assert (maccalc_do_logical op [a; b] = (print_mac (zip_with op m1 m2), 0)) as E by (unfold maccalc_do_logical; now rewrite E1, E2).
  destruct H as [[= <- <-] | [[= <- <-] | [[= <- <-] | []]]].
  - change (main events c [lit "and"; a; b]) with (let '(out, r) := maccalc_do_logical op_and [a; b] in Some (out, if r =? 0 then EXIT_SUCCESS else EXIT_FAILURE)). now rewrite E.
  - change (main events c [lit "or"; a; b]) with (let '(out, r) := maccalc_do_logical op_or [a; b] in Some (out, if r =? 0 then EXIT_SUCCESS else EXIT_FAILURE)). now rewrite E.
  - change (main events c [lit "xor"; a; b]) with (let '(out, r) := maccalc_do_logical op_xor [a; b] in Some (out, if r =? 0 then EXIT_SUCCESS else EXIT_FAILURE)). now rewrite E.
Qed.

(** ** Theorems *)

(** [maccalc add]: the three leading bytes stay, the three others are taken as a number to which the second argument is
    added modulo [2 ^ 24]; nothing but the line with the address is printed. *)
Theorem maccalc_add events c pre low rest a : List.length pre = 3%nat -> List.length low = 3%nat -> bytes_ok pre -> bytes_ok low ->
  main events c [lit "add"; print_bytes (pre ++ low) ++ rest; a] = Some (print_mac (pre ++ be_split 3 (be_combine low + atol a)), EXIT_SUCCESS).
Proof.
  intros Lp Ll Hp Hl. unfold main. rewrite bool_decide_eq_true_2 by reflexivity. rewrite do_add_spec by assumption. reflexivity.
Qed.

Lemma maccalc_add_witness :
  main [] 0 [lit "add"; print_bytes ([0; 37; 156] ++ [255; 255; 254]); lit "3"] = Some (lit "00:25:9c:00:00:01" ++ [10], EXIT_SUCCESS).
Proof.
  rewrite <- (app_nil_r (print_bytes _)).
  exact (maccalc_add [] 0 [0; 37; 156] [255; 255; 254] [] (lit "3") eq_refl eq_refl ltac:(by_compute) ltac:(by_compute)).
Defined.

(** Adding a number and then its opposite gives the address back. *)
Theorem maccalc_add_undone events c mac a b : List.length mac = MAC_ADDRESS_LEN -> bytes_ok mac -> atol a + atol b = 0 ->
  exists mac', main events c [lit "add"; print_bytes mac; a] = Some (print_mac mac', EXIT_SUCCESS) /\ bytes_ok mac' /\
    main events c [lit "add"; print_mac mac'; b] = Some (print_mac mac, EXIT_SUCCESS).
Proof.
  intros Hl Hb Hab. destruct (split_mac mac Hl) as (pre & low & -> & Lp & Ll). apply Forall_app in Hb as [Hp Hlo].
  set (n := be_combine low + atol a). exists (pre ++ be_split 3 n). unfold main.
  rewrite !bool_decide_eq_true_2 by reflexivity.
  pose proof (do_add_spec pre low [] a Lp Ll Hp Hlo) as E1. rewrite app_nil_r in E1. rewrite E1. split; [reflexivity |].
  split; [apply Forall_app; split; [exact Hp | apply be_split_bytes] |].
  unfold print_mac at 1. rewrite do_add_spec; [| exact Lp | apply length_be_split | exact Hp | apply be_split_bytes].
  cbn [mbind option_bind]. change (0 =? 0) with true. cbv iota. do 4 f_equal. rewrite be_combine_split, be_split_mod.
  rewrite Z.add_mod_idemp_l by lia. replace (n + atol b) with (be_combine low) by lia.
  rewrite <- be_split_mod, <- Ll. now apply be_split_combine.
Qed.

Lemma maccalc_add_undone_witness : exists mac', main [] 0 [lit "add"; print_bytes [0; 37; 156; 255; 255; 254]; lit "1000"] = Some (print_mac mac', EXIT_SUCCESS) /\
  bytes_ok mac' /\ main [] 0 [lit "add"; print_mac mac'; lit "-1000"] = Some (print_mac [0; 37; 156; 255; 255; 254], EXIT_SUCCESS).
Proof. apply (maccalc_add_undone [] 0 [0; 37; 156; 255; 255; 254] (lit "1000") (lit "-1000")); [reflexivity | by_compute | reflexivity]. Defined.

(** The masks: [and], [or] and [xor] of two addresses work byte by byte, and [xor] with the same mask twice gives
    the address back. *)
Theorem maccalc_xor_undone events c mac mask : List.length mac = MAC_ADDRESS_LEN -> List.length mask = MAC_ADDRESS_LEN -> bytes_ok mac -> bytes_ok mask ->
  exists mac', main events c [lit "xor"; print_bytes mac; print_bytes mask] = Some (print_mac mac', EXIT_SUCCESS) /\
    main events c [lit "xor"; print_mac mac'; print_bytes mask] = Some (print_mac mac, EXIT_SUCCESS) /\
    main events c [lit "and"; print_bytes mac; print_bytes mask] = Some (print_mac (zip_with Z.land mac mask), EXIT_SUCCESS) /\
    main events c [lit "or"; print_bytes mac; print_bytes mask] = Some (print_mac (zip_with Z.lor mac mask), EXIT_SUCCESS).
Proof.
  intros Hl Hm Hb Hbm. set (mac' := zip_with Z.lxor mac mask).
  assert (List.length mac' = MAC_ADDRESS_LEN) as Hl' by (unfold mac'; rewrite length_zip_with; lia).
  assert (bytes_ok mac') as Hb'.
  { now apply zip_lxor_ok. }
  exists mac'. pose proof (parse_print mac [] Hl Hb) as P. pose proof (parse_print mask [] Hm Hbm) as Pm. rewrite app_nil_r in P, Pm.
  pose proof (parse_print mac' [10] Hl' Hb') as P'.
  split; [apply (main_logical events c _ op_xor); cbn; auto |]. split; [| split; [apply (main_logical events c _ op_and) | apply (main_logical events c _ op_or)]; cbn; auto].
  rewrite <- (zip_lxor_twice mac mask) by lia. apply (main_logical events c _ op_xor); cbn; auto.
Qed.

Lemma maccalc_xor_undone_witness : exists mac',
  main [] 0 [lit "xor"; print_bytes [0; 37; 156; 255; 255; 254]; print_bytes [2; 0; 0; 0; 0; 255]] = Some (print_mac mac', EXIT_SUCCESS) /\
  main [] 0 [lit "xor"; print_mac mac'; print_bytes [2; 0; 0; 0; 0; 255]] = Some (print_mac [0; 37; 156; 255; 255; 254], EXIT_SUCCESS) /\
  main [] 0 [lit "and"; print_bytes [0; 37; 156; 255; 255; 254]; print_bytes [2; 0; 0; 0; 0; 255]] = Some (print_mac [0; 0; 0; 0; 0; 254], EXIT_SUCCESS) /\
  main [] 0 [lit "or"; print_bytes [0; 37; 156; 255; 255; 254]; print_bytes [2; 0; 0; 0; 0; 255]] = Some (print_mac [2; 37; 156; 255; 255; 255], EXIT_SUCCESS).
Proof. apply (maccalc_xor_undone [] 0 [0; 37; 156; 255; 255; 254] [2; 0; 0; 0; 0; 255]); [reflexivity | reflexivity | by_compute | by_compute]. Defined.

(** The binary form: what [mac2bin] writes, [bin2mac] reads back, however the bytes are cut into reads and interrupted. *)
Theorem maccalc_binary_round_trip events mac rest : List.length mac = MAC_ADDRESS_LEN -> bytes_ok mac ->
  exists bin, main events 6 [lit "mac2bin"; print_bytes mac ++ rest] = Some (bin, EXIT_SUCCESS) /\
    forall input more, stream input = bin ++ more -> main input 6 [lit "bin2mac"] = Some (print_mac mac, EXIT_SUCCESS).
Proof.
  intros Hl Hb. exists mac. split.
  - unfold main, maccalc_do_mac2bin. cbv beta iota zeta. rewrite parse_print by assumption. rewrite take_ge by (rewrite Hl; unfold MAC_ADDRESS_LEN; lia). reflexivity.
  - intros input more Hs. unfold main, maccalc_do_bin2mac. rewrite read_safe_stream by (rewrite Hs, length_app; lia).
    rewrite Hs, take_app_length' by (symmetry; exact Hl). reflexivity.
Qed.

Lemma maccalc_binary_round_trip_witness : exists bin,
  main [] 6 [lit "mac2bin"; print_bytes [0; 37; 156; 255; 255; 254] ++ []] = Some (bin, EXIT_SUCCESS) /\
  forall input more, stream input = bin ++ more -> main input 6 [lit "bin2mac"] = Some (print_mac [0; 37; 156; 255; 255; 254], EXIT_SUCCESS).
Proof. apply (maccalc_binary_round_trip [] [0; 37; 156; 255; 255; 254] []); [reflexivity | by_compute]. Defined.

(** What follows an address is not looked at: here its last byte has a digit too many. *)
Example trailing_text_accepted : parse_mac (lit "00:25:9c:ff:ff:0ab") = inl [0; 37; 156; 255; 255; 10].
Proof. reflexivity. Qed.

(** A sign is accepted in an address. *)
Example signed_byte_accepted : parse_mac (lit "00:25:9c:ff:ff:-1") = inl [0; 37; 156; 255; 255; 255].
Proof. reflexivity. Qed.

(** A short address is refused, without output. *)
Example short_address_refused : main [] 0 [lit "add"; lit "00:25:9c:ff:ff"; lit "1"] = Some ([], EXIT_FAILURE).
Proof. reflexivity. Qed.
