(* ===== verification/Mjson.v ===== *)
(** * Mjson: the configuration tree of tinatest

    Models [allwinner/testtools/tinatest/src/library/mjson/mjson.c] and [mjson.h]: the JSON
    document that describes the test cases, the values it holds, paths into it, the walk over
    the members of an object ([mjson_foreach]) and the printed tree.  The document itself is
    built by json-c, which is not part of the repository: [JsonC] lists the functions of it
    that the code calls and [JsonLaws] what their documentation says of a parsed document.
    A [json_object *] is an option, [None] for NULL; json-c stores a JSON null as NULL.
    Strings are lists of bytes without NUL.  [None] as the result of an operation is
    behaviour the C standard leaves undefined. *)
From Stdlib Require Import String.
From S2P Require Import Prelude CString.

#[local] Open Scope string_scope.
#[local] Open Scope list_scope.
#[local] Open Scope Z_scope.

(** ** Data *)

(** [enum mjson_type], in the order of json-c's [enum json_type]. *)
Inductive mjson_type :=
  | mjson_type_null | mjson_type_boolean | mjson_type_double | mjson_type_int
  | mjson_type_object | mjson_type_array | mjson_type_string | mjson_type_error.

#[global] Instance mjson_type_eq_dec : EqDecision mjson_type.
Proof. solve_decision. Defined.

(** The tag and the member of [union mdata] that goes with it. *)
Inductive mdata :=
  | m_null | m_boolean (b : bool) | m_double (bits : Z) | m_int (n : Z)
  | m_object | m_array (l : list (list Z)) | m_string (s : list Z) | m_error.

Definition type_of (v : mdata) : mjson_type :=
  match v with
  | m_null => mjson_type_null
  | m_boolean _ => mjson_type_boolean
  | m_double _ => mjson_type_double
  | m_int _ => mjson_type_int
  | m_object => mjson_type_object
  | m_array _ => mjson_type_array
  | m_string _ => mjson_type_string
  | m_error => mjson_type_error
  end.

Definition ARRAY_MAX : nat := 30.

(** What the code calls of json-c: the type of an object that is not NULL, its value as each
    type, the elements of an array, the members of an object in the order of its linked hash
    table, the search for a member (TRUE with the value or FALSE), "%lf" of a double. *)
Class JsonC (json : Type) := {
  json_object_get_type : json -> mjson_type;
  json_object_get_boolean : json -> bool;
  json_object_get_double : json -> Z;
  json_object_get_int : json -> Z;
  json_object_get_string : json -> list Z;
  json_object_elements : json -> list (option json);
  json_object_members : json -> list (list Z * option json);
  json_object_object_get_ex : json -> list Z -> option (option json);
  print_lf : Z -> list Z;
}.

(** The value stored under a key. *)
Fixpoint assoc {A} (k : list Z) (l : list (list Z * A)) : option A :=
  match l with
  | [] => None
  | (k', v) :: l => if bool_decide (k = k') then Some v else assoc k l
  end.

(** A parsed document: the keys of an object are distinct, a search finds the member with
    the key, and only an object has members. *)
Class JsonLaws (json : Type) `{JsonC json} := {
  members_distinct (j : json) : List.NoDup (map fst (json_object_members j));
  get_ex_assoc (j : json) k : json_object_object_get_ex j k = assoc k (json_object_members j);
  members_of_object (j : json) : json_object_get_type j <> mjson_type_object -> json_object_members j = [];
}.

Section Mjson.
Context {json : Type} {JC : JsonC json}.

(** [json_object_get_type] of a pointer: NULL stands for null. *)
Definition get_type (o : option json) : mjson_type :=
  match o with Some j => json_object_get_type j | None => mjson_type_null end.

(** [mjson_load(fpath)]: the bytes of the file, if it can be read, and json-c's parser; the
    result is [JSON_ROOT] after a return of 0. *)
Definition mjson_load (json_tokener_parse : list Z -> option json) (file : option (list Z)) : option (option json) :=
  p ← file;
  if bool_decide (take 3 p = [34; 47; 34]) then
    obj ← json_tokener_parse ([123] ++ p ++ [125]);
    json_object_object_get_ex obj [47]
  else None.

(** ** Values *)

(** The loop of [mjson_get_array_from_obj] from the index [cnt]; [Some None] is the error
    return.  [m_array] has room for [ARRAY_MAX] strings. *)
Fixpoint array_loop (cnt : nat) (acc : list (list Z)) (l : list (option json)) : option (option (list (list Z))) :=
  match l with
  | [] => Some (Some acc)
  | Some objelem :: l =>
      if bool_decide (json_object_get_type objelem = mjson_type_string) then
        if (cnt <? ARRAY_MAX)%nat then array_loop (S cnt) (acc ++ [json_object_get_string objelem]) l
        else None
      else Some None
  | None :: _ => Some None
  end.

Definition mjson_get_array_from_obj (obj : json) : option (option (list (list Z))) :=
  array_loop 0 [] (json_object_elements obj).

(** [mjson_get_value_from_obj(obj, val)]: [val] before and after; [None] inside is memory
    nobody has written. *)
Definition mjson_get_value_from_obj (obj : option json) (val : option mdata) : option (option mdata) :=
  match obj with
  | None => Some val
  | Some o =>
      match json_object_get_type o with
      | mjson_type_null => Some (Some m_null)
      | mjson_type_boolean => Some (Some (m_boolean (json_object_get_boolean o)))
      | mjson_type_double => Some (Some (m_double (json_object_get_double o)))
      | mjson_type_int => Some (Some (m_int (json_object_get_int o)))
      | mjson_type_array =>
          a ← mjson_get_array_from_obj o;
          Some (Some match a with Some l => m_array l | None => m_error end)
      | mjson_type_string => Some (Some (m_string (json_object_get_string o)))
      | mjson_type_object => Some (Some m_object)
      | mjson_type_error => Some (Some m_error)
      end
  end.

(** ** Paths *)

(** [strchr(s, '/')]: the bytes before the slash, and the rest from the slash on. *)
Fixpoint cut_slash (s : list Z) : list Z * option (list Z) :=
  match s with
  | [] => ([], None)
  | c :: s' =>
      if c =? 47 then ([], Some s)
      else let '(a, r) := cut_slash s' in (c :: a, r)
  end.

(** [mjson_fetch_key]; the path gets shorter with every call: its length is enough fuel. *)
Fixpoint fetch_key_loop (fuel : nat) (keypath : list Z) (obj : option json) : option json :=
  match fuel with
  | O => None
  | S fuel =>
      let pre := match keypath with c :: p => if c =? 47 then p else keypath | [] => [] end in
      let '(a, next) := cut_slash pre in
      let key := take (if (Z.to_nat 1023 <? length a)%nat then Z.to_nat 1023 else length a) pre in
      match o ← obj; json_object_object_get_ex o key with
      | Some val => match next with Some next => fetch_key_loop fuel next val | None => val end
      | None => None
      end
  end.

Definition mjson_fetch_key (keypath : list Z) (obj : option json) : option json :=
  fetch_key_loop (S (length keypath)) keypath obj.

(** The document, [JSON_ROOT]; [mjson_load] has set it. *)
Variable JSON_ROOT : json.

(** [mjson_fetch(keypath)]: the members [obj] and [val] of the result. *)
Definition fetch_obj (keypath : list Z) : option json :=
  if bool_decide (keypath = [47]) then Some JSON_ROOT else mjson_fetch_key keypath (Some JSON_ROOT).

Definition mjson_fetch (keypath : list Z) : option mdata :=
  default m_error <$> mjson_get_value_from_obj (fetch_obj keypath) (Some m_error).

Definition mjson_fetch_int (keypath : list Z) : option Z :=
  v ← mjson_fetch keypath; Some (match v with m_int n => n | _ => -1 end).

(** [FALSE] is 0, [TRUE] is 1, and -1 when there is no boolean. *)
Definition mjson_fetch_boolean (keypath : list Z) : option Z :=
  v ← mjson_fetch keypath; Some (match v with m_boolean b => Z.b2z b | _ => -1 end).

Definition mjson_fetch_string (keypath : list Z) : option (option (list Z)) :=
  v ← mjson_fetch keypath; Some (match v with m_string s => Some s | _ => None end).

Definition mjson_fetch_array (keypath : list Z) (max : nat) : option (list (list Z)) :=
  v ← mjson_fetch keypath; Some (match v with m_array l => take max l | _ => [] end).

Definition mjson_get_type (keypath : list Z) : mjson_type :=
  match mjson_fetch_key keypath (Some JSON_ROOT) with
  | None => mjson_type_error
  | Some o => json_object_get_type o
  end.

(** [mjson_foreach(keypath, key, val, mtype)]: the keys with their values.  One
    [struct mjson_value] serves all of them, and nothing has written it before the first.
    [json_object_get_object] is NULL for what is not an object, and its head is read. *)
Fixpoint foreach_loop (entry : option mdata) (l : list (list Z * option json)) : option (list (list Z * option mdata)) :=
  match l with
  | [] => Some []
  | (k, v) :: l =>
      entry ← mjson_get_value_from_obj v entry;
      rest ← foreach_loop entry l;
      Some ((k, entry) :: rest)
  end.

Definition mjson_foreach (keypath : list Z) : option (list (list Z * option mdata)) :=
  match fetch_obj keypath with
  | None => Some []
  | Some o =>
      if bool_decide (json_object_get_type o = mjson_type_object) then foreach_loop None (json_object_members o)
      else None
  end.

(** ** The printed tree *)

(** [mjson_draw_tree_do]: a line. *)
Definition mjson_draw_tree_do (str : list Z) (depth : Z) : list Z :=
  mjoin (replicate (Z.to_nat depth) (lit "|   ")) ++ lit "|-- " ++ str ++ [10].

Definition BUF : nat := 100.

(** [snprintf(buf, 100, ...)]. *)
Definition buf_print (text : list Z) : list Z := take (BUF - 1) text.

(** [snprintf(p, 100 - strlen(buf), ...)] and [p += ...]: [buf] is the text in the buffer, [off]
    is [p - buf]. *)
Definition append_print (text : list Z) (st : list Z * nat) : option (list Z * nat) :=
  let '(buf, off) := st in
  if (off <? BUF)%nat then
    Some (take off buf ++ take (BUF - length buf - 1) text, (off + length text)%nat)
  else None.

Definition element_text (o : option json) : list Z :=
  match get_type o, o with
  | mjson_type_string, Some j => [34] ++ json_object_get_string j ++ [34]
  | _, _ => lit "Invalid"
  end.

Fixpoint print_elements (idx : nat) (l : list (option json)) (st : list Z * nat) : option (list Z * nat) :=
  match l with
  | [] => Some st
  | o :: l =>
      st ← append_print (match idx with O => [] | _ => lit "," end ++ element_text o) st;
      print_elements (S idx) l st
  end.

(** The line of an array. *)
Definition array_text (key : list Z) (l : list (option json)) : option (list Z) :=
  let buf := buf_print (key ++ lit " = [") in
  st ← print_elements 0 l (buf, length buf);
  st ← append_print (lit "]") st;
  Some (fst st).

(** The line of a member that is neither an array nor an object. *)
Definition member_text (key : list Z) (value : option json) : option (list Z) :=
  match get_type value, value with
  | mjson_type_int, Some j => Some (key ++ lit " = " ++ print_d (json_object_get_int j))
  | mjson_type_null, _ => Some (key ++ lit " = NULL")
  | mjson_type_boolean, Some j => Some (key ++ lit " = " ++ (if json_object_get_boolean j then lit "TRUE" else lit "FALSE"))
  | mjson_type_string, Some j => Some (key ++ lit " = " ++ [34] ++ json_object_get_string j ++ [34])
  | mjson_type_double, Some j => Some (key ++ lit " = " ++ print_lf (json_object_get_double j))
  | _, _ => None
  end.

(** The loop over the members, given the recursive call on a path; [depth] is the static
    variable. *)
Fixpoint draw_members (draw : list Z -> Z -> option (list Z * Z)) (keypath : list Z)
    (l : list (list Z * option json)) (depth : Z) : option (list Z * Z) :=
  match l with
  | [] => Some ([], depth)
  | (key, value) :: l =>
      '(out, depth) ←
        match get_type value with
        | mjson_type_object =>
            let sub := if bool_decide (keypath = [47]) then keypath ++ key else keypath ++ [47] ++ key in
            '(out, depth') ← draw (buf_print sub) (depth + 1);
            Some (mjson_draw_tree_do (buf_print key) depth ++ out, depth')
        | mjson_type_array =>
            text ← array_text key (match value with Some j => json_object_elements j | None => [] end);
            Some (mjson_draw_tree_do text depth, depth)
        | _ =>
            Some (match member_text key value with
                  | Some text => mjson_draw_tree_do (buf_print text) depth
                  | None => []
                  end, depth)
        end;
      '(rest, depth) ← draw_members draw keypath l depth;
      Some (out ++ rest, depth)
  end.

(** [mjson_draw_tree]: what it prints on the standard output.  With a member named by the
    empty string in the root the calls do not end: [fuel] bounds them. *)
Fixpoint mjson_draw_tree (fuel : nat) (keypath : list Z) (depth : Z) : option (list Z * Z) :=
  match fuel with
  | O => None
  | S fuel =>
      v ← mjson_fetch keypath;
      if bool_decide (type_of v = mjson_type_error) then Some ([], depth)
      else
        let '(head, depth) := if depth =? -1 then (lit ". (" ++ keypath ++ lit ")" ++ [10], 0) else ([], depth) in
        match fetch_obj keypath with
        | Some o =>
            if bool_decide (json_object_get_type o = mjson_type_object) then
              '(out, depth) ← draw_members (mjson_draw_tree fuel) keypath (json_object_members o) depth;
              Some (head ++ out, depth - 1)
            else None
        | None => None
        end
  end.

End Mjson.

(** ** A document as a tree

    The least instance of the interface: the values themselves.  A key that comes again
    replaces the value it had. *)
Inductive tree :=
  | TBool (b : bool) | TDouble (bits : Z) | TInt (n : Z) | TString (s : list Z)
  | TArray (l : list (option tree)) | TObject (l : list (list Z * option tree)).

Fixpoint put {A} (k : list Z) (v : A) (l : list (list Z * A)) : list (list Z * A) :=
  match l with
  | [] => [(k, v)]
  | (k', v') :: l => if bool_decide (k = k') then (k', v) :: l else (k', v') :: put k v l
  end.

Definition members_of (t : tree) : list (list Z * option tree) :=
  match t with TObject l => foldl (fun acc '(k, v) => put k v acc) [] l | _ => [] end.

#[global] Instance tree_json : JsonC tree := {
  json_object_get_type t :=
    match t with
    | TBool _ => mjson_type_boolean | TDouble _ => mjson_type_double | TInt _ => mjson_type_int
    | TString _ => mjson_type_string | TArray _ => mjson_type_array | TObject _ => mjson_type_object
    end;
  json_object_get_boolean t := match t with TBool b => b | _ => false end;
  json_object_get_double t := match t with TDouble d => d | _ => 0 end;
  json_object_get_int t := match t with TInt n => n | _ => 0 end;
  json_object_get_string t := match t with TString s => s | _ => [] end;
  json_object_elements t := match t with TArray l => l | _ => [] end;
  json_object_members := members_of;
  json_object_object_get_ex t k := assoc k (members_of t);
  print_lf _ := lit "0.000000";
}.

Lemma put_keys {A} k (v : A) l k' : In k' (map fst (put k v l)) <-> k' = k \/ In k' (map fst l).
Proof.
  induction l as [| [k1 v1] l IH]; cbn; [naive_solver |].
  case_bool_decide; subst; cbn; [| rewrite IH]; naive_solver.
Qed.

Lemma put_distinct {A} k (v : A) l : List.NoDup (map fst l) -> List.NoDup (map fst (put k v l)).
Proof.
  induction l as [| [k1 v1] l IH]; cbn; intros H; inversion_clear H; [repeat constructor; easy |].
  case_bool_decide; cbn; constructor; auto. rewrite put_keys. naive_solver.
Qed.

Lemma puts_distinct {A} (l acc : list (list Z * A)) :
  List.NoDup (map fst acc) -> List.NoDup (map fst (foldl (fun acc '(k, v) => put k v acc) acc l)).
Proof. revert acc. induction l as [| [k v] l IH]; intros acc H; [exact H |]. cbn. now apply IH, put_distinct. Qed.

#[global] Instance tree_laws : JsonLaws tree.
Proof.
  split.
  - intros [| | | | | l]; cbn; try constructor. apply puts_distinct. constructor.
  - reflexivity.
  - intros [| | | | | l]; cbn; easy.
Qed.

(** ** Paths *)

(** The value a list of keys leads to. *)
Fixpoint at_keys {json} `{JsonC json} (o : option json) (keys : list (list Z)) : option json :=
  match keys with
  | [] => o
  | k :: keys => match o with Some j => match assoc k (json_object_members j) with Some v => at_keys v keys | None => None end | None => None end
  end.

(** The path of a list of keys. *)
Definition path_of (keys : list (list Z)) : list Z := mjoin (map (cons 47) keys).

(** A key that a path can hold. *)
Definition key_ok (k : list Z) : Prop := Forall (fun c => c <> 47) k /\ (length k <= Z.to_nat 1023)%nat.

#[global] Instance key_ok_dec k : Decision (key_ok k).
Proof. unfold key_ok. apply _. Defined.

Lemma cut_slash_key k rest : Forall (fun c => c <> 47) k -> cut_slash (k ++ 47 :: rest) = (k, Some (47 :: rest)).
Proof.
  induction 1 as [| c k Hc Hk IH]; [reflexivity |]. cbn [app cut_slash].
  destruct (Z.eqb_spec c 47); [contradiction |]. now rewrite IH.
Qed.

Lemma cut_slash_last k : Forall (fun c => c <> 47) k -> cut_slash k = (k, None).
Proof.
  induction 1 as [| c k Hc Hk IH]; [reflexivity |]. cbn [cut_slash].
  destruct (Z.eqb_spec c 47); [contradiction |]. now rewrite IH.
Qed.

Lemma path_of_cons k keys : path_of (k :: keys) = 47 :: k ++ path_of keys.
Proof. reflexivity. Qed.

Lemma path_of_snoc keys k : path_of (keys ++ [k]) = path_of keys ++ 47 :: k.
Proof. unfold path_of. rewrite map_app, join_app. cbn. now rewrite app_nil_r. Qed.

Lemma length_path_of_cons k keys : length (path_of (k :: keys)) = S (length k + length (path_of keys)).
Proof. rewrite path_of_cons. cbn. now rewrite length_app. Qed.

Section Walk.
Context {json : Type} {JC : JsonC json} {JL : JsonLaws json}.

Lemma fetch_key_path fuel keys o :
  keys <> [] -> Forall key_ok keys -> (length (path_of keys) < fuel)%nat ->
  fetch_key_loop fuel (path_of keys) o = at_keys o keys.
Proof.
  revert keys o. induction fuel as [| fuel IH]; intros keys o Hne Hk Hf; [lia |].
  destruct keys as [| k keys]; [contradiction |]. inversion_clear Hk as [| ? ? [Hs Hl] Hks].
  rewrite length_path_of_cons in Hf. rewrite path_of_cons. cbn [fetch_key_loop at_keys]. rewrite Z.eqb_refl.
  assert (take (if (Z.to_nat 1023 <? length k)%nat then Z.to_nat 1023 else length k) (k ++ path_of keys) = k) as Et.
  { destruct (Nat.ltb_spec (Z.to_nat 1023) (length k)); [lia |]. apply take_app_length. }
  destruct keys as [| k2 keys].
  - cbn [path_of map mjoin list_join] in *. rewrite app_nil_r in *. rewrite cut_slash_last by assumption.
    rewrite Et. destruct o as [j |]; [| reflexivity]. cbn. rewrite get_ex_assoc.
    now destruct (assoc k (json_object_members j)).
  - rewrite (path_of_cons k2 keys) in *. rewrite cut_slash_key by assumption. rewrite Et.
    destruct o as [j |]; [| reflexivity]. cbn [mbind option_bind]. rewrite get_ex_assoc.
    destruct (assoc k (json_object_members j)) as [v |]; [| reflexivity].
    rewrite <- path_of_cons. apply IH; [easy | assumption |]. rewrite path_of_cons. lia.
Qed.

Lemma fetch_path root keys :
  keys <> [[]] -> Forall key_ok keys -> keys <> [] -> fetch_obj root (path_of keys) = at_keys (Some root) keys.
Proof.
  intros Hr Hk Hne. unfold fetch_obj. rewrite bool_decide_eq_false_2.
  - apply fetch_key_path; [assumption | assumption | lia].
  - destruct keys as [| k keys]; [easy |]. rewrite path_of_cons. intros [= E].
    apply app_nil in E as [-> E]. destruct keys as [| k2 keys]; [easy |]. now rewrite path_of_cons in E.
Qed.

End Walk.
