(* ===== verification/TaskConf.v ===== *)
(** * TaskConf: the settings and the task list of tinatest

    Models the part of [allwinner/testtools/tinatest/src/core/task.c] that runs before the
    first test: the defaults and [/sys] ([task_init_sysenv]), the settings of a test case
    ([task_load_local_env]), the search for enabled test cases ([task_add]) and the table of
    [core/shmem.c].  [core/tinatest.c] hands it the paths of the command line.  [alloc] says
    for which test case there is memory.  [None] is behaviour the C standard leaves undefined. *)
From Stdlib Require Import String.
From S2P Require Import Prelude CString Mjson.

#[local] Open Scope string_scope.
#[local] Open Scope list_scope.
#[local] Open Scope Z_scope.

(** ** Settings *)

Record global_env := GlobalEnv {
  run_cnt_up_to : Z;
  tinatest_run_time_sec : Z;
  collectd : bool;
  outlog : bool;
}.

Record local_env := LocalEnv {
  date : bool;
  resource : bool;
  real_time_log : bool;
  run_times : Z;
  run_alone : bool;
  run_parallel : bool;
  may_reboot : bool;
  testcase_run_once_time_sec : Z;
  testcase_run_time_sec : Z;
  timeout_as_failed : bool;
  exit_once_failed : bool;
  exit_tinatest_when_fail : bool;
}.

Definition with_run_cnt_up_to n g := GlobalEnv n (tinatest_run_time_sec g) (collectd g) (outlog g).
Definition with_tinatest_run_time n g := GlobalEnv (run_cnt_up_to g) n (collectd g) (outlog g).
Definition with_date b e := LocalEnv b (resource e) (real_time_log e) (run_times e) (run_alone e) (run_parallel e) (may_reboot e) (testcase_run_once_time_sec e) (testcase_run_time_sec e) (timeout_as_failed e) (exit_once_failed e) (exit_tinatest_when_fail e).
Definition with_resource b e := LocalEnv (date e) b (real_time_log e) (run_times e) (run_alone e) (run_parallel e) (may_reboot e) (testcase_run_once_time_sec e) (testcase_run_time_sec e) (timeout_as_failed e) (exit_once_failed e) (exit_tinatest_when_fail e).
Definition with_real_time_log b e := LocalEnv (date e) (resource e) b (run_times e) (run_alone e) (run_parallel e) (may_reboot e) (testcase_run_once_time_sec e) (testcase_run_time_sec e) (timeout_as_failed e) (exit_once_failed e) (exit_tinatest_when_fail e).
Definition with_run_times n e := LocalEnv (date e) (resource e) (real_time_log e) n (run_alone e) (run_parallel e) (may_reboot e) (testcase_run_once_time_sec e) (testcase_run_time_sec e) (timeout_as_failed e) (exit_once_failed e) (exit_tinatest_when_fail e).
Definition with_run_alone b e := LocalEnv (date e) (resource e) (real_time_log e) (run_times e) b (run_parallel e) (may_reboot e) (testcase_run_once_time_sec e) (testcase_run_time_sec e) (timeout_as_failed e) (exit_once_failed e) (exit_tinatest_when_fail e).
Definition with_run_parallel b e := LocalEnv (date e) (resource e) (real_time_log e) (run_times e) (run_alone e) b (may_reboot e) (testcase_run_once_time_sec e) (testcase_run_time_sec e) (timeout_as_failed e) (exit_once_failed e) (exit_tinatest_when_fail e).
Definition with_may_reboot b e := LocalEnv (date e) (resource e) (real_time_log e) (run_times e) (run_alone e) (run_parallel e) b (testcase_run_once_time_sec e) (testcase_run_time_sec e) (timeout_as_failed e) (exit_once_failed e) (exit_tinatest_when_fail e).
Definition with_once_time n e := LocalEnv (date e) (resource e) (real_time_log e) (run_times e) (run_alone e) (run_parallel e) (may_reboot e) n (testcase_run_time_sec e) (timeout_as_failed e) (exit_once_failed e) (exit_tinatest_when_fail e).
Definition with_run_time n e := LocalEnv (date e) (resource e) (real_time_log e) (run_times e) (run_alone e) (run_parallel e) (may_reboot e) (testcase_run_once_time_sec e) n (timeout_as_failed e) (exit_once_failed e) (exit_tinatest_when_fail e).
Definition with_timeout_as_failed b e := LocalEnv (date e) (resource e) (real_time_log e) (run_times e) (run_alone e) (run_parallel e) (may_reboot e) (testcase_run_once_time_sec e) (testcase_run_time_sec e) b (exit_once_failed e) (exit_tinatest_when_fail e).
Definition with_exit_once_failed b e := LocalEnv (date e) (resource e) (real_time_log e) (run_times e) (run_alone e) (run_parallel e) (may_reboot e) (testcase_run_once_time_sec e) (testcase_run_time_sec e) (timeout_as_failed e) b (exit_tinatest_when_fail e).
Definition with_exit_tinatest b e := LocalEnv (date e) (resource e) (real_time_log e) (run_times e) (run_alone e) (run_parallel e) (may_reboot e) (testcase_run_once_time_sec e) (testcase_run_time_sec e) (timeout_as_failed e) (exit_once_failed e) b.

(** An [int] result: undefined when it does not fit. *)
Definition int (x : Z) : option Z := if (- 2 ^ 31 <=? x) && (x <? 2 ^ 31) then Some x else None.

(** [task_convert_time]: seconds, minutes, hours, days; [atoi] is undefined out of range. *)
Fixpoint convert_loop (index : nat) (sec : Z) (str_array : list (list Z)) : option Z :=
  match str_array with
  | [] => Some sec
  | s :: str_array =>
      let unit := match index with O => 1 | 1%nat => 60 | 2%nat => 60 * 60 | 3%nat => 24 * 60 * 60 | _ => 0 end in
      if unit =? 0 then convert_loop (S index) sec str_array
      else v ← int (atol s * unit); sec ← int (sec + v); convert_loop (S index) sec str_array
  end.

Definition task_convert_time (str_array : list (list Z)) : option Z :=
  sec ← convert_loop 0 0 str_array; Some (if 0 <? sec then sec else 0).

Definition is_key (key : list Z) (name : String.string) : bool := bool_decide (key = lit name).

(** A branch of the loaders: the type of the value is looked at once the key matches; the
    result is the environment and the return value. *)
Definition on_boolean {E} (val : option mdata) (set : bool -> E) (old : E) : option (E * Z) :=
  match val with None => None | Some (m_boolean b) => Some (set b, 1) | Some _ => Some (old, 0) end.
Definition on_int {E} (val : option mdata) (set : Z -> E) (old : E) : option (E * Z) :=
  match val with None => None | Some (m_int n) => Some (if 0 <? n then set n else old, 1) | Some _ => Some (old, 0) end.
Definition on_time {E} (val : option mdata) (set : Z -> E) (old : E) : option (E * Z) :=
  match val with
  | None => None
  | Some (m_array l) => n ← task_convert_time l; Some (set n, 1)
  | Some _ => Some (old, 0)
  end.

Definition task_load_global_env_do (genv : global_env) (key : list Z) (val : option mdata) : option (global_env * Z) :=
  if is_key key "run_cnt_up_to" then on_int val (fun n => with_run_cnt_up_to n genv) genv
  else if is_key key "tinatest_run_time" then on_time val (fun n => with_tinatest_run_time n genv) genv
  else Some (genv, 0).

Definition task_load_local_env_do (lenv : local_env) (key : list Z) (val : option mdata) : option (local_env * Z) :=
  if is_key key "date" then on_boolean val (fun b => with_date b lenv) lenv
  else if is_key key "resource" then on_boolean val (fun b => with_resource b lenv) lenv
  else if is_key key "real_time_log" then on_boolean val (fun b => with_real_time_log b lenv) lenv
  else if is_key key "run_times" then on_int val (fun n => with_run_times n lenv) lenv
  else if is_key key "run_alone" then on_boolean val (fun b => with_run_alone b lenv) lenv
  else if is_key key "may_reboot" then on_boolean val (fun b => with_may_reboot b lenv) lenv
  else if is_key key "run_parallel" then on_boolean val (fun b => with_run_parallel b lenv) lenv
  else if is_key key "testcase_run_once_time" then on_time val (fun n => with_once_time n lenv) lenv
  else if is_key key "testcase_run_time" then on_time val (fun n => with_run_time n lenv) lenv
  else if is_key key "timeout_as_failed" then on_boolean val (fun b => with_timeout_as_failed b lenv) lenv
  else if is_key key "exit_once_failed" then on_boolean val (fun b => with_exit_once_failed b lenv) lenv
  else if is_key key "exit_tinatest_when_failed" then
    on_boolean val (fun b => with_run_alone b (with_exit_tinatest b lenv)) lenv
  else Some (lenv, 0).

(** The loop of the two loaders. *)
Fixpoint load_all {E} (load : E -> list Z -> option mdata -> option (E * Z)) (env : E) (ret : Z)
    (l : list (list Z * option mdata)) : option (E * Z) :=
  match l with
  | [] => Some (env, ret)
  | (key, val) :: l => '(env, r) ← load env key val; load_all load env (ret + r) l
  end.

(** ** Shared memory *)

(** [used_num], [probe_list] and the bytes of the segment. *)
Record shmem := Shmem { used_num : nat; probe_list : list (list Z * nat); segment : Z }.

(** [shmem_init(_max_num)]: at least a page.  [sizeof(struct shmem_testcase)] is 5,
    [sizeof(struct shmem_tinatest)] is 1. *)
Definition shmem_init (max_num : Z) : option shmem :=
  if max_num <? 0 then None else Some (Shmem 0 [] (Z.max 4096 (max_num * 5 + 1))).

(** [shmem_probe]: the index into [shmem_testcase]. *)
Definition shmem_probe (keypath : list Z) (s : shmem) : nat * shmem :=
  match assoc keypath (probe_list s) with
  | Some i => (i, s)
  | None => (used_num s, Shmem (S (used_num s)) (probe_list s ++ [(keypath, used_num s)]) (segment s))
  end.

(** The bytes of an entry of the table lie inside the segment. *)
Definition in_segment (s : shmem) (i : nat) : bool := 1 + 5 * (Z.of_nat i + 1) <=? segment s.

(** ** Tasks *)

Inductive input_t := TASK_NO_INPUT | TASK_STDIN (array : list (list Z)) | TASK_FSTDIN (finput : list Z).

Record task := Task {
  keypath : list Z;
  command : list Z;
  env : local_env;
  logpath : option (list Z);
  input : input_t;
  shm : nat;
}.

Record state := State {
  TASK_LIST : list task;
  shared : shmem;
  reboot_mode : bool;
  reboot_keypath : list Z;
}.

Definition REBOOT_LOG : list Z := lit "/mnt/UDISK/tinatest.reboot.log".

(** [snprintf(buf, len, ...)]. *)
Definition bounded (len : nat) (text : list Z) : list Z := take (len - 1) text.

Section Tasks.
Context {json : Type} {JC : JsonC json}.
Variable root : json.
Variable alloc : list Z -> bool.

Definition task_load_global_env (genv : global_env) (path : list Z) : option (global_env * Z) :=
  l ← mjson_foreach root path; load_all task_load_global_env_do genv 0 l.

Definition task_load_local_env (lenv : local_env) (path : list Z) : option (local_env * Z) :=
  l ← mjson_foreach root path; load_all task_load_local_env_do lenv 0 l.

(** The two environments before [/sys] is read. *)
Definition default_global : global_env := GlobalEnv 10 (356 * 24 * 60 * 60) false false.
Definition default_local : local_env :=
  LocalEnv false false false 1 false false false (24 * 60 * 60) (24 * 60 * 60) false false false.

Definition task_init_sysenv : option (global_env * local_env) :=
  '(g, _) ← task_load_global_env default_global (lit "/sys/global/limit");
  '(l, _) ← task_load_local_env default_local (lit "/sys/local/limit");
  '(l, _) ← task_load_local_env l (lit "/sys/local/info");
  c ← mjson_fetch root (lit "/sys/global/info/collectd");
  o ← mjson_fetch root (lit "/sys/global/info/outlog");
  Some (GlobalEnv (run_cnt_up_to g) (tinatest_run_time_sec g)
          (bool_decide (type_of c = mjson_type_object)) (bool_decide (type_of o = mjson_type_object)), l).

(** The log file of a test case. *)
Definition task_logpath (path : list Z) (e : local_env) : option (list Z) :=
  if real_time_log e then None
  else if may_reboot e then Some REBOOT_LOG
  else Some (lit "/tmp/tt" ++ map (fun c => if c =? 47 then 45 else c) path ++ lit ".out").

(** Its input: the strings of "stdin", or else the file of "fstdin". *)
Definition task_input (path : list Z) : option input_t :=
  let len := (length path + 30)%nat in
  array ← mjson_fetch_array root (bounded len (path ++ lit "/" ++ lit "stdin")) ARRAY_MAX;
  match array with
  | _ :: _ => Some (TASK_STDIN array)
  | [] =>
      s ← mjson_fetch_string root (bounded len (path ++ lit "/" ++ lit "fstdin"));
      Some (match s with Some p => TASK_FSTDIN p | None => TASK_NO_INPUT end)
  end.

Variable l_env : local_env.

(** [task_add_do(keypath, command)]; without memory nothing is added. *)
Definition task_add_do (path cmd : list Z) (st : state) : option (state * Z) :=
  if alloc path then
    '(e, _) ← task_load_local_env l_env path;
    let e := if may_reboot e then with_run_alone true e else e in
    i ← task_input path;
    let '(n, sh) := shmem_probe path (shared st) in
    Some (State (TASK_LIST st ++ [Task path cmd e (task_logpath path e) i n]) sh (reboot_mode st) (reboot_keypath st), 0)
  else Some (st, -1).

(** The loop of [task_add] over the members of a node, given the recursive call. *)
Fixpoint add_members (add : list Z -> state -> option (state * Z)) (path : list Z) (len : nat)
    (l : list (list Z * option mdata)) (ret : Z) (st : state) : option (state * Z) :=
  match l with
  | [] => Some (st, ret)
  | (key, val) :: l =>
      v ← val;
      if bool_decide (type_of v = mjson_type_object) then
        let sub := if bool_decide (path = [47]) then lit "/" ++ key else path ++ lit "/" ++ key in
        '(st, r) ← add (bounded len sub) st;
        add_members add path len l (ret + r) st
      else add_members add path len l ret st
  end.

(** [task_add(keypath)]: the number of test cases added.  The calls go down the document but
    for a member of the root named by the empty string; [fuel] bounds their depth. *)
Fixpoint task_add (fuel : nat) (path : list Z) (st : state) : option (state * Z) :=
  match fuel with
  | O => None
  | S fuel =>
      if negb (match path with c :: _ => c =? 47 | [] => false end) then Some (st, 0)
      else
        v ← mjson_fetch root path;
        if bool_decide (type_of v = mjson_type_error) then Some (st, 0)
        else
          let len := (length path * 2 + 30)%nat in
          let entry name := bounded len (if bool_decide (path = [47]) then lit "/" ++ lit name else path ++ lit "/" ++ lit name) in
          enable ← mjson_fetch_boolean root (entry "enable");
          if enable =? 0 then Some (st, 0)
          else
            cmd ← mjson_fetch_string root (entry "command");
            match cmd with
            | Some cmd =>
                if existsb (fun t => bool_decide (keypath t = path)) (TASK_LIST st) then Some (st, 0)
                else if reboot_mode st && bool_decide (TASK_LIST st = []) && negb (bool_decide (reboot_keypath st = path)) then Some (st, 0)
                else
                  '(st, r) ← task_add_do path cmd st;
                  Some (st, if r =? 0 then 1 else 0)
            | None =>
                l ← mjson_foreach root path;
                add_members (task_add fuel) path len l 0 st
            end
  end.

(** The loop of [task_init] over the arguments: [buf] is [tt_argv], [off] is [p - tt_argv]. *)
Fixpoint init_args (fuel : nat) (argv : list (list Z)) (buf : list Z) (off arglen : nat) (cnt : Z) (st : state)
    : option (list Z * Z * state) :=
  match argv with
  | [] => Some (buf, cnt, st)
  | a :: argv =>
      let slen := if (arglen - 1 <? length a)%nat then (arglen - 1)%nat else length a in
      let buf := blit (blit buf off (strncpy a slen)) (off + slen) [32] in
      '(st, r) ← task_add fuel a st;
      init_args fuel argv buf (off + slen + 1) (arglen - (slen + 1)) (cnt + r) st
  end.

End Tasks.

(** [task_init(argc, argv)], after [mjson_load]: the state, [tt_argv], and [tasks_cnt]. *)
Definition task_init {json} `{JsonC json} (root : json) (alloc : list Z -> bool) (fuel : nat) (argv : list (list Z))
    : option (global_env * state * list Z * Z) :=
  '(g, l_env) ← task_init_sysenv root;
  sh ← shmem_init 0;
  let st := State [] sh false [] in
  match argv with
  | [] => '(st, n) ← task_add root alloc l_env fuel [47] st; Some (g, st, [], n)
  | _ =>
      let arglen := S (foldl (fun n a => (n + S (length a))%nat) O argv) in
      '(buf, n, st) ← init_args root alloc l_env fuel argv (replicate arglen 0) 0 arglen 0 st;
      tt ← cstring buf;
      Some (g, st, take (length tt - 1) tt, n)
  end.

(** The loop of [main] over an argument: a slash at its end goes.  Of an empty argument the
    byte before it is read. *)
Definition clean_arg (p : list Z) : option (list Z) :=
  match p with
  | [] => None
  | [_] => Some p
  | _ => Some (if List.last p 0 =? 47 then take (length p - 1) p else p)
  end.
