(* ===== verification/TaskConfRun.v ===== *)
(** * TaskConfRun: what the settings and the task list of tinatest promise

    The theorems on [TaskConf]: the state [task_init] leaves is one the scheduler can work
    with, and the walk over paths finds the test cases a walk over the document finds. *)
From Stdlib Require Import String.
From S2P Require Import Prelude CString Mjson TaskConf.

#[local] Open Scope string_scope.
#[local] Open Scope list_scope.
#[local] Open Scope Z_scope.

(** Takes a successful chain of calls apart. *)
Ltac chain H :=
  repeat match type of H with
  | (?x ≫= _) = Some _ =>
      let E := fresh "E" in destruct x eqn:E; cbn [mbind option_bind] in H; [| discriminate H]
  | context [let '(_, _) := ?p in _] => first [is_var p; destruct p | let E := fresh "E" in destruct p eqn:E]
  end.

(** ** The settings *)

Definition env_ok (e : local_env) : Prop :=
  0 < run_times e /\ 0 <= testcase_run_once_time_sec e /\ 0 <= testcase_run_time_sec e.
Definition genv_ok (g : global_env) : Prop := 0 < run_cnt_up_to g /\ 0 <= tinatest_run_time_sec g.

Lemma convert_time_nonneg l n : task_convert_time l = Some n -> 0 <= n.
Proof. unfold task_convert_time. intros H. chain H. injection H as <-. bool_cases; lia. Qed.

Lemma on_boolean_keeps {E} (P : E -> Prop) val set old e r :
  P old -> (forall b, P (set b)) -> on_boolean val set old = Some (e, r) -> P e.
Proof. intros Ho Hs. destruct val as [[] |]; cbn; intros [= <- <-]; auto. Qed.
Lemma on_int_keeps {E} (P : E -> Prop) val set old e r :
  P old -> (forall n, 0 < n -> P (set n)) -> on_int val set old = Some (e, r) -> P e.
Proof. intros Ho Hs. destruct val as [[] |]; cbn; intros [= <- <-]; auto. destruct (Z.ltb_spec 0 n); auto. Qed.
Lemma on_time_keeps {E} (P : E -> Prop) val set old e r :
  P old -> (forall n, 0 <= n -> P (set n)) -> on_time val set old = Some (e, r) -> P e.
Proof.
  intros Ho Hs. destruct val as [[] |]; cbn; try (intros [= <- <-]; auto).
  intros H. chain H. injection H as <- <-. eauto using convert_time_nonneg.
Qed.

(** One of the branches of a loader, or none of them. *)
Ltac load_branch P :=
  repeat match goal with |- context [if is_key ?k ?s then _ else _] => destruct (is_key k s) end;
  first [ refine (on_boolean_keeps P _ _ _ _ _ _ _) | refine (on_int_keeps P _ _ _ _ _ _ _)
        | refine (on_time_keeps P _ _ _ _ _ _ _) | intros [= <- <-] ].

Lemma local_do_ok e key val e' r : env_ok e -> task_load_local_env_do e key val = Some (e', r) -> env_ok e'.
Proof.
  intros He. unfold task_load_local_env_do. load_branch env_ok; unfold env_ok in *; cbn; intros; intuition lia.
Qed.

Lemma global_do_ok g key val g' r : genv_ok g -> task_load_global_env_do g key val = Some (g', r) -> genv_ok g'.
Proof.
  intros He. unfold task_load_global_env_do. load_branch genv_ok; unfold genv_ok in *; cbn; intros; intuition lia.
Qed.

Lemma load_all_keeps {E} (P : E -> Prop) load l :
  (forall e key val e' r, P e -> load e key val = Some (e', r) -> P e') ->
  forall e ret e' r, P e -> load_all load e ret l = Some (e', r) -> P e'.
Proof.
  intros Hl. induction l as [| [key val] l IH]; cbn; intros e ret e' r He H; [now injection H as <- _ |].
  chain H. eauto.
Qed.

(** ** The task list *)

Record task_ok (t : task) : Prop := {
  task_env_ok : env_ok (env t);
  reboots_alone : may_reboot (env t) = true -> run_alone (env t) = true;
}.

(** The table of shared memory gives every path an index of its own. *)
Definition shmem_ok (s : shmem) : Prop :=
  map snd (probe_list s) = seq 0 (used_num s) /\ List.NoDup (map fst (probe_list s)).

Record list_ok (st : state) : Prop := {
  tasks_ok : Forall task_ok (TASK_LIST st);
  keypaths_distinct : List.NoDup (map keypath (TASK_LIST st));
  table_ok : shmem_ok (shared st);
  tasks_probed : Forall (fun t => assoc (keypath t) (probe_list (shared st)) = Some (shm t)) (TASK_LIST st);
}.

Lemma assoc_in {A} k (l : list (list Z * A)) v : assoc k l = Some v -> In (k, v) l.
Proof.
  induction l as [| [k' v'] l IH]; cbn; [easy |]. case_bool_decide; subst; [intros [= ->]; auto | auto].
Qed.

Lemma assoc_none {A} k (l : list (list Z * A)) : assoc k l = None -> ~ In k (map fst l).
Proof.
  induction l as [| [k' v'] l IH]; cbn; [easy |]. case_bool_decide; subst; [easy | naive_solver].
Qed.

Lemma assoc_app {A} k (l l' : list (list Z * A)) v : assoc k l = Some v -> assoc k (l ++ l') = Some v.
Proof. induction l as [| [k' v'] l IH]; cbn; [easy |]. case_bool_decide; auto. Qed.

Lemma assoc_app_none {A} k (l l' : list (list Z * A)) : assoc k l = None -> assoc k (l ++ l') = assoc k l'.
Proof. induction l as [| [k' v'] l IH]; cbn; [easy |]. case_bool_decide; [easy | auto]. Qed.

Lemma assoc_member {A} k v (l : list (list Z * A)) : List.NoDup (map fst l) -> In (k, v) l -> assoc k l = Some v.
Proof.
  induction l as [| [k' v'] l IH]; cbn; [easy |]. intros Hn Hin. inversion_clear Hn as [| ? ? Hk Hn'].
  destruct Hin as [[= -> ->] | Hin]; [now rewrite bool_decide_eq_true_2 |].
  rewrite bool_decide_eq_false_2; [auto |]. intros ->. apply Hk. now apply (in_map fst) in Hin.
Qed.

Lemma nodup_snoc {A} (l : list A) x : List.NoDup l -> ~ In x l -> List.NoDup (l ++ [x]).
Proof.
  intros Hl Hx. apply NoDup_ListNoDup, list.NoDup_app. rewrite NoDup_ListNoDup.
  split_and!; [assumption | | apply list.NoDup_singleton]. intros y Hy ->%list_elem_of_singleton. now apply Hx, list_elem_of_In.
Qed.

Lemma probe_ok path s n s' :
  shmem_ok s -> shmem_probe path s = (n, s') ->
  shmem_ok s' /\ assoc path (probe_list s') = Some n /\
  (forall k i, assoc k (probe_list s) = Some i -> assoc k (probe_list s') = Some i).
Proof.
  unfold shmem_probe. intros [Hs Hd]. destruct (assoc path (probe_list s)) as [i |] eqn:E; intros [= <- <-].
  - split_and!; [now split | assumption | auto].
  - split_and!.
    + split; cbn [probe_list used_num].
      * now rewrite map_app, Hs, seq_S.
      * rewrite map_app. apply nodup_snoc; [assumption | now apply assoc_none].
    + cbn. rewrite assoc_app_none by assumption. cbn. now rewrite bool_decide_eq_true_2.
    + intros. now apply assoc_app.
Qed.

(** Distinct paths have distinct indices. *)
Lemma indices_distinct l s :
  shmem_ok s -> List.NoDup (map keypath l) ->
  Forall (fun t => assoc (keypath t) (probe_list s) = Some (shm t)) l -> List.NoDup (map shm l).
Proof.
  intros [Hs Hd] Hk Hp. induction Hp as [| t l Ht Hl IH]; cbn in *; inversion_clear Hk as [| ? ? Hin Hn]; constructor; [| auto].
  intros (t' & Et & Hin')%in_map_iff. apply Hin.
  replace (keypath t) with (keypath t'); [now apply in_map |].
  rewrite List.Forall_forall in Hl. pose proof (assoc_in _ _ _ (Hl _ Hin')) as H1.
  pose proof (assoc_in _ _ _ Ht) as H2. rewrite Et in H1.
  assert (NoDup (map snd (probe_list s))) as Hnd by (rewrite Hs; apply NoDup_ListNoDup, seq_NoDup).
  apply list_elem_of_In, list_elem_of_lookup in H1 as [i Hi]. apply list_elem_of_In, list_elem_of_lookup in H2 as [j Hj].
  assert (i = j) as -> by (apply (NoDup_lookup _ _ _ (shm t) Hnd); rewrite list_lookup_fmap; [now rewrite Hi | now rewrite Hj]).
  congruence.
Qed.

Section Add.
Context {json : Type} {JC : JsonC json}.
Variables (root : json) (alloc : list Z -> bool) (l_env : local_env).
Hypothesis l_env_ok : env_ok l_env.

(** What a call may do to the list. *)
Definition extends (st st' : state) (r : Z) : Prop :=
  list_ok st -> list_ok st' /\ r = Z.of_nat (length (TASK_LIST st')) - Z.of_nat (length (TASK_LIST st)).

Lemma extends_same st : extends st st 0.
Proof. intros H. split; [assumption | lia]. Qed.

Lemma extends_trans st st1 st2 r1 r2 : extends st st1 r1 -> extends st1 st2 r2 -> extends st st2 (r1 + r2).
Proof. intros H1 H2 H. destruct (H1 H) as [H3 ?]. destruct (H2 H3) as [? ?]. split; [assumption | lia]. Qed.

Lemma add_do_extends path cmd st st' r :
  existsb (fun t => bool_decide (keypath t = path)) (TASK_LIST st) = false ->
  task_add_do root alloc l_env path cmd st = Some (st', r) -> extends st st' (if r =? 0 then 1 else 0).
Proof.
  intros Hnew. unfold task_add_do. destruct (alloc path); [| intros [= <- <-]; apply extends_same].
  intros H. chain H. injection H as <- <-. rename E1 into Ep.
  intros [Ht Hk Hs Hp]. destruct (probe_ok _ _ _ _ Hs Ep) as (Hs' & Ha & Hm).
  cbn [TASK_LIST]. split; [| rewrite length_app; cbn; lia].
  assert (env_ok l) as He.
  { unfold task_load_local_env in E. chain E. eapply load_all_keeps; eauto using local_do_ok. }
  split; cbn [TASK_LIST shared].
  - apply Forall_app; split; [assumption |]. apply Forall_singleton.
    destruct (may_reboot l) eqn:Em; split; cbn; (congruence || assumption || auto).
  - rewrite map_app. apply nodup_snoc; [assumption |]. cbn. intros (t & <- & Hin)%in_map_iff.
    apply not_true_iff_false in Hnew. apply Hnew, existsb_exists. exists t. split; [assumption | now apply bool_decide_eq_true].
  - assumption.
  - apply Forall_app; split; [| now apply Forall_singleton]. revert Hp. apply Forall_impl. auto.
Qed.

Lemma add_members_extends add path len :
  (forall p st st' r, add p st = Some (st', r) -> extends st st' r) ->
  forall l st ret st' r, add_members add path len l ret st = Some (st', r) -> extends st st' (r - ret).
Proof.
  intros Ha. induction l as [| [key val] l IH]; cbn; intros st ret st' r H.
  - injection H as <- <-. rewrite Z.sub_diag. apply extends_same.
  - chain H. case_bool_decide; [| eauto]. chain H. apply Ha in E0. apply IH in H.
    replace (r - ret) with (z + (r - (ret + z))) by lia. eapply extends_trans; eauto.
Qed.

Lemma task_add_extends fuel path st st' r : task_add root alloc l_env fuel path st = Some (st', r) -> extends st st' r.
Proof.
  revert path st st' r. induction fuel as [| fuel IH]; intros path st st' r H; [discriminate |]. cbn [task_add] in H.
  destruct (negb _); [injection H as <- <-; apply extends_same |].
  chain H. case_bool_decide; [injection H as <- <-; apply extends_same |].
  cbv zeta in H. chain H. destruct (_ =? 0); [injection H as <- <-; apply extends_same |].
  chain H. destruct o as [cmd |].
  - destruct (existsb _ _) eqn:En; [injection H as <- <-; apply extends_same |].
    destruct (_ && _); [injection H as <- <-; apply extends_same |].
    chain H. injection H as <- <-. eapply add_do_extends; eauto.
  - chain H. apply add_members_extends in H; [| auto]. now rewrite Z.sub_0_r in H.
Qed.

Lemma init_args_extends fuel argv buf off arglen cnt st buf' cnt' st' :
  init_args root alloc l_env fuel argv buf off arglen cnt st = Some (buf', cnt', st') -> extends st st' (cnt' - cnt).
Proof.
  revert buf off arglen cnt st. induction argv as [| a argv IH]; cbn [init_args]; intros buf off arglen cnt st H.
  - injection H as <- <- <-. rewrite Z.sub_diag. apply extends_same.
  - chain H. apply task_add_extends in E. apply IH in H.
    replace (cnt' - cnt) with (z + (cnt' - (cnt + z))) by lia. eapply extends_trans; eauto.
Qed.

End Add.

Lemma sysenv_ok {json} `{JsonC json} (root : json) g l : task_init_sysenv root = Some (g, l) -> genv_ok g /\ env_ok l.
Proof.
  unfold task_init_sysenv, task_load_global_env, task_load_local_env. intros H1. chain H1. injection H1 as <- <-.
  chain E. chain E0. chain E1. split.
  - assert (genv_ok g0) as Hg; [| exact Hg].
    eapply load_all_keeps in E; [exact E | intros; eapply global_do_ok; eauto |]. now vm_compute.
  - eapply load_all_keeps in E1; [exact E1 | intros; eapply local_do_ok; eauto |].
    eapply load_all_keeps in E0; [exact E0 | intros; eapply local_do_ok; eauto |]. now vm_compute.
Qed.

Lemma task_init_ok {json} `{JsonC json} (root : json) alloc fuel argv g st tt n :
  task_init root alloc fuel argv = Some (g, st, tt, n) ->
  genv_ok g /\ list_ok st /\ n = Z.of_nat (length (TASK_LIST st)).
Proof.
  unfold task_init. intros E. chain E. cbn [shmem_init] in E1. injection E1 as <-.
  destruct (sysenv_ok _ _ _ E0) as [Hg Hl].
  assert (extends (State [] (Shmem 0 [] 4096) false []) st n /\ g0 = g) as [Hx <-].
  { destruct argv as [| a argv]; chain E; injection E as <- <- <- <-; (split; [| reflexivity]).
    - eapply task_add_extends; eauto.
    - apply init_args_extends in E1; [| assumption]. now rewrite Z.sub_0_r in E1. }
  destruct Hx as [Hx Hn].
  { split; cbn; try constructor; [reflexivity | constructor]. }
  split_and!; try assumption. cbn in Hn. lia.
Qed.

(** ** Theorems *)

(** C40: Whatever the document and the arguments, [task_init] leaves a state the scheduler can
    work with: at least one test may run at a time, every test case runs at least once, no
    time is negative, a test case that may reboot runs alone, no test case is listed twice,
    no two share a block of shared memory, and [tasks_cnt] is the length of the list. *)
Theorem task_init_valid {json} `{JsonC json} (root : json) alloc fuel argv g st tt n :
  task_init root alloc fuel argv = Some (g, st, tt, n) ->
  genv_ok g /\ Forall task_ok (TASK_LIST st) /\ List.NoDup (map keypath (TASK_LIST st)) /\
  List.NoDup (map shm (TASK_LIST st)) /\ n = Z.of_nat (length (TASK_LIST st)).
Proof.
  intros E. destruct (task_init_ok _ _ _ _ _ _ _ _ E) as (Hg & [Ht Hk Hs Hp] & Hn).
  split_and!; try assumption. eapply indices_distinct; eauto.
Qed.

(** ** The test cases of a document *)

Section Cases.
Context {json : Type} {JC : JsonC json} {JL : JsonLaws json}.

(** A node is disabled by "enable" : false, and a test case by its "command". *)
Definition enabled (o : json) : bool :=
  match assoc (lit "enable") (json_object_members o) with
  | Some (Some j) => negb (bool_decide (json_object_get_type j = mjson_type_boolean) && negb (json_object_get_boolean j))
  | _ => true
  end.

Definition command_of (o : json) : option (list Z) :=
  match assoc (lit "command") (json_object_members o) with
  | Some (Some j) => if bool_decide (json_object_get_type j = mjson_type_string) then Some (json_object_get_string j) else None
  | _ => None
  end.

(** The path of a node; the root has one of its own. *)
Definition dir_of (keys : list (list Z)) : list Z := match keys with [] => [47] | _ => path_of keys end.

(** The settings of a node, read off its members: a value of the right type under one of the
    names replaces the one inherited, a count only when it is above zero; of two names for one
    setting the later member decides. *)
Definition node_bool (ks : list String.string) (ms : list (list Z * option json)) (old : bool) : bool :=
  fold_left (fun b m => match m with
    | (k, Some j) => if existsb (is_key k) ks && bool_decide (json_object_get_type j = mjson_type_boolean) then json_object_get_boolean j else b
    | (_, None) => b
    end) ms old.

Definition node_count (name : String.string) (ms : list (list Z * option json)) (old : Z) : Z :=
  fold_left (fun n m => match m with
    | (k, Some j) => if is_key k name && bool_decide (json_object_get_type j = mjson_type_int) && (0 <? json_object_get_int j) then json_object_get_int j else n
    | (_, None) => n
    end) ms old.

(** Seconds, minutes, hours and days as decimal strings. *)
Definition seconds (l : list (list Z)) : Z :=
  Z.max 0 (foldr Z.add 0 (zip_with Z.mul (map atol l) [1; 60; 60 * 60; 24 * 60 * 60])).

Definition node_time (name : String.string) (ms : list (list Z * option json)) (old : Z) : Z :=
  fold_left (fun n m => match m with
    | (k, Some j) =>
        if is_key k name && bool_decide (json_object_get_type j = mjson_type_array) then
          match mjson_get_array_from_obj j with Some (Some l) => seconds l | _ => n end
        else n
    | (_, None) => n
    end) ms old.

Definition node_env (e : local_env) (ms : list (list Z * option json)) : local_env :=
  LocalEnv (node_bool ["date"] ms (date e)) (node_bool ["resource"] ms (resource e))
    (node_bool ["real_time_log"] ms (real_time_log e)) (node_count "run_times" ms (run_times e))
    (node_bool ["run_alone"; "exit_tinatest_when_failed"] ms (run_alone e)) (node_bool ["run_parallel"] ms (run_parallel e))
    (node_bool ["may_reboot"] ms (may_reboot e)) (node_time "testcase_run_once_time" ms (testcase_run_once_time_sec e))
    (node_time "testcase_run_time" ms (testcase_run_time_sec e)) (node_bool ["timeout_as_failed"] ms (timeout_as_failed e))
    (node_bool ["exit_once_failed"] ms (exit_once_failed e)) (node_bool ["exit_tinatest_when_failed"] ms (exit_tinatest_when_fail e)).

(** The environment of the test case of a node, from the one all test cases inherit: one that
    may reboot runs alone. *)
Definition case_env (l_env : local_env) (o : json) : local_env :=
  let e := node_env l_env (json_object_members o) in with_run_alone (may_reboot e || run_alone e) e.

(** The test cases at and below a node, in the order of the document: the path, the
    command and the environment of each. *)
Fixpoint cases (l_env : local_env) (n : nat) (o : json) (keys : list (list Z)) : list (list Z * list Z * local_env) :=
  match n with
  | O => []
  | S n =>
      if enabled o then
        match command_of o with
        | Some c => [(dir_of keys, c, case_env l_env o)]
        | None =>
            flat_map (fun m => match m with
              | (k, Some j) => if bool_decide (json_object_get_type j = mjson_type_object) then cases l_env n j (keys ++ [k]) else []
              | (_, None) => []
              end) (json_object_members o)
        end
      else []
  end.

(** A document the walk over paths can follow: names are not empty, hold no slash and have at
    most 28 bytes; no value is null; an array of strings fits, and is a time where one is meant. *)
Definition name_ok (k : list Z) : bool :=
  negb (bool_decide (k = [])) && forallb (fun c => negb (c =? 47)) k && (length k <=? 28)%nat.

Definition is_time (k : list Z) : bool := is_key k "testcase_run_once_time" || is_key k "testcase_run_time".

Definition value_ok (k : list Z) (j : json) : bool :=
  match mjson_get_value_from_obj (Some j) None with
  | Some (Some (m_array l)) => negb (is_time k) || bool_decide (is_Some (task_convert_time l))
  | Some (Some _) => true
  | _ => false
  end.

Fixpoint doc_ok (n : nat) (o : json) : bool :=
  match n with
  | O => false
  | S n =>
      forallb (fun m => match m with
        | (k, Some j) =>
            name_ok k && value_ok k j &&
            (negb (bool_decide (json_object_get_type j = mjson_type_object)) || doc_ok n j)
        | (_, None) => false
        end) (json_object_members o)
  end.

Lemma name_ok_spec k : name_ok k = true -> k <> [] /\ key_ok k /\ (length k <= 28)%nat.
Proof.
  unfold name_ok. intros [[H1 H2]%andb_true_iff H3]%andb_true_iff. apply Nat.leb_le in H3.
  rewrite negb_true_iff, bool_decide_eq_false in H1. split_and!; [assumption | | assumption].
  split; [| lia]. rewrite forallb_forall in H2. apply List.Forall_forall. intros c Hc.
  specialize (H2 _ Hc). rewrite negb_true_iff in H2. now apply Z.eqb_neq.
Qed.

(** A value of such a document can be read, whatever was in the buffer. *)
Lemma value_read k j :
  value_ok k j = true ->
  exists v, (forall old, mjson_get_value_from_obj (Some j) old = Some (Some v)) /\
    (type_of v = mjson_type_object <-> json_object_get_type j = mjson_type_object) /\
    (is_time k = true -> forall l, v = m_array l -> is_Some (task_convert_time l)).
Proof.
  unfold value_ok. cbn [mjson_get_value_from_obj]. destruct (json_object_get_type j);
    try (intros _; eexists; split_and!; [reflexivity | cbn; naive_solver | easy]).
  destruct (mjson_get_array_from_obj j) as [[l |] |]; cbn; [| | easy].
  - intros H. eexists; split_and!; [reflexivity | cbn; naive_solver |].
    intros Hk ? [= <-]. rewrite Hk in H. now apply bool_decide_eq_true in H.
  - intros _. eexists; split_and!; [reflexivity | cbn; naive_solver | easy].
Qed.

(** ** Paths *)

Lemma path_of_inj keys keys' : Forall key_ok keys -> Forall key_ok keys' -> path_of keys = path_of keys' -> keys = keys'.
Proof.
  intros Hk. revert keys'. induction Hk as [| k keys [Hs _] Hk IH]; intros keys' Hk' E.
  - destruct keys'; [reflexivity | now rewrite path_of_cons in E].
  - destruct Hk' as [| k' keys' [Hs' _] Hk']; [now rewrite path_of_cons in E |].
    rewrite !path_of_cons in E. injection E as E.
    assert (forall k r, Forall (fun c => c <> 47) k -> cut_slash (k ++ path_of r) = (k, match r with [] => None | _ => Some (path_of r) end)) as Hc.
    { intros q [| r1 r] Hq; [cbn; rewrite app_nil_r; now apply cut_slash_last |]. rewrite path_of_cons. now apply cut_slash_key. }
    pose proof (Hc k keys Hs) as H1. rewrite E, (Hc k' keys' Hs') in H1. injection H1 as -> H1.
    f_equal. apply IH; [assumption |]. now apply app_inv_head in E.
Qed.

Lemma dir_of_snoc keys k : dir_of (keys ++ [k]) = path_of (keys ++ [k]).
Proof. now destruct keys. Qed.

Lemma names_keys keys : Forall (fun k => name_ok k = true) keys -> Forall key_ok keys.
Proof. apply Forall_impl. intros k Hk. now apply name_ok_spec. Qed.

Lemma dir_of_root keys : Forall (fun k => name_ok k = true) keys -> dir_of keys = [47] -> keys = [].
Proof.
  intros Hk E. destruct Hk as [| k keys Hk Hks]; [reflexivity |]. destruct (name_ok_spec _ Hk) as (Hne & _).
  destruct k; [contradiction | discriminate].
Qed.

Lemma dir_of_inj keys keys' :
  Forall (fun k => name_ok k = true) keys -> Forall (fun k => name_ok k = true) keys' -> dir_of keys = dir_of keys' -> keys = keys'.
Proof.
  intros H H' E. destruct keys as [| k keys]; [symmetry in E; now apply dir_of_root in E |].
  destruct keys' as [| k' keys']; [now apply dir_of_root in E |]. apply path_of_inj; [now apply names_keys .. | exact E].
Qed.

(** The path of a member as the code writes it. *)
Lemma child_path keys name :
  Forall (fun k => name_ok k = true) keys ->
  (if bool_decide (dir_of keys = [47]) then lit "/" ++ name else dir_of keys ++ lit "/" ++ name) = path_of (keys ++ [name]).
Proof.
  intros Hk. case_bool_decide as E; [apply dir_of_root in E as ->; [| assumption] |].
  - cbn. now rewrite app_nil_r.
  - destruct keys; [contradiction | now rewrite path_of_snoc].
Qed.

Lemma child_fits keys name :
  Forall (fun k => name_ok k = true) keys -> (length name <= 28)%nat ->
  bounded (length (dir_of keys) * 2 + 30) (path_of (keys ++ [name])) = path_of (keys ++ [name]).
Proof.
  intros Hk Hl. apply take_ge. rewrite path_of_snoc, length_app. cbn [length].
  assert (length (path_of keys) <= length (dir_of keys))%nat by (destruct keys; cbn; lia). lia.
Qed.

Variables (root : json) (alloc : list Z -> bool) (l_env : local_env).

Lemma at_keys_app (o : option json) keys k : at_keys o (keys ++ [k]) = at_keys (at_keys o keys) [k].
Proof.
  revert o. induction keys as [| k' keys IH]; intros o; [reflexivity |]. cbn [app at_keys].
  destruct o as [j |]; [| now rewrite ?IH]. destruct (assoc k' (json_object_members j)); [apply IH | reflexivity].
Qed.

Lemma fetch_dir keys o :
  Forall (fun k => name_ok k = true) keys -> at_keys (Some root) keys = Some o -> fetch_obj root (dir_of keys) = Some o.
Proof.
  intros Hk E. destruct keys as [| k keys]; [unfold fetch_obj; cbn; now rewrite bool_decide_eq_true_2 |].
  rewrite <- E. apply fetch_path; [| now apply names_keys | easy].
  inversion_clear Hk as [| ? ? H _]. destruct (name_ok_spec _ H) as (Hne & _). congruence.
Qed.

Lemma fetch_child keys o name :
  Forall (fun k => name_ok k = true) keys -> at_keys (Some root) keys = Some o -> name_ok name = true ->
  fetch_obj root (path_of (keys ++ [name])) = match assoc name (json_object_members o) with Some v => v | None => None end.
Proof.
  intros Hk E Hn. rewrite fetch_path.
  - rewrite at_keys_app, E. reflexivity.
  - destruct (name_ok_spec _ Hn) as (Hne & _). destruct keys as [| ? [|]]; cbn; congruence.
  - apply Forall_app; split; [now apply names_keys |]. apply Forall_singleton. now apply name_ok_spec.
  - now destruct keys.
Qed.

(** ** The walk *)

Lemma doc_member n o k v :
  doc_ok (S n) o = true -> In (k, v) (json_object_members o) ->
  name_ok k = true /\ exists j, v = Some j /\ value_ok k j = true /\ (json_object_get_type j = mjson_type_object -> doc_ok n j = true).
Proof.
  cbn [doc_ok]. rewrite forallb_forall. intros H Hin. specialize (H _ Hin). destruct v as [j |]; [| discriminate].
  apply andb_true_iff in H as [[H1 H2]%andb_true_iff H3]. split; [assumption |]. exists j. split_and!; [reflexivity | assumption |].
  intros Ht. now rewrite bool_decide_eq_true_2 in H3 by assumption.
Qed.

(** A member that the code looks up by name. *)
Lemma member_value n o keys name :
  doc_ok (S n) o = true -> Forall (fun k => name_ok k = true) keys -> at_keys (Some root) keys = Some o -> name_ok name = true ->
  mjson_fetch root (path_of (keys ++ [name])) =
    match assoc name (json_object_members o) with
    | Some (Some j) => default m_error <$> mjson_get_value_from_obj (Some j) None
    | _ => Some m_error
    end /\ is_Some (mjson_fetch root (path_of (keys ++ [name]))).
Proof.
  intros Hd Hk E Hn. unfold mjson_fetch. rewrite (fetch_child _ _ _ Hk E Hn).
  destruct (assoc name (json_object_members o)) as [v |] eqn:Ea; [| split; [reflexivity | now eexists]].
  destruct (doc_member _ _ _ _ Hd (assoc_in _ _ _ Ea)) as (_ & j & -> & Hv & _).
  destruct (value_read _ _ Hv) as (x & Hx & _). rewrite !Hx. split; [reflexivity | now eexists].
Qed.

Lemma fetch_enable n o keys :
  doc_ok (S n) o = true -> Forall (fun k => name_ok k = true) keys -> at_keys (Some root) keys = Some o ->
  exists z, mjson_fetch_boolean root (path_of (keys ++ [lit "enable"])) = Some z /\ (z =? 0) = negb (enabled o).
Proof.
  intros Hd Hk E. unfold mjson_fetch_boolean, enabled.
  destruct (member_value n o keys (lit "enable") Hd Hk E eq_refl) as [-> _].
  destruct (assoc _ _) as [[j |] |] eqn:Ea; [| eexists; split; reflexivity ..].
  destruct (doc_member _ _ _ _ Hd (assoc_in _ _ _ Ea)) as (_ & j' & [= <-] & Hv & _).
  destruct (value_read _ _ Hv) as (x & Hx & _). pose proof (Hx None) as Hx'. rewrite Hx'. cbn.
  eexists; split; [reflexivity |]. cbn in Hx'. destruct (json_object_get_type j) eqn:Et;
    try (injection Hx' as <-; now rewrite ?bool_decide_eq_false_2 by congruence).
  - injection Hx' as <-. rewrite bool_decide_eq_true_2 by reflexivity. now destruct (json_object_get_boolean j).
  - destruct (mjson_get_array_from_obj j) as [[] |]; cbn in Hx'; [injection Hx' as <-; reflexivity .. | discriminate].
Qed.

Lemma fetch_command n o keys :
  doc_ok (S n) o = true -> Forall (fun k => name_ok k = true) keys -> at_keys (Some root) keys = Some o ->
  mjson_fetch_string root (path_of (keys ++ [lit "command"])) = Some (command_of o).
Proof.
  intros Hd Hk E. unfold mjson_fetch_string, command_of.
  destruct (member_value n o keys (lit "command") Hd Hk E eq_refl) as [-> _].
  destruct (assoc _ _) as [[j |] |] eqn:Ea; [| reflexivity ..].
  destruct (doc_member _ _ _ _ Hd (assoc_in _ _ _ Ea)) as (_ & j' & [= <-] & Hv & _).
  destruct (value_read _ _ Hv) as (x & Hx & _). pose proof (Hx None) as Hx'. rewrite Hx'. cbn.
  cbn in Hx'. destruct (json_object_get_type j) eqn:Et;
    try (injection Hx' as <-; now rewrite ?bool_decide_eq_false_2 by congruence).
  destruct (mjson_get_array_from_obj j) as [[] |]; cbn in Hx'; [injection Hx' as <-; reflexivity .. | discriminate].
Qed.

(** An entry of [mjson_foreach] for a member. *)
Definition entry_for (m : list Z * option json) (e : list Z * option mdata) : Prop :=
  fst e = fst m /\ exists j v, snd m = Some j /\ snd e = Some v /\
    (type_of v = mjson_type_object <-> json_object_get_type j = mjson_type_object) /\
    (is_time (fst m) = true -> forall l, v = m_array l -> is_Some (task_convert_time l)) /\
    mjson_get_value_from_obj (Some j) None = Some (Some v).

Lemma foreach_entries n o :
  doc_ok (S n) o = true -> exists l, foreach_loop None (json_object_members o) = Some l /\ Forall2 entry_for (json_object_members o) l.
Proof.
  intros Hd. assert (forall k v, In (k, v) (json_object_members o) -> exists j, v = Some j /\ value_ok k j = true) as H.
  { intros k v Hin. destruct (doc_member _ _ _ _ Hd Hin) as (_ & j & ? & ? & _). eauto. }
  clear Hd. revert H. generalize (@None mdata). induction (json_object_members o) as [| [k v] l IH]; intros old H.
  - exists []. split; [reflexivity | constructor].
  - destruct (H k v) as (j & -> & Hv); [now left |]. destruct (value_read _ _ Hv) as (x & Hx & Hobj & Ht).
    destruct (IH (Some x)) as (es & Hes & HF); [intros; apply H; now right |].
    exists ((k, Some x) :: es). cbn [foreach_loop]. rewrite Hx. cbn. rewrite Hes. cbn. split; [reflexivity |].
    constructor; [| assumption]. split; [reflexivity |]. exists j, x. split_and!; [reflexivity .. | assumption | assumption | apply Hx].
Qed.

Lemma foreach_dir n o keys :
  doc_ok (S n) o = true -> Forall (fun k => name_ok k = true) keys -> at_keys (Some root) keys = Some o ->
  json_object_get_type o = mjson_type_object ->
  exists l, mjson_foreach root (dir_of keys) = Some l /\ Forall2 entry_for (json_object_members o) l.
Proof.
  intros Hd Hk E Ht. unfold mjson_foreach. rewrite (fetch_dir _ _ Hk E), bool_decide_eq_true_2 by assumption.
  now apply (foreach_entries n).
Qed.

Lemma load_do_defined e key v :
  (is_time key = true -> forall l, v = m_array l -> is_Some (task_convert_time l)) ->
  exists e' r, task_load_local_env_do e key (Some v) = Some (e', r).
Proof.
  unfold is_time, task_load_local_env_do. intros Ht.
  repeat match goal with |- context [if is_key ?k ?s then _ else _] => destruct (is_key k s) eqn:? end;
    try (destruct v; cbn; eauto; fail); try (destruct v; cbn; try (destruct (Ht eq_refl _ eq_refl) as [? ->]; cbn); eauto; fail).
Qed.

Lemma int_bind x (f : Z -> option Z) n : int x ≫= f = Some n -> f x = Some n.
Proof. unfold int. destruct (_ && _); [auto | discriminate]. Qed.

(** The seconds [task_convert_time] finds. *)
Lemma convert_loop_sum l : forall i sec n,
  convert_loop i sec l = Some n ->
  n = sec + foldr Z.add 0 (zip_with Z.mul (map atol l) (drop i [1; 60; 60 * 60; 24 * 60 * 60])).
Proof.
  induction l as [| s l IH]; intros i sec n H; [injection H as <-; now rewrite Z.add_0_r |].
  assert (forall u, (v ← int (atol s * u); sec ← int (sec + v); convert_loop (S i) sec l) = Some n ->
    n = sec + (atol s * u + foldr Z.add 0 (zip_with Z.mul (map atol l) (drop (S i) [1; 60; 60 * 60; 24 * 60 * 60])))) as Hu.
  { intros u E. apply int_bind, int_bind, IH in E. lia. }
  destruct i as [| [| [| [| i]]]]; [exact (Hu 1 H) | exact (Hu 60 H) | exact (Hu (60 * 60) H) | exact (Hu (24 * 60 * 60) H) |].
  apply (IH (S (S (S (S (S i)))))) in H. rewrite drop_ge in H |- * by (cbn; lia). rewrite zip_with_nil_r in *. exact H.
Qed.

Lemma convert_seconds l n : task_convert_time l = Some n -> n = seconds l.
Proof.
  unfold task_convert_time, seconds. intros H. destruct (convert_loop 0 0 l) as [x |] eqn:E; [| discriminate].
  cbn [mbind option_bind] in H. injection H as <-. apply convert_loop_sum in E. cbn [drop] in E. bool_cases; lia.
Qed.

Lemma is_key_eq k name : is_key k name = true -> k = lit name.
Proof. apply bool_decide_eq_true. Qed.

(** One member changes the settings as [node_env] says. *)
Lemma load_do_env e k j v e' r :
  mjson_get_value_from_obj (Some j) None = Some (Some v) ->
  task_load_local_env_do e k (Some v) = Some (e', r) -> e' = node_env e [(k, Some j)].
Proof.
  intros Hv. assert (match v with
    | m_boolean b => json_object_get_type j = mjson_type_boolean /\ b = json_object_get_boolean j
    | m_int n => json_object_get_type j = mjson_type_int /\ n = json_object_get_int j
    | m_array l => json_object_get_type j = mjson_type_array /\ mjson_get_array_from_obj j = Some (Some l)
    | _ => json_object_get_type j <> mjson_type_boolean /\ json_object_get_type j <> mjson_type_int /\
        (json_object_get_type j = mjson_type_array -> mjson_get_array_from_obj j = Some None)
    end) as Hj.
  { cbn [mjson_get_value_from_obj] in Hv. destruct (json_object_get_type j); try (injection Hv as <-; easy).
    destruct (mjson_get_array_from_obj j) as [[l |] |]; [injection Hv as <-; easy .. | discriminate]. }
  clear Hv. destruct e as [e1 e2 e3 e4 e5 e6 e7 e8 e9 e10 e11 e12]. unfold task_load_local_env_do, node_env, node_bool, node_count, node_time.
  cbn [fold_left existsb].
  repeat match goal with |- context [if is_key k ?s then _ else _] =>
    let H := fresh "K" in destruct (is_key k s) eqn:H; [apply is_key_eq in H; subst k |] end.
  all: repeat match goal with |- context [is_key (lit ?a) ?b] =>
    let x := eval vm_compute in (is_key (lit a) b) in change (is_key (lit a) b) with x end; cbn [orb andb].
  all: try (cbn [on_boolean on_int on_time]; destruct v, (json_object_get_type j) eqn:T; try (exfalso; intuition congruence);
    repeat match goal with |- context [bool_decide (?a = ?b :> mjson_type)] =>
      let x := eval vm_compute in (bool_decide (a = b)) in change (bool_decide (a = b)) with x end; cbn [andb]).
  all: try (intros [= <- <-]; reflexivity).
  all: try (destruct Hj as [_ ->]; intros [= <- <-]; destruct (0 <? json_object_get_int j); reflexivity).
  all: try (destruct Hj as [_ E]; rewrite E; match goal with |- context [task_convert_time ?l] => destruct (task_convert_time l) as [n |] eqn:Ec end;
    cbn [mbind option_bind]; [intros [= <- <-]; apply convert_seconds in Ec as <-; reflexivity | discriminate]).
  all: try (destruct Hj as (_ & _ & E); rewrite E by reflexivity; intros [= <- <-]; reflexivity).
  all: try (intros [= <- <-]; repeat match goal with K : is_key ?x _ = false |- _ => rewrite K; clear K end; reflexivity).
Qed.

Lemma node_env_nil e : node_env e [] = e.
Proof. now destruct e. Qed.

Lemma load_all_env ms es e ret :
  Forall2 entry_for ms es -> exists r, load_all task_load_local_env_do e ret es = Some (node_env e ms, r).
Proof.
  intros H. revert e ret. induction H as [| [k0 o0] [k x] ms es (Hk & j & v & Ho & Hx & _ & Ht & Hv) _ IH]; intros e ret.
  - exists ret. now rewrite node_env_nil.
  - cbn [fst snd] in *. subst k x o0. cbn [load_all]. destruct (load_do_defined e k0 v Ht) as (e' & r & E). rewrite E.
    apply (load_do_env _ _ _ _ _ _ Hv) in E as ->. cbn [mbind option_bind]. apply IH.
Qed.

Lemma input_defined n o keys :
  doc_ok (S n) o = true -> Forall (fun k => name_ok k = true) keys -> at_keys (Some root) keys = Some o ->
  is_Some (task_input root (dir_of keys)).
Proof.
  intros Hd Hk E.
  assert (forall name, name_ok name = true -> (length name <= 28)%nat ->
    is_Some (mjson_fetch root (bounded (length (dir_of keys) + 30) (dir_of keys ++ lit "/" ++ name)))) as Hf.
  { intros name Hn Hl. unfold bounded. rewrite take_ge by (rewrite !length_app; cbn; lia).
    destruct keys as [| k keys].
    - cbn in E. injection E as ->. cbn [dir_of app lit map]. unfold mjson_fetch.
      replace (fetch_obj o (47 :: 47 :: name)) with (@None json); [now eexists |].
      assert (47 :: 47 :: name = path_of [[]; name]) as -> by (cbn; now rewrite app_nil_r).
      rewrite fetch_path; [| congruence | | easy].
      2: { constructor; [split; [constructor | cbn; lia] |]. apply Forall_singleton. now apply name_ok_spec. }
      cbn [at_keys]. destruct (assoc [] (json_object_members o)) eqn:Ea; [| reflexivity].
      destruct (doc_member _ _ _ _ Hd (assoc_in _ _ _ Ea)) as (Hbad & _). now destruct (name_ok_spec _ Hbad).
    - cbn [dir_of]. change (lit "/" ++ name) with (47 :: name). rewrite <- path_of_snoc. now destruct (member_value n o (k :: keys) name Hd Hk E Hn). }
  assert (forall name max, name_ok name = true -> (length name <= 28)%nat ->
    is_Some (mjson_fetch_array root (bounded (length (dir_of keys) + 30) (dir_of keys ++ lit "/" ++ name)) max)) as Ha.
  { intros name max Hn Hl. unfold mjson_fetch_array. destruct (Hf name Hn Hl) as [x ->]. now eexists. }
  unfold task_input. destruct (Ha (lit "stdin") ARRAY_MAX eq_refl ltac:(cbn; lia)) as [a ->].
  cbn [mbind option_bind]. destruct a; [| now eexists].
  destruct (Hf (lit "fstdin") eq_refl ltac:(cbn; lia)) as [y Hy]. unfold mjson_fetch_string. rewrite Hy. now eexists.
Qed.

(** The path lies at or below a node. *)
Definition under (keys : list (list Z)) (p : list Z) : Prop :=
  exists r, Forall (fun k => name_ok k = true) r /\ p = dir_of (keys ++ r).

Lemma cases_under n o keys x :
  doc_ok n o = true -> In x (cases l_env n o keys) -> under keys x.1.1.
Proof.
  revert o keys. induction n as [| n IH]; intros o keys Hd Hin; [easy |]. cbn [cases] in Hin.
  destruct (enabled o); [| easy]. destruct (command_of o).
  - destruct Hin as [<- | []]. exists []. split; [constructor | now rewrite app_nil_r].
  - apply in_flat_map in Hin as ([k [j |]] & Hm & Hin); [| easy]. case_bool_decide as Ht; [| easy].
    destruct (doc_member _ _ _ _ Hd Hm) as (Hk & j' & [= <-] & _ & Hdj).
    destruct (IH _ _ (Hdj Ht) Hin) as (r & Hr & E). rewrite E. exists (k :: r). split; [now constructor |]. now rewrite <- app_assoc.
Qed.

Lemma under_member keys k1 k2 p :
  Forall (fun k => name_ok k = true) keys -> name_ok k1 = true -> name_ok k2 = true ->
  under (keys ++ [k1]) p -> under (keys ++ [k2]) p -> k1 = k2.
Proof.
  intros Hk H1 H2 (r1 & Hr1 & ->) (r2 & Hr2 & E). rewrite <- !app_assoc in E. apply dir_of_inj in E.
  - now apply app_inv_head in E as [= ->].
  - apply Forall_app; split; [assumption | now constructor].
  - apply Forall_app; split; [assumption | now constructor].
Qed.

Definition names (st : state) : list (list Z * list Z * local_env) := map (fun t => (keypath t, command t, env t)) (TASK_LIST st).

Hypothesis memory : forall p, alloc p = true.

Lemma add_do_runs n o keys cmd st :
  doc_ok (S n) o = true -> Forall (fun k => name_ok k = true) keys -> at_keys (Some root) keys = Some o ->
  json_object_get_type o = mjson_type_object ->
  exists st', task_add_do root alloc l_env (dir_of keys) cmd st = Some (st', 0) /\
    names st' = names st ++ [(dir_of keys, cmd, case_env l_env o)] /\ reboot_mode st' = reboot_mode st.
Proof.
  intros Hd Hk E Ht. unfold task_add_do, task_load_local_env. rewrite memory.
  destruct (foreach_dir n o keys Hd Hk E Ht) as (l & -> & HF). cbn [mbind option_bind].
  destruct (load_all_env _ _ l_env 0 HF) as (r & ->). cbn [mbind option_bind].
  destruct (input_defined n o keys Hd Hk E) as [i ->]. cbn [mbind option_bind].
  destruct (shmem_probe _ _) as [m sh]. eexists. split_and!; [reflexivity | | reflexivity].
  unfold names. cbn [TASK_LIST]. rewrite map_app. cbn [map keypath command env]. do 3 f_equal. unfold case_env. cbv zeta.
  set (e := node_env l_env (json_object_members o)). destruct (may_reboot e); [reflexivity | now destruct e].
Qed.

(** The cases of a list of members. *)
Definition member_cases (n : nat) (keys : list (list Z)) (ms : list (list Z * option json)) : list (list Z * list Z * local_env) :=
  flat_map (fun m => match m with
    | (k, Some j) => if bool_decide (json_object_get_type j = mjson_type_object) then cases l_env n j (keys ++ [k]) else []
    | (_, None) => []
    end) ms.

(** What a call on a node adds. *)
Definition adds (n : nat) : Prop := forall o keys st,
  doc_ok n o = true -> Forall (fun k => name_ok k = true) keys -> at_keys (Some root) keys = Some o ->
  json_object_get_type o = mjson_type_object -> reboot_mode st = false ->
  (forall x, In x (names st) -> ~ under keys x.1.1) ->
  exists st', task_add root alloc l_env n (dir_of keys) st = Some (st', Z.of_nat (length (cases l_env n o keys))) /\
    names st' = names st ++ cases l_env n o keys /\ reboot_mode st' = false.

Lemma add_members_adds n o keys : adds n ->
  doc_ok (S n) o = true -> Forall (fun k => name_ok k = true) keys -> at_keys (Some root) keys = Some o ->
  forall ms es, Forall2 entry_for ms es -> (forall m, In m ms -> In m (json_object_members o)) -> List.NoDup (map fst ms) ->
  forall ret st, reboot_mode st = false ->
  (forall x k v, In x (names st) -> In (k, v) ms -> ~ under (keys ++ [k]) x.1.1) ->
  exists st', add_members (task_add root alloc l_env n) (dir_of keys) (length (dir_of keys) * 2 + 30) es ret st =
      Some (st', ret + Z.of_nat (length (member_cases n keys ms))) /\
    names st' = names st ++ member_cases n keys ms /\ reboot_mode st' = false.
Proof.
  intros Ha Hd Hk E ms es HF. induction HF as [| [k v] [k' x] ms es (Hkk & j & d & Hj & Hx & Hobj & _) HF IH]; intros Hin Hn ret st Hr Hu.
  - exists st. cbn. rewrite app_nil_r, Z.add_0_r. auto.
  - cbn in Hkk, Hj, Hx, Hn. subst k' v x. inversion_clear Hn as [| ? ? Hnk Hn'].
    destruct (doc_member _ _ _ _ Hd (Hin _ (or_introl eq_refl))) as (Hname & j' & [= <-] & _ & Hdj).
    cbn [add_members mbind option_bind member_cases flat_map].
    destruct (decide (type_of d = mjson_type_object)) as [Ht | Ht].
    + assert (json_object_get_type j = mjson_type_object) as Htj by now apply Hobj.
      rewrite (bool_decide_eq_true_2 (type_of d = _)), (bool_decide_eq_true_2 (json_object_get_type j = _)) by assumption.
      rewrite child_path, child_fits, <- dir_of_snoc by (assumption || now apply name_ok_spec).
      destruct (Ha j (keys ++ [k]) st) as (st1 & -> & Hst1 & Hr1).
      * apply Hdj. now apply Hobj.
      * apply Forall_app; split; [assumption | now apply Forall_singleton].
      * rewrite at_keys_app, E. cbn. now rewrite (assoc_member k (Some j)); [| apply members_distinct | apply Hin; now left].
      * now apply Hobj.
      * assumption.
      * intros y Hpc. apply (Hu y k (Some j) Hpc). now left.
      * cbn [mbind option_bind]. destruct (IH (fun m H => Hin m (or_intror H)) Hn' (ret + Z.of_nat (length (cases l_env n j (keys ++ [k])))) st1 Hr1) as (st2 & -> & Hst2 & Hr2).
        { intros y k2 v2 Hpc Hm. rewrite Hst1 in Hpc. apply in_app_iff in Hpc as [Hpc | Hpc]; [apply (Hu y k2 v2 Hpc); now right |].
          destruct (doc_member _ _ _ _ Hd (Hin _ (or_intror Hm))) as (Hname2 & _).
          intros Hu2. apply Hnk. apply cases_under in Hpc; [| now apply Hdj, Hobj].
          rewrite (under_member keys k k2 y.1.1 Hk Hname Hname2 Hpc Hu2). now apply (in_map fst) in Hm. }
        exists st2. rewrite Hst2, Hst1, <- app_assoc, length_app. split_and!; [do 2 f_equal; unfold member_cases; lia | reflexivity | assumption].
    + assert (json_object_get_type j <> mjson_type_object) as Htj by (intros ?; now apply Ht, Hobj).
      rewrite (bool_decide_eq_false_2 (type_of d = _)), (bool_decide_eq_false_2 (json_object_get_type j = _)) by assumption. cbn [app].
      apply IH; [intros m H; apply Hin; now right | assumption .. |]. intros y k2 v2 Hpc Hm. apply (Hu y k2 v2 Hpc). now right.
Qed.

Lemma task_add_adds n : adds n.
Proof.
  induction n as [| n IH]; intros o keys st Hd Hk E Ht Hr Hu; [discriminate |].
  cbn [task_add cases]. rewrite (child_path keys (lit "enable")), (child_path keys (lit "command")) by assumption.
  rewrite !child_fits by (assumption || (cbn; lia)).
  assert (match dir_of keys with c :: _ => c =? 47 | [] => false end = true) as -> by now destruct keys.
  cbn [negb]. unfold mjson_fetch at 1. rewrite (fetch_dir _ _ Hk E). cbn [mjson_get_value_from_obj]. rewrite Ht.
  cbn [fmap option_fmap option_map default from_option mbind option_bind id]. rewrite bool_decide_eq_false_2 by easy. cbv zeta.
  destruct (fetch_enable n o keys Hd Hk E) as (z & -> & Hz). cbn [mbind option_bind]. rewrite Hz.
  destruct (enabled o); cbn [negb]; [| exists st; cbn; rewrite app_nil_r; auto].
  rewrite (fetch_command n o keys Hd Hk E). cbn [mbind option_bind]. destruct (command_of o) as [c |] eqn:Ec.
  - assert (existsb (fun t => bool_decide (keypath t = dir_of keys)) (TASK_LIST st) = false) as ->.
    { apply not_true_iff_false. intros (t & Hin & Heq%bool_decide_eq_true)%existsb_exists.
      apply (Hu (keypath t, command t, env t)); [unfold names; apply in_map_iff; eauto |].
      exists []. split; [constructor | now rewrite app_nil_r]. }
    rewrite Hr. cbn [andb]. destruct (add_do_runs n o keys c st Hd Hk E Ht) as (st' & -> & Hst & Hr').
    cbn. exists st'. now rewrite Hr'.
  - destruct (foreach_dir n o keys Hd Hk E Ht) as (es & -> & HF). cbn [mbind option_bind].
    apply (add_members_adds n o keys IH Hd Hk E _ _ HF (fun _ H => H) (members_distinct o) 0 st Hr).
    intros y k v Hpc Hin (r & Hrr & E'). apply (Hu _ Hpc). rewrite E'. exists (k :: r).
    destruct (doc_member _ _ _ _ Hd Hin) as (Hname & _). split; [now constructor |]. now rewrite <- app_assoc.
Qed.

End Cases.

(** C12: Without arguments [task_init] lists the test cases a walk over the document finds, in
    the order of the document, each with its path, its command and the environment that the
    members of its node make of the inherited one ([case_env]), and returns their number.
    The document fits ([doc_ok n], whose [n] exceeds its depth: no null, no empty name, no
    slash in a name, names of at most 28 bytes, arrays that can be read), [/sys] can be read,
    and there is memory for every test case. *)
Theorem task_init_lists {json} `{JsonLaws json} (root : json) n g l :
  task_init_sysenv root = Some (g, l) -> json_object_get_type root = mjson_type_object -> doc_ok n root = true ->
  exists st, task_init root (fun _ => true) n [] = Some (g, st, [], Z.of_nat (length (cases l n root []))) /\
    map (fun t => (keypath t, command t, env t)) (TASK_LIST st) = cases l n root [].
Proof.
  intros Hs Ht Hd. unfold task_init. rewrite Hs.
  assert (shmem_init 0 = Some (Shmem 0 [] 4096)) as -> by reflexivity. cbn [mbind option_bind].
  destruct (task_add_adds root (fun _ => true) l (fun _ => eq_refl) n root [] (State [] (Shmem 0 [] 4096) false []) Hd
    (Forall_nil_2 _) eq_refl Ht eq_refl) as (st & E & Hn & _); [easy |].
  exists st. change (dir_of []) with [47] in E. cbn [dir_of] in E. cbv zeta. rewrite E. split; [reflexivity | exact Hn].
Qed.

(** ** The argument string *)

(** The arguments, each with a blank behind it. *)
Definition words (argv : list (list Z)) : list Z := mjoin (map (fun a => a ++ [32]) argv).

Lemma arg_front (w src rest : list Z) k :
  blit (w ++ replicate (length src + k) 0 ++ rest) (length w) src = w ++ src ++ replicate k 0 ++ rest.
Proof.
  unfold blit. rewrite take_app_length. f_equal. f_equal. rewrite replicate_add, <- app_assoc, <- drop_drop, drop_app_length.
  rewrite <- (length_replicate (length src) 0) at 1. apply drop_app_length.
Qed.

Definition args_size (argv : list (list Z)) : nat := foldr (fun a n => (S (length a) + n)%nat) O argv.

Lemma args_size_foldl argv k : foldl (fun n a => (n + S (length a))%nat) k argv = (k + args_size argv)%nat.
Proof.
  revert k. induction argv as [| a argv IH]; intros k; [symmetry; apply Nat.add_0_r |].
  cbn [foldl]. rewrite IH. unfold args_size. cbn [foldr]. lia.
Qed.

Lemma words_cstr argv : Forall cstr_ok argv -> cstr_ok (words argv).
Proof.
  induction 1 as [| a argv Ha Hargv IH]; [constructor |]. unfold words. cbn [map mjoin list_join foldr].
  apply cstr_ok_app. split; [| exact IH]. apply cstr_ok_app. split; [assumption |]. repeat constructor; lia.
Qed.

Lemma words_snoc a argv : exists w, words (a :: argv) = w ++ [32].
Proof.
  revert a. induction argv as [| b argv IH]; intros a.
  - exists a. cbn. now rewrite app_nil_r.
  - destruct (IH b) as [w E]. exists ((a ++ [32]) ++ w). change (words (a :: b :: argv)) with ((a ++ [32]) ++ words (b :: argv)).
    now rewrite E, app_assoc.
Qed.

Section Args.
Context {json : Type} {JC : JsonC json}.
Variables (root : json) (alloc : list Z -> bool) (l_env : local_env) (fuel : nat).

Lemma init_args_words argv w arglen cnt st buf n st' :
  arglen = S (args_size argv) ->
  init_args root alloc l_env fuel argv (w ++ replicate arglen 0) (length w) arglen cnt st = Some (buf, n, st') ->
  buf = w ++ words argv ++ [0].
Proof.
  revert w arglen cnt st. induction argv as [| a argv IH]; intros w arglen cnt st -> H.
  - cbn in H. injection H as <- _ _. reflexivity.
  - cbn [init_args args_size foldr] in H. cbv zeta in H. fold (args_size argv) in H.
    replace (S (S (length a) + args_size argv) - 1 <? length a)%nat with false in H by (symmetry; apply Nat.ltb_ge; lia).
    chain H.
    assert (strncpy a (length a) = a) as Ea by (unfold strncpy; rewrite firstn_all, Nat.sub_diag; apply app_nil_r).
    rewrite Ea in H.
    replace (S (S (length a) + args_size argv)) with (length a + (2 + args_size argv))%nat in H by lia.
    rewrite <- (app_nil_r (replicate _ 0)), arg_front, app_nil_r in H.
    rewrite app_assoc, <- length_app in H.
    replace (replicate (2 + args_size argv) 0) with (replicate (length [32] + S (args_size argv)) 0 ++ []) in H by now rewrite app_nil_r.
    rewrite arg_front, app_nil_r, app_assoc in H.
    replace (length (w ++ a) + 1)%nat with (length ((w ++ a) ++ [32])) in H by (rewrite length_app; reflexivity).
    replace (length a + (2 + args_size argv) - (length a + 1))%nat with (S (args_size argv)) in H by lia.
    apply IH in H; [| reflexivity]. rewrite H. unfold words. cbn [map mjoin list_join foldr]. now rewrite <- !app_assoc.
Qed.

End Args.

(** After [task_init] the string [tt_argv], which the script that restarts tinatest after a
    reboot hands back, is the arguments with one blank between two of them: nothing is cut
    off, and nothing is written past its end. *)
Theorem tt_argv_joins {json} `{JsonC json} (root : json) alloc fuel a argv g st tt n :
  Forall cstr_ok (a :: argv) -> task_init root alloc fuel (a :: argv) = Some (g, st, tt, n) ->
  tt ++ [32] = words (a :: argv).
Proof.
  intros Hc E. unfold task_init in E. rewrite args_size_foldl, Nat.add_0_l in E. chain E. injection E as <- <- <- <-.
  match goal with H : init_args _ _ _ _ _ _ _ _ _ _ = _ |- _ => rename H into Hb end.
  match goal with H : cstring _ = _ |- _ => rename H into Hs end.
  change (replicate (S (args_size (a :: argv))) 0) with ([] ++ replicate (S (args_size (a :: argv))) 0) in Hb.
  apply (init_args_words _ _ _ _ _ []) in Hb; [| reflexivity]. rewrite Hb in Hs. cbn [app] in Hs.
  rewrite cstring_cstr in Hs by now apply words_cstr. injection Hs as <-.
  destruct (words_snoc a argv) as [w ->]. rewrite length_app, Nat.add_sub. f_equal. apply take_app_length.
Qed.

(** ** Examples *)

Definition text (s : String.string) : option tree := Some (TString (lit s)).

(** A document of the shape the documentation shows. *)
Definition ex_doc : tree :=
  TObject [
    (lit "sys", Some (TObject [(lit "local", Some (TObject [(lit "limit", Some (TObject [
       (lit "run_times", Some (TInt 5)); (lit "testcase_run_time", Some (TArray [text "10"; text "2"]))]))]))]));
    (lit "demo", Some (TObject [
       (lit "demo-c", Some (TObject [(lit "command", text "demo-c"); (lit "run_times", Some (TInt 100))]));
       (lit "demo-sh", Some (TObject [(lit "command", text "demo-sh.sh"); (lit "stdin", Some (TArray [text "y"]))]));
       (lit "off", Some (TObject [(lit "enable", Some (TBool false)); (lit "command", text "x")]))]))].

Definition everything : list Z -> bool := fun _ => true.

Lemma task_init_valid_witness :
  match task_init ex_doc everything 10 [] with
  | Some (g, st, _, n) => Forall task_ok (TASK_LIST st) /\ n = Z.of_nat (length (TASK_LIST st)) /\ n = 2
  | None => False
  end.
Proof.
  destruct (task_init ex_doc everything 10 []) as [[[[g st] tt] n] |] eqn:E; [| vm_compute in E; discriminate].
  destruct (task_init_valid ex_doc everything 10 [] g st tt n E) as (_ & H1 & _ & _ & H2).
  split_and!; [exact H1 | exact H2 |]. vm_compute in E. now injection E.
Defined.

Lemma task_init_lists_witness :
  exists g st, task_init ex_doc everything 4 [] = Some (g, st, [], 2) /\
    map (fun t => (keypath t, command t, env t)) (TASK_LIST st) =
      [(lit "/demo/demo-c", lit "demo-c", with_run_times 100 (with_run_time 130 default_local));
       (lit "/demo/demo-sh", lit "demo-sh.sh", with_run_times 5 (with_run_time 130 default_local))].
Proof.
  destruct (task_init_sysenv ex_doc) as [[g l] |] eqn:E; [| vm_compute in E; discriminate].
  destruct (task_init_lists ex_doc 4 g l E eq_refl eq_refl) as (st & H1 & H2).
  exists g, st. split; [exact H1 |]. rewrite H2. vm_compute in E. injection E as _ <-. vm_compute. reflexivity.
Defined.

Lemma tt_argv_joins_witness :
  exists g st, task_init ex_doc everything 4 [lit "/demo/demo-sh"; lit "/demo"] = Some (g, st, lit "/demo/demo-sh /demo", 2).
Proof.
  destruct (task_init ex_doc everything 4 [lit "/demo/demo-sh"; lit "/demo"]) as [[[[g st] tt] n] |] eqn:E; [| vm_compute in E; discriminate].
  exists g, st. pose proof (tt_argv_joins ex_doc everything 4 (lit "/demo/demo-sh") [lit "/demo"] g st tt n ltac:(repeat constructor) E) as H.
  assert (n = 2) as -> by (vm_compute in E; now injection E).
  apply (app_inv_tail [32] tt (lit "/demo/demo-sh /demo")) in H. now rewrite H.
Defined.

(** ** Where the code departs from what it means to do *)

(** json-c hands out null as NULL, and [mjson_get_value_from_obj] then leaves the shared
    buffer as it is: the member is read with the value of the one before it, and the first
    member of a node with memory nobody has written. *)
Lemma null_takes_previous_value :
  (exists e r, task_load_local_env (TObject [(lit "retries", Some (TInt 7)); (lit "run_times", None)]) default_local [47] = Some (e, r) /\
     run_times e = 7) /\
  task_load_local_env (TObject [(lit "run_times", None)]) default_local [47] = None.
Proof. split; [do 2 eexists; split |]; reflexivity. Qed.

(** A member of the root named by the empty string: its path is the path of the root, and
    [task_add] calls itself without end. *)
Lemma empty_name_never_ends fuel st :
  task_add (TObject [([], Some (TObject []))]) everything default_local fuel [47] st = None.
Proof.
  induction fuel as [| fuel IH]; [reflexivity |].
  transitivity ('(st, r) ← task_add (TObject [([], Some (TObject []))]) everything default_local fuel [47] st; Some (st, 0 + r));
    [reflexivity | now rewrite IH].
Qed.

(** A test case at the root with a name of 31 bytes: the buffer for its path is too short,
    and the test case is passed over. *)
Lemma long_name_passed_over :
  let name := replicate 31 97 in
  let doc := TObject [(name, Some (TObject [(lit "command", text "x")]))] in
  map fst (cases default_local 3 doc []) = [(47 :: name, lit "x")] /\
  exists st, task_add doc everything default_local 3 [47] (State [] (Shmem 0 [] 4096) false []) = Some (st, 0).
Proof. split; [| eexists]; vm_compute; reflexivity. Qed.

(** Two test cases share a log file when their paths differ in a slash and a dash only. *)
Lemma logpath_collides :
  task_logpath (lit "/base/rw-auto") default_local = task_logpath (lit "/base/rw/auto") default_local.
Proof. reflexivity. Qed.

(** The path of a value that is not an object: the members of NULL are read. *)
Lemma path_to_string_undefined st :
  task_add ex_doc everything default_local 3 (lit "/demo/demo-c/command") st = None.
Proof. reflexivity. Qed.

(** [task_init] asks for shared memory before it knows the number of test cases, and
    [shmem_probe] does not look at the size: the block of the 820th test case lies outside. *)
Lemma shared_memory_overrun s i : shmem_init 0 = Some s -> in_segment s i = true <-> (i < Z.to_nat 819)%nat.
Proof. intros [= <-]. unfold in_segment. cbn [segment]. rewrite Z.leb_le. lia. Qed.

(** The line of an array that is longer than the buffer of [mjson_draw_tree] is written past
    its end; so are more than 30 strings into a [struct mjson_value]. *)
Lemma draw_tree_overruns :
  mjson_draw_tree (TObject [(lit "stdin", Some (TArray [Some (TString (replicate 60 97)); Some (TString (replicate 60 98))]))]) 3 [47] (-1) = None /\
  mjson_fetch (TObject [(lit "stdin", Some (TArray (replicate 31 (text "y"))))]) (lit "/stdin") = None.
Proof. split; vm_compute; reflexivity. Qed.

Example draw_tree_example :
  mjson_draw_tree (TObject [(lit "demo", Some (TObject [(lit "run_times", Some (TInt 3)); (lit "stdin", Some (TArray [text "y"; text "n"]))]))]) 3 [47] (-1) =
    Some (lit ". (/)" ++ [10] ++ lit "|-- demo" ++ [10] ++ lit "|   |-- run_times = 3" ++ [10] ++
          lit "|   |-- stdin = [" ++ [34; 121; 34; 44; 34; 110; 34; 93; 10], -1).
Proof. vm_compute. reflexivity. Qed.

(** The documentation gives "date" and "resource" the default 1. *)
Lemma date_is_off_by_default : date default_local = false /\ resource default_local = false.
Proof. split; reflexivity. Qed.
