(* ===== verification/Sched.v ===== *)
(** * Sched: how tinatest runs its test cases

    Models the part of [allwinner/testtools/tinatest/src/core/task.c] from [task_begin] on:
    the main thread starts the test cases of the list, the thread [task_recycle] waits for
    processes that end and starts a test case again until it has run often enough, and for
    every run there are the process of the test and two that limit its time.  [mshmem] and
    the pipe of [library/sync/sync.c] are part of the state.

    A step of a thread is what lies between two accesses to data the other one writes: the
    counters, [run_times] and [pid], [pgid], the pipe, the lock, the children.  The scan of
    one test case's pids is one step: a pid is stored before [run_times] counts it, so a
    scan that finds nothing is as good as one at the moment its last pid is read.  A loop
    that only sleeps until a condition changes is a step that waits for it.  The kernel gives
    every process a new pid; any process may end at any time and in any way, so [kill] is
    recorded, with no effect of its own, but for a signal to the program's own group.
    Dates, resources, the log modules and collectd are left out. *)
From Stdlib Require Import String.
From stdpp Require Import gmap.
From S2P Require Import Prelude CString TaskConf.

#[local] Open Scope list_scope.
#[local] Open Scope Z_scope.

(** ** State *)

Inductive task_status := TASK_END | TASK_WAIT | TASK_RUN.

#[global] Instance task_status_eq_dec : EqDecision task_status.
Proof. solve_decision. Defined.

(** The fields of [struct task] and of its shared memory that change; the others are those of
    [TaskConf.task].  [run_times] is here [done_times], as the limit has that name too. *)
Record tcb := Tcb {
  status : task_status;
  killed : list Z;
  pid : list Z;
  pid_limit : Z;
  result : list Z;
  done_times : nat;
  rebooted_times : Z;
  pgid : Z;
  quit : bool;
}.

Definition with_tstatus s t := Tcb s (killed t) (pid t) (pid_limit t) (result t) (done_times t) (rebooted_times t) (pgid t) (quit t).
Definition with_killed l t := Tcb (status t) l (pid t) (pid_limit t) (result t) (done_times t) (rebooted_times t) (pgid t) (quit t).
Definition with_pid l t := Tcb (status t) (killed t) l (pid_limit t) (result t) (done_times t) (rebooted_times t) (pgid t) (quit t).
Definition with_pid_limit p t := Tcb (status t) (killed t) (pid t) p (result t) (done_times t) (rebooted_times t) (pgid t) (quit t).
Definition with_result l t := Tcb (status t) (killed t) (pid t) (pid_limit t) l (done_times t) (rebooted_times t) (pgid t) (quit t).
Definition with_done n t := Tcb (status t) (killed t) (pid t) (pid_limit t) (result t) n (rebooted_times t) (pgid t) (quit t).
Definition with_rebooted n t := Tcb (status t) (killed t) (pid t) (pid_limit t) (result t) (done_times t) n (pgid t) (quit t).
Definition with_pgid p t := Tcb (status t) (killed t) (pid t) (pid_limit t) (result t) (done_times t) (rebooted_times t) p (quit t).
Definition with_quit b t := Tcb (status t) (killed t) (pid t) (pid_limit t) (result t) (done_times t) (rebooted_times t) (pgid t) b.

(** What a process is for: the limit on the whole program, on a test case, on one run of it,
    or the run itself. *)
Inductive kind := Whole | All (i : nat) | Once (i : nat) | Test (i num : nat).

#[global] Instance kind_eq_dec : EqDecision kind.
Proof. solve_decision. Defined.

(** The status [wait4] delivers. *)
Inductive wstatus := Exited (code : Z) | Signaled (sig : Z) | Invalid.

#[global] Instance wstatus_eq_dec : EqDecision wstatus.
Proof. solve_decision. Defined.

Definition SIGKILL : Z := 9.
Definition SIGALRM : Z := 14.
Definition SIGTERM : Z := 15.

(** Where a thread is inside [task_do] for a test case. *)
Inductive do_pc :=
  | DoLock | DoInit | DoCheck | DoSub | DoTell | DoLast
  | DoAll | DoOnce | DoGroup (p : Z) | DoFork | DoRecord (p : Z) | DoUnlock (ret : Z).

(** [task_begin]; the number is the test case in the list. *)
Inductive main_pc :=
  | MHello | MLimit (i : nat) | MWait (i : nat) | MAlone (i : nat) | MBegin (i : nat)
  | MDo (i : nat) (d : do_pc) | MAdd (i : nat) | MErr (i : nat) | MErrCount (i : nat) | MAfter (i : nat)
  | MJoin | MClean.

(** [task_recycle]: [p] and [s] are what [wait4] has returned. *)
Inductive rec_pc :=
  | RHello | RTop | RWait
  | RWalk (p : Z) (s : wstatus) (i : nat) | RScan (p : Z) (s : wstatus) (i num : nat)
  | RCheck (p : Z) (s : wstatus) (i num : nat)
  | RSub (p : Z) (s : wstatus) (i num : nat) | RTell (p : Z) (s : wstatus) (i num : nat)
  | RDo (p : Z) (s : wstatus) (i num : nat) (d : do_pc)
  | RAfter (p : Z) (s : wstatus) (i num : nat)
  | ROut | RExited.

Inductive thread := Main | Recycler.

#[global] Instance thread_eq_dec : EqDecision thread.
Proof. solve_decision. Defined.

(** Events the program does not take note of: a death that was looked for before its pid was
    stored, a start by main that failed, before and after a first process of the test case
    had started, and a start by the recycler that failed. *)
Inductive mishap := LostDeath (i : nat) | StartFailed (i : nat) | LateFailure (i : nat) | RepeatFailed (i : nat).

#[global] Instance mishap_eq_dec : EqDecision mishap.
Proof. solve_decision. Defined.

(** How the program ends. *)
Inductive ending := Returned | KilledSelf.

(** [procs]: the children not yet waited for, with the status of those that have ended;
    [born]: what every process was started for; [kills]: the calls of [kill]; [pipe]: the
    bytes in the pipe; the state of the reboot mode and whether its script is installed. *)
Record world := World {
  tcbs : list tcb;
  running_cnt : Z;
  end_cnt : Z;
  tt_quit : bool;
  pipe : nat;
  do_task_lock : option thread;
  procs : gmap Z (option wstatus);
  born : gmap Z kind;
  next_pid : Z;
  limit_pid : Z;
  main_at : main_pc;
  rec_at : rec_pc;
  reboot : bool;
  reboot_path : list Z;
  reboot_run_times : nat;
  reboots : Z;
  boot_script : bool;
  kills : list (Z * Z);
  mishaps : list mishap;
  over : option ending;
}.

Definition set_tcbs l w := World l (running_cnt w) (end_cnt w) (tt_quit w) (pipe w) (do_task_lock w) (procs w) (born w) (next_pid w) (limit_pid w) (main_at w) (rec_at w) (reboot w) (reboot_path w) (reboot_run_times w) (reboots w) (boot_script w) (kills w) (mishaps w) (over w).
Definition set_counts r e w := World (tcbs w) r e (tt_quit w) (pipe w) (do_task_lock w) (procs w) (born w) (next_pid w) (limit_pid w) (main_at w) (rec_at w) (reboot w) (reboot_path w) (reboot_run_times w) (reboots w) (boot_script w) (kills w) (mishaps w) (over w).
Definition set_tt_quit b w := World (tcbs w) (running_cnt w) (end_cnt w) b (pipe w) (do_task_lock w) (procs w) (born w) (next_pid w) (limit_pid w) (main_at w) (rec_at w) (reboot w) (reboot_path w) (reboot_run_times w) (reboots w) (boot_script w) (kills w) (mishaps w) (over w).
Definition set_pipe n w := World (tcbs w) (running_cnt w) (end_cnt w) (tt_quit w) n (do_task_lock w) (procs w) (born w) (next_pid w) (limit_pid w) (main_at w) (rec_at w) (reboot w) (reboot_path w) (reboot_run_times w) (reboots w) (boot_script w) (kills w) (mishaps w) (over w).
Definition set_lock o w := World (tcbs w) (running_cnt w) (end_cnt w) (tt_quit w) (pipe w) o (procs w) (born w) (next_pid w) (limit_pid w) (main_at w) (rec_at w) (reboot w) (reboot_path w) (reboot_run_times w) (reboots w) (boot_script w) (kills w) (mishaps w) (over w).
Definition set_procs m w := World (tcbs w) (running_cnt w) (end_cnt w) (tt_quit w) (pipe w) (do_task_lock w) m (born w) (next_pid w) (limit_pid w) (main_at w) (rec_at w) (reboot w) (reboot_path w) (reboot_run_times w) (reboots w) (boot_script w) (kills w) (mishaps w) (over w).
Definition set_born m p w := World (tcbs w) (running_cnt w) (end_cnt w) (tt_quit w) (pipe w) (do_task_lock w) (procs w) m p (limit_pid w) (main_at w) (rec_at w) (reboot w) (reboot_path w) (reboot_run_times w) (reboots w) (boot_script w) (kills w) (mishaps w) (over w).
Definition set_main m w := World (tcbs w) (running_cnt w) (end_cnt w) (tt_quit w) (pipe w) (do_task_lock w) (procs w) (born w) (next_pid w) (limit_pid w) m (rec_at w) (reboot w) (reboot_path w) (reboot_run_times w) (reboots w) (boot_script w) (kills w) (mishaps w) (over w).
Definition set_rec r w := World (tcbs w) (running_cnt w) (end_cnt w) (tt_quit w) (pipe w) (do_task_lock w) (procs w) (born w) (next_pid w) (limit_pid w) (main_at w) r (reboot w) (reboot_path w) (reboot_run_times w) (reboots w) (boot_script w) (kills w) (mishaps w) (over w).
Definition set_reboot b path n k w := World (tcbs w) (running_cnt w) (end_cnt w) (tt_quit w) (pipe w) (do_task_lock w) (procs w) (born w) (next_pid w) (limit_pid w) (main_at w) (rec_at w) b path n k (boot_script w) (kills w) (mishaps w) (over w).
Definition set_script b w := World (tcbs w) (running_cnt w) (end_cnt w) (tt_quit w) (pipe w) (do_task_lock w) (procs w) (born w) (next_pid w) (limit_pid w) (main_at w) (rec_at w) (reboot w) (reboot_path w) (reboot_run_times w) (reboots w) b (kills w) (mishaps w) (over w).
Definition add_kill k w := World (tcbs w) (running_cnt w) (end_cnt w) (tt_quit w) (pipe w) (do_task_lock w) (procs w) (born w) (next_pid w) (limit_pid w) (main_at w) (rec_at w) (reboot w) (reboot_path w) (reboot_run_times w) (reboots w) (boot_script w) (k :: kills w) (mishaps w) (over w).
Definition add_mishap m w := World (tcbs w) (running_cnt w) (end_cnt w) (tt_quit w) (pipe w) (do_task_lock w) (procs w) (born w) (next_pid w) (limit_pid w) (main_at w) (rec_at w) (reboot w) (reboot_path w) (reboot_run_times w) (reboots w) (boot_script w) (kills w) (m :: mishaps w) (over w).
Definition set_over o w := World (tcbs w) (running_cnt w) (end_cnt w) (tt_quit w) (pipe w) (do_task_lock w) (procs w) (born w) (next_pid w) (limit_pid w) (main_at w) (rec_at w) (reboot w) (reboot_path w) (reboot_run_times w) (reboots w) (boot_script w) (kills w) (mishaps w) o.

(** A change to one test case. *)
Definition upd (i : nat) (f : tcb -> tcb) (w : world) : world := set_tcbs (alter f i (tcbs w)) w.

(** The next pid is that of a new process. *)
Definition spawn (k : kind) (w : world) : world :=
  set_born (<[next_pid w := k]> (born w)) (next_pid w + 1) (set_procs (<[next_pid w := None]> (procs w)) w).

(** A step that cannot be taken, or whose effect the standard leaves open. *)
Inductive res := Next (w : world) | Blocked | Undef.

(** The same for a step of [task_do], which may return. *)
Inductive dres := DNext (w : world) (d : do_pc) | DRet (w : world) (ret : Z) | DBlocked | DUndef.

(** ** Operations *)

Section Tinatest.

Variables (tasks : list task) (g_env : global_env).

Definition tasks_cnt : Z := Z.of_nat (length tasks).

(** The settings of a test case. *)
Definition env_of (i : nat) : local_env := match tasks !! i with Some t => env t | None => default_local end.
Definition path_at (i : nat) : list Z := match tasks !! i with Some t => keypath t | None => [] end.
Definition times (i : nat) : nat := Z.to_nat (run_times (env_of i)).

Definition blank (n : nat) : tcb := Tcb TASK_WAIT (replicate n 0) (replicate n 0) 0 (replicate n 0) 0 0 0 false.
Definition tcb_at (i : nat) (w : world) : tcb := match tcbs w !! i with Some t => t | None => blank 0 end.

Inductive count_op := ADD | SUB | ERR.

(** [task_mod_running_cnt(num)]: SUB falls through to ERR. *)
Definition task_mod_running_cnt (num : count_op) (w : world) : world :=
  match num with
  | ADD => set_counts (running_cnt w + 1) (end_cnt w) w
  | SUB => set_counts (running_cnt w - 1) (end_cnt w + 1) w
  | ERR => set_counts (running_cnt w) (end_cnt w + 1) w
  end.

(** [task_clean_reboot]. *)
Definition task_clean_reboot (w : world) : world := set_script false (set_reboot false [] 0 0 w).

(** [task_init_reboot_mode(task)]: whether the script and the status file could be written. *)
Definition task_init_reboot_mode (i : nat) (script_ok status_ok : bool) (w : world) : world * Z :=
  let '(w, ok) :=
    if reboot w then (upd i (fun t => with_rebooted (reboots w) (with_done (reboot_run_times w) t)) w, true)
    else
      let w := set_reboot false (path_at i) (done_times (tcb_at i w)) (reboots w) w in
      if script_ok then (set_script true w, true) else (task_clean_reboot w, false) in
  if ok then (w, if status_ok then 0 else -1) else (w, -1).

(** [task_recycle_end(task)] up to the counters, and from there on. *)
Definition recycle_end_sub (i : nat) (w : world) : world :=
  let t := tcb_at i w in
  let w := if 0 <? pid_limit t then add_kill (pid_limit t, SIGTERM) w else w in
  let w := if run_parallel (env_of i) then add_kill (- pgid t, SIGTERM) w else w in
  if reboot w && may_reboot (env_of i) then
    let w := task_clean_reboot w in
    if 0 <? running_cnt w then task_mod_running_cnt SUB w else w
  else task_mod_running_cnt SUB w.

Definition recycle_end_tell (i : nat) (w : world) : world :=
  let w := if running_cnt w + 1 =? run_cnt_up_to g_env then set_pipe (S (pipe w)) w else w in
  upd i (with_tstatus TASK_END) w.

(** [kill(pid, 0) == 0]: a child that has not been waited for; every process for -1. *)
Definition exists_pid (p : Z) (w : world) : bool := (p =? -1) || bool_decide (is_Some (procs w !! p)).

(** A step of [task_do(task)] by the thread [th]; [ok] and [ok2]: whether the calls of it
    that may fail succeed.  [task_do_limit_tinatest_all] is [DoAll]: its failure goes
    unnoticed; [task_do_limit_tinatest_once] is [DoOnce] and [DoGroup]; [task_do_testcase] is
    [DoFork] and [DoRecord]. *)
Definition do_step (th : thread) (i : nat) (d : do_pc) (ok ok2 : bool) (w : world) : dres :=
  let t := tcb_at i w in
  match d with
  | DoLock =>
      match do_task_lock w with
      | None => DNext (set_lock (Some th) w) DoInit
      | Some _ => DBlocked
      end
  | DoInit =>
      if may_reboot (env_of i) then
        let '(w, r) := task_init_reboot_mode i ok ok2 w in
        if r <? 0 then DNext (set_reboot false (reboot_path w) (reboot_run_times w) (reboots w) w) (DoUnlock (-1))
        else DNext w DoCheck
      else DNext w DoCheck
  | DoCheck =>
      if (times i <=? done_times t)%nat then
        if reboot w then
          if (done_times t - 1 <? length (result t))%nat then
            DNext (upd i (with_result (<[(done_times t - 1)%nat := 0]> (result t))) w) DoSub
          else DUndef
        else DNext w DoLast
      else DNext w DoAll
  | DoSub => DNext (recycle_end_sub i w) DoTell
  | DoTell => DNext (recycle_end_tell i w) DoLast
  | DoLast =>
      let w := task_mod_running_cnt SUB w in
      DNext (if end_cnt w =? tasks_cnt then add_kill (limit_pid w, SIGTERM) w else w) (DoUnlock 0)
  | DoAll =>
      if negb (pid_limit t =? 0) && exists_pid (pid_limit t) w then DNext w DoOnce
      else if ok then DNext (upd i (with_pid_limit (next_pid w)) (spawn (All i) w)) DoOnce
      else DNext (upd i (with_pid_limit (-1)) w) DoOnce
  | DoOnce => if ok then DNext (spawn (Once i) w) (DoGroup (next_pid w)) else DNext w (DoUnlock (-1))
  | DoGroup p => if ok then DNext (upd i (with_pgid p) w) DoFork else DNext w (DoUnlock (-1))
  | DoFork =>
      if (done_times t <? length (pid t))%nat then
        if ok then DNext (spawn (Test i (done_times t)) w) (DoRecord (next_pid w))
        else DNext (add_kill (- Z.abs (pgid t), SIGTERM) (upd i (with_pid (<[done_times t := -1]> (pid t))) w)) (DoUnlock (-1))
      else DUndef
  | DoRecord p =>
      let w := upd i (fun t => with_done (S (done_times t)) (with_pid (<[done_times t := p]> (pid t)) t)) w in
      if run_parallel (env_of i) && (S (done_times t) <? times i)%nat then DNext w DoFork else DNext w (DoUnlock 0)
  | DoUnlock ret => DRet (set_lock None w) ret
  end.

(** The result of one run: [timeout_as_failed] is a [bool], whatever is assigned to it. *)
Definition result_of (e : local_env) (s : wstatus) : Z :=
  match s with
  | Exited code => code
  | Signaled sig => if sig =? SIGALRM then Z.b2z (timeout_as_failed e) else sig
  | Invalid => -1
  end.

(** [task_recycle_once(task, num, status, pid, res)]. *)
Definition task_recycle_once (i num : nat) (s : wstatus) (p : Z) (w : world) : world :=
  let e := env_of i in
  let w := upd i (fun t => with_pid (<[num := - p]> (pid t)) t) w in
  let w := match s with Signaled sig => upd i (fun t => with_killed (<[num := sig]> (killed t)) t) w | _ => w end in
  let w := upd i (fun t => with_result (<[num := result_of e s]> (result t)) t) w in
  let w := if negb (result_of e s =? 0) && exit_once_failed e then upd i (with_quit true) w else w in
  let t := tcb_at i w in
  if negb (run_parallel e) && (0 <? pgid t) then add_kill (- pgid t, SIGTERM) w else w.

(** [task_check_end(task)]. *)
Definition task_check_end (i : nat) (w : world) : bool :=
  let t := tcb_at i w in
  if tt_quit w || quit t then true
  else if run_parallel (env_of i) && existsb (fun p => 0 <? p) (take (done_times t) (pid t)) then false
  else negb (done_times t <? times i)%nat.

(** The scan of [task_recycle] over the pids of a test case from [num] on. *)
Fixpoint find_pid (p : Z) (l : list Z) (num : nat) : option nat :=
  match l with
  | [] => None
  | q :: l => if p =? q then Some num else find_pid p l (S num)
  end.

Definition scan_pids (p : Z) (i num : nat) (w : world) : option nat :=
  let t := tcb_at i w in find_pid p (drop num (take (done_times t) (pid t))) num.

(** The death of a test that its test case does not recognise. *)
Definition note_loss (p : Z) (i : nat) (w : world) : world :=
  match born w !! p with
  | Some (Test j _) => if (i =? j)%nat && bool_decide (status (tcb_at i w) = TASK_RUN) then add_mishap (LostDeath i) w else w
  | _ => w
  end.

(** ** Steps *)

(** [task_begin]. *)
Definition main_step (ok ok2 : bool) (w : world) : res :=
  match main_at w with
  | MHello => match pipe w with O => Blocked | S n => Next (set_main (if (0 <? length tasks)%nat then MLimit 0 else MJoin) (set_pipe n w)) end
  | MLimit i => Next (set_main (if run_cnt_up_to g_env <=? running_cnt w then MWait i else MAlone i) w)
  | MWait i => match pipe w with O => Blocked | S n => Next (set_main (MLimit i) (set_pipe n w)) end
  | MAlone i => if run_alone (env_of i) && (0 <? running_cnt w) then Blocked else Next (set_main (MBegin i) w)
  | MBegin i =>
      if reboot w && negb (bool_decide (reboot_path w = path_at i)) then
        Next (set_main (MErrCount i) (upd i (with_tstatus TASK_END) w))
      else Next (set_main (MDo i DoLock) (upd i (with_tstatus TASK_RUN) w))
  | MDo i d =>
      match do_step Main i d ok ok2 w with
      | DNext w d => Next (set_main (MDo i d) w)
      | DRet w ret => Next (set_main (if ret =? 0 then MAdd i else MErr i) w)
      | DBlocked => Blocked
      | DUndef => Undef
      end
  | MAdd i => Next (set_main (MAfter i) (task_mod_running_cnt ADD w))
  | MErr i =>
      let t := tcb_at i w in
      if (done_times t <? length (result t))%nat then
        let w := add_mishap (if (done_times t =? 0)%nat then StartFailed i else LateFailure i) w in
        Next (set_main (MErrCount i) (upd i (fun t => with_tstatus TASK_END (with_result (<[done_times t := -1]> (result t)) t)) w))
      else Undef
  | MErrCount i => Next (set_main (if (S i <? length tasks)%nat then MLimit (S i) else MJoin) (task_mod_running_cnt ERR w))
  | MAfter i =>
      if run_alone (env_of i) && (0 <? running_cnt w) && negb (end_cnt w + 1 =? tasks_cnt) then Blocked
      else Next (set_main (if (S i <? length tasks)%nat then MLimit (S i) else MJoin) w)
  | MJoin => match rec_at w with RExited => Next (set_main MClean w) | _ => Blocked end
  | MClean =>
      (* the shared memory is gone when the handler of a signal to the own group runs *)
      if limit_pid w =? 0 then Undef
      else Next (set_over (Some Returned) (add_kill (limit_pid w, SIGTERM) w))
  end.

(** [task_recycle]; [p] is the child [wait4] chooses. *)
Definition rec_step (ok ok2 : bool) (p : Z) (w : world) : res :=
  match rec_at w with
  | RHello => Next (set_rec RTop (set_pipe (S (pipe w)) w))
  | RTop => Next (set_rec (if end_cnt w =? tasks_cnt then ROut else RWait) w)
  | RWait =>
      if bool_decide (procs w = ∅) then
        if end_cnt w =? tasks_cnt then Next (set_rec RTop w) else Blocked
      else
        match procs w !! p with
        | Some (Some s) => Next (set_rec (RWalk p s 0) (set_procs (delete p (procs w)) w))
        | _ => Blocked
        end
  | RWalk p s i =>
      if (i <? length tasks)%nat then
        let t := tcb_at i w in
        if negb (bool_decide (status t = TASK_RUN)) then Next (set_rec (RWalk p s (S i)) w)
        else if pgid t =? p then Next (set_rec RTop (upd i (with_pgid (- p)) w))
        else Next (set_rec (RScan p s i 0) w)
      else Next (set_rec RTop w)
  | RScan p s i num =>
      match scan_pids p i num w with
      | Some n => Next (set_rec (RCheck p s i n) (task_recycle_once i n s p w))
      | None => Next (set_rec (RWalk p s (S i)) (match num with O => note_loss p i w | _ => w end))
      end
  | RCheck p s i num =>
      Next (set_rec (if task_check_end i w then RSub p s i num
                     else if run_parallel (env_of i) then RAfter p s i num else RDo p s i num DoLock) w)
  | RSub p s i num => Next (set_rec (RTell p s i num) (recycle_end_sub i w))
  | RTell p s i num => Next (set_rec (RAfter p s i num) (recycle_end_tell i w))
  | RDo p s i num d =>
      match do_step Recycler i d ok ok2 w with
      | DNext w d => Next (set_rec (RDo p s i num d) w)
      | DRet w ret => Next (set_rec (RAfter p s i num) (if ret =? 0 then w else add_mishap (RepeatFailed i) w))
      | DBlocked => Blocked
      | DUndef => Undef
      end
  | RAfter p s i num =>
      if nth num (result (tcb_at i w)) 0 =? 0 then Next (set_rec RTop w)
      else if negb (exit_tinatest_when_fail (env_of i)) then Next (set_rec (RScan p s i (S num)) w)
      else
        (* the list is walked while its entries are freed *)
        if (1 <? length tasks)%nat then Undef else Next (set_rec ROut w)
  | ROut => Next (set_rec RExited w)
  | RExited => Blocked
  end.

(** [task_signal_quit] in the program itself: [kill(-abs(0), SIGKILL)] reaches the program. *)
Definition task_signal_quit (w : world) : world :=
  let w := set_tt_quit true w in
  foldl (fun w t =>
    match over w with
    | Some _ => w
    | None => let w := add_kill (- Z.abs (pgid t), SIGKILL) w in if pgid t =? 0 then set_over (Some KilledSelf) w else w
    end) w (tcbs w).

(** A step of a thread; the end of a process; the end of the time of a test case; the end of
    the whole time or a signal to the program. *)
Inductive act :=
  | StepMain (ok ok2 : bool) | StepRec (ok ok2 : bool) (p : Z)
  | Die (p : Z) (s : wstatus) | Expire (p : Z) | Signal (deadline : bool).

Definition step (a : act) (w : world) : res :=
  match over w with
  | Some _ => Blocked
  | None =>
      match a with
      | StepMain ok ok2 => main_step ok ok2 w
      | StepRec ok ok2 p => rec_step ok ok2 p w
      | Die p s =>
          match procs w !! p, born w !! p with
          | Some None, Some Whole =>
              if bool_decide ((p, SIGTERM) ∈ kills w) then Next (set_procs (<[p := Some s]> (procs w)) w) else Blocked
          | Some None, Some _ => Next (set_procs (<[p := Some s]> (procs w)) w)
          | _, _ => Blocked
          end
      | Expire p =>
          match procs w !! p, born w !! p with
          | Some None, Some (All i) =>
              let w := upd i (with_quit true) w in
              let w := if 0 <? pgid (tcb_at i w) then add_kill (- pgid (tcb_at i w), SIGALRM) w else w in
              Next (set_procs (<[p := Some (Exited 0)]> (procs w)) w)
          | _, _ => Blocked
          end
      | Signal deadline =>
          if deadline then
            match procs w !! limit_pid w with
            | Some None => Next (task_signal_quit (set_procs (<[limit_pid w := Some (Exited SIGALRM)]> (procs w)) w))
            | _ => Blocked
            end
          else Next (task_signal_quit w)
      end
  end.

(** After [task_begin_init] and [pthread_create]: the process that limits the whole time has
    been started if that time is not 0.  The test cases are as [task_init] leaves them; the
    state of the reboot mode is that of [task_recover_after_reboot]. *)
Definition start (rb : bool) (path : list Z) (n : nat) (k : Z) : world :=
  let w := World (map (fun t => blank (Z.to_nat (run_times (env t)))) tasks) 0 0 false 0 None ∅ ∅ 2 0 MHello RHello rb path n k rb [] [] None in
  if 0 <? tinatest_run_time_sec g_env then
    spawn Whole (World (tcbs w) 0 0 false 0 None ∅ ∅ 2 2 MHello RHello rb path n k rb [] [] None)
  else w.

Inductive steps : list act -> world -> world -> Prop :=
  | steps_nil w : steps [] w w
  | steps_cons a acts w w' w'' : step a w = Next w' -> steps acts w' w'' -> steps (a :: acts) w w''.

(** The same as a function. *)
Fixpoint exec (acts : list act) (w : world) : res :=
  match acts with [] => Next w | a :: acts => match step a w with Next w => exec acts w | r => r end end.

(** What the program can come to from its start without [-r]. *)
Definition reach (w : world) : Prop := exists acts, steps acts (start false [] 0 0) w.

(** ** What should happen *)

(** A test case is being run: it has been started and not been counted as ended. *)
Definition ending_now (w : world) : option nat := match rec_at w with RTell _ _ i _ => Some i | _ => None end.
Definition active (w : world) (i : nat) : bool :=
  bool_decide (status (tcb_at i w) = TASK_RUN) && negb (bool_decide (ending_now w = Some i)).
Definition active_count (w : world) : nat := length (List.filter (active w) (seq 0 (length tasks))).

Definition late (m : mishap) : bool := match m with LateFailure _ => true | _ => false end.

(** Nothing can happen but a signal or the end of the whole time. *)
Definition stuck (w : world) : Prop :=
  forall a w', match a with Signal _ => False | _ => True end -> step a w <> Next w'.

End Tinatest.
