(* ===== verification/SchedRun.v ===== *)
(** * SchedRun: the invariants of tinatest's scheduler

    For a list of test cases that do not reboot ([Section Run]), what every step of [Sched]
    keeps: [basic], the structure of the state; [counted], the counters against the test cases
    that run; [held], the limit, the test cases that run alone and the pipe; [lively], that
    someone still sees to every test case that runs.  [stuck_over] and [returned_completed] are
    what follows of a state in which nothing can happen; [measure] is what every step but a
    signal makes smaller.  The theorems are in [SchedThm]. *)
From Stdlib Require Import String.
From stdpp Require Import gmap.
From S2P Require Import Prelude CString TaskConf Sched.

#[local] Open Scope list_scope.
#[local] Open Scope Z_scope.

Lemma tcb_at_ne i j f w : i <> j -> tcb_at j (upd i f w) = tcb_at j w.
Proof. intros H. unfold tcb_at, upd. cbn. now rewrite list_lookup_alter_ne. Qed.

Lemma tcb_at_eq i f w : (i < length (tcbs w))%nat -> tcb_at i (upd i f w) = f (tcb_at i w).
Proof.
  intros H. unfold tcb_at, upd. cbn. rewrite list_lookup_alter_eq. destruct (lookup_lt_is_Some_2 _ _ H) as [t Ht]. now rewrite Ht.
Qed.

Section Run.
Variables (tasks : list task) (g_env : global_env).
Hypothesis times_pos : forall i, (i < length tasks)%nat -> 0 < run_times (env_of tasks i).
Hypothesis no_reboot : forall i, may_reboot (env_of tasks i) = false.
Hypothesis limit_pos : 0 < run_cnt_up_to g_env.

Abbreviation n := (length tasks).
Abbreviation times := (times tasks).
Abbreviation parallel i := (run_parallel (env_of tasks i)).

(** ** The structure of the state *)

(** The test cases from this one on have not been touched. *)
Definition untouched (m : main_pc) : nat :=
  match m with
  | MHello => 0
  | MLimit i | MWait i | MAlone i | MBegin i => i
  | MDo i _ | MAdd i | MErr i | MErrCount i | MAfter i => S i
  | MJoin | MClean => n
  end.

Definition kind_ok (w : world) (k : kind) : Prop :=
  match k with Whole => True | All i | Once i | Test i _ => (i < untouched (main_at w))%nat end.

(** A thread that may start a run of a test case. *)
Definition fresh (th : thread) (i : nat) (w : world) : Prop :=
  let t := tcb_at i w in
  match th with
  | Main => (done_times t < times i)%nat /\ (parallel i = false -> done_times t = O)
  | Recycler => parallel i = false /\ (0 < done_times t < times i)%nat
  end.

Definition do_ok (th : thread) (i : nat) (d : do_pc) (w : world) : Prop :=
  match d with
  | DoSub | DoTell | DoLast => False
  | DoLock | DoInit | DoCheck | DoAll | DoOnce | DoFork => fresh th i w
  | DoGroup p => fresh th i w /\ born w !! p = Some (Once i)
  | DoRecord p => fresh th i w /\ born w !! p = Some (Test i (done_times (tcb_at i w)))
  | DoUnlock r => (r = 0 /\ (0 < done_times (tcb_at i w))%nat) \/ (r = -1 /\ fresh th i w)
  end.

Definition main_ok (w : world) : Prop :=
  match main_at w with
  | MLimit i | MWait i | MAlone i | MBegin i | MErrCount i | MAfter i => (i < n)%nat
  | MAdd i => (i < n)%nat /\ (0 < done_times (tcb_at i w))%nat
  | MErr i => (i < n)%nat /\ fresh Main i w
  | MDo i d => (i < n)%nat /\ do_ok Main i d w
  | _ => True
  end.

Definition walking (w : world) (p : Z) : Prop := procs w !! p = None /\ is_Some (born w !! p).

Definition rec_ok (w : world) : Prop :=
  match rec_at w with
  | RWalk p s i => walking w p
  | RScan p s i num => walking w p /\ (i < n)%nat
  | RCheck p s i num | RSub p s i num | RTell p s i num | RAfter p s i num =>
      walking w p /\ (i < n)%nat /\ (num < done_times (tcb_at i w))%nat
  | RDo p s i num d =>
      walking w p /\ (i < n)%nat /\ (num < done_times (tcb_at i w))%nat /\ parallel i = false /\ do_ok Recycler i d w
  | _ => True
  end.

(** Who is past the lock. *)
Definition in_main (w : world) : bool := match main_at w with MDo _ DoLock => false | MDo _ _ => true | _ => false end.
Definition in_rec (w : world) : bool := match rec_at w with RDo _ _ _ _ DoLock => false | RDo _ _ _ _ _ => true | _ => false end.

Record tcb_ok (w : world) (i : nat) : Prop := {
  pids_length : length (pid (tcb_at i w)) = times i;
  results_length : length (result (tcb_at i w)) = times i;
  done_bound : (done_times (tcb_at i w) <= times i)%nat;
  pid_born num p : pid (tcb_at i w) !! num = Some p -> 0 < p -> born w !! p = Some (Test i num) /\ (num < done_times (tcb_at i w))%nat;
  pid_used num p : pid (tcb_at i w) !! num = Some p -> (num < done_times (tcb_at i w))%nat -> p <> 0;
  pgid_born : 0 < pgid (tcb_at i w) -> born w !! (pgid (tcb_at i w)) = Some (Once i);
}.

Record basic (w : world) : Prop := {
  tcbs_length : length (tcbs w) = n;
  no_reboot_mode : reboot w = false;
  next_pos : 1 < next_pid w;
  born_range p k : born w !! p = Some k -> 1 < p < next_pid w /\ kind_ok w k;
  procs_born p s : procs w !! p = Some s -> is_Some (born w !! p);
  all_tcbs i : (i < n)%nat -> tcb_ok w i;
  rest_blank i : (untouched (main_at w) <= i < n)%nat -> tcb_at i w = blank (times i);
  main_fine : main_ok w;
  rec_fine : rec_ok w;
  lock_fine : do_task_lock w = (if in_main w then Some Main else if in_rec w then Some Recycler else None);
  lock_excl : in_main w && in_rec w = false;
}.

Lemma times_spec i : (i < n)%nat -> (0 < times i)%nat.
Proof. intros H. specialize (times_pos i H). unfold Sched.times. lia. Qed.

Lemma start_basic : basic (start tasks g_env false [] 0 0).
Proof.
  assert (forall i w, (i < n)%nat -> tcbs w = map (fun t => blank (Z.to_nat (run_times (env t)))) tasks -> tcb_at i w = blank (times i)) as Hb.
  { intros i w Hi E. unfold tcb_at, Sched.times, env_of. rewrite E, list_lookup_fmap.
    destruct (lookup_lt_is_Some_2 _ _ Hi) as [t Ht]. now rewrite Ht. }
  assert (forall i w, (i < n)%nat -> tcbs w = map (fun t => blank (Z.to_nat (run_times (env t)))) tasks -> tcb_ok w i) as Ht.
  { intros i w Hi E. rewrite <- (Nat.add_0_r i) in Hi. split; rewrite ?(Hb i w) by (assumption || lia); cbn; rewrite ?length_replicate; try lia.
    intros num p [-> _]%lookup_replicate. lia. }
  unfold start. destruct (0 <? tinatest_run_time_sec g_env); split; cbn; rewrite ?length_map; try easy; intros;
    try (now apply Ht); try (apply Hb; [lia | reflexivity]).
  - match goal with H : <[_ := _]> _ !! _ = _ |- _ => apply lookup_insert_Some in H as [[<- <-] | [_ H]]; [now split | now rewrite lookup_empty in H] end.
  - match goal with H : <[_ := _]> _ !! _ = _ |- _ => apply lookup_insert_Some in H as [[<- _] | [_ H]]; [| now rewrite lookup_empty in H] end.
    rewrite lookup_insert_eq. now eexists.
Qed.

(** ** A step inside [task_do] *)

(** The part of the structure that does not look at the threads; [u] test cases have been
    touched. *)
Record data (u : nat) (w : world) : Prop := {
  d_length : length (tcbs w) = n;
  d_reboot : reboot w = false;
  d_next : 1 < next_pid w;
  d_born p k : born w !! p = Some k -> 1 < p < next_pid w /\ match k with Whole => True | All i | Once i | Test i _ => (i < u)%nat end;
  d_procs p s : procs w !! p = Some s -> is_Some (born w !! p);
  d_tcbs i : (i < n)%nat -> tcb_ok w i;
  d_blank i : (u <= i < n)%nat -> tcb_at i w = blank (times i);
}.

Lemma basic_data w : basic w -> data (untouched (main_at w)) w.
Proof. intros []. split; auto. Qed.

(** What such a step leaves alone. *)
Record frame (th : thread) (i : nat) (w w' : world) : Prop := {
  f_main : main_at w' = main_at w;
  f_rec : rec_at w' = rec_at w;
  f_running : running_cnt w' = running_cnt w;
  f_end : end_cnt w' = end_cnt w;
  f_pipe : pipe w' = pipe w;
  f_quit : tt_quit w' = tt_quit w;
  f_mishaps : mishaps w' = mishaps w;
  f_over : over w' = over w;
  f_limit : limit_pid w' = limit_pid w;
  f_others j : j <> i -> tcb_at j w' = tcb_at j w;
  f_status j : status (tcb_at j w') = status (tcb_at j w);
  f_quits j : quit (tcb_at j w') = quit (tcb_at j w);
  f_done : done_times (tcb_at i w') = done_times (tcb_at i w) \/ (fresh th i w /\ done_times (tcb_at i w') = S (done_times (tcb_at i w)));
  f_born p k : born w !! p = Some k -> born w' !! p = Some k;
  f_procs p : is_Some (born w !! p) -> procs w' !! p = procs w !! p;
}.

Lemma tcb_ok_ext i w w' :
  tcb_at i w' = tcb_at i w -> (forall p k, born w !! p = Some k -> born w' !! p = Some k) -> tcb_ok w i -> tcb_ok w' i.
Proof.
  intros E Hb []. split; rewrite ?E; auto. intros num p Hp H0. destruct (pid_born0 num p Hp H0). split; auto.
Qed.

Lemma frame_refl th i w : frame th i w w.
Proof. split; auto. Qed.

Lemma data_ext u w w' :
  tcbs w' = tcbs w -> born w' = born w -> next_pid w' = next_pid w -> reboot w' = reboot w ->
  (forall p s, procs w' !! p = Some s -> is_Some (procs w !! p)) -> data u w -> data u w'.
Proof.
  intros Et Eb En Er Hp []. assert (forall i, tcb_at i w' = tcb_at i w) as Ei by (intros i; unfold tcb_at; now rewrite Et).
  split; rewrite ?Et, ?Eb, ?En, ?Er; auto.
  - intros p s Hs. destruct (Hp p s Hs) as [s' Hs']. eauto.
  - intros i Hi. apply (tcb_ok_ext i w); [apply Ei | rewrite Eb; auto | auto].
  - intros i Hi. rewrite Ei. auto.
Qed.

Lemma data_lock u w o : data u w -> data u (set_lock o w).
Proof. apply data_ext; eauto. Qed.

Lemma frame_lock th i w o : frame th i w (set_lock o w).
Proof. split; cbn; auto. Qed.

Lemma born_fresh u w : data u w -> born w !! next_pid w = None.
Proof. intros H. destruct (born w !! next_pid w) as [k |] eqn:E; [| reflexivity]. destruct (d_born _ _ H _ _ E) as [? _]. lia. Qed.

Lemma data_spawn u w k :
  data u w -> match k with Whole => True | All i | Once i | Test i _ => (i < u)%nat end -> data u (spawn k w).
Proof.
  intros H Hk. pose proof (born_fresh _ _ H) as Hf. pose proof H as []. split; cbn; auto; [lia | | |].
  - intros p k' [[<- <-] | [_ Hp]]%lookup_insert_Some; [split; [lia | assumption] |]. destruct (d_born0 _ _ Hp). split; [lia | assumption].
  - intros p s [[<- _] | [_ Hp]]%lookup_insert_Some; [rewrite lookup_insert_eq; now eexists |].
    destruct (d_procs0 _ _ Hp) as [k' Hk']. rewrite lookup_insert_ne, Hk' by congruence. now eexists.
  - intros i Hi. apply (tcb_ok_ext i w); auto. intros p k' Hp. cbn. rewrite lookup_insert_ne by congruence. assumption.
Qed.

Lemma frame_spawn th i u w k : data u w -> frame th i w (spawn k w).
Proof.
  intros H. pose proof (born_fresh _ _ H) as Hf. split; cbn; auto.
  - intros p k' Hp. rewrite lookup_insert_ne by congruence. assumption.
  - intros p [k' Hp]. rewrite lookup_insert_ne by congruence. reflexivity.
Qed.

Lemma frame_trans th i w w1 w2 :
  frame th i w w1 -> frame th i w1 w2 -> done_times (tcb_at i w1) = done_times (tcb_at i w) -> frame th i w w2.
Proof.
  intros [] [] E. split; try congruence.
  - intros j Hj. rewrite f_others1, f_others0; auto.
  - destruct f_done1 as [-> | [Hf ->]]; [auto |]. right. rewrite E. split; [| reflexivity].
    unfold fresh in *. rewrite E in Hf. exact Hf.
  - auto.
  - intros p Hp. rewrite f_procs1, f_procs0; auto. destruct Hp as [k Hk]. exists k. auto.
Qed.

(** A change of one test case that keeps the structure. *)
Lemma data_upd u w i f :
  data u w -> (i < u)%nat -> (i < n)%nat -> tcb_ok (upd i f w) i -> data u (upd i f w).
Proof.
  intros [] Hi Hn Ht. split; cbn; auto.
  - now rewrite length_alter.
  - intros j Hj. destruct (decide (i = j)) as [<- | Hne]; [assumption |].
    apply (tcb_ok_ext j w); auto. now apply tcb_at_ne.
  - intros j Hj. rewrite tcb_at_ne by lia. auto.
Qed.

Lemma frame_upd th i w f :
  (i < length (tcbs w))%nat -> status (f (tcb_at i w)) = status (tcb_at i w) -> quit (f (tcb_at i w)) = quit (tcb_at i w) ->
  (done_times (f (tcb_at i w)) = done_times (tcb_at i w) \/ (fresh th i w /\ done_times (f (tcb_at i w)) = S (done_times (tcb_at i w)))) ->
  frame th i w (upd i f w).
Proof.
  intros Hl Hs Hq Hd. split; cbn; auto.
  - intros j Hj. now apply tcb_at_ne.
  - intros j. destruct (decide (i = j)) as [<- | Hne]; [now rewrite tcb_at_eq | now rewrite tcb_at_ne].
  - intros j. destruct (decide (i = j)) as [<- | Hne]; [now rewrite tcb_at_eq | now rewrite tcb_at_ne].
  - now rewrite tcb_at_eq.
Qed.

Lemma fresh_frame th i w w' : done_times (tcb_at i w') = done_times (tcb_at i w) -> fresh th i w -> fresh th i w'.
Proof. unfold fresh. intros ->. auto. Qed.

Lemma nth_length_some {A} (l : list A) k : (k < length l)%nat -> is_Some (l !! k).
Proof. apply lookup_lt_is_Some_2. Qed.

(** The update of [DoRecord]. *)
Lemma record_ok th i w p u :
  data u w -> (i < n)%nat -> fresh th i w -> born w !! p = Some (Test i (done_times (tcb_at i w))) ->
  tcb_ok (upd i (fun t => with_done (S (done_times t)) (with_pid (<[done_times t := p]> (pid t)) t)) w) i.
Proof.
  intros Hd Hi Hf Hp. destruct (d_tcbs _ _ Hd i Hi). pose proof (d_born _ _ Hd _ _ Hp) as [Hr _].
  assert (done_times (tcb_at i w) < times i)%nat as Hlt by (destruct th; cbn in Hf; tauto).
  split; rewrite tcb_at_eq by (rewrite (d_length _ _ Hd); assumption); cbn; rewrite ?length_insert; auto.
  - intros num q [(<- & <- & Hl) | [Hne Hq]]%list_lookup_insert_Some Hq0; [split; [assumption | lia] |].
    destruct (pid_born0 _ _ Hq Hq0). split; [assumption | lia].
  - intros num q [(<- & <- & Hl) | [Hne Hq]]%list_lookup_insert_Some Hn; [lia |]. apply (pid_used0 num); [assumption | lia].
Qed.

Lemma do_next th i d ok ok2 w w' d' u :
  data u w -> (i < u)%nat -> (i < n)%nat -> do_ok th i d w -> do_step tasks g_env th i d ok ok2 w = DNext w' d' ->
  data u w' /\ frame th i w w' /\ do_ok th i d' w' /\ d' <> DoLock /\
  match d with DoLock => do_task_lock w = None /\ do_task_lock w' = Some th | _ => do_task_lock w' = do_task_lock w end.
Proof.
  intros Hd Hu Hi Hok H. pose proof (d_length _ _ Hd) as Hlen. assert (i < length (tcbs w))%nat as Hl by lia.
  pose proof (d_tcbs _ _ Hd i Hi) as Ht.
  assert (forall th, fresh th i w -> (done_times (tcb_at i w) < times i)%nat) as Hlt by (intros []; cbn; tauto).
  unfold do_step in H. rewrite no_reboot in H. destruct d; cbn [do_ok] in Hok; try contradiction.
  - (* DoLock *) destruct (do_task_lock w) eqn:El; [discriminate |]. injection H as <- <-. split_and!; [now apply data_lock | apply frame_lock | exact Hok | easy | reflexivity | reflexivity].
  - (* DoInit *) injection H as <- <-. split_and!; [assumption | apply frame_refl | exact Hok | easy | reflexivity].
  - (* DoCheck *) destruct (Nat.leb_spec (times i) (done_times (tcb_at i w))); [specialize (Hlt _ Hok); lia |].
    injection H as <- <-. split_and!; [assumption | apply frame_refl | exact Hok | easy | reflexivity].
  - (* DoAll *)
    assert (forall p w1, frame th i w w1 -> data u w1 -> tcb_at i w1 = tcb_at i w -> do_task_lock w1 = do_task_lock w ->
      data u (upd i (with_pid_limit p) w1) /\ frame th i w (upd i (with_pid_limit p) w1) /\
      do_ok th i DoOnce (upd i (with_pid_limit p) w1) /\ DoOnce <> DoLock /\ do_task_lock (upd i (with_pid_limit p) w1) = do_task_lock w) as Hup.
    { intros p w1 Hf H1 E El. assert (i < length (tcbs w1))%nat as Hl1 by (rewrite (d_length _ _ H1); assumption).
      split_and!; [| | | easy | assumption].
      - apply data_upd; auto. destruct (d_tcbs _ _ H1 i Hi). split; rewrite tcb_at_eq by assumption; cbn; auto.
      - eapply frame_trans; [exact Hf | apply frame_upd; cbn; auto | now rewrite E].
      - cbn. apply (fresh_frame th i w); [rewrite tcb_at_eq by assumption; cbn; now rewrite E | assumption]. }
    destruct (_ && _); [| destruct ok]; injection H as <- <-.
    + split_and!; [assumption | apply frame_refl | exact Hok | easy | reflexivity].
    + apply Hup; [now apply (frame_spawn th i u) | now apply data_spawn | reflexivity | reflexivity].
    + apply Hup; [apply frame_refl | assumption | reflexivity | reflexivity].
  - (* DoOnce *) destruct ok; injection H as <- <-.
    + split_and!; [now apply data_spawn | now apply (frame_spawn th i u) | | easy | reflexivity].
      split; [exact Hok | cbn; apply lookup_insert_eq].
    + split_and!; [assumption | apply frame_refl | right; now split | easy | reflexivity].
  - (* DoGroup *) destruct Hok as [Hf Hp]. destruct ok; injection H as <- <-.
    + split_and!; [| | | easy | reflexivity].
      * apply data_upd; auto. destruct Ht. split; rewrite tcb_at_eq by assumption; cbn; auto.
      * apply frame_upd; cbn; auto.
      * cbn. apply (fresh_frame th i w); [now rewrite tcb_at_eq | assumption].
    + split_and!; [assumption | apply frame_refl | right; now split | easy | reflexivity].
  - (* DoFork *) destruct (_ <? _)%nat; [| discriminate]. destruct ok; injection H as <- <-.
    + split_and!; [now apply data_spawn | now apply (frame_spawn th i u) | | easy | reflexivity].
      split; [exact Hok | cbn; apply lookup_insert_eq].
    + set (f := with_pid _). assert (data u (upd i f w)) as Hd'.
      { apply data_upd; auto. destruct Ht. split; rewrite tcb_at_eq by assumption; cbn; rewrite ?length_insert; auto.
        - intros num q [(<- & <- & _) | [_ Hq]]%list_lookup_insert_Some; [lia | eauto].
        - intros num q [(<- & <- & _) | [_ Hq]]%list_lookup_insert_Some; [lia | eauto]. }
      split_and!; [| | | easy | reflexivity].
      * apply (data_ext u (upd i f w)); eauto.
      * assert (frame th i w (upd i f w)) as [] by (apply frame_upd; cbn; auto). split; auto.
      * right. split; [reflexivity |]. apply (fresh_frame th i w); [| assumption]. change (tcb_at i (add_kill _ _)) with (tcb_at i (upd i f w)). now rewrite tcb_at_eq.
  - (* DoRecord *) destruct Hok as [Hf Hp].
    set (f := fun t => with_done _ _) in H. assert (data u (upd i f w)) as Hd' by (apply data_upd; auto; now apply (record_ok th _ _ _ u)).
    assert (frame th i w (upd i f w)) as Hfr by (apply frame_upd; cbn; auto).
    destruct (parallel i) eqn:Ep; cbn [andb] in H; [destruct (Nat.ltb_spec (S (done_times (tcb_at i w))) (times i)) |]; injection H as <- <-;
      split_and!; try assumption; try easy; cbn.
    + assert (fresh th i w) as Hf' by assumption. unfold fresh in *. rewrite tcb_at_eq by assumption. cbn. destruct th; intuition congruence || lia.
    + left. split; [reflexivity |]. rewrite tcb_at_eq by assumption. cbn. lia.
    + left. split; [reflexivity |]. rewrite tcb_at_eq by assumption. cbn. lia.
  - discriminate.
Qed.

Lemma do_ret th i d ok ok2 w w' r u :
  data u w -> do_ok th i d w -> do_step tasks g_env th i d ok ok2 w = DRet w' r -> d = DoUnlock r /\ w' = set_lock None w.
Proof.
  intros Hd Hok H. unfold do_step in H. rewrite no_reboot in H.
  destruct d; cbn [do_ok] in Hok; try contradiction; repeat case_match; simplify_eq; auto.
Qed.

Lemma do_defined th i d ok ok2 w u : data u w -> (i < n)%nat -> do_ok th i d w -> do_step tasks g_env th i d ok ok2 w <> DUndef.
Proof.
  intros Hd Hi Hok H. unfold do_step in H. rewrite no_reboot in H. pose proof (pids_length _ _ (d_tcbs _ _ Hd i Hi)) as Hl.
  assert (forall th, fresh th i w -> (done_times (tcb_at i w) < times i)%nat) as Hlt by (intros []; cbn; tauto).
  destruct d; cbn [do_ok] in Hok; try contradiction; repeat case_match; simplify_eq.
  - specialize (Hlt _ Hok). rewrite Nat.leb_le in *. lia.
  - specialize (Hlt _ Hok). rewrite Nat.ltb_ge in *. lia.
Qed.

(** ** The structure is kept *)

Lemma basic_intro w :
  data (untouched (main_at w)) w -> main_ok w -> rec_ok w ->
  do_task_lock w = (if in_main w then Some Main else if in_rec w then Some Recycler else None) -> in_main w && in_rec w = false -> basic w.
Proof. intros [] H1 H2 H3 H4. split; auto. Qed.

Lemma data_mono u u' w : data u w -> (u <= u')%nat -> data u' w.
Proof.
  intros [] Hu. split; auto.
  - intros p k Hp. destruct (d_born0 _ _ Hp) as [? Hk]. split; [assumption |]. destruct k; auto; lia.
  - intros i Hi. apply d_blank0. lia.
Qed.

(** A step that changes no number of runs and starts no process. *)
Record still (w w' : world) : Prop := {
  s_done j : done_times (tcb_at j w') = done_times (tcb_at j w);
  s_born : born w' = born w;
  s_procs p : procs w !! p = None -> procs w' !! p = None;
}.

Lemma still_same w w' : tcbs w' = tcbs w -> born w' = born w -> procs w' = procs w -> still w w'.
Proof. intros Et Eb Ep. split; [intros j; unfold tcb_at; now rewrite Et | assumption | now rewrite Ep]. Qed.

Lemma still_trans w w1 w2 : still w w1 -> still w1 w2 -> still w w2.
Proof. intros [] []. split; [congruence | congruence | auto]. Qed.

Lemma still_upd i f w : (forall t, done_times (f t) = done_times t) -> still w (upd i f w).
Proof.
  intros Hf. split; cbn; auto. intros j. unfold tcb_at, upd. cbn.
  destruct (decide (i = j)) as [<- | Hne]; [| now rewrite list_lookup_alter_ne].
  rewrite list_lookup_alter_eq. destruct (tcbs w !! i); cbn; auto.
Qed.

Lemma do_ok_mono th j d w w' :
  done_times (tcb_at j w') = done_times (tcb_at j w) -> (forall p k, born w !! p = Some k -> born w' !! p = Some k) ->
  do_ok th j d w -> do_ok th j d w'.
Proof.
  intros Ed Eb. assert (fresh th j w -> fresh th j w') as Hf by (unfold fresh; now rewrite Ed).
  destruct d; cbn; rewrite ?Ed; intuition auto.
Qed.

Lemma walking_mono w w' p :
  (procs w !! p = None -> is_Some (born w !! p) -> procs w' !! p = None) -> (forall p k, born w !! p = Some k -> born w' !! p = Some k) ->
  walking w p -> walking w' p.
Proof. intros Hp Hb [H1 [k H2]]. split; [apply Hp; [assumption | now exists k] | exists k; auto]. Qed.

Lemma still_main w w' : still w w' -> main_at w' = main_at w -> main_ok w -> main_ok w'.
Proof.
  intros [Ed Eb _] Em. unfold main_ok. rewrite Em. destruct (main_at w); auto.
  - intros [Hi Hd]. split; [assumption |]. eapply do_ok_mono; [apply Ed | | exact Hd]. rewrite Eb. auto.
  - now rewrite Ed.
  - intros [Hi Hf]. split; [assumption |]. unfold fresh. now rewrite Ed.
Qed.

Lemma still_rec w w' : still w w' -> rec_at w' = rec_at w -> rec_ok w -> rec_ok w'.
Proof.
  intros [Ed Eb Ep] Em. assert (forall p, walking w p -> walking w' p) as Hw by (intros p; apply walking_mono; [auto | rewrite Eb; auto]).
  unfold rec_ok. rewrite Em. destruct (rec_at w); rewrite ?Ed; intuition auto.
  eapply do_ok_mono; [apply Ed | | eassumption]. rewrite Eb. auto.
Qed.

(** The other thread during a step of [task_do]. *)
Lemma frame_rec i w w' : frame Main i w w' -> rec_ok w -> rec_ok w'.
Proof.
  intros F. assert (forall p, walking w p -> walking w' p) as Hw.
  { intros p. apply walking_mono; [| apply (f_born _ _ _ _ F)]. intros H Hb. now rewrite (f_procs _ _ _ _ F). }
  assert (forall j, (done_times (tcb_at j w) <= done_times (tcb_at j w'))%nat) as Hle.
  { intros j. destruct (decide (j = i)) as [-> | Hne]; [| now rewrite (f_others _ _ _ _ F)]. destruct (f_done _ _ _ _ F) as [-> | [_ ->]]; lia. }
  unfold rec_ok. rewrite (f_rec _ _ _ _ F). destruct (rec_at w) as [| | | | | p s j num | p s j num | p s j num | p s j num d | p s j num | |]; auto;
    try (specialize (Hle j); intros (? & ? & ?); split_and!; [auto | assumption | lia]).
  - intros [? ?]. auto.
  - intros (H1 & H2 & H3 & H4 & H5). specialize (Hle j) as Hlej. split_and!; auto; [lia |].
    eapply do_ok_mono; [| apply (f_born _ _ _ _ F) | exact H5].
    destruct (decide (j = i)) as [-> | Hne]; [| now rewrite (f_others _ _ _ _ F)].
    destruct (f_done _ _ _ _ F) as [-> | [[_ Hf] _]]; [reflexivity |]. specialize (Hf H4). lia.
Qed.

Lemma frame_main i w w' : frame Recycler i w w' -> main_ok w -> main_ok w'.
Proof.
  intros F. unfold main_ok. rewrite (f_main _ _ _ _ F).
  assert (forall j, (done_times (tcb_at j w) <= done_times (tcb_at j w'))%nat) as Hle.
  { intros j. destruct (decide (j = i)) as [-> | Hne]; [| now rewrite (f_others _ _ _ _ F)]. destruct (f_done _ _ _ _ F) as [-> | [_ ->]]; lia. }
  assert (forall j, fresh Main j w -> done_times (tcb_at j w') = done_times (tcb_at j w)) as Hf.
  { intros j [Hj Hj0]. destruct (decide (j = i)) as [-> | Hne]; [| now rewrite (f_others _ _ _ _ F)].
    destruct (f_done _ _ _ _ F) as [-> | [(Hs & Hp & _) _]]; [reflexivity |]. specialize (Hj0 Hs). lia. }
  destruct (main_at w) as [| | | | | j d | j | j | | | |]; auto.
  - intros [Hj Hd]. split; [assumption |]. assert (forall p k, born w !! p = Some k -> born w' !! p = Some k) as Hb by exact (f_born _ _ _ _ F).
    assert (fresh Main j w -> fresh Main j w') as Hfr by (intros H; apply (fresh_frame Main j w); auto).
    specialize (Hle j) as Hlej. destruct d; cbn in *; auto.
    + intuition auto.
    + destruct Hd as [Hd Hp]. split; [auto |]. rewrite (Hf j Hd). auto.
    + destruct Hd as [[-> Hd] | [-> Hd]]; [left; split; [reflexivity | lia] | right; auto].
  - intros [Hj Hd]. specialize (Hle j) as Hlej. split; [assumption | lia].
  - intros [Hj Hd]. split; [assumption |]. apply (fresh_frame Main j w); auto.
Qed.

(** ** What the other operations change *)

Lemma recycle_once_facts u i num s p w :
  data u w -> (i < u)%nat -> (i < n)%nat -> 0 < p ->
  let w' := task_recycle_once tasks i num s p w in
  data u w' /\ still w w' /\ (forall j, j <> i -> tcb_at j w' = tcb_at j w) /\ status (tcb_at i w') = status (tcb_at i w) /\
  pid (tcb_at i w') = <[num := - p]> (pid (tcb_at i w)) /\ result (tcb_at i w') = <[num := result_of (env_of tasks i) s]> (result (tcb_at i w)) /\
  (tt_quit w', main_at w', rec_at w', running_cnt w', end_cnt w', pipe w', mishaps w', do_task_lock w', procs w', born w', over w', limit_pid w') =
  (tt_quit w, main_at w, rec_at w, running_cnt w, end_cnt w, pipe w, mishaps w, do_task_lock w, procs w, born w, over w, limit_pid w).
Proof.
  intros Hd Hu Hi Hp w'. pose proof (d_length _ _ Hd) as Hlen. assert (i < length (tcbs w))%nat as Hl by lia.
  set (e := env_of tasks i) in *.
  (* one change to the test case after the other *)
  set (w1 := upd i (fun t => with_pid (<[num := - p]> (pid t)) t) w).
  set (w2 := match s with Signaled sig => upd i (fun t => with_killed (<[num := sig]> (killed t)) t) w1 | _ => w1 end).
  set (w3 := upd i (fun t => with_result (<[num := result_of e s]> (result t)) t) w2).
  set (w4 := if negb (result_of e s =? 0) && exit_once_failed e then upd i (with_quit true) w3 else w3).
  assert (data u w1) as H1.
  { apply data_upd; auto. destruct (d_tcbs _ _ Hd i Hi). split; rewrite tcb_at_eq by assumption; cbn; rewrite ?length_insert; auto.
    - intros m q [(<- & <- & _) | [_ Hq]]%list_lookup_insert_Some; [lia | eauto].
    - intros m q [(<- & <- & _) | [_ Hq]]%list_lookup_insert_Some; [lia | eauto]. }
  assert (forall f v, data u v -> (forall t, pid (f t) = pid t /\ length (result (f t)) = length (result t) /\ done_times (f t) = done_times t /\ pgid (f t) = pgid t) -> data u (upd i f v)) as Hup.
  { intros f v Hv Hf. apply data_upd; auto. destruct (d_tcbs _ _ Hv i Hi). destruct (Hf (tcb_at i v)) as (E1 & E2 & E3 & E4).
    split; rewrite tcb_at_eq by (rewrite (d_length _ _ Hv); assumption); rewrite ?E1, ?E2, ?E3, ?E4; auto. }
  assert (data u w2) as H2 by (unfold w2; destruct s; auto; apply Hup; auto).
  assert (data u w3) as H3 by (apply Hup; auto; intros t; cbn; now rewrite length_insert).
  assert (data u w4) as H4 by (unfold w4; destruct (_ && _); auto).
  assert (tcb_at i w1 = with_pid (<[num := - p]> (pid (tcb_at i w))) (tcb_at i w)) as E1 by (unfold w1; now rewrite tcb_at_eq).
  assert (status (tcb_at i w2) = status (tcb_at i w) /\ pid (tcb_at i w2) = <[num := - p]> (pid (tcb_at i w)) /\ result (tcb_at i w2) = result (tcb_at i w)) as E2.
  { unfold w2. destruct s; [| rewrite tcb_at_eq by (rewrite (d_length _ _ H1); assumption) |]; rewrite E1; cbn; auto. }
  assert (status (tcb_at i w3) = status (tcb_at i w) /\ pid (tcb_at i w3) = <[num := - p]> (pid (tcb_at i w)) /\ result (tcb_at i w3) = <[num := result_of e s]> (result (tcb_at i w))) as E3.
  { unfold w3. rewrite tcb_at_eq by (rewrite (d_length _ _ H2); assumption). cbn. destruct E2 as (-> & -> & ->). auto. }
  assert (status (tcb_at i w4) = status (tcb_at i w) /\ pid (tcb_at i w4) = <[num := - p]> (pid (tcb_at i w)) /\ result (tcb_at i w4) = <[num := result_of e s]> (result (tcb_at i w))) as E4.
  { unfold w4. destruct (_ && _); [| assumption]. rewrite tcb_at_eq by (rewrite (d_length _ _ H3); assumption). exact E3. }
  assert (still w w4) as Hs.
  { eapply still_trans; [apply (still_upd i (fun t => with_pid (<[num := - p]> (pid t)) t)); reflexivity |]. fold w1.
    eapply (still_trans w1 w2); [unfold w2; destruct s; [now apply still_same | now apply still_upd | now apply still_same] |].
    eapply (still_trans w2 w3); [now apply still_upd |]. unfold w4. destruct (_ && _); [now apply still_upd | now apply still_same]. }
  assert (forall j, j <> i -> tcb_at j w4 = tcb_at j w) as Ho.
  { intros j Hj. unfold w4, w3, w2, w1. destruct (_ && _), s; rewrite ?tcb_at_ne by auto; reflexivity. }
  assert (w' = w4 \/ exists k, w' = add_kill k w4) as Ew.
  { change w' with (if negb (run_parallel e) && (0 <? pgid (tcb_at i w4)) then add_kill (- pgid (tcb_at i w4), SIGTERM) w4 else w4).
    destruct (negb (run_parallel e) && _); eauto. }
  assert ((tt_quit w4, main_at w4, rec_at w4, running_cnt w4, end_cnt w4, pipe w4, mishaps w4, do_task_lock w4, procs w4, born w4, over w4, limit_pid w4) =
    (tt_quit w, main_at w, rec_at w, running_cnt w, end_cnt w, pipe w, mishaps w, do_task_lock w, procs w, born w, over w, limit_pid w)) as Ef.
  { unfold w4, w3, w2, w1. destruct (_ && _), s; reflexivity. }
  destruct E4 as (Es & Ep & Er). destruct Ew as [-> | [k ->]]; [split_and!; auto |].
  split_and!; [apply (data_ext u w4); eauto | apply (still_trans w w4); [assumption | now apply still_same] | exact Ho | exact Es | exact Ep | exact Er | exact Ef].
Qed.

Lemma end_sub_eq i w :
  reboot w = false ->
  let w' := recycle_end_sub tasks i w in
  tcbs w' = tcbs w /\ running_cnt w' = running_cnt w - 1 /\ end_cnt w' = end_cnt w + 1 /\ reboot w' = false /\ next_pid w' = next_pid w /\
  (tt_quit w', main_at w', rec_at w', pipe w', mishaps w', do_task_lock w', procs w', born w', over w', limit_pid w') =
  (tt_quit w, main_at w, rec_at w, pipe w, mishaps w, do_task_lock w, procs w, born w, over w, limit_pid w).
Proof. intros Hr. unfold recycle_end_sub. destruct (0 <? _), (run_parallel _); cbn; rewrite Hr; cbn; split_and!; auto. Qed.

Lemma note_loss_eq p i w : note_loss p i w = w \/ note_loss p i w = add_mishap (LostDeath i) w.
Proof. unfold note_loss. destruct (born w !! p) as [[] |]; auto. destruct (_ && _); auto. Qed.

Lemma find_pid_spec p l k m : find_pid p l k = Some m -> (k <= m)%nat /\ l !! (m - k)%nat = Some p.
Proof.
  revert k. induction l as [| q l IH]; cbn; intros k; [discriminate |]. destruct (Z.eqb_spec p q) as [<- | Hne].
  - intros [= <-]. now rewrite Nat.sub_diag.
  - intros H. destruct (IH _ H) as [Hl Hm]. split; [lia |]. replace (m - k)%nat with (S (m - S k)) by lia. exact Hm.
Qed.

Lemma find_pid_none p l k : find_pid p l k = None -> forall m, l !! m <> Some p.
Proof.
  revert k. induction l as [| q l IH]; cbn; intros k H m; [easy |]. destruct (Z.eqb_spec p q) as [<- | Hne]; [discriminate |].
  destruct m; cbn; [congruence | eauto].
Qed.

Lemma scan_pids_spec p i num w m :
  scan_pids p i num w = Some m -> (m < done_times (tcb_at i w))%nat /\ pid (tcb_at i w) !! m = Some p.
Proof.
  unfold scan_pids. intros [Hl Hm]%find_pid_spec. rewrite lookup_drop in Hm.
  replace (num + (m - num))%nat with m in Hm by lia. apply lookup_take_Some in Hm as [H1 H2]. auto.
Qed.

Lemma scan_pids_none p i w m :
  scan_pids p i 0 w = None -> (m < done_times (tcb_at i w))%nat -> pid (tcb_at i w) !! m <> Some p.
Proof.
  unfold scan_pids. rewrite drop_0. intros H Hm E. apply (find_pid_none _ _ _ H m). now rewrite lookup_take_lt.
Qed.

Lemma still_set_main w v m : still w v -> still w (set_main m v).
Proof. intros H. eapply still_trans; [exact H | now apply still_same]. Qed.
Lemma still_set_rec w v r : still w v -> still w (set_rec r v).
Proof. intros H. eapply still_trans; [exact H | now apply still_same]. Qed.

Lemma in_do_main w i d : main_at w = MDo i d -> in_main w = negb (match d with DoLock => true | _ => false end).
Proof. unfold in_main. intros ->. now destruct d. Qed.
Lemma in_do_rec w p s i num d : rec_at w = RDo p s i num d -> in_rec w = negb (match d with DoLock => true | _ => false end).
Proof. unfold in_rec. intros ->. now destruct d. Qed.

(** A step of main outside [task_do]. *)
Lemma basic_main w w' :
  basic w -> data (untouched (main_at w')) w' -> still w w' -> rec_at w' = rec_at w -> do_task_lock w' = do_task_lock w ->
  in_main w = false -> in_main w' = false -> main_ok w' -> basic w'.
Proof.
  intros B D S Er El Hm Hm' Ho. pose proof (lock_fine _ B) as Hl. rewrite Hm in Hl.
  assert (in_rec w' = in_rec w) as Hr by (unfold in_rec; now rewrite Er).
  apply basic_intro; auto.
  - eapply still_rec; eauto. apply (rec_fine _ B).
  - rewrite Hm', El, Hl, Hr. reflexivity.
  - now rewrite Hm'.
Qed.

(** A step of the recycler outside [task_do], or of a process. *)
Lemma basic_rec w w' :
  basic w -> data (untouched (main_at w)) w' -> still w w' -> main_at w' = main_at w -> do_task_lock w' = do_task_lock w ->
  (in_rec w = false \/ rec_at w' = rec_at w) -> (in_rec w' = false \/ rec_at w' = rec_at w) -> rec_ok w' -> basic w'.
Proof.
  intros B D S Em El Hm Hm' Ho. pose proof (lock_fine _ B) as Hl. pose proof (lock_excl _ B) as Hx.
  assert (in_main w' = in_main w) as Hr by (unfold in_main; now rewrite Em).
  assert (in_rec w' = in_rec w) as Hi by (destruct Hm as [Hm | E]; [destruct Hm' as [Hm' | E]; [congruence |] |]; unfold in_rec; now rewrite E).
  apply basic_intro; auto.
  - now rewrite Em.
  - eapply still_main; eauto. apply (main_fine _ B).
  - now rewrite Hr, Hi, El.
  - now rewrite Hr, Hi.
Qed.

Lemma main_basic ok ok2 w w' : basic w -> main_step tasks g_env ok ok2 w = Next w' -> basic w'.
Proof.
  intros B H. pose proof (basic_data _ B) as D. pose proof (main_fine _ B) as M. unfold main_ok in M.
  unfold main_step in H. destruct (main_at w) as [| i | i | i | i | i d | i | i | i | i | |] eqn:Em; cbn [untouched] in D;
    assert (forall m v, tcbs v = tcbs w -> born v = born w -> next_pid v = next_pid w -> reboot v = reboot w -> procs v = procs w ->
      (untouched (main_at w) <= untouched m)%nat -> data (untouched m) (set_main m v)) as Dx
      by (rewrite Em; intros m v E1 E2 E3 E4 E5 Hle; apply (data_ext _ w); auto; [cbn; rewrite E5; eauto | eapply data_mono; eauto]);
    rewrite Em in Dx; cbn [untouched] in Dx.
  - (* MHello *) destruct (pipe w) as [| k]; [discriminate |]. injection H as <-.
    apply (basic_main w); [exact B | apply Dx; auto; lia | now apply still_same | reflexivity | reflexivity | unfold in_main; now rewrite Em | |];
      unfold in_main, main_ok; cbn [main_at set_main]; destruct (Nat.ltb_spec 0 (length tasks)); auto.
  - (* MLimit *) injection H as <-.
    apply (basic_main w); [exact B | apply Dx; auto; destruct (_ <=? _); cbn; lia | now apply still_same | reflexivity | reflexivity | unfold in_main; now rewrite Em | |];
      unfold in_main, main_ok; cbn [main_at set_main]; destruct (_ <=? _); auto.
  - (* MWait *) destruct (pipe w) as [| k]; [discriminate |]. injection H as <-.
    apply (basic_main w); [exact B | apply Dx; auto; cbn; lia | now apply still_same | reflexivity | reflexivity | unfold in_main; now rewrite Em | reflexivity | exact M].
  - (* MAlone *) destruct (_ && _); [discriminate |]. injection H as <-.
    apply (basic_main w); [exact B | apply Dx; auto; cbn; lia | now apply still_same | reflexivity | reflexivity | unfold in_main; now rewrite Em | reflexivity | exact M].
  - (* MBegin *) rewrite (no_reboot_mode _ B) in H. cbn [andb] in H. injection H as <-.
    pose proof (rest_blank _ B i ltac:(rewrite Em; cbn; lia)) as Hb. pose proof (tcbs_length _ B) as Hl.
    apply (basic_main w); [exact B | | now apply still_set_main, still_upd | reflexivity | reflexivity | unfold in_main; now rewrite Em | reflexivity |].
    + cbn [main_at set_main untouched]. apply (data_ext (S i) (upd i (with_tstatus TASK_RUN) w)); eauto.
      assert (data (S i) w) as D' by (eapply data_mono; eauto).
      apply data_upd; [assumption | lia | assumption |]. destruct (d_tcbs _ _ D i M). split; rewrite tcb_at_eq by lia; cbn; auto.
    + split; [assumption |]. cbn. unfold fresh. change (tcb_at i (set_main _ (upd i (with_tstatus TASK_RUN) w))) with (tcb_at i (upd i (with_tstatus TASK_RUN) w)).
      rewrite tcb_at_eq by lia. cbn. rewrite Hb. cbn. split; [now apply times_spec | auto].
  - (* MDo *) destruct M as [Hi Hd]. destruct (do_step tasks g_env Main i d ok ok2 w) as [w1 d1 | w1 r | |] eqn:Es; try discriminate.
    + injection H as <-. destruct (do_next Main i d ok ok2 w w1 d1 (S i) D ltac:(lia) Hi Hd Es) as (D1 & F & Hd1 & Hne & Hl).
      assert (in_main (set_main (MDo i d1) w1) = true) as Hm by (unfold in_main; cbn; now destruct d1).
      assert (in_rec (set_main (MDo i d1) w1) = in_rec w) as Hr by (unfold in_rec; cbn; now rewrite (f_rec _ _ _ _ F)).
      pose proof (lock_fine _ B) as Hlf. pose proof (lock_excl _ B) as Hx. rewrite (in_do_main _ _ _ Em) in Hlf, Hx.
      apply basic_intro.
      * apply (data_ext (S i) w1); eauto.
      * split; [assumption |]. exact Hd1.
      * apply (still_rec w1); [now apply still_same | reflexivity | apply (frame_rec i w w1 F (rec_fine _ B))].
      * rewrite Hm. cbn. destruct d; cbn in Hlf; try (rewrite Hl; exact Hlf). now destruct Hl as [_ ->].
      * rewrite Hm, Hr. cbn. destruct d; cbn in Hx; try (exact Hx). destruct Hl as [Hl _]. rewrite Hl in Hlf. cbn in Hlf. now destruct (in_rec w).
    + injection H as <-. destruct (do_ret Main i d ok ok2 w w1 r (S i) D Hd Es) as [-> ->].
      pose proof (lock_excl _ B) as Hx. rewrite (in_do_main _ _ _ Em) in Hx. cbn in Hx.
      apply basic_intro; cbn.
      * assert (untouched (if r =? 0 then MAdd i else MErr i) = S i) as -> by now destruct (r =? 0).
        apply (data_ext (S i) w); eauto.
      * unfold main_ok. cbn. destruct Hd as [[-> Hd] | [-> Hd]]; cbn; auto.
      * apply (still_rec w); [now apply still_same | reflexivity | apply (rec_fine _ B)].
      * unfold in_main, in_rec in *. cbn. rewrite Hx. now destruct (r =? 0).
      * unfold in_main, in_rec in *. cbn. now destruct (r =? 0).
  - (* MAdd *) injection H as <-.
    apply (basic_main w); [exact B | apply Dx; auto; cbn; lia | now apply still_same | reflexivity | reflexivity | unfold in_main; now rewrite Em | reflexivity | now destruct M].
  - (* MErr *) destruct (_ <? _)%nat; [| discriminate]. injection H as <-. destruct M as [Hi Hf]. pose proof (tcbs_length _ B) as Hl.
    apply (basic_main w); [exact B | | | reflexivity | reflexivity | unfold in_main; now rewrite Em | reflexivity | exact Hi].
    + cbn [main_at set_main untouched]. set (f := fun t => with_tstatus _ _).
      apply (data_ext (S i) (upd i f w)); eauto.
      apply data_upd; auto. destruct (d_tcbs _ _ D i Hi). split; rewrite tcb_at_eq by lia; cbn; rewrite ?length_insert; auto.
    + apply still_set_main. eapply still_trans; [| now apply still_upd]. now apply still_same.
  - (* MErrCount *) injection H as <-.
    apply (basic_main w); [exact B | apply Dx; auto; destruct (Nat.ltb_spec (S i) (length tasks)); cbn; lia | now apply still_same | reflexivity | reflexivity | unfold in_main; now rewrite Em | |]; unfold in_main, main_ok; cbn [main_at set_main]; destruct (Nat.ltb_spec (S i) (length tasks)); auto.
  - (* MAfter *) destruct (_ && _); [discriminate |]. injection H as <-.
    apply (basic_main w); [exact B | apply Dx; auto; destruct (Nat.ltb_spec (S i) (length tasks)); cbn; lia | now apply still_same | reflexivity | reflexivity | unfold in_main; now rewrite Em | |]; unfold in_main, main_ok; cbn [main_at set_main]; destruct (Nat.ltb_spec (S i) (length tasks)); auto.
  - (* MJoin *) destruct (rec_at w); try discriminate. injection H as <-.
    apply (basic_main w); [exact B | apply Dx; auto; cbn; lia | now apply still_same | reflexivity | reflexivity | unfold in_main; now rewrite Em | reflexivity | exact I].
  - (* MClean *) destruct (_ =? 0); [discriminate |]. injection H as <-.
    apply (basic_main w); [exact B | cbn; rewrite Em; apply (data_ext n w); eauto | now apply still_same | reflexivity | reflexivity | unfold in_main; now rewrite Em | unfold in_main; cbn; now rewrite Em |].
    unfold main_ok. cbn. now rewrite Em.
Qed.

Lemma touched u w i : data u w -> (i < n)%nat -> (0 < done_times (tcb_at i w))%nat \/ status (tcb_at i w) = TASK_RUN -> (i < u)%nat.
Proof.
  intros D Hi H. destruct (Nat.lt_ge_cases i u) as [? | Hge]; [assumption |].
  rewrite (d_blank _ _ D i) in H by lia. cbn in H. destruct H; [lia | discriminate].
Qed.

Lemma rec_basic ok ok2 p0 w w' : basic w -> rec_step tasks g_env ok ok2 p0 w = Next w' -> basic w'.
Proof.
  intros B H. pose proof (basic_data _ B) as D. pose proof (rec_fine _ B) as R. unfold rec_ok in R.
  pose proof (tcbs_length _ B) as Hlen. set (u := untouched (main_at w)) in *.
  unfold rec_step in H. destruct (rec_at w) as [| | | p s i | p s i num | p s i num | p s i num | p s i num | p s i num d | p s i num | |] eqn:Er.
  - (* RHello *) injection H as <-.
    apply (basic_rec w); [exact B | apply (data_ext u w); eauto | now apply still_same | reflexivity | reflexivity | left; unfold in_rec; now rewrite Er | now left | exact I].
  - (* RTop *) injection H as <-.
    apply (basic_rec w); [exact B | apply (data_ext u w); eauto | now apply still_same | reflexivity | reflexivity | left; unfold in_rec; now rewrite Er | left | ];
      unfold in_rec, rec_ok; cbn [rec_at set_rec]; now destruct (_ =? _).
  - (* RWait *) case_bool_decide; [destruct (_ =? _); [| discriminate] | destruct (procs w !! p0) as [[s |] |] eqn:Ep; try discriminate]; injection H as <-.
    + apply (basic_rec w); [exact B | apply (data_ext u w); eauto | now apply still_same | reflexivity | reflexivity | left; unfold in_rec; now rewrite Er | now left | exact I].
    + apply (basic_rec w); [exact B | | | reflexivity | reflexivity | left; unfold in_rec; now rewrite Er | now left |].
      * apply (data_ext u w); auto. cbn. intros q s' [_ Hq]%lookup_delete_Some. eauto.
      * apply still_set_rec. split; auto. cbn. intros q Hq. apply lookup_delete_None. auto.
      * split; cbn; [apply lookup_delete_eq | now apply (procs_born _ B _ _ Ep)].
  - (* RWalk *) pose proof R as [_ [k Hk]]. pose proof (born_range _ B _ _ Hk) as [Hp _].
    destruct (Nat.ltb_spec i (length tasks)) as [Hi |]; [destruct (bool_decide _) eqn:Es; cbn [negb] in H; [destruct (Z.eqb_spec (pgid (tcb_at i w)) p) |] |]; injection H as <-.
    + apply bool_decide_eq_true in Es. apply (basic_rec w); [exact B | | | reflexivity | reflexivity | left; unfold in_rec; now rewrite Er | now left | exact I].
      * apply (data_ext u (upd i (with_pgid (- p)) w)); eauto.
        apply data_upd; [exact D | apply (touched u w); auto | assumption |]. destruct (d_tcbs _ _ D i Hi). split; rewrite tcb_at_eq by lia; cbn; auto; lia.
      * apply still_set_rec. now apply still_upd.
    + apply (basic_rec w); [exact B | apply (data_ext u w); eauto | now apply still_same | reflexivity | reflexivity | left; unfold in_rec; now rewrite Er | now left | now split].
    + apply (basic_rec w); [exact B | apply (data_ext u w); eauto | now apply still_same | reflexivity | reflexivity | left; unfold in_rec; now rewrite Er | now left | exact R].
    + apply (basic_rec w); [exact B | apply (data_ext u w); eauto | now apply still_same | reflexivity | reflexivity | left; unfold in_rec; now rewrite Er | now left | exact I].
  - (* RScan *) destruct R as [R Hi]. pose proof R as [_ [k Hk]]. pose proof (born_range _ B _ _ Hk) as [Hp _].
    destruct (scan_pids p i num w) as [m |] eqn:Es; injection H as <-.
    + apply scan_pids_spec in Es as [Hm Hpid].
      destruct (recycle_once_facts u i m s p w D ltac:(apply (touched u w); auto; left; lia) Hi ltac:(lia)) as (D1 & S1 & _ & _ & _ & _ & Hf).
      injection Hf as Hf1 Hf2 Hf3 Hf4 Hf5 Hf6 Hf7 Hf8 Hf9 Hf10 Hf11 Hf12.
      apply (basic_rec w); [exact B | apply (data_ext u (task_recycle_once tasks i m s p w)); eauto | now apply still_set_rec | exact Hf2 | exact Hf8 | left; unfold in_rec; now rewrite Er | now left |].
      split_and!; [| assumption | change (tcb_at i (set_rec _ _)) with (tcb_at i (task_recycle_once tasks i m s p w)); now rewrite (s_done _ _ S1)].
      split; [change (procs (task_recycle_once tasks i m s p w) !! p = None); rewrite Hf9; apply R | change (is_Some (born (task_recycle_once tasks i m s p w) !! p)); rewrite Hf10; apply R].
    + assert (match num with O => note_loss p i w | _ => w end = w \/ match num with O => note_loss p i w | _ => w end = add_mishap (LostDeath i) w) as [-> | ->] by (destruct num; [apply note_loss_eq | now left]);
        (apply (basic_rec w); [exact B | apply (data_ext u w); eauto | now apply still_same | reflexivity | reflexivity | left; unfold in_rec; now rewrite Er | now left | exact R]).
  - (* RCheck *) destruct R as (R & Hi & Hn). injection H as <-.
    apply (basic_rec w); [exact B | apply (data_ext u w); eauto | now apply still_same | reflexivity | reflexivity | left; unfold in_rec; now rewrite Er | left | ];
      unfold in_rec, rec_ok; cbn [rec_at set_rec]; destruct (task_check_end tasks i w) eqn:Ec; try easy; destruct (parallel i) eqn:Ep; try easy.
    split_and!; try assumption. cbn. unfold fresh.
    unfold task_check_end in Ec. rewrite Ep in Ec. destruct (_ || _); [discriminate |]. cbn in Ec.
    apply negb_false_iff, Nat.ltb_lt in Ec. change (tcb_at i (set_rec _ w)) with (tcb_at i w). split; [assumption | lia].
  - (* RSub *) injection H as <-. destruct (end_sub_eq i w (no_reboot_mode _ B)) as (E1 & _ & _ & E4 & E5 & Hf).
    injection Hf as Hf1 Hf2 Hf3 Hf4 Hf5 Hf6 Hf7 Hf8 Hf9 Hf10.
    assert (forall j, tcb_at j (recycle_end_sub tasks i w) = tcb_at j w) as Et by (intros j; unfold tcb_at; now rewrite E1).
    apply (basic_rec w); [exact B | | apply still_set_rec; now apply still_same | exact Hf2 | exact Hf6 | left; unfold in_rec; now rewrite Er | now left |].
    + apply (data_ext u w); cbn; auto; [rewrite E4; symmetry; apply (no_reboot_mode _ B) | intros q s'; rewrite Hf7; eauto].
    + destruct R as (R & Hi & Hn). split_and!; [| assumption |].
      * split; [change (procs (recycle_end_sub tasks i w) !! p = None); rewrite Hf7; apply R | change (is_Some (born (recycle_end_sub tasks i w) !! p)); rewrite Hf8; apply R].
      * change (tcb_at i (set_rec _ _)) with (tcb_at i (recycle_end_sub tasks i w)). now rewrite Et.
  - (* RTell *) injection H as <-. destruct R as (R & Hi & Hn). unfold recycle_end_tell.
    set (w1 := if _ =? _ then set_pipe (S (pipe w)) w else w).
    assert (tcbs w1 = tcbs w /\ born w1 = born w /\ next_pid w1 = next_pid w /\ reboot w1 = reboot w /\ procs w1 = procs w /\ main_at w1 = main_at w /\ do_task_lock w1 = do_task_lock w) as (E1 & E2 & E3 & E4 & E5 & E6 & E7)
      by (unfold w1; destruct (_ =? _); auto 10).
    assert (data u w1) as D1 by (apply (data_ext u w); auto; rewrite E5; eauto).
    assert (still w (upd i (with_tstatus TASK_END) w1)) as S1 by (eapply still_trans; [apply (still_same w w1); auto | now apply still_upd]).
    apply (basic_rec w); [exact B | | now apply still_set_rec | exact E6 | exact E7 | left; unfold in_rec; now rewrite Er | now left |].
    + apply (data_ext u (upd i (with_tstatus TASK_END) w1)); eauto.
      apply data_upd; [assumption | apply (touched u w); auto; left; lia | assumption |].
      destruct (d_tcbs _ _ D1 i Hi). split; rewrite tcb_at_eq by (rewrite E1; lia); cbn; auto.
    + split_and!; [| assumption |].
      * split; cbn; [rewrite E5 | rewrite E2]; apply R.
      * change (tcb_at i (set_rec _ _)) with (tcb_at i (upd i (with_tstatus TASK_END) w1)). now rewrite (s_done _ _ S1).
  - (* RDo *) destruct R as (R & Hi & Hn & Hpar & Hd). assert (i < u)%nat as Hu by (apply (touched u w); auto; left; lia).
    destruct (do_step tasks g_env Recycler i d ok ok2 w) as [w1 d1 | w1 r | |] eqn:Es; try discriminate.
    + injection H as <-. destruct (do_next Recycler i d ok ok2 w w1 d1 u D Hu Hi Hd Es) as (D1 & F & Hd1 & Hne & Hl).
      assert (in_rec (set_rec (RDo p s i num d1) w1) = true) as Hm by (unfold in_rec; cbn; now destruct d1).
      assert (in_main (set_rec (RDo p s i num d1) w1) = in_main w) as Hr by (unfold in_main; cbn; now rewrite (f_main _ _ _ _ F)).
      pose proof (lock_fine _ B) as Hlf. pose proof (lock_excl _ B) as Hx. rewrite (in_do_rec _ _ _ _ _ _ Er) in Hlf, Hx.
      apply basic_intro.
      * cbn. rewrite (f_main _ _ _ _ F). apply (data_ext u w1); eauto.
      * apply (still_main w1); [now apply still_same | reflexivity | apply (frame_main i w w1 F (main_fine _ B))].
      * unfold rec_ok. cbn [rec_at set_rec]. split_and!; [| assumption | | assumption | exact Hd1].
        -- eapply (walking_mono w); [| apply (f_born _ _ _ _ F) | exact R]. intros Hq Hb. cbn. now rewrite (f_procs _ _ _ _ F).
        -- change (tcb_at i (set_rec _ _)) with (tcb_at i w1). destruct (f_done _ _ _ _ F) as [-> | [_ ->]]; lia.
      * rewrite Hm, Hr. cbn. destruct d; cbn in Hlf, Hx; try (rewrite andb_true_r in Hx; rewrite Hx in Hlf |- *; rewrite Hl; exact Hlf).
        destruct Hl as [Hl ->]. rewrite Hl in Hlf. now destruct (in_main w).
      * rewrite Hm, Hr. destruct d; cbn in Hx; try (exact Hx). destruct Hl as [Hl _]. rewrite Hl in Hlf. now destruct (in_main w).
    + injection H as <-. destruct (do_ret Recycler i d ok ok2 w w1 r u D Hd Es) as [-> ->].
      pose proof (lock_excl _ B) as Hx. rewrite (in_do_rec _ _ _ _ _ _ Er) in Hx. cbn in Hx. rewrite andb_true_r in Hx.
      set (v := if r =? 0 then set_lock None w else add_mishap (RepeatFailed i) (set_lock None w)).
      assert (tcbs v = tcbs w /\ born v = born w /\ next_pid v = next_pid w /\ reboot v = reboot w /\ procs v = procs w /\ main_at v = main_at w /\ do_task_lock v = None) as (E1 & E2 & E3 & E4 & E5 & E6 & E7)
        by (unfold v; destruct (_ =? _); auto 10).
      assert (still w v) as S1 by (apply still_same; auto).
      apply basic_intro; cbn.
      * rewrite E6. apply (data_ext u w); cbn; auto. rewrite E5. eauto.
      * apply (still_main v); [now apply still_same | reflexivity |]. apply (still_main w); auto. apply (main_fine _ B).
      * unfold rec_ok. cbn. split_and!; [split; cbn; [rewrite E5 | rewrite E2]; apply R | assumption |].
        change (tcb_at i (set_rec _ _)) with (tcb_at i v). now rewrite (s_done _ _ S1).
      * unfold in_main, in_rec in *. cbn. rewrite E6, Hx. exact E7.
      * unfold in_main, in_rec in *. cbn. rewrite E6, Hx. reflexivity.
  - (* RAfter *) destruct R as (R & Hi & Hn). repeat case_match; try discriminate; injection H as <-;
      (apply (basic_rec w); [exact B | apply (data_ext u w); eauto | now apply still_same | reflexivity | reflexivity | left; unfold in_rec; now rewrite Er | now left | try exact I; now split]).
  - (* ROut *) injection H as <-.
    apply (basic_rec w); [exact B | apply (data_ext u w); eauto | now apply still_same | reflexivity | reflexivity | left; unfold in_rec; now rewrite Er | now left | exact I].
  - discriminate.
Qed.

Definition rest_of (w : world) :=
  (tcbs w, tt_quit w, main_at w, rec_at w, running_cnt w, end_cnt w, (pipe w, mishaps w, do_task_lock w, procs w, born w, next_pid w, reboot w, limit_pid w)).

Lemma signal_eq w : rest_of (task_signal_quit w) = rest_of (set_tt_quit true w).
Proof.
  unfold task_signal_quit. cbv zeta. generalize (tcbs (set_tt_quit true w)) as l. generalize (set_tt_quit true w) as v. intros v l. revert v.
  induction l as [| t l IH]; intros v; [reflexivity |]. cbn [foldl]. rewrite IH. destruct (over v); [reflexivity |]. now destruct (pgid t =? 0).
Qed.

Lemma env_basic a w w' :
  basic w -> match a with StepMain _ _ | StepRec _ _ _ => False | _ => True end -> step tasks g_env a w = Next w' ->
  basic w' /\ main_at w' = main_at w /\ rec_at w' = rec_at w /\ running_cnt w' = running_cnt w /\ end_cnt w' = end_cnt w /\
  pipe w' = pipe w /\ mishaps w' = mishaps w /\ born w' = born w /\ still w w' /\
  (forall j, status (tcb_at j w') = status (tcb_at j w) /\ pid (tcb_at j w') = pid (tcb_at j w)) /\
  (forall p, is_Some (procs w !! p) -> is_Some (procs w' !! p)).
Proof.
  intros B Ha H. pose proof (basic_data _ B) as D. unfold step in H. destruct (over w); [discriminate |].
  assert (forall s p, procs w !! p = Some s -> forall s', still w (set_procs (<[p := s']> (procs w)) w)) as Hst.
  { intros s p Hp s'. split; auto. intros q Hq. cbn. rewrite lookup_insert_ne; [assumption | congruence]. }
  assert (forall s p v, procs w !! p = Some s -> (forall q s', <[p := v]> (procs w) !! q = Some s' -> is_Some (procs w !! q))) as Hpr.
  { intros s p v Hp q s' [[<- _] | [_ Hq]]%lookup_insert_Some; eauto. }
  assert (forall p v q, is_Some (procs w !! q) -> is_Some (<[p := v]> (procs w) !! q)) as Hmore by (intros p v q Hq; apply lookup_insert_is_Some'; auto).
  destruct a as [| | p s | p | deadline]; try contradiction.
  - destruct (procs w !! p) as [[|] |] eqn:Ep; try discriminate.
    assert (w' = set_procs (<[p := Some s]> (procs w)) w) as ->.
    { destruct (born w !! p) as [[] |]; try discriminate; [| congruence ..]. destruct (bool_decide _); [congruence | discriminate]. }
    assert (still w (set_procs (<[p := Some s]> (procs w)) w)) as S1 by eauto.
    split_and!; try reflexivity; [| assumption | auto | intros q; apply Hmore]. apply (basic_rec w); [exact B | apply (data_ext (untouched (main_at w)) w); auto; exact (Hpr None p (Some s) Ep) | exact S1 | reflexivity | reflexivity | now right | now right |].
    apply (still_rec w); [exact S1 | reflexivity | apply (rec_fine _ B)].
  - destruct (procs w !! p) as [[|] |] eqn:Ep; try discriminate. destruct (born w !! p) as [[| i | |] |] eqn:Eb; try discriminate. injection H as <-.
    pose proof (born_range _ B _ _ Eb) as [_ Hi]. cbn in Hi.
    set (w1 := upd i (with_quit true) w). set (w2 := if _ <? _ then _ else w1).
    assert (w2 = w1 \/ exists k, w2 = add_kill k w1) as Ew by (unfold w2; destruct (_ <? _); eauto).
    assert (still w w1) as S1 by now apply still_upd.
    assert (still w (set_procs (<[p := Some (Exited 0)]> (procs w2)) w2)) as S2.
    { split.
      - intros j. destruct Ew as [-> | [k ->]]; apply (s_done _ _ S1).
      - destruct Ew as [-> | [k ->]]; reflexivity.
      - intros q Hq. destruct Ew as [-> | [k ->]]; cbn; (rewrite lookup_insert_ne; [assumption | congruence]). }
    assert (forall j, status (tcb_at j w1) = status (tcb_at j w) /\ pid (tcb_at j w1) = pid (tcb_at j w)) as Hj.
    { intros j. unfold w1. destruct (decide (i = j)) as [<- | Hne]; [| now rewrite tcb_at_ne].
      destruct (Nat.lt_ge_cases i (length (tcbs w))); [now rewrite tcb_at_eq |]. unfold tcb_at, upd. cbn. now rewrite !lookup_ge_None_2 by (rewrite ?length_alter; lia). }
    assert (data (untouched (main_at w)) w1) as D1.
    { destruct (Nat.lt_ge_cases i n).
      - apply data_upd; auto. destruct (d_tcbs _ _ D i ltac:(assumption)). split; rewrite tcb_at_eq by (rewrite (d_length _ _ D); assumption); cbn; auto.
      - apply (data_ext _ w); eauto. cbn. apply list_eq. intros j. destruct (decide (i = j)) as [<- | Hne]; [| now rewrite list_lookup_alter_ne].
        rewrite list_lookup_alter_eq. rewrite lookup_ge_None_2; [reflexivity |]. rewrite (d_length _ _ D). lia. }
    assert (data (untouched (main_at w)) (set_procs (<[p := Some (Exited 0)]> (procs w2)) w2)) as D2.
    { apply (data_ext _ w1); auto; destruct Ew as [-> | [k ->]]; auto; exact (Hpr None p (Some (Exited 0)) Ep). }
    split_and!; try (destruct Ew as [-> | [k ->]]; auto; fail).
    + assert (main_at w2 = main_at w /\ rec_at w2 = rec_at w /\ do_task_lock w2 = do_task_lock w) as (F1 & F2 & F3) by (destruct Ew as [-> | [k ->]]; auto).
      apply (basic_rec w); [exact B | exact D2 | exact S2 | exact F1 | exact F3 | now right | now right |].
      apply (still_rec w); [exact S2 | exact F2 | apply (rec_fine _ B)].
    + destruct Ew as [-> | [k ->]]; cbn; auto.
  - assert (exists v, w' = task_signal_quit v /\ (v = w \/ exists s, procs w !! limit_pid w = Some s /\ v = set_procs (<[limit_pid w := Some (Exited SIGALRM)]> (procs w)) w)) as (v & -> & Hv).
    { destruct deadline; [| exists w; split; [congruence | now left]]. destruct (procs w !! limit_pid w) as [[|] |] eqn:Ep; try discriminate.
      injection H as <-. eexists. split; [reflexivity |]. right. exists None. now split. }
    clear H. pose proof (signal_eq v) as Hs. unfold rest_of in Hs.
    generalize dependent (task_signal_quit v). intros x Hs. injection Hs as E1 E2 E3 E4 E5 E6 E7 E8 E9 E10 E11 E12 E13 E14.
    assert (forall j, tcb_at j x = tcb_at j w) as Et by (intros j; unfold tcb_at; rewrite E1; now destruct Hv as [-> | (s & _ & ->)]).
    assert (main_at v = main_at w /\ rec_at v = rec_at w /\ running_cnt v = running_cnt w /\ end_cnt v = end_cnt w /\ pipe v = pipe w /\ mishaps v = mishaps w /\
      do_task_lock v = do_task_lock w /\ born v = born w /\ next_pid v = next_pid w /\ reboot v = reboot w /\ tcbs v = tcbs w) as (F1 & F2 & F3 & F4 & F5 & F6 & F7 & F8 & F9 & F10 & F11)
      by (destruct Hv as [-> | (s & _ & ->)]; auto 12).
    assert (still w x) as S1.
    { split; [intros j; now rewrite Et | now rewrite E11 |]. intros q Hq. rewrite E10. destruct Hv as [-> | (s & Hs & ->)]; [assumption |].
      cbn. rewrite lookup_insert_ne; [assumption | congruence]. }
    assert (data (untouched (main_at w)) x) as D1.
    { apply (data_ext _ w); try congruence. intros q s. rewrite E10. destruct Hv as [-> | (s' & Hs & ->)]; cbn; [eauto | apply (Hpr s' (limit_pid w) _ Hs)]. }
    split_and!; try congruence.
    + apply (basic_rec w); [exact B | exact D1 | exact S1 | congruence | congruence | right; congruence | right; congruence |].
      apply (still_rec w); [exact S1 | congruence | apply (rec_fine _ B)].
    + intros j. now rewrite Et.
    + intros q Hq. rewrite E10. destruct Hv as [-> | (s' & Hs & ->)]; cbn; auto.
Qed.

Lemma step_basic a w w' : basic w -> step tasks g_env a w = Next w' -> basic w'.
Proof.
  intros B H. destruct a as [ok ok2 | ok ok2 p | p s | p | d]; try (eapply env_basic; eauto; exact I);
    unfold step in H; (destruct (over w); [discriminate |]); [eapply main_basic | eapply rec_basic]; eauto.
Qed.

(** ** Counting *)

Lemma count_update (f f' : nat -> bool) i k :
  (forall j, j <> i -> f' j = f j) -> (i < k)%nat ->
  (length (List.filter f' (seq 0 k)) + Nat.b2n (f i) = length (List.filter f (seq 0 k)) + Nat.b2n (f' i))%nat.
Proof.
  intros Hf. revert i Hf. induction k as [| k IH]; intros i Hf Hi; [lia |]. rewrite !seq_S, !List.filter_app, !length_app. cbn [List.filter].
  destruct (decide (i = k)) as [-> | Hne].
  - rewrite (List.filter_ext_in f' f (seq 0 k)) by (intros j Hj; apply Hf; apply in_seq in Hj; lia).
    cbn. destruct (f' k), (f k); cbn; lia.
  - specialize (IH i Hf ltac:(lia)). cbn [Nat.add]. rewrite (Hf k) by lia. lia.
Qed.

Lemma count_le f k : (length (List.filter f (seq 0 k)) <= k)%nat.
Proof. etransitivity; [apply List.filter_length_le |]. now rewrite length_seq. Qed.

Lemma count_none f k : (forall j, (j < k)%nat -> f j = false) <-> length (List.filter f (seq 0 k)) = 0%nat.
Proof.
  split.
  - intros H. destruct (List.filter f (seq 0 k)) as [| j l] eqn:E; [reflexivity |].
    assert (In j (List.filter f (seq 0 k))) as [Hj Ht]%filter_In by (rewrite E; now left). apply in_seq in Hj. rewrite H in Ht by lia. discriminate.
  - intros H j Hj. apply length_zero_iff_nil in H. destruct (f j) eqn:E; [| reflexivity].
    assert (In j (List.filter f (seq 0 k))) as Hin by (apply filter_In; split; [apply in_seq; lia | assumption]). rewrite H in Hin. destruct Hin.
Qed.

Abbreviation act_count := (active_count tasks).

Lemma active_same w w' :
  (forall j, status (tcb_at j w') = status (tcb_at j w)) -> ending_now w' = ending_now w -> forall j, active w' j = active w j.
Proof. intros Hs He j. unfold active. now rewrite Hs, He. Qed.

Lemma count_same w w' : (forall j, active w' j = active w j) -> act_count w' = act_count w.
Proof. intros H. unfold active_count. f_equal. apply List.filter_ext. auto. Qed.

Lemma count_change w w' i :
  (forall j, j <> i -> active w' j = active w j) -> (i < n)%nat ->
  (act_count w' + Nat.b2n (active w i) = act_count w + Nat.b2n (active w' i))%nat.
Proof. intros H Hi. now apply count_update. Qed.

Definition on_time_failures (w : world) : Prop := Forall (fun m => late m = false) (mishaps w).

(** Started by main and not counted yet; ended by main and not counted yet. *)
Definition starting (m : main_pc) : Z := match m with MDo _ _ | MAdd _ | MErr _ => 1 | _ => 0 end.
Definition failing (m : main_pc) : Z := match m with MErrCount _ => 1 | _ => 0 end.

(** The pid is that of a run of the test case that has been dealt with. *)
Definition dealt_with (w : world) (p : Z) (i : nat) : Prop :=
  exists num, born w !! p = Some (Test i num) /\ (num < done_times (tcb_at i w))%nat /\ forall m, pid (tcb_at i w) !! m <> Some p.

Definition rec_counted (w : world) : Prop :=
  match rec_at w with
  | RScan p s i num => status (tcb_at i w) = TASK_RUN \/ done_times (tcb_at i w) = O \/ dealt_with w p i
  | RCheck p s i num | RSub p s i num | RTell p s i num | RDo p s i num _ => status (tcb_at i w) = TASK_RUN /\ dealt_with w p i
  | RAfter p s i num => dealt_with w p i
  | _ => True
  end.

Record counted (w : world) : Prop := {
  c_started i : (i < untouched (main_at w))%nat -> (i < n)%nat -> status (tcb_at i w) <> TASK_WAIT;
  c_running : running_cnt w + starting (main_at w) = Z.of_nat (act_count w);
  c_ended : end_cnt w + failing (main_at w) + Z.of_nat (act_count w) = Z.of_nat (untouched (main_at w));
  c_rec : rec_counted w;
  c_cur i : match main_at w with MDo j _ | MAdd j | MErr j => i = j | _ => False end ->
    status (tcb_at i w) = TASK_RUN \/ (0 < done_times (tcb_at i w))%nat;
}.

Lemma dealt_still w w' p i :
  done_times (tcb_at i w') = done_times (tcb_at i w) -> pid (tcb_at i w') = pid (tcb_at i w) -> born w' = born w -> dealt_with w p i -> dealt_with w' p i.
Proof. intros Ed Ep Eb (num & H1 & H2 & H3). exists num. rewrite Ed, Ep, Eb. auto. Qed.

(** A step of [task_do] keeps it: the pid it stores is that of another run. *)
Lemma dealt_do th i d ok ok2 w w' d' u p j :
  data u w -> (i < n)%nat -> do_ok th i d w -> do_step tasks g_env th i d ok ok2 w = DNext w' d' -> frame th i w w' ->
  dealt_with w p j -> dealt_with w' p j.
Proof.
  intros D Hi Hok H F (num & H1 & H2 & H3). exists num. split; [now apply (f_born _ _ _ _ F) |].
  destruct (decide (j = i)) as [-> | Hne]; [| rewrite (f_others _ _ _ _ F) by assumption; auto].
  split; [destruct (f_done _ _ _ _ F) as [-> | [_ ->]]; lia |].
  assert (i < length (tcbs w))%nat as Hl by (rewrite (d_length _ _ D); assumption).
  unfold do_step in H. rewrite no_reboot in H. destruct d; cbn [do_ok] in Hok; try contradiction; repeat case_match; simplify_eq; auto; intros m;
    try (change (tcb_at i (add_kill ?k ?v)) with (tcb_at i v)); try (change (tcb_at i (set_lock ?k ?v)) with (tcb_at i v));
    rewrite ?tcb_at_eq by assumption; cbn; auto;
    try (intros [(_ & E & _) | [_ Hm]]%list_lookup_insert_Some; [| now apply (H3 m)]).
  - apply (d_born _ _ D) in H1 as [? _]. lia.
  - destruct Hok as [_ Hb]. subst p0. rewrite Hb in H1. injection H1 as <-. lia.
  - destruct Hok as [_ Hb]. subst p0. rewrite Hb in H1. injection H1 as <-. lia.
Qed.

Lemma start_counted : counted (start tasks g_env false [] 0 0).
Proof.
  assert (act_count (start tasks g_env false [] 0 0) = 0%nat) as E.
  { apply count_none. intros j Hj. unfold active. pose proof (rest_blank _ start_basic j) as Hb.
    rewrite Hb; [reflexivity |]. unfold start. destruct (0 <? _); cbn; lia. }
  split; rewrite ?E; unfold start; destruct (0 <? _); cbn; intros; try lia; try exact I; contradiction.
Qed.

(** A step that leaves statuses, pids and the recycler where they are. *)
Lemma rec_counted_same w w' :
  still w w' -> (forall j, status (tcb_at j w') = status (tcb_at j w) /\ pid (tcb_at j w') = pid (tcb_at j w)) -> rec_at w' = rec_at w ->
  rec_counted w -> rec_counted w'.
Proof.
  intros S Hj Er. assert (forall p i, dealt_with w p i -> dealt_with w' p i) as Hd.
  { intros p i. apply dealt_still; [apply (s_done _ _ S) | apply Hj | apply (s_born _ _ S)]. }
  unfold rec_counted. rewrite Er. destruct (rec_at w); auto; rewrite ?(proj1 (Hj _)), ?(s_done _ _ S); intuition auto.
Qed.

Lemma counted_same w w' :
  still w w' -> (forall j, status (tcb_at j w') = status (tcb_at j w) /\ pid (tcb_at j w') = pid (tcb_at j w)) -> rec_at w' = rec_at w ->
  untouched (main_at w') = untouched (main_at w) ->
  running_cnt w' + starting (main_at w') = running_cnt w + starting (main_at w) ->
  end_cnt w' + failing (main_at w') = end_cnt w + failing (main_at w) ->
  (forall i, match main_at w' with MDo j _ | MAdd j | MErr j => i = j | _ => False end ->
     match main_at w with MDo j _ | MAdd j | MErr j => i = j | _ => False end) ->
  counted w -> counted w'.
Proof.
  intros S Hj Er Eu E1 E2 Hc []. assert (act_count w' = act_count w) as Ea.
  { apply count_same, active_same; [intros j; apply Hj | unfold ending_now; now rewrite Er]. }
  split; rewrite ?Eu, ?Ea; auto.
  - intros i. rewrite (proj1 (Hj i)). auto.
  - lia.
  - lia.
  - eapply rec_counted_same; eauto.
  - intros i Hi. rewrite (proj1 (Hj i)), (s_done _ _ S). apply c_cur0, Hc, Hi.
Qed.

(** The test case main goes on to. *)
Lemma next_main k : (k <= n)%nat ->
  untouched (if (k <? n)%nat then MLimit k else MJoin) = k /\ starting (if (k <? n)%nat then MLimit k else MJoin) = 0 /\
  failing (if (k <? n)%nat then MLimit k else MJoin) = 0 /\
  forall i, match (if (k <? n)%nat then MLimit k else MJoin) with MDo j _ | MAdd j | MErr j => i = j | _ => False end -> False.
Proof. intros H. destruct (Nat.ltb_spec k n); cbn; split_and!; auto; lia. Qed.

Lemma main_counted ok ok2 w w' :
  basic w -> counted w -> main_step tasks g_env ok ok2 w = Next w' -> on_time_failures w' -> counted w'.
Proof.
  intros B C H Hf. pose proof (basic_data _ B) as D. pose proof (main_fine _ B) as M. unfold main_ok in M.
  pose proof (tcbs_length _ B) as Hl. pose proof (c_ended _ C) as Ce. pose proof (c_running _ C) as Cr.
  unfold main_step in H. destruct (main_at w) as [| i | i | i | i | i d | i | i | i | i | |] eqn:Em; cbn [starting failing untouched] in Ce, Cr.
  - destruct (pipe w) as [| k]; [discriminate |]. injection H as <-. destruct (next_main 0 ltac:(lia)) as (E1 & E2 & E3 & E4).
    apply (counted_same w); auto; cbn [main_at set_main]; rewrite ?Em, ?E1, ?E2, ?E3; auto;
      first [now apply still_same | intros j Hj; now destruct (E4 j)].
  - injection H as <-. apply (counted_same w); auto; cbn [main_at set_main]; rewrite ?Em; try (destruct (_ <=? _); cbn; auto; fail). now apply still_same.
  - destruct (pipe w) as [| k]; [discriminate |]. injection H as <-. apply (counted_same w); auto; cbn [main_at set_main set_pipe]; rewrite ?Em; cbn; auto. now apply still_same.
  - destruct (_ && _); [discriminate |]. injection H as <-. apply (counted_same w); auto; cbn [main_at set_main]; rewrite ?Em; cbn; auto. now apply still_same.
  - (* MBegin *) rewrite (no_reboot_mode _ B) in H. cbn [andb] in H. injection H as <-.
    pose proof (rest_blank _ B i ltac:(rewrite ?Em; cbn; lia)) as Hb. set (v := upd i (with_tstatus TASK_RUN) w).
    assert (forall j, j <> i -> tcb_at j v = tcb_at j w) as Hne by (intros j Hj; apply tcb_at_ne; auto).
    assert (tcb_at i v = with_tstatus TASK_RUN (tcb_at i w)) as Heq by (apply tcb_at_eq; lia).
    assert (active w i = false) as Ha by (unfold active; now rewrite Hb).
    assert (ending_now w <> Some i) as Hen.
    { unfold ending_now. pose proof (rec_fine _ B) as R. unfold rec_ok in R. destruct (rec_at w); try easy. intros [= ->]. rewrite Hb in R. cbn in R. lia. }
    assert (active v i = true) as Hav.
    { unfold active. rewrite Heq. change (ending_now v) with (ending_now w). now rewrite (bool_decide_eq_false_2 _ Hen). }
    pose proof (count_change w v i) as Hc. rewrite Ha, Hav in Hc. cbn [Nat.b2n] in Hc.
    assert (act_count v = S (act_count w)) as Ec by (rewrite <- Nat.add_1_r, <- Hc, Nat.add_0_r; auto; intros j Hj; unfold active; now rewrite Hne).
    split; cbn [main_at set_main starting failing untouched].
    + intros j Hj Hjn. change (tcb_at j (set_main _ v)) with (tcb_at j v). destruct (decide (j = i)) as [-> |]; [now rewrite Heq |].
      rewrite Hne by assumption. apply (c_started _ C); [rewrite ?Em; cbn; lia | assumption].
    + change (act_count (set_main _ v)) with (act_count v). rewrite Ec. cbn. lia.
    + change (act_count (set_main _ v)) with (act_count v). rewrite Ec. cbn. lia.
    + pose proof (c_rec _ C) as R. assert (forall p j, dealt_with w p j -> dealt_with (set_main (MDo i DoLock) v) p j) as Hd.
      { intros p j. change (dealt_with (set_main (MDo i DoLock) v) p j) with (dealt_with v p j). destruct (decide (j = i)) as [-> | Hj]; [apply dealt_still; rewrite ?Heq; auto | apply dealt_still; rewrite ?Hne; auto]. }
      unfold rec_counted in *. cbn [rec_at set_main]. change (rec_at v) with (rec_at w).
      destruct (rec_at w) as [| | | | p s j num | p s j num | p s j num | p s j num | p s j num d | p s j num | |]; auto;
        change (tcb_at j (set_main _ v)) with (tcb_at j v); (destruct (decide (j = i)) as [-> | Hj]; [rewrite ?Heq; cbn; intuition auto | rewrite ?Hne by assumption; intuition auto]).
    + intros j ->. left. change (tcb_at i (set_main _ v)) with (tcb_at i v). now rewrite Heq.
  - (* MDo *) destruct M as [Hi Hd]. destruct (do_step tasks g_env Main i d ok ok2 w) as [w1 d1 | w1 r | |] eqn:Es; try discriminate.
    + injection H as <-. destruct (do_next Main i d ok ok2 w w1 d1 (S i) D ltac:(lia) Hi Hd Es) as (D1 & F & Hd1 & Hne & Hlk).
      assert (act_count (set_main (MDo i d1) w1) = act_count w) as Ea.
      { apply count_same, active_same; [apply (f_status _ _ _ _ F) | unfold ending_now; cbn; now rewrite (f_rec _ _ _ _ F)]. }
      pose proof (c_cur _ C i ltac:(now rewrite Em)) as Hcur.
      split; cbn [main_at set_main starting failing untouched]; rewrite ?Ea.
      * intros j Hj Hjn. change (tcb_at j (set_main _ w1)) with (tcb_at j w1). rewrite (f_status _ _ _ _ F). apply (c_started _ C); [now rewrite Em | assumption].
      * change (running_cnt (set_main _ w1)) with (running_cnt w1). rewrite (f_running _ _ _ _ F). lia.
      * change (end_cnt (set_main _ w1)) with (end_cnt w1). rewrite (f_end _ _ _ _ F). lia.
      * pose proof (c_rec _ C) as R. assert (forall p j, dealt_with w p j -> dealt_with (set_main (MDo i d1) w1) p j) as Hdw
          by (intros p j; change (dealt_with w p j -> dealt_with w1 p j); eapply dealt_do; eauto).
        unfold rec_counted in *. cbn [rec_at set_main]. rewrite (f_rec _ _ _ _ F).
        destruct (rec_at w) as [| | | | p s j num | p s j num | p s j num | p s j num | p s j num d2 | p s j num | |]; auto;
          change (tcb_at j (set_main _ w1)) with (tcb_at j w1); rewrite ?(f_status _ _ _ _ F); try (intuition auto; fail).
        -- destruct R as [R | [R | R]]; [auto | | auto]. destruct (decide (j = i)) as [-> | Hj]; [destruct Hcur; [auto | lia] |].
           rewrite (f_others _ _ _ _ F) by assumption. auto.
      * intros j ->. change (tcb_at i (set_main _ w1)) with (tcb_at i w1). rewrite (f_status _ _ _ _ F).
        destruct Hcur as [? | ?]; [auto | right]. destruct (f_done _ _ _ _ F) as [-> | [_ ->]]; lia.
    + injection H as <-. destruct (do_ret Main i d ok ok2 w w1 r (S i) D Hd Es) as [-> ->].
      apply (counted_same w); auto; cbn [main_at set_main]; rewrite ?Em; try (destruct (r =? 0); cbn; auto; fail). now apply still_same.
  - (* MAdd *) injection H as <-. apply (counted_same w); auto; cbn [main_at set_main]; rewrite ?Em; cbn; auto; try lia; try contradiction. now apply still_same.
  - (* MErr *) destruct (_ <? _)%nat; [| discriminate]. injection H as <-. destruct M as [Hi Hfr].
    destruct (done_times (tcb_at i w) =? 0)%nat eqn:Ez; [apply Nat.eqb_eq in Ez |]; [| inversion Hf; discriminate].
    pose proof (c_cur _ C i ltac:(now rewrite Em)) as [Hrun | ?]; [| lia].
    set (f := fun t => with_tstatus TASK_END _). set (v := upd i f w).
    assert (forall j, j <> i -> tcb_at j v = tcb_at j w) as Hne by (intros j Hj; apply tcb_at_ne; auto).
    assert (tcb_at i v = f (tcb_at i w)) as Heq by (apply tcb_at_eq; lia).
    assert (forall p, ~ dealt_with w p i) as Hnd by (intros p (num & _ & ? & _); lia).
    pose proof (c_rec _ C) as R. pose proof (rec_fine _ B) as Rf.
    assert (ending_now w <> Some i) as Hen.
    { unfold ending_now. unfold rec_counted in R. destruct (rec_at w); try easy. intros [= ->]. now destruct (Hnd p). }
    assert (active w i = true) as Ha by (unfold active; now rewrite Hrun, (bool_decide_eq_false_2 _ Hen)).
    assert (active v i = false) as Hav by (unfold active; now rewrite Heq).
    pose proof (count_change w v i) as Hc. rewrite Ha, Hav in Hc. cbn [Nat.b2n] in Hc.
    assert (S (act_count v) = act_count w) as Ec by (rewrite <- (Nat.add_0_r (act_count w)), <- Hc, Nat.add_1_r; auto; intros j Hj; unfold active; now rewrite Hne).
    set (w1 := set_main _ _). assert (forall j, tcb_at j w1 = tcb_at j v) as E1 by reflexivity.
    assert (act_count w1 = act_count v) as E2 by reflexivity.
    split; rewrite ?E2; cbn [w1 main_at set_main starting failing untouched].
    + intros j Hj Hjn. rewrite E1. destruct (decide (j = i)) as [-> |]; [now rewrite Heq |]. rewrite Hne by assumption. apply (c_started _ C); [now rewrite Em | assumption].
    + cbn. lia.
    + cbn. lia.
    + assert (forall p j, dealt_with w p j -> dealt_with w1 p j) as Hd.
      { intros p j. destruct (decide (j = i)) as [-> | Hj]; [intros H; now destruct (Hnd p) | apply dealt_still; rewrite ?E1, ?Hne; auto]. }
      unfold rec_counted in *. change (rec_at w1) with (rec_at w).
      destruct (rec_at w) as [| | | | p s j num | p s j num | p s j num | p s j num | p s j num d | p s j num | |]; auto; rewrite ?E1;
        (destruct (decide (j = i)) as [-> | Hj]; [| rewrite ?Hne by assumption; intuition auto]).
      * rewrite Heq. cbn. auto.
      * destruct R as [_ R]. now destruct (Hnd p).
      * destruct R as [_ R]. now destruct (Hnd p).
      * destruct R as [_ R]. now destruct (Hnd p).
      * destruct R as [_ R]. now destruct (Hnd p).
    + intros j [].
  - (* MErrCount *) injection H as <-. destruct (next_main (S i) ltac:(lia)) as (E1 & E2 & E3 & E4).
    apply (counted_same w); auto; cbn [main_at set_main]; rewrite ?Em, ?E1, ?E2, ?E3; auto;
      first [now apply still_same | intros j Hj; now destruct (E4 j) | cbn; lia].
  - (* MAfter *) destruct (_ && _); [discriminate |]. injection H as <-. destruct (next_main (S i) ltac:(lia)) as (E1 & E2 & E3 & E4).
    apply (counted_same w); auto; cbn [main_at set_main]; rewrite ?Em, ?E1, ?E2, ?E3; auto;
      first [now apply still_same | intros j Hj; now destruct (E4 j)].
  - (* MJoin *) destruct (rec_at w) eqn:Er; try discriminate. injection H as <-. apply (counted_same w); auto; cbn [main_at set_main]; rewrite ?Em; cbn; auto. now apply still_same.
  - (* MClean *) destruct (_ =? 0); [discriminate |]. injection H as <-. apply (counted_same w); auto; cbn; rewrite ?Em; auto. now apply still_same.
Qed.

(** A step that moves the recycler and changes no status. *)
Lemma counted_move w w' :
  (forall j, done_times (tcb_at j w') = done_times (tcb_at j w) \/ (0 < done_times (tcb_at j w'))%nat) ->
  (forall j, status (tcb_at j w') = status (tcb_at j w)) -> ending_now w' = ending_now w ->
  main_at w' = main_at w -> running_cnt w' = running_cnt w -> end_cnt w' = end_cnt w -> rec_counted w' -> counted w -> counted w'.
Proof.
  intros Hd Hs He Em E1 E2 Hr []. assert (act_count w' = act_count w) as Ea by now apply count_same, active_same.
  split; rewrite ?Em, ?Ea, ?E1, ?E2; auto.
  - intros i. rewrite Hs. auto.
  - intros i Hi. rewrite Hs. destruct (c_cur0 i Hi); [auto |]. right. destruct (Hd i); lia.
Qed.

Lemma recycler_counted ok ok2 p0 w w' :
  basic w -> counted w -> rec_step tasks g_env ok ok2 p0 w = Next w' -> counted w'.
Proof.
  intros B C H. pose proof (basic_data _ B) as D. pose proof (rec_fine _ B) as R. unfold rec_ok in R.
  pose proof (tcbs_length _ B) as Hlen. set (u := untouched (main_at w)) in *. pose proof (c_rec _ C) as Rc. unfold rec_counted in Rc.
  unfold rec_step in H. destruct (rec_at w) as [| | | p s i | p s i num | p s i num | p s i num | p s i num | p s i num d | p s i num | |] eqn:Er.
  - injection H as <-. apply (counted_move w); auto; unfold ending_now; cbn; now rewrite ?Er.
  - injection H as <-. apply (counted_move w); auto; unfold ending_now, rec_counted; cbn [rec_at set_rec]; rewrite ?Er; now destruct (_ =? _).
  - case_bool_decide; [destruct (_ =? _); [| discriminate] | destruct (procs w !! p0) as [[s |] |] eqn:Ep; try discriminate]; injection H as <-;
      (apply (counted_move w); auto; unfold ending_now; cbn; now rewrite ?Er).
  - (* RWalk *) destruct (Nat.ltb_spec i (length tasks)) as [Hi |]; [destruct (bool_decide _) eqn:Es; cbn [negb] in H; [destruct (Z.eqb_spec (pgid (tcb_at i w)) p) |] |]; injection H as <-.
    + assert (forall j, tcb_at j (set_rec RTop (upd i (with_pgid (- p)) w)) = if decide (i = j) then with_pgid (- p) (tcb_at j w) else tcb_at j w) as Ej.
      { intros j. change (tcb_at j (set_rec ?r ?v)) with (tcb_at j v). destruct (decide (i = j)) as [<- |]; [apply tcb_at_eq; lia | now apply tcb_at_ne]. }
      apply (counted_move w); auto; try (intros j; rewrite Ej; destruct (decide _); auto; fail); first [exact I | unfold ending_now; cbn; now rewrite Er].
    + apply (counted_move w); auto; unfold ending_now; cbn; rewrite ?Er; auto. left. now apply bool_decide_eq_true in Es.
    + apply (counted_move w); auto; unfold ending_now; cbn; rewrite ?Er; auto.
    + apply (counted_move w); auto; unfold ending_now; cbn; rewrite ?Er; auto.
  - (* RScan *) destruct R as [R Hi]. pose proof R as [_ [k Hk]]. pose proof (born_range _ B _ _ Hk) as [Hp _].
    destruct (scan_pids p i num w) as [m |] eqn:Es; injection H as <-.
    + apply scan_pids_spec in Es as [Hm Hpid].
      destruct (recycle_once_facts u i m s p w D ltac:(apply (touched u w); auto; left; lia) Hi ltac:(lia)) as (D1 & S1 & Ho & Hst & Hpi & _ & Hf).
      injection Hf as Hf1 Hf2 Hf3 Hf4 Hf5 Hf6 Hf7 Hf8 Hf9 Hf10 Hf11 Hf12. set (v := task_recycle_once tasks i m s p w) in *.
      assert (forall j, status (tcb_at j v) = status (tcb_at j w)) as Hs.
      { intros j. destruct (decide (j = i)) as [-> | Hj]; [exact Hst | now rewrite Ho]. }
      apply (counted_move w); auto; [intros j; left; apply (s_done _ _ S1) | unfold ending_now; cbn; now rewrite Er |].
      unfold rec_counted. cbn [rec_at set_rec]. change (tcb_at i (set_rec _ v)) with (tcb_at i v).
      pose proof (all_tcbs _ B i Hi) as T. destruct (pid_born _ _ T _ _ Hpid ltac:(lia)) as [Hb _].
      split.
      * rewrite Hs. destruct Rc as [Rc | [Rc | (num' & _ & _ & Hno)]]; [assumption | lia | now destruct (Hno m)].
      * exists m. change (born (set_rec ?r v)) with (born v). rewrite Hf10. change (tcb_at i (set_rec ?r v)) with (tcb_at i v). rewrite (s_done _ _ S1), Hpi. split_and!; auto.
        intros q [(_ & E & _) | [Hne Hq]]%list_lookup_insert_Some; [lia |].
        destruct (pid_born _ _ T _ _ Hq ltac:(lia)) as [Hb' _]. congruence.
    + assert (match num with O => note_loss p i w | _ => w end = w \/ match num with O => note_loss p i w | _ => w end = add_mishap (LostDeath i) w) as [-> | ->] by (destruct num; [apply note_loss_eq | now left]); (apply (counted_move w); auto; unfold ending_now; cbn; now rewrite ?Er).
  - (* RCheck *) injection H as <-. apply (counted_move w); auto; unfold ending_now, rec_counted; cbn [rec_at set_rec]; rewrite ?Er;
      (destruct (task_check_end tasks i w); [| destruct (parallel i)]); try reflexivity; try exact Rc. apply Rc.
  - (* RSub *) injection H as <-. destruct (end_sub_eq i w (no_reboot_mode _ B)) as (E1 & E2 & E3 & E4 & E5 & Hf).
    injection Hf as Hf1 Hf2 Hf3 Hf4 Hf5 Hf6 Hf7 Hf8 Hf9 Hf10. destruct R as (_ & Hi & Hn). destruct Rc as [Rs Rd].
    set (v := set_rec (RTell p s i num) (recycle_end_sub tasks i w)).
    assert (forall j, tcb_at j v = tcb_at j w) as Et by (intros j; unfold tcb_at; cbn; now rewrite E1).
    assert (forall j, j <> i -> active v j = active w j) as Hne.
    { intros j Hj. unfold active, ending_now. rewrite Et, Er. cbn. f_equal. f_equal. rewrite !bool_decide_eq_false_2; congruence. }
    assert (active w i = true) as Ha by (unfold active, ending_now; now rewrite Er, Rs).
    assert (active v i = false) as Hav by (unfold active, ending_now; cbn; rewrite (bool_decide_eq_true_2 (Some i = Some i)) by reflexivity; apply andb_false_r).
    pose proof (count_change w v i Hne Hi) as Hc. rewrite Ha, Hav in Hc. cbn [Nat.b2n] in Hc.
    split.
    + intros j. rewrite Et. change (main_at v) with (main_at (recycle_end_sub tasks i w)). rewrite Hf2. apply (c_started _ C).
    + pose proof (c_running _ C). change (main_at v) with (main_at (recycle_end_sub tasks i w)). change (running_cnt v) with (running_cnt (recycle_end_sub tasks i w)). rewrite Hf2, E2. lia.
    + pose proof (c_ended _ C). change (main_at v) with (main_at (recycle_end_sub tasks i w)). change (end_cnt v) with (end_cnt (recycle_end_sub tasks i w)). rewrite Hf2, E3. lia.
    + unfold rec_counted. cbn [v rec_at set_rec]. split; [now rewrite Et |]. revert Rd. apply dealt_still; [now rewrite Et | now rewrite Et | exact Hf8].
    + intros j. change (main_at v) with (main_at (recycle_end_sub tasks i w)). rewrite Hf2, Et. apply (c_cur _ C).
  - (* RTell *) injection H as <-. destruct R as (R & Hi & Hn). destruct Rc as [Rs Rd]. unfold recycle_end_tell.
    set (w1 := if _ =? _ then set_pipe (S (pipe w)) w else w).
    assert (tcbs w1 = tcbs w /\ born w1 = born w /\ running_cnt w1 = running_cnt w /\ end_cnt w1 = end_cnt w /\ main_at w1 = main_at w) as (E1 & E2 & E3 & E4 & E5)
      by (unfold w1; destruct (_ =? _); auto 10).
    set (v := set_rec (RAfter p s i num) (upd i (with_tstatus TASK_END) w1)).
    assert (forall j, tcb_at j v = if decide (i = j) then with_tstatus TASK_END (tcb_at j w) else tcb_at j w) as Ej.
    { intros j. change (tcb_at j v) with (tcb_at j (upd i (with_tstatus TASK_END) w1)). destruct (decide (i = j)) as [<- |].
      - rewrite tcb_at_eq by (rewrite E1; lia). unfold tcb_at. now rewrite E1.
      - rewrite tcb_at_ne by assumption. unfold tcb_at. now rewrite E1. }
    assert (act_count v = act_count w) as Ea.
    { apply count_same. intros j. unfold active, ending_now. rewrite Ej, Er. cbn [v rec_at set_rec]. destruct (decide (i = j)) as [<- | Hj].
      - rewrite (bool_decide_eq_true_2 (Some i = Some i)) by reflexivity. cbn. now rewrite andb_false_r.
      - f_equal. f_equal. rewrite !bool_decide_eq_false_2; congruence. }
    assert (forall j, done_times (tcb_at j v) = done_times (tcb_at j w)) as Hd by (intros j; rewrite Ej; now destruct (decide _)).
    split; rewrite ?Ea; cbn [v main_at set_rec running_cnt end_cnt upd set_tcbs]; rewrite ?E3, ?E4, ?E5; try apply C.
    + intros j. rewrite Ej. destruct (decide _); [intros _ _; easy | apply (c_started _ C)].
    + revert Rd. apply dealt_still; [apply Hd | rewrite Ej; now destruct (decide _) | exact E2].
    + intros j Hj. rewrite Hd, Ej. destruct (decide _) as [<- |]; [right; lia | now apply (c_cur _ C)].
  - (* RDo *) destruct R as (R & Hi & Hn & Hpar & Hd). assert (i < u)%nat as Hu by (apply (touched u w); auto; left; lia).
    destruct (do_step tasks g_env Recycler i d ok ok2 w) as [w1 d1 | w1 r | |] eqn:Es; try discriminate.
    + injection H as <-. destruct (do_next Recycler i d ok ok2 w w1 d1 u D Hu Hi Hd Es) as (D1 & F & Hd1 & Hne & Hl).
      apply (counted_move w); auto; cbn; try apply F.
      * intros j. destruct (decide (j = i)) as [-> | Hj]; [| left; change (tcb_at j (set_rec ?r w1)) with (tcb_at j w1); now rewrite (f_others _ _ _ _ F)].
        right. change (tcb_at i (set_rec ?r w1)) with (tcb_at i w1). destruct (f_done _ _ _ _ F) as [-> | [_ ->]]; lia.
      * unfold ending_now. cbn. now rewrite Er.
      * destruct Rc as [Rs Rd]. split; [change (status (tcb_at i w1) = TASK_RUN); now rewrite (f_status _ _ _ _ F) |].
        change (dealt_with w1 p i). exact (dealt_do Recycler i d ok ok2 w w1 d1 u p i D Hi Hd Es F Rd).
    + injection H as <-. destruct (do_ret Recycler i d ok ok2 w w1 r u D Hd Es) as [-> ->].
      destruct (r =? 0); (apply (counted_move w); auto; [unfold ending_now; cbn; now rewrite Er | exact (proj2 Rc)]).
  - (* RAfter *) repeat case_match; try discriminate; injection H as <-; (apply (counted_move w); auto; unfold ending_now; cbn; rewrite ?Er; auto).
  - injection H as <-. apply (counted_move w); auto; unfold ending_now; cbn; now rewrite ?Er.
  - discriminate.
Qed.

Lemma step_counted a w w' :
  basic w -> counted w -> step tasks g_env a w = Next w' -> on_time_failures w' -> counted w'.
Proof.
  intros B C H Hf. destruct a as [ok ok2 | ok ok2 p | p s | p | d].
  - unfold step in H. destruct (over w); [discriminate |]. eapply main_counted; eauto.
  - unfold step in H. destruct (over w); [discriminate |]. eapply recycler_counted; eauto.
  - edestruct env_basic as (_ & Em & Er & E1 & E2 & _ & _ & _ & S & Hj & _); [exact B | | exact H |]; [exact I |].
    apply (counted_same w); auto; rewrite ?Em, ?E1, ?E2; auto.
  - edestruct env_basic as (_ & Em & Er & E1 & E2 & _ & _ & _ & S & Hj & _); [exact B | | exact H |]; [exact I |].
    apply (counted_same w); auto; rewrite ?Em, ?E1, ?E2; auto.
  - edestruct env_basic as (_ & Em & Er & E1 & E2 & _ & _ & _ & S & Hj & _); [exact B | | exact H |]; [exact I |].
    apply (counted_same w); auto; rewrite ?Em, ?E1, ?E2; auto.
Qed.

(** ** The limit, the test cases that run alone, and the wake-up of main *)

Abbreviation up_to := (run_cnt_up_to g_env).
Abbreviation alone i := (run_alone (env_of tasks i)).

Definition telling (w : world) : Z := match ending_now w with Some _ => 1 | None => 0 end.

Record held (w : world) : Prop := {
  h_limit : Z.of_nat (act_count w) <= up_to;
  h_gate : match main_at w with MAlone _ | MBegin _ => running_cnt w < up_to | _ => True end;
  h_wait : match main_at w with MWait _ => pipe w = O -> up_to <= running_cnt w + telling w | _ => True end;
  h_none : match main_at w with MLimit _ | MWait _ | MAlone _ | MBegin _ => forall j, (j < n)%nat -> active w j = true -> alone j = false | _ => True end;
  h_free : match main_at w with MBegin i => alone i = true -> act_count w = O | _ => True end;
  h_cur : match main_at w with
    | MDo i _ | MAdd i | MErr i | MErrCount i | MAfter i =>
        forall j, (j < n)%nat -> active w j = true -> j <> i -> alone j = false /\ alone i = false
    | _ => True end;
  h_err : match main_at w with MErrCount i => (i < n)%nat -> active w i = false | _ => True end;
  h_pair j k : (j < n)%nat -> (k < n)%nat -> active w j = true -> active w k = true -> alone j = true -> k = j;
}.

Lemma count_shrinks w w' : (forall j, (j < n)%nat -> active w' j = true -> active w j = true) -> (act_count w' <= act_count w)%nat.
Proof.
  intros H. unfold active_count. assert (forall k, (k <= n)%nat -> (length (List.filter (active w') (seq 0 k)) <= length (List.filter (active w) (seq 0 k)))%nat) as Hk; [| now apply Hk].
  induction k as [| k IH]; intros Hk; [reflexivity |]. specialize (IH ltac:(lia)). rewrite !seq_S, !List.filter_app, !length_app. cbn [Nat.add List.filter].
  specialize (H k ltac:(lia)). destruct (active w' k); [rewrite (H eq_refl) |]; [cbn; lia | destruct (active w k); cbn; lia].
Qed.

(** A step that starts nothing and leaves main where it is. *)
Lemma held_shrink w w' :
  main_at w' = main_at w -> (forall j, (j < n)%nat -> active w' j = true -> active w j = true) ->
  running_cnt w' <= running_cnt w -> (pipe w' = O -> pipe w = O /\ (up_to <= running_cnt w + telling w -> up_to <= running_cnt w' + telling w')) ->
  held w -> held w'.
Proof.
  intros Em Ha Hr Hp []. pose proof (count_shrinks _ _ Ha) as Hc. split; rewrite ?Em; try lia; auto.
  - destruct (main_at w); auto; lia.
  - destruct (main_at w); auto. intros H0. destruct (Hp H0). auto.
  - destruct (main_at w); auto.
  - destruct (main_at w); auto. intros Hal. specialize (h_free0 Hal). lia.
  - destruct (main_at w); auto.
  - destruct (main_at w); auto. intros Hi. apply not_true_iff_false. intros E. specialize (h_err0 Hi). now rewrite (Ha _ Hi E) in h_err0.
Qed.

Lemma recycler_shrinks ok ok2 p0 w w' :
  basic w -> counted w -> rec_step tasks g_env ok ok2 p0 w = Next w' ->
  main_at w' = main_at w /\ (forall j, (j < n)%nat -> active w' j = true -> active w j = true) /\
  running_cnt w' <= running_cnt w /\ (pipe w' = O -> pipe w = O /\ (up_to <= running_cnt w + telling w -> up_to <= running_cnt w' + telling w')).
Proof.
  intros B C H. pose proof (basic_data _ B) as D. pose proof (rec_fine _ B) as R. unfold rec_ok in R. pose proof (c_rec _ C) as Rc. unfold rec_counted in Rc.
  pose proof (tcbs_length _ B) as Hlen. set (u := untouched (main_at w)) in *.
  assert (forall v, (forall j, status (tcb_at j v) = status (tcb_at j w)) -> ending_now v = ending_now w -> main_at v = main_at w -> running_cnt v = running_cnt w ->
    (pipe v = pipe w \/ pipe v = S (pipe w)) ->
    main_at v = main_at w /\ (forall j, (j < n)%nat -> active v j = true -> active w j = true) /\
    running_cnt v <= running_cnt w /\ (pipe v = O -> pipe w = O /\ (up_to <= running_cnt w + telling w -> up_to <= running_cnt v + telling v))) as Hsame.
  { intros v Hs He Em Er Ep. split_and!; auto; [| lia |].
    - intros j _. now rewrite (active_same w v).
    - unfold telling. rewrite He, Er. intros H0. split; [lia | auto]. }
  unfold rec_step in H. destruct (rec_at w) as [| | | p s i | p s i num | p s i num | p s i num | p s i num | p s i num d | p s i num | |] eqn:Er.
  - injection H as <-. apply Hsame; auto. unfold ending_now. cbn. now rewrite Er.
  - injection H as <-. apply Hsame; auto. unfold ending_now. cbn. rewrite Er. now destruct (_ =? _).
  - case_bool_decide; [destruct (_ =? _); [| discriminate] | destruct (procs w !! p0) as [[s |] |] eqn:Ep; try discriminate]; injection H as <-;
      (apply Hsame; auto; unfold ending_now; cbn; now rewrite Er).
  - destruct (Nat.ltb_spec i (length tasks)) as [Hi |]; [destruct (bool_decide _) eqn:Es; cbn [negb] in H; [destruct (Z.eqb_spec (pgid (tcb_at i w)) p) |] |]; injection H as <-;
      apply Hsame; auto; try (unfold ending_now; cbn; now rewrite Er).
    intros j. change (tcb_at j (set_rec ?r ?v)) with (tcb_at j v). destruct (decide (i = j)) as [<- |]; [rewrite tcb_at_eq by lia; reflexivity | now rewrite tcb_at_ne].
  - destruct R as [R Hi]. pose proof R as [_ [k Hk]]. pose proof (born_range _ B _ _ Hk) as [Hp _].
    destruct (scan_pids p i num w) as [m |] eqn:Es; injection H as <-.
    + apply scan_pids_spec in Es as [Hm Hpid].
      destruct (recycle_once_facts u i m s p w D ltac:(apply (touched u w); auto; left; lia) Hi ltac:(lia)) as (D1 & S1 & Ho & Hst & Hpi & _ & Hf).
      injection Hf as Hf1 Hf2 Hf3 Hf4 Hf5 Hf6 Hf7 Hf8 Hf9 Hf10 Hf11 Hf12.
      apply Hsame; auto; [| unfold ending_now; cbn; now rewrite Er].
      intros j. change (tcb_at j (set_rec ?r ?v)) with (tcb_at j v). destruct (decide (j = i)) as [-> | Hj]; [exact Hst | now rewrite Ho].
    + assert (match num with O => note_loss p i w | _ => w end = w \/ match num with O => note_loss p i w | _ => w end = add_mishap (LostDeath i) w) as [-> | ->] by (destruct num; [apply note_loss_eq | now left]); (apply Hsame; auto; unfold ending_now; cbn; now rewrite Er).
  - injection H as <-. apply Hsame; auto. unfold ending_now. cbn. rewrite Er. now destruct (task_check_end tasks i w), (parallel i).
  - injection H as <-. destruct (end_sub_eq i w (no_reboot_mode _ B)) as (E1 & E2 & E3 & E4 & E5 & Hf).
    injection Hf as Hf1 Hf2 Hf3 Hf4 Hf5 Hf6 Hf7 Hf8 Hf9 Hf10. cbn. split_and!; auto; [| lia |].
    + intros j _. unfold active, ending_now. rewrite Er. cbn. unfold tcb_at. cbn. rewrite E1. intros [-> _]%andb_true_iff. now rewrite bool_decide_eq_false_2.
    + rewrite Hf4, E2. unfold telling, ending_now. cbn. rewrite Er. intros H0. split; [assumption | lia].
  - injection H as <-. destruct R as (R & Hi & Hn). unfold recycle_end_tell. destruct (Z.eqb_spec (running_cnt w + 1) up_to) as [Eu | Nu]; cbn; split_and!; auto; try lia; try discriminate.
    1,2: intros j _; unfold active, ending_now; rewrite Er; cbn; change (tcb_at j (set_rec ?r ?v)) with (tcb_at j v); destruct (decide (i = j)) as [<- | Hj];
      [rewrite tcb_at_eq by (cbn; lia); cbn; discriminate | rewrite tcb_at_ne by assumption; rewrite (bool_decide_eq_false_2 (Some i = Some j)) by congruence; rewrite (bool_decide_eq_false_2 (None = Some j)) by easy; auto].
    unfold telling, ending_now. cbn. rewrite Er. intros H0. split; [assumption | lia].
  - destruct R as (R & Hi & Hn & Hpar & Hd). assert (i < u)%nat as Hu by (apply (touched u w); auto; left; lia).
    destruct (do_step tasks g_env Recycler i d ok ok2 w) as [w1 d1 | w1 r | |] eqn:Es; try discriminate.
    + injection H as <-. destruct (do_next Recycler i d ok ok2 w w1 d1 u D Hu Hi Hd Es) as (D1 & F & Hd1 & Hne & Hl).
      apply Hsame; cbn; try (now rewrite ?(f_main _ _ _ _ F), ?(f_running _ _ _ _ F)); [apply (f_status _ _ _ _ F) | unfold ending_now; cbn; now rewrite Er | left; apply (f_pipe _ _ _ _ F)].
    + injection H as <-. destruct (do_ret Recycler i d ok ok2 w w1 r u D Hd Es) as [-> ->].
      destruct (r =? 0); (apply Hsame; auto; unfold ending_now; cbn; now rewrite Er).
  - repeat case_match; try discriminate; injection H as <-; (apply Hsame; auto; unfold ending_now; cbn; now rewrite Er).
  - injection H as <-. apply Hsame; auto. unfold ending_now. cbn. now rewrite Er.
  - discriminate.
Qed.

Lemma active_touched w j : basic w -> (j < n)%nat -> active w j = true -> (j < untouched (main_at w))%nat.
Proof.
  intros B Hj [Ha%bool_decide_eq_true _]%andb_true_iff. apply (touched _ w); auto. now apply basic_data.
Qed.

Lemma start_held : held (start tasks g_env false [] 0 0).
Proof.
  pose proof (c_ended _ start_counted) as E. pose proof (c_running _ start_counted) as E'.
  assert (act_count (start tasks g_env false [] 0 0) = 0%nat) as Ea by (revert E'; unfold start; destruct (0 <? _); cbn; lia).
  assert (main_at (start tasks g_env false [] 0 0) = MHello) as Em by (unfold start; now destruct (0 <? _)).
  split; rewrite ?Em, ?Ea; auto; [lia |]. intros j k Hj Hk H. apply count_none with (j := j) in Ea; [congruence | assumption].
Qed.

(** The test case main turns to next. *)
Lemma held_next w i :
  (i < n)%nat -> (forall j, (j < n)%nat -> active w j = true -> (S i < n)%nat -> alone j = false) -> held w ->
  held (set_main (if (S i <? n)%nat then MLimit (S i) else MJoin) w).
Proof.
  intros Hi Hn []. split; cbn [main_at set_main]; auto; destruct (Nat.ltb_spec (S i) (length tasks)); auto.
Qed.

Lemma held_counts w r e : held w -> match main_at w with MLimit _ | MWait _ | MAlone _ | MBegin _ => False | _ => True end -> held (set_counts r e w).
Proof. intros [] Hm. split; cbn [main_at set_counts]; auto; destruct (main_at w); auto; contradiction. Qed.

Lemma main_held ok ok2 w w' :
  basic w -> counted w -> held w -> main_step tasks g_env ok ok2 w = Next w' -> on_time_failures w' -> held w'.
Proof.
  intros B C L H Hf. pose proof (basic_data _ B) as D. pose proof (main_fine _ B) as M. unfold main_ok in M.
  pose proof (tcbs_length _ B) as Hl. pose proof (c_ended _ C) as Ce. pose proof (c_running _ C) as Cr.
  pose proof L as [Ll Lg Lw Ln Lf Lc Le Lp].
  unfold main_step in H. destruct (main_at w) as [| i | i | i | i | i d | i | i | i | i | |] eqn:Em; cbn [starting failing untouched] in Ce, Cr.
  - destruct (pipe w) as [| k]; [discriminate |]. injection H as <-.
    split; cbn [main_at set_main set_pipe]; auto; destruct (Nat.ltb_spec 0 (length tasks)); auto.
    intros j Hj Ha. pose proof (active_touched w j B Hj Ha). rewrite Em in *. cbn in *. lia.
  - injection H as <-. split; cbn [main_at set_main]; auto; destruct (Z.leb_spec up_to (running_cnt w)); auto; try lia.
    intros _. change (running_cnt (set_main _ w)) with (running_cnt w). unfold telling. destruct (ending_now _); lia.
  - destruct (pipe w) as [| k]; [discriminate |]. injection H as <-. split; cbn [main_at set_main set_pipe]; auto.
  - destruct (alone i) eqn:Eal; cbn [andb] in H; [destruct (Z.ltb_spec 0 (running_cnt w)); [discriminate |] |]; injection H as <-;
      (split; cbn [main_at set_main]; auto; intros Hal; change (act_count (set_main _ w)) with (act_count w); first [congruence | lia]).
  - (* MBegin *) rewrite (no_reboot_mode _ B) in H. cbn [andb] in H. injection H as <-.
    pose proof (rest_blank _ B i ltac:(rewrite Em; cbn; lia)) as Hb. set (v := upd i (with_tstatus TASK_RUN) w).
    assert (forall j, j <> i -> active v j = active w j) as Hne by (intros j Hj; unfold active, v; now rewrite tcb_at_ne by auto).
    pose proof (count_change w v i Hne M) as Hc. assert (active w i = false) as Ha by (unfold active; now rewrite Hb). rewrite Ha in Hc.
    assert (act_count v <= S (act_count w))%nat as Hle by (destruct (active v i); cbn in Hc; lia).
    assert (forall j, alone i = true -> (j < n)%nat -> active w j = false) as Hfree.
    { intros j Hal Hj. now apply (proj2 (count_none _ _) (Lf Hal)). }
    split; cbn [main_at set_main]; auto.
    + change (act_count (set_main _ v)) with (act_count v). lia.
    + intros j Hj Haj Hji. change (active v j = true) in Haj. rewrite Hne in Haj by assumption. split; [now apply Ln |].
      apply not_true_iff_false. intros Hal. now rewrite Hfree in Haj.
    + intros j k Hj Hk Haj Hak Hal. change (active v j = true) in Haj. change (active v k = true) in Hak.
      destruct (decide (j = i)) as [-> | Hji], (decide (k = i)) as [-> | Hki]; auto.
      * rewrite Hne in Hak by assumption. now rewrite Hfree in Hak.
      * rewrite Hne in Haj by assumption. now rewrite (Ln j Hj Haj) in Hal.
      * rewrite Hne in Haj by assumption. now rewrite (Ln j Hj Haj) in Hal.
  - (* MDo *) destruct M as [Hi Hd]. destruct (do_step tasks g_env Main i d ok ok2 w) as [w1 d1 | w1 r | |] eqn:Es; try discriminate.
    + injection H as <-. destruct (do_next Main i d ok ok2 w w1 d1 (S i) D ltac:(lia) Hi Hd Es) as (D1 & F & Hd1 & Hne & Hlk).
      assert (forall j, active (set_main (MDo i d1) w1) j = active w j) as Ha.
      { intros j. apply active_same; [apply (f_status _ _ _ _ F) | unfold ending_now; cbn; now rewrite (f_rec _ _ _ _ F)]. }
      split; cbn [main_at set_main]; auto.
      * now rewrite (count_same w).
      * intros j. rewrite Ha. auto.
      * intros j k. rewrite !Ha. auto.
    + injection H as <-. destruct (do_ret Main i d ok ok2 w w1 r (S i) D Hd Es) as [-> ->].
      split; cbn [main_at set_main]; auto; destruct (r =? 0); auto.
  - (* MAdd *) injection H as <-. split; cbn [main_at set_main]; auto.
  - (* MErr *) destruct (_ <? _)%nat; [| discriminate]. injection H as <-. destruct M as [Hi Hfr].
    set (f := fun t => with_tstatus TASK_END _). set (v := set_main _ _).
    assert (forall j, active v j = true -> active w j = true /\ j <> i) as Ha.
    { intros j. unfold active. change (ending_now v) with (ending_now w). change (tcb_at j v) with (tcb_at j (upd i f w)).
      destruct (decide (i = j)) as [<- | Hj]; [rewrite tcb_at_eq by lia; cbn; discriminate | rewrite tcb_at_ne by assumption; auto]. }
    assert (act_count v <= act_count w)%nat by (apply count_shrinks; intros j _ Hj; now apply Ha).
    split; cbn [v main_at set_main]; auto; try lia.
    + intros j Hj Haj Hji. apply Lc; auto. now apply Ha.
    + intros _. apply not_true_iff_false. intros E. now destruct (Ha i E).
    + intros j k Hj Hk Haj Hak. apply Lp; auto; now apply Ha.
  - (* MErrCount *) injection H as <-. change (task_mod_running_cnt ERR w) with (set_counts (running_cnt w) (end_cnt w + 1) w).
    apply held_next; [assumption | | apply held_counts; [assumption | now rewrite Em]].
    intros j Hj Ha _. change (active w j = true) in Ha. destruct (decide (j = i)) as [-> | Hji]; [now rewrite (Le M) in Ha | now apply (Lc j)].
  - (* MAfter *) destruct (_ && _) eqn:Eg; [discriminate |]. injection H as <-. apply held_next; auto.
    intros j Hj Ha Hlast. destruct (decide (j = i)) as [-> | Hji]; [| now apply (Lc j)].
    destruct (alone i) eqn:Eal; [| reflexivity]. exfalso. cbn [andb] in Eg.
    assert (forall k, (k < n)%nat -> active w k = true -> k = i) as Honly.
    { intros k Hk Hak. destruct (decide (k = i)) as [| Hki]; [assumption |]. destruct (Lc k Hk Hak Hki). congruence. }
    assert (act_count w = 1%nat) as E1. {
      assert (forall k, (i < k)%nat -> length (List.filter (fun k => bool_decide (k = i)) (seq 0 k)) = 1%nat) as Hone.
      { induction k as [| k IH]; intros Hk; [lia |]. rewrite seq_S, List.filter_app, length_app. cbn. destruct (decide (k = i)) as [-> | Hki].
        - rewrite bool_decide_eq_true_2 by reflexivity. rewrite (proj1 (count_none _ _)); [reflexivity |]. intros m Hm. apply bool_decide_eq_false_2. lia.
        - rewrite bool_decide_eq_false_2 by assumption. rewrite IH by lia. reflexivity. }
      rewrite <- (Hone n) by assumption. unfold active_count. f_equal. apply List.filter_ext_in. intros k Hk%in_seq. destruct (decide (k = i)) as [-> | Hki];
        [now rewrite bool_decide_eq_true_2 |]. rewrite bool_decide_eq_false_2 by assumption. apply not_true_iff_false. intros E. apply Hki, Honly; [lia | assumption]. }
    unfold tasks_cnt in Eg. destruct (Z.ltb_spec 0 (running_cnt w)); [| lia]. cbn [andb] in Eg.
    apply negb_false_iff, Z.eqb_eq in Eg. lia.
  - (* MJoin *) destruct (rec_at w) eqn:Er; try discriminate. injection H as <-. split; cbn [main_at set_main]; auto.
  - (* MClean *) destruct (_ =? 0); [discriminate |]. injection H as <-. split; cbn; rewrite ?Em; auto.
Qed.

(** ** What is reached *)

Lemma start_over : over (start tasks g_env false [] 0 0) = None /\ mishaps (start tasks g_env false [] 0 0) = [].
Proof. unfold start. now destruct (0 <? _). Qed.

(** Mishaps are not taken back, and the process that limits the whole time stays the same. *)
Lemma threads_keep a w w' :
  basic w -> match a with StepMain _ _ | StepRec _ _ _ => True | _ => False end -> step tasks g_env a w = Next w' ->
  (exists l, mishaps w' = l ++ mishaps w) /\ limit_pid w' = limit_pid w.
Proof.
  intros B Ha H. pose proof (basic_data _ B) as D. unfold step in H. destruct (over w); [discriminate |]. destruct a as [ok ok2 | ok ok2 p0 | | |]; try contradiction.
  - pose proof (main_fine _ B) as M. unfold main_ok in M. unfold main_step in H.
    destruct (main_at w) as [| i | i | i | i | i d | i | i | i | i | |] eqn:Em; cbn [untouched] in D;
      try (repeat case_match; simplify_eq; (split; [first [now exists [] | eexists [_]; reflexivity] | reflexivity]); fail).
    destruct M as [Hi Hd]. destruct (do_step tasks g_env Main i d ok ok2 w) as [w1 d1 | w1 r | |] eqn:Es; try discriminate; injection H as <-.
    + destruct (do_next Main i d ok ok2 w w1 d1 (S i) D ltac:(lia) Hi Hd Es) as (_ & F & _). split; [exists []; apply (f_mishaps _ _ _ _ F) | apply (f_limit _ _ _ _ F)].
    + destruct (do_ret Main i d ok ok2 w w1 r (S i) D Hd Es) as [-> ->]. split; [now exists [] | reflexivity].
  - pose proof (rec_fine _ B) as R. unfold rec_ok in R. unfold rec_step in H.
    destruct (rec_at w) as [| | | p s i | p s i num | p s i num | p s i num | p s i num | p s i num d | p s i num | |] eqn:Er;
      try solve [repeat case_match; simplify_eq; (split; [exists []; reflexivity | reflexivity])].
    + destruct R as [R Hi]. pose proof R as [_ [k Hk]]. pose proof (born_range _ B _ _ Hk) as [Hp _].
      destruct (scan_pids p i num w) as [m |] eqn:Es; injection H as <-.
      * apply scan_pids_spec in Es as [Hm Hpid].
        destruct (recycle_once_facts (untouched (main_at w)) i m s p w D ltac:(apply (touched _ w); auto; left; lia) Hi ltac:(lia)) as (_ & _ & _ & _ & _ & _ & Hf).
        injection Hf as Hf1 Hf2 Hf3 Hf4 Hf5 Hf6 Hf7 Hf8 Hf9 Hf10 Hf11 Hf12. split; [exists []; exact Hf7 | exact Hf12].
      * destruct num; [destruct (note_loss_eq p i w) as [-> | ->] |]; (split; [first [now exists [] | now exists [LostDeath i]] | reflexivity]).
    + injection H as <-. destruct (end_sub_eq i w (no_reboot_mode _ B)) as (_ & _ & _ & _ & _ & Hf). injection Hf as Hf1 Hf2 Hf3 Hf4 Hf5 Hf6 Hf7 Hf8 Hf9 Hf10.
      split; [exists []; exact Hf5 | exact Hf10].
    + injection H as <-. unfold recycle_end_tell. destruct (_ =? _); (split; [now exists [] | reflexivity]).
    + destruct R as (R & Hi & Hn & Hpar & Hd).
      destruct (do_step tasks g_env Recycler i d ok ok2 w) as [w1 d1 | w1 r | |] eqn:Es; try discriminate; injection H as <-.
      * assert (i < untouched (main_at w))%nat as Hu by (apply (touched _ w); auto; left; lia).
        destruct (do_next Recycler i d ok ok2 w w1 d1 _ D Hu Hi Hd Es) as (_ & F & _). split; [exists []; apply (f_mishaps _ _ _ _ F) | apply (f_limit _ _ _ _ F)].
      * destruct (do_ret Recycler i d ok ok2 w w1 r _ D Hd Es) as [-> ->]. destruct (r =? 0); (split; [first [now exists [] | now exists [RepeatFailed i]] | reflexivity]).
Qed.

Lemma step_mishaps a w w' : basic w -> step tasks g_env a w = Next w' -> exists l, mishaps w' = l ++ mishaps w.
Proof.
  intros B H. destruct a; try (eapply threads_keep; eauto; exact I);
    (exists []; edestruct env_basic as (_ & _ & _ & _ & _ & _ & E & _); [exact B | | exact H | exact E]; exact I).
Qed.

Lemma run_inv (P : world -> Prop) :
  (forall a w w', P w -> step tasks g_env a w = Next w' -> P w') -> forall acts w w', steps tasks g_env acts w w' -> P w -> P w'.
Proof. intros HP acts w w' Hs. induction Hs; eauto. Qed.

Lemma reach_basic w : reach tasks g_env w -> basic w.
Proof. intros [acts Hs]. eapply (run_inv basic); [exact step_basic | exact Hs | exact start_basic]. Qed.

Lemma reach_held w : reach tasks g_env w -> on_time_failures w -> counted w /\ held w.
Proof.
  intros [acts Hs]. enough (basic w /\ (on_time_failures w -> counted w /\ held w)) by tauto.
  eapply (run_inv (fun w => basic w /\ (on_time_failures w -> counted w /\ held w))); [| exact Hs |].
  - clear Hs acts w. intros a w w' [B IH] H. split; [eapply step_basic; eauto |]. intros Hf.
    assert (on_time_failures w) as Hf0.
    { destruct (step_mishaps _ _ _ B H) as [l El]. unfold on_time_failures in *. rewrite El in Hf. now apply Forall_app in Hf. }
    destruct (IH Hf0) as [C L]. split; [eapply step_counted; eauto |].
    destruct a as [ok ok2 | ok ok2 p0 | p s | p | d].
    + unfold step in H. destruct (over w); [discriminate |]. eapply main_held; eauto.
    + unfold step in H. destruct (over w); [discriminate |]. destruct (recycler_shrinks _ _ _ _ _ B C H) as (E1 & E2 & E3 & E4). eapply held_shrink; eauto.
    + edestruct env_basic as (_ & Em & Er & E1 & E2 & Ep & _ & _ & _ & Hj & _); [exact B | | exact H |]; [exact I |].
      apply (held_shrink w); auto; [intros j _; rewrite (active_same w w'); [auto | apply Hj | unfold ending_now; now rewrite Er] | lia |].
      unfold telling, ending_now. rewrite Ep, E1, Er. auto.
    + edestruct env_basic as (_ & Em & Er & E1 & E2 & Ep & _ & _ & _ & Hj & _); [exact B | | exact H |]; [exact I |].
      apply (held_shrink w); auto; [intros j _; rewrite (active_same w w'); [auto | apply Hj | unfold ending_now; now rewrite Er] | lia |].
      unfold telling, ending_now. rewrite Ep, E1, Er. auto.
    + edestruct env_basic as (_ & Em & Er & E1 & E2 & Ep & _ & _ & _ & Hj & _); [exact B | | exact H |]; [exact I |].
      apply (held_shrink w); auto; [intros j _; rewrite (active_same w w'); [auto | apply Hj | unfold ending_now; now rewrite Er] | lia |].
      unfold telling, ending_now. rewrite Ep, E1, Er. auto.
  - split; [exact start_basic |]. intros _. split; [exact start_counted | exact start_held].
Qed.

(** ** Every test case gets to its end *)

(** What a step of [task_do] does to the pids. *)
Lemma do_pids th i d ok ok2 w w' d' u :
  data u w -> (i < n)%nat -> do_ok th i d w -> do_step tasks g_env th i d ok ok2 w = DNext w' d' ->
  (pid (tcb_at i w') = pid (tcb_at i w) /\ done_times (tcb_at i w') = done_times (tcb_at i w) /\ d' <> DoUnlock 0 /\
     (forall p, d' = DoRecord p -> procs w' !! p = Some None)) \/
  (pid (tcb_at i w') = <[done_times (tcb_at i w) := -1]> (pid (tcb_at i w)) /\ done_times (tcb_at i w') = done_times (tcb_at i w) /\ d' = DoUnlock (-1)) \/
  (exists p, d = DoRecord p /\ pid (tcb_at i w') = <[done_times (tcb_at i w) := p]> (pid (tcb_at i w)) /\ done_times (tcb_at i w') = S (done_times (tcb_at i w)) /\
     procs w' = procs w /\ ((d' = DoFork /\ parallel i = true) \/ (d' = DoUnlock 0 /\ (parallel i = true -> (times i <= S (done_times (tcb_at i w)))%nat)))).
Proof.
  intros D Hi Hok H. assert (i < length (tcbs w))%nat as Hl by (rewrite (d_length _ _ D); assumption).
  assert (forall k, (i < length (tcbs (spawn k w)))%nat) as Hls by (intros k; exact Hl).
  unfold do_step in H. rewrite no_reboot in H. destruct d; cbn [do_ok] in Hok; try contradiction.
  - destruct (do_task_lock w); [discriminate |]. injection H as <- <-. left. split_and!; easy.
  - injection H as <- <-. left. split_and!; easy.
  - destruct (_ <=? _)%nat; [destruct (reboot w); [destruct (_ <? _)%nat; [| discriminate] |] |]; injection H as <- <-; left; try (split_and!; easy).
    rewrite tcb_at_eq by assumption. split_and!; easy.
  - left. destruct (_ && _); [| destruct ok]; injection H as <- <-; rewrite ?tcb_at_eq by (assumption || apply Hls); split_and!; easy.
  - left. destruct ok; injection H as <- <-; split_and!; easy.
  - left. destruct ok; injection H as <- <-; rewrite ?tcb_at_eq by assumption; split_and!; easy.
  - destruct (_ <? _)%nat; [| discriminate]. destruct ok; injection H as <- <-.
    + left. split_and!; try easy. intros p [= <-]. cbn. apply lookup_insert_eq.
    + right. left. change (tcb_at i (add_kill ?k ?v)) with (tcb_at i v). rewrite tcb_at_eq by assumption. auto.
  - right. right. exists p. destruct (parallel i && _) eqn:Ec; injection H as <- <-; rewrite tcb_at_eq by assumption; cbn; split_and!; auto.
    + left. now apply andb_true_iff in Ec.
    + right. split; [reflexivity |]. intros Hp. rewrite Hp in Ec. apply andb_false_iff in Ec as [Ec | Ec]; [discriminate |]. now apply Nat.ltb_ge in Ec.
  - discriminate.
Qed.

Hypothesis no_exit : forall i, exit_tinatest_when_fail (env_of tasks i) = false.
Hypothesis time_limit : 0 < tinatest_run_time_sec g_env.

(** The process has not been waited for, or its test case has still to be looked through. *)
Definition sought (w : world) (p : Z) (i : nat) : Prop :=
  match rec_at w with
  | RWalk q _ k => q = p /\ (k <= i)%nat
  | RScan q _ k O => q = p /\ (k <= i)%nat
  | _ => False
  end.
Definition present (w : world) (p : Z) (i : nat) : Prop := is_Some (procs w !! p) \/ sought w p i.

(** Main, or the recycler, is about to see to the test case. *)
Definition by_main (w : world) (i : nat) : Prop :=
  match main_at w with MDo j d => j = i /\ d <> DoUnlock 0 | MErr j => j = i | _ => False end.
Definition by_recycler (w : world) (i : nat) : Prop :=
  match rec_at w with
  | RCheck _ _ j _ | RSub _ _ j _ | RTell _ _ j _ => j = i
  | RDo _ _ j _ d => j = i /\ d <> DoUnlock 0
  | _ => False
  end.

Definition running_pid (w : world) (i : nat) : Prop :=
  exists num p, (num < done_times (tcb_at i w))%nat /\ pid (tcb_at i w) !! num = Some p /\ 0 < p.
Definition finished_pids (w : world) (i : nat) : Prop :=
  forall num p, (num < done_times (tcb_at i w))%nat -> pid (tcb_at i w) !! num = Some p -> p < 0.

(** The recycler is at the end of a run of the test case; at the end of the test case. *)
Definition handling (r : rec_pc) (i : nat) : Prop :=
  match r with
  | RCheck _ _ j _ | RSub _ _ j _ | RTell _ _ j _ => j = i
  | RDo _ _ j _ d => j = i /\ match d with DoUnlock _ => False | _ => True end
  | _ => False
  end.
Definition closing (r : rec_pc) (i : nat) : Prop := match r with RSub _ _ j _ | RTell _ _ j _ => j = i | _ => False end.

Definition quitting (w : world) (i : nat) : Prop := tt_quit w = true \/ quit (tcb_at i w) = true.
Definition completed (w : world) (i : nat) : Prop :=
  quitting w i \/ (done_times (tcb_at i w) = times i /\ finished_pids w i).

Record tended (w : world) (i : nat) : Prop := {
  t_pid num p : status (tcb_at i w) = TASK_RUN -> (num < done_times (tcb_at i w))%nat -> pid (tcb_at i w) !! num = Some p -> 0 < p -> present w p i;
  t_main p : main_at w = MDo i (DoRecord p) -> status (tcb_at i w) = TASK_RUN -> present w p i;
  t_rec q s num p : rec_at w = RDo q s i num (DoRecord p) -> is_Some (procs w !! p);
  t_reason : status (tcb_at i w) = TASK_RUN -> by_main w i \/ by_recycler w i \/ running_pid w i;
  t_par : status (tcb_at i w) = TASK_RUN -> parallel i = true -> (done_times (tcb_at i w) < times i)%nat -> by_main w i;
  t_seq num p : parallel i = false -> (S num < done_times (tcb_at i w))%nat -> pid (tcb_at i w) !! num = Some p -> p < 0;
  t_handled : parallel i = false ->
    handling (rec_at w) i -> finished_pids w i;
  t_done : (status (tcb_at i w) = TASK_END \/ closing (rec_at w) i) -> completed w i;
}.

Record lively (w : world) : Prop := {
  l_tasks i : (i < n)%nat -> tended w i;
  l_top : rec_at w = RWait -> end_cnt w <> tasks_cnt tasks;
  l_hello : main_at w = MHello -> rec_at w = RHello \/ pipe w <> O;
  l_fail : match main_at w with MErrCount _ => False | _ => True end;
  l_exit : match rec_at w with ROut | RExited => end_cnt w = tasks_cnt tasks | _ => True end;
  l_clean : main_at w = MClean -> rec_at w = RExited;
  l_over : over w = Some Returned -> main_at w = MClean;
  l_limit : limit_pid w = 2;
}.

Lemma start_lively : lively (start tasks g_env false [] 0 0).
Proof.
  pose proof start_basic as B.
  assert (main_at (start tasks g_env false [] 0 0) = MHello /\ rec_at (start tasks g_env false [] 0 0) = RHello /\ limit_pid (start tasks g_env false [] 0 0) = 2 /\
    over (start tasks g_env false [] 0 0) = None) as (Em & Er & El & Eo) by (unfold start; destruct (Z.ltb_spec 0 (tinatest_run_time_sec g_env)); auto; lia).
  revert B Em Er El Eo. generalize (start tasks g_env false [] 0 0). intros w B Em Er El Eo.
  split; rewrite ?Em, ?Er, ?Eo; try easy; [| auto]. intros i Hi. pose proof (rest_blank _ B i ltac:(rewrite Em; cbn; lia)) as Hb.
  split; rewrite ?Hb, ?Em, ?Er; cbn; try easy; try lia. intros [? | []]. discriminate.
Qed.

(** ** Steps that leave a test case alone *)

(** The test case is as it was, its processes are where they were, and no thread that saw to
    it has turned away. *)
Lemma tended_same w w' i :
  status (tcb_at i w') = status (tcb_at i w) -> pid (tcb_at i w') = pid (tcb_at i w) -> done_times (tcb_at i w') = done_times (tcb_at i w) ->
  (quitting w i -> quitting w' i) ->
  (forall p, (main_at w' = MDo i (DoRecord p) \/ (exists num, pid (tcb_at i w) !! num = Some p /\ 0 < p)) -> status (tcb_at i w) = TASK_RUN -> present w p i -> present w' p i) ->
  (forall p, main_at w' = MDo i (DoRecord p) -> main_at w = MDo i (DoRecord p)) ->
  (forall q s num p, rec_at w' = RDo q s i num (DoRecord p) -> rec_at w = RDo q s i num (DoRecord p) /\ (is_Some (procs w !! p) -> is_Some (procs w' !! p))) ->
  (by_main w i -> by_main w' i) ->
  (status (tcb_at i w) = TASK_RUN -> by_recycler w i -> by_recycler w' i \/ by_main w' i \/ running_pid w i) ->
  (handling (rec_at w') i -> handling (rec_at w) i) ->
  (closing (rec_at w') i -> closing (rec_at w) i \/ completed w i) ->
  tended w i -> tended w' i.
Proof.
  intros E1 E2 E3 Hq Hp Hm Hr Hbm Hbr Hh Hd T.
  assert (finished_pids w i -> finished_pids w' i) as Hfp by (unfold finished_pids; now rewrite E2, E3).
  assert (running_pid w i -> running_pid w' i) as Hrp by (unfold running_pid; now rewrite E2, E3).
  assert (completed w i -> completed w' i) as Hc by (unfold completed; rewrite E3; intuition auto).
  split; rewrite ?E1, ?E2, ?E3.
  - intros num p Hs Hn Hpid H0. apply Hp; eauto. eapply (t_pid _ _ T); eauto.
  - intros p Hmp Hs. apply Hp; auto. now apply (t_main _ _ T); auto.
  - intros q s num p H. destruct (Hr _ _ _ _ H) as [H1 H2]. apply H2. eapply (t_rec _ _ T); eauto.
  - intros Hs. destruct (t_reason _ _ T Hs) as [? | [H | ?]]; [auto | | auto]. destruct (Hbr Hs H) as [? | [? | ?]]; auto.
  - intros Hs Hpar Hlt. apply Hbm. now apply (t_par _ _ T).
  - apply (t_seq _ _ T).
  - intros Hpar H. apply Hfp, (t_handled _ _ T Hpar), (Hh H).
  - intros [H | H]; apply Hc; [apply (t_done _ _ T); auto |]. destruct (Hd H); [apply (t_done _ _ T); auto | assumption].
Qed.

(** The recycler stays where it is and no process goes. *)
Lemma tended_main w w' i :
  status (tcb_at i w') = status (tcb_at i w) -> pid (tcb_at i w') = pid (tcb_at i w) -> done_times (tcb_at i w') = done_times (tcb_at i w) ->
  (quitting w i -> quitting w' i) -> rec_at w' = rec_at w -> (forall p, is_Some (procs w !! p) -> is_Some (procs w' !! p)) ->
  (forall p, main_at w' = MDo i (DoRecord p) -> main_at w = MDo i (DoRecord p)) -> (by_main w i -> by_main w' i) ->
  tended w i -> tended w' i.
Proof.
  intros E1 E2 E3 Hq Er Hp Hm Hb T. apply (tended_same w w'); auto; rewrite ?Er; auto.
  - intros p _ _ [H | H]; [left; auto | right]. unfold sought in *. now rewrite Er.
  - intros _ H. left. unfold by_recycler in *. now rewrite Er.
Qed.

Lemma pid_in_born w i num p : basic w -> (i < n)%nat -> pid (tcb_at i w) !! num = Some p -> 0 < p -> born w !! p = Some (Test i num).
Proof. intros B Hi Hp H0. now apply (pid_born _ _ (all_tcbs _ B i Hi) num p). Qed.

(** The recycler and main see to one test case at a time. *)
Lemma fresh_excludes w i : basic w -> fresh Main i w -> parallel i = false -> ~ handling (rec_at w) i.
Proof.
  intros B [_ Hf] Hpar H. specialize (Hf Hpar). pose proof (rec_fine _ B) as R. unfold rec_ok in R.
  unfold handling in H. destruct (rec_at w); try contradiction; [subst; lia .. |]. destruct H as [-> _]. lia.
Qed.

Lemma tended_do_main w w1 i d d1 ok ok2 :
  basic w -> (i < n)%nat -> main_at w = MDo i d -> do_step tasks g_env Main i d ok ok2 w = DNext w1 d1 ->
  tended w i -> tended (set_main (MDo i d1) w1) i.
Proof.
  intros B Hi Em Es T. pose proof (basic_data _ B) as D. rewrite Em in D. pose proof (main_fine _ B) as M. unfold main_ok in M. rewrite Em in M. destruct M as [_ Hd].
  destruct (do_next Main i d ok ok2 w w1 d1 (S i) D ltac:(lia) Hi Hd Es) as (D1 & F & Hd1 & Hne & Hlk).
  assert (fresh Main i w) as Hfr by (destruct d; cbn [do_ok] in Hd; try tauto; discriminate Es).
  set (v := set_main (MDo i d1) w1). assert (forall j, tcb_at j v = tcb_at j w1) as Ev by reflexivity.
  assert (forall p, is_Some (born w !! p) -> present w p i -> present v p i) as Hpr.
  { intros p Hb [H | H]; [left; cbn; now rewrite (f_procs _ _ _ _ F) | right]. unfold sought in *. cbn. now rewrite (f_rec _ _ _ _ F). }
  assert (forall num q, (num < done_times (tcb_at i w))%nat -> pid (tcb_at i w) !! num = Some q -> 0 < q -> status (tcb_at i w) = TASK_RUN -> present v q i) as Hold.
  { intros num q Hn Hq H0 Hs. apply Hpr; [eapply mk_is_Some, pid_in_born; eauto | eapply (t_pid _ _ T); eauto]. }
  assert (forall q s num p, rec_at v = RDo q s i num (DoRecord p) -> is_Some (procs v !! p)) as Hrec.
  { intros q s num p Hr. cbn in Hr. rewrite (f_rec _ _ _ _ F) in Hr. cbn.
    pose proof (rec_fine _ B) as R. unfold rec_ok in R. rewrite Hr in R. destruct R as (_ & _ & _ & _ & _ & Hb).
    rewrite (f_procs _ _ _ _ F) by (eapply mk_is_Some, Hb). eapply (t_rec _ _ T); eauto. }
  assert (parallel i = false -> handling (rec_at v) i -> finished_pids v i) as Hhan.
  { intros Hpar H. exfalso. apply (fresh_excludes w i B Hfr Hpar). cbn in H. now rewrite (f_rec _ _ _ _ F) in H. }
  assert (status (tcb_at i w) = TASK_END \/ closing (rec_at v) i -> completed v i) as Hdone.
  { intros H. destruct (t_done _ _ T) as [Hq | [Hdn _]]; [destruct H as [H | H]; [auto | right]; cbn in H; now rewrite (f_rec _ _ _ _ F) in H | |].
    - left. unfold quitting. rewrite Ev, (f_quits _ _ _ _ F). cbn. now rewrite (f_quit _ _ _ _ F).
    - destruct Hfr. lia. }
  assert (d1 <> DoUnlock 0 -> by_main v i) as Hbm by (intros; cbn; auto).
  destruct (do_pids Main i d ok ok2 w w1 d1 (S i) D Hi Hd Es) as [(Ep & Ed & Hu & Hnew) | [(Ep & Ed & ->) | (p & -> & Ep & Ed & Epr & Hu)]];
    (split; rewrite ?Ev, ?(f_status _ _ _ _ F), ?Ep, ?Ed; auto).
  - intros num q Hs Hn Hq H0. eauto.
  - intros q Hm Hs. injection Hm as ->. left. cbn. rewrite (Hnew _ eq_refl). now eexists.
  - apply (t_seq _ _ T).
  - intros num q Hs Hn [(_ & <- & _) | [Hx Hq]]%list_lookup_insert_Some H0; [lia | eauto].
  - intros q [=].
  - intros num q Hpar Hn [(<- & <- & _) | [Hx Hq]]%list_lookup_insert_Some; [lia | now apply (t_seq _ _ T num)].
  - intros num q Hs Hn [(_ & <- & _) | [Hx Hq]]%list_lookup_insert_Some H0; [| apply (Hold num q); auto; lia].
    apply Hpr; [eapply mk_is_Some, Hd | now apply (t_main _ _ T)].
  - intros q [= ->]. destruct Hu as [[? _] | [? _]]; discriminate.
  - intros Hs. destruct Hu as [[-> _] | [-> _]]; [left; now apply Hbm | right; right]. exists (done_times (tcb_at i w)), p. rewrite Ev, Ep, Ed.
    assert (0 < p) by (destruct Hd as [_ Hb]; apply (d_born _ _ D) in Hb; lia).
    split_and!; [lia | | assumption]. rewrite list_lookup_insert_eq; [reflexivity |]. rewrite (pids_length _ _ (all_tcbs _ B i Hi)). apply Hfr.
  - intros Hs Hpar Hlt. apply Hbm. destruct Hu as [[-> _] | [-> Hu]]; [discriminate |]. specialize (Hu Hpar). lia.
  - intros num q Hpar Hn Hq. destruct Hfr as [_ Hf]. specialize (Hf Hpar). lia.
Qed.

Lemma tended_do_rec w w1 q s i num d d1 ok ok2 :
  basic w -> rec_at w = RDo q s i num d -> do_step tasks g_env Recycler i d ok ok2 w = DNext w1 d1 ->
  tended w i -> tended (set_rec (RDo q s i num d1) w1) i.
Proof.
  intros B Er Es T. pose proof (basic_data _ B) as D. pose proof (rec_fine _ B) as R. unfold rec_ok in R. rewrite Er in R. destruct R as (R & Hi & Hn & Hpar & Hd).
  assert (i < untouched (main_at w))%nat as Hu0 by (apply (touched _ w); auto; left; lia).
  destruct (do_next Recycler i d ok ok2 w w1 d1 _ D Hu0 Hi Hd Es) as (D1 & F & Hd1 & Hne & Hlk).
  assert (fresh Recycler i w) as Hfr by (destruct d; cbn [do_ok] in Hd; try tauto; discriminate Es).
  set (v := set_rec (RDo q s i num d1) w1). assert (forall j, tcb_at j v = tcb_at j w1) as Ev by reflexivity.
  assert (finished_pids w i) as Hfin by (apply (t_handled _ _ T Hpar); rewrite Er; split; [reflexivity | now destruct d]).
  assert (forall m p, (m < done_times (tcb_at i w))%nat -> pid (tcb_at i w) !! m = Some p -> 0 < p -> False) as Hold.
  { intros m p Hm Hp H0. specialize (Hfin m p Hm Hp). lia. }
  assert (forall p, main_at v <> MDo i (DoRecord p)) as Hmain.
  { intros p H. cbn in H. rewrite (f_main _ _ _ _ F) in H. pose proof (main_fine _ B) as M. unfold main_ok in M. rewrite H in M.
    destruct M as [_ [[_ Hf] _]]. specialize (Hf Hpar). lia. }
  assert (status (tcb_at i w) = TASK_END \/ closing (rec_at v) i -> completed v i) as Hdone.
  { intros [H | []]. destruct (t_done _ _ T (or_introl H)) as [Hq | [Hdn _]].
    - left. unfold quitting. rewrite Ev, (f_quits _ _ _ _ F). cbn. now rewrite (f_quit _ _ _ _ F).
    - destruct Hfr. lia. }
  assert (d1 <> DoUnlock 0 -> by_recycler v i) as Hbm by (intros; cbn; auto).
  destruct (do_pids Recycler i d ok ok2 w w1 d1 _ D Hi Hd Es) as [(Ep & Ed & Hu & Hnew) | [(Ep & Ed & ->) | (p & -> & Ep & Ed & Epr & Hu)]];
    (split; rewrite ?Ev, ?(f_status _ _ _ _ F), ?Ep, ?Ed; try (intros; exfalso; (eapply Hmain; eassumption) || congruence)).
  - intros m p _ Hm Hp H0. now destruct (Hold m p).
  - cbn. intros ? ? ? p [= _ _ _ ->]. cbn. rewrite (Hnew _ eq_refl). now eexists.
  - auto.
  - intros m p _ Hm Hp. apply (Hfin m); [lia | assumption].
  - intros _ _. unfold finished_pids. rewrite Ev, Ep, Ed. exact Hfin.
  - exact Hdone.
  - intros m p _ Hm [(_ & <- & _) | [_ Hp]]%list_lookup_insert_Some H0; [lia | now destruct (Hold m p)].
  - cbn. intros; discriminate.
  - intros _. right. left. now apply Hbm.
  - intros m p _ Hm [(<- & <- & _) | [_ Hp]]%list_lookup_insert_Some; [lia | apply (Hfin m); [lia | assumption]].
  - intros _ [_ []].
  - exact Hdone.
  - intros m p' Hs Hm [(_ & <- & _) | [Hx Hp]]%list_lookup_insert_Some H0; [| destruct (Hold m p'); auto; lia].
    left. cbn. rewrite Epr. eapply (t_rec _ _ T); eauto.
  - destruct Hu as [[-> Hx] | [-> _]]; [congruence |]. cbn. intros; discriminate.
  - intros _. right. right. exists (done_times (tcb_at i w)), p. rewrite Ev, Ep, Ed.
    assert (0 < p) by (destruct Hd as [_ Hb]; apply (d_born _ _ D) in Hb; lia).
    split_and!; [lia | | assumption]. rewrite list_lookup_insert_eq; [reflexivity |]. rewrite (pids_length _ _ (all_tcbs _ B i Hi)). apply Hfr.
  - intros m p' _ Hm [(<- & _ & _) | [_ Hp]]%list_lookup_insert_Some; [lia | apply (Hfin m); [lia | assumption]].
  - intros _ [_ Hx]. destruct Hu as [[-> Hy] | [-> _]]; [congruence | destruct Hx].
  - exact Hdone.
Qed.

(** Steps of main outside [task_do]. *)
Lemma lively_main w v m :
  lively w -> tcbs v = tcbs w -> (tt_quit v, rec_at v, procs v, end_cnt v, limit_pid v) = (tt_quit w, rec_at w, procs w, end_cnt w, limit_pid w) ->
  (forall i, ~ by_main w i) -> over v = None ->
  match m with MHello | MDo _ _ | MErrCount _ => False | MClean => rec_at w = RExited | _ => True end -> lively (set_main m v).
Proof.
  intros L Et Hf Hb Ho Hm. injection Hf as E1 E2 E3 E4 E5. split; cbn [main_at rec_at end_cnt over limit_pid set_main]; rewrite ?E2, ?E4, ?E5.
  - intros i Hi. assert (tcb_at i (set_main m v) = tcb_at i w) as Ei by (unfold tcb_at; cbn; now rewrite Et).
    apply (tended_main w); try (now rewrite Ei); auto.
    + unfold quitting. rewrite Ei. cbn. now rewrite E1.
    + cbn. now rewrite E3.
    + cbn. intros p ->. contradiction.
    + intros H. now destruct (Hb i).
    + now apply (l_tasks _ L).
  - apply (l_top _ L).
  - intros ->. contradiction.
  - now destruct m.
  - apply (l_exit _ L).
  - now intros ->.
  - congruence.
  - apply (l_limit _ L).
Qed.

Lemma main_lively ok ok2 w w' :
  basic w -> lively w -> over w = None -> main_step tasks g_env ok ok2 w = Next w' -> mishaps w' = [] -> lively w'.
Proof.
  intros B L Ho H Hx. pose proof (basic_data _ B) as D. pose proof (main_fine _ B) as M. unfold main_ok in M. pose proof (tcbs_length _ B) as Hl.
  unfold main_step in H. destruct (main_at w) as [| i | i | i | i | i d | i | i | i | i | |] eqn:Em; cbn [untouched] in D;
    try (assert (forall j, ~ by_main w j) as Hb by (intros j; unfold by_main; rewrite Em; auto)).
  - destruct (pipe w) as [| k]; [discriminate |]. injection H as <-. apply (lively_main w); auto. now destruct (_ <? _)%nat.
  - injection H as <-. apply (lively_main w); auto. now destruct (_ <=? _).
  - destruct (pipe w) as [| k]; [discriminate |]. injection H as <-. now apply (lively_main w).
  - destruct (_ && _); [discriminate |]. injection H as <-. now apply (lively_main w).
  - (* MBegin *) rewrite (no_reboot_mode _ B) in H. cbn [andb] in H. injection H as <-.
    pose proof (rest_blank _ B i ltac:(rewrite Em; cbn; lia)) as Hbl. set (v := upd i (with_tstatus TASK_RUN) w).
    assert (tcb_at i (set_main (MDo i DoLock) v) = with_tstatus TASK_RUN (blank (times i))) as Ei by (rewrite <- Hbl; apply tcb_at_eq; lia).
    split; cbn [main_at rec_at end_cnt over limit_pid set_main v upd set_tcbs]; try easy; [| apply (l_top _ L) | apply (l_exit _ L) | congruence | apply (l_limit _ L)].
    intros j Hj. destruct (decide (j = i)) as [-> | Hne].
    + assert (~ handling (rec_at w) i /\ ~ closing (rec_at w) i /\ forall q s num d, rec_at w <> RDo q s i num d) as (Hh & Hc & Hd).
      { pose proof (rec_fine _ B) as R. unfold rec_ok in R. unfold handling, closing. destruct (rec_at w); split_and!; try easy; try (intros <-; rewrite Hbl in R; cbn in R; lia);
          [intros [<- _] | intros q s' m d' [= -> -> -> -> ->]]; rewrite Hbl in R; cbn in R; lia. }
      split; rewrite ?Ei; cbn [status done_times blank with_tstatus]; try lia.
      * cbn. discriminate.
      * intros q s num p Hr. now destruct (Hd q s num (DoRecord p)).
      * intros _. left. now split.
      * intros _ _ _. now split.
      * intros _ Hx'. now destruct (Hh Hx').
      * intros [? | Hx']; [discriminate | now destruct (Hc Hx')].
    + assert (tcb_at j (set_main (MDo i DoLock) v) = tcb_at j w) as Ej by (apply (tcb_at_ne i j); auto).
      apply (tended_main w); try (now rewrite Ej); auto.
      * unfold quitting. now rewrite Ej.
      * cbn. intros p [=].
      * intros Hy. exfalso. now apply (Hb j).
      * now apply (l_tasks _ L).
  - (* MDo *) destruct M as [Hi Hd]. destruct (do_step tasks g_env Main i d ok ok2 w) as [w1 d1 | w1 r | |] eqn:Es; try discriminate.
    + injection H as <-. destruct (do_next Main i d ok ok2 w w1 d1 (S i) D ltac:(lia) Hi Hd Es) as (D1 & F & Hd1 & Hne & Hlk).
      split; cbn [main_at rec_at end_cnt over limit_pid set_main]; rewrite ?(f_rec _ _ _ _ F), ?(f_end _ _ _ _ F), ?(f_over _ _ _ _ F), ?(f_limit _ _ _ _ F); try easy; try apply L; [| congruence].
      intros j Hj. destruct (decide (j = i)) as [-> | Hji]; [eapply tended_do_main; eauto; now apply (l_tasks _ L) |].
      assert (tcb_at j (set_main (MDo i d1) w1) = tcb_at j w) as Ej by (apply (f_others _ _ _ _ F); auto).
      apply (tended_main w); try (now rewrite Ej).
      * unfold quitting. rewrite Ej. cbn. now rewrite (f_quit _ _ _ _ F).
      * apply (f_rec _ _ _ _ F).
      * cbn. intros p [s Hp]. rewrite (f_procs _ _ _ _ F); [eauto | eapply (procs_born _ B); eauto].
      * cbn. congruence.
      * unfold by_main. rewrite Em. cbn. intros [-> _]. contradiction.
      * now apply (l_tasks _ L).
    + injection H as <-. destruct (do_ret Main i d ok ok2 w w1 r (S i) D Hd Es) as [-> ->].
      destruct (Z.eqb_spec r 0) as [-> | Hr].
      * apply (lively_main w); auto. intros j. unfold by_main. rewrite Em. tauto.
      * split; cbn [main_at rec_at end_cnt over limit_pid set_main set_lock]; try easy; try apply L; [| congruence].
        intros j Hj. apply (tended_main w); auto.
        -- cbn. intros p [=].
        -- unfold by_main. rewrite Em. cbn. tauto.
        -- now apply (l_tasks _ L).
  - injection H as <-. now apply (lively_main w).
  - destruct (_ <? _)%nat; [| discriminate]. injection H as <-. discriminate Hx.
  - pose proof (l_fail _ L) as Hfl. now rewrite Em in Hfl.
  - destruct (_ && _); [discriminate |]. injection H as <-. apply (lively_main w); auto. now destruct (_ <? _)%nat.
  - destruct (rec_at w) eqn:Er; try discriminate. injection H as <-. now apply (lively_main w).
  - destruct (_ =? 0); [discriminate |]. injection H as <-.
    split; cbn [main_at rec_at end_cnt over limit_pid set_over add_kill]; try apply L; auto.
    intros j Hj. apply (tended_main w); auto. now apply (l_tasks _ L).
Qed.

(** Processes and signals. *)
Lemma signal_over v : over v <> Some Returned -> over (task_signal_quit v) <> Some Returned.
Proof.
  unfold task_signal_quit. cbv zeta. generalize (tcbs (set_tt_quit true v)) as l. change (over v) with (over (set_tt_quit true v)). generalize (set_tt_quit true v) as u. clear v.
  intros u l. revert u. induction l as [| t l IH]; intros u H; [exact H |]. cbn [foldl]. apply IH. destruct (over u) eqn:E; [now rewrite E |].
  destruct (pgid t =? 0); cbn; [discriminate | now rewrite E].
Qed.

Lemma env_quits a w w' :
  basic w -> match a with StepMain _ _ | StepRec _ _ _ => False | _ => True end -> step tasks g_env a w = Next w' ->
  (forall i, quitting w i -> quitting w' i) /\ limit_pid w' = limit_pid w /\ over w' <> Some Returned.
Proof.
  intros B Ha H. unfold step in H. destruct (over w) eqn:Eo; [discriminate |]. destruct a as [| | p s | p | deadline]; try contradiction.
  - assert (w' = set_procs (<[p := Some s]> (procs w)) w) as ->; [| split_and!; auto; cbn; congruence].
    destruct (procs w !! p) as [[|] |], (born w !! p) as [[] |]; try discriminate; try congruence. destruct (bool_decide _); congruence.
  - destruct (procs w !! p) as [[|] |]; try discriminate. destruct (born w !! p) as [[| i | |] |]; try discriminate. injection H as <-.
    set (w1 := upd i (with_quit true) w). set (w2 := if _ <? _ then _ else w1).
    assert (tcbs w2 = tcbs w1 /\ tt_quit w2 = tt_quit w /\ limit_pid w2 = limit_pid w /\ over w2 = over w) as (E1 & E2 & E3 & E4) by (unfold w2; destruct (_ <? _); auto).
    split_and!; [| exact E3 | cbn; congruence]. intros j [Hq | Hq]; [left; cbn; congruence | right].
    unfold tcb_at. cbn. rewrite E1. change (quit (tcb_at j w1) = true). destruct (decide (i = j)) as [<- |]; [| unfold w1; now rewrite tcb_at_ne].
    destruct (Nat.lt_ge_cases i (length (tcbs w))); [unfold w1; now rewrite tcb_at_eq |]. unfold tcb_at in Hq. now rewrite lookup_ge_None_2 in Hq by assumption.
  - assert (exists v, w' = task_signal_quit v /\ tcbs v = tcbs w /\ limit_pid v = limit_pid w /\ over v = None) as (v & -> & E1 & E2 & E3).
    { destruct deadline; [| exists w; split_and!; congruence]. destruct (procs w !! limit_pid w) as [[|] |]; try discriminate.
      injection H as <-. eexists. split_and!; [reflexivity | ..]; auto. }
    pose proof (signal_eq v) as Hs. pose proof (signal_over v ltac:(congruence)) as Ho. unfold rest_of in Hs.
    remember (task_signal_quit v) as x eqn:Ex. clear Ex. injection Hs as _ F1 _ _ _ _ _ _ _ _ _ _ _ F2.
    split_and!; [| rewrite F2; exact E2 | exact Ho]. intros j _. left. exact F1.
Qed.

Lemma env_lively a w w' :
  basic w -> lively w -> over w = None -> match a with StepMain _ _ | StepRec _ _ _ => False | _ => True end -> step tasks g_env a w = Next w' -> lively w'.
Proof.
  intros B L Ho Ha H. destruct (env_quits a w w' B Ha H) as (Hq & El & Hov).
  destruct (env_basic a w w' B Ha H) as (_ & Em & Er & _ & E2 & Ep & _ & _ & S & Hj & Hp).
  split; rewrite ?Em, ?Er, ?E2, ?Ep, ?El; try apply L; [| intros; contradiction].
  intros i Hi. destruct (Hj i) as [Hs Hpi]. apply (tended_main w); auto.
  - apply (s_done _ _ S).
  - now rewrite Em.
  - unfold by_main. now rewrite Em.
  - now apply (l_tasks _ L).
Qed.

Lemma once_quits i m s p w : quit (tcb_at i w) = true -> quit (tcb_at i (task_recycle_once tasks i m s p w)) = true.
Proof.
  intros Hq. assert (forall f v, (forall t, quit t = true -> quit (f t) = true) -> quit (tcb_at i v) = true -> quit (tcb_at i (upd i f v)) = true) as Hup.
  { intros f v Hf Hv. unfold tcb_at, upd in *. cbn. rewrite list_lookup_alter_eq. destruct (tcbs v !! i); cbn; auto. }
  unfold task_recycle_once. set (w1 := upd i (fun t => with_pid _ t) w). assert (quit (tcb_at i w1) = true) as H1 by (apply Hup; auto).
  set (w2 := match s with Signaled _ => _ | _ => w1 end). assert (quit (tcb_at i w2) = true) as H2 by (unfold w2; destruct s; auto).
  set (w3 := upd i (fun t => with_result _ t) w2). assert (quit (tcb_at i w3) = true) as H3 by (apply Hup; auto).
  set (w4 := if negb (result_of _ _ =? 0) && _ then _ else w3). assert (quit (tcb_at i w4) = true) as H4 by (unfold w4; destruct (_ && _); auto).
  destruct (negb (run_parallel _) && _); exact H4.
Qed.

(** Steps of the recycler: what does not depend on one test case, and one test case it leaves
    as it is. *)
Lemma lively_frame w v r :
  lively w -> (main_at v, limit_pid v, over v) = (main_at w, limit_pid w, over w) -> over w = None ->
  (main_at w = MHello -> r = RHello \/ pipe v <> O) -> rec_at w <> RExited ->
  match r with RWait => end_cnt v <> tasks_cnt tasks | ROut | RExited => end_cnt v = tasks_cnt tasks | _ => True end ->
  (forall i, (i < n)%nat -> tended (set_rec r v) i) -> lively (set_rec r v).
Proof.
  intros L Hf Ho Hh Hx Hr Ht. injection Hf as E1 E2 E3. split; cbn [main_at rec_at end_cnt over limit_pid pipe set_rec]; rewrite ?E1, ?E2, ?E3; auto; try apply L.
  - now intros ->.
  - now destruct r.
  - intros Hm. now apply (l_clean _ L) in Hm.
Qed.

Definition test_pid (w : world) (p : Z) (i : nat) : Prop := exists num, born w !! p = Some (Test i num).

Lemma tended_rec w v r i :
  basic w -> (i < n)%nat ->
  status (tcb_at i v) = status (tcb_at i w) -> pid (tcb_at i v) = pid (tcb_at i w) -> done_times (tcb_at i v) = done_times (tcb_at i w) ->
  quit (tcb_at i v) = quit (tcb_at i w) -> (tt_quit v, main_at v) = (tt_quit w, main_at w) ->
  (forall p, test_pid w p i -> status (tcb_at i w) = TASK_RUN -> present w p i -> present (set_rec r v) p i) ->
  match r with RDo _ _ j _ (DoRecord _) => j <> i | _ => True end ->
  (status (tcb_at i w) = TASK_RUN -> by_recycler w i -> by_recycler (set_rec r v) i \/ by_main w i \/ running_pid w i) ->
  (handling r i -> handling (rec_at w) i) -> (closing r i -> closing (rec_at w) i \/ completed w i) ->
  tended w i -> tended (set_rec r v) i.
Proof.
  intros B Hi E1 E2 E3 E4 Hf Hp Hd Hb Hh Hc T. injection Hf as F1 F2. assert (forall P : tcb -> Prop, P (tcb_at i v) -> P (tcb_at i (set_rec r v))) as Hv by auto.
  assert (by_main w i -> by_main (set_rec r v) i) as Hbm by (unfold by_main; cbn; now rewrite F2).
  apply (tended_same w); auto.
  - unfold quitting. cbn [tt_quit set_rec]. rewrite F1. intros [? | Hq]; [auto | right]. apply Hv. congruence.
  - intros p Hx Hs. apply Hp; [| assumption]. destruct Hx as [Hx | (num & Hx & H0)].
    + cbn in Hx. rewrite F2 in Hx. pose proof (main_fine _ B) as M. unfold main_ok in M. rewrite Hx in M. destruct M as [_ [_ M]]. eexists. exact M.
    + exists num. eapply pid_in_born; eauto.
  - cbn. intros p. now rewrite F2.
  - intros q s num p Hx. cbn in Hx. subst r. contradiction.
  - intros Hs Hx. destruct (Hb Hs Hx) as [? | [? | ?]]; auto.
Qed.

(** A run the recycler has found. *)
Lemma tended_found w s i num m p :
  basic w -> rec_counted w -> (i < n)%nat -> rec_at w = RScan p s i num -> scan_pids p i num w = Some m ->
  tended w i -> tended (set_rec (RCheck p s i m) (task_recycle_once tasks i m s p w)) i.
Proof.
  intros B Rc Hi Er Es T. pose proof (basic_data _ B) as D. pose proof (rec_fine _ B) as R. unfold rec_ok in R. rewrite Er in R. destruct R as [[_ [k Hk]] _].
  pose proof (born_range _ B _ _ Hk) as [Hp _]. apply scan_pids_spec in Es as [Hm Hpid].
  destruct (recycle_once_facts (untouched (main_at w)) i m s p w D ltac:(apply (touched _ w); auto; left; lia) Hi ltac:(lia)) as (D1 & S1 & Ho & Hst & Hpi & _ & Hf).
  injection Hf as Hf1 Hf2 Hf3 Hf4 Hf5 Hf6 Hf7 Hf8 Hf9 Hf10 Hf11 Hf12.
  assert (quit (tcb_at i w) = true -> quit (tcb_at i (task_recycle_once tasks i m s p w)) = true) as Hq by apply once_quits.
  set (v := task_recycle_once tasks i m s p w) in *. pose proof (s_done _ _ S1 i) as Hd.
  assert (tcb_at i (set_rec (RCheck p s i m) v) = tcb_at i v) as Ev by reflexivity.
  assert (0 < done_times (tcb_at i w))%nat as Hd0 by lia.
  pose proof (all_tcbs _ B i Hi) as Tb.
  assert (born w !! p = Some (Test i m)) as Hb by (eapply pid_in_born; eauto; lia).
  assert (parallel i = false -> S m = done_times (tcb_at i w)) as Hlast.
  { intros Hpar. destruct (Nat.lt_ge_cases (S m) (done_times (tcb_at i w))) as [Hlt |]; [| lia].
    pose proof (t_seq _ _ T m p Hpar Hlt Hpid). lia. }
  split; rewrite ?Ev, ?Hst, ?Hd, ?Hpi.
  - intros num' q Hs Hn [(_ & <- & _) | [Hne Hq']]%list_lookup_insert_Some H0; [lia |]. destruct (t_pid _ _ T num' q Hs Hn Hq' H0) as [Hx | Hx].
    + left. cbn. now rewrite Hf9.
    + exfalso. unfold sought in Hx. rewrite Er in Hx. destruct num; [| contradiction]. destruct Hx as [-> _].
      pose proof (pid_in_born w i num' q B Hi Hq' H0). congruence.
  - intros q Hx Hs. cbn in Hx. rewrite Hf2 in Hx. destruct (t_main _ _ T q Hx Hs) as [Hy | Hy]; [left; cbn; now rewrite Hf9 |].
    exfalso. unfold sought in Hy. rewrite Er in Hy. destruct num; [| contradiction]. destruct Hy as [-> _].
    pose proof (main_fine _ B) as M. unfold main_ok in M. rewrite Hx in M. destruct M as [_ [_ M]]. rewrite Hb in M. injection M as M. lia.
  - cbn. intros; discriminate.
  - intros _. right. left. reflexivity.
  - intros Hs Hpar Hlt. unfold by_main. cbn. rewrite Hf2. now apply (t_par _ _ T).
  - intros num' q Hpar Hlt [(<- & <- & _) | [Hne Hq']]%list_lookup_insert_Some; [lia | now apply (t_seq _ _ T num')].
  - intros Hpar _ num' q. rewrite Ev, Hd, Hpi. intros Hlt [(<- & <- & _) | [Hne Hq']]%list_lookup_insert_Some; [lia |].
    apply (t_seq _ _ T num' q Hpar); [| assumption]. specialize (Hlast Hpar). lia.
  - intros [Hs | []]. exfalso. unfold rec_counted in Rc. rewrite Er in Rc. destruct Rc as [Rc | [Rc | (num' & H1 & H2 & H3)]]; [congruence | lia | now apply (H3 m)].
Qed.

Lemma no_loss p i w : mishaps (note_loss p i w) = [] -> note_loss p i w = w /\ (test_pid w p i -> status (tcb_at i w) <> TASK_RUN).
Proof.
  unfold note_loss, test_pid. destruct (born w !! p) as [[| | | j num] |]; try (intros; split; [reflexivity | intros [? [=]]]).
  destruct (Nat.eqb_spec i j) as [-> |]; cbn [andb].
  - case_bool_decide; [discriminate | auto].
  - intros _. split; [reflexivity | intros [? [=]]]. congruence.
Qed.

(** The check after a run: the test case goes on only if something is left of it. *)
Lemma check_end_spec w i :
  basic w -> (i < n)%nat -> tended w i -> handling (rec_at w) i ->
  (task_check_end tasks i w = true -> completed w i) /\
  (task_check_end tasks i w = false -> parallel i = true -> (done_times (tcb_at i w) < times i)%nat \/ running_pid w i).
Proof.
  intros B Hi T Hh. pose proof (all_tcbs _ B i Hi) as Tb. unfold task_check_end.
  destruct (tt_quit w) eqn:Eq; cbn [orb]; [split; [now left; left | discriminate] |].
  destruct (quit (tcb_at i w)) eqn:Eq'; [split; [now left; right | discriminate] |].
  assert ((done_times (tcb_at i w) <? times i)%nat = false -> done_times (tcb_at i w) = times i) as Hdn.
  { intros H%Nat.ltb_ge. pose proof (done_bound _ _ Tb). lia. }
  destruct (parallel i) eqn:Epar; cbn [andb].
  - destruct (existsb _ _) eqn:Ex.
    + split; [discriminate |]. intros _ _. right. apply existsb_exists in Ex as (p & Hin%list_elem_of_In & Hpos%Z.ltb_lt).
      apply list_elem_of_lookup in Hin as [num Hin]. apply lookup_take_Some in Hin as [Hp Hn]. now exists num, p.
    + split; [| intros H%negb_false_iff%Nat.ltb_lt; auto]. intros H%negb_true_iff. right. split; [auto |]. intros num p Hn Hp.
      pose proof (pid_used _ _ Tb num p Hp Hn). enough (~ 0 < p) by lia. intros Hpos.
      assert (existsb (fun p => 0 <? p) (take (done_times (tcb_at i w)) (pid (tcb_at i w))) = true); [| congruence].
      apply existsb_exists. exists p. split; [| now apply Z.ltb_lt]. apply list_elem_of_In, list_elem_of_lookup. exists num. now rewrite lookup_take_lt.
  - split; [| discriminate]. intros H%negb_true_iff. right. split; [auto |]. now apply (t_handled _ _ T Epar).
Qed.

Lemma recycler_lively ok ok2 p0 w w' :
  basic w -> counted w -> lively w -> over w = None -> rec_step tasks g_env ok ok2 p0 w = Next w' -> mishaps w' = [] -> lively w'.
Proof.
  intros B C L Ho H Hm. pose proof (basic_data _ B) as D. pose proof (rec_fine _ B) as R. unfold rec_ok in R. pose proof (c_rec _ C) as Rc.
  pose proof (tcbs_length _ B) as Hlen. pose proof (l_tasks _ L) as T.
  assert (main_at w = MHello -> rec_at w <> RHello -> pipe w <> O) as Hp0 by (intros E; destruct (l_hello _ L E); tauto).
  unfold rec_step in H. destruct (rec_at w) as [| | | p s i | p s i num | p s i num | p s i num | p s i num | p s i num d | p s i num | |] eqn:Er;
    try (assert (main_at w = MHello -> pipe w <> O) as Hp by (intros E; apply Hp0; [exact E | discriminate])); clear Hp0;
    try (assert (forall q j, ~ sought w q j) as Hns by (intros q j; unfold sought; rewrite Er; auto));
    try (assert (forall j, ~ by_recycler w j) as Hnb by (intros j; unfold by_recycler; rewrite Er; auto)).
  - injection H as <-. apply lively_frame with w; auto; [now rewrite Er |]. intros j Hj.
    apply tended_rec with w; auto; try easy; [| intros _ Hx; now destruct (Hnb j)]. intros q _ _ [Hx | Hx]; [now left | now destruct (Hns q j)].
  - assert (w' = set_rec (if end_cnt w =? tasks_cnt tasks then ROut else RWait) w) as -> by congruence.
    apply lively_frame with w; auto; [now rewrite Er | destruct (Z.eqb_spec (end_cnt w) (tasks_cnt tasks)); auto |]. intros j Hj.
    apply tended_rec with w; auto; try (destruct (_ =? _); easy).
    + intros q _ _ [Hx | Hx]; [now left | now destruct (Hns q j)].
    + intros _ Hx; now destruct (Hnb j).
  - case_bool_decide.
    + destruct (_ =? _); [| discriminate]. injection H as <-. apply lively_frame with w; auto; [now rewrite Er |]. intros j Hj.
      apply tended_rec with w; auto; try easy; [| intros _ Hx; now destruct (Hnb j)]. intros q _ _ [Hx | Hx]; [now left | now destruct (Hns q j)].
    + destruct (procs w !! p0) as [[s |] |] eqn:Ep; try discriminate. injection H as <-. apply lively_frame with w; auto; [now rewrite Er |]. intros j Hj.
      apply tended_rec with w; auto; try easy; [| intros _ Hx; now destruct (Hnb j)]. intros q _ _ [Hx | Hx]; [| now destruct (Hns q j)].
      destruct (decide (q = p0)) as [-> | Hne]; [right; split; [reflexivity | lia] | left]. cbn. now rewrite lookup_delete_ne.
  - (* RWalk *) destruct (Nat.ltb_spec i (length tasks)) as [Hi |]; [destruct (bool_decide _) eqn:Es; cbn [negb] in H; [destruct (Z.eqb_spec (pgid (tcb_at i w)) p) as [Eg |] |] |]; injection H as <-.
    + assert (forall j, tcb_at j (upd i (with_pgid (- p)) w) = if decide (i = j) then with_pgid (- p) (tcb_at j w) else tcb_at j w) as Ej.
      { intros j. destruct (decide (i = j)) as [<- |]; [apply tcb_at_eq; lia | now apply tcb_at_ne]. }
      destruct R as [_ [k Hk]]. pose proof (born_range _ B _ _ Hk) as [Hr _]. pose proof (pgid_born _ _ (all_tcbs _ B i Hi) ltac:(lia)) as Hg. rewrite Eg in Hg.
      apply lively_frame with w; auto; [now rewrite Er |]. intros j Hj.
      apply tended_rec with w; auto; try (rewrite Ej; now destruct (decide (i = j))); try easy; [| intros _ Hx; now destruct (Hnb j)].
      intros q [m Hb] _ [Hx | Hx]; [now left |]. unfold sought in Hx. rewrite Er in Hx. destruct Hx as [<- _]. congruence.
    + apply lively_frame with w; auto; [now rewrite Er |]. intros j Hj.
      apply tended_rec with w; auto; try easy; [| intros _ Hx; now destruct (Hnb j)]. intros q _ _ [Hx | Hx]; [now left | right]. unfold sought in *. rewrite Er in Hx. exact Hx.
    + apply lively_frame with w; auto; [now rewrite Er |]. intros j Hj.
      apply tended_rec with w; auto; try easy; [| intros _ Hx; now destruct (Hnb j)]. intros q _ Hs [Hx | Hx]; [now left | right]. unfold sought in *. rewrite Er in Hx. cbn.
      destruct Hx as [-> Hx]. split; [reflexivity |]. destruct (decide (i = j)) as [<- |]; [| lia]. now rewrite Hs in Es.
    + apply lively_frame with w; auto; [now rewrite Er |]. intros j Hj.
      apply tended_rec with w; auto; try easy; [| intros _ Hx; now destruct (Hnb j)]. intros q _ Hs [Hx | Hx]; [now left |]. unfold sought in Hx. rewrite Er in Hx. lia.
  - (* RScan *) destruct R as [R Hi]. destruct (scan_pids p i num w) as [m |] eqn:Es; injection H as <-.
    + assert (rec_at w = RScan p s i num) as Er' by exact Er. pose proof (tended_found w s i num m p B Rc Hi Er Es (T i Hi)) as Ti.
      pose proof Es as [Hmd Hpid]%scan_pids_spec. destruct R as [_ [k Hk]]. pose proof (born_range _ B _ _ Hk) as [Hr _].
      destruct (recycle_once_facts (untouched (main_at w)) i m s p w D ltac:(apply (touched _ w); auto; left; lia) Hi ltac:(lia)) as (D1 & S1 & Hoth & Hst & Hpi & _ & Hf).
      injection Hf as Hf1 Hf2 Hf3 Hf4 Hf5 Hf6 Hf7 Hf8 Hf9 Hf10 Hf11 Hf12.
      apply lively_frame with w; [exact L | now rewrite Hf2, Hf11, Hf12 | exact Ho | rewrite Hf6; auto | now rewrite Er | exact I |].
      intros j Hj. destruct (decide (j = i)) as [-> | Hne]; [exact Ti |].
      apply tended_rec with w; auto; try (now rewrite Hoth); try easy; [now rewrite Hf1, Hf2 | | intros _ Hx; now destruct (Hnb j) |].
      * intros q [m' Hb] _ [Hx | Hx]; [left; cbn; now rewrite Hf9 |]. exfalso. unfold sought in Hx. rewrite Er in Hx. destruct num; [| contradiction].
        destruct Hx as [<- _]. pose proof (pid_in_born w i m p B Hi Hpid ltac:(lia)). congruence.
      * cbn. congruence.
    + assert (match num with O => note_loss p i w | _ => w end = w /\ (num = O -> test_pid w p i -> status (tcb_at i w) <> TASK_RUN)) as [Ew Hl].
      { destruct num; [| now split]. destruct (no_loss p i w Hm). auto. }
      rewrite Ew. apply lively_frame with w; auto; [now rewrite Er |]. intros j Hj.
      apply tended_rec with w; auto; try easy; [| intros _ Hx; now destruct (Hnb j)]. intros q Hq Hs [Hx | Hx]; [now left | right]. unfold sought in *. rewrite Er in Hx. cbn.
      destruct num; [| contradiction]. destruct Hx as [<- Hx]. split; [reflexivity |]. destruct (decide (i = j)) as [<- |]; [| lia]. now destruct (Hl eq_refl Hq).
  - (* RCheck *) destruct R as (R & Hi & Hn). destruct (check_end_spec w i B Hi (T i Hi)) as [Hc1 Hc2]; [now rewrite Er |].
    assert (w' = set_rec (if task_check_end tasks i w then RSub p s i num else if parallel i then RAfter p s i num else RDo p s i num DoLock) w) as -> by congruence. clear H.
    apply lively_frame with w; auto; [now rewrite Er | destruct (task_check_end _ _ _), (parallel i); exact I |]. intros j Hj.
    apply tended_rec with w; auto; rewrite ?Er.
    + intros q _ _ [Hx | Hx]; [now left | now destruct (Hns q j)].
    + now destruct (task_check_end tasks i w), (parallel i).
    + intros Hs Hx. unfold by_recycler in Hx. rewrite Er in Hx. subst j. destruct (task_check_end tasks i w); [now left |].
      destruct (parallel i) eqn:Epar; [right | now left]. destruct (Hc2 eq_refl eq_refl); [left | now right]. now apply (t_par _ _ (T i Hi)).
    + destruct (task_check_end tasks i w), (parallel i); cbn; tauto.
    + destruct (task_check_end tasks i w), (parallel i); cbn; try tauto; intros <-; right; auto.
  - (* RSub *) injection H as <-. destruct (end_sub_eq i w (no_reboot_mode _ B)) as (E1 & E2 & E3 & E4 & E5 & Hf).
    injection Hf as Hf1 Hf2 Hf3 Hf4 Hf5 Hf6 Hf7 Hf8 Hf9 Hf10.
    assert (forall j, tcb_at j (recycle_end_sub tasks i w) = tcb_at j w) as Et by (intros j; unfold tcb_at; now rewrite E1).
    apply lively_frame with w; [exact L | now rewrite Hf2, Hf9, Hf10 | exact Ho | rewrite Hf4; auto | now rewrite Er | exact I |]. intros j Hj.
    apply tended_rec with w; rewrite ?Et; auto; [now rewrite Hf1, Hf2 | | | |]; rewrite ?Er.
    + intros q _ _ [Hx | Hx]; [left; cbn; now rewrite Hf7 | now destruct (Hns q j)].
    + intros _ Hx. left. unfold by_recycler in *. rewrite Er in Hx. exact Hx.
    + auto.
    + auto.
  - (* RTell *) injection H as <-. destruct R as (R & Hi & Hn). unfold recycle_end_tell in *. set (w1 := if _ =? _ then set_pipe (S (pipe w)) w else w) in *.
    assert (tcbs w1 = tcbs w /\ procs w1 = procs w /\ main_at w1 = main_at w /\ tt_quit w1 = tt_quit w /\ limit_pid w1 = limit_pid w /\ over w1 = over w /\ (pipe w <> O -> pipe w1 <> O)) as (E1 & E2 & E3 & E4 & E5 & E6 & E7)
      by (unfold w1; destruct (_ =? _); split_and!; auto; cbn; lia).
    set (v := upd i (with_tstatus TASK_END) w1) in *.
    assert (forall j, tcb_at j v = if decide (i = j) then with_tstatus TASK_END (tcb_at j w) else tcb_at j w) as Ej.
    { intros j. unfold v. destruct (decide (i = j)) as [<- |]; [rewrite tcb_at_eq by (rewrite E1; lia) | rewrite tcb_at_ne by assumption]; unfold tcb_at; now rewrite E1. }
    apply lively_frame with w; [exact L | cbn; now rewrite E3, E5, E6 | exact Ho | auto | now rewrite Er | exact I |]. intros j Hj.
    destruct (decide (j = i)) as [-> | Hne].
    + pose proof (Ej i) as Ei. rewrite decide_True in Ei by reflexivity.
      assert (tcb_at i (set_rec (RAfter p s i num) v) = with_tstatus TASK_END (tcb_at i w)) as Ev by exact Ei.
      split; rewrite ?Ev; cbn [status pid done_times with_tstatus]; try discriminate; try easy.
      * apply (t_seq _ _ (T i Hi)).
      * intros _. assert (completed w i) as [Hq | Hq] by (apply (t_done _ _ (T i Hi)); right; now rewrite Er).
        -- left. unfold quitting in *. rewrite Ev. cbn. now rewrite E4.
        -- right. unfold finished_pids in *. now rewrite Ev.
    + assert (tcb_at j v = tcb_at j w) as Ei by (rewrite Ej; now rewrite decide_False by auto).
      apply tended_rec with w; rewrite ?Ei; auto; [cbn; now rewrite E3, E4 | | | |]; rewrite ?Er.
      * intros q _ _ [Hx | Hx]; [left; cbn; now rewrite E2 | now destruct (Hns q j)].
      * unfold by_recycler. rewrite Er. congruence.
      * intros [].
      * intros [].
  - (* RDo *) destruct R as (R & Hi & Hn & Hpar & Hd). assert (i < untouched (main_at w))%nat as Hu by (apply (touched _ w); auto; left; lia).
    destruct (do_step tasks g_env Recycler i d ok ok2 w) as [w1 d1 | w1 r | |] eqn:Es; try discriminate.
    + injection H as <-. destruct (do_next Recycler i d ok ok2 w w1 d1 _ D Hu Hi Hd Es) as (D1 & F & Hd1 & Hne & Hl).
      apply lively_frame with w; [exact L | now rewrite (f_main _ _ _ _ F), (f_over _ _ _ _ F), (f_limit _ _ _ _ F) | exact Ho | rewrite (f_pipe _ _ _ _ F); auto | now rewrite Er | exact I |].
      intros j Hj. destruct (decide (j = i)) as [-> | Hji]; [eapply tended_do_rec; eauto |].
      assert (tcb_at j w1 = tcb_at j w) as Ej by now apply (f_others _ _ _ _ F).
      apply tended_rec with w; rewrite ?Ej; auto; [now rewrite (f_quit _ _ _ _ F), (f_main _ _ _ _ F) | | now destruct d1; auto | | |]; rewrite ?Er.
      * intros q [m Hb] _ [Hx | Hx]; [left; cbn; now rewrite (f_procs _ _ _ _ F) by (eapply mk_is_Some; exact Hb) | now destruct (Hns q j)].
      * unfold by_recycler. rewrite Er. intros _ [Hx _]. congruence.
      * cbn. intros [Hx _]. congruence.
      * intros [].
    + injection H as <-. destruct (do_ret Recycler i d ok ok2 w w1 r _ D Hd Es) as [-> ->].
      destruct (Z.eqb_spec r 0) as [-> | Hr]; [| discriminate Hm].
      apply lively_frame with w; auto; [now rewrite Er |]. intros j Hj. apply tended_rec with w; auto.
      * intros q _ _ [Hx | Hx]; [now left | now destruct (Hns q j)].
      * unfold by_recycler. rewrite Er. intros _ [_ Hx]. congruence.
      * intros [].
      * intros [].
  - (* RAfter *) rewrite no_exit in H. cbn [negb] in H. destruct R as (R & Hi & Hn).
    assert (exists r, w' = set_rec r w /\ (r = RTop \/ r = RScan p s i (S num))) as (r & -> & Hr) by (destruct (_ =? 0); injection H as <-; eauto).
    apply lively_frame with w; auto; [now rewrite Er | destruct Hr as [-> | ->]; exact I |]. intros j Hj. apply tended_rec with w; auto.
    + intros q _ _ [Hx | Hx]; [now left | now destruct (Hns q j)].
    + destruct Hr as [-> | ->]; exact I.
    + intros _ Hx. now destruct (Hnb j).
    + destruct Hr as [-> | ->]; intros [].
    + destruct Hr as [-> | ->]; intros [].
  - injection H as <-. pose proof (l_exit _ L) as He. rewrite Er in He. apply lively_frame with w; auto; [now rewrite Er |]. intros j Hj.
    apply tended_rec with w; auto; try easy; [| intros _ Hx; now destruct (Hnb j)]. intros q _ _ [Hx | Hx]; [now left | now destruct (Hns q j)].
  - discriminate.
Qed.

Lemma step_lively a w w' :
  basic w -> counted w -> lively w -> step tasks g_env a w = Next w' -> mishaps w' = [] -> lively w'.
Proof.
  intros B C L H Hm. assert (over w = None) as Ho by (unfold step in H; now destruct (over w)).
  destruct a; try (eapply env_lively; eauto; exact I); unfold step in H; rewrite Ho in H; [eapply main_lively | eapply recycler_lively]; eauto.
Qed.

Lemma reach_step a w w' : reach tasks g_env w -> step tasks g_env a w = Next w' -> reach tasks g_env w'.
Proof.
  intros [acts Hs] H. exists (acts ++ [a]). revert Hs. generalize (start tasks g_env false [] 0 0). induction acts as [| b acts IH]; intros v Hs; inversion Hs; subst; cbn.
  - econstructor; [exact H | constructor].
  - econstructor; [eassumption | auto].
Qed.

Lemma reach_lively w : reach tasks g_env w -> mishaps w = [] -> lively w.
Proof.
  intros [acts Hs]. enough (reach tasks g_env w /\ (mishaps w = [] -> lively w)) by tauto.
  eapply (run_inv (fun w => reach tasks g_env w /\ (mishaps w = [] -> lively w))); [| exact Hs |].
  - clear Hs acts w. intros a w w' [Hr IH] H. pose proof (reach_basic w Hr) as B. split.
    + eapply reach_step; eauto.
    + intros Hm. destruct (step_mishaps _ _ _ B H) as [l El]. rewrite Hm in El. symmetry in El. apply app_eq_nil in El as [_ El].
      destruct (reach_held w Hr) as [C _]; [unfold on_time_failures; now rewrite El |]. eapply step_lively; eauto.
  - split; [exists []; constructor | intros _; exact start_lively].
Qed.

(** A step of [task_do] only waits for the lock. *)
Lemma do_moves th i d w u :
  data u w -> (i < n)%nat -> do_ok th i d w -> (d = DoLock -> do_task_lock w = None) ->
  (exists w' d', do_step tasks g_env th i d true true w = DNext w' d') \/ (exists w' r, do_step tasks g_env th i d true true w = DRet w' r).
Proof.
  intros D Hi Hok Hl. pose proof (do_defined th i d true true w u D Hi Hok) as Hdef.
  destruct (do_step tasks g_env th i d true true w) as [w' d' | w' r | |] eqn:E; eauto; [exfalso | contradiction].
  clear Hdef. unfold do_step in E. rewrite no_reboot in E. destruct d; try (repeat case_match; discriminate).
  rewrite (Hl eq_refl) in E. discriminate.
Qed.

Lemma main_do_moves w i d :
  basic w -> main_at w = MDo i d -> (d = DoLock -> in_rec w = false) -> exists w', main_step tasks g_env true true w = Next w'.
Proof.
  intros B Em Hr. pose proof (main_fine _ B) as M. unfold main_ok in M. rewrite Em in M. destruct M as [Hi Hd].
  destruct (do_moves Main i d w _ (basic_data _ B) Hi Hd) as [(w' & d' & E) | (w' & r & E)];
    [| unfold main_step; rewrite Em, E; eauto ..].
  intros ->. rewrite (lock_fine _ B), (Hr eq_refl). unfold in_main. now rewrite Em.
Qed.

(** With no test case running and the recycler at rest only the end of the recycler holds
    main up. *)
Lemma main_moves w :
  basic w -> counted w -> held w -> lively w -> act_count w = O -> (rec_at w = RWait \/ rec_at w = RExited) ->
  (main_at w = MJoin -> rec_at w = RExited) -> exists w', main_step tasks g_env true true w = Next w'.
Proof.
  intros B C L V Ha Hr Hj. pose proof (main_fine _ B) as M. unfold main_ok in M. pose proof (c_running _ C) as Cr. rewrite Ha in Cr.
  assert (rec_at w <> RHello) as Hh by (destruct Hr as [-> | ->]; discriminate).
  assert (in_rec w = false) as Hin by (unfold in_rec; destruct Hr as [-> | ->]; reflexivity).
  assert (telling w = 0) as Ht by (unfold telling, ending_now; destruct Hr as [-> | ->]; reflexivity).
  destruct (main_at w) as [| i | i | i | i | i d | i | i | i | i | |] eqn:Em; try (eapply main_do_moves; eauto; fail);
    unfold main_step; rewrite Em; cbn [starting] in Cr; eauto.
  - destruct (l_hello _ V Em); [contradiction |]. destruct (pipe w); [contradiction | eauto].
  - destruct (pipe w) eqn:Ep; [| eauto]. pose proof (h_wait _ L) as Hw. rewrite Em in Hw. specialize (Hw Ep). lia.
  - destruct (Z.ltb_spec 0 (running_cnt w)); [lia |]. rewrite andb_false_r. eauto.
  - destruct (reboot w && _); eauto.
  - destruct M as [Hi Hf]. rewrite (proj2 (Nat.ltb_lt _ _)); [eauto |]. rewrite (results_length _ _ (all_tcbs _ B i Hi)). apply Hf.
  - destruct (Z.ltb_spec 0 (running_cnt w)); [lia |]. rewrite andb_false_r. eauto.
  - rewrite (Hj eq_refl). eauto.
  - rewrite (l_limit _ V). cbn. eauto.
Qed.

Lemma stuck_over w : basic w -> counted w -> held w -> lively w -> stuck tasks g_env w -> over w <> None.
Proof.
  intros B C L V Hs Ho.
  assert (forall w', main_step tasks g_env true true w <> Next w') as Hm by (intros w' E; apply (Hs (StepMain true true) w' I); unfold step; now rewrite Ho).
  assert (forall p w', rec_step tasks g_env true true p w <> Next w') as Hr by (intros p w' E; apply (Hs (StepRec true true p) w' I); unfold step; now rewrite Ho).
  assert (forall p, procs w !! p = Some None -> born w !! p = Some Whole) as Hd.
  { intros p Hp. destruct (procs_born _ B _ _ Hp) as [k Hk]. destruct k; [assumption | exfalso ..];
      (eapply (Hs (Die p (Exited 0)) _ I); unfold step; rewrite Ho, Hp, Hk; reflexivity). }
  pose proof (basic_data _ B) as D. pose proof (rec_fine _ B) as R. unfold rec_ok in R.
  assert (rec_at w = RWait -> (forall p s, procs w !! p <> Some (Some s)) /\ end_cnt w <> tasks_cnt tasks) as Hwait.
  { intros Er. split; [| now apply (l_top _ V)]. intros p s Hp. eapply (Hr p). unfold rec_step. rewrite Er, bool_decide_eq_false_2, Hp by (intros E; now rewrite E in Hp). reflexivity. }
  assert (rec_at w = RWait \/ rec_at w = RExited) as Hrest.
  { destruct (rec_at w) as [| | | p s i | p s i num | p s i num | p s i num | p s i num | p s i num d | p s i num | |] eqn:Er; auto; exfalso; clear Hwait;
      try (eapply (Hr 0); unfold rec_step; rewrite Er; reflexivity).
    - destruct (Nat.ltb i (length tasks)) eqn:E1; [destruct (bool_decide (status (tcb_at i w) = TASK_RUN)) eqn:E2; [destruct (pgid (tcb_at i w) =? p) eqn:E3 |] |];
        eapply (Hr 0); unfold rec_step; rewrite Er, E1, ?E2, ?E3; reflexivity.
    - destruct (scan_pids p i num w) eqn:E1; eapply (Hr 0); unfold rec_step; rewrite Er, E1; reflexivity.
    - destruct R as (_ & Hi & _ & _ & Hok).
      assert (d = DoLock -> do_task_lock w = None) as Hl.
      { intros ->. rewrite (lock_fine _ B). unfold in_rec. rewrite Er. destruct (in_main w) eqn:Ei; [exfalso | reflexivity].
        unfold in_main in Ei. destruct (main_at w) as [| | | | | j d | | | | | |] eqn:Em; try discriminate.
        destruct (main_do_moves w j d B Em) as [w' E]; [intros ->; discriminate | now apply (Hm w')]. }
      destruct (do_moves Recycler i d w _ D Hi Hok Hl) as [(w' & d' & E) | (w' & r & E)]; eapply (Hr 0); unfold rec_step; rewrite Er, E; reflexivity.
    - destruct (nth num (result (tcb_at i w)) 0 =? 0) eqn:E1; eapply (Hr 0); unfold rec_step; rewrite Er, E1, ?no_exit; reflexivity. }
  assert (act_count w = O) as Ha.
  { destruct Hrest as [Er | Er].
    - apply count_none. intros i Hi. apply not_true_iff_false. intros [Hrun%bool_decide_eq_true _]%andb_true_iff.
      destruct (t_reason _ _ (l_tasks _ V i Hi) Hrun) as [Hb | [Hb | (num & p & Hn & Hp & H0)]].
      + unfold by_main in Hb. pose proof (main_fine _ B) as M. unfold main_ok in M. destruct (main_at w) as [| | | | | j d | | j | | | |] eqn:Em; try contradiction.
        * destruct (main_do_moves w j d B Em) as [w' E]; [intros _; unfold in_rec; now rewrite Er | now apply (Hm w')].
        * destruct M as [Hj Hf]. eapply Hm. unfold main_step. rewrite Em, (proj2 (Nat.ltb_lt _ _)); [reflexivity |]. rewrite (results_length _ _ (all_tcbs _ B j Hj)). apply Hf.
      + unfold by_recycler in Hb. now rewrite Er in Hb.
      + destruct (t_pid _ _ (l_tasks _ V i Hi) num p Hrun Hn Hp H0) as [[[s |] Hx] | Hx]; [now apply (proj1 (Hwait Er) p s) | | unfold sought in Hx; now rewrite Er in Hx].
        apply Hd in Hx. rewrite (pid_in_born w i num p B Hi Hp H0) in Hx. discriminate.
    - pose proof (l_exit _ V) as He. rewrite Er in He. pose proof (c_ended _ C) as Ce. unfold tasks_cnt in He.
      assert (untouched (main_at w) <= n)%nat as Hu; [| pose proof (c_running _ C); destruct (main_at w); cbn [failing] in Ce; lia].
      pose proof (main_fine _ B) as M. unfold main_ok in M. destruct (main_at w); cbn; lia. }
  destruct (main_moves w B C L V Ha Hrest) as [w' E]; [| now apply (Hm w')].
  intros Em. destruct Hrest as [Er |]; [exfalso | assumption]. pose proof (c_ended _ C) as Ce. rewrite Em, Ha in Ce. cbn in Ce.
  apply (proj2 (Hwait Er)). unfold tasks_cnt. lia.
Qed.

Lemma returned_completed w i :
  basic w -> counted w -> lively w -> over w = Some Returned -> (i < n)%nat -> status (tcb_at i w) = TASK_END /\ completed w i.
Proof.
  intros B C V Ho Hi. pose proof (l_over _ V Ho) as Em. pose proof (l_clean _ V Em) as Er. pose proof (l_exit _ V) as He. rewrite Er in He.
  pose proof (c_ended _ C) as Ce. rewrite Em in Ce. cbn in Ce. unfold tasks_cnt in He.
  assert (act_count w = O) as Ha by lia. pose proof (proj2 (count_none _ _) Ha i Hi) as Hna.
  assert (status (tcb_at i w) = TASK_END) as Hs.
  { pose proof (c_started _ C i ltac:(rewrite Em; exact Hi) Hi) as Hw. unfold active, ending_now in Hna. rewrite Er in Hna.
    destruct (status (tcb_at i w)); [reflexivity | contradiction | discriminate]. }
  split; [assumption |]. apply (t_done _ _ (l_tasks _ V i Hi)). now left.
Qed.

(** ** Every step has a meaning *)

Lemma step_limit a w w' : basic w -> step tasks g_env a w = Next w' -> limit_pid w' = limit_pid w.
Proof.
  intros B H. destruct a; try (eapply threads_keep; eauto; exact I); (eapply env_quits; eauto; exact I).
Qed.

Lemma reach_limit w : reach tasks g_env w -> limit_pid w = 2.
Proof.
  intros [acts Hs]. enough (basic w /\ limit_pid w = 2) by tauto.
  eapply (run_inv (fun w => basic w /\ limit_pid w = 2)); [| exact Hs | split; [exact start_basic | apply (l_limit _ start_lively)]].
  clear Hs acts w. intros a w w' [B E] H. split; [eapply step_basic; eauto | now rewrite (step_limit a w w')].
Qed.

Lemma step_defined a w : basic w -> limit_pid w = 2 -> step tasks g_env a w <> Undef.
Proof.
  intros B El H. pose proof (basic_data _ B) as D. unfold step in H. destruct (over w); [discriminate |]. destruct a as [ok ok2 | ok ok2 p0 | p s | p | dl].
  - pose proof (main_fine _ B) as M. unfold main_ok in M. unfold main_step in H.
    destruct (main_at w) as [| i | i | i | i | i d | i | i | i | i | |] eqn:Em; try (repeat case_match; discriminate).
    + destruct M as [Hi Hd]. apply (do_defined Main i d ok ok2 w _ D Hi Hd). destruct (do_step tasks g_env Main i d ok ok2 w); congruence.
    + destruct M as [Hi Hf]. rewrite (proj2 (Nat.ltb_lt _ _)) in H; [discriminate |]. rewrite (results_length _ _ (all_tcbs _ B i Hi)). apply Hf.
    + rewrite El in H. discriminate.
  - pose proof (rec_fine _ B) as R. unfold rec_ok in R. unfold rec_step in H.
    destruct (rec_at w) as [| | | p s i | p s i num | p s i num | p s i num | p s i num | p s i num d | p s i num | |] eqn:Er; try (repeat case_match; discriminate).
    + destruct R as (_ & Hi & _ & _ & Hd). apply (do_defined Recycler i d ok ok2 w _ D Hi Hd). destruct (do_step tasks g_env Recycler i d ok ok2 w); congruence.
    + rewrite no_exit in H. cbn [negb] in H. destruct (_ =? 0); discriminate.
  - repeat case_match; discriminate.
  - repeat case_match; discriminate.
  - repeat case_match; discriminate.
Qed.

Lemma steps_mishaps acts w w' : basic w -> steps tasks g_env acts w w' -> exists l, mishaps w' = l ++ mishaps w.
Proof.
  intros B Hs. induction Hs as [w | a acts w w1 w' H Hs IH]; [now exists [] |].
  destruct (IH (step_basic _ _ _ B H)) as [l1 ->]. destruct (step_mishaps _ _ _ B H) as [l2 ->]. exists (l1 ++ l2). now rewrite app_assoc.
Qed.

(** ** Every run comes to an end *)

Definition positives (l : list Z) : nat := length (List.filter (fun p => 0 <? p) l).

Lemma positives_cons x l : positives (x :: l) = (Nat.b2n (0 <? x)%Z + positives l)%nat.
Proof. unfold positives. cbn. now destruct (0 <? x). Qed.

Lemma positives_insert l k p :
  (positives (<[k := p]> l) <= S (positives l))%nat /\ (p <= 0 -> (positives (<[k := p]> l) <= positives l)%nat) /\
  (forall q, l !! k = Some q -> 0 < q -> p <= 0 -> S (positives (<[k := p]> l)) = positives l).
Proof.
  revert k. induction l as [| x l IH]; intros k; [cbn; split_and!; auto; now intros |]. destruct k as [| k].
  - cbn. unfold positives. cbn. destruct (Z.ltb_spec 0 p), (Z.ltb_spec 0 x); cbn; (split; [lia | split; [intros; lia | intros q Hq; injection Hq as <-; intros; lia]]).
  - destruct (IH k) as (H1 & H2 & H3). change (<[S k := p]> (x :: l)) with (x :: <[k := p]> l). change ((x :: l) !! S k) with (l !! k).
    rewrite !positives_cons. destruct (0 <? x); cbn [Nat.b2n]; (split_and!; [lia | intros H; specialize (H2 H); lia |]);
      intros q Hq H0 Hp; specialize (H3 q Hq H0 Hp); lia.
Qed.

(** A sum over the test cases in which one term changes. *)
Definition total (f : nat -> nat) (k : nat) : nat := foldr (fun i acc => (f i + acc)%nat) O (seq 0 k).

Lemma total_S f k : total f (S k) = (total f k + f k)%nat.
Proof.
  unfold total. rewrite seq_S, foldr_app. cbn [foldr Nat.add]. generalize (seq 0 k) as l. induction l as [| i l IH]; cbn [foldr]; [lia | rewrite IH; lia].
Qed.

Lemma total_change f f' i k :
  (forall j, j <> i -> f' j = f j) -> (i < k)%nat -> (total f' k + f i = total f k + f' i)%nat.
Proof.
  intros H. induction k as [| k IH]; intros Hi; [lia |]. rewrite !total_S. destruct (decide (i = k)) as [-> | Hne].
  - enough (total f' k = total f k) by lia. clear IH Hi. assert (forall m, (m <= k)%nat -> total f' m = total f m) as Hm; [| now apply Hm].
    induction m as [| m IH]; intros Hm; [reflexivity |]. rewrite !total_S, IH, H by lia. reflexivity.
  - rewrite (H k) by auto. specialize (IH ltac:(lia)). lia.
Qed.

Lemma total_same f f' k : (forall j, (j < k)%nat -> f' j = f j) -> total f' k = total f k.
Proof. induction k as [| k IH]; intros H; [reflexivity |]. rewrite !total_S, IH, H by auto. reflexivity. Qed.

(** What is left to do: for a process, with the walk after its end; inside [task_do]; for a
    thread; for a run that has still to be looked for, and for one still to be started. *)
Definition proc_w : nat := 2 * n + 10.
Definition procs_w (m : gmap Z (option wstatus)) : nat :=
  map_fold (fun _ s acc => ((match s with None => S proc_w | Some _ => proc_w end) + acc)%nat) O m.
Definition do_w (d : do_pc) : nat :=
  match d with
  | DoUnlock _ => 1
  | DoRecord _ => 2
  | DoFork => 4 + proc_w
  | DoGroup _ => 5 + proc_w
  | DoOnce => 7 + 2 * proc_w
  | DoAll => 9 + 3 * proc_w
  | DoCheck => 10 + 3 * proc_w
  | DoInit => 11 + 3 * proc_w
  | DoLock => 12 + 3 * proc_w
  | DoSub | DoTell | DoLast => 0
  end.
Definition after_w (i : nat) : nat := 3 + (n - S i) * (7 + do_w DoLock).
Definition main_w (m : main_pc) : nat :=
  match m with
  | MHello => after_w 0 + 7 + do_w DoLock
  | MLimit i => after_w i + 6 + do_w DoLock
  | MWait i | MAlone i => after_w i + 5 + do_w DoLock
  | MBegin i => after_w i + 4 + do_w DoLock
  | MDo i d => after_w i + 3 + do_w d
  | MAdd i | MErr i => after_w i + 2
  | MAfter i | MErrCount i => after_w i + 1
  | MJoin => 2
  | MClean => 1
  end.
Definition walk_w : nat := 4 + 2 * n.
Definition rec_w (r : rec_pc) : nat :=
  match r with
  | RHello => 5
  | RTop => 2
  | RWait | ROut => 1
  | RWalk _ _ i => 3 + 2 * (n - i)
  | RScan _ _ i _ => 2 + 2 * (n - i)
  | RCheck _ _ _ _ => walk_w + 5 + do_w DoLock
  | RSub _ _ _ _ => walk_w + 4
  | RTell _ _ _ _ => walk_w + 3
  | RDo _ _ _ _ d => walk_w + 1 + do_w d
  | RAfter _ _ _ _ => walk_w
  | RExited => 0
  end.
Definition found_w : nat := walk_w + 5 + do_w DoLock.
Definition run_w : nat := found_w + do_w DoFork.
Definition task_w (w : world) (i : nat) : nat :=
  (run_w * (times i - done_times (tcb_at i w)) + found_w * positives (pid (tcb_at i w)))%nat.
Definition rest_w (w : world) : nat := (procs_w (procs w) + total (task_w w) n)%nat.
Definition measure (w : world) : nat :=
  (main_w (main_at w) + rec_w (rec_at w) + 2 * pipe w + rest_w w + match over w with None => 1 | Some _ => 0 end)%nat.

Lemma procs_w_insert m p s : m !! p = None -> procs_w (<[p := s]> m) = ((match s with None => S proc_w | Some _ => proc_w end) + procs_w m)%nat.
Proof. intros H. unfold procs_w. rewrite map_fold_insert_L; [reflexivity | intros; lia | assumption]. Qed.

Lemma procs_w_delete m p s : m !! p = Some s -> procs_w m = ((match s with None => S proc_w | Some _ => proc_w end) + procs_w (delete p m))%nat.
Proof. intros H. unfold procs_w. rewrite (map_fold_delete_L _ _ p s); [reflexivity | intros; lia | assumption]. Qed.

Lemma procs_w_ends m p s : m !! p = Some None -> (procs_w (<[p := Some s]> m) < procs_w m)%nat.
Proof.
  intros H. rewrite (procs_w_delete m p None H), (procs_w_delete (<[p := Some s]> m) p (Some s)) by apply lookup_insert_eq.
  rewrite delete_insert_eq. lia.
Qed.

Lemma rest_spawn u w k : data u w -> rest_w (spawn k w) = (S proc_w + rest_w w)%nat.
Proof.
  intros D. unfold rest_w. cbn [procs spawn set_born set_procs]. rewrite procs_w_insert.
  - change (task_w (spawn k w)) with (task_w w). lia.
  - destruct (procs w !! next_pid w) eqn:E; [| reflexivity]. destruct (d_procs _ _ D _ _ E) as [k' Hk]. rewrite (born_fresh _ _ D) in Hk. discriminate.
Qed.

Lemma rest_same w v : procs v = procs w -> (forall j, pid (tcb_at j v) = pid (tcb_at j w) /\ done_times (tcb_at j v) = done_times (tcb_at j w)) -> rest_w v = rest_w w.
Proof.
  intros E H. unfold rest_w. rewrite E. f_equal. apply total_same. intros j _. unfold task_w. now destruct (H j) as [-> ->].
Qed.

Lemma rest_change w v i :
  procs v = procs w -> (i < n)%nat -> (forall j, j <> i -> tcb_at j v = tcb_at j w) -> (rest_w v + task_w w i = rest_w w + task_w v i)%nat.
Proof.
  intros E Hi H. unfold rest_w. rewrite E. pose proof (total_change (task_w w) (task_w v) i n) as Ht.
  rewrite <- !Nat.add_assoc, Ht; [lia | | assumption]. intros j Hj. unfold task_w. now rewrite H.
Qed.

Lemma task_w_eq i w v :
  pid (tcb_at i v) = pid (tcb_at i w) -> done_times (tcb_at i v) = done_times (tcb_at i w) -> task_w v i = task_w w i.
Proof. intros E1 E2. unfold task_w. now rewrite E1, E2. Qed.

(** A change of one test case that keeps its pids and its number of runs. *)
Lemma rest_upd w i f :
  (i < length (tcbs w))%nat -> pid (f (tcb_at i w)) = pid (tcb_at i w) -> done_times (f (tcb_at i w)) = done_times (tcb_at i w) -> rest_w (upd i f w) = rest_w w.
Proof.
  intros Hi E1 E2. apply rest_same; [reflexivity |]. intros j. destruct (decide (i = j)) as [<- |]; [now rewrite tcb_at_eq | now rewrite tcb_at_ne].
Qed.

Lemma do_decreases th i d ok ok2 w w' d' u :
  data u w -> (i < n)%nat -> do_ok th i d w -> do_step tasks g_env th i d ok ok2 w = DNext w' d' ->
  (do_w d' + rest_w w' < do_w d + rest_w w)%nat.
Proof.
  intros D Hi Hok H. pose proof (d_length _ _ D) as Hlen. assert (i < length (tcbs w))%nat as Hl by lia.
  assert (forall th, fresh th i w -> (done_times (tcb_at i w) < times i)%nat) as Hlt by (intros []; cbn; tauto).
  unfold do_step in H. rewrite no_reboot in H. destruct d; cbn [do_ok] in Hok; try contradiction; cbn [do_w].
  - destruct (do_task_lock w); [discriminate |]. injection H as <- <-. rewrite (rest_same w) by auto. cbn [do_w]. lia.
  - injection H as <- <-. cbn [do_w]. lia.
  - destruct (Nat.leb_spec (times i) (done_times (tcb_at i w))); [specialize (Hlt _ Hok); lia |]. injection H as <- <-. cbn [do_w]. lia.
  - destruct (_ && _); [| destruct ok]; injection H as <- <-; cbn [do_w]; [lia | |].
    + rewrite rest_upd by (auto; reflexivity). rewrite (rest_spawn u) by assumption. lia.
    + rewrite rest_upd by auto. lia.
  - destruct ok; injection H as <- <-; cbn [do_w]; [| lia]. rewrite (rest_spawn u) by assumption. lia.
  - destruct ok; injection H as <- <-; cbn [do_w]; [| lia]. rewrite rest_upd by auto. lia.
  - destruct (_ <? _)%nat; [| discriminate]. destruct ok; injection H as <- <-; cbn [do_w].
    + rewrite (rest_spawn u) by assumption. lia.
    + set (f := with_pid _). rewrite (rest_same (upd i f w) (add_kill _ _)) by auto.
      pose proof (rest_change w (upd i f w) i eq_refl Hi ltac:(intros; now apply tcb_at_ne)) as Hr.
      assert (task_w (upd i f w) i <= task_w w i)%nat; [| lia]. unfold task_w. rewrite tcb_at_eq by assumption. cbn [f with_pid pid done_times].
      destruct (positives_insert (pid (tcb_at i w)) (done_times (tcb_at i w)) (-1)) as (_ & Hp & _). specialize (Hp ltac:(lia)).
      apply Nat.add_le_mono_l, Nat.mul_le_mono_l, Hp.
  - destruct Hok as [Hf _]. specialize (Hlt _ Hf). set (f := fun t => with_done _ _) in H.
    assert (w' = upd i f w /\ (do_w d' <= do_w DoFork)%nat) as [-> Hd] by (destruct (_ && _); injection H as <- <-; (split; [reflexivity | cbn; lia])).
    pose proof (rest_change w (upd i f w) i eq_refl Hi ltac:(intros; now apply tcb_at_ne)) as Hr.
    assert (task_w (upd i f w) i + run_w <= task_w w i + found_w)%nat; [| unfold run_w in *; lia]. unfold task_w. rewrite tcb_at_eq by assumption. cbn [f with_pid with_done pid done_times].
    destruct (positives_insert (pid (tcb_at i w)) (done_times (tcb_at i w)) p) as (Hp & _).
    replace (times i - done_times (tcb_at i w))%nat with (S (times i - S (done_times (tcb_at i w)))) by lia.
    rewrite Nat.mul_succ_r. apply (Nat.mul_le_mono_l _ _ found_w) in Hp. rewrite Nat.mul_succ_r in Hp. lia.
  - discriminate.
Qed.

(** Main goes on to the next test case. *)
Lemma next_w i : (i < n)%nat -> (main_w (if (S i <? n)%nat then MLimit (S i) else MJoin) < after_w i)%nat.
Proof.
  intros Hi. unfold main_w, after_w. destruct (Nat.ltb_spec (S i) n); [| lia].
  replace (n - S i)%nat with (S (n - S (S i))) by lia. rewrite Nat.mul_succ_l. lia.
Qed.

Lemma main_decreases ok ok2 w w' :
  basic w -> over w = None -> main_step tasks g_env ok ok2 w = Next w' -> (measure w' < measure w)%nat.
Proof.
  intros B Ho H. pose proof (basic_data _ B) as D. pose proof (main_fine _ B) as M. unfold main_ok in M. pose proof (tcbs_length _ B) as Hl.
  unfold main_step in H. unfold measure. rewrite Ho. destruct (main_at w) as [| i | i | i | i | i d | i | i | i | i | |] eqn:Em; cbn [untouched] in D.
  - destruct (pipe w) as [| k]; [discriminate |]. injection H as <-. cbn [main_at rec_at pipe over set_main set_pipe].
    rewrite Ho, (rest_same w) by auto. destruct (Nat.ltb_spec 0 n); cbn [main_w]; lia.
  - injection H as <-. cbn [main_at rec_at pipe over set_main]. rewrite Ho, (rest_same w) by auto. destruct (_ <=? _); cbn [main_w]; lia.
  - destruct (pipe w) as [| k]; [discriminate |]. injection H as <-. cbn [main_at rec_at pipe over set_main set_pipe]. rewrite Ho, (rest_same w) by auto. cbn [main_w]. lia.
  - destruct (_ && _); [discriminate |]. injection H as <-. cbn [main_at rec_at pipe over set_main]. rewrite Ho, (rest_same w) by auto. cbn [main_w]. lia.
  - rewrite (no_reboot_mode _ B) in H. cbn [andb] in H. injection H as <-. cbn [main_at rec_at pipe over set_main upd set_tcbs]. rewrite Ho.
    rewrite (rest_same (upd i (with_tstatus TASK_RUN) w) (set_main _ _)), rest_upd by (auto; lia). cbn [main_w]. lia.
  - destruct M as [Hi Hd]. destruct (do_step tasks g_env Main i d ok ok2 w) as [w1 d1 | w1 r | |] eqn:Es; try discriminate.
    + injection H as <-. destruct (do_next Main i d ok ok2 w w1 d1 (S i) D ltac:(lia) Hi Hd Es) as (_ & F & _).
      pose proof (do_decreases Main i d ok ok2 w w1 d1 (S i) D Hi Hd Es) as Hx. cbn [main_at rec_at pipe over set_main].
      rewrite (f_over _ _ _ _ F), (f_rec _ _ _ _ F), (f_pipe _ _ _ _ F), Ho, (rest_same w1) by auto. cbn [main_w]. lia.
    + injection H as <-. destruct (do_ret Main i d ok ok2 w w1 r (S i) D Hd Es) as [-> ->]. cbn [main_at rec_at pipe over set_main set_lock].
      rewrite Ho, (rest_same w) by auto. destruct (r =? 0); cbn [main_w do_w]; lia.
  - injection H as <-. cbn [main_at rec_at pipe over set_main task_mod_running_cnt set_counts]. rewrite Ho, (rest_same w) by auto. cbn [main_w]. lia.
  - destruct (_ <? _)%nat; [| discriminate]. injection H as <-. destruct M as [Hi _]. cbn [main_at rec_at pipe over set_main upd set_tcbs add_mishap]. rewrite Ho.
    set (v := add_mishap _ w). set (f := fun t => with_tstatus TASK_END _). rewrite (rest_same (upd i f v) (set_main _ _)), rest_upd, (rest_same w) by (auto; cbn; lia). cbn [main_w]. lia.
  - injection H as <-. cbn [main_at rec_at pipe over set_main task_mod_running_cnt set_counts]. rewrite Ho, (rest_same w) by auto. pose proof (next_w i M). cbn [main_w]. lia.
  - destruct (_ && _); [discriminate |]. injection H as <-. cbn [main_at rec_at pipe over set_main]. rewrite Ho, (rest_same w) by auto. pose proof (next_w i M). cbn [main_w]. lia.
  - destruct (rec_at w) eqn:Er; try discriminate. injection H as <-. cbn [main_at rec_at pipe over set_main]. rewrite Ho, Er, (rest_same w) by auto. cbn [main_w]. lia.
  - destruct (_ =? 0); [discriminate |]. injection H as <-. cbn [main_at rec_at pipe over set_over add_kill]. rewrite Em, (rest_same w) by auto. cbn [main_w]. lia.
Qed.

Lemma recycler_decreases ok ok2 p0 w w' :
  basic w -> lively w -> over w = None -> rec_step tasks g_env ok ok2 p0 w = Next w' -> mishaps w' = [] -> (measure w' < measure w)%nat.
Proof.
  intros B L Ho H Hm. pose proof (basic_data _ B) as D. pose proof (rec_fine _ B) as R. unfold rec_ok in R. pose proof (tcbs_length _ B) as Hlen.
  unfold rec_step in H. unfold measure. rewrite Ho. destruct (rec_at w) as [| | | p s i | p s i num | p s i num | p s i num | p s i num | p s i num d | p s i num | |] eqn:Er.
  - injection H as <-. cbn [main_at rec_at pipe over set_rec set_pipe]. rewrite Ho, (rest_same w) by auto. cbn [rec_w]. lia.
  - injection H as <-. cbn [main_at rec_at pipe over set_rec]. rewrite Ho, (rest_same w) by auto. destruct (_ =? _); cbn [rec_w]; lia.
  - case_bool_decide.
    + pose proof (l_top _ L Er). destruct (Z.eqb_spec (end_cnt w) (tasks_cnt tasks)); [contradiction | discriminate].
    + destruct (procs w !! p0) as [[s |] |] eqn:Ep; try discriminate. injection H as <-. cbn [main_at rec_at pipe over set_rec set_procs]. rewrite Ho.
      assert (rest_w w = (proc_w + rest_w (set_rec (RWalk p0 s 0) (set_procs (delete p0 (procs w)) w)))%nat) as ->.
      { unfold rest_w. rewrite (procs_w_delete _ _ _ Ep). cbn [procs set_rec set_procs].
        change (task_w (set_rec _ _)) with (task_w w). lia. }
      cbn [rec_w]. unfold proc_w. lia.
  - destruct (Nat.ltb_spec i n) as [Hi |]; [destruct (bool_decide _) eqn:Es; cbn [negb] in H; [destruct (Z.eqb_spec (pgid (tcb_at i w)) p) |] |]; injection H as <-;
      cbn [main_at rec_at pipe over set_rec upd set_tcbs]; rewrite Ho; try (rewrite (rest_same w) by auto); cbn [rec_w]; try lia.
    rewrite (rest_same (upd i (with_pgid (- p)) w) (set_rec _ _)), rest_upd by (auto; lia). lia.
  - destruct R as [R Hi]. pose proof R as [_ [k Hk]]. pose proof (born_range _ B _ _ Hk) as [Hp _].
    destruct (scan_pids p i num w) as [m |] eqn:Es; injection H as <-.
    + apply scan_pids_spec in Es as [Hmd Hpid].
      destruct (recycle_once_facts (untouched (main_at w)) i m s p w D ltac:(apply (touched _ w); auto; left; lia) Hi ltac:(lia)) as (_ & S1 & Hoth & _ & Hpi & _ & Hf).
      injection Hf as Hf1 Hf2 Hf3 Hf4 Hf5 Hf6 Hf7 Hf8 Hf9 Hf10 Hf11 Hf12. cbn [main_at rec_at pipe over set_rec]. rewrite Hf2, Hf6, Hf11, Ho.
      set (v := task_recycle_once tasks i m s p w) in *. rewrite (rest_same v) by auto. pose proof (rest_change w v i Hf9 Hi Hoth) as Hr.
      assert (task_w v i + found_w = task_w w i)%nat; [| unfold found_w in *; cbn [rec_w]; lia]. unfold task_w. rewrite (s_done _ _ S1), Hpi.
      destruct (positives_insert (pid (tcb_at i w)) m (- p)) as (_ & _ & Hx). rewrite <- (Hx p Hpid ltac:(lia) ltac:(lia)), Nat.mul_succ_r. lia.
    + set (v := match num with O => _ | _ => _ end). assert (v = w \/ v = add_mishap (LostDeath i) w) as [-> | ->] by (unfold v; destruct num; [apply note_loss_eq | now left]);
        cbn [main_at rec_at pipe over set_rec add_mishap]; rewrite Ho, (rest_same w) by auto; cbn [rec_w]; lia.
  - injection H as <-. cbn [main_at rec_at pipe over set_rec]. rewrite Ho, (rest_same w) by auto. destruct (task_check_end tasks i w), (parallel i); cbn [rec_w]; lia.
  - injection H as <-. destruct (end_sub_eq i w (no_reboot_mode _ B)) as (E1 & E2 & E3 & E4 & E5 & Hf). injection Hf as Hf1 Hf2 Hf3 Hf4 Hf5 Hf6 Hf7 Hf8 Hf9 Hf10.
    cbn [main_at rec_at pipe over set_rec]. rewrite Hf2, Hf4, Hf9, Ho, (rest_same w); [cbn [rec_w]; lia | exact Hf7 |]. intros j. unfold tcb_at. cbn. now rewrite E1.
  - injection H as <-. destruct R as (R & Hi & Hn). unfold recycle_end_tell. set (w1 := if _ =? _ then set_pipe (S (pipe w)) w else w).
    assert (tcbs w1 = tcbs w /\ procs w1 = procs w /\ main_at w1 = main_at w /\ over w1 = over w /\ (pipe w1 <= S (pipe w))%nat) as (E1 & E2 & E3 & E4 & E5)
      by (unfold w1; destruct (_ =? _); split_and!; auto; cbn; lia).
    cbn [main_at rec_at pipe over set_rec upd set_tcbs]. rewrite E3, E4, Ho, (rest_same (upd i (with_tstatus TASK_END) w1) (set_rec _ _)), rest_upd by (auto; rewrite E1; lia).
    rewrite (rest_same w w1); [cbn [rec_w]; lia | assumption |]. intros j. unfold tcb_at. now rewrite E1.
  - destruct R as (R & Hi & Hn & Hpar & Hd). assert (i < untouched (main_at w))%nat as Hu by (apply (touched _ w); auto; left; lia).
    destruct (do_step tasks g_env Recycler i d ok ok2 w) as [w1 d1 | w1 r | |] eqn:Es; try discriminate; injection H as <-.
    + destruct (do_next Recycler i d ok ok2 w w1 d1 _ D Hu Hi Hd Es) as (_ & F & _). pose proof (do_decreases Recycler i d ok ok2 w w1 d1 _ D Hi Hd Es) as Hx.
      cbn [main_at rec_at pipe over set_rec]. rewrite (f_over _ _ _ _ F), (f_main _ _ _ _ F), (f_pipe _ _ _ _ F), Ho, (rest_same w1) by auto. cbn [rec_w]. lia.
    + destruct (do_ret Recycler i d ok ok2 w w1 r _ D Hd Es) as [-> ->]. destruct (r =? 0); cbn [main_at rec_at pipe over set_rec set_lock add_mishap];
        rewrite Ho, (rest_same w) by auto; cbn [rec_w do_w]; lia.
  - destruct R as (R & Hi & Hn). rewrite no_exit in H. cbn [negb] in H. destruct (_ =? 0); injection H as <-;
      cbn [main_at rec_at pipe over set_rec]; rewrite Ho, (rest_same w) by auto; cbn [rec_w]; unfold walk_w; lia.
  - injection H as <-. cbn [main_at rec_at pipe over set_rec]. rewrite Ho, (rest_same w) by auto. cbn [rec_w]. lia.
  - discriminate.
Qed.

(** The end of a process. *)
Lemma env_decreases a w w' :
  basic w -> match a with Die _ _ | Expire _ => True | _ => False end -> step tasks g_env a w = Next w' -> (measure w' < measure w)%nat.
Proof.
  intros B Ha H. pose proof (tcbs_length _ B) as Hl. unfold step in H. destruct (over w) eqn:Ho; [discriminate |]. unfold measure. rewrite Ho.
  assert (forall p s v, procs w !! p = Some None -> (forall j, pid (tcb_at j v) = pid (tcb_at j w) /\ done_times (tcb_at j v) = done_times (tcb_at j w)) -> procs v = procs w ->
    (rest_w (set_procs (<[p := Some s]> (procs v)) v) < rest_w w)%nat) as Hr.
  { intros p s v Hp Hj E. unfold rest_w. cbn [procs set_procs]. rewrite E. pose proof (procs_w_ends (procs w) p s Hp).
    rewrite (total_same (task_w w)); [lia |]. intros j _. destruct (Hj j). now apply task_w_eq. }
  destruct a as [| | p s | p |]; try contradiction.
  - destruct (procs w !! p) as [[|] |] eqn:Ep; try discriminate.
    assert (w' = set_procs (<[p := Some s]> (procs w)) w) as ->.
    { destruct (born w !! p) as [[] |]; try discriminate; [| congruence ..]. destruct (bool_decide _); [congruence | discriminate]. }
    specialize (Hr p s w Ep ltac:(auto) eq_refl). cbn [main_at rec_at pipe over set_procs]. rewrite Ho. lia.
  - destruct (procs w !! p) as [[|] |] eqn:Ep; try discriminate. destruct (born w !! p) as [[| i | |] |]; try discriminate. injection H as <-.
    set (w1 := upd i (with_quit true) w). set (w2 := if _ <? _ then _ else w1).
    assert (tcbs w2 = tcbs w1 /\ procs w2 = procs w /\ main_at w2 = main_at w /\ rec_at w2 = rec_at w /\ pipe w2 = pipe w /\ over w2 = over w) as (E1 & E2 & E3 & E4 & E5 & E6)
      by (unfold w2; destruct (_ <? _); auto 10).
    assert (forall j, pid (tcb_at j w2) = pid (tcb_at j w) /\ done_times (tcb_at j w2) = done_times (tcb_at j w)) as Hj.
    { intros j. unfold tcb_at. rewrite E1. cbn. destruct (decide (i = j)) as [<- |]; [rewrite list_lookup_alter_eq; now destruct (tcbs w !! i) | now rewrite list_lookup_alter_ne]. }
    specialize (Hr p (Exited 0) w2 Ep Hj E2). cbn [main_at rec_at pipe over set_procs]. rewrite E3, E4, E5, E6, Ho. lia.
Qed.

Definition no_signal (a : act) : Prop := match a with Signal _ => False | _ => True end.

Lemma steps_measure acts w w' :
  steps tasks g_env acts w w' -> reach tasks g_env w -> Forall no_signal acts -> mishaps w' = [] -> (length acts + measure w' <= measure w)%nat.
Proof.
  intros Hs. induction Hs as [w | a acts w w1 w' H Hs IH]; intros Hr Ha Hm; [cbn; lia |]. inversion Ha as [| ? ? Ha1 Ha2]; subst.
  pose proof (reach_basic w Hr) as B. pose proof (reach_step a w w1 Hr H) as Hr1. specialize (IH Hr1 Ha2 Hm).
  assert (mishaps w1 = []) as Hm1.
  { pose proof (steps_mishaps _ _ _ (reach_basic w1 Hr1) Hs) as [l El]. rewrite Hm in El. symmetry in El. now apply app_eq_nil in El. }
  assert (mishaps w = []) as Hm0.
  { destruct (step_mishaps _ _ _ B H) as [l El]. rewrite Hm1 in El. symmetry in El. now apply app_eq_nil in El. }
  assert (measure w1 < measure w)%nat; [| cbn; lia]. pose proof (reach_lively w Hr Hm0) as L.
  assert (over w = None) as Ho by (unfold step in H; now destruct (over w)).
  destruct a; try contradiction; try (eapply env_decreases; eauto; exact I); unfold step in H; rewrite Ho in H; [eapply main_decreases | eapply recycler_decreases]; eauto.
Qed.

(** Only a signal kills the program. *)
Lemma step_survives a w w' : basic w -> no_signal a -> step tasks g_env a w = Next w' -> over w' <> Some KilledSelf.
Proof.
  intros B Ha H. pose proof (basic_data _ B) as D. unfold step in H. destruct (over w) eqn:Ho; [discriminate |]. destruct a as [ok ok2 | ok ok2 p0 | p s | p |]; try contradiction.
  - pose proof (main_fine _ B) as M. unfold main_ok in M. unfold main_step in H.
    destruct (main_at w) as [| i | i | i | i | i d | i | i | i | i | |] eqn:Em; cbn [untouched] in D;
      try (repeat match type of H with context [match ?x with _ => _ end] => destruct x end; simplify_eq; cbn; congruence).
    destruct M as [Hi Hd]. destruct (do_step tasks g_env Main i d ok ok2 w) as [w1 d1 | w1 r | |] eqn:Es; try discriminate; injection H as <-; cbn.
    + destruct (do_next Main i d ok ok2 w w1 d1 (S i) D ltac:(lia) Hi Hd Es) as (_ & F & _). rewrite (f_over _ _ _ _ F). congruence.
    + destruct (do_ret Main i d ok ok2 w w1 r (S i) D Hd Es) as [-> ->]. cbn. congruence.
  - pose proof (rec_fine _ B) as R. unfold rec_ok in R. unfold rec_step in H.
    destruct (rec_at w) as [| | | p s i | p s i num | p s i num | p s i num | p s i num | p s i num d | p s i num | |] eqn:Er;
      try (repeat match type of H with context [match ?x with _ => _ end] => destruct x end; simplify_eq; cbn; congruence).
    + destruct R as [R Hi]. pose proof R as [_ [k Hk]]. pose proof (born_range _ B _ _ Hk) as [Hp _].
      destruct (scan_pids p i num w) as [m |] eqn:Es; injection H as <-.
      * apply scan_pids_spec in Es as [Hmd Hpid].
        destruct (recycle_once_facts (untouched (main_at w)) i m s p w D ltac:(apply (touched _ w); auto; left; lia) Hi ltac:(lia)) as (_ & _ & _ & _ & _ & _ & Hf).
        injection Hf as Hf1 Hf2 Hf3 Hf4 Hf5 Hf6 Hf7 Hf8 Hf9 Hf10 Hf11 Hf12. cbn. congruence.
      * destruct num; [destruct (note_loss_eq p i w) as [-> | ->] |]; cbn; congruence.
    + injection H as <-. destruct (end_sub_eq i w (no_reboot_mode _ B)) as (_ & _ & _ & _ & _ & Hf). injection Hf as Hf1 Hf2 Hf3 Hf4 Hf5 Hf6 Hf7 Hf8 Hf9 Hf10. cbn. congruence.
    + injection H as <-. unfold recycle_end_tell. destruct (_ =? _); cbn; congruence.
    + destruct R as (R & Hi & Hn & Hpar & Hd). assert (i < untouched (main_at w))%nat as Hu by (apply (touched _ w); auto; left; lia).
      destruct (do_step tasks g_env Recycler i d ok ok2 w) as [w1 d1 | w1 r | |] eqn:Es; try discriminate; injection H as <-; cbn.
      * destruct (do_next Recycler i d ok ok2 w w1 d1 _ D Hu Hi Hd Es) as (_ & F & _). rewrite (f_over _ _ _ _ F). congruence.
      * destruct (do_ret Recycler i d ok ok2 w w1 r _ D Hd Es) as [-> ->]. destruct (r =? 0); cbn; congruence.
  - destruct (procs w !! p) as [[|] |], (born w !! p) as [[] |]; try discriminate; [destruct (bool_decide _); [| discriminate] | ..]; injection H as <-; cbn; congruence.
  - destruct (procs w !! p) as [[|] |], (born w !! p) as [[] |]; try discriminate. injection H as <-. destruct (_ <? _); cbn; congruence.
Qed.

Lemma steps_survive acts w : steps tasks g_env acts (start tasks g_env false [] 0 0) w -> Forall no_signal acts -> over w <> Some KilledSelf.
Proof.
  intros Hs. pose proof start_basic as B. destruct start_over as [Ho _]. assert (over (start tasks g_env false [] 0 0) <> Some KilledSelf) as Hk by congruence.
  revert B Hk. clear Ho. induction Hs as [w | a acts w w1 w' H Hs IH]; intros B Hk Ha; [exact Hk |]. inversion Ha; subst.
  apply IH; [eapply step_basic; eauto | eapply step_survives; eauto | assumption].
Qed.

End Run.
