(* ===== verification/SchedThm.v ===== *)
(** * SchedThm: what the scheduler of tinatest promises

    The theorems on [Sched] for the lists of test cases [TaskConf.task_init] makes, none of
    which reboots; their witnesses, on lists run by [drive]; and sequences of events that end
    badly, the events [mishap] names among them. *)
From Stdlib Require Import String.
From stdpp Require Import gmap.
From S2P Require Import Prelude CString Mjson TaskConf TaskConfRun Sched SchedRun.

#[local] Open Scope list_scope.
#[local] Open Scope Z_scope.

(** What [task_init] leaves, without a test case that reboots. *)
Record schedulable (tasks : list task) (g : global_env) : Prop := {
  sch_tasks : Forall task_ok tasks;
  sch_env : genv_ok g;
  sch_stays : Forall (fun t => may_reboot (env t) = false) tasks;
}.

Lemma sch_times tasks g : schedulable tasks g -> forall i, (i < length tasks)%nat -> 0 < run_times (env_of tasks i).
Proof.
  intros S i Hi. unfold env_of. destruct (lookup_lt_is_Some_2 _ _ Hi) as [t Ht]. rewrite Ht.
  pose proof (Forall_lookup_1 _ _ _ _ (sch_tasks _ _ S) Ht) as [[? _] _]. assumption.
Qed.

Lemma sch_reboot tasks g : schedulable tasks g -> forall i, may_reboot (env_of tasks i) = false.
Proof.
  intros S i. unfold env_of. destruct (tasks !! i) as [t |] eqn:Ht; [| reflexivity]. exact (Forall_lookup_1 _ _ _ _ (sch_stays _ _ S) Ht).
Qed.

Lemma sch_limit tasks g : schedulable tasks g -> 0 < run_cnt_up_to g.
Proof. intros S. apply (sch_env _ _ S). Qed.

(** The list and the settings [task_init] makes can be run. *)
Lemma loaded_schedulable {json} `{JsonC json} (root : json) alloc fuel argv g st tt n :
  task_init root alloc fuel argv = Some (g, st, tt, n) -> Forall (fun t => may_reboot (env t) = false) (TASK_LIST st) -> schedulable (TASK_LIST st) g.
Proof. intros E Hr. destruct (task_init_ok _ _ _ _ _ _ _ _ E) as (Hg & Hl & _). split; [apply Hl | assumption | assumption]. Qed.

Create HintDb sched.
#[local] Hint Resolve sch_times sch_reboot sch_limit : sched.

(** C11: For a list as [task_init] leaves it, without a test case that may reboot: however the
    threads and processes interleave, no more test cases run at a time than [run_cnt_up_to] allows, as
    long as no start has failed after a first process of its test case was started ([on_time_failures];
    [late_failure_exceeds] is a run with such a failure). *)
Theorem limit_kept tasks g w :
  schedulable tasks g -> reach tasks g w -> on_time_failures w -> Z.of_nat (active_count tasks w) <= run_cnt_up_to g.
Proof. intros S R Ht. apply h_limit. eapply reach_held; eauto with sched. Qed.

(** C23: For a list as [task_init] leaves it, without a test case that may reboot: while a test case
    with [run_alone] runs, no other one does, as long as no start has failed after a first process of its
    test case was started ([on_time_failures]). *)
Theorem alone_kept tasks g w j k :
  schedulable tasks g -> reach tasks g w -> on_time_failures w -> (j < length tasks)%nat -> (k < length tasks)%nat ->
  run_alone (env_of tasks j) = true -> active w j = true -> active w k = true -> k = j.
Proof.
  intros S R Ht Hj Hk Ha Aj Ak. eapply (h_pair tasks g w); eauto. eapply reach_held; eauto with sched.
Qed.

(** Main never sleeps on the pipe while there is room: then as many test cases run as may, one
    of which the recycler may be about to tell the end of. *)
Theorem wake_up_kept tasks g w i :
  schedulable tasks g -> reach tasks g w -> on_time_failures w -> main_at w = MWait i -> pipe w = O ->
  run_cnt_up_to g <= running_cnt w + match ending_now w with Some _ => 1 | None => 0 end.
Proof.
  intros S R Ht Em Hp. assert (held tasks g w) as Hh by (eapply reach_held; eauto with sched).
  pose proof (h_wait _ _ _ Hh) as Hw. rewrite Em in Hw. exact (Hw Hp).
Qed.

(** C24: For a list as [task_init] leaves it, without a test case that may reboot and without one whose
    failure ends the program, and a whole time that is not 0: no step of a reachable state leaves what C
    defines: the tables of a test case are written inside their bounds and the shared memory is not used when
    it is gone.  ([exit_walks_freed_list] is what happens where a failure ends the program.) *)
Theorem every_step_defined tasks g w a :
  schedulable tasks g -> (forall i, exit_tinatest_when_fail (env_of tasks i) = false) -> 0 < tinatest_run_time_sec g ->
  reach tasks g w -> step tasks g a w <> Undef.
Proof.
  intros S He Hl R. apply step_defined; eauto with sched.
  - eapply reach_basic; eauto with sched.
  - eapply reach_limit; eauto with sched.
Qed.

(** C8: For a list as [task_init] leaves it, without a test case that may reboot and without one whose
    failure ends the program ([exit_tinatest_when_fail]), and a whole time that is not 0
    ([no_limit_signals_itself]).  A run that has come to a stop in which no death went by unseen and no
    start failed has either been killed by the program's own [kill], which only follows a signal or the end of
    the whole time, or has returned, and then every test case was run as often as it says, to the end of
    every run, or was told to quit.  And it does come to a stop: without signals and mishaps no sequence of
    events is longer than a bound the list gives, and none kills the program. *)
Theorem runs_to_the_end tasks g :
  schedulable tasks g -> (forall i, exit_tinatest_when_fail (env_of tasks i) = false) -> 0 < tinatest_run_time_sec g ->
  (forall w, reach tasks g w -> mishaps w = [] -> stuck tasks g w ->
     over w = Some KilledSelf \/
     (over w = Some Returned /\ forall i, (i < length tasks)%nat -> status (tcb_at i w) = TASK_END /\ completed tasks w i)) /\
  exists N, forall acts w, steps tasks g acts (start tasks g false [] 0 0) w -> Forall no_signal acts -> mishaps w = [] ->
    (length acts <= N)%nat /\ over w <> Some KilledSelf.
Proof.
  intros S He Hl. split.
  - intros w R Hm Hs. assert (basic tasks w) as B by (eapply reach_basic; eauto with sched).
    destruct (reach_held tasks g (sch_times _ _ S) (sch_reboot _ _ S) (sch_limit _ _ S) w R) as [C L]; [unfold on_time_failures; now rewrite Hm |].
    assert (lively tasks w) as V by (eapply reach_lively; eauto with sched).
    pose proof (stuck_over tasks g) as Ho. destruct (over w) as [[] |] eqn:Eo; [right | now left | exfalso].
    + split; [reflexivity |]. intros i Hi. eapply returned_completed; eauto with sched.
    + revert Eo. eapply Ho; eauto with sched.
  - exists (measure tasks (start tasks g false [] 0 0)). intros acts w Hs Ha Hm. split; [| eapply steps_survive; eauto with sched].
    assert (reach tasks g (start tasks g false [] 0 0)) as R by (exists []; constructor).
    enough (length acts + measure tasks w <= measure tasks (start tasks g false [] 0 0))%nat by lia.
    eapply steps_measure; eauto with sched.
Qed.

(** ** On concrete lists of test cases *)

Lemma run_steps tasks g acts w w' : exec tasks g acts w = Next w' -> steps tasks g acts w w'.
Proof.
  revert w. induction acts as [| a acts IH]; cbn; intros w H; [injection H as <-; constructor |].
  destruct (step tasks g a w) as [w1 | |] eqn:E; try discriminate. econstructor; eauto.
Qed.

Lemma exec_reach tasks g acts w : exec tasks g acts (start tasks g false [] 0 0) = Next w -> reach tasks g w.
Proof. intros H. exists acts. now apply run_steps. Qed.

Lemma over_stuck tasks g w : over w <> None -> stuck tasks g w.
Proof. intros H a w' _. unfold step. now destruct (over w). Qed.

(** One order of events: main goes first, the recycler next, and when both wait, a process
    ends. *)
Fixpoint drive (tasks : list task) (g : global_env) (fuel : nat) (w : world) : list act :=
  match fuel with
  | O => []
  | S fuel =>
      let dead := match List.filter (fun x : Z * option wstatus => bool_decide (is_Some x.2)) (map_to_list (procs w)) with (p, _) :: _ => p | [] => 0 end in
      let alive := match List.filter (fun x : Z * option wstatus => match x.2 with None => negb (bool_decide (born w !! x.1 = Some Whole)) | _ => false end) (map_to_list (procs w)) with (p, _) :: _ => p | [] => 0 end in
      match main_step tasks g true true w with
      | Next w' => match over w with None => StepMain true true :: drive tasks g fuel w' | _ => [] end
      | _ =>
          match rec_step tasks g true true dead w with
          | Next w' => StepRec true true dead :: drive tasks g fuel w'
          | _ => match step tasks g (Die alive (Exited 0)) w with Next w' => Die alive (Exited 0) :: drive tasks g fuel w' | _ => [] end
          end
      end
  end.

Definition ex_task (e : local_env) : task := Task (lit "/t") (lit "t") e None TASK_NO_INPUT 0.
Definition ex_start (tasks : list task) (g : global_env) : world := start tasks g false [] 0 0.

Lemma ex_schedulable l g : Forall env_ok l -> genv_ok g -> Forall (fun e => may_reboot e = false) l -> schedulable (map ex_task l) g.
Proof.
  intros He Hg Hr. split; [| assumption |].
  - apply List.Forall_map. rewrite List.Forall_forall in *. intros e Hin. split; cbn; [auto |]. intros H. rewrite Hr in H by assumption. discriminate.
  - now apply List.Forall_map.
Qed.

(** Three test cases, one of them twice and one of them alone, two at a time. *)
Definition ex_list : list task := map ex_task [with_run_times 2 default_local; with_run_parallel true (with_run_times 2 default_local); with_run_alone true default_local].
Definition ex_genv : global_env := with_run_cnt_up_to 2 default_global.
Definition after (k : nat) : res := exec ex_list ex_genv (take k (drive ex_list ex_genv 500 (ex_start ex_list ex_genv))) (ex_start ex_list ex_genv).


Lemma ex_list_schedulable : schedulable ex_list ex_genv.
Proof. apply ex_schedulable; [| split; cbn; lia |]; repeat (constructor; [unfold env_ok; cbn; try lia; reflexivity |]); constructor. Qed.

(** What is seen after some events can be reached. *)
Lemma exec_at {A} (f : world -> A) d v tasks g acts :
  match exec tasks g acts (ex_start tasks g) with Next w => f w | _ => d end = v -> d <> v -> exists w, reach tasks g w /\ f w = v.
Proof.
  intros H Hd. destruct (exec tasks g acts (ex_start tasks g)) as [w | |] eqn:E; [| contradiction ..]. exists w. split; [| exact H]. exact (exec_reach _ _ _ _ E).
Qed.

Lemma after_at {A} k (f : world -> A) d v :
  match after k with Next w => f w | _ => d end = v -> d <> v -> exists w, reach ex_list ex_genv w /\ f w = v.
Proof. apply exec_at. Qed.

Lemma limit_kept_witness :
  exists w, reach ex_list ex_genv w /\ active_count ex_list w = 2%nat /\ Z.of_nat (active_count ex_list w) <= 2.
Proof.
  destruct (after_at 50 (fun w => (active_count ex_list w, mishaps w)) (O, []) (2%nat, [])) as (w & R & H); [vm_compute; reflexivity | discriminate |].
  injection H as Ha Hm. exists w. split; [exact R | split; [exact Ha |]].
  apply (limit_kept ex_list ex_genv w ex_list_schedulable R). unfold on_time_failures. rewrite Hm. constructor.
Defined.

Lemma alone_kept_witness :
  exists w, reach ex_list ex_genv w /\ active w 2 = true /\ forall k, (k < 3)%nat -> active w k = true -> k = 2%nat.
Proof.
  destruct (after_at 110 (fun w => (active w 2, mishaps w)) (false, []) (true, [])) as (w & R & H); [vm_compute; reflexivity | discriminate |].
  injection H as Ha Hm. exists w. split; [exact R | split; [exact Ha |]].
  intros k Hk Hak. apply (alone_kept ex_list ex_genv w 2 k ex_list_schedulable R); [unfold on_time_failures; rewrite Hm; constructor | cbn; lia | exact Hk | reflexivity | exact Ha | exact Hak].
Defined.

Lemma wake_up_kept_witness :
  exists w i, reach ex_list ex_genv w /\ main_at w = MWait i /\ pipe w = O /\ 2 <= running_cnt w + match ending_now w with Some _ => 1 | None => 0 end.
Proof.
  destruct (after_at 50 (fun w => (main_at w, pipe w, mishaps w)) (MHello, O, []) (MWait 2, O, [])) as (w & R & H); [vm_compute; reflexivity | discriminate |].
  injection H as Ha Hp Hm. exists w, 2%nat. split; [exact R | split; [exact Ha | split; [exact Hp |]]].
  apply (wake_up_kept ex_list ex_genv w 2 ex_list_schedulable R); [unfold on_time_failures; rewrite Hm; constructor | exact Ha | exact Hp].
Defined.

Lemma every_step_defined_witness : exists w, reach ex_list ex_genv w /\ forall a, step ex_list ex_genv a w <> Undef.
Proof.
  destruct (after_at 50 (fun w => (active_count ex_list w =? 2)%nat) false true) as (w & R & _); [vm_compute; reflexivity | discriminate |]. exists w. split; [exact R |].
  intros a. apply (every_step_defined ex_list ex_genv w a ex_list_schedulable); [| reflexivity | exact R].
  intros i. destruct i as [| [| [| i]]]; reflexivity.
Defined.

(** The list of the settings document of [TaskConfRun], from the file to the end. *)
Definition ex_loaded : list task * global_env :=
  match task_init ex_doc everything 10 [] with Some (g, st, _, _) => (TASK_LIST st, g) | None => ([], default_global) end.

Lemma ex_loaded_schedulable : schedulable ex_loaded.1 ex_loaded.2.
Proof.
  assert (forallb (fun t => negb (may_reboot (env t))) ex_loaded.1 = true /\ task_init ex_doc everything 10 [] <> None) as [Hr Hn] by (split; [vm_compute; reflexivity | now vm_compute]).
  unfold ex_loaded in *. destruct (task_init ex_doc everything 10 []) as [[[[g st] tt] k] |] eqn:E; [| contradiction].
  apply (loaded_schedulable _ _ _ _ _ _ _ _ E). rewrite List.Forall_forall. rewrite forallb_forall in Hr. intros t Ht. apply negb_true_iff. now apply Hr.
Qed.

Lemma runs_to_the_end_witness :
  exists w, reach ex_loaded.1 ex_loaded.2 w /\ stuck ex_loaded.1 ex_loaded.2 w /\ mishaps w = [] /\ length ex_loaded.1 = 2%nat /\
    over w = Some Returned /\ forall i, (i < 2)%nat -> status (tcb_at i w) = TASK_END /\ completed ex_loaded.1 w i.
Proof.
  destruct (exec_at (fun w => (over w, mishaps w)) (None, []) (Some Returned, []) ex_loaded.1 ex_loaded.2
    (drive ex_loaded.1 ex_loaded.2 (Z.to_nat 3000) (ex_start ex_loaded.1 ex_loaded.2))) as (w & R & H); [vm_compute; reflexivity | discriminate |].
  injection H as Ho Hm. exists w.
  assert (stuck ex_loaded.1 ex_loaded.2 w) as Hs by (apply over_stuck; now rewrite Ho).
  split; [exact R | split; [exact Hs | split; [exact Hm | split; [vm_compute; reflexivity |]]]].
  assert (length ex_loaded.1 = 2%nat /\ forallb (fun t => negb (exit_tinatest_when_fail (env t))) ex_loaded.1 = true) as [Hl He] by (vm_compute; auto).
  destruct (runs_to_the_end ex_loaded.1 ex_loaded.2 ex_loaded_schedulable) as [Hr _]; [| vm_compute; reflexivity |].
  - intros i. unfold env_of. destruct (ex_loaded.1 !! i) as [t |] eqn:Ht; [| reflexivity]. rewrite forallb_forall in He. apply negb_true_iff, He.
    apply list_elem_of_In. now apply list_elem_of_lookup_2 with i.
  - destruct (Hr w R Hm Hs) as [Hk | Hk]; [congruence | exact Hk].
Defined.

(** ** What goes wrong *)

(** Main waits for the recycler, the recycler for the process that limits the whole time. *)
Definition hung (w : world) : bool :=
  match over w, main_at w, rec_at w with
  | None, MJoin, RWait => bool_decide (map_to_list (procs w) = [(2, None)]) && bool_decide (born w !! 2 = Some Whole) && negb (bool_decide ((2, SIGTERM) ∈ kills w))
  | _, _, _ => false
  end.

Lemma hung_stuck tasks g w : hung w = true -> stuck tasks g w.
Proof.
  unfold hung. destruct (over w) eqn:Eo, (main_at w) eqn:Em, (rec_at w) eqn:Er; try discriminate.
  intros [[Hp%bool_decide_eq_true Hb%bool_decide_eq_true]%andb_true_iff Hk%negb_true_iff%bool_decide_eq_false]%andb_true_iff.
  assert (forall p, procs w !! p = if decide (p = 2) then Some None else None) as Hl.
  { intros p. assert (procs w = {[2 := None]}) as -> by (apply (map_to_list_inj (M := gmap Z)); rewrite map_to_list_singleton, Hp; reflexivity).
    destruct (decide (p = 2)) as [-> | Hne]; [apply lookup_singleton_eq | now apply lookup_singleton_ne]. }
  intros a w' Ha H. unfold step in H. rewrite Eo in H. destruct a as [ok ok2 | ok ok2 p | p s | p |]; [| | | | contradiction].
  - unfold main_step in H. now rewrite Em, Er in H.
  - unfold rec_step in H. rewrite Er in H. rewrite bool_decide_eq_false_2 in H; [| intros E; specialize (Hl 2); rewrite E in Hl; cbn in Hl; now rewrite lookup_empty in Hl].
    rewrite Hl in H. destruct (decide (p = 2)); discriminate.
  - rewrite Hl in H. destruct (decide (p = 2)) as [-> |]; [| discriminate]. rewrite Hb, bool_decide_eq_false_2 in H by assumption. discriminate.
  - rewrite Hl in H. destruct (decide (p = 2)) as [-> |]; [| discriminate]. now rewrite Hb in H.
Qed.

(** The events given, and then [drive]. *)
Definition play (tasks : list task) (g : global_env) (acts : list act) : list act :=
  acts ++ match exec tasks g acts (ex_start tasks g) with Next w => drive tasks g 300 w | _ => [] end.

Lemma play_hangs tasks g acts l :
  match exec tasks g (play tasks g acts) (ex_start tasks g) with Next w => if hung w then mishaps w else [] | _ => [] end = l -> [] <> l ->
  exists w, reach tasks g w /\ stuck tasks g w /\ over w = None /\ mishaps w = l.
Proof.
  intros H Hl. destruct (exec_at (fun w => if hung w then mishaps w else []) [] l tasks g _ H Hl) as (w & R & Hw).
  destruct (hung w) eqn:E; [| congruence]. exists w. split_and!; auto; [now apply hung_stuck |]. unfold hung in E. now destruct (over w).
Qed.

Definition main (k : nat) : list act := repeat (StepMain true true) k.
Definition recycler (k : nat) (p : Z) : list act := repeat (StepRec true true p) k.

(** A test that ends before [task_do_testcase] has counted it is waited for and not found; no
    one looks for it again, and the program waits until the whole time is over. *)
Example lost_death_hangs :
  let tasks := [ex_task default_local] in
  exists w, reach tasks default_global w /\ stuck tasks default_global w /\ over w = None /\ mishaps w = [LostDeath 0].
Proof. apply (play_hangs _ _ (recycler 1 0 ++ main 11 ++ [Die 5 (Exited 0)] ++ recycler 6 5)); [vm_compute; reflexivity | discriminate]. Qed.

(** When the last start fails while the recycler is inside [wait4], nothing wakes it up. *)
Example failed_start_hangs :
  let tasks := [ex_task default_local] in
  exists w, reach tasks default_global w /\ stuck tasks default_global w /\ over w = None /\ mishaps w = [StartFailed 0].
Proof. apply (play_hangs _ _ (recycler 2 0 ++ main 7 ++ repeat (StepMain false false) 2)); [vm_compute; reflexivity | discriminate]. Qed.

(** A run the recycler cannot start again leaves the test case as one that runs. *)
Example failed_repeat_hangs :
  let tasks := [ex_task (with_run_times 2 default_local)] in
  exists w, reach tasks default_global w /\ stuck tasks default_global w /\ over w = None /\ mishaps w = [RepeatFailed 0].
Proof. apply (play_hangs _ _ (recycler 1 0 ++ main 15 ++ [Die 5 (Exited 0)] ++ recycler 9 5 ++ [StepRec false false 0])); [vm_compute; reflexivity | discriminate]. Qed.

(** A parallel test case that fails once, so that it is to quit, while main cannot start its
    next run, is taken off the count twice: with a limit of one, two others then run at once. *)
Example late_failure_exceeds :
  let tasks := map ex_task [with_exit_once_failed true (with_run_parallel true (with_run_times 2 default_local)); default_local; default_local] in
  let g := with_run_cnt_up_to 1 default_global in
  exists w, reach tasks g w /\ (active_count tasks w, mishaps w) = (2%nat, [LateFailure 0]).
Proof.
  apply (exec_at _ (O, []) _ _ _ (recycler 1 0 ++ main 12 ++ [Die 5 (Exited 1)] ++ recycler 7 5 ++ [StepMain false true] ++ main 30)); [vm_compute; reflexivity | discriminate].
Qed.

(** A signal before every test case has started: [pgid] is still 0, and [kill] with it ends
    the program and not the test case. *)
Example early_signal_kills_itself :
  let tasks := map ex_task [default_local; default_local] in
  exists w, reach tasks default_global w /\ (over w, kills w) = (Some KilledSelf, [(0, SIGKILL)]).
Proof. apply (exec_at _ (None, []) _ _ _ (recycler 1 0 ++ main 4 ++ [Signal false])); [vm_compute; reflexivity | discriminate]. Qed.

(** With [exit_tinatest_when_failed] the recycler frees the list it walks. *)
Example exit_walks_freed_list :
  let tasks := map ex_task [with_run_alone true (with_exit_tinatest true default_local); default_local] in
  exec tasks default_global (recycler 1 0 ++ main 14 ++ [Die 5 (Exited 1)] ++ recycler 8 5) (ex_start tasks default_global) = Undef.
Proof. vm_compute. reflexivity. Qed.

(** Without a limit of the whole time [task_quit_clean] signals its own group when the shared
    memory its handler reads is gone. *)
Example no_limit_signals_itself :
  let tasks := [ex_task default_local] in let g := with_tinatest_run_time 0 default_global in
  match exec tasks g (play tasks g []) (ex_start tasks g) with
  | Next w => main_at w = MClean /\ step tasks g (StepMain true true) w = Undef
  | _ => False
  end.
Proof. vm_compute. split; reflexivity. Qed.

(** A test case that may reboot and does not leaves the script that starts tinatest at boot. *)
Example boot_script_stays :
  let tasks := [ex_task (with_run_alone true (with_may_reboot true default_local))] in
  exists w, reach tasks default_global w /\ (over w, boot_script w) = (Some Returned, true).
Proof. apply (exec_at _ (None, false) _ _ _ (play [ex_task (with_run_alone true (with_may_reboot true default_local))] default_global [])); [vm_compute; reflexivity | discriminate]. Qed.
